(* ===== verification/_CoqProject ===== *)
-Q . S2P
Prelude.v
Scan.v
BufPool.v
NetDev.v
Stat.v
PidTidList.v
PidStat.v
Diskstats.v
GoLib.v
CpuHeader.v
Softirqs.v
Interrupts.v
NetSnmp6.v
NetSnmp.v
Mountinfo.v
PidCmdline.v
PidStatus.v
GoTime.v
GoFloat.v
ProcPaths.v
Heap.v
Scheduler.v
SchedulerStop.v
RateController.v
CreditPace.v
Links.v
EndpointList.v
EndpointPool.v
FloatBounds.v
Compressor.v
MetricsQueue.v
Sending.v
MetricsCommon.v
NetDevMetrics.v
InternalMetrics.v
IrqMetrics.v
SoftirqsMetrics.v
InterruptsMetrics.v
NetSnmp6Metrics.v
NetSnmpMetrics.v
StatMetrics.v
DiskstatsMetrics.v
StatfsMetrics.v
Qdisc.v
QdiscMetrics.v
PidMetrics.v
PidScan.v
GoDuration.v
Config.v
Logger.v
OsUtils.v
OwnMetrics.v
PoolConfig.v
StdoutQueue.v
SendBody.v
Startup.v
Program.v
Generators.v
Lsvmi.v
