(* ===== verification/Prelude.v ===== *)
(** Verification of linux-stats-victoriametrics-importer

    The program (src/) reads statistics of a Linux host from /proc and a few
    system interfaces at regular intervals, turns them into metrics in the
    Prometheus text format and sends them, compressed and in batches, to
    VictoriaMetrics servers over HTTP.

    1. The parts of the program and how they interact

    - Parsers (src/procfs, src/qdisc): one object per file; [Parse] reads the
      file through the pool of read buffers and updates the object in place,
      reusing maps and slices from scan to scan; [Clone] makes a second object
      for the same file.
    - Metrics generators (src/lsvmi/proc_*_metrics.go, statfs_metrics.go,
      qdisc_metrics.go, internal_metrics*.go): each keeps two parser objects
      as the current and the previous scan and toggles them; it writes deltas,
      rates and values into a buffer, leaves out zeros after zeros and values
      that did not change except in periodic full cycles, and reports what is
      present.  [Execute] is the action of a task.
    - The scheduler (scheduler.go): a heap of tasks by deadline, a dispatcher,
      workers; it runs the [Execute] of the generators.
    - The compressor pool (compressor_pool.go): takes the buffers from a queue,
      compresses them into batches and hands these to the endpoint pool.
    - The endpoint pool (http_endpoint_pool.go): picks a healthy endpoint,
      sends with retries, moves endpoints that fail out of the healthy list and
      brings them back after health checks; the rate controller
      (rate_controller.go) paces what is sent.
    - Start (main.go, config.go, logger.go): the configuration is the defaults,
      the file and the command line; it gives the log its settings, builds the
      queue, starts the scheduler, and every generator adds its task.
    - End (main.go): a signal makes main return; its deferred calls shut down the
      scheduler, then the queue, then the endpoints, while a watchdog waits.

    2. The files of the development

    Foundations
      Prelude            bytes, integers at their width ([u32], [u64], [i64]), the
                         outcome monad ([Ret], [Panic], [NoFuel]), loops with fuel
                         ([while]), indexed stores, lists and maps
      Scan               procfs/common_parser.go and the loops all parsers share
      GoLib, GoTime, GoFloat, GoDuration   the parts of Go's library that the code
                         uses: fields and case of byte strings, slices with a
                         capacity; time and durations; float64 arithmetic and
                         number formatting; the parsing of durations
      FloatBounds        the relative error of the float64 operations
      Links              doubly linked lists of addresses, for the two in the code
      BufPool            internal/utils/readfile_buf_pool.go
      ProcPaths          the paths of the files, path.Join of Go's library, the
                         pools of procfs/readfile_buf_pool.go
    Parsers (Module of the same name; [Parse], [Clone], [New...] as in the source)
      NetDev, Stat, Diskstats, Mountinfo, NetSnmp, NetSnmp6, Softirqs, Interrupts
      (with CpuHeader, the heading the last two share), PidStat, PidStatus,
      PidCmdline, PidTidList (the list of processes and threads), Qdisc
    Concurrency
      Heap, Scheduler    scheduler.go; an event is one atomic action of a goroutine
      RateController     rate_controller.go: the credit and its reader
      CreditPace         the goroutine that replenishes a credit, on the clock
      EndpointList, EndpointPool   http_endpoint_pool.go; pointer structure and pool
      SendBody           the request bodies of http_endpoint_pool.go: an interface
                         with laws, its two implementations, the retries
      Compressor         compressor_pool.go: one loop as a function on events, the
                         pool as steps of its loops, which get an event and then
                         handle it
      SchedulerStop      what becomes of the scheduler's goroutines after Shutdown
      MetricsQueue       the interface MetricsQueue of metrics_common.go as a class
                         of operations and a class of laws
      StdoutQueue        stdout_metrics_queue.go, an instance of it
      Sending            compressor_pool.go and http_endpoint_pool.go together, the
                         other instance: each loop is somewhere in [SendBuffer]
                         while the others, the health checks and the shutdowns go on
    Generators
      MetricsCommon      metrics_common.go: the text of a metric, the statistics of
                         the generators, cycle numbers; the loops over maps and
                         tables that the generators share, with their lemmas
      NetDevMetrics, StatMetrics, DiskstatsMetrics, StatfsMetrics, NetSnmpMetrics,
      NetSnmp6Metrics, SoftirqsMetrics, InterruptsMetrics (with IrqMetrics, what
      they share), QdiscMetrics, InternalMetrics
      PidMetrics, PidScan   proc_pid_metrics.go: the lines of one process; the scan
                         with its cache, a map and a list linked by pointers
      OwnMetrics         go_internal_metrics.go, internal_metrics_process.go
    Start
      Config             config.go, the configuration structures of the other files,
                         cmdline_utils.go, InitCommonMetrics
      Logger             logger.go
      OsUtils            internal/utils/os_utils*.go, available_cpus*.go
      PoolConfig         the constructors of rate controller, endpoint pool and
                         compressor pool from the configuration
      Startup            the constructors of the generators, the task builders,
                         main.go up to the addition of the tasks
      Program            main.go from there to its end, with the scheduler, any
                         instance of MetricsQueue and any actions of the tasks,
                         which a worker executes and whose buffers it then queues
      Generators         the interface TaskAction of scheduler.go for the generators:
                         [Execute] of each on its state, its inputs and the variables
                         that they share
      Lsvmi              the program of a configuration, with either queue

    A Go object is a Record with the fields of the source, a method a function
    that takes and returns it.  Objects that are shared (tasks, endpoints, read
    buffers, the information that parser clones share) live in a store or are
    passed apart from the objects that refer to them.  An index out of range, a
    nil dereference or a division by zero is [Panic].  The buffer that a
    generator fills is the list of the lines written, in order.

    3. What the theorems show

    - The program: whatever the interleaving of main, scheduler, workers,
      queue, signal and shutdowns, a step panics only if it is the execution of an
      action that itself panics on the state and input that it finds; nothing is
      executed or sent to the queue once it is closed ([program_safe]); main can
      reach its end from every state in which the executions under way can
      return ([program_can_end]) and has then kept the promises of the queue
      ([program_delivers]).  With the generators as the actions, for a
      configuration that main accepts, in the bounds of section 4: every queued
      buffer is in one batch that decompresses to it, and the batches accepted by
      endpoints are those without an error ([lsvmi_sends]), or every buffer was
      printed ([lsvmi_prints]).  For which inputs a generator does not panic is
      what the theorems about it say; that there are others is proved too
      ([pid_last_gone_panics], [interrupts_cpu_hotplug], [softirqs_flip_panics]).
    - Parsers, [*_parse_file]: the parse of any file of the documented form
      returns without error and leaves exactly the values of the file, whatever
      the object held before, with vanished entries removed.
      [netsnmp_cache_transparent]: the cached line formats are equivalent to
      parsing from scratch.  [cmdline_roundtrip]: the label value can be decoded
      back.  [pid_list_partition]: every process is in exactly one part.
      [qdisc_parse_messages]: the messages decoded, with the name under which
      each discipline is kept.  [readfile_spec],
      [bufpool_exclusive]: the read buffers.  [proc_paths_distinct]: different
      files, processes and threads have different paths under any root.  [os_release_parsed],
      [uname_release_parsed], [count_cpus_ones]: what is known of the system.
    - Generators, [*_metrics_deltas], [stat_metrics_percentages],
      [disk_metrics_values], [statfs_tracks_mounts], [netdev_metrics_presence]:
      for all pairs of scans, in every order of iteration, a generation does not
      panic and writes exactly the lines that the deltas (modulo the width of the
      counter), the flags and the cycle call for; what it needs of its caches it
      leaves for the next one.  The exceptions are conditions of the theorems:
      [interrupts_metrics_deltas], over a sequence of files, needs one heading and
      no interrupt that comes back; [disk_metrics_values] and
      [qdisc_metrics_deltas] say under which condition on the cached data the
      names or labels are the current ones, and [qdisc_metrics_deltas] when what is
      gone is reported absent.  [gen_stats_conserved], [internal_scheduler_deltas]: the
      statistics about the generators are neither lost nor counted twice.
      Processes: [pid_metrics_lines] (against a reference that names every metric
      and label without the format cache) and [pid_metrics_count] for one process,
      [pid_scan_refines] (the pointers do what a plain sequence does) and
      [pid_scan_report] (no line lost, the counts agree with the cache) for a
      scan, in which no identifier was reused by a process whose files cannot be
      read ([pid_reuse_leaks]).  [go_metrics_deltas], [process_metrics_last]: the own metrics.
    - Scheduler: the invariant of heap, queues and task states under every
      interleaving, no task lost, earliest deadline first, deadlines of the
      tasks added again, no deadlock, the end of every goroutine after a
      shutdown ([scheduler_shutdown_returns]).
    - Sending, for a batch target size from 16 bytes to 2^48: every buffer
      accepted is delivered in order, once, or reported lost
      ([compressor_delivers_all], [compressor_pool_conserves]); the size at which a
      batch is sent stays positive and within its type
      ([compressor_limit_bounds]).  A target of 0, which is accepted, breaks all
      three ([compressor_panics_without_writer]).  The pool's invariant; [SendBuffer] terminates
      and tells the truth; the pointer list refines a sequence; credit is
      conserved, the documented rate is kept ([credit_rate]), and readers read
      everything; a retry sends the whole buffer ([send_body_retries]); the standard output
      has the buffers in order ([stdout_queue_order]).
    - Start: precedence of defaults, file and command line
      ([config_overrides], [override_endpoints_roundtrip]); a valid section
      gives a pool with its invariant ([http_pool_built],
      [compressor_pool_config], [rate_spec_whole]), an invalid one the first
      error ([http_pool_first_error]); the tasks of the program are the enabled
      generators with distinct names ([startup_tasks]) and adding them leads
      to the states of the scheduler ([startup_launch]), to which the theorems
      about it apply; the log ([set_logger_settings], [log_caller_cached],
      [log_fields_sorted]) and the help texts ([usage_format_lines]).
    - Behaviour that is not what the code means to do is proved as such on
      concrete inputs: [disk_gone_stops_metrics], [interrupts_cpu_hotplug],
      [qdisc_labels_flap], [snmp6_rollover], [mountinfo_error_lost],
      [softirqs_flip_panics], [interrupts_stale_delta], [pid_last_gone_panics],
      [pid_reuse_leaks], [pid_comm_forges_label], [uname_release_dotted],
      [startup_without_log_section], [startup_can_hang] and others.

    4. Fuel, bounds and parameters

    Loops over a buffer run under [while] with the length of what is left plus
    one as fuel; every iteration consumes a byte ([lines_progress]), and the
    theorems state [Ret], so the fuel is enough.  The sift loops of the heap are
    bounded by the index.  The loop that moves a deadline forward has the
    distance in intervals as fuel ([hack_fuel]), waiting for credit the number
    of replenishments needed ([get_fuel]), a reader the bytes left.  A list of
    attempts bounds [SendBuffer], and its termination theorem says how many it
    takes.  That goroutines can end is shown with the number of the steps they
    have left as the measure ([left_steps]).  Decimal formatting has the binary logarithm as the number of digits;
    [own_size] needs at most 20 steps, one for every decimal digit of a length,
    [find_mask] 32, one for every power of two of a number of parts.  The
    removal of outdated processes has the number of objects plus one, the
    parsing of a duration the length of the text plus one, the loop over the
    bits of a mask 65.

    Parameters: the content of the files ([read_result]); the orders of map
    iterations (any order that has every key once, [is_order]); clock readings;
    HTTP responses; gzip, by its documented behaviour, of which a part is that a
    batch has at most twice the size of its data plus 64 bytes and at least a
    2048th of it ([plausible]); unicode case of
    non-ASCII letters; the result of statfs; the netlink package and its
    decoders; the YAML decoder; the logging package and the rotation of its
    file; [url.Parse], [units.RAMInBytes] and the permutation of a shuffle;
    [strconv.ParseFloat] outside plain decimals; what the operating system says
    about itself.  Where a theorem assumes something of one of them, its witness
    has an instance.

    Bounds on data: the batch target size is from 16 bytes to 2^48
    ([target_ok]), a buffer has at most 2^59 bytes ([buf_max]); that the data of a
    batch then stays under 2^61 ([data_max]) is proved.  With more than 64 tasks,
    as from 55 partitions of the processes on, the scheduler can block
    ([startup_can_hang]).

    Granularity: a step is what a goroutine does between two points where it can
    block or takes a lock; a health check has two, its counts and the return of
    the endpoint to the healthy list.  An execution of a generator is one step,
    its buffers are queued after it, one step each.  The variables that
    generators share are read and written in that step; the statistics of the
    scheduler and of the pools that the internal metrics read are inputs of it.

    5. What is not modelled

    Log messages, except for their settings, places and field order.  The
    stop of the goroutine of CreditPace.v at the end of
    HttpEndpointPool.Shutdown is not a step of Sending.v.
    How long things take: a wait may end or go on at any time, and the watchdog
    may fire at any time after the signal.  The system calls themselves, and the stubs for other systems.  The accessors of
    logger.go and the printing of values for the log.  Test utilities and
    example programs are not part of the importer. *)

From Stdlib Require Import ZArith Lia.
From stdpp Require Import base tactics numbers strings gmap list.
From Stdlib Require Strings.Byte.

Declare Scope go_scope.
Delimit Scope go_scope with go.

(** ** Bytes and strings *)

(** Go's [byte]; a Go [string] or [[]byte] content is a list of bytes. *)
Abbreviation byte := Init.Byte.byte.
Abbreviation bytes := (list Init.Byte.byte).

(** The bytes of a literal. *)
Definition bs (s : string) : bytes := Strings.String.list_byte_of_string s.

(** [uint8] value of a byte. *)
Definition byte_val (b : byte) : Z := Z.of_N (Strings.Byte.to_N b).

Lemma byte_val_inj b1 b2 : byte_val b1 = byte_val b2 -> b1 = b2.
Proof.
  unfold byte_val. intros H%N2Z.inj.
  pose proof (Strings.Byte.of_to_N b1); pose proof (Strings.Byte.of_to_N b2). congruence.
Qed.

Lemma byte_val_range b : (0 <= byte_val b < 256)%Z.
Proof. unfold byte_val. pose proof (Strings.Byte.to_N_bounded b). lia. Qed.

#[export] Instance byte_eq_dec : EqDecision byte := Strings.Byte.byte_eq_dec.

#[export] Instance byte_countable : Countable byte.
Proof.
  refine (inj_countable Strings.Byte.to_N Strings.Byte.of_N _).
  apply Strings.Byte.of_to_N.
Defined.

(** Byte comparison as the code writes it, [c == 'x']. *)
Definition beq (a b : byte) : bool := bool_decide (a = b).

Lemma beq_true a b : beq a b = true <-> a = b.
Proof. unfold beq. apply bool_decide_eq_true. Qed.

Lemma beq_false a b : beq a b = false <-> a <> b.
Proof. unfold beq. apply bool_decide_eq_false. Qed.

Lemma beq_refl a : beq a a = true.
Proof. by apply beq_true. Qed.

(** ** Machine integers *)

(** Unsigned wrap-around at [w] bits; [int64] (Go's [int] on the supported
    64-bit targets) wraps into [-2^63, 2^63). *)
Definition wrapu (w : Z) (z : Z) : Z := (z mod 2 ^ w)%Z.
Definition u64 (z : Z) : Z := wrapu 64 z.
Definition u32 (z : Z) : Z := wrapu 32 z.
Definition i64 (z : Z) : Z := ((z + 2 ^ 63) mod 2 ^ 64 - 2 ^ 63)%Z.

Definition MaxInt64 : Z := (2 ^ 63 - 1)%Z.
Definition MinInt64 : Z := (- 2 ^ 63)%Z.

Lemma wrapu_range w z : (0 <= w)%Z -> (0 <= wrapu w z < 2 ^ w)%Z.
Proof. intros. apply Z.mod_pos_bound. lia. Qed.

Lemma wrapu_small w z : (0 <= z < 2 ^ w)%Z -> wrapu w z = z.
Proof. apply Z.mod_small. Qed.

Lemma i64_small z : (MinInt64 <= z <= MaxInt64)%Z -> i64 z = z.
Proof. unfold i64, MinInt64, MaxInt64. intros. rewrite Z.mod_small; lia. Qed.

Lemma i64_range z : (MinInt64 <= i64 z <= MaxInt64)%Z.
Proof.
  unfold i64, MinInt64, MaxInt64.
  pose proof (Z.mod_pos_bound (z + 2 ^ 63) (2 ^ 64)). lia.
Qed.

(** One decimal digit appended to an accumulator, [(val << 3) + (val << 1) +
    digit] at [w] bits, every operation wrapping. *)
Definition push_digit (w : Z) (val digit : Z) : Z :=
  wrapu w (wrapu w (wrapu w (Z.shiftl val 3) + wrapu w (Z.shiftl val 1)) + digit).

Lemma push_digit_spec w val digit :
  (0 <= w)%Z -> push_digit w val digit = wrapu w (10 * val + digit).
Proof.
  intros Hw. unfold push_digit, wrapu. rewrite !Z.shiftl_mul_pow2 by lia.
  rewrite Z.add_mod_idemp_l by lia. rewrite <- Z.add_mod_idemp_l by lia.
  rewrite <- Z.add_mod by lia. rewrite Z.add_mod_idemp_l by lia. f_equal. lia.
Qed.

(** A scan number and its successor differ. *)
Lemma u64_succ_ne n : (0 <= n < 2 ^ 64)%Z -> u64 (n + 1) <> n.
Proof.
  intros H E. unfold u64, wrapu in E. destruct (decide (n + 1 < 2 ^ 64)%Z).
  - rewrite Z.mod_small in E; lia.
  - replace (n + 1)%Z with (2 ^ 64)%Z in E by lia. rewrite Z.mod_same in E; lia.
Qed.

(** The same for an [int]. *)
Definition push_digit_int (val digit : Z) : Z :=
  i64 (i64 (i64 (Z.shiftl val 3) + i64 (Z.shiftl val 1)) + digit).

Lemma i64_mod a b : (a mod 2 ^ 64 = b mod 2 ^ 64)%Z -> i64 a = i64 b.
Proof.
  intros H. unfold i64. f_equal. rewrite <- Z.add_mod_idemp_l, H, Z.add_mod_idemp_l; lia.
Qed.

Lemma i64_idem_mod a : (i64 a mod 2 ^ 64 = a mod 2 ^ 64)%Z.
Proof.
  unfold i64. rewrite Zminus_mod_idemp_l. f_equal. lia.
Qed.

Lemma i64_add_l a b : i64 (i64 a + b) = i64 (a + b).
Proof.
  apply i64_mod. rewrite <- Z.add_mod_idemp_l, i64_idem_mod, Z.add_mod_idemp_l; lia.
Qed.

Lemma i64_idem a : i64 (i64 a) = i64 a.
Proof. apply i64_mod, i64_idem_mod. Qed.

Lemma i64_add_r a b : i64 (a + i64 b) = i64 (a + b).
Proof. by rewrite Z.add_comm, i64_add_l, Z.add_comm. Qed.

Lemma i64_mul_r a b : i64 (a * i64 b) = i64 (a * b).
Proof.
  apply i64_mod. rewrite <- Z.mul_mod_idemp_r, i64_idem_mod, Z.mul_mod_idemp_r; lia.
Qed.

Lemma push_digit_int_spec val digit : push_digit_int val digit = i64 (10 * val + digit).
Proof.
  unfold push_digit_int. rewrite !Z.shiftl_mul_pow2 by lia.
  rewrite i64_add_l, <- Z.add_assoc, i64_add_l, Z.add_assoc, (Z.add_comm (val * 2 ^ 3)),
    <- Z.add_assoc, i64_add_l. f_equal. lia.
Qed.

Lemma i64_succ_ne n : (MinInt64 <= n <= MaxInt64)%Z -> i64 (n + 1) <> n.
Proof.
  intros Hn E. destruct (decide (n = MaxInt64)) as [->|].
  - by vm_compute in E.
  - rewrite i64_small in E; unfold MinInt64, MaxInt64 in *; lia.
Qed.

(** ** Outcomes: a Go call returns, panics, or (in the model only) has run out
    of the fuel given to a loop. *)
Inductive outcome (A : Type) :=
| Ret (a : A)
| Panic
| NoFuel.
Arguments Ret {A} a.
Arguments Panic {A}.
Arguments NoFuel {A}.

#[export] Instance outcome_ret : MRet outcome := fun A a => Ret a.
#[export] Instance outcome_bind : MBind outcome := fun A B f c =>
  match c with Ret a => f a | Panic => Panic | NoFuel => NoFuel end.

(** A value the code dereferences or indexes: absent means a run-time panic. *)
Definition must {A} (o : option A) : outcome A :=
  match o with Some a => Ret a | None => Panic end.

Lemma bind_ret {A B} (a : A) (f : A -> outcome B) : (x ← Ret a; f x) = f a.
Proof. reflexivity. Qed.

Lemma bind_Ret_inv {A B} (c : outcome A) (f : A -> outcome B) r :
  (x ← c; f x) = Ret r -> exists a, c = Ret a /\ f a = Ret r.
Proof. destruct c; naive_solver. Qed.

Lemma bind_NoFuel_inv {A B} (c : outcome A) (f : A -> outcome B) :
  (x ← c; f x) = NoFuel -> c = NoFuel \/ exists a, c = Ret a /\ f a = NoFuel.
Proof. destruct c; naive_solver. Qed.

Lemma bind_Panic_inv {A B} (c : outcome A) (f : A -> outcome B) :
  (x ← c; f x) = Panic -> c = Panic \/ exists a, c = Ret a /\ f a = Panic.
Proof. destruct c; naive_solver. Qed.

Lemma must_NoFuel {A} (o : option A) : must o <> NoFuel.
Proof. by destruct o. Qed.

(** A call that returns, with a result that satisfies [Q]. *)
Definition returns {A} (c : outcome A) (Q : A -> Prop) : Prop := exists a, c = Ret a /\ Q a.

Lemma returns_ret {A} (a : A) (Q : A -> Prop) : Q a -> returns (Ret a) Q.
Proof. by exists a. Qed.

Lemma returns_bind {A B} (c : outcome A) (f : A -> outcome B) (P : A -> Prop) (Q : B -> Prop) :
  returns c P -> (forall a, P a -> returns (f a) Q) -> returns (x ← c; f x) Q.
Proof. intros (a & -> & Ha) Hf. by apply Hf. Qed.

Lemma returns_mono {A} (c : outcome A) (P Q : A -> Prop) : returns c P -> (forall a, P a -> Q a) -> returns c Q.
Proof. intros (a & -> & Ha) H. exists a. auto. Qed.

Lemma returns_must {A} (o : option A) (Q : A -> Prop) a : o = Some a -> Q a -> returns (must o) Q.
Proof. intros -> H. by exists a. Qed.

(** ** Loops *)

(** [while fuel body s]: run [body] from [s] until it yields [inr]. *)
Fixpoint while {S R} (fuel : nat) (body : S -> outcome (S + R)) (s : S) : outcome R :=
  match fuel with
  | O => NoFuel
  | Datatypes.S f =>
    c ← body s;
    match c with inl s' => while f body s' | inr r => Ret r end
  end.

Section while.
Context {S R : Type} (body : S -> outcome (S + R)) (m : S -> nat).

Lemma while_inl f s s' :
  body s = Ret (inl s') -> while (Datatypes.S f) body s = while f body s'.
Proof. simpl. by intros ->. Qed.

Lemma while_inr f s r :
  body s = Ret (inr r) -> while (Datatypes.S f) body s = Ret r.
Proof. simpl. by intros ->. Qed.

(** Enough fuel: a measure that decreases at every iteration bounds it. *)
Lemma while_enough fuel s :
  (forall s, body s <> NoFuel) ->
  (forall s s', body s = Ret (inl s') -> m s' < m s) ->
  m s < fuel -> while fuel body s <> NoFuel.
Proof.
  intros Hnf Hm. revert s. induction fuel as [|f IH]; intros s Hs; [lia|].
  simpl. destruct (body s) as [[s'|r]| |] eqn:E; simpl; try done.
  - apply IH. specialize (Hm _ _ E). lia.
  - by apply Hnf in E.
Qed.

(** More fuel does not change a result. *)
Lemma while_mono fuel fuel' s :
  while fuel body s <> NoFuel -> fuel <= fuel' -> while fuel' body s = while fuel body s.
Proof.
  revert fuel' s. induction fuel as [|f IH]; intros fuel' s Hnf Hle; [done|].
  destruct fuel' as [|f']; [lia|]. simpl in *.
  destruct (body s) as [[s'|r]| |]; simpl in *; try done. apply IH; [done|lia].
Qed.

(** The same when the measure decreases only under an invariant. *)
Lemma while_enough_inv (I : S -> Prop) fuel s :
  (forall s, I s -> body s <> NoFuel) ->
  (forall s s', I s -> body s = Ret (inl s') -> I s' /\ m s' < m s) ->
  I s -> m s < fuel -> while fuel body s <> NoFuel.
Proof.
  intros Hnf Hm. revert s. induction fuel as [|f IH]; intros s HI Hs; [lia|].
  simpl. destruct (body s) as [[s'|r]| |] eqn:E; simpl; try done.
  - destruct (Hm _ _ HI E). apply IH; [done|lia].
  - by apply Hnf in E.
Qed.

(** A loop rule: an invariant of every iteration gives the postcondition. *)
Lemma while_rule (I : S -> Prop) (Q : R -> Prop) fuel s r :
  (forall s s', I s -> body s = Ret (inl s') -> I s') ->
  (forall s r, I s -> body s = Ret (inr r) -> Q r) ->
  I s -> while fuel body s = Ret r -> Q r.
Proof.
  intros Hl Hr. revert s. induction fuel as [|f IH]; intros s HI; simpl; [done|].
  destruct (body s) as [[s'|r']| |] eqn:E; simpl; try done.
  - apply IH. by eapply Hl.
  - intros [= <-]. by eapply Hr.
Qed.

(** A loop whose body never panics under an invariant does not panic. *)
Lemma while_no_panic (I : S -> Prop) fuel s :
  (forall s s', I s -> body s = Ret (inl s') -> I s') ->
  (forall s, I s -> body s <> Panic) ->
  I s -> while fuel body s <> Panic.
Proof.
  intros Hl Hp. revert s. induction fuel as [|f IH]; intros s HI; simpl; [done|].
  destruct (body s) as [[s'|r']| |] eqn:E; simpl; try done.
  - apply IH. by eapply Hl.
  - by apply Hp in E.
Qed.

(** Total correctness: under an invariant every iteration returns and either
    decreases the measure or gives the postcondition. *)
Lemma while_total (I : S -> Prop) (Q : R -> Prop) fuel s :
  (forall s, I s -> exists c, body s = Ret c /\ match c with inl s' => I s' /\ m s' < m s | inr r => Q r end) ->
  I s -> m s < fuel -> exists r, while fuel body s = Ret r /\ Q r.
Proof.
  intros Hb. revert s. induction fuel as [|f IH]; intros s HI Hs; [lia|].
  destruct (Hb s HI) as (c & Hc & Hq). simpl. rewrite Hc. simpl. destruct c as [s'|r]; [|by exists r].
  destruct Hq as [HI' Hlt]. apply IH; [done|lia].
Qed.
End while.

(** ** Lists *)

(** [l[i] = x]: out of range panics. *)
Definition store {A} (l : list A) (i : nat) (x : A) : outcome (list A) :=
  if decide (i < length l) then Ret (<[i:=x]> l) else Panic.

Lemma store_Ret {A} (l : list A) i x : i < length l -> store l i x = Ret (<[i:=x]> l).
Proof. intros. unfold store. by rewrite decide_True. Qed.

Lemma store_NoFuel {A} (l : list A) i x : store l i x <> NoFuel.
Proof. unfold store. by case_decide. Qed.

Lemma store_length {A} (l l' : list A) i x : store l i x = Ret l' -> length l' = length l.
Proof. unfold store. case_decide; [|done]. intros [= <-]. apply length_insert. Qed.

(** The longest prefix that satisfies [p], and the rest: the loops
    [for ; pos < l && p(buf[pos]); pos++]. *)
Fixpoint span {A} (p : A -> bool) (l : list A) : list A * list A :=
  match l with
  | [] => ([], [])
  | x :: l' => if p x then let '(a, b) := span p l' in (x :: a, b) else ([], l)
  end.

Definition skip {A} (p : A -> bool) (l : list A) : list A := (span p l).2.

(** A list that does not start with an element satisfying [p]. *)
Definition stops {A} (p : A -> bool) (l : list A) : Prop :=
  match l with [] => True | x :: _ => p x = false end.

Lemma span_append {A} (p : A -> bool) l : (span p l).1 ++ (span p l).2 = l.
Proof. induction l as [|x l IH]; simpl; [done|]. destruct (p x); [|done].
  destruct (span p l). simpl in *. by rewrite IH. Qed.

Lemma span_all {A} (p : A -> bool) l : Forall (fun x => p x = true) (span p l).1.
Proof. induction l as [|x l IH]; simpl; [constructor|]. destruct (p x) eqn:E; [|constructor].
  destruct (span p l). simpl in *. by constructor. Qed.

Lemma span_stops {A} (p : A -> bool) l : stops p (span p l).2.
Proof. induction l as [|x l IH]; simpl; [done|]. destruct (p x) eqn:E; [|done].
  by destruct (span p l). Qed.

Lemma span_app {A} (p : A -> bool) a b :
  Forall (fun x => p x = true) a -> stops p b -> span p (a ++ b) = (a, b).
Proof.
  intros Ha Hb. induction Ha as [|x a Hx _ IH]; simpl.
  - destruct b; simpl in *; [done|]. by rewrite Hb.
  - by rewrite Hx, IH.
Qed.

Lemma span_app_all {A} (p : A -> bool) a b :
  Forall (fun x => p x = true) a -> span p (a ++ b) = (a ++ (span p b).1, (span p b).2).
Proof.
  induction 1 as [|x a Hx _ IH]; cbn [app span]; [by destruct (span p b)|]. by rewrite Hx, IH.
Qed.

Lemma skip_app {A} (p : A -> bool) a b :
  Forall (fun x => p x = true) a -> stops p b -> skip p (a ++ b) = b.
Proof. intros. unfold skip. by rewrite span_app. Qed.

Lemma skip_stops_id {A} (p : A -> bool) b : stops p b -> skip p b = b.
Proof. intros. change b with ([] ++ b) at 1. by apply skip_app. Qed.

Lemma skip_length {A} (p : A -> bool) l : length (skip p l) <= length l.
Proof. unfold skip. rewrite <- (span_append p l) at 2. rewrite length_app. lia. Qed.

Lemma stops_app {A} (p : A -> bool) a b : a <> [] -> stops p a -> stops p (a ++ b).
Proof. by destruct a. Qed.

Lemma stops_cons {A} (p : A -> bool) x b : p x = false -> stops p (x :: b).
Proof. done. Qed.

(** Decide a property of all elements by computation. *)
(** Two loops over lists of the same length. *)
Lemma imap_eq {A B C} (f : nat -> A -> C) (g : nat -> B -> C) l1 l2 :
  length l1 = length l2 -> (forall i a b, l1 !! i = Some a -> l2 !! i = Some b -> f i a = g i b) ->
  imap f l1 = imap g l2.
Proof.
  intros Hl Hf. apply list_eq. intros i. rewrite !list_lookup_imap.
  destruct (l1 !! i) as [a|] eqn:Ea, (l2 !! i) as [b|] eqn:Eb; simpl; [|exfalso..|done].
  - f_equal. by apply Hf.
  - apply lookup_lt_Some in Ea. apply lookup_ge_None in Eb. lia.
  - apply lookup_lt_Some in Eb. apply lookup_ge_None in Ea. lia.
Qed.

Lemma Forall_forallb {A} (p : A -> bool) l : forallb p l = true -> Forall (fun x => p x = true) l.
Proof. intros H. apply Forall_forall. intros x Hx%list_elem_of_In. by apply (proj1 (forallb_forall p l) H). Qed.

(** ** Maps built by a scan *)

Section scan_map.
Context {A K V : Type} `{Countable K} (f : A -> K) (g : A -> V).

Definition insert_all (rows : list A) (m : gmap K V) : gmap K V :=
  foldl (fun m r => <[f r := g r]> m) m rows.

Lemma insert_all_notin rows m k :
  k ∉ map f rows -> insert_all rows m !! k = m !! k.
Proof.
  unfold insert_all. revert m. induction rows as [|r rows IH]; intros m Hk; simpl; [done|].
  simpl in Hk. apply not_elem_of_cons in Hk as [Hne Hk].
  rewrite IH by done. by rewrite lookup_insert_ne.
Qed.

Lemma insert_all_in rows m r :
  NoDup (map f rows) -> r ∈ rows -> insert_all rows m !! f r = Some (g r).
Proof.
  unfold insert_all. revert m. induction rows as [|r' rows IH]; intros m Hnd Hr; [set_solver|].
  simpl in *. apply NoDup_cons in Hnd as [Hni Hnd]. apply elem_of_cons in Hr as [->|Hr].
  - fold (insert_all rows (<[f r' := g r']> m)). rewrite insert_all_notin by done.
    by rewrite lookup_insert_eq.
  - by apply IH.
Qed.

(** Every key of the rows is there, and nothing else is new. *)
Lemma insert_all_Some rows m k v :
  NoDup (map f rows) -> insert_all rows m !! k = Some v ->
  (exists r, r ∈ rows /\ f r = k /\ g r = v) \/ ((k ∉ map f rows) /\ m !! k = Some v).
Proof.
  intros Hnd Hl. destruct (decide (k ∈ map f rows)) as [Hin|Hni].
  - apply list_elem_of_fmap in Hin as (r & -> & Hr). left. exists r.
    rewrite insert_all_in in Hl by done. by injection Hl as <-.
  - right. by rewrite insert_all_notin in Hl.
Qed.

(** A scan inserts what it found and drops the entries that do not satisfy
    [P], which held for none before: what is left is what was found. *)
Lemma insert_all_filter (P : V -> Prop) `{forall kv : K * V, Decision (P kv.2)} rows m :
  NoDup (map f rows) -> (forall r, r ∈ rows -> P (g r)) ->
  map_Forall (fun _ v => ~ P v) m ->
  filter (fun kv : K * V => P kv.2) (insert_all rows m) =
  list_to_map (map (fun r => (f r, g r)) rows).
Proof.
  intros Hnd HP Hm. apply map_eq. intros k. apply option_eq. intros v.
  rewrite map_lookup_filter_Some.
  assert (NoDup (map (fun r => (f r, g r)) rows).*1) as Hnd'.
  { replace ((map (fun r => (f r, g r)) rows).*1) with (map f rows); [done|].
    clear. by induction rows; f_equal/=. }
  rewrite <- elem_of_list_to_map by done. split.
  - intros [Hl Hv]. destruct (decide (k ∈ map f rows)) as [Hin|Hni].
    + apply list_elem_of_fmap in Hin as (r & -> & Hr). rewrite insert_all_in in Hl by done.
      injection Hl as <-. apply list_elem_of_fmap. by exists r.
    + rewrite insert_all_notin in Hl by done. by apply Hm in Hl.
  - intros (r & [= -> ->] & Hr)%list_elem_of_fmap. rewrite insert_all_in by done.
    split; [done|by apply HP].
Qed.

(** The same, entry by entry. *)
Lemma insert_all_filter_lookup (P : V -> Prop) `{forall kv : K * V, Decision (P kv.2)} rows m k v :
  NoDup (map f rows) -> (forall r, r ∈ rows -> P (g r)) -> map_Forall (fun _ v => ~ P v) m ->
  filter (fun kv : K * V => P kv.2) (insert_all rows m) !! k = Some v <->
  exists r, r ∈ rows /\ k = f r /\ v = g r.
Proof.
  intros Hnd HP Hm. rewrite map_lookup_filter_Some. cbn [snd]. split.
  - intros [Hk Hd]. apply insert_all_Some in Hk as [(r & Hr & <- & <-)|[_ Hc]]; [by exists r| |done].
    by apply (Hm k v) in Hc.
  - intros (r & Hr & -> & ->). split; [by apply insert_all_in|by apply HP].
Qed.

(** An entry that is not new and does not satisfy [P] was there before, under a
    key that is not among the rows. *)
Lemma insert_all_stale (P : V -> Prop) `{forall v, Decision (P v)} rows m :
  NoDup (map f rows) -> (forall r, r ∈ rows -> P (g r)) -> map_Forall (fun _ v => ~ P v) m ->
  ~ map_Forall (fun _ v => P v) (insert_all rows m) <-> exists k, is_Some (m !! k) /\ (k ∉ map f rows).
Proof.
  intros Hnd HP Hm. split.
  - intros (k & v & Hv & Hn)%map_not_Forall; [|solve_decision]. exists k.
    apply insert_all_Some in Hv as [(r & Hr & _ & <-)|[Hk Hv]]; [by destruct Hn; apply HP| |done]. eauto.
  - intros (k & [v Hv] & Hk) Hall. apply (Hm k v Hv), (Hall k). by rewrite insert_all_notin.
Qed.
End scan_map.

(** ** Tactics and hints *)

(** ** Storing rows by an index *)

Section store_rows.
Context {R K V : Type} (key : R -> K) (val : R -> V) (idx : K -> option nat).

(** A row whose key has an index is stored there. *)
Definition store_row (l : list V) (r : R) : list V :=
  match idx (key r) with Some i => <[i := val r]> l | None => l end.

Lemma store_row_length l r : length (store_row l r) = length l.
Proof. unfold store_row. case_match; [apply length_insert|done]. Qed.

(** With distinct keys and an injective index every row is found under its
    index, and the rest is as before. *)
Lemma store_rows_spec N rows : forall l,
  (forall k i, idx k = Some i -> i < N) -> (forall k1 k2 i, idx k1 = Some i -> idx k2 = Some i -> k1 = k2) ->
  NoDup (map key rows) -> length l = N ->
  let l' := foldl store_row l rows in
  length l' = N /\
  (forall r i, r ∈ rows -> idx (key r) = Some i -> l' !! i = Some (val r)) /\
  (forall i, (forall r, r ∈ rows -> idx (key r) <> Some i) -> l' !! i = l !! i).
Proof.
  induction rows as [|r rows IH]; intros l Hlt Hinj Hnd Hlen; cbn [foldl map] in *.
  - split_and!; [done| |done]. intros r i Hr. by apply not_elem_of_nil in Hr.
  - apply NoDup_cons in Hnd as [Hr Hnd].
    destruct (IH (store_row l r) Hlt Hinj Hnd) as (H1 & H2 & H3); [by rewrite store_row_length|].
    split_and!; [done| |].
    + intros r' i Hr' Hi. apply elem_of_cons in Hr' as [->|Hr']; [|by apply H2].
      rewrite H3.
      * unfold store_row. rewrite Hi. apply list_lookup_insert_eq. rewrite Hlen. by eapply Hlt.
      * intros r2 Hr2 Hi2. apply Hr. rewrite (Hinj _ _ _ Hi Hi2). by apply list_elem_of_fmap_2.
    + intros i Hi. rewrite H3 by (intros r2 Hr2; apply Hi; set_solver).
      unfold store_row. destruct (idx (key r)) as [j|] eqn:Ej; [|done].
      rewrite list_lookup_insert_ne; [done|]. intros ->. apply (Hi r); [set_solver|done].
Qed.
End store_rows.

(** Invert a monadic [Ret]. *)
Ltac inv_ret :=
  repeat match goal with
  | H : mbind _ _ = Ret _ |- _ => apply bind_Ret_inv in H; destruct H as (? & ? & H)
  | H : Ret _ = Ret _ |- _ => injection H; clear H; intros; subst
  | H : mret _ = Ret _ |- _ => unfold mret, outcome_ret in H
  | H : Panic = Ret _ |- _ => discriminate H
  | H : NoFuel = Ret _ |- _ => discriminate H
  end.

Create HintDb go.
#[export] Hint Resolve byte_val_range wrapu_range skip_length must_NoFuel store_NoFuel : go.
Create Rewrite HintDb go.
#[export] Hint Rewrite @span_append beq_refl @length_app : go.
