(* ===== verification/Scan.v ===== *)
(** Byte scanning shared by the procfs parsers (src/procfs/common_parser.go).

    A parser walks a buffer [buf] with a cursor [pos].  The model keeps the
    cursor as the bytes from [pos] to the end of the buffer, so that
    [pos < l] is "the cursor is not empty", [buf[pos]] is its head, [pos++]
    drops the head and [buf[start:pos]] is what was consumed since [start].
    The loops that the parsers share (skip white space, read one decimal
    number, read the fields of a line) are here, with the lemmas that say what
    they do on a well-formed line. *)

From Stdlib Require Import ZArith Lia.
From stdpp Require Import base tactics numbers strings gmap list.
From S2P Require Import Prelude.

Definition NL : byte := Init.Byte.x0a.
Definition SP : byte := Init.Byte.x20.
Definition TAB : byte := Init.Byte.x09.
Definition COLON : byte := Init.Byte.x3a.

(** The lookup tables [isWhitespace] and [isWhitespaceNl]. *)
Definition isWhitespace (c : byte) : bool := beq c SP || beq c TAB.
Definition isWhitespaceNl (c : byte) : bool := beq c SP || beq c TAB || beq c NL.

(** [getCurrentLine(buf, pos)]: a negative position also looks left for the
    start of the line.  Slicing or indexing out of range panics. *)
Definition getCurrentLine (buf : bytes) (pos : Z) : outcome bytes :=
  let l := length buf in
  let p := Z.to_nat (Z.abs pos) in
  if decide (l < p) then Panic
  else
    let lineStart :=
      if decide (pos < 0)%Z
      then p - length (span (fun c => negb (beq c NL)) (rev (take p buf))).1
      else p in
    let lineEnd := p + length (span (fun c => negb (beq c NL)) (drop p buf)).1 in
    Ret (take (lineEnd - lineStart) (drop lineStart buf)).

(** The same for a non-negative position given as a cursor. *)
Definition current_line (s : bytes) : bytes := (span (fun c => negb (beq c NL)) s).1.

Lemma getCurrentLine_cursor buf p :
  p <= length buf -> getCurrentLine buf (Z.of_nat p) = Ret (current_line (drop p buf)).
Proof.
  intros Hp. unfold getCurrentLine.
  replace (Z.to_nat (Z.abs (Z.of_nat p))) with p by lia.
  rewrite decide_False by lia. rewrite decide_False by lia.
  f_equal. rewrite Nat.add_comm, Nat.add_sub. unfold current_line.
  rewrite <- (span_append (fun c => negb (beq c NL)) (drop p buf)) at 2.
  by rewrite take_app_length.
Qed.

(** ** Numbers *)

(** [digit := c - '0'] on [uint8]. *)
Definition digit_of (c : byte) : Z := wrapu 8 (byte_val c - 48).
Definition is_digit (c : byte) : bool := (digit_of c <? 10)%Z.

(** The value of a string of digits, without wrap-around. *)
Definition dec_from (v : Z) (ds : bytes) : Z :=
  foldl (fun v c => (10 * v + digit_of c)%Z) v ds.
Definition dec (ds : bytes) : Z := dec_from 0 ds.

(** The number loop of the parsers,
    [for done := false; !done && pos < l; pos++ { ... }]: digits accumulate at
    [w] bits, white space or a new line ends the number and is consumed,
    anything else is an error. *)
Inductive num_end :=
| NumEnd (val : Z) (hasVal eol : bool) (rest : bytes)
| NumBad (c : byte) (rest : bytes).

Fixpoint scan_num (w : Z) (val : Z) (hasVal eol : bool) (s : bytes) : num_end :=
  match s with
  | [] => NumEnd val hasVal eol []
  | c :: s' =>
    if is_digit c then scan_num w (push_digit w val (digit_of c)) true eol s'
    else
      let eol := beq c NL in
      if eol || isWhitespace c then NumEnd val hasVal eol s' else NumBad c s
  end.

(** ** The fields of a line *)

Record fields := Fields { f_idx : nat; f_eol : bool; f_rest : bytes }.

Section scan_fields.
Context {V : Type} (w : Z) (num : nat) (put : nat -> Z -> V -> outcome V).

(** [for !eol && pos < l && index < num { ... }]: skip white space, read a
    number and, when there is one, [put] it at [index] and increment it.  The
    result carries the storage, which has been updated also when the loop ends
    in an error (the offending byte). *)
Definition fields_body (st : fields * V)
    : outcome ((fields * V) + (fields * V * option byte)) :=
  let '(Fields idx eol s, v) := st in
  if negb eol && negb (bool_decide (s = [])) && (idx <? num)
  then
    match scan_num w 0 false false (skip isWhitespace s) with
    | NumEnd val hasVal eol s' =>
      if hasVal
      then v' ← put idx val v; Ret (inl (Fields (S idx) eol s', v'))
      else Ret (inl (Fields idx eol s', v))
    | NumBad c s' => Ret (inr (Fields idx eol s', v, Some c))
    end
  else Ret (inr (Fields idx eol s, v, None)).

Definition scan_fields (idx : nat) (eol : bool) (s : bytes) (v : V)
    : outcome (fields * V * option byte) :=
  while (S (length s) + 1) fields_body (Fields idx eol s, v).

(** Store a list of values from an index on. *)
Fixpoint put_list (idx : nat) (zs : list Z) (v : V) : outcome V :=
  match zs with
  | [] => Ret v
  | z :: zs => v' ← put idx z v; put_list (S idx) zs v'
  end.
End scan_fields.

(** [for ; !eol && pos < l; pos++ { eol = (buf[pos] == '\n') }]: move past the
    end of the line. *)
Fixpoint to_eol (eol : bool) (s : bytes) : bool * bytes :=
  if eol then (true, s) else
  match s with
  | [] => (false, [])
  | c :: s' => to_eol (beq c NL) s'
  end.

(** The same, but only white space may be left on the line; otherwise the
    cursor of the offending byte. *)
Fixpoint to_eol_ws (eol : bool) (s : bytes) : bytes + bytes :=
  if eol then inl s else
  match s with
  | [] => inl []
  | c :: s' =>
    let eol := beq c NL in
    if negb eol && negb (isWhitespace c) then inr s else to_eol_ws eol s'
  end.

(** ** Lemmas *)

Lemma digit_of_range c : (0 <= digit_of c < 256)%Z.
Proof. apply (wrapu_range 8). lia. Qed.

Lemma is_digit_not_ws c : is_digit c = true -> isWhitespace c = false /\ c <> NL.
Proof. destruct c; vm_compute; naive_solver. Qed.

Lemma ws_not_digit c : isWhitespace c = true -> is_digit c = false.
Proof. destruct c; vm_compute; naive_solver. Qed.

Lemma ws_not_nl c : isWhitespace c = true -> beq c NL = false.
Proof. destruct c; vm_compute; naive_solver. Qed.

Lemma foldl_push_digit w v ds :
  (0 <= w)%Z ->
  foldl (fun v c => push_digit w v (digit_of c)) (wrapu w v) ds = wrapu w (dec_from v ds).
Proof.
  intros Hw. revert v. induction ds as [|c ds IH]; intros v; simpl; [done|].
  rewrite push_digit_spec by done. rewrite <- IH. f_equal. unfold wrapu.
  rewrite <- Z.add_mod_idemp_l, <- Z.mul_mod_idemp_r by lia.
  rewrite Zmod_mod. rewrite Z.mul_mod_idemp_r, Z.add_mod_idemp_l by lia. done.
Qed.

Lemma foldl_push_digit_int v ds :
  foldl (fun v c => push_digit_int v (digit_of c)) (i64 v) ds = i64 (dec_from v ds).
Proof.
  revert v. induction ds as [|c ds IH]; intros v; simpl; [done|].
  rewrite push_digit_int_spec, <- IH. f_equal.
  by rewrite <- i64_add_l, i64_mul_r, i64_add_l.
Qed.

Lemma scan_num_digits w v has eol ds s :
  Forall (fun c => is_digit c = true) ds ->
  scan_num w v has eol (ds ++ s) =
  scan_num w (foldl (fun v c => push_digit w v (digit_of c)) v ds)
             (has || negb (bool_decide (ds = []))) eol s.
Proof.
  intros Hds. revert v has. induction Hds as [|c ds Hc _ IH]; intros v has; simpl.
  - by rewrite orb_false_r.
  - rewrite Hc, IH. simpl. by rewrite orb_true_r.
Qed.

(** A number token: at least one digit. *)
Definition is_num (ds : bytes) : Prop := ds <> [] /\ Forall (fun c => is_digit c = true) ds.
Definition is_ws (ws : bytes) : Prop := Forall (fun c => isWhitespace c = true) ws.
(** What may follow a number: the end of the buffer, white space or a new line. *)
Definition is_sep (c : byte) : bool := beq c NL || isWhitespace c.
Definition sep_tail (t : bytes) : Prop :=
  match t with [] => True | c :: _ => is_sep c = true end.
Definition tail_eol (t : bytes) : bool :=
  match t with [] => false | c :: _ => beq c NL end.

Lemma sep_not_digit c : is_sep c = true -> is_digit c = false.
Proof. destruct c; vm_compute; naive_solver. Qed.

Lemma scan_num_token w ds t :
  (0 <= w)%Z -> is_num ds -> sep_tail t ->
  scan_num w 0 false false (ds ++ t) = NumEnd (wrapu w (dec ds)) true (tail_eol t) (tail t).
Proof.
  intros Hw [Hne Hds] Ht. rewrite scan_num_digits by done.
  rewrite bool_decide_eq_false_2 by done. simpl.
  replace 0%Z with (wrapu w 0) at 1 by (unfold wrapu; apply Z.mod_0_l; lia).
  rewrite foldl_push_digit by done. fold (dec ds).
  destruct t as [|c t]; simpl in *; [done|].
  rewrite sep_not_digit by done. unfold is_sep in Ht. by rewrite Ht.
Qed.

Lemma is_num_stops_ws ds t : is_num ds -> stops isWhitespace (ds ++ t).
Proof.
  intros [Hne Hds]. destruct Hds as [|c ds Hc _]; [done|]. simpl. by apply is_digit_not_ws.
Qed.

Lemma scan_num_length w v has eol s v' has' eol' s' :
  scan_num w v has eol s = NumEnd v' has' eol' s' -> s <> [] -> length s' < length s.
Proof.
  revert v has eol. induction s as [|c s IH]; intros v has eol; simpl; [done|].
  destruct (is_digit c).
  - intros H _. destruct s as [|c' s].
    + simpl in H. injection H as _ _ _ <-. simpl. lia.
    + specialize (IH _ _ _ H ltac:(done)). simpl in *. lia.
  - destruct (beq c NL || isWhitespace c); [|done]. intros [= _ _ _ <-] _. lia.
Qed.

Lemma scan_num_nil_length w v has eol s v' has' eol' s' :
  scan_num w v has eol s = NumEnd v' has' eol' s' -> length s' <= length s.
Proof.
  intros H. destruct s as [|c s].
  - simpl in H. injection H as _ _ _ <-. lia.
  - apply scan_num_length in H; [lia|done].
Qed.

(** Tokens of a line: white space, then a number. *)
Definition token := (bytes * bytes)%type.
Definition tok_ok (t : token) : Prop := is_ws t.1 /\ is_num t.2.
Definition tok_sep (t : token) : Prop := t.1 <> [].
Definition tok_val (w : Z) (t : token) : Z := wrapu w (dec t.2).
Definition render (ts : list token) : bytes := concat (map (fun t => t.1 ++ t.2) ts).

Lemma render_cons t ts : render (t :: ts) = t.1 ++ t.2 ++ render ts.
Proof. unfold render. simpl. by rewrite <- app_assoc. Qed.

Lemma render_length_pos t ts : tok_ok t -> 0 < length (render (t :: ts)).
Proof.
  intros [_ [Hne _]]. rewrite render_cons, !length_app. destruct t.2; [done|]. simpl. lia.
Qed.

Lemma tok_vals_snd w ts ts' :
  map (fun t => t.2) ts = map (fun t => t.2) ts' -> map (tok_val w) ts = map (tok_val w) ts'.
Proof.
  revert ts'. induction ts as [|[? d] ts IH]; intros [|[? d'] ts'] H; simplify_eq/=; [done|].
  f_equal. by apply IH.
Qed.

Lemma sep_tail_render ts t :
  Forall tok_ok ts -> Forall tok_sep ts -> sep_tail t -> sep_tail (render ts ++ t).
Proof.
  intros H1 H2 H. destruct ts as [|[ws ds] ts]; [done|].
  inversion_clear H1 as [|? ? [Hws _] _]. inversion_clear H2 as [|? ? Hs _].
  rewrite render_cons. simpl in *. destruct Hws as [|c ws Hc _]; [done|].
  simpl. unfold is_sep. by rewrite Hc, orb_true_r.
Qed.

Lemma tail_render ts t :
  Forall tok_ok ts -> Forall tok_sep ts -> ts <> [] ->
  tail_eol (render ts ++ t) = false /\
  exists ts', tail (render ts ++ t) = render ts' ++ t /\ Forall tok_ok ts' /\
    Forall tok_sep (tail ts') /\ ts' <> [] /\ length ts' = length ts /\
    map (fun t => t.2) ts' = map (fun t => t.2) ts /\ length (render ts') < length (render ts).
Proof.
  intros H1 H2 Hne. destruct ts as [|[ws ds] ts]; [done|].
  inversion_clear H1 as [|? ? [Hws Hds] Hts]. inversion_clear H2 as [|? ? Hs Hss].
  rewrite !render_cons. simpl in *. destruct Hws as [|c ws Hc Hws]; [done|]. simpl.
  split; [by apply ws_not_nl|]. exists ((ws, ds) :: ts). rewrite !render_cons. simpl.
  rewrite <- !app_assoc. repeat split; try done; [by constructor|lia].
Qed.

Section fields_lemmas.
Context {V : Type} (w : Z) (num : nat) (put : nat -> Z -> V -> outcome V).

Lemma fields_body_step idx ws ds t v v' :
  (0 <= w)%Z -> is_ws ws -> is_num ds -> sep_tail t -> idx < num ->
  put idx (wrapu w (dec ds)) v = Ret v' ->
  fields_body w num put (Fields idx false (ws ++ ds ++ t), v) =
  Ret (inl (Fields (S idx) (tail_eol t) (tail t), v')).
Proof.
  intros Hw Hws Hds Ht Hidx Hput. unfold fields_body.
  rewrite bool_decide_eq_false_2; [|destruct ws, Hds, ds; done].
  rewrite (proj2 (Nat.ltb_lt idx num)) by done. simpl.
  rewrite skip_app by (done || by apply is_num_stops_ws).
  rewrite scan_num_token by done. by rewrite Hput.
Qed.

Lemma fields_body_stop idx eol s v :
  eol = true \/ s = [] \/ num <= idx ->
  fields_body w num put (Fields idx eol s, v) = Ret (inr (Fields idx eol s, v, None)).
Proof.
  intros H. unfold fields_body. case_match eqn:E; [|done]. exfalso.
  apply andb_true_iff in E as [[E1 E2]%andb_true_iff E3%Nat.ltb_lt].
  destruct H as [-> | [-> | H]]; [done|done|lia].
Qed.

(** The fields loop over the tokens of a line, whose last number is followed
    by [t]: every value is stored in order and the separator is consumed. *)
Lemma fields_run fuel idx ts t v v' :
  (0 <= w)%Z -> Forall tok_ok ts -> Forall tok_sep (tail ts) -> ts <> [] ->
  sep_tail t -> idx + length ts <= num ->
  (idx + length ts = num \/ tail_eol t = true \/ tail t = []) ->
  put_list put idx (map (tok_val w) ts) v = Ret v' ->
  length (render ts ++ t) + 1 < fuel ->
  while fuel (fields_body w num put) (Fields idx false (render ts ++ t), v) =
  Ret (Fields (idx + length ts) (tail_eol t) (tail t), v', None).
Proof.
  intros Hw. revert fuel idx v.
  remember (length ts) as n eqn:Hn. revert ts Hn.
  induction n as [|n IH]; intros [|[ws ds] ts] Hn fuel idx v Hok Hsep Hne Ht Hlen Hstop Hput Hf;
    try done.
  inversion_clear Hok as [|? ? [Hws Hds] Hts]. simpl in Hws, Hds, Hput, Hsep, Hn.
  destruct (put idx (tok_val w (ws, ds)) v) as [v1| |] eqn:Hp; simpl in Hput; try done.
  rewrite render_cons, <- !app_assoc. rewrite render_cons, !length_app in Hf. simpl in Hf.
  destruct Hds as [Hdne Hds]. assert (0 < length ds) by (destruct ds; [done|simpl; lia]).
  destruct fuel as [|fuel]; [lia|].
  erewrite while_inl; last first.
  { apply fields_body_step; try done; [by apply sep_tail_render|lia]. }
  destruct (decide (ts = [])) as [->|Hne'].
  - simpl in Hput, Hn, Hf. injection Hput as <-. change (render [] ++ t) with t.
    destruct fuel as [|fuel]; [lia|].
    injection Hn as ->. replace (idx + 1) with (S idx) by lia.
    erewrite while_inr; [done|]. apply fields_body_stop.
    destruct Hstop as [Hs|[Hs|Hs]]; [right; right; lia|by left|by right; left].
  - destruct (tail_render ts t Hts Hsep Hne') as (He & ts' & Hr & Hok' & Hsep' & Hne2 & Hl & Hm & Hlt).
    rewrite He, Hr. replace (idx + S n) with (S idx + n) by lia.
    apply (IH ts'); try done; [lia|lia| destruct Hstop; [left; lia|by right]| |].
    + rewrite <- (tok_vals_snd w ts' ts Hm) in Hput. done.
    + rewrite length_app. lia.
Qed.

Lemma fields_body_NoFuel st : (forall i z v, put i z v <> NoFuel) -> fields_body w num put st <> NoFuel.
Proof.
  intros Hput. destruct st as [[idx eol s] v]. unfold fields_body.
  repeat case_match; try done. intros [?|(?&?&?)]%bind_NoFuel_inv; [by eapply Hput|done].
Qed.

Lemma fields_body_measure st st' :
  fields_body w num put st = Ret (inl st') -> length (f_rest st'.1) < length (f_rest st.1).
Proof.
  destruct st as [[idx eol s] v]. unfold fields_body.
  case_match eqn:E; [|done]. apply andb_true_iff in E as [[_ E%negb_true_iff]%andb_true_iff _].
  apply bool_decide_eq_false in E.
  destruct (scan_num _ _ _ _ _) as [val has eol' s'|] eqn:Hn; [|done].
  assert (length s' < length s).
  { pose proof (skip_length isWhitespace s). destruct (skip isWhitespace s) eqn:Es.
    - simpl in Hn. injection Hn as _ _ _ <-. destruct s; [done|simpl; lia].
    - apply scan_num_length in Hn; [|done]. simpl in *. lia. }
  destruct has; simpl; [|by intros [= <-]].
  intros (v' & _ & [= <-])%bind_Ret_inv. done.
Qed.

(** The fields loop always ends. *)
Lemma scan_fields_terminates idx eol s v :
  (forall i z v, put i z v <> NoFuel) -> scan_fields w num put idx eol s v <> NoFuel.
Proof.
  intros. unfold scan_fields.
  apply (while_enough _ (fun st => length (f_rest st.1))); simpl;
    [by intros; apply fields_body_NoFuel|apply fields_body_measure|lia].
Qed.

(** What the loop keeps: an invariant of the storage, the cursor moves
    forward, the index stays within [num]. *)
Lemma scan_fields_inv (P : V -> Prop) idx eol s v idx' eol' s' v' e :
  (forall i z v v', i < num -> P v -> put i z v = Ret v' -> P v') ->
  scan_fields w num put idx eol s v = Ret (Fields idx' eol' s', v', e) ->
  idx <= num -> P v -> P v' /\ idx <= idx' <= num /\ length s' <= length s.
Proof.
  intros HP H Hidx Hv. unfold scan_fields in H.
  pose (Q := fun r : fields * V * option byte =>
    P r.1.2 /\ idx <= f_idx r.1.1 <= num /\ length (f_rest r.1.1) <= length s).
  change (Q (Fields idx' eol' s', v', e)).
  refine (while_rule (fields_body w num put)
    (fun st => P st.2 /\ idx <= f_idx st.1 <= num /\ length (f_rest st.1) <= length s) Q
    _ _ _ _ _ _ H); [| |simpl; split_and!; (done || lia)]; clear H.
  - intros [[i e1 t] u] [[i' e1' t'] u'] (Hu & Hi & Hl) Hb.
    pose proof (fields_body_measure _ _ Hb) as Hm. simpl in *.
    unfold fields_body in Hb. destruct (_ && _) eqn:E in Hb; [|done].
    apply andb_true_iff in E as [_ E%Nat.ltb_lt].
    destruct (scan_num _ _ _ _ _) as [val has e2 t2|]; [|done]. destruct has.
    + apply bind_Ret_inv in Hb as (u2 & Hp & [= <- <- <- <-]).
      split_and!; [by eapply HP|lia|lia|lia].
    + injection Hb as <- <- <- <-. split_and!; (done || lia).
  - intros [[i e1 t] u] [[[i' e1' t'] u'] e'] (Hu & Hi & Hl) Hb. unfold Q. simpl in *.
    unfold fields_body in Hb. case_match; [|injection Hb as <- <- <- <- <-; split_and!; (done || lia)].
    destruct (scan_num w 0 false false (skip isWhitespace t)) as [val has e2 t2|c t2] eqn:Hn.
    + destruct has; [|done]. by apply bind_Ret_inv in Hb as (? & _ & ?).
    + injection Hb as <- <- <- <- _. split_and!; [done|lia|lia|].
      transitivity (length (skip isWhitespace t)); [|pose proof (skip_length isWhitespace t); lia].
      clear -Hn. revert Hn. generalize (skip isWhitespace t) as x. generalize 0%Z as z.
      generalize false at 1 as b. intros b z x. revert b z. induction x as [|y x IHx]; simpl; [done|].
      intros b z. destruct (is_digit y); [intros ?%IHx; lia|].
      case_match; [done|]. intros [= _ <-]. simpl. lia.
Qed.

Lemma fields_body_no_panic (P : V -> Prop) st :
  (forall i z v, i < num -> P v -> put i z v <> Panic) ->
  P st.2 -> fields_body w num put st <> Panic.
Proof.
  intros Hp HP. destruct st as [[idx eol s] v]. unfold fields_body.
  destruct (_ && _) eqn:E; [|done]. apply andb_true_iff in E as [_ E%Nat.ltb_lt].
  destruct (scan_num _ _ _ _ _) as [? has ? ?|]; [|done]. destruct has; [|done].
  intros [?|(?&_&?)]%bind_Panic_inv; [|done]. by eapply Hp.
Qed.

Lemma scan_fields_no_panic (P : V -> Prop) idx eol s v :
  (forall i z v v', i < num -> P v -> put i z v = Ret v' -> P v') ->
  (forall i z v, i < num -> P v -> put i z v <> Panic) ->
  P v -> scan_fields w num put idx eol s v <> Panic.
Proof.
  intros HP Hp Hv. apply (while_no_panic _ (fun st => P st.2)); [| |done].
  - intros [[i e t] u] [[i' e' t'] u'] Hu Hb. simpl in *. unfold fields_body in Hb.
    destruct (_ && _) eqn:E in Hb; [|done]. apply andb_true_iff in E as [_ E%Nat.ltb_lt].
    destruct (scan_num _ _ _ _ _) as [val has e2 t2|]; [|done]. destruct has.
    + apply bind_Ret_inv in Hb as (u2 & Hp' & [= <- <- <- <-]). by eapply HP.
    + by injection Hb as <- <- <- <-.
  - intros s' Hs'. by apply fields_body_no_panic with P.
Qed.
End fields_lemmas.

(** Storing values one after the other into an array. *)
Lemma put_list_store (zs : list Z) : forall idx (v : list Z),
  idx + length zs <= length v ->
  put_list (fun i z v => store v i z) idx zs v =
  Ret (take idx v ++ zs ++ drop (idx + length zs) v).
Proof.
  induction zs as [|z zs IH]; intros idx v Hl; simpl in *.
  - by rewrite Nat.add_0_r, take_drop.
  - rewrite store_Ret by lia. simpl. rewrite IH by (rewrite length_insert; lia). f_equal.
    rewrite (take_S_r (<[idx:=z]> v) idx z) by (apply list_lookup_insert_eq; lia).
    rewrite take_insert_ge by lia. rewrite <- app_assoc. simpl. do 3 f_equal.
    rewrite drop_insert_lt by lia. f_equal. lia.
Qed.

Lemma to_eol_length eol s e s' : to_eol eol s = (e, s') -> length s' <= length s.
Proof.
  revert eol. induction s as [|c s IH]; intros [] H; simpl in *; try (by injection H as <- <-).
  apply IH in H. lia.
Qed.

Lemma to_eol_ws_length eol s s' : to_eol_ws eol s = inl s' -> length s' <= length s.
Proof.
  revert eol. induction s as [|c s IH]; intros [] H; simpl in *; try (by injection H as <-).
  case_match; [done|]. apply IH in H. lia.
Qed.

(** Trailing white space up to the new line is accepted. *)
Lemma to_eol_ws_run ws t : is_ws ws -> to_eol_ws false (ws ++ NL :: t) = inl t.
Proof.
  induction 1 as [|c ws Hc _ IH]; simpl; [by rewrite beq_refl; destruct t|].
  rewrite Hc, ws_not_nl by done. simpl. apply IH.
Qed.

Lemma to_eol_run a t : Forall (fun c => beq c NL = false) a -> to_eol false (a ++ NL :: t) = (true, t).
Proof.
  induction 1 as [|c a Hc _ IH]; simpl; [by rewrite beq_refl; destruct t|].
  by rewrite Hc.
Qed.

Lemma to_eol_done s : to_eol true s = (true, s).
Proof. by destruct s. Qed.

Lemma to_eol_ws_done s : to_eol_ws true s = inl s.
Proof. by destruct s. Qed.

(** ** The lines of a file *)

Section scan_lines.
Context {M E : Type} (line : nat -> bytes -> M -> outcome (M * (E + bytes))).

(** [for pos, lineNum := ...; pos < l; lineNum++ { ... }]: [line] handles one
    line from the cursor at its start; it returns the updated state and either
    the error or the cursor at the start of the next line. *)
Definition lines_body (st : M * nat * bytes) : outcome ((M * nat * bytes) + (M * option E)) :=
  let '(m, n, s) := st in
  if bool_decide (s = []) then Ret (inr (m, None))
  else
    '(m', r) ← line n s m;
    match r with
    | inl e => Ret (inr (m', Some e))
    | inr s' => Ret (inl (m', S n, s'))
    end.

Definition scan_lines (n : nat) (s : bytes) (m : M) : outcome (M * option E) :=
  while (S (length s)) lines_body (m, n, s).

Lemma scan_lines_nil n m fuel : while (S fuel) lines_body (m, n, []) = Ret (m, None).
Proof. done. Qed.

Lemma lines_body_line n s m :
  s <> [] ->
  lines_body (m, n, s) =
    ('(m', r) ← line n s m;
     match r with inl e => Ret (inr (m', Some e)) | inr s' => Ret (inl (m', S n, s')) end).
Proof. intros. unfold lines_body. by rewrite bool_decide_eq_false_2. Qed.

(** Lines make progress, so the loop ends. *)
Definition lines_progress : Prop := forall n s m m' s',
  s <> [] -> line n s m = Ret (m', inr s') -> length s' < length s.

Lemma scan_lines_terminates n s m :
  (forall n s m, line n s m <> NoFuel) -> lines_progress -> scan_lines n s m <> NoFuel.
Proof.
  intros Hnf Hpr. apply (while_enough _ (fun st => length st.2)); [| |simpl; lia].
  - intros [[m1 n1] s1]. unfold lines_body. case_bool_decide; [done|].
    intros [?|([m' r]&_&?)]%bind_NoFuel_inv; [by eapply Hnf|by destruct r].
  - intros [[m1 n1] s1] [[m2 n2] s2]. unfold lines_body. case_bool_decide; [done|].
    intros ([m' r]&Hl&?)%bind_Ret_inv. destruct r; simplify_eq/=. by eapply Hpr.
Qed.

(** A line that only moves the cursor is as if it was not there. *)
Lemma scan_lines_skip n s s' m :
  (forall n s m, line n s m <> NoFuel) -> lines_progress ->
  s <> [] -> line n s m = Ret (m, inr s') -> scan_lines n s m = scan_lines (S n) s' m.
Proof.
  intros Hnf Hpr Hs Hl. pose proof (Hpr _ _ _ _ _ Hs Hl). unfold scan_lines at 1.
  erewrite while_inl; [|rewrite lines_body_line by done; rewrite Hl; reflexivity].
  apply while_mono; [by apply scan_lines_terminates|lia].
Qed.

(** A first line that is handled, followed by a scan that ends. *)
Lemma scan_lines_step n s s' m m' r :
  s <> [] -> line n s m = Ret (m', inr s') -> length s' < length s ->
  scan_lines (S n) s' m' = Ret r -> scan_lines n s m = Ret r.
Proof.
  intros Hs Hl Hlt Hr. unfold scan_lines at 1.
  erewrite while_inl; [|rewrite lines_body_line by done; rewrite Hl; reflexivity].
  rewrite <- Hr. unfold scan_lines in *. apply while_mono; [by rewrite Hr|lia].
Qed.

(** An invariant of the state that every line keeps, and no line panics under
    it: the whole scan keeps it and does not panic. *)
Lemma scan_lines_inv (I : M -> Prop) n s m m' e :
  (forall n s m m' r, I m -> line n s m = Ret (m', r) -> I m') ->
  I m -> scan_lines n s m = Ret (m', e) -> I m'.
Proof.
  intros Hl Hm H. change ((fun r => I r.1) (m', e)).
  refine (while_rule lines_body (fun st => I st.1.1) _ _ _ _ _ _ _ H); [| |done]; clear H.
  - intros [[m1 n1] s1] [[m2 n2] s2] HI. unfold lines_body. case_bool_decide; [done|].
    intros ([m3 r]&Hr&?)%bind_Ret_inv. destruct r; simplify_eq/=. by eapply Hl.
  - intros [[m1 n1] s1] [m2 e2] HI. unfold lines_body. case_bool_decide; [by intros; simplify_eq/=|].
    intros ([m3 r]&Hr&?)%bind_Ret_inv. destruct r; simplify_eq/=. by eapply Hl.
Qed.

Lemma scan_lines_no_panic (I : M -> Prop) n s m :
  (forall n s m m' r, I m -> line n s m = Ret (m', r) -> I m') ->
  (forall n s m, I m -> line n s m <> Panic) ->
  I m -> scan_lines n s m <> Panic.
Proof.
  intros Hl Hp Hm. apply (while_no_panic _ (fun st => I st.1.1)); [| |done].
  - intros [[m1 n1] s1] [[m2 n2] s2] HI. unfold lines_body. case_bool_decide; [done|].
    intros ([m3 r]&Hr&?)%bind_Ret_inv. destruct r; simplify_eq/=. by eapply Hl.
  - intros [[m1 n1] s1] HI. unfold lines_body. case_bool_decide; [done|].
    intros [?|([m3 r]&Hr&?)]%bind_Panic_inv; [by eapply Hp|by destruct r].
Qed.

(** Lines that return, keep an invariant and make progress: so does the scan. *)
Lemma scan_lines_returns (I : M -> Prop) n s m :
  (forall n s m, I m -> s <> [] ->
     returns (line n s m) (fun r => I r.1 /\ match r.2 with inl _ => True | inr s' => length s' < length s end)) ->
  I m -> returns (scan_lines n s m) (fun r => I r.1).
Proof.
  intros Hl. unfold scan_lines. assert (length s < S (length s)) as Hf by lia. revert Hf. generalize (S (length s)) as fuel.
  intros fuel. revert n s m. induction fuel as [|fuel IH]; intros n s m Hf Hm; [lia|].
  destruct (decide (s = [])) as [->|Hs]; [by exists (m, None)|].
  destruct (Hl n s m Hm Hs) as ([m' r] & He & Hm' & Hr). cbn [fst snd] in *.
  assert (lines_body (m, n, s) = Ret (match r with inl e => inr (m', Some e) | inr s' => inl (m', S n, s') end)) as Hb
    by (rewrite lines_body_line, He by done; by destruct r).
  destruct r as [e|s']; [rewrite (while_inr _ _ _ _ Hb); by exists (m', Some e)|].
  rewrite (while_inl _ _ _ _ Hb). apply IH; [lia|done].
Qed.

(** A file made of rows that the line handler accepts one by one. *)
Lemma scan_lines_rows {Row} (out : Row -> bytes) (upd : Row -> M -> M)
    (ok : Row -> Prop) (I : M -> Prop) n0 n rows m :
  (forall r, ok r -> out r <> []) ->
  (forall n r rest m, n0 <= n -> ok r -> I m ->
     line n (out r ++ rest) m = Ret (upd r m, inr rest) /\ I (upd r m)) ->
  n0 <= n -> Forall ok rows -> I m ->
  scan_lines n (concat (map out rows)) m = Ret (foldl (fun m r => upd r m) m rows, None).
Proof.
  intros Hne Hrow. unfold scan_lines.
  assert (forall fuel n m, n0 <= n -> Forall ok rows -> I m ->
    length (concat (map out rows)) < fuel ->
    while fuel lines_body (m, n, concat (map out rows)) =
    Ret (foldl (fun m r => upd r m) m rows, None)) as Hgen.
  { induction rows as [|r rows IH]; intros fuel n1 m1 Hn Hok HI Hf;
      (destruct fuel as [|fuel]; [simpl in Hf; lia|]); [apply scan_lines_nil|].
    inversion_clear Hok as [|? ? Hr Hrs].
    destruct (Hrow n1 r (concat (map out rows)) m1 Hn Hr HI) as [Hl HI'].
    change (concat (map out (r :: rows))) with (out r ++ concat (map out rows)) in *.
    rewrite length_app in Hf. pose proof (Hne _ Hr) as Hr0.
    assert (0 < length (out r)) by (destruct (out r); [done|simpl; lia]).
    erewrite while_inl; last first.
    { rewrite lines_body_line; [by rewrite Hl|]. by destruct (out r). }
    apply IH; [lia|done|done|lia]. }
  intros Hn Hok HI. apply Hgen; (done || lia).
Qed.
End scan_lines.

(** Two scans of the same text by two line handlers: when the handlers, from
    related states, consume the same and end in related states, the scans give
    the same error and end in related states. *)
Lemma scan_lines_sim {M1 M2 E} (line1 : nat -> bytes -> M1 -> outcome (M1 * (E + bytes)))
    (line2 : nat -> bytes -> M2 -> outcome (M2 * (E + bytes)))
    (R : nat -> M1 -> M2 -> Prop) (Q : M1 -> M2 -> Prop) n s m1 m2 :
  (forall n m1 m2, R n m1 m2 -> Q m1 m2) ->
  (forall n s m1 m2, s <> [] -> R n m1 m2 ->
     exists m1' m2' r, line1 n s m1 = Ret (m1', r) /\ line2 n s m2 = Ret (m2', r) /\
       match r with inl _ => Q m1' m2' | inr s' => R (S n) m1' m2' /\ length s' < length s end) ->
  R n m1 m2 ->
  exists m1' m2' e, scan_lines line1 n s m1 = Ret (m1', e) /\ scan_lines line2 n s m2 = Ret (m2', e) /\ Q m1' m2'.
Proof.
  intros HQ Hl. remember (length s) as k eqn:Hk. revert n s m1 m2 Hk.
  induction k as [k IH] using lt_wf_ind. intros n s m1 m2 -> HR.
  destruct (decide (s = [])) as [->|Hs]; [exists m1, m2, None; split_and!; [done|done|by eapply HQ]|].
  destruct (Hl n s m1 m2 Hs HR) as (m1' & m2' & r & H1 & H2 & Hr). destruct r as [e|s'].
  - exists m1', m2', (Some e). unfold scan_lines.
    erewrite while_inr; [|rewrite lines_body_line by done; rewrite H1; reflexivity].
    erewrite while_inr; [|rewrite lines_body_line by done; rewrite H2; reflexivity]. done.
  - destruct Hr as [HR' Hlt]. destruct (IH (length s') Hlt (S n) s' m1' m2' eq_refl HR') as (a & b & e & Ha & Hb & Hq).
    exists a, b, e. split_and!; [by eapply scan_lines_step|by eapply scan_lines_step|done].
Qed.

(** ** What [os.Open] and the read give a parser *)

(** The result of [ReadFileBufPool.ReadFile]: the content, an I/O error, or the
    content with the potential-truncation error. *)
Inductive read_result :=
| ReadOk (b : bytes)
| ReadErr
| ReadTrunc (b : bytes).
