(* ===== verification/BufPool.v ===== *)
(** The pool of read buffers (src/internal/utils/readfile_buf_pool.go): getting
    and returning buffers, reading a file into one.

    Buffers are shared objects: a store maps the buffer numbers to their
    contents, the pool holds numbers.  The slice keeps the numbers beyond the
    current size, as the code does. *)

From Stdlib Require Import ZArith Lia.
From stdpp Require Import base tactics numbers strings gmap list fin_maps fin_sets.
From S2P Require Import Prelude Scan.

Module BufPool.

Record ReadFileBufPool := mkBufPool {
  pool : list nat;
  maxPoolSize : Z;
  poolSize : nat;
  maxReadSize : Z;
  (** The buffers in memory. *)
  mem : gmap nat bytes
}.

Definition NewReadFileBufPool (maxPoolSize maxReadSize : Z) (mem : gmap nat bytes) : ReadFileBufPool :=
  mkBufPool [] maxPoolSize 0 maxReadSize mem.
Definition NewBufPool (maxPoolSize : Z) (mem : gmap nat bytes) : ReadFileBufPool :=
  NewReadFileBufPool maxPoolSize 0 mem.

Definition GetBuf (p : ReadFileBufPool) : outcome (ReadFileBufPool * nat) :=
  if 0 <? poolSize p then
    let poolSize := poolSize p - 1 in
    b ← must (pool p !! poolSize);
    Ret (mkBufPool (pool p) (maxPoolSize p) poolSize (maxReadSize p) (<[b := []]> (mem p)), b)
  else
    let b := fresh (dom (mem p)) in
    Ret (mkBufPool (pool p) (maxPoolSize p) (poolSize p) (maxReadSize p) (<[b := []]> (mem p)), b).

Definition ReturnBuf (ob : option nat) (p : ReadFileBufPool) : outcome ReadFileBufPool :=
  match ob with
  | None => Ret p
  | Some b =>
    if (0 <? maxPoolSize p)%Z && (maxPoolSize p <=? Z.of_nat (poolSize p))%Z then Ret p
    else
      pl ← (if length (pool p) <=? poolSize p then Ret (pool p ++ [b]) else store (pool p) (poolSize p) b);
      Ret (mkBufPool pl (maxPoolSize p) (poolSize p + 1) (maxReadSize p) (mem p))
  end.

#[local] Arguments GetBuf : simpl never.
#[local] Arguments ReturnBuf : simpl never.

(** What the file system does: the file cannot be opened, or it gives some bytes
    and then its end or an error. *)
Inductive file := NoFile | File (content : bytes) (readErr : bool).

Inductive read_error := ErrOpen | ErrIO | ErrReadFileBufPotentialTruncation.

(** The copy into an empty buffer: the bytes copied and the resulting error.
    [io.CopyN] stops after [maxReadSize] bytes, and gives [io.EOF] for a file
    that ends before. *)
Definition copy (maxReadSize : Z) (content : bytes) (readErr : bool) : bytes * option read_error :=
  if (0 <? maxReadSize)%Z then
    if (maxReadSize <=? Z.of_nat (length content))%Z
    then (take (Z.to_nat maxReadSize) content, Some ErrReadFileBufPotentialTruncation)
    else (content, if readErr then Some ErrIO else None)
  else (content, if readErr then Some ErrIO else None).

Definition ReadFile (f : file) (p : ReadFileBufPool)
    : outcome (ReadFileBufPool * option nat * option read_error) :=
  match f with
  | NoFile => Ret (p, None, Some ErrOpen)
  | File content readErr =>
    '(p, b) ← GetBuf p;
    let '(data, err) := copy (maxReadSize p) content readErr in
    old ← must (mem p !! b);
    let p := mkBufPool (pool p) (maxPoolSize p) (poolSize p) (maxReadSize p) (<[b := old ++ data]> (mem p)) in
    match err with
    | None | Some ErrReadFileBufPotentialTruncation => Ret (p, Some b, err)
    | Some _ => p ← ReturnBuf (Some b) p; Ret (p, None, err)
    end
  end.

(** What a parser gets from [ReadFile]. *)
Definition read (f : file) (maxReadSize : Z) : read_result :=
  match f with
  | NoFile => ReadErr
  | File content readErr =>
    match copy maxReadSize content readErr with
    | (data, None) => ReadOk data
    | (data, Some ErrReadFileBufPotentialTruncation) => ReadTrunc data
    | (_, Some _) => ReadErr
    end
  end.

(** ** Who holds a buffer *)

(** The calls of the clients; [owned] are the buffers that they hold, and a
    buffer is returned only by a client that holds it. *)
Inductive call := CGet | CReturn (b : nat) | CRead (f : file) | CWrite (b : nat) (data : bytes).

Definition do_call (c : call) (p : ReadFileBufPool) (owned : gset nat)
    : outcome (ReadFileBufPool * gset nat) :=
  match c with
  | CGet => '(p, b) ← GetBuf p; Ret (p, {[b]} ∪ owned)
  | CReturn b => p ← ReturnBuf (Some b) p; Ret (p, owned ∖ {[b]})
  | CRead f => '(p, ob, _) ← ReadFile f p; Ret (p, match ob with Some b => {[b]} ∪ owned | None => owned end)
  | CWrite b data => Ret (mkBufPool (pool p) (maxPoolSize p) (poolSize p) (maxReadSize p) (<[b := data]> (mem p)), owned)
  end.
Definition allowed (c : call) (owned : gset nat) : Prop :=
  match c with CReturn b | CWrite b _ => b ∈ owned | _ => True end.

Definition idle (p : ReadFileBufPool) : list nat := take (poolSize p) (pool p).

Record inv (owned : gset nat) (p : ReadFileBufPool) : Prop := mkInv {
  inv_len : poolSize p <= length (pool p);
  inv_max : (0 < maxPoolSize p -> Z.of_nat (poolSize p) <= maxPoolSize p)%Z;
  inv_nodup : NoDup (idle p);
  inv_disj : forall b, b ∈ idle p -> b ∉ owned;
  inv_mem : forall b, b ∈ idle p \/ b ∈ owned -> is_Some (mem p !! b)
}.

Lemma inv_new mx rd m : inv ∅ (NewReadFileBufPool mx rd m).
Proof. split; simpl; [lia|lia|constructor|set_solver|set_solver]. Qed.

(** [GetBuf] gives an empty buffer that nobody holds. *)
Lemma GetBuf_inv owned p :
  inv owned p ->
  exists p' b, GetBuf p = Ret (p', b) /\ (b ∉ owned) /\ mem p' !! b = Some [] /\
    inv ({[b]} ∪ owned) p' /\ maxPoolSize p' = maxPoolSize p /\ maxReadSize p' = maxReadSize p /\
    idle p' ⊆ idle p /\ b ∉ idle p'.
Proof.
  intros [Hl Hmx Hnd Hd Hm]. unfold GetBuf. destruct (0 <? poolSize p) eqn:E.
  - apply Nat.ltb_lt in E. destruct (lookup_lt_is_Some_2 (pool p) (poolSize p - 1)) as [b Hb]; [lia|].
    rewrite Hb. simpl. eexists _, b. split; [done|].
    assert (idle p = take (poolSize p - 1) (pool p) ++ [b]) as Hi.
    { unfold idle. rewrite <- (take_S_r _ _ _ Hb). f_equal. lia. }
    rewrite Hi in *. apply NoDup_app in Hnd as (Hnd1 & Hnd2 & _).
    assert (b ∉ take (poolSize p - 1) (pool p)) as Hbn by set_solver.
    split; [set_solver|]. split; [simpl; by rewrite lookup_insert_eq|].
    split; [|split; [done|split; [done|split; [set_solver|done]]]].
    split; unfold idle; simpl; [lia|lia|done|set_solver|].
    intros b' Hb'. destruct (decide (b = b')) as [<-|]; [by simpl; rewrite lookup_insert_eq|].
    rewrite lookup_insert_ne by done. apply Hm. set_solver.
  - apply Nat.ltb_ge in E. set (b := fresh (dom (mem p))). eexists _, b. split; [done|].
    assert (b ∉ dom (mem p)) as Hf by apply is_fresh.
    assert (forall x, x ∈ idle p \/ x ∈ owned -> x <> b) as Hnb.
    { intros x Hx ->. by apply Hf, elem_of_dom, Hm. }
    assert (b ∉ idle p) by naive_solver.
    split; [naive_solver|]. split; [simpl; by rewrite lookup_insert_eq|].
    split; [|split; [done|split; [done|split; [done|done]]]].
    split; unfold idle; simpl; [done|done|done|set_solver|].
    intros b' Hb'. destruct (decide (b = b')) as [<-|]; [by simpl; rewrite lookup_insert_eq|].
    rewrite lookup_insert_ne by done. apply Hm. set_solver.
Qed.

(** [ReturnBuf] takes the buffer from its holder, keeping it or not. *)
Lemma ReturnBuf_inv owned p b :
  inv owned p -> b ∈ owned ->
  exists p', ReturnBuf (Some b) p = Ret p' /\ inv (owned ∖ {[b]}) p' /\ mem p' = mem p /\
    maxPoolSize p' = maxPoolSize p /\
    (idle p' = idle p ++ [b] \/ idle p' = idle p /\ (0 < maxPoolSize p <= Z.of_nat (poolSize p))%Z).
Proof.
  intros [Hl Hmx Hnd Hd Hm] Hb. unfold ReturnBuf.
  assert (b ∉ idle p) as Hbi by (intros ?; by eapply Hd).
  destruct ((0 <? maxPoolSize p)%Z && _) eqn:E.
  - exists p. split; [done|]. split; [split; [done..|set_solver|set_solver]|]. split; [done|].
    split; [done|]. right. split; [done|]. lia.
  - set (pl := if length (pool p) <=? poolSize p then Ret (pool p ++ [b]) else store (pool p) (poolSize p) b).
    assert (exists l, pl = Ret l /\ poolSize p + 1 <= length l /\ take (poolSize p + 1) l = idle p ++ [b])
      as (l & -> & Hll & Ht).
    { subst pl. unfold idle. destruct (length (pool p) <=? poolSize p) eqn:E2.
      - apply Nat.leb_le in E2. exists (pool p ++ [b]). split; [done|]. rewrite length_app. simpl.
        split; [lia|]. rewrite !take_ge; [done|lia|rewrite length_app; simpl; lia].
      - apply Nat.leb_gt in E2. rewrite store_Ret by done. eexists. split; [done|].
        rewrite length_insert. split; [lia|]. rewrite Nat.add_1_r.
        rewrite (take_S_r _ _ b) by (by apply list_lookup_insert_eq). by rewrite take_insert_ge by lia. }
    eexists. split; [done|].
    split; [|split; [done|split; [done|by left]]].
    split; unfold idle in *; simpl; [done|lia| |rewrite Ht; set_solver|].
    + rewrite Ht. apply NoDup_app. split; [done|]. split; [set_solver|apply NoDup_singleton].
    + rewrite Ht. intros b' Hb'. apply Hm. set_solver.
Qed.

Lemma inv_update owned p b data :
  inv owned p -> inv owned (mkBufPool (pool p) (maxPoolSize p) (poolSize p) (maxReadSize p) (<[b := data]> (mem p))).
Proof.
  intros [Hl Hmx Hnd Hd Hm]. split; try done. intros b' Hb'. simpl.
  destruct (decide (b = b')) as [<-|]; [by simpl; rewrite lookup_insert_eq|]. rewrite lookup_insert_ne by done. by apply Hm.
Qed.

Lemma ReadFile_inv owned p f :
  inv owned p ->
  exists p' ob err, ReadFile f p = Ret (p', ob, err) /\
    inv (match ob with Some b => {[b]} ∪ owned | None => owned end) p' /\
    match read f (maxReadSize p) with
    | ReadOk data => err = None /\ exists b, ob = Some b /\ (b ∉ owned) /\ mem p' !! b = Some data
    | ReadTrunc data => err = Some ErrReadFileBufPotentialTruncation /\
        exists b, ob = Some b /\ (b ∉ owned) /\ mem p' !! b = Some data
    | ReadErr => ob = None /\ err <> None
    end.
Proof.
  intros Hi. destruct f as [|content readErr].
  { exists p, None, (Some ErrOpen). by split. }
  destruct (GetBuf_inv owned p Hi) as (p1 & b & Hg & Hb & Hm & Hi1 & _ & Hmr & _).
  unfold ReadFile. rewrite Hg, bind_ret, Hm, Hmr. unfold read.
  destruct (copy (maxReadSize p) content readErr) as [data err] eqn:Ec. simpl.
  rewrite <- Hmr. pose proof (inv_update _ _ b data Hi1) as Hi2. set (p2 := mkBufPool _ _ _ _ _) in *.
  destruct err as [[]|].
  - unfold copy in Ec. repeat case_match; naive_solver.
  - destruct (ReturnBuf_inv _ _ b Hi2) as (p3 & -> & Hi3 & _); [set_solver|].
    rewrite bind_ret. exists p3, None, (Some ErrIO). split; [done|]. split; [|done].
    replace owned with (({[b]} ∪ owned) ∖ {[b]} : gset nat) by set_solver. done.
  - exists p2, (Some b), (Some ErrReadFileBufPotentialTruncation). split; [done|]. split; [done|].
    split; [done|]. exists b. split; [done|]. split; [done|]. subst p2. simpl. by rewrite lookup_insert_eq.
  - exists p2, (Some b), None. split; [done|]. split; [done|].
    split; [done|]. exists b. split; [done|]. split; [done|]. subst p2. simpl. by rewrite lookup_insert_eq.
Qed.

Lemma do_call_inv c owned p :
  inv owned p -> allowed c owned -> exists p' owned', do_call c p owned = Ret (p', owned') /\ inv owned' p'.
Proof.
  intros Hi Ha. destruct c as [|b|f|b data]; simpl in *.
  - destruct (GetBuf_inv _ _ Hi) as (p' & b & -> & _ & _ & ? & _). by eexists _, _.
  - destruct (ReturnBuf_inv _ _ _ Hi Ha) as (p' & -> & ? & _). by eexists _, _.
  - destruct (ReadFile_inv _ _ f Hi) as (p' & ob & err & -> & ? & _). by eexists _, _.
  - eexists _, _. split; [done|]. by apply inv_update.
Qed.

(** Any sequence of allowed calls; with the buffers handed out. *)
Inductive calls (mx rd : Z) : ReadFileBufPool -> gset nat -> Prop :=
| calls_new m : calls mx rd (NewReadFileBufPool mx rd m) ∅
| calls_step p owned c p' owned' :
    calls mx rd p owned -> allowed c owned -> do_call c p owned = Ret (p', owned') -> calls mx rd p' owned'.

Lemma calls_inv mx rd p owned : calls mx rd p owned -> inv owned p.
Proof.
  induction 1 as [|p owned c p' owned' _ IH Ha Hc]; [apply inv_new|].
  destruct (do_call_inv c owned p IH Ha) as (p2 & o2 & Hc' & Hi). rewrite Hc' in Hc. by injection Hc as <- <-.
Qed.

(** C22: buffers have one holder.  After any sequence of gets, reads, writes and
    returns in which a buffer is returned or written only by its holder: every
    such call returns without a panic, [ReadFile] on any file included; a buffer
    that [GetBuf] hands out is empty and held by nobody else; [ReadFile] hands
    out a buffer that nobody else holds, with the part of the file that was read,
    or none with an error; [ReturnBuf] changes no content and takes nil; and the
    pool keeps no more idle buffers than its maximum, none of them twice. *)
Theorem bufpool_exclusive mx rd p owned :
  calls mx rd p owned ->
  (forall c, allowed c owned -> exists p' owned', do_call c p owned = Ret (p', owned') /\ calls mx rd p' owned') /\
  (exists p' b, GetBuf p = Ret (p', b) /\ (b ∉ owned) /\ mem p' !! b = Some [] /\ b ∉ idle p') /\
  (forall f, exists p' ob err, ReadFile f p = Ret (p', ob, err) /\
    match read f (maxReadSize p) with
    | ReadOk data => err = None /\ exists x, ob = Some x /\ (x ∉ owned) /\ (x ∉ idle p') /\ mem p' !! x = Some data
    | ReadTrunc data => err = Some ErrReadFileBufPotentialTruncation /\
        exists x, ob = Some x /\ (x ∉ owned) /\ (x ∉ idle p') /\ mem p' !! x = Some data
    | ReadErr => ob = None /\ err <> None
    end) /\
  ReturnBuf None p = Ret p /\
  (forall b, b ∈ owned -> exists p', ReturnBuf (Some b) p = Ret p' /\ mem p' = mem p) /\
  NoDup (idle p) /\ (0 < maxPoolSize p -> Z.of_nat (length (idle p)) <= maxPoolSize p)%Z.
Proof.
  intros Hcalls. pose proof (calls_inv _ _ _ _ Hcalls) as Hc. split; [|split; [|split; [|split; [|split; [|split]]]]].
  - intros c Ha. destruct (do_call_inv c owned p Hc Ha) as (p' & owned' & Hr & _). exists p', owned'. split; [done|]. by eapply calls_step.
  - destruct (GetBuf_inv _ _ Hc) as (p' & b & ? & ? & ? & _ & _ & _ & _ & ?). by exists p', b.
  - intros f. destruct (ReadFile_inv _ _ f Hc) as (p' & ob & err & Hr & Hi & Hs). exists p', ob, err. split; [done|].
    destruct (read f (maxReadSize p)); [| done |];
      (destruct Hs as (-> & x & -> & Hb & Hm); split; [done|]; exists x; split_and!; try done; intros Hid; by apply (inv_disj _ _ Hi x Hid); set_solver).
  - done.
  - intros b Hb. destruct (ReturnBuf_inv _ _ _ Hc Hb) as (p' & ? & _ & ? & _). by exists p'.
  - apply Hc.
  - destruct Hc as [Hl Hmx _ _ _]. unfold idle. rewrite length_take. lia.
Qed.

(** reading a file.  The buffer that [ReadFile] returns holds the whole
    file when it is shorter than the maximum read size (or there is none) and
    no error occurs; a file that reaches the maximum is cut there and reported
    as possibly truncated, also when it ends exactly there; in every other case
    there is no buffer, an error, and the pool has its buffer back. *)
Theorem readfile_spec mx rd p owned f :
  calls mx rd p owned ->
  exists p' ob err, ReadFile f p = Ret (p', ob, err) /\
    match f with
    | NoFile => p' = p /\ ob = None /\ err = Some ErrOpen
    | File content readErr =>
      let max := maxReadSize p in
      if decide (0 < max <= Z.of_nat (length content))%Z then
        err = Some ErrReadFileBufPotentialTruncation /\
        exists b, ob = Some b /\ (b ∉ owned) /\ mem p' !! b = Some (take (Z.to_nat max) content)
      else if readErr then ob = None /\ err = Some ErrIO /\ inv owned p'
      else err = None /\ exists b, ob = Some b /\ (b ∉ owned) /\ mem p' !! b = Some content
    end.
Proof.
  intros Hc%calls_inv. destruct (ReadFile_inv _ _ f Hc) as (p' & ob & err & Hr & Hi & Hres).
  exists p', ob, err. split; [done|].
  destruct f as [|content readErr]; [simpl in Hr; naive_solver|].
  revert Hres. unfold read, copy. case_decide as Hd.
  - rewrite (proj2 (Z.ltb_lt 0 _)), (proj2 (Z.leb_le _ _)) by lia. done.
  - assert (forall A (x y : A), (if (0 <? maxReadSize p)%Z
        then if (maxReadSize p <=? Z.of_nat (length content))%Z then x else y else y) = y) as Hif.
    { intros. destruct (0 <? _)%Z eqn:E1; [|done]. destruct (_ <=? _)%Z eqn:E2; [lia|done]. }
    rewrite Hif. destruct readErr; [|done]. intros [-> He]. split; [done|]. split; [|done].
    unfold ReadFile in Hr. apply bind_Ret_inv in Hr as ([p1 b] & Hg & Hr).
    destruct (GetBuf_inv _ _ Hc) as (p2 & b2 & Hg2 & _ & _ & _ & _ & Hmr & _).
    rewrite Hg2 in Hg. injection Hg as -> ->. rewrite Hmr in Hr. unfold copy in Hr. rewrite Hif in Hr.
    apply bind_Ret_inv in Hr as (old & _ & Hr). apply bind_Ret_inv in Hr as (p3 & _ & Hr). by injection Hr.
Qed.

(** A pool of at most one idle buffer: read, return, get. *)
Definition sample_file : file := File (bs "cpu 1") false.
Definition sample_pool : ReadFileBufPool :=
  match do_call (CRead sample_file) (NewReadFileBufPool 1 4 ∅) ∅ with
  | Ret (p, owned) => match do_call (CReturn 0) p owned with Ret (p, _) => p | _ => p end
  | _ => NewReadFileBufPool 1 4 ∅
  end.

Lemma sample_calls : calls 1 4 sample_pool ∅.
Proof.
  apply (calls_step 1 4 (mkBufPool [] 1 0 4 {[ 0 := bs "cpu " ]}) {[ 0 ]} (CReturn 0)).
  - apply (calls_step 1 4 (NewReadFileBufPool 1 4 ∅) ∅ (CRead sample_file)); [constructor|done|].
    vm_compute. reflexivity.
  - simpl. set_solver.
  - vm_compute. reflexivity.
Qed.

Lemma bufpool_exclusive_witness :
  idle sample_pool = [0] /\
  (exists p' b, GetBuf sample_pool = Ret (p', b) /\ (b ∉ (∅ : gset nat)) /\ mem p' !! b = Some [] /\ b ∉ idle p') /\
  (exists p' owned', do_call (CRead NoFile) sample_pool ∅ = Ret (p', owned') /\ calls 1 4 p' owned').
Proof.
  split; [vm_compute; reflexivity|].
  destruct (bufpool_exclusive 1 4 sample_pool ∅ sample_calls) as (Hcall & Hget & _).
  split; [exact Hget|exact (Hcall (CRead NoFile) I)].
Defined.

Lemma readfile_spec_witness :
  exists p' ob err, ReadFile (File (bs "abcd") false) sample_pool = Ret (p', ob, err) /\
    err = Some ErrReadFileBufPotentialTruncation /\
    exists b, ob = Some b /\ (b ∉ (∅ : gset nat)) /\ mem p' !! b = Some (bs "abcd").
Proof.
  destruct (readfile_spec 1 4 sample_pool ∅ (File (bs "abcd") false) sample_calls) as (p' & ob & err & Hr & Hs).
  exists p', ob, err. split; [exact Hr|]. exact Hs.
Defined.
End BufPool.
