(* ===== verification/NetDev.v ===== *)
(** Parser for /proc/net/dev (src/procfs/net_dev_parser.go): the device map, the
    header check, the line handler, the pruning of vanished devices by scan
    number, [Clone]. *)

From Stdlib Require Import ZArith Lia.
From stdpp Require Import base tactics numbers strings gmap list.
From S2P Require Import Prelude Scan.

Module NetDev.

(** Number of counters; the scan number is kept after them. *)
Definition NET_DEV_NUM_STATS : nat := 16.
Definition NET_DEV_SCAN_NUMBER : nat := NET_DEV_NUM_STATS.
Definition NET_DEV_NUM_STATS_SIZE : nat := NET_DEV_SCAN_NUMBER + 1.

Record NetDev := mkNetDev {
  DevStats : gmap bytes (list Z);
  path : bytes;
  scanNum : Z;
  validHeader : option bytes;
  numLinesHeader : nat
}.

Inductive error :=
| ErrRead
| ErrUnsupportedHeader
| ErrChangedHeader
| ErrMissingDev (lineNum : nat) (line : bytes)
| ErrInvalidValue (lineNum : nat) (line : bytes)
| ErrNotEnoughValues (lineNum : nat) (line : bytes) (want got : nat)
| ErrUnexpectedContent (lineNum : nat) (line rest : bytes).

Definition netDevValidHeaders : list bytes := [
  bs "Inter-|   Receive                                                |  Transmit
 face |bytes    packets errs drop fifo frame compressed multicast|bytes    packets errs drop fifo colls carrier compressed
"].

Definition NewNetDev (path : bytes) : NetDev := mkNetDev ∅ path 0 None 0.

(** [Clone]: a copy that is not full keeps the devices with zero counters and
    starts from scan number 0.  [make([]byte, len(nil))] is not [nil]. *)
Definition Clone (full : bool) (nd : NetDev) : NetDev :=
  mkNetDev
    ((fun st : list Z => if full
        then take NET_DEV_NUM_STATS_SIZE (st ++ replicate NET_DEV_NUM_STATS_SIZE 0%Z)
        else replicate NET_DEV_NUM_STATS_SIZE 0%Z)
       <$> DevStats nd)
    (path nd) (if full then scanNum nd else 0%Z)
    (Some (default [] (validHeader nd))) (numLinesHeader nd).

Definition starts_with (h buf : bytes) : bool := bool_decide (take (length h) buf = h).

(** Remember the first known header that the file starts with. *)
Fixpoint ValidateHeader_in (headers : list bytes) (buf : bytes) (nd : NetDev) : NetDev :=
  match headers with
  | [] => nd
  | h :: hs =>
    if (length h <=? length buf) && starts_with h buf
    then mkNetDev (DevStats nd) (path nd) (scanNum nd) (Some h)
           (length (filter (fun c => c = NL) h))
    else ValidateHeader_in hs buf nd
  end.
Definition ValidateHeader (buf : bytes) (nd : NetDev) : NetDev :=
  ValidateHeader_in netDevValidHeaders buf nd.

(** The header part of [Parse]: the state with a valid header and its length,
    or the error. *)
Definition check_header (buf : bytes) (nd : NetDev) : NetDev * (error + nat) :=
  match validHeader nd with
  | None =>
    let nd' := ValidateHeader buf nd in
    match validHeader nd' with
    | None => (nd', inl ErrUnsupportedHeader)
    | Some h => (nd', inr (length h))
    end
  | Some h =>
    if (length buf <? length h) || negb (starts_with h buf)
    then (nd, inl ErrChangedHeader) else (nd, inr (length h))
  end.

(** "Extract the device": the name up to the colon, whether the line has
    ended, the cursor after the terminator.  The code's test
    [devStart < pos-1] accepts names of two bytes or more. *)
Definition scan_dev (s : bytes) : bytes * bool * bytes :=
  let '(d, r) := span (fun c => negb (beq c COLON || beq c NL || isWhitespace c)) s in
  match r with
  | [] => ([], false, [])
  | c :: r' =>
    if beq c COLON then ((if 1 <? length d then d else []), false, r')
    else ([], beq c NL, r')
  end.

(** One device line. *)
Definition parse_line (scan : Z) (lineNum : nat) (s : bytes) (m : gmap bytes (list Z))
    : outcome (gmap bytes (list Z) * (error + bytes)) :=
  let lineStart := s in
  let '(dev, eol, s) := scan_dev (skip isWhitespace s) in
  if bool_decide (dev = []) then Ret (m, inl (ErrMissingDev lineNum (current_line lineStart)))
  else
    let stats := default (replicate NET_DEV_NUM_STATS_SIZE 0%Z) (m !! dev) in
    let m := <[dev := stats]> m in
    '(Fields statIndex eol s, stats, bad) ←
      scan_fields 64 NET_DEV_SCAN_NUMBER (fun i z v => store v i z) 0 eol s stats;
    let m := <[dev := stats]> m in
    match bad with
    | Some _ => Ret (m, inl (ErrInvalidValue lineNum (current_line lineStart)))
    | None =>
      if statIndex <? NET_DEV_SCAN_NUMBER
      then Ret (m, inl (ErrNotEnoughValues lineNum (current_line lineStart)
                          NET_DEV_SCAN_NUMBER statIndex))
      else
        stats ← store stats NET_DEV_SCAN_NUMBER scan;
        let m := <[dev := stats]> m in
        match to_eol_ws eol s with
        | inr bad => Ret (m, inl (ErrUnexpectedContent lineNum (current_line lineStart)
                                    (current_line bad)))
        | inl s => Ret (m, inr s)
        end
    end.

(** "Prune dev stats index": the devices not found at this scan go away.  An
    entry shorter than the scan number's index would panic. *)
Definition prune (scan : Z) (m : gmap bytes (list Z)) : outcome (gmap bytes (list Z)) :=
  if decide (map_Forall (fun _ st => NET_DEV_SCAN_NUMBER < length st) m)
  then Ret (filter (fun kv => kv.2 !! NET_DEV_SCAN_NUMBER = Some scan) m)
  else Panic.

Definition Parse (rd : read_result) (nd : NetDev) : outcome (NetDev * option error) :=
  match rd with
  | ReadErr | ReadTrunc _ => Ret (nd, Some ErrRead)
  | ReadOk buf =>
    match check_header buf nd with
    | (nd, inl e) => Ret (nd, Some e)
    | (nd, inr statsOff) =>
      let scan := u64 (scanNum nd + 1) in
      '(m, err) ← scan_lines (parse_line scan) (numLinesHeader nd + 1) (drop statsOff buf)
                    (DevStats nd);
      let nd' m sn := mkNetDev m (path nd) sn (validHeader nd) (numLinesHeader nd) in
      match err with
      | Some e => Ret (nd' m (scanNum nd), Some e)
      | None => m ← prune scan m; Ret (nd' m scan, None)
      end
    end
  end.

(** ** Well-formedness *)

(** Every device has its counters and its scan number. *)
Definition sized (m : gmap bytes (list Z)) : Prop :=
  map_Forall (fun _ st => length st = NET_DEV_NUM_STATS_SIZE) m.
(** Between successful parses every device carries the scan number of the
    object. *)
Definition wf (nd : NetDev) : Prop :=
  map_Forall (fun _ st => length st = NET_DEV_NUM_STATS_SIZE /\
                          st !! NET_DEV_SCAN_NUMBER = Some (scanNum nd)) (DevStats nd) /\
  (0 <= scanNum nd < 2 ^ 64)%Z.

Lemma wf_sized nd : wf nd -> sized (DevStats nd).
Proof. intros [H _] k st Hk. by apply (H k st Hk). Qed.

Lemma sized_insert m dev st :
  sized m -> length st = NET_DEV_NUM_STATS_SIZE -> sized (<[dev:=st]> m).
Proof. intros Hm Hst. by apply map_Forall_insert_2. Qed.

Lemma sized_default m dev :
  sized m -> length (default (replicate NET_DEV_NUM_STATS_SIZE 0%Z) (m !! dev)) =
             NET_DEV_NUM_STATS_SIZE.
Proof. intros Hm. destruct (m !! dev) eqn:E; [by apply (Hm dev)|done]. Qed.

Create HintDb netdev.
#[local] Hint Resolve sized_insert sized_default : netdev.

Lemma store_keeps i z (v v' : list Z) n :
  length v = n -> store v i z = Ret v' -> length v' = n.
Proof. intros Hl H. apply store_length in H. congruence. Qed.

(** One line keeps the entries well sized, on every path. *)
Lemma netdev_parse_line_sized scan n s m m' r :
  sized m -> parse_line scan n s m = Ret (m', r) -> sized m'.
Proof.
  intros Hm. unfold parse_line. destruct (scan_dev _) as [[dev eol] s1].
  case_bool_decide as Hdev; [by intros [= <- _]|].
  intros ([[[i e s2] v] bad]&Hf&H)%bind_Ret_inv.
  eapply (scan_fields_inv 64 _ _ (fun v => length v = NET_DEV_NUM_STATS_SIZE)) in Hf
    as (Hv & _ & _); [|by intros; eapply store_keeps|unfold NET_DEV_SCAN_NUMBER; lia
                      |by auto with netdev].
  rewrite insert_insert_eq in H.
  destruct bad; [inv_ret; by auto with netdev|].
  case_match; [inv_ret; by auto with netdev|].
  apply bind_Ret_inv in H as (v' & Hs & H). rewrite insert_insert_eq in H.
  assert (length v' = NET_DEV_NUM_STATS_SIZE) by by eapply store_keeps.
  case_match; inv_ret; by auto with netdev.
Qed.

Lemma netdev_parse_line_no_panic scan n s m : sized m -> parse_line scan n s m <> Panic.
Proof.
  intros Hm. unfold parse_line. destruct (scan_dev _) as [[dev eol] s1].
  case_bool_decide as Hdev; [done|].
  intros [Hp|([[[i e s2] v] bad]&Hf&H)]%bind_Panic_inv.
  - revert Hp. apply (scan_fields_no_panic _ _ _ (fun v => length v = NET_DEV_NUM_STATS_SIZE));
      [by intros; eapply store_keeps| |by auto with netdev].
    intros j z w Hj Hw. rewrite store_Ret; [done|]. unfold NET_DEV_NUM_STATS_SIZE in Hw. lia.
  - eapply (scan_fields_inv 64 _ _ (fun v => length v = NET_DEV_NUM_STATS_SIZE)) in Hf
      as (Hv & _ & _); [|by intros; eapply store_keeps|unfold NET_DEV_SCAN_NUMBER; lia
                        |by auto with netdev].
    destruct bad; [done|]. case_match; [done|].
    rewrite store_Ret in H by (rewrite Hv; unfold NET_DEV_NUM_STATS_SIZE; lia).
    simpl in H. by case_match.
Qed.

Lemma netdev_parse_line_NoFuel scan n s m : parse_line scan n s m <> NoFuel.
Proof.
  unfold parse_line. destruct (scan_dev _) as [[dev eol] s1]. case_bool_decide as Hdev; [done|].
  intros [Hp|([[[i e s2] v] bad]&Hf&H)]%bind_NoFuel_inv.
  - by apply scan_fields_terminates in Hp; [|intros; apply store_NoFuel].
  - destruct bad; [done|]. case_match; [done|].
    apply bind_NoFuel_inv in H as [?%store_NoFuel|(?&_&?)]; [done|by case_match].
Qed.

Lemma scan_dev_length s dev eol s' :
  scan_dev s = (dev, eol, s') -> s <> [] -> length s' < length s.
Proof.
  unfold scan_dev. intros H Hs.
  pose proof (span_append (fun c => negb (beq c COLON || beq c NL || isWhitespace c)) s) as Ha.
  destruct (span _ s) as [d r]. simpl in Ha. subst s. rewrite length_app.
  destruct r as [|c r]; [injection H as _ _ <-; destruct d; [done|simpl; lia]|].
  destruct (beq c COLON); injection H as _ _ <-; simpl; lia.
Qed.

Lemma netdev_parse_line_progress scan : lines_progress (parse_line scan).
Proof.
  intros n s m m' s' Hs. unfold parse_line. destruct (scan_dev _) as [[dev eol] s1] eqn:Hd.
  case_bool_decide as Hdev; [done|].
  assert (length s1 < length s).
  { pose proof (skip_length isWhitespace s).
    destruct (decide (skip isWhitespace s = [])) as [E|E].
    - rewrite E in Hd. vm_compute in Hd. congruence.
    - apply scan_dev_length in Hd; [lia|done]. }
  intros ([[[i e s2] v] bad]&Hf&Hr)%bind_Ret_inv.
  eapply (scan_fields_inv 64 _ _ (fun _ => True)) in Hf as (_ & _ & Hl);
    [|done|unfold NET_DEV_SCAN_NUMBER; lia|done].
  destruct bad; [done|]. case_match; [done|].
  apply bind_Ret_inv in Hr as (v' & _ & Hr). case_match eqn:He; [|done].
  injection Hr as _ <-. apply to_eol_ws_length in He. lia.
Qed.

(** ** A well-formed file *)

(** A device line: padding, name, colon, counters, trailing white space. *)
Record row := Row { r_pad : bytes; r_dev : bytes; r_toks : list token; r_trail : bytes }.

Definition dev_char (c : byte) : Prop := beq c COLON || beq c NL || isWhitespace c = false.

Definition row_ok (r : row) : Prop :=
  is_ws (r_pad r) /\ Forall dev_char (r_dev r) /\ 1 < length (r_dev r) /\
  Forall tok_ok (r_toks r) /\ Forall tok_sep (tail (r_toks r)) /\
  length (r_toks r) = NET_DEV_NUM_STATS /\ is_ws (r_trail r).

Definition row_out (r : row) : bytes :=
  r_pad r ++ r_dev r ++ COLON :: render (r_toks r) ++ r_trail r ++ [NL].
Definition row_vals (scan : Z) (r : row) : list Z := map (tok_val 64) (r_toks r) ++ [scan].

Lemma scan_dev_row dev t :
  Forall dev_char dev -> 1 < length dev -> scan_dev (dev ++ COLON :: t) = (dev, false, t).
Proof.
  intros Hd Hl. unfold scan_dev. rewrite span_app; [|by eapply Forall_impl; [done|]; intros c ->|done].
  rewrite beq_refl. by rewrite (proj2 (Nat.ltb_lt _ _)) by done.
Qed.

Lemma dev_char_stops dev t : Forall dev_char dev -> 1 < length dev -> stops isWhitespace (dev ++ t).
Proof.
  intros Hd Hl. destruct Hd as [|c dev Hc _]; [simpl in Hl; lia|]. simpl.
  by apply orb_false_iff in Hc as [_ ->].
Qed.

(** The line handler on a device line. *)
Lemma netdev_parse_line_row scan n r rest m :
  row_ok r -> sized m ->
  parse_line scan n (row_out r ++ rest) m = Ret (<[r_dev r := row_vals scan r]> m, inr rest).
Proof.
  destruct r as [pad dev toks trail]. unfold row_ok, row_out, row_vals. simpl.
  intros (Hpad & Hdev & Hl & Htok & Hsep & Hn & Htr) Hm.
  unfold parse_line. rewrite <- !app_assoc. simpl. rewrite <- !app_assoc.
  rewrite skip_app by (done || by apply dev_char_stops).
  rewrite scan_dev_row by done. rewrite bool_decide_eq_false_2 by (by intros ->; simpl in Hl; lia).
  set (st0 := default _ _). assert (length st0 = NET_DEV_NUM_STATS_SIZE) as Hst0
    by (by apply sized_default).
  set (t := trail ++ [NL] ++ rest).
  assert (sep_tail t) as Ht.
  { unfold t. destruct Htr as [|c tr Hc _]; simpl; unfold is_sep; [done|].
    by rewrite Hc, orb_true_r. }
  set (vals := map (tok_val 64) toks).
  assert (length vals = NET_DEV_NUM_STATS) as Hvl by (unfold vals; by rewrite length_map).
  unfold scan_fields. rewrite (fields_run _ _ _ _ 0 toks t st0 (take 0 st0 ++ vals ++ drop (0 + length vals) st0));
    [|lia|done|done|by intros ->|done|by rewrite Hn|left; by rewrite Hn| |lia];
    [|apply put_list_store; fold vals; rewrite Hvl, Hst0; vm_compute; lia].
  rewrite Hn. simpl mbind.
  change (0 + NET_DEV_NUM_STATS <? NET_DEV_SCAN_NUMBER) with false. cbv iota.
  rewrite store_Ret; [|simpl; rewrite !length_app, length_drop, Hst0, Hvl; vm_compute; lia].
  simpl mbind. rewrite !insert_insert_eq.
  assert (to_eol_ws (tail_eol t) (tail t) = inl rest) as ->.
  { unfold t. destruct Htr as [|c tr Hc Htr]; simpl.
    - by destruct rest.
    - rewrite ws_not_nl by done. by apply to_eol_ws_run. }
  do 3 f_equal. rewrite insert_app_r_alt by (rewrite Hvl; done).
  f_equal. rewrite Hvl. change (NET_DEV_SCAN_NUMBER - NET_DEV_NUM_STATS) with 0.
  destruct (drop _ st0) as [|x [|]] eqn:Hd; apply (f_equal length) in Hd;
    rewrite length_drop, Hst0 in Hd; try (vm_compute in Hd; discriminate). done.
Qed.

Lemma netdev_row_out_nonnil r : row_out r <> [].
Proof.
  intros H. apply (f_equal length) in H. unfold row_out in H.
  rewrite !length_app in H. simpl in H. lia.
Qed.

Lemma row_vals_sized scan r : row_ok r -> length (row_vals scan r) = NET_DEV_NUM_STATS_SIZE.
Proof.
  intros (_&_&_&_&_&Hn&_). unfold row_vals. by rewrite length_app, length_map, Hn.
Qed.

Lemma scan_rows scan n rows m :
  Forall row_ok rows -> sized m ->
  scan_lines (parse_line scan) n (concat (map row_out rows)) m = Ret (insert_all r_dev (row_vals scan) rows m, None).
Proof.
  intros Hok Hm. unfold insert_all.
  apply (scan_lines_rows (parse_line scan) row_out _ row_ok sized 0);
    [by intros; apply netdev_row_out_nonnil| |lia|done|done].
  intros n' r rest m' _ Hr Hm'. split; [by apply netdev_parse_line_row|].
  apply sized_insert; [done|by apply row_vals_sized].
Qed.

(** What a successful scan leaves: exactly the devices of the file. *)
Lemma prune_rows scan rows m :
  Forall row_ok rows -> NoDup (map r_dev rows) ->
  map_Forall (fun _ st => length st = NET_DEV_NUM_STATS_SIZE /\
                          st !! NET_DEV_SCAN_NUMBER <> Some scan) m ->
  prune scan (insert_all r_dev (row_vals scan) rows m) =
  Ret (list_to_map (map (fun r => (r_dev r, row_vals scan r)) rows)).
Proof.
  intros Hok Hnd Hm. unfold prune. rewrite decide_True; last first.
  { assert (sized (insert_all r_dev (row_vals scan) rows m)) as Hs.
    { assert (sized m) as Hsm by (intros k st Hk; by apply (Hm k st Hk)). clear -Hok Hsm.
      unfold insert_all. revert m Hsm. induction Hok as [|r rows Hr _ IH]; intros m Hsm; simpl; [done|].
      apply IH. apply sized_insert; [done|by apply row_vals_sized]. }
    intros k st Hk. rewrite (Hs k st Hk). vm_compute; lia. }
  f_equal. apply (insert_all_filter r_dev (row_vals scan)
    (fun st => st !! NET_DEV_SCAN_NUMBER = Some scan)); [done| |].
  - intros r Hr. rewrite Forall_forall in Hok. specialize (Hok r Hr).
    destruct Hok as (_&_&_&_&_&Hn&_). unfold row_vals.
    rewrite lookup_app_r; rewrite length_map, Hn; [done|vm_compute; lia].
  - intros k st Hk. by apply (Hm k st Hk).
Qed.

(** The headers the parser knows, on an object that has not seen a file yet or
    that has validated this header before. *)
Definition header_ok (h : bytes) (nd : NetDev) : Prop :=
  h ∈ netDevValidHeaders /\ (validHeader nd = None \/ validHeader nd = Some h).

Lemma starts_with_app h t : starts_with h (h ++ t) = true.
Proof. unfold starts_with. rewrite take_app_length. by apply bool_decide_eq_true_2. Qed.

Lemma check_header_ok h t nd :
  header_ok h nd ->
  exists nd', check_header (h ++ t) nd = (nd', inr (length h)) /\
    DevStats nd' = DevStats nd /\ scanNum nd' = scanNum nd /\ validHeader nd' = Some h /\
    path nd' = path nd.
Proof.
  intros [Hh Hv]. unfold check_header. destruct Hv as [Hv|Hv]; rewrite Hv.
  - unfold ValidateHeader. apply list_elem_of_singleton in Hh as ->.
    cbn [ValidateHeader_in netDevValidHeaders].
    rewrite starts_with_app, (proj2 (Nat.leb_le _ _)) by (rewrite length_app; lia).
    eexists. split; [reflexivity|]. done.
  - rewrite starts_with_app. rewrite (proj2 (Nat.ltb_ge _ _)) by (rewrite length_app; lia).
    by exists nd.
Qed.

Lemma ValidateHeader_in_DevStats hs buf nd : DevStats (ValidateHeader_in hs buf nd) = DevStats nd.
Proof. induction hs as [|h hs IH]; simpl; [done|]. by case_match. Qed.

Lemma check_header_DevStats buf nd : DevStats (check_header buf nd).1 = DevStats nd.
Proof.
  unfold check_header, ValidateHeader. destruct (validHeader nd).
  - by case_match.
  - rewrite <- (ValidateHeader_in_DevStats netDevValidHeaders buf nd). by case_match.
Qed.

(** ** Properties *)

(** parsing a file made of a known header and of device lines (any padding,
    distinct names of at least two bytes, sixteen decimal counters) succeeds
    and leaves exactly the devices of the file, each with its counters modulo
    2^64; devices of earlier scans that are gone are pruned, and the object is
    ready for the next scan. *)
Theorem netdev_parse_file (nd : NetDev) (h : bytes) (rows : list row) :
  wf nd -> header_ok h nd -> Forall row_ok rows -> NoDup (map r_dev rows) ->
  exists nd', Parse (ReadOk (h ++ concat (map row_out rows))) nd = Ret (nd', None) /\
    DevStats nd' = list_to_map (map (fun r => (r_dev r, row_vals (scanNum nd') r)) rows) /\
    scanNum nd' = u64 (scanNum nd + 1) /\ validHeader nd' = Some h /\ wf nd'.
Proof.
  intros Hwf Hh Hok Hnd. unfold Parse.
  destruct (check_header_ok h (concat (map row_out rows)) nd Hh)
    as (nd1 & -> & Hd & Hs & Hv & Hp).
  rewrite drop_app_length, Hd, Hs, Hv. set (sc := u64 (scanNum nd + 1)).
  rewrite scan_rows by (done || by apply wf_sized). simpl.
  destruct Hwf as [Hwf Hr].
  rewrite prune_rows; [simpl|done|done|].
  2:{ intros k st Hk. destruct (Hwf k st Hk) as [Hl Hsn]. split; [done|]. rewrite Hsn.
      intros [= E]. by apply (u64_succ_ne (scanNum nd)). }
  eexists. split; [reflexivity|]. simpl. split_and!; try done. split.
  - simpl. intros k st Hk%elem_of_list_to_map_2%list_elem_of_fmap.
    destruct Hk as (r & [= -> ->] & Hr'). rewrite Forall_forall in Hok.
    specialize (Hok r Hr'). split; [by apply row_vals_sized|].
    destruct Hok as (_&_&_&_&_&Hn&_). unfold row_vals.
    rewrite lookup_app_r; rewrite length_map, Hn; [done|vm_compute; lia].
  - apply (wrapu_range 64). lia.
Qed.

Lemma netdev_parse_returns (nd : NetDev) (rd : read_result) :
  sized (DevStats nd) ->
  exists nd' err, Parse rd nd = Ret (nd', err) /\ sized (DevStats nd').
Proof.
  intros Hm. unfold Parse. destruct rd as [buf| |]; [|by eauto..].
  destruct (check_header buf nd) as [nd1 r] eqn:Hc.
  assert (DevStats nd1 = DevStats nd) as Hd.
  { by rewrite <- (check_header_DevStats buf nd), Hc. }
  destruct r as [e|off]; [rewrite <- Hd in Hm; by eauto|]. rewrite <- Hd in Hm.
  destruct (scan_lines _ _ _ _) as [[m err]| |] eqn:Hs; simpl.
  - apply (scan_lines_inv _ sized) in Hs; [|by intros; eapply netdev_parse_line_sized|done].
    destruct err as [e|]; [by eauto|]. unfold prune. rewrite decide_True.
    + simpl. eexists _, _. split; [done|]. intros k st [Hk _]%map_lookup_filter_Some. by apply (Hs k).
    + intros k st Hk. rewrite (Hs k st Hk). vm_compute; lia.
  - exfalso. revert Hs. by apply (scan_lines_no_panic _ sized);
      [intros; eapply netdev_parse_line_sized|intros; apply netdev_parse_line_no_panic|].
  - exfalso. revert Hs. apply scan_lines_terminates;
      [intros; apply netdev_parse_line_NoFuel|apply netdev_parse_line_progress].
Qed.


(** on any content whatsoever the parser returns (it neither panics nor
    loops), and it keeps the invariant that every device has its seventeen
    slots; so the object stays usable after an error. *)
Theorem netdev_parse_total (nd : NetDev) (rd : read_result) :
  sized (DevStats nd) ->
  exists nd' err, Parse rd nd = Ret (nd', err) /\ sized (DevStats nd').
Proof. apply netdev_parse_returns. Qed.

(** names of one byte.  A line whose device name is a single byte is
    rejected as having no device, whatever follows, and nothing is stored. *)
Theorem netdev_one_byte_name scan n pad c t m :
  is_ws pad -> isWhitespace c = false -> c <> COLON -> c <> NL ->
  exists text, parse_line scan n (pad ++ c :: COLON :: t) m = Ret (m, inl (ErrMissingDev n text)).
Proof.
  intros Hp Hw Hc Hn. unfold parse_line.
  rewrite skip_app by (done || by apply stops_cons). unfold scan_dev.
  change (c :: COLON :: t) with ([c] ++ COLON :: t) at 1.
  rewrite span_app; [simpl; by eexists| |done].
  constructor; [|constructor]. by rewrite Hw, (proj2 (beq_false _ _) Hc), (proj2 (beq_false _ _) Hn).
Qed.

(** ** Witnesses *)

Definition tok (ws ds : string) : token := (bs ws, bs ds).
Definition row_lo : row :=
  Row (bs "    ") (bs "lo") (tok "    " "6740" :: tok "      " "68" :: replicate 14 (tok "    " "0")) [].
Definition row_eth0 : row :=
  Row (bs "  ") (bs "eth0") (tok "" "18446744073709551617" :: replicate 15 (tok " " "007")) (bs " ").

Lemma row_lo_ok : row_ok row_lo.
Proof. unfold row_ok. repeat split; try (by repeat constructor); vm_compute; lia. Qed.

Lemma row_eth0_ok : row_ok row_eth0.
Proof. unfold row_ok. repeat split; try (by repeat constructor); vm_compute; lia. Qed.

Lemma netdev_parse_file_witness :
  exists nd', Parse (ReadOk (hd [] netDevValidHeaders ++ concat (map row_out [row_lo; row_eth0])))
                (NewNetDev (bs "/proc/net/dev")) = Ret (nd', None) /\
    (hd 0%Z <$> DevStats nd' !! bs "eth0") = Some 1%Z.
Proof.
  destruct (netdev_parse_file (NewNetDev (bs "/proc/net/dev")) (hd [] netDevValidHeaders)
              [row_lo; row_eth0]) as (nd' & H & Hd & _).
  - split; [apply map_Forall_empty|vm_compute; split; congruence].
  - split; [by left|by left].
  - constructor; [apply row_lo_ok|constructor; [apply row_eth0_ok|constructor]].
  - vm_compute. apply NoDup_cons. split; [|apply NoDup_singleton].
    rewrite list_elem_of_singleton. congruence.
  - exists nd'. split; [exact H|]. rewrite Hd. reflexivity.
Defined.

Lemma netdev_parse_total_witness :
  exists nd' err, Parse (ReadOk (hd [] netDevValidHeaders ++ bs "lo: 1 2 x"))
                    (NewNetDev (bs "/proc/net/dev")) = Ret (nd', err) /\ sized (DevStats nd').
Proof. apply netdev_parse_total. apply map_Forall_empty. Defined.

Lemma netdev_one_byte_name_witness :
  exists text, parse_line 1 3 (bs "  a: 1 2 3 4 5 6 7 8 9 10 11 12 13 14 15 16") ∅ =
    Ret (∅, inl (ErrMissingDev 3 text)).
Proof.
  apply (netdev_one_byte_name 1 3 (bs "  ") Init.Byte.x61 (bs " 1 2 3 4 5 6 7 8 9 10 11 12 13 14 15 16") ∅);
    [by repeat constructor|reflexivity|discriminate|discriminate].
Defined.

End NetDev.
