(* ===== verification/Stat.v ===== *)
(** Parser for /proc/stat (src/procfs/stat_parser.go): per-CPU ticks, scalar
    values, CPU hot plug by scan number. *)

From Stdlib Require Import ZArith Lia.
From stdpp Require Import base tactics numbers strings gmap list.
From S2P Require Import Prelude Scan.

Module Stat.

Definition STAT_CPU_NUM_STATS : nat := 10.
Definition STAT_CPU_ALL : Z := (-1)%Z.
Definition STAT_CPU_MIN_NUM_FIELDS : nat := 7.
Definition STAT_CPU_SCAN_NUMBER : nat := STAT_CPU_NUM_STATS.
Definition STAT_CPU_STATS_SZ : nat := STAT_CPU_SCAN_NUMBER + 1.
Definition STAT_NUMERIC_NUM_STATS : nat := 9.

Record Stat := mkStat {
  Cpu : gmap Z (list Z);
  NumCpus : Z;
  NumericFields : list Z;
  path : bytes;
  scanNum : Z
}.

Inductive error :=
| ErrRead
| ErrCpuDigit (lineNum : nat) (line : bytes) (c : byte)
| ErrDigit (lineNum : nat) (line : bytes) (c : byte)
| ErrValueCount (lineNum : nat) (line : bytes) (want got : nat).

(** Where the values of a line go, by line prefix. *)
Definition cpuIndexList : list nat := [0; 1; 2; 3; 4; 5; 6; 7; 8; 9].
Definition statPrefixToDstIndexList : list (bytes * list nat) := [
  (bs "cpu", cpuIndexList);
  (bs "page", [0; 1]);
  (bs "swap", [2; 3]);
  (bs "ctxt", [4]);
  (bs "btime", [5]);
  (bs "processes", [6]);
  (bs "procs_running", [7]);
  (bs "procs_blocked", [8])
].
Definition dstIndexList (prefix : bytes) : list nat :=
  default [] (snd <$> (snd <$> list_find (fun kv => kv.1 = prefix) statPrefixToDstIndexList)).

Definition statCpuPrefix : bytes := bs "cpu".

Definition NewStat (path : bytes) : Stat :=
  mkStat ∅ 0 (replicate STAT_NUMERIC_NUM_STATS 0%Z) path 0.

(** [Clone]: the scalar values are not copied, whatever [full] is; a copy that
    is not full keeps only the scan numbers of the CPUs. *)
Definition clone_cpu (full : bool) (st : list Z) : outcome (list Z) :=
  let new := replicate STAT_CPU_STATS_SZ 0%Z in
  if full then Ret (take STAT_CPU_STATS_SZ st ++ drop (length st) new)
  else sn ← must (st !! STAT_CPU_SCAN_NUMBER); store new STAT_CPU_SCAN_NUMBER sn.
Definition Clone (full : bool) (stat : Stat) : outcome Stat :=
  if decide (map_Forall (fun _ st => full = true \/ STAT_CPU_SCAN_NUMBER < length st) (Cpu stat))
  then Ret (mkStat (omap (fun st => match clone_cpu full st with Ret s => Some s | _ => None end)
                      (Cpu stat))
              0 (replicate STAT_NUMERIC_NUM_STATS 0%Z) (path stat) (scanNum stat))
  else Panic.

(** What the parse of the lines works on. *)
Record parsed := Parsed { p_cpu : gmap Z (list Z); p_num : Z; p_fields : list Z }.

(** "Parse prefix": the prefix of the line, whether it is "cpu" or "cpuNN", NN,
    whether the line has ended.  A prefix shorter than "cpu" that agrees with
    it so far counts as a CPU prefix too. *)
Inductive prefix_end :=
| PfxEnd (prefix : bytes) (isCpuPrefix : bool) (cpuNum : Z) (eol : bool) (rest : bytes)
| PfxBad (c : byte).

Fixpoint scan_prefix (acc : bytes) (isCpuPrefix : bool) (cpuNum : Z) (s : bytes) : prefix_end :=
  match s with
  | [] => PfxEnd acc isCpuPrefix cpuNum false []
  | c :: s' =>
    let eol := beq c NL in
    if eol || isWhitespace c then PfxEnd acc isCpuPrefix cpuNum eol s'
    else if length acc <? length statCpuPrefix
    then scan_prefix (acc ++ [c])
           (isCpuPrefix && bool_decide (statCpuPrefix !! length acc = Some c)) cpuNum s'
    else if isCpuPrefix
    then
      if is_digit c
      then scan_prefix (acc ++ [c]) isCpuPrefix (push_digit_int cpuNum (digit_of c)) s'
      else PfxBad c
    else scan_prefix (acc ++ [c]) isCpuPrefix cpuNum s'
  end.

(** [Values[indexList[fieldIndex]] = val]. *)
Definition put_field (indexList : list nat) (i : nat) (z : Z) (v : list Z) : outcome (list Z) :=
  idx ← must (indexList !! i); store v idx z.

(** The end-of-line flag that the loop tests before each line.  The line
    handler declares a variable of the same name in an inner scope
    ([lineStartPos, eol := pos, false]), so this one keeps its initial value
    and the loop never advances past what is left of a line. *)
Definition outer_eol : bool := true.

(** One iteration of the loop of [Parse]. *)
Definition parse_line (scan : Z) (lineNum : nat) (s : bytes) (m : parsed)
    : outcome (parsed * (error + bytes)) :=
  let '(_, s) := to_eol outer_eol s in
  let lineStart := s in
  match scan_prefix [] true 0 (skip isWhitespace s) with
  | PfxBad c => Ret (m, inl (ErrCpuDigit lineNum (current_line lineStart) c))
  | PfxEnd prefix isCpuPrefix cpuNum eol s =>
    if bool_decide (prefix = []) then Ret (m, inr s)
    else
      let '(key, indexList, minNumValues) :=
        if isCpuPrefix
        then (Some (if length prefix =? length statCpuPrefix then STAT_CPU_ALL else cpuNum),
              dstIndexList (bs "cpu"), STAT_CPU_MIN_NUM_FIELDS)
        else (None, dstIndexList prefix, length (dstIndexList prefix)) in
      let num := if isCpuPrefix && negb (length prefix =? length statCpuPrefix)
                 then i64 (p_num m + 1) else p_num m in
      values ← match key with
               | Some cpu =>
                 store (default (replicate STAT_CPU_STATS_SZ 0%Z) (p_cpu m !! cpu))
                       STAT_CPU_SCAN_NUMBER scan
               | None => Ret (p_fields m)
               end;
      '(Fields fieldIndex eol s, values, bad) ←
        scan_fields 64 (length indexList) (put_field indexList) 0 eol s values;
      let m := match key with
               | Some cpu => Parsed (<[cpu := values]> (p_cpu m)) num (p_fields m)
               | None => Parsed (p_cpu m) num values
               end in
      match bad with
      | Some c => Ret (m, inl (ErrDigit lineNum (current_line s) c))
      | None =>
        if fieldIndex <? minNumValues
        then Ret (m, inl (ErrValueCount lineNum (current_line lineStart) minNumValues fieldIndex))
        else Ret (m, inr s)
      end
  end.

Definition prune (scan : Z) (m : gmap Z (list Z)) : outcome (gmap Z (list Z)) :=
  if decide (map_Forall (fun _ st => STAT_CPU_SCAN_NUMBER < length st) m)
  then Ret (filter (fun kv => kv.2 !! STAT_CPU_SCAN_NUMBER = Some scan) m)
  else Panic.

Definition Parse (rd : read_result) (stat : Stat) : outcome (Stat * option error) :=
  match rd with
  | ReadErr | ReadTrunc _ => Ret (stat, Some ErrRead)
  | ReadOk buf =>
    let scan := u64 (scanNum stat + 1) in
    '(p, err) ← scan_lines (parse_line scan) 1 buf (Parsed (Cpu stat) 0 (NumericFields stat));
    match err with
    | Some e => Ret (mkStat (p_cpu p) (p_num p) (p_fields p) (path stat) (scanNum stat), Some e)
    | None =>
      cpu ← prune scan (p_cpu p);
      Ret (mkStat cpu (p_num p) (p_fields p) (path stat) scan, None)
    end
  end.

(** ** Well-formedness *)

Definition sized (m : parsed) : Prop :=
  map_Forall (fun _ st => length st = STAT_CPU_STATS_SZ) (p_cpu m) /\
  length (p_fields m) = STAT_NUMERIC_NUM_STATS.

Definition wf (stat : Stat) : Prop :=
  map_Forall (fun _ st => length st = STAT_CPU_STATS_SZ /\
                          st !! STAT_CPU_SCAN_NUMBER = Some (scanNum stat)) (Cpu stat) /\
  length (NumericFields stat) = STAT_NUMERIC_NUM_STATS /\ (0 <= scanNum stat < 2 ^ 64)%Z.

Lemma dstIndexList_range prefix :
  Forall (fun i => i < STAT_NUMERIC_NUM_STATS \/ prefix = bs "cpu" /\ i < STAT_CPU_STATS_SZ)
         (dstIndexList prefix).
Proof.
  unfold dstIndexList. destruct (list_find _ _) as [[i [k l]]|] eqn:E; simpl; [|constructor].
  apply list_find_Some in E as (Hl & Hk & _). simpl in Hk. subst k.
  do 8 (destruct i as [|i]; [injection Hl as <- <-; unfold STAT_NUMERIC_NUM_STATS, STAT_CPU_STATS_SZ;
    repeat constructor; simpl; lia|]). done.
Qed.

Lemma put_field_length il i z v v' : put_field il i z v = Ret v' -> length v' = length v.
Proof. unfold put_field. intros (idx & _ & H)%bind_Ret_inv. by apply store_length in H. Qed.

Lemma put_field_keeps il i z v v' n :
  length v = n -> put_field il i z v = Ret v' -> length v' = n.
Proof. intros Hn H. apply put_field_length in H. congruence. Qed.

Lemma put_field_NoFuel il i z v : put_field il i z v <> NoFuel.
Proof.
  unfold put_field. intros [?%must_NoFuel|(?&_&?%store_NoFuel)]%bind_NoFuel_inv; done.
Qed.

Lemma put_field_no_panic il i z v :
  Forall (fun i => i < length v) il -> i < length il -> put_field il i z v <> Panic.
Proof.
  intros Hil Hi. unfold put_field. destruct (lookup_lt_is_Some_2 il i Hi) as [idx Hidx].
  rewrite Hidx. simpl. rewrite store_Ret; [done|]. by eapply Forall_lookup_1 in Hil.
Qed.

Lemma scan_prefix_length acc isCpu cpu s p b c e s' :
  scan_prefix acc isCpu cpu s = PfxEnd p b c e s' -> s <> [] -> length s' < length s.
Proof.
  revert acc isCpu cpu. induction s as [|x s IH]; intros acc isCpu cpu H Hs; [done|]. simpl in *.
  destruct (beq x NL || isWhitespace x); [injection H as _ _ _ _ <-; lia|].
  assert (forall a b' k, scan_prefix a b' k s = PfxEnd p b c e s' -> length s' < S (length s)) as Hk.
  { intros a b' k H'. destruct s; [simpl in H'; injection H' as _ _ _ _ <-; simpl; lia|].
    apply IH in H'; [lia|done]. }
  repeat case_match; eauto; done.
Qed.

Lemma scan_prefix_nil acc isCpu cpu p b c e s' :
  scan_prefix acc isCpu cpu [] = PfxEnd p b c e s' -> p = acc /\ s' = [].
Proof. simpl. by intros [= <- _ _ _ <-]. Qed.

(** Everything the line handler keeps, on every path. *)
Lemma parse_line_inv scan n s m m' r :
  sized m -> parse_line scan n s m = Ret (m', r) -> sized m'.
Proof.
  intros [Hc Hf]. unfold parse_line. rewrite to_eol_done.
  destruct (scan_prefix _ _ _ _) as [p isCpu cpu eol s1|c] eqn:Hp; [|by intros; simplify_eq].
  case_bool_decide as Hpe; [by intros; simplify_eq|].
  destruct isCpu; intros (vals & Hv & H)%bind_Ret_inv;
    apply bind_Ret_inv in H as ([[[i e s2] v] bad] & Hs & H).
  - apply store_length in Hv.
    eapply (scan_fields_inv 64 _ _ (fun v => length v = STAT_CPU_STATS_SZ)) in Hs as (Hlen & _ & _);
      [|by intros; eapply put_field_keeps|lia|].
    2:{ rewrite Hv. destruct (_ !! _) eqn:E; [by apply Hc in E|done]. }
    assert (sized (Parsed (<[if length p =? length statCpuPrefix then STAT_CPU_ALL else cpu := v]>
      (p_cpu m)) (if true && negb (length p =? length statCpuPrefix) then i64 (p_num m + 1) else p_num m)
      (p_fields m))) by (split; simpl; [by apply map_Forall_insert_2|done]).
    destruct bad; [by inv_ret|]. destruct (i <? _); by inv_ret.
  - injection Hv as <-.
    eapply (scan_fields_inv 64 _ _ (fun v => length v = STAT_NUMERIC_NUM_STATS)) in Hs as (Hlen & _ & _);
      [|by intros; eapply put_field_keeps|lia|done].
    assert (sized (Parsed (p_cpu m) (p_num m) v)) by done.
    destruct bad; [by inv_ret|]. destruct (i <? _); by inv_ret.
Qed.

Lemma put_values_no_panic prefix il (v : list Z) idx eol s :
  il = dstIndexList prefix ->
  (prefix = bs "cpu" -> length v = STAT_CPU_STATS_SZ) ->
  (prefix <> bs "cpu" -> length v = STAT_NUMERIC_NUM_STATS) ->
  scan_fields 64 (length il) (put_field il) idx eol s v <> Panic.
Proof.
  intros -> H1 H2. pose proof (dstIndexList_range prefix) as Hr.
  assert (Forall (fun i => i < length v) (dstIndexList prefix)) as Hi.
  { eapply Forall_impl; [exact Hr|]. intros i [Hi|[Hp Hi]]; [|by rewrite H1].
    destruct (decide (prefix = bs "cpu")); [rewrite H1 by done|rewrite H2 by done];
      unfold STAT_CPU_STATS_SZ, STAT_CPU_SCAN_NUMBER, STAT_CPU_NUM_STATS, STAT_NUMERIC_NUM_STATS in *; lia. }
  apply (scan_fields_no_panic _ _ _ (fun u => length u = length v)); [| |done].
  - by intros; eapply put_field_keeps.
  - intros i z u Hlt Hu. apply put_field_no_panic; [by rewrite Hu|done].
Qed.

Lemma scan_prefix_prefix s acc b0 c0 p b c e s' :
  scan_prefix acc b0 c0 s = PfxEnd p b c e s' -> exists q, p = acc ++ q.
Proof.
  revert acc b0 c0. induction s as [|x s IH]; intros acc b0 c0 H; simpl in H.
  - injection H as <- _ _ _ _. exists []. by rewrite app_nil_r.
  - destruct (_ || _); [injection H as <- _ _ _ _; exists []; by rewrite app_nil_r|].
    repeat case_match; try done; apply IH in H as [q ->]; rewrite <- app_assoc; by eexists.
Qed.

Lemma scan_prefix_is_cpu s acc c0 p b c e s' :
  scan_prefix acc true c0 s = PfxEnd p b c e s' ->
  (forall i x, p !! i = Some x -> i < 3 -> statCpuPrefix !! i = Some x) -> b = true.
Proof.
  revert acc c0. induction s as [|x s IH]; intros acc c0 H Hp; simpl in H.
  - by injection H as _ <- _ _ _.
  - destruct (_ || _); [by injection H as _ <- _ _ _|].
    destruct (length acc <? 3) eqn:El.
    + apply Nat.ltb_lt in El.
      destruct (scan_prefix_prefix _ _ _ _ _ _ _ _ _ H) as [q Hq].
      assert (p !! length acc = Some x) as Hx.
      { rewrite Hq, <- app_assoc, lookup_app_r by lia. by rewrite Nat.sub_diag. }
      rewrite bool_decide_eq_true_2 in H by (apply Hp; done). by eapply IH.
    + case_match; [|done]. by eapply IH.
Qed.

(** A prefix that is not taken for a CPU one is not "cpu". *)
Lemma scan_prefix_not_cpu s p c e s' :
  scan_prefix [] true 0 s = PfxEnd p false c e s' -> p <> bs "cpu".
Proof. intros H ->. by apply scan_prefix_is_cpu in H. Qed.

Lemma stat_parse_line_no_panic scan n s m : sized m -> parse_line scan n s m <> Panic.
Proof.
  intros [Hc Hf]. unfold parse_line. rewrite to_eol_done.
  destruct (scan_prefix _ _ _ _) as [p isCpu cpu eol s1|c] eqn:Hp; [|done].
  case_bool_decide as Hpe; [done|].
  destruct isCpu; simpl andb.
  - set (v0 := default _ _). assert (length v0 = STAT_CPU_STATS_SZ) as Hv0.
    { unfold v0. destruct (_ !! _) eqn:E; [by apply Hc in E|done]. }
    rewrite store_Ret by (rewrite Hv0; vm_compute; lia). rewrite bind_ret.
    intros [Hs|([[[i e s2] v] bad]&_&H)]%bind_Panic_inv; [|by destruct bad; [|destruct (i <? _)]].
    revert Hs. apply (put_values_no_panic (bs "cpu")); [done|by intros; rewrite length_insert|done].
  - rewrite bind_ret.
    intros [Hs|([[[i e s2] v] bad]&_&H)]%bind_Panic_inv; [|by destruct bad; [|destruct (i <? _)]].
    revert Hs. apply (put_values_no_panic p); [done| |done].
    intros ->. by apply scan_prefix_not_cpu in Hp.
Qed.

Lemma stat_parse_line_NoFuel scan n s m : parse_line scan n s m <> NoFuel.
Proof.
  unfold parse_line. rewrite to_eol_done.
  destruct (scan_prefix _ _ _ _) as [p isCpu cpu eol s1|c]; [|done].
  case_bool_decide as Hpe; [done|].
  destruct isCpu; intros [H|(v&_&H)]%bind_NoFuel_inv; try done;
    try (by apply store_NoFuel in H);
    (apply bind_NoFuel_inv in H as [H|([[[i e s2] w] bad]&_&H)];
      [by apply scan_fields_terminates in H; [|intros; apply put_field_NoFuel]
      |by destruct bad; [|destruct (i <? _)]]).
Qed.

Lemma stat_parse_line_progress scan : lines_progress (parse_line scan).
Proof.
  intros n s m m' s' Hs. unfold parse_line. rewrite to_eol_done.
  destruct (scan_prefix _ _ _ _) as [p isCpu cpu eol s1|c] eqn:Hp; [|done].
  assert (length s1 < length s) as Hl.
  { pose proof (skip_length isWhitespace s). destruct (skip isWhitespace s) as [|x t] eqn:E.
    - apply scan_prefix_nil in Hp as [_ ->]. destruct s; [done|simpl; lia].
    - apply scan_prefix_length in Hp; [|done]. simpl in *. lia. }
  case_bool_decide as Hpe; [by intros; simplify_eq|].
  destruct isCpu; intros (v&_&H)%bind_Ret_inv;
    apply bind_Ret_inv in H as ([[[i e s2] w] bad]&Hf&H);
    (eapply (scan_fields_inv 64 _ _ (fun _ => True)) in Hf as (_ & _ & Hl2); [|done|lia|done]);
    (destruct bad; [done|]); destruct (i <? _); simplify_eq/=; lia.
Qed.

(** ** A well-formed file *)

(** A line of CPU counters ("cpu" or "cpuNN" and ten numbers), a scalar line
    (a known prefix and its numbers), or a word of any other line. *)
Inductive row :=
| RCpu (ds : bytes) (toks : list token)
| RNum (prefix : bytes) (toks : list token)
| RWord (pad word : bytes) (sep : byte).

Definition word_char (c : byte) : Prop := is_sep c = false.

Definition row_ok (r : row) : Prop :=
  match r with
  | RCpu ds toks =>
    Forall (fun c => is_digit c = true) ds /\ Forall tok_ok toks /\ Forall tok_sep toks /\
    length toks = STAT_CPU_NUM_STATS
  | RNum prefix toks =>
    dstIndexList prefix <> [] /\ prefix <> bs "cpu" /\ Forall tok_ok toks /\
    Forall tok_sep toks /\ length toks = length (dstIndexList prefix)
  | RWord pad word sep =>
    is_ws pad /\ word <> [] /\ Forall word_char word /\ hd_error word <> Some (Init.Byte.x63) /\
    dstIndexList word = [] /\ is_sep sep = true
  end.

Definition row_out (r : row) : bytes :=
  match r with
  | RCpu ds toks => statCpuPrefix ++ ds ++ render toks ++ [NL]
  | RNum prefix toks => prefix ++ render toks ++ [NL]
  | RWord pad word sep => pad ++ word ++ [sep]
  end.

Definition cpu_key (ds : bytes) : Z := if bool_decide (ds = []) then STAT_CPU_ALL else i64 (dec ds).
Definition cpu_vals (scan : Z) (r : bytes * list token) : list Z :=
  map (tok_val 64) r.2 ++ [scan].

Definition set_fields (idxs : list nat) (vals : list Z) (f : list Z) : list Z :=
  foldl (fun f iv => <[iv.1:=iv.2]> f) f (zip idxs vals).

Definition row_upd (scan : Z) (r : row) (m : parsed) : parsed :=
  match r with
  | RCpu ds toks =>
    Parsed (<[cpu_key ds := cpu_vals scan (ds, toks)]> (p_cpu m))
           (if bool_decide (ds = []) then p_num m else i64 (p_num m + 1)) (p_fields m)
  | RNum prefix toks =>
    Parsed (p_cpu m) (p_num m) (set_fields (dstIndexList prefix) (map (tok_val 64) toks) (p_fields m))
  | RWord _ _ _ => m
  end.

Lemma put_list_field il : forall zs k v,
  Forall (fun i => i < length v) il -> k + length zs <= length il ->
  put_list (put_field il) k zs v = Ret (set_fields (drop k il) zs v).
Proof.
  induction zs as [|z zs IH]; intros k v Hil Hk; simpl in *.
  - unfold set_fields. by rewrite zip_with_nil_r.
  - destruct (lookup_lt_is_Some_2 il k) as [idx Hidx]; [lia|].
    assert (idx < length v) by exact (Forall_lookup_1 _ _ _ _ Hil Hidx).
    assert (put_field il k z v = Ret (<[idx:=z]> v)) as ->
      by (unfold put_field; rewrite Hidx; simpl; by rewrite store_Ret).
    rewrite bind_ret.
    rewrite IH; [|by rewrite length_insert|lia].
    by rewrite (drop_S il idx k) by done.
Qed.

Lemma set_fields_cpu vals v :
  length vals = STAT_CPU_NUM_STATS -> length v = STAT_CPU_STATS_SZ ->
  set_fields cpuIndexList vals v = vals ++ drop STAT_CPU_NUM_STATS v.
Proof.
  intros H1 H2. do 10 (destruct vals as [|? vals]; [done|]). destruct vals; [|done].
  do 11 (destruct v as [|? v]; [done|]). by destruct v.
Qed.

Lemma scan_prefix_word acc cpu w t :
  Forall word_char w -> sep_tail t ->
  scan_prefix acc false cpu (w ++ t) = PfxEnd (acc ++ w) false cpu (tail_eol t) (tail t).
Proof.
  intros Hw Ht. revert acc. induction Hw as [|c w Hc _ IH]; intros acc; simpl.
  - rewrite app_nil_r. destruct t as [|c t]; simpl in *; [done|]. unfold is_sep in Ht. by rewrite Ht.
  - unfold word_char, is_sep in Hc. rewrite Hc. rewrite IH, <- app_assoc. by case_match.
Qed.

Lemma scan_prefix_digits acc cpu ds t :
  Forall (fun c => is_digit c = true) ds -> sep_tail t -> 3 <= length acc ->
  scan_prefix acc true cpu (ds ++ t) =
  PfxEnd (acc ++ ds) true (foldl (fun v c => push_digit_int v (digit_of c)) cpu ds)
         (tail_eol t) (tail t).
Proof.
  intros Hd Ht. revert acc cpu. induction Hd as [|c ds Hc _ IH]; intros acc cpu Hl; simpl.
  - rewrite app_nil_r. destruct t as [|c t]; simpl in *; [done|]. unfold is_sep in Ht. by rewrite Ht.
  - destruct (is_digit_not_ws c Hc) as [-> Hn]. rewrite (proj2 (beq_false c NL)) by done. simpl.
    rewrite (proj2 (Nat.ltb_ge _ _)) by done. rewrite Hc.
    rewrite IH by (rewrite length_app; simpl; lia). by rewrite <- app_assoc.
Qed.

(** A word that does not start like "cpu". *)
Lemma scan_prefix_other w t :
  w <> [] -> Forall word_char w -> hd_error w <> Some (Init.Byte.x63) -> sep_tail t ->
  scan_prefix [] true 0 (w ++ t) = PfxEnd w false 0 (tail_eol t) (tail t).
Proof.
  intros Hne Hw Hc Ht. destruct Hw as [|c w Hcc Hw]; [done|]. simpl.
  unfold word_char, is_sep in Hcc. rewrite Hcc.
  rewrite bool_decide_eq_false_2 by (intros [= E]; apply Hc; by rewrite <- E).
  by rewrite scan_prefix_word.
Qed.

Lemma known_prefix_word prefix :
  dstIndexList prefix <> [] -> prefix <> bs "cpu" ->
  prefix <> [] /\ Forall word_char prefix /\
  exists c q, prefix = c :: q /\ scan_prefix [] true 0 (prefix) = PfxEnd prefix false 0 false [].
Proof.
  unfold dstIndexList. destruct (list_find _ _) as [[i [k l]]|] eqn:E; simpl; [|done].
  apply list_find_Some in E as (Hl & Hk & _). simpl in Hk. subst k. intros _ Hn.
  do 8 (destruct i as [|i]; [injection Hl as <- _;
    first [by contradict Hn|split_and!; [done|by repeat constructor|by do 2 eexists]]|]). done.
Qed.

Lemma scan_prefix_app w t acc b c p b' c' e :
  Forall word_char w -> sep_tail t -> scan_prefix acc b c w = PfxEnd p b' c' e [] ->
  scan_prefix acc b c (w ++ t) = PfxEnd p b' c' (tail_eol t) (tail t).
Proof.
  intros Hw Ht. revert acc b c. induction Hw as [|x w Hx _ IH]; intros acc b c H; simpl in *.
  - injection H as <- <- <- _. destruct t as [|y t]; simpl in *; [done|].
    unfold is_sep in Ht. by rewrite Ht.
  - unfold word_char, is_sep in Hx. rewrite Hx in *. repeat case_match; try done; by apply IH.
Qed.

Lemma dstIndexList_lt prefix n :
  n = (if bool_decide (prefix = bs "cpu") then STAT_CPU_STATS_SZ else STAT_NUMERIC_NUM_STATS) ->
  Forall (fun i => i < n) (dstIndexList prefix).
Proof.
  intros ->. eapply Forall_impl; [apply dstIndexList_range|].
  intros i [Hi|[-> Hi]]; [|done]. case_bool_decide; [|done].
  unfold STAT_CPU_STATS_SZ, STAT_CPU_SCAN_NUMBER, STAT_CPU_NUM_STATS, STAT_NUMERIC_NUM_STATS in *. lia.
Qed.

(** The numbers of a line that ends right after the last one. *)
Lemma scan_fields_line il toks rest v n :
  Forall tok_ok toks -> Forall tok_sep toks -> toks <> [] -> length toks = length il ->
  length v = n -> Forall (fun i => i < n) il ->
  forall s, s = render toks ++ NL :: rest ->
  scan_fields 64 (length il) (put_field il) 0 (tail_eol s) (tail s) v =
  Ret (Fields (length il) true rest, set_fields il (map (tok_val 64) toks) v, None).
Proof.
  intros Hok Hsep Hne Hl Hv Hil s ->.
  destruct (tail_render toks (NL :: rest) Hok Hsep Hne)
    as (He & ts & Ht & Hok' & Hsep' & Hne' & Hl' & Hm & _).
  rewrite He, Ht. unfold scan_fields.
  rewrite (fields_run _ _ _ _ 0 ts (NL :: rest) v (set_fields il (map (tok_val 64) toks) v));
    try done; [|lia|by left; lia| |lia].
  - simpl. by rewrite Hl', Hl.
  - rewrite (tok_vals_snd 64 ts toks Hm). rewrite put_list_field; [done|by rewrite Hv|].
    rewrite length_map. lia.
Qed.

Lemma stat_parse_line_row scan n r rest m :
  row_ok r -> sized m ->
  parse_line scan n (row_out r ++ rest) m = Ret (row_upd scan r m, inr rest).
Proof.
  intros Hr [Hc Hf]. unfold parse_line. rewrite to_eol_done.
  destruct r as [ds toks|prefix toks|pad word sep]; simpl in Hr; cbn [row_out].
  - destruct Hr as (Hds & Hok & Hsep & Hl). rewrite <- !app_assoc.
    assert (sep_tail (render toks ++ [NL] ++ rest)) as Ht by (by apply sep_tail_render).
    rewrite skip_stops_id by done.
    assert (scan_prefix [] true 0 (statCpuPrefix ++ ds ++ render toks ++ [NL] ++ rest) =
      PfxEnd (statCpuPrefix ++ ds) true (i64 (dec ds)) (tail_eol (render toks ++ [NL] ++ rest))
        (tail (render toks ++ [NL] ++ rest))) as ->.
    { change (scan_prefix [] true 0 (statCpuPrefix ++ ds ++ render toks ++ [NL] ++ rest)) with
        (scan_prefix statCpuPrefix true 0 (ds ++ render toks ++ [NL] ++ rest)).
      rewrite scan_prefix_digits by (done || vm_compute; lia). f_equal.
      change 0%Z with (i64 0) at 1. by rewrite foldl_push_digit_int. }
    rewrite bool_decide_eq_false_2 by done.
    assert ((length (statCpuPrefix ++ ds) =? length statCpuPrefix) = bool_decide (ds = [])) as ->.
    { rewrite length_app. destruct ds; [done|]. apply Nat.eqb_neq. simpl. lia. }
    fold (cpu_key ds). set (v0 := default _ _).
    assert (length v0 = STAT_CPU_STATS_SZ) as Hv0.
    { unfold v0. destruct (_ !! _) eqn:E; [by apply Hc in E|done]. }
    rewrite store_Ret by (rewrite Hv0; vm_compute; lia). rewrite bind_ret.
    rewrite (scan_fields_line _ toks rest _ STAT_CPU_STATS_SZ); try done;
      [|by intros ->|by rewrite length_insert|by apply dstIndexList_lt].
    rewrite bind_ret. cbv iota.
    change (length (dstIndexList (bs "cpu")) <? STAT_CPU_MIN_NUM_FIELDS) with false. cbv iota.
    do 3 f_equal. simpl. f_equal; [|by case_bool_decide].
    f_equal. change (dstIndexList (bs "cpu")) with cpuIndexList.
    rewrite set_fields_cpu by (rewrite ?length_map, ?length_insert; done). unfold cpu_vals. simpl.
    f_equal. do 11 (destruct v0 as [|? v0]; [done|]). by destruct v0.
  - destruct Hr as (Hil & Hnc & Hok & Hsep & Hl). rewrite <- !app_assoc.
    destruct (known_prefix_word _ Hil Hnc) as (Hne & Hw & c & q & Hcq & Hsp).
    assert (sep_tail (render toks ++ [NL] ++ rest)) as Ht by (by apply sep_tail_render).
    rewrite skip_stops_id; last first.
    { rewrite Hcq in Hw |- *. inversion_clear Hw as [|? ? Hx _]. simpl. unfold word_char, is_sep in Hx.
      by apply orb_false_iff in Hx as [_ ->]. }
    rewrite (scan_prefix_app _ _ _ _ _ _ _ _ _ Hw Ht Hsp).
    rewrite bool_decide_eq_false_2 by done. rewrite bind_ret.
    rewrite (scan_fields_line _ toks rest _ STAT_NUMERIC_NUM_STATS); try done;
      [|intros ->; simpl in Hl; by destruct (dstIndexList prefix)
       |apply dstIndexList_lt; by rewrite bool_decide_eq_false_2].
    rewrite bind_ret. cbv iota. by rewrite Nat.ltb_irrefl.
  - destruct Hr as (Hpad & Hne & Hw & Hx & Hil & Hs). rewrite <- !app_assoc.
    rewrite skip_app; [|done|].
    2:{ destruct Hw as [|x w Hxx _]; [done|]. simpl. unfold word_char, is_sep in Hxx.
        by apply orb_false_iff in Hxx as [_ ->]. }
    rewrite scan_prefix_other by done. rewrite bool_decide_eq_false_2 by done. rewrite Hil.
    rewrite bind_ret. unfold scan_fields. simpl length.
    rewrite Nat.add_1_r. erewrite while_inr; [|by apply fields_body_stop; right; right; lia].
    rewrite bind_ret. cbv iota. simpl. by destruct m.
Qed.

Lemma stat_row_out_nonnil r : row_ok r -> row_out r <> [].
Proof.
  destruct r as [ds toks|prefix toks|pad word sep]; simpl; [done| |].
  - intros (Hil & _). intros E. by apply app_nil in E as [_ [_ ?]%app_nil].
  - intros _ E. by apply app_nil in E as [_ [_ ?]%app_nil].
Qed.

Lemma row_upd_sized scan r m : row_ok r -> sized m -> sized (row_upd scan r m).
Proof.
  intros Hr [Hc Hf]. destruct r as [ds toks|prefix toks|pad word sep]; simpl in *; [| |done].
  - destruct Hr as (_&_&_&Hl). split; [|done]. apply map_Forall_insert_2; [|done].
    unfold cpu_vals. simpl. by rewrite length_app, length_map, Hl.
  - split; [done|]. simpl. rewrite <- Hf. generalize (dstIndexList prefix) as il.
    generalize (map (tok_val 64) toks) as zs. generalize (p_fields m) as f. clear.
    intros f zs il. unfold set_fields. revert f. generalize (zip il zs) as l. clear.
    induction l as [|x l IH]; intros f; simpl; [done|]. by rewrite IH, length_insert.
Qed.

(** What the rows say of the CPUs, of their number and of the scalars. *)
Definition cpu_rows (rows : list row) : list (bytes * list token) :=
  omap (fun r => match r with RCpu ds toks => Some (ds, toks) | _ => None end) rows.
Definition rows_num (rows : list row) : Z :=
  i64 (Z.of_nat (length (filter (fun r => r.1 <> []) (cpu_rows rows)))).
Definition rows_fields (rows : list row) (f : list Z) : list Z :=
  foldl (fun f r => match r with
                    | RNum prefix toks => set_fields (dstIndexList prefix) (map (tok_val 64) toks) f
                    | _ => f end) f rows.

Lemma rows_upd scan rows m :
  i64 (p_num m) = p_num m ->
  foldl (fun m r => row_upd scan r m) m rows =
  Parsed (insert_all (fun r => cpu_key r.1) (cpu_vals scan) (cpu_rows rows) (p_cpu m))
         (i64 (p_num m + Z.of_nat (length (filter (fun r => r.1 <> []) (cpu_rows rows)))))
         (rows_fields rows (p_fields m)).
Proof.
  revert m. induction rows as [|r rows IH]; intros m Hn; simpl.
  - rewrite Z.add_0_r, Hn. by destruct m.
  - rewrite IH.
    + destruct r as [ds toks|prefix toks|pad word sep]; simpl; try done.
      rewrite filter_cons. simpl. f_equal. case_bool_decide; case_decide; try done.
      simpl. rewrite i64_add_l. f_equal. lia.
    + destruct r as [ds toks|prefix toks|pad word sep]; simpl; try done.
      case_bool_decide; [done|]. apply i64_idem.
Qed.

Lemma prune_cpus scan rows m :
  Forall row_ok rows -> NoDup (map (fun r => cpu_key r.1) (cpu_rows rows)) ->
  map_Forall (fun _ st => length st = STAT_CPU_STATS_SZ /\
                          st !! STAT_CPU_SCAN_NUMBER <> Some scan) m ->
  prune scan (insert_all (fun r => cpu_key r.1) (cpu_vals scan) (cpu_rows rows) m) =
  Ret (list_to_map (map (fun r => (cpu_key r.1, cpu_vals scan r)) (cpu_rows rows))).
Proof.
  intros Hok Hnd Hm.
  assert (forall r, r ∈ cpu_rows rows -> length (cpu_vals scan r) = STAT_CPU_STATS_SZ /\
    cpu_vals scan r !! STAT_CPU_SCAN_NUMBER = Some scan) as Hrows.
  { intros r (r0 & Hin & Hr0)%list_elem_of_omap. rewrite Forall_forall in Hok. specialize (Hok _ Hin).
    destruct r0 as [ds toks| |]; try done. injection Hr0 as <-. destruct Hok as (_&_&_&Hl).
    unfold cpu_vals. simpl. rewrite length_app, length_map, Hl.
    rewrite lookup_app_r; rewrite length_map, Hl; [done|vm_compute; lia]. }
  unfold prune. rewrite decide_True; last first.
  { assert (map_Forall (fun _ st => length st = STAT_CPU_STATS_SZ)
      (insert_all (fun r => cpu_key r.1) (cpu_vals scan) (cpu_rows rows) m)) as Hs.
    { assert (map_Forall (fun _ st => length st = STAT_CPU_STATS_SZ) m) as Hsm
        by (intros k st Hk; by apply (Hm k st Hk)).
      clear -Hrows Hsm. unfold insert_all. revert m Hsm Hrows.
      generalize (cpu_rows rows) as l. clear. induction l as [|r l IH]; intros m Hsm Hr; simpl; [done|].
      apply IH; [|intros; apply Hr; by right]. apply map_Forall_insert_2; [|done]. apply Hr. by left. }
    intros k st Hk. rewrite (Hs k st Hk). vm_compute; lia. }
  f_equal. apply (insert_all_filter (fun r => cpu_key r.1) (cpu_vals scan)
    (fun st => st !! STAT_CPU_SCAN_NUMBER = Some scan)); [done|intros r Hr; by apply Hrows|].
  intros k st Hk. by apply (Hm k st Hk).
Qed.

(** ** Properties *)

(** parsing a file of CPU lines with ten counters (distinct CPUs), scalar
    lines and words of other lines succeeds: the CPU map holds exactly the CPUs
    of the file (CPUs unplugged since the last scan are gone), the number of
    CPUs excludes the "cpu" total, and the scalars of the file are updated. *)
Theorem stat_parse_file (stat : Stat) (rows : list row) :
  wf stat -> Forall row_ok rows -> NoDup (map (fun r => cpu_key r.1) (cpu_rows rows)) ->
  exists stat', Parse (ReadOk (concat (map row_out rows))) stat = Ret (stat', None) /\
    Cpu stat' = list_to_map (map (fun r => (cpu_key r.1, cpu_vals (scanNum stat') r)) (cpu_rows rows)) /\
    NumCpus stat' = rows_num rows /\
    NumericFields stat' = rows_fields rows (NumericFields stat) /\
    scanNum stat' = u64 (scanNum stat + 1).
Proof.
  intros (Hc & Hf & Hr) Hok Hnd. unfold Parse.
  set (sc := u64 (scanNum stat + 1)).
  rewrite (scan_lines_rows (parse_line sc) row_out (row_upd sc) row_ok sized 0);
    [|apply stat_row_out_nonnil| |lia|done|].
  2:{ intros. split; [by apply stat_parse_line_row|by apply row_upd_sized]. }
  2:{ split; [|done]. intros k st Hk. by apply (Hc k st Hk). }
  rewrite bind_ret. rewrite rows_upd by done. simpl.
  rewrite prune_cpus; [|done|done|].
  2:{ intros k st Hk. destruct (Hc k st Hk) as [Hl Hs]. split; [done|]. rewrite Hs.
      intros [= E]. by apply (u64_succ_ne (scanNum stat)). }
  simpl. eexists. split; [reflexivity|]. done.
Qed.

(** C30: on any content the parser returns, and it keeps every CPU entry and
    the scalars at their size. *)
Theorem stat_parse_total (stat : Stat) (rd : read_result) :
  sized (Parsed (Cpu stat) 0 (NumericFields stat)) ->
  exists stat' err, Parse rd stat = Ret (stat', err) /\
    sized (Parsed (Cpu stat') 0 (NumericFields stat')).
Proof.
  intros Hm. unfold Parse. destruct rd as [buf| |]; [|by eauto..].
  destruct (scan_lines _ _ _ _) as [[p err]| |] eqn:Hs; simpl.
  - apply (scan_lines_inv _ sized) in Hs as [Hs1 Hs2]; [|by intros; eapply parse_line_inv|done].
    destruct err as [e|]; [by eexists _, _; split; [done|split]|]. unfold prune. rewrite decide_True.
    + simpl. eexists _, _. split; [done|]. split; [|done].
      intros k st [Hk _]%map_lookup_filter_Some. by apply (Hs1 k).
    + intros k st Hk. rewrite (Hs1 k st Hk). vm_compute; lia.
  - exfalso. revert Hs. by apply (scan_lines_no_panic _ sized);
      [intros; eapply parse_line_inv|intros; apply stat_parse_line_no_panic|].
  - exfalso. revert Hs. apply scan_lines_terminates;
      [intros; apply stat_parse_line_NoFuel|apply stat_parse_line_progress].
Qed.

(** the part of an ignored line after its prefix is not skipped (the flag
    tested for it is shadowed): it is parsed as if it started a new line, with
    a wrong line number, so "intr 5 page 7 8" stores 7 and 8 as the page
    counters. *)
Theorem stat_ignored_line_tail_parsed (scan : Z) (n : nat) (word rest : bytes) (m : parsed) :
  word <> [] -> Forall word_char word -> hd_error word <> Some (Init.Byte.x63) ->
  dstIndexList word = [] -> sized m ->
  scan_lines (parse_line scan) n (word ++ SP :: rest) m = scan_lines (parse_line scan) (S n) rest m.
Proof.
  intros H1 H2 H3 H4 H5.
  apply scan_lines_skip; [apply stat_parse_line_NoFuel|apply stat_parse_line_progress|by destruct word|].
  pose proof (stat_parse_line_row scan n (RWord [] word SP) rest m) as H. simpl in H.
  rewrite <- app_assoc in H. apply H; [|done]. split_and!; (done || constructor).
Qed.

(** ** Witnesses *)

Definition sample_rows : list row := [
  RCpu [] (replicate 10 (bs "  ", bs "12"));
  RCpu (bs "3") (replicate 10 (bs " ", bs "18446744073709551616"));
  RWord [] (bs "intr") SP; RWord [] (bs "99") NL;
  RNum (bs "ctxt") [(bs " ", bs "77")]].

Lemma sample_rows_ok : Forall row_ok sample_rows.
Proof. unfold sample_rows. repeat constructor; done. Qed.

Lemma stat_parse_file_witness :
  exists stat', Parse (ReadOk (concat (map row_out sample_rows))) (NewStat []) = Ret (stat', None) /\
    NumCpus stat' = 1%Z /\ NumericFields stat' !! 4 = Some 77%Z.
Proof.
  destruct (stat_parse_file (NewStat []) sample_rows) as (stat' & H & _ & Hn & Hf & _).
  - split; [apply map_Forall_empty|split; [done|vm_compute; split; congruence]].
  - apply sample_rows_ok.
  - vm_compute. apply NoDup_cons. split; [|apply NoDup_singleton].
    rewrite list_elem_of_singleton. congruence.
  - exists stat'. rewrite Hn, Hf. split; [exact H|]. split; reflexivity.
Defined.

Lemma stat_parse_total_witness :
  exists stat' err, Parse (ReadOk (bs "cpu 1 2")) (NewStat []) = Ret (stat', err) /\
    sized (Parsed (Cpu stat') 0 (NumericFields stat')).
Proof. apply stat_parse_total. split; [apply map_Forall_empty|done]. Defined.

Lemma stat_ignored_line_tail_parsed_witness :
  scan_lines (parse_line 1) 1 (bs "intr" ++ SP :: bs "page 7 8
") (Parsed ∅ 0 (replicate 9 0%Z)) = Ret (Parsed ∅ 0 [7; 8; 0; 0; 0; 0; 0; 0; 0]%Z, None).
Proof.
  rewrite stat_ignored_line_tail_parsed; [vm_compute; reflexivity|done|by repeat constructor|done|done|].
  split; [apply map_Forall_empty|done].
Defined.

End Stat.
