(* ===== verification/PidTidList.v ===== *)
(** The cached list of processes and threads (src/procfs/pid_tid_list.go): the
    conversion of directory names, the partitioning of the work, refresh and
    expiry of the cache.

    The directory listings are a parameter: the names under the root and, for a
    name, those under its [task] directory; [None] when the directory cannot be
    read.  Times are nanoseconds on the monotonic clock. *)

From Stdlib Require Import ZArith Lia.
From stdpp Require Import base tactics numbers strings gmap list.
From S2P Require Import Prelude Scan.

Module PidTidList.

Definition PID_LIST_CACHE_PID_ENABLED : Z := 1.
Definition PID_LIST_CACHE_TID_ENABLED : Z := 2.
Definition PID_LIST_CACHE_ALL_ENABLED : Z := Z.lor PID_LIST_CACHE_PID_ENABLED PID_LIST_CACHE_TID_ENABLED.
Definition PID_ONLY_TID : Z := 0.

Record PidTid := mkPidTid { Pid : Z; Tid : Z }.

Record PidTidListCache := mkCache {
  numPart : Z;
  mask : Z;
  initialized : bool;
  retrievedTime : Z;
  validFor : Z;
  flags : Z;
  pidLists : option (list (list PidTid));
  refreshCount : Z
}.

(** [for m := 1; m <= (1 << 30); m = m << 1]; the fuel is the number of
    iterations. *)
Fixpoint find_mask (fuel : nat) (m numPart : Z) : Z :=
  match fuel with
  | O => -1
  | S fuel => if (m <=? Z.shiftl 1 30)%Z then
                if (m =? numPart)%Z then (m - 1)%Z else find_mask fuel (Z.shiftl m 1) numPart
              else -1
  end.

Definition NewPidTidListCache (numPart validFor flags : Z) : PidTidListCache :=
  let numPart := if (numPart <? 1)%Z then 1%Z else numPart in
  let mask := if (1 <? numPart)%Z then find_mask 32 1 numPart else (-1)%Z in
  mkCache numPart mask false 0 validFor flags None 0.

Definition IsEnabledFor (fl : Z) (c : PidTidListCache) : bool := (0 <? Z.land (flags c) fl)%Z.

(** "Convert to number by hand". *)
Fixpoint name_num (n : Z) (name : bytes) : Z :=
  match name with
  | [] => n
  | c :: name => if (digit_of c <=? 9)%Z then name_num (push_digit_int n (digit_of c)) name else -1
  end.

(** [pid & mask] or [pid % numPart]. *)
Definition part_of (c : PidTidListCache) (id : Z) : Z :=
  if (0 <? mask c)%Z then Z.land id (mask c) else Z.rem id (numPart c).

(** [pidLists[partNo] = append(pidLists[partNo], pidTid)]; a negative index
    panics. *)
Definition append_to (partNo : Z) (x : PidTid) (ls : list (list PidTid)) : outcome (list (list PidTid)) :=
  if (partNo <? 0)%Z then Panic
  else l ← must (ls !! Z.to_nat partNo); store ls (Z.to_nat partNo) (l ++ [x]).

Definition add_tid (c : PidTidListCache) (pid : Z) (acc : outcome (list (list PidTid))) (name : bytes)
    : outcome (list (list PidTid)) :=
  ls ← acc;
  let tid := name_num 0 name in
  if (tid <=? 0)%Z then Ret ls else append_to (part_of c tid) (mkPidTid pid tid) ls.

Definition add_pid (c : PidTidListCache) (tasks : bytes -> option (list bytes))
    (acc : outcome (list (list PidTid))) (name : bytes) : outcome (list (list PidTid)) :=
  ls ← acc;
  let pid := name_num 0 name in
  if (pid <=? 0)%Z then Ret ls
  else
    ls ← (if IsEnabledFor PID_LIST_CACHE_PID_ENABLED c
          then append_to (part_of c pid) (mkPidTid pid PID_ONLY_TID) ls else Ret ls);
    if IsEnabledFor PID_LIST_CACHE_TID_ENABLED c then
      match tasks name with
      | None => Ret ls
      | Some names => foldl (add_tid c pid) (Ret ls) names
      end
    else Ret ls.

(** [Refresh]: whether it succeeded.  The lists are emptied even when the root
    cannot be read. *)
Definition Refresh (now : Z) (root : option (list bytes)) (tasks : bytes -> option (list bytes))
    (c : PidTidListCache) : outcome (PidTidListCache * bool) :=
  ls ← match pidLists c with
       | None => Ret (replicate (Z.to_nat (numPart c)) [])
       | Some ls => if length ls <? Z.to_nat (numPart c) then Panic
                    else Ret (replicate (Z.to_nat (numPart c)) [] ++ drop (Z.to_nat (numPart c)) ls)
       end;
  match root with
  | None => Ret (mkCache (numPart c) (mask c) (initialized c) (retrievedTime c) (validFor c) (flags c)
                   (Some ls) (refreshCount c), false)
  | Some names =>
    ls ← foldl (add_pid c tasks) (Ret ls) names;
    Ret (mkCache (numPart c) (mask c) true now (validFor c) (flags c) (Some ls)
           (u64 (refreshCount c + 1)), true)
  end.

(** [GetPidTidList]: [None] for the nil list (with the error flag).  [since] is
    the clock when the age is checked, [now] when a refresh is done. *)
Definition GetPidTidList (since now : Z) (root : option (list bytes)) (tasks : bytes -> option (list bytes))
    (partNo : Z) (c : PidTidListCache) : outcome (PidTidListCache * option (list PidTid) * bool) :=
  if (partNo <? 0)%Z || (numPart c <=? partNo)%Z then Ret (c, None, false)
  else
    '(c, ok) ← (if negb (initialized c) || (validFor c <? since - retrievedTime c)%Z
                then Refresh now root tasks c else Ret (c, true));
    if ok : bool then
      ls ← must (pidLists c);
      l ← must (ls !! Z.to_nat partNo);
      Ret (c, Some l, false)
    else Ret (c, None, true).

Definition Invalidate (c : PidTidListCache) : PidTidListCache :=
  mkCache (numPart c) (mask c) false (retrievedTime c) (validFor c) (flags c) (pidLists c) (refreshCount c).

(** ** The entries that a scan should find *)

(** The number that a directory name stands for. *)
Definition id_of (name : bytes) : option Z :=
  if forallb is_digit name && (0 <? i64 (dec name))%Z then Some (i64 (dec name)) else None.

Definition tid_entries (pid : Z) (names : list bytes) : list PidTid :=
  map (mkPidTid pid) (omap id_of names).
Definition pid_entries (fl : Z) (tasks : bytes -> option (list bytes)) (name : bytes) : list PidTid :=
  match id_of name with
  | None => []
  | Some pid =>
    (if (0 <? Z.land fl PID_LIST_CACHE_PID_ENABLED)%Z then [mkPidTid pid PID_ONLY_TID] else []) ++
    (if (0 <? Z.land fl PID_LIST_CACHE_TID_ENABLED)%Z then tid_entries pid (default [] (tasks name)) else [])
  end.
Definition entries (fl : Z) (tasks : bytes -> option (list bytes)) (names : list bytes) : list PidTid :=
  concat (map (pid_entries fl tasks) names).

(** The identifier that decides the partition. *)
Definition id (x : PidTid) : Z := if (Tid x =? PID_ONLY_TID)%Z then Pid x else Tid x.
Definition part (n : Z) (i : nat) (l : list PidTid) : list PidTid :=
  filter (fun x => (id x mod n)%Z = Z.of_nat i) l.
Definition parts (n : Z) (l : list PidTid) : list (list PidTid) :=
  map (fun i => part n i l) (seq 0 (Z.to_nat n)).

(** ** Lemmas *)

Lemma name_num_spec name n :
  name_num (i64 n) name = if forallb is_digit name then i64 (dec_from n name) else (-1)%Z.
Proof.
  revert n. induction name as [|c name IH]; intros n; simpl; [done|].
  unfold is_digit. destruct (digit_of c <=? 9)%Z eqn:E.
  - rewrite (proj2 (Z.ltb_lt _ _)) by lia. simpl. rewrite push_digit_int_spec.
    rewrite <- IH. f_equal. rewrite <- i64_add_l, i64_mul_r, i64_add_l. done.
  - rewrite (proj2 (Z.ltb_ge _ _)) by lia. done.
Qed.

Lemma name_num_id name :
  id_of name = if (name_num 0 name <=? 0)%Z then None else Some (name_num 0 name).
Proof.
  change 0%Z with (i64 0) at 1 3. rewrite name_num_spec. unfold id_of, dec.
  destruct (forallb is_digit name); simpl; [|done].
  destruct (0 <? _)%Z eqn:E1, (_ <=? 0)%Z eqn:E2; (done || lia).
Qed.

(** The mask is a power of two minus one, or there is none. *)
Lemma find_mask_spec fuel k n :
  find_mask fuel (2 ^ Z.of_nat k) n = (-1)%Z \/
  exists j, n = (2 ^ Z.of_nat j)%Z /\ find_mask fuel (2 ^ Z.of_nat k) n = (n - 1)%Z.
Proof.
  revert k. induction fuel as [|fuel IH]; intros k; [by left|]. cbn [find_mask].
  destruct (_ <=? _)%Z; [|by left]. destruct (Z.eqb_spec (2 ^ Z.of_nat k) n) as [<-|].
  - right. by exists k.
  - rewrite Z.shiftl_mul_pow2 by lia.
    replace (2 ^ Z.of_nat k * 2 ^ 1)%Z with (2 ^ Z.of_nat (S k))%Z; [apply IH|].
    rewrite Nat2Z.inj_succ, Z.pow_succ_r by lia. lia.
Qed.

(** A cache as the constructor makes it: the partition number is the remainder. *)
Definition wf_parts (c : PidTidListCache) : Prop :=
  (1 <= numPart c)%Z /\ (mask c = (-1)%Z \/ exists j, numPart c = (2 ^ Z.of_nat j)%Z /\ mask c = (numPart c - 1)%Z).

Lemma part_of_mod c i : wf_parts c -> (0 <= i)%Z -> part_of c i = (i mod numPart c)%Z.
Proof.
  intros [Hn Hm] Hi. unfold part_of. destruct (0 <? mask c)%Z eqn:E.
  - destruct Hm as [Hm|(j & Hj & Hm)]; [lia|]. rewrite Hm, Hj.
    change (2 ^ Z.of_nat j - 1)%Z with (Z.pred (2 ^ Z.of_nat j)).
    rewrite <- Z.ones_equiv. rewrite Z.land_ones by lia. done.
  - apply Z.rem_mod_nonneg; lia.
Qed.

Definition wf_cache (c : PidTidListCache) : Prop :=
  wf_parts c /\
  match pidLists c with
  | None => initialized c = false
  | Some ls => length ls = Z.to_nat (numPart c)
  end.

Lemma new_wf n v fl : wf_cache (NewPidTidListCache n v fl).
Proof.
  unfold NewPidTidListCache. split; [|done]. set (n' := if (n <? 1)%Z then 1%Z else n).
  assert (1 <= n')%Z by (subst n'; destruct (n <? 1)%Z eqn:E; lia).
  split; [done|]. simpl. destruct (1 <? n')%Z; [|by left].
  destruct (find_mask_spec 32 0 n') as [Hm|(j & Hj & Hm)]; [by left|right].
  exists j. split; [done|]. exact Hm.
Qed.

Lemma parts_length n l : length (parts n l) = Z.to_nat n.
Proof. unfold parts. by rewrite length_map, length_seq. Qed.

Lemma parts_lookup n l i : i < Z.to_nat n -> parts n l !! i = Some (part n i l).
Proof.
  intros Hi. unfold parts. rewrite list_lookup_fmap, lookup_seq_lt by done. done.
Qed.

Lemma parts_nil n : parts n [] = replicate (Z.to_nat n) [].
Proof.
  apply list_eq. intros i. destruct (decide (i < Z.to_nat n)) as [Hi|Hi].
  - rewrite parts_lookup by done. by rewrite lookup_replicate_2.
  - rewrite !lookup_ge_None_2; [done|rewrite length_replicate; lia|rewrite parts_length; lia].
Qed.

(** Appending an entry to its partition. *)
Lemma append_to_parts n l x :
  (1 <= n)%Z -> append_to (id x mod n) x (parts n l) = Ret (parts n (l ++ [x])).
Proof.
  intros Hn. pose proof (Z.mod_pos_bound (id x) n ltac:(lia)) as Hb. unfold append_to.
  rewrite (proj2 (Z.ltb_ge _ _)) by lia. rewrite parts_lookup by lia. simpl.
  rewrite store_Ret by (rewrite parts_length; lia). f_equal. apply list_eq. intros i.
  destruct (decide (i < Z.to_nat n)) as [Hi|Hi].
  - rewrite (parts_lookup n (l ++ [x])) by done. unfold part at 2. rewrite filter_app.
    destruct (decide (i = Z.to_nat (id x mod n))) as [->|Hne].
    + rewrite list_lookup_insert_eq by (rewrite parts_length; lia).
      rewrite filter_cons_True by lia. done.
    + rewrite list_lookup_insert_ne by done. rewrite parts_lookup by done.
      rewrite filter_cons_False by lia. by rewrite app_nil_r.
  - rewrite !lookup_ge_None_2; [done|rewrite parts_length; lia|rewrite length_insert, parts_length; lia].
Qed.

Lemma add_tids c pid names l :
  wf_parts c -> foldl (add_tid c pid) (Ret (parts (numPart c) l)) names =
  Ret (parts (numPart c) (l ++ tid_entries pid names)).
Proof.
  intros Hw. revert l. induction names as [|name names IH]; intros l; unfold tid_entries; simpl.
  - by rewrite app_nil_r.
  - rewrite name_num_id. destruct (name_num 0 name <=? 0)%Z eqn:E; [apply IH|].
    rewrite part_of_mod by (done || lia).
    assert (id (mkPidTid pid (name_num 0 name)) = name_num 0 name) as Hid.
    { unfold id. simpl. destruct (_ =? _)%Z eqn:E2; [unfold PID_ONLY_TID in E2; lia|done]. }
    rewrite <- Hid at 1. rewrite append_to_parts by apply Hw. rewrite IH, <- app_assoc. done.
Qed.

Lemma add_pids c tasks names l :
  wf_parts c -> foldl (add_pid c tasks) (Ret (parts (numPart c) l)) names =
  Ret (parts (numPart c) (l ++ entries (flags c) tasks names)).
Proof.
  intros Hw. revert l. induction names as [|name names IH]; intros l.
  - unfold entries. simpl. by rewrite app_nil_r.
  - assert (add_pid c tasks (Ret (parts (numPart c) l)) name =
      Ret (parts (numPart c) (l ++ pid_entries (flags c) tasks name))) as Hstep.
    { unfold add_pid, pid_entries. rewrite bind_ret, name_num_id.
      destruct (name_num 0 name <=? 0)%Z eqn:E; [by rewrite app_nil_r|].
      set (pid := name_num 0 name) in *. fold (IsEnabledFor PID_LIST_CACHE_PID_ENABLED c).
      fold (IsEnabledFor PID_LIST_CACHE_TID_ENABLED c).
      assert (forall l, (if IsEnabledFor PID_LIST_CACHE_TID_ENABLED c
        then match tasks name with None => Ret (parts (numPart c) l)
             | Some names => foldl (add_tid c pid) (Ret (parts (numPart c) l)) names end
        else Ret (parts (numPart c) l)) =
        Ret (parts (numPart c) (l ++ if IsEnabledFor PID_LIST_CACHE_TID_ENABLED c
             then tid_entries pid (default [] (tasks name)) else []))) as Ht.
      { intros l0. destruct (IsEnabledFor _ c); [|by rewrite app_nil_r].
        destruct (tasks name) as [ts|]; simpl; [by apply add_tids|by rewrite app_nil_r]. }
      destruct (IsEnabledFor PID_LIST_CACHE_PID_ENABLED c); [|by rewrite bind_ret, Ht].
      rewrite part_of_mod by (done || lia).
      pose proof (append_to_parts (numPart c) l (mkPidTid pid PID_ONLY_TID) (proj1 Hw)) as Ha.
      change (id (mkPidTid pid PID_ONLY_TID)) with pid in Ha.
      by rewrite Ha, bind_ret, Ht, <- app_assoc. }
    change (foldl (add_pid c tasks) (Ret (parts (numPart c) l)) (name :: names))
      with (foldl (add_pid c tasks) (add_pid c tasks (Ret (parts (numPart c) l)) name) names).
    rewrite Hstep, IH. unfold entries. simpl. by rewrite app_assoc.
Qed.

(** A refresh empties the lists and, when the root can be read, fills them with
    what it found, each entry in its partition. *)
Lemma Refresh_spec now root tasks c :
  wf_cache c ->
  exists c', Refresh now root tasks c = Ret (c', bool_decide (root <> None)) /\ wf_cache c' /\
    numPart c' = numPart c /\ mask c' = mask c /\ flags c' = flags c /\ validFor c' = validFor c /\
    match root with
    | None => initialized c' = initialized c /\ retrievedTime c' = retrievedTime c
    | Some names => initialized c' = true /\ retrievedTime c' = now /\
        pidLists c' = Some (parts (numPart c) (entries (flags c) tasks names))
    end.
Proof.
  intros [Hw Hl]. unfold Refresh.
  assert (match pidLists c with
          | None => Ret (replicate (Z.to_nat (numPart c)) [])
          | Some ls => if length ls <? Z.to_nat (numPart c) then Panic
                       else Ret (replicate (Z.to_nat (numPart c)) [] ++ drop (Z.to_nat (numPart c)) ls)
          end = Ret (parts (numPart c) [])) as ->.
  { rewrite parts_nil. destruct (pidLists c) as [ls|]; [|done].
    rewrite (proj2 (Nat.ltb_ge _ _)) by lia. by rewrite drop_ge, app_nil_r by lia. }
  rewrite bind_ret. destruct root as [names|].
  - rewrite add_pids by done. rewrite bind_ret. simpl. eexists. split; [done|]. simpl.
    split; [|done]. split; [done|]. simpl. by rewrite parts_length.
  - eexists. split; [done|]. simpl. split; [|done]. split; [done|]. simpl. by rewrite parts_length.
Qed.

Lemma parts_perm n l : (1 <= n)%Z -> Permutation (concat (parts n l)) l.
Proof.
  intros Hn. induction l as [|x l IH].
  - rewrite parts_nil. by induction (Z.to_nat n).
  - pose proof (Z.mod_pos_bound (id x) n ltac:(lia)) as Hb.
    set (k := Z.to_nat (id x mod n)).
    assert (parts n (x :: l) = <[k := x :: part n k l]> (parts n l)) as ->.
    { apply list_eq. intros i. destruct (decide (i < Z.to_nat n)) as [Hi|Hi].
      - rewrite parts_lookup by done. destruct (decide (i = k)) as [->|Hne].
        + rewrite list_lookup_insert_eq by (rewrite parts_length; lia). unfold part at 1.
          rewrite filter_cons_True by lia. done.
        + rewrite list_lookup_insert_ne by done. rewrite parts_lookup by done. unfold part at 1.
          rewrite filter_cons_False by lia. done.
      - rewrite !lookup_ge_None_2; [done|rewrite length_insert, parts_length; lia|rewrite parts_length; lia]. }
    assert (parts n l !! k = Some (part n k l)) as Hk by (apply parts_lookup; lia).
    transitivity (x :: concat (parts n l)); [|by constructor].
    rewrite insert_take_drop by (rewrite parts_length; lia).
    rewrite <- (take_drop_middle _ _ _ Hk) at 3.
    rewrite !concat_app. simpl. symmetry. apply Permutation_middle.
Qed.

(** C39: the partitions of the work.  A refresh that can read the root leaves in
    each of the N partitions, in scan order, exactly the processes and threads
    found whose identifier is the partition number modulo N (whether by mask or
    by remainder); together the partitions are all that was found, each entry
    once; and until the validity expires every worker gets its partition, with
    no further scan. *)
Theorem pid_list_partition now names tasks c :
  wf_cache c ->
  let found := entries (flags c) tasks names in
  exists c', Refresh now (Some names) tasks c = Ret (c', true) /\ wf_cache c' /\
    Permutation (concat (map (fun i => part (numPart c) i found) (seq 0 (Z.to_nat (numPart c))))) found /\
    (forall since now' root' tasks' partNo,
      (since - now <= validFor c)%Z -> (0 <= partNo < numPart c)%Z ->
      GetPidTidList since now' root' tasks' partNo c' =
      Ret (c', Some (part (numPart c) (Z.to_nat partNo) found), false)).
Proof.
  intros Hw found. destruct (Refresh_spec now (Some names) tasks c Hw)
    as (c' & Hr & Hw' & Hn & Hm & Hf & Hv & Hi & Ht & Hp).
  exists c'. split; [done|]. split; [done|].
  split; [apply parts_perm; apply Hw|].
  intros since now' root' tasks' partNo Hs Hpart. unfold GetPidTidList.
  rewrite Hn, Hi, Ht, Hv.
  destruct (_ || (numPart c <=? partNo)%Z) eqn:E; [lia|]. cbn [negb orb].
  rewrite (proj2 (Z.ltb_ge _ _)) by lia.
  rewrite bind_ret, Hp. cbn [must]. rewrite bind_ret, parts_lookup by lia. done.
Qed.

(** expiry and errors.  Out of range there is no list; a list that is too
    old is never served: the call scans again and serves what it found, and
    when the root cannot be read it fails and so do the later calls, until one
    can read it. *)
Theorem pid_list_expiry since now root tasks partNo c :
  wf_cache c ->
  ((partNo < 0 \/ numPart c <= partNo)%Z -> GetPidTidList since now root tasks partNo c = Ret (c, None, false)) /\
  ((0 <= partNo < numPart c)%Z -> initialized c = false \/ (validFor c < since - retrievedTime c)%Z ->
    exists c', GetPidTidList since now root tasks partNo c =
      Ret (c', (fun names => part (numPart c) (Z.to_nat partNo) (entries (flags c) tasks names)) <$> root,
           bool_decide (root = None)) /\ wf_cache c' /\
    (root = None -> forall since', (since <= since')%Z ->
      initialized c' = false \/ (validFor c' < since' - retrievedTime c')%Z)).
Proof.
  intros Hw. unfold GetPidTidList. split; intros Hp.
  - destruct (_ || _)%bool eqn:E; [done|lia].
  - intros He. destruct (_ || _)%bool eqn:E; [lia|].
    assert ((negb (initialized c) || (validFor c <? since - retrievedTime c)%Z) = true) as ->.
    { destruct He as [->|He]; [done|]. apply orb_true_iff. right. lia. }
    destruct (Refresh_spec now root tasks c Hw) as (c' & -> & Hw' & Hn & Hm & Hf & Hv & Hres).
    rewrite bind_ret. exists c'. destruct root as [names|]; simpl.
    + destruct Hres as (Hi & Ht & ->). simpl. rewrite parts_lookup by lia. done.
    + destruct Hres as (Hi & Ht). split; [done|]. split; [done|]. intros _ since' Hs.
      rewrite Hi, Ht, Hv. destruct He as [He|He]; [by left|right; lia].
Qed.

Definition sample_tasks (name : bytes) : option (list bytes) :=
  if bool_decide (name = bs "12") then Some [bs "12"; bs "13"] else None.

Lemma pid_list_partition_witness :
  part 2 1 (entries PID_LIST_CACHE_ALL_ENABLED sample_tasks [bs "7"; bs "self"; bs "12"]) =
    [mkPidTid 7 0; mkPidTid 12 13] /\
  exists c', Refresh 5 (Some [bs "7"; bs "self"; bs "12"]) sample_tasks
    (NewPidTidListCache 2 100 PID_LIST_CACHE_ALL_ENABLED) = Ret (c', true).
Proof.
  split; [vm_compute; reflexivity|].
  destruct (pid_list_partition 5 [bs "7"; bs "self"; bs "12"] sample_tasks
    (NewPidTidListCache 2 100 PID_LIST_CACHE_ALL_ENABLED) (new_wf _ _ _)) as (c' & Hr & _).
  exists c'. exact Hr.
Defined.

Lemma pid_list_expiry_witness :
  exists c', GetPidTidList 1 2 None sample_tasks 0 (NewPidTidListCache 3 100 3) = Ret (c', None, true) /\
    (forall since', (1 <= since')%Z -> initialized c' = false \/ (validFor c' < since' - retrievedTime c')%Z).
Proof.
  destruct (pid_list_expiry 1 2 None sample_tasks 0 (NewPidTidListCache 3 100 3) (new_wf _ _ _))
    as [_ H].
  destruct H as (c' & Hg & _ & Hl); [vm_compute; split; [discriminate|reflexivity]|left; reflexivity|].
  exists c'. split; [exact Hg|]. exact (Hl eq_refl).
Defined.
End PidTidList.
