(* ===== verification/PidStat.v ===== *)
(** Parser for /proc/PID/stat (src/procfs/pid_stat_parser.go): locating the
    command name, which may contain any byte, and the fields after it.

    The byte fields are slices of the buffer that the object reads the file
    into; after an error they show whatever the buffer holds, so the model
    gives the fields of a successful parse only. *)

From Stdlib Require Import ZArith Lia.
From stdpp Require Import base tactics numbers strings gmap list.
From S2P Require Import Prelude Scan.

Module PidStat.

Definition TASK_COMM_LEN : nat := 16.
Definition PID_STAT_BYTE_SLICE_NUM_FIELDS : nat := 17.
Definition PID_STAT_ULONG_NUM_FIELDS : nat := 5.
Definition PID_STAT_MAX_FIELD_NUM : nat := 41.

Inductive handling := BytesData (index : nat) | UlongData (index : nat).

(** The handling of a field; [None] for those that are ignored. *)
Definition pidStatFieldHandling (fieldNum : nat) : option handling :=
  match fieldNum with
  | 2 => Some (BytesData 0)    (* comm *)
  | 3 => Some (BytesData 1)    (* state *)
  | 4 => Some (BytesData 2)    (* ppid *)
  | 5 => Some (BytesData 3)    (* pgrp *)
  | 6 => Some (BytesData 4)    (* session *)
  | 7 => Some (BytesData 5)    (* tty_nr *)
  | 8 => Some (BytesData 6)    (* tpgid *)
  | 9 => Some (BytesData 7)    (* flags *)
  | 10 => Some (UlongData 0)   (* minflt *)
  | 12 => Some (UlongData 1)   (* majflt *)
  | 14 => Some (UlongData 2)   (* utime *)
  | 15 => Some (UlongData 3)   (* stime *)
  | 18 => Some (BytesData 8)   (* priority *)
  | 19 => Some (BytesData 9)   (* nice *)
  | 20 => Some (BytesData 10)  (* num_threads *)
  | 22 => Some (BytesData 11)  (* starttime *)
  | 23 => Some (BytesData 12)  (* vsize *)
  | 24 => Some (UlongData 4)   (* rss *)
  | 25 => Some (BytesData 13)  (* rsslim *)
  | 39 => Some (BytesData 14)  (* processor *)
  | 40 => Some (BytesData 15)  (* rt_priority *)
  | 41 => Some (BytesData 16)  (* policy *)
  | _ => None
  end.

Record PidStat := mkPidStat { byteSliceFields : list bytes; numericFields : list Z }.
Definition NewPidStat : PidStat :=
  mkPidStat (replicate PID_STAT_BYTE_SLICE_NUM_FIELDS []) (replicate PID_STAT_ULONG_NUM_FIELDS 0%Z).
Definition GetData (p : PidStat) : list bytes * list Z := (byteSliceFields p, numericFields p).

Inductive error :=
| ErrRead
| ErrNoOpen
| ErrNoClose
| ErrInvalidValue (fieldNum : nat) (field : bytes)
| ErrNotEnough (want got : nat).

Definition OPEN : byte := Init.Byte.x28.
Definition CLOSE : byte := Init.Byte.x29.

(** [for ; commEnd >= commStart && buf[commEnd] != ')'; commEnd-- {}] from the
    last of the bytes [s]: the position of the last closing parenthesis. *)
Fixpoint last_close (s : bytes) : option nat :=
  match s with
  | [] => None
  | c :: s =>
    match last_close s with
    | Some j => Some (S j)
    | None => if beq c CLOSE then Some 0 else None
    end
  end.

(** The end of the command name that starts at [s]: at most [TASK_COMM_LEN]
    after its start, or else anywhere. *)
Definition comm_end (s : bytes) : option nat :=
  match last_close (take (TASK_COMM_LEN + 1) s) with
  | Some j => Some j
  | None => last_close s
  end.

(** The digits of a numerical field. *)
Fixpoint ulong (val : Z) (f : bytes) : option Z :=
  match f with
  | [] => Some val
  | c :: f => if (digit_of c <? 10)%Z then ulong (push_digit 64 val (digit_of c)) f else None
  end.

Definition set_field (fieldNum : nat) (f : bytes) (p : PidStat) : outcome (error + PidStat) :=
  match pidStatFieldHandling fieldNum with
  | None => Ret (inr p)
  | Some (BytesData index) =>
    l ← store (byteSliceFields p) index f; Ret (inr (mkPidStat l (numericFields p)))
  | Some (UlongData index) =>
    match ulong 0 f with
    | None => Ret (inl (ErrInvalidValue fieldNum f))
    | Some val => l ← store (numericFields p) index val; Ret (inr (mkPidStat (byteSliceFields p) l))
    end
  end.

(** [for pos := commEnd + 1; pos < l && fieldNum < PID_STAT_MAX_FIELD_NUM; pos++]. *)
Definition fields_body (st : nat * bytes * PidStat) : outcome ((nat * bytes * PidStat) + (error + nat * PidStat)) :=
  let '(fieldNum, s, p) := st in
  if negb (bool_decide (s = [])) && (fieldNum <? PID_STAT_MAX_FIELD_NUM) then
    let '(f, s) := span (fun c => negb (isWhitespaceNl c)) (skip isWhitespaceNl s) in
    let fieldNum := S fieldNum in
    r ← set_field fieldNum f p;
    match r with
    | inl e => Ret (inr (inl e))
    | inr p => Ret (inl (fieldNum, tail s, p))
    end
  else Ret (inr (inr (fieldNum, p))).

Definition Parse (rd : read_result) (p : PidStat) : outcome (error + PidStat) :=
  match rd with
  | ReadErr | ReadTrunc _ => Ret (inl ErrRead)
  | ReadOk buf =>
    match (span (fun c => negb (beq c OPEN)) buf).2 with
    | [] => Ret (inl ErrNoOpen)
    | _ :: s =>
      match comm_end s with
      | None => Ret (inl ErrNoClose)
      | Some commEnd =>
        l ← store (byteSliceFields p) 0 (take commEnd s);
        r ← while (S (length s)) fields_body (2, drop (S commEnd) s, mkPidStat l (numericFields p));
        match r with
        | inl e => Ret (inl e)
        | inr (fieldNum, p) =>
          if fieldNum =? PID_STAT_MAX_FIELD_NUM then Ret (inr p)
          else Ret (inl (ErrNotEnough PID_STAT_MAX_FIELD_NUM fieldNum))
        end
      end
    end
  end.

(** ** Safety *)

Definition sized (p : PidStat) : Prop :=
  length (byteSliceFields p) = PID_STAT_BYTE_SLICE_NUM_FIELDS /\ length (numericFields p) = PID_STAT_ULONG_NUM_FIELDS.

(** The indices of the table are those of the arrays. *)
Lemma handling_bound n h :
  pidStatFieldHandling n = Some h ->
  match h with
  | BytesData i => i < PID_STAT_BYTE_SLICE_NUM_FIELDS
  | UlongData i => i < PID_STAT_ULONG_NUM_FIELDS
  end.
Proof.
  intros H. do 42 (destruct n as [|n]; [try discriminate H; injection H as <-; vm_compute; lia|]). discriminate H.
Qed.

Lemma set_field_sized n f p :
  sized p -> exists r, set_field n f p = Ret r /\ match r with inr p' => sized p' | inl _ => True end.
Proof.
  intros [H1 H2]. unfold set_field. destruct (pidStatFieldHandling n) as [[i|i]|] eqn:E.
  - apply handling_bound in E. rewrite store_Ret by lia. eexists. split; [done|]. split; simpl; [by rewrite length_insert|done].
  - apply handling_bound in E. destruct (ulong 0 f); [|by eexists].
    rewrite store_Ret by lia. eexists. split; [done|]. split; simpl; [done|by rewrite length_insert].
  - by eexists.
Qed.

Lemma fields_body_sized n s p :
  sized p -> exists r, fields_body (n, s, p) = Ret r /\
    match r with
    | inl (_, s', p') => sized p' /\ length s' < length s
    | inr (inr (_, p')) => sized p'
    | inr (inl _) => True
    end.
Proof.
  intros Hp. unfold fields_body. destruct (_ && _) eqn:E; [|by eexists].
  apply andb_true_iff in E as [E%negb_true_iff _]. apply bool_decide_eq_false in E.
  set (s1 := skip isWhitespaceNl s).
  pose proof (span_append (fun c => negb (isWhitespaceNl c)) s1) as Ha.
  destruct (span _ s1) as [f s2] eqn:Es. cbn [fst snd] in Ha.
  destruct (set_field_sized (S n) f p Hp) as (r & -> & Hr). rewrite bind_ret.
  destruct r as [e|p']; [by eexists|]. eexists. split; [done|]. split; [done|].
  pose proof (skip_length isWhitespaceNl s) as Hl. fold s1 in Hl. rewrite <- Ha, length_app in Hl.
  destruct s2 as [|c s2]; simpl in *; [|lia]. destruct f; simpl in *; [|lia]. destruct s; [done|simpl; lia].
Qed.

Lemma fields_loop_sized fuel n s p :
  sized p -> length s < fuel ->
  exists r, while fuel fields_body (n, s, p) = Ret r /\ match r with inr (_, p') => sized p' | inl _ => True end.
Proof.
  revert n s p. induction fuel as [|fuel IH]; intros n s p Hp Hf; [lia|].
  destruct (fields_body_sized n s p Hp) as (r & Hb & Hr). destruct r as [[[n' s'] p']|r].
  - rewrite (while_inl _ _ _ _ Hb). destruct Hr. apply IH; [done|lia].
  - rewrite (while_inr _ _ _ _ Hb). by exists r.
Qed.

(** the parser of process statistics always returns: on any content it
    neither panics nor loops, and a successful parse leaves all the fields in
    place. *)
Theorem pid_stat_parse_total rd p :
  sized p -> exists r, Parse rd p = Ret r /\ match r with inr p' => sized p' | inl _ => True end.
Proof.
  intros Hp. unfold Parse. destruct rd as [buf| |]; [|by eexists..].
  destruct (span _ buf).2 as [|c s]; [by eexists|]. destruct (comm_end s) as [j|]; [|by eexists].
  pose proof Hp as [H1 H2]. rewrite store_Ret by (rewrite H1; vm_compute; lia). rewrite bind_ret.
  destruct (fields_loop_sized (S (length s)) 2 (drop (S j) s) (mkPidStat (<[0:=take j s]> (byteSliceFields p)) (numericFields p)))
    as (r & -> & Hr); [split; simpl; [by rewrite length_insert|done]|rewrite length_drop; lia|].
  rewrite bind_ret. destruct r as [e|[n p']]; [by eexists|]. destruct (n =? _); by eexists.
Qed.

(** ** A well-formed file *)

Lemma last_close_app a b :
  last_close (a ++ b) = match last_close b with Some j => Some (length a + j) | None => last_close a end.
Proof.
  induction a as [|c a IH]; simpl; [by destruct (last_close b)|]. rewrite IH. by destruct (last_close b).
Qed.

Lemma last_close_none s : CLOSE ∉ s -> last_close s = None.
Proof.
  induction s as [|c s IH]; intros H; [done|]. simpl. apply not_elem_of_cons in H as [Hc Hs].
  rewrite IH by done. by rewrite (proj2 (beq_false c CLOSE)) by congruence.
Qed.

(** The end of the command name is found when nothing after it looks like one,
    whatever the name has in it, as long as it is short; a longer one may not
    have a closing parenthesis early on. *)
Lemma comm_end_spec comm rest :
  CLOSE ∉ rest -> length comm <= TASK_COMM_LEN \/ CLOSE ∉ take (TASK_COMM_LEN + 1) comm ->
  comm_end (comm ++ CLOSE :: rest) = Some (length comm).
Proof.
  intros Hr Hc. unfold comm_end.
  assert (forall x, CLOSE ∉ x -> last_close (comm ++ CLOSE :: x) = Some (length comm)) as Hl.
  { intros x Hx. rewrite last_close_app. cbn [last_close]. rewrite last_close_none by done. rewrite beq_refl. f_equal. lia. }
  destruct (decide (length comm <= TASK_COMM_LEN)) as [Hle|Hgt].
  - replace (TASK_COMM_LEN + 1) with (length comm + S (TASK_COMM_LEN - length comm)) by lia.
    rewrite take_app_add. cbn [take]. rewrite Hl; [done|]. intros Hin. apply Hr. eapply elem_of_take in Hin as (? & ? & _).
    apply list_elem_of_lookup. by eexists.
  - destruct Hc as [?|Hc]; [lia|]. rewrite take_app_le by lia. rewrite last_close_none by done. by apply Hl.
Qed.

Lemma ulong_dec f v : Forall (fun c => is_digit c = true) f -> ulong (wrapu 64 v) f = Some (u64 (dec_from v f)).
Proof.
  intros Hf. revert v. induction Hf as [|c f Hc _ IH]; intros v; simpl; [done|].
  unfold is_digit in Hc. rewrite Hc. rewrite push_digit_spec by lia. rewrite <- IH. f_equal.
  unfold wrapu. rewrite <- Z.add_mod_idemp_l, Z.mul_mod_idemp_r, Z.add_mod_idemp_l by lia. done.
Qed.

(** A field: white space, then bytes that are not. *)
Definition field_ok (t : bytes * bytes) : Prop :=
  Forall (fun c => isWhitespaceNl c = true) t.1 /\ t.2 <> [] /\ Forall (fun c => isWhitespaceNl c = false) t.2.
Definition ends (t : bytes) : Prop := match t with [] => True | c :: _ => isWhitespaceNl c = true end.

Fixpoint set_fields (fieldNum : nat) (fs : list bytes) (p : PidStat) : outcome (error + PidStat) :=
  match fs with
  | [] => Ret (inr p)
  | f :: fs =>
    r ← set_field (S fieldNum) f p;
    match r with inl e => Ret (inl e) | inr p => set_fields (S fieldNum) fs p end
  end.

Lemma fields_body_field n ws f t p p' :
  field_ok (ws, f) -> ends t -> n < PID_STAT_MAX_FIELD_NUM -> set_field (S n) f p = Ret (inr p') ->
  fields_body (n, ws ++ f ++ t, p) = Ret (inl (S n, tail t, p')).
Proof.
  intros (Hws & Hne & Hf) Ht Hn Hs. simpl in *. unfold fields_body.
  rewrite bool_decide_eq_false_2 by (destruct ws, f; done). rewrite (proj2 (Nat.ltb_lt _ _)) by done. cbn [negb andb].
  rewrite skip_app; [|done|].
  2:{ destruct Hf as [|c f Hc _]; [done|]. simpl. done. }
  rewrite span_app; [by rewrite Hs| |destruct t; simpl in *; [done|by rewrite Ht]].
  eapply Forall_impl; [exact Hf|]. simpl. by intros c ->.
Qed.

Lemma fields_loop_fields ts : forall fuel n t p p',
  Forall field_ok ts -> Forall (fun x => x.1 <> []) (tail ts) -> (ts <> [] -> ends t) ->
  n + length ts = PID_STAT_MAX_FIELD_NUM -> length (render ts ++ t) < fuel ->
  set_fields n (map snd ts) p = Ret (inr p') ->
  while fuel fields_body (n, render ts ++ t, p) = Ret (inr (PID_STAT_MAX_FIELD_NUM, p')).
Proof.
  remember (length ts) as k eqn:Hk. revert ts Hk.
  induction k as [|k IH]; intros [|[ws f] ts] Hk fuel n t p p' Hok Hsep Ht Hn Hf Hs; try done.
  - simpl in *. injection Hs as <-. destruct fuel as [|fuel]; [lia|]. erewrite while_inr; [done|].
    unfold fields_body. replace (n <? PID_STAT_MAX_FIELD_NUM) with false by (symmetry; apply Nat.ltb_ge; lia).
    rewrite andb_false_r. do 2 f_equal. f_equal. f_equal. lia.
  - inversion_clear Hok as [|? ? Hfo Hts]. cbn [map set_fields snd] in Hs.
    apply bind_Ret_inv in Hs as (r & Hs1 & Hs). destruct r as [e|p1]; [done|].
    rewrite render_cons, <- !app_assoc in *. cbn [fst snd] in *. simpl in Hk, Hsep.
    destruct fuel as [|fuel]; [lia|].
    assert (ends (render ts ++ t)) as He.
    { destruct ts as [|[ws2 f2] ts]; [by apply Ht|]. inversion_clear Hsep as [|? ? Hw _]. inversion_clear Hts as [|? ? (Hw2 & _) _].
      simpl in *. rewrite render_cons. simpl. destruct Hw2; [done|]. done. }
    erewrite while_inl; [|by apply fields_body_field; [done|done|lia|exact Hs1]].
    assert (0 < length f) by (destruct Hfo as (_ & Hne & _); destruct f; [done|simpl; lia]).
    rewrite !length_app in Hf.
    destruct ts as [|[ws2 f2] ts].
    + simpl in *. assert (k = 0) as -> by lia.
      apply (IH [] eq_refl fuel (S n) (tail t) p1 p'); try done; [lia|].
      simpl. destruct t; simpl in *; lia.
    + inversion_clear Hsep as [|? ? Hw Hsep']. inversion_clear Hts as [|? ? (Hw2 & Hf2) Hts']. simpl in Hw, Hw2.
      destruct ws2 as [|c ws2]; [done|].
      change (tail (render ((c :: ws2, f2) :: ts) ++ t)) with (render ((ws2, f2) :: ts) ++ t).
      apply (IH ((ws2, f2) :: ts)); try done;
        [simpl in *; lia|constructor; [|done]|by intros _; apply Ht|lia|].
      * inversion_clear Hw2. by split.
      * rewrite render_cons, !length_app in *. simpl in *. lia.
Qed.

(** What the fields of a file are. *)
Definition bytes_of (comm : bytes) (fs : list bytes) : list bytes :=
  comm :: map (fun n => fs !!! (n - 3)) [3; 4; 5; 6; 7; 8; 9; 18; 19; 20; 22; 23; 25; 39; 40; 41].
Definition nums_of (fs : list bytes) : list Z := map (fun n => u64 (dec (fs !!! (n - 3)))) [10; 12; 14; 15; 24].
Definition nums_ok (fs : list bytes) : Prop :=
  Forall (fun n => Forall (fun c => is_digit c = true) (fs !!! (n - 3))) [10; 12; 14; 15; 24].

Lemma ulong_field f : Forall (fun c => is_digit c = true) f -> ulong 0 f = Some (u64 (dec f)).
Proof. apply (ulong_dec f 0). Qed.

Lemma set_fields_all comm fs p :
  sized p -> length fs = 39 -> nums_ok fs ->
  set_fields 2 fs (mkPidStat (<[0 := comm]> (byteSliceFields p)) (numericFields p)) =
  Ret (inr (mkPidStat (bytes_of comm fs) (nums_of fs))).
Proof.
  intros [H1 H2] Hl Hn. destruct p as [bsf nf]. simpl in H1, H2.
  do 17 (destruct bsf as [|? bsf]; [discriminate H1|]). destruct bsf; [|discriminate H1].
  do 5 (destruct nf as [|? nf]; [discriminate H2|]). destruct nf; [|discriminate H2].
  do 39 (destruct fs as [|? fs]; [discriminate Hl|]). destruct fs; [|discriminate Hl].
  unfold nums_ok in Hn. repeat (apply Forall_cons in Hn as [?%ulong_field Hn]). simpl in *.
  cbv [set_fields set_field pidStatFieldHandling].
  repeat match goal with H : ulong 0 ?f = Some _ |- context [ulong 0 ?f] => rewrite H end.
  reflexivity.
Qed.

(** parsing process statistics.  A file made of the process number, the
    command name in parentheses and the fields from the third on, separated by
    white space, gives the command name whatever bytes it has in it, closing
    parentheses included, each byte field as it is in the file and each number
    modulo 2^64, all under their indices.  The name has at most sixteen bytes,
    or no closing parenthesis among the first seventeen. *)
Theorem pid_stat_parse_file p pid comm ts t :
  sized p -> OPEN ∉ pid ->
  length comm <= TASK_COMM_LEN \/ CLOSE ∉ take (TASK_COMM_LEN + 1) comm ->
  length ts = 39 -> Forall field_ok ts -> Forall (fun x => x.1 <> []) ts -> ends t ->
  CLOSE ∉ render ts ++ t -> nums_ok (map snd ts) ->
  Parse (ReadOk (pid ++ OPEN :: comm ++ CLOSE :: render ts ++ t)) p =
  Ret (inr (mkPidStat (bytes_of comm (map snd ts)) (nums_of (map snd ts)))).
Proof.
  intros Hp Hpid Hcomm Hlen Hok Hsep Ht Hcl Hn. unfold Parse.
  rewrite span_app; [|apply Forall_forall; intros c Hc; rewrite (proj2 (beq_false c OPEN)); [done|congruence]|done].
  cbn [snd]. rewrite comm_end_spec by done.
  pose proof Hp as [H1 H2]. rewrite store_Ret by (rewrite H1; vm_compute; lia). rewrite bind_ret.
  rewrite take_app_length. replace (drop (S (length comm)) (comm ++ CLOSE :: render ts ++ t)) with (render ts ++ t).
  2:{ rewrite <- Nat.add_1_r, drop_app_add. done. }
  erewrite fields_loop_fields; [rewrite bind_ret; reflexivity|done|by destruct ts; [|inversion_clear Hsep]|done|by rewrite Hlen| |].
  - rewrite !length_app. simpl. rewrite !length_app. lia.
  - apply set_fields_all; [done|by rewrite length_map|done].
Qed.

Definition sample_fields : list (bytes * bytes) :=
  (bs " ", bs "S") :: map (fun n => (bs " ", bs n))
    ["1"; "468"; "468"; "0"; "-1"; "1077936192"; "44"; "0"; "3"; "0"; "18446744073709551617"; "2"; "0"; "0"; "20"; "0"; "4";
     "0"; "898"; "227737600"; "1340"; "18446744073709551615"; "1"; "2"; "3"; "0"; "0"; "0"; "0"; "0"; "0"; "0"; "0";
     "0"; "-1"; "0"; "0"; "0"]%string.

Lemma pid_stat_parse_file_witness :
  exists p', Parse (ReadOk (bs "486 (rs:main) Q) S" ++ render (tail sample_fields) ++ bs " 0 0
")) NewPidStat = Ret (inr p') /\
    take 2 (byteSliceFields p') = [bs "rs:main) Q"; bs "S"] /\ numericFields p' = [44; 3; 1; 2; 1340]%Z.
Proof.
  eexists. split.
  - apply (pid_stat_parse_file NewPidStat (bs "486 ") (bs "rs:main) Q") sample_fields (bs " 0 0
")).
    + split; reflexivity.
    + vm_compute. set_solver.
    + left. vm_compute. lia.
    + reflexivity.
    + apply Forall_forall. intros x Hx. repeat (apply elem_of_cons in Hx as [->|Hx]; [split; [by repeat constructor|split; [discriminate|by repeat constructor]]|]). by apply elem_of_nil in Hx.
    + repeat constructor; discriminate.
    + reflexivity.
    + apply (bool_decide_unpack _). vm_compute. reflexivity.
    + repeat constructor.
  - vm_compute. split; reflexivity.
Defined.

Lemma pid_stat_parse_total_witness :
  exists r, Parse (ReadOk (bs "1 (a) S 1 2")) NewPidStat = Ret r /\ match r with inr p' => sized p' | inl _ => True end.
Proof. apply pid_stat_parse_total. split; reflexivity. Defined.
End PidStat.
