(* ===== verification/Diskstats.v ===== *)
(** Parser for /proc/diskstats (src/procfs/diskstats_parser.go): devices by
    major and minor number, names, 32-bit counters with the conversion of
    jiffies, pruning by scan number, the flag that tells that the set of disks
    has changed. *)

From Stdlib Require Import ZArith Lia.
From stdpp Require Import base tactics numbers strings gmap list.
From S2P Require Import Prelude Scan.

Module Diskstats.

Definition DISKSTATS_INFO_FIELDS_NUM : nat := 3.
Definition DISKSTATS_IO_MILLISEC : nat := 9.
Definition DISKSTATS_VALUE_FIELDS_NUM : nat := 17.
Definition minNumDiskstatsValues : nat := 10.
Definition diskstatsFieldsInJiffies : list bool :=
  map (fun i => i =? DISKSTATS_IO_MILLISEC) (seq 0 DISKSTATS_VALUE_FIELDS_NUM).

Record DiskstatsDevInfo := mkDev { Name : bytes; Stats : list Z; dev_scanNum : Z }.
Abbreviation devmap := (gmap bytes DiskstatsDevInfo).

Record Diskstats := mkDiskstats {
  DevInfoMap : devmap;
  Changed : bool;
  scanNum : Z;
  path : bytes;
  jiffiesToMillisec : Z;
  fieldsInJiffies : list bool
}.

Inductive error :=
| ErrRead
| ErrMissingInfo (lineNum : nat) (line : bytes) (got : nat)
| ErrInvalidDigit (lineNum : nat) (line : bytes) (c : byte)
| ErrMissingStats (lineNum : nat) (line : bytes) (got : nat)
| ErrUnexpectedContent (lineNum : nat) (line rest : bytes).

(** [linux5]: Linux of version 5 or later, with the clock tick in
    milliseconds. *)
Definition NewDiskstats (path : bytes) (linux5 : option Z) : Diskstats :=
  mkDiskstats ∅ false 0 path (default 0%Z (u32 <$> linux5)) diskstatsFieldsInJiffies.

Definition Clone (full : bool) (d : Diskstats) : Diskstats :=
  mkDiskstats
    ((fun i => mkDev (Name i)
        (if full then take DISKSTATS_VALUE_FIELDS_NUM (Stats i ++ replicate DISKSTATS_VALUE_FIELDS_NUM 0%Z)
         else replicate DISKSTATS_VALUE_FIELDS_NUM 0%Z) (dev_scanNum i)) <$> DevInfoMap d)
    (Changed d) (scanNum d) (path d) (jiffiesToMillisec d) (fieldsInJiffies d).

(** ** One line *)

Record info := mkInfo { major : bytes; majorMinor : bytes; name : bytes }.

Definition set_info (fieldNum : nat) (f : bytes) (i : info) : info :=
  match fieldNum with
  | 0 => mkInfo f (majorMinor i) (name i)
  | 1 => mkInfo (major i) (major i ++ [COLON] ++ f) (name i)
  | _ => mkInfo (major i) (majorMinor i) f
  end.

Definition not_sep (c : byte) : bool := negb (beq c NL || isWhitespace c).

(** [for fieldNum = 0; !eol && pos < l && fieldNum < DISKSTATS_INFO_FIELDS_NUM; pos++]. *)
Definition info_body (st : fields * info) : outcome ((fields * info) + (fields * info)) :=
  let '(Fields fieldNum eol s, i) := st in
  if negb eol && negb (bool_decide (s = [])) && (fieldNum <? DISKSTATS_INFO_FIELDS_NUM) then
    let '(f, s) := span not_sep (skip isWhitespace s) in
    let eol := tail_eol s in
    if bool_decide (f = []) then Ret (inl (Fields fieldNum eol (tail s), i))
    else Ret (inl (Fields (S fieldNum) eol (tail s), set_info fieldNum f i))
  else Ret (inr (Fields fieldNum eol s, i)).

Definition scan_info (s : bytes) (i : info) : outcome (fields * info) :=
  while (S (length s)) info_body (Fields 0 false s, i).

(** The conversion of a counter. *)
Definition convert (j2m : Z) (inJiffies : list bool) (fieldNum : nat) (value : Z) : Z :=
  if (0 <? j2m)%Z && default false (inJiffies !! fieldNum) then u32 (value * j2m) else value.
Definition put_value (j2m : Z) (inJiffies : list bool) (i : nat) (z : Z) (v : list Z) : outcome (list Z) :=
  store v i (convert j2m inJiffies i z).

Definition parse_line (j2m : Z) (inJiffies : list bool) (scan : Z) (lineNum : nat) (s : bytes)
    (st : devmap * bool) : outcome (devmap * bool * (error + bytes)) :=
  let '(m, changed) := st in
  let lineStart := s in
  '(Fields fieldNum eol s, i) ← scan_info s (mkInfo [] [] []);
  if fieldNum <? DISKSTATS_INFO_FIELDS_NUM
  then Ret (m, changed, inl (ErrMissingInfo lineNum (current_line lineStart) fieldNum))
  else
    let key := majorMinor i in
    let '(dev, changed) :=
      match m !! key with
      | None => (mkDev (name i) (replicate DISKSTATS_VALUE_FIELDS_NUM 0%Z) 0, true)
      | Some dev => if bool_decide (Name dev <> name i)
                    then (mkDev (name i) (Stats dev) (dev_scanNum dev), true) else (dev, changed)
      end in
    '(Fields fieldNum eol s, stats, bad) ←
      scan_fields 32 DISKSTATS_VALUE_FIELDS_NUM (put_value j2m inJiffies) 0 eol s (Stats dev);
    let m' n := <[key := mkDev (Name dev) stats n]> m in
    match bad with
    | Some c => Ret (m' (dev_scanNum dev), changed, inl (ErrInvalidDigit lineNum (current_line lineStart) c))
    | None =>
      if fieldNum <? minNumDiskstatsValues
      then Ret (m' (dev_scanNum dev), changed, inl (ErrMissingStats lineNum (current_line lineStart) fieldNum))
      else
        match to_eol_ws eol s with
        | inr bad => Ret (m' (dev_scanNum dev), changed,
                          inl (ErrUnexpectedContent lineNum (current_line lineStart) (current_line bad)))
        | inl s => Ret (m' scan, changed, inr s)
        end
    end.

Definition Parse (rd : read_result) (d : Diskstats) : outcome (Diskstats * option error) :=
  match rd with
  | ReadErr | ReadTrunc _ => Ret (d, Some ErrRead)
  | ReadOk buf =>
    let scan := i64 (scanNum d + 1) in
    '(m, changed, err) ← scan_lines (parse_line (jiffiesToMillisec d) (fieldsInJiffies d) scan) 1 buf (DevInfoMap d, false);
    let d' m changed n := mkDiskstats m changed n (path d) (jiffiesToMillisec d) (fieldsInJiffies d) in
    match err with
    | Some e => Ret (d' m changed (scanNum d), Some e)
    | None =>
      let m' := filter (fun kv => dev_scanNum kv.2 = scan) m in
      Ret (d' m' (changed || negb (bool_decide (map_Forall (fun _ i => dev_scanNum i = scan) m))) scan, None)
    end
  end.

(** ** Every line returns *)

Definition dev_ok (i : DiskstatsDevInfo) : Prop := length (Stats i) = DISKSTATS_VALUE_FIELDS_NUM.
Definition st_ok (st : devmap * bool) : Prop := map_Forall (fun _ => dev_ok) st.1.

Lemma info_body_measure st st' :
  info_body st = Ret (inl st') -> length (f_rest st'.1) < length (f_rest st.1).
Proof.
  destruct st as [[n e s] i]. unfold info_body. destruct (_ && _) eqn:E; [|done].
  apply andb_true_iff in E as [[_ E%negb_true_iff]%andb_true_iff _]. apply bool_decide_eq_false in E.
  pose proof (span_append not_sep (skip isWhitespace s)) as Ha.
  destruct (span not_sep (skip isWhitespace s)) as [f s2]. cbn [fst snd] in Ha.
  pose proof (skip_length isWhitespace s) as Hl. rewrite <- Ha, length_app in Hl.
  assert (0 < length s) by (destruct s; [done|simpl; lia]).
  case_bool_decide as Hf; intros [= <-]; simpl.
  - subst f. simpl in Hl. destruct s2; simpl in *; lia.
  - assert (0 < length f) by (destruct f; [done|simpl; lia]). destruct s2; simpl in *; lia.
Qed.

Lemma scan_info_ret s i :
  exists n e s' i', scan_info s i = Ret (Fields n e s', i') /\ length s' <= length s /\
    (n <> 0 -> length s' < length s).
Proof.
  unfold scan_info.
  destruct (while (S (length s)) info_body (Fields 0 false s, i)) as [[[n e s'] i']| |] eqn:E.
  - exists n, e, s', i'. split; [done|].
    pose (Q := fun r : fields * info => length (f_rest r.1) <= length s /\ (f_idx r.1 <> 0 -> length (f_rest r.1) < length s)).
    change (Q (Fields n e s', i')). refine (while_rule info_body Q Q _ _ _ _ _ _ E); [| |by split].
    + intros [[n1 e1 s1] i1] [[n2 e2 s2] i2] [H1 H2] Hb. pose proof (info_body_measure _ _ Hb) as Hm.
      unfold Q in *. simpl in *. split; lia.
    + intros [[n1 e1 s1] i1] [[n2 e2 s2] i2] HQ Hb. unfold info_body in Hb.
      destruct (_ && _) in Hb; [destruct (span _ _) in Hb; by destruct (bool_decide _) in Hb|]. by injection Hb as <- <- <- <-.
  - exfalso. revert E. apply (while_no_panic _ (fun _ => True)); [done| |done].
    intros [[n e s1] i1] _. unfold info_body. repeat case_match; done.
  - exfalso. revert E. apply (while_enough _ (fun st => length (f_rest st.1))); [|apply info_body_measure|simpl; lia].
    intros [[n e s1] i1]. unfold info_body. repeat case_match; done.
Qed.

Lemma put_value_keeps j2m ij i z (v v' : list Z) n : length v = n -> put_value j2m ij i z v = Ret v' -> length v' = n.
Proof. intros Hl H. apply store_length in H. congruence. Qed.

(** A line returns; it keeps the sizes and, without error, moves forward. *)
Lemma parse_line_ret j2m ij scan n s st :
  st_ok st -> exists st' r, parse_line j2m ij scan n s st = Ret (st', r) /\ st_ok st' /\
    forall s', r = inr s' -> s <> [] -> length s' < length s.
Proof.
  destruct st as [m ch]. intros Hm. unfold st_ok in *. simpl in Hm. unfold parse_line.
  destruct (scan_info_ret s (mkInfo [] [] [])) as (k & e & s1 & i & -> & _ & Hl). rewrite bind_ret.
  destruct (k <? DISKSTATS_INFO_FIELDS_NUM) eqn:Ek; [by eexists _, _|].
  apply Nat.ltb_ge in Ek. specialize (Hl ltac:(unfold DISKSTATS_INFO_FIELDS_NUM in Ek; lia)).
  set (x := match m !! majorMinor i with None => _ | Some _ => _ end).
  assert (dev_ok x.1) as Hx.
  { subst x. destruct (m !! majorMinor i) as [dv|] eqn:Em; [|done]. pose proof (Hm _ _ Em). by case_bool_decide. }
  destruct x as [dv ch']. simpl in Hx.
  destruct (scan_fields 32 DISKSTATS_VALUE_FIELDS_NUM (put_value j2m ij) 0 e s1 (Stats dv)) as [[[[k2 e2 s2] v] bad]| |] eqn:Ef.
  - eapply (scan_fields_inv 32 _ _ (fun v => length v = DISKSTATS_VALUE_FIELDS_NUM)) in Ef as (Hv & _ & Hl2);
      [|by intros; eapply put_value_keeps|lia|done].
    rewrite bind_ret.
    assert (forall nm sc, map_Forall (fun _ => dev_ok) (<[majorMinor i := mkDev nm v sc]> m)) as Hins
      by (intros; by apply map_Forall_insert_2).
    destruct bad; [eexists _, _; split; [done|]; split; [apply Hins|done]|].
    destruct (_ <? _); [eexists _, _; split; [done|]; split; [apply Hins|done]|].
    destruct (to_eol_ws e2 s2) as [s3|s3] eqn:Et; [|eexists _, _; split; [done|]; split; [apply Hins|done]].
    eexists _, _. split; [done|]. split; [apply Hins|]. intros s' [= <-] _. apply to_eol_ws_length in Et. lia.
  - exfalso. revert Ef. apply (scan_fields_no_panic _ _ _ (fun v => length v = DISKSTATS_VALUE_FIELDS_NUM));
      [by intros; eapply put_value_keeps| |done].
    intros j z w Hj Hw. unfold put_value. rewrite store_Ret; [done|lia].
  - exfalso. revert Ef. apply scan_fields_terminates. intros. apply store_NoFuel.
Qed.

(** ** A well-formed file *)

Record row := Row {
  r_pad : bytes; r_major : bytes; r_ws1 : bytes; r_minor : bytes; r_ws2 : bytes; r_name : bytes;
  r_toks : list token; r_trail : bytes
}.
Definition word (f : bytes) : Prop := f <> [] /\ Forall (fun c => not_sep c = true) f.

(** Padding, the two numbers, the name, at least ten counters; trailing white
    space only after the last known counter. *)
Record row_ok (r : row) : Prop := mkRowOk {
  ro_pad : is_ws (r_pad r);
  ro_major : word (r_major r);
  ro_ws1 : is_ws (r_ws1 r) /\ r_ws1 r <> [];
  ro_minor : word (r_minor r);
  ro_ws2 : is_ws (r_ws2 r) /\ r_ws2 r <> [];
  ro_name : word (r_name r);
  ro_toks : Forall tok_ok (r_toks r) /\ Forall tok_sep (r_toks r);
  ro_num : minNumDiskstatsValues <= length (r_toks r) <= DISKSTATS_VALUE_FIELDS_NUM;
  ro_trail : is_ws (r_trail r) /\ (r_trail r = [] \/ length (r_toks r) = DISKSTATS_VALUE_FIELDS_NUM)
}.
Definition row_out (r : row) : bytes :=
  r_pad r ++ r_major r ++ r_ws1 r ++ r_minor r ++ r_ws2 r ++ r_name r ++ render (r_toks r) ++ r_trail r ++ [NL].
Definition row_key (r : row) : bytes := r_major r ++ [COLON] ++ r_minor r.

(** The counters of a row on top of the ones that the device had. *)
Definition row_stats (j2m : Z) (ij : list bool) (r : row) (old : list Z) : list Z :=
  let vals := map (tok_val 32) (r_toks r) in
  imap (convert j2m ij) vals ++ drop (length vals) old.
Definition old_stats (m : devmap) (key : bytes) : list Z :=
  default (replicate DISKSTATS_VALUE_FIELDS_NUM 0%Z) (Stats <$> m !! key).
Definition row_dev (j2m : Z) (ij : list bool) (scan : Z) (m : devmap) (r : row) : DiskstatsDevInfo :=
  mkDev (r_name r) (row_stats j2m ij r (old_stats m (row_key r))) scan.
Definition row_changed (m : devmap) (r : row) : bool :=
  negb (bool_decide (Name <$> m !! row_key r = Some (r_name r))).
Definition row_upd (j2m : Z) (ij : list bool) (scan : Z) (r : row) (st : devmap * bool) : devmap * bool :=
  (<[row_key r := row_dev j2m ij scan st.1 r]> st.1, st.2 || row_changed st.1 r).

Lemma info_body_word n ws f t i :
  is_ws ws -> word f -> sep_tail t -> n < DISKSTATS_INFO_FIELDS_NUM ->
  info_body (Fields n false (ws ++ f ++ t), i) = Ret (inl (Fields (S n) (tail_eol t) (tail t), set_info n f i)).
Proof.
  intros Hws [Hne Hf] Ht Hn. unfold info_body.
  rewrite bool_decide_eq_false_2 by (destruct ws, f; done). rewrite (proj2 (Nat.ltb_lt _ _)) by done. cbn [negb andb].
  rewrite skip_app; [|done|].
  2:{ destruct Hf as [|c f Hc _]; [done|]. simpl. unfold not_sep in Hc. by apply negb_true_iff, orb_false_iff in Hc as [_ ->]. }
  rewrite span_app; [by rewrite bool_decide_eq_false_2|done|].
  destruct t as [|c t]; [done|]. simpl in *. unfold not_sep. unfold is_sep in Ht. by rewrite Ht.
Qed.

Lemma ws_tail ws x : is_ws ws -> ws <> [] -> sep_tail (ws ++ x) /\ tail_eol (ws ++ x) = false /\
  exists ws', tail (ws ++ x) = ws' ++ x /\ is_ws ws' /\ length ws' < length ws.
Proof.
  intros Hw Hne. destruct Hw as [|c ws Hc Hw]; [done|]. simpl. unfold is_sep. rewrite Hc, orb_true_r.
  split; [done|]. split; [by apply ws_not_nl|]. exists ws. split; [done|]. split; [done|lia].
Qed.

Lemma scan_info_row r t i0 :
  row_ok r -> sep_tail t ->
  scan_info (r_pad r ++ r_major r ++ r_ws1 r ++ r_minor r ++ r_ws2 r ++ r_name r ++ t) i0 =
  Ret (Fields 3 (tail_eol t) (tail t), mkInfo (r_major r) (row_key r) (r_name r)).
Proof.
  intros [Hp Hma [Hw1 Hn1] Hmi [Hw2 Hn2] Hna _ _ _] Ht. unfold scan_info.
  assert (forall f, word f -> 0 < length f) as Hpos by (intros f [Hf _]; destruct f; [done|simpl; lia]).
  pose proof (Hpos _ Hma). pose proof (Hpos _ Hmi). pose proof (Hpos _ Hna).
  destruct (ws_tail (r_ws1 r) (r_minor r ++ r_ws2 r ++ r_name r ++ t) Hw1 Hn1) as (Hs1 & He1 & ws1 & Ht1 & Hw1' & Hl1).
  destruct (ws_tail (r_ws2 r) (r_name r ++ t) Hw2 Hn2) as (Hs2 & He2 & ws2 & Ht2 & Hw2' & Hl2).
  set (fuel := length _). assert (3 <= fuel) as Hf by (subst fuel; rewrite !length_app; lia).
  destruct fuel as [|[|[|fuel]]]; [lia..|].
  erewrite while_inl; [|by apply info_body_word; [done|done|done|unfold DISKSTATS_INFO_FIELDS_NUM; lia]].
  rewrite He1, Ht1.
  erewrite while_inl; [|by apply info_body_word; [done|done|done|unfold DISKSTATS_INFO_FIELDS_NUM; lia]].
  rewrite He2, Ht2.
  erewrite while_inl; [|by apply info_body_word; [done|done|done|unfold DISKSTATS_INFO_FIELDS_NUM; lia]].
  erewrite while_inr; [done|]. unfold info_body. change (3 <? DISKSTATS_INFO_FIELDS_NUM) with false.
  by rewrite andb_false_r.
Qed.

Lemma put_list_convert j2m ij zs : forall idx v,
  put_list (put_value j2m ij) idx zs v =
  put_list (fun i z v => store v i z) idx (imap (fun k => convert j2m ij (idx + k)) zs) v.
Proof.
  induction zs as [|z zs IH]; intros idx v; [done|]. cbn [put_list]. rewrite imap_cons. cbn [put_list].
  change (put_value j2m ij idx z v) with (store v idx (convert j2m ij idx z)).
  rewrite Nat.add_0_r. destruct (store v idx _) as [v'| |]; [|done|done]. rewrite !bind_ret, IH.
  f_equal. apply imap_ext. intros k x _. simpl. f_equal. lia.
Qed.

Lemma old_stats_length m key : map_Forall (fun _ => dev_ok) m -> length (old_stats m key) = DISKSTATS_VALUE_FIELDS_NUM.
Proof. intros Hm. unfold old_stats. destruct (m !! key) eqn:E; [by apply (Hm key)|done]. Qed.

(** The line handler on a device line. *)
Lemma parse_line_row j2m ij scan n r rest st :
  row_ok r -> st_ok st ->
  parse_line j2m ij scan n (row_out r ++ rest) st = Ret (row_upd j2m ij scan r st, inr rest).
Proof.
  intros Hr Hm. destruct st as [m ch]. unfold st_ok in Hm. simpl in Hm. unfold parse_line, row_out. rewrite <- !app_assoc.
  set (t := r_trail r ++ [NL] ++ rest).
  pose proof Hr as [_ _ _ _ _ _ [Htok Hsep] Hnum [Htr Htr2]].
  assert (r_toks r <> []) as Hne by (intros E; rewrite E in Hnum; simpl in Hnum; unfold minNumDiskstatsValues in Hnum; lia).
  assert (sep_tail t) as Ht.
  { unfold t. destruct Htr as [|c tr Hc _]; simpl; unfold is_sep; [done|]. by rewrite Hc, orb_true_r. }
  assert (sep_tail (render (r_toks r) ++ t)) as Ht' by by apply sep_tail_render.
  rewrite (scan_info_row r _ _ Hr Ht'). rewrite bind_ret.
  change (3 <? DISKSTATS_INFO_FIELDS_NUM) with false. cbv iota. cbn [majorMinor name].
  destruct (tail_render (r_toks r) t Htok Hsep Hne) as (He & ts' & -> & Hok' & Hsep' & Hne' & Hl & Hm2 & _). rewrite He.
  set (x := match m !! row_key r with None => _ | Some _ => _ end).
  assert (x = (mkDev (r_name r) (old_stats m (row_key r)) (match m !! row_key r with Some dv => dev_scanNum dv | None => 0%Z end),
               ch || row_changed m r)) as ->.
  { subst x. unfold old_stats, row_changed. destruct (m !! row_key r) as [dv|] eqn:Em; simpl; [|by rewrite orb_true_r].
    destruct (decide (Name dv = r_name r)) as [E|E].
    - rewrite bool_decide_eq_false_2 by naive_solver. rewrite bool_decide_eq_true_2 by congruence.
      rewrite orb_false_r, <- E. by destruct dv.
    - rewrite bool_decide_eq_true_2 by done. rewrite (bool_decide_eq_false_2 (_ = Some _)) by congruence. by rewrite orb_true_r. }
  cbn [Stats Name dev_scanNum].
  pose proof (old_stats_length m (row_key r) Hm) as Hos. set (os := old_stats m (row_key r)) in *.
  set (vals := map (tok_val 32) (r_toks r)).
  assert (length vals = length (r_toks r)) as Hvl by apply length_map.
  assert (map (tok_val 32) ts' = vals) as Hvals by (by apply tok_vals_snd).
  unfold scan_fields.
  rewrite (fields_run _ _ _ _ 0 ts' t os (row_stats j2m ij r os)); [|lia|done|done|done|done|lia| | |lia].
  - rewrite bind_ret, Hl. cbn [Nat.add]. rewrite (proj2 (Nat.ltb_ge _ _)) by lia.
    assert (to_eol_ws (tail_eol t) (tail t) = inl rest) as ->.
    { unfold t. destruct Htr as [|c tr Hc Htr]; simpl; [by destruct rest|]. rewrite ws_not_nl by done. by apply to_eol_ws_run. }
    reflexivity.
  - destruct Htr2 as [Htr2|Htr2]; [right; left; unfold t; by rewrite Htr2|left; lia].
  - rewrite Hvals, put_list_convert.
    assert (length (imap (fun k => convert j2m ij (0 + k)) vals) = length (r_toks r)) as Hil by (rewrite length_imap; done).
    rewrite put_list_store by (rewrite Hil, Hos; lia). rewrite Hil. unfold row_stats. fold vals. rewrite Hvl. done.
Qed.

Lemma row_upd_fold j2m ij scan m0 rows : forall m c,
  NoDup (map row_key rows) -> (forall r, r ∈ rows -> m !! row_key r = m0 !! row_key r) ->
  foldl (fun st r => row_upd j2m ij scan r st) (m, c) rows =
  (insert_all row_key (row_dev j2m ij scan m0) rows m, c || existsb (row_changed m0) rows).
Proof.
  induction rows as [|r rows IH]; intros m c Hnd Hm; [simpl; by rewrite orb_false_r|].
  cbn [foldl map] in *. apply NoDup_cons in Hnd as [Hr Hnd].
  assert (m !! row_key r = m0 !! row_key r) as Hmr by (apply Hm; set_solver).
  assert (row_upd j2m ij scan r (m, c) = (<[row_key r := row_dev j2m ij scan m0 r]> m, c || row_changed m0 r)) as ->.
  { unfold row_upd, row_dev, old_stats, row_changed. cbn [fst snd]. by rewrite Hmr. }
  rewrite IH; [|done|].
  - unfold insert_all. cbn [foldl existsb]. by rewrite <- orb_assoc.
  - intros r' Hr'. rewrite lookup_insert_ne; [apply Hm; set_solver|].
    intros E. apply Hr. rewrite E. apply list_elem_of_fmap. by exists r'.
Qed.

Lemma row_dev_ok j2m ij scan m r : row_ok r -> map_Forall (fun _ => dev_ok) m -> dev_ok (row_dev j2m ij scan m r).
Proof.
  intros Hr Hm. unfold dev_ok, row_dev, row_stats. simpl.
  rewrite length_app, length_imap, length_drop, length_map, (old_stats_length m (row_key r) Hm).
  pose proof (ro_num _ Hr). lia.
Qed.

Lemma disk_scan_rows j2m ij scan n rows st :
  Forall row_ok rows -> st_ok st ->
  scan_lines (parse_line j2m ij scan) n (concat (map row_out rows)) st =
  Ret (foldl (fun st r => row_upd j2m ij scan r st) st rows, None).
Proof.
  intros Hok Hst. apply (scan_lines_rows (parse_line j2m ij scan) row_out _ row_ok st_ok 0); [| |lia|done|done].
  - intros r _ H. apply (f_equal length) in H. unfold row_out in H. rewrite !length_app in H. simpl in H. lia.
  - intros n' r rest st' _ Hr Hst'. split; [by apply parse_line_row|].
    unfold st_ok, row_upd. simpl. apply map_Forall_insert_2; [|done]. by apply row_dev_ok.
Qed.

(** Between successful parses every device carries the scan number of the
    object. *)
Definition wf (d : Diskstats) : Prop :=
  map_Forall (fun _ i => dev_ok i /\ dev_scanNum i = scanNum d) (DevInfoMap d) /\
  (MinInt64 <= scanNum d <= MaxInt64)%Z.

(** parsing a file of disks (any padding, distinct device numbers, ten to
    seventeen counters) succeeds and leaves exactly the devices of the file
    under major:minor, each with its name and its counters modulo 2^32, the I/O
    time converted from jiffies when it has to be; and the change flag is set
    if and only if the set of devices or a name differs from the scan before. *)
Theorem diskstats_parse_file d rows :
  wf d -> Forall row_ok rows -> NoDup (map row_key rows) ->
  exists d', Parse (ReadOk (concat (map row_out rows))) d = Ret (d', None) /\
    DevInfoMap d' = list_to_map (map (fun r =>
      (row_key r, row_dev (jiffiesToMillisec d) (fieldsInJiffies d) (scanNum d') (DevInfoMap d) r)) rows) /\
    (Changed d' = true <-> Name <$> DevInfoMap d' <> Name <$> DevInfoMap d) /\
    wf d' /\ scanNum d' = i64 (scanNum d + 1).
Proof.
  intros [Hm Hsc] Hok Hnd. unfold Parse. set (scan := i64 (scanNum d + 1)).
  set (j2m := jiffiesToMillisec d). set (ij := fieldsInJiffies d). set (m0 := DevInfoMap d) in *.
  assert (map_Forall (fun _ => dev_ok) m0) as Hm' by (intros k i Hk; by apply (Hm k)).
  assert (scan <> scanNum d) as Hne by by apply i64_succ_ne.
  rewrite (disk_scan_rows j2m ij scan 1 rows (m0, false) Hok Hm').
  rewrite (row_upd_fold j2m ij scan m0 rows m0 false Hnd ltac:(done)). rewrite bind_ret. cbn [orb].
  set (M := insert_all row_key (row_dev j2m ij scan m0) rows m0).
  assert (filter (fun kv : bytes * DiskstatsDevInfo => dev_scanNum kv.2 = scan) M =
          list_to_map (map (fun r => (row_key r, row_dev j2m ij scan m0 r)) rows)) as Hfil.
  { apply (insert_all_filter row_key (row_dev j2m ij scan m0) (fun i => dev_scanNum i = scan)); [done|done|].
    intros k i Hk. destruct (Hm k i Hk) as [_ ->]. congruence. }
  rewrite Hfil. set (m' := list_to_map _).
  assert (forall r, r ∈ rows -> m' !! row_key r = Some (row_dev j2m ij scan m0 r)) as Hin.
  { intros r Hr. unfold m'. rewrite <- Hfil. apply map_lookup_filter_Some. split; [|done].
    apply (insert_all_in row_key); done. }
  assert (forall k, k ∉ map row_key rows -> m' !! k = None /\ M !! k = m0 !! k) as Hout.
  { intros k Hk. split; [|by apply insert_all_notin]. unfold m'. apply not_elem_of_list_to_map_1.
    intros ([k' v] & -> & Hkv)%list_elem_of_fmap. apply list_elem_of_fmap in Hkv as (r & [= -> ->] & Hr).
    apply Hk. apply list_elem_of_fmap. by exists r. }
  eexists. split; [reflexivity|]. cbn [DevInfoMap Changed scanNum]. split; [done|]. split; [|split; [|done]].
  - split.
    + intros [Hc|Hc]%orb_true_iff Heq.
      * apply existsb_exists in Hc as (r & Hr%list_elem_of_In & Hch). unfold row_changed in Hch.
        apply negb_true_iff, bool_decide_eq_false in Hch. apply Hch.
        apply (f_equal (lookup (row_key r))) in Heq. rewrite !lookup_fmap, (Hin r Hr) in Heq. simpl in Heq. by rewrite <- Heq.
      * apply negb_true_iff, bool_decide_eq_false in Hc. apply Hc. intros k i Hk.
        destruct (decide (k ∈ map row_key rows)) as [Hkr|Hkr].
        -- apply list_elem_of_fmap in Hkr as (r & -> & Hr). unfold M in Hk.
           rewrite (insert_all_in row_key) in Hk by done. by injection Hk as <-.
        -- destruct (Hout k Hkr) as [Hn HM]. rewrite HM in Hk.
           apply (f_equal (lookup k)) in Heq. rewrite !lookup_fmap, Hn, Hk in Heq. done.
    + intros Hne'. apply orb_true_iff. destruct (existsb (row_changed m0) rows) eqn:Ee; [by left|right].
      apply negb_true_iff, bool_decide_eq_false. intros Hall. apply Hne'. apply map_eq. intros k. rewrite !lookup_fmap.
      destruct (decide (k ∈ map row_key rows)) as [Hkr|Hkr].
      * apply list_elem_of_fmap in Hkr as (r & -> & Hr). rewrite (Hin r Hr). simpl.
        assert (row_changed m0 r = false) as Hch.
        { destruct (row_changed m0 r) eqn:E; [|done]. rewrite <- Ee. symmetry. apply existsb_exists. exists r.
          split; [by apply list_elem_of_In|done]. }
        unfold row_changed in Hch. apply negb_false_iff, bool_decide_eq_true in Hch. by rewrite Hch.
      * destruct (Hout k Hkr) as [-> HM]. simpl. destruct (m0 !! k) as [i|] eqn:Ek; [|done].
        pose proof (Hall k i HM) as Hs. simpl in Hs. destruct (Hm k i Ek) as [_ Hs']. congruence.
  - split; [|apply i64_range]. cbn [DevInfoMap scanNum]. intros k i Hk. unfold m' in Hk.
    apply elem_of_list_to_map_2, list_elem_of_fmap in Hk as (r & [= -> ->] & Hr). split; [|done].
    apply row_dev_ok; [|done]. rewrite Forall_forall in Hok. by apply Hok.
Qed.

(** on any content whatsoever the parser of disk statistics returns, and
    keeps the invariant that every device has its seventeen counters. *)
Theorem diskstats_parse_total d rd :
  map_Forall (fun _ => dev_ok) (DevInfoMap d) ->
  exists d' err, Parse rd d = Ret (d', err) /\ map_Forall (fun _ => dev_ok) (DevInfoMap d').
Proof.
  intros Hm. unfold Parse. destruct rd as [buf| |]; [|by eexists _, _..].
  set (line := parse_line _ _ _).
  assert (forall n s st st' r, st_ok st -> line n s st = Ret (st', r) -> st_ok st') as Hinv.
  { intros n s st st' r Hst Hl. destruct (parse_line_ret (jiffiesToMillisec d) (fieldsInJiffies d) (i64 (scanNum d + 1)) n s st Hst)
      as (st2 & r2 & Hl2 & Hst2 & _). unfold line in Hl. rewrite Hl2 in Hl. by injection Hl as <- <-. }
  destruct (scan_lines line 1 buf (DevInfoMap d, false)) as [[[m ch] err]| |] eqn:E.
  - apply (scan_lines_inv line st_ok) in E; [|done|done]. rewrite bind_ret. destruct err; [by eexists _, _|].
    eexists _, _. split; [done|]. intros k i [Hk _]%map_lookup_filter_Some. by apply (E k).
  - exfalso. revert E. apply (scan_lines_no_panic line st_ok); [done| |done].
    intros n s st Hst. destruct (parse_line_ret (jiffiesToMillisec d) (fieldsInJiffies d) (i64 (scanNum d + 1)) n s st Hst)
      as (st2 & r2 & Hl2 & _). unfold line. by rewrite Hl2.
  - exfalso. revert E. unfold scan_lines.
    apply (while_enough_inv _ (fun st => length st.2) (fun st => st_ok st.1.1)); [| |done|simpl; lia].
    + intros [[st n] s] Hst. unfold lines_body. case_bool_decide; [done|]. simpl in Hst.
      destruct (parse_line_ret (jiffiesToMillisec d) (fieldsInJiffies d) (i64 (scanNum d + 1)) n s st Hst)
        as (st2 & r2 & Hl2 & _). unfold line. rewrite Hl2. rewrite bind_ret. by destruct r2.
    + intros [[st n] s] [[st' n'] s'] Hst Hb. unfold lines_body in Hb. case_bool_decide as Hs; [done|]. simpl in Hst.
      destruct (parse_line_ret (jiffiesToMillisec d) (fieldsInJiffies d) (i64 (scanNum d + 1)) n s st Hst)
        as (st2 & r2 & Hl2 & Hst2 & Hlen). unfold line in Hb. rewrite Hl2, bind_ret in Hb.
      destruct r2 as [e|s2]; [done|]. injection Hb as <- <- <-. simpl. split; [done|]. by apply Hlen.
Qed.

Definition sample_row (mn nm : string) (n : nat) : row :=
  Row (bs "   ") (bs "8") (bs "       ") (bs mn) (bs " ") (bs nm) (replicate n (bs " ", bs "42")) [].

Lemma sample_row_ok : row_ok (sample_row "0" "sda" 17) /\ row_ok (sample_row "1" "sda1" 11).
Proof.
  split; (split; [by repeat constructor|split; [done|by repeat constructor]|split; [by repeat constructor|done]|
    split; [done|by repeat constructor]|split; [by repeat constructor|done]|split; [done|by repeat constructor]|
    split; repeat constructor; done|vm_compute; lia|split; [constructor|by left]]).
Qed.

Lemma diskstats_parse_file_witness :
  exists d', Parse (ReadOk (concat (map row_out [sample_row "0" "sda" 17; sample_row "1" "sda1" 11])))
               (NewDiskstats (bs "/proc/diskstats") (Some 10%Z)) = Ret (d', None) /\
    (Stats <$> DevInfoMap d' !! bs "8:1") = Some [42; 42; 42; 42; 42; 42; 42; 42; 42; 420; 42; 0; 0; 0; 0; 0; 0]%Z /\
    Changed d' = true.
Proof.
  destruct (diskstats_parse_file (NewDiskstats (bs "/proc/diskstats") (Some 10%Z)) [sample_row "0" "sda" 17; sample_row "1" "sda1" 11])
    as (d' & Hp & Hd & Hc & _).
  - split; [apply map_Forall_empty|vm_compute; split; discriminate].
  - destruct sample_row_ok. by constructor; [|constructor].
  - vm_compute. apply NoDup_cons. split; [|apply NoDup_singleton]. rewrite list_elem_of_singleton. congruence.
  - exists d'. split; [exact Hp|]. rewrite Hd. split; [vm_compute; reflexivity|]. apply Hc. rewrite Hd.
    intros E. apply (f_equal (fun m => bool_decide (is_Some (m !! bs "8:1")))) in E. vm_compute in E. discriminate E.
Defined.

Lemma diskstats_parse_total_witness :
  exists d' err, Parse (ReadOk (bs " 8 0 sda 1 2 x")) (NewDiskstats (bs "/proc/diskstats") None) = Ret (d', err) /\
    map_Forall (fun _ => dev_ok) (DevInfoMap d').
Proof. apply diskstats_parse_total. apply map_Forall_empty. Defined.
End Diskstats.
