(* ===== verification/GoLib.v ===== *)
(** The parts of Go's library and run-time that the parsers of column oriented
    files use: white space and fields of a byte string (packages bytes and
    strings, unicode.IsSpace), upper case, slices with a capacity. *)

From Stdlib Require Import ZArith Lia.
From stdpp Require Import base tactics numbers strings gmap list.
From S2P Require Import Prelude Scan.

(** ** White space *)

(** The table [asciiSpace]: tab, new line, vertical tab, form feed, carriage
    return and space. *)
Definition asciiSpace (c : byte) : bool :=
  let v := byte_val c in ((9 <=? v) && (v <=? 13) || (v =? 32))%Z.

(** The width of the white space character (unicode.IsSpace) at the start of a
    string in UTF-8, 0 if there is none.  Beyond ASCII these are U+0085,
    U+00A0, U+1680, U+2000 to U+200A, U+2028, U+2029, U+202F, U+205F and
    U+3000; the first byte of their encodings only occurs as the first byte of
    a character, so that they are found byte by byte. *)
Definition space_len (s : bytes) : nat :=
  match s with
  | [] => 0
  | c :: t =>
    if asciiSpace c then 1 else
    match map byte_val (take 3 s) with
    | (0xc2 :: b :: _)%Z => if ((b =? 0x85) || (b =? 0xa0))%Z then 2 else 0
    | [0xe1; b; d]%Z => if ((b =? 0x9a) && (d =? 0x80))%Z then 3 else 0
    | [0xe2; b; d]%Z =>
      if ((b =? 0x80) && ((0x80 <=? d) && (d <=? 0x8a) || (d =? 0xa8) || (d =? 0xa9) || (d =? 0xaf))
          || (b =? 0x81) && (d =? 0x9f))%Z then 3 else 0
    | [0xe3; b; d]%Z => if ((b =? 0x80) && (d =? 0x80))%Z then 3 else 0
    | _ => 0
    end
  end.

(** [bytes.Fields] and [strings.Fields]: the maximal runs without white space.
    [k] bytes of the current white space character are still to be passed, and
    [cur] is the current field in reverse. *)
Definition flush (cur : bytes) : list bytes := if bool_decide (cur = []) then [] else [rev cur].
Fixpoint fields_from (k : nat) (cur : bytes) (s : bytes) : list bytes :=
  match s with
  | [] => flush cur
  | c :: t =>
    match k with
    | S k => fields_from k cur t
    | O =>
      match space_len s with
      | O => fields_from 0 (c :: cur) t
      | S k => flush cur ++ fields_from k [] t
      end
    end
  end.
Definition Fields_of (s : bytes) : list bytes := fields_from 0 [] s.

(** [strings.TrimSpace]: the white space characters at both ends removed. *)
Fixpoint trim_left (k : nat) (s : bytes) : bytes :=
  match s with
  | [] => []
  | c :: t =>
    match k with
    | S k => trim_left k t
    | O => match space_len s with O => s | S k => trim_left k t end
    end
  end.
(** The width of the white space character at the end. *)
Definition space_len_last (s : bytes) : nat :=
  let ends n := bool_decide (n <= length s) && (space_len (drop (length s - n) s) =? n) in
  if ends 1 then 1 else if ends 2 then 2 else if ends 3 then 3 else 0.
Fixpoint trim_right (fuel : nat) (s : bytes) : bytes :=
  match fuel with
  | O => s
  | S f => match space_len_last s with
           | O => s
           | S k => trim_right f (take (length s - S k) s)
           end
  end.
Definition TrimSpace (s : bytes) : bytes :=
  let s := trim_left 0 s in trim_right (length s) s.

(** ** Upper case *)

Definition is_ascii (c : byte) : bool := (byte_val c <? 128)%Z.
Definition upper_ascii (c : byte) : byte :=
  let v := byte_val c in
  if ((97 <=? v) && (v <=? 122))%Z
  then default c (Strings.Byte.of_N (Z.to_N (v - 32))) else c.

(** [bytes.ToUpper]: an ASCII string letter by letter, any other through the
    case tables of package unicode, which are the argument [unicode_upper]. *)
Definition ToUpper (unicode_upper : bytes -> bytes) (s : bytes) : bytes :=
  if forallb is_ascii s then map upper_ascii s else unicode_upper s.

(** ** Slices *)

(** A slice that does not share its array: the elements up to its capacity and
    its length. *)
Record slice := Slice { sl_arr : list Z; sl_len : nat }.
#[export] Instance slice_eq_dec : EqDecision slice.
Proof. solve_decision. Defined.

Definition sl_cap (v : slice) : nat := length (sl_arr v).
Definition sl_data (v : slice) : list Z := take (sl_len v) (sl_arr v).
Definition sl_ok (v : slice) : Prop := sl_len v <= sl_cap v.
(** [make([]uint64, n)]. *)
Definition sl_make (n : nat) : slice := Slice (replicate n 0%Z) n.
(** [v[:n]]: within the capacity. *)
Definition sl_reslice (v : slice) (n : nat) : outcome slice :=
  if decide (n <= sl_cap v) then Ret (Slice (sl_arr v) n) else Panic.
(** [v[i] = x]: within the length. *)
Definition sl_store (v : slice) (i : nat) (x : Z) : outcome slice :=
  if decide (i < sl_len v) then a ← store (sl_arr v) i x; Ret (Slice a (sl_len v)) else Panic.
(** A copy, [dst := make([]uint64, len(v)); copy(dst, v)]. *)
Definition sl_copy (v : slice) : slice := Slice (sl_data v) (length (sl_data v)).

Lemma sl_make_ok n : sl_ok (sl_make n).
Proof. unfold sl_ok, sl_cap. simpl. by rewrite length_replicate. Qed.

Lemma sl_data_length v : sl_ok v -> length (sl_data v) = sl_len v.
Proof. unfold sl_ok, sl_cap, sl_data. intros. rewrite length_take. lia. Qed.

Lemma sl_reslice_Ret v n : n <= sl_cap v -> sl_reslice v n = Ret (Slice (sl_arr v) n).
Proof. intros. unfold sl_reslice. by rewrite decide_True. Qed.

Lemma sl_store_Ret v i x : sl_ok v -> i < sl_len v ->
  sl_store v i x = Ret (Slice (<[i:=x]> (sl_arr v)) (sl_len v)).
Proof.
  unfold sl_ok, sl_cap. intros. unfold sl_store. rewrite decide_True by done.
  by rewrite store_Ret by lia.
Qed.

Lemma sl_store_keeps v i x v' n : sl_ok v /\ sl_len v = n -> sl_store v i x = Ret v' -> sl_ok v' /\ sl_len v' = n.
Proof.
  intros [Hok Hn]. unfold sl_store. case_decide; [|done]. unfold sl_ok, sl_cap in *.
  rewrite store_Ret by lia. rewrite bind_ret. intros [= <-]. simpl. by rewrite length_insert.
Qed.

Lemma sl_store_NoFuel v i x : sl_store v i x <> NoFuel.
Proof.
  unfold sl_store. case_decide; [|done]. intros [Hs|(?&_&?)]%bind_NoFuel_inv; [|done].
  by apply store_NoFuel in Hs.
Qed.

(** Storing values one after the other. *)
Lemma put_list_slice zs : forall idx v,
  sl_ok v -> idx + length zs <= sl_len v ->
  put_list (fun i z v => sl_store v i z) idx zs v =
  Ret (Slice (take idx (sl_arr v) ++ zs ++ drop (idx + length zs) (sl_arr v)) (sl_len v)).
Proof.
  induction zs as [|z zs IH]; intros idx [a n] Hok Hl; unfold sl_ok, sl_cap in Hok; simpl in *.
  - by rewrite Nat.add_0_r, take_drop.
  - rewrite sl_store_Ret by (unfold sl_ok, sl_cap; simpl; lia). rewrite bind_ret. cbn [sl_arr sl_len].
    rewrite IH by (unfold sl_ok, sl_cap; simpl; rewrite ?length_insert; lia). simpl. do 2 f_equal.
    rewrite (take_S_r (<[idx:=z]> a) idx z) by (apply list_lookup_insert_eq; lia).
    rewrite take_insert_ge by lia. rewrite <- app_assoc. simpl. do 3 f_equal.
    rewrite drop_insert_lt by lia. f_equal. lia.
Qed.

(** Overwriting the whole slice. *)
Definition sl_write (v : slice) (zs : list Z) : slice := Slice (zs ++ drop (length zs) (sl_arr v)) (sl_len v).

Lemma sl_write_ok v zs : sl_ok v -> length zs <= sl_len v -> sl_ok (sl_write v zs).
Proof. unfold sl_ok, sl_cap, sl_write. simpl. rewrite length_app, length_drop. lia. Qed.

Lemma sl_write_data v zs : length zs = sl_len v -> sl_data (sl_write v zs) = zs.
Proof. intros H. unfold sl_data, sl_write. simpl. by rewrite <- H, take_app_length. Qed.

(** ** Fields of a line of ASCII words *)

Definition word_char (c : byte) : bool := is_ascii c && negb (asciiSpace c).
Definition fword (w : bytes) : Prop := w <> [] /\ Forall (fun c => word_char c = true) w.

Lemma space_len_word c t : word_char c = true -> space_len (c :: t) = 0.
Proof.
  unfold word_char. intros [Ha Hs%negb_true_iff]%andb_true_iff. unfold space_len. rewrite Hs.
  unfold is_ascii in Ha. cbn [take map]. set (x := map byte_val (take 2 t)). clearbody x.
  destruct c; try discriminate Ha; reflexivity.
Qed.

Lemma space_len_ws c t : isWhitespace c = true -> space_len (c :: t) = 1.
Proof. destruct c; vm_compute; done. Qed.

Lemma fields_from_word w cur s : Forall (fun c => word_char c = true) w ->
  fields_from 0 cur (w ++ s) = fields_from 0 (rev w ++ cur) s.
Proof.
  intros Hw. revert cur. induction Hw as [|c w Hc _ IH]; intros cur; [done|].
  cbn [app fields_from]. rewrite space_len_word by done. rewrite IH. f_equal. simpl. by rewrite <- app_assoc.
Qed.

Lemma fields_from_ws ws cur s : is_ws ws -> ws <> [] ->
  fields_from 0 cur (ws ++ s) = flush cur ++ fields_from 0 [] s.
Proof.
  intros Hws. revert cur. induction Hws as [|c ws Hc Hws IH]; intros cur Hne; [done|].
  cbn [app fields_from]. rewrite space_len_ws by done. destruct ws as [|c' ws]; [done|].
  rewrite IH by done. done.
Qed.

Lemma flush_rev w : w <> [] -> flush (rev w) = [w].
Proof.
  intros. unfold flush. rewrite bool_decide_eq_false_2; [by rewrite rev_involutive|].
  intros E. apply (f_equal (@rev _)) in E. rewrite rev_involutive in E. done.
Qed.

(** White space and words in turn, with white space at the end: the words. *)
Definition wtoken := (bytes * bytes)%type.
Definition wtok_ok (t : wtoken) : Prop := is_ws t.1 /\ t.1 <> [] /\ fword t.2.
Definition wrender (ts : list wtoken) : bytes := concat (map (fun t => t.1 ++ t.2) ts).

Lemma Fields_of_wrender ts trail : Forall wtok_ok ts -> is_ws trail ->
  Fields_of (wrender ts ++ trail) = map snd ts.
Proof.
  intros Hts Ht. unfold Fields_of.
  assert (forall cur, fields_from 0 cur (wrender ts ++ trail) = flush cur ++ map snd ts) as H; [|by rewrite H].
  induction Hts as [|[ws w] ts [Hws [Hne [Hwne Hw]]] _ IH]; intros cur.
  - simpl. rewrite app_nil_r. destruct (decide (trail = [])) as [->|Hn]; [done|].
    rewrite <- (app_nil_r trail). rewrite fields_from_ws by done. simpl. by rewrite app_nil_r.
  - simpl in *. unfold wrender. simpl. rewrite <- !app_assoc. rewrite fields_from_ws by done. f_equal.
    rewrite fields_from_word by done. rewrite app_nil_r.
    change (concat (map (fun t => t.1 ++ t.2) ts) ++ trail) with (wrender ts ++ trail).
    rewrite IH, flush_rev by done. done.
Qed.

(** The same without the first byte, which is white space. *)
Lemma Fields_of_wrender_drop ts trail : Forall wtok_ok ts -> is_ws trail -> ts <> [] ->
  Fields_of (drop 1 (wrender ts ++ trail)) = map snd ts.
Proof.
  intros Hts Ht Hne. destruct Hts as [|[ws w] ts [Hws [Hwne Hw]] Hts]; [done|]. cbn [fst snd] in Hws, Hwne, Hw.
  destruct Hws as [|c ws Hc Hws]; [done|].
  destruct (decide (ws = [])) as [->|Hne2].
  - etransitivity; [|apply (Fields_of_wrender (([c], w) :: ts) trail); [constructor; [split_and!; [by constructor|done|exact Hw]|done]|done]].
    unfold Fields_of, wrender. cbn [map concat fst snd app drop]. cbn [fields_from]. by rewrite space_len_ws.
  - etransitivity; [|apply (Fields_of_wrender ((ws, w) :: ts) trail); [by constructor; [split_and!|]|done]]. done.
Qed.

(** A word has no white space to trim. *)
Lemma TrimSpace_word w : fword w -> TrimSpace w = w.
Proof.
  intros [Hne Hw]. unfold TrimSpace.
  assert (trim_left 0 w = w) as ->.
  { destruct Hw as [|c w Hc _]; [done|]. cbn [trim_left]. by rewrite space_len_word. }
  destruct (length w) as [|n] eqn:El; [done|]. cbn [trim_right].
  assert (forall k, 0 < k -> k <= length w -> space_len (drop (length w - k) w) = 0) as Hs.
  { intros k Hk Hle. destruct (drop (length w - k) w) as [|c t] eqn:E.
    - apply (f_equal length) in E. rewrite length_drop in E. simpl in E. lia.
    - apply space_len_word. apply (Forall_drop _ (length w - k)) in Hw. rewrite E in Hw. by inversion Hw. }
  unfold space_len_last.
  assert (forall k, 0 < k -> bool_decide (k <= length w) && (space_len (drop (length w - k) w) =? k) = false) as Hf.
  { intros k Hk. case_bool_decide; [|done]. rewrite Hs by done. by destruct k; [lia|]. }
  by rewrite !Hf by lia.
Qed.

(** The last byte of a longer white space character is not ASCII. *)
Lemma space_len_multi s k : space_len s = k -> 2 <= k -> exists c, s !! (k - 1) = Some c /\ (128 <= byte_val c)%Z.
Proof.
  destruct s as [|a t]; [cbn; lia|]. unfold space_len. destruct (asciiSpace a); [lia|]. cbn [take map].
  assert (forall (b : bool) n, (if b then n else 0) = k -> 2 <= k -> b = true /\ k = n) as Hif by (intros []; lia).
  destruct a; (match goal with |- context [byte_val ?x] => is_constructor x; let v := eval vm_compute in (byte_val x) in change (byte_val x) with v end);
    cbn -[byte_val Z.eqb Z.leb]; try lia; destruct t as [|b [|d t]]; cbn -[byte_val Z.eqb Z.leb]; try lia;
    intros H Hk; destruct (Hif _ _ H Hk) as [Hb ->]; eexists; (split; [reflexivity|]); lia.
Qed.

(** Text between two characters that are not white space. *)
Lemma TrimSpace_ends c t d : word_char c = true -> word_char d = true -> TrimSpace (c :: t ++ [d]) = c :: t ++ [d].
Proof.
  intros Hc Hd. unfold TrimSpace. cbn [trim_left]. rewrite space_len_word by done. set (s := c :: t ++ [d]).
  assert (last s = Some d) as Hlast by (subst s; change (c :: t ++ [d]) with ((c :: t) ++ [d]); apply last_snoc).
  clearbody s. destruct (length s) as [|n] eqn:El; [done|]. cbn [trim_right].
  assert (forall k, 0 < k -> k <= 3 -> bool_decide (k <= length s) && (space_len (drop (length s - k) s) =? k) = false) as Hf.
  { intros k Hk Hk3. case_bool_decide as Hle; [|done]. cbn [andb]. apply Nat.eqb_neq. intros Hs.
    assert (exists q, drop (length s - k) s = q ++ [d] /\ length q = k - 1) as (q & Hq & Hlq).
    { pose proof (take_drop (length s - k) s) as Htd. destruct (drop (length s - k) s) as [|e q _] eqn:E using rev_ind.
      - apply (f_equal length) in E. rewrite length_drop in E. cbn in E. lia.
      - exists q. rewrite <- Htd, app_assoc, last_snoc in Hlast. injection Hlast as ->. split; [done|].
        apply (f_equal length) in E. rewrite length_drop, length_app in E. cbn in E. lia. }
    destruct (decide (k = 1)) as [->|Hk1].
    - destruct q; [|done]. cbn [app] in Hq. rewrite Hq, space_len_word in Hs by done. lia.
    - destruct (space_len_multi _ _ Hs) as (e & He & Hge); [lia|]. rewrite Hq, lookup_app_r, Hlq, Nat.sub_diag in He by lia. injection He as <-.
      apply andb_true_iff in Hd as [Hd _]. unfold is_ascii in Hd. lia. }
  unfold space_len_last. by rewrite !Hf by lia.
Qed.

(** The value of digits is not less than what they are added to. *)
Lemma dec_from_nonneg ds x : Forall (fun c => is_digit c = true) ds -> (0 <= x)%Z -> (x <= dec_from x ds)%Z.
Proof.
  intros H. revert x. induction H as [|c ds Hc _ IH]; intros x Hx; [done|]. unfold dec_from in *. cbn [foldl].
  pose proof (digit_of_range c). etrans; [|apply IH; lia]. lia.
Qed.

(** ** Prefixes *)

(** [for pos < l && k < len(h) && buf[pos] == h[k]; pos++, k++]: what is left
    of the expected bytes and of the cursor. *)
Fixpoint match_prefix (h s : bytes) : bytes * bytes :=
  match h, s with
  | a :: h', b :: s' => if beq b a then match_prefix h' s' else (h, s)
  | _, _ => (h, s)
  end.

Lemma match_prefix_app h s : match_prefix h (h ++ s) = ([], s).
Proof. induction h as [|a h IH]; [by destruct s|]. simpl. by rewrite beq_refl. Qed.

Lemma match_prefix_spec h s : exists p, h = p ++ (match_prefix h s).1 /\ s = p ++ (match_prefix h s).2.
Proof.
  revert s. induction h as [|a h IH]; intros [|b s]; simpl; try (by exists []).
  destruct (beq b a) eqn:E; [|by exists []]. apply beq_true in E as ->.
  destruct (IH s) as (p & H1 & H2). exists (a :: p). simpl. by rewrite <- H1, <- H2.
Qed.

Lemma match_prefix_full h s : (match_prefix h s).1 = [] -> s = h ++ (match_prefix h s).2.
Proof.
  intros H. destruct (match_prefix_spec h s) as (p & H1 & H2). rewrite H, app_nil_r in H1. by subst p.
Qed.
