(* ===== verification/CpuHeader.v ===== *)
(** The heading CPU0 CPU1 ... of /proc/softirqs and /proc/interrupts: the
    mapping from columns to CPU numbers, and the test that tells whether the
    heading is still the one of the scan before.  Both parsers have the same
    code (updateCounterIndexToCpuNumMap in src/procfs/softirqs_parser.go and
    updateCpuList in src/procfs/interrupts_parser.go); they differ in where
    they keep the result. *)

From Stdlib Require Import ZArith Lia.
From stdpp Require Import base tactics numbers strings gmap list.
From S2P Require Import Prelude Scan GoLib.

Module CpuHeader.

(** The number of a [CPUNNN] specification; the first three bytes are not
    looked at. *)
Definition parse_cpu (cpu : bytes) : option Z :=
  if length cpu <=? 3 then None
  else if forallb is_digit (drop 3 cpu)
  then Some (foldl (fun v c => push_digit_int v (digit_of c)) 0%Z (drop 3 cpu)) else None.

(** The loop over the columns: the offending specification, or the CPU numbers
    and whether one of them differs from its column. *)
Fixpoint cpu_loop (index : nat) (fields : list bytes) : bytes + (list Z * bool) :=
  match fields with
  | [] => inr ([], false)
  | cpu :: fields =>
    match parse_cpu cpu with
    | None => inl cpu
    | Some cpuNum =>
      match cpu_loop (S index) fields with
      | inl e => inl e
      | inr (l, needs) => inr (cpuNum :: l, negb (bool_decide (Z.of_nat index = cpuNum)) || needs)
      end
    end
  end.

(** The number of columns, which is set first, and the CPU list ([None] for
    nil: column and CPU number agree) or the error. *)
Definition update_cpu_list (line : bytes) : nat * (bytes + option (list Z)) :=
  let fields := Fields_of line in
  (length fields,
   match cpu_loop 0 fields with
   | inl e => inl e
   | inr (l, needs) => inr (if needs then Some l else None)
   end).

(** The comparison of the first line with the cached one [h]: the line when it
    has changed, and the cursor at its end. *)
Definition check_header (h s : bytes) : option bytes * bytes :=
  let '(h', s') := match_prefix h s in
  if negb (bool_decide (h' = [])) || match s' with [] => false | c :: _ => negb (beq c NL) end
  then let s'' := skip (fun c => negb (beq c NL)) s' in (Some (take (length s - length s'') s), s'')
  else (None, s').

(** What a CPU list means: the CPU of a column, out of [n]. *)
Definition cpu_of (cl : option (list Z)) (n i : nat) : option Z :=
  match cl with
  | None => if decide (i < n) then Some (Z.of_nat i) else None
  | Some l => l !! i
  end.

(** ** Lemmas *)

Definition no_nl (s : bytes) : Prop := Forall (fun c => negb (beq c NL) = true) s.

(** The line that the next scan compares with is the one that was read. *)
Lemma check_header_line h line rest :
  no_nl h -> no_nl line -> tail_eol rest = true \/ rest = [] ->
  check_header h (line ++ rest) = (if decide (h = line) then None else Some line, rest).
Proof.
  intros Hh Hl Hr. unfold check_header.
  destruct (match_prefix_spec h (line ++ rest)) as (p & H1 & H2).
  assert (skip (fun c => negb (beq c NL)) (line ++ rest) = rest) as Hskip.
  { apply skip_app; [done|]. destruct Hr as [Hr| ->]; [|done]. destruct rest; [done|]. simpl in *. by rewrite Hr. }
  destruct (match_prefix h (line ++ rest)) as [h' s'] eqn:E. simpl in H1, H2.
  destruct (decide (h = line)) as [->|Hne].
  - assert (match_prefix line (line ++ rest) = ([], rest)) as Em by apply match_prefix_app.
    rewrite E in Em. injection Em as -> ->. rewrite bool_decide_eq_true_2 by done. simpl.
    destruct Hr as [Hr| ->]; [|done]. destruct rest; [done|]. simpl in *. by rewrite Hr.
  - (* the common part lies within the line *)
    assert (exists q, line = p ++ q /\ s' = q ++ rest) as (q & Hq & ->).
    { assert (no_nl p) as Hp by (rewrite H1 in Hh; by apply Forall_app in Hh as [? _]).
      clear -H2 Hp Hr. revert line H2. induction Hp as [|c p Hc _ IH]; intros line H2.
      { exists line. by simpl in *. }
      destruct line as [|c' line]; simpl in H2.
      - destruct Hr as [Hr| ->]; [|done]. destruct rest; [done|]. simplify_eq/=. by rewrite Hr in Hc.
      - injection H2 as -> H2. destruct (IH line H2) as (q & -> & ->). by exists q. }
    assert (skip (fun c => negb (beq c NL)) (q ++ rest) = rest) as ->.
    { rewrite Hq in Hl. apply Forall_app in Hl as [_ Hl]. apply skip_app; [done|].
      destruct Hr as [Hr| ->]; [|done]. destruct rest; [done|]. simpl in *. by rewrite Hr. }
    rewrite length_app, Nat.add_sub, take_app_length.
    assert ((negb (bool_decide (h' = [])) || match q ++ rest with [] => false | c :: _ => negb (beq c NL) end) = true) as ->; [|done].
    destruct (decide (h' = [])) as [->|Hh']; [|by rewrite bool_decide_eq_false_2].
    rewrite app_nil_r in H1. subst p. destruct q as [|c q]; [by rewrite app_nil_r in Hq|].
    apply orb_true_iff. right. simpl. rewrite Hq in Hl. apply Forall_app in Hl as [_ Hl]. by inversion_clear Hl.
Qed.

(** In any case the cursor is left within the text, at a new line or at its end. *)
Lemma check_header_rest h s : tail_eol (check_header h s).2 = true \/ (check_header h s).2 = [].
Proof.
  unfold check_header. destruct (match_prefix h s) as [h' s'].
  destruct (_ || _) eqn:E; simpl.
  - pose proof (span_stops (fun c => negb (beq c NL)) s') as Hs. unfold skip.
    destruct (span _ s').2; [by right|]. left. simpl in *. by apply negb_false_iff in Hs.
  - apply orb_false_iff in E as [_ E]. destruct s' as [|c s']; [by right|]. left. simpl. by apply negb_false_iff in E.
Qed.

Lemma check_header_length h s : length (check_header h s).2 <= length s.
Proof.
  unfold check_header. destruct (match_prefix_spec h s) as (p & _ & H2).
  destruct (match_prefix h s) as [h' s']. simpl in H2.
  assert (length s' <= length s) by (rewrite H2, length_app; lia).
  destruct (_ || _); simpl; [|done]. etransitivity; [apply skip_length|done].
Qed.

Definition cpu_word (w : bytes) : Prop :=
  fword w /\ 3 < length w /\ Forall (fun c => is_digit c = true) (drop 3 w).
Definition cpu_num (w : bytes) : Z := i64 (dec (drop 3 w)).

Lemma parse_cpu_word w : cpu_word w -> parse_cpu w = Some (cpu_num w).
Proof.
  intros (_ & Hl & Hd). unfold parse_cpu. rewrite (proj2 (Nat.leb_gt _ _)) by done.
  replace (forallb is_digit (drop 3 w)) with true.
  - f_equal. apply (foldl_push_digit_int 0).
  - symmetry. apply forallb_forall. intros c Hc%list_elem_of_In. by apply (proj1 (Forall_forall _ _) Hd).
Qed.

Lemma cpu_loop_words ws : forall k, Forall cpu_word ws ->
  cpu_loop k ws = inr (map cpu_num ws,
    negb (bool_decide (map cpu_num ws = map Z.of_nat (seq k (length ws))))).
Proof.
  induction ws as [|w ws IH]; intros k Hws; [done|].
  inversion_clear Hws as [|? ? Hw Hws']. cbn [cpu_loop]. rewrite parse_cpu_word, IH by done.
  do 2 f_equal. cbn [map length seq]. rewrite <- negb_andb. f_equal.
  rewrite <- bool_decide_and. apply bool_decide_ext. split; [by intros [-> ->]|by intros [= -> ->]].
Qed.

(** The columns of a heading are mapped to the numbers that it shows. *)
Lemma update_cpu_list_words ts trail :
  Forall wtok_ok ts -> Forall (fun t => cpu_word t.2) ts -> is_ws trail ->
  exists cl, update_cpu_list (wrender ts ++ trail) = (length ts, inr cl) /\
    forall i, cpu_of cl (length ts) i = map (fun t => cpu_num t.2) ts !! i.
Proof.
  intros Hts Hw Htr. unfold update_cpu_list. rewrite Fields_of_wrender by done. rewrite length_map.
  assert (Forall cpu_word (map snd ts)) as Hws by by apply Forall_map.
  rewrite cpu_loop_words by done. eexists. split; [reflexivity|]. intros i.
  rewrite map_map, length_map. set (nums := map (fun t => cpu_num t.2) ts).
  case_bool_decide as E; simpl; [|done].
  change (map (fun x : bytes * bytes => cpu_num x.2) ts) with nums in E. rewrite E, list_lookup_fmap.
  case_decide; [by rewrite lookup_seq_lt by done|].
  symmetry. apply fmap_None, lookup_seq_ge, Nat.le_ngt. done.
Qed.

(** ** A well-formed heading *)

(** The heading: white space and CPU specifications in turn. *)
Definition hdr_ok (ts : list wtoken) (trail : bytes) : Prop :=
  ts <> [] /\ Forall wtok_ok ts /\ Forall (fun t => cpu_word t.2) ts /\ is_ws trail.
Definition hdr (ts : list wtoken) (trail : bytes) : bytes := wrender ts ++ trail.
Definition cpus (ts : list wtoken) : list Z := map (fun t => cpu_num t.2) ts.

Lemma hdr_no_nl ts trail : hdr_ok ts trail -> no_nl (hdr ts trail).
Proof.
  intros (_ & Hts & _ & Htr). unfold hdr. apply Forall_app. split.
  - unfold wrender. induction Hts as [|[ws w] ts (Hws & _ & _ & Hw) _ IH]; [constructor|]. simpl in *.
    apply Forall_app. split; [|done]. apply Forall_app. split.
    + eapply Forall_impl; [done|]. intros c Hc. simpl in Hc. by rewrite ws_not_nl.
    + eapply Forall_impl; [done|]. intros c. destruct c; vm_compute; done.
  - eapply Forall_impl; [done|]. intros c Hc. simpl in Hc. by rewrite ws_not_nl.
Qed.

(** The mapping of a heading, columns to the numbers shown. *)
Lemma update_cpu_list_hdr ts trail : hdr_ok ts trail ->
  exists cl, update_cpu_list (hdr ts trail) = (length ts, inr cl) /\
    forall i, cpu_of cl (length ts) i = cpus ts !! i.
Proof. intros (_ & Hts & Hw & Htr). by apply update_cpu_list_words. Qed.

(** ** The cache *)

(** The heading kept from the scan before and the mapping belong together. *)
Definition hdr_coherent (h : bytes) (cl : option (list Z)) (n : nat) : Prop :=
  no_nl h /\ update_cpu_list h = (n, inr cl).

Lemma hdr_coherent_new : hdr_coherent [] None 0.
Proof. split; [constructor|done]. Qed.
End CpuHeader.
