(* ===== verification/Softirqs.v ===== *)
(** Parser for /proc/softirqs (src/procfs/softirqs_parser.go): counters per
    interrupt and column, the cached heading, slices that are reused when the
    number of columns changes, pruning by scan number. *)

From Stdlib Require Import ZArith Lia.
From stdpp Require Import base tactics numbers strings gmap list.
From S2P Require Import Prelude Scan GoLib CpuHeader.

Module Softirqs.
Import CpuHeader.

Record Softirqs := mkSoftirqs {
  Counters : gmap bytes slice;
  CpuList : option (list Z);
  CpuListChanged : bool;
  NumCounters : nat;
  path : bytes;
  cpuHeaderLine : bytes;
  irqScanNum : gmap bytes Z;
  scanNum : Z
}.

Inductive error :=
| ErrRead
| ErrCpuSpec (lineNum : nat) (line cpu : bytes)
| ErrInvalidSoftirq (lineNum : nat) (line : bytes)
| ErrInvalidDigit (lineNum : nat) (line : bytes) (c : byte)
| ErrMissing (lineNum : nat) (line : bytes) (want got : nat)
| ErrUnexpectedContent (lineNum : nat) (line rest : bytes).

Definition NewSoftirqs (path : bytes) : Softirqs := mkSoftirqs ∅ None false 0 path [] ∅ 0.

Definition Clone (full : bool) (s : Softirqs) : Softirqs :=
  mkSoftirqs
    ((fun v => if full then sl_copy v else sl_make (sl_len v)) <$> Counters s)
    (CpuList s) (CpuListChanged s) (NumCounters s) (path s) (cpuHeaderLine s)
    (if full then irqScanNum s else ∅) (scanNum s).

(** [updateCounterIndexToCpuNumMap]: the number of columns is set also when the
    heading is rejected. *)
Definition updateCounterIndexToCpuNumMap (line : bytes) (s : Softirqs) : Softirqs * option bytes :=
  let set cl hdr n := mkSoftirqs (Counters s) cl (CpuListChanged s) n (path s) hdr (irqScanNum s) (scanNum s) in
  match update_cpu_list line with
  | (n, inl cpu) => (set (CpuList s) (cpuHeaderLine s) n, Some cpu)
  | (n, inr cl) => (set cl line n, None)
  end.

Definition set_changed (b : bool) (s : Softirqs) : Softirqs :=
  mkSoftirqs (Counters s) (CpuList s) b (NumCounters s) (path s) (cpuHeaderLine s) (irqScanNum s) (scanNum s).
Definition set_counters (m : gmap bytes slice) (n : gmap bytes Z) (s : Softirqs) : Softirqs :=
  mkSoftirqs m (CpuList s) (CpuListChanged s) (NumCounters s) (path s) (cpuHeaderLine s) n (scanNum s).

(** The first line. *)
Definition header_line (lineNum : nat) (b : bytes) (s : Softirqs) : Softirqs * (error + bytes) :=
  match check_header (cpuHeaderLine s) b with
  | (None, rest) => (set_changed false s, inr (tail rest))
  | (Some line, rest) =>
    match updateCounterIndexToCpuNumMap line s with
    | (s, Some cpu) => (s, inl (ErrCpuSpec lineNum (current_line b) cpu))
    | (s, None) => (set_changed true s, inr (tail rest))
    end
  end.

(** The slice for the counters of an interrupt: a new one, the part in use of
    the old one, or the old one as it is. *)
Definition counters_for (num : nat) (o : option slice) : outcome slice :=
  match o with
  | None => Ret (sl_make num)
  | Some v => if sl_cap v <? num then Ret (sl_make num)
              else if num <? sl_len v then sl_reslice v num
              else Ret v
  end.

Definition irq_char (c : byte) : bool := negb (beq c COLON) && negb (beq c NL).

(** A line [IRQ: NN .. NN]. *)
Definition irq_line (scan : Z) (lineNum : nat) (b : bytes) (s : Softirqs) : outcome (Softirqs * (error + bytes)) :=
  let lineStart := b in
  let '(irq, b) := span irq_char (skip isWhitespace b) in
  match b with
  | c :: b =>
    if beq c COLON then
      v ← counters_for (NumCounters s) (Counters s !! irq);
      '(Fields counterIndex eol b, v, bad) ←
        scan_fields 64 (NumCounters s) (fun i z v => sl_store v i z) 0 false b v;
      let s' n := set_counters (<[irq := v]> (Counters s)) n s in
      match bad with
      | Some c => Ret (s' (irqScanNum s), inl (ErrInvalidDigit lineNum (current_line lineStart) c))
      | None =>
        if counterIndex <? NumCounters s
        then Ret (s' (irqScanNum s), inl (ErrMissing lineNum (current_line lineStart) (NumCounters s) counterIndex))
        else
          match to_eol_ws eol b with
          | inr bad => Ret (s' (irqScanNum s),
                            inl (ErrUnexpectedContent lineNum (current_line lineStart) (current_line bad)))
          | inl b => Ret (s' (<[irq := scan]> (irqScanNum s)), inr b)
          end
      end
    else Ret (s, inl (ErrInvalidSoftirq lineNum (current_line lineStart)))
  | [] => Ret (s, inl (ErrInvalidSoftirq lineNum (current_line lineStart)))
  end.

Definition parse_line (scan : Z) (lineNum : nat) (b : bytes) (s : Softirqs) : outcome (Softirqs * (error + bytes)) :=
  if lineNum =? 1 then Ret (header_line lineNum b s) else irq_line scan lineNum b s.

(** Interrupts that were found by an earlier scan only are dropped. *)
Definition prune (scan : Z) (s : Softirqs) : Softirqs :=
  mkSoftirqs
    (filter (fun kv => default scan (irqScanNum s !! kv.1) = scan) (Counters s))
    (CpuList s) (CpuListChanged s) (NumCounters s) (path s) (cpuHeaderLine s)
    (filter (fun kv => kv.2 = scan) (irqScanNum s)) scan.

Definition Parse (rd : read_result) (s : Softirqs) : outcome (Softirqs * option error) :=
  match rd with
  | ReadErr | ReadTrunc _ => Ret (s, Some ErrRead)
  | ReadOk buf =>
    let scan := i64 (scanNum s + 1) in
    '(s, err) ← scan_lines (parse_line scan) 1 buf s;
    match err with
    | Some e => Ret (s, Some e)
    | None => Ret (prune scan s, None)
    end
  end.

(** ** A well-formed file *)

Record row := Row { r_pad : bytes; r_irq : bytes; r_toks : list token; r_trail : bytes }.

Record row_ok (num : nat) (r : row) : Prop := mkRowOk {
  ro_pad : is_ws (r_pad r);
  ro_irq : Forall (fun c => irq_char c = true) (r_irq r) /\ stops isWhitespace (r_irq r);
  ro_toks : Forall tok_ok (r_toks r) /\ Forall tok_sep (tail (r_toks r));
  ro_num : length (r_toks r) = num;
  ro_trail : is_ws (r_trail r)
}.
Definition row_out (r : row) : bytes :=
  r_pad r ++ r_irq r ++ [COLON] ++ render (r_toks r) ++ r_trail r ++ [NL].
Definition row_vals (r : row) : list Z := map (tok_val 64) (r_toks r).

(** A slice that was cut and would have to grow again within its capacity. *)
Definition regrow (num : nat) (v : slice) : Prop := sl_len v < num <= sl_cap v.

Lemma counters_for_ret num o :
  (forall v, o = Some v -> sl_ok v /\ ~ regrow num v) ->
  exists v, counters_for num o = Ret v /\ sl_ok v /\ sl_len v = num.
Proof.
  intros Ho. unfold counters_for. destruct o as [v|]; [|eauto using sl_make_ok].
  destruct (Ho v eq_refl) as [Hv Hr]. unfold regrow in Hr.
  destruct (sl_cap v <? num) eqn:E1; [eauto using sl_make_ok|]. apply Nat.ltb_ge in E1.
  destruct (num <? sl_len v) eqn:E2.
  - rewrite sl_reslice_Ret by done. eexists. split; [done|]. split; [|done]. unfold sl_ok. done.
  - apply Nat.ltb_ge in E2. exists v. split; [done|]. split; [done|]. lia.
Qed.

(** What a row leaves in the slice of its interrupt. *)
Definition row_slice (num : nat) (o : option slice) (r : row) : slice :=
  match counters_for num o with Ret v => sl_write v (row_vals r) | _ => sl_make num end.
Definition row_upd (scan : Z) (r : row) (s : Softirqs) : Softirqs :=
  set_counters (<[r_irq r := row_slice (NumCounters s) (Counters s !! r_irq r) r]> (Counters s))
    (<[r_irq r := scan]> (irqScanNum s)) s.

Lemma irq_line_row scan n r rest s :
  0 < NumCounters s -> row_ok (NumCounters s) r ->
  (forall v, Counters s !! r_irq r = Some v -> sl_ok v /\ ~ regrow (NumCounters s) v) ->
  irq_line scan n (row_out r ++ rest) s = Ret (row_upd scan r s, inr rest).
Proof.
  intros Hpos [Hp [Hi Hst] [Htok Hsep] Hnum Htr] Hv. unfold irq_line, row_out. rewrite <- !app_assoc.
  set (t := r_trail r ++ [NL] ++ rest).
  rewrite skip_app; [|done|].
  2:{ destruct (r_irq r); [done|]. by simpl in *. }
  rewrite span_app; [|done|done]. cbn [app]. rewrite beq_refl.
  destruct (counters_for_ret _ _ Hv) as (v & Hc & Hok & Hlen).
  unfold row_upd, row_slice. rewrite Hc, bind_ret.
  assert (r_toks r <> []) as Hne by (intros E; rewrite E in Hnum; simpl in Hnum; lia).
  assert (sep_tail t) as Ht.
  { unfold t. destruct Htr as [|c tr Hc' _]; simpl; unfold is_sep; [done|]. by rewrite Hc', orb_true_r. }
  unfold scan_fields. rewrite (fields_run _ _ _ _ 0 (r_toks r) t v (sl_write v (row_vals r))); [|lia|done|done|done|done|lia| | |lia].
  - rewrite bind_ret, Hnum. cbn [Nat.add]. rewrite Nat.ltb_irrefl.
    assert (to_eol_ws (tail_eol t) (tail t) = inl rest) as ->; [|done].
    unfold t. destruct Htr as [|c tr Hc' Htr]; simpl; [by destruct rest|]. rewrite ws_not_nl by done. by apply to_eol_ws_run.
  - left. lia.
  - assert (length (row_vals r) = sl_len v) as Hl by (unfold row_vals; rewrite length_map; congruence).
    fold (row_vals r). rewrite put_list_slice by (done || lia). done.
Qed.

Lemma row_slice_spec num o r :
  length (r_toks r) = num -> (forall v, o = Some v -> sl_ok v /\ ~ regrow num v) ->
  sl_ok (row_slice num o r) /\ sl_len (row_slice num o r) = num /\ sl_data (row_slice num o r) = row_vals r.
Proof.
  intros Hn Ho. unfold row_slice. destruct (counters_for_ret _ _ Ho) as (v & -> & Hv & Hl).
  assert (length (row_vals r) = sl_len v) by (unfold row_vals; rewrite length_map; congruence).
  split; [apply sl_write_ok; [done|lia]|]. split; [done|by apply sl_write_data].
Qed.

(** Slices that can take the counters of the current columns. *)
Definition slices_ok (num : nat) (m : gmap bytes slice) : Prop :=
  map_Forall (fun _ v => sl_ok v /\ ~ regrow num v) m.

Lemma softirqs_scan_rows scan num n rows s :
  2 <= n -> 0 < num -> NumCounters s = num -> slices_ok num (Counters s) -> Forall (row_ok num) rows ->
  scan_lines (parse_line scan) n (concat (map row_out rows)) s =
  Ret (foldl (fun s r => row_upd scan r s) s rows, None).
Proof.
  intros Hn Hpos Hs Hsl Hrows.
  apply (scan_lines_rows (parse_line scan) row_out (row_upd scan) (row_ok num)
    (fun s => NumCounters s = num /\ slices_ok num (Counters s)) 2); [| |done|done|done].
  - intros r _ H. apply (f_equal length) in H. unfold row_out in H. rewrite !length_app in H. simpl in H. lia.
  - intros n' r rest s' Hn' Hr [<- Hsl']. unfold parse_line. rewrite (proj2 (Nat.eqb_neq _ _)) by lia.
    split; [by apply irq_line_row; [| |intros; eapply Hsl']|]. split; [done|].
    apply map_Forall_insert_2; [|done].
    destruct (row_slice_spec (NumCounters s') (Counters s' !! r_irq r) r) as (H1 & H2 & _).
    { apply Hr. } { intros; by eapply Hsl'. }
    split; [done|]. unfold regrow. lia.
Qed.

(** All the rows of a file, in terms of the state before. *)
Lemma softirqs_upd_fold (scan : Z) (num : nat) (m0 : gmap bytes slice) (rows : list row) : forall s,
  NumCounters s = num -> NoDup (map r_irq rows) ->
  (forall r, r ∈ rows -> Counters s !! r_irq r = m0 !! r_irq r) ->
  foldl (fun s r => row_upd scan r s) s rows =
  set_counters (insert_all r_irq (fun r => row_slice num (m0 !! r_irq r) r) rows (Counters s))
    (insert_all r_irq (fun _ => scan) rows (irqScanNum s)) s.
Proof.
  induction rows as [|r rows IH]; intros s Hn Hnd Hm; [by destruct s|].
  cbn [foldl map] in *. apply NoDup_cons in Hnd as [Hr Hnd].
  rewrite IH; [|done|done|].
  - unfold row_upd, set_counters. cbn. rewrite Hn, (Hm r) by set_solver. done.
  - intros r' Hr'. cbn. rewrite lookup_insert_ne; [apply Hm; set_solver|].
    intros E. apply Hr. rewrite E. apply list_elem_of_fmap. by exists r'.
Qed.

(** Between successful parses: slices within their capacity, every interrupt
    of the scan numbers has the current one, and the mapping of the columns
    belongs to the cached heading. *)
Record wf (s : Softirqs) : Prop := mkWf {
  wf_slices : map_Forall (fun _ => sl_ok) (Counters s);
  wf_scan : map_Forall (fun _ n => n = scanNum s) (irqScanNum s);
  wf_hdr : hdr_coherent (cpuHeaderLine s) (CpuList s) (NumCounters s);
  wf_range : (MinInt64 <= scanNum s <= MaxInt64)%Z
}.

(** The first line, from any coherent state. *)
Lemma header_line_ok s ts trail rest :
  hdr_coherent (cpuHeaderLine s) (CpuList s) (NumCounters s) -> hdr_ok ts trail ->
  exists s', header_line 1 (hdr ts trail ++ [NL] ++ rest) s = (s', inr rest) /\
    (Counters s' = Counters s /\ irqScanNum s' = irqScanNum s /\ scanNum s' = scanNum s) /\
    NumCounters s' = length ts /\
    hdr_coherent (cpuHeaderLine s') (CpuList s') (NumCounters s') /\
    (forall i, cpu_of (CpuList s') (length ts) i = cpus ts !! i) /\
    (CpuListChanged s' = true <-> hdr ts trail <> cpuHeaderLine s).
Proof.
  intros [Hnl Hco] Hh. pose proof (hdr_no_nl _ _ Hh) as Hnl'.
  destruct (update_cpu_list_hdr ts trail Hh) as (cl & Hcl & Hof).
  unfold header_line. rewrite check_header_line by (done || by left).
  case_decide as E.
  - rewrite E in Hco. rewrite Hcl in Hco. injection Hco as Hn Hc.
    eexists. split; [reflexivity|]. destruct s; simpl in *. subst. split_and!; done.
  - unfold updateCounterIndexToCpuNumMap. rewrite Hcl. eexists. split; [reflexivity|].
    destruct s; simpl in *. split_and!; done.
Qed.

(** The counters that are left after the scan of the rows and the pruning. *)
Lemma softirqs_prune_data (scan : Z) (num : nat) (m0 : gmap bytes slice) (n0 : gmap bytes Z) (rows : list row) (s : Softirqs) :
  NoDup (map r_irq rows) -> Forall (row_ok num) rows -> slices_ok num m0 ->
  map_Forall (fun _ n => n <> scan) n0 ->
  (forall irq, is_Some (m0 !! irq) -> n0 !! irq = None -> irq ∈ map r_irq rows) ->
  let s' := prune scan (set_counters (insert_all r_irq (fun r => row_slice num (m0 !! r_irq r) r) rows m0)
                                     (insert_all r_irq (fun _ => scan) rows n0) s) in
  sl_data <$> Counters s' = list_to_map (map (fun r => (r_irq r, row_vals r)) rows) /\
  map_Forall (fun _ => sl_ok) (Counters s') /\
  map_Forall (fun _ n => n = scan) (irqScanNum s') /\
  dom (irqScanNum s') = dom (Counters s').
Proof.
  intros Hnd Hok Hsl Hn0 Htr. set (M := insert_all r_irq _ rows m0). set (N := insert_all r_irq _ rows n0).
  assert (forall r, r ∈ rows -> M !! r_irq r = Some (row_slice num (m0 !! r_irq r) r) /\ N !! r_irq r = Some scan) as Hin.
  { intros r Hr. split; [by apply (insert_all_in r_irq (fun r => row_slice num (m0 !! r_irq r) r))|].
    by apply (insert_all_in r_irq (fun _ => scan)). }
  assert (forall k, k ∉ map r_irq rows -> M !! k = m0 !! k /\ N !! k = n0 !! k) as Hout.
  { intros k Hk. split; by apply insert_all_notin. }
  assert (forall r, r ∈ rows -> sl_ok (row_slice num (m0 !! r_irq r) r) /\
            sl_data (row_slice num (m0 !! r_irq r) r) = row_vals r) as Hrow.
  { intros r Hr. rewrite Forall_forall in Hok.
    destruct (row_slice_spec num (m0 !! r_irq r) r) as (H1 & _ & H3); [by apply Hok|intros; by eapply Hsl|done]. }
  assert (forall k v, Counters (prune scan (set_counters M N s)) !! k = Some v <->
            exists r, r ∈ rows /\ k = r_irq r /\ v = row_slice num (m0 !! r_irq r) r) as HC.
  { intros k v. cbn. rewrite map_lookup_filter_Some. cbn. split.
    - intros [Hk Hd]. destruct (decide (k ∈ map r_irq rows)) as [Hkr|Hkr].
      + apply list_elem_of_fmap in Hkr as (r & -> & Hr). exists r. destruct (Hin r Hr) as [HM _].
        rewrite HM in Hk. by injection Hk as <-.
      + exfalso. destruct (Hout k Hkr) as [HM HN]. rewrite HM in Hk. rewrite HN in Hd.
        destruct (n0 !! k) as [z|] eqn:Ez; [by apply (Hn0 k z)|]. by apply Hkr, Htr; [eauto|].
    - intros (r & Hr & -> & ->). destruct (Hin r Hr) as [-> ->]. done. }
  split_and!.
  - apply map_eq. intros k. apply option_eq. intros x. rewrite lookup_fmap, fmap_Some.
    rewrite <- elem_of_list_to_map.
    2:{ replace ((map (fun r => (r_irq r, row_vals r)) rows).*1) with (map r_irq rows); [done|].
        clear. by induction rows; f_equal/=. }
    rewrite list_elem_of_fmap. split.
    + intros (v & Hv & ->). apply HC in Hv as (r & Hr & -> & ->). exists r. split; [|done]. f_equal. by apply Hrow.
    + intros (r & [= -> ->] & Hr). eexists. rewrite HC. split; [by exists r|]. symmetry. by apply Hrow.
  - intros k v Hv. apply HC in Hv as (r & Hr & -> & ->). by apply Hrow.
  - intros k z [_ Hz]%map_lookup_filter_Some. done.
  - apply set_eq. intros k. rewrite !elem_of_dom. split.
    + intros [z [Hz Hz2]%map_lookup_filter_Some]. simpl in Hz2. subst z. cbn in Hz.
      destruct (decide (k ∈ map r_irq rows)) as [Hkr|Hkr].
      * apply list_elem_of_fmap in Hkr as (r & -> & Hr). eexists. apply HC. by exists r.
      * exfalso. destruct (Hout k Hkr) as [_ HN]. rewrite HN in Hz. by apply (Hn0 k scan).
    + intros [v Hv]. apply HC in Hv as (r & Hr & -> & ->). exists scan. apply map_lookup_filter_Some.
      split; [|done]. by apply Hin.
Qed.

(** a file with a heading of CPUs and lines of counters is parsed, from any
    state between parses, to exactly its interrupts with their counters modulo
    2^64, the columns mapped to the CPUs that the heading shows; interrupts
    that are gone are dropped, and the change flag tells whether the heading
    differs from the one of the scan before. *)
Theorem softirqs_parse_file s ts trail rows :
  wf s -> hdr_ok ts trail -> Forall (row_ok (length ts)) rows -> NoDup (map r_irq rows) ->
  map_Forall (fun _ v => ~ regrow (length ts) v) (Counters s) ->
  (forall irq, is_Some (Counters s !! irq) -> irqScanNum s !! irq = None -> irq ∈ map r_irq rows) ->
  exists s', Parse (ReadOk (hdr ts trail ++ [NL] ++ concat (map row_out rows))) s = Ret (s', None) /\
    sl_data <$> Counters s' = list_to_map (map (fun r => (r_irq r, row_vals r)) rows) /\
    NumCounters s' = length ts /\
    (forall i, cpu_of (CpuList s') (length ts) i = cpus ts !! i) /\
    (CpuListChanged s' = true <-> hdr ts trail <> cpuHeaderLine s) /\
    wf s' /\ dom (irqScanNum s') = dom (Counters s').
Proof.
  intros [Hsl Hsc Hco Hrg] Hh Hrows Hnd Hreg Htr. unfold Parse. set (scan := i64 (scanNum s + 1)).
  destruct (header_line_ok s ts trail (concat (map row_out rows)) Hco Hh)
    as (s1 & Hl & (Hc1 & Hi1 & Hs1) & Hn1 & Hco1 & Hof1 & Hch1).
  assert (0 < length ts) as Hpos by (destruct Hh as [Hne _]; destruct ts; [done|simpl; lia]).
  assert (slices_ok (length ts) (Counters s)) as Hsl' by (intros k v Hk; split; [by apply (Hsl k)|by apply (Hreg k)]).
  erewrite (scan_lines_step _ 1 _ (concat (map row_out rows)) s s1); [| | | |].
  2:{ unfold hdr. destruct (wrender ts ++ trail); done. }
  2:{ unfold parse_line. by rewrite Hl. }
  2:{ rewrite !length_app. simpl. lia. }
  2:{ apply (softirqs_scan_rows scan (length ts)); [lia|done|done|by rewrite Hc1|done]. }
  rewrite bind_ret, (softirqs_upd_fold scan (length ts) (Counters s)); [|done|done|by rewrite Hc1].
  destruct (softirqs_prune_data scan (length ts) (Counters s) (irqScanNum s) rows s1) as (H1 & H2 & H3 & H4); [done..| |done|].
  { intros k n Hk. rewrite (Hsc k n Hk). symmetry. by apply i64_succ_ne. }
  rewrite Hc1, Hi1. eexists. split; [reflexivity|]. split_and!; [done|done|done|done| |done].
  split; [done|done|done|apply i64_range].
Qed.

Definition sample_hdr (names : list string) : list wtoken := map (fun n => (bs "    ", bs n)) names.
Definition sample_row (irq : string) (vals : list string) : row :=
  Row (bs "     ") (bs irq) (map (fun v => (bs "   ", bs v)) vals) [].

Lemma sample_hdr_ok : hdr_ok (sample_hdr ["CPU0"; "CPU2"]) [].
Proof.
  split; [done|]. split; [|split; [|constructor]].
  - repeat constructor; done.
  - repeat (apply Forall_cons; split; [split; [split; [done|by apply Forall_forallb]|
      split; [simpl; lia|by apply Forall_forallb]]|]). constructor.
Qed.

Lemma sample_row_ok2 : row_ok 2 (sample_row "TIMER" ["12"; "18446744073709551617"]).
Proof. split; [by repeat constructor|split; [by repeat constructor|done]|split; by repeat constructor|done|constructor]. Qed.

Lemma softirqs_parse_file_witness :
  exists s', Parse (ReadOk (hdr (sample_hdr ["CPU0"; "CPU2"]) [] ++ [NL] ++
               concat (map row_out [sample_row "TIMER" ["12"; "18446744073709551617"]])))
               (NewSoftirqs (bs "/proc/softirqs")) = Ret (s', None) /\
    sl_data <$> (Counters s' !! bs "TIMER") = Some [12; 1]%Z /\
    cpu_of (CpuList s') 2 1 = Some 2%Z /\ CpuListChanged s' = true.
Proof.
  destruct (softirqs_parse_file (NewSoftirqs (bs "/proc/softirqs")) (sample_hdr ["CPU0"; "CPU2"]) []
    [sample_row "TIMER" ["12"; "18446744073709551617"]]) as (s' & Hp & Hd & _ & Hc & Hch & _).
  - split; [apply map_Forall_empty|apply map_Forall_empty|apply hdr_coherent_new|vm_compute; split; discriminate].
  - apply sample_hdr_ok.
  - constructor; [apply sample_row_ok2|constructor].
  - apply NoDup_singleton.
  - apply map_Forall_empty.
  - intros irq [v Hv]. cbn in Hv. by rewrite lookup_empty in Hv.
  - exists s'. split; [exact Hp|]. rewrite <- lookup_fmap, Hd. split; [vm_compute; reflexivity|].
    split; [exact (Hc 1)|]. apply Hch. vm_compute. discriminate.
Defined.

(** When the number of columns goes down and then up again within the capacity
    of the slices, they are not extended, and the parser panics with an index
    out of range. *)
Definition softirqs_file (cpus : list string) (vals : list string) : bytes :=
  hdr (sample_hdr cpus) [] ++ [NL] ++ row_out (sample_row "TIMER" vals).

Example softirqs_regrow_panics :
  ('(s, _) ← Parse (ReadOk (softirqs_file ["CPU0"; "CPU1"] ["1"; "2"])) (NewSoftirqs (bs "/proc/softirqs"));
   '(s, _) ← Parse (ReadOk (softirqs_file ["CPU0"] ["3"])) s;
   Parse (ReadOk (softirqs_file ["CPU0"; "CPU1"] ["5"; "6"])) s) = Panic.
Proof. vm_compute. reflexivity. Qed.
End Softirqs.
