(* ===== verification/Interrupts.v ===== *)
(** Parser for /proc/interrupts (src/procfs/interrupts_parser.go): counters per
    interrupt and column, the description of the numbered interrupts with its
    cache, pruning.  The description, the scan number and the cached heading
    are in an object that a parser shares with its clones: it is passed and
    returned apart from the parser. *)

From Stdlib Require Import ZArith Lia.
From stdpp Require Import base tactics numbers strings gmap list.
From S2P Require Import Prelude Scan GoLib CpuHeader.

Module Interrupts.
Import CpuHeader.

Record InterruptsIrqInfo := mkIrqInfo {
  Controller : bytes;
  HWInterrupt : bytes;
  Devices : bytes;
  Changed : bool;
  infoLine : bytes;
  irq_scanNum : Z
}.

Record InterruptsInfo := mkInfo {
  IrqInfo : gmap bytes InterruptsIrqInfo;
  IrqChanged : bool;
  CpuListChanged : bool;
  scanNum : Z;
  cpuHeaderLine : bytes
}.

(** Without the pointer [Info]. *)
Record Interrupts := mkInterrupts {
  CpuList : option (list Z);
  Counters : gmap bytes slice;
  NumCounters : nat;
  path : bytes
}.

Inductive error :=
| ErrRead
| ErrCpuSpec (lineNum : nat) (line cpu : bytes)
| ErrMissingIrq (lineNum : nat) (line : bytes)
| ErrInvalidDigit (lineNum : nat) (line : bytes) (c : byte)
| ErrMissing (lineNum : nat) (line : bytes) (want got : nat).

Definition irqWithFewerCpuCount (irq : bytes) : bool :=
  bool_decide (irq = bs "ERR") || bool_decide (irq = bs "MIS").

Definition NewInterruptsInfo : InterruptsInfo := mkInfo ∅ false false 0 [].
Definition NewInterrupts (path : bytes) : Interrupts := mkInterrupts None ∅ 0 path.

(** The clone shares the information object. *)
Definition Clone (full : bool) (i : Interrupts) : Interrupts :=
  mkInterrupts (CpuList i) ((fun v => if full then sl_copy v else sl_make (sl_len v)) <$> Counters i)
    (NumCounters i) (path i).

Definition updateCpuList (line : bytes) (info : InterruptsInfo) (i : Interrupts)
    : InterruptsInfo * Interrupts * option bytes :=
  match update_cpu_list line with
  | (n, inl cpu) => (info, mkInterrupts (CpuList i) (Counters i) n (path i), Some cpu)
  | (n, inr cl) =>
    (mkInfo (IrqInfo info) (IrqChanged info) (CpuListChanged info) (scanNum info) line,
     mkInterrupts cl (Counters i) n (path i), None)
  end.

(** [update]: controller, hardware interrupt (number, one separator, type) and
    the devices without trailing white space. *)
Definition not_ws (c : byte) : bool := negb (isWhitespace c).
Definition strip_right (s : bytes) : bytes := rev (skip isWhitespace (rev s)).
Definition update (line : bytes) (r : InterruptsIrqInfo) : InterruptsIrqInfo :=
  let '(controller, s) := span not_ws (skip isWhitespace line) in
  let '(num, s) := span is_digit (skip isWhitespace s) in
  let '(ty, s') := span not_ws (drop 1 s) in
  mkIrqInfo controller (num ++ take 1 s ++ ty) (strip_right (skip isWhitespace s'))
    (Changed r) line (irq_scanNum r).

(** The first line. *)
Definition header_line (lineNum : nat) (b : bytes) (info : InterruptsInfo) (i : Interrupts)
    : InterruptsInfo * Interrupts * (error + bytes) :=
  match check_header (cpuHeaderLine info) b with
  | (None, rest) => (info, i, inr (tail rest))
  | (Some line, rest) =>
    match updateCpuList line info i with
    | (info, i, Some cpu) => (info, i, inl (ErrCpuSpec lineNum (current_line b) cpu))
    | (info, i, None) =>
      (mkInfo (IrqInfo info) (IrqChanged info) true (scanNum info) (cpuHeaderLine info), i, inr (tail rest))
    end
  end.

(** The name of an interrupt up to the colon and whether it is a number.  The
    byte that shows that it is not a number is not tested for a new line. *)
Fixpoint irq_name (irqIsNum : bool) (s : bytes) : option (bytes * bool * bytes) :=
  match s with
  | [] => None
  | c :: t =>
    if beq c COLON then Some ([], irqIsNum, t)
    else if irqIsNum && negb (is_digit c) then (fun '(n, b, r) => (c :: n, b, r)) <$> irq_name false t
    else if beq c NL then None
    else (fun '(n, b, r) => (c :: n, b, r)) <$> irq_name irqIsNum t
  end.

Definition counters_for (num : nat) (o : option slice) : outcome slice :=
  match o with
  | None => Ret (sl_make num)
  | Some v => if sl_cap v <? num then Ret (sl_make num)
              else if negb (sl_len v =? num) then sl_reslice v num
              else Ret v
  end.

(** The description of a numbered interrupt, from the cursor after the
    counters: slicing up to the byte before the cursor panics when the line has
    already ended. *)
Definition info_line (eol : bool) (s : bytes) : outcome (bytes * bool * bytes) :=
  let s := skip isWhitespace s in
  if eol then Panic
  else
    let '(eol', rest) := to_eol false s in
    Ret (take (length s - length rest - (if eol' then 1 else 0)) s, eol', rest).

Definition newIrqInfo : InterruptsIrqInfo := mkIrqInfo [] [] [] false [] 0.

(** The comparison with the cached description. *)
Definition set_info (line : bytes) (r : InterruptsIrqInfo) : InterruptsIrqInfo :=
  let changed := negb (bool_decide (infoLine r = line)) in
  let r := mkIrqInfo (Controller r) (HWInterrupt r) (Devices r) changed (infoLine r) (irq_scanNum r) in
  if changed then update line r else r.

Section Parse.
Context (unicode_upper : bytes -> bytes).

(** An interrupt line. *)
Definition irq_line (scan : Z) (lineNum : nat) (b : bytes) (st : InterruptsInfo * Interrupts)
    : outcome (InterruptsInfo * Interrupts * (error + bytes)) :=
  let '(info, i) := st in
  let lineStart := b in
  match irq_name true (skip isWhitespace b) with
  | None => Ret (info, i, inl (ErrMissingIrq lineNum (current_line lineStart)))
  | Some (name, irqIsNum, b) =>
    let irq := ToUpper unicode_upper name in
    v ← counters_for (NumCounters i) (Counters i !! irq);
    '(Fields counterIndex eol b, v, bad) ←
      scan_fields 64 (NumCounters i) (fun i z v => sl_store v i z) 0 false b v;
    let i := mkInterrupts (CpuList i) (<[irq := v]> (Counters i)) (NumCounters i) (path i) in
    match bad with
    | Some c => Ret (info, i, inl (ErrInvalidDigit lineNum (current_line lineStart) c))
    | None =>
      if (counterIndex <? NumCounters i) && negb (irqWithFewerCpuCount irq)
      then Ret (info, i, inl (ErrMissing lineNum (current_line lineStart) (NumCounters i) counterIndex))
      else
        let irqInfo := default newIrqInfo (IrqInfo info !! irq) in
        '(irqInfo, eol, b) ←
          (if irqIsNum then '(line, eol, b) ← info_line eol b; Ret (set_info line irqInfo, eol, b)
           else Ret (irqInfo, eol, b));
        let '(_, b) := to_eol eol b in
        let irqInfo := mkIrqInfo (Controller irqInfo) (HWInterrupt irqInfo) (Devices irqInfo)
                         (Changed irqInfo) (infoLine irqInfo) scan in
        Ret (mkInfo (<[irq := irqInfo]> (IrqInfo info)) (IrqChanged info || (irqIsNum && Changed irqInfo))
               (CpuListChanged info) (scanNum info) (cpuHeaderLine info), i, inr b)
    end
  end.

Definition parse_line (scan : Z) (lineNum : nat) (b : bytes) (st : InterruptsInfo * Interrupts)
    : outcome (InterruptsInfo * Interrupts * (error + bytes)) :=
  if lineNum =? 1 then Ret (header_line lineNum b st.1 st.2) else irq_line scan lineNum b st.

(** Interrupts that were not found are dropped, here and in the shared
    information. *)
Definition prune (scan : Z) (info : InterruptsInfo) (i : Interrupts) : InterruptsInfo * Interrupts :=
  (mkInfo (filter (fun kv => irq_scanNum kv.2 = scan) (IrqInfo info))
     (IrqChanged info || negb (bool_decide (map_Forall (fun _ r => irq_scanNum r = scan) (IrqInfo info))))
     (CpuListChanged info) scan (cpuHeaderLine info),
   mkInterrupts (CpuList i)
     (filter (fun kv => default scan (irq_scanNum <$> IrqInfo info !! kv.1) = scan) (Counters i))
     (NumCounters i) (path i)).

Definition Parse (rd : read_result) (info : InterruptsInfo) (i : Interrupts)
    : outcome (InterruptsInfo * Interrupts * option error) :=
  match rd with
  | ReadErr | ReadTrunc _ => Ret (info, i, Some ErrRead)
  | ReadOk buf =>
    let info := mkInfo (IrqInfo info) false false (scanNum info) (cpuHeaderLine info) in
    let scan := i64 (scanNum info + 1) in
    '(info, i, err) ← scan_lines (parse_line scan) 1 buf (info, i);
    match err with
    | Some e => Ret (info, i, Some e)
    | None => let '(info, i) := prune scan info i in Ret (info, i, None)
    end
  end.
(** ** A well-formed file *)

(** Padding, name, counters, white space and the description. *)
Record row := Row { r_pad : bytes; r_irq : bytes; r_toks : list token; r_sep : bytes; r_desc : bytes }.
Definition numeric (r : row) : bool := forallb is_digit (r_irq r).
Definition key (r : row) : bytes := ToUpper unicode_upper (r_irq r).
Definition irq_char (c : byte) : bool := negb (beq c COLON) && negb (beq c NL).

(** ERR and MIS may have fewer counters, followed by nothing. *)
Record row_ok (num : nat) (r : row) : Prop := mkRowOk {
  ro_pad : is_ws (r_pad r);
  ro_irq : Forall (fun c => irq_char c = true) (r_irq r) /\ stops isWhitespace (r_irq r);
  ro_toks : r_toks r <> [] /\ Forall tok_ok (r_toks r) /\ Forall tok_sep (tail (r_toks r));
  ro_num : length (r_toks r) = num \/
           irqWithFewerCpuCount (key r) = true /\ length (r_toks r) <= num /\ r_sep r = [] /\ numeric r = false;
  ro_sep : is_ws (r_sep r) /\ (r_sep r = [] -> r_desc r = [] /\ numeric r = false);
  ro_desc : no_nl (r_desc r) /\ stops isWhitespace (r_desc r)
}.
Definition row_out (r : row) : bytes :=
  r_pad r ++ r_irq r ++ [COLON] ++ render (r_toks r) ++ r_sep r ++ r_desc r ++ [NL].
Definition row_vals (r : row) : list Z := map (tok_val 64) (r_toks r).

Lemma irq_char_spec c : irq_char c = true -> beq c COLON = false /\ beq c NL = false.
Proof. unfold irq_char. by intros [?%negb_true_iff ?%negb_true_iff]%andb_true_iff. Qed.

Lemma irq_name_app b name s : Forall (fun c => irq_char c = true) name ->
  irq_name b (name ++ COLON :: s) = Some (name, b && forallb is_digit name, s).
Proof.
  intros H. revert b. induction H as [|c name Hc _ IH]; intros b; cbn [app irq_name forallb].
  - by rewrite beq_refl, andb_true_r.
  - apply irq_char_spec in Hc as [-> ->]. rewrite !IH. destruct b, (is_digit c); done.
Qed.

Lemma irq_counters_for_ret num o :
  (forall v, o = Some v -> sl_ok v) ->
  exists v, counters_for num o = Ret v /\ sl_ok v /\ sl_len v = num.
Proof.
  intros Ho. unfold counters_for. destruct o as [v|]; [|eauto using sl_make_ok].
  specialize (Ho v eq_refl).
  destruct (sl_cap v <? num) eqn:E1; [eauto using sl_make_ok|]. apply Nat.ltb_ge in E1.
  destruct (sl_len v =? num) eqn:E2; simpl.
  - apply Nat.eqb_eq in E2. eauto.
  - rewrite sl_reslice_Ret by done. eexists. split; [done|]. by split.
Qed.

(** The description is the rest of the line. *)
Lemma info_line_desc ws desc rest : is_ws ws -> no_nl desc -> stops isWhitespace desc ->
  info_line false (ws ++ desc ++ NL :: rest) = Ret (desc, true, rest).
Proof.
  intros Hws Hnl Hst. unfold info_line.
  rewrite skip_app; [|done|destruct desc; [done|by simpl in *]].
  rewrite to_eol_run by (eapply Forall_impl; [done|]; simpl; intros c Hc; by apply negb_true_iff).
  rewrite length_app. simpl. replace (length desc + S (length rest) - length rest - 1) with (length desc) by lia.
  by rewrite take_app_length.
Qed.

(** What a row leaves. *)
Definition row_slice (num : nat) (o : option slice) (r : row) : slice :=
  match counters_for num o with Ret v => sl_write v (row_vals r) | _ => sl_make num end.
Definition row_info (scan : Z) (o : option InterruptsIrqInfo) (r : row) : InterruptsIrqInfo :=
  let old := default newIrqInfo o in
  let i := if numeric r then set_info (r_desc r) old else old in
  mkIrqInfo (Controller i) (HWInterrupt i) (Devices i) (Changed i) (infoLine i) scan.
Definition row_upd (scan : Z) (r : row) (st : InterruptsInfo * Interrupts) : InterruptsInfo * Interrupts :=
  let '(info, i) := st in
  let ri := row_info scan (IrqInfo info !! key r) r in
  (mkInfo (<[key r := ri]> (IrqInfo info)) (IrqChanged info || (numeric r && Changed ri))
     (CpuListChanged info) (scanNum info) (cpuHeaderLine info),
   mkInterrupts (CpuList i) (<[key r := row_slice (NumCounters i) (Counters i !! key r) r]> (Counters i))
     (NumCounters i) (path i)).

Lemma interrupts_line_row scan n r rest info i :
  row_ok (NumCounters i) r -> (forall v, Counters i !! key r = Some v -> sl_ok v) ->
  irq_line scan n (row_out r ++ rest) (info, i) = Ret (row_upd scan r (info, i), inr rest).
Proof.
  intros [Hp [Hi Hst] (Hne & Htok & Hsep) Hnum [Hws Hws0] [Hnl Hsd]] Hv.
  unfold irq_line, row_out. rewrite <- !app_assoc. cbn [app].
  set (t := r_sep r ++ r_desc r ++ NL :: rest).
  rewrite skip_app; [|done|destruct (r_irq r); [done|by simpl in *]].
  rewrite irq_name_app by done. cbn [andb]. fold (key r). fold (numeric r).
  destruct (irq_counters_for_ret (NumCounters i) _ Hv) as (v & Hc & Hok & Hlen).
  unfold row_upd, row_slice. rewrite Hc, bind_ret.
  assert (sep_tail t) as Ht.
  { unfold t. destruct Hws as [|c ws Hc' _]; simpl; unfold is_sep; [by rewrite (proj1 (Hws0 eq_refl))|]. by rewrite Hc', orb_true_r. }
  assert (length (row_vals r) = length (r_toks r)) as Hl by apply length_map.
  assert (length (r_toks r) <= NumCounters i) as Hle by (destruct Hnum as [->|(_ & ? & _)]; [done|lia]).
  assert (length (r_toks r) = NumCounters i \/ tail_eol t = true \/ tail t = []) as Hend.
  { destruct Hnum as [?|(_ & _ & Hs & _)]; [by left|]. right. left. unfold t. rewrite Hs, (proj1 (Hws0 Hs)). done. }
  unfold scan_fields.
  rewrite (fields_run _ _ _ _ 0 (r_toks r) t v (sl_write v (row_vals r)));
    [|lia|done|done|done|done|lia|done| |lia].
  2:{ fold (row_vals r). rewrite put_list_slice by (done || lia). done. }
  rewrite bind_ret. cbn [Nat.add NumCounters].
  assert (((length (r_toks r) <? NumCounters i) && negb (irqWithFewerCpuCount (key r))) = false) as ->.
  { destruct Hnum as [->|(-> & _)]; [by rewrite Nat.ltb_irrefl|by rewrite andb_false_r]. }
  unfold row_info. destruct (numeric r) eqn:En.
  - destruct Hws as [|c ws Hc' Hws]; [by destruct (Hws0 eq_refl)|].
    unfold t. cbn [tail_eol tail app]. rewrite ws_not_nl, info_line_desc by done. rewrite !bind_ret, to_eol_done. done.
  - rewrite bind_ret.
    assert (exists e, to_eol (tail_eol t) (tail t) = (e, rest)) as [e ->]; [|done].
    unfold t. destruct Hws as [|c ws Hc' Hws]; cbn [tail_eol tail app].
    + rewrite (proj1 (Hws0 eq_refl)). cbn [tail_eol tail app]. rewrite beq_refl, to_eol_done. by eexists.
    + rewrite ws_not_nl by done. rewrite app_assoc, to_eol_run; [by eexists|].
      apply Forall_app. split; [eapply Forall_impl; [done|]; intros; by apply ws_not_nl|].
      eapply Forall_impl; [done|]. simpl. intros. by apply negb_true_iff.
Qed.

Lemma irq_slice_spec num o r :
  length (r_toks r) <= num -> (forall v, o = Some v -> sl_ok v) ->
  sl_ok (row_slice num o r) /\ length (sl_data (row_slice num o r)) = num /\
  take (length (row_vals r)) (sl_data (row_slice num o r)) = row_vals r.
Proof.
  intros Hn Ho. unfold row_slice. destruct (irq_counters_for_ret num _ Ho) as (v & -> & Hv & Hl).
  assert (length (row_vals r) <= sl_len v) by (unfold row_vals; rewrite length_map; lia).
  assert (sl_ok (sl_write v (row_vals r))) as Hw by (apply sl_write_ok; done).
  split; [done|]. split; [by rewrite sl_data_length|].
  unfold sl_data, sl_write. simpl. rewrite take_take, Nat.min_l by done. by rewrite take_app_length.
Qed.

Definition slices_ok (m : gmap bytes slice) : Prop := map_Forall (fun _ => sl_ok) m.

Lemma row_ok_length num r : row_ok num r -> length (r_toks r) <= num.
Proof. intros [_ _ _ [->|(_ & ? & _)] _ _]; [done|lia]. Qed.

Lemma interrupts_scan_rows (scan : Z) (num n : nat) (rows : list row) (st : InterruptsInfo * Interrupts) :
  2 <= n -> NumCounters st.2 = num -> slices_ok (Counters st.2) -> Forall (row_ok num) rows ->
  scan_lines (parse_line scan) n (concat (map row_out rows)) st =
  Ret (foldl (fun st r => row_upd scan r st) st rows, None).
Proof.
  intros Hn Hs Hsl Hrows.
  apply (scan_lines_rows (parse_line scan) row_out (row_upd scan) (row_ok num)
    (fun st => NumCounters st.2 = num /\ slices_ok (Counters st.2)) 2); [| |done|done|done].
  - intros r _ H. apply (f_equal length) in H. unfold row_out in H. rewrite !length_app in H. simpl in H. lia.
  - intros n' r rest [info i] Hn' Hr [<- Hsl']. unfold parse_line. rewrite (proj2 (Nat.eqb_neq _ _)) by lia.
    split; [by apply interrupts_line_row; [|intros; eapply Hsl']|]. split; [done|].
    apply map_Forall_insert_2; [|done].
    apply irq_slice_spec; [by apply row_ok_length|intros; by eapply Hsl'].
Qed.

(** The description of a numbered interrupt differs from the one before. *)
Definition row_changed (m : gmap bytes InterruptsIrqInfo) (r : row) : bool :=
  numeric r && negb (bool_decide (infoLine (default newIrqInfo (m !! key r)) = r_desc r)).

Lemma row_changed_info (scan : Z) (m : gmap bytes InterruptsIrqInfo) r :
  numeric r && Changed (row_info scan (m !! key r) r) = row_changed m r.
Proof.
  unfold row_changed, row_info. destruct (numeric r); [|done]. simpl. unfold set_info.
  case_bool_decide; simpl; [done|]. unfold update. by repeat destruct (span _ _).
Qed.

Lemma interrupts_upd_fold (scan : Z) (num : nat) (m0 : gmap bytes InterruptsIrqInfo) (c0 : gmap bytes slice)
    (rows : list row) : forall info i,
  NumCounters i = num -> NoDup (map key rows) ->
  (forall r, r ∈ rows -> IrqInfo info !! key r = m0 !! key r /\ Counters i !! key r = c0 !! key r) ->
  foldl (fun st r => row_upd scan r st) (info, i) rows =
  (mkInfo (insert_all key (fun r => row_info scan (m0 !! key r) r) rows (IrqInfo info))
     (IrqChanged info || existsb (row_changed m0) rows) (CpuListChanged info) (scanNum info) (cpuHeaderLine info),
   mkInterrupts (CpuList i) (insert_all key (fun r => row_slice num (c0 !! key r) r) rows (Counters i))
     (NumCounters i) (path i)).
Proof.
  induction rows as [|r rows IH]; intros info i Hn Hnd Hm.
  { cbn [foldl existsb]. rewrite orb_false_r. by destruct info, i. }
  cbn [map] in *. apply NoDup_cons in Hnd as [Hr Hnd]. destruct (Hm r ltac:(set_solver)) as [Hm1 Hm2].
  change (foldl (fun st r => row_upd scan r st) (info, i) (r :: rows))
    with (foldl (fun st r => row_upd scan r st) (row_upd scan r (info, i)) rows).
  unfold row_upd at 2. rewrite IH; [|done|done|].
  - cbn [IrqInfo IrqChanged CpuListChanged scanNum cpuHeaderLine CpuList Counters NumCounters path].
    rewrite Hm1, Hm2, Hn, row_changed_info, <- orb_assoc. done.
  - intros r' Hr'. cbn [IrqInfo Counters]. assert (key r <> key r') as Hne.
    { intros E. apply Hr. rewrite E. apply list_elem_of_fmap. by exists r'. }
    rewrite !lookup_insert_ne by done. apply Hm. set_solver.
Qed.

(** Controller, hardware interrupt and devices of a description. *)
Definition describe (line : bytes) : bytes * bytes * bytes :=
  let r := update line newIrqInfo in (Controller r, HWInterrupt r, Devices r).
Definition info_coherent (r : InterruptsIrqInfo) : Prop :=
  (Controller r, HWInterrupt r, Devices r) = describe (infoLine r).

Lemma update_describe line r :
  (Controller (update line r), HWInterrupt (update line r), Devices (update line r)) = describe line /\
  infoLine (update line r) = line /\ Changed (update line r) = Changed r.
Proof. unfold describe, update. by repeat destruct (span _ _). Qed.

Lemma row_info_coherent scan o r :
  (forall i, o = Some i -> info_coherent i) ->
  info_coherent (row_info scan o r) /\
  (numeric r = true -> (Controller (row_info scan o r), HWInterrupt (row_info scan o r), Devices (row_info scan o r)) =
                       describe (r_desc r) /\ infoLine (row_info scan o r) = r_desc r).
Proof.
  intros Ho. assert (info_coherent (default newIrqInfo o)) as Hd by (destruct o; [by apply Ho|done]).
  unfold row_info, info_coherent. destruct (numeric r); [|done]. cbn [Controller HWInterrupt Devices infoLine].
  unfold set_info. case_bool_decide as E; simpl.
  - split; [done|]. intros _. split; [|done]. rewrite <- E. exact Hd.
  - set (x := mkIrqInfo _ _ _ _ _ _). destruct (update_describe (r_desc r) x) as (H1 & H2 & _).
    rewrite H2. done.
Qed.

(** The state between successful parses of one object. *)
Record wf (info : InterruptsInfo) (i : Interrupts) : Prop := mkWf {
  wf_slices : slices_ok (Counters i);
  wf_info : map_Forall (fun _ r => irq_scanNum r = scanNum info /\ info_coherent r) (IrqInfo info);
  wf_hdr : hdr_coherent (cpuHeaderLine info) (CpuList i) (NumCounters i);
  wf_range : (MinInt64 <= scanNum info <= MaxInt64)%Z
}.

Lemma irq_header_line info i ts trail rest :
  hdr_coherent (cpuHeaderLine info) (CpuList i) (NumCounters i) -> hdr_ok ts trail ->
  exists cl, update_cpu_list (hdr ts trail) = (length ts, inr cl) /\
    (forall k, cpu_of cl (length ts) k = cpus ts !! k) /\
    header_line 1 (hdr ts trail ++ [NL] ++ rest) info i =
    (mkInfo (IrqInfo info) (IrqChanged info)
       (if bool_decide (cpuHeaderLine info = hdr ts trail) then CpuListChanged info else true)
       (scanNum info) (hdr ts trail),
     mkInterrupts cl (Counters i) (length ts) (path i), inr rest).
Proof.
  intros [Hnl Hco] Hh. pose proof (hdr_no_nl _ _ Hh) as Hnl'.
  destruct (update_cpu_list_hdr ts trail Hh) as (cl & Hcl & Hof). exists cl. split; [done|]. split; [done|].
  unfold header_line. rewrite check_header_line by (done || by left).
  case_decide as E.
  - rewrite bool_decide_eq_true_2 by done. rewrite E in Hco. rewrite Hcl in Hco. injection Hco as Hn Hc.
    destruct info, i; simpl in *. by subst.
  - rewrite bool_decide_eq_false_2 by done. unfold updateCpuList. by rewrite Hcl.
Qed.

(** Which counters are left: those of the rows, and those of interrupts that the
    shared information does not have, which are left alone. *)
Lemma interrupts_prune_counters (scan : Z) (num : nat) (m0 : gmap bytes InterruptsIrqInfo) (c0 : gmap bytes slice)
    (rows : list row) :
  NoDup (map key rows) -> map_Forall (fun _ r => irq_scanNum r <> scan) m0 ->
  let M := insert_all key (fun r => row_info scan (m0 !! key r) r) rows m0 in
  forall k v,
  filter (fun kv => default scan (irq_scanNum <$> M !! kv.1) = scan)
    (insert_all key (fun r => row_slice num (c0 !! key r) r) rows c0) !! k = Some v <->
  (exists r, r ∈ rows /\ k = key r /\ v = row_slice num (c0 !! key r) r) \/ (k ∉ map key rows) /\ c0 !! k = Some v /\ m0 !! k = None.
Proof.
  intros Hnd Hm0 M k v. rewrite map_lookup_filter_Some. cbn [fst]. split.
  - intros [Hk Hd]. apply (insert_all_Some key) in Hk as [(r & Hr & <- & <-)|[Hk Hc]]; [left; by exists r|right|done].
    unfold M in Hd. rewrite insert_all_notin in Hd by done. split; [done|]. split; [done|].
    destruct (m0 !! k) as [x|] eqn:Hx; [|done]. exfalso. by apply (Hm0 k x).
  - intros [(r & Hr & -> & ->)|(Hk & Hc & Hm)].
    + split; [by apply (insert_all_in key (fun r => row_slice num (c0 !! key r) r))|].
      unfold M. by rewrite (insert_all_in key (fun r => row_info scan (m0 !! key r) r)).
    + split; [by rewrite insert_all_notin|]. unfold M. rewrite insert_all_notin by done. by rewrite Hm.
Qed.

(** The state that a parse of a heading and rows leaves. *)
Lemma interrupts_parse_rows info i ts trail rows :
  wf info i -> hdr_ok ts trail -> Forall (row_ok (length ts)) rows -> NoDup (map key rows) ->
  exists info' i' cl scan,
    Parse (ReadOk (hdr ts trail ++ [NL] ++ concat (map row_out rows))) info i = Ret (info', i', None) /\
    update_cpu_list (hdr ts trail) = (length ts, inr cl) /\ (forall k, cpu_of cl (length ts) k = cpus ts !! k) /\
    CpuList i' = cl /\ NumCounters i' = length ts /\ cpuHeaderLine info' = hdr ts trail /\
    CpuListChanged info' = negb (bool_decide (cpuHeaderLine info = hdr ts trail)) /\
    (forall k v, Counters i' !! k = Some v <->
       (exists r, r ∈ rows /\ k = key r /\ v = row_slice (length ts) (Counters i !! key r) r) \/
       (k ∉ map key rows) /\ Counters i !! k = Some v /\ IrqInfo info !! k = None) /\
    (forall k x, IrqInfo info' !! k = Some x <-> exists r, r ∈ rows /\ k = key r /\ x = row_info scan (IrqInfo info !! key r) r) /\
    (IrqChanged info' = true <->
       (exists r, r ∈ rows /\ row_changed (IrqInfo info) r = true) \/
       (exists k, is_Some (IrqInfo info !! k) /\ (k ∉ map key rows))) /\
    wf info' i'.
Proof.
  intros [Hsl Hsc Hco Hrg] Hh Hrows Hnd. unfold Parse. cbn [scanNum].
  set (scan := i64 (scanNum info + 1)). set (info1 := mkInfo _ false false _ _).
  destruct (irq_header_line info1 i ts trail (concat (map row_out rows)) Hco Hh) as (cl & Hcl & Hof & Hl).
  set (info2 := mkInfo _ _ _ _ (hdr ts trail)) in Hl. set (i2 := mkInterrupts cl _ _ _) in Hl.
  assert (scan <> scanNum info) as Hne by by apply i64_succ_ne.
  erewrite (scan_lines_step _ 1 _ (concat (map row_out rows)) (info1, i) (info2, i2)); [| | | |].
  2:{ unfold hdr. destruct (wrender ts ++ trail); done. }
  2:{ unfold parse_line. cbn [Nat.eqb fst snd]. by rewrite Hl. }
  2:{ rewrite !length_app. simpl. lia. }
  2:{ apply (interrupts_scan_rows scan (length ts)); [lia|done|done|done]. }
  rewrite (interrupts_upd_fold scan (length ts) (IrqInfo info) (Counters i) rows info2 i2 ltac:(done) Hnd ltac:(done)).
  rewrite bind_ret. unfold prune.
  cbn [IrqInfo IrqChanged CpuListChanged scanNum cpuHeaderLine CpuList Counters NumCounters path info1 info2 i2].
  set (M := insert_all key (fun r => row_info scan (IrqInfo info !! key r) r) rows (IrqInfo info)).
  assert (map_Forall (fun _ r => irq_scanNum r <> scan) (IrqInfo info)) as Hold.
  { intros k r Hk. destruct (Hsc k r Hk) as [-> _]. done. }
  pose proof (interrupts_prune_counters scan (length ts) (IrqInfo info) (Counters i) rows Hnd Hold) as HC.
  cbv zeta in HC. fold M in HC.
  pose proof (fun k x => insert_all_filter_lookup key (fun r => row_info scan (IrqInfo info !! key r) r)
    (fun r => irq_scanNum r = scan) rows (IrqInfo info) k x Hnd ltac:(done) Hold) as HI. fold M in HI.
  pose proof (insert_all_stale key (fun r => row_info scan (IrqInfo info !! key r) r)
    (fun r => irq_scanNum r = scan) rows (IrqInfo info) Hnd ltac:(done) Hold) as Hst. fold M in Hst.
  assert (forall r, r ∈ rows -> row_ok (length ts) r) as Hro by by apply Forall_forall.
  eexists _, _, cl, scan. split; [reflexivity|]. split; [done|]. split; [done|].
  cbn [IrqInfo IrqChanged CpuListChanged scanNum cpuHeaderLine CpuList Counters NumCounters path].
  split; [done|]. split; [done|]. split; [done|]. split; [by case_bool_decide|]. split; [exact HC|]. split; [exact HI|]. split.
  - rewrite orb_true_iff, negb_true_iff, bool_decide_eq_false, Hst. cbn [orb].
    rewrite existsb_exists. setoid_rewrite <- list_elem_of_In.
    done.
  - split; cbn [IrqInfo IrqChanged CpuListChanged scanNum cpuHeaderLine CpuList Counters NumCounters path].
    + intros k v [(r & Hr & -> & ->)|(_ & Hk & _)]%HC; [|by apply (Hsl k)]. apply irq_slice_spec; [by apply row_ok_length, Hro|intros; by eapply Hsl].
    + intros k x (r & Hr & -> & ->)%HI. split; [done|]. apply row_info_coherent. intros x Hx. by apply (Hsc (key r)).
    + split; [by apply hdr_no_nl|done].
    + apply i64_range.
Qed.

(** a file with a heading of CPUs and interrupt lines is parsed, from any
    state between parses of the object, to exactly its interrupts: counters
    modulo 2^64 in the columns of the CPUs that the heading shows (ERR and MIS
    may have fewer), the descriptions of the numbered ones split into
    controller, hardware interrupt and devices, whether they come from the
    cache or not; the change flags tell whether the heading, a description or
    the set of interrupts differs from the scan before.  The handling of case
    beyond ASCII is left open. *)
Theorem interrupts_parse_file info i ts trail rows :
  wf info i -> hdr_ok ts trail -> Forall (row_ok (length ts)) rows -> NoDup (map key rows) ->
  (forall k, is_Some (Counters i !! k) -> is_Some (IrqInfo info !! k) \/ k ∈ map key rows) ->
  exists info' i',
    Parse (ReadOk (hdr ts trail ++ [NL] ++ concat (map row_out rows))) info i = Ret (info', i', None) /\
    (forall k, k ∈ dom (Counters i') <-> k ∈ map key rows) /\
    (forall k, k ∈ dom (IrqInfo info') <-> k ∈ map key rows) /\
    (forall r, r ∈ rows -> exists v ri,
       Counters i' !! key r = Some v /\ length (sl_data v) = length ts /\
       take (length (row_vals r)) (sl_data v) = row_vals r /\
       IrqInfo info' !! key r = Some ri /\
       (numeric r = true -> (Controller ri, HWInterrupt ri, Devices ri) = describe (r_desc r))) /\
    (IrqChanged info' = true <->
       (exists r, r ∈ rows /\ row_changed (IrqInfo info) r = true) \/
       (exists k, is_Some (IrqInfo info !! k) /\ (k ∉ map key rows))) /\
    (CpuListChanged info' = true <-> hdr ts trail <> cpuHeaderLine info) /\
    (forall k, cpu_of (CpuList i') (length ts) k = cpus ts !! k) /\
    wf info' i'.
Proof.
  intros Hwf Hh Hrows Hnd Hsub. pose proof Hwf as [Hsl Hsc _ _].
  destruct (interrupts_parse_rows info i ts trail rows Hwf Hh Hrows Hnd) as
    (info' & i' & cl & scan & Hp & _ & Hof & Hcl & _ & _ & Hch & HC & HI & Hir & Hw).
  assert (forall r, r ∈ rows -> row_ok (length ts) r) as Hro by by apply Forall_forall.
  exists info', i'. split; [done|]. split_and!; [| | |done| |by rewrite Hcl|done].
  - intros k. rewrite elem_of_dom. split.
    + intros [v [(r & Hr & -> & _)|(Hk & Hc & Hn)]%HC]; [by apply list_elem_of_fmap_2|].
      destruct (Hsub k ltac:(eauto)) as [[x Hx]|]; [congruence|done].
    + intros (r & -> & Hr)%list_elem_of_fmap. eexists. apply HC. left. by exists r.
  - intros k. rewrite elem_of_dom. split.
    + intros [v (r & Hr & -> & _)%HI]. by apply list_elem_of_fmap_2.
    + intros (r & -> & Hr)%list_elem_of_fmap. eexists. apply HI. by exists r.
  - intros r Hr. destruct (irq_slice_spec (length ts) (Counters i !! key r) r) as (_ & H2 & H3);
      [by apply row_ok_length, Hro|intros; by eapply Hsl|].
    eexists _, _. split; [apply HC; left; by exists r|]. split; [done|]. split; [done|].
    split; [apply HI; by exists r|]. apply row_info_coherent. intros x Hx. by apply (Hsc (key r)).
  - rewrite Hch. case_bool_decide; naive_solver.
Qed.
End Parse.

Definition sample_hdr (names : list string) : list wtoken := map (fun n => (bs "    ", bs n)) names.
Definition sample_row (irq : string) (vals : list string) (sep desc : string) : row :=
  Row (bs " ") (bs irq) (map (fun v => (bs "   ", bs v)) vals) (bs sep) (bs desc).

Lemma sample_hdr_ok2 : hdr_ok (sample_hdr ["CPU0"; "CPU1"]) [].
Proof.
  split; [done|]. split; [|split; [|constructor]]; [repeat constructor; done|].
  repeat (apply Forall_cons; split; [split; [split; [done|by apply Forall_forallb]|
    split; [simpl; lia|by apply Forall_forallb]]|]). constructor.
Qed.

Definition sample_rows : list row :=
  [sample_row "1" ["2"; "0"] "  " "IR-IO-APIC   1-edge      i8042";
   sample_row "loc" ["7"; "8"] " " "Local timer interrupts";
   sample_row "err" ["3"] EmptyString EmptyString].

Lemma irq_sample_rows_ok uu : Forall (row_ok uu 2) sample_rows.
Proof.
  repeat (apply Forall_cons; split; [split; [by apply Forall_forallb|split; [by apply Forall_forallb|done]|
    split; [done|split; by repeat constructor]|
    first [by left|right; split; [reflexivity|split; [simpl; lia|by split]]]|split; [by apply Forall_forallb|done]|split; [by apply Forall_forallb|done]]|]).
  constructor.
Qed.

Lemma interrupts_parse_file_witness :
  exists info' i',
    Parse (fun s => s) (ReadOk (hdr (sample_hdr ["CPU0"; "CPU1"]) [] ++ [NL] ++ concat (map row_out sample_rows)))
      NewInterruptsInfo (NewInterrupts (bs "/proc/interrupts")) = Ret (info', i', None) /\
    (exists ri, IrqInfo info' !! bs "1" = Some ri /\
       (Controller ri, HWInterrupt ri, Devices ri) = (bs "IR-IO-APIC", bs "1-edge", bs "i8042")) /\
    bs "LOC" ∈ dom (Counters i').
Proof.
  destruct (interrupts_parse_file (fun s => s) NewInterruptsInfo (NewInterrupts (bs "/proc/interrupts"))
    (sample_hdr ["CPU0"; "CPU1"]) [] sample_rows) as (info' & i' & Hp & Hc & _ & Hr & _).
  - split; [apply map_Forall_empty|apply map_Forall_empty|apply hdr_coherent_new|vm_compute; split; discriminate].
  - apply sample_hdr_ok2.
  - apply irq_sample_rows_ok.
  - apply (bool_decide_unpack _). vm_compute. exact I.
  - intros k [v Hv]. cbn in Hv. by rewrite lookup_empty in Hv.
  - exists info', i'. split; [exact Hp|]. split.
    + destruct (Hr (sample_row "1" ["2"; "0"] "  " "IR-IO-APIC   1-edge      i8042")) as (v & ri & _ & _ & _ & H1 & H2);
        [by left|]. exists ri. split; [exact H1|]. exact (H2 eq_refl).
    + apply Hc. right. left.
Defined.
End Interrupts.
