(* ===== verification/NetSnmp6.v ===== *)
(** Parser for /proc/net/snmp6 (src/procfs/net_snmp6_parser.go): pairs of name
    and value; the sequence of names found by the first parse is kept and
    checked by the later ones.  The flags of the 32-bit values are copied by
    the constructor from a table that is a global variable, passed and returned
    here. *)

From Stdlib Require Import ZArith Lia.
From stdpp Require Import base tactics numbers strings gmap list.
From S2P Require Import Prelude Scan GoLib.

Module NetSnmp6.

(** The keys of [netSnmp6IndexMap] in the order of their indexes. *)
Definition netSnmp6Names : list bytes := [
  bs "Ip6InReceives";
  bs "Ip6InHdrErrors";
  bs "Ip6InTooBigErrors";
  bs "Ip6InNoRoutes";
  bs "Ip6InAddrErrors";
  bs "Ip6InUnknownProtos";
  bs "Ip6InTruncatedPkts";
  bs "Ip6InDiscards";
  bs "Ip6InDelivers";
  bs "Ip6OutForwDatagrams";
  bs "Ip6OutRequests";
  bs "Ip6OutDiscards";
  bs "Ip6OutNoRoutes";
  bs "Ip6ReasmTimeout";
  bs "Ip6ReasmReqds";
  bs "Ip6ReasmOKs";
  bs "Ip6ReasmFails";
  bs "Ip6FragOKs";
  bs "Ip6FragFails";
  bs "Ip6FragCreates";
  bs "Ip6InMcastPkts";
  bs "Ip6OutMcastPkts";
  bs "Ip6InOctets";
  bs "Ip6OutOctets";
  bs "Ip6InMcastOctets";
  bs "Ip6OutMcastOctets";
  bs "Ip6InBcastOctets";
  bs "Ip6OutBcastOctets";
  bs "Ip6InNoECTPkts";
  bs "Ip6InECT1Pkts";
  bs "Ip6InECT0Pkts";
  bs "Ip6InCEPkts";
  bs "Icmp6InMsgs";
  bs "Icmp6InErrors";
  bs "Icmp6OutMsgs";
  bs "Icmp6OutErrors";
  bs "Icmp6InCsumErrors";
  bs "Icmp6InDestUnreachs";
  bs "Icmp6InPktTooBigs";
  bs "Icmp6InTimeExcds";
  bs "Icmp6InParmProblems";
  bs "Icmp6InEchos";
  bs "Icmp6InEchoReplies";
  bs "Icmp6InGroupMembQueries";
  bs "Icmp6InGroupMembResponses";
  bs "Icmp6InGroupMembReductions";
  bs "Icmp6InRouterSolicits";
  bs "Icmp6InRouterAdvertisements";
  bs "Icmp6InNeighborSolicits";
  bs "Icmp6InNeighborAdvertisements";
  bs "Icmp6InRedirects";
  bs "Icmp6InMLDv2Reports";
  bs "Icmp6OutDestUnreachs";
  bs "Icmp6OutPktTooBigs";
  bs "Icmp6OutTimeExcds";
  bs "Icmp6OutParmProblems";
  bs "Icmp6OutEchos";
  bs "Icmp6OutEchoReplies";
  bs "Icmp6OutGroupMembQueries";
  bs "Icmp6OutGroupMembResponses";
  bs "Icmp6OutGroupMembReductions";
  bs "Icmp6OutRouterSolicits";
  bs "Icmp6OutRouterAdvertisements";
  bs "Icmp6OutNeighborSolicits";
  bs "Icmp6OutNeighborAdvertisements";
  bs "Icmp6OutRedirects";
  bs "Icmp6OutMLDv2Reports";
  bs "Icmp6OutType133";
  bs "Icmp6OutType135";
  bs "Icmp6OutType143";
  bs "Udp6InDatagrams";
  bs "Udp6NoPorts";
  bs "Udp6InErrors";
  bs "Udp6OutDatagrams";
  bs "Udp6RcvbufErrors";
  bs "Udp6SndbufErrors";
  bs "Udp6InCsumErrors";
  bs "Udp6IgnoredMulti";
  bs "Udp6MemErrors";
  bs "UdpLite6InDatagrams";
  bs "UdpLite6NoPorts";
  bs "UdpLite6InErrors";
  bs "UdpLite6OutDatagrams";
  bs "UdpLite6RcvbufErrors";
  bs "UdpLite6SndbufErrors";
  bs "UdpLite6InCsumErrors";
  bs "UdpLite6MemErrors"].
Definition NET_SNMP6_NUM_VALUES : nat := 87.
Definition NET_SNMP6_ICMP6_IN_MSGS : nat := 32.

(** [netSnmp6IndexMap[name]]. *)
Definition netSnmp6IndexMap (name : bytes) : option nat :=
  fst <$> list_find (fun x => x = name) netSnmp6Names.

(** The initial value of the table of the 32-bit values: all but the Ip6 ones,
    which come first. *)
Definition netSnmp6IsUint32_init : list bool :=
  map (fun i => NET_SNMP6_ICMP6_IN_MSGS <=? i) (seq 0 NET_SNMP6_NUM_VALUES).

(** A name and the index of its value, [None] for the -1 of names that are not
    known. *)
Record NetSnmp6LineInfo := mkInfo { name : bytes; index : option nat }.

Record NetSnmp6 := mkNetSnmp6 {
  Values : list Z;
  IsUint32 : list bool;
  path : bytes;
  lineInfo : list NetSnmp6LineInfo
}.

Inductive error :=
| ErrRead
| ErrTooMany (line : bytes) (want : nat)
| ErrInvalidName (line want : bytes)
| ErrInvalidDigit (line : bytes) (c : byte)
| ErrMissingValue (line : bytes)
| ErrNumVariables (want got : nat).

(** Go's [copy(dst, src)]: the new content of [dst]. *)
Definition copy {A} (dst src : list A) : list A := take (length dst) src ++ drop (length src) dst.

(** [copy(netSnmp6IsUint32[:], netSnmp6.IsUint32)]: the global table is the
    destination. *)
Definition NewNetSnmp6 (path : bytes) (netSnmp6IsUint32 : list bool) : NetSnmp6 * list bool :=
  let isUint32 := replicate NET_SNMP6_NUM_VALUES false in
  (mkNetSnmp6 (replicate NET_SNMP6_NUM_VALUES 0%Z) isUint32 path [], copy netSnmp6IsUint32 isUint32).

(** [copy(netSnmp6.IsUint32, newNetSnmp6.IsUint32)]: the flags of the original
    are the destination.  The clone and the original afterwards. *)
Definition Clone (full : bool) (s : NetSnmp6) : NetSnmp6 * NetSnmp6 :=
  let isUint32 := replicate (length (IsUint32 s)) false in
  let values := replicate (length (Values s)) 0%Z in
  (mkNetSnmp6 (if full then copy values (Values s) else values) isUint32 (path s) (lineInfo s),
   mkNetSnmp6 (Values s) (copy (IsUint32 s) isUint32) (path s) (lineInfo s)).

Definition not_wsnl (c : byte) : bool := negb (isWhitespaceNl c).

(** The value: digits up to a white space or a new line, which must be there. *)
Inductive value_end := Value (val : Z) (rest : bytes) | NoValue | BadDigit (c : byte).
Fixpoint scan_value (val : Z) (s : bytes) : value_end :=
  match s with
  | [] => NoValue
  | c :: t =>
    if is_digit c then scan_value (push_digit 64 val (digit_of c)) t
    else if isWhitespaceNl c then Value val t
    else BadDigit c
  end.

(** The loop state: the names, the values and the number of variables so far. *)
Definition loop_state := (list NetSnmp6LineInfo * list Z * nat)%type.

(** The name of a variable: entered, or compared with the expected one. *)
Definition scan_name (build : bool) (s : bytes) (li : list NetSnmp6LineInfo) (vi : nat)
    : outcome (error + (list NetSnmp6LineInfo * option nat * bytes)) :=
  if build then
    let '(nm, s') := span not_wsnl s in
    let idx := netSnmp6IndexMap nm in
    Ret (inr (li ++ [mkInfo nm idx], idx, s'))
  else if length li <=? vi then Ret (inl (ErrTooMany (current_line s) (length li)))
  else
    info ← must (li !! vi);
    let '(h, s') := match_prefix (name info) s in
    if negb (bool_decide (h = [])) || match s' with [] => false | c :: _ => not_wsnl c end
    then Ret (inl (ErrInvalidName (current_line s) (name info)))
    else Ret (inr (li, index info, s')).

Definition parse_var (build : bool) (n : nat) (s : bytes) (st : loop_state) : outcome (loop_state * (error + bytes)) :=
  let '(li, values, vi) := st in
  let s := skip isWhitespaceNl s in
  let nameStart := s in
  r ← scan_name build s li vi;
  match r with
  | inl e => Ret (st, inl e)
  | inr (li, idx, s) =>
    match scan_value 0 (skip isWhitespaceNl s) with
    | BadDigit c => Ret ((li, values, vi), inl (ErrInvalidDigit (current_line nameStart) c))
    | NoValue => Ret ((li, values, vi), inl (ErrMissingValue (current_line nameStart)))
    | Value val s =>
      values ← (match idx with Some i => store values i val | None => Ret values end);
      Ret ((li, values, S vi), inr s)
    end
  end.

Definition Parse (rd : read_result) (s : NetSnmp6) : outcome (NetSnmp6 * option error) :=
  match rd with
  | ReadErr | ReadTrunc _ => Ret (s, Some ErrRead)
  | ReadOk buf =>
    let buildLineInfo := length (lineInfo s) =? 0 in
    '(li, values, vi, err) ← scan_lines (parse_var buildLineInfo) 0 buf (lineInfo s, Values s, 0);
    let s' := mkNetSnmp6 values (IsUint32 s) (path s) li in
    match err with
    | Some e => Ret (s', Some e)
    | None => if negb (vi =? length li) then Ret (s', Some (ErrNumVariables (length li) vi)) else Ret (s', None)
    end
  end.

(** ** A well-formed file *)

Record row := Row { r_name : bytes; r_sep : bytes; r_num : bytes }.
Definition is_wsnl (s : bytes) : Prop := Forall (fun c => isWhitespaceNl c = true) s.

Record row_ok (r : row) : Prop := mkRowOk {
  ro_name : r_name r <> [] /\ Forall (fun c => not_wsnl c = true) (r_name r);
  ro_sep : r_sep r <> [] /\ is_wsnl (r_sep r);
  ro_num : is_num (r_num r)
}.
Definition row_out (r : row) : bytes := r_name r ++ r_sep r ++ r_num r ++ [NL].
Definition row_info (r : row) : NetSnmp6LineInfo := mkInfo (r_name r) (netSnmp6IndexMap (r_name r)).
Definition row_val (r : row) : Z := u64 (dec (r_num r)).
Abbreviation row_store := (store_row r_name row_val netSnmp6IndexMap).

Lemma digit_not_wsnl c : is_digit c = true -> isWhitespaceNl c = false.
Proof. destruct c; vm_compute; naive_solver. Qed.

Lemma scan_value_num ds t : is_num ds -> scan_value 0 (ds ++ NL :: t) = Value (u64 (dec ds)) t.
Proof.
  intros [_ Hds].
  assert (forall v, scan_value v (ds ++ NL :: t) = Value (foldl (fun v c => push_digit 64 v (digit_of c)) v ds) t) as H.
  { induction Hds as [|c ds Hc _ IH]; intros v; cbn [app scan_value foldl]; [done|]. by rewrite Hc, IH. }
  rewrite H. f_equal. exact (foldl_push_digit 64 0 ds ltac:(lia)).
Qed.

Lemma netSnmp6IndexMap_lt nm i : netSnmp6IndexMap nm = Some i -> i < NET_SNMP6_NUM_VALUES.
Proof.
  unfold netSnmp6IndexMap. intros ([j x] & Hf & ->)%fmap_Some. apply list_find_Some in Hf as (Hl & _).
  apply lookup_lt_Some in Hl. done.
Qed.

(** Distinct names have distinct indexes. *)
Lemma netSnmp6IndexMap_inj n1 n2 i : netSnmp6IndexMap n1 = Some i -> netSnmp6IndexMap n2 = Some i -> n1 = n2.
Proof.
  unfold netSnmp6IndexMap. intros ([j x] & Hf & ->)%fmap_Some ([j' x'] & Hf' & E)%fmap_Some. simpl in E. subst j'.
  apply list_find_Some in Hf as (Hl & -> & _). apply list_find_Some in Hf' as (Hl' & -> & _). congruence.
Qed.

(** What the loop state is after a row: the names are entered, or were known. *)
Definition row_upd (build : bool) (r : row) (st : loop_state) : loop_state :=
  let '(li, values, vi) := st in
  ((if build then li ++ [row_info r] else li), row_store values r, S vi).

Lemma parse_var_row build n r rest li values vi :
  row_ok r -> length values = NET_SNMP6_NUM_VALUES -> (build = false -> li !! vi = Some (row_info r)) ->
  parse_var build n (row_out r ++ rest) (li, values, vi) = Ret (row_upd build r (li, values, vi), inr rest).
Proof.
  intros [[Hne Hnm] [Hsne Hsep] Hnum] Hlen Hli. unfold parse_var, row_out. rewrite <- !app_assoc. cbn [app].
  set (t := r_num r ++ NL :: rest).
  assert (stops isWhitespaceNl (r_name r ++ r_sep r ++ t)) as Hst.
  { destruct Hnm as [|c nm Hc _]; [done|]. simpl. unfold not_wsnl in Hc. by apply negb_true_iff. }
  rewrite (skip_stops_id _ _ Hst).
  assert (stops not_wsnl (r_sep r ++ t)) as Hst2.
  { destruct Hsep as [|c sp Hc _]; [done|]. simpl. unfold not_wsnl. by rewrite Hc. }
  assert (scan_name build (r_name r ++ r_sep r ++ t) li vi =
    Ret (inr ((if build then li ++ [row_info r] else li), netSnmp6IndexMap (r_name r), r_sep r ++ t))) as ->.
  { unfold scan_name. destruct build.
    - by rewrite span_app.
    - specialize (Hli eq_refl). rewrite (proj2 (Nat.leb_gt _ _)) by (by eapply lookup_lt_Some).
      rewrite Hli. cbn [must]. rewrite bind_ret. cbn [name row_info]. rewrite match_prefix_app.
      rewrite bool_decide_eq_true_2 by done. cbn [negb orb].
      destruct Hsep as [|c sp Hc _]; [done|]. simpl. unfold not_wsnl. by rewrite Hc. }
  rewrite bind_ret.
  assert (skip isWhitespaceNl (r_sep r ++ t) = t) as ->.
  { apply skip_app; [done|]. unfold t. destruct Hnum as [Hdne Hds]. destruct Hds as [|c ds Hc _]; [done|]. simpl.
    by apply digit_not_wsnl. }
  unfold t. rewrite scan_value_num by done.
  unfold row_upd, store_row, row_val. destruct (netSnmp6IndexMap (r_name r)) as [i|] eqn:Ei.
  - rewrite store_Ret by (rewrite Hlen; by eapply netSnmp6IndexMap_lt). done.
  - done.
Qed.

Lemma snmp6_scan_rows build rows : forall n li values vi,
  Forall row_ok rows -> length values = NET_SNMP6_NUM_VALUES ->
  (build = false -> drop vi li = map row_info rows) ->
  scan_lines (parse_var build) n (concat (map row_out rows)) (li, values, vi) =
  Ret ((if build then li ++ map row_info rows else li), foldl row_store values rows, vi + length rows, None).
Proof.
  induction rows as [|r rows IH]; intros n li values vi Hok Hlen Hli.
  - cbn [map concat foldl length]. rewrite app_nil_r, Nat.add_0_r. by destruct build.
  - inversion_clear Hok as [|? ? Hr Hrs]. cbn [map concat].
    assert (build = false -> li !! vi = Some (row_info r)) as Hv.
    { intros Hb. specialize (Hli Hb). rewrite <- (Nat.add_0_r vi), <- lookup_drop, Hli. done. }
    eapply scan_lines_step; [|by apply parse_var_row| |].
    + destruct Hr as [[Hne _] _ _]. unfold row_out. by destruct (r_name r).
    + rewrite length_app. destruct Hr as [[Hne _] _ _]. unfold row_out. destruct (r_name r); [done|simpl; lia].
    + unfold row_upd. rewrite IH; [|done|by rewrite store_row_length|].
      * cbn [foldl length]. f_equal. f_equal. f_equal; [|lia]. f_equal. destruct build; [|done]. by rewrite <- app_assoc.
      * intros Hb. specialize (Hli Hb). rewrite Hb. replace (S vi) with (vi + 1) by lia. rewrite <- drop_drop, Hli. done.
Qed.

(** a file of variables with distinct names is parsed to their values modulo
    2^64, each under the index of its name, by a new parser and by one that has
    already seen these names; values of other names are left alone, and the
    sequence of the names is kept for the next parse. *)
Theorem netsnmp6_parse_file s rows :
  length (Values s) = NET_SNMP6_NUM_VALUES -> rows <> [] -> Forall row_ok rows -> NoDup (map r_name rows) ->
  lineInfo s = [] \/ lineInfo s = map row_info rows ->
  exists s', Parse (ReadOk (concat (map row_out rows))) s = Ret (s', None) /\
    length (Values s') = NET_SNMP6_NUM_VALUES /\
    (forall r i, r ∈ rows -> netSnmp6IndexMap (r_name r) = Some i -> Values s' !! i = Some (row_val r)) /\
    (forall i, (forall r, r ∈ rows -> netSnmp6IndexMap (r_name r) <> Some i) -> Values s' !! i = Values s !! i) /\
    lineInfo s' = map row_info rows /\ IsUint32 s' = IsUint32 s.
Proof.
  intros Hlen Hne Hok Hnd Hli. unfold Parse. set (build := length (lineInfo s) =? 0).
  assert (build = false -> drop 0 (lineInfo s) = map row_info rows) as Hd.
  { destruct Hli as [E|E]; unfold build; rewrite E; [done|]. intros _. by rewrite drop_0. }
  rewrite (snmp6_scan_rows build rows 0 (lineInfo s) (Values s) 0 Hok Hlen Hd). rewrite bind_ret. cbn [Nat.add].
  assert ((if build then lineInfo s ++ map row_info rows else lineInfo s) = map row_info rows) as ->.
  { destruct Hli as [E|E]; unfold build; rewrite E; [done|]. destruct rows; done. }
  rewrite length_map, Nat.eqb_refl. cbn [negb].
  destruct (store_rows_spec r_name row_val netSnmp6IndexMap NET_SNMP6_NUM_VALUES rows (Values s) netSnmp6IndexMap_lt
    netSnmp6IndexMap_inj Hnd Hlen) as (H1 & H2 & H3).
  eexists. split; [reflexivity|]. cbn [Values lineInfo IsUint32]. done.
Qed.

(** The flags of the 32-bit values never reach a parser: the constructor
    copies in the wrong direction, so that a new parser and all its clones have
    no flag set, and the table itself is cleared by the first construction. *)
Theorem netsnmp6_flags_lost path full :
  let '(s, g) := NewNetSnmp6 path netSnmp6IsUint32_init in
  let '(c, s') := Clone full s in
  netSnmp6IsUint32_init !! NET_SNMP6_ICMP6_IN_MSGS = Some true /\
  Forall (fun l => l = replicate NET_SNMP6_NUM_VALUES false) [IsUint32 s; IsUint32 c; IsUint32 s'; g].
Proof. split; [vm_compute; reflexivity|]. repeat constructor; vm_compute; reflexivity. Qed.

Lemma netsnmp6_parse_file_witness :
  exists s', Parse (ReadOk (concat (map row_out [Row (bs "Ip6InOctets") (bs "       ") (bs "368"); Row (bs "Icmp6OutMsgs") [TAB] (bs "7")])))
    (NewNetSnmp6 (bs "/proc/net/snmp6") netSnmp6IsUint32_init).1 = Ret (s', None) /\
    Values s' !! 22 = Some 368%Z /\ Values s' !! 34 = Some 7%Z.
Proof.
  destruct (netsnmp6_parse_file (NewNetSnmp6 (bs "/proc/net/snmp6") netSnmp6IsUint32_init).1
    [Row (bs "Ip6InOctets") (bs "       ") (bs "368"); Row (bs "Icmp6OutMsgs") [TAB] (bs "7")]) as (s' & Hp & _ & Hv & _).
  - done.
  - done.
  - repeat constructor; done.
  - apply (bool_decide_unpack _). vm_compute. exact I.
  - by left.
  - exists s'. split; [exact Hp|].
    split; [apply (Hv (Row (bs "Ip6InOctets") (bs "       ") (bs "368")))|apply (Hv (Row (bs "Icmp6OutMsgs") [TAB] (bs "7")))];
      [by left|vm_compute; reflexivity|right; by left|vm_compute; reflexivity].
Defined.
End NetSnmp6.
