(* ===== verification/NetSnmp.v ===== *)
(** Parser for /proc/net/snmp (src/procfs/net_snmp_parser.go): pairs of lines,
    the names of the variables of a protocol and their values.  What a line of
    names says is kept and reused as long as the line stays the same; it is
    rebuilt when the line changes. *)

From Stdlib Require Import ZArith Lia.
From stdpp Require Import base tactics numbers strings gmap list.
From S2P Require Import Prelude Scan GoLib.

Module NetSnmp.

(** [netSnmpIndexMap]: protocol, variable, index. *)
Definition netSnmpIndexMap : list (bytes * list (bytes * nat)) := [
  (bs "Ip", [
    (bs "Forwarding", 0);
    (bs "DefaultTTL", 1);
    (bs "InReceives", 2);
    (bs "InHdrErrors", 3);
    (bs "InAddrErrors", 4);
    (bs "ForwDatagrams", 5);
    (bs "InUnknownProtos", 6);
    (bs "InDiscards", 7);
    (bs "InDelivers", 8);
    (bs "OutRequests", 9);
    (bs "OutDiscards", 10);
    (bs "OutNoRoutes", 11);
    (bs "ReasmTimeout", 12);
    (bs "ReasmReqds", 13);
    (bs "ReasmOKs", 14);
    (bs "ReasmFails", 15);
    (bs "FragOKs", 16);
    (bs "FragFails", 17);
    (bs "FragCreates", 18)]);
  (bs "Icmp", [
    (bs "InMsgs", 19);
    (bs "InErrors", 20);
    (bs "InCsumErrors", 21);
    (bs "InDestUnreachs", 22);
    (bs "InTimeExcds", 23);
    (bs "InParmProbs", 24);
    (bs "InSrcQuenchs", 25);
    (bs "InRedirects", 26);
    (bs "InEchos", 27);
    (bs "InEchoReps", 28);
    (bs "InTimestamps", 29);
    (bs "InTimestampReps", 30);
    (bs "InAddrMasks", 31);
    (bs "InAddrMaskReps", 32);
    (bs "OutMsgs", 33);
    (bs "OutErrors", 34);
    (bs "OutDestUnreachs", 35);
    (bs "OutTimeExcds", 36);
    (bs "OutParmProbs", 37);
    (bs "OutSrcQuenchs", 38);
    (bs "OutRedirects", 39);
    (bs "OutEchos", 40);
    (bs "OutEchoReps", 41);
    (bs "OutTimestamps", 42);
    (bs "OutTimestampReps", 43);
    (bs "OutAddrMasks", 44);
    (bs "OutAddrMaskReps", 45)]);
  (bs "IcmpMsg", [
    (bs "InType3", 46);
    (bs "OutType3", 47)]);
  (bs "Tcp", [
    (bs "RtoAlgorithm", 48);
    (bs "RtoMin", 49);
    (bs "RtoMax", 50);
    (bs "MaxConn", 51);
    (bs "ActiveOpens", 52);
    (bs "PassiveOpens", 53);
    (bs "AttemptFails", 54);
    (bs "EstabResets", 55);
    (bs "CurrEstab", 56);
    (bs "InSegs", 57);
    (bs "OutSegs", 58);
    (bs "RetransSegs", 59);
    (bs "InErrs", 60);
    (bs "OutRsts", 61);
    (bs "InCsumErrors", 62)]);
  (bs "Udp", [
    (bs "InDatagrams", 63);
    (bs "NoPorts", 64);
    (bs "InErrors", 65);
    (bs "OutDatagrams", 66);
    (bs "RcvbufErrors", 67);
    (bs "SndbufErrors", 68);
    (bs "InCsumErrors", 69);
    (bs "IgnoredMulti", 70);
    (bs "MemErrors", 71)]);
  (bs "UdpLite", [
    (bs "InDatagrams", 72);
    (bs "NoPorts", 73);
    (bs "InErrors", 74);
    (bs "OutDatagrams", 75);
    (bs "RcvbufErrors", 76);
    (bs "SndbufErrors", 77);
    (bs "InCsumErrors", 78);
    (bs "IgnoredMulti", 79);
    (bs "MemErrors", 80)])].

Definition NET_SNMP_NUM_VALUES : nat := 81.
Definition NET_SNMP_TCP_MAX_CONN : nat := 51.

(** [NetSnmpValueMayBeNegative]. *)
Definition NetSnmpValueMayBeNegative (index : nat) : bool := index =? NET_SNMP_TCP_MAX_CONN.

(** A map given by its entries. *)
Definition assoc {A} (m : list (bytes * A)) (k : bytes) : option A :=
  snd ∘ snd <$> list_find (fun e => e.1 = k) m.

(** The line, the length of its prefix with the colon, and the index of every
    variable of the line, [None] for the -1 of those that are not known. *)
Record NetSnmpLineInfo := mkInfo { line : bytes; prefixLen : nat; indexMap : list (option nat) }.
#[export] Instance NetSnmpLineInfo_eq_dec : EqDecision NetSnmpLineInfo.
Proof. solve_decision. Defined.

(** The reason for a change: line number, line and expected line. *)
Record change := mkChange { ch_lineNum : nat; ch_line : bytes; ch_want : bytes }.

Record NetSnmp := mkNetSnmp {
  Values : list Z;
  InfoChanged : option change;
  path : bytes;
  lineInfo : list NetSnmpLineInfo
}.

Inductive error :=
| ErrRead
| ErrNoVariables (lineNum : Z) (line : bytes)
| ErrPrefix (lineNum : nat) (line want : bytes)
| ErrInvalidDigit (lineNum : nat) (line : bytes) (c : byte)
| ErrNegative (lineNum : nat) (line : bytes) (value : Z) (num : nat)
| ErrMissingValues (lineNum : nat) (line : bytes) (want got : nat)
| ErrExtra (lineNum : nat) (line content : bytes).

Definition NewNetSnmp (path : bytes) : NetSnmp :=
  mkNetSnmp (replicate NET_SNMP_NUM_VALUES 0%Z) None path [].

Definition UpdateInfo (from s : NetSnmp) : NetSnmp :=
  mkNetSnmp (Values s) (InfoChanged s) (path s) (lineInfo from).

Definition Clone (full : bool) (s : NetSnmp) : NetSnmp :=
  mkNetSnmp (if full then Values s else replicate (length (Values s)) 0%Z) None (path s) (lineInfo s).

(** [bytes.IndexByte(line, ':') + 1]. *)
Definition prefix_len (line : bytes) : nat :=
  let '(p, r) := span (fun c => negb (beq c COLON)) line in
  match r with [] => 0 | _ => S (length p) end.

(** [buildSnmpLineInfo]: [None] for its error. *)
Definition buildSnmpLineInfo (line : bytes) : option NetSnmpLineInfo :=
  let prefixLen := prefix_len line in
  let variables := if (1 <? prefixLen) && (prefixLen <? length line)
                   then Fields_of (drop (S prefixLen) line) else [] in
  match variables with
  | [] => None
  | _ =>
    let proto := TrimSpace (take (prefixLen - 1) line) in
    Some (mkInfo line prefixLen
      (map (fun v => match assoc netSnmpIndexMap proto with
                     | Some protoIndexMap => assoc protoIndexMap v
                     | None => None
                     end) variables))
  end.

(** The comparison of a line with the expected one, byte by byte: the expected
    length, 0 from the first difference on. *)
Fixpoint compare_line (i : nat) (expectedLine : bytes) (expectedLen : nat) (line : bytes) : nat :=
  match line with
  | [] => expectedLen
  | c :: line =>
    let expectedLen := if (i <? expectedLen) && negb (bool_decide (expectedLine !! i = Some c)) then 0 else expectedLen in
    compare_line (S i) expectedLine expectedLen line
  end.

(** The state of the loop: the information of the lines, that of the last line
    of names, the values, the reason for a change. *)
Record loop := mkLoop {
  l_infos : list NetSnmpLineInfo;
  l_info : option NetSnmpLineInfo;
  l_values : list Z;
  l_changed : option change
}.

(** An odd line: the names. *)
Definition info_line (lineNum : nat) (s : bytes) (st : loop) : outcome (loop * (error + bytes)) :=
  let infoIndex := lineNum / 2 in
  let lineInfo := l_infos st !! infoIndex in
  let expectedLine := match lineInfo with Some i => line i | None => [] end in
  let '(ln, rest) := span (fun c => negb (beq c NL)) s in
  let expectedLen := compare_line 0 expectedLine (length expectedLine) ln in
  let expectedLen := if negb (length ln =? expectedLen) then 0 else expectedLen in
  if expectedLen =? 0 then
    let '(infos, changed) :=
      match lineInfo with
      | Some _ => (take infoIndex (l_infos st), Some (mkChange lineNum ln expectedLine))
      | None => (l_infos st, l_changed st)
      end in
    match buildSnmpLineInfo ln with
    | None => Ret (mkLoop infos None (l_values st) changed, inl (ErrNoVariables (Z.of_nat lineNum - 1) ln))
    | Some i => Ret (mkLoop (infos ++ [i]) (Some i) (l_values st) changed, inr (drop 1 rest))
    end
  else Ret (mkLoop (l_infos st) lineInfo (l_values st) (l_changed st), inr (drop 1 rest)).

(** ** The values of a line *)

Record vals := mkVals { v_eol : bool; v_rest : bytes; v_idx : nat; v_values : list Z }.

Definition MINUS : byte := Init.Byte.x2d.
Definition take_sign (s : bytes) : bool * bytes :=
  match s with
  | c :: t => if beq c MINUS then (true, t) else (false, s)
  | [] => (false, [])
  end.

Section values.
Context (lineNum : nat) (lineStart : bytes) (valueIndexMap : list (option nat)).

(** A value that was found. *)
Definition put_value (isNegative : bool) (value : Z) (idx : nat) (values : list Z) : outcome (error + list Z) :=
  valueIndex ← must (valueIndexMap !! idx);
  match valueIndex with
  | None => Ret (inr values)
  | Some i =>
    if isNegative then
      if NetSnmpValueMayBeNegative i
      then values ← store values i (u32 (Z.lxor value (2 ^ 32 - 1) + 1)); Ret (inr values)
      else Ret (inl (ErrNegative lineNum (current_line lineStart) value (S idx)))
    else values ← store values i value; Ret (inr values)
  end.

Definition value_body (st : vals) : outcome (vals + (vals * option error)) :=
  if negb (v_eol st) && negb (bool_decide (v_rest st = [])) && (v_idx st <? length valueIndexMap) then
    let '(isNegative, s) := take_sign (skip isWhitespace (v_rest st)) in
    match scan_num 32 0 false false s with
    | NumBad c s => Ret (inr (mkVals false s (v_idx st) (v_values st), Some (ErrInvalidDigit lineNum (current_line lineStart) c)))
    | NumEnd value hasValue eol s =>
      if hasValue then
        r ← put_value isNegative value (v_idx st) (v_values st);
        match r with
        | inl e => Ret (inr (mkVals eol s (v_idx st) (v_values st), Some e))
        | inr values => Ret (inl (mkVals eol s (S (v_idx st)) values))
        end
      else Ret (inl (mkVals eol s (v_idx st) (v_values st)))
    end
  else Ret (inr (st, None)).

Definition scan_values (s : bytes) (values : list Z) : outcome (vals * option error) :=
  while (S (length s) + 1) value_body (mkVals false s 0 values).
End values.

(** An even line: the values. *)
Definition data_line (lineNum : nat) (s : bytes) (st : loop) : outcome (loop * (error + bytes)) :=
  info ← must (l_info st);
  let set values := mkLoop (l_infos st) (l_info st) values (l_changed st) in
  let expectPrefix := take (prefixLen info) (line info) in
  let '(h, rest) := match_prefix expectPrefix s in
  if negb (bool_decide (h = [])) then Ret (st, inl (ErrPrefix lineNum (current_line s) expectPrefix))
  else
    '(v, err) ← scan_values lineNum s (indexMap info) rest (l_values st);
    match err with
    | Some e => Ret (set (v_values v), inl e)
    | None =>
      if v_idx v <? length (indexMap info)
      then Ret (set (v_values v), inl (ErrMissingValues lineNum (current_line s) (length (indexMap info)) (v_idx v)))
      else match to_eol_ws (v_eol v) (v_rest v) with
           | inl rest => Ret (set (v_values v), inr rest)
           | inr at_ => Ret (set (v_values v), inl (ErrExtra lineNum (current_line s) (current_line at_)))
           end
    end.

Definition parse_line (lineNum : nat) (s : bytes) (st : loop) : outcome (loop * (error + bytes)) :=
  if Nat.odd lineNum then info_line lineNum s st else data_line lineNum s st.

Definition Parse (rd : read_result) (s : NetSnmp) : outcome (NetSnmp * option error) :=
  match rd with
  | ReadErr | ReadTrunc _ => Ret (s, Some ErrRead)
  | ReadOk buf =>
    '(st, err) ← scan_lines parse_line 1 buf (mkLoop (lineInfo s) None (Values s) None);
    Ret (mkNetSnmp (l_values st) (l_changed st) (path s) (l_infos st), err)
  end.

Example snmp_ex :
  let file x := ReadOk (bs "Tcp: RtoAlgorithm RtoMin MaxConn" ++ [NL] ++ bs x ++ [NL]) in
  let run x s := match Parse (file x) s with Ret (s, e) => (Values s !! 48, Values s !! 51, InfoChanged s, e) | _ => (None, None, None, None) end in
  run "Tcp: 1 200 -1" (NewNetSnmp []) = (Some 1, Some 4294967295, None, None)%Z /\
  run "Tcp: -1 200 -1" (NewNetSnmp []) = (Some 0, Some 0, None, Some (ErrNegative 2 (bs "Tcp: -1 200 -1") 1 1))%Z.
Proof. vm_compute. done. Qed.

(** ** The cached information *)

(** What the cache holds for a line is what would be built for it. *)
Definition info_ok (i : NetSnmpLineInfo) : Prop := buildSnmpLineInfo (line i) = Some i.
Definition coherent (infos : list NetSnmpLineInfo) : Prop := Forall info_ok infos.

(** The index of a variable of a protocol, and the variable of an index. *)
Definition idx_of (proto v : bytes) : option nat := assoc netSnmpIndexMap proto ≫= (fun m => assoc m v).
Definition variable_of (i : nat) : option (bytes * bytes) :=
  concat (map (fun pm => map (fun e => (pm.1, e.1)) pm.2) netSnmpIndexMap) !! i.

Lemma assoc_elem {A} (m : list (bytes * A)) k x : assoc m k = Some x -> (k, x) ∈ m.
Proof.
  unfold assoc. intros ([j [k' x']] & Hf & ->)%fmap_Some. apply list_find_Some in Hf as (Hl & Hk & _). simpl in *. subst k'.
  by eapply list_elem_of_lookup_2.
Qed.

Lemma idx_of_variable proto v i : idx_of proto v = Some i -> variable_of i = Some (proto, v).
Proof.
  unfold idx_of. intros (m & Hm & Hv)%bind_Some. apply assoc_elem in Hm, Hv.
  assert (Forall (fun pm => Forall (fun e => variable_of e.2 = Some (pm.1, e.1)) pm.2) netSnmpIndexMap) as Hall.
  { apply (bool_decide_unpack _). vm_compute. exact I. }
  eapply Forall_forall in Hall; [|exact Hm]. simpl in Hall. by eapply Forall_forall in Hall; [|exact Hv].
Qed.

Lemma idx_of_lt proto v i : idx_of proto v = Some i -> i < NET_SNMP_NUM_VALUES.
Proof. intros Hi%idx_of_variable. unfold variable_of in Hi. by apply lookup_lt_Some in Hi. Qed.

Lemma buildSnmpLineInfo_inv ln i :
  buildSnmpLineInfo ln = Some i ->
  line i = ln /\ ln <> [] /\ prefixLen i = prefix_len ln /\ 1 < prefix_len ln < length ln /\ indexMap i <> [] /\
  indexMap i = map (idx_of (TrimSpace (take (prefix_len ln - 1) ln))) (Fields_of (drop (S (prefix_len ln)) ln)).
Proof.
  unfold buildSnmpLineInfo. destruct ((1 <? prefix_len ln) && (prefix_len ln <? length ln)) eqn:E; [|done].
  apply andb_true_iff in E as [E1%Nat.ltb_lt E2%Nat.ltb_lt].
  destruct (Fields_of _) as [|v vs] eqn:Ef; [done|]. rewrite <- Ef. intros [= <-]. cbn [line prefixLen indexMap].
  split_and!; [done|by destruct ln; [simpl in E2; lia|]|done|done|done|by rewrite Ef|].
  apply map_ext. intros w. unfold idx_of. by destruct (assoc _ _).
Qed.

Lemma info_index_lt i k n : info_ok i -> indexMap i !! k = Some (Some n) -> n < NET_SNMP_NUM_VALUES.
Proof.
  intros (_ & _ & _ & _ & _ & ->)%buildSnmpLineInfo_inv. rewrite list_lookup_fmap.
  intros (v & _ & Hv)%fmap_Some. symmetry in Hv. exact (idx_of_lt _ _ _ Hv).
Qed.

Lemma info_prefix_pos i : info_ok i -> 0 < length (take (prefixLen i) (line i)).
Proof. intros (_ & _ & -> & ? & _)%buildSnmpLineInfo_inv. rewrite length_take. lia. Qed.

Lemma compare_line_0 ln : forall i e, compare_line i e 0 ln = 0.
Proof. induction ln as [|c ln IH]; intros i e; cbn [compare_line]; [done|]. by rewrite IH. Qed.

(** The comparison keeps the expected length of a line that is the expected
    one and of no other of that length. *)
Lemma compare_line_spec ln : forall i e,
  i + length ln = length e ->
  compare_line i e (length e) ln = if bool_decide (drop i e = ln) then length e else 0.
Proof.
  induction ln as [|c ln IH]; intros i e Hl; cbn [compare_line]; simpl in Hl.
  - rewrite bool_decide_eq_true_2; [done|]. apply drop_ge. lia.
  - rewrite (proj2 (Nat.ltb_lt i (length e))) by lia. cbn [andb].
    destruct (e !! i) as [c'|] eqn:Ei; [|apply lookup_ge_None in Ei; lia].
    rewrite (drop_S e c' i Ei).
    destruct (decide (c' = c)) as [->|Hne].
    + rewrite bool_decide_eq_true_2 by done. cbn [negb]. rewrite IH by lia.
      apply (f_equal (fun b : bool => if b then length e else 0)). apply bool_decide_ext. naive_solver.
    + rewrite bool_decide_eq_false_2 by congruence. cbn [negb]. rewrite compare_line_0.
      rewrite bool_decide_eq_false_2; [done|]. congruence.
Qed.

Lemma compare_line_eq e ln : e <> [] ->
  ((if negb (length ln =? compare_line 0 e (length e) ln) then 0 else compare_line 0 e (length e) ln) =? 0) =
  negb (bool_decide (ln = e)).
Proof.
  intros He. destruct (decide (length ln = length e)) as [Hl|Hl].
  - rewrite compare_line_spec by done. rewrite drop_0.
    destruct (decide (e = ln)) as [->|Hne].
    + rewrite !bool_decide_eq_true_2 by done. rewrite Nat.eqb_refl. cbn [negb]. destruct ln; done.
    + rewrite (bool_decide_eq_false_2 (e = ln)), (bool_decide_eq_false_2 (ln = e)) by congruence. by destruct (length ln).
  - rewrite bool_decide_eq_false_2 by congruence.
    assert (forall l i, compare_line i e (length e) l = length e \/ compare_line i e (length e) l = 0) as Hc.
    { induction l as [|c l IH]; intros i; cbn [compare_line]; [by left|]. case_match; [rewrite compare_line_0; by right|apply IH]. }
    destruct (Hc ln 0) as [-> | ->]; [by rewrite (proj2 (Nat.eqb_neq (length ln) (length e)) Hl)|by destruct (length ln)].
Qed.

(** A line of names, whatever the cache holds: the information is that of the
    line. *)
Lemma info_line_spec n s st :
  s <> [] -> coherent (l_infos st) ->
  let '(ln, rest) := span (fun c => negb (beq c NL)) s in
  exists infos changed, coherent infos /\
    info_line n s st = Ret (mkLoop infos (buildSnmpLineInfo ln) (l_values st) changed,
      match buildSnmpLineInfo ln with
      | None => inl (ErrNoVariables (Z.of_nat n - 1) ln)
      | Some _ => inr (drop 1 rest)
      end) /\ length (drop 1 rest) < length s.
Proof.
  intros Hs Hco. pose proof (span_append (fun c => negb (beq c NL)) s) as Hsp. unfold info_line.
  destruct (span (fun c => negb (beq c NL)) s) as [ln rest]. cbn [fst snd] in Hsp.
  assert (length (drop 1 rest) < length s) as Hlen.
  { rewrite <- Hsp, length_drop, length_app. destruct ln, rest; simpl in *; try lia. congruence. }
  destruct (l_infos st !! (n / 2)) as [i|] eqn:Ei.
  - pose proof (proj1 (Forall_lookup _ _) Hco _ _ Ei) as Hi.
    pose proof (buildSnmpLineInfo_inv _ _ Hi) as (_ & Hne & _). rewrite compare_line_eq by done.
    destruct (decide (ln = line i)) as [->|Hd].
    + rewrite bool_decide_eq_true_2 by done. cbn [negb]. rewrite Hi. by eexists _, _.
    + rewrite bool_decide_eq_false_2 by done. cbn [negb].
      destruct (buildSnmpLineInfo ln) as [i'|] eqn:Eb; eexists _, _; (split; [|split; [reflexivity|done]]).
      * apply Forall_app_2; [by apply Forall_take|]. constructor; [|done].
        unfold info_ok. by rewrite (proj1 (buildSnmpLineInfo_inv _ _ Eb)).
      * by apply Forall_take.
  - cbn [length]. rewrite compare_line_0. destruct (negb (length ln =? 0)); cbn [Nat.eqb];
      (destruct (buildSnmpLineInfo ln) as [i'|] eqn:Eb; eexists _, _; (split; [|split; [reflexivity|done]]); [|done];
       apply Forall_app_2; [done|]; constructor; [|done]; unfold info_ok; by rewrite (proj1 (buildSnmpLineInfo_inv _ _ Eb))).
Qed.

(** The values of a line: the loop ends and keeps the size of the storage. *)
Lemma scan_values_ret n ls imap s values :
  length values = NET_SNMP_NUM_VALUES ->
  (forall k i, imap !! k = Some (Some i) -> i < NET_SNMP_NUM_VALUES) ->
  exists v err, scan_values n ls imap s values = Ret (v, err) /\
    length (v_values v) = NET_SNMP_NUM_VALUES /\ length (v_rest v) <= length s.
Proof.
  intros Hlen Him. unfold scan_values.
  destruct (while_total (value_body n ls imap) (fun st => length (v_rest st))
    (fun st => length (v_values st) = NET_SNMP_NUM_VALUES /\ length (v_rest st) <= length s)
    (fun r => length (v_values r.1) = NET_SNMP_NUM_VALUES /\ length (v_rest r.1) <= length s)
    (S (length s) + 1) (mkVals false s 0 values)) as ([v err] & Hw & Hq); [|done|simpl; lia|by exists v, err].
  intros [eol rest idx vs] [Hv Hr]. cbn [v_values v_rest] in Hv, Hr. unfold value_body. cbn [v_eol v_rest v_idx v_values].
  destruct (negb eol && negb (bool_decide (rest = [])) && (idx <? length imap)) eqn:E; [|by eexists].
  apply andb_true_iff in E as [[_ E2]%andb_true_iff E3%Nat.ltb_lt]. apply negb_true_iff, bool_decide_eq_false in E2.
  destruct (take_sign (skip isWhitespace rest)) as [neg s1] eqn:Es.
  assert (length s1 <= length rest) as Hs1.
  { pose proof (skip_length isWhitespace rest). unfold take_sign in Es. destruct (skip isWhitespace rest); [by simplify_eq|].
    simpl in *. destruct (beq _ _); simplify_eq; simpl in *; lia. }
  destruct (scan_num 32 0 false false s1) as [val has eol' s'|c s'] eqn:En.
  - assert (length s' < length rest) as Hs'.
    { destruct (decide (s1 = [])) as [->|Hne].
      - simpl in En. injection En as _ _ _ <-. simpl. destruct rest; [done|simpl; lia].
      - apply scan_num_length in En; [lia|done]. }
    destruct has; [|eexists; split; [reflexivity|]; cbn [v_values v_rest]; lia].
    destruct (lookup_lt_is_Some_2 imap idx E3) as [vi Hvi]. unfold put_value. rewrite Hvi. cbn [must]. rewrite bind_ret.
    destruct vi as [i|]; [|eexists; split; [reflexivity|]; cbn [v_values v_rest]; lia].
    assert (i < length vs) as Hi by (rewrite Hv; by eapply Him).
    destruct neg; [destruct (NetSnmpValueMayBeNegative i)|]; rewrite ?store_Ret by done; cbn;
      (eexists; split; [reflexivity|]; cbn [v_values v_rest fst]; rewrite ?length_insert; lia).
  - eexists. split; [reflexivity|]. cbn [v_values v_rest fst]. split; [done|].
    assert (forall v0 h e s0, scan_num 32 v0 h e s0 = NumBad c s' -> length s' <= length s0) as Hb.
    { clear. intros v0 h e s0. revert v0 h e. induction s0 as [|c0 s0 IH]; intros v0 h e; cbn [scan_num]; [done|].
      destruct (is_digit c0); [intros H%IH; simpl; lia|]. destruct (_ || _); [done|]. intros [= _ <-]. done. }
    apply Hb in En. lia.
Qed.

(** A line of values depends on the information of the line of names only. *)
Lemma data_line_ret n s info values :
  s <> [] -> info_ok info -> length values = NET_SNMP_NUM_VALUES ->
  exists values' r, length values' = NET_SNMP_NUM_VALUES /\
    (forall s', r = inr s' -> length s' < length s) /\
    forall infos changed, data_line n s (mkLoop infos (Some info) values changed) =
      Ret (mkLoop infos (Some info) values' changed, r).
Proof.
  intros Hs Hi Hlen. unfold data_line. cbn [l_info l_infos l_values l_changed must].
  pose proof (match_prefix_spec (take (prefixLen info) (line info)) s) as (p & Hp1 & Hp2).
  destruct (match_prefix (take (prefixLen info) (line info)) s) as [h rest] eqn:Em. cbn [fst snd] in Hp1, Hp2.
  destruct (decide (h = [])) as [->|Hh].
  2:{ exists values, (inl (ErrPrefix n (current_line s) (take (prefixLen info) (line info)))). split_and!; [done|done|].
      intros infos changed. rewrite bind_ret, Em, bool_decide_eq_false_2 by done. done. }
  assert (length rest < length s) as Hrest.
  { pose proof (info_prefix_pos info Hi) as Hpos. rewrite Hp1, app_nil_r in Hpos. rewrite Hp2, length_app. lia. }
  destruct (scan_values_ret n s (indexMap info) rest values Hlen) as (v & err & Hv & Hvl & Hvr).
  { intros k i Hk. by eapply info_index_lt. }
  assert (forall rest', to_eol_ws (v_eol v) (v_rest v) = inl rest' -> length rest' < length s) as He.
  { intros rest' H%to_eol_ws_length. lia. }
  destruct err as [e|]; [|destruct (v_idx v <? length (indexMap info)) eqn:Ex; [|destruct (to_eol_ws (v_eol v) (v_rest v)) as [rest'|at_] eqn:Et]];
    (eexists (v_values v), _; split; [done|split; [|intros infos changed; rewrite bind_ret, Em;
       rewrite (bool_decide_eq_true_2 ([] = [] :> bytes) eq_refl); cbn [negb]; rewrite Hv, bind_ret, ?Ex, ?Et; reflexivity]]); try done.
  intros s' [= <-]. by apply He.
Qed.

(** The relation of two scans that differ in what the caches hold. *)
Definition same_scan (n : nat) (st1 st2 : loop) : Prop :=
  coherent (l_infos st1) /\ coherent (l_infos st2) /\ l_info st1 = l_info st2 /\ l_values st1 = l_values st2 /\
  length (l_values st1) = NET_SNMP_NUM_VALUES /\
  (Nat.odd n = false -> exists i, l_info st1 = Some i /\ info_ok i).

Lemma parse_line_sim n s st1 st2 :
  s <> [] -> same_scan n st1 st2 ->
  exists st1' st2' r, parse_line n s st1 = Ret (st1', r) /\ parse_line n s st2 = Ret (st2', r) /\
    match r with
    | inl _ => coherent (l_infos st1') /\ l_values st1' = l_values st2' /\ length (l_values st1') = NET_SNMP_NUM_VALUES
    | inr s' => same_scan (S n) st1' st2' /\ length s' < length s
    end.
Proof.
  intros Hs (H1 & H2 & Hi & Hv & Hl & Hev). unfold parse_line. destruct (Nat.odd n) eqn:Eo.
  - pose proof (info_line_spec n s st1 Hs H1) as Hs1. pose proof (info_line_spec n s st2 Hs H2) as Hs2.
    destruct (span (fun c => negb (beq c NL)) s) as [ln rest].
    destruct Hs1 as (i1 & c1 & Hc1 & Hp1 & Hlt). destruct Hs2 as (i2 & c2 & Hc2 & Hp2 & _).
    eexists _, _, _. split; [exact Hp1|]. split; [exact Hp2|].
    destruct (buildSnmpLineInfo ln) as [i|] eqn:Eb; [|by cbn [l_infos l_values]].
    split; [|done]. split_and!; cbn [l_infos l_values l_info]; try done.
    intros _. exists i. split; [done|]. unfold info_ok. by rewrite (proj1 (buildSnmpLineInfo_inv _ _ Eb)).
  - destruct (Hev eq_refl) as (i & Ei & Hok). rewrite Ei in Hi.
    destruct st1 as [is1 ii1 vs1 cs1], st2 as [is2 ii2 vs2 cs2]. cbn [l_infos l_info l_values l_changed] in *.
    subst ii1 ii2 vs2.
    destruct (data_line_ret n s i vs1 Hs Hok Hl) as (vs' & r & Hl' & Hlt & Hd).
    eexists _, _, r. split; [apply Hd|]. split; [apply Hd|].
    destruct r as [e|s']; [by cbn [l_infos l_values]|]. split; [|by apply Hlt].
    split_and!; cbn [l_infos l_values l_info]; try done. intros Ho. exfalso. rewrite Nat.odd_succ in Ho.
    rewrite <- Nat.negb_odd, Eo in Ho. done.
Qed.

(** C37: the cache of the lines of names cannot be observed.  Whatever lines the
    parser saw before, for any content a parse returns, with the same values
    and the same error as that of a parser that has no cached line; and what it
    caches is again what it would build. *)
Theorem netsnmp_cache_transparent rd s :
  coherent (lineInfo s) -> length (Values s) = NET_SNMP_NUM_VALUES ->
  exists s1 s2 e, Parse rd s = Ret (s1, e) /\
    Parse rd (mkNetSnmp (Values s) (InfoChanged s) (path s) []) = Ret (s2, e) /\
    Values s1 = Values s2 /\ length (Values s1) = NET_SNMP_NUM_VALUES /\ coherent (lineInfo s1).
Proof.
  intros Hco Hl. destruct rd as [buf| |buf]; [|by eexists _, _, _..].
  destruct (scan_lines_sim parse_line parse_line same_scan
    (fun st1 st2 => coherent (l_infos st1) /\ l_values st1 = l_values st2 /\ length (l_values st1) = NET_SNMP_NUM_VALUES)
    1 buf (mkLoop (lineInfo s) None (Values s) None) (mkLoop [] None (Values s) None))
    as (st1 & st2 & e & Hp1 & Hp2 & Hc & Hv & Hlv).
  - intros n st1 st2 (H1 & _ & _ & H2 & H3 & _). done.
  - intros. by apply parse_line_sim.
  - split_and!; cbn [l_infos l_values l_info]; try done. constructor.
  - unfold Parse. cbn [lineInfo Values]. rewrite Hp1, Hp2, !bind_ret. eexists _, _, e. split; [reflexivity|].
    split; [reflexivity|]. done.
Qed.

(** ** A well-formed file *)

(** A value: white space, sign and digits. *)
Record stok := STok { s_ws : bytes; s_neg : bool; s_num : bytes }.
Definition sign (neg : bool) : bytes := if neg then [MINUS] else [].
Definition stok_ok (t : stok) : Prop := is_ws (s_ws t) /\ is_num (s_num t).
Definition srender (ts : list stok) : bytes := concat (map (fun t => s_ws t ++ sign (s_neg t) ++ s_num t) ts).
Definition sval (t : stok) : Z := if s_neg t then u32 (- dec (s_num t)) else u32 (dec (s_num t)).

Lemma negate_u32 v : (0 <= v < 2 ^ 32)%Z -> u32 (Z.lxor v (2 ^ 32 - 1) + 1) = u32 (- v).
Proof.
  intros Hv. assert (Z.lxor v (2 ^ 32 - 1) = 2 ^ 32 - 1 - v)%Z as ->.
  { change (2 ^ 32 - 1)%Z with (Z.ones 32).
    assert (Z.ldiff v (Z.ones 32) = 0)%Z as Hld.
    { apply Z.bits_inj'. intros n Hn. rewrite Z.ldiff_spec, Z.bits_0.
      destruct (decide (n < 32)%Z); [rewrite Z.ones_spec_low by lia; apply andb_false_r|].
      rewrite Z.bits_above_log2; [done|lia|]. destruct (decide (v = 0)%Z) as [->|]; [simpl; lia|].
      apply Z.log2_lt_pow2; [lia|]. eapply Z.lt_le_trans; [exact (proj2 Hv)|]. apply Z.pow_le_mono_r; lia. }
    rewrite Z.sub_nocarry_ldiff by exact Hld. apply Z.bits_inj'. intros n Hn.
    pose proof (f_equal (fun z => Z.testbit z n) Hld) as Hb. cbn beta in Hb. rewrite Z.ldiff_spec, Z.bits_0 in Hb.
    rewrite Z.lxor_spec, Z.ldiff_spec. by destruct (Z.testbit v n), (Z.testbit (Z.ones 32) n). }
  unfold u32, wrapu. replace (2 ^ 32 - 1 - v + 1)%Z with (- v + 1 * 2 ^ 32)%Z by lia. by rewrite Z.mod_add.
Qed.

Lemma u32_opp z : u32 (- u32 z) = u32 (- z).
Proof. unfold u32, wrapu. rewrite <- !(Z.sub_0_l (_ mod _)), Zminus_mod_idemp_r. f_equal. Qed.

Definition put_opt (vi : option nat) (z : Z) (values : list Z) : list Z :=
  match vi with Some i => <[i := z]> values | None => values end.

Lemma value_body_step n ls imap idx vi t rest values :
  imap !! idx = Some vi -> stok_ok t -> (s_neg t = true -> vi = None \/ vi = Some NET_SNMP_TCP_MAX_CONN) ->
  (forall i, vi = Some i -> i < length values) -> sep_tail rest ->
  value_body n ls imap (mkVals false (s_ws t ++ sign (s_neg t) ++ s_num t ++ rest) idx values) =
  Ret (inl (mkVals (tail_eol rest) (tail rest) (S idx) (put_opt vi (sval t) values))).
Proof.
  intros Hvi [Hws Hnum] Hneg Hlt Hrest. unfold value_body. cbn [v_eol v_rest v_idx v_values].
  rewrite bool_decide_eq_false_2; [|destruct (s_ws t), (s_neg t), Hnum as [? _], (s_num t); done].
  rewrite (proj2 (Nat.ltb_lt idx (length imap))) by (by eapply lookup_lt_Some). cbn [negb andb].
  assert (skip isWhitespace (s_ws t ++ sign (s_neg t) ++ s_num t ++ rest) = sign (s_neg t) ++ s_num t ++ rest) as ->.
  { apply skip_app; [done|]. destruct (s_neg t); [done|]. exact (is_num_stops_ws (s_num t) rest Hnum). }
  assert (take_sign (sign (s_neg t) ++ s_num t ++ rest) = (s_neg t, s_num t ++ rest)) as ->.
  { destruct (s_neg t); [done|]. destruct Hnum as [Hne Hds]. destruct Hds as [|c ds Hc _]; [done|]. simpl.
    assert (beq c MINUS = false) as ->; [|done]. apply beq_false. intros ->. by vm_compute in Hc. }
  rewrite scan_num_token by (done || lia). unfold put_value. rewrite Hvi. cbn [must]. rewrite bind_ret.
  fold (u32 (dec (s_num t))). unfold put_opt, sval. destruct vi as [i|].
  - rewrite !store_Ret by (by apply Hlt). destruct (s_neg t); [|done]. destruct (Hneg eq_refl) as [?|[= ->]]; [done|].
    rewrite negate_u32 by (apply wrapu_range; lia). rewrite u32_opp. done.
  - by destruct (s_neg t).
Qed.

(** The values of a line are stored in order. *)
Lemma scan_values_run n ls vis : forall fuel pre ts trail rest values,
  ts <> [] -> length ts = length vis -> Forall stok_ok ts -> Forall (fun t => s_ws t <> []) (tail ts) ->
  Forall2 (fun vi t => s_neg t = true -> vi = None \/ vi = Some NET_SNMP_TCP_MAX_CONN) vis ts ->
  (forall k i, vis !! k = Some (Some i) -> i < length values) -> is_ws trail ->
  length ts < fuel ->
  let t := trail ++ NL :: rest in
  while fuel (value_body n ls (pre ++ vis)) (mkVals false (srender ts ++ t) (length pre) values) =
  Ret (mkVals (tail_eol t) (tail t) (length pre + length vis)
         (foldl (fun l p => put_opt p.1 (sval p.2) l) values (zip vis ts)), None).
Proof.
  induction vis as [|vi vis IH]; intros fuel pre ts trail rest values Hne Hlen Hok Hsep Hneg Hlt Htr Hf t; [by destruct ts|].
  destruct ts as [|tk ts]; [done|]. injection Hlen as Hlen. inversion_clear Hok as [|? ? Htk Hts].
  inversion_clear Hneg as [|? ? ? ? Hn1 Hn2]. simpl in Hsep. destruct fuel as [|fuel]; [lia|].
  assert (sep_tail t) as Ht by (unfold t; destruct Htr as [|c tr Hc _]; [done|]; simpl; unfold is_sep; by rewrite Hc, orb_true_r).
  assert (srender (tk :: ts) ++ t = s_ws tk ++ sign (s_neg tk) ++ s_num tk ++ srender ts ++ t) as ->
    by (unfold srender; simpl; by rewrite <- !app_assoc).
  erewrite while_inl; last first.
  { apply value_body_step with (vi := vi); [by apply list_lookup_middle|done|done|by intros i ->; apply (Hlt 0)|].
    destruct ts as [|t2 ts]; [done|]. inversion_clear Hts as [|? ? [Hw2 _] _]. inversion_clear Hsep as [|? ? Hs2 _].
    unfold srender. simpl. destruct Hw2 as [|c w Hc _]; [done|]. simpl. unfold is_sep. by rewrite Hc, orb_true_r. }
  destruct ts as [|t2 ts].
  - destruct vis; [|done]. destruct fuel as [|fuel]; [simpl in Hf; lia|]. cbn [srender map concat app].
    erewrite while_inr; [|unfold value_body; cbn [v_eol v_rest v_idx v_values];
      rewrite length_app, (proj2 (Nat.ltb_ge (S (length pre)) _)) by (simpl; lia); rewrite andb_false_r; reflexivity].
    cbn [length]. by rewrite Nat.add_1_r.
  - inversion_clear Hts as [|? ? [Hw2 Hd2] Hts']. inversion_clear Hsep as [|? ? Hs2 Hs3].
    destruct t2 as [w2 n2 d2]. cbn [s_ws s_neg s_num] in *. destruct Hw2 as [|c w Hc Hw]; [done|].
    assert (srender (STok (c :: w) n2 d2 :: ts) ++ t = c :: srender (STok w n2 d2 :: ts) ++ t) as -> by done.
    cbn [tail_eol tail]. rewrite (ws_not_nl _ Hc).
    replace (S (length pre)) with (length (pre ++ [vi])) by (rewrite length_app; simpl; lia).
    replace (pre ++ vi :: vis) with ((pre ++ [vi]) ++ vis) by (by rewrite <- app_assoc).
    unfold t. rewrite IH; try done.
    + cbn [zip_with foldl]. f_equal. f_equal. f_equal; [rewrite length_app; simpl; lia|]. by destruct vis.
    + by constructor.
    + destruct vis; [done|]. inversion_clear Hn2. by constructor.
    + intros k i Hk. unfold put_opt. destruct vi; [rewrite length_insert|]; by apply (Hlt (S k)).
    + simpl in *. lia.
Qed.

(** The two lines of a protocol. *)
Record block := Block { b_proto : bytes; b_vars : list wtoken; b_vtrail : bytes; b_vals : list stok; b_trail : bytes }.
Definition names_line (b : block) : bytes := b_proto b ++ COLON :: wrender (b_vars b) ++ b_vtrail b.
Definition values_line (b : block) : bytes := b_proto b ++ COLON :: srender (b_vals b) ++ b_trail b ++ [NL].
Definition block_out (b : block) : bytes := names_line b ++ NL :: values_line b.
Definition block_idx (b : block) : list (option nat) := map (fun v => idx_of (b_proto b) v.2) (b_vars b).

Record block_ok (b : block) : Prop := mkBlockOk {
  bo_proto : fword (b_proto b) /\ Forall (fun c => c <> COLON) (b_proto b);
  bo_vars : b_vars b <> [] /\ Forall wtok_ok (b_vars b) /\ is_ws (b_vtrail b);
  bo_vals : length (b_vals b) = length (b_vars b) /\ Forall stok_ok (b_vals b) /\ Forall (fun t => s_ws t <> []) (b_vals b) /\
            is_ws (b_trail b);
  bo_neg : Forall2 (fun vi t => s_neg t = true -> vi = None \/ vi = Some NET_SNMP_TCP_MAX_CONN) (block_idx b) (b_vals b)
}.

(** The variables of a block with their values. *)
Definition block_rows (b : block) : list (bytes * bytes * Z) :=
  zip_with (fun v t => (b_proto b, v.2, sval t)) (b_vars b) (b_vals b).
Definition store_var : list Z -> bytes * bytes * Z -> list Z :=
  store_row (fun r : bytes * bytes * Z => r.1) (fun r => r.2) (fun k => idx_of k.1 k.2).

Lemma word_no_nl w : Forall (fun c => word_char c = true) w -> Forall (fun c => negb (beq c NL) = true) w.
Proof. intros H. eapply Forall_impl; [exact H|]. intros c. destruct c; vm_compute; congruence. Qed.
Lemma ws_no_nl w : is_ws w -> Forall (fun c => negb (beq c NL) = true) w.
Proof. intros H. eapply Forall_impl; [exact H|]. intros c Hc. by rewrite ws_not_nl. Qed.

Lemma names_line_no_nl b : block_ok b -> Forall (fun c => negb (beq c NL) = true) (names_line b).
Proof.
  intros [[[_ Hp] _] (_ & Hv & Ht) _ _]. unfold names_line. apply Forall_app_2; [by apply word_no_nl|].
  constructor; [done|]. apply Forall_app_2; [|by apply ws_no_nl]. unfold wrender.
  induction Hv as [|[ws w] ts (Hws & _ & [_ Hw]) _ IH]; simpl in *; [constructor|].
  apply Forall_app_2; [|done]. apply Forall_app_2; [by apply ws_no_nl|by apply word_no_nl].
Qed.

Lemma names_line_prefix b : block_ok b -> prefix_len (names_line b) = S (length (b_proto b)).
Proof.
  intros [[_ Hc] _ _ _]. unfold prefix_len, names_line.
  rewrite (span_app _ (b_proto b) (COLON :: _)); [done| |done].
  eapply Forall_impl; [exact Hc|]. intros c Hne. apply negb_true_iff. by apply beq_false.
Qed.

Lemma build_block b : block_ok b ->
  buildSnmpLineInfo (names_line b) = Some (mkInfo (names_line b) (S (length (b_proto b))) (block_idx b)).
Proof.
  intros Hb. unfold buildSnmpLineInfo. rewrite names_line_prefix by done.
  destruct Hb as [[[Hne Hp] Hc] (Hvne & Hv & Ht) _ _].
  rewrite (proj2 (Nat.ltb_lt 1 _)) by (destruct (b_proto b); [done|simpl; lia]).
  assert (0 < length (wrender (b_vars b))) as Hpos.
  { destruct Hv as [|[ws w] ts (_ & Hn & _) _]; [done|]. unfold wrender. simpl in *. rewrite !length_app. destruct ws; [done|simpl; lia]. }
  rewrite (proj2 (Nat.ltb_lt _ (length (names_line b)))) by (unfold names_line; rewrite length_app; simpl; rewrite length_app; lia).
  cbn [andb].
  assert (drop (S (S (length (b_proto b)))) (names_line b) = drop 1 (wrender (b_vars b) ++ b_vtrail b)) as ->.
  { unfold names_line. replace (S (S (length (b_proto b)))) with (length (b_proto b) + 2) by lia. by rewrite drop_app_add. }
  rewrite Fields_of_wrender_drop by done.
  assert (take (S (length (b_proto b)) - 1) (names_line b) = b_proto b) as ->.
  { unfold names_line. replace (S (length (b_proto b)) - 1) with (length (b_proto b)) by lia. apply take_app_length. }
  rewrite TrimSpace_word by done. destruct (map snd (b_vars b)) as [|v vs] eqn:Em; [by destruct (b_vars b)|].
  rewrite <- Em, map_map. reflexivity.
Qed.

Lemma data_line_block n b infos values changed rest :
  block_ok b -> length values = NET_SNMP_NUM_VALUES ->
  let info := mkInfo (names_line b) (S (length (b_proto b))) (block_idx b) in
  data_line n (values_line b ++ rest) (mkLoop infos (Some info) values changed) =
  Ret (mkLoop infos (Some info) (foldl store_var values (block_rows b)) changed, inr rest).
Proof.
  intros Hb Hlen info. unfold data_line. cbn [l_info l_infos l_values l_changed must]. rewrite bind_ret. cbn [prefixLen line indexMap info].
  assert (take (S (length (b_proto b))) (names_line b) = b_proto b ++ [COLON]) as ->.
  { assert (names_line b = (b_proto b ++ [COLON]) ++ wrender (b_vars b) ++ b_vtrail b) as -> by (by rewrite <- app_assoc).
    replace (S (length (b_proto b))) with (length (b_proto b ++ [COLON])) by (rewrite length_app; simpl; lia).
    apply take_app_length. }
  set (tl := b_trail b ++ NL :: rest).
  assert (values_line b ++ rest = (b_proto b ++ [COLON]) ++ srender (b_vals b) ++ tl) as ->.
  { unfold values_line, tl. rewrite <- !app_assoc. cbn [app]. by rewrite <- !app_assoc. }
  rewrite match_prefix_app. rewrite (bool_decide_eq_true_2 ([] = [] :> bytes) eq_refl). cbn [negb].
  set (s0 := (b_proto b ++ [COLON]) ++ srender (b_vals b) ++ tl). pose proof Hb as [_ (Hvne & _ & _) (Hl & Hok & Hsep & Htr) Hneg].
  unfold scan_values. change (block_idx b) with ([] ++ block_idx b).
  assert (length (b_vals b) <= length (srender (b_vals b))) as Hlr.
  { clear -Hok. unfold srender. induction Hok as [|t ts [_ [Hne _]] _ IH]; [done|]. simpl. rewrite !length_app.
    destruct (s_num t); [done|simpl; lia]. }
  rewrite (scan_values_run n s0 (block_idx b) _ [] (b_vals b) (b_trail b) rest values); try done.
  - rewrite bind_ret. cbn [v_idx v_values v_eol v_rest length Nat.add app]. rewrite Nat.ltb_irrefl.
    assert (to_eol_ws (tail_eol tl) (tail tl) = inl rest) as Ht.
    { unfold tl. destruct Htr as [|c tr Hc Htr]; [apply to_eol_ws_done|]. cbn [app tail_eol tail].
      rewrite (ws_not_nl _ Hc). by apply to_eol_ws_run. }
    fold tl. rewrite Ht. f_equal. f_equal. f_equal.
    unfold block_rows, block_idx. clear. revert values. generalize (b_vals b) as ts.
    induction (b_vars b) as [|v vs IH]; intros [|t ts] values; cbn [map zip_with foldl]; [done..|]. apply IH.
  - intros E. by rewrite E in Hl; destruct (b_vars b).
  - unfold block_idx. by rewrite length_map.
  - by destruct Hsep.
  - unfold block_idx. intros k i. rewrite list_lookup_fmap, Hlen. intros (v & _ & Hi)%fmap_Some.
    symmetry in Hi. exact (idx_of_lt _ _ _ Hi).
  - rewrite !length_app. simpl. lia.
Qed.

Lemma store_vars_length rows : forall values, length (foldl store_var values rows) = length values.
Proof. induction rows as [|r rows IH]; intros values; cbn [foldl]; [done|]. rewrite IH. apply store_row_length. Qed.

Lemma snmp_scan_blocks blocks : forall n st,
  Nat.odd n = true -> Forall block_ok blocks -> coherent (l_infos st) -> length (l_values st) = NET_SNMP_NUM_VALUES ->
  exists st', scan_lines parse_line n (concat (map block_out blocks)) st = Ret (st', None) /\ coherent (l_infos st') /\
    l_values st' = foldl store_var (l_values st) (concat (map block_rows blocks)).
Proof.
  induction blocks as [|b blocks IH]; intros n st Hn Hok Hco Hlen; [by exists st|].
  inversion_clear Hok as [|? ? Hb Hbs]. cbn [map concat]. set (rest := concat (map block_out blocks)).
  assert (block_out b ++ rest = names_line b ++ NL :: values_line b ++ rest) as Hs.
  { unfold block_out. by rewrite <- app_assoc. }
  pose proof (info_line_spec n (block_out b ++ rest) st ltac:(rewrite Hs; by destruct (names_line b)) Hco) as Hi.
  assert (span (fun c => negb (beq c NL)) (block_out b ++ rest) = (names_line b, NL :: values_line b ++ rest)) as Hsp
    by (rewrite Hs; apply span_app; [by apply names_line_no_nl|done]).
  rewrite Hsp in Hi.
  destruct Hi as (infos & changed & Hinf & Hil & Hlt). rewrite build_block in Hil by done. cbn [drop] in Hil, Hlt.
  destruct (IH (S (S n)) (mkLoop infos (Some (mkInfo (names_line b) (S (length (b_proto b))) (block_idx b)))
    (foldl store_var (l_values st) (block_rows b)) changed)) as (st' & Hr & Hc' & Hv'); [done|done|done|by cbn [l_values]; rewrite store_vars_length|].
  exists st'. split; [|split; [done|by rewrite Hv', foldl_app]].
  eapply scan_lines_step; [rewrite Hs; by destruct (names_line b)|unfold parse_line; rewrite Hn; exact Hil|exact Hlt|].
  assert (Nat.odd (S n) = false) as Hev by (rewrite Nat.odd_succ, <- Nat.negb_odd, Hn; done).
  eapply scan_lines_step; [|unfold parse_line; rewrite Hev; by apply data_line_block| |exact Hr].
  - unfold values_line. by destruct (b_proto b).
  - rewrite drop_0, length_app. unfold values_line. rewrite length_app. simpl. lia.
Qed.

(** a file of protocols, whose names and values stand in pairs of lines, is
    parsed without an error to the values modulo 2^32 of the known variables,
    in two's complement for the one that may be negative, each under the index
    of its protocol and name; the other values are left alone.  This holds
    whatever lines of names the parser has seen before. *)
Theorem netsnmp_parse_file s blocks :
  coherent (lineInfo s) -> length (Values s) = NET_SNMP_NUM_VALUES ->
  Forall block_ok blocks -> NoDup (map (fun r => r.1) (concat (map block_rows blocks))) ->
  exists s', Parse (ReadOk (concat (map block_out blocks))) s = Ret (s', None) /\
    coherent (lineInfo s') /\ length (Values s') = NET_SNMP_NUM_VALUES /\
    (forall proto v z i, (proto, v, z) ∈ concat (map block_rows blocks) -> idx_of proto v = Some i -> Values s' !! i = Some z) /\
    (forall i, (forall proto v z, (proto, v, z) ∈ concat (map block_rows blocks) -> idx_of proto v <> Some i) ->
       Values s' !! i = Values s !! i).
Proof.
  intros Hco Hlen Hok Hnd.
  destruct (snmp_scan_blocks blocks 1 (mkLoop (lineInfo s) None (Values s) None) eq_refl Hok Hco Hlen) as (st' & Hs & Hc & Hv).
  unfold Parse. rewrite Hs, bind_ret. eexists. split; [reflexivity|]. cbn [lineInfo Values]. split; [done|].
  destruct (store_rows_spec (fun r : bytes * bytes * Z => r.1) (fun r => r.2) (fun k => idx_of k.1 k.2) NET_SNMP_NUM_VALUES
    (concat (map block_rows blocks)) (Values s)) as (H1 & H2 & H3); [by intros [] ? ?%idx_of_lt| |exact Hnd|exact Hlen|].
  { intros [p1 v1] [p2 v2] i E1%idx_of_variable E2%idx_of_variable. simpl in *. congruence. }
  cbn [l_values] in Hv. unfold store_var in Hv. rewrite Hv. split; [exact H1|]. split.
  - intros proto v z i Hin Hi. exact (H2 _ _ Hin Hi).
  - intros i Hi. apply H3. intros [[p v] z] Hin. exact (Hi p v z Hin).
Qed.

(** A small file, read by a parser that has cached another line of names. *)
Definition snmp_seen : NetSnmp :=
  mkNetSnmp (replicate NET_SNMP_NUM_VALUES 0%Z) None (bs "/proc/net/snmp")
    (option_list (buildSnmpLineInfo (bs "Tcp: RtoMin MaxConn"))).
Definition snmp_file : list block :=
  let tok s neg n := STok (bs s) neg (bs n) in
  [Block (bs "Tcp") [(bs " ", bs "RtoMin"); (bs " ", bs "RtoMax"); (bs "  ", bs "MaxConn")] []
     [tok " "%string false "200"%string; tok " "%string false "120000"%string; tok " "%string true "1"%string] (bs " ")].

Lemma snmp_seen_coherent : coherent (lineInfo snmp_seen).
Proof. constructor; [vm_compute; reflexivity|constructor]. Qed.

Lemma netsnmp_parse_file_witness :
  exists s', Parse (ReadOk (concat (map block_out snmp_file))) snmp_seen = Ret (s', None) /\
    Values s' !! 50 = Some 120000%Z /\ Values s' !! 51 = Some 4294967295%Z.
Proof.
  destruct (netsnmp_parse_file snmp_seen snmp_file) as (s' & Hp & _ & _ & Hv & _).
  - exact snmp_seen_coherent.
  - reflexivity.
  - repeat constructor; (done || (intros _; right; reflexivity)).
  - apply (bool_decide_unpack _). vm_compute. exact I.
  - exists s'. split; [exact Hp|]. split.
    + apply (Hv (bs "Tcp") (bs "RtoMax")); [vm_compute; right; left|vm_compute; reflexivity].
    + apply (Hv (bs "Tcp") (bs "MaxConn")); [vm_compute; right; right; left|vm_compute; reflexivity].
Defined.

Lemma netsnmp_cache_transparent_witness :
  exists s1 s2 e, Parse (ReadOk (concat (map block_out snmp_file))) snmp_seen = Ret (s1, e) /\
    Parse (ReadOk (concat (map block_out snmp_file))) (mkNetSnmp (Values snmp_seen) None (path snmp_seen) []) = Ret (s2, e) /\
    Values s1 = Values s2.
Proof.
  destruct (netsnmp_cache_transparent (ReadOk (concat (map block_out snmp_file))) snmp_seen) as (s1 & s2 & e & H1 & H2 & H3 & _).
  - exact snmp_seen_coherent.
  - reflexivity.
  - exists s1, s2, e. split; [exact H1|]. split; [exact H2|exact H3].
Defined.
End NetSnmp.
