(* ===== verification/Mountinfo.v ===== *)
(** Parser for /proc/PID/mountinfo (src/procfs/mountinfo_parser.go): the content
    is kept and parsed again only when it changed; a line has ten fields and a
    group of optional ones that ends with a single hyphen.

    The parsed fields are slices of the content that the parser keeps; here
    they are the bytes. *)

From Stdlib Require Import ZArith Lia.
From stdpp Require Import base tactics numbers strings gmap list.
From S2P Require Import Prelude Scan.

Module Mountinfo.

Definition MOUNTINFO_OPTIONAL_FIELDS : nat := 6.
Definition MOUNTINFO_NUM_FIELDS : nat := 11.

(** [None] for the nil slices of a line that is not complete. *)
Abbreviation MountinfoParsedLine := (list (option bytes)).

Record Mountinfo := mkMountinfo {
  ParsedLines : list MountinfoParsedLine;
  Changed : bool;
  ForceUpdate : bool;
  content : bytes;
  path : bytes
}.

Inductive error :=
| ErrRead
| ErrMissingFields (lineNum : nat) (line : bytes) (want got : nat)
| ErrExtra (lineNum : nat) (line rest : bytes).

Definition NewMountinfo (path : bytes) : Mountinfo := mkMountinfo [] false false [] path.

Definition Clone (full : bool) (m : Mountinfo) : Mountinfo :=
  mkMountinfo [] (Changed m) (ForceUpdate m) (if full then content m else []) (path m).

Definition HYPHEN : byte := Init.Byte.x2d.

(** [for ; isWhitespace[buf[pos]]; pos++]: there is no check for the end of the
    buffer. *)
Fixpoint skip_ws (s : bytes) : outcome bytes :=
  match s with
  | [] => Panic
  | c :: s' => if isWhitespace c then skip_ws s' else Ret s
  end.

(** The word at the cursor, what follows it, and whether that is the end of the
    line. *)
Definition word (s : bytes) : bytes * bytes * bool :=
  let '(w, r) := span (fun c => negb (beq c NL || isWhitespace c)) s in
  (w, r, match r with c :: _ => beq c NL | [] => false end).

(** The loop over the words of a line: the optional fields are the bytes between
    two cursors. *)
Record scan := mkScan {
  sc_pos : bytes;
  sc_eol : bool;
  sc_idx : nat;
  sc_info : MountinfoParsedLine;
  sc_opt : option (bytes * bytes)
}.

(** [buf[from:to]] of two cursors. *)
Definition between (from to : bytes) : bytes := take (length from - length to) from.

Definition word_body (st : scan) : outcome (scan + scan) :=
  if negb (sc_eol st) && negb (bool_decide (sc_pos st = [])) && (sc_idx st <? MOUNTINFO_NUM_FIELDS) then
    wordStart ← skip_ws (sc_pos st);
    let '(w, r, eol) := word wordStart in
    if sc_idx st =? MOUNTINFO_OPTIONAL_FIELDS then
      let '(os, oe) := default (wordStart, wordStart) (sc_opt st) in
      if bool_decide (w = [HYPHEN]) then
        info ← store (sc_info st) (sc_idx st) (Some (between os oe));
        info ← store info (S (sc_idx st)) (Some w);
        Ret (inl (mkScan (drop 1 r) eol (S (S (sc_idx st))) info (Some (os, oe))))
      else Ret (inl (mkScan (drop 1 r) eol (sc_idx st) (sc_info st) (Some (os, r))))
    else
      info ← store (sc_info st) (sc_idx st) (Some w);
      Ret (inl (mkScan (drop 1 r) eol (S (sc_idx st)) info (sc_opt st)))
  else Ret (inr st).

(** One line. *)
Definition parse_line (lineNum : nat) (s : bytes) (lines : list MountinfoParsedLine)
    : outcome (list MountinfoParsedLine * (error + bytes)) :=
  st ← while (S (length s) + 1) word_body (mkScan s false 0 (replicate MOUNTINFO_NUM_FIELDS None) None);
  if sc_idx st <? MOUNTINFO_NUM_FIELDS
  then Ret (lines, inl (ErrMissingFields lineNum (current_line s) MOUNTINFO_NUM_FIELDS (sc_idx st)))
  else match to_eol_ws (sc_eol st) (sc_pos st) with
       | inl rest => Ret (lines ++ [sc_info st], inr rest)
       | inr at_ => Ret (lines, inl (ErrExtra lineNum (current_line s) (current_line at_)))
       end.

Definition update (m : Mountinfo) : outcome (Mountinfo * option error) :=
  '(lines, err) ← scan_lines parse_line 1 (content m) [];
  Ret (mkMountinfo lines (Changed m) (ForceUpdate m) (content m) (path m), err).

Definition Parse (rd : read_result) (m : Mountinfo) : outcome (Mountinfo * option error) :=
  match rd with
  | ReadErr | ReadTrunc _ => Ret (m, Some ErrRead)
  | ReadOk buf =>
    let changed := ForceUpdate m || negb (bool_decide (content m = buf)) in
    if changed then update (mkMountinfo (ParsedLines m) changed (ForceUpdate m) buf (path m))
    else Ret (mkMountinfo (ParsedLines m) changed (ForceUpdate m) (content m) (path m), None)
  end.

(** ** A well-formed file *)

Definition is_word (w : bytes) : Prop := w <> [] /\ Forall (fun c => negb (beq c NL || isWhitespace c) = true) w.

(** Words with the white space before them; there is some before all but the
    first. *)
Abbreviation tokens := (list (bytes * bytes)).
Definition token_ok (t : bytes * bytes) : Prop := is_ws t.1 /\ is_word t.2.
Definition tokens_ok (ts : tokens) : Prop := Forall token_ok ts /\ Forall (fun t => t.1 <> []) (tail ts).
Definition words (ts : tokens) : bytes := concat (map (fun t => t.1 ++ t.2) ts).

(** Six fields, the optional ones, and after the hyphen three fields. *)
Record mline := MLine { m_head : tokens; m_opt : tokens; m_sep : bytes; m_tail : tokens; m_trail : bytes }.
Definition mline_out (m : mline) : bytes :=
  words (m_head m) ++ words (m_opt m) ++ m_sep m ++ [HYPHEN] ++ words (m_tail m) ++ m_trail m ++ [NL].
(** The optional fields with the white space between them. *)
Definition opt_text (ts : tokens) : bytes := match ts with [] => [] | (_, w) :: ts => w ++ words ts end.
Definition mline_fields (m : mline) : MountinfoParsedLine :=
  map Some (map snd (m_head m) ++ [opt_text (m_opt m); [HYPHEN]] ++ map snd (m_tail m)).

Definition sep_ok (ts : tokens) : Prop := Forall (fun t => t.1 <> []) ts.
Record mline_ok (m : mline) : Prop := mkMlineOk {
  mo_head : length (m_head m) = 6 /\ tokens_ok (m_head m);
  mo_opt : tokens_ok (m_opt m) /\ sep_ok (m_opt m) /\ Forall (fun t => t.2 <> [HYPHEN]) (m_opt m);
  mo_sep : is_ws (m_sep m) /\ m_sep m <> [];
  mo_tail : length (m_tail m) = 3 /\ tokens_ok (m_tail m) /\ sep_ok (m_tail m);
  mo_trail : is_ws (m_trail m)
}.

Lemma skip_ws_run ws t : is_ws ws -> stops isWhitespace t -> t <> [] -> skip_ws (ws ++ t) = Ret t.
Proof.
  intros Hws Ht Hne. induction Hws as [|c ws Hc _ IH]; cbn [app skip_ws]; [|by rewrite Hc].
  destruct t as [|c t]; [done|]. simpl in Ht. cbn [skip_ws]. by rewrite Ht.
Qed.

Lemma word_char_not_ws c : negb (beq c NL || isWhitespace c) = true -> isWhitespace c = false.
Proof. intros H%negb_true_iff%orb_false_iff. tauto. Qed.

(** A word after white space and before a separator [t]. *)
Lemma word_run ws w t : is_ws ws -> is_word w -> sep_tail t -> t <> [] ->
  skip_ws (ws ++ w ++ t) = Ret (w ++ t) /\ word (w ++ t) = (w, t, tail_eol t).
Proof.
  intros Hws [Hne Hw] Ht Htne. split.
  - apply skip_ws_run; [done| |by destruct w]. destruct Hw as [|c w Hc _]; [done|]. simpl. by apply word_char_not_ws.
  - unfold word. rewrite span_app; [by destruct t|done|]. destruct t as [|c t]; [done|]. simpl in *. unfold is_sep in Ht. by rewrite Ht.
Qed.

Lemma drop1_tail (s : bytes) : drop 1 s = tail s.
Proof. by destruct s. Qed.

(** A state whose first [idx] fields are known. *)
Definition at_field (pos : bytes) (eol : bool) (pre : list bytes) (k : nat) (opt : option (bytes * bytes)) : scan :=
  mkScan pos eol (length pre) (map Some pre ++ replicate k None) opt.

Lemma store_next (pre : list bytes) k w :
  store (map Some pre ++ replicate (S k) None) (length pre) (Some w) = Ret (map Some (pre ++ [w]) ++ replicate k None).
Proof.
  rewrite store_Ret by (rewrite length_app, length_map; simpl; lia). f_equal.
  rewrite insert_app_r_alt, length_map, Nat.sub_diag by (by rewrite length_map). cbn [replicate list_insert].
  by rewrite map_app, <- app_assoc.
Qed.

(** One iteration at a field that is not the optional ones. *)
Lemma field_step ws w t pre k opt :
  token_ok (ws, w) -> sep_tail t -> t <> [] -> length pre + S k = MOUNTINFO_NUM_FIELDS -> length pre <> MOUNTINFO_OPTIONAL_FIELDS ->
  word_body (at_field (ws ++ w ++ t) false pre (S k) opt) = Ret (inl (at_field (tail t) (tail_eol t) (pre ++ [w]) k opt)).
Proof.
  intros [Hws Hw] Ht Htne Hk Hne. unfold word_body, at_field. cbn [sc_eol sc_pos sc_idx sc_info sc_opt negb andb].
  rewrite bool_decide_eq_false_2; [|destruct ws, Hw, w; done]. rewrite (proj2 (Nat.ltb_lt _ _)) by lia. cbn [negb andb].
  destruct (word_run ws w t Hws Hw Ht Htne) as [-> Hword]. rewrite bind_ret, Hword.
  rewrite (proj2 (Nat.eqb_neq _ _)) by done. rewrite store_next, bind_ret, drop1_tail.
  do 4 f_equal. rewrite length_app. simpl. lia.
Qed.

(** What follows words: white space, or the end of the line. *)
Lemma words_sep ts t : Forall token_ok ts -> sep_ok ts -> sep_tail t -> t <> [] -> sep_tail (words ts ++ t) /\ words ts ++ t <> [].
Proof.
  intros Hok Hs Ht Hne. destruct Hok as [|[ws w] ts [Hws _] _]; [done|]. inversion_clear Hs as [|? ? H0 _].
  cbn [fst snd] in Hws, H0. destruct Hws as [|c ws Hc _]; [done|]. simpl. unfold is_sep. by rewrite Hc, orb_true_r.
Qed.

(** The first white space byte of the words is consumed with the word before. *)
Lemma words_tail ts t : tokens_ok ts -> sep_ok ts -> ts <> [] ->
  exists ts', tail (words ts ++ t) = words ts' ++ t /\ tail_eol (words ts ++ t) = false /\ tokens_ok ts' /\ length ts' = length ts /\
    map snd ts' = map snd ts /\ opt_text ts' = opt_text ts.
Proof.
  intros [Hok Htl] Hs Hne. destruct ts as [|[ws w] ts]; [done|]. inversion_clear Hok as [|? ? [Hws Hw] Hts].
  inversion_clear Hs as [|? ? H0 H1]. cbn [fst snd] in *. destruct Hws as [|c ws Hc Hws]; [done|].
  exists ((ws, w) :: ts). split_and!; try done; [by apply ws_not_nl|]. split; [by constructor|done].
Qed.

(** Several fields in a row. *)
Lemma fields_steps ts : forall fuel t pre k opt,
  ts <> [] -> tokens_ok ts -> sep_tail t -> t <> [] -> length pre + (length ts + k) = MOUNTINFO_NUM_FIELDS ->
  (length pre + length ts <= MOUNTINFO_OPTIONAL_FIELDS \/ MOUNTINFO_OPTIONAL_FIELDS < length pre) ->
  while (length ts + fuel) word_body (at_field (words ts ++ t) false pre (length ts + k) opt) =
  while fuel word_body (at_field (tail t) (tail_eol t) (pre ++ map snd ts) k opt).
Proof.
  remember (length ts) as n eqn:Hn. revert ts Hn. induction n as [|n IH]; intros [|[ws w] ts] Hn fuel t pre k opt Hne Hok Ht Htne Hk Hr; try done.
  injection Hn as ->. destruct Hok as [Hok Htl]. inversion_clear Hok as [|? ? Htok Hts]. cbn [tail] in Htl.
  assert (words ((ws, w) :: ts) ++ t = ws ++ w ++ words ts ++ t) as -> by (unfold words; simpl; by rewrite <- !app_assoc).
  destruct (words_sep ts t Hts Htl Ht Htne) as [Hs1 Hs2].
  change (S (length ts) + fuel) with (S (length ts + fuel)). change (S (length ts) + k) with (S (length ts + k)).
  erewrite while_inl; [|apply field_step; (done || lia)].
  destruct (decide (ts = [])) as [->|Hne']; [done|].
  destruct (words_tail ts t) as (ts' & Ht' & He & Hok' & Hl & Hm & _); [split; [done|]; by destruct Htl|done|done|].
  rewrite Ht', He. rewrite (IH ts'); try done.
  - cbn [map]. rewrite Hm, <- app_assoc. done.
  - by destruct ts', ts.
  - rewrite length_app. simpl. lia.
  - rewrite length_app. simpl. lia.
Qed.

(** One iteration at an optional field, and at the hyphen. *)
Lemma optional_step ws w t pre k opt :
  token_ok (ws, w) -> sep_tail t -> t <> [] -> length pre = MOUNTINFO_OPTIONAL_FIELDS -> k = 4 ->
  word_body (at_field (ws ++ w ++ t) false pre (S k) opt) =
  Ret (inl (let '(os, oe) := default (w ++ t, w ++ t) opt in
            if bool_decide (w = [HYPHEN])
            then at_field (tail t) (tail_eol t) (pre ++ [between os oe; w]) 3 (Some (os, oe))
            else at_field (tail t) (tail_eol t) pre (S k) (Some (os, t)))).
Proof.
  intros [Hws Hw] Ht Htne Hp ->. unfold word_body, at_field. cbn [sc_eol sc_pos sc_idx sc_info sc_opt negb andb].
  rewrite bool_decide_eq_false_2; [|destruct ws, Hw, w; done]. rewrite (proj2 (Nat.ltb_lt (length pre) MOUNTINFO_NUM_FIELDS)) by (rewrite Hp; apply Nat.ltb_lt; done). cbn [negb andb].
  destruct (word_run ws w t Hws Hw Ht Htne) as [-> Hword]. rewrite bind_ret, Hword, (proj2 (Nat.eqb_eq _ _) Hp).
  destruct (default (w ++ t, w ++ t) opt) as [os oe]. rewrite drop1_tail. case_bool_decide; [|done].
  rewrite store_next, bind_ret. replace (S (length pre)) with (length (pre ++ [between os oe])) by (rewrite length_app; simpl; lia).
  rewrite store_next, bind_ret. rewrite <- app_assoc. do 4 f_equal. rewrite !length_app. simpl. lia.
Qed.

Lemma no_hyphen_same (ts ts' : tokens) :
  map snd ts' = map snd ts -> Forall (fun t => t.2 <> [HYPHEN]) ts -> Forall (fun t => t.2 <> [HYPHEN]) ts'.
Proof.
  intros Hm H. apply (List.Forall_map snd (fun w => w <> [HYPHEN])). rewrite Hm. by apply List.Forall_map.
Qed.

Lemma optional_steps ts : forall fuel t pre opt,
  ts <> [] -> tokens_ok ts -> Forall (fun t => t.2 <> [HYPHEN]) ts -> sep_tail t -> t <> [] -> length pre = MOUNTINFO_OPTIONAL_FIELDS ->
  while (length ts + fuel) word_body (at_field (words ts ++ t) false pre 5 opt) =
  while fuel word_body (at_field (tail t) (tail_eol t) pre 5 (Some (from_option fst (opt_text ts ++ t) opt, t))).
Proof.
  remember (length ts) as n eqn:Hn. revert ts Hn. induction n as [|n IH]; intros [|[ws w] ts] Hn fuel t pre opt Hne Hok Hhy Ht Htne Hp; try done.
  injection Hn as ->. destruct Hok as [Hok Htl]. inversion_clear Hok as [|? ? Htok Hts]. inversion_clear Hhy as [|? ? Hh Hhs].
  cbn [tail] in Htl. cbn [snd] in Hh.
  assert (words ((ws, w) :: ts) ++ t = ws ++ w ++ words ts ++ t) as -> by (unfold words; simpl; by rewrite <- !app_assoc).
  destruct (words_sep ts t Hts Htl Ht Htne) as [Hs1 Hs2]. change (S (length ts) + fuel) with (S (length ts + fuel)).
  erewrite while_inl; [|apply optional_step; (done || lia)].
  assert (default (w ++ words ts ++ t, w ++ words ts ++ t) opt =
    (from_option fst (opt_text ((ws, w) :: ts) ++ t) opt, from_option snd (w ++ words ts ++ t) opt)) as ->.
  { destruct opt as [[os oe]|]; [done|]. cbn [default from_option opt_text]. by rewrite <- app_assoc. }
  rewrite bool_decide_eq_false_2 by done.
  destruct (decide (ts = [])) as [->|Hne']; [done|].
  destruct (words_tail ts t) as (ts' & Ht' & He & Hok' & Hl & Hm & _); [split; [done|]; by destruct Htl|done|done|].
  rewrite Ht', He. rewrite (IH ts'); try done; [by destruct ts', ts|].
  by apply (no_hyphen_same ts).
Qed.

Lemma words_length ts : Forall token_ok ts -> length ts <= length (words ts).
Proof.
  induction 1 as [|[ws w] ts [_ [Hne _]] _ IH]; [done|]. unfold words in *. simpl. rewrite !length_app.
  cbn [snd] in Hne. destruct w; [done|simpl; lia].
Qed.

(** The optional fields and the hyphen. *)
Lemma opt_hyphen_steps m fuel t pre :
  mline_ok m -> sep_tail t -> t <> [] -> length pre = MOUNTINFO_OPTIONAL_FIELDS ->
  let s := words (m_opt m) ++ m_sep m ++ HYPHEN :: t in
  exists opt, while (S (length (m_opt m)) + fuel) word_body (at_field (tail s) (tail_eol s) pre 5 None) =
    while fuel word_body (at_field (tail t) (tail_eol t) (pre ++ [opt_text (m_opt m); [HYPHEN]]) 3 opt).
Proof.
  intros [_ ([Hok Htl] & Hsep & Hhy) [Hsw Hsn] _ _] Ht Htne Hp s.
  destruct (m_sep m) as [|c sp] eqn:Es; [done|]. inversion_clear Hsw as [|? ? Hc Hsp].
  assert (token_ok (sp, [HYPHEN])) as Htok by (split; [done|]; split; [done|]; by repeat constructor).
  destruct (decide (m_opt m = [])) as [E0|Hne].
  - unfold s. rewrite E0. cbn [words map concat app length tail tail_eol]. rewrite (ws_not_nl _ Hc).
    eexists. change (1 + fuel) with (S fuel). erewrite while_inl; [|exact (optional_step sp [HYPHEN] t pre 4 None Htok Ht Htne Hp eq_refl)].
    unfold between. rewrite Nat.sub_diag. reflexivity.
  - assert (sep_tail ((c :: sp) ++ HYPHEN :: t)) as Hst by (simpl; unfold is_sep; by rewrite Hc, orb_true_r).
    unfold s. set (t0 := (c :: sp) ++ HYPHEN :: t) in *.
    destruct (words_tail (m_opt m) t0 (conj Hok Htl) Hsep Hne) as (ts' & -> & -> & Hok' & Hl & Hm & Ho).
    replace (S (length (m_opt m)) + fuel) with (length ts' + S fuel) by lia.
    rewrite optional_steps; [|by destruct ts', (m_opt m)|done| |done|done|done].
    2:{ by apply (no_hyphen_same (m_opt m)). }
    unfold t0 at 1 2. cbn [app tail tail_eol]. rewrite (ws_not_nl _ Hc).
    eexists. erewrite while_inl; [|exact (optional_step sp [HYPHEN] t pre 4 _ Htok Ht Htne Hp eq_refl)].
    cbn [default from_option]. 
    assert (between (opt_text ts' ++ t0) t0 = opt_text (m_opt m)) as ->; [|reflexivity].
    unfold between. rewrite length_app, Nat.add_sub, take_app_length. done.
Qed.

Lemma mountinfo_line m n rest lines :
  mline_ok m -> parse_line n (mline_out m ++ rest) lines = Ret (lines ++ [mline_fields m], inr rest).
Proof.
  intros Hm. pose proof Hm as [[Hh Hhok] ([Hook _] & Hosep & _) [Hsw Hsn] (Htl & Htok & Htsep) Htr]. unfold parse_line.
  set (t3 := m_trail m ++ NL :: rest). set (t2 := words (m_tail m) ++ t3). set (t1 := words (m_opt m) ++ m_sep m ++ HYPHEN :: t2).
  assert (mline_out m ++ rest = words (m_head m) ++ t1) as Hs.
  { unfold mline_out, t1, t2, t3. by rewrite <- !app_assoc. }
  assert (sep_tail t3 /\ t3 <> []) as [Ht3 Hn3].
  { unfold t3. destruct Htr as [|c tr Hc _]; [done|]. simpl. unfold is_sep. by rewrite Hc, orb_true_r. }
  assert (sep_tail t2 /\ t2 <> []) as [Ht2 Hn2] by (apply words_sep; [by apply Htok|done|done|done]).
  assert (sep_tail t1 /\ t1 <> []) as [Ht1 Hn1].
  { apply words_sep; [done|done| |by destruct (m_sep m)]. destruct Hsw as [|c sp Hc _]; [done|]. simpl. unfold is_sep. by rewrite Hc, orb_true_r. }
  assert (exists f, S (length (mline_out m ++ rest)) + 1 = length (m_head m) + (S (length (m_opt m)) + (length (m_tail m) + S f))) as [f ->].
  { pose proof (words_length (m_opt m) Hook). pose proof (words_length (m_head m) (proj1 Hhok)). pose proof (words_length (m_tail m) (proj1 Htok)).
    exists (length (mline_out m ++ rest) + 2 - (length (m_head m) + S (length (m_opt m)) + length (m_tail m) + 1)).
    rewrite Hs. unfold t1, t2. rewrite !length_app. simpl. rewrite !length_app. lia. }
  rewrite Hs.
  change (mkScan (words (m_head m) ++ t1) false 0 (replicate MOUNTINFO_NUM_FIELDS None) None)
    with (at_field (words (m_head m) ++ t1) false [] 11 None).
  replace 11 with (length (m_head m) + 5) by lia.
  rewrite fields_steps; [|by destruct (m_head m)|done|done|done|simpl; unfold MOUNTINFO_NUM_FIELDS; lia|left; simpl; unfold MOUNTINFO_OPTIONAL_FIELDS; lia].
  cbn [app]. destruct (opt_hyphen_steps m (length (m_tail m) + S f) t2 (map snd (m_head m)) Hm Ht2 Hn2 ltac:(by rewrite length_map)) as [opt Ho].
  cbv zeta in Ho. fold t1 in Ho. rewrite Ho.
  assert (m_tail m <> []) as Htne by (by destruct (m_tail m)).
  destruct (words_tail (m_tail m) t3 Htok Htsep Htne) as (ts' & Ht' & He & Hok' & Hl & Hmap & _). unfold t2. rewrite Ht', He.
  rewrite <- Hl. change 3 with (3 + 0). replace (3 + 0) with (length ts' + 0) by lia.
  rewrite fields_steps; [|by destruct ts', (m_tail m)|done|done|done| | ].
  - erewrite while_inr; [|unfold word_body, at_field; cbn [sc_idx]; rewrite !length_app, !length_map, Hh, Hl, Htl; rewrite andb_false_r; reflexivity].
    rewrite bind_ret. unfold at_field. cbn [sc_idx sc_eol sc_pos sc_info].
    cbn [length Nat.add Nat.ltb Nat.leb MOUNTINFO_NUM_FIELDS].
    assert (to_eol_ws (tail_eol t3) (tail t3) = inl rest) as ->.
    { unfold t3. destruct Htr as [|c tr Hc Htr]; [apply to_eol_ws_done|]. cbn [app tail_eol tail].
      rewrite (ws_not_nl _ Hc). by apply to_eol_ws_run. }
    unfold mline_fields. rewrite Hmap, app_nil_r, <- app_assoc. done.
  - rewrite length_app, length_map. simpl. unfold MOUNTINFO_NUM_FIELDS. lia.
  - right. rewrite length_app, length_map. simpl. unfold MOUNTINFO_OPTIONAL_FIELDS. lia.
Qed.

Lemma mountinfo_scan lines : Forall mline_ok lines ->
  scan_lines parse_line 1 (concat (map mline_out lines)) [] = Ret (map mline_fields lines, None).
Proof.
  intros Hok. rewrite (scan_lines_rows parse_line mline_out (fun m l => l ++ [mline_fields m]) mline_ok (fun _ => True) 0); try done.
  - f_equal. f_equal. clear. assert (forall acc, foldl (fun l m => l ++ [mline_fields m]) acc lines = acc ++ map mline_fields lines) as H; [|apply H].
    induction lines as [|m lines IH]; intros acc; cbn [foldl map]; [by rewrite app_nil_r|]. by rewrite IH, <- app_assoc.
  - intros m _ H%(f_equal length). unfold mline_out in H. rewrite !length_app in H. simpl in H. lia.
  - intros n m rest l _ Hm _. split; [|done]. by apply mountinfo_line.
  - lia.
Qed.

(** a file is parsed to the fields of its lines, with the optional fields of
    a line as one text, when its content differs from the previous one or an
    update is forced; a parse that finds the same content again reports no
    change and keeps the lines. *)
Theorem mountinfo_parse_file m lines :
  Forall mline_ok lines ->
  let buf := concat (map mline_out lines) in
  let m' := mkMountinfo (map mline_fields lines) true (ForceUpdate m) buf (path m) in
  ForceUpdate m = true \/ content m <> buf ->
  Parse (ReadOk buf) m = Ret (m', None) /\
  (ForceUpdate m = false -> Parse (ReadOk buf) m' = Ret (mkMountinfo (map mline_fields lines) false false buf (path m), None)).
Proof.
  intros Hok buf m' Hch. unfold Parse. split.
  - assert (ForceUpdate m || negb (bool_decide (content m = buf)) = true) as ->.
    { destruct Hch as [->|Hne]; [done|]. rewrite bool_decide_eq_false_2 by done. apply orb_true_r. }
    unfold update. cbn [content]. unfold m', buf. by rewrite (mountinfo_scan lines Hok).
  - intros Hf. cbn [ForceUpdate content m' path ParsedLines]. rewrite Hf, bool_decide_eq_true_2 by done. done.
Qed.

(** an error in the file is reported once.  The parse that fails has replaced
    the content; the next parse of the same content finds no change and returns
    without an error, with the lines before the bad one only. *)
Theorem mountinfo_error_lost m buf m1 e :
  ForceUpdate m = false -> Parse (ReadOk buf) m = Ret (m1, Some e) ->
  exists m2, Parse (ReadOk buf) m1 = Ret (m2, None) /\ Changed m2 = false /\ ParsedLines m2 = ParsedLines m1.
Proof.
  intros Hf. unfold Parse at 1. destruct (ForceUpdate m || negb (bool_decide (content m = buf))); [|done].
  unfold update. cbn [content]. intros ([lines err] & _ & [= <- ->])%bind_Ret_inv. unfold Parse. cbn [ForceUpdate content].
  rewrite Hf, bool_decide_eq_true_2 by done. by eexists.
Qed.

(** A full clone has the content but not the lines: a parse of the same content
    leaves it without lines. *)
Lemma mountinfo_full_clone m : ForceUpdate m = false ->
  exists c, Parse (ReadOk (content m)) (Clone true m) = Ret (c, None) /\ Changed c = false /\ ParsedLines c = [].
Proof. intros Hf. unfold Parse, Clone. cbn [ForceUpdate content]. rewrite Hf, bool_decide_eq_true_2 by done. by eexists. Qed.

(** A file that ends in white space within a line. *)
Example mountinfo_panics : Parse (ReadOk (bs "36 35  ")) (NewMountinfo []) = Panic.
Proof. reflexivity. Qed.

Definition mountinfo_ex : mline :=
  MLine [([], bs "36"); (bs " ", bs "35"); (bs " ", bs "98:0"); (bs " ", bs "/mnt1"); (bs " ", bs "/mnt2"); (bs " ", bs "rw")]
    [(bs " ", bs "master:1"); (bs " ", bs "shared:2")] (bs " ") [(bs " ", bs "ext3"); (bs " ", bs "/dev/root"); (bs " ", bs "rw")] [].

Lemma mountinfo_parse_file_witness :
  exists m, Parse (ReadOk (bs "36 35 98:0 /mnt1 /mnt2 rw master:1 shared:2 - ext3 /dev/root rw" ++ [NL])) (NewMountinfo []) = Ret (m, None) /\
    map (fun l => l !! 6) (ParsedLines m) = [Some (Some (bs "master:1 shared:2"))].
Proof.
  eexists. split.
  - apply (mountinfo_parse_file (NewMountinfo []) [mountinfo_ex]); [|right; by vm_compute].
    constructor; [|constructor]. split; unfold tokens_ok, sep_ok, token_ok, is_word, is_ws; repeat first [apply conj | constructor]; done.
  - reflexivity.
Defined.

Lemma mountinfo_error_lost_witness :
  exists m1 m2, Parse (ReadOk (bs "36 35 98:0" ++ [NL])) (NewMountinfo []) = Ret (m1, Some (ErrMissingFields 1 (bs "36 35 98:0") 11 3)) /\
    Parse (ReadOk (bs "36 35 98:0" ++ [NL])) m1 = Ret (m2, None) /\ ParsedLines m2 = [].
Proof.
  eexists. destruct (mountinfo_error_lost (NewMountinfo []) (bs "36 35 98:0" ++ [NL]) _ (ErrMissingFields 1 (bs "36 35 98:0") 11 3) eq_refl eq_refl)
    as (m2 & H1 & _ & H2).
  exists m2. split; [reflexivity|]. split; [exact H1|exact H2].
Defined.
End Mountinfo.
