(* ===== verification/PidCmdline.v ===== *)
(** Parser for /proc/PID/cmdline (src/procfs/pid_cmdline_parser.go): the command
    line as the value of a Prometheus label, with the characters that are
    special there escaped, and the marks of a truncation.

    Command, path and arguments are slices of the buffer of the parser; here
    they are the bytes at the return of [Parse]. *)

From Stdlib Require Import ZArith Lia.
From stdpp Require Import base tactics numbers strings gmap list.
From S2P Require Import Prelude Scan.

Module PidCmdline.

Definition NUL : byte := Init.Byte.x00.
Definition BACKSLASH : byte := Init.Byte.x5c.
Definition DQUOTE : byte := Init.Byte.x22.
Definition SLASH : byte := Init.Byte.x2f.
Definition DOT : byte := Init.Byte.x2e.
Definition LETTER_N : byte := Init.Byte.x6e.

(** [cmdlineByteConvert]: the replacement of a byte, if it has one. *)
Definition cmdlineByteConvert (c : byte) : option bytes :=
  if beq c NUL then Some [SP]
  else if beq c NL then Some [BACKSLASH; LETTER_N]
  else if beq c BACKSLASH then Some [BACKSLASH; BACKSLASH]
  else if beq c DQUOTE then Some [BACKSLASH; DQUOTE]
  else None.

(** [None] for nil. *)
Record PidCmdline := mkPidCmdline {
  cmdline : option bytes;
  cmdPath : option bytes;
  cmd : option bytes;
  args : option bytes
}.

Definition NewPidCmdline : PidCmdline := mkPidCmdline None None None None.
Definition ReturnBuf (p : PidCmdline) : PidCmdline := mkPidCmdline None (cmdPath p) (cmd p) (args p).

Inductive error := ErrRead.

(** [buf[pos] & 0b11000000 == 0b10000000]: a byte within a UTF-8 character. *)
Definition is_cont (c : byte) : bool := (Z.land (byte_val c) 0xc0 =? 0x80)%Z.

(** [for ; pos > 0 && pos > l-6 && buf[pos] is within a character; pos--]; [k]
    bounds the iterations. *)
Fixpoint back (k : nat) (buf : bytes) (l pos : nat) : outcome nat :=
  match k with
  | O => Ret pos
  | S k =>
    if (0 <? pos) && (Z.of_nat l - 6 <? Z.of_nat pos)%Z then
      c ← must (buf !! pos);
      if is_cont c then back k buf l (pos - 1) else Ret pos
    else Ret pos
  end.

(** The end of a truncated command line is overwritten with three dots. *)
Definition truncate (buf : bytes) : outcome bytes :=
  let l := length buf in
  if decide (l < 3) then Panic
  else pos ← back 3 buf l (l - 3); Ret (take pos buf ++ [DOT; DOT; DOT]).

(** [for ; l > 0 && buf[l-1] == 0; l--]. *)
Definition strip_nul (buf : bytes) : bytes := rev (skip (fun c => beq c NUL) (rev buf)).

(** The loop that builds the escaped command line: a stretch that is copied as
    it is and the conversion of the byte after it. *)
Record esc := mkEsc { e_pos : bytes; e_out : bytes; e_cmdEnd : option nat }.
Definition esc_body (st : esc) : outcome (esc + esc) :=
  if bool_decide (e_pos st = []) then Ret (inr st)
  else
    let '(stretch, r) := span (fun c => negb (bool_decide (is_Some (cmdlineByteConvert c)))) (e_pos st) in
    let out := e_out st ++ stretch in
    match r with
    | [] => Ret (inl (mkEsc [] out (e_cmdEnd st)))
    | c :: r =>
      conv ← must (cmdlineByteConvert c);
      let cmdEnd := match e_cmdEnd st with
                    | Some n => Some n
                    | None => if beq c NUL then Some (length out) else None
                    end in
      Ret (inl (mkEsc r (out ++ conv) cmdEnd))
    end.
Definition escape (buf : bytes) : outcome esc :=
  while (S (length buf)) esc_body (mkEsc buf [] None).

(** The part after the last slash; nil when there is none. *)
Definition base_of (cmdPath : bytes) : option bytes :=
  let b := rev (span (fun c => negb (beq c SLASH)) (rev cmdPath)).1 in
  if bool_decide (b = []) then None else Some b.

(** The content that the parser works on. *)
Definition read_content (rd : read_result) : outcome (option bytes) :=
  match rd with
  | ReadErr => Ret None
  | ReadTrunc buf => buf ← truncate buf; Ret (Some buf)
  | ReadOk buf => Ret (Some buf)
  end.

Definition Parse (rd : read_result) (p : PidCmdline) : outcome (PidCmdline * option error) :=
  buf ← read_content rd;
  match buf with
  | None => Ret (p, Some ErrRead)
  | Some buf =>
    e ← escape (strip_nul buf);
    let b := e_out e in
    let '(cmdPath, args) := match e_cmdEnd e with
                            | None => (b, None)
                            | Some n => (take n b, Some (drop (S n) b))
                            end in
    Ret (mkPidCmdline (Some b) (Some cmdPath) (base_of cmdPath) args, None)
  end.

Definition GetData (p : PidCmdline) : option bytes * option bytes * option bytes := (cmdPath p, args p, cmd p).

Example cmdline_ex :
  GetData <$> (match Parse (ReadOk (bs "/bin/echo" ++ [NUL] ++ bs "a b" ++ [NUL; DQUOTE; NUL; NUL])) NewPidCmdline with Ret (p, _) => Some p | _ => None end) =
  Some (Some (bs "/bin/echo"), Some (bs "a b " ++ [BACKSLASH; DQUOTE]), Some (bs "echo")).
Proof. vm_compute. reflexivity. Qed.

(** ** Escaping *)

Definition esc_byte (c : byte) : bytes := default [c] (cmdlineByteConvert c).
Definition esc_bytes (s : bytes) : bytes := concat (map esc_byte s).
Definition not_nul (c : byte) : bool := negb (beq c NUL).

Lemma esc_bytes_app a b : esc_bytes (a ++ b) = esc_bytes a ++ esc_bytes b.
Proof. unfold esc_bytes. by rewrite map_app, concat_app. Qed.

Lemma esc_plain s : Forall (fun c => negb (bool_decide (is_Some (cmdlineByteConvert c))) = true) s ->
  esc_bytes s = s /\ Forall (fun c => not_nul c = true) s.
Proof.
  induction 1 as [|c s Hc _ [IH1 IH2]]; [done|]. apply negb_true_iff, bool_decide_eq_false in Hc.
  assert (cmdlineByteConvert c = None) as Hn by (destruct (cmdlineByteConvert c); [exfalso; eauto|done]).
  split.
  - unfold esc_bytes in *. simpl. unfold esc_byte at 1. rewrite Hn, IH1. done.
  - constructor; [|done]. unfold not_nul. destruct (beq c NUL) eqn:E; [|done]. unfold cmdlineByteConvert in Hn. by rewrite E in Hn.
Qed.

(** The end of the command: that of the escaped bytes before the first NUL. *)
Definition cmd_end (out s : bytes) : option nat :=
  match (span not_nul s).2 with [] => None | _ => Some (length (out ++ esc_bytes (span not_nul s).1)) end.

Lemma escape_run fuel : forall s out ce,
  length s < fuel ->
  while fuel esc_body (mkEsc s out ce) =
  Ret (mkEsc [] (out ++ esc_bytes s) (match ce with Some n => Some n | None => cmd_end out s end)).
Proof.
  induction fuel as [|fuel IH]; intros s out ce Hf; [lia|].
  destruct (decide (s = [])) as [->|Hs].
  { erewrite while_inr; [|reflexivity]. unfold cmd_end. cbn. rewrite app_nil_r. by destruct ce. }
  set (plain := fun c => negb (bool_decide (is_Some (cmdlineByteConvert c)))).
  pose proof (span_append plain s) as Hsp. pose proof (span_all plain s) as Hall. pose proof (span_stops plain s) as Hst.
  assert (esc_body (mkEsc s out ce) =
    (let '(stretch, r) := span plain s in
     match r with
     | [] => Ret (inl (mkEsc [] (out ++ stretch) ce))
     | c :: r => conv ← must (cmdlineByteConvert c);
       Ret (inl (mkEsc r ((out ++ stretch) ++ conv)
         (match ce with Some n => Some n | None => if beq c NUL then Some (length (out ++ stretch)) else None end)))
     end)) as Hb.
  { unfold esc_body. cbn [e_pos e_out e_cmdEnd]. by rewrite bool_decide_eq_false_2. }
  destruct (span plain s) as [a r]. cbn [fst snd] in *. destruct (esc_plain a Hall) as [Ha Hna]. subst s.
  destruct r as [|c r].
  - erewrite while_inl by exact Hb. rewrite IH by (destruct a; [done|simpl in *; lia]).
    rewrite !app_nil_r. pose proof (span_app_all not_nul a [] Hna) as Hsa. cbn [span fst snd] in Hsa. rewrite !app_nil_r in Hsa.
    unfold cmd_end. rewrite Ha, Hsa. done.
  - assert (is_Some (cmdlineByteConvert c)) as [conv Hc].
    { unfold plain in Hst. cbn in Hst. by apply negb_false_iff, bool_decide_eq_true in Hst. }
    rewrite Hc in Hb. cbn [must] in Hb. rewrite bind_ret in Hb. erewrite while_inl by exact Hb.
    rewrite length_app in Hf. simpl in Hf. rewrite IH by lia.
    assert (esc_bytes (a ++ c :: r) = a ++ conv ++ esc_bytes r) as ->.
    { rewrite esc_bytes_app, Ha. unfold esc_bytes at 1. simpl. unfold esc_byte at 1. by rewrite Hc. }
    rewrite <- !app_assoc. f_equal. f_equal. destruct ce as [n|]; [done|]. unfold cmd_end.
    rewrite span_app_all by done. cbn [span fst snd]. change (not_nul c) with (negb (beq c NUL)). destruct (beq c NUL); cbn [negb fst snd].
    + rewrite app_nil_r, Ha. done.
    + destruct (span not_nul r) as [b r']. cbn [fst snd]. destruct r' as [|c' r']; [done|].
      rewrite esc_bytes_app, Ha. unfold esc_bytes at 2. simpl. unfold esc_byte at 1. rewrite Hc. cbn [default].
      unfold esc_bytes. by rewrite <- !app_assoc.
Qed.

(** ** Reading a label value back *)

(** How the value of a label is read in the text format of the metrics, up to
    the closing quote: the value and what follows it. *)
Fixpoint read_label (s : bytes) : option (bytes * bytes) :=
  match s with
  | [] => None
  | c :: s =>
    if beq c DQUOTE then Some ([], s)
    else if beq c NL then None
    else if beq c BACKSLASH then
      match s with
      | d :: s =>
        (if beq d LETTER_N then Some NL else if beq d BACKSLASH || beq d DQUOTE then Some d else None) ≫= fun x =>
        '(v, r) ← read_label s; Some (x :: v, r)
      | [] => None
      end
    else '(v, r) ← read_label s; Some (c :: v, r)
  end.

(** The separators of the arguments read as spaces. *)
Definition nul_to_space (c : byte) : byte := if beq c NUL then SP else c.

Lemma read_label_esc_byte c s :
  read_label (esc_byte c ++ s) = '(v, r) ← read_label s; Some (nul_to_space c :: v, r).
Proof. by destruct c. Qed.

Lemma read_label_esc a t : read_label (esc_bytes a ++ DQUOTE :: t) = Some (map nul_to_space a, t).
Proof.
  induction a as [|c a IH]; [done|]. unfold esc_bytes in *. cbn [map concat]. rewrite <- app_assoc.
  rewrite read_label_esc_byte, IH. done.
Qed.

Lemma nul_to_space_id a : Forall (fun c => not_nul c = true) a -> map nul_to_space a = a.
Proof.
  induction 1 as [|c a Hc _ IH]; [done|]. cbn [map]. rewrite IH. f_equal. unfold nul_to_space, not_nul in *.
  by apply negb_true_iff in Hc as ->.
Qed.

(** The base name of a path. *)
Definition base (a : bytes) : bytes := rev (span (fun c => negb (beq c SLASH)) (rev a)).1.

(** Escaping neither adds nor removes slashes. *)
Lemma esc_byte_slash c : c <> SLASH -> Forall (fun d => negb (beq d SLASH) = true) (rev (esc_byte c)).
Proof. destruct c; intros H; try done; repeat constructor. Qed.

Lemma base_esc a : base_of (esc_bytes a) = if bool_decide (base a = []) then None else Some (esc_bytes (base a)).
Proof.
  unfold base_of, base.
  assert (rev (span (fun c => negb (beq c SLASH)) (rev (esc_bytes a))).1 =
          esc_bytes (rev (span (fun c => negb (beq c SLASH)) (rev a)).1)) as ->.
  { induction a as [|c a IH] using rev_ind; [done|]. rewrite esc_bytes_app, rev_app_distr, rev_unit.
    cbn [span]. assert (esc_bytes [c] = esc_byte c) as -> by (unfold esc_bytes; simpl; apply app_nil_r).
    destruct (decide (c = SLASH)) as [->|Hc]; [done|].
    rewrite span_app_all by (by apply esc_byte_slash). rewrite (proj2 (beq_false c SLASH) Hc). cbn [negb].
    destruct (span _ (rev a)) as [x y]. destruct (span _ (rev (esc_bytes a))) as [x' y']. cbn [fst snd] in *.
    cbn [rev]. rewrite rev_app_distr, rev_involutive, IH, esc_bytes_app. f_equal. unfold esc_bytes. simpl. by rewrite app_nil_r. }
  set (b := rev _). assert (esc_bytes b = [] <-> b = []) as Hb.
  { split; [|by intros ->]. destruct b as [|c b]; [done|]. intros H%(f_equal length). exfalso. revert H. unfold esc_bytes. simpl.
    rewrite length_app. assert (0 < length (esc_byte c)) by (destruct c; vm_compute; lia). lia. }
  case_bool_decide; case_bool_decide; (done || tauto).
Qed.

(** C38: the parsed command line can be read back.  As values of labels the
    command path gives the first argument, the command its base name, and the
    arguments the other arguments with spaces between them; there are no
    arguments exactly when there is one string only.  Trailing NUL bytes do not
    count. *)
Theorem cmdline_roundtrip buf p t :
  let '(arg0, r) := span not_nul (strip_nul buf) in
  exists p', Parse (ReadOk buf) p = Ret (p', None) /\
    (exists path, cmdPath p' = Some path /\ read_label (path ++ DQUOTE :: t) = Some (arg0, t)) /\
    match cmd p' with
    | Some c => base arg0 <> [] /\ read_label (c ++ DQUOTE :: t) = Some (base arg0, t)
    | None => base arg0 = []
    end /\
    match args p', r with
    | Some a, _ :: r => read_label (a ++ DQUOTE :: t) = Some (map nul_to_space r, t)
    | None, [] => True
    | _, _ => False
    end.
Proof.
  set (s := strip_nul buf). pose proof (span_append not_nul s) as Hs. pose proof (span_all not_nul s) as Hall.
  pose proof (span_stops not_nul s) as Hst.
  assert (cmd_end [] s = match (span not_nul s).2 with [] => None | _ => Some (length (esc_bytes (span not_nul s).1)) end) as Hce by done.
  unfold Parse. cbn [read_content]. rewrite bind_ret. fold s. unfold escape.
  rewrite (escape_run (S (length s)) s [] None) by lia. rewrite bind_ret. cbn [e_out e_cmdEnd app]. rewrite Hce.
  destruct (span not_nul s) as [arg0 r]. cbn [fst snd] in *.
  assert (forall x, Forall (fun c => not_nul c = true) x -> read_label (esc_bytes x ++ DQUOTE :: t) = Some (x, t)) as Hrd.
  { intros x Hx. by rewrite read_label_esc, nul_to_space_id. }
  assert (Forall (fun c => not_nul c = true) (base arg0)) as Hbase.
  { unfold base. apply Forall_rev. assert (Forall (fun c => not_nul c = true) (rev arg0)) as Hr by by apply Forall_rev.
    rewrite <- (span_append (fun c => negb (beq c SLASH)) (rev arg0)) in Hr. by apply Forall_app in Hr as [Hr _]. }
  assert (match base_of (esc_bytes arg0) with
    | Some c => base arg0 <> [] /\ read_label (c ++ DQUOTE :: t) = Some (base arg0, t)
    | None => base arg0 = []
    end) as Hcmd.
  { rewrite base_esc. case_bool_decide; [done|]. split; [done|]. by apply Hrd. }
  destruct r as [|c r].
  - rewrite app_nil_r in Hs. rewrite <- Hs. eexists. split; [reflexivity|]. cbn [cmdPath cmd args]. split; [|done].
    eexists. split; [reflexivity|]. by apply Hrd.
  - assert (c = NUL) as -> by (cbn in Hst; unfold not_nul in Hst; by apply negb_false_iff, beq_true in Hst).
    assert (esc_bytes s = esc_bytes arg0 ++ SP :: esc_bytes r) as -> by (rewrite <- Hs; by rewrite esc_bytes_app).
    eexists. split; [reflexivity|]. cbn [cmdPath cmd args]. rewrite take_app_length.
    rewrite (drop_app_ge _ _ (S (length (esc_bytes arg0)))) by lia.
    replace (S (length (esc_bytes arg0)) - length (esc_bytes arg0)) with 1 by lia. cbn [drop]. rewrite drop_0.
    split; [|split; [done|]].
    + eexists. split; [reflexivity|]. by apply Hrd.
    + by rewrite read_label_esc.
Qed.

(** ** Truncation *)

Lemma back_spec buf l k : forall pos,
  pos < length buf ->
  exists pos', back k buf l pos = Ret pos' /\ pos' <= pos /\ pos <= pos' + k /\
    (pos' = pos - k \/ pos' = 0 \/ (Z.of_nat pos' <= Z.of_nat l - 6)%Z \/ exists c, buf !! pos' = Some c /\ is_cont c = false) /\
    (forall q, pos' < q <= pos -> exists c, buf !! q = Some c /\ is_cont c = true).
Proof.
  induction k as [|k IH]; intros pos Hp; cbn [back]; [exists pos; split_and!; [done|lia|lia|left; lia|intros; lia]|].
  destruct ((0 <? pos) && (Z.of_nat l - 6 <? Z.of_nat pos)%Z) eqn:E.
  - apply andb_true_iff in E as [E1%Nat.ltb_lt E2%Z.ltb_lt]. destruct (lookup_lt_is_Some_2 buf pos Hp) as [c Hc].
    rewrite Hc. cbn [must]. rewrite bind_ret. destruct (is_cont c) eqn:Ec.
    + destruct (IH (pos - 1) ltac:(lia)) as (pos' & -> & H1 & H2 & H3 & H4). exists pos'. split_and!; [done|lia|lia| |].
      * destruct H3 as [H3|H3]; [left; lia|by right].
      * intros q Hq. destruct (decide (q = pos)) as [->|]; [by exists c|]. apply H4. lia.
    + exists pos. split_and!; [done|lia|lia|right; right; right; by exists c|intros; lia].
  - exists pos. split_and!; [done|lia|lia| |intros; lia].
    apply andb_false_iff in E as [E%Nat.ltb_ge|E%Z.ltb_ge]; [right; left; lia|right; right; left; lia].
Qed.

(** The parser returns on any content; one that is cut off has the size of the
    read buffer. *)
Lemma Parse_returns rd p : (forall buf, rd = ReadTrunc buf -> 3 <= length buf) -> returns (Parse rd p) (fun _ => True).
Proof.
  intros Hrd. assert (exists o, read_content rd = Ret o) as (o & Ho).
  { destruct rd as [buf| |buf]; cbn [read_content]; [by eexists..|]. specialize (Hrd buf eq_refl). unfold truncate. rewrite decide_False by lia.
    destruct (back_spec buf (length buf) 3 (length buf - 3) ltac:(lia)) as (pos & -> & _). by eexists. }
  unfold Parse. rewrite Ho, bind_ret. destruct o as [buf|]; [|by eexists]. unfold escape. rewrite escape_run, bind_ret by lia.
  cbv zeta. destruct (e_cmdEnd _); by eexists.
Qed.

(** a command line that was cut off ends in three dots, and the cut is at
    the start of a character: of a text in which every character has at most
    four bytes, all but at most the last six bytes are kept, and the first byte
    that is not kept starts a character. *)
Theorem cmdline_truncated buf p :
  6 <= length buf ->
  (forall q, q + 3 < length buf -> exists j c, j < 4 /\ buf !! (q + j) = Some c /\ is_cont c = false) ->
  exists pos c, length buf - 6 <= pos <= length buf - 3 /\ buf !! pos = Some c /\ is_cont c = false /\
    Parse (ReadTrunc buf) p = Parse (ReadOk (take pos buf ++ [DOT; DOT; DOT])) p.
Proof.
  intros Hl Hutf. set (l := length buf).
  destruct (back_spec buf l 3 (l - 3) ltac:(unfold l; lia)) as (pos & Hb & Hle & Hge & Hend & Hcont).
  assert (exists c, buf !! pos = Some c /\ is_cont c = false) as (c & Hc & Hnc).
  { assert (pos = l - 6 \/ exists c, buf !! pos = Some c /\ is_cont c = false) as [Hp|]; [|destruct (Hutf (l - 6)) as (j & c & Hj & Hc & Hn); [unfold l; lia|]|done].
    - unfold l in *. destruct Hend as [?|[?|[?|?]]]; [left; lia|left; lia|left; lia|by right].
    - exists c. split; [|done]. destruct (decide (j = 0)) as [->|]; [by rewrite Hp, <- (Nat.add_0_r (l - 6))|].
      destruct (Hcont (l - 6 + j) ltac:(lia)) as (c' & Hc' & Hcc). congruence. }
  exists pos, c. split; [unfold l in *; lia|]. split; [done|]. split; [done|].
  unfold Parse. cbn [read_content]. unfold truncate. fold l. rewrite decide_False by (unfold l; lia). rewrite Hb, bind_ret. done.
Qed.

Lemma cmdline_truncated_witness :
  exists pos c, 4 <= pos <= 7 /\ (bs "/bin/cat" ++ [Init.Byte.xc3; Init.Byte.xa4]) !! pos = Some c /\ is_cont c = false /\
    Parse (ReadTrunc (bs "/bin/cat" ++ [Init.Byte.xc3; Init.Byte.xa4])) NewPidCmdline =
    Parse (ReadOk (take pos (bs "/bin/cat" ++ [Init.Byte.xc3; Init.Byte.xa4]) ++ [DOT; DOT; DOT])) NewPidCmdline.
Proof.
  apply (cmdline_truncated (bs "/bin/cat" ++ [Init.Byte.xc3; Init.Byte.xa4]) NewPidCmdline).
  - vm_compute. lia.
  - intros q Hq. exists 0. destruct q as [|[|[|[|[|[|[|q]]]]]]]; [..|cbn in Hq; lia];
      eexists; (split; [lia|]); (split; [reflexivity|]); reflexivity.
Defined.
End PidCmdline.
