(* ===== verification/PidStatus.v ===== *)
(** Parser for /proc/PID/status (src/procfs/pid_status_parser.go): the lines whose
    prefix is known give a list, a value, a value with a unit or a number; the
    fields that a file does not have are cleared. *)

From Stdlib Require Import ZArith Lia.
From stdpp Require Import base tactics numbers strings gmap list.
From S2P Require Import Prelude Scan.

Module PidStatus.

Inductive dataType := SINGLE_VAL_DATA | SINGLE_VAL_UNIT_DATA | LIST_DATA | ULONG_DATA.
#[export] Instance dataType_eq_dec : EqDecision dataType.
Proof. solve_decision. Defined.

Definition PID_STATUS_BYTE_SLICE_NUM_FIELDS : nat := 22.
Definition PID_STATUS_ULONG_NUM_FIELDS : nat := 2.
Definition PID_STATUS_LIST_DATA_SEP : byte := Init.Byte.x2c.

Record PidStatusLineHandling := mkHandling { h_dataType : dataType; h_index : nat; h_emptyValueOK : bool }.

Definition pidStatusLineHandlingMap : list (bytes * PidStatusLineHandling) :=
  let list_ n i e := (bs n, mkHandling LIST_DATA i e) in
  let unit_ n i := (bs n, mkHandling SINGLE_VAL_UNIT_DATA i false) in
  let val_ n i := (bs n, mkHandling SINGLE_VAL_DATA i false) in
  let num_ n i := (bs n, mkHandling ULONG_DATA i false) in
  [list_ "Uid" 0 false; list_ "Gid" 1 false; list_ "Groups" 2 true;
   unit_ "VmPeak" 3; unit_ "VmSize" 4; unit_ "VmLck" 5; unit_ "VmPin" 6; unit_ "VmHWM" 7; unit_ "VmRSS" 8;
   unit_ "RssAnon" 9; unit_ "RssFile" 10; unit_ "RssShmem" 11; unit_ "VmData" 12; unit_ "VmStk" 13; unit_ "VmExe" 14;
   unit_ "VmLib" 15; unit_ "VmPTE" 16; unit_ "VmPMD" 17; unit_ "VmSwap" 18; unit_ "HugetlbPages" 19;
   val_ "Cpus_allowed_list" 20; val_ "Mems_allowed_list" 21;
   num_ "voluntary_ctxt_switches" 0; num_ "nonvoluntary_ctxt_switches" 1]%string.

Definition handling (name : bytes) : option PidStatusLineHandling :=
  snd ∘ snd <$> list_find (fun e => e.1 = name) pidStatusLineHandlingMap.

Definition PidStatusNameToIndex (name : bytes) : Z :=
  match handling name with Some lh => Z.of_nat (h_index lh) | None => -1 end.

(** A byte slice: its storage up to the capacity and its length. *)
Record bslice := BSlice { b_arr : bytes; b_len : nat }.
Definition b_data (f : bslice) : bytes := take (b_len f) (b_arr f).

(** [None] for nil. *)
Record PidStatus := mkPidStatus {
  byteSliceFields : list (option bslice);
  byteSliceFieldUnit : list bytes;
  numericFields : list Z
}.

Definition NewPidStatus : PidStatus :=
  mkPidStatus (replicate PID_STATUS_BYTE_SLICE_NUM_FIELDS None) (replicate PID_STATUS_BYTE_SLICE_NUM_FIELDS [])
    (replicate PID_STATUS_ULONG_NUM_FIELDS 0%Z).

Inductive error :=
| ErrRead
| ErrNoPrefix (lineNum : nat) (line : bytes)
| ErrInvalidDigit (lineNum : nat) (line : bytes) (c : byte)
| ErrMissingUnit (lineNum : nat) (line : bytes)
| ErrEmptyValue (lineNum : nat) (line : bytes).

(** Write a value to the storage of a field, which is replaced when it is too
    small. *)
Definition write_arr (f : option bslice) (value : bytes) : bytes :=
  let arr := match f with Some f => b_arr f | None => [] end in
  if length arr <? length value then value else value ++ drop (length value) arr.

(** [field[:valueLen]]: nil when there is no storage. *)
Definition new_field (f : option bslice) (value : bytes) : option bslice :=
  match f, value with
  | None, [] => None
  | _, _ => Some (BSlice (write_arr f value) (length value))
  end.

(** After the write only: the old slice over its storage. *)
Definition half_field (f : option bslice) (value : bytes) : option bslice :=
  match f with
  | Some g => Some (if length (b_arr g) <? length value then g else BSlice (write_arr f value) (b_len g))
  | None => None
  end.

(** The loop over the words of a list; [acc] is the value in reverse. *)
Fixpoint list_words (wasSep : bool) (acc : bytes) (s : bytes) : bytes * bytes :=
  match s with
  | [] => (rev acc, [])
  | c :: s =>
    let eol := beq c NL in
    let isSep := eol || isWhitespace c in
    let acc := if isSep then acc
               else c :: (if wasSep && negb (bool_decide (acc = [])) then PID_STATUS_LIST_DATA_SEP :: acc else acc) in
    if eol then (rev acc, s) else list_words isSep acc s
  end.

(** A word that ends at white space or at the end of the line: the word, empty
    when the buffer ends first, the end of the line, and what follows. *)
Definition is_sep_byte (c : byte) : bool := beq c NL || isWhitespace c.
Definition scan_word (s : bytes) : bytes * bool * bytes :=
  let '(w, r) := span (fun c => negb (is_sep_byte c)) s in
  match r with
  | [] => ([], false, [])
  | c :: r => (w, beq c NL, r)
  end.

(** The state of the loop: with the fields found and the number of those that
    are missing. *)
Record loop := mkLoop { l_status : PidStatus; l_found : list bool; l_missing : Z }.

Definition set_field (i : nat) (f : option bslice) (ps : PidStatus) : outcome PidStatus :=
  fs ← store (byteSliceFields ps) i f; Ret (mkPidStatus fs (byteSliceFieldUnit ps) (numericFields ps)).

(** [Parse], the end of a byte slice field: empty values, the store. *)
Definition store_value (lineNum : nat) (line : bytes) (lh : PidStatusLineHandling) (old : option bslice) (value : bytes) (rest : bytes) (st : loop)
    : outcome (loop * (error + bytes)) :=
  if (length value =? 0) && negb (h_emptyValueOK lh) then Ret (st, inl (ErrEmptyValue lineNum line))
  else
    ps ← set_field (h_index lh) (new_field old value) (l_status st);
    found ← store (l_found st) (h_index lh) true;
    Ret (mkLoop ps found (l_missing st - 1), inr rest).

(** A value, with its unit for those that have one. *)
Definition parse_single (dt : dataType) (lineNum : nat) (line : bytes) (lh : PidStatusLineHandling) (s : bytes) (st : loop)
    : outcome (loop * (error + bytes)) :=
  let ps := l_status st in
  old ← must (byteSliceFields ps !! h_index lh);
  let '(value, eol, s) := scan_word s in
  unit ← must (byteSliceFieldUnit ps !! h_index lh);
  if bool_decide (dt = SINGLE_VAL_UNIT_DATA) && (length unit =? 0) then
    let '(u, eol, s) := if eol then ([], true, s) else scan_word (skip isWhitespace s) in
    if length u =? 0 then
      ps ← set_field (h_index lh) (half_field old value) ps;
      Ret (mkLoop ps (l_found st) (l_missing st), inl (ErrMissingUnit lineNum line))
    else
      units ← store (byteSliceFieldUnit ps) (h_index lh) u;
      store_value lineNum line lh old value (to_eol eol s).2
        (mkLoop (mkPidStatus (byteSliceFields ps) units (numericFields ps)) (l_found st) (l_missing st))
  else store_value lineNum line lh old value (to_eol eol s).2 st.

(** One line with a known prefix; [s] is the cursor at the value. *)
Definition parse_value (lineNum : nat) (line : bytes) (lh : PidStatusLineHandling) (s : bytes) (st : loop)
    : outcome (loop * (error + bytes)) :=
  let ps := l_status st in
  match h_dataType lh with
  | ULONG_DATA =>
    match scan_num 64 0 false false s with
    | NumBad c _ => Ret (st, inl (ErrInvalidDigit lineNum line c))
    | NumEnd value _ eol s =>
      nums ← store (numericFields ps) (h_index lh) value;
      Ret (mkLoop (mkPidStatus (byteSliceFields ps) (byteSliceFieldUnit ps) nums) (l_found st) (l_missing st), inr (to_eol eol s).2)
    end
  | LIST_DATA =>
    old ← must (byteSliceFields ps !! h_index lh);
    let '(value, rest) := list_words true [] s in
    store_value lineNum line lh old value rest st
  | dt => parse_single dt lineNum line lh s st
  end.

Definition parse_line (lineNum : nat) (s : bytes) (st : loop) : outcome (loop * (error + bytes)) :=
  let '(prefix, r) := span (fun c => negb (beq c COLON || beq c NL)) (skip isWhitespace s) in
  match prefix, r with
  | _ :: _, c :: r =>
    if beq c COLON then
      match handling prefix with
      | None => Ret (st, inr (to_eol false r).2)
      | Some lh => parse_value lineNum (current_line s) lh (skip isWhitespace r) st
      end
    else Ret (st, inl (ErrNoPrefix lineNum (current_line s)))
  | _, _ => Ret (st, inl (ErrNoPrefix lineNum (current_line s)))
  end.

Definition Parse (rd : read_result) (ps : PidStatus) : outcome (PidStatus * option error) :=
  match rd with
  | ReadErr | ReadTrunc _ => Ret (ps, Some ErrRead)
  | ReadOk buf =>
    '(st, err) ← scan_lines parse_line 1 buf
      (mkLoop ps (replicate PID_STATUS_BYTE_SLICE_NUM_FIELDS false) (Z.of_nat PID_STATUS_BYTE_SLICE_NUM_FIELDS));
    match err with
    | Some e => Ret (l_status st, Some e)
    | None =>
      let ps := l_status st in
      let fields := if (0 <? l_missing st)%Z
                    then zip_with (fun (found : bool) f => if found then f else None) (l_found st) (byteSliceFields ps)
                    else byteSliceFields ps in
      Ret (mkPidStatus fields (byteSliceFieldUnit ps) (numericFields ps), None)
    end
  end.

Definition GetData (ps : PidStatus) : list (option bytes) * list bytes * list Z :=
  (map (fmap b_data) (byteSliceFields ps), byteSliceFieldUnit ps, numericFields ps).

Example pid_status_ex :
  let lines l := concat (map (fun x => bs x ++ [NL]) l) in
  let run l ps := match Parse (ReadOk (lines l)) ps with Ret (ps, e) => (ps, e) | _ => (ps, Some ErrRead) end in
  let '(ps, e) := run ["Name: x"; "Uid: 104   5 "; "VmPeak:   222400 kB"; "voluntary_ctxt_switches: 2588"]%string NewPidStatus in
  let '(ps2, e2) := run ["VmPeak: 7 kB"]%string ps in
  (e, e2) = (None, None) /\
  (take 4 (GetData ps).1.1, take 1 (GetData ps).2) = ([Some (bs "104,5"); None; None; Some (bs "222400")], [2588%Z]) /\
  (take 4 (GetData ps2).1.1, take 4 (GetData ps2).1.2, take 1 (GetData ps2).2) =
    ([None; None; None; Some (bs "7")], [[]; []; []; bs "kB"], [2588%Z]).
Proof. vm_compute. done. Qed.

(** ** A well-formed file *)

Definition no_sep (w : bytes) : Prop := Forall (fun c => negb (is_sep_byte c) = true) w.
Definition no_nl (w : bytes) : Prop := Forall (fun c => beq c NL = false) w.
(** What may follow a word on its line. *)
Definition trail_ok (t : bytes) : Prop := no_nl t /\ match t with [] => True | c :: _ => isWhitespace c = true end.

Inductive body :=
| BIgnored (text : bytes)
| BList (ws : list (bytes * bytes)) (trail : bytes)
| BValue (w trail : bytes)
| BUnit (w ws unit trail : bytes)
| BNumber (ds trail : bytes).

Record row := Row { r_name : bytes; r_ws : bytes; r_body : body }.

Definition list_text (ws : list (bytes * bytes)) : bytes := concat (map (fun t => t.2 ++ t.1) ws).
Definition body_out (b : body) : bytes :=
  match b with
  | BIgnored text => text
  | BList ws trail => list_text ws ++ trail
  | BValue w trail => w ++ trail
  | BUnit w ws u trail => w ++ ws ++ u ++ trail
  | BNumber ds trail => ds ++ trail
  end.
Definition row_out (r : row) : bytes := r_name r ++ COLON :: r_ws r ++ body_out (r_body r) ++ [NL].

(** The words of a list, with a comma between them. *)
Fixpoint join (ws : list bytes) : bytes :=
  match ws with
  | [] => []
  | [w] => w
  | w :: ws => w ++ PID_STATUS_LIST_DATA_SEP :: join ws
  end.

(** The list is a sequence of words, each followed by white space, which only
    the last one may lack. *)
Definition word_ok (t : bytes * bytes) : Prop := t.2 <> [] /\ no_sep t.2 /\ is_ws t.1.

Definition body_ok (name : bytes) (b : body) : Prop :=
  match b with
  | BIgnored text => handling name = None /\ no_nl text
  | BList ws trail => exists lh, handling name = Some lh /\ h_dataType lh = LIST_DATA /\
      Forall word_ok ws /\ Forall (fun t => t.1 <> []) (removelast ws) /\ is_ws trail /\ (ws = [] -> h_emptyValueOK lh = true)
  | BValue w trail => exists lh, handling name = Some lh /\ h_dataType lh = SINGLE_VAL_DATA /\ w <> [] /\ no_sep w /\ trail_ok trail
  | BUnit w ws u trail => exists lh, handling name = Some lh /\ h_dataType lh = SINGLE_VAL_UNIT_DATA /\
      w <> [] /\ no_sep w /\ is_ws ws /\ ws <> [] /\ u <> [] /\ no_sep u /\ trail_ok trail
  | BNumber ds trail => exists lh, handling name = Some lh /\ h_dataType lh = ULONG_DATA /\ is_num ds /\ trail_ok trail
  end.

Record row_ok (r : row) : Prop := mkRowOk {
  ro_name : r_name r <> [] /\ Forall (fun c => negb (beq c COLON || beq c NL) = true) (r_name r) /\ stops isWhitespace (r_name r);
  ro_ws : is_ws (r_ws r);
  ro_body : body_ok (r_name r) (r_body r)
}.

(** What a row says: a byte slice field, a unit, a number. *)
Definition field_idx (name : bytes) : option nat :=
  lh ← handling name; if bool_decide (h_dataType lh = ULONG_DATA) then None else Some (h_index lh).
Definition num_idx (name : bytes) : option nat :=
  lh ← handling name; if bool_decide (h_dataType lh = ULONG_DATA) then Some (h_index lh) else None.
Definition unit_idx (name : bytes) : option nat :=
  lh ← handling name; if bool_decide (h_dataType lh = SINGLE_VAL_UNIT_DATA) then Some (h_index lh) else None.
Definition row_value (r : row) : bytes :=
  match r_body r with BList ws _ => join (map snd ws) | BValue w _ => w | BUnit w _ _ _ => w | _ => [] end.
Definition row_unit (r : row) : bytes := match r_body r with BUnit _ _ u _ => u | _ => [] end.
Definition row_num (r : row) : Z := match r_body r with BNumber ds _ => u64 (dec ds) | _ => 0%Z end.

(** The value of a field; nil and empty are not told apart. *)
Definition observe (f : option bslice) : bytes := match f with Some f => b_data f | None => [] end.

Lemma observe_new f v : observe (new_field f v) = v.
Proof.
  unfold new_field, observe. destruct f as [f|], v as [|c v]; try done; unfold b_data, write_arr; cbn [b_len b_arr];
    (case_match; [by apply firstn_all|by rewrite take_app_length]).
Qed.

Lemma scan_word_run w t rest : w <> [] -> no_sep w -> trail_ok t ->
  exists eol s, scan_word (w ++ t ++ NL :: rest) = (w, eol, s) /\ (to_eol eol s).2 = rest /\
    (t = [] -> eol = true) /\ (forall c t', t = c :: t' -> eol = false /\ s = t' ++ NL :: rest).
Proof.
  intros Hne Hw [Hnl Ht]. unfold scan_word. destruct t as [|c t].
  - rewrite span_app by done. cbn [app]. eexists _, _. split; [reflexivity|]. split_and!; [by rewrite to_eol_done|done|done].
  - cbn [app]. inversion_clear Hnl as [|? ? Hc Hn]. rewrite span_app; [|done|cbn; unfold is_sep_byte; by rewrite Ht, orb_true_r].
    eexists _, _. rewrite Hc. split; [reflexivity|]. split_and!; [|done|by intros ? ? [= <- <-]].
    by rewrite to_eol_run.
Qed.

Lemma list_words_word w : forall wasSep acc s,
  no_sep w -> w <> [] ->
  list_words wasSep acc (w ++ s) =
  list_words false (rev w ++ (if wasSep && negb (bool_decide (acc = [])) then PID_STATUS_LIST_DATA_SEP :: acc else acc)) s.
Proof.
  induction w as [|c w IH]; intros wasSep acc s Hw Hne; [done|]. inversion_clear Hw as [|? ? Hc Hw'].
  unfold is_sep_byte in Hc. apply negb_true_iff in Hc. cbn [app list_words]. rewrite Hc. apply orb_false_iff in Hc as [Hc1 Hc2].
  rewrite Hc1. destruct (decide (w = [])) as [->|Hwne]; [done|]. rewrite IH by done. cbn [andb rev]. by rewrite <- app_assoc.
Qed.

Lemma list_words_ws ws : forall wasSep acc s, is_ws ws -> ws <> [] -> list_words wasSep acc (ws ++ s) = list_words true acc s.
Proof.
  induction ws as [|c ws IH]; intros wasSep acc s Hws Hne; [done|]. inversion_clear Hws as [|? ? Hc Hws'].
  cbn [app list_words]. rewrite (ws_not_nl _ Hc), Hc. cbn [orb]. destruct (decide (ws = [])) as [->|Hn]; [done|]. by apply IH.
Qed.

Lemma list_words_end sep acc trail rest : is_ws trail -> list_words sep acc (trail ++ NL :: rest) = (rev acc, rest).
Proof.
  intros Ht. destruct (decide (trail = [])) as [->|Hne]; [done|]. by rewrite list_words_ws.
Qed.

(** The words of a list that follow [acc]. *)
Lemma list_words_run ws : forall acc trail rest,
  Forall word_ok ws -> Forall (fun t => t.1 <> []) (removelast ws) -> is_ws trail ->
  list_words true acc (list_text ws ++ trail ++ NL :: rest) =
  (rev acc ++ (if bool_decide (acc = []) then [] else if bool_decide (ws = []) then [] else [PID_STATUS_LIST_DATA_SEP]) ++ join (map snd ws), rest).
Proof.
  induction ws as [|[sp w] ws IH]; intros acc trail rest Hok Hsep Ht.
  - cbn [list_text map concat app join]. rewrite list_words_end by done.
    rewrite (bool_decide_eq_true_2 ([] = [])) by done. destruct (bool_decide (acc = [])); by rewrite !app_nil_r.
  - inversion_clear Hok as [|? ? (Hne & Hw & Hsp) Hok']. cbn [fst snd] in *.
    rewrite (bool_decide_eq_false_2 (_ :: _ = [])) by done.
    unfold list_text. cbn [map concat fst snd]. rewrite <- !app_assoc. fold (list_text ws). rewrite list_words_word by done. cbn [andb].
    set (acc' := rev w ++ _).
    assert (rev acc' = rev acc ++ (if bool_decide (acc = []) then [] else [PID_STATUS_LIST_DATA_SEP]) ++ w) as Hacc.
    { unfold acc'. rewrite rev_app_distr, rev_involutive. destruct (bool_decide (acc = [])); cbn [negb rev app]; [done|].
      by rewrite <- app_assoc. }
    assert (acc' <> []) as Hne' by (unfold acc'; destruct w as [|c w]; [done|]; cbn [rev]; by destruct (rev w)).
    destruct ws as [|t2 ws].
    + cbn [list_text map concat app join]. cbn [list_text map concat app]. rewrite (app_assoc sp trail), list_words_end by (by apply Forall_app_2).
      f_equal. exact Hacc.
    + assert (sp <> []) as Hspn by (by inversion Hsep).
      rewrite list_words_ws by done. rewrite IH; [|done|by inversion Hsep|done].
      rewrite (bool_decide_eq_false_2 (acc' = [])), (bool_decide_eq_false_2 (_ :: _ = [])) by done.
      rewrite Hacc. cbn [map join]. by rewrite <- !app_assoc.
Qed.

(** ** The table *)

Lemma handling_elem name lh : handling name = Some lh -> (name, lh) ∈ pidStatusLineHandlingMap.
Proof.
  unfold handling. intros ([j [k x]] & Hf & ->)%fmap_Some. apply list_find_Some in Hf as (Hl & Hk & _). simpl in *. subst k.
  by eapply list_elem_of_lookup_2.
Qed.

Definition table_idx (lh : PidStatusLineHandling) : nat :=
  if bool_decide (h_dataType lh = ULONG_DATA) then 22 + h_index lh else h_index lh.
Lemma handling_idx name lh : handling name = Some lh -> pidStatusLineHandlingMap !! table_idx lh = Some (name, lh).
Proof.
  intros Hin%handling_elem.
  assert (Forall (fun e => fst <$> pidStatusLineHandlingMap !! table_idx e.2 = Some e.1 /\
    (snd <$> pidStatusLineHandlingMap !! table_idx e.2) = Some e.2) pidStatusLineHandlingMap) as Hall.
  { repeat constructor. }
  eapply Forall_forall in Hall; [|exact Hin]. cbn [fst snd] in Hall.
  destruct (pidStatusLineHandlingMap !! table_idx lh) as [[k x]|]; [|by destruct Hall]. simpl in Hall. destruct Hall as [[= ->] [= ->]]. done.
Qed.

Lemma idx_spec name lh : handling name = Some lh ->
  (field_idx name = if bool_decide (h_dataType lh = ULONG_DATA) then None else Some (h_index lh)) /\
  (num_idx name = if bool_decide (h_dataType lh = ULONG_DATA) then Some (h_index lh) else None) /\
  (unit_idx name = if bool_decide (h_dataType lh = SINGLE_VAL_UNIT_DATA) then Some (h_index lh) else None).
Proof. intros H. unfold field_idx, num_idx, unit_idx. by rewrite H. Qed.

Lemma field_idx_inv name i : field_idx name = Some i ->
  exists lh, handling name = Some lh /\ h_dataType lh <> ULONG_DATA /\ h_index lh = i /\ i < PID_STATUS_BYTE_SLICE_NUM_FIELDS.
Proof.
  unfold field_idx. intros (lh & Hh & H)%bind_Some. case_bool_decide as E; [done|]. injection H as <-. exists lh. split_and!; try done.
  apply handling_elem in Hh.
  assert (Forall (fun e => h_dataType e.2 <> ULONG_DATA -> h_index e.2 < PID_STATUS_BYTE_SLICE_NUM_FIELDS) pidStatusLineHandlingMap) as Hall.
  { repeat constructor; (done || (intros _; vm_compute; lia)). }
  eapply Forall_forall in Hall; [|exact Hh]. by apply Hall.
Qed.

Lemma field_idx_inj n1 n2 i : field_idx n1 = Some i -> field_idx n2 = Some i -> n1 = n2.
Proof.
  intros (l1 & H1 & Ht1 & Hi1 & _)%field_idx_inv (l2 & H2 & Ht2 & Hi2 & _)%field_idx_inv.
  apply handling_idx in H1, H2. unfold table_idx in *. rewrite bool_decide_eq_false_2 in H1, H2 by done. congruence.
Qed.

Lemma num_idx_inv name i : num_idx name = Some i ->
  exists lh, handling name = Some lh /\ h_dataType lh = ULONG_DATA /\ h_index lh = i /\ i < PID_STATUS_ULONG_NUM_FIELDS.
Proof.
  unfold num_idx. intros (lh & Hh & H)%bind_Some. case_bool_decide as E; [|done]. injection H as <-. exists lh. split_and!; try done.
  apply handling_elem in Hh.
  assert (Forall (fun e => h_dataType e.2 = ULONG_DATA -> h_index e.2 < PID_STATUS_ULONG_NUM_FIELDS) pidStatusLineHandlingMap) as Hall.
  { repeat constructor; (done || (intros _; vm_compute; lia)). }
  eapply Forall_forall in Hall; [|exact Hh]. by apply Hall.
Qed.

Lemma num_idx_inj n1 n2 i : num_idx n1 = Some i -> num_idx n2 = Some i -> n1 = n2.
Proof.
  intros (l1 & H1 & Ht1 & Hi1 & _)%num_idx_inv (l2 & H2 & Ht2 & Hi2 & _)%num_idx_inv.
  apply handling_idx in H1, H2. unfold table_idx in *. rewrite bool_decide_eq_true_2 in H1, H2 by done. congruence.
Qed.

Lemma unit_field_idx name i : unit_idx name = Some i -> field_idx name = Some i.
Proof.
  unfold unit_idx, field_idx. intros (lh & Hh & H)%bind_Some. case_bool_decide as E; [|done]. injection H as <-. rewrite Hh. cbn.
  rewrite bool_decide_eq_false_2; [done|]. by rewrite E.
Qed.

(** ** One row *)

Record st_ok (st : loop) : Prop := mkStOk {
  so_fields : length (byteSliceFields (l_status st)) = PID_STATUS_BYTE_SLICE_NUM_FIELDS;
  so_units : length (byteSliceFieldUnit (l_status st)) = PID_STATUS_BYTE_SLICE_NUM_FIELDS;
  so_nums : length (numericFields (l_status st)) = PID_STATUS_ULONG_NUM_FIELDS;
  so_found : length (l_found st) = PID_STATUS_BYTE_SLICE_NUM_FIELDS
}.

(** The state after a row. *)
Record advance (r : row) (st st' : loop) : Prop := mkAdvance {
  ad_fields : map observe (byteSliceFields (l_status st')) =
              store_row r_name row_value field_idx (map observe (byteSliceFields (l_status st))) r;
  ad_units : byteSliceFieldUnit (l_status st') = store_row r_name row_unit unit_idx (byteSliceFieldUnit (l_status st)) r;
  ad_nums : numericFields (l_status st') = store_row r_name row_num num_idx (numericFields (l_status st)) r;
  ad_found : l_found st' = store_row r_name (fun _ => true) field_idx (l_found st) r;
  ad_missing : l_missing st' = (l_missing st - (if bool_decide (is_Some (field_idx (r_name r))) then 1 else 0))%Z
}.

Lemma advance_st_ok r st st' : st_ok st -> advance r st st' -> st_ok st'.
Proof.
  intros [H1 H2 H3 H4] [A1 A2 A3 A4 _]. split.
  - apply (f_equal length) in A1. rewrite store_row_length, !length_map in A1. congruence.
  - rewrite A2, store_row_length. done.
  - rewrite A3, store_row_length. done.
  - rewrite A4, store_row_length. done.
Qed.

(** The unit of a row is not known yet, or is the known one. *)
Definition unit_ok (units : list bytes) (r : row) : Prop :=
  forall i, unit_idx (r_name r) = Some i -> units !! i = Some [] \/ units !! i = Some (row_unit r).

(** The store of a byte slice field. *)
Lemma store_value_spec n ln lh old rest st name value r :
  st_ok st -> r_name r = name -> row_value r = value -> handling name = Some lh -> h_dataType lh <> ULONG_DATA ->
  (value = [] -> h_emptyValueOK lh = true) ->
  byteSliceFieldUnit (l_status st) = store_row r_name row_unit unit_idx (byteSliceFieldUnit (l_status st)) r ->
  exists st', store_value n ln lh old value rest st = Ret (st', inr rest) /\ advance r st st'.
Proof.
  intros [Hf Hu Hn Hfo] Hname Hval Hh Hd Hem Hunits. destruct (idx_spec _ _ Hh) as (Hfi & Hni & _). rewrite bool_decide_eq_false_2 in Hfi, Hni by done.
  assert (h_index lh < PID_STATUS_BYTE_SLICE_NUM_FIELDS) as Hlt by (by apply field_idx_inv in Hfi as (? & ? & ? & ? & ?)).
  unfold store_value, set_field.
  assert ((length value =? 0) && negb (h_emptyValueOK lh) = false) as ->.
  { destruct value as [|c v]; [rewrite Hem by done|]; done. }
  rewrite store_Ret by lia. cbn. rewrite store_Ret by lia. cbn. eexists. split; [reflexivity|].
  split; cbn [l_status byteSliceFields byteSliceFieldUnit numericFields l_found l_missing]; unfold store_row; rewrite ?Hname, ?Hfi, ?Hni.
  - etransitivity; [exact (list_fmap_insert observe _ _ _)|]. by rewrite observe_new, Hval.
  - unfold store_row in Hunits. by rewrite Hname in Hunits.
  - done.
  - done.
  - by rewrite bool_decide_eq_true_2 by eauto.
Qed.

Lemma row_prefix n r rest st : row_ok r ->
  parse_line n (row_out r ++ rest) st =
  match handling (r_name r) with
  | None => Ret (st, inr (to_eol false (r_ws r ++ body_out (r_body r) ++ NL :: rest)).2)
  | Some lh => parse_value n (current_line (row_out r ++ rest)) lh (skip isWhitespace (r_ws r ++ body_out (r_body r) ++ NL :: rest)) st
  end.
Proof.
  intros [(Hne & Hnm & Hst) _ _]. unfold parse_line. set (ln := current_line _). unfold row_out. rewrite <- !app_assoc. cbn [app].
  rewrite <- !app_assoc. cbn [app].
  rewrite skip_stops_id by (by apply stops_app). rewrite span_app; [|done|done]. destruct (r_name r); done.
Qed.

Lemma no_sep_stops w t : w <> [] -> no_sep w -> stops isWhitespace (w ++ t).
Proof.
  intros Hne Hw. destruct Hw as [|c w Hc _]; [done|]. simpl. unfold is_sep_byte in Hc.
  apply negb_true_iff, orb_false_iff in Hc. tauto.
Qed.

Lemma list_text_stops ws trail t : Forall word_ok ws -> ws <> [] -> stops isWhitespace (list_text ws ++ trail ++ t).
Proof.
  intros Hok Hne. destruct Hok as [|[sp w] ws (Hw & Hns & _) _]; [done|]. unfold list_text. cbn [map concat fst snd].
  rewrite <- !app_assoc. by apply no_sep_stops.
Qed.

(** A row is parsed as it says. *)
Definition row_parsed (r : row) : Prop := forall n rest st,
  row_ok r -> st_ok st -> unit_ok (byteSliceFieldUnit (l_status st)) r ->
  exists st', parse_line n (row_out r ++ rest) st = Ret (st', inr rest) /\ advance r st st'.

Ltac start_row :=
  intros n rest st Hr Hst Hun; rewrite row_prefix by done; destruct Hr as [_ Hws Hb];
  cbn [r_name r_ws r_body body_ok body_out] in *; pose proof Hst as [Hf Hu Hn Hfo].

Lemma parse_row_ignored name ws text : row_parsed (Row name ws (BIgnored text)).
Proof.
  start_row.
  destruct Hb as [Hh Ht]. rewrite Hh. exists st. split.
  + rewrite (app_assoc ws), to_eol_run; [done|]. apply Forall_app_2; [|done]. eapply Forall_impl; [exact Hws|]. intros c. apply ws_not_nl.
  + assert (field_idx name = None /\ num_idx name = None /\ unit_idx name = None) as (E1 & E2 & E3) by (unfold field_idx, num_idx, unit_idx; by rewrite Hh).
    split; unfold store_row; cbn [r_name]; rewrite ?E1, ?E2, ?E3; try done. rewrite bool_decide_eq_false_2; [lia|]. by intros [? ?].
Qed.

Lemma parse_row_list name ws lw trail : row_parsed (Row name ws (BList lw trail)).
Proof.
  start_row.
  destruct Hb as (lh & Hh & Hd & Hok & Hsep & Ht & Hem). rewrite Hh. unfold parse_value. rewrite Hd.
  destruct (idx_spec _ _ Hh) as (Hfi & _ & Hui). rewrite bool_decide_eq_false_2 in Hfi, Hui by (by rewrite Hd).
  destruct (lookup_lt_is_Some_2 (byteSliceFields (l_status st)) (h_index lh)) as [old Hold].
  { rewrite Hf. by apply field_idx_inv in Hfi as (? & ? & ? & ? & ?). }
  rewrite Hold. cbn [must]. rewrite bind_ret.
  assert (list_words true [] (skip isWhitespace (ws ++ (list_text lw ++ trail) ++ NL :: rest)) = (join (map snd lw), rest)) as ->.
  { rewrite <- app_assoc. destruct (decide (lw = [])) as [->|Hne].
    - cbn [list_text map concat app join]. rewrite app_assoc. rewrite skip_app; [done|by apply Forall_app_2|done].
    - rewrite skip_app; [|done|by apply list_text_stops]. rewrite list_words_run by done. done. }
  eapply (store_value_spec n _ lh old rest st name _ (Row name ws (BList lw trail))); try done; [by rewrite Hd| |unfold store_row; cbn [r_name]; by rewrite Hui].
  intros Hj. apply Hem. destruct Hok as [|[sp w] lw' (Hw & _) _]; [done|]. cbn [map join snd] in *. by destruct w, (map snd lw').
Qed.

Lemma parse_row_value name ws w trail : row_parsed (Row name ws (BValue w trail)).
Proof.
  start_row.
  destruct Hb as (lh & Hh & Hd & Hne & Hw & Ht). rewrite Hh. unfold parse_value. rewrite Hd. unfold parse_single.
  destruct (idx_spec _ _ Hh) as (Hfi & _ & Hui). rewrite bool_decide_eq_false_2 in Hfi, Hui by (by rewrite Hd).
  apply field_idx_inv in Hfi as Hlt. destruct Hlt as (_ & _ & _ & _ & Hlt).
  destruct (lookup_lt_is_Some_2 (byteSliceFields (l_status st)) (h_index lh)) as [old Hold]; [by rewrite Hf|].
  destruct (lookup_lt_is_Some_2 (byteSliceFieldUnit (l_status st)) (h_index lh)) as [un Hunit]; [by rewrite Hu|].
  rewrite Hold, Hunit. cbn [must]. rewrite bind_ret.
  rewrite <- app_assoc, skip_app; [|done|by apply no_sep_stops].
  destruct (scan_word_run w trail rest Hne Hw Ht) as (eol & s & -> & Heol & _). rewrite bind_ret.
  rewrite bool_decide_eq_false_2 by done. cbn [andb]. rewrite Heol.
  eapply (store_value_spec n _ lh old rest st name _ (Row name ws (BValue w trail))); try done; [by rewrite Hd|unfold store_row; cbn [r_name]; by rewrite Hui].
Qed.

Lemma parse_row_unit name ws w sp u trail : row_parsed (Row name ws (BUnit w sp u trail)).
Proof.
  start_row.
  destruct Hb as (lh & Hh & Hd & Hne & Hw & Hsp & Hspne & Hune & Hus & Ht). rewrite Hh. unfold parse_value. rewrite Hd. unfold parse_single.
  destruct (idx_spec _ _ Hh) as (Hfi & Hni & Hui). rewrite (bool_decide_eq_false_2 (_ = ULONG_DATA)) in Hfi, Hni by (by rewrite Hd).
  rewrite bool_decide_eq_true_2 in Hui by done.
  apply field_idx_inv in Hfi as Hlt. destruct Hlt as (_ & _ & _ & _ & Hlt).
  destruct (lookup_lt_is_Some_2 (byteSliceFields (l_status st)) (h_index lh)) as [old Hold]; [by rewrite Hf|].
  specialize (Hun (h_index lh)). cbn [r_name] in Hun. unfold row_unit in Hun. cbn [r_body] in Hun. specialize (Hun Hui).
  rewrite Hold. cbn [must]. rewrite bind_ret.
  rewrite <- !app_assoc, skip_app; [|done|by apply no_sep_stops].
  set (t2 := sp ++ u ++ trail).
  assert (trail_ok t2) as Ht2.
  { unfold t2. split.
    - apply Forall_app_2; [eapply Forall_impl; [exact Hsp|]; intros c; apply ws_not_nl|]. apply Forall_app_2; [|by destruct Ht].
      eapply Forall_impl; [exact Hus|]. intros c Hc. unfold is_sep_byte in Hc. apply negb_true_iff, orb_false_iff in Hc. tauto.
    - destruct Hsp as [|c sp' Hc _]; [done|]. exact Hc. }
  assert (w ++ sp ++ u ++ trail ++ NL :: rest = w ++ t2 ++ NL :: rest) as -> by (unfold t2; by rewrite <- !app_assoc).
  destruct (scan_word_run w t2 rest Hne Hw Ht2) as (eol & s & -> & Heol & _ & Hcons).
  destruct sp as [|c sp]; [done|]. inversion_clear Hsp as [|? ? Hc Hsp']. destruct (Hcons c (sp ++ u ++ trail) eq_refl) as [-> ->].
  destruct Hun as [Hun|Hun]; rewrite Hun; cbn [must]; rewrite bind_ret, (bool_decide_eq_true_2 (SINGLE_VAL_UNIT_DATA = _)) by done; cbn [andb].
  + cbn [length Nat.eqb]. rewrite <- !app_assoc, skip_app; [|done|by apply no_sep_stops].
    destruct (scan_word_run u trail rest Hune Hus Ht) as (eol2 & s2 & -> & Heol2 & _). cbv zeta.
    assert ((length u =? 0) = false) as -> by (by destruct u). rewrite store_Ret by (by rewrite Hu). rewrite bind_ret, Heol2.
    set (st1 := mkLoop _ _ _).
    assert (st_ok st1) as Hst1.
    { split; cbn [l_status l_found st1 byteSliceFields byteSliceFieldUnit numericFields]; [done|by rewrite length_insert|done|done]. }
    destruct (store_value_spec n (current_line (row_out (Row name ws (BUnit w (c :: sp) u trail)) ++ rest)) lh old rest st1 name w
      (Row name ws (BUnit w (c :: sp) u trail)) Hst1 eq_refl eq_refl Hh ltac:(by rewrite Hd) ltac:(done)) as (st' & -> & Hadv).
    { unfold store_row. cbn [r_name]. rewrite Hui. cbn [st1 l_status byteSliceFieldUnit row_unit r_body]. by rewrite list_insert_insert_eq. }
    exists st'. split; [done|]. destruct Hadv as [A1 A2 A3 A4 A5]. split; try done.
    rewrite A2. unfold store_row. cbn [r_name]. rewrite Hui. cbn [st1 l_status byteSliceFieldUnit row_unit r_body]. by rewrite list_insert_insert_eq.
  + assert ((length u =? 0) = false) as -> by (by destruct u). rewrite Heol.
    eapply (store_value_spec n _ lh old rest st name _ (Row name ws (BUnit w (c :: sp) u trail))); try done; [by rewrite Hd|].
    unfold store_row. cbn [r_name]. rewrite Hui. unfold row_unit. cbn [r_body]. by rewrite list_insert_id.
Qed.

Lemma parse_row_number name ws ds trail : row_parsed (Row name ws (BNumber ds trail)).
Proof.
  start_row.
  destruct Hb as (lh & Hh & Hd & Hds & [Hnl Ht]). rewrite Hh. unfold parse_value. rewrite Hd.
  destruct (idx_spec _ _ Hh) as (Hfi & Hni & Hui). rewrite (bool_decide_eq_true_2 (_ = ULONG_DATA)) in Hfi, Hni by done.
  rewrite bool_decide_eq_false_2 in Hui by (by rewrite Hd).
  apply num_idx_inv in Hni as Hlt. destruct Hlt as (_ & _ & _ & _ & Hlt).
  rewrite <- app_assoc, skip_app; [|done|by apply is_num_stops_ws].
  rewrite scan_num_token; [|lia|done|destruct trail as [|c tr]; [done|]; simpl; unfold is_sep; by rewrite Ht, orb_true_r].
  rewrite store_Ret by (by rewrite Hn). rewrite bind_ret. eexists. split.
  + f_equal. f_equal. f_equal. destruct trail as [|c tr]; [by rewrite to_eol_done|]. cbn [app tail_eol tail]. inversion_clear Hnl as [|? ? Hc Hn'].
    rewrite Hc. by rewrite to_eol_run.
  + split; unfold store_row; cbn [l_status byteSliceFields byteSliceFieldUnit numericFields l_found l_missing r_name]; rewrite ?Hfi, ?Hni, ?Hui; try done.
    rewrite bool_decide_eq_false_2; [lia|]. by intros [? ?].
Qed.

Lemma status_parse_line_row r : row_parsed r.
Proof.
  destruct r as [name ws []]; [apply parse_row_ignored|apply parse_row_list|apply parse_row_value|apply parse_row_unit|apply parse_row_number].
Qed.

(** ** The whole file *)

Definition not_found (l : list bool) : Z := Z.of_nat (length (filter (fun b => b = false) l)).

Lemma not_found_insert l i : l !! i = Some false -> not_found (<[i := true]> l) = (not_found l - 1)%Z.
Proof.
  intros Hi. unfold not_found. rewrite <- (take_drop_middle l i false Hi) at 2. rewrite insert_take_drop by (by eapply lookup_lt_Some).
  rewrite !filter_app, !filter_cons. rewrite decide_False, decide_True by done. rewrite !length_app. simpl. lia.
Qed.

Lemma not_found_0 l i b : (not_found l <= 0)%Z -> l !! i = Some b -> b = true.
Proof.
  unfold not_found. intros H Hi. destruct b; [done|]. exfalso.
  assert (false ∈ filter (fun b => b = false) l) as Hin.
  { apply list_elem_of_filter. split; [done|]. by eapply list_elem_of_lookup_2. }
  destruct (filter (fun b => b = false) l); [by apply not_elem_of_nil in Hin|]. simpl in H. lia.
Qed.

(** The rows still to come: their fields are not found yet. *)
Definition pending (st : loop) (rows : list row) : Prop :=
  l_missing st = not_found (l_found st) /\
  (forall r i, r ∈ rows -> field_idx (r_name r) = Some i -> l_found st !! i = Some false) /\
  (forall r, r ∈ rows -> unit_ok (byteSliceFieldUnit (l_status st)) r).

Lemma pending_advance r rows st st' :
  r_name r ∉ map r_name rows -> pending st (r :: rows) -> advance r st st' -> pending st' rows.
Proof.
  intros Hnin (Hm & Hfo & Hun) [_ A2 _ A4 A5].
  assert (forall r' i, r' ∈ rows -> field_idx (r_name r') = Some i -> field_idx (r_name r) <> Some i) as Hne.
  { intros r' i Hr' Hi Hi'. apply Hnin. rewrite (field_idx_inj _ _ _ Hi' Hi). by apply list_elem_of_fmap_2. }
  split_and!.
  - rewrite A5, A4, Hm. unfold store_row. destruct (field_idx (r_name r)) as [i|] eqn:E.
    + rewrite bool_decide_eq_true_2 by eauto. rewrite not_found_insert; [lia|]. apply (Hfo r); [by left|done].
    + rewrite bool_decide_eq_false_2; [lia|]. by intros [? ?].
  - intros r' i Hr' Hi. rewrite A4. unfold store_row. destruct (field_idx (r_name r)) as [j|] eqn:E; [|by apply (Hfo r'); [right|]].
    rewrite list_lookup_insert_ne; [by apply (Hfo r'); [right|]|]. intros ->. by apply (Hne r' i).
  - intros r' Hr' i Hi. rewrite A2. unfold store_row. destruct (unit_idx (r_name r)) as [j|] eqn:E; [|by apply Hun; [right|]].
    rewrite list_lookup_insert_ne; [by apply Hun; [right|]|]. intros ->. apply (Hne r' i); [done| |]; by apply unit_field_idx.
Qed.

Lemma status_scan_rows rows : forall n st,
  Forall row_ok rows -> NoDup (map r_name rows) -> st_ok st -> pending st rows ->
  exists st', scan_lines parse_line n (concat (map row_out rows)) st = Ret (st', None) /\ st_ok st' /\
    l_missing st' = not_found (l_found st') /\
    map observe (byteSliceFields (l_status st')) =
      foldl (store_row r_name row_value field_idx) (map observe (byteSliceFields (l_status st))) rows /\
    byteSliceFieldUnit (l_status st') = foldl (store_row r_name row_unit unit_idx) (byteSliceFieldUnit (l_status st)) rows /\
    numericFields (l_status st') = foldl (store_row r_name row_num num_idx) (numericFields (l_status st)) rows /\
    l_found st' = foldl (store_row r_name (fun _ => true) field_idx) (l_found st) rows.
Proof.
  induction rows as [|r rows IH]; intros n st Hok Hnd Hst Hpe.
  - exists st. destruct Hpe as [Hm _]. done.
  - inversion_clear Hok as [|? ? Hr Hrs]. apply NoDup_cons in Hnd as [Hnin Hnd]. cbn [map concat foldl].
    destruct (status_parse_line_row r n (concat (map row_out rows)) st Hr Hst) as (st1 & Hp & Hadv); [apply Hpe; by left|].
    destruct (IH (S n) st1 Hrs Hnd (advance_st_ok _ _ _ Hst Hadv) (pending_advance _ _ _ _ Hnin Hpe Hadv))
      as (st' & Hs & Hst' & Hm' & H1 & H2 & H3 & H4).
    exists st'. destruct Hadv as [A1 A2 A3 A4 _]. rewrite H1, H2, H3, H4, A1, A2, A3, A4. split; [|by rewrite Hm', H4, A4].
    eapply scan_lines_step; [|exact Hp| |exact Hs].
    + unfold row_out. by destruct (r_name r).
    + rewrite length_app. unfold row_out. rewrite length_app. simpl. lia.
Qed.

(** ** Any file *)

Definition sized (ps : PidStatus) : Prop :=
  length (byteSliceFields ps) = PID_STATUS_BYTE_SLICE_NUM_FIELDS /\ length (byteSliceFieldUnit ps) = PID_STATUS_BYTE_SLICE_NUM_FIELDS /\
  length (numericFields ps) = PID_STATUS_ULONG_NUM_FIELDS.

Lemma handling_lt name lh : handling name = Some lh ->
  h_index lh < if bool_decide (h_dataType lh = ULONG_DATA) then PID_STATUS_ULONG_NUM_FIELDS else PID_STATUS_BYTE_SLICE_NUM_FIELDS.
Proof.
  intros H. destruct (idx_spec _ _ H) as (Hf & Hn & _). case_bool_decide.
  - by apply num_idx_inv in Hn as (? & ? & ? & ? & ?).
  - by apply field_idx_inv in Hf as (? & ? & ? & ? & ?).
Qed.

(** What every line does: the state keeps its sizes and the cursor moves on. *)
Definition line_done (s : bytes) (r : loop * (error + bytes)) : Prop :=
  st_ok r.1 /\ match r.2 with inl _ => True | inr s' => length s' <= length s end.

Lemma store_value_total n ln lh old value rest s st :
  st_ok st -> h_index lh < PID_STATUS_BYTE_SLICE_NUM_FIELDS -> length rest <= length s ->
  returns (store_value n ln lh old value rest st) (line_done s).
Proof.
  intros [H1 H2 H3 H4] Hi Hr. unfold store_value, set_field. destruct (_ && _); [by eexists|].
  rewrite !store_Ret by (rewrite ?H1, ?H4; done). rewrite !bind_ret. eexists. split; [done|].
  split; [|done]. split; cbn; rewrite ?length_insert; done.
Qed.

Lemma scan_word_length s w eol r : scan_word s = (w, eol, r) -> length r <= length s.
Proof.
  unfold scan_word. pose proof (span_append (fun c => negb (is_sep_byte c)) s) as H. destruct (span _ s) as [a b]. cbn [fst snd] in H.
  subst s. destruct b as [|c b]; intros [= _ _ <-]; rewrite ?length_app; simpl; lia.
Qed.

Lemma list_words_length s : forall sep acc v r, list_words sep acc s = (v, r) -> length r <= length s.
Proof.
  induction s as [|c s IH]; intros sep acc v r; cbn [list_words]; [by intros [= _ <-]|].
  destruct (beq c NL); [intros [= _ <-]; simpl; lia|]. intros H%IH. simpl. lia.
Qed.

Lemma to_eol_le eol s : length (to_eol eol s).2 <= length s.
Proof. destruct (to_eol eol s) as [e s'] eqn:E. by apply to_eol_length in E. Qed.

Lemma parse_single_total dt n ln lh s st :
  st_ok st -> h_index lh < PID_STATUS_BYTE_SLICE_NUM_FIELDS -> returns (parse_single dt n ln lh s st) (line_done s).
Proof.
  intros Hst Hlt. pose proof Hst as [H1 H2 H3 H4]. unfold parse_single.
  destruct (lookup_lt_is_Some_2 (byteSliceFields (l_status st)) (h_index lh)) as [old Ho]; [by rewrite H1|].
  destruct (lookup_lt_is_Some_2 (byteSliceFieldUnit (l_status st)) (h_index lh)) as [unit Hu]; [by rewrite H2|].
  rewrite Ho. cbn [must]. rewrite bind_ret.
  destruct (scan_word s) as [[w eol] s1] eqn:E1. apply scan_word_length in E1. rewrite Hu. cbn [must]. rewrite bind_ret.
  destruct (_ && _); [|apply store_value_total; [done|done|]; pose proof (to_eol_le eol s1); lia].
  assert (exists u e s2, (if eol then ([], true, s1) else scan_word (skip isWhitespace s1)) = (u, e, s2) /\ length s2 <= length s1) as (u & e & s2 & -> & Hs2).
  { destruct eol; [by exists [], true, s1|]. destruct (scan_word (skip isWhitespace s1)) as [[u e] s2] eqn:E2. exists u, e, s2.
    split; [done|]. apply scan_word_length in E2. pose proof (skip_length isWhitespace s1). lia. }
  destruct (length u =? 0).
  - unfold set_field. rewrite store_Ret, !bind_ret by (by rewrite ?H1, ?H2). eexists. split; [done|]. split; [|done].
    split; cbn; rewrite ?length_insert; done.
  - rewrite store_Ret, bind_ret by (by rewrite H2). apply store_value_total; [|done|pose proof (to_eol_le e s2); lia].
    split; cbn; rewrite ?length_insert; done.
Qed.

Lemma parse_value_total n ln name lh s st : handling name = Some lh -> st_ok st -> returns (parse_value n ln lh s st) (line_done s).
Proof.
  intros Hh Hst. pose proof (handling_lt _ _ Hh) as Hi. pose proof Hst as [H1 H2 H3 H4]. unfold parse_value.
  destruct (h_dataType lh) eqn:Ed; try by apply parse_single_total.
  - change (h_index lh < PID_STATUS_BYTE_SLICE_NUM_FIELDS) in Hi.
    destruct (lookup_lt_is_Some_2 (byteSliceFields (l_status st)) (h_index lh)) as [old Ho]; [by rewrite H1|]. rewrite Ho. cbn [must]. rewrite bind_ret.
    destruct (list_words true [] s) as [v r] eqn:E. apply list_words_length in E. by apply store_value_total.
  - change (h_index lh < PID_STATUS_ULONG_NUM_FIELDS) in Hi. destruct (scan_num 64 0 false false s) as [v h e s'|c s'] eqn:E; [|by eexists].
    assert (length s' <= length s) as Hs'.
    { destruct (decide (s = [])) as [->|Hs]; [by injection E as <- <- <- <-|]. apply scan_num_length in E; [lia|done]. }
    rewrite store_Ret, bind_ret by (by rewrite H3). eexists. split; [done|].
    split; [split; cbn; rewrite ?length_insert; done|]. cbn. pose proof (to_eol_le e s'). lia.
Qed.

Lemma parse_line_total n s st : st_ok st -> s <> [] ->
  returns (parse_line n s st) (fun r => st_ok r.1 /\ match r.2 with inl _ => True | inr s' => length s' < length s end).
Proof.
  intros Hst Hs. unfold parse_line. pose proof (skip_length isWhitespace s) as Hl.
  pose proof (span_append (fun c => negb (beq c COLON || beq c NL)) (skip isWhitespace s)) as Hsp. destruct (span _ (skip isWhitespace s)) as [pre r].
  cbn [fst snd] in Hsp. rewrite <- Hsp, length_app in Hl. destruct pre as [|c0 pre]; [by eexists|]. destruct r as [|c r]; [by eexists|]. simpl in Hl.
  destruct (beq c COLON); [|by eexists]. destruct (handling (c0 :: pre)) as [lh|] eqn:Hh.
  - eapply returns_mono; [by eapply parse_value_total|]. intros [st' [e|s']] [H1 H2]; [done|]. split; [done|]. cbn [fst snd] in *.
    pose proof (skip_length isWhitespace r). lia.
  - eexists. split; [done|]. split; [done|]. cbn. pose proof (to_eol_le false r). lia.
Qed.

(** The parser returns on any content and keeps the sizes of its slices. *)
Lemma Parse_sized rd ps : sized ps -> returns (Parse rd ps) (fun r => sized r.1).
Proof.
  intros (H1 & H2 & H3). unfold Parse. destruct rd as [buf| |]; [|by eexists; split; [done|]..].
  eapply returns_bind; [apply (scan_lines_returns parse_line st_ok)|].
  - intros n s st Hst Hs. by apply parse_line_total.
  - by split.
  - intros [st err] [S1 S2 S3 S4]. destruct err; eexists; (split; [done|]); [done|].
    split; cbn; [|done]. destruct (0 <? _)%Z; [|done]. cbn [fst] in *. by rewrite length_zip_with, S4, S1.
Qed.

(** a file of lines with distinct prefixes is parsed to the values of the
    known ones: lists joined by commas, values and units as they are, numbers
    modulo 2^64.  The byte slice fields that the file does not have are empty,
    whatever the parser held before; the numbers and units that it does not
    have are kept. *)
Theorem pid_status_parse_file ps rows :
  st_ok (mkLoop ps (replicate PID_STATUS_BYTE_SLICE_NUM_FIELDS false) 22) ->
  Forall row_ok rows -> NoDup (map r_name rows) -> Forall (unit_ok (byteSliceFieldUnit ps)) rows ->
  exists ps', Parse (ReadOk (concat (map row_out rows))) ps = Ret (ps', None) /\
    (forall r i, r ∈ rows -> field_idx (r_name r) = Some i -> observe <$> byteSliceFields ps' !! i = Some (row_value r)) /\
    (forall i, i < PID_STATUS_BYTE_SLICE_NUM_FIELDS -> (forall r, r ∈ rows -> field_idx (r_name r) <> Some i) -> byteSliceFields ps' !! i = Some None) /\
    (forall r i, r ∈ rows -> unit_idx (r_name r) = Some i -> byteSliceFieldUnit ps' !! i = Some (row_unit r)) /\
    (forall r i, r ∈ rows -> num_idx (r_name r) = Some i -> numericFields ps' !! i = Some (row_num r)) /\
    (forall i, (forall r, r ∈ rows -> num_idx (r_name r) <> Some i) -> numericFields ps' !! i = numericFields ps !! i).
Proof.
  intros Hst Hok Hnd Hun. pose proof Hst as [Hf Hu Hn Hfo]. cbn [l_status l_found] in *.
  destruct (status_scan_rows rows 1 _ Hok Hnd Hst) as (st' & Hs & [Hf' Hu' Hn' Hfo'] & Hm & H1 & H2 & H3 & H4).
  { split_and!; [reflexivity| |]; cbn [l_found l_status].
    - intros r i _ (? & _ & _ & _ & Hi)%field_idx_inv. by apply lookup_replicate_2.
    - intros r Hr. by eapply Forall_forall in Hun. }
  cbn [l_status l_found] in *. unfold Parse. change (Z.of_nat PID_STATUS_BYTE_SLICE_NUM_FIELDS) with 22%Z. rewrite Hs, bind_ret.
  destruct (store_rows_spec r_name (fun _ => true) field_idx PID_STATUS_BYTE_SLICE_NUM_FIELDS rows
    (replicate PID_STATUS_BYTE_SLICE_NUM_FIELDS false)) as (_ & F2 & F3); [by intros k i (? & ? & ? & ? & ?)%field_idx_inv|exact field_idx_inj|done|done|].
  destruct (store_rows_spec r_name row_value field_idx PID_STATUS_BYTE_SLICE_NUM_FIELDS rows (map observe (byteSliceFields ps)))
    as (_ & V2 & _); [by intros k i (? & ? & ? & ? & ?)%field_idx_inv|exact field_idx_inj|done|by rewrite length_map|].
  destruct (store_rows_spec r_name row_unit unit_idx PID_STATUS_BYTE_SLICE_NUM_FIELDS rows (byteSliceFieldUnit ps))
    as (_ & U2 & _); [by intros k i (? & ? & ? & ? & ?)%unit_field_idx%field_idx_inv| |done|done|].
  { intros k1 k2 i E1%unit_field_idx E2%unit_field_idx. by eapply field_idx_inj. }
  destruct (store_rows_spec r_name row_num num_idx PID_STATUS_ULONG_NUM_FIELDS rows (numericFields ps))
    as (_ & N2 & N3); [by intros k i (? & ? & ? & ? & ?)%num_idx_inv|exact num_idx_inj|done|done|].
  rewrite <- H4 in F2, F3. rewrite <- H1 in V2. rewrite <- H2 in U2. rewrite <- H3 in N2, N3.
  assert (forall i (b : bool) (f : option bslice), l_found st' !! i = Some b -> byteSliceFields (l_status st') !! i = Some f ->
    (if (0 <? l_missing st')%Z then zip_with (fun (found : bool) f => if found then f else None) (l_found st') (byteSliceFields (l_status st'))
     else byteSliceFields (l_status st')) !! i = Some (if (b : bool) then f else None)) as Hclear.
  { intros i b f Hb Hfi. destruct (0 <? l_missing st')%Z eqn:E; [by rewrite lookup_zip_with, Hb, Hfi|].
    rewrite Hfi. apply Z.ltb_ge in E. rewrite Hm in E. by rewrite (not_found_0 _ _ _ E Hb). }
  eexists. split; [reflexivity|]. cbn [byteSliceFields byteSliceFieldUnit numericFields]. split_and!.
  - intros r i Hr Hi. specialize (V2 r i Hr Hi). rewrite list_lookup_fmap in V2.
    destruct (byteSliceFields (l_status st') !! i) as [f|] eqn:Ef; [|done]. by rewrite (Hclear i true f (F2 r i Hr Hi) Ef).
  - intros i Hi Hno. destruct (lookup_lt_is_Some_2 (byteSliceFields (l_status st')) i) as [f Hfi]; [by rewrite Hf'|].
    rewrite (Hclear i false f); [done| |done]. rewrite F3 by done. by apply lookup_replicate_2.
  - exact U2.
  - exact N2.
  - exact N3.
Qed.

(** A parser that holds the value of a field that the file does not have. *)
Definition status_seen : PidStatus :=
  mkPidStatus (<[1 := Some (BSlice (bs "111") 3)]> (replicate PID_STATUS_BYTE_SLICE_NUM_FIELDS None))
    (replicate PID_STATUS_BYTE_SLICE_NUM_FIELDS []) [7; 8]%Z.
Definition status_rows : list row :=
  [Row (bs "Name") [TAB] (BIgnored (bs "rs:main Q:Reg"));
   Row (bs "Uid") [TAB] (BList [([TAB], bs "104"); ([], bs "5")] []);
   Row (bs "VmPeak") [TAB] (BUnit (bs "222400") (bs " ") (bs "kB") []);
   Row (bs "voluntary_ctxt_switches") [TAB] (BNumber (bs "2588") [])].

Lemma pid_status_parse_file_witness :
  exists ps', Parse (ReadOk (concat (map row_out status_rows))) status_seen = Ret (ps', None) /\
    observe <$> byteSliceFields ps' !! 0 = Some (bs "104,5") /\ byteSliceFields ps' !! 1 = Some None /\
    byteSliceFieldUnit ps' !! 3 = Some (bs "kB") /\ numericFields ps' !! 0 = Some 2588%Z /\ numericFields ps' !! 1 = Some 8%Z.
Proof.
  destruct (pid_status_parse_file status_seen status_rows) as (ps' & Hp & H1 & H2 & H3 & H4 & H5).
  - split; reflexivity.
  - assert (forall r, r_name r <> [] /\ forallb (fun c => negb (beq c COLON || beq c NL)) (r_name r) = true /\ stops isWhitespace (r_name r) /\
      forallb isWhitespace (r_ws r) = true /\ body_ok (r_name r) (r_body r) -> row_ok r) as Hrow.
    { intros r (A & B & C & D & E). split; [split; [exact A|split; [by apply Forall_forallb|exact C]]|by apply Forall_forallb|exact E]. }
    assert (forall w, forallb (fun c => negb (is_sep_byte c)) w = true -> no_sep w) as Hns by (intros w; apply Forall_forallb).
    repeat (apply Forall_cons; split); [..|constructor]; apply Hrow; (split; [done|]); (split; [reflexivity|]); (split; [done|]); (split; [reflexivity|]).
    + split; [reflexivity|]. repeat constructor.
    + eexists. split; [reflexivity|]. split; [reflexivity|].
      split; [repeat (apply Forall_cons; split); [| |constructor]; (split; [done|]); (split; [by apply Hns|]); repeat constructor|].
      split; [by repeat constructor|]. split; [constructor|done].
    + eexists. split; [reflexivity|]. split; [reflexivity|]. split; [done|]. split; [by apply Hns|]. split; [by repeat constructor|].
      split; [done|]. split; [done|]. split; [by apply Hns|]. split; [constructor|exact I].
    + eexists. split; [reflexivity|]. split; [reflexivity|]. split; [split; [done|repeat constructor]|]. split; [constructor|exact I].
  - apply (bool_decide_unpack _). vm_compute. exact I.
  - repeat (apply Forall_cons; split); [..|constructor]; intros i Hi; (done || (left; vm_compute in Hi; injection Hi as <-; reflexivity)).
  - exists ps'. split; [exact Hp|]. split; [|split; [|split; [|split]]].
    + apply (H1 (Row (bs "Uid") [TAB] (BList [([TAB], bs "104"); ([], bs "5")] []))); [right; by left|reflexivity].
    + apply H2; [vm_compute; lia|]. intros r Hr. unfold status_rows in Hr. set_unfold in Hr. destruct_or! Hr; subst r; vm_compute; discriminate.
    + apply (H3 (Row (bs "VmPeak") [TAB] (BUnit (bs "222400") (bs " ") (bs "kB") []))); [right; right; by left|reflexivity].
    + apply (H4 (Row (bs "voluntary_ctxt_switches") [TAB] (BNumber (bs "2588") []))); [right; right; right; by left|reflexivity].
    + apply H5. intros r Hr. unfold status_rows in Hr. set_unfold in Hr. destruct_or! Hr; subst r; vm_compute; discriminate.
Defined.
End PidStatus.
