(* ===== verification/GoTime.v ===== *)
(** Go's [time.Time] and [time.Duration] as the program uses them.

    A [Time] has a wall clock reading (nanoseconds since the zero time) and,
    when it comes from [time.Now], a monotonic reading.  [Before] and [Sub] use
    the monotonic readings when both times have one, [Truncate] strips it.  The
    wall clock is not bounded here (its seconds have 64 bits in Go); durations
    are [int64] nanoseconds. *)

From Stdlib Require Import ZArith Lia.
From stdpp Require Import base tactics numbers strings gmap list.
From S2P Require Import Prelude.
Local Open Scope Z_scope.

Definition Nanosecond : Z := 1.
Definition Millisecond : Z := 1000000.
Definition Second : Z := 1000 * Millisecond.

Record Time := mkTime { wall : Z; mono : option Z }.

Definition zeroTime : Time := mkTime 0 None.

Definition in_i64 (z : Z) : bool := (MinInt64 <=? z) && (z <=? MaxInt64).
Definition saturate (z : Z) : Z := Z.max MinInt64 (Z.min MaxInt64 z).

Definition Before (t u : Time) : bool :=
  match mono t, mono u with
  | Some a, Some b => a <? b
  | _, _ => wall t <? wall u
  end.

Definition Sub (t u : Time) : Z :=
  match mono t, mono u with
  | Some a, Some b => saturate (a - b)
  | _, _ => saturate (wall t - wall u)
  end.

(** A monotonic reading that would overflow is dropped. *)
Definition Add (t : Time) (d : Z) : Time :=
  mkTime (wall t + d)
    (match mono t with
     | Some m => if in_i64 (m + d) then Some (m + d) else None
     | None => None
     end).

Definition Truncate (t : Time) (d : Z) : Time :=
  mkTime (if d <=? 0 then wall t else wall t - wall t mod d) None.

(** [Duration.Truncate]: toward zero to a multiple of [m]. *)
Definition dur_Truncate (d m : Z) : Z := if m <=? 0 then d else d - Z.rem d m.

(** ** Readings of one clock *)

(** The wall clock is ahead of the monotonic clock by [off]: nobody stepped it. *)
Definition consistent (off : Z) (t : Time) : Prop :=
  match mono t with Some m => wall t = m + off | None => True end.

Lemma Before_wall off t u :
  consistent off t -> consistent off u -> Before t u = (wall t <? wall u).
Proof.
  unfold consistent, Before. destruct (mono t), (mono u); try done. intros -> ->.
  apply eq_true_iff_eq. rewrite !Z.ltb_lt. lia.
Qed.

Lemma Sub_wall off t u :
  consistent off t -> consistent off u -> Sub t u = saturate (wall t - wall u).
Proof.
  unfold consistent, Sub. destruct (mono t), (mono u); try done. intros -> ->. f_equal. lia.
Qed.

Lemma Add_consistent off t d : consistent off t -> consistent off (Add t d).
Proof.
  unfold consistent, Add. simpl. destruct (mono t); [|done]. intros. destruct (in_i64 _); [lia|done].
Qed.

Lemma Truncate_consistent off t d : consistent off (Truncate t d).
Proof. done. Qed.

Lemma zeroTime_consistent off : consistent off zeroTime.
Proof. done. Qed.

Lemma wall_Add t d : wall (Add t d) = wall t + d.
Proof. done. Qed.

(** A time without monotonic reading compares by wall clock. *)
Lemma Before_nomono_r t u : mono u = None -> Before t u = (wall t <? wall u).
Proof. unfold Before. intros ->. by destruct (mono t). Qed.

Lemma Before_nomono_l t u : mono t = None -> Before t u = (wall t <? wall u).
Proof. unfold Before. by intros ->. Qed.

(** The next multiple of [d] after [z]. *)
Lemma next_multiple z d : 0 < d ->
  let n := z - z mod d + d in z < n /\ (d | n) /\ forall m, (d | m) -> z < m -> n <= m.
Proof.
  intros Hd n. pose proof (Z.mod_pos_bound z d Hd). pose proof (Z.div_mod z d ltac:(lia)) as E.
  assert (n = d * (z / d + 1)) as Hn by (unfold n; lia). split_and!.
  - lia.
  - exists (z / d + 1). lia.
  - intros m [k ->] Hlt. rewrite Hn.
    assert (z / d < k) by (apply Z.div_lt_upper_bound; lia).
    assert (d * (z / d + 1) <= d * k) by (apply Z.mul_le_mono_nonneg_l; lia). lia.
Qed.

#[export] Hint Resolve Add_consistent Truncate_consistent zeroTime_consistent : go.
