(* ===== verification/GoFloat.v ===== *)
(** Go's [float64] and the number formatting of strconv as the program uses
    them.

    A [float64] is a binary64 of the Standard Library's SpecFloat.  A conversion
    to [int] that is out of range gives the value of the amd64 instruction,
    which Go leaves open.  [FormatFloat(x, 'f', prec, 64)] prints the exact value
    rounded to [prec] decimals, halves to even. *)

From Stdlib Require Import ZArith Lia.
From Stdlib Require Import Floats.SpecFloat.
From stdpp Require Import base tactics numbers strings gmap list.
From S2P Require Import Prelude Scan GoTime.
Local Open Scope Z_scope.

Definition f64_of_int (z : Z) : spec_float := binary_normalize 53 1024 z 0 false.
Definition f64_add := SFadd 53 1024.
Definition f64_sub := SFsub 53 1024.
Definition f64_mul := SFmul 53 1024.
Definition f64_div := SFdiv 53 1024.

Definition int_of_f64 (f : spec_float) : Z :=
  match f with
  | S754_zero _ => 0
  | S754_finite s m e =>
    let a := if 0 <=? e then Z.shiftl (Z.pos m) e else Z.shiftr (Z.pos m) (- e) in
    let z := if s then - a else a in
    if (MinInt64 <=? z) && (z <=? MaxInt64) then z else MinInt64
  | _ => MinInt64
  end.

(** [Duration.Seconds]. *)
Definition Seconds (d : Z) : spec_float :=
  f64_add (f64_of_int (Z.quot d Second)) (f64_div (f64_of_int (Z.rem d Second)) (f64_of_int 1000000000)).

(** ** Decimal numbers *)

Definition digit_char (d : Z) : byte := default Init.Byte.x30 (Strings.Byte.of_N (Z.to_N (48 + d))).

(** The decimal digits of [n]; the fuel is a bound on their number. *)
Fixpoint digits (fuel : nat) (n : Z) (acc : bytes) : bytes :=
  match fuel with
  | O => acc
  | S fuel =>
    let acc := digit_char (n mod 10) :: acc in
    if n <? 10 then acc else digits fuel (n / 10) acc
  end.

(** [strconv.FormatUint(n, 10)]. *)
Definition FormatUint (n : Z) : bytes := digits (S (Z.to_nat (Z.log2 n))) n [].

(** [strconv.Itoa]. *)
Definition Itoa (n : Z) : bytes := if n <? 0 then bs "-" ++ FormatUint (- n) else FormatUint n.

(** [num / den] rounded to the nearest integer, halves to even. *)
Definition round_half_even (num den : Z) : Z :=
  let q := num / den in
  match 2 * (num mod den) ?= den with
  | Lt => q
  | Gt => q + 1
  | Eq => if Z.even q then q else q + 1
  end.

(** The digits of [n] with [prec] of them after the point. *)
Definition fixed_point (prec : nat) (n : Z) : bytes :=
  let ds := FormatUint n in
  let ds := replicate (S prec - length ds) Init.Byte.x30 ++ ds in
  let k := (length ds - prec)%nat in
  take k ds ++ (match prec with O => [] | _ => bs "." ++ drop k ds end).

Definition FormatFloat (prec : nat) (f : spec_float) : bytes :=
  let sign (s : bool) := if s then bs "-" else [] in
  match f with
  | S754_nan => bs "NaN"
  | S754_infinity s => (if s then bs "-" else bs "+") ++ bs "Inf"
  | S754_zero s => sign s ++ fixed_point prec 0
  | S754_finite s m e =>
    let num := Z.pos m * 10 ^ Z.of_nat prec * 2 ^ Z.max 0 e in
    sign s ++ fixed_point prec (round_half_even num (2 ^ Z.max 0 (- e)))
  end.

Example FormatFloat_ex :
  FormatFloat 6 (Seconds 1500000000) = bs "1.500000" /\
  FormatFloat 1 (f64_div (f64_of_int 1) (f64_of_int 8)) = bs "0.1" /\
  FormatFloat 0 (f64_div (f64_of_int (-5)) (f64_of_int 2)) = bs "-2" /\
  FormatFloat 3 (f64_of_int 2) = bs "2.000".
Proof. vm_compute. split_and!; reflexivity. Qed.

Lemma digit_char_of d : 0 <= d < 10 -> digit_of (digit_char d) = d /\ is_digit (digit_char d) = true.
Proof.
  intros Hd. assert (d = 0 \/ d = 1 \/ d = 2 \/ d = 3 \/ d = 4 \/ d = 5 \/ d = 6 \/ d = 7 \/ d = 8 \/ d = 9) as H by lia.
  destruct_or! H; subst d; done.
Qed.

(** The digits: the number that they stand for, and how many they are. *)
Lemma digits_spec fuel n acc :
  0 <= n < 10 ^ Z.of_nat fuel -> (0 < fuel)%nat ->
  exists ds, digits fuel n acc = ds ++ acc /\ is_num ds /\ dec ds = n /\
    n < 10 ^ Z.of_nat (length ds) /\ (n = 0 \/ 10 ^ (Z.of_nat (length ds) - 1) <= n) /\ (n = 0 -> length ds = 1%nat).
Proof.
  revert n acc. induction fuel as [|fuel IH]; intros n acc Hn Hf; [lia|]. cbn [digits].
  pose proof (Z.mod_pos_bound n 10 ltac:(lia)) as Hm. destruct (digit_char_of (n mod 10) Hm) as [Hd Hi].
  destruct (n <? 10) eqn:E.
  - exists [digit_char (n mod 10)]. split; [done|]. split; [by split; [|constructor]|].
    unfold dec, dec_from. simpl. rewrite Hd, Z.mod_small by lia. split; [lia|]. split; [lia|]. split; [|done]. lia.
  - assert (0 <= n / 10 < 10 ^ Z.of_nat fuel) as Hq.
    { split; [apply Z.div_pos; lia|]. apply Z.div_lt_upper_bound; [lia|].
      rewrite Nat2Z.inj_succ, Z.pow_succ_r in Hn by lia. lia. }
    assert (0 < fuel)%nat as Hf'.
    { destruct fuel; [|lia]. simpl in Hn. lia. }
    destruct (IH (n / 10) (digit_char (n mod 10) :: acc) Hq Hf') as (ds & -> & [Hne Hall] & Hv & Hu & Hl & _).
    exists (ds ++ [digit_char (n mod 10)]).
    assert (1 <= n / 10) by (apply Z.div_le_lower_bound; lia).
    split; [by rewrite <- app_assoc|]. split; [|split; [|split; [|split]]].
    + split; [by destruct ds|]. apply Forall_app_2; [done|]. by constructor.
    + unfold dec, dec_from in *. rewrite foldl_app. simpl. rewrite Hv, Hd.
      pose proof (Z.div_mod n 10). lia.
    + rewrite length_app, Nat2Z.inj_add, Z.pow_add_r by lia. simpl. pose proof (Z.div_mod n 10). lia.
    + right. rewrite length_app, Nat2Z.inj_add.
      replace (Z.of_nat (length ds) + Z.of_nat (length [digit_char (n mod 10)]) - 1)
        with (Z.of_nat (length ds)) by (simpl; lia).
      destruct Hl as [Hl|Hl]; [lia|]. assert (0 < length ds)%nat by (destruct ds; [done|simpl; lia]).
      replace (Z.of_nat (length ds)) with (Z.of_nat (length ds) - 1 + 1) by lia.
      rewrite Z.pow_add_r by lia. pose proof (Z.div_mod n 10). lia.
    + lia.
Qed.

Lemma FormatUint_spec n :
  0 <= n ->
  is_num (FormatUint n) /\ dec (FormatUint n) = n /\ n < 10 ^ Z.of_nat (length (FormatUint n)) /\
  (n = 0 \/ 10 ^ (Z.of_nat (length (FormatUint n)) - 1) <= n) /\ (n = 0 -> length (FormatUint n) = 1%nat).
Proof.
  intros Hn. unfold FormatUint.
  destruct (digits_spec (S (Z.to_nat (Z.log2 n))) n []) as (ds & -> & H); [|lia|by rewrite app_nil_r].
  split; [done|]. rewrite Nat2Z.inj_succ, Z2Nat.id by apply Z.log2_nonneg.
  destruct (decide (n = 0)) as [->|]; [done|].
  pose proof (Z.log2_spec n ltac:(lia)) as [_ Hl].
  eapply Z.lt_le_trans; [exact Hl|]. apply Z.pow_le_mono_l. lia.
Qed.

Lemma FormatUint_inj a b : 0 <= a -> 0 <= b -> FormatUint a = FormatUint b -> a = b.
Proof.
  intros Ha Hb H. destruct (FormatUint_spec a Ha) as (_ & Hda & _).
  destruct (FormatUint_spec b Hb) as (_ & Hdb & _). congruence.
Qed.
