(* ===== verification/ProcPaths.v ===== *)
(** The paths of the files that the parsers read (src/procfs/pid_parser.go and
    the [*Path] functions of the other parsers), with [path.Join] and
    [path.Clean] of the Go library as the program uses them.

    [Clean] is written with the stack of path elements that Go keeps in its
    buffer: an element is dropped, pushed, or takes the last one away.  What the
    path functions make of a root is then the cleaned elements of the root
    followed by the names, whatever the root is; from it follows that different
    files have different paths. *)

From Stdlib Require Import ZArith Lia.
From stdpp Require Import base tactics numbers strings gmap list.
From S2P Require Import Prelude Scan BufPool GoFloat PidTidList.

Module ProcPaths.

Definition SLASH : byte := Init.Byte.x2f.
Definition DOT : bytes := bs ".".
Definition DOTDOT : bytes := bs "..".

(** ** path.Clean and path.Join *)

(** The elements between the slashes. *)
Fixpoint elements (s : bytes) : list bytes :=
  match s with
  | [] => [[]]
  | c :: s =>
    match elements s with
    | [] => []
    | e :: es => if beq c SLASH then [] :: e :: es else (c :: e) :: es
    end
  end.

(** The elements with a slash between them. *)
Fixpoint slashed (es : list bytes) : bytes :=
  match es with
  | [] => []
  | [e] => e
  | e :: es => e ++ SLASH :: slashed es
  end.

Definition rooted (s : bytes) : bool := match s with c :: _ => beq c SLASH | [] => false end.

(** One element of the path, on the elements so far, last first. *)
Definition clean_step (rooted : bool) (out : list bytes) (e : bytes) : list bytes :=
  if bool_decide (e = []) || bool_decide (e = DOT) then out
  else if bool_decide (e = DOTDOT) then
    match out with
    | top :: rest => if bool_decide (top = DOTDOT) then e :: out else rest
    | [] => if rooted then [] else [e]
    end
  else e :: out.

Definition cleaned (s : bytes) : list bytes := rev (foldl (clean_step (rooted s)) [] (elements s)).

Definition render (rooted : bool) (es : list bytes) : bytes :=
  if rooted then SLASH :: slashed es else match es with [] => DOT | _ => slashed es end.

Definition Clean (s : bytes) : bytes := render (rooted s) (cleaned s).

(** [path.Join]: empty elements before the first that is not are ignored. *)
Fixpoint Join (elem : list bytes) : bytes :=
  match elem with
  | [] => []
  | [] :: elem => Join elem
  | elem => Clean (slashed elem)
  end.

Example Join_ex :
  Join [bs "/proc"; bs "net"; bs "dev"] = bs "/proc/net/dev" /\ Join [bs "/"; bs "stat"] = bs "/stat" /\
  Join [bs "../a/./b//"; bs "stat"] = bs "../a/b/stat" /\ Join [bs "/../a/.."; bs "1"] = bs "/1" /\
  Join [[]; bs "stat"] = bs "stat" /\ Join [[]; []] = [] /\ Join [bs "a/.."; []] = bs "." /\ Clean [] = bs ".".
Proof. vm_compute. split_and!; reflexivity. Qed.

(** ** The paths of the files *)

Definition SELF_PID : Z := -1.

Definition BuildPidTidPath (procfsRoot : bytes) (pid tid : Z) : bytes :=
  let pidStr := if (pid <=? 0)%Z then bs "self" else Itoa pid in
  if (tid <=? 0)%Z then Join [procfsRoot; pidStr]
  else Join [procfsRoot; pidStr; bs "task"; Itoa tid].

Record PidTidPath := NewPidTidPath { procfsRoot : bytes }.

Definition Path (p : PidTidPath) (pid tid : Z) (fName : bytes) : bytes := BuildPidTidPath (procfsRoot p) pid tid.

Definition StatPath (procfsRoot : bytes) : bytes := Join [procfsRoot; bs "stat"].
Definition DiskstatsPath (procfsRoot : bytes) : bytes := Join [procfsRoot; bs "diskstats"].
Definition InterruptsPath (procfsRoot : bytes) : bytes := Join [procfsRoot; bs "interrupts"].
Definition SoftirqsPath (procfsRoot : bytes) : bytes := Join [procfsRoot; bs "softirqs"].
Definition NetDevPath (procfsRoot : bytes) : bytes := Join [procfsRoot; bs "net"; bs "dev"].
Definition NetSnmpPath (procfsRoot : bytes) : bytes := Join [procfsRoot; bs "net"; bs "snmp"].
Definition NetSnmp6Path (procfsRoot : bytes) : bytes := Join [procfsRoot; bs "net"; bs "snmp6"].
Definition MountinfoPath (procfsRoot : bytes) (pid : Z) : bytes :=
  let pidPart := if (0 <? pid)%Z then Itoa pid else bs "self" in
  Join [procfsRoot; pidPart; bs "mountinfo"].
Definition PidStatusPath (procfsRoot : bytes) (pid tid : Z) : bytes :=
  if (tid =? PidTidList.PID_ONLY_TID)%Z then Join [procfsRoot; Itoa pid; bs "status"]
  else Join [procfsRoot; Itoa pid; bs "task"; Itoa tid; bs "status"].

(** The file of a process that a parser opens. *)
Definition pidStatPath (pidTidPath : bytes) : bytes := Join [pidTidPath; bs "stat"].
Definition pidStatusPath (pidTidPath : bytes) : bytes := Join [pidTidPath; bs "status"].
Definition pidCmdlinePath (pidTidPath : bytes) : bytes := Join [pidTidPath; bs "cmdline"].

(** The files that the importer reads. *)
Inductive proc_file :=
| Stat | Diskstats | Interrupts | Softirqs | NetDev | NetSnmp | NetSnmp6
| Mountinfo (pid : Z)
| PidStat (pid tid : Z) | PidStatus (pid tid : Z) | PidCmdline (pid tid : Z).

Definition file_path (root : bytes) (f : proc_file) : bytes :=
  match f with
  | Stat => StatPath root | Diskstats => DiskstatsPath root | Interrupts => InterruptsPath root | Softirqs => SoftirqsPath root
  | NetDev => NetDevPath root | NetSnmp => NetSnmpPath root | NetSnmp6 => NetSnmp6Path root
  | Mountinfo pid => MountinfoPath root pid
  | PidStat pid tid => pidStatPath (BuildPidTidPath root pid tid)
  | PidStatus pid tid => pidStatusPath (BuildPidTidPath root pid tid)
  | PidCmdline pid tid => pidCmdlinePath (BuildPidTidPath root pid tid)
  end.

(** ** The pools that the files are read with *)

Definition READ_FILE_BUF_POOL_MAX_READ_SIZE_UNBOUND : Z := 0.

(** Each is one object, which the parsers that name it share; here is what it
    starts as. *)
Section pools.
Context (mem : gmap nat bytes).

Definition ReadFileBufPool16k := BufPool.NewReadFileBufPool 32 0x4000 mem.
Definition ReadFileBufPool32k := BufPool.NewReadFileBufPool 32 0x8000 mem.
Definition ReadFileBufPool64k := BufPool.NewReadFileBufPool 32 0x10000 mem.
Definition ReadFileBufPool128k := BufPool.NewReadFileBufPool 16 0x20000 mem.
Definition ReadFileBufPool256k := BufPool.NewReadFileBufPool 8 0x40000 mem.
Definition ReadFileBufPool1m := BufPool.NewReadFileBufPool 4 0x100000 mem.
Definition ReadFileBufPoolReadUnbound := BufPool.NewReadFileBufPool 4 READ_FILE_BUF_POOL_MAX_READ_SIZE_UNBOUND mem.

Definition statReadFileBufPool := ReadFileBufPool256k.
Definition diskstatsReadFileBufPool := ReadFileBufPool256k.
Definition interruptsReadFileBufPool := ReadFileBufPoolReadUnbound.
Definition softirqsReadFileBufPool := ReadFileBufPoolReadUnbound.
Definition netDevReadFileBufPool := ReadFileBufPool256k.
Definition netSnmpReadFileBufPool := ReadFileBufPool32k.
Definition netSnmp6ReadFileBufPool := ReadFileBufPool32k.
Definition mountinfoReadFileBufPool := ReadFileBufPool256k.
Definition pidStatusReadFileBufPool := ReadFileBufPool16k.
Definition pidCmdlineReadFileBufPool := ReadFileBufPool64k.

(** The pool of a file; the statistics of a process are read into a buffer of
    the parser's own. *)
Definition file_pool (f : proc_file) : option BufPool.ReadFileBufPool :=
  match f with
  | Stat => Some statReadFileBufPool | Diskstats => Some diskstatsReadFileBufPool
  | Interrupts => Some interruptsReadFileBufPool | Softirqs => Some softirqsReadFileBufPool
  | NetDev => Some netDevReadFileBufPool | NetSnmp => Some netSnmpReadFileBufPool | NetSnmp6 => Some netSnmp6ReadFileBufPool
  | Mountinfo _ => Some mountinfoReadFileBufPool
  | PidStat _ _ => None
  | PidStatus _ _ => Some pidStatusReadFileBufPool
  | PidCmdline _ _ => Some pidCmdlineReadFileBufPool
  end.

(** What the parser of a file gets. *)
Definition read_file (f : proc_file) (content : BufPool.file) : read_result :=
  BufPool.read content (match file_pool f with Some p => BufPool.maxReadSize p | None => 0%Z end).
End pools.

(** ** Elements and slashes *)

Definition no_slash (e : bytes) : Prop := Forall (fun c => beq c SLASH = false) e.

(** A name: an element that [Clean] keeps. *)
Definition name (e : bytes) : Prop := e <> [] /\ e <> DOT /\ e <> DOTDOT /\ no_slash e.

Lemma elements_cons c s : elements (c :: s) =
  match elements s with [] => [] | e :: es => if beq c SLASH then [] :: e :: es else (c :: e) :: es end.
Proof. done. Qed.

Lemma elements_nonempty s : elements s <> [].
Proof. induction s as [|c s IH]; [done|]. rewrite elements_cons. destruct (elements s); [done|]. by destruct (beq c SLASH). Qed.

Lemma elements_no_slash s : Forall no_slash (elements s).
Proof.
  induction s as [|c s IH]; [by repeat constructor|]. rewrite elements_cons.
  destruct (elements s) as [|e es]; [done|]. apply Forall_cons in IH as [He Hes].
  destruct (beq c SLASH) eqn:Ec; repeat (constructor; try done).
Qed.

Lemma elements_app a b : elements (a ++ SLASH :: b) = elements a ++ elements b.
Proof.
  induction a as [|c a IH].
  - rewrite app_nil_l, elements_cons, beq_refl. destruct (elements b) eqn:E; [by apply elements_nonempty in E|done].
  - rewrite <- app_comm_cons, !elements_cons, IH. destruct (elements a) eqn:E; [by apply elements_nonempty in E|].
    simpl. by destruct (beq c SLASH).
Qed.

Lemma elements_one e : no_slash e -> elements e = [e].
Proof. induction e as [|c e IH]; [done|]. intros [Hc He]%Forall_cons. rewrite elements_cons, IH by done. by rewrite Hc. Qed.

Lemma elements_slashed es : es <> [] -> Forall no_slash es -> elements (slashed es) = es.
Proof.
  induction es as [|e es IH]; [done|]. intros _ [He Hes]%Forall_cons. destruct es as [|e' es]; [by apply elements_one|].
  change (slashed (e :: e' :: es)) with (e ++ SLASH :: slashed (e' :: es)). rewrite elements_app, elements_one, IH by done. done.
Qed.

(** ** What Clean does to the elements *)

(** The elements so far, last first: names, and below them the [..] that lead
    out of where the path starts, which a rooted path has not. *)
Definition normal (rooted : bool) (out : list bytes) : Prop :=
  exists names k, out = names ++ replicate k DOTDOT /\ Forall name names /\ (rooted = true -> k = 0).

Lemma clean_name r out e : name e -> clean_step r out e = e :: out.
Proof. intros (H1 & H2 & H3 & _). unfold clean_step. by rewrite !bool_decide_eq_false_2. Qed.

Lemma clean_names r es out : Forall name es -> foldl (clean_step r) out es = rev es ++ out.
Proof.
  revert out. induction es as [|e es IH]; intros out; [done|]. intros [He Hes]%Forall_cons. cbn [foldl rev].
  by rewrite clean_name, IH, <- app_assoc.
Qed.

Lemma clean_dotdots k out : out = [] \/ head out = Some DOTDOT ->
  foldl (clean_step false) out (replicate k DOTDOT) = replicate k DOTDOT ++ out.
Proof.
  revert out. induction k as [|k IH]; intros out Ho; [done|]. cbn [foldl replicate].
  assert (clean_step false out DOTDOT = DOTDOT :: out) as ->.
  { destruct out as [|o out]; [done|]. destruct Ho as [|[= ->]]; [done|]. done. }
  rewrite IH by (by right). rewrite replicate_cons_app, <- app_assoc. done.
Qed.

Lemma clean_step_normal r out e : no_slash e -> normal r out -> normal r (clean_step r out e).
Proof.
  intros He (names & k & -> & Hn & Hk). unfold clean_step.
  case_bool_decide as H1; [by exists names, k|]. case_bool_decide as H2; [by exists names, k|]. simpl.
  case_bool_decide as H3.
  - subst e. destruct names as [|n names]; simpl.
    + destruct k as [|k]; simpl.
      * destruct r; [by exists [], 0|]. by exists [], 1.
      * destruct r; [by specialize (Hk eq_refl)|]. by exists [], (S (S k)).
    + apply Forall_cons in Hn as [(_ & _ & Hd & _) Hn]. rewrite bool_decide_eq_false_2 by done. by exists names, k.
  - exists (e :: names), k. split; [done|]. split; [|done]. by constructor.
Qed.

Lemma foldl_normal r es out : Forall no_slash es -> normal r out -> normal r (foldl (clean_step r) out es).
Proof.
  revert out. induction es as [|e es IH]; intros out; [done|]. intros [He Hes]%Forall_cons Ho. cbn [foldl].
  apply IH; [done|]. by apply clean_step_normal.
Qed.

Lemma cleaned_normal s : normal (rooted s) (rev (cleaned s)).
Proof. unfold cleaned. rewrite rev_involutive. apply foldl_normal; [apply elements_no_slash|]. by exists [], 0. Qed.

Lemma normal_no_slash r es : normal r (rev es) -> Forall no_slash es /\ Forall (fun e => e <> []) es.
Proof.
  intros (names & k & H & Hn & _). rewrite <- (rev_involutive es), H.
  split; apply Forall_rev, Forall_app; split;
    (apply Forall_replicate; repeat constructor; done) || (eapply Forall_impl; [exact Hn|]; by intros ? (? & _ & _ & ?)).
Qed.

Lemma normal_names r out names : normal r (rev out) -> Forall name names -> normal r (rev (out ++ names)).
Proof.
  intros (ns & k & H & Hn & Hk) Hnames. rewrite rev_app_distr, H. exists (rev names ++ ns), k.
  split; [by rewrite app_assoc|]. split; [|done]. apply Forall_app. split; [by apply Forall_rev|done].
Qed.

(** Normal elements survive a round through the text. *)
Lemma rooted_render r es : normal r (rev es) -> rooted (render r es) = r.
Proof.
  intros Hn. destruct r; [done|]. destruct (normal_no_slash _ _ Hn) as [Hs Hne].
  destruct es as [|e es]; [done|]. apply Forall_cons in Hs as [He _]. apply Forall_cons in Hne as [H0 _].
  destruct e as [|c e]; [done|]. apply Forall_cons in He as [Hc _]. unfold render. destruct es; exact Hc.
Qed.

Lemma rev_dotdots k : rev (replicate k DOTDOT) = replicate k DOTDOT.
Proof. induction k as [|k IH]; [done|]. cbn [replicate rev]. rewrite IH. symmetry. apply replicate_cons_app. Qed.

Lemma fold_normal r es : normal r (rev es) -> foldl (clean_step r) [] es = rev es.
Proof.
  intros (names & k & H & Hn & Hk). rewrite H.
  rewrite <- (rev_involutive es), H, rev_app_distr, rev_dotdots, foldl_app.
  assert (foldl (clean_step r) [] (replicate k DOTDOT) = replicate k DOTDOT) as ->.
  { destruct r; [by rewrite (Hk eq_refl)|]. rewrite clean_dotdots by (by left). by rewrite app_nil_r. }
  rewrite clean_names by (by apply Forall_rev). by rewrite rev_involutive.
Qed.

Lemma cleaned_render r es : normal r (rev es) -> cleaned (render r es) = es.
Proof.
  intros Hn. unfold cleaned. rewrite rooted_render by done. destruct (normal_no_slash _ _ Hn) as [Hs _].
  assert (foldl (clean_step r) [] (elements (render r es)) = foldl (clean_step r) [] es) as ->.
  { destruct r; simpl render; [|destruct es; [done|by rewrite elements_slashed]].
    rewrite <- (app_nil_l (SLASH :: _)), elements_app. cbn [elements app foldl].
    destruct es; [done|]. by rewrite elements_slashed. }
  by rewrite fold_normal, rev_involutive.
Qed.

Lemma Clean_idempotent s : Clean (Clean s) = Clean s.
Proof. unfold Clean at 1 3. unfold Clean. by rewrite rooted_render, cleaned_render by apply cleaned_normal. Qed.

(** ** Join *)

Lemma slashed_cons e es : es <> [] -> slashed (e :: es) = e ++ SLASH :: slashed es.
Proof. by destruct es. Qed.

Lemma rooted_app a b : a <> [] -> rooted (a ++ b) = rooted a.
Proof. by destruct a. Qed.

(** A root and names below it: the elements of the root, cleaned, and the names. *)
Lemma Join_names root names : names <> [] -> Forall name names ->
  Join (root :: names) = render (rooted root) (cleaned root ++ names).
Proof.
  intros Hne Hn.
  assert (Forall no_slash names) as Hs by (eapply Forall_impl; [exact Hn|]; by intros ? (? & ? & ? & ?)).
  destruct root as [|c root].
  - cbn [Join rooted]. change (cleaned []) with (@nil bytes). rewrite app_nil_l.
    destruct names as [|e names]; [done|]. destruct e as [|c e].
    { apply Forall_cons in Hn as [(? & _) _]. done. }
    cbn [Join]. unfold Clean, cleaned. rewrite elements_slashed by done.
    assert (rooted (slashed ((c :: e) :: names)) = false) as ->.
    { apply Forall_cons in Hs as [[Hc _]%Forall_cons _]. by destruct names. }
    rewrite clean_names by done. by rewrite rev_app_distr, rev_involutive.
  - cbn [Join]. rewrite slashed_cons by done. unfold Clean, cleaned. rewrite rooted_app, elements_app, elements_slashed by done.
    rewrite foldl_app, clean_names by done. by rewrite rev_app_distr, rev_involutive.
Qed.

Lemma Join_normal root names : Forall name names -> normal (rooted root) (rev (cleaned root ++ names)).
Proof. intros. by apply normal_names; [apply cleaned_normal|]. Qed.

(** A path below a path. *)
Lemma Join_Join root names names' : names <> [] -> names' <> [] -> Forall name names -> Forall name names' ->
  Join (Join (root :: names) :: names') = Join (root :: names ++ names').
Proof.
  intros H1 H2 Hn Hn'. rewrite (Join_names root names), (Join_names (render _ _)), Join_names;
    [|by destruct names|by apply Forall_app|done..].
  rewrite rooted_render, cleaned_render by (by apply Join_normal). by rewrite app_assoc.
Qed.

Lemma Join_inj root names names' : names <> [] -> names' <> [] -> Forall name names -> Forall name names' ->
  Join (root :: names) = Join (root :: names') -> names = names'.
Proof.
  intros H1 H2 Hn Hn'. rewrite !Join_names by done. intros H%(f_equal cleaned).
  rewrite !cleaned_render in H by (by apply Join_normal). by apply app_inv_head in H.
Qed.

(** ** The names of the files *)

Definition pid_name (pid : Z) : bytes := if (pid <=? 0)%Z then bs "self" else Itoa pid.

Definition pid_names (pid tid : Z) : list bytes :=
  if (tid <=? 0)%Z then [pid_name pid] else [pid_name pid; bs "task"; Itoa tid].

Definition file_names (f : proc_file) : list bytes :=
  match f with
  | Stat => [bs "stat"] | Diskstats => [bs "diskstats"] | Interrupts => [bs "interrupts"] | Softirqs => [bs "softirqs"]
  | NetDev => [bs "net"; bs "dev"] | NetSnmp => [bs "net"; bs "snmp"] | NetSnmp6 => [bs "net"; bs "snmp6"]
  | Mountinfo pid => [pid_name pid; bs "mountinfo"]
  | PidStat pid tid => pid_names pid tid ++ [bs "stat"]
  | PidStatus pid tid => pid_names pid tid ++ [bs "status"]
  | PidCmdline pid tid => pid_names pid tid ++ [bs "cmdline"]
  end.

(** The process that a number stands for: none at or below zero is different
    from the process itself, and none from the whole process. *)
Definition same_file (f g : proc_file) : Prop :=
  match f, g with
  | Mountinfo p, Mountinfo q => Z.max 0 p = Z.max 0 q
  | PidStat p t, PidStat q u | PidStatus p t, PidStatus q u | PidCmdline p t, PidCmdline q u =>
    Z.max 0 p = Z.max 0 q /\ Z.max 0 t = Z.max 0 u
  | _, _ => f = g
  end.

Lemma Itoa_digits n : (0 <= n)%Z -> Itoa n <> [] /\ Forall (fun c => is_digit c = true) (Itoa n).
Proof.
  intros Hn. unfold Itoa. rewrite (proj2 (Z.ltb_ge n 0)) by done. destruct (FormatUint_spec n Hn) as ([H1 H2] & _). by split.
Qed.

Lemma digits_other n e : (0 <= n)%Z -> (forall c, head e = Some c -> is_digit c = false) -> Itoa n <> e.
Proof.
  intros Hn He <-. destruct (Itoa_digits n Hn) as [H1 H2]. destruct (Itoa n) as [|c s]; [done|].
  apply Forall_cons in H2 as [H2 _]. specialize (He c eq_refl). congruence.
Qed.

Lemma name_Itoa n : (0 <= n)%Z -> name (Itoa n).
Proof.
  intros Hn. destruct (Itoa_digits n Hn) as [H1 H2]. split; [done|].
  split; [apply digits_other; [done|]; by intros ? [= <-]|]. split; [apply digits_other; [done|]; by intros ? [= <-]|].
  eapply Forall_impl; [exact H2|]. intros c Hc. apply beq_false. intros ->. done.
Qed.

Lemma Itoa_inj n m : (0 <= n)%Z -> (0 <= m)%Z -> Itoa n = Itoa m -> n = m.
Proof.
  intros Hn Hm. unfold Itoa. rewrite !(proj2 (Z.ltb_ge _ 0)) by done. by apply FormatUint_inj.
Qed.

(** A name that is written down. *)
Ltac literal := match goal with |- name _ => split_and!; [discriminate|discriminate|discriminate|repeat constructor] end.

Lemma name_pid pid : name (pid_name pid).
Proof. unfold pid_name. destruct (pid <=? 0)%Z eqn:E; [literal|apply name_Itoa; lia]. Qed.

(** A list of names. *)
Ltac name_list := repeat first [apply Forall_nil; exact I | apply Forall_cons; split | apply name_pid | literal | apply name_Itoa; lia].

Lemma names_pid pid tid : Forall name (pid_names pid tid) /\ pid_names pid tid <> [].
Proof.
  unfold pid_names. destruct (tid <=? 0)%Z eqn:E; (split; [name_list|done]).
Qed.

Lemma pid_name_inj p q : pid_name p = pid_name q -> Z.max 0 p = Z.max 0 q.
Proof.
  unfold pid_name. destruct (p <=? 0)%Z eqn:Ep, (q <=? 0)%Z eqn:Eq; intros H; [lia| | |].
  - symmetry in H. apply digits_other in H; [done|lia|by intros ? [= <-]].
  - apply digits_other in H; [done|lia|by intros ? [= <-]].
  - apply Itoa_inj in H; lia.
Qed.

Lemma pid_names_inj p t q u : pid_names p t = pid_names q u -> Z.max 0 p = Z.max 0 q /\ Z.max 0 t = Z.max 0 u.
Proof.
  unfold pid_names. destruct (t <=? 0)%Z eqn:Et, (u <=? 0)%Z eqn:Eu; intros H; [| | |]; try discriminate.
  - injection H as H. apply pid_name_inj in H. lia.
  - injection H as H1 H2. apply pid_name_inj in H1. apply Itoa_inj in H2; lia.
Qed.

Lemma pid_name_max p : pid_name p = pid_name (Z.max 0 p).
Proof. unfold pid_name. destruct (Z.leb_spec p 0); [by rewrite Z.max_l|by rewrite Z.max_r, (proj2 (Z.leb_gt p 0)) by lia]. Qed.

Lemma pid_names_max p t : pid_names p t = pid_names (Z.max 0 p) (Z.max 0 t).
Proof.
  unfold pid_names. rewrite <- pid_name_max.
  destruct (Z.leb_spec t 0); [by rewrite Z.max_l|by rewrite Z.max_r, (proj2 (Z.leb_gt t 0)) by lia].
Qed.

Lemma BuildPidTidPath_names root pid tid : BuildPidTidPath root pid tid = Join (root :: pid_names pid tid).
Proof. unfold BuildPidTidPath, pid_names, pid_name. by destruct (tid <=? 0)%Z. Qed.

Lemma names_file f : Forall name (file_names f) /\ file_names f <> [].
Proof.
  destruct f; simpl; try (split; [name_list|done]);
    (split; [apply Forall_app; split; [apply names_pid|name_list]|by destruct (pid_names _ _)]).
Qed.

Lemma file_path_names root f : file_path root f = Join (root :: file_names f).
Proof.
  destruct f; try done;
    try (unfold file_path, pidStatPath, pidStatusPath, pidCmdlinePath; rewrite BuildPidTidPath_names;
         apply Join_Join; [apply names_pid|done|apply names_pid|name_list]).
  cbn [file_path file_names]. unfold MountinfoPath, pid_name. destruct (pid <=? 0)%Z eqn:E, (0 <? pid)%Z eqn:E'; try done; lia.
Qed.

Lemma file_path_elements root f :
  rooted (file_path root f) = rooted root /\ cleaned (file_path root f) = cleaned root ++ file_names f /\
  Clean (file_path root f) = file_path root f.
Proof.
  destruct (names_file f) as [Hn Hne]. rewrite file_path_names, Join_names by done.
  pose proof (Join_normal root _ Hn) as Hk. unfold Clean. by rewrite rooted_render, cleaned_render.
Qed.

Lemma same_file_names f g : same_file f g -> file_names f = file_names g.
Proof.
  destruct f, g; simpl; try (by intros [=]);
    try (intros [Hp Ht]; by rewrite (pid_names_max pid), (pid_names_max pid0), Hp, Ht).
  intros Hp. by rewrite (pid_name_max pid), (pid_name_max pid0), Hp.
Qed.

Lemma file_names_inj f g : file_names f = file_names g -> same_file f g.
Proof.
  destruct f, g; cbn [file_names same_file]; intros Hf; try reflexivity;
    try (apply (f_equal last) in Hf; rewrite ?last_snoc in Hf; discriminate);
    try (apply app_inj_tail in Hf as [Hf _]; by apply pid_names_inj);
    try (by destruct (names_pid pid tid) as [_ Hne]; destruct (pid_names pid tid) as [|? []]).
  injection Hf as Hf. by apply pid_name_inj.
Qed.

(** [PidStatusPath] agrees with the path that the parser builds, for a process
    that has a number; for the process itself it does not. *)
Lemma PidStatusPath_agrees root pid tid : (0 < pid)%Z -> (0 <= tid)%Z ->
  PidStatusPath root pid tid = file_path root (PidStatus pid tid).
Proof.
  intros Hp Ht. rewrite file_path_names. unfold PidStatusPath, PidTidList.PID_ONLY_TID. cbn [file_names].
  unfold pid_names, pid_name. rewrite (proj2 (Z.leb_gt pid 0)) by done.
  destruct (tid =? 0)%Z eqn:E, (tid <=? 0)%Z eqn:E'; try done; lia.
Qed.

(** [Path] does not look at the name of the file. *)
Lemma Path_ignores_name root pid tid fName fName' :
  Path (NewPidTidPath root) pid tid fName = Path (NewPidTidPath root) pid tid fName' /\
  Path (NewPidTidPath root) pid tid fName <> file_path root (PidStat pid tid).
Proof.
  split; [done|]. unfold Path. rewrite file_path_names, BuildPidTidPath_names. cbn [procfsRoot file_names].
  destruct (names_pid pid tid) as [Hn Hne]. destruct (names_file (PidStat pid tid)) as [Hn' Hne'].
  intros H%Join_inj; [|done..]. apply (f_equal length) in H. rewrite length_app in H. simpl in H. lia.
Qed.

(** The files that the importer reads are at the cleaned elements of the root
    followed by the names of the file, whatever the root is, and different
    files are at different paths: no parser is ever given the file of another,
    and no two processes or threads share one. *)
Theorem proc_paths_distinct root f g :
  cleaned (file_path root f) = cleaned root ++ file_names f /\ rooted (file_path root f) = rooted root /\
  Clean (file_path root f) = file_path root f /\
  (file_path root f = file_path root g <-> same_file f g).
Proof.
  destruct (file_path_elements root f) as (Hr & Hc & Hi). split_and!; try done. split.
  - intros H. apply file_names_inj. rewrite !file_path_names in H. by apply Join_inj in H; try apply names_file.
  - intros H%same_file_names. by rewrite !file_path_names, H.
Qed.

(** A file is given whole to its parser while it is below the size of the
    pool's reads; the files with a column per processor, and the statistics of a
    process, are never cut; and what is cut keeps at least 16 KiB. *)
Lemma read_file_whole mem f content :
  (forall p, file_pool mem f = Some p -> (0 < BufPool.maxReadSize p)%Z -> (Z.of_nat (length content) < BufPool.maxReadSize p)%Z) ->
  read_file mem f (BufPool.File content false) = ReadOk content.
Proof.
  intros H. unfold read_file, BufPool.read, BufPool.copy. destruct (file_pool mem f) as [p|]; [|done].
  destruct (Z.ltb_spec 0 (BufPool.maxReadSize p)); [|done]. by rewrite (proj2 (Z.leb_gt _ _)) by (by apply H).
Qed.

Lemma read_trunc file limit buf : BufPool.read file limit = ReadTrunc buf -> (0 < limit)%Z /\ Z.of_nat (length buf) = limit.
Proof.
  unfold BufPool.read, BufPool.copy. destruct file as [|content []]; [done| |]; destruct (Z.ltb_spec 0 limit); try done;
    destruct (Z.leb_spec limit (Z.of_nat (length content))); try done; intros [= <-]; rewrite length_take; lia.
Qed.

Lemma read_file_cut mem f file buf : read_file mem f file = ReadTrunc buf ->
  f <> Interrupts /\ f <> Softirqs /\ (forall pid tid, f <> PidStat pid tid) /\ (0x4000 <= Z.of_nat (length buf))%Z.
Proof.
  unfold read_file. intros [H0 ->]%read_trunc. destruct f; cbn in H0 |- *; (by exfalso) || split_and!; try done; lia.
Qed.

Example file_path_ex :
  file_path (bs "/proc/") (PidStat 42 43) = bs "/proc/42/task/43/stat" /\ file_path (bs "/") (PidStatus 7 0) = bs "/7/status" /\
  file_path (bs "/proc") (Mountinfo SELF_PID) = bs "/proc/self/mountinfo" /\ file_path [] NetSnmp6 = bs "net/snmp6" /\
  PidStatusPath (bs "/proc") SELF_PID 0 = bs "/proc/-1/status".
Proof. vm_compute. split_and!; reflexivity. Qed.

End ProcPaths.
