(* ===== verification/Heap.v ===== *)
(** Binary heap of Go's container/heap as the scheduler uses it: [heap.Push]
    and [heap.Pop] over the scheduler's [Len], [Less], [Swap], [Push] and [Pop]
    (src/lsvmi/scheduler.go).  The array is a list; indexing out of range
    panics; the two sift loops have their index as a bound. *)

From Stdlib Require Import ZArith Lia.
From stdpp Require Import base tactics numbers strings gmap list.
From S2P Require Import Prelude.

Module Heap.

Section heap.
Context {A : Type} (less : A -> A -> bool).

Definition Less (i j : nat) (l : list A) : outcome bool :=
  x ← must (l !! i); y ← must (l !! j); Ret (less x y).

Definition Swap (i j : nat) (l : list A) : outcome (list A) :=
  x ← must (l !! i); y ← must (l !! j);
  l ← store l i y; store l j x.

(** The interface's own [Push] and [Pop]: at the end of the array. *)
Definition append (x : A) (l : list A) : list A := l ++ [x].
Definition remove_last (l : list A) : outcome (A * list A) :=
  x ← must (last l); Ret (x, take (length l - 1) l).

(** [heap.up]; [(j - 1) / 2] is 0 at 0, in Go as here. *)
Definition up_body (st : list A * nat) : outcome ((list A * nat) + list A) :=
  let '(l, j) := st in
  let i := (j - 1) / 2 in
  if i =? j then Ret (inr l)
  else
    b ← Less j i l;
    if negb b then Ret (inr l)
    else l ← Swap i j l; Ret (inl (l, i)).
Definition up (l : list A) (j : nat) : outcome (list A) := while (S j) up_body (l, j).

(** [heap.down] on the first [n] elements. *)
Definition down_body (n : nat) (st : list A * nat) : outcome ((list A * nat) + list A) :=
  let '(l, i) := st in
  let j1 := 2 * i + 1 in
  if n <=? j1 then Ret (inr l)
  else
    let j2 := j1 + 1 in
    right ← (if j2 <? n then Less j2 j1 l else Ret false);
    let j := if right : bool then j2 else j1 in
    b ← Less j i l;
    if negb b then Ret (inr l)
    else l ← Swap i j l; Ret (inl (l, j)).
Definition down (l : list A) (i0 n : nat) : outcome (list A) :=
  while (S n) (down_body n) (l, i0).

Definition Push (x : A) (l : list A) : outcome (list A) :=
  let l := append x l in up l (length l - 1).

Definition Pop (l : list A) : outcome (A * list A) :=
  match length l with
  | 0 => Panic
  | S n => l ← Swap 0 n l; l ← down l 0 n; remove_last l
  end.
End heap.

(** ** Order *)

Section order.
Context {A : Type} `{Inhabited A} (less : A -> A -> bool) (key : A -> Z) (P : A -> Prop).
(** On the elements of interest the comparison is by a key. *)
Hypothesis less_key : forall x y, P x -> P y -> less x y = (key x <? key y)%Z.

(** [c] is a child of [p]. *)
Definition child (p c : nat) : Prop := c = 2 * p + 1 \/ c = 2 * p + 2.

(** Every parent among the first [n] elements is at most its children, except
    where [skip] says so. *)
Definition ordered_but (skip : nat -> nat -> Prop) (n : nat) (l : list A) : Prop :=
  forall p c, child p c -> c < n -> ~ skip p c -> (key (l !!! p) <= key (l !!! c))%Z.
Definition ordered (l : list A) : Prop :=
  ordered_but (fun _ _ => False) (length l) l.

Lemma must_total (l : list A) i : i < length l -> must (l !! i) = Ret (l !!! i).
Proof. intros Hi. by rewrite (list_lookup_lookup_total_lt l i Hi). Qed.

Lemma total_P (l : list A) i : Forall P l -> i < length l -> P (l !!! i).
Proof.
  intros HP Hi. rewrite Forall_lookup in HP. apply (HP i).
  by apply list_lookup_lookup_total_lt.
Qed.

Lemma Less_Ret l i j : Forall P l -> i < length l -> j < length l ->
  Less less i j l = Ret (key (l !!! i) <? key (l !!! j))%Z.
Proof.
  intros HP Hi Hj. unfold Less. rewrite (must_total l i Hi), bind_ret, (must_total l j Hj), bind_ret.
  by rewrite less_key by by apply total_P.
Qed.

(** The list after a swap. *)
Definition swapped (i j : nat) (l : list A) : list A := <[j := l !!! i]> (<[i := l !!! j]> l).

Lemma Swap_Ret l i j : i < length l -> j < length l -> Swap i j l = Ret (swapped i j l).
Proof.
  intros Hi Hj. unfold Swap. rewrite (must_total l i Hi), bind_ret, (must_total l j Hj), bind_ret.
  rewrite store_Ret by done. rewrite bind_ret, store_Ret; [done|by rewrite length_insert].
Qed.

Lemma swapped_length i j l : length (swapped i j l) = length l.
Proof. unfold swapped. by rewrite !length_insert. Qed.

Lemma swapped_lookup i j l k : i < length l -> j < length l ->
  swapped i j l !!! k = if decide (k = j) then l !!! i else if decide (k = i) then l !!! j else l !!! k.
Proof.
  intros Hi Hj. unfold swapped. case_decide as Hkj.
  { subst. apply list_lookup_total_insert_eq. by rewrite length_insert. }
  rewrite list_lookup_total_insert_ne by congruence. case_decide as Hki.
  { subst. by apply list_lookup_total_insert_eq. }
  by rewrite list_lookup_total_insert_ne by congruence.
Qed.

Lemma swapped_perm i j l : i < length l -> j < length l -> swapped i j l ≡ₚ l.
Proof.
  intros Hi Hj. destruct (decide (i = j)) as [->|Hij].
  { unfold swapped. rewrite list_insert_insert_eq.
    rewrite (list_insert_id l j); [done|]. by apply list_lookup_lookup_total_lt. }
  apply Permutation_inj. split; [by rewrite swapped_length|].
  exists (fun k => if decide (k = j) then i else if decide (k = i) then j else k). split.
  - intros a b. repeat case_decide; congruence.
  - intros k. destruct (decide (k < length l)) as [Hk|Hk].
    + assert (forall m, m < length l -> l !! m = Some (l !!! m)) as Hl
        by (intros; by apply list_lookup_lookup_total_lt).
      rewrite (list_lookup_lookup_total_lt (swapped i j l) k) by (by rewrite swapped_length).
      rewrite swapped_lookup by done. by repeat case_decide; rewrite Hl.
    + rewrite !lookup_ge_None_2; [done| |rewrite swapped_length; lia].
      repeat case_decide; lia.
Qed.

Lemma parent_child j : 0 < j -> child ((j - 1) / 2) j.
Proof.
  intros Hj. unfold child. pose proof (Nat.div_mod_eq (j - 1) 2).
  pose proof (Nat.mod_upper_bound (j - 1) 2). lia.
Qed.

Lemma child_inj p q c : child p c -> child q c -> p = q.
Proof. unfold child. lia. Qed.

(** [up] from [j] repairs a heap whose only defect is [j] and its parent; the
    children of [j] are at least the parent of [j]. *)
Definition up_inv (j : nat) (l : list A) : Prop :=
  j < length l /\ Forall P l /\
  ordered_but (fun _ c => c = j) (length l) l /\
  forall p c, child p j -> child j c -> c < length l -> (key (l !!! p) <= key (l !!! c))%Z.

Lemma up_inv_swap i j l :
  child i j -> up_inv j l -> (key (l !!! j) < key (l !!! i))%Z -> up_inv i (swapped i j l).
Proof.
  intros Hc (Hj & HP & Ho & Hg) Hlt. assert (i < j) as Hij by (unfold child in Hc; lia).
  assert (i < length l) as Hi by lia.
  assert (forall k, swapped i j l !!! k =
    if decide (k = j) then l !!! i else if decide (k = i) then l !!! j else l !!! k) as Hs
    by (intros; by apply swapped_lookup).
  split_and!.
  - by rewrite swapped_length.
  - by rewrite (swapped_perm i j l Hi Hj).
  - rewrite swapped_length. intros p c Hpc Hcl Hne. rewrite !Hs.
    pose proof (Ho p c Hpc Hcl) as Hpc'. pose proof (child_inj p i c Hpc).
    assert (p < c) by (unfold child in Hpc; lia).
    destruct (decide (p = j)) as [->|Hpj].
    { rewrite !decide_False by lia. apply Hg; done. }
    destruct (decide (c = j)) as [->|Hcj].
    { rewrite (child_inj p i j) by done. rewrite decide_True by done. lia. }
    rewrite (decide_False (P := c = i)) by done.
    case_decide; subst; [|apply Hpc'; lia].
    apply Z.le_trans with (key (l !!! i)); [lia|]. apply Ho; auto.
  - rewrite swapped_length. intros p c Hp Hc' Hcl. rewrite !Hs.
    assert (p < i) by (unfold child in Hp; lia). assert (i < c) by (unfold child in Hc'; lia).
    assert (key (l !!! p) <= key (l !!! i))%Z by (apply Ho; [done|lia|lia]).
    repeat case_decide; subst; try lia.
    apply Z.le_trans with (key (l !!! i)); [lia|]. apply Ho; auto.
Qed.

Lemma up_correct l j :
  up_inv j l -> exists l', up less l j = Ret l' /\ l' ≡ₚ l /\ ordered l'.
Proof.
  unfold up. generalize (le_n (S j)). generalize (S j) at 2 3 as fuel. intros fuel.
  revert l j. induction fuel as [|fuel IH]; intros l j Hf Hinv; [lia|].
  pose proof Hinv as (Hj & HP & Ho & Hg). cbn [while]. unfold up_body at 2.
  destruct ((j - 1) / 2 =? j) eqn:E.
  { apply Nat.eqb_eq in E. assert (j = 0) as ->.
    { destruct (decide (j = 0)) as [->|Hj0]; [done|].
      pose proof (parent_child j ltac:(lia)) as Hc. rewrite E in Hc. unfold child in Hc. lia. }
    exists l. split_and!; [done|done|]. intros p c Hpc Hc _. apply Ho; [done|done|].
    intros ->. unfold child in Hpc. lia. }
  apply Nat.eqb_neq in E. assert (0 < j) as Hj0 by (destruct j; [done|lia]).
  pose proof (parent_child j Hj0) as Hc. set (i := (j - 1) / 2) in *.
  assert (i < j) by (unfold child in Hc; lia).
  rewrite Less_Ret by (done || lia). rewrite bind_ret.
  destruct (Z.ltb_spec (key (l !!! j)) (key (l !!! i))) as [Hlt|Hge]; simpl negb; cbv iota.
  - rewrite Swap_Ret by lia. rewrite !bind_ret.
    destruct (IH (swapped i j l) i) as (l' & -> & Hp & Ho'); [lia|by apply up_inv_swap|].
    exists l'. split_and!; [done| |done]. rewrite Hp. apply swapped_perm; lia.
  - exists l. split_and!; [done|done|]. intros p c Hpc Hcl _.
    destruct (decide (c = j)) as [->|Hne]; [|by apply Ho].
    by rewrite (child_inj p i j).
Qed.

(** [heap.Push] adds the element and keeps the heap. *)
Lemma Push_correct x l :
  Forall P l -> P x -> ordered l ->
  exists l', Push less x l = Ret l' /\ l' ≡ₚ x :: l /\ ordered l'.
Proof.
  intros HP Hx Ho. unfold Push, append.
  replace (length (l ++ [x]) - 1) with (length l) by (rewrite length_app; simpl; lia).
  destruct (up_correct (l ++ [x]) (length l)) as (l' & -> & Hp & Ho').
  - split_and!.
    + rewrite length_app. simpl. lia.
    + rewrite Forall_app. auto.
    + rewrite length_app. simpl. intros p c Hpc Hc Hne.
      assert (p < c) by (unfold child in Hpc; lia).
      rewrite !lookup_total_app_l by lia. apply Ho; [done|lia|tauto].
    + rewrite length_app. simpl. unfold child. lia.
  - exists l'. split_and!; [done| |done]. rewrite Hp. by rewrite Permutation_app_comm.
Qed.

(** [down] from [i] repairs a heap of the first [n] elements whose only defect
    is [i] and its children. *)
Definition down_inv (n i : nat) (l : list A) : Prop :=
  n <= length l /\ Forall P l /\
  ordered_but (fun p _ => p = i) n l /\
  forall p c, child p i -> child i c -> c < n -> (key (l !!! p) <= key (l !!! c))%Z.

Lemma down_inv_swap n i j l :
  child i j -> j < n -> down_inv n i l -> (key (l !!! j) < key (l !!! i))%Z ->
  (forall c, child i c -> c < n -> (key (l !!! j) <= key (l !!! c))%Z) ->
  down_inv n j (swapped i j l).
Proof.
  intros Hc Hjn (Hn & HP & Ho & Hg) Hlt Hmin. assert (i < j) as Hij by (unfold child in Hc; lia).
  assert (i < length l) as Hi by lia. assert (j < length l) as Hj by lia.
  assert (forall k, swapped i j l !!! k =
    if decide (k = j) then l !!! i else if decide (k = i) then l !!! j else l !!! k) as Hs
    by (intros; by apply swapped_lookup).
  split_and!.
  - by rewrite swapped_length.
  - by rewrite (swapped_perm i j l Hi Hj).
  - intros p c Hpc Hcl Hne. rewrite !Hs. assert (p < c) by (unfold child in Hpc; lia).
    rewrite (decide_False (P := p = j)) by done.
    destruct (decide (c = j)) as [->|Hcj].
    { rewrite (child_inj p i j) by done. rewrite decide_True by done. lia. }
    destruct (decide (p = i)) as [->|Hpi].
    { rewrite decide_False by lia. by apply Hmin. }
    destruct (decide (c = i)) as [->|Hci]; [by apply Hg|by apply Ho].
  - intros p c Hp Hc' Hcl. rewrite !Hs. rewrite (child_inj p i j Hp Hc).
    assert (j < c) by (unfold child in Hc'; lia).
    rewrite decide_False, decide_True, !decide_False by lia. apply Ho; [done|done|]. lia.
Qed.

(** The smaller child. *)
Lemma smaller_child n i l :
  Forall P l -> n <= length l -> 2 * i + 1 < n ->
  exists j, (right ← (if 2 * i + 1 + 1 <? n then Less less (2 * i + 1 + 1) (2 * i + 1) l else Ret false);
             Ret (if right : bool then 2 * i + 1 + 1 else 2 * i + 1)) = Ret j /\
    child i j /\ j < n /\ forall c, child i c -> c < n -> (key (l !!! j) <= key (l !!! c))%Z.
Proof.
  intros HP Hn Hi. destruct (Nat.ltb_spec (2 * i + 1 + 1) n) as [H2|H2].
  - rewrite Less_Ret by (done || lia). rewrite bind_ret.
    destruct (Z.ltb_spec (key (l !!! (2 * i + 1 + 1))) (key (l !!! (2 * i + 1))));
      (eexists; split; [reflexivity|]; split_and!; [unfold child; lia|lia|]);
      intros c [-> | ->] _; replace (2 * i + 2) with (2 * i + 1 + 1) by lia; lia.
  - eexists. split; [reflexivity|]. split_and!; [unfold child; lia|lia|].
    intros c [-> | ->] ?; lia.
Qed.

Lemma down_correct n l i :
  i <= n -> down_inv n i l ->
  exists l', while (S (n - i)) (down_body less n) (l, i) = Ret l' /\
    l' ≡ₚ l /\ drop n l' = drop n l /\ ordered_but (fun _ _ => False) n l'.
Proof.
  generalize (le_n (S (n - i))). generalize (S (n - i)) at 2 3 as fuel. intros fuel.
  revert l i. induction fuel as [|fuel IH]; intros l i Hf Hin Hinv; [lia|].
  pose proof Hinv as (Hn & HP & Ho & Hg). cbn [while]. unfold down_body at 2. cbv zeta.
  destruct (Nat.leb_spec n (2 * i + 1)) as [Hend|Hi].
  { exists l. split_and!; [done|done|done|]. intros p c Hpc Hc _. apply Ho; [done|done|].
    intros ->. unfold child in Hpc. lia. }
  destruct (smaller_child n i l HP Hn Hi) as (j & Hj & Hc & Hjn & Hmin).
  apply bind_Ret_inv in Hj as (right & Hr & Hj).
  assert ((if right : bool then 2 * i + 1 + 1 else 2 * i + 1) = j) as Hj' by congruence.
  rewrite Hr, bind_ret, Hj'.
  rewrite Less_Ret by (done || lia). rewrite bind_ret.
  destruct (Z.ltb_spec (key (l !!! j)) (key (l !!! i))) as [Hlt|Hge]; simpl negb; cbv iota.
  - rewrite Swap_Ret by lia. rewrite !bind_ret. assert (i < j) by (unfold child in Hc; lia).
    destruct (IH (swapped i j l) j) as (l' & -> & Hp & Hd & Ho'); [lia|lia|by apply down_inv_swap|].
    exists l'. split_and!; [done| | |done].
    + rewrite Hp. apply swapped_perm; lia.
    + rewrite Hd. unfold swapped. by rewrite !drop_insert_lt by lia.
  - exists l. split_and!; [done|done|done|]. intros p c Hpc Hcl _.
    destruct (decide (p = i)) as [->|Hne]; [|by apply Ho].
    apply Z.le_trans with (key (l !!! j)); [lia|by apply Hmin].
Qed.

(** The root is a minimum. *)
Lemma ordered_root l i : ordered l -> i < length l -> (key (l !!! 0%nat) <= key (l !!! i))%Z.
Proof.
  intros Ho. induction i as [i IH] using lt_wf_ind. intros Hi.
  destruct (decide (i = 0)) as [->|H0]; [done|].
  pose proof (parent_child i ltac:(lia)) as Hc. set (p := (i - 1) / 2) in *.
  assert (p < i) by (unfold child in Hc; lia).
  etrans; [apply (IH p); lia|]. apply Ho; [done|done|tauto].
Qed.

Lemma ordered_min l : ordered l -> Forall (fun y => (key (l !!! 0%nat) <= key y)%Z) l.
Proof.
  intros Ho. apply Forall_lookup. intros i y Hy. pose proof (lookup_lt_Some _ _ _ Hy).
  apply list_lookup_total_correct in Hy. subst. by apply ordered_root.
Qed.

(** [heap.Pop] takes a minimum away and keeps the heap. *)
Lemma Pop_correct l :
  l <> [] -> Forall P l -> ordered l ->
  exists x l', Pop less l = Ret (x, l') /\ x = l !!! 0 /\ x :: l' ≡ₚ l /\ ordered l' /\
    Forall (fun y => (key x <= key y)%Z) l'.
Proof.
  intros Hne HP Ho. pose proof (ordered_min l Ho) as Hmin. unfold Pop.
  destruct (length l) as [|n] eqn:Hl; [by apply length_zero_iff_nil in Hl|].
  rewrite Swap_Ret by lia. rewrite bind_ret. set (s := swapped 0 n l).
  assert (s ≡ₚ l) as Hsp by (apply swapped_perm; lia).
  assert (length s = S n) as Hsl by (unfold s; by rewrite swapped_length).
  unfold down. destruct (down_correct n s 0) as (l' & Hd & Hp & Hdr & Ho'); [lia| |].
  { split_and!; [lia|by rewrite Hsp| |unfold child; lia].
    intros p c Hpc Hcn Hp0. assert (p < c) by (unfold child in Hpc; lia). unfold s.
    rewrite !swapped_lookup by lia. rewrite !decide_False by lia. apply Ho; [done|lia|tauto]. }
  rewrite Nat.sub_0_r in Hd. rewrite Hd, bind_ret. unfold remove_last.
  assert (drop n l' = [l !!! 0]) as Hlast.
  { rewrite Hdr. assert (s !! n = Some (l !!! 0)) as Hsn.
    { rewrite list_lookup_lookup_total_lt by lia. unfold s. rewrite swapped_lookup by lia.
      by rewrite decide_True. }
    rewrite (drop_S _ _ _ Hsn). by rewrite drop_ge by lia. }
  assert (l' = take n l' ++ [l !!! 0]) as Hl' by (by rewrite <- Hlast, take_drop).
  assert (length l' = S n) as Hll by (by rewrite Hp).
  assert (last l' = Some (l !!! 0)) as -> by (rewrite Hl'; apply last_snoc).
  rewrite Hll. replace (S n - 1) with n by lia.
  exists (l !!! 0), (take n l').
  assert (l !!! 0 :: take n l' ≡ₚ l) as Hperm
    by (rewrite Permutation_cons_append, <- Hl'; by rewrite Hp).
  split_and!; [done|done|done| |].
  - unfold ordered. rewrite length_take, Hll. replace (n `min` S n) with n by lia.
    intros p c Hpc Hcn _. assert (p < c) by (unfold child in Hpc; lia).
    rewrite !lookup_total_take_lt by lia. apply Ho'; auto.
  - rewrite <- Hperm in Hmin. by apply Forall_cons in Hmin as [_ ?].
Qed.
End order.
End Heap.
