(* ===== verification/Scheduler.v ===== *)
(** The scheduler of the metrics generators (src/lsvmi/scheduler.go).

    Tasks are objects shared by reference between the heap, the two queues, the
    dispatcher and the workers: they live in a memory [mem] and everything else
    holds their addresses.  The goroutines are interleaved: an [event] is one
    atomic action of a client, of the dispatcher or of a worker between two
    blocking points, [exec] runs it ([None] when the goroutine is blocked or is
    not at that point). *)

From Stdlib Require Import ZArith Lia.
From stdpp Require Import base tactics numbers strings gmap list.
From S2P Require Import Prelude GoTime Heap.

Module Scheduler.

Definition SCHEDULER_CONFIG_NUM_WORKERS_DEFAULT : Z := (-1)%Z.
Definition SCHEDULER_MAX_NUM_WORKERS : Z := 8.
Definition SCHEDULER_TASK_Q_LEN : nat := 64.
Definition SCHEDULER_TODO_Q_LEN : nat := 64.
Definition SCHEDULER_GRANULARITY : Z := (20 * Millisecond)%Z.
Definition SCHEDULER_TASK_MIN_EXECUTION_PAUSE : Z := (2 * SCHEDULER_GRANULARITY)%Z.

Definition TASK_STATS_SCHEDULED_COUNT : nat := 0.
Definition TASK_STATS_DELAYED_COUNT : nat := 1.
Definition TASK_STATS_OVERRUN_COUNT : nat := 2.
Definition TASK_STATS_EXECUTED_COUNT : nat := 3.
Definition TASK_STATS_DEADLINE_HACK_COUNT : nat := 4.
Definition TASK_STATS_UINT64_LEN : nat := 5.

Record TaskStats := mkTaskStats { Uint64Stats : list Z; RuntimeTotal : Z }.

(** [hasAction] is [action != nil]; the action itself is the client's code. *)
Record Task := mkTask {
  id : bytes;
  deadline : Time;
  interval : Z;
  hasAction : bool;
  addedByWorker : bool;
  lastExecuted : Time
}.

Abbreviation SchedulerStats := (gmap bytes TaskStats).

Inductive SchedulerState := SchedulerStateCreated | SchedulerStateRunning | SchedulerStateStopped.

(** Where the dispatcher is: not started, waiting in [select], blocked in
    [todoQ <- task], returned. *)
Inductive dispatcher := DOff | DSelect | DSend (p : nat) | DExited.

(** Where a worker is: waiting in [select], executing a task since [startTs],
    blocked in [taskQ <- task], returned. *)
Inductive worker := WIdle | WRun (p : nat) (startTs : Time) | WSend (p : nat) | WExited.

Record Scheduler := mkScheduler {
  mem : gmap nat Task;
  tasks : list nat;
  taskQ : list nat;
  todoQ : list nat;
  numWorkers : nat;
  state : SchedulerState;
  stats : SchedulerStats;
  cancelled : bool;
  disp : dispatcher;
  activeTimer : bool;
  currentDeadline : Time;
  workers : list worker
}.

Definition set_mem m s := mkScheduler m (tasks s) (taskQ s) (todoQ s) (numWorkers s) (state s)
  (stats s) (cancelled s) (disp s) (activeTimer s) (currentDeadline s) (workers s).
Definition set_tasks h s := mkScheduler (mem s) h (taskQ s) (todoQ s) (numWorkers s) (state s)
  (stats s) (cancelled s) (disp s) (activeTimer s) (currentDeadline s) (workers s).
Definition set_taskQ q s := mkScheduler (mem s) (tasks s) q (todoQ s) (numWorkers s) (state s)
  (stats s) (cancelled s) (disp s) (activeTimer s) (currentDeadline s) (workers s).
Definition set_todoQ q s := mkScheduler (mem s) (tasks s) (taskQ s) q (numWorkers s) (state s)
  (stats s) (cancelled s) (disp s) (activeTimer s) (currentDeadline s) (workers s).
Definition set_stats x s := mkScheduler (mem s) (tasks s) (taskQ s) (todoQ s) (numWorkers s)
  (state s) x (cancelled s) (disp s) (activeTimer s) (currentDeadline s) (workers s).
Definition set_disp d s := mkScheduler (mem s) (tasks s) (taskQ s) (todoQ s) (numWorkers s)
  (state s) (stats s) (cancelled s) d (activeTimer s) (currentDeadline s) (workers s).
Definition set_timer a d s := mkScheduler (mem s) (tasks s) (taskQ s) (todoQ s) (numWorkers s)
  (state s) (stats s) (cancelled s) (disp s) a d (workers s).
Definition set_workers w s := mkScheduler (mem s) (tasks s) (taskQ s) (todoQ s) (numWorkers s)
  (state s) (stats s) (cancelled s) (disp s) (activeTimer s) (currentDeadline s) w.
Definition set_state st c s := mkScheduler (mem s) (tasks s) (taskQ s) (todoQ s) (numWorkers s)
  st (stats s) c (disp s) (activeTimer s) (currentDeadline s) (workers s).

Definition with_deadline (d : Time) (t : Task) : Task :=
  mkTask (id t) d (interval t) (hasAction t) (addedByWorker t) (lastExecuted t).
Definition with_lastExecuted (e : Time) (t : Task) : Task :=
  mkTask (id t) (deadline t) (interval t) (hasAction t) (addedByWorker t) e.
Definition with_addedByWorker (b : bool) (t : Task) : Task :=
  mkTask (id t) (deadline t) (interval t) (hasAction t) b (lastExecuted t).

(** ** Construction *)

Definition NewTask (id : bytes) (interval : Z) (hasAction : bool) : Task :=
  mkTask id zeroTime interval hasAction false zeroTime.

Definition NewTaskStats : TaskStats := mkTaskStats (replicate TASK_STATS_UINT64_LEN 0%Z) 0.

(** The [any] argument of [NewScheduler]: the whole configuration or that of the
    scheduler, both of them pointers, as is the scheduler section of the former
    ([None] is a pointer that is nil), an untyped [nil], or anything else. *)
Inductive config := CfgLsvmi (SchedulerConfig : option (option Z)) | CfgScheduler (NumWorkers : option Z) | CfgNil | CfgOther.

Definition DefaultSchedulerConfig : Z := SCHEDULER_CONFIG_NUM_WORKERS_DEFAULT.

(** The scheduler, or the error for a configuration of another type. *)
Definition NewScheduler (availableCpus : Z) (cfg : config) : outcome (option Scheduler) :=
  o ← match cfg with
      | CfgLsvmi lsvmiCfg => schedulerCfg ← must lsvmiCfg; n ← must schedulerCfg; Ret (Some n)
      | CfgScheduler schedulerCfg => n ← must schedulerCfg; Ret (Some n)
      | CfgNil => Ret (Some DefaultSchedulerConfig)
      | CfgOther => Ret None
      end;
  match o with
  | None => Ret None
  | Some n =>
    let n := if (n <=? 0)%Z then availableCpus else n in
    let n := if (SCHEDULER_MAX_NUM_WORKERS <? n)%Z then SCHEDULER_MAX_NUM_WORKERS else n in
    Ret (Some (mkScheduler ∅ [] [] [] (Z.to_nat n) SchedulerStateCreated ∅ false DOff false zeroTime []))
  end.

(** ** Intervals *)

Definition CompliantTaskInterval (interval : Z) : Z :=
  let c := dur_Truncate interval SCHEDULER_GRANULARITY in
  let c := if (Z.quot SCHEDULER_GRANULARITY 2 <=? i64 (interval - c))%Z
           then i64 (c + SCHEDULER_GRANULARITY) else c in
  if (c <? SCHEDULER_TASK_MIN_EXECUTION_PAUSE)%Z then SCHEDULER_TASK_MIN_EXECUTION_PAUSE else c.

(** What [AddNewTask] writes to the task before it sends it. *)
Definition new_task (t : Task) : Task :=
  mkTask (id t) (deadline t) (CompliantTaskInterval (interval t)) (hasAction t) false
    (lastExecuted t).

(** ** Dispatcher *)

(** [scheduler.Less] on two addresses. *)
Definition less (m : gmap nat Task) (p q : nat) : bool :=
  match m !! p, m !! q with
  | Some a, Some b => Before (deadline a) (deadline b)
  | _, _ => false
  end.

(** [stats[id].Uint64Stats[k] += 1]; a missing entry is a nil dereference. *)
Definition bump (i : bytes) (k : nat) (st : SchedulerStats) : outcome SchedulerStats :=
  ts ← must (st !! i);
  v ← must (Uint64Stats ts !! k);
  l ← store (Uint64Stats ts) k (u64 (v + 1));
  Ret (<[i := mkTaskStats l (RuntimeTotal ts)]> st).

(** Top of the loop: arm the timer for the head of the heap. *)
Definition arm (s : Scheduler) : outcome Scheduler :=
  if negb (activeTimer s) && (0 <? length (tasks s))
  then
    p ← must (tasks s !! 0);
    t ← must (mem s !! p);
    Ret (set_timer true (deadline t) s)
  else Ret s.

(** "The desired next deadline is the nearest future multiple of interval". *)
Definition next_deadline (timeNow : Time) (t : Task) : Time :=
  Add (Truncate timeNow (interval t)) (interval t).

(** The deadline hack: add the interval until the deadline moves. *)
Definition hack_body (t : Task) (st : Time * bool) : outcome ((Time * bool) + (Time * bool)) :=
  let '(next, hack) := st in
  if negb (Before (deadline t) next) then Ret (inl (Add next (interval t), true))
  else Ret (inr (next, hack)).
Definition hack_fuel (t : Task) (next : Time) : nat :=
  Z.to_nat ((wall (deadline t) - wall next) / interval t) + 3.

(** The deadline of a task re-added by a worker, and whether the hack and the
    delay applied. *)
Definition readd_deadline (timeNow : Time) (t : Task) : outcome (Time * bool * bool) :=
  let next := next_deadline timeNow t in
  '(next, deadlineHack) ← while (hack_fuel t next) (hack_body t) (next, false);
  let taskNearestDeadline := Add (lastExecuted t) SCHEDULER_TASK_MIN_EXECUTION_PAUSE in
  if Before next taskNearestDeadline
  then Ret (taskNearestDeadline, deadlineHack, true)
  else Ret (next, deadlineHack, false).

(** Set the deadline, push on the heap, "cancel the timer if this new deadline
    is more recent than the one currently pending".  When [timer.Stop] reports
    that the timer has fired the code drains the channel, so that either way
    the timer is inactive. *)
Definition push_task (p : nat) (t : Task) (d : Time) (s : Scheduler) : outcome Scheduler :=
  let s := set_mem (<[p := with_deadline d t]> (mem s)) s in
  h ← Heap.Push (less (mem s)) p (tasks s);
  let s := set_tasks h s in
  Ret (if activeTimer s && Before d (currentDeadline s)
       then set_timer false (currentDeadline s) s else s).

(** [case task = <-taskQ]: the task to execute right away, if any. *)
Definition on_taskQ (timeNow : Time) (p : nat) (s : Scheduler)
    : outcome (Scheduler * option nat) :=
  t ← must (mem s !! p);
  let nextDeadline := next_deadline timeNow t in
  if addedByWorker t then
    '(nextDeadline, deadlineHack, taskDelayed) ← readd_deadline timeNow t;
    st ← (if deadlineHack : bool then bump (id t) TASK_STATS_DEADLINE_HACK_COUNT (stats s)
          else Ret (stats s));
    st ← (if taskDelayed : bool then bump (id t) TASK_STATS_DELAYED_COUNT st else Ret st);
    s ← push_task p t nextDeadline (set_stats st s);
    Ret (s, None)
  else if (Sub nextDeadline timeNow <? SCHEDULER_TASK_MIN_EXECUTION_PAUSE)%Z then
    s ← push_task p t nextDeadline s;
    Ret (s, None)
  else
    let s := set_mem (<[p := with_deadline timeNow t]> (mem s)) s in
    Ret (if activeTimer s then set_timer false (currentDeadline s) s else s, Some p).

(** [case <-timer.C]. *)
Definition on_timer (s : Scheduler) : outcome (Scheduler * option nat) :=
  let s := set_timer false (currentDeadline s) s in
  '(p, h) ← Heap.Pop (less (mem s)) (tasks s);
  Ret (set_tasks h s, Some p).

(** After the [select]: count the task and go to the send, or loop. *)
Definition schedule (o : option nat) (s : Scheduler) : outcome Scheduler :=
  match o with
  | None => s ← arm s; Ret (set_disp DSelect s)
  | Some p =>
    t ← must (mem s !! p);
    let st := if decide (stats s !! id t = None) then <[id t := NewTaskStats]> (stats s)
              else stats s in
    st ← bump (id t) TASK_STATS_SCHEDULED_COUNT st;
    Ret (set_disp (DSend p) (set_stats st s))
  end.

(** ** Worker *)

(** The statistics of an execution: [taskStats] is dereferenced whether or not
    the task overran. *)
Definition worker_stats (t : Task) (runtime : Z) (st : SchedulerStats) : outcome SchedulerStats :=
  st ← (if (interval t <=? runtime)%Z then bump (id t) TASK_STATS_OVERRUN_COUNT st else Ret st);
  st ← bump (id t) TASK_STATS_EXECUTED_COUNT st;
  ts ← must (st !! id t);
  Ret (<[id t := mkTaskStats (Uint64Stats ts) (i64 (RuntimeTotal ts + runtime))]> st).

(** From the end of [Execute] to the end of the iteration or the send. *)
Definition finish_task (w : nat) (p : nat) (startTs endTs : Time) (executed : bool)
    (s : Scheduler) : outcome Scheduler :=
  t ← must (mem s !! p);
  let reQueue := if hasAction t then executed else true in
  let t := with_lastExecuted endTs t in
  st ← worker_stats t (Sub endTs startTs) (stats s);
  let t := if reQueue then with_addedByWorker true t else t in
  ws ← store (workers s) w (if reQueue then WSend p else WIdle);
  Ret (set_workers ws (set_stats st (set_mem (<[p := t]> (mem s)) s))).

(** ** Calls of the clients *)

(** [AddNewTask] blocks while the task queue is full. *)
Definition AddNewTask (p : nat) (t : Task) (s : Scheduler) : option Scheduler :=
  if length (taskQ s) <? SCHEDULER_TASK_Q_LEN
  then Some (set_taskQ (taskQ s ++ [p]) (set_mem (<[p := new_task t]> (mem s)) s))
  else None.

(** [Start]: the dispatcher begins by arming the timer. *)
Definition Start (s : Scheduler) : outcome Scheduler :=
  match state s with
  | SchedulerStateCreated =>
    s ← arm (set_state SchedulerStateRunning (cancelled s) s);
    Ret (set_workers (replicate (numWorkers s) WIdle) (set_disp DSelect s))
  | _ => Ret s
  end.

(** [Shutdown] up to the wait for the goroutines. *)
Definition Shutdown (s : Scheduler) : Scheduler :=
  match state s with
  | SchedulerStateStopped => s
  | _ => set_state SchedulerStateStopped true s
  end.

(** ** Events *)

Inductive event :=
| EAddNewTask (p : nat) (t : Task)
| EStart
| EShutdown
| EDispTask (timeNow : Time)
| EDispTimer
| EDispSend
| EDispDone
| EWorkRecv (w : nat) (startTs : Time)
| EWorkExec (w : nat) (endTs : Time) (executed : bool)
| EWorkSend (w : nat)
| EWorkDone (w : nat).

Definition exec (e : event) (s : Scheduler) : option (outcome Scheduler) :=
  match e with
  | EAddNewTask p t => Ret <$> AddNewTask p t s
  | EStart => Some (Start s)
  | EShutdown => Some (Ret (Shutdown s))
  | EDispTask timeNow =>
    match disp s, taskQ s with
    | DSelect, p :: q =>
      Some ('(s, o) ← on_taskQ timeNow p (set_taskQ q s); schedule o s)
    | _, _ => None
    end
  | EDispTimer =>
    match disp s with
    | DSelect => if activeTimer s then Some ('(s, o) ← on_timer s; schedule o s) else None
    | _ => None
    end
  | EDispSend =>
    match disp s with
    | DSend p =>
      if length (todoQ s) <? SCHEDULER_TODO_Q_LEN
      then Some (s ← arm (set_todoQ (todoQ s ++ [p]) s); Ret (set_disp DSelect s))
      else None
    | _ => None
    end
  | EDispDone =>
    match disp s with
    | DSelect => if cancelled s then Some (Ret (set_disp DExited (set_timer false (currentDeadline s) s))) else None
    | _ => None
    end
  | EWorkRecv w startTs =>
    match workers s !! w, todoQ s with
    | Some WIdle, p :: q =>
      Some (Ret (set_workers (<[w := WRun p startTs]> (workers s)) (set_todoQ q s)))
    | _, _ => None
    end
  | EWorkExec w endTs executed =>
    match workers s !! w with
    | Some (WRun p startTs) => Some (finish_task w p startTs endTs executed s)
    | _ => None
    end
  | EWorkSend w =>
    match workers s !! w with
    | Some (WSend p) =>
      if length (taskQ s) <? SCHEDULER_TASK_Q_LEN
      then Some (Ret (set_workers (<[w := WIdle]> (workers s)) (set_taskQ (taskQ s ++ [p]) s)))
      else None
    | _ => None
    end
  | EWorkDone w =>
    match workers s !! w with
    | Some WIdle =>
      if cancelled s then Some (Ret (set_workers (<[w := WExited]> (workers s)) s)) else None
    | _ => None
    end
  end.

(** ** Snapshot of the statistics *)

Definition copy_stats (src dst : list Z) : list Z :=
  take (length dst) src ++ drop (length src) dst.

(** [SnapStats]: [None] is a nil map. *)
Definition SnapStats (from to : option SchedulerStats) : option SchedulerStats :=
  match from with
  | None => None
  | Some st =>
    let to := default ∅ to in
    Some (map_imap (fun i ts =>
            let tts := default NewTaskStats (to !! i) in
            Some (mkTaskStats (copy_stats (Uint64Stats ts) (Uint64Stats tts)) (RuntimeTotal ts))) st
          ∪ to)
  end.

(** ** Invariant *)

(** What every task in the system satisfies, whoever holds it. *)
Definition task_ok (off : Z) (t : Task) : Prop :=
  consistent off (deadline t) /\ consistent off (lastExecuted t) /\
  (SCHEDULER_TASK_MIN_EXECUTION_PAUSE <= interval t <= MaxInt64)%Z /\
  (SCHEDULER_GRANULARITY | interval t)%Z.

Definition ok_at (off : Z) (o : option Task) : Prop := exists t, o = Some t /\ task_ok off t.
Definition known_at (st : SchedulerStats) (o : option Task) : Prop :=
  forall t, o = Some t -> is_Some (st !! id t).
Definition readd_at (st : SchedulerStats) (o : option Task) : Prop :=
  forall t, o = Some t -> addedByWorker t = true -> is_Some (st !! id t).
Definition sized (st : SchedulerStats) : Prop :=
  map_Forall (fun _ ts => length (Uint64Stats ts) = TASK_STATS_UINT64_LEN) st.

Definition dl (m : gmap nat Task) (p : nat) : Z :=
  match m !! p with Some t => wall (deadline t) | None => 0%Z end.

(** The heap [h], the task queue [q] and the tasks [b] being executed or on
    their way from the heap to the task queue. *)
Record core (off : Z) (m : gmap nat Task) (st : SchedulerStats) (h q b : list nat) : Prop := {
  core_nodup : NoDup (h ++ q ++ b);
  core_ok : Forall (fun p => ok_at off (m !! p)) (h ++ q ++ b);
  core_heap : Heap.ordered (dl m) h;
  core_sized : sized st;
  core_known : Forall (fun p => known_at st (m !! p)) b;
  core_readd : Forall (fun p => readd_at st (m !! p)) q
}.

Lemma Forall_frame (Q : option Task -> Prop) (m : gmap nat Task) p t l :
  p ∉ l -> Forall (fun q => Q (m !! q)) l -> Forall (fun q => Q (<[p:=t]> m !! q)) l.
Proof.
  intros Hp H. apply Forall_forall. intros q Hq. rewrite Forall_forall in H.
  rewrite lookup_insert_ne by set_solver. by apply H.
Qed.

Lemma ordered_ext (key key' : nat -> Z) l :
  Forall (fun x => key x = key' x) l -> Heap.ordered key l -> Heap.ordered key' l.
Proof.
  intros He Ho p c Hpc Hc Hn. assert (p < c) by (unfold Heap.child in Hpc; lia).
  rewrite Forall_lookup in He.
  rewrite <- (He p (l !!! p)), <- (He c (l !!! c)) by (apply list_lookup_lookup_total_lt; lia).
  by apply Ho.
Qed.

Lemma less_dl off m p q :
  ok_at off (m !! p) -> ok_at off (m !! q) -> less m p q = (dl m p <? dl m q)%Z.
Proof.
  intros (a & Ha & Hp & _) (b & Hb & Hq & _). unfold less, dl. rewrite Ha, Hb.
  by apply (Before_wall off).
Qed.

Lemma ordered_frame m p t h :
  p ∉ h -> Heap.ordered (dl m) h -> Heap.ordered (dl (<[p:=t]> m)) h.
Proof.
  intros Hp. apply ordered_ext, Forall_forall. intros x Hx. unfold dl.
  by rewrite lookup_insert_ne by set_solver.
Qed.

Lemma known_mono st st' b (m : gmap nat Task) :
  dom st ⊆ dom st' ->
  Forall (fun p : nat => known_at st (m !! p)) b -> Forall (fun p => known_at st' (m !! p)) b.
Proof.
  intros Hd Hf. apply (Forall_impl _ _ _ Hf). intros p H t Ht. apply elem_of_dom, Hd, elem_of_dom. by apply H.
Qed.

Lemma readd_mono st st' q (m : gmap nat Task) :
  dom st ⊆ dom st' ->
  Forall (fun p : nat => readd_at st (m !! p)) q -> Forall (fun p => readd_at st' (m !! p)) q.
Proof.
  intros Hd Hf. apply (Forall_impl _ _ _ Hf). intros p H t Ht Ha.
  apply elem_of_dom, Hd, elem_of_dom. by apply H.
Qed.

Lemma queued_perm (h q b : list nat) p : h ++ (p :: q) ++ b ≡ₚ p :: h ++ q ++ b.
Proof. symmetry. apply Permutation_middle. Qed.

Lemma busy_perm (h q b : list nat) p : h ++ q ++ p :: b ≡ₚ p :: h ++ q ++ b.
Proof. rewrite !app_assoc. symmetry. apply Permutation_middle. Qed.

(** The order of the queues does not matter to the invariant. *)
Lemma core_perm off m st h q q' b b' :
  q ≡ₚ q' -> b ≡ₚ b' -> core off m st h q b -> core off m st h q' b'.
Proof. intros Hq Hb []. split; first [done | by rewrite <- ?Hq, <- ?Hb]. Qed.

(** Statistics may only grow. *)
Lemma core_stats off m st st' h q b :
  dom st ⊆ dom st' -> sized st' -> core off m st h q b -> core off m st' h q b.
Proof. intros Hd Hs []. split; try done; [by eapply known_mono|by eapply readd_mono]. Qed.

(** A new task is queued. *)
Lemma core_add off m st h q b p t :
  p ∉ h ++ q ++ b -> task_ok off t -> addedByWorker t = false ->
  core off m st h q b -> core off (<[p:=t]> m) st h (p :: q) b.
Proof.
  intros Hp Ht Ha []. rewrite !elem_of_app in Hp.
  pose proof (queued_perm h q b p) as Hperm.
  split; try done.
  - rewrite Hperm. apply NoDup_cons. rewrite !elem_of_app. done.
  - rewrite Hperm. apply Forall_cons. split.
    + rewrite lookup_insert_eq. by exists t.
    + apply Forall_frame; [by rewrite !elem_of_app|done].
  - apply ordered_frame; [tauto|done].
  - apply Forall_frame; [tauto|done].
  - apply Forall_cons. split.
    + rewrite lookup_insert_eq. intros ? [= <-]. congruence.
    + apply Forall_frame; [tauto|done].
Qed.

(** A queued task goes to the heap with a deadline. *)
Lemma core_push off m st h q b p t :
  task_ok off t -> core off m st h (p :: q) b ->
  exists h', Heap.Push (less (<[p:=t]> m)) p h = Ret h' /\ h' ≡ₚ p :: h /\
    core off (<[p:=t]> m) st h' q b.
Proof.
  intros Ht [Hnd Hok Hh Hs Hk Hr].
  pose proof (queued_perm h q b p) as Hperm.
  rewrite Hperm in Hnd, Hok. apply NoDup_cons in Hnd as [Hp Hnd]. rewrite !elem_of_app in Hp.
  apply Forall_cons in Hok as [_ Hok]. set (m' := <[p:=t]> m).
  assert (Forall (fun p => ok_at off (m' !! p)) (h ++ q ++ b)) as Hok'
    by (apply Forall_frame; [by rewrite !elem_of_app|done]).
  destruct (Heap.Push_correct (less m') (dl m') (fun p => ok_at off (m' !! p)) (less_dl off m') p h)
    as (h' & HP & Hp' & Ho).
  { by apply Forall_app in Hok' as [? _]. }
  { unfold m'. rewrite lookup_insert_eq. by exists t. }
  { apply ordered_frame; [tauto|done]. }
  exists h'. split; [done|]. split; [done|]. split; try done.
  - rewrite Hp'. simpl. apply NoDup_cons. rewrite !elem_of_app. done.
  - rewrite Hp'. simpl. apply Forall_cons. split; [|done].
    unfold m'. rewrite lookup_insert_eq. by exists t.
  - apply Forall_frame; [tauto|done].
  - apply Forall_frame; [tauto|]. by apply Forall_cons in Hr as [_ ?].
Qed.

(** A queued task is to be executed right away. *)
Lemma core_take off m st h q b p t :
  task_ok off t -> is_Some (st !! id t) -> core off m st h (p :: q) b ->
  core off (<[p:=t]> m) st h q (p :: b).
Proof.
  intros Ht Hst [Hnd Hok Hh Hs Hk Hr].
  pose proof (queued_perm h q b p) as Hperm.
  pose proof (busy_perm h q b p) as Hperm'.
  rewrite Hperm in Hnd, Hok. apply NoDup_cons in Hnd as [Hp Hnd]. rewrite !elem_of_app in Hp.
  apply Forall_cons in Hok as [_ Hok]. split; try done.
  - rewrite Hperm'. apply NoDup_cons. rewrite !elem_of_app. done.
  - rewrite Hperm'. apply Forall_cons. split; [rewrite lookup_insert_eq; by exists t|].
    apply Forall_frame; [by rewrite !elem_of_app|done].
  - apply ordered_frame; [tauto|done].
  - apply Forall_cons. split; [|apply Forall_frame; [tauto|done]].
    rewrite lookup_insert_eq. intros ? [= <-]. done.
  - apply Forall_frame; [tauto|]. by apply Forall_cons in Hr as [_ ?].
Qed.

(** The timer: the earliest task leaves the heap. *)
Lemma core_pop off m st h q b :
  h <> [] -> core off m st h q b ->
  exists p h', Heap.Pop (less m) h = Ret (p, h') /\ h !! 0 = Some p /\ p :: h' ≡ₚ h /\
    Forall (fun r => (dl m p <= dl m r)%Z) h' /\
    forall st' t, m !! p = Some t -> dom st ⊆ dom st' -> sized st' -> is_Some (st' !! id t) ->
      core off m st' h' q (p :: b).
Proof.
  intros Hne [Hnd Hok Hh Hs Hk Hr].
  destruct (Heap.Pop_correct (less m) (dl m) (fun p => ok_at off (m !! p)) (less_dl off m) h)
    as (p & h' & HP & Hp & Hperm & Ho & Hmin); [done|by apply Forall_app in Hok as [? _]|done|].
  assert (h ++ q ++ b ≡ₚ h' ++ q ++ p :: b) as Hall by (by rewrite <- Hperm, busy_perm).
  exists p, h'. split_and!; [done| |done|done|].
  { rewrite Hp. apply list_lookup_lookup_total_lt. by destruct h; [|simpl; lia]. }
  intros st' t Ht Hd Hs' Hst. split; try done.
  - by rewrite <- Hall.
  - by rewrite <- Hall.
  - apply Forall_cons. split; [rewrite Ht; intros ? [= <-]; done|by eapply known_mono].
  - by eapply readd_mono.
Qed.

(** A worker updates a task that it executes. *)
Lemma core_update off m st h q b p t :
  task_ok off t -> is_Some (st !! id t) ->
  core off m st h q (p :: b) -> core off (<[p:=t]> m) st h q (p :: b).
Proof.
  intros Ht Hst [Hnd Hok Hh Hs Hk Hr]. pose proof (busy_perm h q b p) as Hperm.
  rewrite Hperm in Hnd, Hok. apply NoDup_cons in Hnd as [Hp Hnd]. rewrite !elem_of_app in Hp.
  apply Forall_cons in Hok as [_ Hok]. apply Forall_cons in Hk as [_ Hk]. split; try done.
  - rewrite Hperm. apply NoDup_cons. rewrite !elem_of_app. done.
  - rewrite Hperm. apply Forall_cons. split; [rewrite lookup_insert_eq; by exists t|].
    apply Forall_frame; [by rewrite !elem_of_app|done].
  - apply ordered_frame; [tauto|done].
  - apply Forall_cons. split; [|apply Forall_frame; [tauto|done]].
    rewrite lookup_insert_eq. intros ? [= <-]. done.
  - apply Forall_frame; [tauto|done].
Qed.

(** It leaves the system, or goes back to the task queue. *)
Lemma core_drop off m st h q b p : core off m st h q (p :: b) -> core off m st h q b.
Proof.
  intros [Hnd Hok Hh Hs Hk Hr]. rewrite busy_perm in Hnd, Hok.
  apply NoDup_cons in Hnd as [_ Hnd]. apply Forall_cons in Hok as [_ Hok].
  apply Forall_cons in Hk as [_ Hk]. by split.
Qed.

Lemma core_requeue off m st h q b p : core off m st h q (p :: b) -> core off m st h (p :: q) b.
Proof.
  intros [Hnd Hok Hh Hs Hk Hr].
  assert (h ++ q ++ p :: b ≡ₚ h ++ (p :: q) ++ b) as Hall by (by rewrite busy_perm, queued_perm).
  apply Forall_cons in Hk as [Hp Hk]. split; try done; [by rewrite <- Hall..|].
  apply Forall_cons. split; [|done]. intros t Ht _. by apply Hp.
Qed.

(** Counting never panics once the entry exists. *)
Lemma bump_Ret i k st :
  sized st -> is_Some (st !! i) -> k < TASK_STATS_UINT64_LEN ->
  exists ts, st !! i = Some ts /\
    bump i k st = Ret (<[i := mkTaskStats (<[k := u64 (Uint64Stats ts !!! k + 1)]> (Uint64Stats ts))
                                (RuntimeTotal ts)]> st).
Proof.
  intros Hs [ts Hts] Hk. exists ts. split; [done|]. unfold bump. rewrite Hts.
  pose proof (Hs _ _ Hts) as Hl. simpl in Hl. simpl must. rewrite bind_ret.
  rewrite (list_lookup_lookup_total_lt (Uint64Stats ts) k) by lia. simpl must. rewrite bind_ret.
  by rewrite store_Ret by lia.
Qed.

Lemma bump_ok i k st :
  sized st -> is_Some (st !! i) -> k < TASK_STATS_UINT64_LEN ->
  exists st', bump i k st = Ret st' /\ sized st' /\ dom st' = dom st.
Proof.
  intros Hs Hi Hk. destruct (bump_Ret i k st Hs Hi Hk) as (ts & Hts & ->).
  eexists. split; [done|]. split.
  - apply map_Forall_insert_2; [|done]. simpl. rewrite length_insert. by apply (Hs i).
  - apply dom_insert_lookup_L. by eexists.
Qed.

(** ** Deadlines *)

(** The hack ends, at the first time of the series that is after the old
    deadline. *)
Lemma hack_correct t next b0 fuel :
  (0 < interval t)%Z -> mono next = None -> 0 < fuel ->
  (wall (deadline t) - wall next < (Z.of_nat fuel - 1) * interval t)%Z ->
  exists next' b, while fuel (hack_body t) (next, b0) = Ret (next', b) /\ mono next' = None /\
    (wall (deadline t) < wall next')%Z /\ (wall next <= wall next')%Z /\
    (interval t | wall next' - wall next)%Z /\
    (wall next < wall next' -> wall next' - interval t <= wall (deadline t))%Z /\
    (b = b0 \/ b = true).
Proof.
  intros Hi. revert next b0. induction fuel as [|fuel IH]; intros next b0 Hm H0 Hf; [lia|].
  cbn [while]. unfold hack_body at 2. rewrite Before_nomono_r by done.
  destruct (Z.ltb_spec (wall (deadline t)) (wall next)) as [Hlt|Hge]; simpl negb; cbv iota;
    rewrite bind_ret.
  - exists next, b0. split_and!; [done|done|done|lia| |lia|by left].
    rewrite Z.sub_diag. apply Z.divide_0_r.
  - destruct (IH (Add next (interval t)) true) as (n' & b & -> & Hm' & Hlt & Hle & Hd & Hl & Hb);
      [unfold Add; simpl; by rewrite Hm|nia|rewrite wall_Add; lia|].
    rewrite wall_Add in Hle, Hd, Hl. exists n', b.
    split_and!; [done|done|done|lia| | |right; tauto].
    + replace (wall n' - wall next)%Z with (wall n' - (wall next + interval t) + interval t)%Z by lia.
      by apply Z.divide_add_r; [|exists 1%Z; lia].
    + intros _. destruct (decide (wall next + interval t < wall n')%Z); [by apply Hl|].
      assert (wall n' = wall next + interval t)%Z by lia. lia.
Qed.

Lemma hack_fuel_enough t next :
  (0 < interval t)%Z ->
  (wall (deadline t) - wall next < (Z.of_nat (hack_fuel t next) - 1) * interval t)%Z.
Proof.
  intros Hi. unfold hack_fuel. set (d := (wall (deadline t) - wall next)%Z).
  pose proof (Z.div_mod d (interval t) ltac:(lia)). pose proof (Z.mod_pos_bound d (interval t) Hi).
  destruct (decide (0 <= d / interval t)%Z) as [Hq|Hq].
  - rewrite Nat2Z.inj_add, Z2Nat.id by done. nia.
  - rewrite Nat2Z.inj_add. replace (Z.to_nat (d / interval t)) with 0 by lia. nia.
Qed.

(** The next deadline of a task without the delay: the first multiple of the
    interval after now and after the old deadline. *)
Definition first_multiple (i a b d : Z) : Prop :=
  (i | d)%Z /\ (a < d)%Z /\ (b < d)%Z /\
  forall m, (i | m)%Z -> (a < m)%Z -> (b < m)%Z -> (d <= m)%Z.

Lemma divide_gap i a b : (0 < i)%Z -> (i | a)%Z -> (i | b)%Z -> (a - i < b)%Z -> (a <= b)%Z.
Proof.
  intros Hi [x ->] [y ->] H. apply Z.mul_le_mono_nonneg_r; [lia|].
  apply Z.lt_succ_r. apply (Z.mul_lt_mono_pos_r i); lia.
Qed.

Lemma hack_first_multiple t timeNow :
  (0 < interval t)%Z ->
  exists next hack,
    while (hack_fuel t (next_deadline timeNow t)) (hack_body t) (next_deadline timeNow t, false) =
      Ret (next, hack) /\ mono next = None /\
    first_multiple (interval t) (wall timeNow) (wall (deadline t)) (wall next).
Proof.
  intros Hi. set (n0 := next_deadline timeNow t).
  assert (wall n0 = wall timeNow - wall timeNow mod interval t + interval t)%Z as Hw.
  { unfold n0, next_deadline, Truncate. rewrite wall_Add. simpl.
    rewrite (proj2 (Z.leb_gt _ _)) by done. done. }
  destruct (next_multiple (wall timeNow) (interval t) Hi) as (Hgt & Hdiv & Hmin).
  rewrite <- Hw in Hgt, Hdiv, Hmin.
  destruct (hack_correct t n0 false (hack_fuel t n0)) as (n & b & -> & Hm & Hlt & Hle & Hd & Hl & _);
    [done|done|unfold hack_fuel; lia|by apply hack_fuel_enough|].
  assert (interval t | wall n)%Z as Hdn.
  { replace (wall n) with (wall n - wall n0 + wall n0)%Z by lia. by apply Z.divide_add_r. }
  exists n, b. split_and!; [done|done|]. split_and!; [done|lia|done|].
  intros m Hm1 Hm2 Hm3. specialize (Hmin m Hm1 Hm2).
  destruct (decide (wall n0 < wall n)%Z) as [Hh|Hh]; [|lia].
  apply (divide_gap (interval t)); [done|done|done|]. specialize (Hl Hh). lia.
Qed.

Lemma readd_deadline_correct off t timeNow :
  task_ok off t ->
  exists d hack delayed, readd_deadline timeNow t = Ret (d, hack, delayed) /\ consistent off d /\
    (wall timeNow < wall d)%Z /\ (wall (deadline t) < wall d)%Z /\
    (wall (lastExecuted t) + SCHEDULER_TASK_MIN_EXECUTION_PAUSE <= wall d)%Z /\
    (if delayed : bool
     then wall d = wall (lastExecuted t) + SCHEDULER_TASK_MIN_EXECUTION_PAUSE
     else first_multiple (interval t) (wall timeNow) (wall (deadline t)) (wall d))%Z.
Proof.
  intros (_ & Hle & Hi & _). assert (0 < interval t)%Z as Hi0
    by (unfold SCHEDULER_TASK_MIN_EXECUTION_PAUSE, SCHEDULER_GRANULARITY, Millisecond in Hi; lia).
  unfold readd_deadline.
  destruct (hack_first_multiple t timeNow Hi0) as (n & b & -> & Hm & Hf).
  rewrite bind_ret. cbv zeta. rewrite Before_nomono_l by done. rewrite wall_Add.
  destruct Hf as (Hd & Hn & Hdl & Hmin).
  destruct (Z.ltb_spec (wall n) (wall (lastExecuted t) + SCHEDULER_TASK_MIN_EXECUTION_PAUSE)).
  - eexists _, _, true. split; [reflexivity|]. rewrite wall_Add.
    split_and!; [by apply Add_consistent|lia|lia|lia|done].
  - exists n, b, false. split; [done|]. split_and!; [by unfold consistent; rewrite Hm|lia|lia|lia|].
    by split_and!.
Qed.

(** ** The timer *)

(** A pending timer is set for the earliest deadline. *)
Definition timer_ok (off : Z) (m : gmap nat Task) (h : list nat) (a : bool) (cd : Time) : Prop :=
  a = true -> consistent off cd /\ exists p, h !! 0 = Some p /\ wall cd = dl m p.

Lemma arm_correct off s q b :
  core off (mem s) (stats s) (tasks s) q b ->
  timer_ok off (mem s) (tasks s) (activeTimer s) (currentDeadline s) ->
  exists a cd, arm s = Ret (set_timer a cd s) /\ timer_ok off (mem s) (tasks s) a cd /\
    (tasks s <> [] -> a = true).
Proof.
  intros Hc Ht. unfold arm. destruct (activeTimer s) eqn:Ha; simpl negb; cbv iota.
  - exists true, (currentDeadline s). rewrite andb_false_l. split_and!; [|done|done].
    rewrite <- Ha. by destruct s.
  - destruct (tasks s) as [|p h] eqn:Hh.
    + exists false, (currentDeadline s). split_and!; [|done|done]. rewrite <- Ha. by destruct s.
    + assert (ok_at off (mem s !! p)) as (t & Hp & Hok).
      { pose proof (core_ok _ _ _ _ _ _ Hc) as Hf. by apply Forall_cons in Hf as [? _]. }
      simpl. rewrite Hp. simpl must. rewrite bind_ret.
      exists true, (deadline t). split_and!; [done| |done].
      intros _. split; [apply Hok|]. exists p. split; [done|]. unfold dl. by rewrite Hp.
Qed.

Lemma set_timer_id s : set_timer (activeTimer s) (currentDeadline s) s = s.
Proof. by destruct s. Qed.

(** A task whose deadline is not before the pending timer does not change the
    earliest deadline. *)
Lemma push_keeps_root off m p t h h' cd :
  p ∉ h -> task_ok off t -> (wall cd <= wall (deadline t))%Z ->
  Heap.ordered (dl m) h -> Heap.ordered (dl (<[p:=t]> m)) h' -> h' ≡ₚ p :: h ->
  timer_ok off m h true cd -> timer_ok off (<[p:=t]> m) h' true cd.
Proof.
  intros Hp Ht Hle Ho Ho' Hperm Htm _. destruct (Htm eq_refl) as (Hcd & r & Hr & Hw).
  split; [done|]. pose proof (Heap.ordered_min _ _ Ho) as Hmin.
  pose proof (Heap.ordered_min _ _ Ho') as Hmin'. rewrite Forall_forall in Hmin, Hmin'.
  rewrite (list_lookup_total_correct _ _ _ Hr) in Hmin.
  assert (forall x, x ∈ h -> dl (<[p:=t]> m) x = dl m x) as Hdl.
  { intros x Hx. unfold dl. by rewrite lookup_insert_ne by set_solver. }
  assert (dl (<[p:=t]> m) p = wall (deadline t)) as Hdp
    by (unfold dl; by rewrite lookup_insert_eq).
  assert (r ∈ h) as Hrh by (by eapply list_elem_of_lookup_2).
  assert (0 < length h') as Hlen by (rewrite Hperm; simpl; lia).
  assert (h' !! 0 = Some (h' !!! 0)) as H0 by (by apply list_lookup_lookup_total_lt).
  exists (h' !!! 0). split; [done|].
  assert (dl (<[p:=t]> m) (h' !!! 0%nat) <= wall cd)%Z.
  { rewrite Hw, <- (Hdl r Hrh). apply Hmin'. rewrite Hperm. set_solver. }
  assert (h' !!! 0 ∈ p :: h) as [Heq|Hin]%elem_of_cons.
  { rewrite <- Hperm. by eapply list_elem_of_lookup_2. }
  - rewrite Heq in *. lia.
  - specialize (Hmin _ Hin). rewrite Hdl in * by done. lia.
Qed.

Lemma push_task_correct off p t d q b s :
  core off (mem s) (stats s) (tasks s) (p :: q) b ->
  timer_ok off (mem s) (tasks s) (activeTimer s) (currentDeadline s) ->
  task_ok off t -> consistent off d ->
  let m' := <[p := with_deadline d t]> (mem s) in
  exists h' a, push_task p t d s =
      Ret (set_timer a (currentDeadline s) (set_tasks h' (set_mem m' s))) /\
    h' ≡ₚ p :: tasks s /\ core off m' (stats s) h' q b /\
    timer_ok off m' h' a (currentDeadline s).
Proof.
  intros Hc Htm Ht Hd m'. assert (task_ok off (with_deadline d t)) as Ht'
    by (destruct Ht as (_ & ? & ? & ?); unfold task_ok; simpl; tauto).
  destruct (core_push off (mem s) (stats s) (tasks s) q b p _ Ht' Hc) as (h' & HP & Hperm & Hc').
  unfold push_task. cbn [mem set_mem tasks activeTimer set_tasks currentDeadline]. fold m' in HP.
  fold m'. rewrite HP, bind_ret.
  exists h', (activeTimer s && negb (Before d (currentDeadline s))). split_and!; [|done|done|].
  - f_equal. destruct (activeTimer s) eqn:Ha, (Before _ _); try done;
      rewrite andb_false_l || rewrite andb_true_l; simpl; rewrite <- Ha; by destruct s.
  - intros [Ha Hb%negb_true_iff]%andb_true_iff. rewrite Ha in Htm.
    destruct (Htm eq_refl) as [Hcd _]. rewrite (Before_wall off) in Hb by done.
    apply Z.ltb_ge in Hb.
    destruct Hc. refine (push_keeps_root off (mem s) p (with_deadline d t) (tasks s) h' _ _ Ht' Hb _ _
      Hperm Htm eq_refl); [|done|by destruct Hc'].
    apply (NoDup_app (tasks s)) in core_nodup0 as (_ & Hni & _). intros Hin. apply (Hni p Hin).
    set_solver.
Qed.

(** ** The invariant of the whole system *)

Definition disp_task (d : dispatcher) : list nat := match d with DSend p => [p] | _ => [] end.
Definition work_task (w : worker) : list nat :=
  match w with WRun p _ | WSend p => [p] | _ => [] end.
Definition work_tasks (ws : list worker) : list nat := concat (map work_task ws).

(** The tasks on their way from the heap to the task queue, and all tasks. *)
Definition busy (s : Scheduler) : list nat :=
  todoQ s ++ disp_task (disp s) ++ work_tasks (workers s).
Definition places (s : Scheduler) : list nat := tasks s ++ taskQ s ++ busy s.

(** The life cycle: the goroutines exist once started, and only a shutdown
    stops them. *)
Definition life (s : Scheduler) : Prop :=
  match state s with
  | SchedulerStateCreated => disp s = DOff /\ workers s = [] /\ cancelled s = false
  | SchedulerStateRunning =>
    disp s <> DOff /\ disp s <> DExited /\ length (workers s) = numWorkers s /\
    Forall (fun w => w <> WExited) (workers s) /\ cancelled s = false
  | SchedulerStateStopped => cancelled s = true
  end.

Record inv (off : Z) (s : Scheduler) : Prop := {
  inv_core : core off (mem s) (stats s) (tasks s) (taskQ s) (busy s);
  inv_timer : timer_ok off (mem s) (tasks s) (activeTimer s) (currentDeadline s);
  inv_armed : disp s = DSelect -> tasks s <> [] -> activeTimer s = true;
  inv_idle : disp s <> DSelect -> activeTimer s = false;
  inv_life : life s
}.

(** What the model asks of the environment: the clock readings are of one
    clock, and a client does not add a task that the scheduler already has. *)
Definition event_ok (off : Z) (e : event) (s : Scheduler) : Prop :=
  match e with
  | EAddNewTask p t =>
    (p ∉ places s) /\ consistent off (deadline t) /\ consistent off (lastExecuted t) /\
    (MinInt64 <= interval t <= MaxInt64)%Z
  | EDispTask ts | EWorkRecv _ ts | EWorkExec _ ts _ => consistent off ts
  | _ => True
  end.

(** Replacing the state of one worker. *)
Lemma work_tasks_insert ws w x y :
  ws !! w = Some x ->
  work_task x ++ work_tasks (<[w:=y]> ws) ≡ₚ work_task y ++ work_tasks ws.
Proof.
  intros Hw. unfold work_tasks.
  assert (w < length ws) by (by eapply lookup_lt_Some).
  rewrite insert_take_drop by done. rewrite <- (take_drop_middle _ _ _ Hw) at 3.
  rewrite !map_app, !concat_app. simpl. generalize (concat (map work_task (take w ws))).
  generalize (concat (map work_task (drop (S w) ws))). intros a b.
  rewrite !(Permutation_app_comm b), <- !app_assoc.
  generalize (work_task x), (work_task y). intros u v.
  rewrite (app_assoc u), (Permutation_app_comm u), <- app_assoc. done.
Qed.

Lemma CompliantTaskInterval_ok i :
  (MinInt64 <= i <= MaxInt64)%Z ->
  (SCHEDULER_TASK_MIN_EXECUTION_PAUSE <= CompliantTaskInterval i <= MaxInt64)%Z /\
  (SCHEDULER_GRANULARITY | CompliantTaskInterval i)%Z.
Proof.
  intros Hi. unfold CompliantTaskInterval, dur_Truncate.
  set (g := SCHEDULER_GRANULARITY). assert (g = 20000000)%Z as Hg by done.
  rewrite (proj2 (Z.leb_gt g 0)) by lia.
  set (c := (i - Z.rem i g)%Z). assert (g | c)%Z as Hc.
  { exists (Z.quot i g). unfold c. pose proof (Z.quot_rem' i g). lia. }
  assert (SCHEDULER_TASK_MIN_EXECUTION_PAUSE = 2 * g)%Z as -> by done.
  assert (c <= MaxInt64)%Z as Hcm.
  { unfold c. destruct (decide (0 <= i)%Z).
    - pose proof (Z.rem_nonneg i g ltac:(lia) ltac:(lia)). lia.
    - unfold MaxInt64. pose proof (Z.rem_bound_pos (- i) g). rewrite Z.rem_opp_l in * by lia. lia. }
  assert (forall z, z <= MaxInt64 -> (g | z) ->
    2 * g <= (if z <? 2 * g then 2 * g else z) <= MaxInt64 /\
    (g | (if z <? 2 * g then 2 * g else z)))%Z as Hfin.
  { intros z Hz Hgz. unfold MaxInt64 in *. destruct (Z.ltb_spec z (2 * g)).
    - split; [lia|by exists 2%Z].
    - split; [lia|done]. }
  destruct (Z.leb_spec (Z.quot g 2) (i64 (i - c))); [|by apply Hfin].
  assert (MinInt64 <= c)%Z.
  { unfold c. destruct (decide (0 <= i)%Z).
    - pose proof (Z.rem_bound_pos i g). unfold MinInt64. lia.
    - pose proof (Z.rem_nonneg (- i) g ltac:(lia) ltac:(lia)). rewrite Z.rem_opp_l in * by lia. lia. }
  destruct (decide (c + g <= MaxInt64)%Z) as [Hs|Hs].
  - rewrite i64_small by lia. apply Hfin; [done|]. by apply Z.divide_add_r; [|exists 1%Z; lia].
  - assert (i64 (c + g) = c + g - 2 ^ 64)%Z as ->.
    { unfold i64. unfold MinInt64, MaxInt64 in *.
      replace (c + g + 2 ^ 63)%Z with (c + g - 2 ^ 63 + 1 * 2 ^ 64)%Z by lia.
      rewrite Z.mod_add, Z.mod_small by lia. lia. }
    unfold MaxInt64 in *. rewrite (proj2 (Z.ltb_lt _ _)) by lia. split; [lia|by exists 2%Z].
Qed.

Lemma schedule_None off s q b :
  core off (mem s) (stats s) (tasks s) q b ->
  timer_ok off (mem s) (tasks s) (activeTimer s) (currentDeadline s) ->
  exists a cd, schedule None s = Ret (set_disp DSelect (set_timer a cd s)) /\
    timer_ok off (mem s) (tasks s) a cd /\ (tasks s <> [] -> a = true).
Proof.
  intros Hc Ht. destruct (arm_correct off s q b Hc Ht) as (a & cd & Ha & Hok & Hne).
  exists a, cd. unfold schedule. by rewrite Ha.
Qed.

Lemma schedule_Some p t s :
  mem s !! p = Some t -> sized (stats s) ->
  exists st', schedule (Some p) s = Ret (set_disp (DSend p) (set_stats st' s)) /\
    dom (stats s) ⊆ dom st' /\ sized st' /\ is_Some (st' !! id t).
Proof.
  intros Hp Hs. unfold schedule. rewrite Hp. simpl must. rewrite bind_ret. cbv zeta.
  set (st := if decide (stats s !! id t = None) then _ else _).
  assert (sized st /\ is_Some (st !! id t) /\ dom (stats s) ⊆ dom st) as (Hst & Hi & Hd).
  { unfold st. case_decide as Hn.
    - split_and!; [by apply map_Forall_insert_2|rewrite lookup_insert_eq; by eexists|].
      rewrite dom_insert. set_solver.
    - split_and!; [done| |done]. destruct (stats s !! id t); [by eexists|done]. }
  destruct (bump_ok (id t) TASK_STATS_SCHEDULED_COUNT st Hst Hi) as (st' & -> & Hs' & Hd');
    [unfold TASK_STATS_SCHEDULED_COUNT, TASK_STATS_UINT64_LEN; lia|].
  exists st'. rewrite bind_ret. split_and!; [done|by rewrite Hd'|done|].
  apply elem_of_dom. rewrite Hd'. by apply elem_of_dom.
Qed.

(** The statistics of a re-added task. *)
Lemma bump_if (b : bool) i k st :
  sized st -> is_Some (st !! i) -> k < TASK_STATS_UINT64_LEN ->
  exists st', (if b then bump i k st else Ret st) = Ret st' /\ sized st' /\ dom st' = dom st.
Proof. intros Hs Hi Hk. destruct b; [by apply bump_ok|by exists st]. Qed.

(** A task re-added by a worker goes to the heap with its next deadline. *)
Lemma on_taskQ_readd off timeNow p q b s t :
  core off (mem s) (stats s) (tasks s) (p :: q) b ->
  timer_ok off (mem s) (tasks s) (activeTimer s) (currentDeadline s) ->
  mem s !! p = Some t -> addedByWorker t = true ->
  exists d hack del st' h' a,
    readd_deadline timeNow t = Ret (d, hack, del) /\
    let m' := <[p := with_deadline d t]> (mem s) in
    on_taskQ timeNow p s =
      Ret (set_timer a (currentDeadline s) (set_tasks h' (set_stats st' (set_mem m' s))), None) /\
    dom (stats s) ⊆ dom st' /\ sized st' /\ h' ≡ₚ p :: tasks s /\
    core off m' st' h' q b /\ timer_ok off m' h' a (currentDeadline s).
Proof.
  intros Hc Htm Hp Ha. pose proof Hc as [_ Hok _ Hs _ Hr].
  assert (task_ok off t) as Ht.
  { rewrite queued_perm in Hok. apply Forall_cons in Hok as [(t' & Hp' & ?) _]. congruence. }
  apply Forall_cons in Hr as [Hr _]. unfold on_taskQ. rewrite Hp. simpl must. rewrite bind_ret.
  cbv zeta. rewrite Ha.
  destruct (readd_deadline_correct off t timeNow Ht) as (d & hack & del & -> & Hd & _).
  rewrite bind_ret. specialize (Hr t Hp Ha).
  destruct (bump_if hack (id t) TASK_STATS_DEADLINE_HACK_COUNT (stats s) Hs Hr)
    as (st1 & -> & Hs1 & Hd1); [vm_compute; lia|].
  rewrite bind_ret. assert (is_Some (st1 !! id t)) as Hr1
    by (apply elem_of_dom; rewrite Hd1; by apply elem_of_dom).
  destruct (bump_if del (id t) TASK_STATS_DELAYED_COUNT st1 Hs1 Hr1)
    as (st2 & -> & Hs2 & Hd2); [vm_compute; lia|].
  rewrite bind_ret. assert (dom (stats s) ⊆ dom st2) as Hdom by (by rewrite Hd2, Hd1).
  destruct (push_task_correct off p t d q b (set_stats st2 s)) as (h' & a & -> & Hpm & Hc' & Ht');
    [by eapply core_stats|done|done|done|].
  exists d, hack, del, st2, h', a. split; [done|]. by split_and!.
Qed.

(** Whatever the dispatcher does with a task taken from the queue, the task is
    in the heap, or it is to be executed. *)
Lemma on_taskQ_correct off timeNow p q b s :
  core off (mem s) (stats s) (tasks s) (p :: q) b ->
  timer_ok off (mem s) (tasks s) (activeTimer s) (currentDeadline s) -> consistent off timeNow ->
  exists m' st' h' a o,
    on_taskQ timeNow p s =
      Ret (set_timer a (currentDeadline s) (set_tasks h' (set_stats st' (set_mem m' s))), o) /\
    dom (stats s) ⊆ dom st' /\ sized st' /\
    ((o = None /\ h' ≡ₚ p :: tasks s /\ core off m' st' h' q b /\
      timer_ok off m' h' a (currentDeadline s)) \/
     (exists t, o = Some p /\ h' = tasks s /\ a = false /\ m' !! p = Some t /\ st' = stats s /\
        forall st'', dom st' ⊆ dom st'' -> sized st'' -> is_Some (st'' !! id t) ->
                     core off m' st'' h' q (p :: b))).
Proof.
  intros Hc Htm Hnow. pose proof Hc as [_ Hok _ Hs _ Hr].
  assert (ok_at off (mem s !! p)) as (t & Hp & Ht).
  { rewrite queued_perm in Hok. by apply Forall_cons in Hok as [? _]. }
  unfold on_taskQ. rewrite Hp. simpl must. rewrite bind_ret.
  cbv zeta. destruct (addedByWorker t) eqn:Ha.
  - destruct (on_taskQ_readd off timeNow p q b s t Hc Htm Hp Ha)
      as (d & hack & del & st' & h' & a & _ & Hq & Hdom & Hs' & Hpm & Hc' & Ht').
    eexists _, st', h', a, None. split; [|split_and!; [done|done|by left]].
    revert Hq. unfold on_taskQ. rewrite Hp. simpl must. rewrite bind_ret. cbv zeta. by rewrite Ha.
  - destruct (Z.ltb_spec (Sub (next_deadline timeNow t) timeNow) SCHEDULER_TASK_MIN_EXECUTION_PAUSE).
    + destruct (push_task_correct off p t (next_deadline timeNow t) q b s)
        as (h' & a & -> & Hpm & Hc' & Ht'); [done|done|done| |].
      { unfold next_deadline. auto with go. }
      eexists _, (stats s), h', a, None. rewrite bind_ret. split; [reflexivity|].
      split_and!; [done|done|]. by left.
    + assert (task_ok off (with_deadline timeNow t)) as Ht'
        by (destruct Ht as (_ & ? & ? & ?); unfold task_ok; simpl; tauto).
      exists (<[p := with_deadline timeNow t]> (mem s)), (stats s), (tasks s), false, (Some p). split.
      { clear. destruct s as [? ? ? ? ? ? ? ? ? at0 ? ?]. by destruct at0. }
      split_and!; [done|done|]. right. exists (with_deadline timeNow t).
      split_and!; [done|done|done|by rewrite lookup_insert_eq|done|].
      intros st'' Hd'' Hs'' Hi. apply core_take; [done|done|]. by eapply core_stats.
Qed.

(** ** One event *)

(** What an event does to the set of tasks in the system: a client adds one, a
    task whose action asks not to be re-queued leaves; nothing else is lost or
    duplicated. *)
Definition effect (e : event) (s s' : Scheduler) : Prop :=
  match e with
  | EAddNewTask p _ => places s' ≡ₚ p :: places s
  | EWorkExec w _ executed =>
    match workers s !! w with
    | Some (WRun p _) =>
      if (match mem s !! p with Some t => hasAction t | None => false end) && negb executed
      then p :: places s' ≡ₚ places s else places s' ≡ₚ places s
    | _ => False
    end
  | _ => places s' ≡ₚ places s
  end.

(** What the proofs below show of each event. *)
Definition good (off : Z) (e : event) (s : Scheduler) (r : outcome Scheduler) : Prop :=
  exists s', r = Ret s' /\ inv off s' /\ effect e s s'.

(** The dispatcher moves between its waiting points. *)
Lemma life_disp s s' :
  life s -> disp s <> DOff -> state s' = state s -> cancelled s' = cancelled s ->
  numWorkers s' = numWorkers s -> workers s' = workers s ->
  disp s' <> DOff -> disp s' <> DExited -> life s'.
Proof.
  unfold life. intros H Hd -> -> -> -> H1 H2. destruct (state s); tauto.
Qed.

Lemma exec_EDispTask off timeNow p q s :
  inv off s -> consistent off timeNow -> disp s = DSelect -> taskQ s = p :: q ->
  good off (EDispTask timeNow) s ('(s, o) ← on_taskQ timeNow p (set_taskQ q s); schedule o s).
Proof.
  intros [Hc Htm Ha Hid Hl] Hnow Hd Hq. rewrite Hq in Hc.
  destruct (on_taskQ_correct off timeNow p q (busy s) (set_taskQ q s) Hc Htm Hnow)
    as (m' & st' & h' & a & o & -> & Hdom & Hs & Hcase). rewrite bind_ret.
  destruct Hcase as [(-> & Hp & Hc' & Ht')|(t & -> & -> & -> & Hp & -> & Hc')].
  - set (s1 := set_timer _ _ _).
    destruct (schedule_None off s1 q (busy s) Hc' Ht') as (a2 & cd2 & -> & Hok & Hne).
    eexists. split; [reflexivity|]. split.
    + split; try done; [unfold busy in *; by rewrite Hd in *|].
      eapply life_disp; [exact Hl|by rewrite Hd|done..].
    + unfold effect, places, busy. simpl. rewrite Hd, Hq, Hp. simpl. by rewrite Permutation_middle.
  - set (s1 := set_timer _ _ _).
    destruct (schedule_Some p t s1 Hp Hs) as (st2 & -> & Hd2 & Hs2 & Hi).
    specialize (Hc' st2 Hd2 Hs2 Hi).
    eexists. split; [reflexivity|]. split.
    + split; try done; [|by eapply life_disp; [exact Hl|rewrite Hd|..]].
      eapply core_perm; [reflexivity| |exact Hc']. unfold busy. simpl. rewrite Hd. simpl.
      by rewrite Permutation_middle.
    + unfold effect, places, busy. simpl. rewrite Hd, Hq. simpl.
      apply Permutation_app_head. by rewrite <- !Permutation_middle.
Qed.

Lemma exec_EDispTimer off s :
  inv off s -> disp s = DSelect -> activeTimer s = true ->
  good off EDispTimer s ('(s, o) ← on_timer s; schedule o s) /\
  exists p, tasks s !! 0 = Some p /\ wall (currentDeadline s) = dl (mem s) p.
Proof.
  intros [Hc Htm Ha Hid Hl] Hd Hat. rewrite Hat in Htm. destruct (Htm eq_refl) as (_ & r & Hr & Hw).
  split; [|by exists r].
  destruct (core_pop off (mem s) (stats s) (tasks s) (taskQ s) (busy s))
    as (p & h' & Hpop & Hp0 & Hperm & _ & Hc'); [by intros E; rewrite E in Hr|done|].
  assert (ok_at off (mem s !! p)) as (t & Hp & _).
  { destruct Hc as [_ Hok _ _ _ _]. rewrite Forall_forall in Hok. apply Hok.
    rewrite elem_of_app. left. by eapply list_elem_of_lookup_2. }
  unfold on_timer. cbn [set_timer mem tasks]. rewrite Hpop, !bind_ret.
  set (s1 := set_tasks _ _).
  destruct (schedule_Some p t s1 Hp) as (st2 & -> & Hd2 & Hs2 & Hi); [by destruct Hc|].
  specialize (Hc' st2 t Hp Hd2 Hs2 Hi).
  eexists. split; [reflexivity|]. split.
  - split; try done; [|by eapply life_disp; [exact Hl|rewrite Hd|..]].
    eapply core_perm; [reflexivity| |exact Hc']. unfold busy. simpl. rewrite Hd. simpl.
    by rewrite Permutation_middle.
  - unfold effect, places, busy. simpl. rewrite Hd, <- Hperm. simpl.
    rewrite <- (Permutation_middle (todoQ s)). apply busy_perm.
Qed.

Lemma exec_EDispSend off p s :
  inv off s -> disp s = DSend p ->
  good off EDispSend s (s ← arm (set_todoQ (todoQ s ++ [p]) s); Ret (set_disp DSelect s)).
Proof.
  intros [Hc Htm Ha Hid Hl] Hd.
  destruct (arm_correct off (set_todoQ (todoQ s ++ [p]) s) (taskQ s) (busy s) Hc Htm)
    as (a & cd & -> & Hok & Hne). rewrite bind_ret.
  eexists. split; [reflexivity|]. split.
  - split; try done; [|by eapply life_disp; [exact Hl|rewrite Hd|..]].
    simpl. unfold busy in *. rewrite Hd in Hc. simpl in *. by rewrite <- app_assoc.
  - unfold effect, places, busy. simpl. rewrite Hd. simpl. by rewrite <- app_assoc.
Qed.

Lemma exec_EAddNewTask off p t s :
  inv off s -> event_ok off (EAddNewTask p t) s ->
  good off (EAddNewTask p t) s
    (Ret (set_taskQ (taskQ s ++ [p]) (set_mem (<[p := new_task t]> (mem s)) s))).
Proof.
  intros [Hc Htm Ha Hid Hl] (Hp & Hcd & Hcl & Hi).
  destruct (CompliantTaskInterval_ok _ Hi) as [Hr Hg].
  assert (p ∉ tasks s) as Hpt by (intros Hin; apply Hp, elem_of_app; by left).
  eexists. split; [reflexivity|]. split.
  - split; try done.
    + eapply (core_perm _ _ _ _ (p :: taskQ s)); [by rewrite Permutation_cons_append|reflexivity|].
      apply core_add; [done|unfold task_ok; simpl; tauto|done|done].
    + intros Hat. destruct (Htm Hat) as (Hcs & r & Hr0 & Hw). split; [done|]. exists r. split; [done|].
      simpl. rewrite Hw. unfold dl. rewrite lookup_insert_ne; [done|].
      intros ->. apply Hpt. by eapply list_elem_of_lookup_2.
  - unfold effect, places. simpl. rewrite <- app_assoc. simpl.
    by rewrite <- Permutation_middle, <- Permutation_middle.
Qed.

Lemma exec_EStart off s :
  inv off s -> state s = SchedulerStateCreated ->
  good off EStart s
    (s' ← arm (set_state SchedulerStateRunning (cancelled s) s);
     Ret (set_workers (replicate (numWorkers s') WIdle) (set_disp DSelect s'))).
Proof.
  intros [Hc Htm Ha Hid Hl] Hst. unfold life in Hl. rewrite Hst in Hl. destruct Hl as (Hd & Hw & Hcn).
  destruct (arm_correct off (set_state SchedulerStateRunning (cancelled s) s) (taskQ s) (busy s) Hc Htm)
    as (a & cd & -> & Hok & Hne). rewrite bind_ret.
  assert (forall n, work_tasks (replicate n WIdle) = []) as Hrep.
  { intros n. unfold work_tasks. by induction n. }
  assert (busy s = todoQ s) as Hb by (unfold busy; by rewrite Hd, Hw, app_nil_r).
  eexists. split; [reflexivity|]. split.
  - split; try done.
    + unfold busy. simpl. rewrite Hrep, app_nil_r, <- Hb. done.
    + unfold life. simpl. rewrite length_replicate, Hcn. split_and!; try done.
      by apply Forall_replicate.
  - unfold effect, places. rewrite Hb. unfold busy. simpl. by rewrite Hrep, app_nil_r.
Qed.

(** A worker changes its state. *)
Lemma life_workers s s' w x :
  life s -> state s' = state s -> cancelled s' = cancelled s -> disp s' = disp s ->
  numWorkers s' = numWorkers s -> workers s' = <[w := x]> (workers s) ->
  is_Some (workers s !! w) -> (x = WExited -> cancelled s = true) -> life s'.
Proof.
  unfold life. intros H -> -> -> -> -> Hs Hx. destruct (state s).
  - destruct H as (_ & Hw & _). rewrite Hw in Hs. by destruct Hs.
  - destruct H as (? & ? & ? & ? & Hcn). rewrite length_insert. split_and!; try done.
    apply Forall_insert; [done|]. intros ->. rewrite Hx in Hcn; done.
  - done.
Qed.

Lemma busy_workers s w x y :
  workers s !! w = Some x ->
  work_task x ++ busy (set_workers (<[w := y]> (workers s)) s) ≡ₚ work_task y ++ busy s.
Proof.
  intros Hw. pose proof (work_tasks_insert (workers s) w x y Hw) as Hp. unfold busy. simpl.
  rewrite !(Permutation_app_swap_app _ (todoQ s)). apply Permutation_app_head.
  rewrite !(Permutation_app_swap_app _ (disp_task _)). by apply Permutation_app_head.
Qed.

(** An update that only permutes the busy tasks. *)
Lemma inv_busy off s s' :
  inv off s -> mem s' = mem s -> stats s' = stats s -> tasks s' = tasks s -> taskQ s' = taskQ s ->
  busy s' ≡ₚ busy s -> disp s' = disp s -> activeTimer s' = activeTimer s ->
  currentDeadline s' = currentDeadline s -> life s' -> inv off s' /\ places s' ≡ₚ places s.
Proof.
  intros [Hc Htm Ha Hid Hl] E1 E2 E3 E4 Hb E5 E6 E7 Hl'. split.
  - split; rewrite ?E1, ?E2, ?E3, ?E4, ?E5, ?E6, ?E7; try done.
    by eapply core_perm; [reflexivity|symmetry; exact Hb|].
  - unfold places. by rewrite E3, E4, Hb.
Qed.

Lemma exec_EWorkRecv off w ts p q s :
  inv off s -> workers s !! w = Some WIdle -> todoQ s = p :: q ->
  good off (EWorkRecv w ts) s
    (Ret (set_workers (<[w := WRun p ts]> (workers s)) (set_todoQ q s))).
Proof.
  intros Hinv Hw Hq. eexists. split; [reflexivity|]. apply inv_busy; try done.
  - rewrite (busy_workers (set_todoQ q s) w WIdle (WRun p ts) Hw).
    unfold busy. by rewrite Hq.
  - eapply life_workers; [apply Hinv|done..|by eexists|done].
Qed.

Lemma exec_EWorkSend off w p s :
  inv off s -> workers s !! w = Some (WSend p) ->
  good off (EWorkSend w) s
    (Ret (set_workers (<[w := WIdle]> (workers s)) (set_taskQ (taskQ s ++ [p]) s))).
Proof.
  intros [Hc Htm Ha Hid Hl] Hw. set (s' := set_workers _ _).
  assert (p :: busy s' ≡ₚ busy s) as Hb
    by exact (busy_workers (set_taskQ (taskQ s ++ [p]) s) w (WSend p) WIdle Hw).
  exists s'. split; [done|]. split.
  - split; try done; [|eapply life_workers; [exact Hl|done..|by eexists|done]].
    eapply (core_perm _ _ _ _ (p :: taskQ s)); [by rewrite Permutation_cons_append|reflexivity|].
    apply core_requeue. by eapply core_perm; [reflexivity|symmetry; exact Hb|].
  - unfold effect, places. simpl. rewrite <- app_assoc. apply Permutation_app_head.
    simpl. by rewrite Hb.
Qed.

(** The worker's bookkeeping never fails. *)
Lemma finish_stats t st runtime :
  sized st -> is_Some (st !! id t) ->
  exists st', worker_stats t runtime st = Ret st' /\ sized st' /\ dom st' = dom st.
Proof.
  intros Hs Hi. unfold worker_stats.
  assert (exists st1, (if (interval t <=? runtime)%Z then bump (id t) TASK_STATS_OVERRUN_COUNT st
     else Ret st) = Ret st1 /\ sized st1 /\ dom st1 = dom st) as (st1 & -> & Hs1 & Hd1)
    by (destruct (Z.leb_spec (interval t) runtime);
        [apply bump_ok; [done|done|vm_compute; lia]|by exists st]).
  rewrite bind_ret.
  destruct (bump_ok (id t) TASK_STATS_EXECUTED_COUNT st1 Hs1) as (st2 & -> & Hs2 & Hd2);
    [apply elem_of_dom; rewrite Hd1; by apply elem_of_dom|vm_compute; lia|].
  rewrite bind_ret. assert (is_Some (st2 !! id t)) as [ts Hts]
    by (apply elem_of_dom; rewrite Hd2, Hd1; by apply elem_of_dom).
  rewrite Hts. simpl must. rewrite bind_ret. eexists. split; [reflexivity|]. split.
  - apply map_Forall_insert_2; [|done]. simpl. by apply (Hs2 (id t)).
  - rewrite dom_insert_lookup_L by (by eexists). congruence.
Qed.

Lemma exec_EWorkExec off w p startTs endTs executed s :
  inv off s -> consistent off endTs -> workers s !! w = Some (WRun p startTs) ->
  good off (EWorkExec w endTs executed) s (finish_task w p startTs endTs executed s).
Proof.
  intros [Hc Htm Ha Hid Hl] Hts Hw.
  assert (busy s ≡ₚ p :: busy (set_workers (<[w := WIdle]> (workers s)) s)) as Hb
    by (symmetry; exact (busy_workers s w (WRun p startTs) WIdle Hw)).
  set (b := busy (set_workers (<[w := WIdle]> (workers s)) s)) in *.
  pose proof (core_perm _ _ _ _ _ _ _ _ (reflexivity (taskQ s)) Hb Hc) as Hc1.
  pose proof Hc1 as [Hnd Hok _ Hs Hk _]. rewrite busy_perm in Hok, Hnd.
  apply Forall_cons in Hok as [(t & Hp & Hto) _]. apply Forall_cons in Hk as [Hk _].
  specialize (Hk t Hp). apply NoDup_cons in Hnd as [Hni _].
  unfold finish_task. rewrite Hp. simpl must. rewrite bind_ret. cbv zeta.
  set (t1 := with_lastExecuted endTs t).
  set (rq := if hasAction t then executed else true).
  destruct (finish_stats t1 (stats s) (Sub endTs startTs) Hs Hk) as (st' & Hst & Hs' & Hd').
  rewrite Hst, bind_ret. clear Hst.
  rewrite store_Ret by (by eapply lookup_lt_Some). rewrite bind_ret.
  set (t2 := if rq then with_addedByWorker true t1 else t1).
  assert (task_ok off t2) as Ht2
    by (destruct Hto as (? & _ & ? & ?); unfold t2; destruct rq; unfold task_ok; simpl; tauto).
  assert (id t2 = id t) as Hid2 by (unfold t2; by destruct rq).
  assert (core off (<[p := t2]> (mem s)) st' (tasks s) (taskQ s) (p :: b)) as Hc2.
  { apply core_update; [done| |].
    - rewrite Hid2. apply elem_of_dom. rewrite Hd'. by apply elem_of_dom.
    - apply (core_stats _ _ (stats s)); [by rewrite Hd'|done|exact Hc1]. }
  assert (timer_ok off (<[p := t2]> (mem s)) (tasks s) (activeTimer s) (currentDeadline s)) as Htm2.
  { intros Hat. destruct (Htm Hat) as (Hcs & r & Hr0 & Hrw). split; [done|]. exists r.
    split; [done|]. rewrite Hrw. unfold dl. rewrite lookup_insert_ne; [done|].
    intros ->. apply Hni, elem_of_app. left. by eapply list_elem_of_lookup_2. }
  eexists. split; [reflexivity|].
  assert (hasAction t && negb executed = negb rq) as Hrq by (unfold rq; by destruct (hasAction t), executed).
  destruct rq eqn:Erq.
  - assert (busy (set_workers (<[w := WSend p]> (workers s)) s) ≡ₚ busy s) as Hb2.
    { by apply (Permutation_cons_inv (a := p)),
        (busy_workers s w (WRun p startTs) (WSend p) Hw). }
    split; [split; try done|].
    + simpl. eapply core_perm; [reflexivity| |exact Hc2]. by rewrite <- Hb, <- Hb2.
    + eapply life_workers; [exact Hl|done..|by eexists|done].
    + unfold effect. rewrite Hw, Hp, Hrq. simpl. unfold places. simpl. by rewrite <- Hb2.
  - split; [split; try done|].
    + simpl. by apply core_drop in Hc2.
    + eapply life_workers; [exact Hl|done..|by eexists|done].
    + unfold effect. rewrite Hw, Hp, Hrq. simpl. unfold places. simpl.
      rewrite Hb. by rewrite busy_perm.
Qed.

(** Every event that the goroutines can do in a state of the invariant returns
    and keeps it. *)
Lemma exec_correct off e s r :
  inv off s -> event_ok off e s -> exec e s = Some r -> good off e s r.
Proof.
  intros Hinv Hok He. destruct e as [p t| | |now| | | |w ts|w ts x|w|w]; unfold exec in He.
  - unfold AddNewTask in He. destruct (_ <? _); [|done]. injection He as <-. by apply exec_EAddNewTask.
  - injection He as <-. unfold Start. destruct (state s) eqn:Hst; [by apply exec_EStart| |];
      exists s; (split; [done|]); by simpl.
  - injection He as <-. exists (Shutdown s).
    split; [done|]. destruct Hinv. unfold Shutdown. destruct (state s); (split; [by split|by simpl]).
  - destruct (disp s) eqn:Hd; try done. destruct (taskQ s) as [|p q] eqn:Hq; [done|].
    injection He as <-. by apply exec_EDispTask.
  - destruct (disp s) eqn:Hd; try done. destruct (activeTimer s) eqn:Ha; [|done].
    injection He as <-. by apply exec_EDispTimer.
  - destruct (disp s) eqn:Hd; try done. destruct (_ <? _); [|done].
    injection He as <-. by apply exec_EDispSend.
  - destruct (disp s) eqn:Hd; try done. destruct (cancelled s) eqn:Hcn; [|done].
    injection He as <-. eexists. split; [reflexivity|]. destruct Hinv as [Hc Htm Ha Hid Hl]. split.
    + split; try done; [unfold busy in *; by rewrite Hd in *|]. unfold life in *. simpl.
      destruct (state s); [destruct Hl as (? & _); congruence
                          |destruct Hl as (_ & _ & _ & _ & ?); congruence|done].
    + unfold effect, places, busy. simpl. by rewrite Hd.
  - destruct (workers s !! w) as [[]|] eqn:Hw; try done. destruct (todoQ s) as [|p q] eqn:Hq; [done|].
    injection He as <-. by apply exec_EWorkRecv.
  - destruct (workers s !! w) as [[|p st| |]|] eqn:Hw; try done.
    injection He as <-. by apply exec_EWorkExec.
  - destruct (workers s !! w) as [[| |p|]|] eqn:Hw; try done. destruct (_ <? _); [|done].
    injection He as <-. by apply exec_EWorkSend.
  - destruct (workers s !! w) as [[]|] eqn:Hw; try done. destruct (cancelled s) eqn:Hcn; [|done].
    injection He as <-. eexists. split; [reflexivity|]. apply inv_busy; try done.
    + exact (busy_workers s w WIdle WExited Hw).
    + eapply life_workers; [apply Hinv|done..|by eexists|done].
Qed.

(** ** Runs *)

(** The runs of a scheduler made by [NewScheduler], with the tasks that clients
    added and the ones that left. *)
Inductive run (off cpus : Z) (cfg : config) : Scheduler -> list nat -> list nat -> Prop :=
| run_new s : NewScheduler cpus cfg = Ret (Some s) -> run off cpus cfg s [] []
| run_step e s s' a d :
    run off cpus cfg s a d -> event_ok off e s -> exec e s = Some (Ret s') ->
    run off cpus cfg s'
      (match e with EAddNewTask p _ => p :: a | _ => a end)
      (match e with
       | EWorkExec w _ executed =>
         match workers s !! w with
         | Some (WRun p _) =>
           if (match mem s !! p with Some t => hasAction t | None => false end) && negb executed
           then p :: d else d
         | _ => d
         end
       | _ => d
       end).

Lemma NewScheduler_Ret cpus cfg s : NewScheduler cpus cfg = Ret (Some s) ->
  exists n, n <= 8 /\ s = mkScheduler ∅ [] [] [] n SchedulerStateCreated ∅ false DOff false zeroTime [].
Proof.
  unfold NewScheduler. intros (o & _ & H)%bind_Ret_inv. destruct o as [n|]; [|done]. injection H as <-. eexists. split; [|done].
  unfold SCHEDULER_MAX_NUM_WORKERS. destruct (Z.ltb_spec 8 (if (n <=? 0)%Z then cpus else n)); lia.
Qed.

Lemma NewScheduler_inv off cpus cfg s : NewScheduler cpus cfg = Ret (Some s) -> inv off s /\ places s = [].
Proof.
  intros (n & _ & ->)%NewScheduler_Ret.
  split; [|done]. split; try done. split; try done; try constructor.
Qed.

Lemma run_inv off cpus cfg s a d :
  run off cpus cfg s a d -> inv off s /\ a ≡ₚ places s ++ d.
Proof.
  induction 1 as [s Hn|e s s' a d _ [IH Hp] Hok He].
  - apply (NewScheduler_inv off) in Hn as [? ->]. done.
  - destruct (exec_correct off e s _ IH Hok He) as (s1 & [= <-] & Hinv & Heff).
    split; [done|]. destruct e as [p t| | |now| | | |w ts|w ts x|w|w]; simpl in Heff;
      try (rewrite Heff; simpl; by rewrite Hp).
    destruct (workers s !! w) as [[]|]; try done. case_match; [|by rewrite Heff, <- Hp].
    rewrite Hp, <- Heff. simpl. by rewrite Permutation_middle.
Qed.

(** The scheduler's state after a list of events, with the checks of
    [event_ok]; it computes runs. *)
Definition consistentb (off : Z) (t : Time) : bool :=
  match mono t with Some m => bool_decide (wall t = m + off)%Z | None => true end.
Definition event_okb (off : Z) (e : event) (s : Scheduler) : bool :=
  match e with
  | EAddNewTask p t =>
    bool_decide (p ∉ places s) && consistentb off (deadline t) && consistentb off (lastExecuted t) &&
    bool_decide (MinInt64 <= interval t <= MaxInt64)%Z
  | EDispTask ts | EWorkRecv _ ts | EWorkExec _ ts _ => consistentb off ts
  | _ => true
  end.
Fixpoint exec_all (off : Z) (es : list event) (s : Scheduler) : option Scheduler :=
  match es with
  | [] => Some s
  | e :: es =>
    if event_okb off e s
    then match exec e s with Some (Ret s') => exec_all off es s' | _ => None end
    else None
  end.

Lemma consistentb_ok off t : consistentb off t = true -> consistent off t.
Proof. unfold consistentb, consistent. destruct (mono t); [|done]. apply bool_decide_eq_true_1. Qed.

Lemma event_okb_ok off e s : event_okb off e s = true -> event_ok off e s.
Proof.
  destruct e; simpl; try done; try apply consistentb_ok.
  rewrite !andb_true_iff. intros [[[H1 H2] H3] H4].
  apply bool_decide_eq_true_1 in H1, H4.
  split_and!; [done|by apply consistentb_ok|by apply consistentb_ok|lia|lia].
Qed.

Lemma exec_all_run off cpus cfg es s a d s' :
  run off cpus cfg s a d -> exec_all off es s = Some s' -> exists a d, run off cpus cfg s' a d.
Proof.
  revert s a d. induction es as [|e es IH]; intros s a d Hr H; simpl in H.
  - injection H as <-. by eauto.
  - destruct (event_okb off e s) eqn:Ho; [|done]. destruct (exec e s) as [[s1| |]|] eqn:He; try done.
    eapply IH; [|exact H]. eapply run_step; [exact Hr|by apply event_okb_ok|exact He].
Qed.

(** ** Properties *)

(** C5: no goroutine of the scheduler ever panics or loops for ever between two
    blocking points, and the invariant (every task has exactly one owner, the
    heap is ordered by deadline, a pending timer is set for the earliest
    deadline, the statistics of every task being executed exist) holds in every
    reachable state, under any interleaving of the dispatcher, the workers and
    the clients. *)
Theorem scheduler_invariant off cpus cfg s a d e r :
  run off cpus cfg s a d -> event_ok off e s -> exec e s = Some r ->
  exists s', r = Ret s' /\ inv off s'.
Proof.
  intros [Hinv _]%run_inv Hok He. destruct (exec_correct off e s r Hinv Hok He) as (s' & ? & ? & _).
  by exists s'.
Qed.

(** C6: no task is lost or duplicated: the tasks that clients added are the ones
    in the heap, in the two queues, held by the dispatcher or by a worker, plus
    the ones whose action asked not to be re-queued. *)
Theorem scheduler_no_task_lost off cpus cfg s added dropped :
  run off cpus cfg s added dropped ->
  added ≡ₚ (tasks s ++ taskQ s ++ todoQ s ++ disp_task (disp s) ++ work_tasks (workers s)) ++ dropped
  /\ NoDup (tasks s ++ taskQ s ++ todoQ s ++ disp_task (disp s) ++ work_tasks (workers s)).
Proof.
  intros [Hinv Hp]%run_inv. split; [exact Hp|]. apply (core_nodup _ _ _ _ _ _ (inv_core _ _ Hinv)).
Qed.

(** C7: while the dispatcher waits and a task is in the heap, the timer is
    pending for the earliest deadline of the heap; when it fires the task with
    that deadline goes to the TODO queue. *)
Theorem scheduler_earliest_first off cpus cfg s a d :
  run off cpus cfg s a d -> disp s = DSelect -> tasks s <> [] ->
  exists s' p t, activeTimer s = true /\ exec EDispTimer s = Some (Ret s') /\
    disp s' = DSend p /\ p ∈ tasks s /\ p :: tasks s' ≡ₚ tasks s /\ mem s !! p = Some t /\
    wall (currentDeadline s) = wall (deadline t) /\
    forall q u, q ∈ tasks s -> mem s !! q = Some u -> (wall (deadline t) <= wall (deadline u))%Z.
Proof.
  intros [Hinv _]%run_inv Hd Hne. pose proof Hinv as [Hc Htm Ha _ _]. specialize (Ha Hd Hne).
  rewrite Ha in Htm. destruct (Htm eq_refl) as (_ & p & Hp0 & Hw).
  destruct (core_pop off (mem s) (stats s) (tasks s) (taskQ s) (busy s) Hne Hc)
    as (p' & h' & Hpop & Hp0' & Hperm & _ & _). rewrite Hp0 in Hp0'. injection Hp0' as <-.
  assert (p ∈ tasks s) as Hpin by (by eapply list_elem_of_lookup_2).
  assert (exists t, mem s !! p = Some t) as [t Hp].
  { destruct Hc as [_ Hok _ _ _ _]. rewrite Forall_forall in Hok.
    destruct (Hok p) as (t & ? & _); [rewrite elem_of_app; by left|by exists t]. }
  destruct (schedule_Some p t (set_tasks h' (set_timer false (currentDeadline s) s)) Hp)
    as (st2 & Hsch & _); [by destruct Hc|].
  eexists _, p, t. split; [done|]. split.
  { unfold exec. rewrite Hd, Ha. unfold on_timer. cbn [set_timer mem tasks]. rewrite Hpop, !bind_ret.
    by rewrite Hsch. }
  split_and!; try done.
  - rewrite Hw. unfold dl. by rewrite Hp.
  - intros q u Hq Hu. pose proof (Heap.ordered_min _ _ (core_heap _ _ _ _ _ _ Hc)) as Hmin.
    rewrite Forall_forall in Hmin. specialize (Hmin q Hq).
    rewrite (list_lookup_total_correct _ _ _ Hp0) in Hmin. unfold dl in Hmin. by rewrite Hp, Hu in Hmin.
Qed.

(** C8: a task that a worker gives back is put in the heap with a deadline after
    now, after its previous deadline even if the clock went backwards, and no
    sooner than the minimum pause after its last execution; unless the pause
    delays it, the deadline is the first multiple of the interval with these
    properties. *)
Theorem scheduler_readd_deadline off cpus cfg s a d timeNow p q t :
  run off cpus cfg s a d -> consistent off timeNow ->
  disp s = DSelect -> taskQ s = p :: q -> mem s !! p = Some t -> addedByWorker t = true ->
  exists s' t', exec (EDispTask timeNow) s = Some (Ret s') /\
    disp s' = DSelect /\ taskQ s' = q /\ p ∈ tasks s' /\ mem s' !! p = Some t' /\
    (wall timeNow < wall (deadline t'))%Z /\ (wall (deadline t) < wall (deadline t'))%Z /\
    (wall (lastExecuted t) + SCHEDULER_TASK_MIN_EXECUTION_PAUSE <= wall (deadline t'))%Z /\
    (wall (deadline t') = (wall (lastExecuted t) + SCHEDULER_TASK_MIN_EXECUTION_PAUSE)%Z \/
     first_multiple (interval t) (wall timeNow) (wall (deadline t)) (wall (deadline t'))).
Proof.
  intros [[Hc Htm _ _ _] _]%run_inv Hnow Hd Hq Hp Ha. rewrite Hq in Hc.
  assert (task_ok off t) as Ht.
  { pose proof (core_ok _ _ _ _ _ _ Hc) as Hok. rewrite queued_perm in Hok.
    apply Forall_cons in Hok as [(t' & Hp' & ?) _]. congruence. }
  destruct (on_taskQ_readd off timeNow p q (busy s) (set_taskQ q s) t Hc Htm Hp Ha)
    as (dd & hack & del & st' & h' & at' & Hrd & Hon & _ & _ & Hpm & Hc' & Htm').
  destruct (readd_deadline_correct off t timeNow Ht) as (? & ? & ? & Hrd' & _ & H1 & H2 & H3 & H4).
  rewrite Hrd in Hrd'. injection Hrd' as <- <- <-.
  cbn [set_taskQ mem] in Hon, Hc', Htm'. set (s1 := set_timer _ _ _) in Hon.
  destruct (schedule_None off s1 q (busy s) Hc' Htm') as (a2 & cd2 & Hs2 & _).
  eexists _, (with_deadline dd t). split; [unfold exec; rewrite Hd, Hq, Hon, bind_ret, Hs2; reflexivity|].
  simpl. split_and!; try done.
  - rewrite Hpm. set_solver.
  - by rewrite lookup_insert_eq.
  - destruct del; [by left|by right].
Qed.

(** a new task is executed right away, unless the next multiple of its
    interval is closer than the minimum pause: then it waits in the heap for
    that multiple. *)
Theorem scheduler_new_task off cpus cfg s a d timeNow p q t :
  run off cpus cfg s a d -> consistent off timeNow ->
  disp s = DSelect -> taskQ s = p :: q -> mem s !! p = Some t -> addedByWorker t = false ->
  exists s' t', exec (EDispTask timeNow) s = Some (Ret s') /\ taskQ s' = q /\ mem s' !! p = Some t' /\
    ((disp s' = DSend p /\ deadline t' = timeNow /\ tasks s' = tasks s) \/
     (disp s' = DSelect /\ p ∈ tasks s' /\ activeTimer s' = true /\
      (wall timeNow < wall (deadline t') < wall timeNow + SCHEDULER_TASK_MIN_EXECUTION_PAUSE)%Z /\
      (interval t | wall (deadline t'))%Z)).
Proof.
  intros [[Hc Htm _ _ _] _]%run_inv Hnow Hd Hq Hp Ha. rewrite Hq in Hc.
  assert (task_ok off t) as Ht.
  { pose proof (core_ok _ _ _ _ _ _ Hc) as Hok. rewrite queued_perm in Hok.
    apply Forall_cons in Hok as [(t' & Hp' & ?) _]. congruence. }
  assert (0 < interval t)%Z as Hi0 by (destruct Ht as (_ & _ & Hi & _);
    unfold SCHEDULER_TASK_MIN_EXECUTION_PAUSE, SCHEDULER_GRANULARITY, Millisecond in Hi; lia).
  unfold exec. rewrite Hd, Hq. unfold on_taskQ. cbn [set_taskQ mem]. rewrite Hp. simpl must.
  rewrite bind_ret. cbv zeta. rewrite Ha. set (n := next_deadline timeNow t).
  assert (wall n = wall timeNow - wall timeNow mod interval t + interval t)%Z as Hw.
  { unfold n, next_deadline, Truncate. rewrite wall_Add. simpl.
    by rewrite (proj2 (Z.leb_gt _ _)) by done. }
  assert (consistent off n) as Hcn by (unfold n, next_deadline; auto with go). clearbody n.
  destruct (next_multiple (wall timeNow) (interval t) Hi0) as (Hgt & Hdiv & _).
  rewrite <- Hw in Hgt, Hdiv.
  destruct (Z.ltb_spec (Sub n timeNow) SCHEDULER_TASK_MIN_EXECUTION_PAUSE) as [Hlt|Hge].
  - destruct (push_task_correct off p t n q (busy s) (set_taskQ q s) Hc Htm Ht)
      as (h' & a' & -> & Hpm & Hc' & Ht'); [done|].
    rewrite !bind_ret. set (s1 := set_timer _ _ _).
    destruct (schedule_None off s1 q (busy s) Hc' Ht') as (a2 & cd2 & -> & _ & Hne).
    eexists _, (with_deadline n t). split; [reflexivity|]. simpl.
    split_and!; [done|by rewrite lookup_insert_eq|]. right. split_and!; try done.
    + rewrite Hpm. set_solver.
    + apply Hne. simpl. intros ->. by apply Permutation_nil_cons in Hpm.
    + rewrite (Sub_wall off) in Hlt by done.
      unfold saturate, MinInt64, MaxInt64 in Hlt.
      unfold SCHEDULER_TASK_MIN_EXECUTION_PAUSE, SCHEDULER_GRANULARITY, Millisecond in *. lia.
  - set (s1 := if activeTimer _ then _ else _).
    assert (s1 = set_timer false (currentDeadline s)
      (set_mem (<[p := with_deadline timeNow t]> (mem s)) (set_taskQ q s))) as ->.
    { unfold s1. clear. destruct s as [? ? ? ? ? ? ? ? ? at0 ? ?]. by destruct at0. }
    rewrite bind_ret. set (s1 := set_timer _ _ _).
    destruct (schedule_Some p (with_deadline timeNow t) s1) as (st2 & -> & _);
      [simpl; by rewrite lookup_insert_eq|by destruct Hc|].
    eexists _, (with_deadline timeNow t). split; [reflexivity|]. simpl.
    split_and!; [done|by rewrite lookup_insert_eq|]. by left.
Qed.

(** The events of the scheduler's own goroutines. *)
Definition internal (e : event) : Prop :=
  match e with EAddNewTask _ _ | EStart | EShutdown => False | _ => True end.

Lemma exec_Ret off e s :
  inv off s -> event_ok off e s -> exec e s <> None -> exists s', exec e s = Some (Ret s').
Proof.
  intros Hinv Hok He. destruct (exec e s) as [r|] eqn:E; [|done].
  destruct (exec_correct off e s r Hinv Hok E) as (s' & -> & _). by exists s'.
Qed.

Lemma disp_send_enabled off s p :
  inv off s -> length (places s) <= SCHEDULER_TASK_Q_LEN -> disp s = DSend p ->
  exists s', exec EDispSend s = Some (Ret s').
Proof.
  intros Hinv Hlen Hd. apply (exec_Ret off); [done|done|]. unfold exec. rewrite Hd.
  rewrite (proj2 (Nat.ltb_lt _ _)); [done|].
  unfold places, busy in Hlen. rewrite Hd, !length_app in Hlen. simpl in Hlen.
  unfold SCHEDULER_TASK_Q_LEN, SCHEDULER_TODO_Q_LEN in *. lia.
Qed.

Lemma worker_send_enabled off s w p :
  inv off s -> length (places s) <= SCHEDULER_TASK_Q_LEN -> workers s !! w = Some (WSend p) ->
  exists s', exec (EWorkSend w) s = Some (Ret s').
Proof.
  intros Hinv Hlen Hw. apply (exec_Ret off); [done|done|]. unfold exec. rewrite Hw.
  rewrite (proj2 (Nat.ltb_lt _ _)); [done|].
  pose proof (busy_workers s w (WSend p) WIdle Hw) as Hb%Permutation_length. simpl in Hb.
  unfold places in Hlen. rewrite !length_app in Hlen. lia.
Qed.

(** A busy worker, or none. *)
Lemma workers_cases ws :
  Forall (fun w => w <> WExited) ws ->
  (exists w p, ws !! w = Some (WSend p)) \/ (exists w p ts, ws !! w = Some (WRun p ts)) \/
  Forall (fun w => w = WIdle) ws.
Proof.
  induction 1 as [|x ws Hx Hws IH]; [by right; right|].
  destruct IH as [(w & p & Hw)|[(w & p & ts & Hw)|Hall]].
  - left. by exists (S w), p.
  - right; left. by exists (S w), p, ts.
  - destruct x as [|p ts|p|]; [|right; left; by exists 0, p, ts|left; by exists 0, p|done].
    right; right. by constructor.
Qed.

Lemma idle_no_tasks ws : Forall (fun w => w = WIdle) ws -> work_tasks ws = [].
Proof. unfold work_tasks. induction 1 as [|x ws -> _ IH]; [done|]. simpl. exact IH. Qed.

Lemma scheduler_progress off s :
  inv off s -> length (places s) <= SCHEDULER_TASK_Q_LEN ->
  state s = SchedulerStateRunning -> 0 < numWorkers s -> places s <> [] ->
  exists e s', internal e /\ event_ok off e s /\ exec e s = Some (Ret s').
Proof.
  intros Hinv Hlen Hst Hn Hne. pose proof (inv_life _ _ Hinv) as Hl. unfold life in Hl.
  rewrite Hst in Hl. destruct Hl as (Hd1 & Hd2 & Hwn & Hex & _).
  assert (forall e, internal e -> event_ok off e s -> exec e s <> None ->
    exists e s', internal e /\ event_ok off e s /\ exec e s = Some (Ret s')) as Hdo.
  { intros e Hi Hok He. destruct (exec_Ret off e s Hinv Hok He) as [s' ?]. by exists e, s'. }
  destruct (disp s) as [| |p|] eqn:Hd; try done.
  2:{ destruct (disp_send_enabled off s p Hinv Hlen Hd) as [s' ?]. by exists EDispSend, s'. }
  destruct (tasks s) as [|x h] eqn:Hh.
  2:{ apply (Hdo EDispTimer); [done|done|]. unfold exec. rewrite Hd.
      by rewrite (inv_armed _ _ Hinv) by (rewrite ?Hh; done). }
  destruct (taskQ s) as [|x q] eqn:Hq.
  2:{ apply (Hdo (EDispTask zeroTime)); [done|done|]. unfold exec. by rewrite Hd, Hq. }
  destruct (workers_cases (workers s) Hex) as [(w & p & Hw)|[(w & p & ts & Hw)|Hall]].
  - destruct (worker_send_enabled off s w p Hinv Hlen Hw) as [s' ?]. by exists (EWorkSend w), s'.
  - apply (Hdo (EWorkExec w zeroTime true)); [done|done|]. unfold exec. by rewrite Hw.
  - apply (Hdo (EWorkRecv 0 zeroTime)); [done|done|]. unfold exec.
    destruct (workers s) as [|x ws] eqn:Hw; [simpl in Hwn; lia|]. pose proof Hall as Hall'.
    apply Forall_cons in Hall' as [-> _]. simpl. destruct (todoQ s) as [|y q] eqn:Ht; [|done].
    exfalso. apply Hne. unfold places, busy. rewrite Hh, Hq, Ht, Hd, Hw. by rewrite idle_no_tasks.
Qed.

(** C9: with at most as many tasks as a queue holds, no goroutine ever blocks on
    a send; so a running scheduler that holds a task can always make progress
    (fire the timer, take a task, finish one), and after a shutdown a goroutine
    that holds no task can return. *)
Theorem scheduler_no_deadlock off cpus cfg s a d :
  run off cpus cfg s a d -> length (places s) <= SCHEDULER_TASK_Q_LEN ->
  (forall p, disp s = DSend p -> exists s', exec EDispSend s = Some (Ret s')) /\
  (forall w p, workers s !! w = Some (WSend p) -> exists s', exec (EWorkSend w) s = Some (Ret s')) /\
  (state s = SchedulerStateRunning -> 0 < numWorkers s -> places s <> [] ->
    exists e s', internal e /\ event_ok off e s /\ exec e s = Some (Ret s')) /\
  (cancelled s = true ->
    (disp s = DSelect -> exists s', exec EDispDone s = Some (Ret s') /\ disp s' = DExited) /\
    (forall w, workers s !! w = Some WIdle ->
       exists s', exec (EWorkDone w) s = Some (Ret s') /\ workers s' !! w = Some WExited)).
Proof.
  intros [Hinv _]%run_inv Hlen. split_and!.
  - intros p. by apply (disp_send_enabled off).
  - intros w p. by apply (worker_send_enabled off).
  - by apply scheduler_progress.
  - intros Hcn. split.
    + intros Hd. eexists. split; [unfold exec; rewrite Hd, Hcn; reflexivity|done].
    + intros w Hw. eexists. split; [unfold exec; rewrite Hw, Hcn; reflexivity|].
      simpl. apply list_lookup_insert_eq. by eapply lookup_lt_Some.
Qed.

(** a compliant interval is a multiple of the granularity, at least the
    minimum pause, and within half the granularity of what was asked when that
    is possible (intervals up to the last granule before 2^63 ns); rounding is
    idempotent. *)
Theorem compliant_interval_rounds i :
  (MinInt64 <= i <= MaxInt64)%Z ->
  let c := CompliantTaskInterval i in
  (SCHEDULER_GRANULARITY | c)%Z /\ (SCHEDULER_TASK_MIN_EXECUTION_PAUSE <= c <= MaxInt64)%Z /\
  (3 * SCHEDULER_GRANULARITY / 2 <= i <= MaxInt64 - SCHEDULER_GRANULARITY ->
   Z.abs (c - i) <= SCHEDULER_GRANULARITY / 2)%Z /\
  CompliantTaskInterval c = c.
Proof.
  intros Hi c. destruct (CompliantTaskInterval_ok i Hi) as [Hr Hg]. fold c in Hr, Hg.
  split_and!; [done|lia|lia| |].
  - intros Hrange. revert Hr Hg. unfold c. clear c. unfold CompliantTaskInterval, dur_Truncate.
    unfold SCHEDULER_TASK_MIN_EXECUTION_PAUSE. set (g := SCHEDULER_GRANULARITY) in *.
    assert (g = 20000000)%Z as Hgv by done. rewrite Hgv in *. change (20000000 <=? 0)%Z with false. cbv iota.
    change (Z.quot 20000000 2) with 10000000%Z.
    assert (3 * 20000000 / 2 = 30000000 /\ 20000000 / 2 = 10000000)%Z as [E1 E2] by done.
    rewrite E1 in Hrange. rewrite E2. unfold MaxInt64, MinInt64 in *.
    pose proof (Z.rem_bound_pos i 20000000 ltac:(lia) ltac:(lia)). pose proof (Z.quot_rem' i 20000000).
    rewrite i64_small by (unfold MinInt64, MaxInt64; lia).
    rewrite i64_small by (unfold MinInt64, MaxInt64; lia).
    clear Hgv. intros _ _. destruct (Z.leb_spec 10000000 (i - (i - Z.rem i 20000000)));
      match goal with |- context [(?x <? ?y)%Z] => destruct (Z.ltb_spec x y) end; lia.
  - unfold CompliantTaskInterval, dur_Truncate. set (g := SCHEDULER_GRANULARITY) in *.
    assert (g = 20000000)%Z as Hgv by done. rewrite (proj2 (Z.leb_gt g 0)) by lia.
    assert (Z.rem c g = 0)%Z as -> by (apply Z.rem_divide; [lia|done]).
    rewrite Z.sub_0_r, Z.sub_diag. rewrite (proj2 (Z.leb_gt _ _)) by (rewrite Hgv; vm_compute; done).
    rewrite (proj2 (Z.ltb_ge _ _)) by lia. done.
Qed.

(** a snapshot has the statistics of every task as they are, whatever the
    destination held for it, and keeps the destination's other entries. *)
Theorem snap_stats_copies (st : SchedulerStats) (to : option SchedulerStats) :
  sized st -> sized (default ∅ to) ->
  exists r, SnapStats (Some st) to = Some r /\
    (forall i ts, st !! i = Some ts -> r !! i = Some ts) /\
    (forall i, st !! i = None -> r !! i = default ∅ to !! i).
Proof.
  intros Hs Ht. eexists. split; [reflexivity|]. split.
  - intros i ts Hi. apply lookup_union_Some_l. rewrite map_lookup_imap, Hi. simpl. f_equal.
    assert (length (Uint64Stats (default NewTaskStats (default ∅ to !! i))) = TASK_STATS_UINT64_LEN) as Hl
      by (destruct (default ∅ to !! i) eqn:E; [by apply (Ht i)|done]).
    unfold copy_stats. pose proof (Hs i ts Hi) as Hl'. simpl in Hl'.
    rewrite take_ge by lia. rewrite drop_ge by lia. rewrite app_nil_r. by destruct ts.
  - intros i Hi. rewrite lookup_union_r; [done|]. by rewrite map_lookup_imap, Hi.
Qed.

(** ** Witnesses *)

(** A clock reading [ms] milliseconds after the epoch of the example, on a
    machine that booted one second before. *)
Definition at_ms (ms : Z) : Time := mkTime (ms * Millisecond) (Some (ms * Millisecond + Second)%Z).
Definition sample_off : Z := (- Second)%Z.
Definition sample_task (i : string) (ms : Z) : Task := NewTask (bs i) (ms * Millisecond) true.

(** Two tasks, one executed and given back by a worker while the other waits
    in the heap. *)
Definition sample_events : list event := [
  EAddNewTask 1 (sample_task "netdev" 207);
  EStart;
  EAddNewTask 2 (sample_task "stat" 100);
  EDispTask (at_ms 1010); EDispSend; EWorkRecv 0 (at_ms 1011); EWorkExec 0 (at_ms 1013) true;
  EDispTask (at_ms 1080)].
Definition sample_init : Scheduler :=
  match NewScheduler 4 (CfgScheduler (Some 2%Z)) with
  | Ret (Some s) => s
  | _ => mkScheduler ∅ [] [] [] 0 SchedulerStateStopped ∅ true DOff false zeroTime []
  end.
Definition sample (es : list event) : Scheduler := default sample_init (exec_all sample_off es sample_init).

Lemma sample_run es :
  is_Some (exec_all sample_off es sample_init) ->
  exists a d, run sample_off 4 (CfgScheduler (Some 2%Z)) (sample es) a d.
Proof.
  intros [s Hs]. unfold sample. rewrite Hs. simpl.
  eapply exec_all_run; [by apply run_new|exact Hs].
Qed.

Ltac sample_run es :=
  destruct (sample_run es) as (a & d & Hrun); [vm_compute; by eexists|].

Lemma scheduler_invariant_witness :
  exists s', exec (EWorkSend 0) (sample sample_events) = Some (Ret s') /\ inv sample_off s'.
Proof.
  sample_run sample_events.
  destruct (exec (EWorkSend 0) (sample sample_events)) as [r|] eqn:E; [|by vm_compute in E].
  destruct (scheduler_invariant _ _ _ _ _ _ (EWorkSend 0) _ Hrun I E) as (s' & -> & Hi).
  exists s'. exact (conj (reflexivity _) Hi).
Defined.

Lemma scheduler_no_task_lost_witness :
  NoDup (places (sample sample_events)) /\ length (places (sample sample_events)) = 2.
Proof.
  sample_run sample_events. split; [|by vm_compute].
  exact (proj2 (scheduler_no_task_lost _ _ _ _ _ _ Hrun)).
Defined.

Lemma scheduler_earliest_first_witness :
  exists s', exec EDispTimer (sample sample_events) = Some (Ret s') /\ disp s' = DSend 2.
Proof.
  sample_run sample_events.
  destruct (scheduler_earliest_first _ _ _ _ _ _ Hrun) as (s' & p & t & _ & He & Hd & Hin & _);
    [by vm_compute|by vm_compute|].
  exists s'. split; [exact He|]. rewrite Hd. f_equal. vm_compute in Hin.
  by apply list_elem_of_singleton in Hin.
Defined.

Lemma scheduler_readd_deadline_witness :
  exists s' t', exec (EDispTask (at_ms 1100)) (sample (sample_events ++ [EWorkSend 0])) = Some (Ret s')
    /\ mem s' !! 1 = Some t' /\ (wall (at_ms 1100) < wall (deadline t'))%Z.
Proof.
  sample_run (sample_events ++ [EWorkSend 0]).
  destruct (mem (sample (sample_events ++ [EWorkSend 0])) !! 1) as [t|] eqn:Hm; [|by vm_compute in Hm].
  destruct (scheduler_readd_deadline _ _ _ _ _ _ (at_ms 1100) 1 [] t Hrun)
    as (s' & t' & He & _ & _ & _ & Hp & Hlt & _); [by vm_compute|by vm_compute|by vm_compute|done| |].
  - vm_compute in Hm. by injection Hm as <-.
  - exists s', t'. exact (conj He (conj Hp Hlt)).
Defined.

Lemma scheduler_new_task_witness :
  exists s' t', exec (EDispTask (at_ms 1010)) (sample (take 3 sample_events)) = Some (Ret s')
    /\ mem s' !! 1 = Some t'.
Proof.
  sample_run (take 3 sample_events).
  destruct (mem (sample (take 3 sample_events)) !! 1) as [t|] eqn:Hm; [|by vm_compute in Hm].
  destruct (scheduler_new_task _ _ _ _ _ _ (at_ms 1010) 1 [2] t Hrun)
    as (s' & t' & He & _ & Hp & _); [by vm_compute|by vm_compute|by vm_compute|done| |].
  - vm_compute in Hm. by injection Hm as <-.
  - exists s', t'. exact (conj He Hp).
Defined.

Lemma scheduler_no_deadlock_witness :
  exists e s', internal e /\ event_ok sample_off e (sample sample_events) /\
    exec e (sample sample_events) = Some (Ret s').
Proof.
  sample_run sample_events.
  destruct (scheduler_no_deadlock _ _ _ _ _ _ Hrun) as (_ & _ & Hp & _); [vm_compute; lia|].
  apply Hp; [by vm_compute|vm_compute; lia|by vm_compute].
Defined.

Lemma compliant_interval_rounds_witness :
  (SCHEDULER_GRANULARITY | CompliantTaskInterval (207 * Millisecond))%Z /\
  CompliantTaskInterval (207 * Millisecond) = (200 * Millisecond)%Z.
Proof.
  destruct (compliant_interval_rounds (207 * Millisecond)) as (H & _); [vm_compute; by split|].
  split; [exact H|reflexivity].
Defined.

Lemma snap_stats_copies_witness :
  exists r, SnapStats (Some {[ bs "stat" := mkTaskStats [3; 0; 0; 2; 0]%Z 7 ]}) None = Some r /\
    r !! bs "stat" = Some (mkTaskStats [3; 0; 0; 2; 0]%Z 7).
Proof.
  destruct (snap_stats_copies {[ bs "stat" := mkTaskStats [3; 0; 0; 2; 0]%Z 7 ]} None)
    as (r & Hr & Hc & _).
  - by apply map_Forall_singleton.
  - apply map_Forall_empty.
  - exists r. split; [exact Hr|]. apply Hc. by rewrite lookup_singleton_eq.
Defined.
End Scheduler.
