(* ===== verification/SchedulerStop.v ===== *)
(** The shutdown of the scheduler (lsvmi/scheduler.go): once the context is
    cancelled the dispatcher and the workers can all return, so that the wait of
    [Shutdown] comes to an end, and a goroutine that has returned does nothing
    more. *)

From Stdlib Require Import ZArith Lia.
From stdpp Require Import base tactics numbers strings gmap list relations.
From S2P Require Import Prelude GoTime Heap Scheduler.

Module SchedulerStop.
Import Scheduler.

(** [scheduler.wg.Wait()] is over. *)
Definition all_exited (s : Scheduler) : bool :=
  match disp s with
  | DExited => forallb (fun w => match w with WExited => true | _ => false end) (workers s)
  | _ => false
  end.

#[export] Instance dispatcher_exited_dec (d : dispatcher) : Decision (d = DExited).
Proof. destruct d; (by left) || by right. Defined.
#[export] Instance worker_exited_dec (w : worker) : Decision (w = WExited).
Proof. destruct w; (by left) || by right. Defined.

Definition exited (s : Scheduler) : Prop := disp s = DExited /\ Forall (fun w => w = WExited) (workers s).

Lemma all_exited_spec s : all_exited s = true <-> exited s.
Proof.
  unfold all_exited, exited. destruct (disp s); try (split; [done|by intros [? _]]). rewrite forallb_forall, list.Forall_forall.
  split.
  - intros H. split; [done|]. intros w Hw%list_elem_of_In. specialize (H w Hw). by destruct w.
  - intros [_ H] w Hw%list_elem_of_In. by rewrite (H w Hw).
Qed.

(** What the dispatcher leaves alone. *)
Definition frame (s : Scheduler) := (state s, cancelled s, numWorkers s, workers s).

Ltac keeps_frame :=
  repeat match goal with
  | H : (_ ≫= _) = Ret _ |- _ =>
    let x := fresh "x" in let H1 := fresh "H" in apply bind_Ret_inv in H as (x & H1 & H)
  | H : (let '(_, _) := ?x in _) = Ret _ |- _ => destruct x
  | H : (if ?b then _ else _) = Ret _ |- _ => destruct b
  | H : match ?x with Some _ => _ | None => _ end = Ret _ |- _ => destruct x
  | H : Ret _ = Ret _ |- _ => injection H; clear H; intros; subst
  end.

Lemma arm_frame s s' : arm s = Ret s' -> frame s' = frame s.
Proof. unfold arm. intros H. by keeps_frame. Qed.

Lemma push_task_frame p t d s s' : push_task p t d s = Ret s' -> frame s' = frame s.
Proof. unfold push_task. intros H. keeps_frame. by destruct (_ && _). Qed.

Lemma on_taskQ_frame now p s s' o : on_taskQ now p s = Ret (s', o) -> frame s' = frame s.
Proof.
  unfold on_taskQ. intros H. keeps_frame; repeat match goal with H : push_task _ _ _ _ = Ret _ |- _ => apply push_task_frame in H end; try done.
  by destruct (activeTimer _).
Qed.

Lemma schedule_frame o s s' : schedule o s = Ret s' -> frame s' = frame s /\ disp s' <> DOff.
Proof.
  unfold schedule. intros H. keeps_frame; [done|]. match goal with H : arm _ = Ret _ |- _ => apply arm_frame in H end. done.
Qed.

(** The goroutines change neither the state nor the number of the goroutines. *)
Lemma internal_keeps e s s' : internal e -> exec e s = Some (Ret s') ->
  state s' = state s /\ cancelled s' = cancelled s /\ length (workers s') = length (workers s) /\ (disp s <> DOff -> disp s' <> DOff).
Proof.
  intros Hi He. assert (frame s' = frame s /\ disp s' <> DOff -> state s' = state s /\ cancelled s' = cancelled s /\
    length (workers s') = length (workers s) /\ (disp s <> DOff -> disp s' <> DOff)) as Hf.
  { intros [[= -> -> _ ->] Hd]. done. }
  destruct e as [p t| | |now| | | |w ts|w ts x|w|w]; try done; unfold exec in He.
  - destruct (disp s); try done. destruct (taskQ s) as [|p q]; [done|]. injection He as He. apply bind_Ret_inv in He as ([s1 o] & H1 & H2).
    apply on_taskQ_frame in H1. apply schedule_frame in H2 as [H2 Hd]. apply Hf. split; [|done]. by rewrite H2, H1.
  - destruct (disp s); try done. destruct (activeTimer s); [|done]. injection He as He. apply bind_Ret_inv in He as ([s1 o] & H1 & H2).
    unfold on_timer in H1. keeps_frame. apply schedule_frame in H2 as [H2 Hd]. apply Hf. by split.
  - destruct (disp s); try done. destruct (_ <? _); [|done]. injection He as He. keeps_frame.
    match goal with H : arm _ = Ret _ |- _ => apply arm_frame in H; rename H into Ha end. apply Hf. split; [exact Ha|done].
  - destruct (disp s) eqn:Hd; try done. destruct (cancelled s) eqn:Hc; [|done]. injection He as <-. simpl. by split_and!.
  - destruct (workers s !! w) as [[]|]; try done. destruct (todoQ s); [done|]. injection He as <-. simpl. by rewrite length_insert.
  - destruct (workers s !! w) as [[|p st| |]|] eqn:Hw; try done. injection He as He. unfold finish_task in He. keeps_frame. simpl.
    match goal with H : store _ _ _ = Ret _ |- _ => apply store_length in H end. by split_and!.
  - destruct (workers s !! w) as [[]|]; try done. destruct (_ <? _); [|done]. injection He as <-. simpl. by rewrite length_insert.
  - destruct (workers s !! w) as [[]|]; try done. destruct (cancelled s) eqn:Hc; [|done]. injection He as <-. simpl. by rewrite length_insert.
Qed.

(** Nothing runs once all have returned. *)
Lemma exited_quiet e s : internal e -> exited s -> exec e s = None.
Proof.
  intros Hi [Hd Hw]. destruct e as [p t| | |now| | | |w ts|w ts x|w|w]; try done; simpl; rewrite ?Hd; try done;
    (destruct (workers s !! w) as [y|] eqn:E; [|done]; rewrite Forall_lookup in Hw; by rewrite (Hw _ _ E)).
Qed.

(** ** The shutdown returns *)

Definition step (off : Z) (s s' : Scheduler) : Prop := exists e, internal e /\ event_ok off e s /\ exec e s = Some (Ret s').

Definition disp_weight (d : dispatcher) : nat := match d with DSend _ => 2 | DSelect => 1 | _ => 0 end.
Definition worker_weight (w : worker) : nat := match w with WRun _ _ => 3 | WSend _ => 2 | WIdle => 1 | WExited => 0 end.
Definition left_steps (s : Scheduler) : nat := disp_weight (disp s) + sum_list (map worker_weight (workers s)).

Lemma sum_insert ws w x y : ws !! w = Some x -> worker_weight y < worker_weight x ->
  sum_list (map worker_weight (<[w := y]> ws)) < sum_list (map worker_weight ws).
Proof.
  revert w. induction ws as [|z ws IH]; intros [|w] Hw Hlt; simplify_eq/=; [lia|]. specialize (IH w Hw Hlt). lia.
Qed.

(** The goroutines do not add tasks. *)
Lemma places_sub off e s s' : inv off s -> internal e -> event_ok off e s -> exec e s = Some (Ret s') ->
  inv off s' /\ places s' ⊆+ places s.
Proof.
  intros Hinv Hi Hok He. destruct (exec_correct off e s _ Hinv Hok He) as (s1 & [= <-] & Hinv' & Heff). split; [done|].
  destruct e as [p t| | |now| | | |w ts|w ts x|w|w]; try done; simpl in Heff; try (by rewrite Heff).
  destruct (workers s !! w) as [[]|]; try done. case_match; rewrite <- Heff; [by apply submseteq_cons|done].
Qed.

Lemma places_le off e s s' : inv off s -> internal e -> event_ok off e s -> exec e s = Some (Ret s') ->
  inv off s' /\ length (places s') <= length (places s).
Proof. intros Hinv Hi Hok He. destruct (places_sub off e s s' Hinv Hi Hok He) as [? Hs]. split; [done|]. by apply submseteq_length. Qed.

(** A step that brings the goroutines nearer to their end; no worker starts on
    another task. *)
Definition towards_end (off : Z) (s : Scheduler) (e : event) (s' : Scheduler) : Prop :=
  internal e /\ event_ok off e s /\ exec e s = Some (Ret s') /\ left_steps s' < left_steps s /\
  (forall w p ts, workers s' !! w = Some (WRun p ts) -> workers s !! w = Some (WRun p ts)).

(** After the cancellation the dispatcher, or else a worker, has such a step. *)
Lemma disp_progress off s : inv off s -> length (places s) <= SCHEDULER_TASK_Q_LEN -> cancelled s = true ->
  disp s <> DOff -> disp s <> DExited ->
  exists e s', towards_end off s e s' /\ forall w ts res, e <> EWorkExec w ts res.
Proof.
  intros Hinv Hlen Hc Hoff Hex. destruct (disp s) as [| |p|] eqn:Hd; try done.
  - exists EDispDone, (set_disp DExited (set_timer false (currentDeadline s) s)). split; [|done]. split; [done|]. split; [done|].
    split; [simpl; by rewrite Hd, Hc|]. split; [|done]. unfold left_steps. simpl. rewrite Hd. simpl. lia.
  - destruct (disp_send_enabled off s p Hinv Hlen Hd) as [s' He]. exists EDispSend, s'. split; [|done]. split; [done|]. split; [done|]. split; [done|].
    simpl in He. rewrite Hd in He. destruct (_ <? _); [|done]. injection He as He. apply bind_Ret_inv in He as (s1 & H1 & [= <-]).
    apply arm_frame in H1. injection H1 as _ _ _ H1. unfold left_steps. simpl in *. rewrite H1, Hd. split; [simpl; lia|done].
Qed.

(** If the worker is executing a task, the result of the execution may be any. *)
Lemma worker_progress off s w x res : inv off s -> length (places s) <= SCHEDULER_TASK_Q_LEN -> cancelled s = true ->
  workers s !! w = Some x -> x <> WExited ->
  exists e s', towards_end off s e s' /\ match e with EWorkExec w' _ res' => w' = w /\ res' = res | _ => True end.
Proof.
  intros Hinv Hlen Hc Hw Hx.
  assert (forall e s' y, internal e -> event_ok off e s -> exec e s = Some (Ret s') -> disp s' = disp s ->
    workers s' = <[w := y]> (workers s) -> worker_weight y < worker_weight x -> worker_weight y < 3 -> towards_end off s e s') as Hdo.
  { intros e s' y Hi Hok He Hd Hws Hlt Hy. split; [done|]. split; [done|]. split; [done|]. unfold left_steps. rewrite Hd, Hws.
    pose proof (sum_insert _ _ _ _ Hw Hlt). split; [lia|]. intros w' p ts [(<- & -> & _)|[_ Hl]]%list_lookup_insert_Some; [simpl in Hy; lia|done]. }
  destruct x as [|p ts|p|]; [| | |done].
  - eexists (EWorkDone w), _. split; [|done].
    eapply (Hdo _ _ WExited); [done|done|simpl; by rewrite Hw, Hc|done|done|simpl; lia|simpl; lia].
  - destruct (exec_Ret off (EWorkExec w zeroTime res) s Hinv) as [s' He]; [apply zeroTime_consistent|simpl; by rewrite Hw|].
    pose proof He as He'. simpl in He'. rewrite Hw in He'. injection He' as He'. unfold finish_task in He'.
    apply bind_Ret_inv in He' as (t & _ & He'). apply bind_Ret_inv in He' as (st & _ & He'). apply bind_Ret_inv in He' as (ws & Hs & [= <-]).
    unfold store in Hs. case_decide; [|done]. injection Hs as <-. eexists (EWorkExec w zeroTime res), _. split; [|done].
    eapply (Hdo _ _ (if if hasAction t then res else true then WSend p else WIdle)); [done|apply zeroTime_consistent|exact He|done|done|destruct (hasAction t), res; simpl; lia..].
  - destruct (worker_send_enabled off s w p Hinv Hlen Hw) as [s' He]. pose proof He as He'. simpl in He'. rewrite Hw in He'.
    destruct (_ <? _); [|done]. injection He' as <-. eexists (EWorkSend w), _. split; [|done].
    eapply (Hdo _ _ WIdle); [done|done|exact He|done|done|simpl; lia|simpl; lia].
Qed.

(** Either nothing is left to do or there is a step towards the end. *)
Lemma exited_or_not s : exited s \/ disp s <> DExited \/ exists w x, workers s !! w = Some x /\ x <> WExited.
Proof.
  destruct (decide (disp s = DExited)) as [Hd|Hd]; [|tauto].
  destruct (decide (Forall (fun w => w = WExited) (workers s))) as [Hall|Hn]; [by left|].
  apply not_Forall_Exists, Exists_exists in Hn as (x & (w & Hw)%list_elem_of_lookup & Hx); [|apply _].
  right. right. by exists w, x.
Qed.

Lemma all_exit off s : inv off s -> length (places s) <= SCHEDULER_TASK_Q_LEN -> cancelled s = true -> disp s <> DOff ->
  exists s', rtc (step off) s s' /\ exited s'.
Proof.
  remember (left_steps s) as k eqn:Ek. revert s Ek. induction (lt_wf k) as [k _ IH]. intros s -> Hinv Hlen Hc Hoff.
  assert (exited s \/ exists e s', towards_end off s e s') as [Hex|(e & s1 & Hi & Hok & He & Hlt & _)].
  { destruct (exited_or_not s) as [?|[Hd|(w & x & Hw & Hx)]]; [by left|right..].
    - destruct (disp_progress off s Hinv Hlen Hc Hoff Hd) as (e & s' & ? & _). eauto.
    - destruct (worker_progress off s w x true Hinv Hlen Hc Hw Hx) as (e & s' & ? & _). eauto. }
  - exists s. split; [apply rtc_refl|done].
  - destruct (places_le off e s s1 Hinv Hi Hok He) as [Hinv1 Hlen1].
    destruct (internal_keeps e s s1 Hi He) as (_ & Hc1 & _ & Hoff1).
    destruct (IH _ Hlt s1 eq_refl Hinv1 ltac:(lia) ltac:(congruence) ltac:(auto)) as (s' & Hs' & Hex).
    exists s'. split; [|done]. eapply rtc_l; [by exists e|done].
Qed.

(** ** A task is executed by one worker at a time *)

Lemma runs_known ws w p ts : ws !! w = Some (WRun p ts) -> p ∈ work_tasks ws.
Proof.
  revert w. induction ws as [|y ws IH]; intros [|w] Hw; simplify_eq/=; [by left|].
  unfold work_tasks. simpl. apply elem_of_app. right. by eapply IH.
Qed.

Lemma runs_once off s w w' p ts ts' : inv off s -> workers s !! w = Some (WRun p ts) -> workers s !! w' = Some (WRun p ts') -> w = w'.
Proof.
  intros Hinv. pose proof (core_nodup _ _ _ _ _ _ (inv_core _ _ Hinv)) as Hn.
  apply NoDup_app in Hn as (_ & _ & Hn). apply NoDup_app in Hn as (_ & _ & Hn). unfold busy in Hn.
  apply NoDup_app in Hn as (_ & _ & Hn). apply NoDup_app in Hn as (_ & _ & Hn). unfold work_tasks in Hn.
  revert w w' Hn. generalize (workers s). induction l as [|y l IH]; intros [|w] [|w'] Hn Hw Hw'; simplify_eq/=; try done.
  - apply NoDup_cons in Hn as [Hn _]. destruct Hn. by eapply runs_known.
  - apply NoDup_cons in Hn as [Hn _]. destruct Hn. by eapply runs_known.
  - f_equal. apply IH; [|done|done]. by apply NoDup_app in Hn as (_ & _ & ?).
Qed.

(** C10: the wait of the scheduler's shutdown comes to an end.  With at most as many
    tasks as a queue holds, whatever the dispatcher and the workers are doing when
    a running scheduler is shut down, they can all return, and then nothing of the
    scheduler runs. *)
Theorem scheduler_shutdown_returns off cpus cfg s a d :
  run off cpus cfg s a d -> state s = SchedulerStateRunning -> length (places s) <= SCHEDULER_TASK_Q_LEN ->
  exists s', rtc (step off) (Shutdown s) s' /\ exited s' /\ forall e, internal e -> exec e s' = None.
Proof.
  intros [Hinv _]%run_inv Hst Hlen. pose proof (inv_life _ _ Hinv) as Hl. unfold life in Hl. rewrite Hst in Hl.
  assert (exec EShutdown s = Some (Ret (Shutdown s))) as He by done.
  destruct (exec_correct off EShutdown s _ Hinv I He) as (s1 & [= <-] & Hinv1 & Hp). simpl in Hp. apply Permutation_length in Hp.
  destruct (all_exit off (Shutdown s) Hinv1) as (s' & Hs' & Hex); [lia|unfold Shutdown; by rewrite Hst|unfold Shutdown; rewrite Hst; simpl; tauto|].
  exists s'. split; [done|]. split; [done|]. intros e Hi. by apply exited_quiet.
Qed.

Lemma scheduler_shutdown_returns_witness :
  exists s', rtc (step sample_off) (Shutdown (sample sample_events)) s' /\ exited s' /\ forall e, internal e -> exec e s' = None.
Proof.
  sample_run sample_events.
  exact (scheduler_shutdown_returns _ _ _ _ _ _ Hrun (reflexivity _) (proj1 (Nat.leb_le _ _) (reflexivity _))).
Defined.
End SchedulerStop.
