(* ===== verification/RateController.v ===== *)
(** Credit based rate limiting (src/lsvmi/rate_controller.go): the credit that a
    goroutine replenishes and readers draw from, and the reader that paces the
    bytes of a buffer by the credit it obtains. *)

From Stdlib Require Import ZArith Lia.
From stdpp Require Import base tactics numbers strings gmap list.
From S2P Require Import Prelude.
Local Open Scope Z_scope.

Module RateController.

Definition CREDIT_NO_LIMIT : Z := 0.
Definition CREDIT_EXACT_MATCH : Z := 0.

(** ** The interface between the reader and the credit *)

(** [CreditController]: [GetCredit desired minAcceptable] blocks until it can
    grant; the outcome is the grant and the new state of the controller. *)
Class CreditController (C : Type) := GetCredit : Z -> Z -> C -> outcome (Z * C).

(** The smallest grant that a caller accepts. *)
Definition acceptable (desired minAcceptable : Z) : Z :=
  if (minAcceptable =? CREDIT_EXACT_MATCH) || (desired <? minAcceptable) then desired
  else minAcceptable.

(** What a controller promises: a grant within what was asked, and one does
    come when no more than [m] is insisted on and the controller is [ready] for
    [m], which it stays. *)
Class CreditLaws (C : Type) `{CreditController C} (ready : Z -> C -> Prop) := {
  grant_bounds desired minA c got c' :
    GetCredit desired minA c = Ret (got, c') -> acceptable desired minA <= got <= desired;
  grant_comes m desired minA c :
    0 <= acceptable desired minA <= m -> ready m c ->
    exists got c', GetCredit desired minA c = Ret (got, c') /\ ready m c'
}.

(** ** Credit *)

Record Credit := mkCredit { current : Z; max : Z; replenishValue : Z; replenishInt : Z }.

(** [NewCredit], with the initial value that [startReplenish] sets. *)
Definition NewCredit (replenishValue max replenishInt : Z) : Credit :=
  let max := if negb (max =? CREDIT_NO_LIMIT) && (max <? replenishValue) then replenishValue
             else max in
  mkCredit replenishValue max replenishValue replenishInt.

(** One replenishment by the goroutine of [startReplenish]. *)
Definition replenish (c : Credit) : Credit :=
  let cur := i64 (current c + replenishValue c) in
  let cur := if negb (max c =? CREDIT_NO_LIMIT) && (max c <? cur) then max c else cur in
  mkCredit cur (max c) (replenishValue c) (replenishInt c).

(** The critical section of [Credit.GetCredit]: [None] while it waits on the
    condition. *)
Definition take_credit (desired minAcceptable : Z) (c : Credit) : option (Z * Credit) :=
  let minAcceptable := acceptable desired minAcceptable in
  if current c <? minAcceptable then None
  else
    let got := if desired <=? current c then desired else current c in
    Some (got, mkCredit (i64 (current c - got)) (max c) (replenishValue c) (replenishInt c)).

(** [Credit.GetCredit] of a caller that is alone: the wait ends after enough
    replenishments. *)
Definition get_fuel (m : Z) (c : Credit) : nat :=
  Z.to_nat ((m - current c) / replenishValue c) + 3.
Definition get_body (desired minAcceptable : Z) (c : Credit) : outcome (Credit + Z * Credit) :=
  match take_credit desired minAcceptable c with
  | Some r => Ret (inr r)
  | None => Ret (inl (replenish c))
  end.
#[export] Instance Credit_GetCredit : CreditController Credit := fun desired minA c =>
  while (get_fuel (acceptable desired minA) c) (get_body desired minA) c.

(** ** Sharing one credit *)

(** What the users of a credit do to it, in any order. *)
Inductive use :=
| Replenish
| Grant (desired minAcceptable got : Z).

Fixpoint uses (us : list use) (c : Credit) : option Credit :=
  match us with
  | [] => Some c
  | Replenish :: us => uses us (replenish c)
  | Grant d m g :: us =>
    match take_credit d m c with
    | Some (got, c') => if got =? g then uses us c' else None
    | None => None
    end
  end.
Definition replenishments (us : list use) : Z :=
  foldr (fun u n => match u with Replenish => 1 + n | _ => n end) 0 us.
Definition granted (us : list use) : Z :=
  foldr (fun u n => match u with Grant _ _ g => g + n | _ => n end) 0 us.
Definition asks_ok (us : list use) : Prop :=
  Forall (fun u => match u with Grant d m _ => 0 <= d <= MaxInt64 /\ 0 <= m | _ => True end) us.

(** ** Credit reader *)

Inductive io_error := EOF | ErrWhence | ErrOffset.

Record CreditReader (C : Type) := mkCreditReader {
  cc : C; minC : Z; b : bytes; r : Z; n : Z; closed : bool
}.
Arguments mkCreditReader {C} _ _ _ _ _ _.
Arguments cc {C}. Arguments minC {C}. Arguments b {C}. Arguments r {C}. Arguments n {C}.
Arguments closed {C}.

Section reader.
Context {C : Type} `{CreditController C}.

Definition NewCreditReader (c : C) (minAcceptable : Z) (buf : bytes) : CreditReader C :=
  mkCreditReader c (if minAcceptable <? 0 then 0 else minAcceptable) buf 0 (Z.of_nat (length buf))
    false.

Definition Reuse (minAcceptable : Z) (buf : bytes) (cr : CreditReader C) : CreditReader C :=
  mkCreditReader (cc cr) (if 0 <=? minAcceptable then minAcceptable else minC cr) buf 0
    (Z.of_nat (length buf)) (closed cr).

Definition Rewind (cr : CreditReader C) : CreditReader C :=
  mkCreditReader (cc cr) (minC cr) (b cr) 0 (n cr) false.

(** [b[s:e]]. *)
Definition slice (buf : bytes) (s e : Z) : outcome bytes :=
  if (0 <=? s) && (s <=? e) && (e <=? Z.of_nat (length buf))
  then Ret (take (Z.to_nat (e - s)) (drop (Z.to_nat s) buf)) else Panic.

(** [Read] into a buffer of [lenp] bytes: the bytes read, or an error. *)
Definition Read (lenp : Z) (cr : CreditReader C)
    : outcome (CreditReader C * bytes * option io_error) :=
  if closed cr then Ret (cr, [], None)
  else
    let available := n cr - r cr in
    if available <=? 0 then Ret (cr, [], Some EOF)
    else if lenp =? 0 then Ret (cr, [], None)
    else
      let toRead := if available <? lenp then available else lenp in
      '(toRead, c) ← GetCredit toRead (minC cr) (cc cr);
      if toRead =? 0 then Ret (mkCreditReader c (minC cr) (b cr) (r cr) (n cr) (closed cr), [], None)
      else
        let r' := r cr + toRead in
        data ← slice (b cr) (r cr) r';
        Ret (mkCreditReader c (minC cr) (b cr) r' (n cr) (closed cr), take (Z.to_nat lenp) data, None).

Definition SeekStart : Z := 0.
Definition SeekCurrent : Z := 1.
Definition SeekEnd : Z := 2.

Definition Seek (offset whence : Z) (cr : CreditReader C) : CreditReader C * (io_error + Z) :=
  let newR :=
    if whence =? SeekCurrent then Some (i64 (r cr + offset))
    else if whence =? SeekStart then Some offset
    else if whence =? SeekEnd then Some (i64 (n cr - 1 + offset))
    else None in
  match newR with
  | None => (cr, inl ErrWhence)
  | Some newR =>
    if (newR <? 0) || (n cr <=? newR) then (cr, inl ErrOffset)
    else if closed cr then (cr, inr (r cr))
    else (mkCreditReader (cc cr) (minC cr) (b cr) newR (n cr) (closed cr), inr newR)
  end.

Definition Close (cr : CreditReader C) : CreditReader C :=
  mkCreditReader (cc cr) (minC cr) (b cr) (r cr) (n cr) true.

(** A caller that reads with buffers of [lenp] bytes until the end of file. *)
Definition read_all_body (lenp : Z) (st : CreditReader C * bytes)
    : outcome ((CreditReader C * bytes) + (CreditReader C * bytes)) :=
  let '(cr, acc) := st in
  '(cr, data, err) ← Read lenp cr;
  match err with
  | Some _ => Ret (inr (cr, acc ++ data))
  | None => Ret (inl (cr, acc ++ data))
  end.
Definition read_all (lenp : Z) (cr : CreditReader C) : outcome (CreditReader C * bytes) :=
  while (S (S (length (b cr)))) (read_all_body lenp) (cr, []).
End reader.

(** ** Lemmas *)

Lemma acceptable_le desired minA : acceptable desired minA <= desired.
Proof. unfold acceptable. case_match eqn:E; [lia|]. apply orb_false_iff in E as [_ E]. lia. Qed.

Lemma acceptable_pos desired minA : 0 < desired -> 0 <= minA -> 0 < acceptable desired minA.
Proof.
  intros Hd Hm. unfold acceptable, CREDIT_EXACT_MATCH. case_match eqn:E; [lia|].
  apply orb_false_iff in E as [E _]. lia.
Qed.

(** A credit that its users cannot drive below zero or above its cap. *)
Definition wf (c : Credit) : Prop :=
  0 <= current c <= MaxInt64 /\ 0 <= replenishValue c /\
  (max c = CREDIT_NO_LIMIT \/ replenishValue c <= max c /\ current c <= max c).

Lemma take_credit_spec d m c got c' :
  take_credit d m c = Some (got, c') -> 0 <= current c <= MaxInt64 -> 0 <= d -> 0 <= m ->
  0 <= got /\ acceptable d m <= got <= d /\ got <= current c /\
  c' = mkCredit (current c - got) (max c) (replenishValue c) (replenishInt c).
Proof.
  unfold take_credit. intros H Hc Hd Hm. pose proof (acceptable_le d m).
  destruct (Z.ltb_spec (current c) (acceptable d m)); [done|]. injection H as <- <-.
  destruct (Z.leb_spec d (current c)); (split_and!; [lia..|]);
    (rewrite i64_small; [done|unfold MinInt64, MaxInt64 in *; lia]).
Qed.

Lemma replenish_spec c :
  wf c -> current c + replenishValue c <= MaxInt64 ->
  wf (replenish c) /\ current c <= current (replenish c) <= current c + replenishValue c /\
  (max c = CREDIT_NO_LIMIT -> current (replenish c) = current c + replenishValue c) /\
  max (replenish c) = max c /\ replenishValue (replenish c) = replenishValue c.
Proof.
  intros (Hc & Hr & Hm) Ho. unfold replenish, wf. cbn [current max replenishValue].
  rewrite i64_small by (unfold MinInt64, MaxInt64 in *; lia).
  unfold CREDIT_NO_LIMIT in *. destruct (Z.eqb_spec (max c) 0) as [E|E]; simpl negb; cbv iota.
  - rewrite andb_false_l. split_and!; lia.
  - rewrite andb_true_l. destruct (Z.ltb_spec (max c) (current c + replenishValue c));
      split_and!; try lia.
Qed.

Lemma replenishments_nonneg us : 0 <= replenishments us.
Proof. unfold replenishments. induction us as [|[|]]; simpl; lia. Qed.

Lemma uses_conserve (us : list use) (c c' : Credit) :
  wf c -> asks_ok us -> current c + replenishValue c * replenishments us <= MaxInt64 ->
  uses us c = Some c' ->
  wf c' /\ max c' = max c /\
  granted us + current c' <= current c + replenishValue c * replenishments us /\
  (max c = CREDIT_NO_LIMIT ->
   granted us + current c' = current c + replenishValue c * replenishments us).
Proof.
  intros Hwf Hask Ho Hu.
  revert c Hwf Hask Ho Hu. induction us as [|u us IH]; intros c Hwf Hask Ho Hu.
  { injection Hu as <-. simpl. split; [done|]. split_and!; lia. }
  apply Forall_cons in Hask as [Hu0 Hask]. pose proof (replenishments_nonneg us) as Hk.
  destruct u as [|d m g]; simpl in Hu, Ho |- *.
  - pose proof Hwf as (? & ? & _).
    destruct (replenish_spec c Hwf) as (Hwf' & Hc & Hc0 & Hm & Hr); [nia|].
    destruct (IH (replenish c)) as (I1 & I2 & I3 & I4); [done|done|rewrite Hr; nia|done|].
    rewrite Hm, Hr in *. split; [done|]. split_and!; [done|lia|].
    intros E. specialize (I4 E). rewrite Hc0 in I4 by done. lia.
  - destruct (take_credit d m c) as [[got c1]|] eqn:Ht; [|done].
    destruct (Z.eqb_spec got g) as [->|]; [|done]. pose proof Hwf as (Hc & Hr & Hm).
    apply take_credit_spec in Ht as (? & ? & ? & ->); [|done|lia|lia].
    assert (wf (mkCredit (current c - g) (max c) (replenishValue c) (replenishInt c))) as Hwf'
      by (split; [simpl; lia|split; [simpl; lia|]]; simpl; destruct Hm; [by left|right; lia]).
    destruct (IH _ Hwf' Hask) as (I1 & I2 & I3 & I4); [simpl; lia|done|]. simpl in *.
    split; [done|]. split_and!; [done|lia|]. intros E. specialize (I4 E). lia.
Qed.

(** ** Properties of the credit *)

(** C18: over any interleaving of replenishments and grants, credit is never
    created: what was granted plus what is left is at most what was there plus
    the replenishments (exactly that without a cap), the credit never goes
    below zero nor above the cap; so between any two moments the users of a
    credit of N per interval and burst cap M get at most M + k N over k
    replenishments. *)
Theorem credit_conservation (us : list use) (c c' : Credit) :
  wf c -> asks_ok us -> current c + replenishValue c * replenishments us <= MaxInt64 ->
  uses us c = Some c' ->
  wf c' /\ max c' = max c /\
  granted us + current c' <= current c + replenishValue c * replenishments us /\
  (max c = CREDIT_NO_LIMIT ->
   granted us + current c' = current c + replenishValue c * replenishments us) /\
  (max c <> CREDIT_NO_LIMIT -> granted us <= max c + replenishValue c * replenishments us).
Proof.
  intros Hwf Hask Ho Hu.
  destruct (uses_conserve us c c' Hwf Hask Ho Hu) as (H1 & H2 & H3 & H4).
  split; [done|]. split_and!; try done. intros Hm. destruct Hwf as (_ & _ & [?|?]); [done|].
  destruct H1 as (? & _). lia.
Qed.

(** ** The credit keeps the interface's promises *)

(** Replenished by a positive amount, with a cap (if any) that allows the
    request, and no overflow on the way. *)
Definition credit_ready (m : Z) (c : Credit) : Prop :=
  0 < replenishValue c /\ 0 <= current c <= MaxInt64 /\
  (max c = CREDIT_NO_LIMIT \/ m <= max c) /\ 0 <= m /\ m + replenishValue c <= MaxInt64.

(** The wait ends. *)
Lemma get_comes m desired minA c fuel :
  0 <= acceptable desired minA <= m -> credit_ready m c -> (0 < fuel)%nat ->
  acceptable desired minA - current c <= (Z.of_nat fuel - 1) * replenishValue c ->
  exists got c', while fuel (get_body desired minA) c = Ret (got, c') /\ credit_ready m c'.
Proof.
  intros Ha. set (a := acceptable desired minA) in *.
  revert c. induction fuel as [|fuel IH]; intros c (Hr & Hc & Hm & H0 & Ho) Hf Hlt; [lia|].
  cbn [while]. unfold get_body at 2, take_credit. fold a.
  destruct (Z.ltb_spec (current c) a) as [Hw|Hok]; rewrite bind_ret.
  - apply IH; [|nia|].
    + unfold credit_ready, replenish. cbn [current max replenishValue].
      rewrite i64_small by (unfold MinInt64 in *; lia).
      unfold CREDIT_NO_LIMIT in *. destruct (Z.eqb_spec (max c) 0); simpl negb; cbv iota.
      * rewrite andb_false_l. split_and!; lia.
      * rewrite andb_true_l. destruct (Z.ltb_spec (max c) (current c + replenishValue c)); split_and!; lia.
    + unfold replenish. cbn [current max replenishValue].
      rewrite i64_small by (unfold MinInt64 in *; lia).
      unfold CREDIT_NO_LIMIT in *. destruct (Z.eqb_spec (max c) 0); simpl negb; cbv iota.
      * rewrite andb_false_l. lia.
      * rewrite andb_true_l. destruct (Z.ltb_spec (max c) (current c + replenishValue c)); [|lia].
        assert (0 < fuel)%nat by nia. nia.
  - eexists _, _. split; [reflexivity|]. unfold credit_ready. cbn [current max replenishValue].
    pose proof (acceptable_le desired minA). fold a in H.
    destruct (Z.leb_spec desired (current c)); rewrite i64_small by (unfold MinInt64 in *; lia);
      split_and!; try done; lia.
Qed.

#[export] Instance Credit_laws : CreditLaws Credit credit_ready.
Proof.
  split.
  - intros d m c got c' Hg. unfold GetCredit, Credit_GetCredit in Hg.
    eapply (while_rule _ (fun _ => True) (fun r => acceptable d m <= r.1 <= d)) in Hg; [done|done| |done].
    intros c1 r1 _. unfold get_body, take_credit.
    destruct (Z.ltb_spec (current c1) (acceptable d m)) as [|Hok]; [done|]. intros [= <-]. simpl.
    pose proof (acceptable_le d m). destruct (Z.leb_spec d (current c1)); lia.
  - intros m d mA c Ha Hr. unfold GetCredit, Credit_GetCredit. apply get_comes; [done|done|unfold get_fuel; lia|].
    destruct Hr as (Hr & _). unfold get_fuel. set (a := acceptable d mA) in *.
    pose proof (Z.div_mod (a - current c) (replenishValue c) ltac:(lia)).
    pose proof (Z.mod_pos_bound (a - current c) (replenishValue c) Hr).
    destruct (decide (0 <= (a - current c) / replenishValue c)).
    + rewrite Nat2Z.inj_add, Z2Nat.id by done. nia.
    + rewrite Nat2Z.inj_add. replace (Z.to_nat ((a - current c) / replenishValue c)) with 0%nat by lia. nia.
Qed.

(** ** The reader *)

Section reader_facts.
Context {C : Type} `{CreditLaws C ready}.

Definition reader_wf (cr : CreditReader C) : Prop :=
  n cr = Z.of_nat (length (b cr)) /\ 0 <= r cr <= n cr /\ 0 <= minC cr.

(** A read of an open reader with something left makes progress and gives the
    bytes at the read pointer. *)
Lemma Read_progress m lenp (cr : CreditReader C) :
  reader_wf cr -> closed cr = false -> ready m (cc cr) ->
  0 < lenp -> Z.min lenp (n cr) <= m -> r cr < n cr ->
  exists cr' k, Read lenp cr = Ret (cr', take k (drop (Z.to_nat (r cr)) (b cr)), None) /\
    (0 < k)%nat /\ r cr' = r cr + Z.of_nat k /\ r cr' <= n cr /\ Z.of_nat k <= lenp /\
    b cr' = b cr /\ n cr' = n cr /\ minC cr' = minC cr /\ closed cr' = false /\ ready m (cc cr').
Proof.
  intros (Hn & Hr & Hm) Hcl Hrd Hl Hlm Hlt. unfold Read. rewrite Hcl.
  destruct (Z.leb_spec (n cr - r cr) 0); [lia|]. destruct (Z.eqb_spec lenp 0); [lia|].
  set (d := if n cr - r cr <? lenp then n cr - r cr else lenp).
  assert (d = Z.min (n cr - r cr) lenp) as Hd
    by (unfold d; destruct (Z.ltb_spec (n cr - r cr) lenp); lia).
  pose proof (acceptable_pos d (minC cr) ltac:(lia) Hm) as Hp.
  pose proof (acceptable_le d (minC cr)) as Ha.
  destruct (grant_comes m d (minC cr) (cc cr)) as (got & c' & Hg & Hrd'); [lia|done|].
  cbv zeta. rewrite Hg, bind_ret. apply grant_bounds in Hg.
  destruct (Z.eqb_spec got 0); [lia|]. unfold slice.
  rewrite !(proj2 (Z.leb_le _ _)) by lia. simpl andb. cbv iota. rewrite bind_ret.
  eexists _, (Z.to_nat got). split.
  { do 3 f_equal. rewrite take_take. f_equal. lia. }
  cbn [r b n minC closed cc]. split_and!; try done; lia.
Qed.

Lemma read_all_from m lenp (cr : CreditReader C) acc fuel :
  reader_wf cr -> closed cr = false -> ready m (cc cr) ->
  0 < lenp -> Z.min lenp (n cr) <= m -> n cr - r cr < Z.of_nat fuel ->
  exists cr', while fuel (read_all_body lenp) (cr, acc) =
    Ret (cr', acc ++ drop (Z.to_nat (r cr)) (b cr)) /\ r cr' = n cr /\ closed cr' = false.
Proof.
  revert cr acc. induction fuel as [|fuel IH]; intros cr acc Hwf Hcl Hrd Hl Hlm Hf;
    pose proof Hwf as (Hn & Hr & Hm); [lia|].
  cbn [while]. unfold read_all_body at 2.
  destruct (decide (r cr < n cr)) as [Hlt|Hge].
  - destruct (Read_progress m lenp cr Hwf Hcl Hrd Hl Hlm Hlt)
      as (cr' & k & -> & Hk & Hr' & Hrn & _ & Hb & Hn' & Hm' & Hcl' & Hrd').
    rewrite !bind_ret. destruct (IH cr' (acc ++ take k (drop (Z.to_nat (r cr)) (b cr))))
      as (cr2 & -> & Hr2 & Hcl2); [split_and!; rewrite ?Hb, ?Hn', ?Hm'; lia|done|done|done|rewrite Hn'; lia|lia|].
    exists cr2. split_and!; [|lia|done]. rewrite <- app_assoc, Hb. do 3 f_equal.
    rewrite Hr'. replace (Z.to_nat (r cr + Z.of_nat k)) with (Z.to_nat (r cr) + k)%nat by lia.
    by rewrite <- drop_drop, take_drop.
  - unfold Read. rewrite Hcl. rewrite (proj2 (Z.leb_le _ _)) by lia. rewrite !bind_ret.
    exists cr. split_and!; [|lia|done]. by rewrite drop_ge by lia.
Qed.

(** reading an open reader with buffers of any positive size until the end
    of file returns exactly the bytes that are left, whatever the credit
    controller grants as long as it keeps its promises; no byte is lost,
    repeated or reordered, and the reads terminate. *)
Theorem credit_reader_reads_all m lenp (cr : CreditReader C) :
  reader_wf cr -> closed cr = false -> ready m (cc cr) ->
  0 < lenp -> Z.min lenp (n cr) <= m ->
  exists cr', read_all lenp cr = Ret (cr', drop (Z.to_nat (r cr)) (b cr)) /\
    r cr' = n cr /\ closed cr' = false.
Proof.
  intros Hwf Hcl Hrd Hl Hlm. unfold read_all.
  apply (read_all_from m lenp cr []); try done. destruct Hwf as (? & ? & ?). lia.
Qed.

(** rewinding a reader, even one closed by the HTTP transport, makes a retry
    send the whole buffer again; a reader that is closed and not rewound gives
    no bytes and no end of file. *)
Theorem credit_reader_rewind m lenp (cr : CreditReader C) :
  reader_wf cr -> ready m (cc cr) -> 0 < lenp -> Z.min lenp (n cr) <= m ->
  (exists cr', read_all lenp (Rewind cr) = Ret (cr', b cr) /\ r cr' = n cr) /\
  Read lenp (Close cr) = Ret (Close cr, [], None) /\ closed (Reuse (minC cr) (b cr) (Close cr)) = true.
Proof.
  intros (Hn & Hr & Hm) Hrd Hl Hlm. split; [|done]. unfold read_all.
  destruct (read_all_from m lenp (Rewind cr) [] (S (S (length (b (Rewind cr))))))
    as (cr' & Hw & Hr' & _); [split_and!; simpl; lia|done|done|done|done|simpl; lia|].
  exists cr'. split; [exact Hw|exact Hr'].
Qed.

(** [Seek] leaves the reader with its read pointer inside the buffer, and
    relative to the end it positions one byte before where [io.Seeker] does:
    offset 0 from the end is the last byte, and the end itself is refused. *)
Theorem credit_reader_seek_end (cr : CreditReader C) offset :
  reader_wf cr -> closed cr = false -> 0 < n cr <= MaxInt64 -> MinInt64 < offset <= 0 ->
  (- n cr < offset ->
   exists cr', Seek offset SeekEnd cr = (cr', inr (n cr - 1 + offset)) /\ r cr' = n cr - 1 + offset /\
     reader_wf cr') /\
  Seek (n cr) SeekStart cr = (cr, inl ErrOffset) /\
  (offset <= - n cr -> Seek offset SeekEnd cr = (cr, inl ErrOffset)).
Proof.
  intros (Hn & Hr & Hm) Hcl Hn0 Ho. unfold Seek, SeekEnd, SeekStart, SeekCurrent, MinInt64, MaxInt64 in *.
  simpl Z.eqb. cbv iota. rewrite Hcl. split_and!.
  - intros Hlo. rewrite i64_small by (unfold MinInt64, MaxInt64; lia).
    rewrite (proj2 (Z.ltb_ge _ _)) by lia. rewrite (proj2 (Z.leb_gt _ _)) by lia. simpl orb.
    eexists. split; [reflexivity|]. split; [done|]. unfold reader_wf. simpl. lia.
  - rewrite (proj2 (Z.leb_le (n cr) (n cr))) by lia. by rewrite orb_true_r.
  - intros Hlo. destruct (decide (- 2 ^ 63 <= n cr - 1 + offset)) as [|].
    + rewrite i64_small by (unfold MinInt64, MaxInt64; lia).
      by rewrite (proj2 (Z.ltb_lt _ _)) by lia.
    + exfalso. lia.
Qed.
End reader_facts.

(** ** Witnesses *)

Definition sample_credit : Credit := NewCredit 5 12 1000000000.
Definition sample_reader : CreditReader Credit := NewCreditReader sample_credit 2 (bs "hello, world").

Lemma sample_ready : credit_ready 8 sample_credit.
Proof. unfold credit_ready. split_and!; vm_compute; (done || by right). Qed.

Definition sample_uses : list use :=
  [Grant 4 0 4; Grant 3 1 1; Replenish; Replenish; Replenish; Grant 9 3 9].
Lemma credit_conservation_witness :
  exists c', uses sample_uses sample_credit = Some c'
    /\ wf c' /\ 14 <= 12 + 5 * 3.
Proof.
  destruct (uses sample_uses sample_credit) as [c'|] eqn:E; [|by vm_compute in E].
  destruct (credit_conservation sample_uses sample_credit c') as (Hw & _ & _ & _ & Hg); [| | |exact E|].
  - unfold wf. split_and!; vm_compute; (done || right; done).
  - repeat constructor; vm_compute; done.
  - vm_compute; done.
  - exists c'. split; [done|]. split; [done|]. by apply Hg.
Defined.

Lemma credit_reader_reads_all_witness :
  exists cr', read_all 8 sample_reader = Ret (cr', bs "hello, world").
Proof.
  destruct (credit_reader_reads_all 8 8 sample_reader) as (cr' & H & _);
    [by unfold reader_wf; vm_compute|done|exact sample_ready|lia|vm_compute; done|].
  exists cr'. exact H.
Defined.

Lemma credit_reader_rewind_witness :
  exists cr', read_all 8 (Rewind (Close sample_reader)) = Ret (cr', bs "hello, world").
Proof.
  destruct (credit_reader_rewind 8 8 (Close sample_reader)) as ((cr' & H & _) & _);
    [by unfold reader_wf; vm_compute|exact sample_ready|lia|vm_compute; done|].
  exists cr'. exact H.
Defined.

Lemma credit_reader_seek_end_witness :
  exists cr', Seek 0 SeekEnd sample_reader = (cr', inr 11) /\ n sample_reader = 12.
Proof.
  destruct (credit_reader_seek_end sample_reader 0) as ((cr' & H & _) & _);
    [by unfold reader_wf; vm_compute|done|vm_compute; done|vm_compute; done|vm_compute; done|].
  exists cr'. split; [exact H|reflexivity].
Defined.
End RateController.
