(* ===== verification/CreditPace.v ===== *)
(** The goroutine that replenishes a credit (lsvmi/rate_controller.go): its loop on
    the clock, the users of the credit and its end, and the rate that comes of it.

    The goroutine looks at the context, sleeps until the time of the next
    replenishment if that has not passed, and replenishes; the users draw credit
    in between.  A step of any of them is an [event]. *)

From Stdlib Require Import ZArith Lia.
From stdpp Require Import base tactics numbers list.
From S2P Require Import Prelude GoTime RateController.
Local Open Scope Z_scope.

Module CreditPace.
Import RateController.

(** Where the goroutine is: at the top of the loop, in [time.Sleep(pause)] since
    [from], about to replenish, returned. *)
Inductive phase := Top | Asleep (from : Time) (pause : Z) | Due | Returned.

Record Replenisher := mkReplenisher {
  credit : Credit;
  nextReplenishTime : Time;
  where_ : phase;
  cancelled : bool
}.

Definition startReplenish (now : Time) (c : Credit) : Replenisher :=
  mkReplenisher (mkCredit (replenishValue c) (max c) (replenishValue c) (replenishInt c)) (Add now (replenishInt c)) Top false.

Inductive event :=
| Loop (now : Time)
| Wake (now : Time)
| ReplenishNow
| Get (desired minAcceptable : Z)
| StopReplenish.

Definition exec (e : event) (r : Replenisher) : option Replenisher :=
  match e, where_ r with
  | Loop now, Top =>
    Some (if cancelled r then mkReplenisher (credit r) (nextReplenishTime r) Returned true
          else
            let pause := Sub (nextReplenishTime r) now in
            mkReplenisher (credit r) (nextReplenishTime r) (if 0 <? pause then Asleep now pause else Due) false)
  | Wake now, Asleep from pause =>
    if pause <=? Sub now from then Some (mkReplenisher (credit r) (nextReplenishTime r) Due (cancelled r)) else None
  | ReplenishNow, Due =>
    Some (mkReplenisher (replenish (credit r)) (Add (nextReplenishTime r) (replenishInt (credit r))) Top (cancelled r))
  | Get d m, _ => '(_, c) ← take_credit d m (credit r); Some (mkReplenisher c (nextReplenishTime r) (where_ r) (cancelled r))
  | StopReplenish, _ => Some (mkReplenisher (credit r) (nextReplenishTime r) (where_ r) true)
  | _, _ => None
  end.

(** The clock after an event, and what the event does to the credit. *)
Definition clock (e : event) (t : Z) : Z := match e with Loop now | Wake now => wall now | _ => t end.
Definition use_of (e : event) (r : Replenisher) : list use :=
  match e with
  | ReplenishNow => [Replenish]
  | Get d m => match take_credit d m (credit r) with Some (got, _) => [Grant d m got] | None => [] end
  | _ => []
  end.

Section run.
Variable off : Z.

(** One clock that does not go backwards, requests as [int] values. *)
Definition event_ok (e : event) (t : Z) : Prop :=
  match e with
  | Loop now | Wake now => consistent off now /\ t <= wall now
  | Get d m => 0 <= d <= MaxInt64 /\ 0 <= m
  | _ => True
  end.

(** The states from the start at [start] on, with the latest clock reading and what
    was done with the credit. *)
Inductive run (start : Time) (c : Credit) : Replenisher -> Z -> list use -> Prop :=
| run_start : run start c (startReplenish start c) (wall start) []
| run_event e r r' t us :
    run start c r t us -> event_ok e t -> exec e r = Some r' -> run start c r' (clock e t) (us ++ use_of e r).

(** ** The pace *)

Lemma uses_app us vs c c' : uses us c = Some c' -> uses (us ++ vs) c = uses vs c'.
Proof.
  revert c. induction us as [|[|d m g] us IH]; intros c H; simpl in *; [by injection H as ->|by apply IH|].
  destruct (take_credit d m c) as [[got c1]|]; [|done]. destruct (got =? g); [by apply IH|done].
Qed.

Lemma replenishments_app us vs : replenishments (us ++ vs) = replenishments us + replenishments vs.
Proof. unfold replenishments. induction us as [|[|]]; simpl; lia. Qed.

(** After [k] replenishments the next is due at the start plus [k + 1] intervals,
    and the clock has passed [k] of them. *)
Record paced (start : Time) (c : Credit) (r : Replenisher) (t : Z) (us : list use) : Prop := mkPaced {
  p_uses : uses us (credit (startReplenish start c)) = Some (credit r);
  p_asks : asks_ok us;
  p_int : replenishInt (credit r) = replenishInt c;
  p_next : consistent off (nextReplenishTime r) /\ wall (nextReplenishTime r) = wall start + (replenishments us + 1) * replenishInt c;
  p_time : replenishments us * replenishInt c <= t - wall start;
  p_phase :
    match where_ r with
    | Asleep from pause => consistent off from /\ wall from <= t /\ 0 < pause /\ pause = wall (nextReplenishTime r) - wall from /\
        replenishments us * replenishInt c <= wall from - wall start
    | Due => wall (nextReplenishTime r) <= t
    | _ => True
    end
}.

Lemma saturate_small z : MinInt64 <= z <= MaxInt64 -> saturate z = z.
Proof. unfold saturate. lia. Qed.

Lemma run_paced start c r t us :
  consistent off start -> 0 < replenishInt c <= MaxInt64 -> run start c r t us -> paced start c r t us.
Proof.
  intros Hs HT. induction 1 as [|e r r' t us _ [Hu Ha Hi [Hn Hnw] Ht Hp] Hok He].
  { split; simpl; try done; [constructor|split; [auto with go|unfold replenishments; simpl; lia]|unfold replenishments; simpl; lia]. }
  destruct e as [now|now| |d m|]; simpl in He, Hok; cbn [clock use_of]; rewrite ?app_nil_r.
  - destruct (where_ r); try done. destruct Hok as [Hc Hle]. injection He as <-.
    destruct (cancelled r); split; simpl; try done; try lia.
    rewrite (Sub_wall off) by done. destruct (Z.ltb_spec 0 (saturate (wall (nextReplenishTime r) - wall now))) as [Hpos|Hneg].
    + rewrite saturate_small in * by (unfold saturate, MinInt64, MaxInt64 in *; nia). split_and!; try done; lia.
    + unfold saturate, MinInt64, MaxInt64 in *. lia.
  - destruct (where_ r) as [|from pause| |]; try done. destruct Hok as [Hc Hle]. destruct Hp as (Hf & Hft & Hpos & Hpause & _).
    destruct (Z.leb_spec pause (Sub now from)) as [Hw|]; [|done]. injection He as <-. split; simpl; try done; try lia.
    rewrite (Sub_wall off) in Hw by done. unfold saturate, MinInt64, MaxInt64 in *. lia.
  - destruct (where_ r); try done. injection He as <-. split; simpl; try done.
    + by rewrite (uses_app us _ _ _ Hu).
    + by apply Forall_app; split; [|repeat constructor].
    + rewrite replenishments_app, Hi, Hnw. change (replenishments [Replenish]) with 1. simpl. split; [auto with go|lia].
    + rewrite replenishments_app. change (replenishments [Replenish]) with 1. simpl in *. lia.
  - destruct (take_credit d m (credit r)) as [[got c1]|] eqn:Et; [|done]. simpl in He. injection He as <-.
    assert (replenishments (us ++ [Grant d m got]) = replenishments us) as Hk by (rewrite replenishments_app; change (replenishments [Grant d m got]) with 0; lia).
    split; simpl; rewrite ?Hk; try done.
    + rewrite (uses_app us _ _ _ Hu). simpl. by rewrite Et, Z.eqb_refl.
    + apply Forall_app; split; [done|]. by apply Forall_singleton.
    + unfold take_credit in Et. destruct (_ <? _); [done|]. by injection Et as _ <-.
  - injection He as <-. split; simpl; done.
Qed.

(** [StopReplenishWait]: once cancelled the goroutine can return, after the sleep
    that it may be in and one more replenishment. *)
Lemma stop_returns start c r t us :
  consistent off start -> 0 < replenishInt c <= MaxInt64 -> run start c r t us -> cancelled r = true ->
  exists r' t' us', run start c r' t' us' /\ where_ r' = Returned.
Proof.
  intros Hs HT Hr Hc. pose proof (p_phase _ _ _ _ _ (run_paced start c r t us Hs HT Hr)) as Hp.
  set (now z := mkTime (Z.max t z) None).
  assert (forall r t us z, run start c r t us -> cancelled r = true -> where_ r = Top -> t <= z ->
    exists r' t' us', run start c r' t' us' /\ where_ r' = Returned) as Htop.
  { intros r0 t0 us0 z Hr0 Hc0 Hw Hz. eexists _, _, _. split.
    - apply (run_event _ _ (Loop (mkTime z None)) r0 _ _ _ Hr0); [by split|]. simpl. rewrite Hw, Hc0. reflexivity.
    - done. }
  assert (forall r t us, run start c r t us -> cancelled r = true -> where_ r = Due ->
    exists r' t' us', run start c r' t' us' /\ where_ r' = Returned) as Hdue.
  { intros r0 t0 us0 Hr0 Hc0 Hw. eapply (Htop _ _ _ t0).
    - apply (run_event _ _ ReplenishNow r0 _ _ _ Hr0 I). simpl. rewrite Hw. reflexivity.
    - done.
    - done.
    - simpl. lia. }
  destruct (where_ r) as [|from pause| |] eqn:Hw; [by apply (Htop r t us t); try lia| |by apply (Hdue r t us)|by eexists _, _, _].
  destruct Hp as (Hf & Hft & Hpos & Hpause & _). eapply Hdue.
  - apply (run_event _ _ (Wake (now (wall from + pause))) r _ _ _ Hr); [split; [done|simpl; lia]|]. simpl. rewrite Hw.
    rewrite (proj2 (Z.leb_le _ _)); [reflexivity|]. rewrite (Sub_wall off) by done. simpl.
    pose proof (run_paced start c r t us Hs HT Hr) as [_ _ _ [_ Hnw] _ Hp']. rewrite Hw in Hp'. destruct Hp' as (_ & _ & _ & _ & Hlt).
    unfold saturate, MinInt64, MaxInt64 in *. nia.
  - done.
  - done.
Qed.

(** C19: the rate.  Whatever the users ask for and however late the goroutine is woken,
    up to any time [t] they get at most N for every interval T that has begun since
    the start, the first one included: N (T + t - t0) / T.  When the goroutine has
    caught up and sleeps, the credit given out and left is exactly N for each of
    them, if there is no cap. *)
Theorem credit_rate start c r t us :
  consistent off start -> 0 < replenishInt c <= MaxInt64 -> 0 <= replenishValue c ->
  (max c = CREDIT_NO_LIMIT \/ replenishValue c <= max c) ->
  replenishValue c * (replenishInt c + (t - wall start)) <= MaxInt64 * replenishInt c ->
  run start c r t us ->
  granted us * replenishInt c <= replenishValue c * (replenishInt c + (t - wall start)) /\
  0 <= current (credit r) /\ (max c <> CREDIT_NO_LIMIT -> current (credit r) <= max c) /\
  (max c = CREDIT_NO_LIMIT -> forall from pause, where_ r = Asleep from pause ->
   granted us + current (credit r) = replenishValue c * (1 + (wall from - wall start) / replenishInt c)).
Proof.
  intros Hs HT HN Hmax Ho Hr. destruct (run_paced start c r t us Hs HT Hr) as [Hu Ha Hi [Hn Hnw] Ht Hp].
  pose proof (replenishments_nonneg us) as Hk. set (N := replenishValue c) in *. set (T := replenishInt c) in *. set (k := replenishments us) in *.
  assert (N * (k + 1) <= MaxInt64) as Hno by nia.
  destruct (uses_conserve us (credit (startReplenish start c)) (credit r)) as (Hwf & Hm & Hle & Heq); [|done|simpl; fold N k; lia|done|].
  { split; simpl; fold N; [nia|]. split; [done|]. destruct Hmax; [by left|right; lia]. }
  destruct Hwf as (Hc & _ & Hcap). simpl in Hm, Hle, Heq. fold N k in Hle, Heq. split_and!.
  - nia.
  - lia.
  - intros Hne. rewrite Hm in Hcap. destruct Hcap as [?|[_ ?]]; [done|lia].
  - intros Hno_cap from pause Hph. rewrite Hph in Hp. destruct Hp as (_ & _ & Hpos & -> & Hfrom). fold T in Hnw, Hfrom. fold k in Hfrom.
    assert ((wall from - wall start) / T = k) as ->; [|rewrite Heq by done; lia].
    symmetry. apply (Z.div_unique _ _ _ (wall from - wall start - k * T)); lia.
Qed.
End run.

Lemma granted_nonneg us c c' : wf c -> asks_ok us -> uses us c = Some c' -> replenishValue c = 0 -> current c = 0 -> max c = CREDIT_NO_LIMIT ->
  granted us = 0 /\ current c' = 0.
Proof.
  revert c. induction us as [|u us IH]; intros c Hwf Ha Hu HN Hc Hm; [by injection Hu as <-|].
  apply Forall_cons in Ha as [Hu0 Ha]. destruct u as [|d m g]; simpl in Hu.
  - destruct (replenish_spec c Hwf ltac:(rewrite HN, Hc; done)) as (Hwf' & _ & Hcur & Hm' & HN'). apply (IH (replenish c)); try done; by rewrite (Hcur Hm), Hc, HN.
  - destruct (take_credit d m c) as [[got c1]|] eqn:Et; [|done]. destruct (Z.eqb_spec got g) as [->|]; [|done].
    destruct (take_credit_spec d m c g c1 Et ltac:(apply Hwf) ltac:(lia) ltac:(lia)) as (H0 & _ & Hg & ->).
    assert (g = 0) as -> by lia. destruct (IH (mkCredit (current c - 0) (max c) (replenishValue c) (replenishInt c))) as [Hg' Hc']; try done.
    + split; [simpl; rewrite Hc; done|]. split; [simpl; lia|by left].
    + simpl. by rewrite Hc.
Qed.

(** a rate of nothing, which the configuration accepts ("0"): nobody ever gets
    credit, however long the goroutine runs. *)
Theorem credit_zero_grants_nothing off start c r t us :
  consistent off start -> 0 < replenishInt c <= MaxInt64 -> replenishValue c = 0 -> max c = CREDIT_NO_LIMIT ->
  run off start c r t us ->
  granted us = 0 /\ forall d m, 0 < d <= MaxInt64 -> 0 <= m -> exec (Get d m) r = None.
Proof.
  intros Hs HT HN Hmax Hr. destruct (run_paced off start c r t us Hs HT Hr) as [Hu Ha _ _ _ _].
  destruct (granted_nonneg us (credit (startReplenish start c)) (credit r)) as [Hg Hc]; try done.
  { split; simpl; [rewrite HN; done|]. split; [lia|by left]. }
  split; [done|]. intros d m Hd Hm. assert (take_credit d m (credit r) = None) as Ht.
  { unfold take_credit. rewrite Hc. pose proof (acceptable_pos d m ltac:(lia) Hm). by rewrite (proj2 (Z.ltb_lt _ _)). }
  simpl. by rewrite Ht.
Qed.

Lemma credit_zero_grants_nothing_witness : forall d, 0 < d <= MaxInt64 -> exec (Get d 128) (startReplenish zeroTime (NewCredit 0 0 Second)) = None.
Proof.
  intros d Hd. destruct (credit_zero_grants_nothing 0 zeroTime (NewCredit 0 0 Second) _ _ _ (zeroTime_consistent 0)
    ltac:(split; [done|vm_compute; discriminate]) eq_refl eq_refl (run_start 0 _ _)) as [_ H]. by apply H.
Defined.

(** Two requests of 100 of a credit of 125 per second. *)
Definition sample_credit : Credit := NewCredit 125 0 Second.
Definition sample_events : list event :=
  [Loop zeroTime; Get 100 0; Wake (Add zeroTime Second); ReplenishNow; Get 100 0; Loop (Add zeroTime Second)].
Fixpoint run_all (es : list event) (st : Replenisher * Z * list use) : option (Replenisher * Z * list use) :=
  match es with
  | [] => Some st
  | e :: es => let '(r, t, us) := st in r' ← exec e r; run_all es (r', clock e t, us ++ use_of e r)
  end.

Lemma run_all_run off start c es : forall r t us r' t' us',
  run off start c r t us -> run_all es (r, t, us) = Some (r', t', us') ->
  (fix ok es r t := match es with [] => True | e :: es => event_ok off e t /\ match exec e r with Some r => ok es r (clock e t) | None => True end end) es r t ->
  run off start c r' t' us'.
Proof.
  induction es as [|e es IH]; intros r t us r' t' us' Hr H Hok; simpl in *; [by simplify_eq|].
  destruct Hok as [He Hok]. destruct (exec e r) as [r1|] eqn:E; [|done]. simpl in H. eapply IH; [by eapply run_event|exact H|done].
Qed.

Definition sample_start : Replenisher * Z * list use := (startReplenish zeroTime sample_credit, wall zeroTime, []).
Definition sample_end : Replenisher * Z * list use := default sample_start (run_all sample_events sample_start).

Lemma sample_pace : run 0 zeroTime sample_credit sample_end.1.1 (wall zeroTime + Second) sample_end.2.
Proof.
  assert (run_all sample_events sample_start = Some (sample_end.1.1, wall zeroTime + Second, sample_end.2)) as E by (vm_compute; reflexivity).
  eapply run_all_run; [apply run_start|exact E|]. vm_compute. repeat split; discriminate.
Qed.

Lemma credit_rate_witness :
  granted sample_end.2 = 200 /\ granted sample_end.2 * Second <= 125 * (Second + Second) /\
  0 <= current (credit sample_end.1.1).
Proof.
  destruct (credit_rate 0 zeroTime sample_credit sample_end.1.1 (wall zeroTime + Second) sample_end.2) as (H1 & H2 & _ & _).
  - apply zeroTime_consistent.
  - vm_compute. split; [reflexivity|discriminate].
  - vm_compute. discriminate.
  - by left.
  - vm_compute. discriminate.
  - exact sample_pace.
  - split; [vm_compute; reflexivity|]. split; [|exact H2].
    replace (wall zeroTime + Second - wall zeroTime) with Second in H1 by lia. exact H1.
Defined.
End CreditPace.
