(* ===== verification/Links.v ===== *)
(** Doubly linked lists through pointers in the objects themselves.

    The memory maps addresses to objects of a type [A], which have a [prev] and
    a [next] pointer (nil is [None]).  What it means that objects are linked in
    the order of a sequence, and what writes to a pointer do to that; the
    endpoint list and the list of process data are instances. *)

From Stdlib Require Import ZArith Lia.
From stdpp Require Import base tactics numbers gmap list.

Definition first_or (xs : list nat) (o : option nat) : option nat :=
  match xs with [] => o | p :: _ => Some p end.
Definition last_or (xs : list nat) (o : option nat) : option nat :=
  match last xs with Some p => Some p | None => o end.

Lemma last_or_snoc xs p o : last_or (xs ++ [p]) o = Some p.
Proof. unfold last_or. by rewrite last_snoc. Qed.

Lemma last_or_cons p xs o : last_or (p :: xs) o = last_or xs (Some p).
Proof.
  unfold last_or. destruct xs as [|q xs]; [done|]. rewrite last_cons_cons.
  destruct (last (q :: xs)) eqn:E; [done|]. by apply last_None in E.
Qed.

Lemma first_or_app xs ys o : first_or (xs ++ ys) o = first_or xs (first_or ys o).
Proof. by destruct xs. Qed.

Lemma last_or_app xs ys o : last_or (xs ++ ys) o = last_or ys (last_or xs o).
Proof.
  unfold last_or. rewrite last_app. destruct (last ys) eqn:E; [done|]. done.
Qed.

Section links.
Context {A : Type} {prev next : A -> option nat}.
Implicit Types (m : gmap nat A) (xs ys : list nat) (pr nx : option nat) (p q : nat) (e : A).

(** [links m pr xs nx]: the objects [xs] are linked one to the next, from the
    previous [pr] to the next [nx]. *)
Fixpoint links (m : gmap nat A) (pr : option nat) (xs : list nat) (nx : option nat) : Prop :=
  match xs with
  | [] => True
  | p :: xs' =>
    (exists e, m !! p = Some e /\ prev e = pr /\
               next e = match xs' with [] => nx | q :: _ => Some q end) /\
    links m (Some p) xs' nx
  end.

Lemma links_app m pr xs ys nx :
  links m pr (xs ++ ys) nx <-> links m pr xs (first_or ys nx) /\ links m (last_or xs pr) ys nx.
Proof.
  revert pr. induction xs as [|p xs IH]; intros pr; simpl; [tauto|].
  rewrite IH, last_or_cons.
  assert (match xs ++ ys with [] => nx | q :: _ => Some q end =
          match xs with [] => first_or ys nx | q :: _ => Some q end) as -> by (by destruct xs).
  tauto.
Qed.

Lemma links_frame m pr xs nx p e :
  p ∉ xs -> links m pr xs nx -> links (<[p:=e]> m) pr xs nx.
Proof.
  revert pr. induction xs as [|q xs IH]; intros pr Hp; simpl; [done|].
  apply not_elem_of_cons in Hp as [Hne Hp]. intros [He Hl].
  rewrite lookup_insert_ne by done. split; [done|by apply IH].
Qed.

(** Only the pointers matter. *)
Lemma links_update m pr xs nx p e e' :
  m !! p = Some e -> prev e' = prev e -> next e' = next e -> links m pr xs nx -> links (<[p:=e']> m) pr xs nx.
Proof.
  intros He Hp Hn. revert pr. induction xs as [|q xs IH]; intros pr; simpl; [done|].
  intros [(f & Hf & Hpr & Hnx) Hl]. split; [|by apply IH]. destruct (decide (q = p)) as [->|Hne].
  - exists e'. rewrite lookup_insert_eq. split_and!; congruence.
  - exists f. by rewrite lookup_insert_ne.
Qed.

(** Redirecting the pointer out of the last object, or into the first. *)
Lemma links_set_next m pr xs q e e' nx nx' :
  q ∉ xs -> m !! q = Some e -> prev e' = prev e -> next e' = nx' -> links m pr (xs ++ [q]) nx ->
  links (<[q := e']> m) pr (xs ++ [q]) nx'.
Proof.
  intros Hq He Hp' Hn'. rewrite !links_app. simpl. intros [Hl ((e0 & He0 & Hp & _) & _)].
  split; [by apply links_frame|]. split; [|done].
  exists e'. rewrite lookup_insert_eq. split_and!; congruence.
Qed.

Lemma links_set_prev m pr xs q e e' nx pr' :
  q ∉ xs -> m !! q = Some e -> prev e' = pr' -> next e' = next e -> links m pr (q :: xs) nx ->
  links (<[q := e']> m) pr' (q :: xs) nx.
Proof.
  intros Hq He Hp' Hn' [(e0 & He0 & _ & Hn) Hl]. split; [|by apply links_frame].
  exists e'. rewrite lookup_insert_eq. split_and!; congruence.
Qed.

Lemma links_lookup m pr xs nx p : links m pr xs nx -> p ∈ xs -> is_Some (m !! p).
Proof.
  revert pr. induction xs as [|q xs IH]; intros pr Hl Hp; [set_solver|].
  destruct Hl as [(e & He & _) Hl]. apply elem_of_cons in Hp as [->|Hp]; [by eexists|by eapply IH].
Qed.
End links.
Arguments links {A} prev next m pr xs nx.
