(* ===== verification/EndpointList.v ===== *)
(** The doubly linked list of endpoints (src/lsvmi/http_endpoint_pool.go).

    Endpoints are objects linked through their own [prev] and [next] pointers;
    the memory maps addresses to endpoints.  The operations are written with
    the pointer updates of the code, in its order, and refined to operations on
    the sequence of addresses that the list represents. *)

From Stdlib Require Import ZArith Lia.
From stdpp Require Import base tactics numbers strings gmap list.
From S2P Require Import Prelude GoTime Links.

Module EndpointList.

Record HttpEndpoint := mkEndpoint {
  url : bytes;
  markUnhealthyThreshold : Z;
  healthy : bool;
  numErrors : Z;
  errorTs : Time;
  prev : option nat;
  next : option nat
}.

Definition set_prev (q : option nat) (e : HttpEndpoint) : HttpEndpoint :=
  mkEndpoint (url e) (markUnhealthyThreshold e) (healthy e) (numErrors e) (errorTs e) q (next e).
Definition set_next (q : option nat) (e : HttpEndpoint) : HttpEndpoint :=
  mkEndpoint (url e) (markUnhealthyThreshold e) (healthy e) (numErrors e) (errorTs e) (prev e) q.

Record HttpEndpointDoublyLinkedList := mkList { head : option nat; tail : option nat }.

Abbreviation memory := (gmap nat HttpEndpoint).

(** [p.field = v]: a nil or dangling pointer panics. *)
Definition update (p : nat) (f : HttpEndpoint -> HttpEndpoint) (m : memory) : outcome memory :=
  e ← must (m !! p); Ret (<[p := f e]> m).

Definition Insert (ep : nat) (after : option nat) (l : HttpEndpointDoublyLinkedList) (m : memory)
    : outcome (HttpEndpointDoublyLinkedList * memory) :=
  m ← update ep (set_prev after) m;
  '(l, m) ← match after with
            | Some a =>
              ae ← must (m !! a);
              m ← update ep (set_next (next ae)) m;
              m ← update a (set_next (Some ep)) m;
              Ret (l, m)
            | None =>
              m ← update ep (set_next (head l)) m;
              Ret (mkList (Some ep) (tail l), m)
            end;
  e ← must (m !! ep);
  Ret (match next e with None => mkList (head l) (Some ep) | Some _ => l end, m).

Definition Remove (ep : nat) (l : HttpEndpointDoublyLinkedList) (m : memory)
    : outcome (HttpEndpointDoublyLinkedList * memory) :=
  e ← must (m !! ep);
  '(l, m) ← match prev e with
            | Some p => m ← update p (set_next (next e)) m; Ret (l, m)
            | None => Ret (mkList (next e) (tail l), m)
            end;
  e ← must (m !! ep);
  '(l, m) ← match next e with
            | Some n => m ← update n (set_prev (prev e)) m; Ret (l, m)
            | None => Ret (mkList (head l) (prev e), m)
            end;
  m ← update ep (set_prev None) m;
  m ← update ep (set_next None) m;
  Ret (l, m).

Definition AddToHead (ep : nat) (l : HttpEndpointDoublyLinkedList) (m : memory) :=
  Insert ep None l m.
Definition AddToTail (ep : nat) (l : HttpEndpointDoublyLinkedList) (m : memory) :=
  Insert ep (tail l) l m.

(** ** The sequence that a list represents *)

(** The pointers of the endpoints. *)
Abbreviation links := (Links.links prev next).

(** The list object represents the sequence [xs]. *)
Definition repr (m : memory) (l : HttpEndpointDoublyLinkedList) (xs : list nat) : Prop :=
  NoDup xs /\ links m None xs None /\ head l = first_or xs None /\ tail l = last_or xs None.

(** What a list operation leaves alone: everything but the links. *)
Definition payload (e : HttpEndpoint) : bytes * Z * bool * Z * Time :=
  (url e, markUnhealthyThreshold e, healthy e, numErrors e, errorTs e).
Definition same_payload (m m' : memory) : Prop := payload <$> m' = payload <$> m.

Lemma update_Ret p f m e : m !! p = Some e -> update p f m = Ret (<[p := f e]> m).
Proof. intros H. unfold update. by rewrite H. Qed.

Lemma payload_insert m m' p e e' :
  same_payload m m' -> m' !! p = Some e -> payload e' = payload e ->
  same_payload m (<[p := e']> m').
Proof.
  unfold same_payload. intros <- He Hp. rewrite fmap_insert, Hp. apply insert_id.
  by rewrite lookup_fmap, He.
Qed.

(** Adding at the tail. *)
Lemma AddToTail_correct m l xs p e :
  repr m l xs -> p ∉ xs -> m !! p = Some e ->
  exists l' m', AddToTail p l m = Ret (l', m') /\ repr m' l' (xs ++ [p]) /\ same_payload m m'.
Proof.
  intros (Hnd & Hl & Hh & Ht) Hp He. unfold AddToTail, Insert.
  rewrite (update_Ret p _ m e He), bind_ret.
  assert (NoDup (xs ++ [p])) as Hnd' 
    by (rewrite <- Permutation_cons_append; by apply NoDup_cons).
  destruct xs as [|x xs' _] using rev_ind.
  - unfold last_or in Ht. simpl in Ht, Hh. rewrite Ht. erewrite update_Ret by apply lookup_insert_eq.
    rewrite !bind_ret. cbv beta iota. rewrite lookup_insert_eq. simpl must. rewrite bind_ret. simpl. rewrite Hh.
    eexists _, _. split; [reflexivity|]. rewrite insert_insert_eq. split.
    + split_and!; [by apply NoDup_singleton| |done|done]. simpl. split; [|done].
      eexists. rewrite lookup_insert_eq. done.
    + eapply payload_insert; [done|exact He|done].
  - rewrite last_or_snoc in Ht. rewrite Ht.
    assert (x <> p) as Hxp by set_solver. assert (x ∉ xs') as Hx.
    { apply NoDup_app in Hnd as (_ & Hni & _). intros Hin. apply (Hni x Hin). set_solver. }
    pose proof Hl as Hl0. apply links_app in Hl0 as [_ [(ae & Hae & _ & Hnx) _]].
    rewrite lookup_insert_ne, Hae by done. simpl must. rewrite bind_ret.
    erewrite update_Ret by apply lookup_insert_eq. rewrite bind_ret, insert_insert_eq.
    erewrite update_Ret by (rewrite lookup_insert_ne by done; exact Hae). rewrite !bind_ret.
    set (pe := set_next (next ae) (set_prev (Some x) e)).
    rewrite lookup_insert_ne, lookup_insert_eq by done. simpl must. rewrite bind_ret.
    assert (next pe = None) as -> by (unfold pe; simpl; exact Hnx).
    eexists _, _. split; [reflexivity|]. split; [split_and!; [done| | |]|].
    + rewrite links_app. split.
      * eapply (links_set_next _ _ _ _ _ _ None); [done|by rewrite lookup_insert_ne|done|done|].
        by apply links_frame.
      * rewrite last_or_snoc. simpl. split; [|done]. exists pe.
        rewrite lookup_insert_ne, lookup_insert_eq by done. done.
    + simpl. rewrite Hh. by rewrite !first_or_app.
    + simpl. by rewrite last_or_snoc.
    + eapply payload_insert; [eapply payload_insert; [done|exact He|done]
                             |by rewrite lookup_insert_ne|done].
Qed.

(** Unlinking an endpoint from the one before it, or from the head. *)
Lemma unlink_prev m l xs ys p e :
  NoDup (xs ++ ys) -> (p ∉ xs) -> m !! p = Some e -> prev e = last_or xs None -> next e = first_or ys None ->
  links m None xs (Some p) -> links m (Some p) ys None -> head l = first_or xs (Some p) ->
  exists l1 m1,
    match prev e with
    | Some q => m ← update q (set_next (next e)) m; Ret (l, m)
    | None => Ret (mkList (next e) (tail l), m)
    end = Ret (l1, m1) /\ links m1 None xs (first_or ys None) /\
    links m1 (Some p) ys None /\ m1 !! p = Some e /\
    head l1 = first_or (xs ++ ys) None /\ tail l1 = tail l /\ same_payload m m1.
Proof.
  intros Hnd Hpx He Hpr Hnx Hlx Hly Hh. destruct xs as [|x xs' _] using rev_ind.
  { unfold last_or in Hpr. simpl in Hpr. rewrite Hpr. eexists _, _. split; [reflexivity|]. simpl.
    by split_and!. }
  rewrite last_or_snoc in Hpr. rewrite Hpr.
  assert (x ∈ xs' ++ [x]) as Hin by (rewrite elem_of_app, list_elem_of_singleton; by right).
  destruct (links_lookup _ _ _ _ x Hlx Hin) as [xe Hxe].
  rewrite (update_Ret x _ m xe Hxe), !bind_ret. eexists _, _. split; [reflexivity|].
  apply NoDup_app in Hnd as (Hn & Hd & _).
  assert (x ∉ xs').
  { apply NoDup_app in Hn as (_ & Hn & _). intros Hx. apply (Hn x Hx). by apply list_elem_of_singleton. }
  split_and!.
  - rewrite <- Hnx. by eapply links_set_next.
  - apply links_frame; [by apply Hd|done].
  - rewrite lookup_insert_ne; [done|]. by intros ->.
  - rewrite Hh, !first_or_app. by destruct xs'.
  - done.
  - by eapply payload_insert.
Qed.

(** Unlinking it from the one after it, or from the tail. *)
Lemma unlink_next m l xs ys p e :
  NoDup (xs ++ ys) -> (p ∉ ys) -> m !! p = Some e -> prev e = last_or xs None -> next e = first_or ys None ->
  links m None xs (first_or ys None) -> links m (Some p) ys None -> tail l = last_or ys (Some p) ->
  exists l2 m2,
    match next e with
    | Some q => m ← update q (set_prev (prev e)) m; Ret (l, m)
    | None => Ret (mkList (head l) (prev e), m)
    end = Ret (l2, m2) /\ links m2 None xs (first_or ys None) /\
    links m2 (last_or xs None) ys None /\ m2 !! p = Some e /\
    head l2 = head l /\ tail l2 = last_or (xs ++ ys) None /\ same_payload m m2.
Proof.
  intros Hnd Hpy He Hpr Hnx Hlx Hly Ht. rewrite Hnx. destruct ys as [|y ys'].
  { cbn [first_or]. eexists _, _. split; [reflexivity|]. rewrite app_nil_r. by split_and!. }
  assert (y ∈ y :: ys') as Hin by (apply elem_of_cons; by left).
  destruct (links_lookup _ _ _ _ y Hly Hin) as [ye Hye]. cbn [first_or].
  rewrite (update_Ret y _ m ye Hye), !bind_ret. eexists _, _. split; [reflexivity|].
  apply NoDup_app in Hnd as (_ & Hd & Hn). apply NoDup_cons in Hn as [Hy _]. split_and!.
  - apply links_frame; [|done]. intros Hx. by apply (Hd y Hx).
  - rewrite Hpr. by eapply links_set_prev.
  - rewrite lookup_insert_ne; [done|]. by intros ->.
  - done.
  - rewrite Ht, last_or_app. unfold last_or.
    destruct (last (y :: ys')) eqn:E; [done|by apply last_None in E].
  - by eapply payload_insert.
Qed.

(** Removing from anywhere. *)
Lemma Remove_correct m l xs ys p :
  repr m l (xs ++ p :: ys) ->
  exists l' m', Remove p l m = Ret (l', m') /\ repr m' l' (xs ++ ys) /\ same_payload m m'.
Proof.
  intros (Hnd & Hl & Hh & Ht). apply links_app in Hl as [Hlx [(e & He & Hpr & Hnx) Hly]].
  rewrite <- Permutation_middle in Hnd. apply NoDup_cons in Hnd as [Hni Hnd].
  rewrite elem_of_app in Hni. assert (next e = first_or ys None) as Hnx' by (rewrite Hnx; by destruct ys).
  rewrite first_or_app in Hh. rewrite last_or_app in Ht.
  rewrite last_or_cons in Ht. unfold Remove. rewrite He. simpl must. rewrite bind_ret.
  destruct (unlink_prev m l xs ys p e) as (l1 & m1 & -> & Hlx1 & Hly1 & He1 & Hh1 & Ht1 & Hs1); try done; [tauto|].
  rewrite bind_ret, He1. simpl must. rewrite bind_ret.
  destruct (unlink_next m1 l1 xs ys p e) as (l2 & m2 & -> & Hlx2 & Hly2 & He2 & Hh2 & Ht2 & Hs2);
    try done; [tauto|congruence|].
  rewrite bind_ret. erewrite update_Ret by exact He2. rewrite bind_ret.
  erewrite update_Ret by apply lookup_insert_eq. rewrite bind_ret, insert_insert_eq.
  eexists _, _. split; [reflexivity|]. split; [split_and!|].
  - done.
  - apply links_frame; [rewrite elem_of_app; tauto|]. apply links_app. by split.
  - congruence.
  - done.
  - eapply payload_insert; [|exact He2|done]. unfold same_payload in *. congruence.
Qed.

(** ** Properties *)

(** C17: on a list that represents a sequence of endpoints, [AddToTail] of an
    endpoint that is not in it represents the sequence with the endpoint
    appended, [Remove] of an endpoint of it the sequence without the endpoint;
    neither panics, both keep every link consistent in both directions and
    touch nothing but the links. *)
Theorem endpoint_list_refines m l xs ys p e :
  (repr m l (xs ++ ys) -> (p ∉ xs ++ ys) -> m !! p = Some e ->
   exists l' m', AddToTail p l m = Ret (l', m') /\ repr m' l' ((xs ++ ys) ++ [p]) /\ same_payload m m') /\
  (repr m l (xs ++ p :: ys) ->
   exists l' m', Remove p l m = Ret (l', m') /\ repr m' l' (xs ++ ys) /\ same_payload m m').
Proof. split; [intros; by eapply AddToTail_correct|apply Remove_correct]. Qed.

(** [AddToHead] on a list that is not empty leaves the old head without a
    link back to the new one, so that removing the old head afterwards takes
    the new head off the list too. *)
Theorem add_to_head_breaks_links m l q xs p e :
  repr m l (q :: xs) -> (p ∉ q :: xs) -> m !! p = Some e ->
  exists l1 m1 l2 m2, AddToHead p l m = Ret (l1, m1) /\ head l1 = Some p /\
    (exists qe, m1 !! q = Some qe /\ prev qe = None) /\
    Remove q l1 m1 = Ret (l2, m2) /\ head l2 = first_or xs None /\ head l2 <> Some p.
Proof.
  intros (Hnd & [(qe & Hqe & Hqp & Hqn) Hl] & Hh & Ht) Hp He.
  apply not_elem_of_cons in Hp as [Hpq Hp]. simpl in Hh.
  assert (next qe = first_or xs None) as Hqn' by (rewrite Hqn; by destruct xs).
  unfold AddToHead, Insert. rewrite (update_Ret p _ m e He), bind_ret.
  erewrite update_Ret by apply lookup_insert_eq. rewrite !bind_ret, insert_insert_eq, lookup_insert_eq.
  simpl must. rewrite bind_ret. cbn [next set_next]. rewrite Hh.
  set (pe := set_next (Some q) (set_prev None e)). set (m1 := <[p:=pe]> m).
  assert (m1 !! q = Some qe) as Hq1 by (unfold m1; by rewrite lookup_insert_ne).
  assert (exists l2 m2, Remove q (mkList (Some p) (tail l)) m1 = Ret (l2, m2) /\
    head l2 = first_or xs None) as (l2 & m2 & Hrm & Hh2).
  { unfold Remove. rewrite Hq1. simpl must. rewrite bind_ret, Hqp, bind_ret, Hq1. simpl must.
    rewrite bind_ret, Hqn'. destruct xs as [|x xs].
    - cbn [first_or]. rewrite bind_ret. erewrite update_Ret by exact Hq1. rewrite bind_ret.
      erewrite update_Ret by apply lookup_insert_eq. rewrite bind_ret. eexists _, _. by split.
    - cbn [first_or]. destruct Hl as [(xe & Hxe & _) _].
      apply NoDup_cons in Hnd as [Hqx _]. apply not_elem_of_cons in Hqx as [Hqx _].
      apply not_elem_of_cons in Hp as [Hpx _].
      erewrite update_Ret by (unfold m1; rewrite lookup_insert_ne by done; exact Hxe). rewrite !bind_ret.
      erewrite update_Ret by (rewrite lookup_insert_ne by done; exact Hq1). rewrite bind_ret.
      erewrite update_Ret by apply lookup_insert_eq. rewrite bind_ret. eexists _, _. by split. }
  eexists _, _, l2, m2. split; [reflexivity|]. split_and!; [done|by exists qe|done|done|].
  rewrite Hh2. destruct xs as [|x xs]; [done|]. simpl. intros [= ->]. set_solver.
Qed.

(** ** Witnesses *)

Definition sample_ep (u : string) : HttpEndpoint := mkEndpoint (bs u) 1 true 0 zeroTime None None.
Definition sample_mem : memory :=
  {[ 1 := sample_ep "http://a"; 2 := sample_ep "http://b"; 3 := sample_ep "http://c" ]}.

Lemma endpoint_list_refines_witness :
  exists l' m', AddToTail 2 (mkList (Some 1) (Some 1)) sample_mem = Ret (l', m') /\ repr m' l' [1; 2].
Proof.
  destruct (proj1 (endpoint_list_refines sample_mem (mkList (Some 1) (Some 1)) [1] [] 2 (sample_ep "http://b")))
    as (l' & m' & H & Hr & _).
  - split_and!; [by apply NoDup_singleton| |done|done]. simpl. split; [|done]. by eexists.
  - simpl. by rewrite list_elem_of_singleton.
  - done.
  - exists l', m'. by split.
Defined.

Lemma add_to_head_breaks_links_witness :
  exists l1 m1 l2 m2, AddToHead 2 (mkList (Some 1) (Some 1)) sample_mem = Ret (l1, m1) /\
    Remove 1 l1 m1 = Ret (l2, m2) /\ head l2 = None.
Proof.
  destruct (add_to_head_breaks_links sample_mem (mkList (Some 1) (Some 1)) 1 [] 2 (sample_ep "http://b"))
    as (l1 & m1 & l2 & m2 & H1 & _ & _ & H2 & H3 & _).
  - split_and!; [by apply NoDup_singleton| |done|done]. simpl. split; [|done]. by eexists.
  - by rewrite list_elem_of_singleton.
  - done.
  - exists l1, m1, l2, m2. by split_and!.
Defined.
End EndpointList.
