(* ===== verification/EndpointPool.v ===== *)
(** The pool of HTTP endpoints (src/lsvmi/http_endpoint_pool.go): the healthy
    list and its rotation, error reports, health checks, [SendBuffer] with its
    retries, shutdown, statistics.

    Every critical section of the pool's lock is one function on the pool; the
    goroutines that share the pool (senders, health checks) are interleaved as
    sequences of these.  HTTP responses, clock readings and the parsing of URLs
    are inputs. *)

From Stdlib Require Import ZArith Lia.
From stdpp Require Import base tactics numbers strings gmap list.
From S2P Require Import Prelude GoTime EndpointList Links.
Import EndpointList.

Module EndpointPool.

Definition HTTP_ENDPOINT_URL_DEFAULT : bytes := bs "http://localhost:8428/api/v1/import/prometheus".
Definition HTTP_ENDPOINT_MARK_UNHEALTHY_THRESHOLD_DEFAULT : Z := 1.

Definition HTTP_ENDPOINT_STATE_IN_HEALTH_CHECK : Z := 0.
Definition HTTP_ENDPOINT_STATE_HEALTHY : Z := 1.
Definition HTTP_ENDPOINT_STATE_AT_HEAD : Z := 2.

Definition HTTP_ENDPOINT_STATS_SEND_BUFFER_COUNT : nat := 0.
Definition HTTP_ENDPOINT_STATS_SEND_BUFFER_BYTE_COUNT : nat := 1.
Definition HTTP_ENDPOINT_STATS_SEND_BUFFER_ERROR_COUNT : nat := 2.
Definition HTTP_ENDPOINT_STATS_HEALTH_CHECK_COUNT : nat := 3.
Definition HTTP_ENDPOINT_STATS_HEALTH_CHECK_ERROR_COUNT : nat := 4.
Definition HTTP_ENDPOINT_STATS_STATE : nat := 5.
Definition HTTP_ENDPOINT_STATS_LEN : nat := 6.

Definition HTTP_ENDPOINT_POOL_STATS_HEALTHY_ROTATE_COUNT : nat := 0.
Definition HTTP_ENDPOINT_POOL_STATS_NO_HEALTHY_EP_ERROR_COUNT : nat := 1.
Definition HTTP_ENDPOINT_POOL_STATS_LEN : nat := 2.

Record HttpEndpointPoolStats := mkStats { PoolStats : list Z; EndpointStats : gmap bytes (list Z) }.

Definition NewHttpEndpointPoolStats : HttpEndpointPoolStats :=
  mkStats (replicate HTTP_ENDPOINT_POOL_STATS_LEN 0%Z) ∅.

(** [checks] are the endpoints with a running health check goroutine, [passed]
    those of them whose check succeeded and that are not back in the list yet. *)
Record HttpEndpointPool := mkPool {
  mem : memory;
  healthyL : HttpEndpointDoublyLinkedList;
  healthyRotateInterval : Z;
  healthyHeadChangeTs : Time;
  firstUse : bool;
  errorResetInterval : Z;
  shutdown : bool;
  stats : HttpEndpointPoolStats;
  checks : list nat;
  passed : list nat
}.

Definition set_list l m s := mkPool m l (healthyRotateInterval s) (healthyHeadChangeTs s) (firstUse s)
  (errorResetInterval s) (shutdown s) (stats s) (checks s) (passed s).
Definition set_mem m s := set_list (healthyL s) m s.
Definition set_first f ts s := mkPool (mem s) (healthyL s) (healthyRotateInterval s) ts f
  (errorResetInterval s) (shutdown s) (stats s) (checks s) (passed s).
Definition set_shutdown b s := mkPool (mem s) (healthyL s) (healthyRotateInterval s)
  (healthyHeadChangeTs s) (firstUse s) (errorResetInterval s) b (stats s) (checks s) (passed s).
Definition set_stats x s := mkPool (mem s) (healthyL s) (healthyRotateInterval s)
  (healthyHeadChangeTs s) (firstUse s) (errorResetInterval s) (shutdown s) x (checks s) (passed s).
Definition set_checks c s := mkPool (mem s) (healthyL s) (healthyRotateInterval s)
  (healthyHeadChangeTs s) (firstUse s) (errorResetInterval s) (shutdown s) (stats s) c (passed s).
Definition set_passed c s := mkPool (mem s) (healthyL s) (healthyRotateInterval s)
  (healthyHeadChangeTs s) (firstUse s) (errorResetInterval s) (shutdown s) (stats s) (checks s) c.

Definition set_errors (n : Z) (ts : Time) (e : HttpEndpoint) : HttpEndpoint :=
  mkEndpoint (url e) (markUnhealthyThreshold e) (healthy e) n ts (prev e) (next e).
Definition set_healthy (b : bool) (e : HttpEndpoint) : HttpEndpoint :=
  mkEndpoint (url e) (markUnhealthyThreshold e) b (numErrors e) (errorTs e) (prev e) (next e).

(** [stats.EndpointStats[url][k] = f(...)]: a missing entry is an index out of
    range. *)
Definition ep_stat (u : bytes) (k : nat) (f : Z -> Z) (s : HttpEndpointPool) : outcome HttpEndpointPool :=
  l ← must (EndpointStats (stats s) !! u);
  v ← must (l !! k);
  l ← store l k (f v);
  Ret (set_stats (mkStats (PoolStats (stats s)) (<[u := l]> (EndpointStats (stats s)))) s).
Definition ep_count (u : bytes) (k : nat) := ep_stat u k (fun v => u64 (v + 1)).
Definition ep_state (u : bytes) (v : Z) := ep_stat u HTTP_ENDPOINT_STATS_STATE (fun _ => v).
Definition pool_count (k : nat) (s : HttpEndpointPool) : outcome HttpEndpointPool :=
  v ← must (PoolStats (stats s) !! k);
  l ← store (PoolStats (stats s)) k (u64 (v + 1));
  Ret (set_stats (mkStats l (EndpointStats (stats s))) s).

(** ** Critical sections *)

Definition MoveToHealthy (ep : nat) (s : HttpEndpointPool) : outcome HttpEndpointPool :=
  e ← must (mem s !! ep);
  if healthy e then Ret s
  else
    let e := set_errors 0 (errorTs e) (set_healthy true e) in
    '(l, m) ← AddToTail ep (healthyL s) (<[ep := e]> (mem s));
    let s := set_list l m s in
    if bool_decide (head l = Some ep) then ep_state (url e) HTTP_ENDPOINT_STATE_AT_HEAD s
    else ep_state (url e) HTTP_ENDPOINT_STATE_HEALTHY s.

Definition ReportError (now : Time) (ep : nat) (s : HttpEndpointPool) : outcome HttpEndpointPool :=
  e ← must (mem s !! ep);
  let e := set_errors (i64 (numErrors e + 1)) now e in
  let s := set_mem (<[ep := e]> (mem s)) s in
  if negb (healthy e) then Ret s
  else
    '(l, m) ← Remove ep (healthyL s) (mem s);
    let s := set_first true (healthyHeadChangeTs s) (set_list l m s) in
    s ← (if (numErrors e <? markUnhealthyThreshold e)%Z
         then
           '(l, m) ← AddToTail ep (healthyL s) (mem s);
           ep_state (url e) HTTP_ENDPOINT_STATE_HEALTHY (set_list l m s)
         else
           s ← ep_state (url e) HTTP_ENDPOINT_STATE_IN_HEALTH_CHECK s;
           m ← update ep (set_healthy false) (mem s);
           Ret (set_checks (ep :: checks s) (set_mem m s)));
    match head (healthyL s) with
    | None => Ret s
    | Some h => he ← must (mem s !! h); ep_state (url he) HTTP_ENDPOINT_STATE_AT_HEAD s
    end.

(** The clock readings of [GetCurrentHealthy]: the two assignments and the two
    comparisons. *)
Record clocks := mkClocks { tFirst : Time; tSince : Time; tChange : Time; tErr : Time }.

(** "Rotate as needed". *)
Definition rotate (t : clocks) (ep : nat) (s : HttpEndpointPool) : outcome (HttpEndpointPool * nat) :=
  if firstUse s then Ret (set_first false (tFirst t) s, ep)
  else if (healthyRotateInterval s =? 0)%Z ||
          ((0 <? healthyRotateInterval s)%Z &&
           (healthyRotateInterval s <=? Sub (tSince t) (healthyHeadChangeTs s))%Z)
  then
    if bool_decide (head (healthyL s) = tail (healthyL s)) then Ret (s, ep)
    else
      e ← must (mem s !! ep);
      '(l, m) ← Remove ep (healthyL s) (mem s);
      '(l, m) ← AddToTail ep l m;
      s ← ep_state (url e) HTTP_ENDPOINT_STATE_HEALTHY (set_list l m s);
      ep ← must (head (healthyL s));
      e ← must (mem s !! ep);
      s ← ep_state (url e) HTTP_ENDPOINT_STATE_AT_HEAD s;
      s ← pool_count HTTP_ENDPOINT_POOL_STATS_HEALTHY_ROTATE_COUNT (set_first (firstUse s) (tChange t) s);
      Ret (s, ep)
  else Ret (s, ep).

(** "Apply error reset as needed". *)
Definition error_reset (t : clocks) (ep : nat) (s : HttpEndpointPool) : outcome HttpEndpointPool :=
  e ← must (mem s !! ep);
  if (0 <? numErrors e)%Z && (0 <? errorResetInterval s)%Z &&
     (errorResetInterval s <=? Sub (tErr t) (errorTs e))%Z
  then Ret (set_mem (<[ep := set_errors 0 (errorTs e) e]> (mem s)) s)
  else Ret s.

(** [GetCurrentHealthy] once the list is not empty. *)
Definition select (t : clocks) (s : HttpEndpointPool) : outcome (HttpEndpointPool * option nat) :=
  match head (healthyL s) with
  | None => Ret (s, None)
  | Some ep =>
    '(s, ep) ← rotate t ep s;
    s ← error_reset t ep s;
    Ret (s, Some ep)
  end.

(** [SnapStats], [None] for nil. *)
Definition copy_counts (src dst : list Z) : list Z := take (length dst) src ++ drop (length src) dst.
Definition SnapStats (from to : option HttpEndpointPoolStats) : option HttpEndpointPoolStats :=
  match from with
  | None => None
  | Some st =>
    let to := default NewHttpEndpointPoolStats to in
    Some (mkStats (copy_counts (PoolStats st) (PoolStats to))
            (map_imap (fun u l => Some (copy_counts l
               (default (replicate HTTP_ENDPOINT_STATS_LEN 0%Z) (EndpointStats to !! u)))) (EndpointStats st)
             ∪ EndpointStats to))
  end.

(** ** Responses *)

(** [client.Do]: an error, neither error nor response, or a status code. *)
Inductive response := RespErr | RespNone | RespCode (code : Z).

Definition HttpEndpointPoolSuccessCodes (code : Z) : bool := (code =? 200)%Z || (code =? 204)%Z.
Definition HttpEndpointPoolRetryCodes (code : Z) : bool := false.

Definition sent (r : response) : bool := match r with RespCode _ => true | _ => false end.
Definition success (r : response) : bool :=
  match r with RespCode c => HttpEndpointPoolSuccessCodes c | _ => false end.
Definition nonRetryable (r : response) : bool :=
  match r with RespCode c => negb (HttpEndpointPoolRetryCodes c) | _ => false end.

(** ** Health check *)

(** The goroutine of [ep] takes the lock of the pool twice: it counts each check
    and, after a check that succeeded or after the cancellation of the context,
    it puts the endpoint back. Between the two others may have the lock. *)
Definition health_check (ep : nat) (r : response) (s : HttpEndpointPool) : outcome HttpEndpointPool :=
  e ← must (mem s !! ep);
  s ← ep_count (url e) HTTP_ENDPOINT_STATS_HEALTH_CHECK_COUNT s;
  if success r then Ret (set_passed (ep :: passed s) s)
  else ep_count (url e) HTTP_ENDPOINT_STATS_HEALTH_CHECK_ERROR_COUNT s.

Definition end_check (ep : nat) (s : HttpEndpointPool) : outcome HttpEndpointPool :=
  s ← MoveToHealthy ep s;
  Ret (set_passed (filter (fun q => q <> ep) (passed s)) (set_checks (filter (fun q => q <> ep) (checks s)) s)).

(** The statistics of an attempt to send [len] bytes. *)
Definition send_stats (ep : nat) (len : Z) (r : response) (s : HttpEndpointPool) : outcome HttpEndpointPool :=
  e ← must (mem s !! ep);
  s ← ep_count (url e) HTTP_ENDPOINT_STATS_SEND_BUFFER_COUNT s;
  s ← (if sent r
       then ep_stat (url e) HTTP_ENDPOINT_STATS_SEND_BUFFER_BYTE_COUNT (fun v => u64 (v + u64 len)) s
       else Ret s);
  if success r then Ret s else ep_count (url e) HTTP_ENDPOINT_STATS_SEND_BUFFER_ERROR_COUNT s.

Definition Shutdown (s : HttpEndpointPool) : HttpEndpointPool := set_shutdown true s.

(** ** Events *)

(** What the goroutines that share the pool do. *)
Inductive event :=
| EGet (t : clocks)
| EReport (now : Time) (ep : nat)
| EHealth (ep : nat) (r : response)
| EEnd (ep : nat)
| EStats (ep : nat) (len : Z) (r : response)
| EShutdown.

Definition exec (e : event) (s : HttpEndpointPool) : option (outcome HttpEndpointPool) :=
  match e with
  | EGet t => if shutdown s then None else Some ('(s, _) ← select t s; Ret s)
  | EReport now ep => if bool_decide (is_Some (mem s !! ep)) then Some (ReportError now ep s) else None
  | EHealth ep r => if bool_decide (ep ∈ checks s) && bool_decide (ep ∉ passed s) then Some (health_check ep r s) else None
  | EEnd ep =>
    if bool_decide (ep ∈ checks s) && (shutdown s || bool_decide (ep ∈ passed s)) then Some (end_check ep s) else None
  | EStats ep len r => if bool_decide (is_Some (mem s !! ep)) then Some (send_stats ep len r s) else None
  | EShutdown => Some (Ret (Shutdown s))
  end.

Fixpoint exec_all (es : list event) (s : HttpEndpointPool) : outcome HttpEndpointPool :=
  match es with
  | [] => Ret s
  | e :: es => match exec e s with Some r => s ← r; exec_all es s | None => exec_all es s end
  end.

(** ** SendBuffer *)

(** What happens during one attempt: what others do before the endpoint is
    asked for, what they do while the sender waits for a healthy endpoint, the
    clock readings, the response, what others do while the request is under
    way. *)
Record attempt := mkAttempt {
  a_before : list event; a_wait : list event; a_clocks : clocks;
  a_resp : nat -> response; a_during : list event; a_report : Time
}.

Inductive send_error := ErrNoHealthyEP (attempt : nat) | ErrStatus (attempt : nat) (r : response).

(** [GetCurrentHealthy]: the wait is over when the list is not empty or the
    time is up. *)
Definition GetCurrentHealthy (wait : list event) (t : clocks) (s : HttpEndpointPool)
    : outcome (HttpEndpointPool * option nat) :=
  if shutdown s then Ret (s, None)
  else
    s ← (if bool_decide (head (healthyL s) = None) then exec_all wait s else Ret s);
    select t s.

(** One iteration of the loop of [SendBuffer] for a buffer of [len] bytes:
    continue, or the result. *)
Definition send_attempt (len : Z) (n : nat) (a : attempt) (s : HttpEndpointPool)
    : outcome (HttpEndpointPool * option (option send_error)) :=
  s ← exec_all (a_before a) s;
  '(s, o) ← GetCurrentHealthy (a_wait a) (a_clocks a) s;
  match o with
  | None =>
    s ← pool_count HTTP_ENDPOINT_POOL_STATS_NO_HEALTHY_EP_ERROR_COUNT s;
    Ret (s, Some (Some (ErrNoHealthyEP n)))
  | Some ep =>
    let r := a_resp a ep in
    s ← exec_all (a_during a) s;
    s ← send_stats ep len r s;
    if success r then Ret (s, Some None)
    else if nonRetryable r then Ret (s, Some (Some (ErrStatus n r)))
    else s ← ReportError (a_report a) ep s; Ret (s, None)
  end.

(** [SendBuffer], as far as the attempts given go: [None] when it would go on. *)
Fixpoint SendBuffer (len : Z) (n : nat) (attempts : list attempt) (s : HttpEndpointPool)
    : outcome (HttpEndpointPool * option (option send_error)) :=
  match attempts with
  | [] => Ret (s, None)
  | a :: rest =>
    '(s, o) ← send_attempt len n a s;
    match o with
    | Some res => Ret (s, Some res)
    | None => SendBuffer len (S n) rest s
    end
  end.

(** ** Construction *)

(** The endpoints of [NewHttpEndpointPool]: thresholds and URL with their
    defaults; [parse] stands for [url.Parse], the order of the endpoints is the
    configured or the shuffled one. *)
Definition endpoint_cfg (poolThreshold : Z) (cfg : bytes * Z) : bytes * Z :=
  let u := if bool_decide (cfg.1 = []) then HTTP_ENDPOINT_URL_DEFAULT else cfg.1 in
  let t := if (cfg.2 <=? 0)%Z then poolThreshold else cfg.2 in
  (u, if (t <=? 0)%Z then HTTP_ENDPOINT_MARK_UNHEALTHY_THRESHOLD_DEFAULT else t).

(** [NewHttpEndpoint]; [cfg] is the address and the threshold, or nil. *)
Definition NewHttpEndpoint (parse : bytes -> bool) (cfg : option (bytes * Z)) : option HttpEndpoint :=
  let '(u, t) := default (HTTP_ENDPOINT_URL_DEFAULT, 0%Z) cfg in
  if parse u then Some (mkEndpoint u t false 0 zeroTime None None) else None.

Fixpoint add_endpoints (parse : bytes -> bool) (poolThreshold : Z) (ep : nat) (cfgs : list (bytes * Z))
    (s : HttpEndpointPool) : outcome (option HttpEndpointPool) :=
  match cfgs with
  | [] => Ret (Some s)
  | cfg :: cfgs =>
    match NewHttpEndpoint parse (Some (endpoint_cfg poolThreshold cfg)) with
    | None => Ret None
    | Some e =>
      let s := set_mem (<[ep := e]> (mem s)) s in
      let s := set_stats (mkStats (PoolStats (stats s))
                 (<[url e := replicate HTTP_ENDPOINT_STATS_LEN 0%Z]> (EndpointStats (stats s)))) s in
      s ← MoveToHealthy ep s;
      add_endpoints parse poolThreshold (S ep) cfgs s
    end
  end.

Definition empty_pool (rotateInterval resetInterval : Z) : HttpEndpointPool :=
  mkPool ∅ (mkList None None) rotateInterval zeroTime true resetInterval false NewHttpEndpointPoolStats [] [].

Definition NewHttpEndpointPool (parse : bytes -> bool) (rotateInterval resetInterval poolThreshold : Z)
    (cfgs : list (bytes * Z)) : outcome (option HttpEndpointPool) :=
  let cfgs := match cfgs with [] => [(HTTP_ENDPOINT_URL_DEFAULT, 0%Z)] | _ => cfgs end in
  add_endpoints parse poolThreshold 0 cfgs (empty_pool rotateInterval resetInterval).

(** ** The abstract view: the sequence of healthy endpoints *)

(** The state that the statistics show for an endpoint. *)
Definition state_of (xs : list nat) (p : nat) : Z :=
  if bool_decide (first_or xs None = Some p) then HTTP_ENDPOINT_STATE_AT_HEAD
  else if bool_decide (p ∈ xs) then HTTP_ENDPOINT_STATE_HEALTHY
  else HTTP_ENDPOINT_STATE_IN_HEALTH_CHECK.

Definition stat_ok (st : gmap bytes (list Z)) (u : bytes) (v : Z) : Prop :=
  exists l, st !! u = Some l /\ length l = HTTP_ENDPOINT_STATS_LEN /\
            l !! HTTP_ENDPOINT_STATS_STATE = Some v.

(** In the middle of a critical section the state of the endpoints [stale] is
    not up to date yet. *)
Definition data_ok (stale : gset nat) (xs : list nat) (st : gmap bytes (list Z)) (p : nat)
    (e : HttpEndpoint) : Prop :=
  (healthy e = true <-> p ∈ xs) /\ (0 < markUnhealthyThreshold e <= MaxInt64)%Z /\
  (healthy e = true -> 0 <= numErrors e < markUnhealthyThreshold e)%Z /\
  exists v, stat_ok st (url e) v /\ (p ∉ stale -> v = state_of xs p).

Definition urls_distinct (m : memory) : Prop :=
  forall p q e f, m !! p = Some e -> m !! q = Some f -> url e = url f -> p = q.

Record view_but (stale : gset nat) (s : HttpEndpointPool) (xs : list nat) : Prop := {
  v_repr : repr (mem s) (healthyL s) xs;
  v_data : forall p e, mem s !! p = Some e -> data_ok stale xs (EndpointStats (stats s)) p e;
  v_urls : urls_distinct (mem s);
  v_pool : length (PoolStats (stats s)) = HTTP_ENDPOINT_POOL_STATS_LEN
}.

Abbreviation view := (view_but ∅).

(** Exactly the endpoints that are not in the healthy list have a health check. *)
Definition checks_ok (s : HttpEndpointPool) (xs : list nat) : Prop :=
  NoDup (checks s) /\ forall p, p ∈ checks s <-> p ∈ dom (mem s) /\ (p ∉ xs).

Definition inv (s : HttpEndpointPool) : Prop := exists xs, view s xs /\ checks_ok s xs.

(** ** Lemmas on statistics *)

Definition set_stat (u : bytes) (k : nat) (f : Z -> Z) (s : HttpEndpointPool) : HttpEndpointPool :=
  set_stats (mkStats (PoolStats (stats s))
    (alter (fun l => <[k := f (l !!! k)]> l) u (EndpointStats (stats s)))) s.

Lemma ep_stat_Ret u k f s v :
  stat_ok (EndpointStats (stats s)) u v -> k < HTTP_ENDPOINT_STATS_LEN ->
  ep_stat u k f s = Ret (set_stat u k f s).
Proof.
  intros (l & Hl & Hn & _) Hk. unfold ep_stat, set_stat. rewrite Hl. simpl must. rewrite bind_ret.
  rewrite (list_lookup_lookup_total_lt l k) by lia. simpl must. rewrite bind_ret, store_Ret by lia.
  rewrite bind_ret. do 3 f_equal. apply map_eq. intros i. destruct (decide (i = u)) as [->|].
  - by rewrite lookup_insert_eq, lookup_alter_eq, Hl.
  - by rewrite lookup_insert_ne, lookup_alter_ne.
Qed.

Lemma stat_ok_state st u v w :
  stat_ok st u w ->
  stat_ok (alter (fun l => <[HTTP_ENDPOINT_STATS_STATE := v]> l) u st) u v.
Proof.
  intros (l & Hl & Hn & _). exists (<[HTTP_ENDPOINT_STATS_STATE := v]> l).
  rewrite lookup_alter_eq, Hl, length_insert. split_and!; [done|done|].
  apply list_lookup_insert_eq. rewrite Hn. vm_compute. lia.
Qed.

Lemma stat_ok_ne st u u' f v : u <> u' -> stat_ok st u v -> stat_ok (alter f u' st) u v.
Proof. intros Hne (l & Hl & H). exists l. by rewrite lookup_alter_ne. Qed.

Lemma stat_ok_count st u u' k g v :
  k <> HTTP_ENDPOINT_STATS_STATE -> stat_ok st u v ->
  stat_ok (alter (fun l : list Z => <[k := g l]> l) u' st) u v.
Proof.
  intros Hk (l & Hl & Hn & Hs). destruct (decide (u = u')) as [->|Hne]; [|by apply stat_ok_ne; [|exists l]].
  exists (<[k := g l]> l). rewrite lookup_alter_eq, Hl, length_insert. split_and!; [done|done|].
  by rewrite list_lookup_insert_ne.
Qed.

Lemma view_count stale s xs u k f :
  k <> HTTP_ENDPOINT_STATS_STATE -> view_but stale s xs -> view_but stale (set_stat u k f s) xs.
Proof.
  intros Hk [Hr Hd Hu Hp]. split; [done| |done|done]. intros p e He.
  destruct (Hd p e He) as (H1 & H2 & H3 & v & H4 & H5). split; [done|]. split; [done|]. split; [done|].
  exists v. split; [by apply stat_ok_count|done].
Qed.

(** Writing the state of an endpoint brings it up to date. *)
Lemma ep_state_correct stale s xs p e :
  view_but stale s xs -> mem s !! p = Some e ->
  exists st', ep_state (url e) (state_of xs p) s = Ret (set_stats st' s) /\
    view_but (stale ∖ {[p]}) (set_stats st' s) xs.
Proof.
  intros [Hr Hd Hu Hp] He. destruct (Hd p e He) as (_ & _ & _ & v & Hv & _).
  unfold ep_state. rewrite (ep_stat_Ret _ _ _ _ v) by (done || (vm_compute; lia)).
  eexists. split; [reflexivity|]. split; [done| |done|done]. simpl. intros q f Hf.
  destruct (Hd q f Hf) as (H1 & H2 & H3 & w & H4 & H5). split; [done|]. split; [done|]. split; [done|].
  destruct (decide (q = p)) as [->|Hne].
  - assert (f = e) as -> by congruence. exists (state_of xs p). split; [by eapply stat_ok_state|done].
  - exists w. split; [|intros Hs; apply H5; set_solver]. apply stat_ok_ne; [|done].
    intros E. by apply Hne, (Hu q p f e).
Qed.

(** ** Lemmas on the list *)

Lemma same_payload_lookup m m' p e' :
  same_payload m m' -> m' !! p = Some e' -> exists e, m !! p = Some e /\ payload e = payload e'.
Proof.
  unfold same_payload. intros H Hp. apply (f_equal (.!! p)) in H. rewrite !lookup_fmap, Hp in H.
  destruct (m !! p) as [e|]; [|done]. exists e. split; [done|]. simpl in H. congruence.
Qed.

Lemma data_ok_payload stale xs st p e e' :
  payload e = payload e' -> data_ok stale xs st p e -> data_ok stale xs st p e'.
Proof. unfold payload, data_ok. intros [= -> -> -> -> _]. done. Qed.

Lemma urls_payload m m' : same_payload m m' -> urls_distinct m -> urls_distinct m'.
Proof.
  intros Hs Hu p q e f He Hf Heq.
  destruct (same_payload_lookup _ _ _ _ Hs He) as (e0 & He0 & [= E1 _ _ _ _]).
  destruct (same_payload_lookup _ _ _ _ Hs Hf) as (f0 & Hf0 & [= F1 _ _ _ _]).
  apply (Hu p q e0 f0); congruence.
Qed.

Lemma urls_update m p e e' : urls_distinct m -> m !! p = Some e -> url e' = url e -> urls_distinct (<[p:=e']> m).
Proof.
  intros Hu He Heq a b ea eb Ha Hb Hab.
  apply lookup_insert_Some in Ha as [[<- <-]|[Hna Ha]]; apply lookup_insert_Some in Hb as [[<- <-]|[Hnb Hb]];
    [done|apply (Hu _ _ e eb); congruence|apply (Hu _ _ ea e); congruence|by apply (Hu _ _ ea eb)].
Qed.

(** The list only looks at the links. *)
Lemma repr_update m l xs p e e' :
  m !! p = Some e -> prev e' = prev e -> next e' = next e -> repr m l xs -> repr (<[p:=e']> m) l xs.
Proof.
  intros He Hp Hn (H1 & H2 & H3). split; [done|]. split; [by eapply links_update|done].
Qed.

(** Who keeps the state it had. *)
Lemma state_of_same xs ys p :
  (p ∈ xs <-> p ∈ ys) -> (first_or xs None = Some p <-> first_or ys None = Some p) ->
  state_of xs p = state_of ys p.
Proof.
  intros H1 H2. unfold state_of.
  rewrite (bool_decide_ext _ _ H1), (bool_decide_ext _ _ H2). done.
Qed.

(** An endpoint changes, and the list with it: its state and that of a new head
    are to be written. *)
Lemma view_change stale stale' s xs xs' p e e' l' m' :
  view_but stale s xs -> mem s !! p = Some e -> url e' = url e ->
  markUnhealthyThreshold e' = markUnhealthyThreshold e ->
  (healthy e' = true <-> p ∈ xs') ->
  (healthy e' = true -> 0 <= numErrors e' < markUnhealthyThreshold e)%Z ->
  (forall q, q <> p -> (q ∈ xs <-> q ∈ xs')) ->
  (forall a, first_or xs None = Some a -> a <> p -> first_or xs' None = Some a) ->
  (forall a, first_or xs' None = Some a -> first_or xs None = Some a \/ a ∈ stale') ->
  stale ∪ {[p]} ⊆ stale' ->
  same_payload (<[p := e']> (mem s)) m' -> repr m' l' xs' ->
  view_but stale' (set_list l' m' s) xs'.
Proof.
  intros [Hr Hd Hu Hpl] He Eu Et Hh Hn Hq Ho Hw Hsub Hs Hr'. split; [done| | |done].
  - simpl. intros q f' Hf'. destruct (same_payload_lookup _ _ _ _ Hs Hf') as (f & Hf & Hpf).
    apply (data_ok_payload _ _ _ _ f); [done|]. clear f' Hf' Hpf.
    apply lookup_insert_Some in Hf as [[<- <-]|[Hne Hf]].
    + destruct (Hd p e He) as (_ & H2 & _ & v & H4 & _). rewrite <- Eu in H4. rewrite <- Et in Hn, H2.
      split; [done|]. split; [done|]. split; [done|]. exists v. split; [done|]. set_solver.
    + destruct (Hd q f Hf) as (H1 & H2 & H3 & v & H4 & H5).
      split; [by rewrite H1, Hq by done|]. split; [done|]. split; [done|].
      exists v. split; [done|]. intros Hst. rewrite H5 by set_solver.
      apply state_of_same; [by apply Hq|]. split; [intros Hf1; by apply Ho|].
      intros Hf1. destruct (Hw q Hf1); [done|]. set_solver.
  - eapply urls_payload; [exact Hs|]. by eapply urls_update.
Qed.

Lemma view_stale stale stale' s xs : stale ⊆ stale' -> view_but stale s xs -> view_but stale' s xs.
Proof.
  intros Hsub [Hr Hd Hu Hp]. split; [done| |done|done]. intros p e He.
  destruct (Hd p e He) as (H1 & H2 & H3 & v & H4 & H5). split; [done|]. split; [done|]. split; [done|].
  exists v. split; [done|]. intros Hs. apply H5. set_solver.
Qed.

Lemma state_of_head xs p : first_or xs None = Some p -> state_of xs p = HTTP_ENDPOINT_STATE_AT_HEAD.
Proof. intros H. unfold state_of. by rewrite H, bool_decide_eq_true_2. Qed.

Lemma state_of_tail xs p :
  first_or (xs ++ [p]) None <> Some p -> state_of (xs ++ [p]) p = HTTP_ENDPOINT_STATE_HEALTHY.
Proof.
  intros H. unfold state_of. rewrite bool_decide_eq_false_2 by done.
  by rewrite bool_decide_eq_true_2 by (rewrite elem_of_app, list_elem_of_singleton; by right).
Qed.

Lemma state_of_out xs p : p ∉ xs -> state_of xs p = HTTP_ENDPOINT_STATE_IN_HEALTH_CHECK.
Proof.
  intros H. unfold state_of. rewrite bool_decide_eq_false_2.
  - by rewrite bool_decide_eq_false_2.
  - destruct xs; [done|]. simpl. intros [= ->]. set_solver.
Qed.

(** ** The critical sections on the abstract view *)

(** What an operation on [p] leaves of the other endpoints. *)
Definition others_same (p : nat) (s s' : HttpEndpointPool) : Prop :=
  forall q, q <> p -> payload <$> (mem s' !! q) = payload <$> (mem s !! q).
Definition same_config (s s' : HttpEndpointPool) : Prop :=
  healthyRotateInterval s' = healthyRotateInterval s /\ errorResetInterval s' = errorResetInterval s /\
  shutdown s' = shutdown s.

Lemma same_payload_others m m' p e q :
  same_payload (<[p := e]> m) m' -> q <> p -> payload <$> (m' !! q) = payload <$> (m !! q).
Proof.
  unfold same_payload. intros H Hq. apply (f_equal (.!! q)) in H. rewrite !lookup_fmap in H.
  by rewrite lookup_insert_ne in H.
Qed.

Lemma same_payload_at m m' p e :
  same_payload (<[p := e]> m) m' -> exists e', m' !! p = Some e' /\ payload e' = payload e.
Proof.
  unfold same_payload. intros H. apply (f_equal (.!! p)) in H. rewrite !lookup_fmap in H.
  rewrite lookup_insert_eq in H. destruct (m' !! p) as [e'|]; [|done]. simpl in H. exists e'. split; congruence.
Qed.

(** Back to the healthy list, at its tail, with no errors. *)
Lemma MoveToHealthy_correct s xs p e :
  view s xs -> mem s !! p = Some e -> healthy e = false ->
  exists s' e', MoveToHealthy p s = Ret s' /\ view s' (xs ++ [p]) /\ mem s' !! p = Some e' /\
    healthy e' = true /\ checks s' = checks s /\ others_same p s s' /\ same_config s s' /\
    url e' = url e.
Proof.
  intros Hv He Hh. pose proof Hv as [Hr Hd Hu Hpl]. destruct (Hd p e He) as (Hin & Hthr & _ & _).
  assert (p ∉ xs) as Hp by (intros H; apply Hin in H; congruence).
  unfold MoveToHealthy. rewrite He. simpl must. rewrite bind_ret, Hh.
  set (e1 := set_errors 0 (errorTs e) (set_healthy true e)).
  destruct (AddToTail_correct (<[p := e1]> (mem s)) (healthyL s) xs p e1) as (l' & m' & -> & Hr' & Hs);
    [by apply (repr_update _ _ _ _ e)|done|by rewrite lookup_insert_eq|].
  rewrite bind_ret. cbv zeta.
  assert (view_but {[p]} (set_list l' m' s) (xs ++ [p])) as Hv'.
  { apply (view_change ∅ _ s xs (xs ++ [p]) p e e1); try done.
    - split; [|done]. intros _. rewrite elem_of_app, list_elem_of_singleton. by right.
    - intros _. simpl. lia.
    - intros q Hq. rewrite elem_of_app, list_elem_of_singleton. tauto.
    - intros a Ha _. by destruct xs.
    - intros a Ha. destruct xs as [|x xs]; [right|by left]. simpl in Ha. set_solver.
    - set_solver. }
  destruct (same_payload_at _ _ _ _ Hs) as (e2 & He2 & [= Eu _ Eh _ _]).
  destruct (ep_state_correct {[p]} (set_list l' m' s) (xs ++ [p]) p e2 Hv' He2) as (st' & Hep & Hv2).
  rewrite difference_diag_L in Hv2. rewrite Eu in Hep.
  assert ((if bool_decide (head l' = Some p)
    then ep_state (url e1) HTTP_ENDPOINT_STATE_AT_HEAD (set_list l' m' s)
    else ep_state (url e1) HTTP_ENDPOINT_STATE_HEALTHY (set_list l' m' s)) =
    ep_state (url e1) (state_of (xs ++ [p]) p) (set_list l' m' s)) as ->.
  { destruct Hr' as (_ & _ & Hhd & _). rewrite Hhd. case_bool_decide as Hb.
    - by rewrite state_of_head.
    - by rewrite state_of_tail. }
  change (url e1) with (url e). rewrite Hep. eexists _, e2. split; [reflexivity|]. split_and!; try done.
  intros q Hq. by eapply same_payload_others.
Qed.

(** Counting errors of an endpoint that stays where it is. *)
Lemma view_errors stale s xs p e n ts :
  view_but stale s xs -> mem s !! p = Some e ->
  (healthy e = true -> 0 <= n < markUnhealthyThreshold e)%Z ->
  view_but stale (set_mem (<[p := set_errors n ts e]> (mem s)) s) xs.
Proof.
  intros [Hr Hd Hu Hp] He Hn. split; [by apply (repr_update _ _ _ _ e)| |by eapply urls_update|done].
  simpl. intros q f [[<- <-]|[Hne Hf]]%lookup_insert_Some; [|by apply Hd].
  destruct (Hd p e He) as (H1 & H2 & H3 & H4). by split.
Qed.

(** The view does not depend on the other fields of the pool. *)
Lemma view_frame stale s s' xs :
  mem s' = mem s -> healthyL s' = healthyL s -> stats s' = stats s ->
  view_but stale s xs -> view_but stale s' xs.
Proof. intros E1 E2 E3 []. split; rewrite ?E1, ?E2, ?E3; done. Qed.

Lemma ep_state_stats u v s s2 st' :
  stats s2 = stats s -> ep_state u v s = Ret (set_stats st' s) -> ep_state u v s2 = Ret (set_stats st' s2).
Proof.
  unfold ep_state, ep_stat. intros ->. destruct (EndpointStats (stats s) !! u) as [l|]; [|done].
  simpl must. rewrite !bind_ret. destruct (l !! _) as [x|]; [|done]. simpl must. rewrite !bind_ret.
  destruct (store l _ _) as [l'| |]; [|done|done]. rewrite !bind_ret.
  intros [= H]. by rewrite H.
Qed.

(** The last write of [ReportError]: the head of the list is at the head. *)
Lemma head_state stale s xs :
  view_but stale s xs -> (forall q, q ∈ stale -> first_or xs None = Some q) ->
  exists st', match head (healthyL s) with
              | None => Ret s
              | Some h => he ← must (mem s !! h); ep_state (url he) HTTP_ENDPOINT_STATE_AT_HEAD s
              end = Ret (set_stats st' s) /\ view (set_stats st' s) xs.
Proof.
  intros Hv Hst. pose proof (v_repr _ _ _ Hv) as (_ & Hl & Hh & _). rewrite Hh.
  destruct xs as [|h xs]; simpl first_or in *.
  - exists (stats s). split; [by destruct s|].
    eapply view_stale; [|eapply view_frame; [..|exact Hv]; done]. set_solver.
  - destruct Hl as [(he & Hhe & _) _]. rewrite Hhe. simpl must. rewrite bind_ret.
    destruct (ep_state_correct stale s (h :: xs) h he Hv Hhe) as (st' & Hep & Hv').
    rewrite state_of_head in Hep by done. exists st'. split; [done|].
    eapply view_stale; [|exact Hv']. intros q [Hq Hne]%elem_of_difference.
    specialize (Hst q Hq). set_solver.
Qed.

(** Any state may be written for an endpoint that is stale anyway. *)
Lemma ep_state_stale stale s xs p e v :
  view_but stale s xs -> mem s !! p = Some e -> p ∈ stale ->
  exists st', ep_state (url e) v s = Ret (set_stats st' s) /\ view_but stale (set_stats st' s) xs.
Proof.
  intros [Hr Hd Hu Hp] He Hin. destruct (Hd p e He) as (_ & _ & _ & w & Hw & _).
  unfold ep_state. rewrite (ep_stat_Ret _ _ _ _ w) by (done || (vm_compute; lia)).
  eexists. split; [reflexivity|]. split; [done| |done|done]. simpl. intros q f Hf.
  destruct (Hd q f Hf) as (H1 & H2 & H3 & x & H4 & H5). split; [done|]. split; [done|]. split; [done|].
  destruct (decide (q = p)) as [->|Hne].
  - assert (f = e) as -> by congruence. exists v. split; [by eapply stat_ok_state|done].
  - exists x. split; [|done]. apply stat_ok_ne; [|done]. intros E. by apply Hne, (Hu q p f e).
Qed.

Lemma same_payload_trans m1 m2 m3 : same_payload m1 m2 -> same_payload m2 m3 -> same_payload m1 m3.
Proof. unfold same_payload. congruence. Qed.

(** The list part of [ReportError] for an endpoint that stays usable: it goes to
    the tail. *)
Lemma report_to_tail s xs ys p e now :
  view s (xs ++ p :: ys) -> mem s !! p = Some e ->
  (0 <= numErrors e + 1 < markUnhealthyThreshold e)%Z ->
  let e1 := set_errors (numErrors e + 1) now e in
  exists l2 m2 l3 m3, Remove p (healthyL s) (<[p := e1]> (mem s)) = Ret (l2, m2) /\
    AddToTail p l2 m2 = Ret (l3, m3) /\ same_payload (<[p := e1]> (mem s)) m3 /\
    view_but ({[p]} ∪ list_to_set (option_list (first_or (xs ++ ys ++ [p]) None)))
      (set_list l3 m3 s) (xs ++ ys ++ [p]).
Proof.
  intros Hv He Hn e1. pose proof Hv as [Hr Hd Hu Hpl].
  assert (healthy e = true) as Hh
    by (apply (Hd p e He); rewrite elem_of_app, elem_of_cons; right; by left).
  destruct (Remove_correct (<[p := e1]> (mem s)) (healthyL s) xs ys p) as (l2 & m2 & Hrm & Hr2 & Hs2);
    [by apply (repr_update _ _ _ _ e)|].
  destruct (same_payload_at _ _ _ _ Hs2) as (e2 & He2 & _).
  assert (p ∉ xs ++ ys) as Hp.
  { destruct Hr as (Hnd & _). rewrite <- Permutation_middle in Hnd. by apply NoDup_cons in Hnd as [? _]. }
  destruct (AddToTail_correct m2 l2 (xs ++ ys) p e2 Hr2 Hp He2) as (l3 & m3 & Hat & Hr3 & Hs3).
  rewrite <- app_assoc in Hr3. exists l2, m2, l3, m3. split_and!; [done|done|by eapply same_payload_trans|].
  apply (view_change ∅ _ s (xs ++ p :: ys) (xs ++ ys ++ [p]) p e e1); try done.
  - split; [|done]. intros _. rewrite !elem_of_app, list_elem_of_singleton. tauto.
  - intros q Hq. rewrite !elem_of_app, list_elem_of_singleton, elem_of_cons. tauto.
  - intros a Ha Hne. rewrite first_or_app in *. destruct xs; [|done]. simpl in Ha. congruence.
  - intros a Ha. right. rewrite Ha. set_solver.
  - set_solver.
  - by eapply same_payload_trans.
Qed.

(** The list part for one that is declared unhealthy: it leaves the list. *)
Lemma report_out s xs ys p e now :
  view s (xs ++ p :: ys) -> mem s !! p = Some e ->
  let e1 := set_errors (numErrors e + 1) now e in
  exists l2 m2 m3, Remove p (healthyL s) (<[p := e1]> (mem s)) = Ret (l2, m2) /\
    update p (set_healthy false) m2 = Ret m3 /\
    same_payload (<[p := set_healthy false e1]> (mem s)) m3 /\
    view_but ({[p]} ∪ list_to_set (option_list (first_or (xs ++ ys) None)))
      (set_list l2 m3 s) (xs ++ ys).
Proof.
  intros Hv He e1. pose proof Hv as [Hr Hd Hu Hpl].
  destruct (Remove_correct (<[p := e1]> (mem s)) (healthyL s) xs ys p) as (l2 & m2 & Hrm & Hr2 & Hs2);
    [by apply (repr_update _ _ _ _ e)|].
  destruct (same_payload_at _ _ _ _ Hs2) as (e2 & He2 & Hp2).
  assert (p ∉ xs ++ ys) as Hp.
  { destruct Hr as (Hnd & _). rewrite <- Permutation_middle in Hnd. by apply NoDup_cons in Hnd as [? _]. }
  assert (same_payload (<[p := set_healthy false e1]> (mem s)) (<[p := set_healthy false e2]> m2)) as Hs3.
  { unfold same_payload in *. rewrite !fmap_insert, Hs2, fmap_insert, insert_insert_eq.
    f_equal. unfold payload in *. simpl in *. congruence. }
  exists l2, m2, (<[p := set_healthy false e2]> m2). split_and!; [done|by apply update_Ret|done|].
  apply (view_change ∅ _ s (xs ++ p :: ys) (xs ++ ys) p e (set_healthy false e1)); try done.
  - intros q Hq. rewrite !elem_of_app, elem_of_cons. tauto.
  - intros a Ha Hne. rewrite first_or_app in *. destruct xs; [|done]. simpl in Ha. congruence.
  - intros a Ha. right. rewrite Ha. set_solver.
  - set_solver.
  - by apply (repr_update _ _ _ _ e2).
Qed.

Lemma stale_heads xs (p : nat) (stale : gset nat) :
  stale ⊆ {[p]} ∪ list_to_set (option_list (first_or xs None)) ->
  forall q, q ∈ stale ∖ {[p]} -> first_or xs None = Some q.
Proof.
  intros Hs q [Hq Hne]%elem_of_difference. apply Hs in Hq.
  destruct (first_or xs None) as [a|]; simpl in Hq; set_solver.
Qed.

(** Writing that an endpoint at the tail is healthy leaves at most the head to
    be written. *)
Lemma ep_state_tail s zs p e :
  view_but ({[p]} ∪ list_to_set (option_list (first_or (zs ++ [p]) None))) s (zs ++ [p]) ->
  mem s !! p = Some e ->
  exists st' stale', ep_state (url e) HTTP_ENDPOINT_STATE_HEALTHY s = Ret (set_stats st' s) /\
    view_but stale' (set_stats st' s) (zs ++ [p]) /\
    forall q, q ∈ stale' -> first_or (zs ++ [p]) None = Some q.
Proof.
  intros Hv He. destruct (decide (first_or (zs ++ [p]) None = Some p)) as [Hf|Hf].
  - destruct (ep_state_stale _ s _ p e HTTP_ENDPOINT_STATE_HEALTHY Hv He) as (st & -> & Hv4); [set_solver|].
    eexists _, _. split; [reflexivity|]. split; [exact Hv4|]. rewrite Hf. set_solver.
  - destruct (ep_state_correct _ s _ p e Hv He) as (st & Hep & Hv4). rewrite state_of_tail in Hep by done.
    eexists _, _. split; [exact Hep|]. split; [exact Hv4|]. by apply stale_heads.
Qed.

(** An error of a healthy endpoint. *)
Lemma ReportError_healthy s xs ys p e now :
  view s (xs ++ p :: ys) -> mem s !! p = Some e ->
  exists s' e', ReportError now p s = Ret s' /\ mem s' !! p = Some e' /\
    numErrors e' = (numErrors e + 1)%Z /\ markUnhealthyThreshold e' = markUnhealthyThreshold e /\
    errorTs e' = now /\ others_same p s s' /\ same_config s s' /\
    if (numErrors e + 1 <? markUnhealthyThreshold e)%Z
    then view s' (xs ++ ys ++ [p]) /\ checks s' = checks s /\ healthy e' = true
    else view s' (xs ++ ys) /\ checks s' = p :: checks s /\ healthy e' = false.
Proof.
  intros Hv He. pose proof Hv as [Hr Hd Hu Hpl]. destruct (Hd p e He) as (Hin & Hthr & Hne & _).
  assert (healthy e = true) as Hh by (apply Hin; rewrite elem_of_app, elem_of_cons; right; by left).
  specialize (Hne Hh). unfold ReportError. rewrite He. simpl must. rewrite bind_ret. cbv zeta.
  rewrite i64_small by (unfold MinInt64; lia).
  change (healthy (set_errors (numErrors e + 1) now e)) with (healthy e). rewrite Hh. simpl negb. cbv iota.
  cbn [healthyL set_mem set_list mem numErrors markUnhealthyThreshold set_errors url healthyHeadChangeTs].
  destruct (Z.ltb_spec (numErrors e + 1) (markUnhealthyThreshold e)) as [Hlt|Hge].
  - destruct (report_to_tail s xs ys p e now Hv He ltac:(lia)) as (l2 & m2 & l3 & m3 & -> & Hat & Hs3 & Hv3).
    rewrite bind_ret. cbn [healthyL set_first set_list mem]. rewrite Hat, bind_ret.
    set (s3 := set_list l3 m3 _). apply (view_frame _ _ s3) in Hv3; [|done..].
    destruct (same_payload_at _ _ _ _ Hs3) as (e3 & He3 & [= Eu Et Eh En Ets]).
    rewrite app_assoc in Hv3. destruct (ep_state_tail s3 (xs ++ ys) p e3 Hv3 He3) as (st4 & stale4 & Hep & Hv4 & Hh4).
    rewrite Eu in Hep. rewrite Hep, bind_ret.
    destruct (head_state stale4 _ _ Hv4 Hh4) as (st5 & -> & Hv5). rewrite <- app_assoc in Hv5.
    eexists _, e3. split; [reflexivity|]. rewrite Hh in Eh.
    split_and!; try done. intros q Hq. by eapply same_payload_others.
  - destruct (report_out s xs ys p e now Hv He) as (l2 & m2 & m3 & -> & Hup & Hs3 & Hv3). rewrite bind_ret.
    destruct (same_payload_at _ _ _ _ Hs3) as (e3 & He3 & [= Eu Et Eh En Ets]).
    destruct (ep_state_correct _ (set_list l2 m3 s) _ p e3 Hv3 He3) as (st4 & Hep & Hv4).
    assert (p ∉ xs ++ ys) as Hp by (apply (v_data _ _ _ Hv3 p e3) in He3 as (Hi & _);
      intros Hin2; apply Hi in Hin2; congruence).
    rewrite state_of_out, Eu in Hep by done.
    set (s2 := set_first true _ (set_list l2 m2 _)).
    rewrite (ep_state_stats _ _ _ s2 _ (reflexivity _) Hep), bind_ret.
    change (mem (set_stats st4 s2)) with m2. rewrite Hup, !bind_ret. set (s4 := set_checks _ _).
    apply (view_frame _ _ s4) in Hv4; [|done..].
    destruct (head_state _ s4 _ Hv4) as (st5 & -> & Hv5); [by apply stale_heads|].
    eexists _, e3. split; [reflexivity|]. split_and!; try done. intros q Hq. by eapply same_payload_others.
Qed.

(** An error of an endpoint that is being checked only counts. *)
Lemma ReportError_unhealthy s xs p e now :
  view s xs -> mem s !! p = Some e -> healthy e = false ->
  exists s' e', ReportError now p s = Ret s' /\ view s' xs /\ checks s' = checks s /\
    mem s' !! p = Some e' /\ healthy e' = false /\ others_same p s s' /\ same_config s s'.
Proof.
  intros Hv He Hh. unfold ReportError. rewrite He. simpl must. rewrite bind_ret. cbv zeta.
  set (e1 := set_errors _ now e). change (healthy e1) with (healthy e). rewrite Hh. simpl negb. cbv iota.
  eexists _, e1. split; [reflexivity|]. split_and!; try done.
  - apply view_errors; [done|done|congruence].
  - simpl. by rewrite lookup_insert_eq.
  - intros q Hq. simpl. by rewrite lookup_insert_ne.
Qed.

Lemma pool_count_correct stale s xs k :
  view_but stale s xs -> k < HTTP_ENDPOINT_POOL_STATS_LEN ->
  exists st', pool_count k s = Ret (set_stats st' s) /\ view_but stale (set_stats st' s) xs.
Proof.
  intros [Hr Hd Hu Hp] Hk. unfold pool_count.
  rewrite (list_lookup_lookup_total_lt _ k) by lia. simpl must. rewrite bind_ret, store_Ret by lia.
  rewrite bind_ret. eexists. split; [reflexivity|]. split; try done. simpl. by rewrite length_insert.
Qed.

Lemma same_payload_refl m : same_payload m m.
Proof. done. Qed.

(** The rotation moves the head to the tail, when there is somewhere to go. *)
Lemma rotate_move s p q ys e t :
  view s (p :: q :: ys) -> mem s !! p = Some e ->
  exists s', ('(l, m) ← Remove p (healthyL s) (mem s);
              '(l, m) ← AddToTail p l m;
              s ← ep_state (url e) HTTP_ENDPOINT_STATE_HEALTHY (set_list l m s);
              ep ← must (head (healthyL s));
              e ← must (mem s !! ep);
              s ← ep_state (url e) HTTP_ENDPOINT_STATE_AT_HEAD s;
              s ← pool_count HTTP_ENDPOINT_POOL_STATS_HEALTHY_ROTATE_COUNT (set_first (firstUse s) t s);
              Ret (s, ep)) = Ret (s', q) /\
    view s' (q :: ys ++ [p]) /\ checks s' = checks s /\ same_config s s' /\
    same_payload (mem s) (mem s') /\ firstUse s' = firstUse s.
Proof.
  intros Hv He. pose proof Hv as [Hr Hd Hu Hpl].
  destruct (Remove_correct (mem s) (healthyL s) [] (q :: ys) p Hr) as (l2 & m2 & -> & Hr2 & Hs2).
  assert (p ∉ q :: ys) as Hp by (destruct Hr as (Hnd & _); by apply NoDup_cons in Hnd as [? _]).
  assert (exists e2, m2 !! p = Some e2 /\ payload e2 = payload e) as (e2 & He2 & _).
  { apply (same_payload_at (mem s) m2 p e). by rewrite insert_id. }
  rewrite bind_ret. destruct (AddToTail_correct m2 l2 (q :: ys) p e2 Hr2 Hp He2) as (l3 & m3 & -> & Hr3 & Hs3).
  rewrite bind_ret. assert (same_payload (mem s) m3) as Hs by (by eapply same_payload_trans).
  assert (same_payload (<[p := e]> (mem s)) m3) as Hs' by (by rewrite insert_id).
  destruct (same_payload_at _ _ _ _ Hs') as (e3 & He3 & [= Eu _ Eh _ _]).
  assert (view_but ({[p]} ∪ list_to_set (option_list (first_or ((q :: ys) ++ [p]) None)))
            (set_list l3 m3 s) ((q :: ys) ++ [p])) as Hv3.
  { destruct (Hd p e He) as (Hin & _ & Hn & _).
    apply (view_change ∅ _ s (p :: q :: ys) ((q :: ys) ++ [p]) p e e); try done.
    - split; [|set_solver]. intros _. rewrite elem_of_app, list_elem_of_singleton. by right.
    - intros r Hr0. rewrite elem_of_app, list_elem_of_singleton, elem_of_cons. tauto.
    - intros a [= <-] Hne. done.
    - intros a Ha. right. rewrite Ha. set_solver.
    - set_solver. }
  destruct (ep_state_tail _ _ _ _ Hv3 He3) as (st4 & stale4 & Hep & Hv4 & Hh4). rewrite Eu in Hep.
  rewrite Hep, bind_ret. pose proof (v_repr _ _ _ Hv4) as (_ & [(qe & Hqe & _) _] & Hhd & _).
  rewrite Hhd. cbn [first_or app must]. rewrite bind_ret. cbn [mem set_stats set_list] in Hqe |- *.
  rewrite Hqe. cbn [must]. rewrite bind_ret. destruct (ep_state_correct _ _ _ q qe Hv4 Hqe) as (st5 & Hep5 & Hv5).
  rewrite state_of_head in Hep5 by done. rewrite Hep5, bind_ret.
  assert (view (set_stats st5 (set_stats st4 (set_list l3 m3 s))) ((q :: ys) ++ [p])) as Hv6.
  { eapply view_stale; [|exact Hv5]. intros r [Hr0 Hne]%elem_of_difference. specialize (Hh4 r Hr0). set_solver. }
  set (s6 := set_first _ t _). apply (view_frame _ _ s6) in Hv6; [|done..].
  destruct (pool_count_correct _ s6 _ HTTP_ENDPOINT_POOL_STATS_HEALTHY_ROTATE_COUNT Hv6) as (st7 & -> & Hv7);
    [vm_compute; lia|].
  rewrite bind_ret. eexists. split; [reflexivity|]. by split_and!.
Qed.

(** [GetCurrentHealthy] returns the head of the list, after the rotation. *)
Lemma select_correct t s p xs :
  view s (p :: xs) ->
  exists s' q ys, select t s = Ret (s', Some q) /\ view s' (q :: ys) /\
    ((q = p /\ ys = xs) \/ (exists zs, xs = q :: zs /\ ys = zs ++ [p])) /\
    checks s' = checks s /\ same_config s s' /\ firstUse s' = false /\
    dom (mem s') = dom (mem s) /\ ((errorResetInterval s <= 0)%Z -> same_payload (mem s) (mem s')).
Proof.
  intros Hv. pose proof (v_repr _ _ _ Hv) as (Hnd & [(e & He & _) _] & Hhd & Htl).
  assert (exists s1 q ys, rotate t p s = Ret (s1, q) /\ view s1 (q :: ys) /\
    ((q = p /\ ys = xs) \/ (exists zs, xs = q :: zs /\ ys = zs ++ [p])) /\
    checks s1 = checks s /\ same_config s s1 /\ firstUse s1 = false /\ same_payload (mem s) (mem s1))
    as (s1 & q & ys & Hrot & Hv1 & Hxs & Hck & Hcf & Hfu & Hs).
  { unfold rotate. destruct (firstUse s) eqn:Hf.
    { eexists _, p, xs. split; [reflexivity|]. split_and!; try done; [by eapply view_frame; [..|exact Hv]|by left]. }
    destruct ((healthyRotateInterval s =? 0)%Z || _).
    2:{ exists s, p, xs. split_and!; try done. by left. }
    rewrite Hhd, Htl. simpl first_or. destruct xs as [|x xs].
    { rewrite bool_decide_eq_true_2 by done. exists s, p, []. split_and!; try done. by left. }
    rewrite bool_decide_eq_false_2; last first.
    { unfold last_or. rewrite last_cons_cons. destruct (last (x :: xs)) as [z|] eqn:Hl; [|by apply last_None in Hl].
      intros [= ->]. apply NoDup_cons in Hnd as [Hni _]. apply Hni. by apply last_Some_elem_of. }
    rewrite He. simpl must. rewrite bind_ret.
    destruct (rotate_move s p x xs e (tChange t) Hv He) as (s' & -> & Hv' & Hc' & Hcf' & Hs' & Hf').
    exists s', x, (xs ++ [p]). split_and!; try done; [right; by exists xs|congruence]. }
  unfold select. rewrite Hhd. cbn [first_or]. rewrite Hrot, bind_ret.
  pose proof (v_repr _ _ _ Hv1) as (_ & [(qe & Hqe & _) _] & _).
  assert (dom (mem s1) = dom (mem s)) as Hdom.
  { unfold same_payload in Hs. apply (f_equal dom) in Hs. by rewrite !dom_fmap_L in Hs. }
  unfold error_reset. rewrite Hqe. simpl must. rewrite bind_ret.
  destruct ((0 <? numErrors qe)%Z && _ && _) eqn:Hc.
  - apply andb_true_iff in Hc as [Hc _]. apply andb_true_iff in Hc as [Hn Hc].
    rewrite bind_ret. eexists _, q, ys. split; [reflexivity|].
    destruct Hcf as (C1 & C2 & C3).
    split_and!; try done.
    + apply view_errors; [done|done|]. intros Hh. destruct (v_data _ _ _ Hv1 q qe Hqe) as (_ & ? & _). lia.
    + simpl. rewrite dom_insert_lookup_L by (by eexists). done.
    + rewrite C2 in Hc. lia.
  - rewrite bind_ret. exists s1, q, ys. by split_and!.
Qed.

Lemma stat_at stale s xs p e :
  view_but stale s xs -> mem s !! p = Some e -> exists v, stat_ok (EndpointStats (stats s)) (url e) v.
Proof. intros [_ Hd _ _] He. destruct (Hd p e He) as (_ & _ & _ & v & Hv & _). by exists v. Qed.

(** The counters of an endpoint. *)
Lemma ep_count_correct stale s xs p e k f :
  view_but stale s xs -> mem s !! p = Some e -> k < HTTP_ENDPOINT_STATS_STATE ->
  exists st', ep_stat (url e) k f s = Ret (set_stats st' s) /\ view_but stale (set_stats st' s) xs.
Proof.
  intros Hv He Hk. destruct (stat_at _ _ _ _ _ Hv He) as [v Hs].
  rewrite (ep_stat_Ret _ _ _ _ v) by (done || (unfold HTTP_ENDPOINT_STATS_STATE, HTTP_ENDPOINT_STATS_LEN in *; lia)).
  eexists. split; [reflexivity|]. apply (view_count stale s xs (url e) k f); [lia|done].
Qed.

Lemma send_stats_correct s xs p len r :
  view s xs -> p ∈ dom (mem s) ->
  exists st', send_stats p len r s = Ret (set_stats st' s) /\ view (set_stats st' s) xs.
Proof.
  intros Hv [e He]%elem_of_dom. unfold send_stats. rewrite He. simpl must. rewrite bind_ret. unfold ep_count.
  destruct (ep_count_correct _ s xs p e HTTP_ENDPOINT_STATS_SEND_BUFFER_COUNT (fun v => u64 (v + 1)) Hv He)
    as (st1 & -> & Hv1); [vm_compute; lia|]. rewrite bind_ret.
  assert (exists st2, (if sent r then ep_stat (url e) HTTP_ENDPOINT_STATS_SEND_BUFFER_BYTE_COUNT
     (fun v => u64 (v + u64 len)) (set_stats st1 s) else Ret (set_stats st1 s)) = Ret (set_stats st2 s) /\
     view (set_stats st2 s) xs) as (st2 & -> & Hv2).
  { destruct (sent r); [|by exists st1].
    destruct (ep_count_correct _ (set_stats st1 s) xs p e HTTP_ENDPOINT_STATS_SEND_BUFFER_BYTE_COUNT
      (fun v => u64 (v + u64 len)) Hv1 He) as (st2 & -> & Hv2); [vm_compute; lia|]. by exists st2. }
  rewrite bind_ret. destruct (success r); [by exists st2|].
  destruct (ep_count_correct _ (set_stats st2 s) xs p e HTTP_ENDPOINT_STATS_SEND_BUFFER_ERROR_COUNT
    (fun v => u64 (v + 1)) Hv2 He) as (st3 & -> & Hv3); [vm_compute; lia|]. by exists st3.
Qed.

Lemma dom_others p s s' :
  others_same p s s' -> p ∈ dom (mem s) -> p ∈ dom (mem s') -> dom (mem s') = dom (mem s).
Proof.
  intros Ho Hp Hp'. apply set_eq. intros q. destruct (decide (q = p)) as [->|Hq]; [tauto|].
  specialize (Ho q Hq). rewrite !elem_of_dom. destruct (mem s' !! q), (mem s !! q); try done; split; by intros [].
Qed.

(** ** Every event keeps the invariant *)

Lemma end_check_inv p s :
  inv s -> p ∈ checks s -> exists s', end_check p s = Ret s' /\ inv s' /\ dom (mem s') = dom (mem s).
Proof.
  intros (xs & Hv & Hnd & Hck) Hp. unfold end_check. pose proof Hp as [Hd Hni]%Hck. pose proof Hd as [e He]%elem_of_dom.
  assert (healthy e = false) as Hh.
  { destruct (v_data _ _ _ Hv p e He) as (Hin & _). destruct (healthy e); [|done].
    by specialize (proj1 Hin eq_refl). }
  destruct (MoveToHealthy_correct s xs p e Hv He Hh) as (s' & e' & Hm & Hv' & He' & _ & Hc & Ho & _).
  assert (dom (mem s') = dom (mem s)) as Hdm by (apply (dom_others p); [done|done|apply elem_of_dom; by eexists]).
  rewrite Hm, bind_ret. eexists. split; [done|]. split; [|done]. exists (xs ++ [p]).
  split; [by apply (view_frame _ s')|].
  unfold checks_ok. simpl. rewrite Hc. split; [by apply NoDup_filter|]. intros q. simpl. rewrite Hdm.
  rewrite list_elem_of_filter, Hck, elem_of_app, list_elem_of_singleton. tauto.
Qed.

Lemma inv_stats s st xs :
  view (set_stats st s) xs -> checks_ok s xs -> inv (set_stats st s).
Proof. intros Hv Hc. by exists xs. Qed.

Lemma ReportError_inv now p s :
  inv s -> p ∈ dom (mem s) -> exists s', ReportError now p s = Ret s' /\ inv s' /\
    dom (mem s') = dom (mem s).
Proof.
  intros (xs & Hv & Hnd & Hck) Hd. pose proof Hd as [e He]%elem_of_dom.
  destruct (v_data _ _ _ Hv p e He) as (Hin & _). destruct (healthy e) eqn:Hh.
  - apply proj1 in Hin. specialize (Hin eq_refl). apply list_elem_of_split in Hin as (x1 & x2 & ->).
    destruct (ReportError_healthy s x1 x2 p e now Hv He)
      as (s' & e' & Hr & He' & _ & _ & _ & Ho & _ & Hcase).
    assert (dom (mem s') = dom (mem s)) as Hdm by (apply (dom_others p); [done|done|apply elem_of_dom; by eexists]).
    exists s'. split; [done|]. split; [|done].
    destruct (_ <? _)%Z; destruct Hcase as (Hv' & Hc' & Hh').
    + exists (x1 ++ x2 ++ [p]). split; [done|]. unfold checks_ok. rewrite Hc'. split; [done|]. intros q.
      rewrite Hck, Hdm, !elem_of_app, elem_of_cons, list_elem_of_singleton. tauto.
    + exists (x1 ++ x2). split; [done|]. unfold checks_ok. rewrite Hc'. split.
      * apply NoDup_cons. split; [|done]. rewrite Hck. intros [_ Hn]. apply Hn.
        rewrite elem_of_app, elem_of_cons. tauto.
      * intros q. rewrite elem_of_cons, Hck, Hdm, !elem_of_app, elem_of_cons.
        destruct (v_data _ _ _ Hv' p e' He') as (Hin' & _).
        assert (p ∉ x1 ++ x2) as Hnp by (intros Hx; apply Hin' in Hx; congruence).
        rewrite elem_of_app in Hnp. destruct (decide (q = p)) as [->|]; tauto.
  - destruct (ReportError_unhealthy s xs p e now Hv He Hh) as (s' & e' & Hr & Hv' & Hc' & He' & _ & Ho & _).
    assert (dom (mem s') = dom (mem s)) as Hdm by (apply (dom_others p); [done|done|apply elem_of_dom; by eexists]).
    exists s'. split; [done|]. split; [|done]. exists xs. split; [done|]. unfold checks_ok. rewrite Hc', Hdm. by split.
Qed.

Lemma select_inv t s :
  inv s -> exists s' o, select t s = Ret (s', o) /\ inv s' /\ dom (mem s') = dom (mem s) /\
    (forall p, o = Some p -> p ∈ dom (mem s')).
Proof.
  intros (xs & Hv & Hnd & Hck). destruct xs as [|p xs].
  - pose proof (v_repr _ _ _ Hv) as (_ & _ & Hh & _). exists s, None. unfold select. rewrite Hh.
    split_and!; try done. by exists [].
  - destruct (select_correct t s p xs Hv) as (s' & q & ys & Hs & Hv' & Hxs & Hc & _ & _ & Hdm & _).
    exists s', (Some q). split_and!; [done| |done|].
    + exists (q :: ys). split; [done|]. unfold checks_ok. rewrite Hc. split; [done|]. intros r. rewrite Hck, Hdm.
      destruct Hxs as [[-> ->]|(zs & -> & ->)]; [tauto|].
      rewrite !elem_of_cons, elem_of_app, list_elem_of_singleton. tauto.
    + intros r [= <-]. pose proof (v_repr _ _ _ Hv') as (_ & [(e & He & _) _] & _).
      apply elem_of_dom. by eexists.
Qed.

Lemma health_check_inv p x s :
  inv s -> p ∈ checks s ->
  exists s', health_check p x s = Ret s' /\ inv s' /\ dom (mem s') = dom (mem s).
Proof.
  intros (xs & Hv & Hck) Hb. pose proof Hck as [Hnd Hck']. pose proof Hb as [Hd _]%Hck'.
  pose proof Hd as [e He]%elem_of_dom.
  unfold health_check. rewrite He. simpl must. rewrite bind_ret. unfold ep_count.
  destruct (ep_count_correct _ s xs p e HTTP_ENDPOINT_STATS_HEALTH_CHECK_COUNT (fun v => u64 (v + 1)) Hv He)
    as (st1 & -> & Hv1); [vm_compute; lia|]. rewrite bind_ret. destruct (success x).
  - eexists. split; [reflexivity|]. split; [|done]. exists xs. split; [by apply (view_frame _ (set_stats st1 s))|done].
  - destruct (ep_count_correct _ (set_stats st1 s) xs p e HTTP_ENDPOINT_STATS_HEALTH_CHECK_ERROR_COUNT
      (fun v => u64 (v + 1)) Hv1 He) as (st2 & -> & Hv2); [vm_compute; lia|].
    eexists. split; [reflexivity|]. split; [by exists xs|done].
Qed.

Lemma exec_inv e s r :
  inv s -> exec e s = Some r -> exists s', r = Ret s' /\ inv s' /\ dom (mem s') = dom (mem s).
Proof.
  intros Hinv He. destruct e as [t|now p|p x|p|p len x|]; unfold exec in He.
  - destruct (shutdown s); [done|]. injection He as <-.
    destruct (select_inv t s Hinv) as (s' & o & -> & Hi & Hd & _). rewrite bind_ret. by exists s'.
  - case_bool_decide as Hb; [|done]. injection He as <-. apply ReportError_inv; [done|by apply elem_of_dom].
  - case_bool_decide as Hb; [|done]. destruct (bool_decide (p ∉ passed s)); [|done]. injection He as <-.
    by apply health_check_inv.
  - case_bool_decide as Hb; [|done]. destruct (shutdown s || _); [|done]. injection He as <-. by apply end_check_inv.
  - case_bool_decide as Hb; [|done]. injection He as <-. destruct Hinv as (xs & Hv & Hck).
    destruct (send_stats_correct s xs p len x Hv) as (st & -> & Hv'); [by apply elem_of_dom|].
    eexists. split; [reflexivity|]. split; [by apply (inv_stats s st xs)|done].
  - injection He as <-. eexists. split; [reflexivity|]. split; [|done]. destruct Hinv as (xs & Hv & Hck).
    exists xs. split; [by apply (view_frame _ s)|done].
Qed.

(** Only [Shutdown] writes the flag; the list of checks changes with a check that
    ends and with an error report. *)
Ltac keeps_flag :=
  repeat match goal with
  | H : (_ ≫= _) = Ret _ |- _ =>
    let x := fresh "x" in let H1 := fresh "H" in apply bind_Ret_inv in H as (x & H1 & H)
  | H : (let '(_, _) := ?x in _) = Ret _ |- _ => destruct x
  | H : (if ?b then _ else _) = Ret _ |- _ => destruct b
  | H : match ?x with Some _ => _ | None => _ end = Ret _ |- _ => destruct x
  | H : Ret _ = Ret _ |- _ => injection H; clear H; intros; subst
  end.

Lemma ep_stat_flag u k f s s' : ep_stat u k f s = Ret s' -> shutdown s' = shutdown s /\ checks s' = checks s.
Proof. unfold ep_stat. intros H. by keeps_flag. Qed.

Lemma pool_count_flag k s s' : pool_count k s = Ret s' -> shutdown s' = shutdown s /\ checks s' = checks s.
Proof. unfold pool_count. intros H. by keeps_flag. Qed.

Ltac flag := repeat match goal with
  | H : ep_stat _ _ _ _ = Ret _ |- _ => apply ep_stat_flag in H as [? ?]
  | H : ep_state _ _ _ = Ret _ |- _ => apply ep_stat_flag in H as [? ?]
  | H : ep_count _ _ _ = Ret _ |- _ => apply ep_stat_flag in H as [? ?]
  | H : pool_count _ _ = Ret _ |- _ => apply pool_count_flag in H as [? ?]
  end; simpl in *; try split; congruence.

Lemma MoveToHealthy_flag p s s' : MoveToHealthy p s = Ret s' -> shutdown s' = shutdown s /\ checks s' = checks s.
Proof. unfold MoveToHealthy. intros H. keeps_flag; flag. Qed.

Lemma ReportError_flag now p s s' : ReportError now p s = Ret s' -> shutdown s' = shutdown s.
Proof. unfold ReportError. intros H. keeps_flag; flag. Qed.

Lemma select_flag t s s' o : select t s = Ret (s', o) -> shutdown s' = shutdown s.
Proof. unfold select, rotate, error_reset. intros H. keeps_flag; flag. Qed.

Lemma send_stats_flag p len r s s' : send_stats p len r s = Ret s' -> shutdown s' = shutdown s.
Proof. unfold send_stats. intros H. keeps_flag; flag. Qed.

Lemma exec_flag e s s' : exec e s = Some (Ret s') -> e <> EShutdown -> shutdown s' = shutdown s.
Proof.
  intros H Hne. destruct e as [t|now p|p x|p|p len x|]; unfold exec in H; [| | | | |done].
  - destruct (shutdown s) eqn:E; [done|]. injection H as H. apply bind_Ret_inv in H as ([s1 o] & H1 & [= <-]).
    apply select_flag in H1. congruence.
  - case_bool_decide; [|done]. injection H as H. by eapply ReportError_flag.
  - destruct (_ && _); [|done]. injection H as H. unfold health_check in H. keeps_flag; flag.
  - destruct (_ && _); [|done]. injection H as H. unfold end_check in H. keeps_flag.
    repeat match goal with H : MoveToHealthy _ _ = Ret _ |- _ => apply MoveToHealthy_flag in H as [? ?] end. flag.
  - case_bool_decide; [|done]. injection H as H. by eapply send_stats_flag.
Qed.

Lemma end_check_checks p s s' : end_check p s = Ret s' -> checks s' = filter (fun q => q <> p) (checks s).
Proof. unfold end_check. intros H. keeps_flag. simpl. by apply MoveToHealthy_flag in H0 as [_ ->]. Qed.

(** What a pool that was made says of its endpoints. *)
Lemma add_endpoints_made parse thr cfgs : forall ep s s', add_endpoints parse thr ep cfgs s = Ret (Some s') ->
  Forall (fun c => parse (endpoint_cfg thr c).1 = true) cfgs /\ shutdown s' = shutdown s.
Proof.
  induction cfgs as [|c cfgs IH]; intros ep s s' H; cbn [add_endpoints] in H; [by injection H as <-|].
  unfold NewHttpEndpoint in H. cbn [default from_option id] in H. destruct (endpoint_cfg thr c) as [u t] eqn:E.
  destruct (parse u) eqn:Hp; [|done]. apply bind_Ret_inv in H as (s1 & H1 & H). apply MoveToHealthy_flag in H1 as [H1 _].
  destruct (IH _ _ _ H) as [Hall Hs]. split; [constructor; [by rewrite E|done]|]. rewrite Hs, H1. done.
Qed.

(** Without running checks every endpoint is in the healthy list. *)
Lemma no_checks_healthy s : inv s -> checks s = [] ->
  exists xs, view s xs /\ forall p, p ∈ dom (mem s) -> p ∈ xs.
Proof.
  intros (xs & Hv & _ & Hck) Hn. exists xs. split; [done|]. intros p Hp. destruct (decide (p ∈ xs)) as [|Hni]; [done|].
  assert (p ∈ checks s) as Hin by (by apply Hck). rewrite Hn in Hin. by apply elem_of_nil in Hin.
Qed.

Lemma exec_all_inv es s :
  inv s -> exists s', exec_all es s = Ret s' /\ inv s' /\ dom (mem s') = dom (mem s).
Proof.
  revert s. induction es as [|e es IH]; intros s Hi; simpl; [by exists s|].
  destruct (exec e s) as [r|] eqn:E; [|by apply IH].
  destruct (exec_inv e s r Hi E) as (s1 & -> & Hi1 & Hd1). rewrite bind_ret.
  destruct (IH s1 Hi1) as (s2 & -> & Hi2 & Hd2). exists s2. split_and!; [done|done|congruence].
Qed.

(** ** Construction *)

Definition cfg_ok (cfg : bytes * Z) : Prop := (0 < cfg.2 <= MaxInt64)%Z.

(** A new endpoint is unhealthy until it is moved to the list. *)
Lemma view_new s xs ep u t :
  view s xs -> (ep ∉ dom (mem s)) -> (ep ∉ xs) -> (forall q e, mem s !! q = Some e -> url e <> u) ->
  (0 < t <= MaxInt64)%Z ->
  view (set_stats (mkStats (PoolStats (stats s))
          (<[u := replicate HTTP_ENDPOINT_STATS_LEN 0%Z]> (EndpointStats (stats s))))
        (set_mem (<[ep := mkEndpoint u t false 0 zeroTime None None]> (mem s)) s)) xs.
Proof.
  intros [Hr Hd Hu Hp] Hep Hxs Hur Ht. split; [| | |done]; simpl.
  - destruct Hr as (Hn & Hl & Hh). split; [done|]. split; [by apply links_frame|done].
  - intros q e [[<- <-]|[Hne He]]%lookup_insert_Some.
    + split; [done|]. split; [done|]. split; [done|].
      exists HTTP_ENDPOINT_STATE_IN_HEALTH_CHECK. split; [|intros _; by rewrite state_of_out].
      eexists. simpl. rewrite lookup_insert_eq. done.
    + destruct (Hd q e He) as (H1 & H2 & H3 & v & (l & Hl & H4) & H5).
      split; [done|]. split; [done|]. split; [done|]. exists v. split; [|done]. exists l.
      rewrite lookup_insert_ne; [done|]. intros E. by apply (Hur q e He).
  - intros p q e f [[<- <-]|[Hnp He]]%lookup_insert_Some [[<- <-]|[Hnq Hf]]%lookup_insert_Some; simpl; intros E.
    + done.
    + by destruct (Hur q f Hf).
    + by destruct (Hur p e He).
    + by apply (Hu p q e f).
Qed.

Definition cfg_urls (thr : Z) (cfgs : list (bytes * Z)) : list bytes :=
  map (fun c => (endpoint_cfg thr c).1) cfgs.

Lemma add_endpoints_correct parse thr cfgs : forall ep s xs,
  view s xs -> checks s = [] -> (forall q, q ∈ dom (mem s) <-> q ∈ xs) -> (forall q, q ∈ xs -> q < ep) ->
  Forall (fun c => cfg_ok (endpoint_cfg thr c) /\ parse (endpoint_cfg thr c).1 = true) cfgs ->
  NoDup (cfg_urls thr cfgs) ->
  (forall q e, mem s !! q = Some e -> url e ∉ cfg_urls thr cfgs) ->
  exists s', add_endpoints parse thr ep cfgs s = Ret (Some s') /\
    view s' (xs ++ seq ep (length cfgs)) /\ checks_ok s' (xs ++ seq ep (length cfgs)).
Proof.
  induction cfgs as [|c cfgs IH]; intros ep s xs Hv Hck Hdom Hlt Hok Hnd Hur; cbn [add_endpoints].
  { exists s. split; [done|]. simpl. rewrite app_nil_r. split; [done|].
    unfold checks_ok. rewrite Hck. split; [constructor|]. intros q. rewrite Hdom. set_solver. }
  apply Forall_cons in Hok as [[Hc Hp] Hok]. unfold cfg_urls in Hnd, Hur. cbn [map] in Hnd, Hur.
  fold (cfg_urls thr cfgs) in Hnd, Hur. apply NoDup_cons in Hnd as [Hnc Hnd].
  destruct (endpoint_cfg thr c) as [u t] eqn:E. cbn [fst] in Hp, Hnc, Hur.
  unfold NewHttpEndpoint. cbn [default from_option id]. rewrite Hp.
  assert (ep ∉ xs) as Hep by (intros H; apply Hlt in H; lia).
  set (ne := mkEndpoint u t false 0 zeroTime None None). set (s1 := set_stats _ _).
  assert (view s1 xs) as Hv1.
  { apply (view_new s xs ep u t); [done|by rewrite Hdom|done| |done].
    intros q e He Eq. apply (Hur q e He). rewrite Eq. apply elem_of_cons. by left. }
  destruct (MoveToHealthy_correct s1 xs ep ne Hv1)
    as (s2 & e2 & -> & Hv2 & He2 & _ & Hck2 & Ho & _ & Hu2); [simpl; by rewrite lookup_insert_eq|done|].
  rewrite bind_ret.
  assert (dom (mem s2) = dom (mem s1)) as Hdm.
  { apply (dom_others ep); [done| |]; apply elem_of_dom; [simpl; rewrite lookup_insert_eq|]; by eexists. }
  destruct (IH (S ep) s2 (xs ++ [ep])) as (s' & -> & Hv'); try done.
  - rewrite Hck2. exact Hck.
  - intros q. rewrite Hdm. simpl. rewrite dom_insert, elem_of_union, elem_of_singleton, elem_of_app,
      list_elem_of_singleton, Hdom. tauto.
  - intros q. rewrite elem_of_app, list_elem_of_singleton. intros [Hq| ->]; [apply Hlt in Hq; lia|lia].
  - intros q e He. destruct (decide (q = ep)) as [->|Hne].
    + rewrite He2 in He. injection He as <-. by rewrite Hu2.
    + specialize (Ho q Hne). simpl in Ho. rewrite lookup_insert_ne, He in Ho by done.
      destruct (mem s !! q) as [f|] eqn:Hf; [|done]. simpl in Ho. injection Ho as -> _ _ _ _.
      intros Hin. apply (Hur q f Hf). apply elem_of_cons. by right.
  - exists s'. split; [done|]. simpl. by rewrite <- app_assoc in Hv'.
Qed.

Lemma NewHttpEndpointPool_correct parse rot reset thr cfgs :
  let cfgs' := match cfgs with [] => [(HTTP_ENDPOINT_URL_DEFAULT, 0%Z)] | _ => cfgs end in
  Forall (fun c => cfg_ok (endpoint_cfg thr c) /\ parse (endpoint_cfg thr c).1 = true) cfgs' ->
  NoDup (cfg_urls thr cfgs') ->
  exists s, NewHttpEndpointPool parse rot reset thr cfgs = Ret (Some s) /\
    view s (seq 0 (length cfgs')) /\ inv s.
Proof.
  intros cfgs' Hok Hnd. unfold NewHttpEndpointPool. fold cfgs'.
  destruct (add_endpoints_correct parse thr cfgs' 0 (empty_pool rot reset) []) as (s & Hs & Hv & Hc); try done.
  - split; try done. split; [constructor|]. done.
  - set_solver.
  - intros q Hq. by apply not_elem_of_nil in Hq.
  - exists s. split; [done|]. split; [done|]. by eexists.
Qed.

(** ** SendBuffer *)

Lemma GetCurrentHealthy_inv wait t s :
  inv s -> exists s' o, GetCurrentHealthy wait t s = Ret (s', o) /\ inv s' /\
    (forall p, o = Some p -> p ∈ dom (mem s')).
Proof.
  intros Hi. unfold GetCurrentHealthy. destruct (shutdown s); [by exists s, None|].
  assert (exists s1, (if bool_decide (head (healthyL s) = None) then exec_all wait s else Ret s) = Ret s1 /\ inv s1)
    as (s1 & -> & Hi1).
  { case_bool_decide; [|by exists s]. destruct (exec_all_inv wait s Hi) as (s1 & ? & ? & _). by exists s1. }
  rewrite bind_ret. destruct (select_inv t s1 Hi1) as (s2 & o & -> & Hi2 & _ & Ho). by exists s2, o.
Qed.

(** One attempt: it returns, keeps the invariant, and its result is that of the
    response. *)
Lemma send_attempt_inv len n a s :
  inv s -> exists s' o, send_attempt len n a s = Ret (s', o) /\ inv s' /\
    match o with
    | Some None => exists p, success (a_resp a p) = true
    | Some (Some (ErrStatus k r)) => k = n /\ exists p, r = a_resp a p /\ success r = false /\ sent r = true
    | Some (Some (ErrNoHealthyEP k)) => k = n
    | None => exists p, sent (a_resp a p) = false
    end.
Proof.
  intros Hi. unfold send_attempt. destruct (exec_all_inv (a_before a) s Hi) as (s1 & -> & Hi1 & _).
  rewrite bind_ret. destruct (GetCurrentHealthy_inv (a_wait a) (a_clocks a) s1 Hi1) as (s2 & o & -> & Hi2 & Ho).
  rewrite bind_ret. destruct o as [p|].
  - destruct (exec_all_inv (a_during a) s2 Hi2) as (s3 & -> & (xs & Hv & Hck) & Hd). rewrite bind_ret.
    specialize (Ho p eq_refl).
    destruct (send_stats_correct s3 xs p len (a_resp a p) Hv) as (st & -> & Hv4); [by rewrite Hd|].
    rewrite bind_ret. assert (inv (set_stats st s3)) as Hi4 by (by exists xs).
    destruct (success (a_resp a p)) eqn:Hs; [eexists _, _; split; [reflexivity|]; split; [done|by exists p]|].
    destruct (nonRetryable (a_resp a p)) eqn:Hn.
    + eexists _, _. split; [reflexivity|]. split; [done|]. split; [done|]. exists p.
      by destruct (a_resp a p).
    + destruct (ReportError_inv (a_report a) p (set_stats st s3) Hi4) as (s5 & -> & Hi5 & _); [by rewrite <- Hd in Ho|].
      rewrite bind_ret. eexists _, _. split; [reflexivity|]. split; [done|]. exists p. by destruct (a_resp a p).
  - destruct Hi2 as (xs & Hv & Hck).
    destruct (pool_count_correct _ s2 xs HTTP_ENDPOINT_POOL_STATS_NO_HEALTHY_EP_ERROR_COUNT Hv)
      as (st & -> & Hv'); [vm_compute; lia|].
    rewrite bind_ret. eexists _, _. split; [reflexivity|]. split; [by exists xs|done].
Qed.

(** ** How long SendBuffer goes on *)

(** Nobody else uses the pool during the attempt. *)
Definition quiet (a : attempt) : Prop := a_before a = [] /\ a_wait a = [] /\ a_during a = [].

(** The errors that an endpoint, and a list of them, can still take. *)
Definition errors_left (m : memory) (p : nat) : Z :=
  match m !! p with Some e => (markUnhealthyThreshold e - numErrors e)%Z | None => 0%Z end.
Definition budget (m : memory) (xs : list nat) : Z := foldr (fun p n => (errors_left m p + n)%Z) 0%Z xs.

Lemma budget_app m xs ys : budget m (xs ++ ys) = (budget m xs + budget m ys)%Z.
Proof. unfold budget. induction xs as [|x xs IH]; simpl; [done|]. rewrite IH. lia. Qed.

Lemma budget_ext m m' xs :
  (forall p, p ∈ xs -> payload <$> (m' !! p) = payload <$> (m !! p)) -> budget m' xs = budget m xs.
Proof.
  induction xs as [|x xs IH]; intros H; [done|]. simpl. rewrite IH by (intros; apply H; by apply elem_of_cons; right).
  f_equal. specialize (H x ltac:(apply elem_of_cons; by left)). unfold errors_left.
  destruct (m' !! x) as [e'|], (m !! x) as [e|]; try done. simpl in H. injection H as _ -> _ -> _. done.
Qed.

Lemma budget_nonneg s xs : view s xs -> (0 <= budget (mem s) xs)%Z.
Proof.
  intros [Hr Hd _ _]. assert (forall p, p ∈ xs -> (0 <= errors_left (mem s) p)%Z) as H.
  { intros p Hp. unfold errors_left. destruct (mem s !! p) as [e|] eqn:He; [|lia].
    destruct (Hd p e He) as (Hin & ? & Hn & _). apply Hin in Hp. specialize (Hn Hp). lia. }
  clear Hr Hd. induction xs as [|x xs IH]; simpl; [lia|].
  assert (0 <= errors_left (mem s) x)%Z by (apply H; apply elem_of_cons; by left).
  assert (0 <= budget (mem s) xs)%Z by (apply IH; intros; apply H; apply elem_of_cons; by right). lia.
Qed.

Lemma payload_lookup m m' p : same_payload m m' -> payload <$> (m' !! p) = payload <$> (m !! p).
Proof. unfold same_payload. intros H. apply (f_equal (.!! p)) in H. by rewrite !lookup_fmap in H. Qed.

(** The report of an error costs exactly one. *)
Lemma report_budget s xs ys p e now :
  view s (xs ++ p :: ys) -> mem s !! p = Some e ->
  exists s' zs, ReportError now p s = Ret s' /\ view s' zs /\ same_config s s' /\
    budget (mem s') zs = (budget (mem s) (xs ++ p :: ys) - 1)%Z /\
    forall q, q ∈ xs ++ p :: ys -> q <> p -> q ∈ zs.
Proof.
  intros Hv He. destruct (ReportError_healthy s xs ys p e now Hv He)
    as (s' & e' & Hr & He' & Hn & Ht & _ & Ho & Hcf & Hcase).
  pose proof Hv as [(Hnd & _) Hd _ _]. destruct (Hd p e He) as (Hin & _ & Hb & _).
  assert (0 <= numErrors e < markUnhealthyThreshold e)%Z as Hb'
    by (apply Hb, Hin; rewrite elem_of_app, elem_of_cons; right; by left).
  rewrite <- Permutation_middle in Hnd. apply NoDup_cons in Hnd as [Hp _].
  assert (budget (mem s') (xs ++ ys) = budget (mem s) (xs ++ ys)) as Hsame
    by (apply budget_ext; intros q Hq; apply Ho; by intros ->).
  assert (budget (mem s) (xs ++ p :: ys) = budget (mem s) (xs ++ ys) + (markUnhealthyThreshold e - numErrors e))%Z
    as Hold by (rewrite !budget_app; simpl; unfold errors_left; rewrite He; lia).
  destruct (Z.ltb_spec (numErrors e + 1) (markUnhealthyThreshold e)); destruct Hcase as (Hv' & _).
  - exists s', (xs ++ ys ++ [p]). split_and!; [done|done|apply Hcf..| |].
    + rewrite app_assoc, budget_app, Hsame, Hold. simpl. unfold errors_left. rewrite He'. lia.
    + intros q. rewrite !elem_of_app, elem_of_cons, list_elem_of_singleton. tauto.
  - exists s', (xs ++ ys). split_and!; [done|done|apply Hcf..| |].
    + rewrite Hsame, Hold. lia.
    + intros q. rewrite !elem_of_app, elem_of_cons. tauto.
Qed.

(** An undisturbed attempt with error reset disabled. *)
Lemma quiet_attempt len n a s p xs :
  view s (p :: xs) -> shutdown s = false -> (errorResetInterval s <= 0)%Z -> quiet a ->
  exists s' q, q ∈ p :: xs /\
    send_attempt len n a s =
      Ret (s', if success (a_resp a q) then Some None
               else if nonRetryable (a_resp a q) then Some (Some (ErrStatus n (a_resp a q))) else None) /\
    (sent (a_resp a q) = false ->
     exists zs, view s' zs /\ shutdown s' = false /\ (errorResetInterval s' <= 0)%Z /\
       budget (mem s') zs = (budget (mem s) (p :: xs) - 1)%Z /\
       forall r, r ∈ p :: xs -> r <> q -> r ∈ zs).
Proof.
  intros Hv Hsd Hrs (Hb & Hw & Hdu). unfold send_attempt. rewrite Hb, Hdu. cbn [exec_all]. rewrite bind_ret.
  unfold GetCurrentHealthy. rewrite Hsd. pose proof (v_repr _ _ _ Hv) as (_ & _ & Hh & _).
  rewrite bool_decide_eq_false_2 by (rewrite Hh; done). rewrite bind_ret.
  destruct (select_correct (a_clocks a) s p xs Hv)
    as (s1 & q & ys & -> & Hv1 & Hxs & _ & (C1 & C2 & C3) & _ & _ & Hs). specialize (Hs Hrs).
  rewrite !bind_ret. pose proof (v_repr _ _ _ Hv1) as (_ & [(e & He & _) _] & _).
  assert (forall r, r ∈ p :: xs <-> r ∈ q :: ys) as Hset.
  { intros r. destruct Hxs as [[-> ->]|(zs & -> & ->)]; [done|].
    rewrite !elem_of_cons, elem_of_app, list_elem_of_singleton. tauto. }
  assert (budget (mem s) (p :: xs) = budget (mem s1) (q :: ys)) as Hbud.
  { rewrite (budget_ext (mem s) (mem s1)) by (intros; by apply payload_lookup).
    destruct Hxs as [[-> ->]|(zs & -> & ->)]; [done|]. simpl. rewrite budget_app. simpl. lia. }
  destruct (send_stats_correct s1 (q :: ys) q len (a_resp a q) Hv1) as (st & -> & Hv2);
    [apply elem_of_dom; by eexists|]. rewrite bind_ret.
  destruct (report_budget (set_stats st s1) [] ys q e (a_report a) Hv2 He)
    as (s3 & zs & Hrep & Hv3 & (D1 & D2 & D3) & Hbud3 & Hin3).
  destruct (success (a_resp a q)) eqn:Hsu.
  { eexists _, q. split; [by apply Hset, elem_of_cons; left|]. rewrite Hsu. split; [reflexivity|].
    by destruct (a_resp a q). }
  destruct (nonRetryable (a_resp a q)) eqn:Hnr.
  { eexists _, q. split; [by apply Hset, elem_of_cons; left|]. rewrite Hsu, Hnr. split; [reflexivity|].
    by destruct (a_resp a q). }
  rewrite Hrep, bind_ret. eexists s3, q. split; [by apply Hset, elem_of_cons; left|]. rewrite Hsu, Hnr.
  split; [reflexivity|]. intros _. exists zs. split_and!; [done|by rewrite D3; simpl; congruence|rewrite D2; simpl; lia| |].
  - rewrite Hbud, Hbud3. done.
  - intros r Hr Hne. apply Hin3; [by apply Hset|done].
Qed.

Lemma send_empty len n a rest s :
  view s [] -> shutdown s = false -> quiet a ->
  exists s', SendBuffer len n (a :: rest) s = Ret (s', Some (Some (ErrNoHealthyEP n))).
Proof.
  intros Hv Hsd (Hb & Hw & Hdu). cbn [SendBuffer]. unfold send_attempt. rewrite Hb. cbn [exec_all]. rewrite bind_ret.
  unfold GetCurrentHealthy. rewrite Hsd, Hw. cbn [exec_all]. pose proof (v_repr _ _ _ Hv) as (_ & _ & Hh & _).
  rewrite Hh, bool_decide_eq_true_2 by done. rewrite bind_ret. unfold select. rewrite Hh. cbn [first_or]. rewrite bind_ret.
  destruct (pool_count_correct _ s [] HTTP_ENDPOINT_POOL_STATS_NO_HEALTHY_EP_ERROR_COUNT Hv)
    as (st & -> & _); [vm_compute; lia|]. rewrite !bind_ret. by eexists.
Qed.

(** A single endpoint whose last error is old enough starts afresh. *)
Lemma select_single t s p e :
  view s [p] -> mem s !! p = Some e -> (0 < errorResetInterval s <= Sub (tErr t) (errorTs e))%Z ->
  exists s' e', select t s = Ret (s', Some p) /\ view s' [p] /\ mem s' !! p = Some e' /\
    numErrors e' = 0%Z /\ markUnhealthyThreshold e' = markUnhealthyThreshold e /\ same_config s s'.
Proof.
  intros Hv He Hr. pose proof (v_repr _ _ _ Hv) as (_ & _ & Hh & Htl).
  assert (exists s1, rotate t p s = Ret (s1, p) /\ view s1 [p] /\ mem s1 = mem s /\ same_config s s1)
    as (s1 & Hrot & Hv1 & Hm1 & Hc1).
  { unfold rotate. rewrite Hh, Htl, bool_decide_eq_true_2 by done.
    destruct (firstUse s).
    - eexists. split; [reflexivity|]. split; [by apply (view_frame _ s)|done].
    - exists s. by destruct (_ || _)%bool. }
  unfold select. rewrite Hh. cbn [first_or]. rewrite Hrot, bind_ret. unfold error_reset. rewrite Hm1, He.
  simpl must. rewrite bind_ret. pose proof Hc1 as (_ & Hc2 & _). rewrite Hc2.
  rewrite (proj2 (Z.ltb_lt 0 (errorResetInterval s))), (proj2 (Z.leb_le (errorResetInterval s) _)) by lia.
  rewrite !andb_true_r. destruct (v_data _ _ _ Hv p e He) as (Hin & Ht & Hn & _).
  destruct (Z.ltb_spec 0 (numErrors e)); rewrite bind_ret.
  - eexists _, (set_errors 0 (errorTs e) e). split; [reflexivity|].
    split; [|split; [simpl; by rewrite lookup_insert_eq|done]]. rewrite <- Hm1. apply view_errors; [done|by rewrite Hm1|lia].
  - exists s1, e. split; [done|]. split; [done|]. split; [congruence|]. split; [|done].
    assert (healthy e = true) as Hhe by (apply Hin; apply elem_of_cons; by left). specialize (Hn Hhe). lia.
Qed.

(** Requests that fail, one every [reset] nanoseconds from [base] on. *)
Definition failing_at (ts : Time) : attempt := mkAttempt [] [] (mkClocks ts ts ts ts) (fun _ => RespErr) [] ts.
Fixpoint failing (reset base : Z) (k : nat) : list attempt :=
  match k with
  | O => []
  | S k => failing_at (mkTime base None) :: failing reset (base + reset) k
  end.

(** ** Properties *)

(** C14: a pool built from endpoints with distinct URLs is never corrupted and
    never panics, whatever the senders, the health checks and a shutdown do and
    in whatever order: the linked list is consistent and holds exactly the
    healthy endpoints, each below its error threshold; exactly the others have
    one health check each; the state in the statistics is the actual one. *)
Theorem endpoint_pool_invariant parse rot reset thr cfgs es :
  let cfgs' := match cfgs with [] => [(HTTP_ENDPOINT_URL_DEFAULT, 0%Z)] | _ => cfgs end in
  Forall (fun c => cfg_ok (endpoint_cfg thr c) /\ parse (endpoint_cfg thr c).1 = true) cfgs' ->
  NoDup (cfg_urls thr cfgs') ->
  exists s s' xs, NewHttpEndpointPool parse rot reset thr cfgs = Ret (Some s) /\
    exec_all es s = Ret s' /\ view s' xs /\ checks_ok s' xs.
Proof.
  intros cfgs' Hok Hnd. destruct (NewHttpEndpointPool_correct parse rot reset thr cfgs Hok Hnd)
    as (s & Hn & _ & Hi). destruct (exec_all_inv es s Hi) as (s' & He & (xs & Hv & Hc) & _).
  by exists s, s', xs.
Qed.

(** an error report moves a healthy endpoint to the tail of the list while its
    errors are below the threshold and takes it off the list, with a health
    check, when they reach it; the order of the other endpoints is kept. *)
Theorem report_error_moves s xs ys p e now :
  view s (xs ++ p :: ys) -> mem s !! p = Some e ->
  exists s', ReportError now p s = Ret s' /\
    if (numErrors e + 1 <? markUnhealthyThreshold e)%Z
    then view s' (xs ++ ys ++ [p]) /\ checks s' = checks s
    else view s' (xs ++ ys) /\ checks s' = p :: checks s.
Proof.
  intros Hv He. destruct (ReportError_healthy s xs ys p e now Hv He)
    as (s' & e' & Hr & _ & _ & _ & _ & _ & _ & Hcase).
  exists s'. split; [done|]. destruct (_ <? _)%Z; tauto.
Qed.

(** [GetCurrentHealthy] of a pool with a healthy endpoint returns one that is
    at the head of the list: the head itself, or the next one when the head was
    rotated to the tail; it loses no endpoint. *)
Theorem get_current_healthy_head wait t s p xs :
  view s (p :: xs) -> shutdown s = false ->
  exists s' q ys, GetCurrentHealthy wait t s = Ret (s', Some q) /\ view s' (q :: ys) /\
    ((q = p /\ ys = xs) \/ (exists zs, xs = q :: zs /\ ys = zs ++ [p])).
Proof.
  intros Hv Hs. unfold GetCurrentHealthy. rewrite Hs. pose proof (v_repr _ _ _ Hv) as (_ & _ & Hh & _).
  rewrite bool_decide_eq_false_2 by (rewrite Hh; done). rewrite bind_ret.
  destruct (select_correct t s p xs Hv) as (s' & q & ys & H1 & H2 & H3 & _). by exists s', q, ys.
Qed.

(** C16: whatever the endpoints answer and the other goroutines do, [SendBuffer]
    neither panics nor corrupts the pool; it reports success only after a
    success response, a status error only after a response that is not one of
    success, and goes on only after an attempt that got no response. *)
Theorem send_buffer_sound len attempts : forall n s,
  inv s -> exists s' o, SendBuffer len n attempts s = Ret (s', o) /\ inv s' /\
    match o with
    | Some None => exists a p, a ∈ attempts /\ success (a_resp a p) = true
    | Some (Some (ErrStatus k r)) => n <= k < n + length attempts /\ success r = false /\ sent r = true
    | Some (Some (ErrNoHealthyEP k)) => n <= k < n + length attempts
    | None => Forall (fun a => exists p, sent (a_resp a p) = false) attempts
    end.
Proof.
  induction attempts as [|a rest IH]; intros n s Hi; cbn [SendBuffer]; [by exists s, None|].
  destruct (send_attempt_inv len n a s Hi) as (s1 & o & -> & Hi1 & Ho). rewrite bind_ret.
  destruct o as [res|].
  - exists s1, (Some res). split; [done|]. split; [done|]. destruct res as [[k|k r]|]; cbn [length].
    + lia.
    + destruct Ho as (-> & p & -> & ? & ?). split; [lia|done].
    + destruct Ho as [p Hp]. exists a, p. split; [by apply elem_of_cons; left|done].
  - destruct (IH (S n) s1 Hi1) as (s2 & o & -> & Hi2 & Ho2). exists s2, o. split; [done|]. split; [done|].
    destruct o as [[[k|k r]|]|]; cbn [length].
    + lia.
    + destruct Ho2 as (? & ?). split; [lia|done].
    + destruct Ho2 as (a' & p & ? & ?). exists a', p. split; [by apply elem_of_cons; right|done].
    + by constructor.
Qed.

(** C15: without error reset, an undisturbed [SendBuffer] returns after at most as
    many failed attempts as errors the healthy endpoints can still take; and if
    one of them accepts the buffer and the others accept it or do not answer,
    the buffer is sent. *)
Theorem send_buffer_terminates len attempts : forall n s xs,
  view s xs -> shutdown s = false -> (errorResetInterval s <= 0)%Z -> Forall quiet attempts ->
  (budget (mem s) xs < Z.of_nat (length attempts))%Z ->
  exists s' res, SendBuffer len n attempts s = Ret (s', Some res) /\
    forall p, p ∈ xs -> (forall a, a ∈ attempts -> success (a_resp a p) = true) ->
      (forall a q, a ∈ attempts -> sent (a_resp a q) = true -> success (a_resp a q) = true) -> res = None.
Proof.
  induction attempts as [|a rest IH]; intros n s xs Hv Hsd Hrs Hq Hlt.
  { pose proof (budget_nonneg s xs Hv). simpl in Hlt. lia. }
  apply Forall_cons in Hq as [Ha Hq]. destruct xs as [|x xs].
  { destruct (send_empty len n a rest s Hv Hsd Ha) as (s' & Hs'). exists s', (Some (ErrNoHealthyEP n)).
    split; [exact Hs'|]. intros p Hp. by apply not_elem_of_nil in Hp. }
  destruct (quiet_attempt len n a s x xs Hv Hsd Hrs Ha) as (s1 & q & Hqin & Hatt & Hgo).
  cbn [SendBuffer]. rewrite Hatt, bind_ret.
  destruct (success (a_resp a q)) eqn:Hsu; [by exists s1, None|].
  destruct (nonRetryable (a_resp a q)) eqn:Hnr.
  { eexists _, _. split; [reflexivity|]. intros p _ _ Hsent. specialize (Hsent a q).
    rewrite Hsent in Hsu; [done|by apply elem_of_cons; left|by destruct (a_resp a q)]. }
  destruct Hgo as (zs & Hv1 & Hsd1 & Hrs1 & Hb1 & Hin1); [by destruct (a_resp a q)|].
  destruct (IH (S n) s1 zs Hv1 Hsd1 Hrs1 Hq) as (s2 & res & -> & Hres); [cbn [length] in Hlt; lia|].
  exists s2, res. split; [done|]. intros p Hp Hps Hsent. apply (Hres p).
  - apply Hin1; [done|]. intros ->. rewrite Hps in Hsu; [done|by apply elem_of_cons; left].
  - intros b Hb. apply Hps. by apply elem_of_cons; right.
  - intros b r Hb. apply Hsent. by apply elem_of_cons; right.
Qed.

(** the timeout of [SendBuffer] only bounds the wait for a healthy endpoint:
    when every request to the only endpoint fails after the error reset
    interval, the errors never add up to a threshold above one and
    [SendBuffer] is still trying after any number of attempts, however much
    time has passed. *)
Theorem send_buffer_outlives_timeout len k : forall n s p e base,
  view s [p] -> mem s !! p = Some e -> shutdown s = false ->
  (1 < markUnhealthyThreshold e)%Z -> (0 < errorResetInterval s <= MaxInt64)%Z ->
  (errorResetInterval s + wall (errorTs e) <= base <= MaxInt64 + wall (errorTs e))%Z ->
  exists s', SendBuffer len n (failing (errorResetInterval s) base k) s = Ret (s', None).
Proof.
  induction k as [|k IH]; intros n s p e base Hv He Hsd Ht Hr Hb; cbn [failing SendBuffer]; [by exists s|].
  set (ts := mkTime base None).
  assert (Sub ts (errorTs e) = (base - wall (errorTs e))%Z) as Hsub.
  { unfold Sub, ts. simpl. unfold saturate, MinInt64, MaxInt64 in *. lia. }
  destruct (select_single (mkClocks ts ts ts ts) s p e Hv He) as (s1 & e1 & Hsel & Hv1 & He1 & Hn1 & Ht1 & C1 & C2 & C3);
    [cbn [tErr]; lia|].
  unfold send_attempt, failing_at. cbn [a_before a_wait a_clocks a_resp a_during a_report exec_all]. rewrite bind_ret.
  unfold GetCurrentHealthy. rewrite Hsd. pose proof (v_repr _ _ _ Hv) as (_ & _ & Hh & _).
  rewrite bool_decide_eq_false_2 by (rewrite Hh; done). rewrite bind_ret, Hsel, !bind_ret.
  destruct (send_stats_correct s1 [p] p len RespErr Hv1) as (st & -> & Hv2); [apply elem_of_dom; by eexists|].
  rewrite bind_ret. cbn [success nonRetryable].
  destruct (ReportError_healthy (set_stats st s1) [] [] p e1 ts Hv2 He1)
    as (s3 & e3 & -> & He3 & Hn3 & Ht3 & Hts & _ & (D1 & D2 & D3) & Hcase).
  rewrite (proj2 (Z.ltb_lt _ _)) in Hcase by lia. destruct Hcase as (Hv3 & _). rewrite !bind_ret.
  assert (errorResetInterval s3 = errorResetInterval s) as Er by (rewrite D2; simpl; congruence).
  rewrite <- Er. apply (IH (S n) s3 p e3); try done; [rewrite D3; simpl; congruence|lia|lia|rewrite Hts; simpl; lia].
Qed.

(** ** Witnesses *)

Definition sample_cfgs : list (bytes * Z) := [(bs "http://a", 1%Z); (bs "http://b", 2%Z)].
Definition parse_any (u : bytes) : bool := true.
Definition sample_pool (reset : Z) (cfgs : list (bytes * Z)) : HttpEndpointPool :=
  match NewHttpEndpointPool parse_any 0 reset 0 cfgs with Ret (Some s) => s | _ => empty_pool 0 0 end.

Lemma sample_view reset cfgs :
  cfgs <> [] -> Forall (fun c => (0 < c.2 <= MaxInt64)%Z /\ c.1 <> []) cfgs -> NoDup (map fst cfgs) ->
  view (sample_pool reset cfgs) (seq 0 (length cfgs)) /\ inv (sample_pool reset cfgs).
Proof.
  intros Hne Hok Hnd.
  assert (forall c, c ∈ cfgs -> endpoint_cfg 0 c = c) as Hc.
  { intros [u t] Hin. rewrite Forall_forall in Hok. destruct (Hok _ Hin) as [Ht Hu]. simpl in *.
    unfold endpoint_cfg. simpl. rewrite bool_decide_eq_false_2 by done.
    by rewrite !(proj2 (Z.leb_gt t 0)) by lia. }
  destruct (NewHttpEndpointPool_correct parse_any 0 reset 0 cfgs) as (s & Hs & Hv & Hi).
  - destruct cfgs as [|c cfgs]; [done|]. apply Forall_forall. intros x Hx. rewrite Hc by done. split; [|done].
    rewrite Forall_forall in Hok. by apply Hok.
  - destruct cfgs as [|c cfgs]; [done|]. unfold cfg_urls.
    replace (map (fun c0 => (endpoint_cfg 0 c0).1) (c :: cfgs)) with (map fst (c :: cfgs)); [done|].
    apply map_ext_in. intros x Hx. rewrite Hc; [done|]. by apply list_elem_of_In.
  - unfold sample_pool. rewrite Hs. destruct cfgs; [done|]. by split.
Qed.

Lemma sample_ok : Forall (fun c => (0 < c.2 <= MaxInt64)%Z /\ c.1 <> []) sample_cfgs.
Proof. repeat constructor; vm_compute; done. Qed.

Lemma sample_two : view (sample_pool 0 sample_cfgs) [0; 1] /\ inv (sample_pool 0 sample_cfgs).
Proof.
  apply (sample_view 0 sample_cfgs); [done|exact sample_ok|].
  apply (bool_decide_eq_true_1 _). vm_compute. reflexivity.
Qed.
#[local] Opaque sample_pool.

Lemma endpoint_pool_invariant_witness :
  exists s s' xs, NewHttpEndpointPool parse_any 0 0 0 sample_cfgs = Ret (Some s) /\
    exec_all [EGet (mkClocks zeroTime zeroTime zeroTime zeroTime); EReport zeroTime 0; EReport zeroTime 1;
              EHealth 0 (RespCode 204); EEnd 0; EShutdown] s = Ret s' /\ view s' xs.
Proof.
  destruct (endpoint_pool_invariant parse_any 0 0 0 sample_cfgs
    [EGet (mkClocks zeroTime zeroTime zeroTime zeroTime); EReport zeroTime 0; EReport zeroTime 1;
     EHealth 0 (RespCode 204); EEnd 0; EShutdown]) as (s & s' & xs & H1 & H2 & H3 & _).
  - repeat constructor; vm_compute; done.
  - apply (bool_decide_eq_true_1 _). vm_compute. reflexivity.
  - exists s, s', xs. exact (conj H1 (conj H2 H3)).
Defined.

Lemma report_error_moves_witness :
  exists s', ReportError zeroTime 0 (sample_pool 0 sample_cfgs) = Ret s' /\ view s' [1] /\ checks s' = [0].
Proof.
  destruct sample_two as [Hv _].
  destruct (mem (sample_pool 0 sample_cfgs) !! 0) as [e|] eqn:He; [|by vm_compute in He].
  destruct (report_error_moves (sample_pool 0 sample_cfgs) [] [1] 0 e zeroTime Hv He) as (s' & Hr & Hc).
  vm_compute in He. injection He as <-. simpl in Hc. exists s'. split; [exact Hr|exact Hc].
Defined.

Lemma get_current_healthy_head_witness :
  exists s' q ys, GetCurrentHealthy [] (mkClocks zeroTime zeroTime zeroTime zeroTime) (sample_pool 0 sample_cfgs) =
    Ret (s', Some q) /\ view s' (q :: ys).
Proof.
  destruct sample_two as [Hv _].
  destruct (get_current_healthy_head [] (mkClocks zeroTime zeroTime zeroTime zeroTime)
    (sample_pool 0 sample_cfgs) 0 [1] Hv) as (s' & q & ys & H1 & H2 & _); [by vm_compute|].
  exists s', q, ys. exact (conj H1 H2).
Defined.

Lemma send_buffer_sound_witness :
  exists s' o, SendBuffer 10 1 (failing 1 0 3) (sample_pool 0 sample_cfgs) = Ret (s', o) /\ inv s'.
Proof.
  destruct sample_two as [_ Hi].
  destruct (send_buffer_sound 10 (failing 1 0 3) 1 _ Hi) as (s' & o & H1 & H2 & _).
  exists s', o. exact (conj H1 H2).
Defined.

(** The first endpoint does not answer, the second one accepts. *)
Definition half_up : attempt :=
  mkAttempt [] [] (mkClocks zeroTime zeroTime zeroTime zeroTime)
    (fun p => if p =? 1 then RespCode 204 else RespErr) [] zeroTime.

Lemma send_buffer_terminates_witness :
  exists s', SendBuffer 10 1 (replicate 4 half_up) (sample_pool 0 sample_cfgs) = Ret (s', Some None).
Proof.
  destruct sample_two as [Hv _].
  destruct (send_buffer_terminates 10 (replicate 4 half_up) 1 _ _ Hv) as (s' & res & Hs & Hr);
    [by vm_compute|by vm_compute|by repeat constructor|by vm_compute|].
  exists s'. rewrite Hs. do 3 f_equal. apply (Hr 1).
  - vm_compute. apply elem_of_cons. right. by apply elem_of_cons; left.
  - intros a Ha%elem_of_replicate_inv. by subst a.
  - intros a q Ha%elem_of_replicate_inv. subst a. simpl. by destruct (q =? 1).
Defined.

Lemma send_buffer_outlives_timeout_witness :
  exists s', SendBuffer 10 1 (failing Second (2 * Second) 5)
    (sample_pool Second [(bs "http://b", 2%Z)]) = Ret (s', None).
Proof.
  destruct (sample_view Second [(bs "http://b", 2%Z)]) as [Hv _];
    [done|repeat constructor; vm_compute; done|apply NoDup_singleton|].
  destruct (mem (sample_pool Second [(bs "http://b", 2%Z)]) !! 0) as [e|] eqn:He; [|by vm_compute in He].
  apply (send_buffer_outlives_timeout 10 5 1 _ 0 e (2 * Second) Hv He); [by vm_compute| | |];
    vm_compute in He; injection He as <-; vm_compute; done.
Defined.
End EndpointPool.
