(* ===== verification/FloatBounds.v ===== *)
(** Bounds on the results of binary64 arithmetic.

    A normal positive number is a mantissa of 53 bits and an exponent; its value
    is a rational.  Sums, products and quotients of such numbers, and the
    conversions from and to integers, are within a relative error of [ulp] of the
    exact result, as long as that is far from the ends of the range. *)

From Stdlib Require Import ZArith Lia QArith Qpower Lqa.
From Stdlib Require Import Floats.SpecFloat.
From stdpp Require Import base tactics numbers.
From S2P Require Import Prelude GoFloat.
Local Open Scope Z_scope.

(** ** Shifts and digits *)

Lemma digits2_log2 p : Z.pos (digits2_pos p) = Z.log2 (Z.pos p) + 1.
Proof.
  assert (digits2_pos p = Pos.size p) as -> by (induction p as [p IH|p IH|]; simpl; by rewrite ?IH).
  destruct p as [p|p|]; simpl; lia.
Qed.

Lemma shr_1_m r : 0 <= shr_m r -> shr_m (shr_1 r) = shr_m r / 2.
Proof.
  rewrite <- Z.div2_div. destruct r as [m b s]. by destruct m as [|[p|p|]|p].
Qed.

Lemma iter_shr_m p : forall r, 0 <= shr_m r -> shr_m (SpecFloat.iter_pos shr_1 p r) = shr_m r / 2 ^ Z.pos p.
Proof.
  assert (forall m k, 0 <= m -> 0 <= m / 2 ^ Z.pos k) as Hd by (intros; apply Z.div_pos; lia).
  induction p as [p IH|p IH|]; intros r Hr; simpl SpecFloat.iter_pos.
  - pose proof (shr_1_m r Hr) as H1. assert (0 <= shr_m (shr_1 r)) as H1' by (rewrite H1; apply Z.div_pos; lia).
    rewrite IH, IH, H1; [|done|rewrite IH by done; by apply Hd].
    rewrite !Z.div_div by lia. f_equal. replace (Z.pos p~1) with (1 + Z.pos p + Z.pos p) by lia. rewrite !Z.pow_add_r by lia. lia.
  - rewrite IH, IH by first [done|rewrite IH by done; by apply Hd].
    rewrite Z.div_div by lia. f_equal. replace (Z.pos p~0) with (Z.pos p + Z.pos p) by lia. by rewrite Z.pow_add_r by lia.
  - by apply shr_1_m.
Qed.

Lemma shr_fexp_spec m e l :
  0 < m -> -1074 <= e -> 52 <= Z.log2 m ->
  exists r, shr_fexp 53 1024 m e l = (r, e + (Z.log2 m - 52)) /\ shr_m r = m / 2 ^ (Z.log2 m - 52).
Proof.
  intros Hm He Hl. unfold shr_fexp, fexp, emin. destruct m as [|m|m]; [lia| |lia]. cbn [Zdigits2]. rewrite digits2_log2.
  rewrite Z.max_l by lia. replace (Z.log2 (Z.pos m) + 1 + e - 53 - e) with (Z.log2 (Z.pos m) - 52) by lia.
  assert (shr_m (shr_record_of_loc (Z.pos m) l) = Z.pos m) as Hr by (by destruct l as [|[]]).
  unfold shr. destruct (Z.log2 (Z.pos m) - 52) as [|p|p] eqn:E; [| |lia].
  - eexists. split; [by rewrite Z.add_0_r|]. by rewrite Hr, Z.div_1_r.
  - eexists. split; [done|]. rewrite iter_shr_m by (rewrite Hr; lia). by rewrite Hr.
Qed.

(** ** Rounding *)

Lemma mantissa_range m : 2 ^ 52 <= m -> let p := Z.log2 m - 52 in 0 <= p /\ 2 ^ 52 <= m / 2 ^ p < 2 ^ 53.
Proof.
  intros Hm p. assert (52 <= Z.log2 m) as Hl by (apply Z.log2_le_pow2; lia).
  pose proof (Z.log2_spec m ltac:(lia)) as [H1 H2]. split; [lia|].
  replace (Z.log2 m) with (p + 52) in H1 by lia. replace (Z.succ (Z.log2 m)) with (p + 53) in H2 by lia.
  rewrite Z.pow_add_r in H1, H2 by lia. pose proof (Z.pow_pos_nonneg 2 p ltac:(lia) ltac:(lia)).
  split; [apply Z.div_le_lower_bound; lia|apply Z.div_lt_upper_bound; lia].
Qed.

(** Rounding a mantissa of at least 53 bits: the result is within one unit. *)
Lemma round_aux_spec m e l :
  2 ^ 52 <= m -> -1074 <= e -> e + Z.log2 m <= 900 ->
  exists m' d, binary_round_aux 53 1024 false m e l = S754_finite false m' (e + d) /\
    2 ^ 52 <= Z.pos m' < 2 ^ 53 /\ 0 <= d /\ (Z.pos m' - 1) * 2 ^ d <= m /\ m + 1 <= (Z.pos m' + 1) * 2 ^ d.
Proof.
  intros Hm He Hu. destruct (mantissa_range m Hm) as [Hp Hr]. set (p := Z.log2 m - 52) in *.
  assert (Z.log2 m = p + 52) as Hlog by (unfold p; lia).
  unfold binary_round_aux. destruct (shr_fexp_spec m e l ltac:(lia) He ltac:(lia)) as (r & -> & Hsr). fold p in Hsr |- *.
  set (m1 := m / 2 ^ p) in *. rewrite Hsr.
  assert (exists m2, round_nearest_even m1 (loc_of_shr_record r) = m2 /\ (m2 = m1 \/ m2 = m1 + 1)) as (m2 & -> & Hm2).
  { eexists. split; [reflexivity|]. unfold round_nearest_even. destruct (loc_of_shr_record r) as [|[]]; [lia| |lia|lia].
    destruct (Z.even m1); lia. }
  assert (0 < 2 ^ p) as H2p by (apply Z.pow_pos_nonneg; lia).
  pose proof (Z.div_mod m (2 ^ p) ltac:(lia)) as Hdm. pose proof (Z.mod_pos_bound m (2 ^ p) H2p) as Hmod. fold m1 in Hdm.
  assert ((Z.log2 m2 = 52 /\ m2 < 2 ^ 53) \/ m2 = 2 ^ 53) as Hl2.
  { destruct (decide (m2 = 2 ^ 53)); [by right|]. left. split; [apply Z.log2_unique; lia|lia]. }
  destruct (shr_fexp_spec m2 (e + p) loc_Exact ltac:(lia) ltac:(lia)) as (r2 & -> & Hsr2).
  { destruct Hl2 as [[-> _]| ->]; [lia|]. rewrite Z.log2_pow2; lia. }
  destruct Hl2 as [[Hl2 Hlt]|Hl2].
  - rewrite Hl2 in *. change (52 - 52) with 0 in *. rewrite Z.div_1_r in Hsr2. rewrite Hsr2, Z.add_0_r.
    destruct m2 as [|m2|m2]; [lia| |lia]. rewrite (proj2 (Z.leb_le _ _)) by lia.
    exists m2, p. split; [done|]. split; [lia|]. split; [lia|]. nia.
  - rewrite Hl2 in *. rewrite Z.log2_pow2 in * by lia. change (53 - 52) with 1 in *. rewrite Hsr2. change (2 ^ 53 / 2 ^ 1) with (Z.pos (2 ^ 52)).
    rewrite (proj2 (Z.leb_le _ _)) by lia. exists (2 ^ 52)%positive, (p + 1). split; [f_equal; lia|]. split; [lia|]. split; [lia|].
    rewrite Z.pow_add_r by lia. change (Z.pos (2 ^ 52)) with (2 ^ 52). nia.
Qed.

(** ** Values *)

Local Open Scope Q_scope.

Definition val (m e : Z) : Q := inject_Z m * inject_Z 2 ^ e.
Definition ulp : Q := 1 # (2 ^ 51).
Definition near (w t : Q) : Prop := (1 - ulp) * t <= w <= (1 + ulp) * t.

(** A normal positive number and its value. *)
Definition normal (x : spec_float) (v : Q) : Prop :=
  exists m e, x = S754_finite false m e /\ (2 ^ 52 <= Z.pos m < 2 ^ 53)%Z /\ v == val (Z.pos m) e.

(** Far from the ends of the range. *)
Definition medium (v : Q) : Prop := 1 # 2 ^ 100 <= v <= inject_Z (2 ^ 100).

#[export] Instance near_proper : Proper (Qeq ==> Qeq ==> iff) near.
Proof. intros w w' Hw t t' Ht. unfold near. by rewrite Hw, Ht. Qed.

#[export] Instance medium_proper : Proper (Qeq ==> iff) medium.
Proof. intros v v' Hv. unfold medium. by rewrite Hv. Qed.

Lemma pow2_pos e : 0 < inject_Z 2 ^ e.
Proof. by apply Qpower_0_lt. Qed.

Lemma pow2_add a b : inject_Z 2 ^ (a + b) == inject_Z 2 ^ a * inject_Z 2 ^ b.
Proof. by apply Qpower_plus. Qed.

Lemma pow2_Z n : (0 <= n)%Z -> inject_Z (2 ^ n) == inject_Z 2 ^ n.
Proof. apply Zpower_Qpower. Qed.

Lemma val_mono a b e : (a <= b)%Z -> val a e <= val b e.
Proof. intros H. unfold val. apply Qmult_le_compat_r; [by rewrite <- Zle_Qle|]. apply Qlt_le_weak, pow2_pos. Qed.

Lemma val_shift m d e : (0 <= d)%Z -> val m (e + d) == val (m * 2 ^ d) e.
Proof. intros H. unfold val. rewrite pow2_add, inject_Z_mult, pow2_Z by done. ring. Qed.

Lemma val_mult a b e : val (a * b) e == inject_Z a * val b e.
Proof. unfold val. rewrite inject_Z_mult. ring. Qed.

Lemma val_plus a b e : val (a + b) e == val a e + val b e.
Proof. unfold val. rewrite inject_Z_plus. ring. Qed.

Lemma val_pos m e : (0 < m)%Z -> 0 < val m e.
Proof. intros H. unfold val. apply Qmult_lt_0_compat; [by rewrite Zlt_Qlt in H|apply pow2_pos]. Qed.

Lemma val_product a b e f : val a e * val b f == val (a * b) (e + f).
Proof. unfold val. rewrite pow2_add, inject_Z_mult. ring. Qed.

(** The exponent of a number that is far from the ends. *)
Lemma exponent_range m e v :
  (2 ^ 52 <= m < 2 ^ 53)%Z -> v == val m e -> medium v -> (-153 <= e <= 48)%Z.
Proof.
  intros [Hl Hu] Hv [H1 H2]. rewrite Hv in H1, H2. split.
  - apply Z.nlt_ge. intros He. apply (Qlt_not_le (val m e) (1 # 2 ^ 100)); [|done].
    apply (Qlt_le_trans _ (val (2 ^ 53) e)).
    + unfold val. apply Qmult_lt_compat_r; [apply pow2_pos|]. by rewrite <- Zlt_Qlt.
    + unfold val. rewrite pow2_Z, <- pow2_add by done. change (1 # 2 ^ 100) with (inject_Z 2 ^ (-100)).
      apply Qpower_le_compat_l; [lia|done].
  - apply Z.nlt_ge. intros He. apply (Qlt_not_le (inject_Z (2 ^ 100)) (val m e)); [|done].
    apply (Qlt_le_trans _ (val (2 ^ 52) e)); [|by apply val_mono].
    unfold val. rewrite !pow2_Z, <- pow2_add by done. apply Qpower_lt_compat_l; [lia|done].
Qed.

(** Rounding a mantissa [m] with a location that stands for a value between it
    and the next. *)
Lemma round_near m e l t :
  (2 ^ 52 <= m)%Z -> (-1074 <= e)%Z -> (e + Z.log2 m <= 900)%Z ->
  val m e <= t -> t <= val (m + 1) e ->
  exists w, normal (binary_round_aux 53 1024 false m e l) w /\ near w t.
Proof.
  intros Hm He Hu H1 H2. destruct (round_aux_spec m e l Hm He Hu) as (m' & d & -> & Hm' & Hd & Ha & Hb).
  exists (val (Z.pos m') (e + d)). split; [by exists m', (e + d)%Z|]. rewrite val_shift by done. set (P := (2 ^ d)%Z) in *.
  assert (0 < P)%Z as HP by (unfold P; apply Z.pow_pos_nonneg; lia).
  assert (val ((2 ^ 52 - 1) * (Z.pos m' * P)) e <= val (2 ^ 52 * m) e) as Hx by (apply val_mono; nia).
  assert (val (2 ^ 52 * (m + 1)) e <= val ((2 ^ 52 + 1) * (Z.pos m' * P)) e) as Hy by (apply val_mono; nia).
  rewrite !val_mult in Hx, Hy. rewrite val_mult.
  assert (0 < val m e) by (apply val_pos; lia).
  set (w := inject_Z (Z.pos m') * val P e) in *. set (a := val m e) in *. set (b := val (m + 1) e) in *.
  unfold near, ulp. change (inject_Z (2 ^ 52 - 1)) with (4503599627370495 # 1) in Hx. change (inject_Z (2 ^ 52)) with (4503599627370496 # 1) in Hx, Hy.
  change (inject_Z (2 ^ 52 + 1)) with (4503599627370497 # 1) in Hy. change (1 # 2 ^ 51) with (1 # 2251799813685248).
  split; lra.
Qed.

(** ** Operations *)

Lemma mul_near x y u v :
  normal x u -> normal y v -> medium u -> medium v -> exists w, normal (f64_mul x y) w /\ near w (u * v).
Proof.
  intros (a & e & -> & Ha & Hu) (b & f & -> & Hb & Hv) Mu Mv.
  pose proof (exponent_range _ _ _ Ha Hu Mu). pose proof (exponent_range _ _ _ Hb Hv Mv).
  unfold f64_mul, SFmul. cbn [xorb]. apply round_near.
  - lia.
  - lia.
  - assert (Z.log2 (Z.pos (a * b)) < 106)%Z; [|lia]. apply Z.log2_lt_pow2; [lia|]. change (2 ^ 106)%Z with (2 ^ 53 * 2 ^ 53)%Z. nia.
  - rewrite Hu, Hv, val_product. apply Qle_refl.
  - rewrite Hu, Hv, val_product. apply val_mono. lia.
Qed.

Lemma shl_align_spec m e e' : (e' <= e)%Z -> exists p, shl_align m e e' = (p, e') /\ Z.pos p = (Z.pos m * 2 ^ (e - e'))%Z.
Proof.
  intros H. unfold shl_align. destruct (e' - e)%Z as [|d|d] eqn:E; [|lia|].
  - exists m. split; [f_equal; lia|]. replace (e - e')%Z with 0%Z by lia. lia.
  - exists (Pos.iter xO m d). split; [done|]. replace (e - e')%Z with (Z.pos d) by lia. rewrite Z.pow_pos_fold || idtac.
    clear. induction d as [|d IH] using Pos.peano_ind; [simpl; lia|]. rewrite Pos.iter_succ. rewrite Pos2Z.inj_xO, IH, Pos2Z.inj_succ, Z.pow_succ_r by lia. lia.
Qed.

(** [binary_normalize] of a positive integer. *)
Lemma normalize_near m e t :
  (0 < m)%Z -> (-900 <= e)%Z -> (e + Z.log2 m <= 800)%Z -> t == val m e -> exists w, normal (binary_normalize 53 1024 m e false) w /\ near w t.
Proof.
  intros Hm He Hu Ht. destruct m as [|m|m]; [lia| |lia]. unfold binary_normalize, binary_round, fexp, emin. rewrite digits2_log2.
  pose proof (Z.log2_nonneg (Z.pos m)). pose proof (Z.log2_spec (Z.pos m) ltac:(lia)) as [Hl1 Hl2].
  rewrite Z.max_l by lia. set (e' := (Z.log2 (Z.pos m) + 1 + e - 53)%Z).
  destruct (Z.le_gt_cases e' e) as [Hle|Hgt].
  - destruct (shl_align_spec m e e' Hle) as (p & -> & Hp).
    assert (e - e' + Z.log2 (Z.pos m) = 52)%Z as Hee by (unfold e'; lia).
    assert (2 ^ 52 <= Z.pos p)%Z.
    { rewrite Hp, <- Hee, Z.pow_add_r by lia. rewrite (Z.mul_comm (2 ^ _)). apply Z.mul_le_mono_nonneg_r; [|done]. apply Z.pow_nonneg. lia. }
    assert (Z.log2 (Z.pos p) = 52)%Z as Hlp. { rewrite Hp, Z.log2_mul_pow2 by lia. lia. }
    assert (t == val (Z.pos p) e') as Ht'. { rewrite Ht, Hp, <- val_shift by lia. by replace (e' + (e - e'))%Z with e by lia. }
    apply round_near; [done|unfold e'; lia|rewrite Hlp; unfold e'; lia|rewrite Ht'; apply Qle_refl|rewrite Ht'; apply val_mono; lia].
  - assert (shl_align m e e' = (m, e)) as ->. { unfold shl_align. destruct (e' - e)%Z eqn:E; [done|done|lia]. }
    assert (2 ^ 52 <= Z.pos m)%Z. { etrans; [|exact Hl1]. apply Z.pow_le_mono_r; [lia|]. unfold e' in Hgt. lia. }
    apply round_near; [done|lia|lia|rewrite Ht; apply Qle_refl|rewrite Ht; apply val_mono; lia].
Qed.

Lemma add_near x y u v :
  normal x u -> normal y v -> medium u -> medium v -> exists w, normal (f64_add x y) w /\ near w (u + v).
Proof.
  intros (a & e & -> & Ha & Hu) (b & f & -> & Hb & Hv) Mu Mv.
  pose proof (exponent_range _ _ _ Ha Hu Mu). pose proof (exponent_range _ _ _ Hb Hv Mv).
  unfold f64_add, SFadd. cbn [cond_Zopp]. set (g := Z.min e f).
  destruct (shl_align_spec a e g ltac:(lia)) as (p & -> & Hp). destruct (shl_align_spec b f g ltac:(lia)) as (q & -> & Hq). cbn [fst].
  assert (forall m h p : Z, (0 < m < 2 ^ 53)%Z -> (g <= h <= 48)%Z -> p = (m * 2 ^ (h - g))%Z -> (p < 2 ^ (101 - g))%Z) as Hlt.
  { intros m h r Hm Hh ->. replace (101 - g)%Z with (53 + (48 - h) + (h - g))%Z by lia. rewrite !Z.pow_add_r by lia.
    pose proof (Z.pow_pos_nonneg 2 (h - g) ltac:(lia) ltac:(lia)). pose proof (Z.pow_pos_nonneg 2 (48 - h) ltac:(lia) ltac:(lia)). nia. }
  apply normalize_near; [lia|lia| |].
  - assert (Z.log2 (Z.pos p + Z.pos q) < 102 - g)%Z; [|lia]. apply Z.log2_lt_pow2; [lia|].
    replace (102 - g)%Z with (Z.succ (101 - g)) by lia. rewrite Z.pow_succ_r by lia.
    pose proof (Hlt (Z.pos a) e (Z.pos p) ltac:(lia) ltac:(lia) Hp). pose proof (Hlt (Z.pos b) f (Z.pos q) ltac:(lia) ltac:(lia) Hq). lia.
  - rewrite val_plus, Hu, Hv, Hp, Hq, <- !val_shift by lia. by replace (g + (e - g))%Z with e by lia; replace (g + (f - g))%Z with f by lia.
Qed.

Lemma of_int_near z : (0 < z < 2 ^ 63)%Z -> exists w, normal (f64_of_int z) w /\ near w (inject_Z z).
Proof.
  intros Hz. apply normalize_near; [lia|lia| |].
  - assert (Z.log2 z < 63)%Z; [|lia]. apply Z.log2_lt_pow2; lia.
  - unfold val. rewrite Qpower_0_r. ring.
Qed.

Lemma div_near x y u v :
  normal x u -> normal y v -> medium u -> medium v -> exists w, normal (f64_div x y) w /\ near w (u / v).
Proof.
  intros (a & e & -> & Ha & Hu) (b & f & -> & Hb & Hv) Mu Mv.
  pose proof (exponent_range _ _ _ Ha Hu Mu). pose proof (exponent_range _ _ _ Hb Hv Mv).
  assert (forall m, (2 ^ 52 <= Z.pos m < 2 ^ 53)%Z -> Z.log2 (Z.pos m) = 52%Z) as Hlog by (intros; by apply Z.log2_unique).
  unfold f64_div, SFdiv, SFdiv_core_binary, fexp, emin. cbn [Zdigits2 xorb]. rewrite !digits2_log2, !Hlog by done.
  replace (Z.min _ _) with (e - f - 53)%Z by lia. replace (e - f - (e - f - 53))%Z with 53%Z by lia. cbv beta iota zeta.
  destruct (Z.div_eucl _ _) as [q r] eqn:E. rewrite Z.shiftl_mul_pow2 in E by lia.
  pose proof (Z_div_mod (Z.pos a * 2 ^ 53) (Z.pos b) ltac:(lia)) as Hdm. rewrite E in Hdm. destruct Hdm as [Hq Hr].
  assert (0 < v) by (rewrite Hv; apply val_pos; lia).
  assert (u == val (Z.pos a * 2 ^ 53) (e - 53)) as Hu'.
  { rewrite Hu, <- val_shift by lia. by replace (e - 53 + 53)%Z with e by lia. }
  assert (forall k, val k (e - f - 53) * v == val (k * Z.pos b) (e - 53)) as Hk.
  { intros k. rewrite Hv, val_product. by replace (e - f - 53 + f)%Z with (e - 53)%Z by lia. }
  apply round_near.
  - nia.
  - lia.
  - assert (Z.log2 q < 55)%Z; [|lia]. apply Z.log2_lt_pow2; nia.
  - apply Qle_shift_div_l; [done|]. rewrite Hk, Hu'. apply val_mono. lia.
  - apply Qle_shift_div_r; [done|]. rewrite Hk, Hu'. apply val_mono. lia.
Qed.

(** The conversion to an integer drops the fraction. *)
Lemma int_of_f64_floor x v n u :
  normal x v -> inject_Z n <= v -> v < inject_Z u -> (0 <= n)%Z -> (u <= 2 ^ 63)%Z -> (n <= int_of_f64 x < u)%Z.
Proof.
  intros (m & e & -> & Hm & Hv) Hn Hu H0 Hmax. rewrite Hv in Hn, Hu. cbn [int_of_f64].
  assert (exists z, (if (0 <=? e)%Z then Z.shiftl (Z.pos m) e else Z.shiftr (Z.pos m) (- e)) = z /\ (n <= z < u)%Z) as (z & -> & Hz).
  { eexists. split; [reflexivity|]. destruct (Z.leb_spec 0 e) as [He|He].
    - rewrite Z.shiftl_mul_pow2 by done. assert (val (Z.pos m) e == inject_Z (Z.pos m * 2 ^ e)) as Hi by (unfold val; by rewrite inject_Z_mult, pow2_Z).
      rewrite Hi in Hn, Hu. by rewrite <- Zle_Qle, <- Zlt_Qlt in *.
    - rewrite Z.shiftr_div_pow2 by lia. assert (0 < 2 ^ (- e))%Z by (apply Z.pow_pos_nonneg; lia).
      assert (forall k, inject_Z k == val (k * 2 ^ (- e)) e) as Hk.
      { intros k. rewrite <- val_shift by lia. unfold val. replace (e + - e)%Z with 0%Z by lia. rewrite Qpower_0_r. ring. }
      assert (forall a b, val a e <= val b e -> (a <= b)%Z) as Hle.
      { intros a b Hab. apply Z.nlt_ge. intros Hlt. apply (Qlt_not_le (val b e) (val a e)); [|done].
        unfold val. apply Qmult_lt_compat_r; [apply pow2_pos|]. by rewrite <- Zlt_Qlt. }
      rewrite Hk in Hn, Hu. apply Hle in Hn. split; [apply Z.div_le_lower_bound; lia|].
      apply Z.div_lt_upper_bound; [done|]. apply Z.nle_gt. intros Hc. apply (Qlt_not_le _ _ Hu). apply val_mono. lia. }
  unfold MinInt64, MaxInt64 in *. rewrite (proj2 (andb_true_iff _ _)); [lia|]. split; apply Z.leb_le; lia.
Qed.

(** Bounds of the value of a normal number. *)
Definition between (lo hi : Q) (x : spec_float) : Prop := exists v, normal x v /\ lo <= v <= hi.

Lemma between_weaken (lo hi lo' hi' : Q) x : lo' <= lo -> hi <= hi' -> between lo hi x -> between lo' hi' x.
Proof. intros H1 H2 (v & Hn & Hl & Hh). exists v. split; [done|]. split; lra. Qed.

Lemma between_medium (lo hi v : Q) : 1 # 2 ^ 100 <= lo -> hi <= inject_Z (2 ^ 100) -> lo <= v <= hi -> medium v.
Proof. intros H1 H2 [H3 H4]. split; [by apply (Qle_trans _ lo)|by apply (Qle_trans _ hi)]. Qed.

(** A literal. *)
Lemma normal_literal m e : (2 ^ 52 <= Z.pos m < 2 ^ 53)%Z -> normal (S754_finite false m e) (val (Z.pos m) e).
Proof. intros H. by exists m, e. Qed.

Lemma medium_between v : 1 # 1000000 <= v <= 10000000000000000000 -> medium v.
Proof. apply between_medium; vm_compute; discriminate. Qed.

(** The relative error as a literal, for [lra]. *)
Ltac literal_ulp := change ulp with (1 # 2251799813685248) in *.
