(* ===== verification/Compressor.v ===== *)
(** The compressor pool (src/lsvmi/compressor_pool.go): the loop that reads
    buffers of metrics from the queue, compresses them into batches and sends a
    batch when it is large enough, when the flush timer fires or when the queue
    is closed; pool start, shutdown and statistics.

    gzip is a parameter: a writer with its documented behaviour.  The
    compression factor is computed in IEEE binary64 (see GoFloat). *)

From Stdlib Require Import ZArith Lia QArith Lqa.
From Stdlib Require Import Floats.SpecFloat.
From stdpp Require Import base tactics numbers strings gmap list.
From S2P Require Import Prelude GoFloat FloatBounds.
Local Open Scope nat_scope.

Module Compressor.

Definition COMPRESSOR_POOL_MAX_NUM_COMPRESSORS : Z := 4.
Definition COMPRESSED_BATCH_MIN_SIZE_FOR_CF : Z := 128.
Definition NoCompression : Z := 0.

Definition COMPRESSOR_STATS_READ_COUNT : nat := 0.
Definition COMPRESSOR_STATS_READ_BYTE_COUNT : nat := 1.
Definition COMPRESSOR_STATS_SEND_COUNT : nat := 2.
Definition COMPRESSOR_STATS_SEND_BYTE_COUNT : nat := 3.
Definition COMPRESSOR_STATS_TIMEOUT_FLUSH_COUNT : nat := 4.
Definition COMPRESSOR_STATS_SEND_ERROR_COUNT : nat := 5.
Definition COMPRESSOR_STATS_WRITE_ERROR_COUNT : nat := 6.
Definition COMPRESSOR_STATS_UINT64_LEN : nat := 7.

Definition INITIAL_COMPRESSION_FACTOR : spec_float := f64_of_int 2.
(** The double nearest to 0.8. *)
Definition COMPRESSION_FACTOR_EXP_DECAY_ALPHA : spec_float := S754_finite false 7205759403792794 (-53).

Definition byte_limit (batchTargetSize : Z) (cf : spec_float) : Z :=
  int_of_f64 (f64_mul (f64_of_int batchTargetSize) cf).
Definition next_cf (read sent : Z) (cf : spec_float) : spec_float :=
  let alpha := COMPRESSION_FACTOR_EXP_DECAY_ALPHA in
  let batchCF := f64_div (f64_of_int read) (f64_of_int sent) in
  f64_add (f64_mul (f64_sub (f64_of_int 1) alpha) batchCF) (f64_mul alpha cf).

Record CompressorStats := mkStats { Uint64Stats : list Z; Float64Stats : spec_float }.
Definition NewCompressorStats : CompressorStats :=
  mkStats (replicate COMPRESSOR_STATS_UINT64_LEN 0%Z) (S754_zero false).

(** [Uint64Stats[k] += n]. *)
Definition add_stat (k : nat) (n : Z) (l : list Z) : outcome (list Z) :=
  v ← must (l !! k); store l k (u64 (v + u64 n)).

(** ** The compression factor

    What a batch may be: [sent] bytes for [read] bytes; DEFLATE neither expands
    nor compresses more than that. *)

Definition plausible (read sent : Z) : Prop := (sent <= 2 * read + 64 /\ read <= 2048 * sent)%Z.

(** The bounds under which a compressor works: the target size of a batch,
    which the constructor does not check, and the size of one buffer.  With a
    target of 0 the loop panics ([compressor_panics_without_writer]). *)
Definition target_ok (batchTargetSize : Z) : Prop := (16 <= batchTargetSize <= 2 ^ 48)%Z.
Definition buf_max : Z := 2 ^ 59.
Definition small (b : bytes) : Prop := (Z.of_nat (length b) <= buf_max)%Z.
Lemma small_all l : forallb (fun b => Z.of_nat (length b) <=? buf_max)%Z l = true -> Forall small l.
Proof. intros H. apply list.Forall_forall. intros b Hb%list_elem_of_In. rewrite forallb_forall in H. by apply Z.leb_le, H. Qed.

(** No batch is of more data than this. *)
Definition data_max : Z := 2 ^ 61.

Section factor.
Local Open Scope Q_scope.

Definition cf_ok : spec_float -> Prop := between (1 # 8) 4096.

Lemma alpha_parts :
  (exists a, normal COMPRESSION_FACTOR_EXP_DECAY_ALPHA a /\ a == 3602879701896397 # 4503599627370496) /\
  (exists b, normal (f64_sub (f64_of_int 1) COMPRESSION_FACTOR_EXP_DECAY_ALPHA) b /\ b == 900719925474099 # 4503599627370496).
Proof.
  split.
  - exists (val 7205759403792794 (-53)). split; [by apply normal_literal|]. vm_compute. reflexivity.
  - assert (f64_sub (f64_of_int 1) COMPRESSION_FACTOR_EXP_DECAY_ALPHA = S754_finite false 7205759403792792 (-55)) as -> by (vm_compute; reflexivity).
    exists (val 7205759403792792 (-55)). split; [by apply normal_literal|]. vm_compute. reflexivity.
Qed.

Lemma next_cf_ok read sent cf :
  (128 <= sent)%Z -> (0 < read <= data_max)%Z -> plausible read sent ->
  cf_ok cf -> cf_ok (next_cf read sent cf).
Proof.
  intros Hs Hr [Hsr Hrs] (v & Hv & Hv1 & Hv2). unfold data_max in *.
  destruct (of_int_near read ltac:(lia)) as (r & Hnr & Hr1 & Hr2). destruct (of_int_near sent ltac:(lia)) as (s & Hns & Hs1 & Hs2).
  destruct alpha_parts as [(a & Ha & Hea) (b & Hb & Heb)].
  assert (32 <= inject_Z read /\ inject_Z read <= 9223372036854775807 /\ 128 <= inject_Z sent /\ inject_Z sent <= 9223372036854775807 /\
    inject_Z sent <= 4 * inject_Z read /\ inject_Z read <= 2048 * inject_Z sent) as (B1 & B2 & B3 & B4 & B5 & B6).
  { change 32 with (inject_Z 32). change 9223372036854775807 with (inject_Z 9223372036854775807). change 128 with (inject_Z 128).
    change 4 with (inject_Z 4). change 2048 with (inject_Z 2048). rewrite <- !inject_Z_mult, <- !Zle_Qle. lia. }
  literal_ulp.
  destruct (div_near _ _ _ _ Hnr Hns) as (q & Hq & Hq1 & Hq2); [apply medium_between; lra..|]. literal_ulp.
  assert (0 < s) by lra.
  assert (1 # 5 <= r / s) by (apply Qle_shift_div_l; [done|lra]). assert (r / s <= 2049) by (apply Qle_shift_div_r; [done|lra]).
  destruct (mul_near _ _ _ _ Hb Hq) as (x & Hx & Hx1 & Hx2); [apply medium_between; lra..|].
  destruct (mul_near _ _ _ _ Ha Hv) as (y & Hy & Hy1 & Hy2); [apply medium_between; lra..|].
  rewrite Heb in Hx1, Hx2. rewrite Hea in Hy1, Hy2. literal_ulp.
  destruct (add_near _ _ _ _ Hx Hy) as (z & Hz & Hz1 & Hz2); [apply medium_between; lra..|]. literal_ulp.
  exists z. split; [done|]. split; lra.
Qed.

Lemma byte_limit_pos target cf : target_ok target -> cf_ok cf -> (0 < byte_limit target cf <= data_max - buf_max)%Z.
Proof.
  unfold target_ok, data_max, buf_max. intros Ht (v & Hv & Hv1 & Hv2). destruct (of_int_near target ltac:(lia)) as (t & Hnt & Ht1 & Ht2).
  assert (16 <= inject_Z target /\ inject_Z target <= 281474976710656) as [B1 B2].
  { change 16 with (inject_Z 16). change 281474976710656 with (inject_Z 281474976710656). rewrite <- !Zle_Qle. lia. }
  literal_ulp. destruct (mul_near _ _ _ _ Hnt Hv) as (p & Hp & Hp1 & Hp2); [apply medium_between; lra..|]. literal_ulp.
  assert (t * (1 # 8) <= t * v) by (apply Qmult_le_l; lra). assert (t * v <= t * 4096) by (apply Qmult_le_l; lra).
  unfold byte_limit. destruct (int_of_f64_floor _ p 1 1729382256910270464 Hp) as [H1 H2]; [change (inject_Z 1) with 1; lra| |lia..].
  change (inject_Z 1729382256910270464) with 1729382256910270464. lra.
Qed.

Lemma initial_cf_ok n : (1 <= n <= 2)%Z -> cf_ok (f64_of_int n).
Proof.
  intros Hn. destruct (of_int_near n ltac:(lia)) as (v & Hv & H1 & H2). exists v. split; [done|].
  assert (1 <= inject_Z n /\ inject_Z n <= 2) as [B1 B2] by (change 1 with (inject_Z 1); change 2 with (inject_Z 2); rewrite <- !Zle_Qle; lia).
  literal_ulp. split; lra.
Qed.
End factor.

(** ** One compressor *)

Section loop.
(** compress/gzip: the writer, [NewWriterLevel], [Reset], [Write] (the bytes that
    it gives to the underlying buffer and whether it failed), [Close]. *)
Context {W : Type}.
Variable NewWriterLevel : Z -> option W.
Variable Reset : W -> W.
Variable Write : bytes -> W -> W * bytes * bool.
Variable CloseW : W -> W * bytes.
(** The pool's configuration and whether there is a sender. *)
Variable compressionLevel batchTargetSize flushInterval : Z.
Variable hasSender : bool.

Record compressor := mkCompressor {
  gzWriter : option W;
  gzBuf : bytes;
  batchReadCount : Z;
  batchReadByteCount : Z;
  batchTimeoutCount : Z;
  timerSet : bool;
  estimatedCF : spec_float;
  batchReadByteLimit : Z;
  stats : option CompressorStats
}.

Definition init (st : option CompressorStats) : compressor :=
  let cf := if (compressionLevel =? NoCompression)%Z then f64_of_int 1 else INITIAL_COMPRESSION_FACTOR in
  mkCompressor None [] 0 0 0 false cf (byte_limit batchTargetSize cf) st.

(** What the [select] of the loop gets: a buffer or the closing of the queue
    ([isOpen] is false), or the flush timer. *)
Inductive event := Recv (buf : option bytes) (isOpen : bool) | Flush.

(** "First read of the batch": a writer on an empty buffer, and the timer;
    [None] when the writer cannot be created. *)
Definition start_batch (c : compressor) : option compressor :=
  w ← match gzWriter c with None => NewWriterLevel compressionLevel | Some w => Some (Reset w) end;
  Some (mkCompressor (Some w) [] (batchReadCount c) (batchReadByteCount c) (batchTimeoutCount c)
          ((0 <? flushInterval)%Z || timerSet c) (estimatedCF c) (batchReadByteLimit c) (stats c)).

(** A buffer that is not empty; [None] when the loop returns. *)
Definition compress (b : bytes) (c : compressor) : outcome (option compressor) :=
  match (if (batchReadCount c =? 0)%Z then start_batch c else Some c) with
  | None => Ret None
  | Some c =>
    let count := i64 (batchReadCount c + 1) in
    let byteCount := i64 (batchReadByteCount c + Z.of_nat (length b)) in
    w ← must (gzWriter c);
    let '(w, out, failed) := Write b w in
    if failed : bool then
      st ← match stats c with
           | None => Ret None
           | Some st => l ← add_stat COMPRESSOR_STATS_WRITE_ERROR_COUNT 1 (Uint64Stats st);
                        Ret (Some (mkStats l (Float64Stats st)))
           end;
      Ret (Some (mkCompressor None (gzBuf c ++ out) 0 0 0 false (estimatedCF c) (batchReadByteLimit c) st))
    else
      Ret (Some (mkCompressor (Some w) (gzBuf c ++ out) count byteCount (batchTimeoutCount c) (timerSet c)
                   (estimatedCF c) (batchReadByteLimit c) (stats c)))
  end.

(** The counters of a batch. *)
Definition batch_stats (readCount readByteCount sentCount sentByteCount timeoutCount errCount : Z)
    (cf : spec_float) (st : CompressorStats) : outcome CompressorStats :=
  l ← add_stat COMPRESSOR_STATS_READ_COUNT readCount (Uint64Stats st);
  l ← add_stat COMPRESSOR_STATS_READ_BYTE_COUNT readByteCount l;
  l ← add_stat COMPRESSOR_STATS_SEND_COUNT sentCount l;
  l ← add_stat COMPRESSOR_STATS_SEND_BYTE_COUNT sentByteCount l;
  l ← add_stat COMPRESSOR_STATS_TIMEOUT_FLUSH_COUNT timeoutCount l;
  l ← add_stat COMPRESSOR_STATS_SEND_ERROR_COUNT errCount l;
  Ret (mkStats l cf).

(** [if doSend { ... }]: the batch that is handed to the sender; closing a nil
    writer is a nil dereference. *)
Definition send (sendErr : bool) (c : compressor) : outcome (compressor * bytes) :=
  w ← must (gzWriter c);
  let '(w, out) := CloseW w in
  let batch := gzBuf c ++ out in
  let size := Z.of_nat (length batch) in
  let '(cf, limit) :=
    if (COMPRESSED_BATCH_MIN_SIZE_FOR_CF <=? size)%Z
    then let cf := next_cf (batchReadByteCount c) size (estimatedCF c) in (cf, byte_limit batchTargetSize cf)
    else (estimatedCF c, batchReadByteLimit c) in
  let '(sentCount, sentByteCount, errCount) :=
    (if hasSender then (if sendErr then (1, 0, 1) else (1, size, 0)) else (0, 0, 0))%Z in
  st ← match stats c with
       | None => Ret None
       | Some st =>
         st ← batch_stats (batchReadCount c) (batchReadByteCount c) sentCount sentByteCount
                (batchTimeoutCount c) errCount cf st;
         Ret (Some st)
       end;
  Ret (mkCompressor (Some w) batch 0 0 0 false cf limit st, batch).

(** What the loop does after an iteration: it goes on, having sent a batch or
    not, it ends because the queue was closed, or it returns because it has no
    writer. *)
Inductive next := Continue (batch : option bytes) | Closed (batch : option bytes) | NoWriter.

Definition iteration (e : event) (sendErr : bool) (c : compressor) : outcome (compressor * next) :=
  match e with
  | Flush =>
    let c := mkCompressor (gzWriter c) (gzBuf c) (batchReadCount c) (batchReadByteCount c) 1 false
               (estimatedCF c) (batchReadByteLimit c) (stats c) in
    '(c, batch) ← send sendErr c; Ret (c, Continue (Some batch))
  | Recv buf isOpen =>
    r ← match buf with
        | Some (x :: b) => compress (x :: b) c
        | _ => Ret (Some c)
        end;
    match r with
    | None => Ret (c, NoWriter)
    | Some c =>
      let doSend := (negb isOpen && (0 <? batchReadByteCount c)%Z)
                    || (batchReadByteLimit c <=? batchReadByteCount c)%Z in
      if doSend then
        '(c, batch) ← send sendErr c;
        Ret (c, if isOpen then Continue (Some batch) else Closed (Some batch))
      else Ret (c, if isOpen then Continue None else Closed None)
    end
  end.

(** The loop on the events that it gets: the batches sent, and how it ends
    ([None] when it is still waiting). *)
Fixpoint loop (es : list (event * bool)) (c : compressor)
    : outcome (compressor * list bytes * option next) :=
  match es with
  | [] => Ret (c, [], None)
  | (e, sendErr) :: es =>
    '(c, nx) ← iteration e sendErr c;
    match nx with
    | Continue o => '(c, batches, r) ← loop es c; Ret (c, option_list o ++ batches, r)
    | Closed o => Ret (c, option_list o, Some nx)
    | NoWriter => Ret (c, [], Some nx)
    end
  end.

(** ** What the loop does with the data *)

(** [Write] on each buffer in turn: the writer, its output and whether a write
    failed. *)
Definition write_step (acc : W * bytes * bool) (b : bytes) : W * bytes * bool :=
  let '(w, out, failed) := acc in
  let '(w, o, f) := Write b w in (w, out ++ o, failed || f).
Definition write_all (bufs : list bytes) (w : W) : W * bytes * bool :=
  foldl write_step (w, [], false) bufs.

(** compress/gzip on a [bytes.Buffer]: the level is valid, writes do not fail,
    and what a writer that was just created or reset gives to its buffer
    decompresses to what was written to it and has a plausible size. *)
Class GzipLaws (gunzip : bytes -> option bytes) := {
  gz_fresh : W -> Prop;
  gz_level : exists w, NewWriterLevel compressionLevel = Some w;
  gz_new w : NewWriterLevel compressionLevel = Some w -> gz_fresh w;
  gz_reset w : gz_fresh (Reset w);
  gz_write bufs w : gz_fresh w -> (write_all bufs w).2 = false;
  gz_round bufs w w' out failed :
    gz_fresh w -> write_all bufs w = (w', out, failed) ->
    gunzip (out ++ (CloseW w').2) = Some (concat bufs);
  gz_size bufs w w' out failed :
    gz_fresh w -> write_all bufs w = (w', out, failed) ->
    plausible (Z.of_nat (length (concat bufs))) (Z.of_nat (length (out ++ (CloseW w').2)))
}.

(** What an event adds to the data. *)
Definition payload (e : event) : list bytes :=
  match e with Recv (Some (x :: b)) _ => [x :: b] | _ => [] end.
Definition payloads (es : list (event * bool)) : list bytes := concat (map (fun e => payload e.1) es).
Definition size (bufs : list bytes) : Z := Z.of_nat (length (concat bufs)).

(** The events that can happen: the timer fires only when it is set, a closed
    channel gives no buffer. *)
Definition enabled (e : event) (c : compressor) : Prop :=
  match e with
  | Flush => timerSet c = true
  | Recv (Some (_ :: _)) isOpen => isOpen = true
  | Recv _ _ => True
  end.

(** Runs of events that can happen; nothing comes after the loop has ended. *)
Fixpoint valid (es : list (event * bool)) (c : compressor) : Prop :=
  match es with
  | [] => True
  | (e, sendErr) :: es =>
    enabled e c /\
    match iteration e sendErr c with
    | Ret (c, Continue _) => valid es c
    | _ => es = []
    end
  end.

(** A batch that was sent: its buffers, its bytes, whether the timer caused it
    and whether the sender failed. *)
Record sent := mkSent { sentBufs : list bytes; sentBatch : bytes; sentTimeout : bool; sentErr : bool }.

Definition log_stats (log : list sent) : list Z :=
  map (fun f => u64 (foldr Z.add 0%Z (map f log)))
    [ (fun x => Z.of_nat (length (sentBufs x)));
      (fun x => size (sentBufs x));
      (fun _ => if hasSender then 1%Z else 0%Z);
      (fun x => if hasSender && negb (sentErr x) then Z.of_nat (length (sentBatch x)) else 0%Z);
      (fun x => if sentTimeout x then 1%Z else 0%Z);
      (fun x => if hasSender && sentErr x then 1%Z else 0%Z);
      (fun _ => 0%Z) ].

Section laws.
Context (gunzip : bytes -> option bytes) `{!GzipLaws gunzip}.
Hypothesis Htarget : target_ok batchTargetSize.

(** The state: [pend] is what was read for the batch being built, [log] what was
    sent; [good] between iterations. *)
Record building (st0 : bool) (pend : list bytes) (log : list sent) (c : compressor) : Prop := mkBuilding {
  b_count : batchReadCount c = Z.of_nat (length pend);
  b_bytes : batchReadByteCount c = size pend;
  b_nonempty : Forall (fun b => b <> []) pend;
  b_writer : pend <> [] ->
    exists w0 w, gz_fresh w0 /\ write_all pend w0 = (w, gzBuf c, false) /\ gzWriter c = Some w;
  b_stats : match stats c with
            | None => st0 = false
            | Some st => st0 = true /\ Uint64Stats st = log_stats log
            end;
  b_factor : cf_ok (estimatedCF c);
  b_limit : batchReadByteLimit c = byte_limit batchTargetSize (estimatedCF c)
}.

Record good (st0 : bool) (pend : list bytes) (log : list sent) (c : compressor) : Prop := mkGood {
  good_building : building st0 pend log c;
  good_timeout : batchTimeoutCount c = 0%Z;
  good_timer : timerSet c = bool_decide (pend <> []) && (0 <? flushInterval)%Z;
  good_limit : pend <> [] -> (size pend < batchReadByteLimit c)%Z
}.

Lemma size_app a b : size (a ++ b) = (size a + size b)%Z.
Proof. unfold size. rewrite concat_app, length_app. lia. Qed.

Lemma nonempty_count bufs : Forall (fun b => b <> []) bufs -> (Z.of_nat (length bufs) <= size bufs)%Z.
Proof.
  unfold size. induction 1 as [|b bufs Hb _ IH]; [done|]. simpl. rewrite length_app.
  destruct b; [done|]. simpl in *. lia.
Qed.

Lemma write_all_snoc bufs b w :
  write_all (bufs ++ [b]) w = write_step (write_all bufs w) b.
Proof. unfold write_all. by rewrite foldl_app. Qed.

Lemma u64_add_l a b : u64 (u64 a + b) = u64 (a + b).
Proof. unfold u64, wrapu. by rewrite Z.add_mod_idemp_l. Qed.

Lemma u64_add_r a b : u64 (a + u64 b) = u64 (a + b).
Proof. by rewrite Z.add_comm, u64_add_l, Z.add_comm. Qed.

Lemma add_stat_log k v n l : l !! k = Some v -> add_stat k n l = Ret (<[k := u64 (v + n)]> l).
Proof.
  intros Hk. unfold add_stat. rewrite Hk. simpl. rewrite store_Ret by by eapply lookup_lt_Some.
  by rewrite u64_add_r.
Qed.

Lemma batch_stats_log log x st cf :
  Uint64Stats st = log_stats log ->
  batch_stats (Z.of_nat (length (sentBufs x))) (size (sentBufs x))
    (if hasSender then 1 else 0)
    (if hasSender && negb (sentErr x) then Z.of_nat (length (sentBatch x)) else 0)
    (if sentTimeout x then 1 else 0) (if hasSender && sentErr x then 1 else 0) cf st =
  Ret (mkStats (log_stats (x :: log)) cf).
Proof.
  intros Hst. unfold batch_stats. rewrite Hst. unfold log_stats. cbn [map].
  repeat (erewrite add_stat_log by reflexivity; rewrite bind_ret; cbn [insert list_insert]).
  rewrite !u64_add_l. cbn [foldr map].
  do 2 f_equal. do 6 (apply (f_equal2 cons); [f_equal; apply Z.add_comm|]). done.
Qed.

Lemma good_init st :
  (st = None \/ st = Some NewCompressorStats) -> good (bool_decide (st <> None)) [] [] (init st).
Proof.
  intros Hst. split; [split|..]; try done; [by destruct Hst as [-> | ->]|].
  cbn [estimatedCF init]. destruct (compressionLevel =? NoCompression)%Z; [apply (initial_cf_ok 1)|apply (initial_cf_ok 2)]; lia.
Qed.

Lemma start_batch_good st0 log c :
  good st0 [] log c ->
  exists c' w, start_batch c = Some c' /\ gz_fresh w /\ gzWriter c' = Some w /\ gzBuf c' = [] /\
    batchReadCount c' = 0%Z /\ batchReadByteCount c' = 0%Z /\ batchTimeoutCount c' = 0%Z /\
    timerSet c' = (0 <? flushInterval)%Z /\ batchReadByteLimit c' = batchReadByteLimit c /\ stats c' = stats c /\
    estimatedCF c' = estimatedCF c.
Proof.
  intros [[Hc Hb _ _ _ _ _] Ht Hs _]. unfold start_batch. destruct gz_level as [w1 Hw1].
  destruct (gzWriter c) as [w|].
  - simpl. eexists _, _. split; [done|]. split; [apply gz_reset|]. simpl.
    rewrite Hs. simpl. rewrite orb_false_r. done.
  - rewrite Hw1. simpl. eexists _, _. split; [done|]. split; [by apply gz_new|]. simpl.
    rewrite Hs. simpl. rewrite orb_false_r. done.
Qed.

(** Writing one more buffer to the writer of the batch. *)
Lemma write_next bufs b w0 w out :
  gz_fresh w0 -> write_all bufs w0 = (w, out, false) ->
  exists w' o, Write b w = (w', o, false) /\ write_all (bufs ++ [b]) w0 = (w', out ++ o, false).
Proof.
  intros Hf Hw. pose proof (gz_write (bufs ++ [b]) w0 Hf) as Hn.
  rewrite write_all_snoc, Hw in *. unfold write_step in *.
  destruct (Write b w) as [[w' o] f]. simpl in *. subst f. by eexists _, _.
Qed.

Lemma compress_good st0 pend log b c :
  good st0 pend log c -> b <> [] -> (size pend + Z.of_nat (length b) <= data_max)%Z ->
  exists c', compress b c = Ret (Some c') /\ building st0 (pend ++ [b]) log c' /\
    batchTimeoutCount c' = 0%Z /\ timerSet c' = (0 <? flushInterval)%Z /\
    batchReadByteLimit c' = batchReadByteLimit c.
Proof.
  intros HG Hb Hmax.
  assert (exists c1 w0 w, (if (batchReadCount c =? 0)%Z then start_batch c else Some c) = Some c1 /\
    gz_fresh w0 /\ write_all pend w0 = (w, gzBuf c1, false) /\ gzWriter c1 = Some w /\
    batchReadCount c1 = Z.of_nat (length pend) /\ batchReadByteCount c1 = size pend /\
    batchTimeoutCount c1 = 0%Z /\ timerSet c1 = (0 <? flushInterval)%Z /\
    batchReadByteLimit c1 = batchReadByteLimit c /\ stats c1 = stats c /\ estimatedCF c1 = estimatedCF c)
    as (c1 & w0 & w & Hc1 & Hf & Hw & Hg & Hc & Hbc & Ht & Hs & Hl & Hst & Hcf).
  { pose proof HG as [[Hc Hbc Hne Hw Hst _ _] Ht Hs Hl]. rewrite Hc. destruct pend as [|b1 pend].
    - destruct (start_batch_good _ _ _ HG) as (c1 & w & -> & Hf & Hw1 & Hbuf & ?).
      exists c1, w, w. rewrite Hbuf. naive_solver.
    - destruct Hw as (w0 & w & Hf & Hw & Hg); [done|]. exists c, w0, w.
      rewrite Hs. rewrite bool_decide_eq_true_2 by done. naive_solver. }
  pose proof HG as [[_ _ Hne _ Hst0 Hf0 Hl0] _ _ _].
  pose proof (nonempty_count _ Hne). assert (0 <= size pend)%Z by (unfold size; lia).
  destruct (write_next pend b w0 w _ Hf Hw) as (w' & o & Hwr & Hall).
  unfold compress. rewrite Hc1, Hg. simpl. rewrite Hwr. eexists. split; [reflexivity|].
  assert (0 < length b) by (destruct b; [done|simpl; lia]).
  assert (size [b] = Z.of_nat (length b)) as Hsz by (unfold size; simpl; by rewrite app_nil_r).
  split; [|done]. split; simpl.
  - rewrite Hc, i64_small, length_app; [simpl; lia|]. unfold MinInt64, MaxInt64, data_max in *. lia.
  - rewrite Hbc, i64_small, size_app; [lia|]. unfold MinInt64, MaxInt64, data_max in *. lia.
  - apply Forall_app_2; [done|]. by constructor.
  - intros _. by exists w0, w'.
  - by rewrite Hst.
  - by rewrite Hcf.
  - by rewrite Hl, Hcf.
Qed.

(** The compression factor and the limit after a batch. *)
Lemma batch_factor read sent c :
  cf_ok (estimatedCF c) -> batchReadByteLimit c = byte_limit batchTargetSize (estimatedCF c) ->
  let '(cf, limit) := if (COMPRESSED_BATCH_MIN_SIZE_FOR_CF <=? sent)%Z
    then let cf := next_cf read sent (estimatedCF c) in (cf, byte_limit batchTargetSize cf)
    else (estimatedCF c, batchReadByteLimit c) in
  (0 < read <= data_max)%Z -> plausible read sent -> cf_ok cf /\ limit = byte_limit batchTargetSize cf.
Proof.
  intros Hcf Hlim. destruct (Z.leb_spec COMPRESSED_BATCH_MIN_SIZE_FOR_CF sent) as [Hle|Hgt]; [|done].
  intros Hr Hp. split; [|done]. by apply next_cf_ok.
Qed.

Lemma nonempty_pos bufs : Forall (fun b => b <> []) bufs -> bufs <> [] -> (0 < size bufs)%Z.
Proof. intros Hne Hb. pose proof (nonempty_count _ Hne). destruct bufs; [done|]. simpl in *. lia. Qed.

(** Sending closes the batch: it decompresses to what was read for it, the
    statistics count it and the next batch starts from nothing. *)
Lemma send_good st0 pend log err timeout c :
  building st0 pend log c -> pend <> [] -> (size pend <= data_max)%Z ->
  batchTimeoutCount c = (if timeout : bool then 1 else 0)%Z ->
  exists c' batch, send err c = Ret (c', batch) /\ gunzip batch = Some (concat pend) /\
    good st0 [] (mkSent pend batch timeout err :: log) c'.
Proof.
  intros [Hc Hb Hne Hw Hst Hcf Hlim] Hpe Hmax Ht. destruct (Hw Hpe) as (w0 & w & Hf & Hall & Hg).
  pose proof (gz_round _ _ _ _ _ Hf Hall) as Hround. pose proof (gz_size _ _ _ _ _ Hf Hall) as Hsize.
  unfold send. rewrite Hg. simpl. destruct (CloseW w) as [w' out]. simpl in Hround, Hsize.
  set (batch := gzBuf c ++ out) in *.
  pose proof (batch_factor (size pend) (Z.of_nat (length batch)) c Hcf Hlim) as Hnext. rewrite <- Hb in Hnext.
  destruct (if (_ <=? _)%Z then _ else _) as [cf limit]. destruct Hnext as [Hcf' Hlim'];
    [rewrite Hb; pose proof (nonempty_pos _ Hne Hpe); lia|by rewrite Hb|].
  pose proof (batch_stats_log log (mkSent pend batch timeout err)) as Hbs. simpl in Hbs.
  rewrite Hc, Hb, Ht.
  destruct (stats c) as [st|] eqn:Es.
  - destruct Hst as [Hst0 Hst]. specialize (Hbs st cf Hst). revert Hbs.
    destruct hasSender, err; simpl; intros ->; simpl; eexists _, _;
      (split; [reflexivity|]); (split; [done|]); (split; [by split|done..]).
  - destruct hasSender, err; simpl; eexists _, _;
      (split; [reflexivity|]); (split; [done|]); (split; [by split|done..]).
Qed.

Definition is_open (e : event) : bool := match e with Recv _ isOpen => isOpen | Flush => true end.
Definition is_flush (e : event) : bool := match e with Recv _ _ => false | Flush => true end.

Definition after (st0 : bool) (all : list bytes) (log : list sent) (e : event) (err : bool)
    (c : compressor) (o : option bytes) : Prop :=
  match o with
  | None => good st0 all log c /\ (is_open e = false -> all = [])
  | Some batch => gunzip batch = Some (concat all) /\ all <> [] /\
      good st0 [] (mkSent all batch (is_flush e) err :: log) c
  end.

(** The end of a [Recv] iteration: what was read is sent or waits. *)
Lemma finish_good st0 all log err isOpen c :
  building st0 all log c -> batchTimeoutCount c = 0%Z ->
  timerSet c = bool_decide (all <> []) && (0 <? flushInterval)%Z -> (size all <= data_max)%Z ->
  let doSend := (negb isOpen && (0 <? batchReadByteCount c)%Z)
                || (batchReadByteLimit c <=? batchReadByteCount c)%Z in
  exists c' o,
    (if doSend then
       '(c, batch) ← send err c;
       Ret (c, if isOpen then Continue (Some batch) else Closed (Some batch))
     else Ret (c, if isOpen then Continue None else Closed None)) =
    Ret (c', if isOpen then Continue o else Closed o) /\
    match o with
    | None => good st0 all log c' /\ (isOpen = false -> all = [])
    | Some batch => gunzip batch = Some (concat all) /\ all <> [] /\
        good st0 [] (mkSent all batch false err :: log) c'
    end.
Proof.
  intros HB Ht Hs Hmax doSend. pose proof HB as [_ Hb Hne _ _ Hcf Hlim].
  pose proof (byte_limit_pos _ _ Htarget Hcf) as [Hpl _]. rewrite <- Hlim in Hpl.
  assert (all = [] -> batchReadByteCount c = 0%Z) as Hz by (intros ->; by rewrite Hb).
  assert (all <> [] -> 0 < batchReadByteCount c)%Z as Hpos.
  { intros Ha. rewrite Hb. by apply nonempty_pos. }
  destruct doSend eqn:E; subst doSend.
  - assert (all <> []) as Ha. { intros Ha. rewrite Hz in E by done. lia. }
    destruct (send_good st0 all log err false c HB Ha Hmax Ht) as (c' & batch & -> & Hr & HG).
    exists c', (Some batch). by destruct isOpen.
  - apply orb_false_iff in E as [E1 E2%Z.leb_gt]. exists c, None. split; [by destruct isOpen|]. split.
    + split; [done..|]. intros _. lia.
    + intros ->. destruct (decide (all = [])) as [->|Ha]; [done|]. specialize (Hpos Ha). simpl in E1. lia.
Qed.

(** A batch that takes one more small buffer is within bounds. *)
Lemma room st0 pend log e c : good st0 pend log c -> Forall small (payload e) -> (size pend + size (payload e) <= data_max)%Z.
Proof.
  intros [[_ _ _ _ _ Hcf Hlim] _ _ Hl] Hs. pose proof (byte_limit_pos _ _ Htarget Hcf) as [_ Hmax]. rewrite <- Hlim in Hmax.
  assert (size (payload e) <= buf_max)%Z as He.
  { destruct e as [[[|x b]|] o|]; simpl in Hs |- *; try (unfold size, buf_max; cbn [concat length Z.of_nat]; lia).
    apply (proj1 (Forall_singleton _ _)) in Hs. unfold size. cbn [concat]. rewrite app_nil_r. exact Hs. }
  destruct pend as [|b pend]; [change (size []) with 0%Z; unfold data_max, buf_max in *; lia|]. specialize (Hl ltac:(done)). lia.
Qed.

Lemma iteration_good st0 pend log e err c :
  good st0 pend log c -> enabled e c -> Forall small (payload e) ->
  exists c' o, iteration e err c = Ret (c', if is_open e then Continue o else Closed o) /\
    after st0 (pend ++ payload e) log e err c' o.
Proof.
  intros HG He Hsm. pose proof (room _ _ _ _ _ HG Hsm) as Hmax. pose proof HG as [HB Ht Hs Hl]. destruct e as [buf isOpen|].
  - assert (payload (Recv buf isOpen) = [] \/
      exists b, buf = Some b /\ b <> [] /\ payload (Recv buf isOpen) = [b]) as [Hp|(b & -> & Hb & Hp)].
    { destruct buf as [[|x b]|]; [by left| |by left]. right. by exists (x :: b). }
    + assert (iteration (Recv buf isOpen) err c =
        if (negb isOpen && (0 <? batchReadByteCount c)%Z) || (batchReadByteLimit c <=? batchReadByteCount c)%Z
        then '(c, batch) ← send err c; Ret (c, if isOpen then Continue (Some batch) else Closed (Some batch))
        else Ret (c, if isOpen then Continue None else Closed None)) as ->
        by (destruct buf as [[|x b]|]; done).
      rewrite Hp, app_nil_r. rewrite Hp, Z.add_0_r in Hmax. by apply finish_good.
    + rewrite Hp in *. destruct (compress_good _ _ _ b _ HG Hb) as (c1 & Hc & HB1 & Ht1 & Hs1 & Hl1).
      { unfold size in Hmax at 2. simpl in Hmax. by rewrite app_nil_r in Hmax. }
      destruct b as [|x b]; [done|]. unfold iteration. rewrite Hc, bind_ret.
      apply finish_good; [done..| |by rewrite size_app].
      rewrite bool_decide_eq_true_2; [done|]. by destruct pend.
  - simpl in He. rewrite Hs in He. apply andb_true_iff in He as [Hp%bool_decide_eq_true _].
    simpl. rewrite app_nil_r.
    set (c1 := mkCompressor _ _ _ _ _ _ _ _ _).
    assert (building st0 pend log c1) as HB1 by (destruct HB; by split).
    destruct (send_good st0 pend log err true c1 HB1 Hp ltac:(unfold size in Hmax at 2; simpl in Hmax; lia) eq_refl) as (c' & batch & -> & Hr & HG').
    by exists c', (Some batch).
Qed.

(** The batch that an event completes. *)
Definition batch_of (e : event) (c : compressor) : option bytes :=
  match iteration e false c with Ret (_, (Continue o | Closed o)) => o | _ => None end.

(** Neither the batch nor what the loop does next depends on the sender. *)
Lemma send_batch err c c' b : send err c = Ret (c', b) -> exists w, gzWriter c = Some w /\ b = gzBuf c ++ (CloseW w).2.
Proof.
  unfold send. intros (w & Hw & H)%bind_Ret_inv. exists w. split; [by destruct (gzWriter c); simplify_eq/=|].
  destruct (CloseW w) as [w' o]. destruct (if (_ <=? _)%Z then _ else _) as [cf limit].
  destruct (if hasSender then _ else _) as [[n1 n2] n3]. by apply bind_Ret_inv in H as (st & _ & [= _ <-]).
Qed.

Lemma send_same err err' c c1 b1 c2 b2 : send err c = Ret (c1, b1) -> send err' c = Ret (c2, b2) -> b1 = b2.
Proof. intros (w & Hw & ->)%send_batch (w' & Hw' & ->)%send_batch. congruence. Qed.

Lemma iteration_same e err err' c c1 n1 c2 n2 : iteration e err c = Ret (c1, n1) -> iteration e err' c = Ret (c2, n2) -> n1 = n2.
Proof.
  unfold iteration. destruct e as [buf isOpen|].
  - intros (r & Hr & H1)%bind_Ret_inv (r' & Hr' & H2)%bind_Ret_inv. rewrite Hr in Hr'. injection Hr' as <-.
    destruct r as [c'|]; [|by injection H1 as _ <-; injection H2 as _ <-]. destruct (_ || _); [|by injection H1 as _ <-; injection H2 as _ <-].
    apply bind_Ret_inv in H1 as ([d1 b1] & Hs1 & [= _ <-]). apply bind_Ret_inv in H2 as ([d2 b2] & Hs2 & [= _ <-]).
    by rewrite (send_same _ _ _ _ _ _ _ Hs1 Hs2).
  - intros ([d1 b1] & Hs1 & [= _ <-])%bind_Ret_inv ([d2 b2] & Hs2 & [= _ <-])%bind_Ret_inv. by rewrite (send_same _ _ _ _ _ _ _ Hs1 Hs2).
Qed.

Lemma iteration_batch st0 pend log e err c c' o :
  good st0 pend log c -> enabled e c -> Forall small (payload e) ->
  iteration e err c = Ret (c', if is_open e then Continue o else Closed o) -> batch_of e c = o.
Proof.
  intros HG He Hm Hit. destruct (iteration_good st0 pend log e false c HG He Hm) as (c1 & o1 & Hit1 & _). unfold batch_of. rewrite Hit1.
  pose proof (iteration_same _ _ _ _ _ _ _ _ Hit Hit1) as Hn. destruct (is_open e); congruence.
Qed.

Definition ended (r : option next) : Prop := exists o, r = Some (Closed o).

Lemma loop_good st0 es pend log c :
  good st0 pend log c -> valid es c -> Forall small (payloads es) ->
  exists c' r log' pend', loop es c = Ret (c', rev (map sentBatch log'), r) /\
    (r = None \/ ended r /\ pend' = []) /\
    good st0 pend' (log' ++ log) c' /\
    Forall (fun x => gunzip (sentBatch x) = Some (concat (sentBufs x)) /\ sentBufs x <> []) log' /\
    concat (rev (map sentBufs log')) ++ pend' = pend ++ payloads es.
Proof.
  revert pend log c. induction es as [|[e err] es IH]; intros pend log c HG Hv Hmax.
  - exists c, None, [], pend. rewrite app_nil_r. by split; [|split; [left|]].
  - destruct Hv as [He Hv]. unfold payloads in Hmax. simpl in Hmax. fold (payloads es) in Hmax. apply Forall_app in Hmax as [Hse Hmax].
    destruct (iteration_good st0 pend log e err c HG He Hse) as (c1 & o & Hit & Ha).
    simpl. rewrite Hit, bind_ret. rewrite Hit in Hv.
    assert (payloads ((e, err) :: es) = payload e ++ payloads es) as -> by done.
    destruct (is_open e) eqn:Eo.
    + destruct o as [batch|]; destruct Ha as [Ha1 Ha2].
      * destruct Ha2 as [Ha2 HG1].
        destruct (IH [] _ c1 HG1 Hv Hmax) as (c2 & r & log' & pend' & -> & Hr & HG2 & Hall & Hcat).
        exists c2, r, (log' ++ [mkSent (pend ++ payload e) batch (is_flush e) err]), pend'.
        rewrite bind_ret, !map_app, !rev_app_distr, <- app_assoc. simpl.
        rewrite <- !app_assoc, Hcat. simpl. split; [done|]. split; [done|]. split; [done|].
        split; [|done]. apply Forall_app_2; [done|]. by constructor.
      * destruct (IH (pend ++ payload e) log c1 Ha1 Hv Hmax) as (c2 & r & log' & pend' & -> & Hr & HG2 & Hall & Hcat).
        exists c2, r, log', pend'. rewrite bind_ret, Hcat, <- app_assoc. done.
    + subst es. rewrite app_nil_r. unfold ended. destruct o as [batch|]; destruct Ha as [Ha1 Ha2].
      * destruct Ha2 as [Ha2 HG1]. exists c1, (Some (Closed (Some batch))),
          [mkSent (pend ++ payload e) batch (is_flush e) err], [].
        simpl. rewrite !app_nil_r. split; [done|]. split; [right; split; [by eexists|done]|]. split; [done|].
        split; [by constructor|done].
      * rewrite (Ha2 Eo) in *. exists c1, (Some (Closed None)), [], []. simpl.
        split; [done|]. split; [right; split; [by eexists|done]|]. done.
Qed.

(** C11: no data is lost, duplicated or reordered.  With a target size of a batch
    from 16 bytes to 2^48 ([target_ok]; it fails with 0), for any sequence of
    buffers of at most 2^59 bytes ([small]), timer firings and send results, with
    writes that do not fail ([GzipLaws]), the loop neither panics nor returns early; each batch handed to the sender decompresses to
    the concatenation of the buffers read for it, these buffers in order
    followed by those of the batch being built are exactly the buffers that
    were received, and when the queue is closed nothing is left. *)
Theorem compressor_delivers_all st es :
  st = None \/ st = Some NewCompressorStats ->
  valid es (init st) -> Forall small (payloads es) ->
  exists c batches r bufs pend,
    loop es (init st) = Ret (c, batches, r) /\
    (r = None \/ ended r /\ pend = []) /\
    Forall2 (fun batch bs => gunzip batch = Some (concat bs) /\ bs <> []) batches bufs /\
    concat bufs ++ pend = payloads es.
Proof.
  intros Hst Hv Hmax.
  destruct (loop_good _ es [] [] _ (good_init st Hst) Hv Hmax)
    as (c & r & log & pend & Hl & Hr & _ & Hall & Hcat).
  exists c, (rev (map sentBatch log)), r, (rev (map sentBufs log)), pend.
  split; [done|]. split; [done|]. split; [|done].
  rewrite <- !map_rev. apply Forall2_fmap, Forall_Forall2_diag, Forall_rev, Hall.
Qed.

(** what waits is bounded in size and time.  Whenever the loop waits with data that was
    read but not sent, the amount is below the current limit and the flush
    timer is running (unless flushing is disabled); with nothing read the timer
    is stopped. *)
Theorem compressor_pending_bounded st es :
  st = None \/ st = Some NewCompressorStats ->
  valid es (init st) -> Forall small (payloads es) ->
  exists c batches r bufs pend,
    loop es (init st) = Ret (c, batches, r) /\
    length batches = length bufs /\ concat bufs ++ pend = payloads es /\
    batchReadByteCount c = size pend /\
    (pend <> [] -> timerSet c = (0 <? flushInterval)%Z /\ (size pend < batchReadByteLimit c)%Z) /\
    (pend = [] -> timerSet c = false).
Proof.
  intros Hst Hv Hmax.
  destruct (loop_good _ es [] [] _ (good_init st Hst) Hv Hmax)
    as (c & r & log & pend & Hl & Hr & [HB Ht Hs Hlim] & Hall & Hcat).
  exists c, (rev (map sentBatch log)), r, (rev (map sentBufs log)), pend.
  split; [done|]. split; [by rewrite !length_rev, !length_map|]. split; [done|].
  split; [by destruct HB|]. rewrite Hs. split.
  - intros Hp. split; [|auto]. by rewrite bool_decide_eq_true_2.
  - by intros ->.
Qed.

(** the statistics.  After any run the counters are the numbers of buffers
    and bytes of the batches handed over, of batches sent, of bytes of the
    batches that the sender accepted, of timer flushes and of send errors,
    modulo 2^64, and no write error is counted. *)
Theorem compressor_stats_exact es :
  valid es (init (Some NewCompressorStats)) -> Forall small (payloads es) ->
  exists c batches r log st,
    loop es (init (Some NewCompressorStats)) = Ret (c, batches, r) /\
    batches = rev (map sentBatch log) /\
    Forall (fun x => gunzip (sentBatch x) = Some (concat (sentBufs x))) log /\
    stats c = Some st /\ Uint64Stats st = log_stats log.
Proof.
  intros Hv Hmax.
  destruct (loop_good _ es [] [] _ (good_init (Some NewCompressorStats) (or_intror eq_refl)) Hv Hmax)
    as (c & r & log & pend & Hl & Hr & [[_ _ _ _ Hst _ _] _ _ _] & Hall & _).
  rewrite app_nil_r in Hst. destruct (stats c) as [st|] eqn:Es; [|done].
  exists c, (rev (map sentBatch log)), r, log, st. split; [done|]. split; [done|].
  split; [|naive_solver]. eapply Forall_impl; [done|]. naive_solver.
Qed.

(** C13: the size of a batch stays within reason.  With a target size from 16 bytes
    to 2^48 ([target_ok]; with 0 the limit is 0), whatever buffers of at most 2^59
    bytes were read and sent, the estimated compression factor stays between 1/8 and 4096, in spite of the
    roundings of its updates, so that the limit at which a batch is sent is
    positive and an [int]. *)
Theorem compressor_limit_bounds st es :
  st = None \/ st = Some NewCompressorStats ->
  valid es (init st) -> Forall small (payloads es) ->
  exists c batches r, loop es (init st) = Ret (c, batches, r) /\
    cf_ok (estimatedCF c) /\ (0 < batchReadByteLimit c <= MaxInt64)%Z.
Proof.
  intros Hst Hv Hmax.
  destruct (loop_good _ es [] [] _ (good_init st Hst) Hv Hmax) as (c & r & log & pend & Hl & _ & [[_ _ _ _ _ Hcf Hlim] _ _ _] & _).
  exists c, (rev (map sentBatch log)), r. split; [done|]. split; [done|]. rewrite Hlim.
  pose proof (byte_limit_pos _ _ Htarget Hcf). unfold data_max, buf_max, MaxInt64 in *. lia.
Qed.
End laws.

(** a limit that is not positive.  When the limit is not positive (a batch target
    size of zero), a receive that gives nothing to compress, from an empty
    buffer or from the closing of the queue, before the first batch makes the
    loop close a nil writer and panic. *)
Theorem compressor_panics_without_writer es buf isOpen err c :
  gzWriter c = None -> batchReadByteCount c = 0%Z -> (batchReadByteLimit c <= 0)%Z ->
  buf = None \/ buf = Some [] ->
  loop ((Recv buf isOpen, err) :: es) c = Panic.
Proof.
  intros Hw Hb Hl Hbuf.
  assert (iteration (Recv buf isOpen) err c = Panic) as Hit.
  { assert (((negb isOpen && (0 <? batchReadByteCount c)%Z)
             || (batchReadByteLimit c <=? batchReadByteCount c)%Z) = true) as Hd.
    { rewrite Hb. apply orb_true_iff. right. lia. }
    destruct Hbuf as [-> | ->]; simpl; rewrite Hd; unfold send; by rewrite Hw. }
  cbn [loop]. by rewrite Hit.
Qed.
End loop.
Arguments compressor : clear implicits.

(** ** The pool *)

Inductive CompressorPoolState := CompressorPoolStateCreated | CompressorPoolStateRunning | CompressorPoolStateStopped.

Record CompressorPool := mkPool {
  numCompressors : Z;
  metricsQueue : list bytes;
  queueSize : nat;
  queueClosed : bool;
  state : CompressorPoolState
}.

Definition clamp_compressors (availableCpus n : Z) : Z :=
  let n := if (n <=? 0)%Z then availableCpus else n in
  if (COMPRESSOR_POOL_MAX_NUM_COMPRESSORS <? n)%Z then COMPRESSOR_POOL_MAX_NUM_COMPRESSORS else n.

(** [Start] tells how many loops to run. *)
Definition Start (p : CompressorPool) : CompressorPool * Z :=
  match state p with
  | CompressorPoolStateCreated =>
    (mkPool (numCompressors p) (metricsQueue p) (queueSize p) (queueClosed p) CompressorPoolStateRunning,
     numCompressors p)
  | _ => (p, 0%Z)
  end.

Definition Shutdown (p : CompressorPool) : CompressorPool :=
  match state p with
  | CompressorPoolStateStopped => p
  | _ => mkPool (numCompressors p) (metricsQueue p) (queueSize p) true CompressorPoolStateStopped
  end.

(** [QueueBuf]: blocks ([None]) while the queue is full, panics once it is
    closed. *)
Definition QueueBuf (b : bytes) (p : CompressorPool) : option (outcome CompressorPool) :=
  if queueClosed p then Some Panic
  else if length (metricsQueue p) <? queueSize p
  then Some (Ret (mkPool (numCompressors p) (metricsQueue p ++ [b]) (queueSize p) (queueClosed p) (state p)))
  else None.

(** A compressor receives: the head of the queue, or the closing. *)
Definition receive (p : CompressorPool) : option (CompressorPool * event) :=
  match metricsQueue p with
  | b :: q => Some (mkPool (numCompressors p) q (queueSize p) (queueClosed p) (state p), Recv (Some b) true)
  | [] => if queueClosed p then Some (p, Recv None false) else None
  end.

(** ** All the compressors of a pool *)

Section system.
Context {W : Type}.
Variable NewWriterLevel : Z -> option W.
Variable Reset : W -> W.
Variable Write : bytes -> W -> W * bytes * bool.
Variable CloseW : W -> W * bytes.
Variable compressionLevel batchTargetSize flushInterval : Z.
Variable hasSender : bool.

Abbreviation iter := (iteration NewWriterLevel Reset Write CloseW compressionLevel batchTargetSize flushInterval hasSender).
Abbreviation init1 := (init (W := W) compressionLevel batchTargetSize).

(** What a loop is doing: it waits in its [select]; it has got an event, which it
    handles up to and including the [SendBuffer] of a batch; it has ended. *)
Inductive phase := Waiting | Busy (e : event) | Ended.

(** The pool, its loops and the batches handed to the sender so far. *)
Record system := mkSystem { pool : CompressorPool; comps : list (compressor W * phase); out : list bytes }.

Inductive action :=
| Queue (b : bytes)
| Handover (b : bytes) (i : nat)
| Receive (i : nat)
| Fire (i : nat)
| Finish (i : nat) (err : bool)
| Stop.

(** Loop [i] gets event [e]. *)
Definition get_event (i : nat) (e : event) (p : CompressorPool) (s : system) : option (outcome system) :=
  match comps s !! i with
  | Some (c, Waiting) => Some (Ret (mkSystem p (<[i := (c, Busy e)]> (comps s)) (out s)))
  | _ => None
  end.

(** Loop [i] handles its event, [err] being the result of the sender. *)
Definition run_event (i : nat) (err : bool) (s : system) : option (outcome system) :=
  match comps s !! i with
  | Some (c, Busy e) =>
    Some ('(c, nx) ← iter e err c;
          Ret (match nx with
               | Continue o => mkSystem (pool s) (<[i := (c, Waiting)]> (comps s)) (out s ++ option_list o)
               | Closed o => mkSystem (pool s) (<[i := (c, Ended)]> (comps s)) (out s ++ option_list o)
               | NoWriter => mkSystem (pool s) (<[i := (c, Ended)]> (comps s)) (out s)
               end))
  | _ => None
  end.

(** [None]: the action cannot happen now. A queue without room for a buffer
    ([make(chan T, 0)]) hands it over to a loop that waits. *)
Definition act (a : action) (s : system) : option (outcome system) :=
  match a with
  | Queue b => r ← QueueBuf b (pool s); Some (p ← r; Ret (mkSystem p (comps s) (out s)))
  | Handover b i =>
    if queueClosed (pool s) then Some Panic
    else if queueSize (pool s) =? 0 then get_event i (Recv (Some b) true) (pool s) s else None
  | Receive i => '(p, e) ← receive (pool s); get_event i e p s
  | Fire i => c ← comps s !! i; if timerSet c.1 then get_event i Flush (pool s) s else None
  | Finish i err => run_event i err s
  | Stop => Some (Ret (mkSystem (Shutdown (pool s)) (comps s) (out s)))
  end.

(** Nothing is queued after the shutdown. *)
Definition act_ok (a : action) (s : system) : Prop :=
  match a with Queue _ | Handover _ _ => queueClosed (pool s) = false | _ => True end.

Definition queued (a : action) : list bytes :=
  match a with Queue (x :: b) | Handover (x :: b) _ => [x :: b] | _ => [] end.

(** The systems that a started pool reaches, with the non-empty buffers that
    were queued. *)
Inductive reachable (p0 : CompressorPool) (st : option CompressorStats) : list bytes -> system -> Prop :=
| reach_start p n :
    Start p0 = (p, n) -> reachable p0 st [] (mkSystem p (replicate (Z.to_nat n) (init1 st, Waiting)) [])
| reach_act q s a s' :
    reachable p0 st q s -> act_ok a s -> act a s = Some (Ret s') -> reachable p0 st (q ++ queued a) s'.

Section laws.
Context (gunzip : bytes -> option bytes).
Context `{!GzipLaws NewWriterLevel Reset Write CloseW compressionLevel gunzip}.
Hypothesis Htarget : target_ok batchTargetSize.
Variable st : option CompressorStats.
Hypothesis Hst : st = None \/ st = Some NewCompressorStats.

Abbreviation st0 := (bool_decide (st <> None)).
Abbreviation good1 := (good NewWriterLevel Reset Write CloseW compressionLevel batchTargetSize flushInterval hasSender gunzip st0).

Definition nonempty (l : list bytes) : list bytes := filter (fun b => b <> []) l.

(** What a loop has in its hands. *)
Definition in_hand (ph : phase) : list bytes := match ph with Busy e => payload e | _ => [] end.

(** A loop that has ended or is about to. *)
Definition closing (ph : phase) : Prop :=
  match ph with Ended => True | Busy e => is_open e = false | Waiting => False end.

(** The ghost state of a loop: what it has read for its batch, what it sent. *)
Definition loop_ok (g : list bytes * list sent) (cr : compressor W * phase) : Prop :=
  good1 g.1 g.2 cr.1 /\
  Forall (fun x => gunzip (sentBatch x) = Some (concat (sentBufs x)) /\ sentBufs x <> []) g.2 /\
  match cr.2 with Waiting => True | Busy e => enabled e cr.1 | Ended => g.1 = [] end.

Definition taken (g : list bytes * list sent) : list bytes := concat (map sentBufs g.2) ++ g.1.
Definition hands (crs : list (compressor W * phase)) : list bytes := concat (map (fun cr => in_hand cr.2) crs).

Record sys_ok (q : list bytes) (gs : list (list bytes * list sent)) (s : system) : Prop := mkSysOk {
  ok_loops : Forall2 loop_ok gs (comps s);
  ok_data : Permutation q (concat (map taken gs) ++ hands (comps s) ++ nonempty (metricsQueue (pool s)));
  ok_out : Permutation (out s) (concat (map (fun g => map sentBatch g.2) gs));
  ok_stopped : Exists (fun cr => closing cr.2) (comps s) -> queueClosed (pool s) = true /\ metricsQueue (pool s) = []
}.

Lemma concat_map_insert {A B} (f : A -> list B) gs i g g' x y :
  gs !! i = Some g -> Permutation (f g' ++ y) (f g ++ x) ->
  Permutation (concat (map f (<[i:=g']> gs)) ++ y) (concat (map f gs) ++ x).
Proof.
  revert i. induction gs as [|g0 gs IH]; intros [|i] Hi Hp; simplify_eq/=.
  - by rewrite <- !app_assoc, (Permutation_app_comm _ x), (Permutation_app_comm _ y), !app_assoc, Hp.
  - rewrite <- !app_assoc. apply Permutation_app_head. by apply IH.
Qed.

Lemma Exists_insert {A} (P : A -> Prop) l i x : Exists P (<[i:=x]> l) -> P x \/ Exists P l.
Proof.
  revert i. induction l as [|y l IH]; intros i H; [by right|]. destruct i as [|i]; simpl in H.
  - apply Exists_cons in H as [?|?]; [by left|right; by apply Exists_cons_tl].
  - apply Exists_cons in H as [?|H]; [right; by apply Exists_cons_hd|].
    apply IH in H as [?|?]; [by left|right; by apply Exists_cons_tl].
Qed.

(** What a loop holds is part of what was queued. *)
Lemma hand_small q gs s i cr : sys_ok q gs s -> Forall small q -> comps s !! i = Some cr -> Forall small (in_hand cr.2).
Proof.
  intros [_ Hd _ _] Hq Hc. rewrite Hd in Hq. apply Forall_app in Hq as [_ [Hq _]%Forall_app]. apply Forall_concat in Hq.
  rewrite Forall_lookup in Hq. apply (Hq i). unfold hands. by rewrite !list_lookup_fmap, Hc.
Qed.

(** A loop that receives takes what the event carries into its hands. *)
Lemma get_event_ok q gs s i e r p :
  sys_ok q gs s ->
  (forall cr, comps s !! i = Some cr -> enabled e cr.1) ->
  nonempty (metricsQueue (pool s)) = payload e ++ nonempty (metricsQueue p) ->
  (is_open e = false -> queueClosed p = true /\ metricsQueue p = []) ->
  (queueClosed (pool s) = true -> queueClosed p = true) ->
  (metricsQueue (pool s) = [] -> metricsQueue p = []) ->
  get_event i e p s = Some r ->
  exists c, comps s !! i = Some (c, Waiting) /\ r = Ret (mkSystem p (<[i := (c, Busy e)]> (comps s)) (out s)) /\
    sys_ok q gs (mkSystem p (<[i := (c, Busy e)]> (comps s)) (out s)).
Proof.
  intros [HL HD HO HE] He Hq Hcl Hqc Hmq Hrun. unfold get_event in Hrun.
  destruct (comps s !! i) as [[c []]|] eqn:Hc; [|done..]. injection Hrun as <-.
  destruct (Forall2_lookup_r _ _ _ _ _ HL Hc) as (g & Hg & HG & Hall & _). simpl in HG.
  exists c. split; [done|]. split; [reflexivity|]. split; simpl.
  - rewrite <- (list_insert_id _ _ _ Hg). apply Forall2_insert; [done|]. split; [done|]. split; [done|]. by apply (He _ eq_refl).
  - rewrite HD, Hq. apply Permutation_app_head. rewrite !app_assoc. apply Permutation_app_tail. unfold hands.
    pose proof (concat_map_insert (fun cr : compressor W * phase => in_hand cr.2) (comps s) i (c, Waiting) (c, Busy e)
      (payload e) [] Hc ltac:(simpl; by rewrite app_nil_r)) as H. by rewrite app_nil_r in H.
  - done.
  - intros [Hx|Hex]%Exists_insert; [by apply Hcl|]. destruct (HE Hex). auto.
Qed.

(** The ghost state after an event. *)
Definition next_ghost (g : list bytes * list sent) (e : event) (err : bool) (o : option bytes) : list bytes * list sent :=
  match o with
  | None => (g.1 ++ payload e, g.2)
  | Some batch => ([], mkSent (g.1 ++ payload e) batch (is_flush e) err :: g.2)
  end.
Definition next_phase (e : event) : phase := if is_open e then Waiting else Ended.
Abbreviation batch1 := (batch_of NewWriterLevel Reset Write CloseW compressionLevel batchTargetSize flushInterval hasSender).

(** A loop takes in what it has in its hands. *)
Lemma run_event_spec q gs s i err r :
  sys_ok q gs s -> Forall small q -> run_event i err s = Some r ->
  exists c e g c', comps s !! i = Some (c, Busy e) /\ gs !! i = Some g /\
    r = Ret (mkSystem (pool s) (<[i := (c', next_phase e)]> (comps s)) (out s ++ option_list (batch1 e c))) /\
    sys_ok q (<[i := next_ghost g e err (batch1 e c)]> gs)
      (mkSystem (pool s) (<[i := (c', next_phase e)]> (comps s)) (out s ++ option_list (batch1 e c))).
Proof.
  intros HS Hmax Hrun. unfold run_event in Hrun.
  destruct (comps s !! i) as [[c [|e|]]|] eqn:Hc; [done| |done|done]. injection Hrun as <-.
  pose proof HS as [HL HD HO HE].
  destruct (Forall2_lookup_r _ _ _ _ _ HL Hc) as (g & Hg & HG & Hall & He). simpl in HG, Hall, He.
  pose proof (hand_small _ _ _ _ _ HS Hmax Hc) as Hsz. simpl in Hsz.
  destruct (iteration_good NewWriterLevel Reset Write CloseW compressionLevel batchTargetSize flushInterval hasSender gunzip Htarget
    st0 g.1 g.2 e err c HG He Hsz) as (c' & o & Hit & Ha).
  exists c, e, g, c'. pose proof (iteration_batch NewWriterLevel Reset Write CloseW compressionLevel batchTargetSize flushInterval hasSender gunzip Htarget
    st0 g.1 g.2 e err c c' o HG He Hsz Hit) as ->. rewrite Hit, bind_ret.
  split; [done|]. split; [done|]. split; [by unfold next_phase; destruct (is_open e)|]. split; simpl.
  - apply Forall2_insert; [done|]. destruct o as [batch|]; simpl in Ha.
    + destruct Ha as (Hgz & Hne & HG'). split; [done|]. split; [by constructor|]. simpl. unfold next_phase. by destruct (is_open e).
    + destruct Ha as [HG' Hcl']. split; [done|]. split; [done|]. simpl. unfold next_phase. destruct (is_open e); [done|by apply Hcl'].
  - rewrite HD. unfold hands.
    pose proof (concat_map_insert taken gs i _ (next_ghost g e err o) (payload e) [] Hg) as HT. rewrite !app_nil_r in HT. rewrite HT.
    2:{ unfold taken, next_ghost. destruct o; simpl; rewrite <- ?app_assoc, ?app_nil_r; [|done].
        rewrite (app_assoc g.1). apply Permutation_app_comm. }
    pose proof (concat_map_insert (fun cr : compressor W * phase => in_hand cr.2) (comps s) i _ (c', next_phase e) [] (payload e) Hc) as HH.
    rewrite !app_nil_r in HH. rewrite <- HH; [|unfold next_phase; simpl; by destruct (is_open e)].
    rewrite <- !app_assoc. apply Permutation_app_head. rewrite !app_assoc. apply Permutation_app_tail, Permutation_app_comm.
  - rewrite HO. pose proof (concat_map_insert (fun g : list bytes * list sent => map sentBatch g.2) gs i _ (next_ghost g e err o) (option_list o) [] Hg) as H.
    rewrite !app_nil_r in H. symmetry. apply H. unfold next_ghost. destruct o; simpl; [|by rewrite app_nil_r].
    apply Permutation_cons_append.
  - intros [Hx|Hex]%Exists_insert; [|by apply HE]. unfold next_phase in Hx. apply HE. apply Exists_exists. exists (c, Busy e).
    split; [by eapply list_elem_of_lookup_2|]. simpl in *. by destruct (is_open e).
Qed.

Lemma receive_enabled p p' e (c : compressor W) : receive p = Some (p', e) -> enabled e c.
Proof.
  unfold receive. destruct (metricsQueue p) as [|[|x b] mq]; [destruct (queueClosed p); [|done]|..]; by intros [= _ <-].
Qed.

(** What a receive gives. *)
Lemma receive_spec p p' e :
  receive p = Some (p', e) ->
  nonempty (metricsQueue p) = payload e ++ nonempty (metricsQueue p') /\
  queueClosed p' = queueClosed p /\ state p' = state p /\
  (is_open e = false -> queueClosed p' = true /\ metricsQueue p' = []) /\ (metricsQueue p = [] -> metricsQueue p' = []).
Proof.
  unfold receive. destruct (metricsQueue p) as [|b mq] eqn:Em.
  - destruct (queueClosed p) eqn:Ec; [|done]. intros [= <- <-]. rewrite Em. by split_and!.
  - intros [= <- <-]. simpl. split_and!; try done. by destruct b.
Qed.

Lemma queue_good q gs s b r :
  sys_ok q gs s -> queueClosed (pool s) = false -> act (Queue b) s = Some r ->
  exists p, r = Ret (mkSystem p (comps s) (out s)) /\ sys_ok (q ++ nonempty [b]) gs (mkSystem p (comps s) (out s)) /\
    queueClosed p = false /\ state p = state (pool s).
Proof.
  intros [HL HD HO HE] Hok Hact. simpl in Hact. unfold QueueBuf in Hact. rewrite Hok in Hact. case_match; [|done].
  simpl in Hact. injection Hact as <-. eexists. split; [reflexivity|]. split; [|done]. split; simpl; [done| |done|].
  - rewrite HD. unfold nonempty. by rewrite filter_app, <- !app_assoc.
  - intros [Hcl _]%HE. by rewrite Hok in Hcl.
Qed.

(** A buffer arrives at the head of the queue. *)
Lemma arrive_good q gs s b :
  sys_ok q gs s -> queueClosed (pool s) = false ->
  sys_ok (q ++ nonempty [b]) gs (mkSystem (mkPool (numCompressors (pool s)) (b :: metricsQueue (pool s)) (queueSize (pool s)) (queueClosed (pool s)) (state (pool s)))
    (comps s) (out s)).
Proof.
  intros [HL HD HO HE] Hok. split; simpl; [done| |done|].
  - change (b :: metricsQueue (pool s)) with ([b] ++ metricsQueue (pool s)). unfold nonempty in *. rewrite filter_app, HD, <- !app_assoc.
    do 2 apply Permutation_app_head. apply Permutation_app_comm.
  - intros [Hcl _]%HE. by rewrite Hok in Hcl.
Qed.

(** The buffer that is handed over is in the hands of its loop. *)
Lemma handover_good q gs s b i r :
  sys_ok q gs s -> queueClosed (pool s) = false -> act (Handover b i) s = Some r ->
  exists c, comps s !! i = Some (c, Waiting) /\ r = Ret (mkSystem (pool s) (<[i := (c, Busy (Recv (Some b) true))]> (comps s)) (out s)) /\
    sys_ok (q ++ nonempty [b]) gs (mkSystem (pool s) (<[i := (c, Busy (Recv (Some b) true))]> (comps s)) (out s)).
Proof.
  intros HS Hok Ha. cbn [act] in Ha. rewrite Hok in Ha. destruct (queueSize (pool s) =? 0); [|done].
  destruct (get_event_ok _ gs _ i (Recv (Some b) true) r (pool s) (arrive_good q gs s b HS Hok)) as (c & Hc & -> & HS'); simpl; try done.
  - by destruct b.
  - by destruct b.
  - by exists c.
Qed.

Lemma stop_good q gs s : sys_ok q gs s -> sys_ok q gs (mkSystem (Shutdown (pool s)) (comps s) (out s)).
Proof.
  intros [HL HD HO HE]. unfold Shutdown. split; simpl; [done| |done|]; [by destruct (state (pool s))|].
  intros [? ?]%HE. by destruct (state (pool s)).
Qed.

Lemma act_good q gs s a r :
  sys_ok q gs s -> Forall small (q ++ queued a) -> act_ok a s -> act a s = Some r ->
  exists s' gs', r = Ret s' /\ sys_ok (q ++ queued a) gs' s'.
Proof.
  intros HS Hmax Hok Hact.
  pose proof Hmax as [Hq _]%Forall_app.
  destruct a as [b|b i|i|i|i err|]; cbn [queued]; rewrite ?app_nil_r.
  - destruct (queue_good q gs s b r HS Hok Hact) as (p & -> & HS' & _). eexists _, gs. split; [done|]. by destruct b.
  - destruct (handover_good q gs s b i r HS Hok Hact) as (c & _ & -> & HS'). eexists _, gs. split; [done|]. by destruct b.
  - cbn [act] in Hact. destruct (receive (pool s)) as [[p e]|] eqn:Er; [|done]. simpl in Hact.
    destruct (receive_spec _ _ _ Er) as (H1 & H2 & _ & H3 & H4).
    edestruct (get_event_ok q gs s i e r p) as (c & _ & -> & HS'); try done; [|by rewrite H2|by eexists _, gs].
    intros cr _. by eapply receive_enabled.
  - cbn [act] in Hact. destruct (comps s !! i) as [c|] eqn:Hc; [|done]. simpl in Hact.
    destruct (timerSet c.1) eqn:Ht; [|done].
    edestruct (get_event_ok q gs s i Flush r (pool s)) as (c' & _ & -> & HS'); try done; [naive_solver|by eexists _, gs].
  - cbn [act] in Hact. destruct (run_event_spec q gs s i err r HS Hq Hact) as (c & e & g & c' & _ & _ & -> & HS'). by eexists _, _.
  - simpl in Hact. injection Hact as <-. eexists _, gs. split; [reflexivity|]. by apply stop_good.
Qed.

Lemma pool_start_ok p0 p n : metricsQueue p0 = [] -> Start p0 = (p, n) ->
  sys_ok [] (replicate (Z.to_nat n) ([], [])) (mkSystem p (replicate (Z.to_nat n) (init1 st, Waiting)) []).
Proof.
  intros Hp0 Hs. split; simpl.
  - apply Forall2_replicate. split; [|done]. by apply good_init.
  - replace (metricsQueue p) with (@nil bytes).
    + simpl. rewrite app_nil_r. unfold hands. induction (Z.to_nat n) as [|k IH]; [done|]. simpl. exact IH.
    + unfold Start in Hs. by destruct (state p0); injection Hs as <- _.
  - by induction (Z.to_nat n).
  - intros Hex. exfalso. by induction (Z.to_nat n); inversion Hex.
Qed.

Lemma reachable_ok p0 q s :
  metricsQueue p0 = [] -> reachable p0 st q s -> Forall small q -> exists gs, sys_ok q gs s.
Proof.
  intros Hp0 Hr. induction Hr as [p n Hs|q s a s' _ IH Hok Ha]; intros Hmax; [eexists; by eapply pool_start_ok|].
  pose proof Hmax as [Hq _]%Forall_app. destruct (IH Hq) as [gs HS].
  destruct (act_good _ _ _ _ _ HS Hmax Hok Ha) as (s2 & gs' & [= ->] & HS'). by exists gs'.
Qed.

(** The data by batches sent and batches being built. *)
Lemma taken_split gs : Permutation (concat (map taken gs)) (concat (map sentBufs (concat (map snd gs))) ++ concat (map fst gs)).
Proof.
  induction gs as [|g gs IH]; [done|]. simpl. rewrite map_app, concat_app, IH. unfold taken. rewrite <- !app_assoc.
  apply Permutation_app_head. apply Permutation_app_swap_app.
Qed.

Lemma batches_split (gs : list (list bytes * list sent)) :
  concat (map (fun g => map sentBatch g.2) gs) = map sentBatch (concat (map snd gs)).
Proof. induction gs as [|g gs IH]; [done|]. simpl. by rewrite map_app, IH. Qed.

Lemma ended_empty gs crs : Forall2 loop_ok gs crs -> Forall (fun cr => cr.2 = Ended) crs ->
  concat (map fst gs) = [] /\ hands crs = [].
Proof.
  induction 1 as [|g cr gs crs (_ & _ & Hg) HL IH]; intros Hall; [done|]. apply Forall_cons in Hall as [Hc Hall].
  destruct (IH Hall) as [H1 H2]. unfold hands in *. simpl. rewrite Hc in *. simpl in Hg. by rewrite Hg, H1, H2.
Qed.

Lemma log_ok gs crs : Forall2 loop_ok gs crs ->
  Forall (fun x => gunzip (sentBatch x) = Some (concat (sentBufs x)) /\ sentBufs x <> []) (concat (map snd gs)).
Proof.
  intros HL. apply Forall_concat, Forall_map. eapply Forall2_Forall_l; [exact HL|]. apply Forall_true.
  intros ? ? (_ & ? & _). done.
Qed.

(** C12: the whole pool, with a target size from 16 bytes to 2^48 ([target_ok]; with 0
    a loop panics), buffers of at most 2^59 bytes and writes that do not fail, and
    with nothing queued after the shutdown ([act_ok]).  Whatever the order in which the loops of a pool take buffers
    from the queue, their timers fire, their sends succeed or fail and the pool is
    stopped, nothing panics and no buffer is lost or handed over twice: the
    buffers of the batches sent, those that the loops still hold and those in the
    queue are the ones that were queued.  Once a loop has ended the queue is
    empty, and once all have ended everything was sent. *)
Theorem compressor_pool_conserves p0 q s :
  metricsQueue p0 = [] -> reachable p0 st q s -> Forall small q ->
  (exists log pend,
    Permutation (out s) (map sentBatch log) /\
    Forall (fun x => gunzip (sentBatch x) = Some (concat (sentBufs x)) /\ sentBufs x <> []) log /\
    Permutation q (concat (map sentBufs log) ++ pend ++ nonempty (metricsQueue (pool s))) /\
    (Exists (fun cr => cr.2 = Ended) (comps s) -> metricsQueue (pool s) = []) /\
    (Forall (fun cr => cr.2 = Ended) (comps s) -> pend = [])) /\
  (forall a, act_ok a s -> Forall small (queued a) -> act a s <> Some Panic).
Proof.
  intros Hp0 Hr Hmax. destruct (reachable_ok _ _ _ Hp0 Hr Hmax) as [gs HS]. split.
  - pose proof HS as [HL HD HO HE]. exists (concat (map snd gs)), (concat (map fst gs) ++ hands (comps s)).
    split; [by rewrite HO, batches_split|]. split; [by eapply log_ok|]. split; [|split].
    + by rewrite HD, taken_split, <- !app_assoc.
    + intros Hex. apply HE. eapply Exists_impl; [exact Hex|]. by intros ? ->.
    + intros Hall. destruct (ended_empty _ _ HL Hall) as [-> ->]. done.
  - intros a Hok Hm Ha. destruct (act_good _ _ _ _ _ HS ltac:(by apply Forall_app) Hok Ha) as (? & ? & ? & _). done.
Qed.
End laws.
End system.

(** ** An instance: a writer that puts a one-byte header before the data *)

Definition hdr : byte := Init.Byte.x1f.
Definition hdr_new (level : Z) : option bool := if (level <? -2)%Z || (9 <? level)%Z then None else Some false.
Definition hdr_reset (_ : bool) : bool := false.
Definition hdr_write (b : bytes) (wroteHeader : bool) : bool * bytes * bool :=
  (true, if wroteHeader then b else hdr :: b, false).
Definition hdr_close (wroteHeader : bool) : bool * bytes := (true, if wroteHeader then [] else [hdr]).
Definition hdr_gunzip (b : bytes) : option bytes :=
  match b with x :: b => if beq x hdr then Some b else None | [] => None end.

Lemma hdr_write_all bufs out : foldl (write_step hdr_write) (true, out, false) bufs = (true, out ++ concat bufs, false).
Proof.
  revert out. induction bufs as [|b bufs IH]; intros out; simpl; [by rewrite app_nil_r|].
  by rewrite IH, <- app_assoc.
Qed.

Lemma hdr_laws_at level : hdr_new level = Some false -> GzipLaws hdr_new hdr_reset hdr_write hdr_close level hdr_gunzip.
Proof.
  intros Hl. refine {| gz_fresh w := w = false |}.
  - by exists false.
  - rewrite Hl. by intros w [= <-].
  - done.
  - intros [|b bufs] w ->; [done|]. unfold write_all. simpl. by rewrite hdr_write_all.
  - intros [|b bufs] w w' out failed -> H; unfold write_all in H; simpl in H.
    + by injection H as <- <- <-.
    + rewrite hdr_write_all in H. injection H as <- <- <-. simpl. by rewrite app_nil_r.
  - intros [|b bufs] w w' out failed -> H; unfold write_all in H; simpl in H.
    + injection H as <- <- <-. unfold plausible. simpl. lia.
    + rewrite hdr_write_all in H. injection H as <- <- <-. unfold plausible. simpl. rewrite !app_nil_r. lia.
Defined.

#[export] Instance hdr_laws : GzipLaws hdr_new hdr_reset hdr_write hdr_close 6 hdr_gunzip.
Proof. by apply hdr_laws_at. Defined.

Abbreviation hdr_loop := (loop hdr_new hdr_reset hdr_write hdr_close 6 64 5 true).
Abbreviation hdr_init := (init (W := bool) 6 64).
Definition sample_events : list (event * bool) :=
  [(Recv (Some (bs "abc")) true, false); (Recv (Some (bs "de")) true, false); (Flush, false);
   (Recv (Some (bs "f")) true, false); (Recv None false, true)].

Lemma sample_target : target_ok 64.
Proof. unfold target_ok. lia. Qed.

Lemma sample_valid : valid hdr_new hdr_reset hdr_write hdr_close 6 64 5 true sample_events (hdr_init (Some NewCompressorStats)).
Proof. vm_compute. repeat split; reflexivity. Qed.

Lemma compressor_delivers_all_witness :
  hdr_loop sample_events (hdr_init (Some NewCompressorStats)) <> Panic /\
  exists c batches r bufs pend,
    hdr_loop sample_events (hdr_init (Some NewCompressorStats)) = Ret (c, batches, r) /\
    (r = None \/ ended r /\ pend = []) /\
    Forall2 (fun batch bs => hdr_gunzip batch = Some (concat bs) /\ bs <> []) batches bufs /\
    concat bufs ++ pend = payloads sample_events.
Proof.
  split; [vm_compute; discriminate|].
  apply (compressor_delivers_all hdr_new hdr_reset hdr_write hdr_close 6 64 5 true hdr_gunzip sample_target
    (Some NewCompressorStats) sample_events); [by right|exact sample_valid|by apply small_all; vm_compute].
Defined.

Lemma compressor_pending_bounded_witness :
  exists c batches r bufs pend,
    hdr_loop (take 2 sample_events) (hdr_init None) = Ret (c, batches, r) /\
    length batches = length bufs /\ concat bufs ++ pend = payloads (take 2 sample_events) /\
    batchReadByteCount c = size pend /\
    (pend <> [] -> timerSet c = (0 <? 5)%Z /\ (size pend < batchReadByteLimit c)%Z) /\
    (pend = [] -> timerSet c = false).
Proof.
  apply (compressor_pending_bounded hdr_new hdr_reset hdr_write hdr_close 6 64 5 true hdr_gunzip sample_target
    None (take 2 sample_events)); [by left|vm_compute; repeat split; reflexivity|by apply small_all; vm_compute].
Defined.

Lemma compressor_limit_bounds_witness :
  exists c batches r, hdr_loop sample_events (hdr_init None) = Ret (c, batches, r) /\
    cf_ok (estimatedCF c) /\ (0 < batchReadByteLimit c <= MaxInt64)%Z.
Proof.
  apply (compressor_limit_bounds hdr_new hdr_reset hdr_write hdr_close 6 64 5 true hdr_gunzip sample_target
    None sample_events); [by left|vm_compute; repeat split; reflexivity|by apply small_all; vm_compute].
Defined.

Lemma compressor_stats_exact_witness :
  exists c batches r log st,
    hdr_loop sample_events (hdr_init (Some NewCompressorStats)) = Ret (c, batches, r) /\
    batches = rev (map sentBatch log) /\
    Forall (fun x => hdr_gunzip (sentBatch x) = Some (concat (sentBufs x))) log /\
    stats c = Some st /\ Uint64Stats st = log_stats true log.
Proof.
  apply (compressor_stats_exact hdr_new hdr_reset hdr_write hdr_close 6 64 5 true hdr_gunzip sample_target sample_events);
    [exact sample_valid|by apply small_all; vm_compute].
Defined.

(** The counters of the sample run: 3 buffers of 6 bytes in 2 batches, of which
    the first, of 6 bytes, was accepted, one timer flush, one send error. *)
Example sample_stats :
  match hdr_loop sample_events (hdr_init (Some NewCompressorStats)) with
  | Ret (c, batches, _) => batches = [hdr :: bs "abcde"; hdr :: bs "f"] /\
      Uint64Stats <$> stats c = Some [3; 6; 2; 6; 1; 1; 0]%Z
  | _ => False
  end.
Proof. vm_compute. by split. Qed.

Lemma compressor_panics_without_writer_witness :
  loop hdr_new hdr_reset hdr_write hdr_close 6 0 5 true [(Recv None false, false)] (init 6 0 None) = Panic.
Proof.
  apply (compressor_panics_without_writer hdr_new hdr_reset hdr_write hdr_close 6 0 5 true);
    [reflexivity|reflexivity|vm_compute; discriminate|by left].
Defined.

(** Two loops, a buffer each, and the pool is stopped. *)
Definition sample_pool : CompressorPool := mkPool 2 [] 8 false CompressorPoolStateCreated.
Definition sample_actions : list action :=
  [Queue (bs "abc"); Queue (bs "de"); Receive 1; Receive 0; Finish 0 false; Finish 1 false; Stop; Fire 1;
   Receive 0; Finish 1 true; Finish 0 false; Receive 1; Finish 1 false].
Abbreviation hdr_act := (act hdr_new hdr_reset hdr_write hdr_close 6 64 5 true).
Abbreviation hdr_reachable := (reachable hdr_new hdr_reset hdr_write hdr_close 6 64 5 true).

Definition sample_init : system (W := bool) := mkSystem (Start sample_pool).1 (replicate 2 (hdr_init None, Waiting)) [].
Fixpoint run_actions (l : list action) (s : system (W := bool)) : option (system (W := bool)) :=
  match l with
  | [] => Some s
  | a :: l => match hdr_act a s with Some (Ret s) => run_actions l s | _ => None end
  end.
Fixpoint actions_ok (l : list action) (s : system (W := bool)) : Prop :=
  match l with
  | [] => True
  | a :: l => act_ok a s /\ match hdr_act a s with Some (Ret s) => actions_ok l s | _ => True end
  end.
Definition sample_end : system (W := bool) := default sample_init (run_actions sample_actions sample_init).

Lemma run_actions_reachable l : forall q s s',
  hdr_reachable sample_pool None q s -> actions_ok l s -> run_actions l s = Some s' ->
  hdr_reachable sample_pool None (q ++ concat (map queued l)) s'.
Proof.
  induction l as [|a l IH]; intros q s s' Hr Hok Hrun; simpl in *.
  - injection Hrun as <-. by rewrite app_nil_r.
  - destruct Hok as [Ha Hok]. destruct (hdr_act a s) as [[s1| |]|] eqn:E; try done. rewrite app_assoc.
    apply (IH _ s1); [by eapply reach_act|done|done].
Qed.

Lemma sample_reachable : hdr_reachable sample_pool None [bs "abc"; bs "de"] sample_end.
Proof.
  apply (run_actions_reachable sample_actions [] sample_init).
  - apply (reach_start _ _ _ _ _ _ _ _ sample_pool None (Start sample_pool).1 2). reflexivity.
  - vm_compute. repeat split; intros; simplify_eq; reflexivity.
  - vm_compute. reflexivity.
Qed.

Lemma compressor_pool_conserves_witness :
  (exists log pend,
    Permutation (out sample_end) (map sentBatch log) /\
    Forall (fun x => hdr_gunzip (sentBatch x) = Some (concat (sentBufs x)) /\ sentBufs x <> []) log /\
    Permutation [bs "abc"; bs "de"] (concat (map sentBufs log) ++ pend ++ nonempty (metricsQueue (pool sample_end))) /\
    (Exists (fun cr => cr.2 = Ended) (comps sample_end) -> metricsQueue (pool sample_end) = []) /\
    (Forall (fun cr => cr.2 = Ended) (comps sample_end) -> pend = [])) /\
  (forall a, act_ok a sample_end -> Forall small (queued a) ->
    hdr_act a sample_end <> Some Panic).
Proof.
  apply (compressor_pool_conserves hdr_new hdr_reset hdr_write hdr_close 6 64 5 true hdr_gunzip sample_target None
    (or_introl eq_refl) sample_pool); [reflexivity|exact sample_reachable|by apply small_all; vm_compute].
Defined.
End Compressor.
