(* ===== verification/MetricsQueue.v ===== *)
(** The interface [MetricsQueue] of lsvmi/metrics_common.go: where the generators
    put their buffers, with the shutdown that main calls on its two
    implementations, the pool of compressors and the standard output.

    [MetricsQueue] has the operations, [QueueLaws] what an implementation promises
    to the program: nothing panics while clients keep to the rules, [Shutdown] can
    return whatever was going on, and when it has returned everything that was
    queued is where it belongs. *)

From Stdlib Require Import ZArith Lia.
From stdpp Require Import base tactics numbers list relations.
From S2P Require Import Prelude.

Module MetricsQueue.

(** [Buf] is what [QueueBuf] takes, [Act] the steps of the goroutines of the
    queue, of the clients that fill buffers and of [Shutdown] after its first
    part; [None] is a step that cannot happen now. *)
Class MetricsQueue (Q Buf Act : Type) := {
  QueueBuf : Buf -> Q -> option (outcome Q);
  contents : Buf -> Q -> bytes;
  act : Act -> Q -> option (outcome Q);
  Shutdown : Q -> outcome Q;
  is_open : Q -> bool;
  returned : Q -> bool
}.

(** [inv] holds of a queue and of what was queued so far; [kept] is the promise.
    [data_ok] is what may be queued, [buf_ok] the buffers that a client may hand
    over.  An open queue can always take a buffer, after some steps. *)
Class QueueLaws (Q Buf Act : Type) `{MetricsQueue Q Buf Act} := {
  inv : list bytes -> Q -> Prop;
  data_ok : bytes -> Prop;
  buf_ok : Buf -> Q -> Prop;
  act_ok : Act -> Q -> Prop;
  kept : list bytes -> Q -> Prop;
  queue_inv l b q r :
    inv l q -> is_open q = true -> buf_ok b q -> data_ok (contents b q) -> QueueBuf b q = Some r ->
    exists q', r = Ret q' /\ inv (l ++ [contents b q]) q' /\ is_open q' = true;
  act_inv l a q r :
    inv l q -> act_ok a q -> act a q = Some r -> exists q', r = Ret q' /\ inv l q' /\ is_open q' = is_open q;
  shutdown_inv l q :
    inv l q -> is_open q = true -> exists q', Shutdown q = Ret q' /\ inv l q' /\ is_open q' = false;
  kept_inv l q : inv l q -> returned q = true -> kept l q;
  can_queue l q b :
    inv l q -> is_open q = true -> data_ok b ->
    exists q1 x q2, rtc (fun q q' => exists a, act_ok a q /\ act a q = Some (Ret q')) q q1 /\
      buf_ok x q1 /\ contents x q1 = b /\ QueueBuf x q1 = Some (Ret q2);
  can_return l q :
    inv l q -> is_open q = false ->
    exists q', rtc (fun q q' => exists a, act_ok a q /\ act a q = Some (Ret q')) q q' /\ returned q' = true
}.

End MetricsQueue.
