(* ===== verification/Sending.v ===== *)
(** The compressors and the pool of endpoints together (lsvmi/compressor_pool.go
    with lsvmi/http_endpoint_pool.go): a loop that has completed a batch is in
    [SendBuffer], whose steps interleave with those of the other loops, of the
    health checks and of the two shutdowns of main. *)

From Stdlib Require Import ZArith Lia.
From stdpp Require Import base tactics numbers strings gmap list relations.
From S2P Require Import Prelude GoTime MetricsQueue EndpointList EndpointPool Compressor.

Module Sending.
Import Compressor (Waiting, Busy, Ended).

(** Where a loop is in [SendBuffer]: about to ask for an endpoint (also when it is
    not there), waiting for the response, about to report an error, back with the
    result. *)
Inductive sender :=
| SNext (attempt : nat)
| SRequest (attempt : nat) (ep : nat)
| SReport (attempt : nat) (ep : nat)
| SReturned (err : option EndpointPool.send_error).

(** How far main is with the deferred shutdowns: none, [CompressorPool.Shutdown]
    waits for the loops, [HttpEndpointPool.Shutdown] waits for the health checks,
    both have returned. *)
Inductive stage := Running | StopCompressors | StopChecks | Stopped.

Section pools.
Context {W : Type}.
Variable NewWriterLevel : Z -> option W.
Variable Reset : W -> W.
Variable Write : bytes -> W -> W * bytes * bool.
Variable CloseW : W -> W * bytes.
Variable compressionLevel batchTargetSize flushInterval : Z.

Abbreviation comp_act := (Compressor.act NewWriterLevel Reset Write CloseW compressionLevel batchTargetSize flushInterval true).
Abbreviation batch_of := (Compressor.batch_of NewWriterLevel Reset Write CloseW compressionLevel batchTargetSize flushInterval true).

(** [accepted] is the history of the batches that endpoints accepted. *)
Record Pools := mkPools {
  csys : Compressor.system (W := W);
  senders : list sender;
  eps : EndpointPool.HttpEndpointPool;
  where_ : stage;
  accepted : list (nat * bytes)
}.

Definition set_csys c s := mkPools c (senders s) (eps s) (where_ s) (accepted s).
Definition set_eps p s := mkPools (csys s) (senders s) p (where_ s) (accepted s).
Definition set_sender i x s := mkPools (csys s) (<[i := x]> (senders s)) (eps s) (where_ s) (accepted s).
Definition set_where w s := mkPools (csys s) (senders s) (eps s) w (accepted s).
Definition accept ep b s := mkPools (csys s) (senders s) (eps s) (where_ s) (accepted s ++ [(ep, b)]).

(** The batch that a loop has to send before it goes on. *)
Definition to_send (cr : Compressor.compressor W * Compressor.phase) : option bytes :=
  match cr.2 with Busy e => batch_of e cr.1 | _ => None end.
Definition sending (i : nat) (s : Pools) : option bytes := cr ← Compressor.comps (csys s) !! i; to_send cr.

Inductive action :=
| AReceive (i : nat)
| AFire (i : nat)
| ANext (i : nat) (t : EndpointPool.clocks)
| AResponse (i : nat) (r : EndpointPool.response)
| AReport (i : nat) (now : Time)
| AFinish (i : nat)
| AHealth (ep : nat) (r : EndpointPool.response)
| AEnd (ep : nat)
| AJoinCompressors
| AJoinChecks.

Definition comp_step (a : Compressor.action) (s : Pools) : option (outcome Pools) :=
  r ← comp_act a (csys s); Some (c ← r; Ret (set_csys c s)).
Definition pool_step (e : EndpointPool.event) (s : Pools) : option (outcome Pools) :=
  r ← EndpointPool.exec e (eps s); Some (p ← r; Ret (set_eps p s)).

(** [GetCurrentHealthy] in attempt [n]; without an endpoint [SendBuffer] gives up. *)
Definition ask (i n : nat) (t : EndpointPool.clocks) (s : Pools) : outcome Pools :=
  '(p, o) ← EndpointPool.GetCurrentHealthy [] t (eps s);
  match o with
  | Some ep => Ret (set_eps p (set_sender i (SRequest n ep) s))
  | None =>
    p ← EndpointPool.pool_count EndpointPool.HTTP_ENDPOINT_POOL_STATS_NO_HEALTHY_EP_ERROR_COUNT p;
    Ret (set_eps p (set_sender i (SReturned (Some (EndpointPool.ErrNoHealthyEP n))) s))
  end.

(** What [SendBuffer] does with the response [r] of endpoint [ep] for batch [b]. *)
Definition respond (i n ep : nat) (b : bytes) (r : EndpointPool.response) (s : Pools) : outcome Pools :=
  p ← EndpointPool.send_stats ep (Z.of_nat (length b)) r (eps s);
  let s := set_eps p s in
  Ret (if EndpointPool.success r then accept ep b (set_sender i (SReturned None) s)
       else if EndpointPool.nonRetryable r then set_sender i (SReturned (Some (EndpointPool.ErrStatus n r))) s
       else set_sender i (SReport n ep) s).

Definition exec (a : action) (s : Pools) : option (outcome Pools) :=
  match a with
  | AReceive i => comp_step (Compressor.Receive i) s
  | AFire i => comp_step (Compressor.Fire i) s
  | ANext i t =>
    match sending i s, senders s !! i with Some _, Some (SNext n) => Some (ask i n t s) | _, _ => None end
  | AResponse i r =>
    match sending i s, senders s !! i with Some b, Some (SRequest n ep) => Some (respond i n ep b r s) | _, _ => None end
  | AReport i now =>
    match senders s !! i with
    | Some (SReport n ep) => Some (p ← EndpointPool.ReportError now ep (eps s); Ret (set_eps p (set_sender i (SNext (S n)) s)))
    | _ => None
    end
  | AFinish i =>
    match sending i s, senders s !! i with
    | None, Some (SNext _) => comp_step (Compressor.Finish i false) s
    | Some _, Some (SReturned err) => comp_step (Compressor.Finish i (bool_decide (is_Some err))) (set_sender i (SNext 1) s)
    | _, _ => None
    end
  | AHealth ep r => pool_step (EndpointPool.EHealth ep r) s
  | AEnd ep => pool_step (EndpointPool.EEnd ep) s
  | AJoinCompressors =>
    match where_ s with
    | StopCompressors =>
      if forallb (fun cr => match cr.2 with Ended => true | _ => false end) (Compressor.comps (csys s))
      then Some (Ret (set_where StopChecks (set_eps (EndpointPool.Shutdown (eps s)) s)))
      else None
    | _ => None
    end
  | AJoinChecks =>
    match where_ s, EndpointPool.checks (eps s) with StopChecks, [] => Some (Ret (set_where Stopped s)) | _, _ => None end
  end.

(** [CompressorPool.QueueBuf], and the beginning of [CompressorPool.Shutdown]. A
    queue without room gives the buffer to a loop, the one that is named. *)
Definition QueueBuf (x : bytes * nat) (s : Pools) : option (outcome Pools) :=
  comp_step (if Compressor.queueSize (Compressor.pool (csys s)) =? 0 then Compressor.Handover x.1 x.2 else Compressor.Queue x.1) s.
Definition Shutdown (s : Pools) : outcome Pools :=
  Ret (set_where StopCompressors (set_csys (Compressor.mkSystem (Compressor.Shutdown (Compressor.pool (csys s)))
    (Compressor.comps (csys s)) (Compressor.out (csys s))) s)).

#[export] Instance pools_queue : MetricsQueue.MetricsQueue Pools (bytes * nat) action := {|
  MetricsQueue.QueueBuf := QueueBuf;
  MetricsQueue.contents x _ := x.1;
  MetricsQueue.act := exec;
  MetricsQueue.Shutdown := Shutdown;
  MetricsQueue.is_open s := match where_ s with Running => true | _ => false end;
  MetricsQueue.returned s := match where_ s with Stopped => true | _ => false end
|}.

(** The pools when main has started the compressors [p]. *)
Definition start (p : Compressor.CompressorPool) (st : option Compressor.CompressorStats) (ep : EndpointPool.HttpEndpointPool) : Pools :=
  let n := Z.to_nat (Compressor.numCompressors p) in
  mkPools (Compressor.mkSystem p (replicate n (Compressor.init compressionLevel batchTargetSize st, Waiting)) [])
    (replicate n (SNext 1)) ep Running [].

(** ** The invariant *)

Section laws.
Context (gunzip : bytes -> option bytes).
Context `{Hgz : !Compressor.GzipLaws NewWriterLevel Reset Write CloseW compressionLevel gunzip}.
Hypothesis Htarget : Compressor.target_ok batchTargetSize.
Variable st : option Compressor.CompressorStats.

Abbreviation ghost := (list bytes * list Compressor.sent)%type.
Abbreviation sys_ok := (Compressor.sys_ok NewWriterLevel Reset Write CloseW compressionLevel batchTargetSize flushInterval true gunzip st).
Abbreviation size := Compressor.size.

(** The batches of a log that the sender reported as sent. *)
Definition delivered (log : list Compressor.sent) : list bytes :=
  map Compressor.sentBatch (List.filter (fun x => negb (Compressor.sentErr x)) log).

(** A batch that was accepted while its loop is not back from [SendBuffer]. *)
Definition extra (sd : sender) (cr : Compressor.compressor W * Compressor.phase) : list bytes :=
  match sd with SReturned None => option_list (to_send cr) | _ => [] end.

(** What of [accepted] is due to loop [j]. *)
Definition claim (gs : list ghost) (s : Pools) (j : nat) : list bytes :=
  match gs !! j, Compressor.comps (csys s) !! j, senders s !! j with
  | Some g, Some cr, Some sd => delivered g.2 ++ extra sd cr
  | _, _, _ => []
  end.
Definition claims (gs : list ghost) (s : Pools) : list bytes := concat (map (claim gs s) (seq 0 (length gs))).

Definition sender_ok (known : gset nat) (cr : Compressor.compressor W * Compressor.phase) (sd : sender) : Prop :=
  match sd with
  | SNext n => n = 1 \/ is_Some (to_send cr)
  | SRequest _ ep | SReport _ ep => is_Some (to_send cr) /\ ep ∈ known
  | SReturned _ => is_Some (to_send cr)
  end.

Definition all_ended (s : Pools) : Prop := Forall (fun cr => cr.2 = Ended) (Compressor.comps (csys s)).

(** Main shuts down the loops before the endpoints. *)
Definition stage_ok (s : Pools) : Prop :=
  let closed := Compressor.queueClosed (Compressor.pool (csys s)) in
  let down := EndpointPool.shutdown (eps s) in
  match where_ s with
  | Running => closed = false /\ down = false /\ Compressor.state (Compressor.pool (csys s)) = Compressor.CompressorPoolStateRunning
  | StopCompressors => closed = true /\ down = false
  | StopChecks => closed = true /\ down = true /\ all_ended s
  | Stopped => closed = true /\ down = true /\ all_ended s /\ EndpointPool.checks (eps s) = []
  end.

Record pools_ok (q : list bytes) (gs : list ghost) (s : Pools) : Prop := mkOk {
  ok_sys : sys_ok q gs (csys s);
  ok_size : Forall Compressor.small q;
  ok_eps : EndpointPool.inv (eps s);
  ok_senders : Forall2 (sender_ok (dom (EndpointPool.mem (eps s)))) (Compressor.comps (csys s)) (senders s);
  ok_accepted : Permutation (map snd (accepted s)) (claims gs s);
  ok_known : Forall (fun a => a.1 ∈ dom (EndpointPool.mem (eps s))) (accepted s);
  ok_stage : stage_ok s;
  ok_some : Compressor.comps (csys s) <> []
}.

(** Changing what one loop claims. *)
Lemma claims_update gs gs' s s' i x y :
  i < length gs -> length gs' = length gs ->
  (forall j, j <> i -> gs' !! j = gs !! j /\ Compressor.comps (csys s') !! j = Compressor.comps (csys s) !! j /\
    senders s' !! j = senders s !! j) ->
  Permutation (claim gs' s' i ++ y) (claim gs s i ++ x) ->
  Permutation (claims gs' s' ++ y) (claims gs s ++ x).
Proof.
  intros Hi Hlen Hj Hp. unfold claims. rewrite Hlen.
  assert (forall j, j <> i -> claim gs' s' j = claim gs s j) as Hc.
  { intros j Hne. unfold claim. destruct (Hj j Hne) as (-> & -> & ->). done. }
  assert (forall a b, ~ (a <= i < a + b) -> map (claim gs' s') (seq a b) = map (claim gs s) (seq a b)) as Hmap.
  { intros a b Hn. apply map_ext_in. intros j Hj'%in_seq. apply Hc. lia. }
  replace (length gs) with (i + S (length gs - S i)) by lia. rewrite seq_app, !map_app, !concat_app. simpl.
  rewrite (Hmap 0 i), (Hmap (S i) _) by lia. set (A := concat (map _ (seq 0 i))). set (B := concat (map _ (seq (S i) _))).
  rewrite <- !app_assoc. apply Permutation_app_head. rewrite (Permutation_app_comm B y), (Permutation_app_comm B x), !app_assoc.
  by apply Permutation_app_tail.
Qed.

Lemma loops_length q gs s : pools_ok q gs s -> length gs = length (Compressor.comps (csys s)) /\ length (senders s) = length gs.
Proof.
  intros Hok. pose proof (Forall2_length _ _ _ (Compressor.ok_loops _ _ _ _ _ _ _ _ _ _ _ _ _ (ok_sys _ _ _ Hok))).
  pose proof (Forall2_length _ _ _ (ok_senders _ _ _ Hok)). lia.
Qed.

(** A loop with a batch to send has not ended, so that main has not stopped the
    pool of endpoints. *)
Lemma sending_stage s i : stage_ok s -> is_Some (sending i s) ->
  where_ s = Running \/ where_ s = StopCompressors.
Proof.
  intros Hs [b Hb]. unfold sending in Hb. apply bind_Some in Hb as (cr & Hcr & Hb).
  assert (~ all_ended s) as Hn.
  { intros Hall. unfold all_ended in Hall. rewrite Forall_lookup in Hall. specialize (Hall _ _ Hcr).
    unfold to_send in Hb. by rewrite Hall in Hb. }
  unfold stage_ok in Hs. destruct (where_ s); tauto.
Qed.

(** A step of a loop in [SendBuffer]. *)
Lemma sender_step q gs s i cr sd0 p sd x :
  pools_ok q gs s -> Compressor.comps (csys s) !! i = Some cr -> senders s !! i = Some sd0 -> is_Some (to_send cr) ->
  EndpointPool.inv p -> dom (EndpointPool.mem p) = dom (EndpointPool.mem (eps s)) -> EndpointPool.shutdown p = EndpointPool.shutdown (eps s) ->
  sender_ok (dom (EndpointPool.mem (eps s))) cr sd -> extra sd0 cr = [] -> map snd x = extra sd cr ->
  Forall (fun a => a.1 ∈ dom (EndpointPool.mem (eps s))) x ->
  pools_ok q gs (mkPools (csys s) (<[i := sd]> (senders s)) p (where_ s) (accepted s ++ x)).
Proof.
  intros Hok Hcr Hsd Hts Hp Hdom Hsh Hnew Hold Hx Hkn. destruct (loops_length _ _ _ Hok) as [Hl1 Hl2].
  pose proof (lookup_lt_Some _ _ _ Hcr) as Hi. pose proof (sending_stage s i (ok_stage _ _ _ Hok)) as Hst.
  unfold sending in Hst. rewrite Hcr in Hst. specialize (Hst Hts). destruct Hok as [HS Hsz He Hse Ha Hk Hstage Hsome].
  split; simpl; try done.
  - rewrite Hdom. rewrite <- (list_insert_id _ _ _ Hcr). by apply Forall2_insert.
  - rewrite map_app, Ha. pose proof (claims_update gs gs s (mkPools (csys s) (<[i := sd]> (senders s)) p (where_ s) (accepted s ++ x))
      i (map snd x) [] ltac:(lia) eq_refl) as H. rewrite !app_nil_r in H. symmetry. apply H.
    + intros j Hj. split; [done|]. split; [done|]. simpl. by rewrite list_lookup_insert_ne.
    + destruct (lookup_lt_is_Some_2 gs i ltac:(lia)) as [g Hg]. unfold claim. simpl.
      rewrite Hg, Hcr, Hsd, list_lookup_insert_eq by lia. by rewrite Hold, Hx, !app_nil_r.
  - rewrite Hdom. by apply Forall_app.
  - unfold stage_ok in *. simpl. rewrite Hsh. by destruct Hst as [E|E]; rewrite E in Hstage |- *.
Qed.

Lemma sending_lookup s i b : sending i s = Some b -> exists cr, Compressor.comps (csys s) !! i = Some cr /\ to_send cr = Some b.
Proof. unfold sending. intros (cr & ? & ?)%bind_Some. by exists cr. Qed.

Lemma next_ok q gs s i n t b :
  pools_ok q gs s -> sending i s = Some b -> senders s !! i = Some (SNext n) ->
  exists s', ask i n t s = Ret s' /\ pools_ok q gs s' /\ csys s' = csys s /\ where_ s' = where_ s /\
    exists sd, senders s' = <[i := sd]> (senders s) /\ match sd with SRequest _ _ | SReturned _ => True | _ => False end.
Proof.
  intros Hok (cr & Hcr & Hb)%sending_lookup Hsd. pose proof (ok_eps _ _ _ Hok) as He.
  assert (exists p o, EndpointPool.GetCurrentHealthy [] t (eps s) = Ret (p, o) /\ EndpointPool.inv p /\
    dom (EndpointPool.mem p) = dom (EndpointPool.mem (eps s)) /\ EndpointPool.shutdown p = EndpointPool.shutdown (eps s) /\
    (forall ep, o = Some ep -> ep ∈ dom (EndpointPool.mem p))) as (p & o & Hg & Hp & Hdom & Hsh & Ho).
  { unfold EndpointPool.GetCurrentHealthy. destruct (EndpointPool.shutdown (eps s)) eqn:E; [by exists (eps s), None|].
    assert ((if bool_decide (EndpointList.head (EndpointPool.healthyL (eps s)) = None) then EndpointPool.exec_all [] (eps s) else Ret (eps s))
      = Ret (eps s)) as -> by (by destruct (bool_decide _)). rewrite bind_ret.
    destruct (EndpointPool.select_inv t (eps s) He) as (p & o & Hs & Hp & Hd & Ho). exists p, o. split_and!; try done.
    apply EndpointPool.select_flag in Hs. congruence. }
  unfold ask. rewrite Hg, bind_ret. destruct o as [ep|].
  - eexists. split; [reflexivity|]. split; [|split; [done|split; [done|by eexists]]].
    unfold set_eps, set_sender. simpl. rewrite <- (app_nil_r (accepted s)).
    apply (sender_step q gs s i cr (SNext n)); try (done || by eexists). split; [by eexists|]. rewrite <- Hdom. by apply Ho.
  - destruct Hp as (xs & Hv & Hck).
    destruct (EndpointPool.pool_count_correct _ p xs EndpointPool.HTTP_ENDPOINT_POOL_STATS_NO_HEALTHY_EP_ERROR_COUNT Hv) as (st' & Hpc & Hv'); [vm_compute; lia|].
    rewrite Hpc, bind_ret. eexists. split; [reflexivity|]. split; [|split; [done|split; [done|by eexists]]].
    unfold set_eps, set_sender. simpl. rewrite <- (app_nil_r (accepted s)).
    apply (sender_step q gs s i cr (SNext n)); try (done || by eexists).
Qed.

Lemma response_ok q gs s i n ep r b :
  pools_ok q gs s -> sending i s = Some b -> senders s !! i = Some (SRequest n ep) ->
  exists s', respond i n ep b r s = Ret s' /\ pools_ok q gs s' /\ csys s' = csys s /\ where_ s' = where_ s /\
    exists sd, senders s' = <[i := sd]> (senders s) /\ (EndpointPool.success r = true -> sd = SReturned None).
Proof.
  intros Hok (cr & Hcr & Hb)%sending_lookup Hsd. pose proof (ok_eps _ _ _ Hok) as (xs & Hv & Hck).
  destruct (Forall2_lookup_lr _ _ _ _ _ _ (ok_senders _ _ _ Hok) Hcr Hsd) as [_ Hep].
  destruct (EndpointPool.send_stats_correct (eps s) xs ep (Z.of_nat (length b)) r Hv Hep) as (st' & Hst & Hv').
  unfold respond. rewrite Hst, bind_ret. eexists. split; [reflexivity|].
  assert (EndpointPool.inv (EndpointPool.set_stats st' (eps s))) as Hp by (by exists xs).
  assert (forall sd, sender_ok (dom (EndpointPool.mem (eps s))) cr sd -> extra sd cr = [] ->
    pools_ok q gs (set_sender i sd (set_eps (EndpointPool.set_stats st' (eps s)) s))) as Hset.
  { intros sd H1 H2. unfold set_eps, set_sender. simpl. rewrite <- (app_nil_r (accepted s)).
    apply (sender_step q gs s i cr (SRequest n ep)); try (done || by eexists). }
  destruct (EndpointPool.success r) eqn:Es; [|destruct (EndpointPool.nonRetryable r)].
  - split; [|split; [done|split; [done|by eexists]]]. unfold accept, set_eps, set_sender. simpl.
    apply (sender_step q gs s i cr (SRequest n ep)); try (done || by eexists); [simpl; by rewrite Hb|by apply Forall_singleton].
  - split; [|split; [done|split; [done|by eexists]]]. apply Hset; [by eexists|done].
  - split; [|split; [done|split; [done|by eexists]]]. apply Hset; [by eexists|done].
Qed.

Lemma report_ok q gs s i n ep now :
  pools_ok q gs s -> senders s !! i = Some (SReport n ep) ->
  exists p, EndpointPool.ReportError now ep (eps s) = Ret p /\ pools_ok q gs (set_eps p (set_sender i (SNext (S n)) s)).
Proof.
  intros Hok Hsd. destruct (Forall2_lookup_r _ _ _ _ _ (ok_senders _ _ _ Hok) Hsd) as (cr & Hcr & Hts & Hep).
  destruct (EndpointPool.ReportError_inv now ep (eps s) (ok_eps _ _ _ Hok) Hep) as (p & Hr & Hp & Hdom).
  exists p. split; [done|]. unfold set_eps, set_sender. simpl. rewrite <- (app_nil_r (accepted s)).
  apply (sender_step q gs s i cr (SReport n ep)); try done; [by eapply EndpointPool.ReportError_flag|by right].
Qed.

(** A loop that has not ended holds back the shutdown of the endpoints. *)
Lemma running_stage s i c ph : stage_ok s -> Compressor.comps (csys s) !! i = Some (c, ph) -> ph <> Ended ->
  where_ s = Running \/ where_ s = StopCompressors.
Proof.
  intros Hs Hcr Hph. assert (~ all_ended s) as Hn.
  { intros Hall. unfold all_ended in Hall. rewrite Forall_lookup in Hall. by specialize (Hall _ _ Hcr). }
  unfold stage_ok in Hs. destruct (where_ s); tauto.
Qed.

(** A step of one loop. *)
Lemma loop_step q gs s cs i cr0 cr sd0 sd g0 g :
  pools_ok q gs s -> Compressor.comps (csys s) !! i = Some cr0 -> cr0.2 <> Ended -> senders s !! i = Some sd0 -> gs !! i = Some g0 ->
  sys_ok q (<[i := g]> gs) cs -> Compressor.comps cs = <[i := cr]> (Compressor.comps (csys s)) ->
  Compressor.queueClosed (Compressor.pool cs) = Compressor.queueClosed (Compressor.pool (csys s)) ->
  Compressor.state (Compressor.pool cs) = Compressor.state (Compressor.pool (csys s)) ->
  sender_ok (dom (EndpointPool.mem (eps s))) cr sd ->
  Permutation (delivered g.2 ++ extra sd cr) (delivered g0.2 ++ extra sd0 cr0) ->
  pools_ok q (<[i := g]> gs) (mkPools cs (<[i := sd]> (senders s)) (eps s) (where_ s) (accepted s)).
Proof.
  intros Hok Hcr Hph Hsd Hg HS' Hcomps Hcl Hstate Hnew Hperm. destruct (loops_length _ _ _ Hok) as [Hl1 Hl2].
  pose proof (lookup_lt_Some _ _ _ Hg) as Hi. destruct cr0 as [c0 ph0].
  pose proof (running_stage s i c0 ph0 (ok_stage _ _ _ Hok) Hcr Hph) as Hst.
  destruct Hok as [HS Hsz He Hse Ha Hk Hstage Hsome]. split; simpl; try done.
  - rewrite Hcomps. by apply Forall2_insert.
  - rewrite Ha. pose proof (claims_update gs (<[i := g]> gs) s
      (mkPools cs (<[i := sd]> (senders s)) (eps s) (where_ s) (accepted s)) i [] [] Hi (length_insert _ _ _)) as H.
    rewrite !app_nil_r in H. symmetry. apply H.
    + intros j Hj. simpl. by rewrite Hcomps, !list_lookup_insert_ne.
    + unfold claim. simpl. rewrite Hg, Hcr, Hsd, Hcomps, !list_lookup_insert_eq by lia. done.
  - unfold stage_ok in *. simpl. rewrite Hcl, Hstate. by destruct Hst as [E|E]; rewrite E in Hstage |- *.
  - rewrite Hcomps. intros Hn. apply (f_equal length) in Hn. rewrite length_insert in Hn. by destruct (Compressor.comps (csys s)).
Qed.

Lemma waiting_sender q gs s i c sd : pools_ok q gs s -> Compressor.comps (csys s) !! i = Some (c, Waiting) ->
  senders s !! i = Some sd -> sd = SNext 1.
Proof.
  intros Hok Hcr Hsd. pose proof (Forall2_lookup_lr _ _ _ _ _ _ (ok_senders _ _ _ Hok) Hcr Hsd) as Hs.
  unfold sender_ok, to_send in Hs. simpl in Hs. destruct sd; [destruct Hs as [->|[? ?]]; [done|done]|..]; destruct Hs as [? ?]; done.
Qed.

(** A loop gets an event. *)
Lemma event_ok q gs s i e p r :
  pools_ok q gs s -> Compressor.get_event i e p (csys s) = Some r ->
  (forall cr : Compressor.compressor W * Compressor.phase, Compressor.comps (csys s) !! i = Some cr -> Compressor.enabled e cr.1) ->
  Compressor.nonempty (Compressor.metricsQueue (Compressor.pool (csys s))) =
    Compressor.payload e ++ Compressor.nonempty (Compressor.metricsQueue p) ->
  (Compressor.is_open e = false -> Compressor.queueClosed p = true /\ Compressor.metricsQueue p = []) ->
  Compressor.queueClosed p = Compressor.queueClosed (Compressor.pool (csys s)) ->
  Compressor.state p = Compressor.state (Compressor.pool (csys s)) ->
  (Compressor.metricsQueue (Compressor.pool (csys s)) = [] -> Compressor.metricsQueue p = []) ->
  exists cs, r = Ret cs /\ pools_ok q gs (set_csys cs s).
Proof.
  intros Hok He H1 H2 H3 H4 H5 H6. pose proof (ok_sys _ _ _ Hok) as HS. destruct (loops_length _ _ _ Hok) as [Hl1 Hl2].
  edestruct (Compressor.get_event_ok NewWriterLevel Reset Write CloseW compressionLevel batchTargetSize flushInterval true
    gunzip st q gs (csys s) i e r p) as (c & Hc & -> & HS'); try done; [by rewrite H4|].
  pose proof (lookup_lt_Some _ _ _ Hc) as Hi.
  destruct (lookup_lt_is_Some_2 gs i ltac:(lia)) as [g Hg]. destruct (lookup_lt_is_Some_2 (senders s) i ltac:(lia)) as [sd Hsd].
  pose proof (waiting_sender _ _ _ _ _ _ Hok Hc Hsd) as ->. eexists. split; [reflexivity|].
  unfold set_csys. rewrite <- (list_insert_id _ _ _ Hsd), <- (list_insert_id _ _ _ Hg) at 1.
  eapply (loop_step q gs s _ i _ (c, Busy e)); try done; [by rewrite list_insert_id|by left].
Qed.

Lemma pools_receive q gs s i r : pools_ok q gs s -> exec (AReceive i) s = Some r -> exists s', r = Ret s' /\ pools_ok q gs s' /\ where_ s' = where_ s.
Proof.
  intros Hok Ha. unfold exec, comp_step in Ha. apply bind_Some in Ha as (r' & Ha & [= <-]). cbn [Compressor.act] in Ha.
  apply bind_Some in Ha as ([p e] & Hr & Ha). destruct (Compressor.receive_spec _ _ _ Hr) as (H1 & H2 & H3 & H4 & H5).
  destruct (event_ok q gs s i e p r' Hok Ha) as (cs & -> & Hok'); try done; [intros cr _; by eapply Compressor.receive_enabled|].
  rewrite bind_ret. by eexists.
Qed.

Lemma fire_ok q gs s i r : pools_ok q gs s -> exec (AFire i) s = Some r -> exists s', r = Ret s' /\ pools_ok q gs s' /\ where_ s' = where_ s.
Proof.
  intros Hok Ha. unfold exec, comp_step in Ha. apply bind_Some in Ha as (r' & Ha & [= <-]). cbn [Compressor.act] in Ha.
  apply bind_Some in Ha as (cr & Hr & Ha). destruct (Compressor.timerSet cr.1) eqn:Ht; [|done].
  destruct (event_ok q gs s i _ _ r' Hok Ha) as (cs & -> & Hok'); try done; [intros cr' Hcr'; by simplify_eq|].
  rewrite bind_ret. by eexists.
Qed.

(** A loop finishes with its event; the sender is back with [err]. *)
Lemma finish_loop q gs s i err sd r :
  pools_ok q gs s -> senders s !! i = Some sd ->
  (forall cr, Compressor.comps (csys s) !! i = Some cr -> extra sd cr = if (err : bool) then [] else option_list (to_send cr)) ->
  comp_step (Compressor.Finish i err) (set_sender i (SNext 1) s) = Some r ->
  exists s' gs', r = Ret s' /\ pools_ok q gs' s' /\ where_ s' = where_ s.
Proof.
  intros Hok Hsd Hx Ha. unfold comp_step in Ha. apply bind_Some in Ha as (r' & Ha & [= <-]). cbn [Compressor.act set_sender csys] in Ha.
  destruct (Compressor.run_event_spec NewWriterLevel Reset Write CloseW compressionLevel batchTargetSize flushInterval true gunzip
    Htarget st q gs (csys s) i err r' (ok_sys _ _ _ Hok) (ok_size _ _ _ Hok) Ha) as (c & e & g & c' & Hc & Hg & -> & HS').
  rewrite bind_ret. eexists _, _. split; [reflexivity|]. split; [|done].
  eapply (loop_step q gs s _ i (c, Busy e) (c', Compressor.next_phase e) sd (SNext 1) g); try done; [by left|].
  rewrite (Hx _ Hc). simpl. rewrite app_nil_r. unfold to_send, Compressor.next_ghost. simpl. destruct (batch_of e c) as [b|]; simpl.
  - unfold delivered. simpl. destruct err; simpl; [by rewrite app_nil_r|]. apply Permutation_cons_append.
  - by destruct err; rewrite app_nil_r.
Qed.

Lemma idle_sender q gs s i cr n : pools_ok q gs s -> Compressor.comps (csys s) !! i = Some cr -> senders s !! i = Some (SNext n) ->
  sending i s = None -> s = set_sender i (SNext 1) s.
Proof.
  intros Hok Hcr Hsd Hb. pose proof (Forall2_lookup_lr _ _ _ _ _ _ (ok_senders _ _ _ Hok) Hcr Hsd) as Hs.
  unfold sending in Hb. rewrite Hcr in Hb. simpl in Hb. destruct Hs as [->|Hs]; [|rewrite Hb in Hs; by destruct Hs].
  unfold set_sender. rewrite list_insert_id by done. by destruct s.
Qed.

Lemma finish_ok q gs s i r : pools_ok q gs s -> exec (AFinish i) s = Some r ->
  exists s' gs', r = Ret s' /\ pools_ok q gs' s' /\ where_ s' = where_ s.
Proof.
  intros Hok Ha. cbn [exec] in Ha. destruct (senders s !! i) as [sd|] eqn:Hsd; [|by destruct (sending i s)].
  destruct (sending i s) as [b|] eqn:Hb, sd as [n| | |err]; try done.
  - eapply finish_loop; try done. intros cr Hcr. unfold sending in Hb. rewrite Hcr in Hb. simpl in Hb.
    destruct err; simpl; [done|]. by rewrite Hb.
  - destruct (Compressor.comps (csys s) !! i) as [cr|] eqn:Hcr.
    2:{ unfold comp_step in Ha. apply bind_Some in Ha as (r' & Ha & _). cbn in Ha. unfold Compressor.run_event in Ha. by rewrite Hcr in Ha. }
    rewrite (idle_sender q gs s i cr n Hok Hcr Hsd Hb) in Ha. eapply finish_loop; try done. intros cr' Hcr'.
    unfold sending in Hb. rewrite Hcr' in Hb. simpl in Hb. by rewrite Hb.
Qed.

(** The health checks. *)
Lemma pool_step_ok q gs s e r : e <> EndpointPool.EShutdown ->
  match e with EndpointPool.EHealth _ _ | EndpointPool.EEnd _ => True | _ => False end ->
  pools_ok q gs s -> pool_step e s = Some r -> exists s', r = Ret s' /\ pools_ok q gs s' /\ where_ s' = where_ s.
Proof.
  intros Hne Hkind Hok Ha. unfold pool_step in Ha. apply bind_Some in Ha as (r' & Ha & [= <-]).
  destruct Hok as [HS Hsz He Hse Hac Hk Hstage Hsome].
  destruct (EndpointPool.exec_inv _ _ _ He Ha) as (p & -> & Hp & Hdom). pose proof (EndpointPool.exec_flag _ _ _ Ha Hne) as Hfl.
  rewrite bind_ret. eexists. split; [reflexivity|]. split; [|done]. split; simpl; try done; [by rewrite Hdom..|].
  unfold stage_ok in *. simpl. rewrite Hfl. destruct (where_ s); try done. destruct Hstage as (? & ? & ? & Hn). exfalso.
  destruct e; try done; simpl in Ha; rewrite Hn in Ha; by rewrite bool_decide_false in Ha by apply not_elem_of_nil.
Qed.

Lemma join_compressors_ok q gs s r : pools_ok q gs s -> exec AJoinCompressors s = Some r ->
  exists s', r = Ret s' /\ pools_ok q gs s' /\ where_ s' = StopChecks.
Proof.
  intros Hok Ha. simpl in Ha. destruct (where_ s) eqn:Ew; try done. destruct (forallb _ _) eqn:Ef; [|done]. injection Ha as <-.
  destruct Hok as [HS Hsz He Hse Hac Hk Hstage Hsome].
  destruct (EndpointPool.exec_inv EndpointPool.EShutdown (eps s) (Ret (EndpointPool.Shutdown (eps s))) He eq_refl) as (p & [= <-] & Hp & Hdom).
  eexists. split; [reflexivity|]. split; [|done]. split; simpl; try done.
  unfold stage_ok in *. rewrite Ew in Hstage. simpl. destruct Hstage as [Hcl _]. split; [done|]. split; [done|].
  unfold all_ended. simpl. rewrite forallb_forall in Ef. apply list.Forall_forall. intros cr Hcr.
  specialize (Ef cr ltac:(by apply list_elem_of_In)). by destruct (cr.2).
Qed.

Lemma join_checks_ok q gs s r : pools_ok q gs s -> exec AJoinChecks s = Some r ->
  exists s', r = Ret s' /\ pools_ok q gs s' /\ where_ s' = Stopped.
Proof.
  intros Hok Ha. simpl in Ha. destruct (where_ s) eqn:Ew; try done. destruct (EndpointPool.checks (eps s)) eqn:Ec; [|done]. injection Ha as <-.
  destruct Hok as [HS Hsz He Hse Hac Hk Hstage Hsome].
  eexists. split; [reflexivity|]. split; [|done]. split; simpl; try done.
  unfold stage_ok in *. rewrite Ew in Hstage. simpl. tauto.
Qed.

Lemma pools_exec q gs s a r : pools_ok q gs s -> exec a s = Some r ->
  exists s' gs', r = Ret s' /\ pools_ok q gs' s' /\ (where_ s' = Running <-> where_ s = Running).
Proof.
  intros Hok Ha. destruct a as [i|i|i t|i x|i now|i|ep x|ep| |].
  - destruct (pools_receive q gs s i r Hok Ha) as (s' & -> & ? & E). exists s', gs. by rewrite E.
  - destruct (fire_ok q gs s i r Hok Ha) as (s' & -> & ? & E). exists s', gs. by rewrite E.
  - simpl in Ha. destruct (sending i s) as [b|] eqn:Hb; [|done]. destruct (senders s !! i) as [[n| | |]|] eqn:Hsd; try done.
    injection Ha as <-. destruct (next_ok q gs s i n t b Hok Hb Hsd) as (s' & -> & ? & _ & E & _). exists s', gs. by rewrite E.
  - simpl in Ha. destruct (sending i s) as [b|] eqn:Hb; [|done]. destruct (senders s !! i) as [[|n ep| |]|] eqn:Hsd; try done.
    injection Ha as <-. destruct (response_ok q gs s i n ep x b Hok Hb Hsd) as (s' & -> & ? & _ & E & _). exists s', gs. by rewrite E.
  - simpl in Ha. destruct (senders s !! i) as [[| |n ep|]|] eqn:Hsd; try done. injection Ha as <-.
    destruct (report_ok q gs s i n ep now Hok Hsd) as (p & -> & ?). rewrite bind_ret. by eexists _, gs.
  - destruct (finish_ok q gs s i r Hok Ha) as (s' & gs' & -> & ? & E). exists s', gs'. by rewrite E.
  - destruct (pool_step_ok q gs s (EndpointPool.EHealth ep x) r ltac:(done) I Hok Ha) as (s' & -> & ? & E). exists s', gs. by rewrite E.
  - destruct (pool_step_ok q gs s (EndpointPool.EEnd ep) r ltac:(done) I Hok Ha) as (s' & -> & ? & E). exists s', gs. by rewrite E.
  - destruct (join_compressors_ok q gs s r Hok Ha) as (s' & -> & ? & E). exists s', gs. rewrite E. simpl in Ha.
    by destruct (where_ s).
  - destruct (join_checks_ok q gs s r Hok Ha) as (s' & -> & ? & E). exists s', gs. rewrite E. simpl in Ha.
    by destruct (where_ s).
Qed.

(** ** The operations of the interface *)

Lemma pools_queue_ok q gs s x r :
  pools_ok q gs s -> where_ s = Running -> Compressor.small x.1 -> QueueBuf x s = Some r ->
  exists s', r = Ret s' /\ pools_ok (q ++ Compressor.nonempty [x.1]) gs s' /\ where_ s' = Running.
Proof.
  intros Hok Hw Hx Ha. pose proof Hok as [HS Hsz He Hse Hac Hk Hstage Hsome]. unfold QueueBuf, comp_step in Ha. apply bind_Some in Ha as (r' & Ha & [= <-]).
  unfold stage_ok in Hstage. rewrite Hw in Hstage. destruct Hstage as (Hcl & Hd & Hstate).
  assert (Forall Compressor.small (q ++ Compressor.nonempty [x.1])) as Hq.
  { apply Forall_app. split; [done|]. apply list.Forall_forall. intros b [_ ->%list_elem_of_singleton]%list_elem_of_filter. done. }
  destruct (Compressor.queueSize _ =? 0).
  - destruct (Compressor.handover_good NewWriterLevel Reset Write CloseW compressionLevel batchTargetSize flushInterval true gunzip
      st q gs (csys s) x.1 x.2 r' HS Hcl Ha) as (c & Hc & -> & HS').
    destruct (loops_length _ _ _ Hok) as [Hl1 Hl2]. pose proof (lookup_lt_Some _ _ _ Hc) as Hi.
    destruct (lookup_lt_is_Some_2 gs x.2 ltac:(lia)) as [g Hg]. destruct (lookup_lt_is_Some_2 (senders s) x.2 ltac:(lia)) as [sd Hsd].
    pose proof (waiting_sender _ _ _ _ _ _ Hok Hc Hsd) as ->. rewrite bind_ret. eexists. split; [reflexivity|]. split; [|done].
    assert (pools_ok (q ++ Compressor.nonempty [x.1]) gs
      (set_csys (Compressor.mkSystem (Compressor.mkPool (Compressor.numCompressors (Compressor.pool (csys s)))
        (x.1 :: Compressor.metricsQueue (Compressor.pool (csys s))) (Compressor.queueSize (Compressor.pool (csys s)))
        (Compressor.queueClosed (Compressor.pool (csys s))) (Compressor.state (Compressor.pool (csys s))))
        (Compressor.comps (csys s)) (Compressor.out (csys s))) s)) as Hok'.
    { split; simpl; try done; [by apply Compressor.arrive_good|]. unfold stage_ok. simpl. by rewrite Hw. }
    unfold set_csys. rewrite <- (list_insert_id _ _ _ Hsd), <- (list_insert_id _ _ _ Hg) at 1.
    eapply (loop_step _ gs _ _ x.2 _ (c, Busy _) _ _ _ _ Hok'); try done; [by rewrite list_insert_id|by left].
  - destruct (Compressor.queue_good NewWriterLevel Reset Write CloseW compressionLevel batchTargetSize flushInterval true gunzip
      st q gs (csys s) x.1 r' HS Hcl Ha) as (p & -> & HS' & Hcl' & Hstate').
    rewrite bind_ret. eexists. split; [reflexivity|]. split; [|done]. split; simpl; try done.
    unfold stage_ok. simpl. rewrite Hw. split; [done|]. split; [done|]. congruence.
Qed.

Lemma shutdown_ok q gs s : pools_ok q gs s -> where_ s = Running ->
  exists s', Shutdown s = Ret s' /\ pools_ok q gs s' /\ where_ s' = StopCompressors.
Proof.
  intros [HS Hsz He Hse Hac Hk Hstage Hsome] Hw. eexists. split; [reflexivity|]. split; [|done]. split; simpl; try done.
  - by apply Compressor.stop_good.
  - unfold stage_ok in *. simpl. rewrite Hw in Hstage. destruct Hstage as (Hcl & Hd & Hstate). unfold Compressor.Shutdown. by rewrite Hstate.
Qed.

Lemma pools_start p ep : st = None \/ st = Some Compressor.NewCompressorStats ->
  Compressor.metricsQueue p = [] -> Compressor.queueClosed p = false -> Compressor.state p = Compressor.CompressorPoolStateCreated ->
  (0 < Compressor.numCompressors p)%Z -> EndpointPool.inv ep -> EndpointPool.shutdown ep = false ->
  exists gs, pools_ok [] gs (start (Compressor.Start p).1 st ep).
Proof.
  intros Hst Hm Hcl Hstate Hnum He Hsh. destruct (Compressor.Start p) as [p' n] eqn:Hs. simpl. unfold start.
  pose proof Hs as Hs'. unfold Compressor.Start in Hs'. rewrite Hstate in Hs'. injection Hs' as Hp' Hn.
  assert (Compressor.numCompressors p' = n) as -> by (by rewrite <- Hp').
  exists (replicate (Z.to_nat n) ([], [])).
  split; simpl; try done.
  - by eapply Compressor.pool_start_ok.
  - apply Forall2_replicate. by left.
  - unfold claims. rewrite length_replicate. replace (concat _) with (@nil bytes); [done|]. symmetry. apply concat_nil_Forall, Forall_map.
    apply list.Forall_forall. intros j _. unfold claim. simpl.
    destruct (replicate _ ([], []) !! j) as [g|] eqn:E1; [|done]. apply lookup_replicate in E1 as [-> _].
    destruct (replicate _ (_, Waiting) !! j) as [cr|]; [|done].
    destruct (replicate _ (SNext 1) !! j) as [sd|] eqn:E3; [|done]. by apply lookup_replicate in E3 as [-> _].
  - unfold stage_ok. simpl. by rewrite <- Hp'.
  - rewrite <- Hn. destruct (Z.to_nat _) eqn:E; [lia|done].
Qed.

(** The number of steps that are left. *)
Definition sender_weight (sd : sender) : nat :=
  match sd with SReport _ _ => 4 | SNext _ => 3 | SRequest _ _ => 2 | SReturned _ => 1 end.
Definition loop_weight (cr : Compressor.compressor W * Compressor.phase) : nat :=
  match cr.2 with Waiting => 5 | Busy e => if Compressor.is_open e then 9 else 4 | Ended => 0 end.
Definition weight (cr : Compressor.compressor W * Compressor.phase) (sd : sender) : nat := loop_weight cr + sender_weight sd.
Definition left_steps (s : Pools) : nat :=
  5 * length (Compressor.metricsQueue (Compressor.pool (csys s))) + sum_list (zip_with weight (Compressor.comps (csys s)) (senders s)).

Lemma sum_list_insert (l : list nat) i x y : l !! i = Some x -> sum_list (<[i := y]> l) + x = sum_list l + y.
Proof. revert i. induction l as [|z l IH]; intros [|i] Hi; simplify_eq/=; [lia|]. specialize (IH _ Hi). lia. Qed.

Lemma left_steps_step s s' i cr sd cr' sd' :
  Compressor.comps (csys s) !! i = Some cr -> senders s !! i = Some sd ->
  Compressor.comps (csys s') = <[i := cr']> (Compressor.comps (csys s)) -> senders s' = <[i := sd']> (senders s) ->
  5 * length (Compressor.metricsQueue (Compressor.pool (csys s'))) + weight cr' sd' <
    5 * length (Compressor.metricsQueue (Compressor.pool (csys s))) + weight cr sd ->
  left_steps s' < left_steps s.
Proof.
  intros Hcr Hsd Hc Hs Hlt. unfold left_steps. rewrite Hc, Hs, <- insert_zip_with.
  assert (zip_with weight (Compressor.comps (csys s)) (senders s) !! i = Some (weight cr sd)) as Hz by (rewrite lookup_zip_with, Hcr; simpl; by rewrite Hsd).
  pose proof (sum_list_insert _ i _ (weight cr' sd') Hz). lia.
Qed.

(** The same for a step that leaves the compressors alone. *)
Lemma sender_left s s' i cr sd sd' : Compressor.comps (csys s) !! i = Some cr -> senders s !! i = Some sd ->
  csys s' = csys s -> senders s' = <[i := sd']> (senders s) -> sender_weight sd' < sender_weight sd -> left_steps s' < left_steps s.
Proof.
  intros Hcr Hsd Hc Hs Hlt. apply (left_steps_step s s' i cr sd cr sd'); try done; [by rewrite Hc, list_insert_id|].
  rewrite Hc. unfold weight. lia.
Qed.

Lemma receive_left q gs s i c : pools_ok q gs s ->
  Compressor.queueClosed (Compressor.pool (csys s)) = true \/ Compressor.metricsQueue (Compressor.pool (csys s)) <> [] ->
  Compressor.comps (csys s) !! i = Some (c, Waiting) ->
  exists s', exec (AReceive i) s = Some (Ret s') /\ left_steps s' < left_steps s.
Proof.
  intros Hok Hcl Hc. destruct (loops_length _ _ _ Hok) as [Hl1 Hl2]. pose proof (lookup_lt_Some _ _ _ Hc) as Hi.
  destruct (lookup_lt_is_Some_2 (senders s) i ltac:(lia)) as [sd Hsd].
  assert (exists p e, Compressor.receive (Compressor.pool (csys s)) = Some (p, e) /\
    5 * length (Compressor.metricsQueue p) + loop_weight (c, Busy e) < 5 * length (Compressor.metricsQueue (Compressor.pool (csys s))) + 5)
    as (p & e & Hr & Hlt).
  { unfold Compressor.receive. destruct (Compressor.metricsQueue (Compressor.pool (csys s))) as [|b mq] eqn:E.
    - destruct Hcl as [Hcl|?]; [|done]. rewrite Hcl. eexists _, _. split; [reflexivity|]. unfold loop_weight. simpl. rewrite E. simpl. lia.
    - eexists _, _. split; [reflexivity|]. unfold loop_weight. simpl. lia. }
  exists (set_csys (Compressor.mkSystem p (<[i := (c, Busy e)]> (Compressor.comps (csys s))) (Compressor.out (csys s))) s). split.
  - cbn [exec]. unfold comp_step. cbn [Compressor.act]. rewrite Hr. simpl. unfold Compressor.get_event. by rewrite Hc.
  - apply (left_steps_step s _ i (c, Waiting) sd (c, Busy e) sd); try done; [simpl; by rewrite list_insert_id|].
    unfold weight in *. simpl in *. lia.
Qed.

Lemma finish_left q gs s i err c e sd : pools_ok q gs s ->
  Compressor.comps (csys s) !! i = Some (c, Busy e) -> senders s !! i = Some sd ->
  exists s', comp_step (Compressor.Finish i err) (set_sender i (SNext 1) s) = Some (Ret s') /\ left_steps s' < left_steps s.
Proof.
  intros Hok Hc Hsd.
  assert (exists r, comp_act (Compressor.Finish i err) (csys s) = Some r) as [r Hr].
  { cbn [Compressor.act]. unfold Compressor.run_event. rewrite Hc. by eexists. }
  destruct (Compressor.run_event_spec NewWriterLevel Reset Write CloseW compressionLevel batchTargetSize flushInterval true gunzip
    Htarget st q gs (csys s) i err r (ok_sys _ _ _ Hok) (ok_size _ _ _ Hok) Hr) as (c0 & e0 & g & c' & Hc' & Hg & -> & HS').
  rewrite Hc in Hc'. injection Hc' as <- <-. unfold comp_step. cbn [csys set_sender]. rewrite Hr. simpl. eexists. split; [reflexivity|].
  eapply (left_steps_step s _ i (c, Busy e) sd (c', Compressor.next_phase e) (SNext 1)); try done. simpl.
  assert (1 <= sender_weight sd) by (destruct sd; simpl; lia).
  unfold weight, loop_weight, Compressor.next_phase. simpl. destruct (Compressor.is_open e); simpl; lia.
Qed.

Definition some_clocks : EndpointPool.clocks := EndpointPool.mkClocks zeroTime zeroTime zeroTime zeroTime.

(** A loop that has an event has a step to do. *)
Lemma busy_progress q gs s i c e : pools_ok q gs s -> Compressor.comps (csys s) !! i = Some (c, Busy e) ->
  exists a s', exec a s = Some (Ret s') /\ left_steps s' < left_steps s.
Proof.
  intros Hok Hc. destruct (loops_length _ _ _ Hok) as [Hl1 Hl2]. pose proof (lookup_lt_Some _ _ _ Hc) as Hi.
  destruct (lookup_lt_is_Some_2 (senders s) i ltac:(lia)) as [sd Hsd].
  pose proof (Forall2_lookup_lr _ _ _ _ _ _ (ok_senders _ _ _ Hok) Hc Hsd) as Hs.
  destruct (sending i s) as [b|] eqn:Hb; pose proof Hb as Hb'; unfold sending in Hb'; rewrite Hc in Hb'; simpl in Hb'.
  - destruct sd as [n|n ep|n ep|err].
    + destruct (next_ok q gs s i n some_clocks b Hok Hb Hsd) as (s' & Ha & _ & Hcs & _ & sd & Hse & Hkind).
      exists (ANext i some_clocks), s'. split; [simpl; by rewrite Hb, Hsd, Ha|].
      eapply sender_left; try done. destruct sd; simpl; try done; lia.
    + destruct (response_ok q gs s i n ep (EndpointPool.RespCode 200) b Hok Hb Hsd) as (s' & Ha & _ & Hcs & _ & sd & Hse & Hkind).
      exists (AResponse i (EndpointPool.RespCode 200)), s'. split; [simpl; by rewrite Hb, Hsd, Ha|].
      rewrite (Hkind eq_refl) in Hse. eapply sender_left; try done. simpl. lia.
    + destruct (report_ok q gs s i n ep zeroTime Hok Hsd) as (p & Ha & _).
      eexists (AReport i zeroTime), _. split; [simpl; rewrite Hsd, Ha; reflexivity|].
      eapply sender_left; try done. simpl. lia.
    + destruct (finish_left q gs s i (bool_decide (is_Some err)) c e _ Hok Hc Hsd) as (s' & Ha & Hlt).
      exists (AFinish i), s'. split; [|done]. cbn [exec]. by rewrite Hb, Hsd.
  - destruct sd as [n|n ep|n ep|err]; try (destruct Hs as [x Hx]; congruence); try (destruct Hs as [[x Hx] _]; congruence).
    destruct (finish_left q gs s i false c e _ Hok Hc Hsd) as (s' & Ha & Hlt).
    exists (AFinish i), s'. split; [|done]. cbn [exec]. rewrite Hb, Hsd. by rewrite <- (idle_sender q gs s i _ n Hok Hc Hsd Hb) in Ha.
Qed.

(** Once the queue is closed, a loop that has not ended has one. *)
Lemma progress q gs s i c ph : pools_ok q gs s -> Compressor.queueClosed (Compressor.pool (csys s)) = true ->
  Compressor.comps (csys s) !! i = Some (c, ph) -> ph <> Ended ->
  exists a s', exec a s = Some (Ret s') /\ left_steps s' < left_steps s.
Proof.
  intros Hok Hcl Hc Hph. destruct ph as [|e|]; [|by eapply busy_progress|done].
  destruct (receive_left q gs s i c Hok (or_introl Hcl) Hc) as (s' & ? & ?). by exists (AReceive i), s'.
Qed.

Definition steps : Pools -> Pools -> Prop := rtc (fun s s' => exists a, True /\ exec a s = Some (Ret s')).

Lemma stage_closed s : stage_ok s -> where_ s <> Running -> Compressor.queueClosed (Compressor.pool (csys s)) = true.
Proof. unfold stage_ok. destruct (where_ s); tauto. Qed.

Lemma loops_end q gs s : pools_ok q gs s -> where_ s <> Running ->
  exists s' gs', steps s s' /\ pools_ok q gs' s' /\ where_ s' <> Running /\ all_ended s'.
Proof.
  remember (left_steps s) as k eqn:Ek. revert gs s Ek. induction (lt_wf k) as [k _ IH]. intros gs s -> Hok Hw.
  assert (forall ph : Compressor.phase, Decision (ph = Ended)) as Hdec by (intros []; (by left) || by right).
  destruct (decide (all_ended s)) as [Hall|Hn]; [exists s, gs; split; [apply rtc_refl|done]|].
  apply not_Forall_Exists, Exists_exists in Hn as ((c & ph) & (i & Hc)%list_elem_of_lookup & Hph); [|apply _].
  destruct (progress q gs s i c ph Hok (stage_closed _ (ok_stage _ _ _ Hok) Hw) Hc Hph) as (a & s1 & Ha & Hlt).
  destruct (pools_exec q gs s a _ Hok Ha) as (s1' & gs1 & [= <-] & Hok1 & Hw1).
  destruct (IH _ Hlt gs1 s1 eq_refl Hok1) as (s' & gs' & Hs & Hrest); [by rewrite Hw1|].
  exists s', gs'. split; [|done]. eapply rtc_l; [by exists a|done].
Qed.

Lemma checks_end q gs s : pools_ok q gs s -> where_ s = StopChecks ->
  exists s', steps s s' /\ where_ s' = Stopped.
Proof.
  remember (length (EndpointPool.checks (eps s))) as k eqn:Ek. revert s Ek. induction (lt_wf k) as [k _ IH]. intros s -> Hok Hw.
  destruct (EndpointPool.checks (eps s)) as [|ep rest] eqn:Hch.
  { eexists. split; [apply rtc_once; exists AJoinChecks; split; [done|]; simpl; by rewrite Hw, Hch|done]. }
  pose proof (ok_stage _ _ _ Hok) as Hst. unfold stage_ok in Hst. rewrite Hw in Hst. destruct Hst as (_ & Hsh & _).
  assert (EndpointPool.exec (EndpointPool.EEnd ep) (eps s) = Some (EndpointPool.end_check ep (eps s))) as He.
  { simpl. rewrite Hsh, bool_decide_true by (rewrite Hch; by left). done. }
  destruct (EndpointPool.exec_inv _ _ _ (ok_eps _ _ _ Hok) He) as (p & Hp & _). rewrite Hp in He.
  assert (exec (AEnd ep) s = Some (Ret (set_eps p s))) as Ha by (cbn [exec]; unfold pool_step; by rewrite He).
  destruct (pool_step_ok q gs s (EndpointPool.EEnd ep) _ ltac:(done) I Hok Ha) as (s1 & [= <-] & Hok1 & _).
  assert (length (EndpointPool.checks p) < length (ep :: rest)) as Hlt.
  { rewrite (EndpointPool.end_check_checks _ _ _ Hp), Hch. rewrite filter_cons_False by tauto. simpl. pose proof (length_filter (fun q => q <> ep) rest). lia. }
  destruct (IH _ Hlt (set_eps p s) eq_refl Hok1 Hw) as (s' & Hs & Hw'). exists s'. split; [|done].
  eapply rtc_l; [by exists (AEnd ep)|done].
Qed.

(** However things stand when main starts to shut down, the shutdowns can return. *)
Lemma can_stop q gs s : pools_ok q gs s -> where_ s <> Running -> exists s', steps s s' /\ where_ s' = Stopped.
Proof.
  intros Hok Hw. destruct (loops_end q gs s Hok Hw) as (s1 & gs1 & Hs1 & Hok1 & Hw1 & Hall).
  destruct (where_ s1) eqn:Ew; [done| | |by exists s1].
  - assert (exists r, exec AJoinCompressors s1 = Some r) as [r Hr].
    { simpl. rewrite Ew. replace (forallb _ _) with true; [by eexists|]. symmetry. apply forallb_forall. intros cr Hcr.
      unfold all_ended in Hall. rewrite list.Forall_forall in Hall. by rewrite (Hall cr ltac:(by apply list_elem_of_In)). }
    destruct (join_compressors_ok q gs1 s1 r Hok1 Hr) as (s2 & -> & Hok2 & Hw2).
    destruct (checks_end q gs1 s2 Hok2 Hw2) as (s3 & Hs3 & Hw3). exists s3. split; [|done].
    unfold steps in *. transitivity s1; [exact Hs1|]. eapply rtc_l; [by exists AJoinCompressors|done].
  - destruct (checks_end q gs1 s1 Hok1 Ew) as (s3 & Hs3 & Hw3). exists s3. split; [|done]. unfold steps in *. by transitivity s1.
Qed.

(** As long as the queue is open it can take a buffer: a loop that waits makes
    room, and a loop that does not wait has steps that lead to its select. *)
Lemma pools_can_take q gs s b : pools_ok q gs s -> where_ s = Running ->
  exists s1 x s2, steps s s1 /\ x.1 = b /\ QueueBuf x s1 = Some (Ret s2).
Proof.
  remember (left_steps s) as k eqn:Ek. revert gs s Ek. induction (lt_wf k) as [k _ IH]. intros gs s -> Hok Hw.
  pose proof (ok_stage _ _ _ Hok) as Hst. unfold stage_ok in Hst. rewrite Hw in Hst. destruct Hst as (Hcl & _ & _).
  destruct (lookup_lt_is_Some_2 (Compressor.comps (csys s)) 0) as [[c ph] Hc].
  { pose proof (ok_some _ _ _ Hok). destruct (Compressor.comps (csys s)); [done|simpl; lia]. }
  assert (forall a s1, exec a s = Some (Ret s1) -> left_steps s1 < left_steps s ->
    exists s1 x s2, steps s s1 /\ x.1 = b /\ QueueBuf x s1 = Some (Ret s2)) as Hgo.
  { intros a s1 Ha Hlt. destruct (pools_exec q gs s a _ Hok Ha) as (s1' & gs1 & [= <-] & Hok1 & Hw1).
    destruct (IH _ Hlt gs1 s1 eq_refl Hok1 ltac:(by apply Hw1)) as (s2 & x & s3 & Hs & Hx & Hq). exists s2, x, s3. split; [|done].
    eapply rtc_l; [by exists a|done]. }
  destruct ph as [|e|].
  - destruct (Compressor.queueSize (Compressor.pool (csys s)) =? 0) eqn:Hz.
    { eexists s, (b, 0), _. split; [apply rtc_refl|]. split; [done|]. unfold QueueBuf, comp_step. rewrite Hz. cbn [Compressor.act].
      rewrite Hcl, Hz. unfold Compressor.get_event. simpl. rewrite Hc. reflexivity. }
    destruct (length (Compressor.metricsQueue (Compressor.pool (csys s))) <? Compressor.queueSize (Compressor.pool (csys s))) eqn:Hl.
    { eexists s, (b, 0), _. split; [apply rtc_refl|]. split; [done|]. unfold QueueBuf, comp_step. rewrite Hz. cbn [Compressor.act].
      unfold Compressor.QueueBuf. rewrite Hcl. cbn [fst]. rewrite Hl. reflexivity. }
    destruct (receive_left q gs s 0 c Hok) as (s1 & Ha & Hlt); [right|done|by eapply Hgo].
    intros E. rewrite E in Hl. apply Nat.eqb_neq in Hz. apply Nat.ltb_ge in Hl. simpl in Hl. lia.
  - destruct (busy_progress q gs s 0 c e Hok Hc) as (a & s1 & Ha & Hlt). by eapply Hgo.
  - destruct (Compressor.ok_stopped _ _ _ _ _ _ _ _ _ _ _ _ _ (ok_sys _ _ _ Hok)) as [Hx _]; [|congruence].
    apply Exists_exists. exists (c, Ended). split; [by eapply list_elem_of_lookup_2|done].
Qed.

(** What remains when the shutdowns have returned: everything that was queued is in
    the batches of [log]; those without an error are the ones that endpoints
    accepted. *)
Definition all_sent (l : list bytes) (s : Pools) : Prop :=
  all_ended s /\ Compressor.metricsQueue (Compressor.pool (csys s)) = [] /\
  (exists log,
    Permutation (Compressor.out (csys s)) (map Compressor.sentBatch log) /\
    Forall (fun x => gunzip (Compressor.sentBatch x) = Some (concat (Compressor.sentBufs x)) /\ Compressor.sentBufs x <> []) log /\
    Permutation (Compressor.nonempty l) (concat (map Compressor.sentBufs log)) /\
    Permutation (map snd (accepted s)) (delivered log)) /\
  Forall (fun a => a.1 ∈ dom (EndpointPool.mem (eps s))) (accepted s) /\
  EndpointPool.checks (eps s) = [] /\
  exists xs, EndpointPool.view_but ∅ (eps s) xs /\ forall p, p ∈ dom (EndpointPool.mem (eps s)) -> p ∈ xs.

Lemma claims_ended gs s : length gs = length (Compressor.comps (csys s)) -> length (senders s) = length gs ->
  all_ended s -> claims gs s = delivered (concat (map snd gs)).
Proof.
  intros Hl1 Hl2 Hall. unfold claims. transitivity (concat (map (fun g : ghost => delivered g.2) gs)).
  - f_equal. change (claim gs s <$> seq 0 (length gs) = (fun g : ghost => delivered g.2) <$> gs).
    apply list_eq. intros j. rewrite !list_lookup_fmap.
    destruct (decide (j < length gs)) as [Hj|Hj].
    + rewrite lookup_seq_lt by done. simpl. destruct (lookup_lt_is_Some_2 gs j Hj) as [g Hg].
      destruct (lookup_lt_is_Some_2 (Compressor.comps (csys s)) j ltac:(lia)) as [cr Hcr].
      destruct (lookup_lt_is_Some_2 (senders s) j ltac:(lia)) as [sd Hsd]. unfold claim. rewrite Hg, Hcr, Hsd. simpl.
      unfold all_ended in Hall. rewrite Forall_lookup in Hall. pose proof (Hall _ _ Hcr) as He.
      unfold extra, to_send. rewrite He. simpl. f_equal. destruct sd as [| | |[]]; by rewrite app_nil_r.
    + rewrite (lookup_ge_None_2 gs) by lia. by rewrite lookup_ge_None_2 by (rewrite length_seq; lia).
  - unfold delivered. clear. induction gs as [|g gs IH]; [done|]. simpl. by rewrite IH, List.filter_app, map_app.
Qed.

Lemma stopped_sent l gs s : pools_ok (Compressor.nonempty l) gs s -> where_ s = Stopped -> all_sent l s.
Proof.
  intros Hok Hw. destruct (loops_length _ _ _ Hok) as [Hl1 Hl2]. destruct Hok as [HS Hsz He Hse Hac Hk Hstage Hsome].
  unfold stage_ok in Hstage. rewrite Hw in Hstage. destruct Hstage as (Hcl & Hsh & Hall & Hch).
  pose proof HS as [HL HD HO HE]. destruct (Compressor.ended_empty _ _ _ _ _ _ _ _ _ _ _ _ HL Hall) as [Hp Hh].
  assert (Compressor.metricsQueue (Compressor.pool (csys s)) = []) as Hm.
  { apply HE. unfold all_ended in Hall. destruct (Compressor.comps (csys s)) as [|cr crs]; [done|]. apply Forall_cons in Hall as [Hc _]. left. by rewrite Hc. }
  split; [done|]. split; [done|]. split; [|split; [done|split; [done|by apply EndpointPool.no_checks_healthy]]].
  exists (concat (map snd gs)). split; [by rewrite HO, Compressor.batches_split|]. split; [by eapply Compressor.log_ok|].
  split; [by rewrite HD, Compressor.taken_split, Hp, Hh, Hm, !app_nil_r|]. by rewrite Hac, claims_ended.
Qed.

#[export] Instance pools_laws : MetricsQueue.QueueLaws Pools (bytes * nat) action.
Proof.
  refine {|
    MetricsQueue.inv l s := exists gs, pools_ok (Compressor.nonempty l) gs s;
    MetricsQueue.data_ok := Compressor.small;
    MetricsQueue.buf_ok _ _ := True;
    MetricsQueue.act_ok _ _ := True;
    MetricsQueue.kept := all_sent
  |}; simpl.
  - intros l x s r [gs Hok] Hw _ Hb Ha.
    destruct (pools_queue_ok _ gs s x r Hok ltac:(by destruct (where_ s)) Hb Ha) as (s' & -> & Hok' & E).
    exists s'. split; [done|]. split; [|by rewrite E]. exists gs. unfold Compressor.nonempty. by rewrite filter_app.
  - intros l a s r [gs Hok] _ Ha. destruct (pools_exec _ _ _ _ _ Hok Ha) as (s' & gs' & -> & Hok' & Hw).
    exists s'. split; [done|]. split; [by exists gs'|]. destruct (where_ s'), (where_ s); naive_solver.
  - intros l s [gs Hok] Hw. destruct (shutdown_ok _ gs s Hok ltac:(by destruct (where_ s))) as (s' & -> & Hok' & E).
    exists s'. split; [done|]. split; [by exists gs|by rewrite E].
  - intros l s [gs Hok] Hw. eapply stopped_sent; [done|]. by destruct (where_ s).
  - intros l s b [gs Hok] Hw _. destruct (pools_can_take _ gs s b Hok) as (s1 & x & s2 & Hs & Hx & Hq); [by destruct (where_ s)|].
    exists s1, x, s2. split; [exact Hs|]. by split.
  - intros l s [gs Hok] Hw. destruct (can_stop _ gs s Hok) as (s' & Hs & Hw'); [by destruct (where_ s)|].
    exists s'. split; [exact Hs|]. by rewrite Hw'.
Defined.
End laws.
End pools.
End Sending.
