(* ===== verification/MetricsCommon.v ===== *)
(** What the metrics generators share (src/lsvmi/metrics_common.go): the text of
    a metric, the statistics of the generators, the initial cycle number; and
    the loops that they have in common, over the keys of a map in an arbitrary
    order, over the values of a table, and the removal of the keys that are
    gone, each with what it does when an iteration changes only its own key. *)

From Stdlib Require Import ZArith Lia.
From stdpp Require Import base tactics numbers strings gmap list.
From S2P Require Import Prelude Scan GoTime GoFloat.

Module MetricsCommon.

(** ** The text of a metric *)

Definition QUOTE : byte := Init.Byte.x22.
Definition INSTANCE_LABEL_NAME : bytes := bs "instance".
Definition HOSTNAME_LABEL_NAME : bytes := bs "hostname".

(** [%s="%s"], comma separated. *)
Fixpoint labels (ls : list (bytes * bytes)) : bytes :=
  match ls with
  | [] => []
  | (k, v) :: ls =>
    k ++ bs "=" ++ [QUOTE] ++ v ++ [QUOTE] ++ (match ls with [] => [] | _ => bs "," ++ labels ls end)
  end.

(** [%s{%s="%s",...} ], with the space before the value. *)
Definition metric (name : bytes) (instance hostname : bytes) (ls : list (bytes * bytes)) : bytes :=
  name ++ bs "{" ++ labels ((INSTANCE_LABEL_NAME, instance) :: (HOSTNAME_LABEL_NAME, hostname) :: ls) ++ bs "} ".

(** The instance and host name used: the generator's own for testing, or the
    global ones. *)
Definition or_global (own global : bytes) : bytes := if bool_decide (own <> []) then own else global.

(** A line of the output: the metric, the value and the timestamp suffix, in
    the order of the three writes. *)
Definition line (metric val tsSuffix : bytes) : bytes := metric ++ val ++ tsSuffix.

(** [Time.UnixMilli]; the zero time is 62135596800 seconds before the epoch. *)
Definition UnixMilli (t : Time) : Z := (wall t / Millisecond - 62135596800 * 1000)%Z.
(** [" %d\n"] of the time in milliseconds. *)
Definition ts_suffix (t : Time) : bytes := bs " " ++ Itoa (UnixMilli t) ++ [NL].

(** ** The statistics of the generators *)

Definition METRICS_GENERATOR_INVOCATION_COUNT : nat := 0.
Definition METRICS_GENERATOR_ACTUAL_METRICS_COUNT : nat := 1.
Definition METRICS_GENERATOR_TOTAL_METRICS_COUNT : nat := 2.
Definition METRICS_GENERATOR_BYTES_COUNT : nat := 3.
Definition METRICS_GENERATOR_NUM_STATS : nat := 4.

Abbreviation MetricsGeneratorStats := (gmap bytes (list Z)).

Definition NewMetricsGeneratorStatsContainer : MetricsGeneratorStats := ∅.

(** [l[i] += n] on uint64. *)
Definition add_at (i : nat) (n : Z) (l : list Z) : outcome (list Z) :=
  v ← must (l !! i); store l i (u64 (v + n)).

Definition Update (id : bytes) (actualMetricsCount totalMetricsCount byteCount : Z) (mgs : MetricsGeneratorStats)
    : outcome MetricsGeneratorStats :=
  let gStats := default (replicate METRICS_GENERATOR_NUM_STATS 0%Z) (mgs !! id) in
  l ← add_at METRICS_GENERATOR_INVOCATION_COUNT 1 gStats;
  l ← add_at METRICS_GENERATOR_ACTUAL_METRICS_COUNT actualMetricsCount l;
  l ← add_at METRICS_GENERATOR_TOTAL_METRICS_COUNT totalMetricsCount l;
  l ← add_at METRICS_GENERATOR_BYTES_COUNT byteCount l;
  Ret (<[id := l]> mgs).

Definition Clear (mgs : MetricsGeneratorStats) : MetricsGeneratorStats := ∅.

(** Go's [copy(dst, src)]. *)
Definition copy {A} (dst src : list A) : list A := take (length dst) src ++ drop (length src) dst.

(** [SnapStats]: the snapshot and the statistics left.  The entries of [to] for
    generators without statistics stay as they were. *)
Definition SnapStats (to : MetricsGeneratorStats) (clearStats : bool) (mgs : MetricsGeneratorStats)
    : MetricsGeneratorStats * MetricsGeneratorStats :=
  (merge (fun t g => match g with
                     | None => t
                     | Some gStats => Some (copy (default (replicate METRICS_GENERATOR_NUM_STATS 0%Z) t) gStats)
                     end) to mgs,
   if clearStats then ∅ else mgs).

(** ** Cycle numbers *)

(** [InitialCycleNum.Get]: the initial cycle number and the next state. *)
Definition InitialCycleNum_Get (fullMetricsFactor : Z) (cycleNum : Z) : Z * Z :=
  if (fullMetricsFactor <=? 1)%Z then (0, cycleNum)%Z
  else
    let next := i64 (cycleNum + 1) in
    (Z.rem cycleNum fullMetricsFactor, if (next <? 0)%Z then 0%Z else next).

(** [if cycleNum++; cycleNum >= fullMetricsFactor { cycleNum = 0 }]. *)
Definition next_cycle (fullMetricsFactor cycleNum : Z) : Z :=
  let c := i64 (cycleNum + 1) in if (fullMetricsFactor <=? c)%Z then 0%Z else c.

(** The initial values of [n] cycle numbers. *)
Fixpoint initial_cycles (n : nat) (fullMetricsFactor : Z) (icm : Z) : list Z * Z :=
  match n with
  | O => ([], icm)
  | S n =>
    let '(c, icm) := InitialCycleNum_Get fullMetricsFactor icm in
    let '(cs, icm) := initial_cycles n fullMetricsFactor icm in
    (c :: cs, icm)
  end.

(** ** Lemmas *)

Definition gen_wf (mgs : MetricsGeneratorStats) : Prop :=
  map_Forall (fun _ l => length l = METRICS_GENERATOR_NUM_STATS) mgs.

Lemma add_at_spec i n l v : l !! i = Some v -> add_at i n l = Ret (<[i := u64 (v + n)]> l).
Proof. intros Hi. unfold add_at. rewrite Hi. simpl. apply store_Ret. by eapply lookup_lt_Some. Qed.

Definition add_list (a b : list Z) : list Z := zip_with (fun x y => u64 (x + y)) a b.

(** [Update] adds the four counts of the invocation to those of its generator. *)
Lemma Update_spec id a t b mgs :
  gen_wf mgs ->
  Update id a t b mgs =
    Ret (<[id := add_list (default (replicate METRICS_GENERATOR_NUM_STATS 0%Z) (mgs !! id)) [1; a; t; b]%Z]> mgs).
Proof.
  intros Hw. unfold Update. set (g := default _ _).
  assert (length g = METRICS_GENERATOR_NUM_STATS) as Hg.
  { subst g. destruct (mgs !! id) eqn:E; [|done]. by apply (Hw id). }
  by do 5 (destruct g as [|? g]; try done).
Qed.

Lemma copy_full {A} (dst src : list A) : length src = length dst -> copy dst src = src.
Proof.
  intros H. unfold copy. rewrite <- H, firstn_all.
  rewrite drop_ge by lia. apply app_nil_r.
Qed.

Lemma SnapStats_lookup to c mgs id :
  gen_wf to -> gen_wf mgs ->
  (SnapStats to c mgs).1 !! id = match mgs !! id with Some l => Some l | None => to !! id end.
Proof.
  intros Ht Hm. unfold SnapStats. cbn [fst]. rewrite lookup_merge. unfold diag_None.
  destruct (to !! id) as [t|] eqn:Et, (mgs !! id) as [g|] eqn:Eg; try done; simpl; f_equal.
  - apply copy_full. pose proof (Ht id _ Et). pose proof (Hm id _ Eg). simpl in *. congruence.
  - apply copy_full. pose proof (Hm id _ Eg). simpl in *. rewrite H. done.
Qed.

(** ** Snapshots with a new map *)

Inductive op := OpUpdate (id : bytes) (actual total nbytes : Z) | OpSnap.

(** The operations in order: the statistics left and the snapshots taken, each
    into a new map and clearing. *)
Fixpoint run (ops : list op) (mgs : MetricsGeneratorStats) : outcome (MetricsGeneratorStats * list MetricsGeneratorStats) :=
  match ops with
  | [] => Ret (mgs, [])
  | OpUpdate id a t b :: ops => mgs ← Update id a t b mgs; run ops mgs
  | OpSnap :: ops =>
    let '(snap, mgs) := SnapStats ∅ true mgs in
    '(mgs, snaps) ← run ops mgs; Ret (mgs, snap :: snaps)
  end.

Definition get (id : bytes) (i : nat) (m : MetricsGeneratorStats) : Z :=
  default 0%Z (m !! id ≫= (fun l => l !! i)).
Definition op_add (id : bytes) (i : nat) (o : op) : Z :=
  match o with
  | OpUpdate id' a t b => if bool_decide (id' = id) then default 0%Z ([1; a; t; b]%Z !! i) else 0%Z
  | OpSnap => 0%Z
  end.
Definition sumZ (l : list Z) : Z := foldr Z.add 0%Z l.

Lemma gen_wf_insert id l mgs : gen_wf mgs -> length l = METRICS_GENERATOR_NUM_STATS -> gen_wf (<[id := l]> mgs).
Proof. intros ? ?. by apply map_Forall_insert_2. Qed.

Lemma gen_wf_empty : gen_wf ∅.
Proof. apply map_Forall_empty. Qed.

Lemma wf_default_length id mgs :
  gen_wf mgs -> length (default (replicate METRICS_GENERATOR_NUM_STATS 0%Z) (mgs !! id)) = METRICS_GENERATOR_NUM_STATS.
Proof. intros Hw. destruct (mgs !! id) eqn:E; [|done]. by apply (Hw id). Qed.

Lemma get_update id i id' a t b mgs mgs' :
  gen_wf mgs -> i < METRICS_GENERATOR_NUM_STATS -> Update id' a t b mgs = Ret mgs' ->
  gen_wf mgs' /\ (get id i mgs' mod 2 ^ 64 = (get id i mgs + op_add id i (OpUpdate id' a t b)) mod 2 ^ 64)%Z.
Proof.
  intros Hw Hi. rewrite Update_spec by done. intros [= <-].
  set (g := default _ _). assert (length g = METRICS_GENERATOR_NUM_STATS) as Hg by by apply wf_default_length.
  split; [apply gen_wf_insert; [done|]; unfold add_list; by rewrite length_zip_with, Hg|].
  unfold get, op_add. case_bool_decide as E.
  - subst id'. rewrite lookup_insert_eq. simpl.
    assert (default 0%Z (mgs !! id ≫= (fun l => l !! i)) = default 0%Z (g !! i)) as ->.
    { subst g. destruct (mgs !! id) eqn:E; [done|]. simpl.
      by do 4 (destruct i as [|i]; [done|]). }
    unfold METRICS_GENERATOR_NUM_STATS in *.
    do 5 (destruct g as [|? g]; try done). do 4 (destruct i as [|i]; [simpl; unfold u64, wrapu; by rewrite Z.mod_mod|]). lia.
  - rewrite lookup_insert_ne by done. f_equal. lia.
Qed.

(** the statistics of the generators lose nothing.  For any sequence of
    invocations reported and of snapshots that clear, each into a new map, for
    every generator and every counter the sum over the snapshots plus what is
    left is the sum of what was reported, modulo 2^64. *)
Theorem gen_stats_conserved ops id i :
  i < METRICS_GENERATOR_NUM_STATS ->
  exists mgs snaps, run ops ∅ = Ret (mgs, snaps) /\ gen_wf mgs /\
    ((sumZ (map (get id i) snaps) + get id i mgs) mod 2 ^ 64 = sumZ (map (op_add id i) ops) mod 2 ^ 64)%Z.
Proof.
  intros Hi.
  assert (forall m0, gen_wf m0 -> exists mgs snaps, run ops m0 = Ret (mgs, snaps) /\ gen_wf mgs /\
    ((sumZ (map (get id i) snaps) + get id i mgs) mod 2 ^ 64 =
     (get id i m0 + sumZ (map (op_add id i) ops)) mod 2 ^ 64)%Z) as Hgen.
  { induction ops as [|[id' a t b|] ops IH]; intros m0 Hw; cbn [run].
    - exists m0, []. split; [done|]. split; [done|]. simpl. f_equal. lia.
    - destruct (Update id' a t b m0) as [m1| |] eqn:E; [|by rewrite Update_spec in E..].
      destruct (get_update id i _ _ _ _ _ _ Hw Hi E) as [Hw1 Hg].
      destruct (IH m1 Hw1) as (mgs & snaps & Hr & Hw2 & Hs). rewrite bind_ret.
      exists mgs, snaps. split; [done|]. split; [done|]. rewrite Hs. cbn [map sumZ foldr].
      rewrite <- Z.add_mod_idemp_l, Hg, Z.add_mod_idemp_l by lia. f_equal. unfold sumZ. lia.
    - unfold SnapStats. cbn [fst snd].
      destruct (IH ∅ gen_wf_empty) as (mgs & snaps & Hr & Hw2 & Hs). rewrite Hr, bind_ret.
      eexists mgs, (_ :: snaps). split; [done|]. split; [done|]. cbn [map sumZ foldr op_add].
      assert (get id i (SnapStats ∅ true m0).1 = get id i m0) as Hg.
      { unfold get. rewrite SnapStats_lookup by (done || apply gen_wf_empty). destruct (m0 !! id); done. }
      unfold SnapStats in Hg. cbn [fst] in Hg. rewrite Hg.
      change (get id i ∅) with 0%Z in Hs. rewrite <- Z.add_assoc, <- Z.add_mod_idemp_r by lia.
      unfold sumZ in Hs. rewrite Hs, Z.add_mod_idemp_r by lia. f_equal. }
  destruct (Hgen ∅ gen_wf_empty) as (mgs & snaps & ? & ? & Hs). by exists mgs, snaps.
Qed.

Lemma gen_stats_conserved_witness :
  exists mgs snaps, run [OpUpdate (bs "a") 2 3 40; OpSnap; OpUpdate (bs "a") 1 3 20] ∅ = Ret (mgs, snaps) /\
    gen_wf mgs /\ ((sumZ (map (get (bs "a") 3) snaps) + get (bs "a") 3 mgs) mod 2 ^ 64 = 60 mod 2 ^ 64)%Z.
Proof.
  destruct (gen_stats_conserved [OpUpdate (bs "a") 2 3 40; OpSnap; OpUpdate (bs "a") 1 3 20] (bs "a") 3)
    as (mgs & snaps & Hr & Hw & Hs); [vm_compute; lia|].
  exists mgs, snaps. split; [exact Hr|]. split; [exact Hw|exact Hs].
Defined.

(** The cycle numbers: the initial one is in range, and [next_cycle] counts
    modulo the factor. *)
Lemma InitialCycleNum_range F c n c' :
  (0 <= c)%Z -> InitialCycleNum_Get F c = (n, c') -> (0 <= n < Z.max 1 F)%Z /\ (0 <= c')%Z.
Proof.
  intros Hc. unfold InitialCycleNum_Get. destruct (F <=? 1)%Z eqn:E; [intros [= <- <-]; lia|].
  intros H. injection H as <- <-. split; [|destruct (_ <? 0)%Z eqn:E2; lia].
  pose proof (Z.rem_bound_pos c F). lia.
Qed.

Lemma next_cycle_mod F c :
  (0 <= c < Z.max 1 F)%Z -> (F <= MaxInt64)%Z -> next_cycle F c = ((c + 1) mod Z.max 1 F)%Z.
Proof.
  intros Hc HF. unfold next_cycle. rewrite i64_small by (unfold MinInt64, MaxInt64 in *; lia).
  destruct (F <=? c + 1)%Z eqn:E.
  - replace (c + 1)%Z with (Z.max 1 F) by lia. by rewrite Z.mod_same by lia.
  - rewrite Z.mod_small; lia.
Qed.

Lemma initial_cycles_range n F icm cs icm' :
  (0 <= icm)%Z -> initial_cycles n F icm = (cs, icm') ->
  length cs = n /\ Forall (fun c => 0 <= c < Z.max 1 F)%Z cs /\ (0 <= icm')%Z.
Proof.
  revert icm cs icm'. induction n as [|n IH]; intros icm cs icm' Hi; cbn [initial_cycles].
  - intros [= <- <-]. done.
  - destruct (InitialCycleNum_Get F icm) as [c i1] eqn:E1. destruct (initial_cycles n F i1) as [cs1 i2] eqn:E2.
    intros [= <- <-]. apply InitialCycleNum_range in E1 as [Hc Hi1]; [|done].
    destruct (IH _ _ _ Hi1 E2) as (Hl & Hf & Hi2). split_and!; [by simpl; rewrite Hl|by constructor|done].
Qed.

(** The cycle counter of an index, one of 16. *)
Lemma cycle_counter_lt index : Nat.land index 15 < 16.
Proof. change 15 with (Nat.ones 4). rewrite Nat.land_ones. by apply Nat.mod_upper_bound. Qed.

(** ** Loops over the keys of a map *)

(** [for k := range m { ... }] with the order of the keys given: every
    iteration updates the state and writes lines. *)
Section for_keys.
Context `{Countable K} {St D : Type} (f : K -> St -> outcome (St * list bytes)).

Fixpoint for_keys (order : list K) (st : St) : outcome (St * list bytes) :=
  match order with
  | [] => Ret (st, [])
  | k :: order =>
    '(st, l1) ← f k st;
    '(st, l2) ← for_keys order st;
    Ret (st, l1 ++ l2)
  end.

(** When an iteration changes only the cached data of its key, the loop does
    for every key what one iteration does from the initial state: an iteration
    finds the data of its key as it was before the loop. *)
Lemma for_keys_spec_at (get : St -> gmap K D) (I : St -> Prop)
    (Q : K -> option D -> option D -> list bytes -> Prop) order st0 :
  (forall st k, I st -> k ∈ order -> get st !! k = get st0 !! k -> exists st' L, f k st = Ret (st', L) /\ I st' /\
     Q k (get st !! k) (get st' !! k) L /\ forall k', k' <> k -> get st' !! k' = get st !! k') ->
  NoDup order -> I st0 ->
  exists st' Ls, for_keys order st0 = Ret (st', concat Ls) /\ I st' /\
    Forall2 (fun k L => Q k (get st0 !! k) (get st' !! k) L) order Ls /\
    forall k, k ∉ order -> get st' !! k = get st0 !! k.
Proof.
  revert st0. induction order as [|k order IH]; intros st Hf Hnd HI.
  - exists st, []. split_and!; done.
  - apply NoDup_cons in Hnd as [Hk Hnd].
    destruct (Hf st k HI ltac:(set_solver) eq_refl) as (st1 & L & Hs & HI1 & HQ & Hoth).
    destruct (IH st1) as (st2 & Ls & Hr & HI2 & HQs & Hrest); [|done|done|].
    { intros st' k' HI' Hk' He. apply Hf; [done|set_solver|]. rewrite He. apply Hoth. intros ->. done. }
    exists st2, (L :: Ls). cbn [for_keys]. rewrite Hs, bind_ret, Hr. split_and!; [done|done| |].
    + constructor; [by rewrite (Hrest k Hk)|].
      apply Forall2_same_length_lookup. split; [by eapply Forall2_length|]. intros n k' L' Hk' HL.
      pose proof (Forall2_lookup_lr _ _ _ _ _ _ HQs Hk' HL) as Hq. simpl in Hq. rewrite <- (Hoth k'); [done|].
      intros ->. apply Hk. by eapply list_elem_of_lookup_2.
    + intros k' Hk'. apply not_elem_of_cons in Hk' as [Hne Hk']. by rewrite (Hrest k' Hk'), (Hoth k').
Qed.

Lemma for_keys_spec (get : St -> gmap K D) (I : St -> Prop)
    (Q : K -> option D -> option D -> list bytes -> Prop) order st :
  (forall st k, I st -> k ∈ order -> exists st' L, f k st = Ret (st', L) /\ I st' /\
     Q k (get st !! k) (get st' !! k) L /\ forall k', k' <> k -> get st' !! k' = get st !! k') ->
  NoDup order -> I st ->
  exists st' Ls, for_keys order st = Ret (st', concat Ls) /\ I st' /\
    Forall2 (fun k L => Q k (get st !! k) (get st' !! k) L) order Ls /\
    forall k, k ∉ order -> get st' !! k = get st !! k.
Proof. intros Hf. apply for_keys_spec_at. intros st' k HI Hk _. by apply Hf. Qed.
End for_keys.

(** [for k, d := range m { if _, ok := present[k]; !ok { write; delete(m, k) } }]. *)
Section remove_gone.
Context `{Countable K} {D : Type} (gone : K -> D -> list bytes) (present : K -> bool).

Fixpoint remove_gone (order : list K) (m : gmap K D) : gmap K D * list bytes :=
  match order with
  | [] => (m, [])
  | k :: order =>
    match m !! k with
    | Some d => if present k then remove_gone order m
                else let '(m, lines) := remove_gone order (delete k m) in (m, gone k d ++ lines)
    | None => remove_gone order m
    end
  end.

(** What is left, and the lines written. *)
Lemma remove_gone_spec order m :
  NoDup order ->
  (forall k, (remove_gone order m).1 !! k = if bool_decide (k ∈ order) && negb (present k) then None else m !! k) /\
  (remove_gone order m).2 = concat (map (fun k => match m !! k with
                                                  | Some d => if present k then [] else gone k d
                                                  | None => [] end) order).
Proof.
  revert m. induction order as [|k order IH]; intros m Hnd; cbn [remove_gone map concat].
  - split; [|done]. intros k. rewrite bool_decide_eq_false_2; [done|]. apply not_elem_of_nil.
  - apply NoDup_cons in Hnd as [Hk Hnd].
    assert (forall k', k' <> k -> bool_decide (k' ∈ k :: order) = bool_decide (k' ∈ order)) as Hbd.
    { intros k' Hne. apply bool_decide_ext. rewrite elem_of_cons. naive_solver. }
    assert (bool_decide (k ∈ k :: order) = true) as Hb1 by (apply bool_decide_eq_true_2; set_solver).
    assert (bool_decide (k ∈ order) = false) as Hb2 by by apply bool_decide_eq_false_2.
    destruct (m !! k) as [d|] eqn:Em; [destruct (present k) eqn:Ep|].
    + destruct (IH m Hnd) as [H1 H2]. split; [|by rewrite H2]. intros k'. rewrite H1.
      destruct (decide (k' = k)) as [->|Hne]; [by rewrite Ep, !andb_false_r|by rewrite Hbd].
    + destruct (IH (delete k m) Hnd) as [H1 H2]. destruct (remove_gone order (delete k m)) as [m' ls]. cbn [fst snd] in *.
      split.
      * intros k'. rewrite H1. destruct (decide (k' = k)) as [->|Hne].
        -- by rewrite Hb2, Hb1, Ep, lookup_delete_eq.
        -- by rewrite Hbd, lookup_delete_ne.
      * f_equal. rewrite H2. f_equal. apply map_ext_in. intros k' Hk'%list_elem_of_In.
        rewrite lookup_delete_ne; [done|]. intros ->. done.
    + destruct (IH m Hnd) as [H1 H2]. split; [|by rewrite H2]. intros k'. rewrite H1.
      destruct (decide (k' = k)) as [->|Hne]; [|by rewrite Hbd]. rewrite Hb2, Hb1, Em. by destruct (present k).
Qed.
End remove_gone.

(** ** Loops over the values of a fixed table *)

(** [for index, value := range values { ... }] where an iteration writes lines
    and may update the zero flag of its index. *)
Section for_values.
Context {A : Type} (f : nat -> A -> list bool -> outcome (list bytes * option bool)).

Fixpoint for_values (index : nat) (values : list A) (zd : list bool) : outcome (list bool * list bytes) :=
  match values with
  | [] => Ret (zd, [])
  | c :: values =>
    '(l1, z) ← f index c zd;
    zd ← (match z with Some b => store zd index b | None => Ret zd end);
    '(zd, l2) ← for_values (S index) values zd;
    Ret (zd, l1 ++ l2)
  end.

(** An iteration that depends on the zero flag of its own index only. *)
Lemma for_values_spec (L : nat -> A -> bool -> list bytes) (Zf : nat -> A -> bool -> option bool) N values : forall index zd,
  (forall i c zd, i < N -> length zd = N -> f i c zd = Ret (L i c (zd !!! i), Zf i c (zd !!! i))) ->
  index + length values <= N -> length zd = N ->
  exists zd', for_values index values zd =
      Ret (zd', concat (imap (fun k c => L (index + k) c (zd !!! (index + k))) values)) /\
    length zd' = N /\ (forall i, i < index -> zd' !! i = zd !! i) /\
    forall k c, values !! k = Some c ->
      zd' !! (index + k) = match Zf (index + k) c (zd !!! (index + k)) with Some b => Some b | None => zd !! (index + k) end.
Proof.
  induction values as [|c values IH]; intros index zd Hf Hlen Hzd; cbn [for_values].
  - exists zd. split_and!; done.
  - simpl in Hlen. rewrite Hf by (done || lia). rewrite bind_ret.
    set (zd1 := match Zf index c (zd !!! index) with Some b => <[index := b]> zd | None => zd end).
    assert ((match Zf index c (zd !!! index) with Some b => store zd index b | None => Ret zd end) = Ret zd1) as ->.
    { unfold zd1. destruct (Zf index c _); [|done]. apply store_Ret. lia. }
    assert (length zd1 = N) as Hzd1 by (unfold zd1; destruct (Zf index c _); [by rewrite length_insert|done]).
    assert (forall i, i <> index -> zd1 !! i = zd !! i) as Hne.
    { intros i Hi. unfold zd1. destruct (Zf index c _); [by rewrite list_lookup_insert_ne|done]. }
    assert (forall i, i <> index -> zd1 !!! i = zd !!! i) as Hnt by (intros i Hi; rewrite !list_lookup_total_alt; by rewrite Hne).
    rewrite bind_ret. destruct (IH (S index) zd1 Hf ltac:(lia) Hzd1) as (zd' & -> & Hl & Hlow & Hk). rewrite bind_ret.
    exists zd'. split_and!.
    + rewrite imap_cons. cbn [concat]. rewrite Nat.add_0_r. do 4 f_equal. apply imap_ext. intros k x _. unfold compose.
      rewrite Nat.add_succ_r. cbn [Nat.add]. f_equal. by rewrite Hnt by lia.
    + done.
    + intros i Hi. rewrite Hlow by lia. apply Hne. lia.
    + intros [|k] x Hx; simpl in Hx.
      * injection Hx as <-. rewrite Nat.add_0_r, Hlow by lia. unfold zd1. destruct (Zf index c _); [|done].
        apply list_lookup_insert_eq. lia.
      * rewrite Nat.add_succ_r. rewrite <- (Hne (S (index + k)) ltac:(lia)), <- (Hnt (S (index + k)) ltac:(lia)). by apply Hk.
Qed.
End for_values.

(** ** Orders of iteration *)

(** An order that goes through the keys of a map once each. *)
Definition is_order `{Countable K} {D} (order : gmap K D -> list K) : Prop :=
  forall m, NoDup (order m) /\ forall k, k ∈ order m <-> is_Some (m !! k).

Definition some_order `{Countable K} {D} (m : gmap K D) : list K := (map_to_list m).*1.

Lemma some_order_ok `{Countable K} {D} : is_order (some_order : gmap K D -> list K).
Proof.
  intros m. split; [apply NoDup_fst_map_to_list|]. intros k. unfold some_order. rewrite list_elem_of_fmap. split.
  - intros ([k' v] & -> & Hk). apply elem_of_map_to_list in Hk. by exists v.
  - intros [v Hv]. exists (k, v). split; [done|]. by apply elem_of_map_to_list.
Qed.
(** Removal of the keys that another map does not have: the others stay as they
    are, and every line written is one for a key that is not in that map. *)
Lemma remove_gone_present `{Countable K} {D E} (gone : K -> D -> list bytes) (cs : gmap K E) order (m : gmap K D)
    (P : bytes -> Prop) :
  is_order order ->
  (forall k d, m !! k = Some d -> cs !! k = None -> Forall P (gone k d)) ->
  exists m' lines, remove_gone gone (fun k => bool_decide (is_Some (cs !! k))) (order m) m = (m', lines) /\
    (forall k, m' !! k = if bool_decide (is_Some (cs !! k)) then m !! k else None) /\ Forall P lines.
Proof.
  intros Ho Hg. destruct (Ho m) as [Hnd Hin]. set (pr := fun k => bool_decide (is_Some (cs !! k))).
  destruct (remove_gone_spec gone pr (order m) m Hnd) as [H1 H2].
  destruct (remove_gone gone pr (order m) m) as [m' lines]. cbn [fst snd] in *. exists m', lines. split; [done|]. split.
  - intros k. rewrite H1. change (bool_decide (is_Some (cs !! k))) with (pr k). destruct (pr k); [by rewrite andb_false_r|].
    destruct (m !! k) as [d|] eqn:Em; [|by destruct (_ && _)].
    rewrite bool_decide_eq_true_2 by (apply Hin; by exists d). done.
  - rewrite H2. apply Forall_concat, Forall_map, Forall_forall. intros k _. destruct (m !! k) as [d|] eqn:Em; [|constructor].
    destruct (pr k) eqn:Ep; [constructor|]. apply (Hg k d Em), eq_None_not_Some. by apply bool_decide_eq_false in Ep.
Qed.

(** What is reported about keys that are gone: when the clean-up is [due], one
    line for each key of the cache before that the map has no more, and these
    keys are forgotten; otherwise nothing. *)
Definition gone_reported `{Countable K} {D E} (f : K -> D -> bytes) (cs : gmap K E) (before after : gmap K D) (due : Prop)
    (lines : list bytes) : Prop :=
  exists ks, NoDup ks /\ (forall k, k ∈ ks <-> due /\ cs !! k = None /\ is_Some (before !! k)) /\
    lines = omap (fun k => f k <$> before !! k) ks /\
    (forall k, cs !! k = None -> after !! k = if bool_decide (k ∈ ks) then None else before !! k).

(** The clean-up of the generators: the cache [m] after the loop differs from the
    one before only at keys that are present. *)
Lemma clean_up_spec `{Countable K} {D E} (f : K -> D -> bytes) (cs : gmap K E) order (before m : gmap K D) (n : nat) :
  is_order order -> (forall k, cs !! k = None -> m !! k = before !! k) ->
  exists m' lines,
    (if negb (size m =? n) then remove_gone (fun k d => [f k d]) (fun k => bool_decide (is_Some (cs !! k))) (order m) m else (m, [])) = (m', lines) /\
    (forall k, is_Some (cs !! k) -> m' !! k = m !! k) /\ gone_reported f cs before m' (size m <> n) lines.
Proof.
  intros Ho Hm. destruct (Ho m) as [Hnd Hin]. destruct (Nat.eqb_spec (size m) n) as [E0|E0]; cbn [negb].
  { exists m, []. split; [done|]. split; [done|]. exists []. split; [constructor|]. split; [|split; [done|]].
    - intros k. rewrite elem_of_nil. naive_solver.
    - intros k Hk. rewrite bool_decide_eq_false_2 by apply not_elem_of_nil. by apply Hm. }
  set (pr := fun k => bool_decide (is_Some (cs !! k))).
  assert (forall k, pr k = true <-> is_Some (cs !! k)) as Hpr by (intros k; apply bool_decide_eq_true).
  assert (forall k, pr k = false <-> cs !! k = None) as Hnp by (intros k; rewrite <- not_true_iff_false, Hpr, eq_None_not_Some; done).
  destruct (remove_gone_spec (fun k d => [f k d]) pr (order m) m Hnd) as [H1 H2].
  destruct (remove_gone _ pr (order m) m) as [m' lines]. cbn [fst snd] in *. exists m', lines. split; [done|]. split.
  { intros k Hk. rewrite H1, (proj2 (Hpr k) Hk). by rewrite andb_false_r. }
  exists (filter (fun k => pr k = false) (order m)). split; [by apply NoDup_filter|]. split; [|split].
  - intros k. rewrite list_elem_of_filter, Hin, Hnp. split.
    + intros [Hk Hs]. split_and!; [done|done|by rewrite <- Hm].
    + intros (_ & Hk & Hs). split; [done|by rewrite Hm].
  - rewrite H2. clear H1 H2. assert (forall k, k ∈ order m -> is_Some (m !! k)) as Hs by (intros k; apply Hin). clear Hin Hnd.
    induction (order m) as [|k l IH]; [done|]. cbn [map concat]. rewrite filter_cons. rewrite IH by (intros; apply Hs; set_solver).
    destruct (pr k) eqn:Ep; [|].
    + rewrite decide_False by done. by destruct (m !! k).
    + rewrite decide_True by done. cbn [omap list_omap]. rewrite <- Hm by by apply Hnp. destruct (m !! k) as [d|] eqn:Ek; [done|].
      destruct (Hs k ltac:(set_solver)) as [? Ek']. congruence.
  - intros k Hk. rewrite H1. rewrite (proj2 (Hnp k) Hk), andb_true_r, Hm by done.
    destruct (before !! k) as [d|] eqn:Eb; [|by repeat destruct (bool_decide _)].
    erewrite bool_decide_ext; [done|]. rewrite list_elem_of_filter, (Hnp k). by split; [intros ?|intros [_ ?]].
Qed.

(** The size of a cache to which the loop has added the keys of both scans. *)
Lemma loop_size `{Countable K} {D E} (before m : gmap K D) (curr prev : gmap K E) :
  (forall k, is_Some (m !! k) <-> is_Some (before !! k) \/ is_Some (curr !! k) /\ is_Some (prev !! k)) ->
  size m = size (dom before ∪ (dom curr ∩ dom prev) : gset K).
Proof.
  intros Hm. rewrite <- (size_dom (D := gset K) m). f_equal. apply set_eq. intros k.
  rewrite elem_of_union, elem_of_intersection, !elem_of_dom. apply Hm.
Qed.

(** ** Loops over the indexes of a table of flags *)

(** [for index := range table { ... zd[index] = ... }]. *)
Lemma for_indexes_spec (f : nat -> list bool -> outcome (list bool * list bytes)) (L : nat -> bool -> list bytes)
    (Z : nat -> bool) N order : forall zd,
  (forall i zd, i ∈ order -> i < N -> length zd = N -> f i zd = Ret (<[i := Z i]> zd, L i (zd !!! i))) ->
  NoDup order -> Forall (fun i => i < N) order -> length zd = N ->
  exists zd', for_keys f order zd = Ret (zd', concat (map (fun i => L i (zd !!! i)) order)) /\
    length zd' = N /\ forall i, zd' !! i = if bool_decide (i ∈ order) then Some (Z i) else zd !! i.
Proof.
  induction order as [|i order IH]; intros zd Hf Hnd Hlt Hl; cbn [for_keys map concat].
  - exists zd. split_and!; [done|done|]. intros i. rewrite bool_decide_eq_false_2; [done|]. apply not_elem_of_nil.
  - apply NoDup_cons in Hnd as [Hi Hnd]. apply Forall_cons in Hlt as [Hlt Hlts]. rewrite Hf by (done || set_solver). rewrite bind_ret.
    destruct (IH (<[i := Z i]> zd) (fun j zd Hj => Hf j zd (list_elem_of_further _ _ _ Hj)) Hnd Hlts ltac:(by rewrite length_insert)) as (zd' & -> & Hl' & Hk). rewrite bind_ret.
    exists zd'. split_and!; [|done|].
    + do 3 f_equal. f_equal. apply map_ext_in. intros j Hj%list_elem_of_In. f_equal.
      rewrite !list_lookup_total_alt, list_lookup_insert_ne; [done|]. by intros ->.
    + intros j. rewrite Hk. destruct (decide (j = i)) as [->|Hne].
      * rewrite bool_decide_eq_false_2 by done. rewrite bool_decide_eq_true_2 by set_solver. apply list_lookup_insert_eq. lia.
      * rewrite list_lookup_insert_ne by done. erewrite bool_decide_ext; [done|]. rewrite elem_of_cons. naive_solver.
Qed.
(** [for index := range table { ... }] without a state. *)
Lemma for_keys_unit {K} (f : K -> unit -> outcome (unit * list bytes)) (L : K -> list bytes) order :
  (forall k, k ∈ order -> f k tt = Ret (tt, L k)) -> for_keys f order tt = Ret (tt, concat (map L order)).
Proof.
  induction order as [|k order IH]; intros Hf; [done|]. cbn [for_keys map concat]. rewrite Hf by set_solver.
  by rewrite bind_ret, IH, bind_ret by (intros k' Hk; apply Hf; set_solver).
Qed.
End MetricsCommon.
