(* ===== verification/NetDevMetrics.v ===== *)
(** The metrics generator for /proc/net/dev (src/lsvmi/proc_net_dev_metrics.go):
    dual storage of the parsed statistics, deltas and rates with the
    skip-zero-after-zero rule and periodic full cycles, presence of the devices.

    Go iterates over maps in an arbitrary order: the orders are arguments.  The
    output is the list of the lines written to the buffer. *)

From Stdlib Require Import ZArith Lia.
From Stdlib Require Import Floats.SpecFloat.
From stdpp Require Import base tactics numbers strings gmap list.
From S2P Require Import Prelude Scan GoTime GoFloat MetricsCommon NetDev.
Import MetricsCommon.

Module NetDevMetrics.

Definition PROC_NET_DEV_METRICS_ID : bytes := bs "proc_net_dev_metrics".
Definition PROC_NET_DEV_PRESENCE_METRIC : bytes := bs "proc_net_dev_present".
Definition PROC_NET_DEV_LABEL_NAME : bytes := bs "dev".
Definition PROC_NET_DEV_INTERVAL_METRIC : bytes := bs "proc_net_dev_metrics_delta_sec".

(** The metric of each counter, by index. *)
Definition procNetDevIndexDeltaMetricNameMap : list bytes := [
  bs "proc_net_dev_rx_kbps";
  bs "proc_net_dev_rx_pkts_delta";
  bs "proc_net_dev_rx_errs_delta";
  bs "proc_net_dev_rx_drop_delta";
  bs "proc_net_dev_rx_fifo_delta";
  bs "proc_net_dev_rx_frame_delta";
  bs "proc_net_dev_rx_compressed_delta";
  bs "proc_net_dev_rx_mcast_delta";
  bs "proc_net_dev_tx_kbps";
  bs "proc_net_dev_tx_pkts_delta";
  bs "proc_net_dev_tx_errs_delta";
  bs "proc_net_dev_tx_drop_delta";
  bs "proc_net_dev_tx_fifo_delta";
  bs "proc_net_dev_tx_colls_delta";
  bs "proc_net_dev_tx_carrier_delta";
  bs "proc_net_dev_tx_compressed_delta"].

(** The rates: factor and precision. *)
Definition procNetDevIndexRate (index : nat) : option (spec_float * nat) :=
  if (index =? 0) || (index =? 8) then Some (f64_div (f64_of_int 8) (f64_of_int 1000), 1) else None.

Record ProcNetDevInfo := mkInfo {
  deltaMetrics : list bytes;
  presentMetric : bytes;
  cycleNum : Z;
  zeroDelta : list bool
}.

Record ProcNetDevMetrics := mkMetrics {
  fullMetricsFactor : Z;
  procNetDev : list (option NetDev.NetDev);
  procNetDevTs : list Time;
  currIndex : nat;
  devInfoMap : gmap bytes ProcNetDevInfo;
  intervalMetric : option bytes;
  totalMetricsCount : Z
}.

Definition NewProcNetDevMetrics (fullMetricsFactor : Z) : ProcNetDevMetrics :=
  mkMetrics fullMetricsFactor [None; None] [zeroTime; zeroTime] 0 ∅ None 0.

Section generator.
(** Instance and host name of the metrics, path of the file. *)
Context (instance hostname netDevPath : bytes).

Definition dev_metric (name dev : bytes) : bytes :=
  metric name instance hostname [(PROC_NET_DEV_LABEL_NAME, dev)].

(** [updateDevInfo]: with the state of the initial cycle number. *)
Definition updateDevInfo (F : Z) (dev : bytes) (icm : Z) : ProcNetDevInfo * Z :=
  let '(cn, icm) := InitialCycleNum_Get F icm in
  (mkInfo (map (fun name => dev_metric name dev) procNetDevIndexDeltaMetricNameMap)
     (dev_metric PROC_NET_DEV_PRESENCE_METRIC dev) cn
     (replicate NetDev.NET_DEV_NUM_STATS false), icm).

Definition updateMetricsCache : bytes := metric PROC_NET_DEV_INTERVAL_METRIC instance hostname [].

(** The value of a counter: a rate or the delta itself. *)
Definition format_delta (deltaSec : spec_float) (index : nat) (val : Z) : bytes :=
  match procNetDevIndexRate index with
  | Some (factor, prec) => FormatFloat prec (f64_mul (f64_div (f64_of_int val) deltaSec) factor)
  | None => FormatUint val
  end.

(** [for index, metric := range deltaMetrics]. *)
Fixpoint gen_deltas (full : bool) (deltaSec : spec_float) (promTs : bytes) (curr prev : list Z)
    (index : nat) (metrics : list bytes) (zeroDelta : list bool) : outcome (list bool * list bytes) :=
  match metrics with
  | [] => Ret (zeroDelta, [])
  | metric :: metrics =>
    c ← must (curr !! index);
    p ← must (prev !! index);
    let val := u64 (c - p) in
    wasZero ← must (zeroDelta !! index);
    let out := if negb (val =? 0)%Z || full || negb wasZero
               then [line metric (format_delta deltaSec index val) promTs] else [] in
    zeroDelta ← store zeroDelta index (val =? 0)%Z;
    '(zeroDelta, lines) ← gen_deltas full deltaSec promTs curr prev (S index) metrics zeroDelta;
    Ret (zeroDelta, out ++ lines)
  end.

Record gen_state := mkGen { infos : gmap bytes ProcNetDevInfo; icm : Z; evalTotal : bool }.

(** One device of the current scan. *)
Definition gen_dev (F : Z) (deltaSec : spec_float) (promTs : bytes) (curr prev : gmap bytes (list Z))
    (dev : bytes) (st : gen_state) : outcome (gen_state * list bytes) :=
  currDevStats ← must (curr !! dev);
  match prev !! dev with
  | None => Ret (st, [])
  | Some prevDevStats =>
    let '(devInfo, fullMetrics, icm, eval) :=
      match infos st !! dev with
      | Some i => (i, (cycleNum i =? 0)%Z, icm st, evalTotal st)
      | None => let '(i, icm) := updateDevInfo F dev (icm st) in (i, true, icm, true)
      end in
    '(zd, lines) ← gen_deltas fullMetrics deltaSec promTs currDevStats prevDevStats 0 (deltaMetrics devInfo) (zeroDelta devInfo);
    let present := if fullMetrics : bool then [line (presentMetric devInfo) (bs "1") promTs] else [] in
    let devInfo := mkInfo (deltaMetrics devInfo) (presentMetric devInfo) (next_cycle F (cycleNum devInfo)) zd in
    Ret (mkGen (<[dev := devInfo]> (infos st)) icm eval, lines ++ present)
  end.

Fixpoint gen_devs (F : Z) (deltaSec : spec_float) (promTs : bytes) (curr prev : gmap bytes (list Z))
    (order : list bytes) (st : gen_state) : outcome (gen_state * list bytes) :=
  match order with
  | [] => Ret (st, [])
  | dev :: order =>
    '(st, l1) ← gen_dev F deltaSec promTs curr prev dev st;
    '(st, l2) ← gen_devs F deltaSec promTs curr prev order st;
    Ret (st, l1 ++ l2)
  end.

(** "remove out of scope ones". *)
Fixpoint remove_devs (promTs : bytes) (curr : gmap bytes (list Z)) (order : list bytes)
    (m : gmap bytes ProcNetDevInfo) : gmap bytes ProcNetDevInfo * list bytes :=
  match order with
  | [] => (m, [])
  | dev :: order =>
    match m !! dev, curr !! dev with
    | Some devInfo, None =>
      let '(m, lines) := remove_devs promTs curr order (delete dev m) in
      (m, line (presentMetric devInfo) (bs "0") promTs :: lines)
    | _, _ => remove_devs promTs curr order m
    end
  end.

(** [generateMetrics]: [order] is the order of the devices of the current scan,
    [order2] that of [devInfoMap]; the result has the lines and the two
    counts. *)
Definition generateMetrics (order : gmap bytes (list Z) -> list bytes)
    (order2 : gmap bytes ProcNetDevInfo -> list bytes) (g : ProcNetDevMetrics) (icm0 : Z)
    : outcome (ProcNetDevMetrics * Z * list bytes * (Z * Z)) :=
  let ci := currIndex g in
  curr ← must (procNetDev g !! ci); prev ← must (procNetDev g !! (1 - ci));
  currTs ← must (procNetDevTs g !! ci); prevTs ← must (procNetDevTs g !! (1 - ci));
  let ci' := 1 - ci in
  match prev with
  | None =>
    Ret (mkMetrics (fullMetricsFactor g) (procNetDev g) (procNetDevTs g) ci' (devInfoMap g)
           (intervalMetric g) (totalMetricsCount g), icm0, [], (0, 0)%Z)
  | Some prev =>
    curr ← must curr;
    let promTs := ts_suffix currTs in
    let deltaSec := Seconds (Sub currTs prevTs) in
    let currStats := NetDev.DevStats curr in
    '(st, lines) ← gen_devs (fullMetricsFactor g) deltaSec promTs currStats (NetDev.DevStats prev) (order currStats)
                     (mkGen (devInfoMap g) icm0 false);
    let '(m, gone, eval) :=
      if size currStats <? size (infos st)
      then let '(m, gone) := remove_devs promTs currStats (order2 (infos st)) (infos st) in (m, gone, true)
      else (infos st, [], evalTotal st) in
    let im := default updateMetricsCache (intervalMetric g) in
    let lines := lines ++ gone ++ [line im (FormatFloat 6 deltaSec) promTs] in
    let total := if eval : bool
                 then (Z.of_nat (size currStats) * (Z.of_nat NetDev.NET_DEV_NUM_STATS + 1) + 1)%Z
                 else totalMetricsCount g in
    Ret (mkMetrics (fullMetricsFactor g) (procNetDev g) (procNetDevTs g) ci' m (Some im) total,
         icm st, lines, (Z.of_nat (length lines), total))
  end.

(** What [Execute] does with the buffer: it is returned unused, or queued and
    reported to the statistics of the generators. *)
Inductive queued := Returned | Queued (buf : bytes).

Definition Execute (rd : read_result) (now : Time) (order : gmap bytes (list Z) -> list bytes)
    (order2 : gmap bytes ProcNetDevInfo -> list bytes) (g : ProcNetDevMetrics) (icm0 : Z) (mgs : MetricsGeneratorStats)
    : outcome (ProcNetDevMetrics * Z * MetricsGeneratorStats * option queued * bool) :=
  let ci := currIndex g in
  curr ← must (procNetDev g !! ci);
  prev ← must (procNetDev g !! (1 - ci));
  let curr := match curr with
              | Some nd => nd
              | None => match prev with
                        | Some p => NetDev.Clone false p
                        | None => NetDev.NewNetDev netDevPath
                        end
              end in
  '(curr, err) ← NetDev.Parse rd curr;
  nds ← store (procNetDev g) ci (Some curr);
  let g := mkMetrics (fullMetricsFactor g) nds (procNetDevTs g) ci (devInfoMap g) (intervalMetric g) (totalMetricsCount g) in
  match err with
  | Some _ => Ret (g, icm0, mgs, None, false)
  | None =>
    ts ← store (procNetDevTs g) ci now;
    let g := mkMetrics (fullMetricsFactor g) (procNetDev g) ts ci (devInfoMap g) (intervalMetric g) (totalMetricsCount g) in
    '(g, icm0, lines, (actual, total)) ← generateMetrics order order2 g icm0;
    let buf := concat lines in
    if (0 <? total)%Z then
      mgs ← Update PROC_NET_DEV_METRICS_ID (u64 actual) (u64 total) (u64 (Z.of_nat (length buf))) mgs;
      Ret (g, icm0, mgs, Some (Queued buf), true)
    else Ret (g, icm0, mgs, Some Returned, true)
  end.

(** ** Well-formed states *)

Definition NUM : nat := NetDev.NET_DEV_NUM_STATS.

Record info_ok (F : Z) (dev : bytes) (i : ProcNetDevInfo) : Prop := mkInfoOk {
  io_metrics : deltaMetrics i = map (fun name => dev_metric name dev) procNetDevIndexDeltaMetricNameMap;
  io_present : presentMetric i = dev_metric PROC_NET_DEV_PRESENCE_METRIC dev;
  io_cycle : (0 <= cycleNum i < Z.max 1 F)%Z;
  io_zero : length (zeroDelta i) = NUM
}.

Record st_ok (F : Z) (st : gen_state) : Prop := mkStOk {
  so_infos : map_Forall (info_ok F) (infos st);
  so_icm : (0 <= icm st)%Z
}.

Definition stats_ok (m : gmap bytes (list Z)) : Prop := NetDev.sized m.

Lemma stats_len m dev l : stats_ok m -> m !! dev = Some l -> NUM < length l.
Proof. intros Hm Hl. rewrite (Hm dev l Hl). vm_compute. lia. Qed.

(** The delta of a counter and what is emitted for it. *)
Definition delta (curr prev : list Z) (i : nat) : Z := u64 (curr !!! i - prev !!! i).
Definition emit (full : bool) (curr prev : list Z) (zd : list bool) (i : nat) : option Z :=
  let val := delta curr prev i in
  if negb (val =? 0)%Z || full || negb (zd !!! i) then Some val else None.
Definition render_delta (deltaSec : spec_float) (promTs : bytes) (i : nat) (m : bytes) (o : option Z) : list bytes :=
  match o with Some v => [line m (format_delta deltaSec i v) promTs] | None => [] end.

Lemma gen_deltas_spec full deltaSec promTs curr prev index metrics zd :
  index + length metrics <= length curr -> index + length metrics <= length prev ->
  index + length metrics <= length zd ->
  exists zd', gen_deltas full deltaSec promTs curr prev index metrics zd =
    Ret (zd', concat (imap (fun k m => render_delta deltaSec promTs (index + k) m
                                        (emit full curr prev zd (index + k))) metrics)) /\
    length zd' = length zd /\
    forall i, zd' !! i = if decide (index <= i < index + length metrics)
                         then Some (delta curr prev i =? 0)%Z else zd !! i.
Proof.
  revert index zd. induction metrics as [|m metrics IH]; intros index zd Hc Hp Hz; simpl in Hc, Hp, Hz.
  - exists zd. split; [done|]. split; [done|]. intros i. simpl. rewrite decide_False; [done|lia].
  - cbn [gen_deltas].
    rewrite (list_lookup_lookup_total_lt curr index), (list_lookup_lookup_total_lt prev index),
      (list_lookup_lookup_total_lt zd index) by lia.
    cbn [must]. rewrite !bind_ret. rewrite store_Ret by lia. rewrite bind_ret.
    set (zd1 := <[index := _]> zd).
    destruct (IH (S index) zd1) as (zd' & Hg & Hl & Hlk); [lia|lia|unfold zd1; rewrite length_insert; lia|].
    rewrite Hg, bind_ret. exists zd'. split; [|split].
    + f_equal. f_equal. rewrite imap_cons. cbn [concat]. rewrite Nat.add_0_r. f_equal; [unfold emit, delta; by destruct (_ || _)|].
      f_equal. apply imap_ext. intros k m' Hk. simpl. rewrite Nat.add_succ_r. f_equal.
      unfold emit. unfold zd1. by rewrite list_lookup_total_insert_ne by lia.
    + rewrite Hl. unfold zd1. apply length_insert.
    + intros i. rewrite Hlk. simpl. destruct (decide (i = index)) as [->|Hne].
      * rewrite decide_False by lia. rewrite decide_True by lia. unfold zd1.
        by rewrite list_lookup_insert_eq by lia.
      * unfold zd1. rewrite list_lookup_insert_ne by done.
        repeat case_decide; (done || lia).
Qed.

(** The lines of one device. *)
Definition dev_lines (dev : bytes) (deltaSec : spec_float) (promTs : bytes) (full : bool) (em : list (option Z)) : list bytes :=
  concat (imap (fun k name => render_delta deltaSec promTs k (dev_metric name dev) (default None (em !! k)))
               procNetDevIndexDeltaMetricNameMap) ++
  (if full then [line (dev_metric PROC_NET_DEV_PRESENCE_METRIC dev) (bs "1") promTs] else []).

(** A full generation: a new device, or the cycle number is 0. *)
Definition is_full (o : option ProcNetDevInfo) : bool :=
  match o with Some i => (cycleNum i =? 0)%Z | None => true end.
Definition zeros (o : option ProcNetDevInfo) : list bool :=
  match o with Some i => zeroDelta i | None => replicate NUM false end.
Definition emits (o : option ProcNetDevInfo) (curr prev : list Z) : list (option Z) :=
  map (emit (is_full o) curr prev (zeros o)) (seq 0 NUM).

Lemma gen_dev_spec F deltaSec promTs curr prev dev st c p :
  (F <= MaxInt64)%Z -> st_ok F st -> stats_ok curr -> stats_ok prev -> curr !! dev = Some c -> prev !! dev = Some p ->
  exists i', let st' := mkGen (<[dev := i']> (infos st)) (match infos st !! dev with Some _ => icm st | None => (updateDevInfo F dev (icm st)).2 end)
                          (match infos st !! dev with Some _ => evalTotal st | None => true end) in
    gen_dev F deltaSec promTs curr prev dev st =
      Ret (st', dev_lines dev deltaSec promTs (is_full (infos st !! dev)) (emits (infos st !! dev) c p)) /\
    st_ok F st' /\
    (forall k, k < NUM -> zeroDelta i' !! k = Some (delta c p k =? 0)%Z) /\
    (forall i, infos st !! dev = Some i -> cycleNum i' = ((cycleNum i + 1) mod Z.max 1 F)%Z).
Proof.
  intros HF [Hi Hicm] Hcs Hps Hc Hp. unfold gen_dev. rewrite Hc. cbn [must]. rewrite bind_ret, Hp.
  pose proof (stats_len _ _ _ Hcs Hc) as Hlc. pose proof (stats_len _ _ _ Hps Hp) as Hlp.
  set (o := infos st !! dev) in *.
  assert (exists i0 icm1 ev, match o with
      | Some i => (i, (cycleNum i =? 0)%Z, icm st, evalTotal st)
      | None => let '(i, icm) := updateDevInfo F dev (icm st) in (i, true, icm, true)
      end = (i0, is_full o, icm1, ev) /\ info_ok F dev i0 /\ zeroDelta i0 = zeros o /\ (0 <= icm1)%Z /\
      icm1 = match o with Some _ => icm st | None => (updateDevInfo F dev (icm st)).2 end /\
      ev = match o with Some _ => evalTotal st | None => true end /\
      (forall i, o = Some i -> cycleNum i0 = cycleNum i))
    as (i0 & icm1 & ev & -> & [Hm Hpr Hcy Hz] & Hzd & Hicm1 & Eicm & Eev & Hcn).
  { destruct o as [i|] eqn:Eo.
    - exists i, (icm st), (evalTotal st). split; [done|]. split; [by apply (Hi dev)|]. naive_solver.
    - unfold updateDevInfo. destruct (InitialCycleNum_Get F (icm st)) as [cn icm'] eqn:Eg.
      apply InitialCycleNum_range in Eg as [Hcn Hic]; [|done].
      eexists _, icm', true. split; [done|]. split; [by split|]. by split. }
  destruct (gen_deltas_spec (is_full o) deltaSec promTs c p 0 (deltaMetrics i0) (zeroDelta i0))
    as (zd' & Hg & Hl & Hlk).
  { rewrite Hm, length_map. change NUM with 16 in Hlc. simpl. lia. }
  { rewrite Hm, length_map. change NUM with 16 in Hlp. simpl. lia. }
  { rewrite Hm, length_map, Hz. change NUM with 16. simpl. lia. }
  rewrite Hg, bind_ret. eexists. split; [|split; [|split]].
  - rewrite <- Eicm, <- Eev. f_equal. f_equal. unfold dev_lines. rewrite Hpr. f_equal.
    rewrite Hm, Hzd. reflexivity.
  - split; simpl; [|by rewrite <- Eicm]. apply map_Forall_insert_2; [|done].
    split; simpl; [done|done| |by rewrite Hl].
    rewrite next_cycle_mod by done. apply Z.mod_pos_bound. lia.
  - intros k Hk. simpl. rewrite Hlk. rewrite decide_True; [done|]. rewrite Hm, length_map. exact (conj (Nat.le_0_l k) Hk).
  - intros i Ei. simpl. rewrite next_cycle_mod by done. by rewrite (Hcn i Ei).
Qed.

(** What a generation did for a device of both scans: [o] is its information
    before, [i'] after. *)
Definition dev_done (F : Z) (deltaSec : spec_float) (promTs dev : bytes) (o : option ProcNetDevInfo)
    (c p : list Z) (i' : ProcNetDevInfo) (lines : list bytes) : Prop :=
  (forall k, k < NUM -> zeroDelta i' !! k = Some (delta c p k =? 0)%Z) /\
  (forall i, o = Some i -> cycleNum i' = ((cycleNum i + 1) mod Z.max 1 F)%Z) /\
  exists l1 l2, lines = l1 ++ dev_lines dev deltaSec promTs (is_full o) (emits o c p) ++ l2.

Lemma dev_done_app F deltaSec promTs dev o c p i' l0 lines l3 :
  dev_done F deltaSec promTs dev o c p i' lines -> dev_done F deltaSec promTs dev o c p i' (l0 ++ lines ++ l3).
Proof.
  intros (Hz & Hc & l1 & l2 & ->). split; [done|]. split; [done|].
  exists (l0 ++ l1), (l2 ++ l3). by rewrite <- !app_assoc.
Qed.

Lemma gen_devs_spec F deltaSec promTs curr prev order st :
  (F <= MaxInt64)%Z -> st_ok F st -> stats_ok curr -> stats_ok prev ->
  NoDup order -> (forall dev, dev ∈ order -> is_Some (curr !! dev)) ->
  exists st' lines, gen_devs F deltaSec promTs curr prev order st = Ret (st', lines) /\ st_ok F st' /\
    (forall dev, dev ∉ order \/ prev !! dev = None -> infos st' !! dev = infos st !! dev) /\
    (forall dev c p, dev ∈ order -> curr !! dev = Some c -> prev !! dev = Some p ->
       exists i', infos st' !! dev = Some i' /\ dev_done F deltaSec promTs dev (infos st !! dev) c p i' lines) /\
    (evalTotal st = true -> evalTotal st' = true) /\
    (forall dev, dev ∈ order -> is_Some (prev !! dev) -> infos st !! dev = None -> evalTotal st' = true).
Proof.
  intros HF Hst Hcs Hps. revert st Hst. induction order as [|d order IH]; intros st Hst Hnd Hin.
  - exists st, []. split; [done|]. split; [done|]. split; [done|]. split; [set_solver|]. split; [done|]. set_solver.
  - apply NoDup_cons in Hnd as [Hd Hnd]. destruct (Hin d) as [c Hc]; [set_solver|]. cbn [gen_devs].
    destruct (prev !! d) as [p|] eqn:Hp.
    + destruct (gen_dev_spec F deltaSec promTs curr prev d st c p HF Hst Hcs Hps Hc Hp) as (i' & Hg & Hst' & Hz & Hcy).
      set (st1 := mkGen _ _ _) in *. rewrite Hg, bind_ret.
      destruct (IH st1 Hst' Hnd) as (st2 & lines & -> & Hst2 & Hsame & Hdone & Hev1 & Hev2); [set_solver|].
      rewrite bind_ret. eexists st2, _. split; [done|]. split; [done|]. split; [|split; [|split]].
      * intros dev Hdev. assert (dev <> d) by (intros ->; destruct Hdev; [set_solver|congruence]).
        rewrite Hsame by set_solver. subst st1. simpl. by rewrite lookup_insert_ne.
      * intros dev c' p' Hdev Hc' Hp'. destruct (decide (dev = d)) as [->|Hne].
        -- exists i'. rewrite Hsame by (by left). subst st1. simpl. rewrite lookup_insert_eq. split; [done|].
           simplify_eq. split; [done|]. split; [done|]. by exists [], lines.
        -- destruct (Hdone dev c' p') as (i2 & Hi2 & Hdd); [set_solver|done|done|].
           subst st1. simpl in Hdd. rewrite lookup_insert_ne in Hdd by done. exists i2. split; [done|].
           rewrite <- (app_nil_r lines). by apply dev_done_app.
      * intros He. apply Hev1. subst st1. simpl. by destruct (infos st !! d).
      * intros dev Hdev Hpd Hnone. destruct (decide (dev = d)) as [->|Hne].
        -- apply Hev1. subst st1. simpl. by rewrite Hnone.
        -- apply (Hev2 dev); [set_solver|done|]. subst st1. simpl. by rewrite lookup_insert_ne.
    + assert (gen_dev F deltaSec promTs curr prev d st = Ret (st, [])) as ->.
      { unfold gen_dev. by rewrite Hc, Hp. }
      rewrite bind_ret.
      destruct (IH st Hst Hnd) as (st2 & lines & -> & Hst2 & Hsame & Hdone & Hev1 & Hev2); [set_solver|].
      rewrite bind_ret. exists st2, lines. split; [done|]. split; [done|]. split; [|split; [|split]].
      * intros dev Hdev. apply Hsame. destruct (decide (dev = d)) as [->|]; [by right|]. set_solver.
      * intros dev c' p' Hdev Hc' Hp'. apply Hdone; [|done|done].
        apply elem_of_cons in Hdev as [->|]; [congruence|done].
      * done.
      * intros dev Hdev Hpd Hnone. apply (Hev2 dev); [|done|done].
        apply elem_of_cons in Hdev as [->|]; [|done]. rewrite Hp in Hpd. by destruct Hpd.
Qed.

(** The devices that went away: dropped, with a presence of 0. *)
Lemma remove_devs_spec promTs curr order m m' lines :
  NoDup order -> remove_devs promTs curr order m = (m', lines) ->
  (forall dev, m' !! dev = if decide (dev ∈ order /\ curr !! dev = None) then None else m !! dev) /\
  (forall dev i, dev ∈ order -> curr !! dev = None -> m !! dev = Some i ->
     line (presentMetric i) (bs "0") promTs ∈ lines).
Proof.
  revert m m' lines. induction order as [|d order IH]; intros m m' lines Hnd H; cbn [remove_devs] in H.
  - injection H as <- <-. split; [|set_solver]. intros dev. rewrite decide_False by set_solver. done.
  - apply NoDup_cons in Hnd as [Hd Hnd].
    assert ((exists i l2, m !! d = Some i /\ curr !! d = None /\ remove_devs promTs curr order (delete d m) = (m', l2) /\
               lines = line (presentMetric i) (bs "0") promTs :: l2) \/
            ((m !! d = None \/ curr !! d <> None) /\ remove_devs promTs curr order m = (m', lines)))
      as [(i & l2 & Hi & Hc & Hr & ->)|[Hn Hr]].
    { destruct (m !! d) as [i|] eqn:Hi, (curr !! d) as [c|] eqn:Hc; [right; by split; [right|]| |
        right; by split; [left|]|right; by split; [left|]].
      left. destruct (remove_devs promTs curr order (delete d m)) as [m2 l2]. injection H as <- <-. by eexists _, _. }
    + destruct (IH _ _ _ Hnd Hr) as [H1 H2]. split.
      * intros dev. rewrite H1. destruct (decide (dev = d)) as [->|Hne].
        -- rewrite decide_False by naive_solver. rewrite decide_True by set_solver. by rewrite lookup_delete_eq.
        -- rewrite lookup_delete_ne by done. repeat case_decide; (done || set_solver).
      * intros dev i' Hdev Hcn Hm. apply elem_of_cons in Hdev as [->|Hdev]; [simplify_eq; set_solver|].
        assert (dev <> d) by (intros ->; done).
        apply elem_of_cons. right. eapply H2; [done|done|]. by rewrite lookup_delete_ne.
    + destruct (IH _ _ _ Hnd Hr) as [H1 H2]. split.
      * intros dev. rewrite H1. destruct (decide (dev = d)) as [->|Hne].
        -- rewrite decide_False by naive_solver. case_decide as Hdec; [|done].
           destruct Hdec as [_ Hcn]. destruct Hn as [Hn|Hn]; [by rewrite Hn|done].
        -- repeat case_decide; (done || set_solver).
      * intros dev i' Hdev Hcn Hm. apply elem_of_cons in Hdev as [->|Hdev]; [|by eapply H2].
        destruct Hn as [Hn|Hn]; congruence.
Qed.

(** ** The generator *)

Record g_ok (F : Z) (g : ProcNetDevMetrics) : Prop := mkGOk {
  go_factor : fullMetricsFactor g = F;
  go_index : currIndex g < 2;
  go_nds : length (procNetDev g) = 2;
  go_ts : length (procNetDevTs g) = 2;
  go_sized : Forall (fun o => match o with Some nd => stats_ok (NetDev.DevStats nd) | None => True end) (procNetDev g);
  go_infos : map_Forall (info_ok F) (devInfoMap g);
  go_total : (0 <= totalMetricsCount g)%Z /\ (devInfoMap g <> ∅ -> 0 < totalMetricsCount g)%Z
}.

Context (order : gmap bytes (list Z) -> list bytes) (order2 : gmap bytes ProcNetDevInfo -> list bytes).
(** The orders go through every key once. *)
Hypothesis order_ok : forall m, NoDup (order m) /\ forall k, k ∈ order m <-> is_Some (m !! k).
Hypothesis order2_ok : forall m, NoDup (order2 m) /\ forall k, k ∈ order2 m <-> is_Some (m !! k).

Lemma new_g_ok F : g_ok F (NewProcNetDevMetrics F).
Proof. split; simpl; try done; [lia|by repeat constructor]. Qed.

Lemma go_lookup F g i : g_ok F g -> i < 2 ->
  exists o, procNetDev g !! i = Some o /\ match o with Some nd => stats_ok (NetDev.DevStats nd) | None => True end.
Proof.
  intros HG Hi. destruct (lookup_lt_is_Some_2 (procNetDev g) i) as [o Ho]; [rewrite (go_nds _ _ HG); lia|].
  exists o. split; [done|]. eapply (proj1 (Forall_lookup _ _) (go_sized _ _ HG)). exact Ho.
Qed.

(** One generation with a previous scan. *)
Lemma generate_spec F g icm0 curr prev currTs prevTs :
  (F <= MaxInt64)%Z -> (0 <= icm0)%Z -> g_ok F g ->
  procNetDev g !! currIndex g = Some (Some curr) -> procNetDev g !! (1 - currIndex g) = Some (Some prev) ->
  procNetDevTs g !! currIndex g = Some currTs -> procNetDevTs g !! (1 - currIndex g) = Some prevTs ->
  exists g' icm' lines total, generateMetrics order order2 g icm0 =
      Ret (g', icm', lines, (Z.of_nat (length lines), total)) /\
    g_ok F g' /\ (0 <= icm')%Z /\ procNetDev g' = procNetDev g /\ procNetDevTs g' = procNetDevTs g /\
    currIndex g' = 1 - currIndex g /\ total = totalMetricsCount g' /\
    (forall dev c p, NetDev.DevStats curr !! dev = Some c -> NetDev.DevStats prev !! dev = Some p ->
       exists i', devInfoMap g' !! dev = Some i' /\
         dev_done F (Seconds (Sub currTs prevTs)) (ts_suffix currTs) dev (devInfoMap g !! dev) c p i' lines) /\
    (forall dev i, devInfoMap g' !! dev = Some i -> is_Some (devInfoMap g !! dev) \/ is_Some (NetDev.DevStats curr !! dev)) /\
    (dom (NetDev.DevStats curr) = dom (NetDev.DevStats prev) ->
       dom (devInfoMap g') = dom (NetDev.DevStats curr) /\
       forall dev i, devInfoMap g !! dev = Some i -> NetDev.DevStats curr !! dev = None ->
         line (presentMetric i) (bs "0") (ts_suffix currTs) ∈ lines).
Proof.
  intros HF Hicm HG Hc Hp Hct Hpt. pose proof HG as [Hfac Hci Hnds Hts Hsz Hin [Htot0 Htot]].
  pose proof (proj1 (Forall_lookup _ _) Hsz) as Hsz'.
  pose proof (Hsz' _ _ Hc) as Hcs. pose proof (Hsz' _ _ Hp) as Hps. simpl in Hcs, Hps.
  unfold generateMetrics. rewrite Hc, Hp, Hct, Hpt. cbn [must]. rewrite !bind_ret. cbn [must]. rewrite bind_ret, Hfac. cbv zeta.
  set (cs := NetDev.DevStats curr) in *. set (ps := NetDev.DevStats prev) in *.
  destruct (order_ok cs) as [Hnd Hino].
  destruct (gen_devs_spec F (Seconds (Sub currTs prevTs)) (ts_suffix currTs) cs ps (order cs) (mkGen (devInfoMap g) icm0 false))
    as (st & lines & -> & [Hsi Hsicm] & Hsame & Hdone & _ & Hev); [done|by split|done|done|done|naive_solver|].
  rewrite bind_ret. cbn [infos evalTotal] in *.
  (* the removal *)
  assert (exists m gone ev, (if size cs <? size (infos st)
      then let '(m, gone) := remove_devs (ts_suffix currTs) cs (order2 (infos st)) (infos st) in (m, gone, true)
      else (infos st, [], evalTotal st)) = (m, gone, ev) /\
      map_Forall (info_ok F) m /\ (ev = false -> m = infos st /\ ev = evalTotal st) /\
      (forall dev, is_Some (cs !! dev) -> m !! dev = infos st !! dev) /\
      (forall dev i, m !! dev = Some i -> infos st !! dev = Some i) /\
      (dom cs ⊆ dom (infos st) -> dom m = dom cs /\
        forall dev i, infos st !! dev = Some i -> cs !! dev = None ->
          line (presentMetric i) (bs "0") (ts_suffix currTs) ∈ gone))
    as (m & gone & ev & -> & Hmok & Hev2 & Hmc & Hmi & Hmd).
  { destruct (size cs <? size (infos st)) eqn:E.
    - destruct (remove_devs _ _ _ _) as [m gone] eqn:Er. destruct (order2_ok (infos st)) as [Hnd2 Hin2].
      destruct (remove_devs_spec _ _ _ _ _ _ Hnd2 Er) as [Hm1 Hm2]. exists m, gone, true.
      assert (forall dev i, m !! dev = Some i -> infos st !! dev = Some i) as Hmi.
      { intros dev i. rewrite Hm1. by case_decide. }
      split; [done|]. split; [intros dev i Hd; by apply (Hsi dev), Hmi|]. split; [done|].
      split; [|split; [done|]].
      + intros dev [c Hdc]. rewrite Hm1, decide_False; [done|]. intros [_ ?]. congruence.
      + intros Hsub. split.
        * apply set_eq. intros dev. rewrite !elem_of_dom, Hm1. case_decide as Hdec.
          -- destruct Hdec as [_ Hdn]. rewrite Hdn. split; intros [? ?]; done.
          -- split; [|intros Hdc; apply elem_of_dom, Hsub; by apply elem_of_dom].
             intros [i Hi]. destruct (cs !! dev) eqn:Ec; [done|]. exfalso. apply Hdec. split; [|done].
             apply Hin2. by exists i.
        * intros dev i Hi Hn. eapply Hm2; [|done|done]. apply Hin2. by exists i.
    - apply Nat.ltb_ge in E. exists (infos st), [], (evalTotal st).
      split; [done|]. split; [done|]. split; [done|]. split; [done|]. split; [done|]. intros Hsub.
      assert (dom cs = dom (infos st)) as Hd.
      { apply leibniz_equiv, (set_subseteq_size_equiv (C := gset bytes)); [done|]. by rewrite !size_dom. }
      split; [done|]. intros dev i Hi Hn. exfalso. apply (elem_of_dom_2 (D := gset bytes)) in Hi. rewrite <- Hd in Hi.
      apply elem_of_dom in Hi as [? ?]. congruence. }
  eexists _, _, _, _. split; [done|]. cbn [totalMetricsCount procNetDev procNetDevTs currIndex devInfoMap].
  split; [|split; [done|split; [done|split; [done|split; [done|split; [done|split; [|split]]]]]]].
  - split; cbn [totalMetricsCount procNetDev procNetDevTs currIndex devInfoMap fullMetricsFactor]; try done; [lia|].
    destruct ev.
    + split; [lia|]. intros _. lia.
    + destruct (Hev2 eq_refl) as [Em Ee]. split; [done|]. intros Hne. apply Htot. intros Hemp.
      apply Hne. apply map_empty. intros dev. rewrite Em.
      destruct (infos st !! dev) as [i|] eqn:Ei; [exfalso|done].
      destruct (decide (dev ∈ order cs /\ is_Some (ps !! dev))) as [[Ho Hps']|Hn].
      * assert (evalTotal st = true) as Ht by (apply (Hev dev); [done|done|by rewrite Hemp]). congruence.
      * rewrite Hsame in Ei; [by rewrite Hemp in Ei|].
        destruct (decide (dev ∈ order cs)); [right|by left].
        destruct (ps !! dev) eqn:Ep; [|done]. exfalso. apply Hn. split; [done|by eexists].
  - intros dev c p Hdc Hdp. destruct (Hdone dev c p) as (i' & Hi' & Hdd); [apply Hino; by eexists|done|done|].
    exists i'. split; [rewrite Hmc by (by eexists); done|].
    change lines with ([] ++ lines). rewrite <- !app_assoc. by apply dev_done_app.
  - intros dev i Hi%Hmi. destruct (decide (dev ∈ order cs)) as [Ho|Ho]; [right; by apply Hino|left].
    rewrite <- Hsame by (by left). by exists i.
  - intros Hdom. destruct Hmd as [Hmd1 Hmd2].
    { intros dev Hd. pose proof Hd as Hd2. rewrite Hdom in Hd2.
      apply elem_of_dom in Hd as [c Hdc]. apply elem_of_dom in Hd2 as [p Hdp].
      destruct (Hdone dev c p) as (i' & Hi' & _); [apply Hino; by eexists|done|done|].
      apply elem_of_dom. by exists i'. }
    split; [done|]. intros dev i Hi Hn. apply elem_of_app. right. apply elem_of_app. left.
    eapply Hmd2; [|done]. rewrite Hsame; [done|]. left. intros Ho%Hino. destruct Ho. congruence.
Qed.

(** The last scan of a generator and when it was made. *)
Definition scan_of (g : ProcNetDevMetrics) : gmap bytes (list Z) :=
  match procNetDev g !! (1 - currIndex g) with Some (Some nd) => NetDev.DevStats nd | _ => ∅ end.
Definition ts_of (g : ProcNetDevMetrics) : Time := default zeroTime (procNetDevTs g !! (1 - currIndex g)).
(** Whether there was a scan. *)
Definition scanned (g : ProcNetDevMetrics) : bool :=
  match procNetDev g !! (1 - currIndex g) with Some (Some _) => true | _ => false end.

(** What a successful execution does, from [g] to [g']. *)
Definition step_done (F : Z) (g g' : ProcNetDevMetrics) (q : option queued) : Prop :=
  scanned g' = true /\
  if scanned g then
    exists lines,
      (forall dev c p, scan_of g' !! dev = Some c -> scan_of g !! dev = Some p ->
         q = Some (Queued (concat lines)) /\
         exists i', devInfoMap g' !! dev = Some i' /\
           dev_done F (Seconds (Sub (ts_of g') (ts_of g))) (ts_suffix (ts_of g')) dev (devInfoMap g !! dev) c p i' lines) /\
      (dom (scan_of g') = dom (scan_of g) -> dom (devInfoMap g') = dom (scan_of g') /\
         forall dev i, devInfoMap g !! dev = Some i -> scan_of g' !! dev = None ->
           line (presentMetric i) (bs "0") (ts_suffix (ts_of g')) ∈ lines)
  else q = Some Returned /\ devInfoMap g' = devInfoMap g.

Lemma Execute_spec F rd now g icm0 mgs :
  (F <= MaxInt64)%Z -> (0 <= icm0)%Z -> g_ok F g -> gen_wf mgs ->
  exists g' icm' mgs' q ok, Execute rd now order order2 g icm0 mgs = Ret (g', icm', mgs', q, ok) /\
    g_ok F g' /\ (0 <= icm')%Z /\ gen_wf mgs' /\
    if ok : bool then step_done F g g' q /\ ts_of g' = now
    else q = None /\ mgs' = mgs /\ currIndex g' = currIndex g.
Proof.
  intros HF Hicm HG Hmgs. pose proof HG as [Hfac Hci Hnds Hts Hsz Hin Htot].
  assert (1 - currIndex g < 2) as Hci1 by lia.
  destruct (go_lookup F g (currIndex g) HG Hci) as (oc & Hoc & Hocs).
  destruct (go_lookup F g (1 - currIndex g) HG Hci1) as (op & Hop & Hops).
  unfold Execute. rewrite Hoc, Hop. cbn [must]. rewrite !bind_ret.
  set (curr0 := match oc with Some nd => nd | None => _ end).
  assert (stats_ok (NetDev.DevStats curr0)) as Hc0.
  { subst curr0. destruct oc as [nd|]; [done|]. destruct op as [nd|].
    - intros k v Hk. simpl in Hk. rewrite lookup_fmap in Hk. by destruct (NetDev.DevStats nd !! k); simplify_eq/=.
    - apply map_Forall_empty. }
  destruct (NetDev.netdev_parse_returns curr0 rd Hc0) as (curr & err & -> & Hcs).
  rewrite bind_ret. rewrite store_Ret by (rewrite Hnds; lia). rewrite bind_ret.
  set (nds := <[currIndex g := Some curr]> (procNetDev g)).
  assert (Forall (fun o => match o with Some nd => stats_ok (NetDev.DevStats nd) | None => True end) nds) as Hsz1.
  { by apply Forall_insert. }
  assert (nds !! (1 - currIndex g) = Some op) as Hndsp by (unfold nds; rewrite list_lookup_insert_ne; [done|lia]).
  assert (nds !! currIndex g = Some (Some curr)) as Hndsc by (apply list_lookup_insert_eq; lia).
  destruct err as [e|].
  { eexists _, _, _, _, _. split; [done|]. split; [|done].
    split; try done. cbn [procNetDev]. unfold nds. by rewrite length_insert. }
  cbn [procNetDevTs]. rewrite store_Ret by (rewrite Hts; lia). rewrite bind_ret.
  set (tss := <[currIndex g := now]> (procNetDevTs g)).
  destruct (lookup_lt_is_Some_2 (procNetDevTs g) (1 - currIndex g)) as [prevTs Hpt]; [lia|].
  assert (tss !! (1 - currIndex g) = Some prevTs) as Htp by (unfold tss; rewrite list_lookup_insert_ne; [done|lia]).
  assert (tss !! currIndex g = Some now) as Htc by (apply list_lookup_insert_eq; lia).
  set (g1 := mkMetrics _ _ _ _ _ _ _).
  assert (g_ok F g1) as HG1.
  { split; cbn [g1 fullMetricsFactor procNetDev procNetDevTs currIndex devInfoMap totalMetricsCount]; try done;
      [unfold nds|unfold tss]; by rewrite length_insert. }
  assert (1 - (1 - currIndex g) = currIndex g) as Hcc by lia.
  destruct op as [pnd|].
  - destruct (generate_spec F g1 icm0 curr pnd now prevTs HF Hicm HG1 Hndsc Hndsp Htc Htp)
      as (g' & icm' & lines & total & -> & HG' & Hicm' & Hnd' & Hts' & Hci' & -> & Hdev & _ & Hdom).
    rewrite bind_ret. change (currIndex g1) with (currIndex g) in *.
    change (procNetDev g1) with nds in *. change (procNetDevTs g1) with tss in *.
    change (devInfoMap g1) with (devInfoMap g) in *.
    assert (step_done F g g' (if (0 <? totalMetricsCount g')%Z then Some (Queued (concat lines)) else Some Returned)
            /\ ts_of g' = now) as Hstep.
    { assert (scan_of g' = NetDev.DevStats curr) as Es by (unfold scan_of; by rewrite Hci', Hcc, Hnd', Hndsc).
      assert (scan_of g = NetDev.DevStats pnd) as Ep by (unfold scan_of; by rewrite Hop).
      assert (ts_of g' = now) as Et by (unfold ts_of; by rewrite Hci', Hcc, Hts', Htc).
      assert (ts_of g = prevTs) as Etp by (unfold ts_of; by rewrite Hpt).
      split; [|done]. unfold step_done. split; [unfold scanned; by rewrite Hci', Hcc, Hnd', Hndsc|].
      unfold scanned. rewrite Hop, Es, Ep, Et, Etp.
      exists lines. split; [|exact Hdom]. intros dev c p Hdc Hdp.
      destruct (Hdev dev c p Hdc Hdp) as (i' & Hi' & Hdd). split; [|by exists i'].
      rewrite (proj2 (Z.ltb_lt _ _)); [done|]. apply (go_total _ _ HG'). intros He. by rewrite He in Hi'. }
    destruct (0 <? totalMetricsCount g')%Z.
    + rewrite Update_spec by done. rewrite bind_ret. eexists _, _, _, _, _. split; [done|].
      split; [done|]. split; [done|]. split; [|done]. apply gen_wf_insert; [done|].
      unfold add_list. by rewrite length_zip_with, wf_default_length.
    + eexists _, _, _, _, _. by split.
  - assert (generateMetrics order order2 g1 icm0 =
      Ret (mkMetrics (fullMetricsFactor g1) nds tss (1 - currIndex g) (devInfoMap g) (intervalMetric g) (totalMetricsCount g),
           icm0, [], (0, 0)%Z)) as ->.
    { unfold generateMetrics. cbn [g1 procNetDev procNetDevTs currIndex].
      rewrite Hndsc, Hndsp, Htc, Htp. done. }
    rewrite bind_ret. eexists _, _, _, _, _. split; [done|].
    split; [|split; [done|split; [done|]]].
    + destruct HG1. split; cbn [fullMetricsFactor procNetDev procNetDevTs currIndex devInfoMap totalMetricsCount]; try done.
    + unfold step_done, scanned, ts_of. cbn [procNetDev procNetDevTs currIndex devInfoMap].
      rewrite Hcc, Hndsc, Hop, Htc. done.
Qed.

(** ** Runs *)

(** The generator executed on successive contents of the file: the state after
    each execution and what was queued, up to the first failure, after which it
    is not executed again. *)
Fixpoint exec_run (inputs : list (read_result * Time)) (g : ProcNetDevMetrics) (icm0 : Z) (mgs : MetricsGeneratorStats)
    : outcome (list (ProcNetDevMetrics * option queued)) :=
  match inputs with
  | [] => Ret []
  | (rd, now) :: inputs =>
    '(g, icm0, mgs, q, ok) ← Execute rd now order order2 g icm0 mgs;
    if ok : bool then os ← exec_run inputs g icm0 mgs; Ret ((g, q) :: os) else Ret []
  end.

Lemma exec_run_spec F inputs g icm0 mgs :
  (F <= MaxInt64)%Z -> (0 <= icm0)%Z -> g_ok F g -> gen_wf mgs ->
  exists os, exec_run inputs g icm0 mgs = Ret os /\
    forall k a b q, (g :: map fst os) !! k = Some a -> os !! k = Some (b, q) ->
      step_done F a b q /\ map_Forall (info_ok F) (devInfoMap a).
Proof.
  intros HF. revert g icm0 mgs. induction inputs as [|[rd now] inputs IH]; intros g icm0 mgs Hicm HG Hm.
  - exists []. split; [done|]. intros k a b q _ Hk. by rewrite lookup_nil in Hk.
  - cbn [exec_run].
    destruct (Execute_spec F rd now g icm0 mgs HF Hicm HG Hm) as (g' & icm' & mgs' & q & ok & -> & HG' & Hicm' & Hm' & Hok).
    rewrite bind_ret. destruct ok.
    + destruct (IH g' icm' mgs' Hicm' HG' Hm') as (os & -> & Hos). rewrite bind_ret.
      exists ((g', q) :: os). split; [done|]. intros [|k] a b q' Ha Hb; simpl in *.
      * simplify_eq. split; [apply Hok|apply HG].
      * by eapply Hos.
    + exists []. split; [done|]. intros k a b q' _ Hk. by rewrite lookup_nil in Hk.
Qed.

Abbreviation run F inputs := (exec_run inputs (NewProcNetDevMetrics F) 0 ∅).

Lemma run_spec F inputs :
  (F <= MaxInt64)%Z ->
  exists os, run F inputs = Ret os /\
    forall k a b qa qb, os !! k = Some (a, qa) -> os !! S k = Some (b, qb) ->
      step_done F a b qb /\ scanned a = true /\ map_Forall (info_ok F) (devInfoMap a).
Proof.
  intros HF.
  destruct (exec_run_spec F inputs (NewProcNetDevMetrics F) 0 ∅ HF ltac:(lia) (new_g_ok F) gen_wf_empty) as (os & Hr & Hs).
  exists os. split; [done|]. intros k a b qa qb Ha Hb.
  assert ((NewProcNetDevMetrics F :: map fst os) !! S k = Some a) as Ha'.
  { simpl. rewrite list_lookup_fmap, Ha. done. }
  destruct (Hs (S k) a b qb Ha' Hb) as [Hab Hia]. split; [done|]. split; [|done].
  assert (exists z, (NewProcNetDevMetrics F :: map fst os) !! k = Some z) as [z Hz].
  { apply lookup_lt_is_Some_2. apply lookup_lt_Some in Ha. simpl. rewrite length_map. lia. }
  destruct (Hs k z a qa Hz Ha) as [[Hsc _] _]. done.
Qed.

Lemma emits_lookup o c p i : i < NUM -> emits o c p !! i = Some (emit (is_full o) c p (zeros o) i).
Proof. intros Hi. unfold emits. rewrite list_lookup_fmap, lookup_seq_lt by done. done. Qed.

(** C29: what is emitted.  The generator run on any sequence of file contents
    does not panic.  For a device of two successive scans the buffer of the
    second contains, for each counter, the exact delta modulo 2^64 (or its
    rate), except where the delta is zero and the one before, if there was one,
    was zero too: so the deltas that are sent add up to the change of the
    counter, and a counter that stops changing is reported once as zero. *)
Theorem netdev_metrics_deltas F inputs :
  (F <= MaxInt64)%Z ->
  exists os, run F inputs = Ret os /\
  forall k a qa b qb dev p c,
    os !! k = Some (a, qa) -> os !! S k = Some (b, qb) ->
    scan_of a !! dev = Some p -> scan_of b !! dev = Some c ->
    exists lines l1 l2 full em,
      qb = Some (Queued (concat lines)) /\
      lines = l1 ++ dev_lines dev (Seconds (Sub (ts_of b) (ts_of a))) (ts_suffix (ts_of b)) full em ++ l2 /\
      length em = NUM /\
      forall i, i < NUM ->
        em !! i = Some (Some (delta c p i)) \/
        (em !! i = Some None /\ delta c p i = 0%Z /\ full = false /\
         forall k' z qz r, k = S k' -> os !! k' = Some (z, qz) -> scan_of z !! dev = Some r -> delta p r i = 0%Z).
Proof.
  intros HF. destruct (run_spec F inputs HF) as (os & Hr & Hs). exists os. split; [done|].
  intros k a qa b qb dev p c Ha Hb Hp Hc. destruct (Hs k a b qa qb Ha Hb) as ([_ Hst] & Hsa & _).
  rewrite Hsa in Hst. destruct Hst as (lines & Hdev & _).
  destruct (Hdev dev c p Hc Hp) as (-> & i' & _ & _ & _ & l1 & l2 & Hl).
  eexists lines, l1, l2, _, _. split; [done|]. split; [exact Hl|].
  split; [unfold emits; by rewrite length_map, length_seq|]. intros i Hi. rewrite emits_lookup by done.
  set (o := devInfoMap a !! dev). unfold emit.
  destruct (_ || _) eqn:E; [by left|right]. apply orb_false_iff in E as [[E1 E2]%orb_false_iff E3].
  apply negb_false_iff in E1, E3. apply Z.eqb_eq in E1. split; [done|]. split; [done|]. split; [done|].
  intros k' z qz r -> Hz Hrr. destruct (Hs k' z a qz qa Hz Ha) as ([_ Hst'] & Hsz & _).
  rewrite Hsz in Hst'. destruct Hst' as (lines' & Hdev' & _).
  destruct (Hdev' dev p r Hp Hrr) as (_ & i2 & Hi2 & Hzero & _). fold o in Hi2.
  rewrite Hi2 in E3. simpl in E3. specialize (Hzero i Hi).
  rewrite list_lookup_total_alt, Hzero in E3. simpl in E3. by apply Z.eqb_eq.
Qed.

(** full cycles.  When a device is in max(1, F) + 1 successive scans, one of
    the max(1, F) generations between them is full for it: every delta is
    emitted, and the presence of the device with value 1. *)
Theorem netdev_metrics_full_cycle F inputs :
  (F <= MaxInt64)%Z ->
  exists os, run F inputs = Ret os /\
  forall k dev,
    (forall j, j <= Z.to_nat (Z.max 1 F) -> exists a q s, os !! (k + j) = Some (a, q) /\ scan_of a !! dev = Some s) ->
    exists j a qa b qb p c lines l1 l2, j < Z.to_nat (Z.max 1 F) /\
      os !! (k + j) = Some (a, qa) /\ os !! S (k + j) = Some (b, qb) /\
      scan_of a !! dev = Some p /\ scan_of b !! dev = Some c /\
      qb = Some (Queued (concat lines)) /\
      lines = l1 ++ dev_lines dev (Seconds (Sub (ts_of b) (ts_of a))) (ts_suffix (ts_of b)) true
                      (map (fun i => Some (delta c p i)) (seq 0 NUM)) ++ l2.
Proof.
  intros HF. destruct (run_spec F inputs HF) as (os & Hr & Hs). exists os. split; [done|].
  intros k dev Hin. set (M := Z.max 1 F) in *.
  assert (forall j, j < Z.to_nat M -> exists a qa b qb p c lines,
    os !! (k + j) = Some (a, qa) /\ os !! S (k + j) = Some (b, qb) /\
    scan_of a !! dev = Some p /\ scan_of b !! dev = Some c /\ qb = Some (Queued (concat lines)) /\
    map_Forall (info_ok F) (devInfoMap a) /\
    exists i', devInfoMap b !! dev = Some i' /\
      dev_done F (Seconds (Sub (ts_of b) (ts_of a))) (ts_suffix (ts_of b)) dev (devInfoMap a !! dev) c p i' lines) as Hstep.
  { intros j Hj. destruct (Hin j) as (a & qa & p & Ha & Hp); [lia|].
    destruct (Hin (S j)) as (b & qb & c & Hb & Hc); [lia|]. rewrite Nat.add_succ_r in Hb.
    destruct (Hs _ _ _ _ _ Ha Hb) as ([_ Hst] & Hsa & Hia). rewrite Hsa in Hst. destruct Hst as (lines & Hdev & _).
    destruct (Hdev dev c p Hc Hp) as (Hq & i' & Hi' & Hdd).
    exists a, qa, b, qb, p, c, lines. do 6 (split; [done|]). by exists i'. }
  assert (forall j a qa b qb p c lines i', os !! (k + j) = Some (a, qa) -> os !! S (k + j) = Some (b, qb) ->
    scan_of a !! dev = Some p -> scan_of b !! dev = Some c -> qb = Some (Queued (concat lines)) -> j < Z.to_nat M ->
    dev_done F (Seconds (Sub (ts_of b) (ts_of a))) (ts_suffix (ts_of b)) dev (devInfoMap a !! dev) c p i' lines ->
    is_full (devInfoMap a !! dev) = true ->
    exists j a qa b qb p c lines l1 l2, j < Z.to_nat M /\
      os !! (k + j) = Some (a, qa) /\ os !! S (k + j) = Some (b, qb) /\
      scan_of a !! dev = Some p /\ scan_of b !! dev = Some c /\ qb = Some (Queued (concat lines)) /\
      lines = l1 ++ dev_lines dev (Seconds (Sub (ts_of b) (ts_of a))) (ts_suffix (ts_of b)) true
                      (map (fun i => Some (delta c p i)) (seq 0 NUM)) ++ l2) as Hfin.
  { intros j a qa b qb p c lines i' Ha Hb Hp Hc Hq Hj (_ & _ & l1 & l2 & Hl) Hf.
    exists j, a, qa, b, qb, p, c, lines, l1, l2. do 6 (split; [done|]).
    rewrite Hl, Hf. do 3 f_equal. unfold emits. apply map_ext. intros i. unfold emit.
    rewrite Hf, orb_true_r. done. }
  destruct (Hstep 0) as (a0 & qa0 & b0 & qb0 & p0 & c0 & lines0 & Ha0 & Hb0 & Hp0 & Hc0 & Hq0 & Hia0 & i0 & Hi0 & Hd0); [lia|].
  destruct (devInfoMap a0 !! dev) as [i|] eqn:Ei; [|by eapply (Hfin 0); rewrite ?Ei; try done; lia].
  assert (0 <= cycleNum i < M)%Z as Hci by (apply (io_cycle _ _ _ (Hia0 dev i Ei))).
  (* the cycle number at each generation *)
  assert (forall j a qa, j < Z.to_nat M -> os !! (k + j) = Some (a, qa) ->
    exists ij, devInfoMap a !! dev = Some ij /\ cycleNum ij = ((cycleNum i + Z.of_nat j) mod M)%Z) as Hcyc.
  { induction j as [|j IH]; intros a qa Hj Ha.
    - rewrite Nat.add_0_r in *. simplify_eq. exists i. split; [done|]. rewrite Z.add_0_r, Z.mod_small by lia. done.
    - destruct (Hstep j) as (a1 & qa1 & b1 & qb1 & p1 & c1 & lines1 & Ha1 & Hb1 & _ & _ & _ & _ & i1 & Hi1 & Hd1); [lia|].
      rewrite Nat.add_succ_r in Ha. simplify_eq. destruct (IH a1 qa1) as (ij & Hij & Hcj); [lia|done|].
      exists i1. split; [done|]. destruct Hd1 as (_ & Hcn & _). rewrite (Hcn ij Hij), Hcj. fold M.
      rewrite Z.add_mod_idemp_l by lia. f_equal. lia. }
  set (j := Z.to_nat ((M - cycleNum i) mod M)).
  pose proof (Z.mod_pos_bound (M - cycleNum i) M ltac:(lia)) as Hjb.
  assert (j < Z.to_nat M) as Hj by (subst j; lia).
  destruct (Hstep j Hj) as (a & qa & b & qb & p & c & lines & Ha & Hb & Hp & Hc & Hq & _ & i' & _ & Hd).
  destruct (Hcyc j a qa Hj Ha) as (ij & Hij & Hcj).
  eapply (Hfin j); try done. rewrite Hij. simpl. rewrite Hcj. apply Z.eqb_eq. subst j.
  rewrite Z2Nat.id by lia. rewrite Z.add_mod_idemp_r by lia.
  replace (cycleNum i + (M - cycleNum i))%Z with M by lia. apply Z.mod_same. lia.
Qed.

(** presence.  When two successive scans have the same devices, after the
    second the generator keeps information about exactly these devices, and
    each device that it drops is reported with a presence of 0. *)
Theorem netdev_metrics_presence F inputs :
  (F <= MaxInt64)%Z ->
  exists os, run F inputs = Ret os /\
  forall k a qa b qb, os !! k = Some (a, qa) -> os !! S k = Some (b, qb) ->
    dom (scan_of b) = dom (scan_of a) -> scan_of a <> ∅ ->
    dom (devInfoMap b) = dom (scan_of b) /\
    exists lines, qb = Some (Queued (concat lines)) /\
      forall dev, dev ∈ dom (devInfoMap a) -> dev ∉ dom (scan_of b) ->
        line (dev_metric PROC_NET_DEV_PRESENCE_METRIC dev) (bs "0") (ts_suffix (ts_of b)) ∈ lines.
Proof.
  intros HF. destruct (run_spec F inputs HF) as (os & Hr & Hs). exists os. split; [done|].
  intros k a qa b qb Ha Hb Hdom Hne. destruct (Hs _ _ _ _ _ Ha Hb) as ([_ Hst] & Hsa & Hia).
  rewrite Hsa in Hst. destruct Hst as (lines & Hdev & Hpr). destruct (Hpr Hdom) as [Hd Hgone].
  split; [done|]. exists lines. split.
  - destruct (map_choose _ Hne) as (dev & p & Hp).
    assert (dev ∈ dom (scan_of b)) as [c Hc]%elem_of_dom by (rewrite Hdom; by eapply elem_of_dom_2).
    by destruct (Hdev dev c p Hc Hp) as [-> _].
  - intros dev [i Hi]%elem_of_dom Hn%not_elem_of_dom. rewrite <- (io_present _ _ _ (Hia dev i Hi)). by eapply Hgone.
Qed.
End generator.

(** ** A run on three contents of the file *)

Definition sample_order {A} (m : gmap bytes A) : list bytes := (map_to_list m).*1.

Lemma sample_order_ok {A} (m : gmap bytes A) :
  NoDup (sample_order m) /\ forall k, k ∈ sample_order m <-> is_Some (m !! k).
Proof.
  split; [apply NoDup_fst_map_to_list|]. intros k. unfold sample_order. rewrite list_elem_of_fmap. split.
  - intros ([k' v] & -> & H%elem_of_map_to_list). by exists v.
  - intros [v H]. exists (k, v). split; [done|]. by apply elem_of_map_to_list.
Qed.

Definition sample_content (rows : bytes) : read_result := ReadOk (hd [] NetDev.netDevValidHeaders ++ rows).
Definition sample_inputs : list (read_result * Time) :=
  [(sample_content (bs "  lo: 10 1 0 0 0 0 0 0 10 1 0 0 0 0 0 0
eth0: 5 1 0 0 0 0 0 0 7 1 0 0 0 0 0 0
"), mkTime 63000000000000000000 (Some 1000000000%Z));
   (sample_content (bs "  lo: 30 2 0 0 0 0 0 0 30 2 0 0 0 0 0 0
"), mkTime 63000000001000000000 (Some 2000000000%Z));
   (sample_content (bs "  lo: 30 2 0 0 0 0 0 0 30 2 0 0 0 0 0 0
"), mkTime 63000000002000000000 (Some 3000000000%Z))].

Abbreviation sample_run F :=
  (exec_run (bs "i") (bs "h") (bs "/proc/net/dev") sample_order sample_order sample_inputs (NewProcNetDevMetrics F) 0 ∅).

(** Each execution succeeds, and the second scan queues something. *)
Definition sample_shape (r : outcome (list (ProcNetDevMetrics * option queued))) : list bool :=
  match r with
  | Ret os => map (fun x => match x.2 with Some (Queued _) => true | _ => false end) os
  | _ => []
  end.

Lemma netdev_metrics_deltas_witness :
  exists os, sample_run 2 = Ret os /\ sample_shape (Ret os) = [false; true; true].
Proof.
  destruct (netdev_metrics_deltas (bs "i") (bs "h") (bs "/proc/net/dev") sample_order sample_order
    sample_order_ok sample_order_ok 2 sample_inputs) as (os & Hr & _); [vm_compute; discriminate|].
  exists os. split; [exact Hr|]. rewrite <- Hr. vm_compute. reflexivity.
Defined.

Lemma netdev_metrics_full_cycle_witness :
  exists os, sample_run 1 = Ret os /\ sample_shape (Ret os) = [false; true; true].
Proof.
  destruct (netdev_metrics_full_cycle (bs "i") (bs "h") (bs "/proc/net/dev") sample_order sample_order
    sample_order_ok sample_order_ok 1 sample_inputs) as (os & Hr & _); [vm_compute; discriminate|].
  exists os. split; [exact Hr|]. rewrite <- Hr. vm_compute. reflexivity.
Defined.

Lemma netdev_metrics_presence_witness :
  exists os, sample_run 2 = Ret os /\
    exists a qa b qb, os !! 1 = Some (a, qa) /\ os !! 2 = Some (b, qb) /\ dom (devInfoMap b) = dom (scan_of b).
Proof.
  destruct (netdev_metrics_presence (bs "i") (bs "h") (bs "/proc/net/dev") sample_order sample_order
    sample_order_ok sample_order_ok 2 sample_inputs) as (os & Hr & H); [vm_compute; discriminate|].
  exists os. split; [exact Hr|].
  assert (match sample_run 2 with
          | Ret os => match os !! 1, os !! 2 with
                      | Some (a, _), Some (b, _) => bool_decide (dom (scan_of b) = dom (scan_of a)) && bool_decide (scan_of a <> ∅)
                      | _, _ => false
                      end
          | _ => false
          end = true) as Hc by (vm_compute; reflexivity).
  rewrite Hr in Hc. destruct (os !! 1) as [[a qa]|] eqn:Ha; [|discriminate Hc].
  destruct (os !! 2) as [[b qb]|] eqn:Hb; [|discriminate Hc].
  apply andb_true_iff in Hc as [Hd%bool_decide_eq_true Hn%bool_decide_eq_true].
  exists a, qa, b, qb. split; [reflexivity|]. split; [reflexivity|].
  exact (proj1 (H 1 a qa b qb Ha Hb Hd Hn)).
Defined.

(** The text of the second buffer of the sample: a new device, in full. *)
Example sample_text :
  match sample_run 2 with
  | Ret (_ :: (_, Some (Queued buf)) :: _) =>
    take 54 buf = bs "proc_net_dev_rx_kbps{instance=" ++ [QUOTE] ++ bs "i" ++ [QUOTE] ++ bs ",hostname=" ++
                  [QUOTE] ++ bs "h" ++ [QUOTE] ++ bs ",dev=" ++ [QUOTE] ++ bs "lo"
  | _ => False
  end.
Proof. vm_compute. reflexivity. Qed.
End NetDevMetrics.
