(* ===== verification/InternalMetrics.v ===== *)
(** The internal metrics (src/lsvmi/internal_metrics.go and its parts for the
    scheduler, the compressor pool and the HTTP endpoint pool): snapshots into
    dual storage, deltas, the statistics of the other generators, the
    operating system metrics, and the generator's own counts.

    The lines of the Go runtime and of the process, and what the operating
    system and the build say about themselves, are arguments.  Where Go
    iterates over a map of tasks, compressors, URLs or generators the order is
    an argument; the small constant tables of names are in index order. *)

From Stdlib Require Import ZArith Lia.
From Stdlib Require Import Floats.SpecFloat.
From stdpp Require Import base tactics numbers strings gmap list.
From S2P Require Import Prelude Scan GoTime GoFloat MetricsCommon Scheduler EndpointPool Compressor.
Import MetricsCommon.

Module InternalMetrics.

(** ** Deltas of counters *)

Section text.
Context (instance hostname : bytes).

(** [updateMetricsCache] and the like: the metrics of one object, by index. *)
Definition cache_metrics (names : list (nat * bytes)) (ls : list (bytes * bytes)) : list (nat * bytes) :=
  map (fun x => (x.1, metric x.2 instance hostname ls)) names.

(** [for index, metric := range indexMetricMap]: the deltas, or the values when
    there is no previous snapshot. *)
Fixpoint gen_uint64 (tsSuffix : bytes) (metrics : list (nat * bytes)) (curr : list Z) (prev : option (list Z))
    : outcome (list bytes) :=
  match metrics with
  | [] => Ret []
  | (index, m) :: metrics =>
    val ← must (curr !! index);
    val ← match prev with
          | None => Ret val
          | Some prev => p ← must (prev !! index); Ret (u64 (val - p))
          end;
    lines ← gen_uint64 tsSuffix metrics curr prev;
    Ret (line m (FormatUint val) tsSuffix :: lines)
  end.

(** ** Scheduler *)

Definition TASK_STATS_TASK_ID_LABEL_NAME : bytes := bs "task_id".
Definition TASK_STATS_INTERVAL_AVG_RUNTIME_METRIC : bytes := bs "lsvmi_task_interval_avg_runtime_sec".
Definition taskStatsUint64DeltaMetricsNameMap : list (nat * bytes) := [
  (Scheduler.TASK_STATS_SCHEDULED_COUNT, bs "lsvmi_task_scheduled_delta");
  (Scheduler.TASK_STATS_DELAYED_COUNT, bs "lsvmi_task_delayed_delta");
  (Scheduler.TASK_STATS_OVERRUN_COUNT, bs "lsvmi_task_overrun_delta");
  (Scheduler.TASK_STATS_EXECUTED_COUNT, bs "lsvmi_task_executed_delta");
  (Scheduler.TASK_STATS_DEADLINE_HACK_COUNT, bs "lsvmi_task_deadline_hack_delta")].

Record SchedulerInternalMetrics := mkSched {
  s_stats : list (option (gmap bytes Scheduler.TaskStats));
  s_currIndex : nat;
  uint64DeltaMetricsCache : gmap bytes (list (nat * bytes));
  avgRuntimeMetricsCache : gmap bytes bytes
}.
Definition NewSchedulerInternalMetrics : SchedulerInternalMetrics := mkSched [None; None] 0 ∅ ∅.

Definition s_updateMetricsCache (taskId : bytes) (sim : SchedulerInternalMetrics) : SchedulerInternalMetrics :=
  let ls := [(TASK_STATS_TASK_ID_LABEL_NAME, taskId)] in
  mkSched (s_stats sim) (s_currIndex sim)
    (<[taskId := cache_metrics taskStatsUint64DeltaMetricsNameMap ls]> (uint64DeltaMetricsCache sim))
    (<[taskId := metric TASK_STATS_INTERVAL_AVG_RUNTIME_METRIC instance hostname ls]> (avgRuntimeMetricsCache sim)).

(** The average run time over the executions since the previous snapshot. *)
Definition runtime_avg (curr : Scheduler.TaskStats) (prev : option Scheduler.TaskStats) : outcome spec_float :=
  execCount ← must (Scheduler.Uint64Stats curr !! Scheduler.TASK_STATS_EXECUTED_COUNT);
  execCountDelta ← match prev with
                   | None => Ret execCount
                   | Some p => pc ← must (Scheduler.Uint64Stats p !! Scheduler.TASK_STATS_EXECUTED_COUNT);
                               Ret (u64 (execCount - pc))
                   end;
  if (0 <? execCountDelta)%Z then
    let runtimeDelta := match prev with
                        | None => Scheduler.RuntimeTotal curr
                        | Some p => i64 (Scheduler.RuntimeTotal curr - Scheduler.RuntimeTotal p)
                        end in
    Ret (f64_div (Seconds runtimeDelta) (f64_of_int execCountDelta))
  else Ret (S754_zero false).

Definition s_gen_task (tsSuffix : bytes) (curr : gmap bytes Scheduler.TaskStats)
    (prev : option (gmap bytes Scheduler.TaskStats)) (taskId : bytes) (sim : SchedulerInternalMetrics)
    : outcome (SchedulerInternalMetrics * list bytes) :=
  currTaskStats ← must (curr !! taskId);
  let prevTaskStats := prev ≫= (fun m => m !! taskId) in
  let sim := match uint64DeltaMetricsCache sim !! taskId with
             | Some _ => sim
             | None => s_updateMetricsCache taskId sim
             end in
  let metrics := default [] (uint64DeltaMetricsCache sim !! taskId) in
  l1 ← gen_uint64 tsSuffix metrics (Scheduler.Uint64Stats currTaskStats) (Scheduler.Uint64Stats <$> prevTaskStats);
  avg ← runtime_avg currTaskStats prevTaskStats;
  let m := default [] (avgRuntimeMetricsCache sim !! taskId) in
  Ret (sim, l1 ++ [line m (FormatFloat 6 avg) tsSuffix]).

(** Run a generator over the objects of a map. *)
Fixpoint gen_all {S} (gen : bytes -> S -> outcome (S * list bytes)) (ids : list bytes) (s : S) : outcome (S * list bytes) :=
  match ids with
  | [] => Ret (s, [])
  | id :: ids =>
    '(s, l1) ← gen id s;
    '(s, l2) ← gen_all gen ids s;
    Ret (s, l1 ++ l2)
  end.

(** [range] over a nil map does nothing. *)
Definition s_generateMetrics (order : gmap bytes Scheduler.TaskStats -> list bytes) (tsSuffix : bytes)
    (sim : SchedulerInternalMetrics) : outcome (SchedulerInternalMetrics * list bytes) :=
  currStats ← must (s_stats sim !! s_currIndex sim);
  prevStats ← must (s_stats sim !! (1 - s_currIndex sim));
  let curr := default ∅ currStats in
  '(sim, lines) ← gen_all (s_gen_task tsSuffix curr prevStats) (order curr) sim;
  Ret (mkSched (s_stats sim) (1 - s_currIndex sim) (uint64DeltaMetricsCache sim) (avgRuntimeMetricsCache sim), lines).

(** ** Compressor pool *)

Definition COMPRESSOR_ID_LABEL_NAME : bytes := bs "compressor".
Definition compressorStatsUint64DeltaMetricsNameMap : list (nat * bytes) := [
  (Compressor.COMPRESSOR_STATS_READ_COUNT, bs "lsvmi_compressor_read_delta");
  (Compressor.COMPRESSOR_STATS_READ_BYTE_COUNT, bs "lsvmi_compressor_read_byte_delta");
  (Compressor.COMPRESSOR_STATS_SEND_COUNT, bs "lsvmi_compressor_send_delta");
  (Compressor.COMPRESSOR_STATS_SEND_BYTE_COUNT, bs "lsvmi_compressor_send_byte_delta");
  (Compressor.COMPRESSOR_STATS_TIMEOUT_FLUSH_COUNT, bs "lsvmi_compressor_tout_flush_delta");
  (Compressor.COMPRESSOR_STATS_SEND_ERROR_COUNT, bs "lsvmi_compressor_send_error_delta");
  (Compressor.COMPRESSOR_STATS_WRITE_ERROR_COUNT, bs "lsvmi_compressor_write_error_delta")].
Definition COMPRESSOR_STATS_COMPRESSION_FACTOR_METRIC : bytes := bs "lsvmi_compressor_compression_factor".

Abbreviation CompressorPoolStats := (gmap bytes Compressor.CompressorStats).

Definition NewCompressorPoolStats (numCompressors : nat) : CompressorPoolStats :=
  list_to_map (map (fun i => (Itoa (Z.of_nat i), Compressor.NewCompressorStats)) (seq 0 numCompressors)).

(** [CompressorPool.SnapStats]; an id missing from [to] is a nil dereference. *)
Fixpoint snap_compressors (ids : list bytes) (from to : CompressorPoolStats) : outcome CompressorPoolStats :=
  match ids with
  | [] => Ret to
  | id :: ids =>
    f ← must (from !! id);
    t ← must (to !! id);
    snap_compressors ids from
      (<[id := Compressor.mkStats (copy (Compressor.Uint64Stats t) (Compressor.Uint64Stats f)) (Compressor.Float64Stats f)]> to)
  end.
Definition c_SnapStats (order : CompressorPoolStats -> list bytes) (numCompressors : nat)
    (from : option CompressorPoolStats) (to : option CompressorPoolStats) : outcome (option CompressorPoolStats) :=
  match from with
  | None => Ret None
  | Some from => to ← snap_compressors (order from) from (default (NewCompressorPoolStats numCompressors) to); Ret (Some to)
  end.

Record CompressorPoolInternalMetrics := mkComp {
  c_stats : list (option CompressorPoolStats);
  c_currIndex : nat;
  c_uint64DeltaMetricsCache : gmap bytes (list (nat * bytes));
  c_float64MetricsCache : gmap bytes bytes
}.
Definition NewCompressorPoolInternalMetrics : CompressorPoolInternalMetrics := mkComp [None; None] 0 ∅ ∅.

Definition c_updateMetricsCache (compressorId : bytes) (cpim : CompressorPoolInternalMetrics) : CompressorPoolInternalMetrics :=
  let ls := [(COMPRESSOR_ID_LABEL_NAME, compressorId)] in
  mkComp (c_stats cpim) (c_currIndex cpim)
    (<[compressorId := cache_metrics compressorStatsUint64DeltaMetricsNameMap ls]> (c_uint64DeltaMetricsCache cpim))
    (<[compressorId := metric COMPRESSOR_STATS_COMPRESSION_FACTOR_METRIC instance hostname ls]> (c_float64MetricsCache cpim)).

Definition c_gen_compressor (tsSuffix : bytes) (curr : CompressorPoolStats) (prev : option CompressorPoolStats)
    (id : bytes) (cpim : CompressorPoolInternalMetrics) : outcome (CompressorPoolInternalMetrics * list bytes) :=
  currStats ← must (curr !! id);
  let prevStats := prev ≫= (fun m => m !! id) in
  let cpim := match c_uint64DeltaMetricsCache cpim !! id with Some _ => cpim | None => c_updateMetricsCache id cpim end in
  l1 ← gen_uint64 tsSuffix (default [] (c_uint64DeltaMetricsCache cpim !! id))
         (Compressor.Uint64Stats currStats) (Compressor.Uint64Stats <$> prevStats);
  let l2 := match c_float64MetricsCache cpim !! id with
            | Some m => [line m (FormatFloat 3 (Compressor.Float64Stats currStats)) tsSuffix]
            | None => []
            end in
  Ret (cpim, l1 ++ l2).

Definition c_generateMetrics (order : CompressorPoolStats -> list bytes) (tsSuffix : bytes)
    (cpim : CompressorPoolInternalMetrics) : outcome (CompressorPoolInternalMetrics * list bytes) :=
  currStats ← must (c_stats cpim !! c_currIndex cpim);
  prevStats ← must (c_stats cpim !! (1 - c_currIndex cpim));
  let curr := default ∅ currStats in
  '(cpim, lines) ← gen_all (c_gen_compressor tsSuffix curr prevStats) (order curr) cpim;
  Ret (mkComp (c_stats cpim) (1 - c_currIndex cpim) (c_uint64DeltaMetricsCache cpim) (c_float64MetricsCache cpim), lines).

(** ** HTTP endpoint pool *)

Definition HTTP_ENDPOINT_URL_LABEL_NAME : bytes := bs "url".
Definition httpEndpointStatsDeltaMetricsNameMap : list (nat * bytes) := [
  (EndpointPool.HTTP_ENDPOINT_STATS_SEND_BUFFER_COUNT, bs "lsvmi_http_ep_send_buffer_delta");
  (EndpointPool.HTTP_ENDPOINT_STATS_SEND_BUFFER_BYTE_COUNT, bs "lsvmi_http_ep_send_buffer_byte_delta");
  (EndpointPool.HTTP_ENDPOINT_STATS_SEND_BUFFER_ERROR_COUNT, bs "lsvmi_http_ep_send_buffer_error_delta");
  (EndpointPool.HTTP_ENDPOINT_STATS_HEALTH_CHECK_COUNT, bs "lsvmi_http_ep_healthcheck_delta");
  (EndpointPool.HTTP_ENDPOINT_STATS_HEALTH_CHECK_ERROR_COUNT, bs "lsvmi_http_ep_healthcheck_error_delta")].
Definition httpEndpointStatsMetricsNameMap : list (nat * bytes) :=
  [(EndpointPool.HTTP_ENDPOINT_STATS_STATE, bs "lsvmi_http_ep_state")].
Definition httpEndpointPoolStatsDeltaMetricsNameMap : list (nat * bytes) :=
  [(EndpointPool.HTTP_ENDPOINT_POOL_STATS_NO_HEALTHY_EP_ERROR_COUNT, bs "lsvmi_http_ep_pool_no_healthy_ep_error_delta")].
Definition httpEndpointPoolStatsMetricsNameMap : list (nat * bytes) :=
  [(EndpointPool.HTTP_ENDPOINT_POOL_STATS_HEALTHY_ROTATE_COUNT, bs "lsvmi_http_ep_pool_healthy_rotate_count")].

Record HttpEndpointPoolInternalMetrics := mkEp {
  e_stats : list (option EndpointPool.HttpEndpointPoolStats);
  e_currIndex : nat;
  httpEndpointDeltaMetricsCache : gmap bytes (list (nat * bytes));
  httpEndpointMetricsCache : gmap bytes (list (nat * bytes));
  httpEndpointPoolDeltaMetricsCache : option (list (nat * bytes));
  httpEndpointPoolMetricsCache : option (list (nat * bytes))
}.
Definition NewHttpEndpointPoolInternalMetrics : HttpEndpointPoolInternalMetrics := mkEp [None; None] 0 ∅ ∅ None None.

Definition updatePoolMetricsCache (e : HttpEndpointPoolInternalMetrics) : HttpEndpointPoolInternalMetrics :=
  mkEp (e_stats e) (e_currIndex e) (httpEndpointDeltaMetricsCache e) (httpEndpointMetricsCache e)
    (Some (cache_metrics httpEndpointPoolStatsDeltaMetricsNameMap []))
    (Some (cache_metrics httpEndpointPoolStatsMetricsNameMap [])).

Definition updateEPMetricsCache (url : bytes) (e : HttpEndpointPoolInternalMetrics) : HttpEndpointPoolInternalMetrics :=
  let ls := [(HTTP_ENDPOINT_URL_LABEL_NAME, url)] in
  mkEp (e_stats e) (e_currIndex e)
    (<[url := cache_metrics httpEndpointStatsDeltaMetricsNameMap ls]> (httpEndpointDeltaMetricsCache e))
    (<[url := cache_metrics httpEndpointStatsMetricsNameMap ls]> (httpEndpointMetricsCache e))
    (httpEndpointPoolDeltaMetricsCache e) (httpEndpointPoolMetricsCache e).

Definition e_gen_url (tsSuffix : bytes) (curr : gmap bytes (list Z)) (prev : option EndpointPool.HttpEndpointPoolStats)
    (url : bytes) (e : HttpEndpointPoolInternalMetrics) : outcome (HttpEndpointPoolInternalMetrics * list bytes) :=
  currEPStats ← must (curr !! url);
  let prevEPStats := prev ≫= (fun p => EndpointPool.EndpointStats p !! url) in
  let e := match httpEndpointDeltaMetricsCache e !! url with Some _ => e | None => updateEPMetricsCache url e end in
  l1 ← gen_uint64 tsSuffix (default [] (httpEndpointDeltaMetricsCache e !! url)) currEPStats prevEPStats;
  l2 ← gen_uint64 tsSuffix (default [] (httpEndpointMetricsCache e !! url)) currEPStats None;
  Ret (e, l1 ++ l2).

(** A nil current snapshot is a nil dereference. *)
Definition e_generateMetrics (order : gmap bytes (list Z) -> list bytes) (tsSuffix : bytes)
    (e : HttpEndpointPoolInternalMetrics) : outcome (HttpEndpointPoolInternalMetrics * list bytes) :=
  curr ← must (e_stats e !! e_currIndex e);
  prev ← must (e_stats e !! (1 - e_currIndex e));
  curr ← must curr;
  let e := match httpEndpointPoolDeltaMetricsCache e with Some _ => e | None => updatePoolMetricsCache e end in
  l1 ← gen_uint64 tsSuffix (default [] (httpEndpointPoolDeltaMetricsCache e))
         (EndpointPool.PoolStats curr) (EndpointPool.PoolStats <$> prev);
  l2 ← gen_uint64 tsSuffix (default [] (httpEndpointPoolMetricsCache e)) (EndpointPool.PoolStats curr) None;
  '(e, l3) ← gen_all (e_gen_url tsSuffix (EndpointPool.EndpointStats curr) prev) (order (EndpointPool.EndpointStats curr)) e;
  Ret (mkEp (e_stats e) (1 - e_currIndex e) (httpEndpointDeltaMetricsCache e) (httpEndpointMetricsCache e)
         (httpEndpointPoolDeltaMetricsCache e) (httpEndpointPoolMetricsCache e), l1 ++ l2 ++ l3).

(** ** The generator *)

Definition INTERNAL_METRICS_ID : bytes := bs "internal_metrics".
Definition LSVMI_UPTIME_METRIC : bytes := bs "lsvmi_uptime_sec".
Definition LSVMI_INTERNAL_METRICS_INTERVAL_METRIC : bytes := bs "lsvmi_internal_metrics_delta_sec".
Definition OS_INFO_METRIC : bytes := bs "os_info".
Definition OS_BTIME_METRIC : bytes := bs "os_btime_sec".
Definition OS_UPTIME_METRIC : bytes := bs "os_uptime_sec".
Definition OsInfoLinuxOSReleaseKeys : list bytes :=
  [bs "ID"; bs "NAME"; bs "PRETTY_NAME"; bs "VERSION"; bs "VERSION_CODENAME"; bs "VERSION_ID"].
Definition METRICS_GENERATOR_ID_LABEL_NAME : bytes := bs "id".
Definition MetricsGeneratorStatsMetricsNameMap : list bytes := [
  bs "lsvmi_metrics_gen_invocation_delta"; bs "lsvmi_metrics_gen_actual_metrics_delta";
  bs "lsvmi_metrics_gen_total_metrics_delta"; bs "lsvmi_metrics_gen_bytes_delta"].

(** What the build and the operating system say about themselves. *)
Record environment := mkEnv {
  Version : bytes; GitInfo : bytes;
  OSName : bytes; OSRelease : bytes; OSMachine : bytes; OSReleaseVer : list Z;
  LinuxOsRelease : bytes -> bytes;
  OSBtime : Time
}.
Context (env : environment).

Record InternalMetrics := mkInternal {
  prevTs : Time;
  startTs : Time;
  uptimeMetric : option bytes;
  osInfoMetric : option bytes;
  osBtimeMetric : bytes;
  osUptimeMetric : bytes;
  osCycleNum : Z;
  osMetricsFactor : Z;
  intervalMetric : option bytes;
  schedulerMetrics : SchedulerInternalMetrics;
  compressorPoolMetrics : CompressorPoolInternalMetrics;
  httpEndpointPoolMetrics : HttpEndpointPoolInternalMetrics;
  metricsGenStats : MetricsGeneratorStats;
  metricsGenStatsMetricsCache : gmap bytes (list bytes)
}.

Definition NewInternalMetrics (osMetricsFactor : Z) (now now2 : Time) : InternalMetrics :=
  mkInternal now now2 None None [] [] 0 osMetricsFactor None
    NewSchedulerInternalMetrics NewCompressorPoolInternalMetrics NewHttpEndpointPoolInternalMetrics ∅ ∅.

Definition updateUptimeMetric : bytes :=
  metric LSVMI_UPTIME_METRIC instance hostname [(bs "version", Version env); (bs "gitinfo", GitInfo env)].
Definition updateIntervalMetric : bytes := metric LSVMI_INTERNAL_METRICS_INTERVAL_METRIC instance hostname [].

(** The version numbers, dot separated. *)
Fixpoint dotted (vs : list Z) : bytes :=
  match vs with
  | [] => []
  | [v] => Itoa v
  | v :: vs => Itoa v ++ bs "." ++ dotted vs
  end.

(** [updateOsMetrics]: the info and boot time metrics include the value. *)
Definition os_info_metric : bytes :=
  metric OS_INFO_METRIC instance hostname
    ([(bs "sys_name", OSName env); (bs "sys_release", OSRelease env); (bs "sys_arch", OSMachine env);
      (bs "sys_version", dotted (OSReleaseVer env))] ++
     map (fun k => (k, LinuxOsRelease env k)) OsInfoLinuxOSReleaseKeys) ++ bs "1".
Definition updateOsMetrics (im : InternalMetrics) (icm : Z) : InternalMetrics * Z :=
  let '(cn, icm) := InitialCycleNum_Get (osMetricsFactor im) icm in
  (mkInternal (prevTs im) (startTs im) (uptimeMetric im) (Some os_info_metric)
     (metric OS_BTIME_METRIC instance hostname [] ++ Itoa (UnixMilli (OSBtime env) / 1000))
     (metric OS_UPTIME_METRIC instance hostname []) cn (osMetricsFactor im) (intervalMetric im)
     (schedulerMetrics im) (compressorPoolMetrics im) (httpEndpointPoolMetrics im)
     (metricsGenStats im) (metricsGenStatsMetricsCache im), icm).

Definition updateMetricsCache (id : bytes) : list bytes :=
  map (fun name => metric name instance hostname [(METRICS_GENERATOR_ID_LABEL_NAME, id)]) MetricsGeneratorStatsMetricsNameMap.

(** [for indx, val := range metricsGenStats]. *)
Fixpoint gen_values (tsSuffix : bytes) (metrics : list bytes) (indx : nat) (vals : list Z) : outcome (list bytes) :=
  match vals with
  | [] => Ret []
  | val :: vals =>
    m ← must (metrics !! indx);
    lines ← gen_values tsSuffix metrics (S indx) vals;
    Ret (line m (FormatUint val) tsSuffix :: lines)
  end.

(** The statistics of one generator, with the cache of its metrics. *)
Definition gen_generator (tsSuffix : bytes) (stats : MetricsGeneratorStats) (id : bytes) (cache : gmap bytes (list bytes))
    : outcome (gmap bytes (list bytes) * list bytes) :=
  vals ← must (stats !! id);
  let cache := match cache !! id with Some _ => cache | None => <[id := updateMetricsCache id]> cache end in
  lines ← gen_values tsSuffix (default [] (cache !! id)) 0 vals;
  Ret (cache, lines).

(** The size of the buffer with the digits of that size in it: the loop
    [for pow10 <= n { n++; pow10 *= 10 }]; the fuel bounds the digits. *)
Fixpoint own_size (fuel : nat) (pow10 n : Z) : outcome Z :=
  match fuel with
  | O => NoFuel
  | S fuel => if (pow10 <=? n)%Z then own_size fuel (i64 (pow10 * 10)) (i64 (n + 1)) else Ret n
  end.

(** "Update by hand own generator metrics": what is appended to [buf]. *)
Definition own_metrics (tsSuffix : bytes) (metrics : list bytes) (metricsCount : Z) (buf : bytes) : outcome bytes :=
  m0 ← must (metrics !! METRICS_GENERATOR_INVOCATION_COUNT);
  let buf := buf ++ line m0 (bs "1") tsSuffix in
  let count := Itoa (metricsCount + Z.of_nat METRICS_GENERATOR_NUM_STATS) in
  m1 ← must (metrics !! METRICS_GENERATOR_ACTUAL_METRICS_COUNT);
  let buf := buf ++ line m1 count tsSuffix in
  m2 ← must (metrics !! METRICS_GENERATOR_TOTAL_METRICS_COUNT);
  let buf := buf ++ line m2 count tsSuffix in
  m3 ← must (metrics !! METRICS_GENERATOR_BYTES_COUNT);
  let buf := buf ++ m3 in
  let l := (Z.of_nat (length buf) + Z.of_nat (length tsSuffix) + 1)%Z in
  n ← own_size 20 10 (l + 1);
  Ret (buf ++ Itoa n ++ tsSuffix ++ [NL]).

(** What the generator finds when it is executed: the statistics of the
    scheduler, of the compressors and of the endpoints ([None] when there is no
    such pool), the lines of the Go runtime and of the process, the time. *)
Record sources := mkSources {
  schedulerStats : option (gmap bytes Scheduler.TaskStats);
  compressorStats : option (nat * option CompressorPoolStats);
  endpointStats : option (option EndpointPool.HttpEndpointPoolStats);
  goLines : list bytes;
  processLines : list bytes;
  ts : Time;
  osUptime : Z
}.

(** The orders of iteration over the maps. *)
Record orders := mkOrders {
  o_tasks : gmap bytes Scheduler.TaskStats -> list bytes;
  o_compressors : CompressorPoolStats -> list bytes;
  o_urls : gmap bytes (list Z) -> list bytes;
  o_gens : MetricsGeneratorStats -> list bytes
}.

(** [Execute]: the buffer that is queued, and the state of the initial cycle
    number and of the statistics of the generators. *)
Definition Execute (o : orders) (src : sources) (im : InternalMetrics) (icm : Z) (mgs : MetricsGeneratorStats)
    : outcome (InternalMetrics * Z * MetricsGeneratorStats * bytes) :=
  (* collect *)
  let sim := schedulerMetrics im in
  sOld ← must (s_stats sim !! s_currIndex sim);
  sStats ← store (s_stats sim) (s_currIndex sim) (Scheduler.SnapStats (schedulerStats src) sOld);
  let sim := mkSched sStats (s_currIndex sim) (uint64DeltaMetricsCache sim) (avgRuntimeMetricsCache sim) in
  let cpim := compressorPoolMetrics im in
  cpim ← match compressorStats src with
         | None => Ret cpim
         | Some (numCompressors, from) =>
           cOld ← must (c_stats cpim !! c_currIndex cpim);
           snap ← c_SnapStats (o_compressors o) numCompressors from cOld;
           cStats ← store (c_stats cpim) (c_currIndex cpim) snap;
           Ret (mkComp cStats (c_currIndex cpim) (c_uint64DeltaMetricsCache cpim) (c_float64MetricsCache cpim))
         end;
  let eppim := httpEndpointPoolMetrics im in
  eppim ← match endpointStats src with
          | None => Ret eppim
          | Some from =>
            eOld ← must (e_stats eppim !! e_currIndex eppim);
            eStats ← store (e_stats eppim) (e_currIndex eppim) (EndpointPool.SnapStats from eOld);
            Ret (mkEp eStats (e_currIndex eppim) (httpEndpointDeltaMetricsCache eppim) (httpEndpointMetricsCache eppim)
                   (httpEndpointPoolDeltaMetricsCache eppim) (httpEndpointPoolMetricsCache eppim))
          end;
  let '(genStats, mgs) := SnapStats (metricsGenStats im) true mgs in
  let tsSuffix := ts_suffix (ts src) in
  (* generate *)
  let um := default updateUptimeMetric (uptimeMetric im) in
  let l1 := line um (FormatFloat 6 (Seconds (Sub (ts src) (startTs im)))) tsSuffix in
  let itm := default updateIntervalMetric (intervalMetric im) in
  let l2 := line itm (FormatFloat 6 (Seconds (Sub (ts src) (prevTs im)))) tsSuffix in
  '(sim, sLines) ← s_generateMetrics (o_tasks o) tsSuffix sim;
  '(cpim, cLines) ← match compressorStats src with
                    | None => Ret (cpim, [])
                    | Some _ => c_generateMetrics (o_compressors o) tsSuffix cpim
                    end;
  '(eppim, eLines) ← match endpointStats src with
                     | None => Ret (eppim, [])
                     | Some _ => e_generateMetrics (o_urls o) tsSuffix eppim
                     end;
  '(cache, gLines) ← gen_all (gen_generator tsSuffix genStats) (o_gens o genStats) (metricsGenStatsMetricsCache im);
  let counted := [l1; l2] ++ sLines ++ cLines ++ eLines ++ goLines src in
  let noOsMetrics := match osInfoMetric im with None => true | Some _ => false end in
  let '(im, icm) := if noOsMetrics then updateOsMetrics im icm else (im, icm) in
  let osLines := if noOsMetrics || (osCycleNum im =? 0)%Z
                 then [default [] (osInfoMetric im) ++ tsSuffix; osBtimeMetric im ++ tsSuffix] else [] in
  let upLine := line (osUptimeMetric im) (FormatFloat 0 (Seconds (osUptime src))) tsSuffix in
  let metricsCount := Z.of_nat (length (counted ++ gLines ++ osLines ++ [upLine])) in
  let buf := concat (counted ++ processLines src ++ gLines ++ osLines ++ [upLine]) in
  let cache := match cache !! INTERNAL_METRICS_ID with
               | Some _ => cache
               | None => <[INTERNAL_METRICS_ID := updateMetricsCache INTERNAL_METRICS_ID]> cache
               end in
  buf ← own_metrics tsSuffix (default [] (cache !! INTERNAL_METRICS_ID)) metricsCount buf;
  Ret (mkInternal (ts src) (startTs im) (Some um) (osInfoMetric im) (osBtimeMetric im) (osUptimeMetric im)
         (next_cycle (osMetricsFactor im) (osCycleNum im)) (osMetricsFactor im) (Some itm) sim cpim eppim genStats cache,
       icm, mgs, buf).

(** ** The generator's own byte count *)

Lemma own_size_spec fuel k l :
  (1 <= k)%Z -> (0 <= l)%Z -> (10 ^ (k - 1) <= l + k)%Z -> (l + 1 < 10 ^ 17)%Z ->
  (k <= 18)%Z -> (18 - k < Z.of_nat fuel)%Z ->
  exists n, own_size fuel (10 ^ k) (l + k) = Ret n /\ n = (l + Z.of_nat (length (FormatUint n)))%Z /\ (0 <= n)%Z.
Proof.
  revert k. induction fuel as [|fuel IH]; intros k Hk Hl Hlo Hmax Hk18 Hf; [lia|]. cbn [own_size].
  destruct (10 ^ k <=? l + k)%Z eqn:E.
  - assert (k < 18)%Z as Hk17.
    { destruct (decide (k = 18%Z)) as [->|]; [exfalso; change (10 ^ 18)%Z with 1000000000000000000%Z in E;
        change (10 ^ 17)%Z with 100000000000000000%Z in Hmax; lia|lia]. }
    assert (10 ^ k * 10 = 10 ^ (k + 1))%Z as Hp by (rewrite Z.pow_add_r by lia; lia).
    assert (10 ^ (k + 1) <= 10 ^ 18)%Z as Hle by (apply Z.pow_le_mono_r; lia).
    change (10 ^ 18)%Z with 1000000000000000000%Z in Hle. change (10 ^ 17)%Z with 100000000000000000%Z in Hmax.
    assert (0 < 10 ^ (k + 1))%Z by (apply Z.pow_pos_nonneg; lia).
    rewrite Hp, !i64_small by (unfold MinInt64, MaxInt64; lia). rewrite <- Z.add_assoc.
    apply IH; [lia|lia| |done|lia|lia]. replace (k + 1 - 1)%Z with k by lia. lia.
  - exists (l + k)%Z. split; [done|]. assert (0 <= l + k)%Z by lia. split; [|done].
    destruct (FormatUint_spec (l + k)%Z) as (_ & _ & Hu & Hlw & _); [done|]. destruct Hlw as [?|Hlw]; [lia|].
    set (d := Z.of_nat (length (FormatUint (l + k)))) in *.
    assert (0 < d)%Z as Hd.
    { subst d. destruct (FormatUint_spec (l + k)%Z) as ([Hne _] & _); [done|]. destruct (FormatUint (l + k)); [done|simpl; lia]. }
    f_equal. apply Z.le_antisymm.
    + apply Z.lt_succ_r. assert (10 ^ (k - 1) < 10 ^ d)%Z as Hlt by lia.
      apply Z.pow_lt_mono_r_iff in Hlt; lia.
    + apply Z.lt_succ_r. assert (10 ^ (d - 1) < 10 ^ k)%Z as Hlt by lia.
      apply Z.pow_lt_mono_r_iff in Hlt; lia.
Qed.

(** the byte count of the internal metrics.  The last metric of the buffer,
    the number of bytes generated, is the exact size of the buffer, its own
    digits included, for buffers up to 10^16 bytes. *)
Theorem internal_byte_count_exact tsSuffix id metricsCount buf :
  (Z.of_nat (length buf + 4 * length tsSuffix + 4 * length (concat (updateMetricsCache id))) +
    2 * Z.of_nat (length (Itoa (metricsCount + 4))) < 10 ^ 16)%Z ->
  exists pre n, own_metrics tsSuffix (updateMetricsCache id) metricsCount buf =
      Ret (pre ++ Itoa n ++ tsSuffix ++ [NL]) /\
    n = Z.of_nat (length (pre ++ Itoa n ++ tsSuffix ++ [NL])) /\
    exists body, pre = buf ++ body.
Proof.
  intros Hsz. unfold own_metrics.
  destruct (updateMetricsCache id) as [|m0 [|m1 [|m2 [|m3 [|]]]]] eqn:Em; try discriminate Em.
  cbn [must lookup list_lookup METRICS_GENERATOR_INVOCATION_COUNT METRICS_GENERATOR_ACTUAL_METRICS_COUNT
       METRICS_GENERATOR_TOTAL_METRICS_COUNT METRICS_GENERATOR_BYTES_COUNT]. rewrite !bind_ret.
  set (cnt := Itoa (metricsCount + Z.of_nat METRICS_GENERATOR_NUM_STATS)).
  set (pre := (((buf ++ line m0 (bs "1") tsSuffix) ++ line m1 cnt tsSuffix) ++ line m2 cnt tsSuffix) ++ m3).
  set (l := (Z.of_nat (length pre) + Z.of_nat (length tsSuffix) + 1)%Z).
  assert (l + 1 < 10 ^ 17)%Z as Hl.
  { change (Itoa (metricsCount + 4)) with cnt in Hsz.
    subst l pre. unfold line. simpl in Hsz. rewrite !length_app in *. simpl length in *.
    change (10 ^ 16)%Z with 10000000000000000%Z in Hsz. change (10 ^ 17)%Z with 100000000000000000%Z. lia. }
  destruct (own_size_spec 20 1 l) as (n & Hn & Hlen & Hn0); [lia|lia|simpl; lia|done|lia|lia|].
  change (10 ^ 1)%Z with 10%Z in Hn. rewrite Hn, bind_ret. exists pre, n. split; [done|].
  assert (Itoa n = FormatUint n) as Hi by (unfold Itoa; rewrite (proj2 (Z.ltb_ge _ _)); [done|lia]).
  rewrite Hi. split.
  - rewrite Hlen at 1. subst l. rewrite !length_app. simpl. lia.
  - exists (line m0 (bs "1") tsSuffix ++ line m1 cnt tsSuffix ++ line m2 cnt tsSuffix ++ m3).
    subst pre. by rewrite <- !app_assoc.
Qed.

(** ** The statistics of the other generators *)

Lemma gen_all_lines {S} (gen : bytes -> S -> outcome (S * list bytes)) (P : S -> Prop) ids s s' lines :
  (forall id s s' l, P s -> gen id s = Ret (s', l) -> P s') ->
  P s -> gen_all gen ids s = Ret (s', lines) ->
  P s' /\ forall id, id ∈ ids -> exists s1 s2 l l1 l2, P s1 /\ gen id s1 = Ret (s2, l) /\ lines = l1 ++ l ++ l2.
Proof.
  intros Hgen. revert s lines. induction ids as [|x ids IH]; intros s lines HP H; cbn [gen_all] in H.
  - injection H as <- <-. split; [done|]. set_solver.
  - apply bind_Ret_inv in H as ([sa la] & Hx & H). apply bind_Ret_inv in H as ([sb lb] & Hr & H).
    injection H as <- <-. destruct (IH sa lb) as [HP' Hin]; [by eapply Hgen|done|]. split; [done|].
    intros id [->|Hid]%elem_of_cons.
    + by exists s, sa, la, [], lb.
    + destruct (Hin id Hid) as (s1 & s2 & l & l1 & l2 & Hp1 & Hg & ->).
      exists s1, s2, l, (la ++ l1), l2. by rewrite <- app_assoc.
Qed.

(** [x] is a part of [buf]. *)
Definition within (x buf : bytes) : Prop := exists b1 b2, buf = b1 ++ x ++ b2.

Lemma within_refl x : within x x.
Proof. exists [], []. by rewrite app_nil_r. Qed.
Lemma within_l x a b : within x a -> within x (a ++ b).
Proof. intros (b1 & b2 & ->). exists b1, (b2 ++ b). by rewrite <- !app_assoc. Qed.
Lemma within_r x a b : within x b -> within x (a ++ b).
Proof. intros (b1 & b2 & ->). exists (a ++ b1), b2. by rewrite <- !app_assoc. Qed.

Ltac find_within :=
  first [ apply within_refl | apply within_l; find_within | apply within_r; find_within ].

Definition gen_lines (tsSuffix id : bytes) (vals : list Z) : list bytes :=
  zip_with (fun m v => line m (FormatUint v) tsSuffix) (updateMetricsCache id) vals.

Lemma gen_values_zip tsSuffix metrics indx vals :
  length vals <= length (drop indx metrics) ->
  gen_values tsSuffix metrics indx vals = Ret (zip_with (fun m v => line m (FormatUint v) tsSuffix) (drop indx metrics) vals).
Proof.
  revert indx. induction vals as [|v vals IH]; intros indx Hl; cbn [gen_values].
  - by destruct (drop indx metrics).
  - simpl in Hl. destruct (drop indx metrics) as [|m ms] eqn:Ed; [simpl in Hl; lia|].
    assert (metrics !! indx = Some m) as Hm.
    { rewrite <- (Nat.add_0_r indx), <- lookup_drop, Ed. done. }
    rewrite Hm. cbn [must]. rewrite bind_ret.
    assert (drop (S indx) metrics = ms) as Hd by (rewrite <- Nat.add_1_r, <- drop_drop, Ed; done).
    rewrite IH, Hd by (rewrite Hd; simpl in Hl; lia). done.
Qed.

Definition cache_ok (cache : gmap bytes (list bytes)) : Prop :=
  map_Forall (fun id ms => ms = updateMetricsCache id) cache.

Lemma cache_ok_insert id cache : cache_ok cache -> cache_ok (<[id := updateMetricsCache id]> cache).
Proof. intros. by apply map_Forall_insert_2. Qed.

Lemma gen_generator_inv tsSuffix stats id cache cache' lines :
  cache_ok cache -> gen_generator tsSuffix stats id cache = Ret (cache', lines) ->
  cache_ok cache' /\ forall vals, stats !! id = Some vals -> length vals = METRICS_GENERATOR_NUM_STATS ->
    lines = gen_lines tsSuffix id vals.
Proof.
  intros Hc H. unfold gen_generator in H. destruct (stats !! id) as [vals|] eqn:Es; [|done].
  cbn [must] in H. rewrite bind_ret in H.
  set (c2 := match cache !! id with Some _ => cache | None => _ end) in H.
  assert (cache_ok c2 /\ c2 !! id = Some (updateMetricsCache id)) as [Hc2 Hl].
  { subst c2. destruct (cache !! id) as [ms|] eqn:Ec.
    - split; [done|]. rewrite Ec. f_equal. by apply (Hc id).
    - split; [by apply cache_ok_insert|]. by rewrite lookup_insert_eq. }
  rewrite Hl in H. cbn [default] in H. apply bind_Ret_inv in H as (ls & Hg & H). injection H as <- <-.
  split; [done|]. intros vals' [= <-] Hlen. rewrite gen_values_zip in Hg; [by injection Hg as <-|].
  simpl. rewrite Hlen. vm_compute. lia.
Qed.

Lemma Execute_gen o src im icm mgs im' icm' mgs' buf :
  cache_ok (metricsGenStatsMetricsCache im) -> Execute o src im icm mgs = Ret (im', icm', mgs', buf) ->
  let snap := (SnapStats (metricsGenStats im) true mgs).1 in
  metricsGenStats im' = snap /\ mgs' = ∅ /\ cache_ok (metricsGenStatsMetricsCache im') /\
  forall id vals, id ∈ o_gens o snap -> snap !! id = Some vals -> length vals = METRICS_GENERATOR_NUM_STATS ->
    within (concat (gen_lines (ts_suffix (ts src)) id vals)) buf.
Proof.
  intros Hc H. unfold Execute in H.
  apply bind_Ret_inv in H as (sOld & _ & H). apply bind_Ret_inv in H as (sStats & _ & H).
  apply bind_Ret_inv in H as (cp1 & _ & H). apply bind_Ret_inv in H as (ep1 & _ & H).
  destruct (SnapStats (metricsGenStats im) true mgs) as [snap left] eqn:Es.
  assert (left = ∅) as -> by (unfold SnapStats in Es; by injection Es).
  apply bind_Ret_inv in H as ([sim sLines] & _ & H). apply bind_Ret_inv in H as ([cp2 cLines] & _ & H).
  apply bind_Ret_inv in H as ([ep2 eLines] & _ & H). apply bind_Ret_inv in H as ([cache gLines] & Hg & H).
  destruct (gen_all_lines (gen_generator (ts_suffix (ts src)) snap) cache_ok _ _ _ _
    (fun id s s' l Hs Hgg => proj1 (gen_generator_inv _ _ _ _ _ _ Hs Hgg)) Hc Hg) as [Hcache Hlines].
  destruct (if _ : bool then updateOsMetrics im icm else (im, icm)) as [im2 icm2].
  apply bind_Ret_inv in H as (buf2 & Hown & H). cbn [fst]. injection H as <- <- <- <-.
  cbn [metricsGenStats metricsGenStatsMetricsCache]. split; [done|]. split; [done|]. split.
  { destruct (cache !! INTERNAL_METRICS_ID); [done|by apply cache_ok_insert]. }
  intros id vals Hid Hv Hlen. destruct (Hlines id Hid) as (s1 & s2 & l & l1 & l2 & Hs1 & Hgg & ->).
  destruct (gen_generator_inv _ _ _ _ _ _ Hs1 Hgg) as [_ Hl]. rewrite (Hl vals Hv Hlen) in *.
  unfold own_metrics in Hown. repeat (apply bind_Ret_inv in Hown as (? & _ & Hown)). injection Hown as <-.
  rewrite !concat_app. find_within.
Qed.

(** the counts of an idle generator are sent again.  When a generator was
    invoked before one execution of the internal metrics and not between this
    one and the next, the next execution sends its invocation, metrics and byte
    counts again, as if it had been invoked the same number of times. *)
Theorem internal_gen_stats_repeat o1 o2 src1 src2 im icm mgs im1 icm1 mgs1 buf1 mgs2 im2 icm2 mgs3 buf2 id vals :
  cache_ok (metricsGenStatsMetricsCache im) -> gen_wf (metricsGenStats im) -> gen_wf mgs -> gen_wf mgs2 ->
  (forall m k, is_Some (m !! k) -> k ∈ o_gens o1 m /\ k ∈ o_gens o2 m) ->
  Execute o1 src1 im icm mgs = Ret (im1, icm1, mgs1, buf1) ->
  Execute o2 src2 im1 icm1 mgs2 = Ret (im2, icm2, mgs3, buf2) ->
  mgs !! id = Some vals -> mgs2 !! id = None ->
  within (concat (gen_lines (ts_suffix (ts src1)) id vals)) buf1 /\
  within (concat (gen_lines (ts_suffix (ts src2)) id vals)) buf2.
Proof.
  intros Hc Hw Hm Hm2 Ho H1 H2 Hid Hnone.
  destruct (Execute_gen _ _ _ _ _ _ _ _ _ Hc H1) as (Hg1 & _ & Hc1 & Hb1).
  destruct (Execute_gen _ _ _ _ _ _ _ _ _ Hc1 H2) as (_ & _ & _ & Hb2).
  assert ((SnapStats (metricsGenStats im) true mgs).1 !! id = Some vals) as Hs1
    by (rewrite SnapStats_lookup, Hid by done; done).
  assert (gen_wf (metricsGenStats im1)) as Hw1.
  { rewrite Hg1. intros k v Hk. rewrite SnapStats_lookup in Hk by done.
    destruct (mgs !! k) eqn:E; simplify_eq; [by apply (Hm k)|by apply (Hw k)]. }
  assert ((SnapStats (metricsGenStats im1) true mgs2).1 !! id = Some vals) as Hs2
    by (rewrite SnapStats_lookup, Hnone, Hg1 by done; done).
  split; [apply Hb1|apply Hb2]; try done; [by apply Ho|by apply (Hm id)|by apply Ho|by apply (Hm id)].
Qed.

(** ** The deltas of the tasks *)

Definition task_metric (name taskId : bytes) : bytes :=
  metric name instance hostname [(TASK_STATS_TASK_ID_LABEL_NAME, taskId)].
Definition counter_delta (curr : list Z) (prev : option (list Z)) (i : nat) : Z :=
  match prev with None => curr !!! i | Some p => u64 (curr !!! i - p !!! i) end.

(** The lines of a task: the change of each counter since the previous snapshot
    and the average run time of the executions since then. *)
Definition task_lines (tsSuffix taskId : bytes) (curr : Scheduler.TaskStats) (prev : option Scheduler.TaskStats) : list bytes :=
  let delta := counter_delta (Scheduler.Uint64Stats curr) (Scheduler.Uint64Stats <$> prev) in
  let n := delta Scheduler.TASK_STATS_EXECUTED_COUNT in
  let t := match prev with
           | None => Scheduler.RuntimeTotal curr
           | Some p => i64 (Scheduler.RuntimeTotal curr - Scheduler.RuntimeTotal p)
           end in
  map (fun x => line (task_metric x.2 taskId) (FormatUint (delta x.1)) tsSuffix) taskStatsUint64DeltaMetricsNameMap ++
  [line (task_metric TASK_STATS_INTERVAL_AVG_RUNTIME_METRIC taskId)
     (FormatFloat 6 (if (0 <? n)%Z then f64_div (Seconds t) (f64_of_int n) else S754_zero false)) tsSuffix].

Definition task_sized (st : Scheduler.TaskStats) : Prop := length (Scheduler.Uint64Stats st) = Scheduler.TASK_STATS_UINT64_LEN.

Record sched_ok (sim : SchedulerInternalMetrics) : Prop := mkSchedOk {
  sk_index : s_currIndex sim < 2;
  sk_len : length (s_stats sim) = 2;
  sk_sized : Forall (fun o => match o with Some m => map_Forall (fun _ => task_sized) m | None => True end) (s_stats sim);
  sk_cache : map_Forall (fun id ms => ms = cache_metrics taskStatsUint64DeltaMetricsNameMap [(TASK_STATS_TASK_ID_LABEL_NAME, id)] /\
                avgRuntimeMetricsCache sim !! id = Some (task_metric TASK_STATS_INTERVAL_AVG_RUNTIME_METRIC id))
               (uint64DeltaMetricsCache sim)
}.

Lemma gen_uint64_spec tsSuffix metrics curr prev :
  Forall (fun x : nat * bytes => x.1 < length curr /\ match prev with Some p => x.1 < length p | None => True end) metrics ->
  gen_uint64 tsSuffix metrics curr prev =
    Ret (map (fun x => line x.2 (FormatUint (counter_delta curr prev x.1)) tsSuffix) metrics).
Proof.
  induction 1 as [|[i m] metrics [Hi Hp] _ IH]; [done|]. cbn [gen_uint64]. simpl in Hi, Hp.
  rewrite (list_lookup_lookup_total_lt curr i) by done. cbn [must]. rewrite bind_ret. destruct prev as [p|].
  - rewrite (list_lookup_lookup_total_lt p i) by done. cbn [must]. rewrite !bind_ret, IH. done.
  - rewrite !bind_ret, IH. done.
Qed.

(** One task: no panic, the lines, and the caches stay right. *)
Lemma s_gen_task_spec tsSuffix curr prev taskId sim st :
  sched_ok sim -> curr !! taskId = Some st -> task_sized st ->
  (forall m p, prev = Some m -> m !! taskId = Some p -> task_sized p) ->
  exists sim', s_gen_task tsSuffix curr prev taskId sim = Ret (sim', task_lines tsSuffix taskId st (prev ≫= (fun m => m !! taskId))) /\
    sched_ok sim' /\ s_stats sim' = s_stats sim /\ s_currIndex sim' = s_currIndex sim.
Proof.
  intros Hok Hst Hsz Hp. unfold s_gen_task. rewrite Hst. cbn [must]. rewrite bind_ret.
  set (o := prev ≫= (fun m => m !! taskId)).
  assert (match o with Some p => task_sized p | None => True end) as Ho.
  { destruct o as [p|] eqn:Eo; [|done]. subst o. apply bind_Some in Eo as (m & -> & Hm). by eapply Hp. }
  set (sim1 := match uint64DeltaMetricsCache sim !! taskId with Some _ => sim | None => _ end).
  assert (sched_ok sim1 /\ s_stats sim1 = s_stats sim /\ s_currIndex sim1 = s_currIndex sim /\
    uint64DeltaMetricsCache sim1 !! taskId = Some (cache_metrics taskStatsUint64DeltaMetricsNameMap [(TASK_STATS_TASK_ID_LABEL_NAME, taskId)]) /\
    avgRuntimeMetricsCache sim1 !! taskId = Some (task_metric TASK_STATS_INTERVAL_AVG_RUNTIME_METRIC taskId))
    as (Hok1 & Hs1 & Hi1 & Hc1 & Ha1).
  { subst sim1. destruct (uint64DeltaMetricsCache sim !! taskId) as [ms|] eqn:Em.
    - destruct (sk_cache _ Hok taskId ms Em) as [-> Ha]. done.
    - destruct Hok as [H1 H2 H3 H4]. split; [|simpl; by rewrite !lookup_insert_eq]. split; try done. simpl.
      intros id ms Hid. destruct (decide (id = taskId)) as [->|Hne].
      + rewrite !lookup_insert_eq in *. by injection Hid as <-.
      + rewrite !lookup_insert_ne in * by done. by apply H4. }
  rewrite Hc1, Ha1. cbn [default].
  unfold task_sized in Hsz. rewrite gen_uint64_spec.
  2:{ unfold cache_metrics. apply Forall_fmap. unfold taskStatsUint64DeltaMetricsNameMap.
      assert (forall i, i < 5 -> i < length (Scheduler.Uint64Stats st) /\
        match Scheduler.Uint64Stats <$> o with Some p => i < length p | None => True end) as Hb.
      { intros i Hi. rewrite Hsz. split; [exact Hi|]. destruct o as [p|]; [|done]. simpl. rewrite Ho. exact Hi. }
      repeat constructor; apply Hb; vm_compute; lia. }
  rewrite bind_ret. unfold runtime_avg.
  assert (forall l : list Z, length l = Scheduler.TASK_STATS_UINT64_LEN ->
    l !! Scheduler.TASK_STATS_EXECUTED_COUNT = Some (l !!! Scheduler.TASK_STATS_EXECUTED_COUNT)) as Hlk.
  { intros l Hl. apply list_lookup_lookup_total_lt. rewrite Hl. vm_compute. lia. }
  rewrite Hlk by done. cbn [must]. rewrite bind_ret.
  exists sim1. split; [|done]. unfold task_lines.
  destruct o as [p|]; simpl fmap; cbn [counter_delta].
  - rewrite Hlk by done. cbn [must]. rewrite !bind_ret. cbn [counter_delta].
    destruct (0 <? _)%Z; rewrite bind_ret; reflexivity.
  - rewrite bind_ret. destruct (0 <? _)%Z; rewrite bind_ret; reflexivity.
Qed.

Lemma s_gen_tasks_spec tsSuffix curr prev ids sim :
  sched_ok sim -> map_Forall (fun _ => task_sized) curr ->
  (forall m, prev = Some m -> map_Forall (fun _ => task_sized) m) ->
  Forall (fun id => is_Some (curr !! id)) ids ->
  exists sim' lines, gen_all (s_gen_task tsSuffix curr prev) ids sim = Ret (sim', lines) /\
    sched_ok sim' /\ s_stats sim' = s_stats sim /\ s_currIndex sim' = s_currIndex sim /\
    forall id st, id ∈ ids -> curr !! id = Some st ->
      within (concat (task_lines tsSuffix id st (prev ≫= (fun m => m !! id)))) (concat lines).
Proof.
  intros Hok Hc Hp Hids. revert sim Hok. induction Hids as [|id ids [st Hst] _ IH]; intros sim Hok.
  - exists sim, []. split; [done|]. split; [done|]. split; [done|]. split; [done|]. set_solver.
  - cbn [gen_all]. destruct (s_gen_task_spec tsSuffix curr prev id sim st Hok Hst) as (sim1 & -> & Hok1 & Hs1 & Hi1);
      [by apply (Hc id)|intros m p Hm Hmp; by apply (Hp m Hm id)|]. rewrite bind_ret.
    destruct (IH sim1 Hok1) as (sim2 & lines & -> & Hok2 & Hs2 & Hi2 & Hin). rewrite bind_ret.
    eexists sim2, _. split; [done|]. split; [done|]. split; [congruence|]. split; [congruence|].
    intros id' st' [->|Hid]%elem_of_cons Hst'; rewrite concat_app.
    + simplify_eq. apply within_l, within_refl.
    + apply within_r. by apply Hin.
Qed.

(** the scheduler's metrics.  The generation after a snapshot does not
    panic, keeps the snapshots and switches the storage, so that the next
    snapshot replaces the older one; for every task it writes the exact change
    of each counter since the previous snapshot, modulo 2^64 (the counter
    itself when the task is new), and the average run time of the executions
    in between, zero when there was none. *)
Theorem internal_scheduler_deltas order tsSuffix sim currStats :
  sched_ok sim -> s_stats sim !! s_currIndex sim = Some (Some currStats) ->
  (forall k, k ∈ order currStats <-> is_Some (currStats !! k)) ->
  exists sim' lines prev, s_generateMetrics order tsSuffix sim = Ret (sim', lines) /\
    s_stats sim !! (1 - s_currIndex sim) = Some prev /\
    sched_ok sim' /\ s_stats sim' = s_stats sim /\ s_currIndex sim' = 1 - s_currIndex sim /\
    forall id st, currStats !! id = Some st ->
      within (concat (task_lines tsSuffix id st (prev ≫= (fun m => m !! id)))) (concat lines).
Proof.
  intros Hok Hcur Hord. pose proof Hok as [Hi Hl Hsz Hc]. pose proof (proj1 (Forall_lookup _ _) Hsz) as Hsz'.
  destruct (lookup_lt_is_Some_2 (s_stats sim) (1 - s_currIndex sim)) as [prev Hprev]; [lia|].
  unfold s_generateMetrics. rewrite Hcur, Hprev. cbn [must]. rewrite !bind_ret. cbv zeta.
  change (default ∅ (Some currStats)) with currStats.
  destruct (s_gen_tasks_spec tsSuffix currStats prev (order currStats) sim Hok) as (sim1 & lines & -> & Hok1 & Hs1 & Hi1 & Hin).
  - exact (Hsz' _ _ Hcur).
  - intros m ->. exact (Hsz' _ _ Hprev).
  - apply Forall_forall. intros k. apply Hord.
  - rewrite bind_ret. eexists _, lines, prev. split; [done|]. split; [done|]. cbn [s_stats s_currIndex].
    split; [|split; [done|split; [by rewrite Hi1|]]].
    + destruct Hok1 as [A B C D]. split; try done. cbn [s_currIndex]. lia.
    + intros id st Hid. apply Hin; [|done]. apply Hord. by exists st.
Qed.
End text.

(** ** Sample executions *)

Definition sample_env : environment :=
  mkEnv (bs "1.0") (bs "main") (bs "Linux") (bs "6.1.0") (bs "x86_64") [6; 1; 0]%Z (fun _ => bs "x") zeroTime.
Definition sample_orders : orders :=
  mkOrders (fun m => (map_to_list m).*1) (fun m => (map_to_list m).*1) (fun m => (map_to_list m).*1) (fun m => (map_to_list m).*1).
Definition sample_tasks : gmap bytes Scheduler.TaskStats :=
  {[ bs "t" := Scheduler.mkTaskStats [5; 1; 0; 4; 0]%Z 2000000000 ]}.
Definition sample_sources (t : Z) : sources :=
  mkSources (Some sample_tasks) None None [] [] (mkTime (63000000000000000000 + t) None) 7000000000.
Definition sample_im : InternalMetrics := NewInternalMetrics 12 zeroTime zeroTime.
Definition sample_mgs : MetricsGeneratorStats := {[ bs "g" := [1; 2; 3; 40]%Z ]}.

Lemma internal_byte_count_exact_witness :
  exists pre n, own_metrics (bs " 7
") (updateMetricsCache (bs "i") (bs "h") INTERNAL_METRICS_ID) 5 (bs "abc") = Ret (pre ++ Itoa n ++ bs " 7
" ++ [NL]) /\
    n = Z.of_nat (length (pre ++ Itoa n ++ bs " 7
" ++ [NL])) /\ exists body, pre = bs "abc" ++ body.
Proof.
  apply (internal_byte_count_exact (bs "i") (bs "h") (bs " 7
") INTERNAL_METRICS_ID 5 (bs "abc")). vm_compute. reflexivity.
Defined.

Abbreviation sample_exec src im icm mgs := (Execute (bs "i") (bs "h") sample_env sample_orders src im icm mgs).

Lemma sample_orders_all (m : MetricsGeneratorStats) k : is_Some (m !! k) -> k ∈ o_gens sample_orders m.
Proof.
  intros [v Hv]. simpl. apply list_elem_of_fmap. exists (k, v). split; [done|]. by apply elem_of_map_to_list.
Qed.

Definition ok_of {A} (r : outcome A) (d : A) : A := match r with Ret a => a | _ => d end.
Definition sample_dflt := (sample_im, 0%Z, (∅ : MetricsGeneratorStats), @nil byte).
Definition sample_exec1 := ok_of (sample_exec (sample_sources 0) sample_im 0 sample_mgs) sample_dflt.
Definition sample_exec2 :=
  let '(im, icm, mgs, _) := sample_exec1 in ok_of (sample_exec (sample_sources 5000000) im icm mgs) sample_dflt.

Lemma sample_exec1_ok :
  sample_exec (sample_sources 0) sample_im 0 sample_mgs =
  Ret (sample_exec1.1.1.1, sample_exec1.1.1.2, sample_exec1.1.2, sample_exec1.2).
Proof. vm_compute. reflexivity. Qed.
Lemma sample_exec2_ok :
  sample_exec (sample_sources 5000000) sample_exec1.1.1.1 sample_exec1.1.1.2 ∅ =
  Ret (sample_exec2.1.1.1, sample_exec2.1.1.2, sample_exec2.1.2, sample_exec2.2).
Proof. vm_compute. reflexivity. Qed.

Lemma internal_gen_stats_repeat_witness :
  within (concat (gen_lines (bs "i") (bs "h") (ts_suffix (ts (sample_sources 0))) (bs "g") [1; 2; 3; 40]%Z)) sample_exec1.2 /\
  within (concat (gen_lines (bs "i") (bs "h") (ts_suffix (ts (sample_sources 5000000))) (bs "g") [1; 2; 3; 40]%Z)) sample_exec2.2.
Proof.
  apply (internal_gen_stats_repeat (bs "i") (bs "h") sample_env sample_orders sample_orders (sample_sources 0) (sample_sources 5000000)
    sample_im 0 sample_mgs sample_exec1.1.1.1 sample_exec1.1.1.2 sample_exec1.1.2 sample_exec1.2
    ∅ sample_exec2.1.1.1 sample_exec2.1.1.2 sample_exec2.1.2 sample_exec2.2 (bs "g") [1; 2; 3; 40]%Z).
  - apply map_Forall_empty.
  - apply gen_wf_empty.
  - by apply map_Forall_singleton.
  - apply gen_wf_empty.
  - intros m k Hk. split; by apply sample_orders_all.
  - exact sample_exec1_ok.
  - exact sample_exec2_ok.
  - reflexivity.
  - reflexivity.
Defined.

Definition sample_sim : SchedulerInternalMetrics := mkSched [Some sample_tasks; None] 0 ∅ ∅.

Lemma sample_sim_ok : sched_ok (bs "i") (bs "h") sample_sim.
Proof.
  split; [simpl; lia|done| |apply map_Forall_empty].
  constructor; [by apply map_Forall_singleton|by repeat constructor].
Qed.

Lemma internal_scheduler_deltas_witness :
  exists sim' lines prev, s_generateMetrics (bs "i") (bs "h") (fun m => (map_to_list m).*1) (bs " 7") sample_sim = Ret (sim', lines) /\
    s_currIndex sim' = 1 /\ prev = None /\
    within (concat (task_lines (bs "i") (bs "h") (bs " 7") (bs "t") (Scheduler.mkTaskStats [5; 1; 0; 4; 0]%Z 2000000000) prev)) (concat lines).
Proof.
  destruct (internal_scheduler_deltas (bs "i") (bs "h") (fun m => (map_to_list m).*1) (bs " 7") sample_sim sample_tasks sample_sim_ok eq_refl)
    as (sim' & lines & prev & Hg & Hp & _ & _ & Hi & Hl).
  - intros k. rewrite list_elem_of_fmap. split.
    + intros ([k' v] & -> & H%elem_of_map_to_list). by exists v.
    + intros [v H]. exists (k, v). split; [done|]. by apply elem_of_map_to_list.
  - injection Hp as <-. exists sim', lines, None. split; [exact Hg|]. split; [exact Hi|]. split; [reflexivity|].
    exact (Hl (bs "t") _ eq_refl).
Defined.
End InternalMetrics.
