(* ===== verification/IrqMetrics.v ===== *)
(** What the generators for /proc/softirqs and /proc/interrupts share: both
    have the same updateCpuList and the same loop over the counters of an
    interrupt (src/lsvmi/proc_softirqs_metrics.go,
    src/lsvmi/proc_interrupts_metrics.go).  When the heading changes, current
    and previous columns are matched by CPU number. *)

From Stdlib Require Import ZArith Lia.
From Stdlib Require Import Floats.SpecFloat.
From stdpp Require Import base tactics numbers strings gmap list.
From S2P Require Import Prelude Scan GoTime GoFloat MetricsCommon.
Import MetricsCommon.

Module IrqMetrics.

(** The CPU numbers of the columns: those of the list, or 0, 1, ... *)
Definition cpu_nums (cl : option (list Z)) (num : nat) : list Z :=
  default (map Z.of_nat (seq 0 num)) cl.

(** [,cpu="%d"} ]. *)
Definition cpu_suffix (cpu : Z) : bytes := bs ",cpu=" ++ [QUOTE] ++ Itoa cpu ++ [QUOTE] ++ bs "} ".

(** The columns of the CPUs, the last one of a number that occurs twice. *)
Fixpoint cpu_index (i : nat) (cpus : list Z) (m : gmap Z nat) : gmap Z nat :=
  match cpus with [] => m | cpu :: cpus => cpu_index (S i) cpus (<[cpu := i]> m) end.

(** For every current column the previous one of the same CPU. *)
Fixpoint index_map (i : nat) (cpus : list Z) (prev : gmap Z nat) : gmap nat nat :=
  match cpus with
  | [] => ∅
  | cpu :: cpus =>
    match prev !! cpu with
    | Some j => <[i := j]> (index_map (S i) cpus prev)
    | None => index_map (S i) cpus prev
    end
  end.

(** [updateCpuList]: the suffixes and the mapping. *)
Definition updateCpuList (curr prev : option (list Z) * nat) : list bytes * gmap nat nat :=
  let cc := cpu_nums curr.1 curr.2 in
  (map cpu_suffix cc, index_map 0 cc (cpu_index 0 (cpu_nums prev.1 prev.2) ∅)).

(** [for currI, currCounter := range currCounters]. *)
Fixpoint gen_counters (full : bool) (promTs prefix : bytes) (suffixes : list bytes) (cmap : option (gmap nat nat))
    (prev : list Z) (currI : nat) (curr : list Z) (zd : list bool) : outcome (list bool * list bytes) :=
  match curr with
  | [] => Ret (zd, [])
  | c :: curr =>
    match (match cmap with None => Some currI | Some m => m !! currI end) with
    | None => gen_counters full promTs prefix suffixes cmap prev (S currI) curr zd
    | Some prevI =>
      p ← must (prev !! prevI);
      let delta := u64 (c - p) in
      emit ← (if full || (0 <? delta)%Z then Ret true else z ← must (zd !! currI); Ret (negb z));
      out ← (if emit : bool then suffix ← must (suffixes !! currI);
                                 Ret [line (prefix ++ suffix) (FormatUint delta) promTs]
             else Ret []);
      zd ← store zd currI (delta =? 0)%Z;
      '(zd, lines) ← gen_counters full promTs prefix suffixes cmap prev (S currI) curr zd;
      Ret (zd, out ++ lines)
    end
  end.

(** ** The mapping follows the CPUs *)

Lemma cpu_index_lookup cpus : forall i m cpu j,
  NoDup cpus ->
  cpu_index i cpus m !! cpu = Some j <->
  (exists k, cpus !! k = Some cpu /\ j = i + k) \/ ((cpu ∉ cpus) /\ m !! cpu = Some j).
Proof.
  induction cpus as [|c cpus IH]; intros i m cpu j Hnd; cbn [cpu_index].
  - split; [right; split; [apply not_elem_of_nil|done]|]. intros [(k & Hk & _)|[_ ?]]; [done|done].
  - apply NoDup_cons in Hnd as [Hc Hnd]. rewrite IH by done. split.
    + intros [(k & Hk & ->)|[Hn Hl]].
      * left. exists (S k). split; [done|lia].
      * apply lookup_insert_Some in Hl as [[-> ->]|[Hne Hl]]; [left; by exists 0|].
        right. split; [|done]. apply not_elem_of_cons. done.
    + intros [(k & Hk & ->)|[Hn Hl]].
      * destruct k as [|k]; simpl in Hk.
        -- injection Hk as ->. right. split; [done|]. rewrite lookup_insert_eq. f_equal. lia.
        -- left. exists k. split; [done|lia].
      * apply not_elem_of_cons in Hn as [Hne Hn]. right. split; [done|]. by rewrite lookup_insert_ne.
Qed.

Lemma index_map_lookup cpus prev : forall i k,
  index_map i cpus prev !! k = (if decide (i <= k) then cpus !! (k - i) ≫= fun cpu => prev !! cpu else None).
Proof.
  induction cpus as [|c cpus IH]; intros i k; cbn [index_map].
  - rewrite lookup_empty. by case_decide.
  - assert (index_map (S i) cpus prev !! k = (if decide (S i <= k) then (c :: cpus) !! (k - i) ≫= fun cpu => prev !! cpu else None)) as E.
    { rewrite IH. case_decide; [|done]. replace (k - i) with (S (k - S i)) by lia. done. }
    destruct (prev !! c) as [j|] eqn:Ec.
    + destruct (decide (k = i)) as [->|Hne].
      * rewrite lookup_insert_eq, decide_True, Nat.sub_diag by lia. simpl. by rewrite Ec.
      * rewrite lookup_insert_ne, E by done. repeat case_decide; (done || lia).
    + rewrite E. destruct (decide (k = i)) as [->|Hne].
      * rewrite decide_False, decide_True, Nat.sub_diag by lia. simpl. by rewrite Ec.
      * repeat case_decide; (done || lia).
Qed.

(** The mapping relates the columns of the same CPU. *)
Lemma updateCpuList_map curr prev i j :
  NoDup (cpu_nums prev.1 prev.2) ->
  (updateCpuList curr prev).2 !! i = Some j <->
  exists cpu, cpu_nums curr.1 curr.2 !! i = Some cpu /\ cpu_nums prev.1 prev.2 !! j = Some cpu.
Proof.
  intros Hnd. unfold updateCpuList. cbn [snd]. rewrite index_map_lookup, decide_True, Nat.sub_0_r by lia.
  rewrite bind_Some. setoid_rewrite (cpu_index_lookup _ 0 ∅ _ j Hnd). split.
  - intros (cpu & Hc & [(k & Hk & ->)|[_ Hl]]); [by exists cpu|by rewrite lookup_empty in Hl].
  - intros (cpu & Hc & Hj). exists cpu. split; [done|]. left. by exists j.
Qed.

(** ** The lines of an interrupt *)

(** The delta of a CPU that both scans have, and the line that is written for
    it, if any. *)
Definition cpu_delta (prevCpus : list Z) (prev : list Z) (cpu c : Z) : option Z :=
  (fun p => u64 (c - p)) <$> (list_find (fun x => x = cpu) prevCpus ≫= fun '(j, _) => prev !! j).

Definition col_lines (full : bool) (promTs prefix : bytes) (zd : list bool) (i : nat) (cpu : Z) (d : option Z) : list bytes :=
  match d with
  | Some delta => if full || (0 <? delta)%Z || negb (default false (zd !! i))
                  then [line (prefix ++ cpu_suffix cpu) (FormatUint delta) promTs] else []
  | None => []
  end.

(** The columns selected by the mapping (the same column without one) are those
    of the same CPU. *)
Definition sel (cmap : option (gmap nat nat)) (i : nat) : option nat :=
  match cmap with None => Some i | Some m => m !! i end.
Definition cols_ok (cmap : option (gmap nat nat)) (currCpus prevCpus : list Z) : Prop :=
  forall i cpu, currCpus !! i = Some cpu ->
  forall j, sel cmap i = Some j <-> prevCpus !! j = Some cpu.

Lemma cols_ok_map curr prev :
  NoDup (cpu_nums prev.1 prev.2) ->
  cols_ok (Some (updateCpuList curr prev).2) (cpu_nums curr.1 curr.2) (cpu_nums prev.1 prev.2).
Proof.
  intros Hnd i cpu Hi j. unfold sel. rewrite updateCpuList_map by done. split; [|by exists cpu].
  intros (cpu' & Hc & Hp). congruence.
Qed.

Lemma cols_ok_same cpus : NoDup cpus -> cols_ok None cpus cpus.
Proof.
  intros Hnd i cpu Hi j. unfold sel. split; [by intros [= <-]|]. intros Hj. f_equal.
  by eapply NoDup_lookup.
Qed.

Lemma cpu_delta_sel cmap currCpus prevCpus prev i cpu c :
  NoDup prevCpus -> length prev = length prevCpus -> cols_ok cmap currCpus prevCpus -> currCpus !! i = Some cpu ->
  match sel cmap i with
  | Some j => exists p, prev !! j = Some p /\ cpu_delta prevCpus prev cpu c = Some (u64 (c - p))
  | None => cpu_delta prevCpus prev cpu c = None
  end.
Proof.
  intros Hnd Hl Hc Hi. specialize (Hc i cpu Hi). unfold cpu_delta. destruct (sel cmap i) as [j|].
  - assert (prevCpus !! j = Some cpu) as Hj by by apply Hc.
    destruct (lookup_lt_is_Some_2 prev j) as [p Hp]; [rewrite Hl; by eapply lookup_lt_Some|].
    exists p. split; [done|].
    assert (list_find (fun x => x = cpu) prevCpus = Some (j, cpu)) as ->; [|simpl; by rewrite Hp].
    apply list_find_Some. split; [done|]. split; [done|]. intros k x Hk Hlt ->.
    assert (k = j) by (by eapply NoDup_lookup). lia.
  - destruct (list_find (fun x => x = cpu) prevCpus) as [[j x]|] eqn:E; [|done].
    apply list_find_Some in E as (Hj & -> & _). by apply Hc in Hj.
Qed.

(** The loop writes, for the CPUs that both scans have, the delta of the same
    CPU; zero after zero is left out unless the generation is full. *)
Lemma gen_counters_spec full promTs prefix cmap currCpus prevCpus prev :
  NoDup prevCpus -> length prev = length prevCpus -> cols_ok cmap currCpus prevCpus ->
  forall curr currI zd, currI + length curr = length currCpus -> length zd = length currCpus ->
  exists zd',
    gen_counters full promTs prefix (map cpu_suffix currCpus) cmap prev currI curr zd =
    Ret (zd', concat (imap (fun k c => let cpu := currCpus !!! (currI + k) in
           col_lines full promTs prefix zd (currI + k) cpu (cpu_delta prevCpus prev cpu c)) curr)) /\
    length zd' = length zd /\
    (forall k, k < currI -> zd' !! k = zd !! k) /\
    (forall k c d, curr !! k = Some c -> cpu_delta prevCpus prev (currCpus !!! (currI + k)) c = Some d ->
       zd' !! (currI + k) = Some (d =? 0)%Z).
Proof.
  intros Hnd Hl Hc curr. induction curr as [|c curr IH]; intros currI zd Hlen Hzd.
  - exists zd. split_and!; done.
  - simpl in Hlen. cbn [gen_counters].
    destruct (lookup_lt_is_Some_2 currCpus currI) as [cpu Hcpu]; [lia|].
    assert (currCpus !!! currI = cpu) as Hcpu' by by apply list_lookup_total_correct.
    pose proof (cpu_delta_sel cmap currCpus prevCpus prev currI cpu c Hnd Hl Hc Hcpu) as Hd.
    fold (sel cmap currI). destruct (sel cmap currI) as [j|].
    + destruct Hd as (p & Hp & Hd). rewrite Hp. cbn [must]. rewrite bind_ret. set (delta := u64 (c - p)) in *.
      destruct (lookup_lt_is_Some_2 zd currI) as [z Hz]; [lia|].
      assert ((if full || (0 <? delta)%Z then Ret true else z ← must (zd !! currI); Ret (negb z)) =
              Ret (full || (0 <? delta)%Z || negb z)) as ->.
      { rewrite Hz. by destruct (full || (0 <? delta)%Z). }
      rewrite bind_ret, list_lookup_fmap, Hcpu. cbn [fmap option_fmap option_map must].
      rewrite store_Ret by lia. set (zd1 := <[currI := _]> zd).
      destruct (IH (S currI) zd1) as (zd' & Hg & Hl' & Hlow & Hk); [lia|unfold zd1; by rewrite length_insert|].
      exists zd'. split_and!.
      * assert (col_lines full promTs prefix zd currI cpu (Some delta) =
          if full || (0 <? delta)%Z || negb z then [line (prefix ++ cpu_suffix cpu) (FormatUint delta) promTs] else []) as Hcl.
        { unfold col_lines. by rewrite Hz. }
        rewrite imap_cons. cbn [concat]. cbv zeta. rewrite Nat.add_0_r, Hcpu', Hd, Hcl.
        assert (imap ((fun k c => col_lines full promTs prefix zd (currI + k) (currCpus !!! (currI + k))
            (cpu_delta prevCpus prev (currCpus !!! (currI + k)) c)) ∘ S) curr =
          imap (fun k c => col_lines full promTs prefix zd1 (S currI + k) (currCpus !!! (S currI + k))
            (cpu_delta prevCpus prev (currCpus !!! (S currI + k)) c)) curr) as ->.
        { apply imap_ext. intros k x _. unfold compose. rewrite Nat.add_succ_r. cbn [Nat.add].
          unfold col_lines, zd1. destruct (cpu_delta _ _ _ _); [|done]. by rewrite list_lookup_insert_ne by lia. }
        destruct (full || (0 <? delta)%Z || negb z); rewrite !bind_ret, Hg, bind_ret; done.
      * rewrite Hl'. unfold zd1. by rewrite length_insert.
      * intros k Hlt. rewrite Hlow by lia. unfold zd1. by rewrite list_lookup_insert_ne by lia.
      * intros [|k] x d Hx Hdx; simpl in Hx.
        -- injection Hx as <-. rewrite Nat.add_0_r in *. rewrite Hcpu', Hd in Hdx. injection Hdx as <-.
           rewrite Hlow by lia. unfold zd1. apply list_lookup_insert_eq. lia.
        -- rewrite Nat.add_succ_r in *. by eapply Hk.
    + destruct (IH (S currI) zd) as (zd' & Hg & Hl' & Hlow & Hk); [lia|done|].
      exists zd'. split_and!.
      * rewrite Hg. f_equal. f_equal. rewrite imap_cons. cbn [concat]. cbv zeta. rewrite Nat.add_0_r, Hcpu', Hd.
        cbn [col_lines app]. f_equal. apply imap_ext. intros k x _. unfold compose. by rewrite Nat.add_succ_r.
      * done.
      * intros k Hlt. apply Hlow. lia.
      * intros [|k] x d Hx Hdx; simpl in Hx.
        -- injection Hx as <-. rewrite Nat.add_0_r in *. by rewrite Hcpu', Hd in Hdx.
        -- rewrite Nat.add_succ_r in *. by eapply Hk.
Qed.
End IrqMetrics.
