(* ===== verification/SoftirqsMetrics.v ===== *)
(** The metrics generator for /proc/softirqs
    (src/lsvmi/proc_softirqs_metrics.go): deltas per interrupt and CPU with the
    columns of the two scans matched by CPU number when the heading changes,
    information metrics, full cycles.  The orders of the map iterations are
    arguments; the output is the list of the lines written. *)

From Stdlib Require Import ZArith Lia.
From Stdlib Require Import Floats.SpecFloat.
From stdpp Require Import base tactics numbers strings gmap list.
From S2P Require Import Prelude Scan GoLib GoTime GoFloat MetricsCommon CpuHeader Softirqs IrqMetrics.
Import MetricsCommon IrqMetrics.

Module SoftirqsMetrics.

Definition PROC_SOFTIRQS_METRICS_ID : bytes := bs "proc_softirqs_metrics".
Definition PROC_SOFTIRQS_DELTA_METRIC : bytes := bs "proc_softirqs_delta".
Definition PROC_SOFTIRQS_IRQ_LABEL_NAME : bytes := bs "irq".
Definition PROC_SOFTIRQS_INFO_METRIC : bytes := bs "proc_softirqs_info".
Definition PROC_SOFTIRQS_INTERVAL_METRIC : bytes := bs "proc_softirqs_metrics_delta_sec".

Record ProcSoftirqsMetricsIrqData := mkData {
  cycleNum : Z;
  deltaMetricPrefix : bytes;
  infoMetric : bytes;
  zeroDelta : list bool
}.

Record ProcSoftirqsMetrics := mkMetrics {
  fullMetricsFactor : Z;
  procSoftirqs : list (option Softirqs.Softirqs);
  procSoftirqsTs : list Time;
  currIndex : nat;
  irqDataCache : gmap bytes ProcSoftirqsMetricsIrqData;
  deltaMetricsSuffixCache : option (list bytes);
  intervalMetric : option bytes
}.

Definition NewProcSoftirqsMetrics (fullMetricsFactor : Z) : ProcSoftirqsMetrics :=
  mkMetrics fullMetricsFactor [None; None] [zeroTime; zeroTime] 0 ∅ None None.

Section generator.
Context (instance hostname softirqsPath : bytes).

Definition delta_prefix (irq : bytes) : bytes :=
  PROC_SOFTIRQS_DELTA_METRIC ++ bs "{" ++
  labels [(INSTANCE_LABEL_NAME, instance); (HOSTNAME_LABEL_NAME, hostname); (PROC_SOFTIRQS_IRQ_LABEL_NAME, irq)].
Definition info_metric (irq : bytes) : bytes :=
  metric PROC_SOFTIRQS_INFO_METRIC instance hostname [(PROC_SOFTIRQS_IRQ_LABEL_NAME, irq)].

(** [updateIrqDataCache], which is called for a new interrupt only. *)
Definition updateIrqDataCache (F : Z) (num : nat) (irq : bytes) (icm : Z) : ProcSoftirqsMetricsIrqData * Z :=
  let '(cn, icm) := InitialCycleNum_Get F icm in
  (mkData cn (delta_prefix irq) (info_metric irq) (replicate num false), icm).

Definition updateIntervalMetricsCache : bytes := metric PROC_SOFTIRQS_INTERVAL_METRIC instance hostname [].

Abbreviation cache := (gmap bytes ProcSoftirqsMetricsIrqData).

(** One interrupt of the current scan. *)
Definition gen_irq (F : Z) (promTs : bytes) (suffixes : list bytes) (cmap : option (gmap nat nat))
    (changed : bool) (num : nat) (curr prev : gmap bytes slice) (irq : bytes) (st : cache * Z)
    : outcome (cache * Z * list bytes) :=
  let '(m, icm) := st in
  currIrqCounters ← must (curr !! irq);
  match prev !! irq with
  | None => Ret (st, [])
  | Some prevIrqCounters =>
    let '(irqData, fullMetrics, icm) :=
      match m !! irq with
      | Some d => (d, (cycleNum d =? 0)%Z, icm)
      | None => let '(d, icm) := updateIrqDataCache F num irq icm in (d, true, icm)
      end in
    let zd := if changed then replicate num false else zeroDelta irqData in
    '(zd, lines) ← gen_counters fullMetrics promTs (deltaMetricPrefix irqData) suffixes cmap
                     (sl_data prevIrqCounters) 0 (sl_data currIrqCounters) zd;
    let info := if fullMetrics : bool then [line (infoMetric irqData) (bs "1") promTs] else [] in
    let irqData := mkData (next_cycle F (cycleNum irqData)) (deltaMetricPrefix irqData) (infoMetric irqData) zd in
    Ret (<[irq := irqData]> m, icm, lines ++ info)
  end.

(** The suffixes and the mapping of the columns for a generation. *)
Definition layout (curr prev : Softirqs.Softirqs) (suffixes : option (list bytes))
    : list bytes * option (gmap nat nat) :=
  let '(sfx, cmap) := updateCpuList (Softirqs.CpuList curr, Softirqs.NumCounters curr)
                                    (Softirqs.CpuList prev, Softirqs.NumCounters prev) in
  if Softirqs.CpuListChanged curr then (sfx, Some cmap)
  else match suffixes with None => (sfx, None) | Some sfx' => (sfx', None) end.

Definition totalMetricsCount (curr : Softirqs.Softirqs) : Z :=
  (Z.of_nat (size (Softirqs.Counters curr)) * (Z.of_nat (Softirqs.NumCounters curr) + 1) + 1)%Z.

Definition generateMetrics (order : gmap bytes slice -> list bytes) (order2 : cache -> list bytes)
    (g : ProcSoftirqsMetrics) (icm : Z) : outcome (ProcSoftirqsMetrics * Z * list bytes * (Z * Z)) :=
  let ci := currIndex g in
  curr ← must (procSoftirqs g !! ci); prev ← must (procSoftirqs g !! (1 - ci));
  currTs ← must (procSoftirqsTs g !! ci); prevTs ← must (procSoftirqsTs g !! (1 - ci));
  curr ← must curr;
  let total := totalMetricsCount curr in
  match prev with
  | None =>
    Ret (mkMetrics (fullMetricsFactor g) (procSoftirqs g) (procSoftirqsTs g) (1 - ci) (irqDataCache g)
           (deltaMetricsSuffixCache g) (intervalMetric g), icm, [], (0%Z, total))
  | Some prev =>
    let promTs := ts_suffix currTs in
    let deltaSec := Seconds (Sub currTs prevTs) in
    let '(sfx, cmap) := layout curr prev (deltaMetricsSuffixCache g) in
    let currCounters := Softirqs.Counters curr in
    '(m, icm, lines) ← for_keys
      (gen_irq (fullMetricsFactor g) promTs sfx cmap (Softirqs.CpuListChanged curr) (Softirqs.NumCounters curr)
         currCounters (Softirqs.Counters prev)) (order currCounters) (irqDataCache g, icm);
    let '(m, gone) :=
      if negb (size m =? size currCounters)
      then remove_gone (fun _ d => [line (infoMetric d) (bs "0") promTs])
             (fun irq => bool_decide (is_Some (currCounters !! irq))) (order2 m) m
      else (m, []) in
    let im := default updateIntervalMetricsCache (intervalMetric g) in
    let lines := lines ++ gone ++ [line im (FormatFloat 6 deltaSec) promTs] in
    Ret (mkMetrics (fullMetricsFactor g) (procSoftirqs g) (procSoftirqsTs g) (1 - ci) m (Some sfx) (Some im),
         icm, lines, (Z.of_nat (length lines), total))
  end.

(** The buffer is always queued and reported. *)
Definition Execute (rd : read_result) (now : Time) (order : gmap bytes slice -> list bytes)
    (order2 : cache -> list bytes) (g : ProcSoftirqsMetrics) (icm : Z) (mgs : MetricsGeneratorStats)
    : outcome (ProcSoftirqsMetrics * Z * MetricsGeneratorStats * option bytes * bool) :=
  let ci := currIndex g in
  curr ← must (procSoftirqs g !! ci);
  prev ← must (procSoftirqs g !! (1 - ci));
  let curr := match curr with
              | Some s => s
              | None => match prev with
                        | Some p => Softirqs.Clone false p
                        | None => Softirqs.NewSoftirqs softirqsPath
                        end
              end in
  '(curr, err) ← Softirqs.Parse rd curr;
  objs ← store (procSoftirqs g) ci (Some curr);
  let g := mkMetrics (fullMetricsFactor g) objs (procSoftirqsTs g) ci (irqDataCache g) (deltaMetricsSuffixCache g) (intervalMetric g) in
  match err with
  | Some _ => Ret (g, icm, mgs, None, false)
  | None =>
    ts ← store (procSoftirqsTs g) ci now;
    let g := mkMetrics (fullMetricsFactor g) (procSoftirqs g) ts ci (irqDataCache g) (deltaMetricsSuffixCache g) (intervalMetric g) in
    '(g, icm, lines, (actual, total)) ← generateMetrics order order2 g icm;
    let buf := concat lines in
    mgs ← Update PROC_SOFTIRQS_METRICS_ID (u64 actual) (u64 total) (u64 (Z.of_nat (length buf))) mgs;
    Ret (g, icm, mgs, Some buf, true)
  end.

(** ** What a generation writes *)

(** The CPUs of the columns of a scan. *)
Definition cpus (s : Softirqs.Softirqs) : list Z := cpu_nums (Softirqs.CpuList s) (Softirqs.NumCounters s).

(** A scan as the parser leaves it for a heading with distinct CPUs. *)
Record scan_ok (s : Softirqs.Softirqs) : Prop := mkScanOk {
  sc_cpus : length (cpus s) = Softirqs.NumCounters s /\ NoDup (cpus s);
  sc_counters : map_Forall (fun _ v => length (sl_data v) = Softirqs.NumCounters s) (Softirqs.Counters s)
}.

(** The cached data of an interrupt. *)
Record data_ok (F : Z) (irq : bytes) (d : ProcSoftirqsMetricsIrqData) : Prop := mkDataOk {
  do_prefix : deltaMetricPrefix d = delta_prefix irq;
  do_info : infoMetric d = info_metric irq;
  do_cycle : (0 <= cycleNum d < Z.max 1 F)%Z
}.

Definition is_full (o : option ProcSoftirqsMetricsIrqData) : bool :=
  match o with Some d => (cycleNum d =? 0)%Z | None => true end.
(** The deltas known to be zero; forgotten when the heading changes. *)
Definition zeros (changed : bool) (num : nat) (o : option ProcSoftirqsMetricsIrqData) : list bool :=
  if changed then replicate num false else match o with Some d => zeroDelta d | None => replicate num false end.

(** The lines of an interrupt that both scans have: the delta of every CPU that
    both have, and the information metric in a full generation. *)
Definition irq_lines (promTs : bytes) (curr prev : Softirqs.Softirqs) (irq : bytes)
    (o : option ProcSoftirqsMetricsIrqData) (c p : slice) : list bytes :=
  concat (imap (fun k x => let cpu := cpus curr !!! k in
    col_lines (is_full o) promTs (delta_prefix irq) (zeros (Softirqs.CpuListChanged curr) (Softirqs.NumCounters curr) o)
      k cpu (cpu_delta (cpus prev) (sl_data p) cpu x)) (sl_data c)) ++
  (if is_full o then [line (info_metric irq) (bs "1") promTs] else []).

(** What the generation did for an interrupt; [o] is the cached data before, [o']
    after. *)
Definition irq_done (F : Z) (promTs : bytes) (curr prev : Softirqs.Softirqs) (irq : bytes)
    (o o' : option ProcSoftirqsMetricsIrqData) (L : list bytes) : Prop :=
  match Softirqs.Counters curr !! irq, Softirqs.Counters prev !! irq with
  | Some c, Some p =>
    L = irq_lines promTs curr prev irq o c p /\
    exists d', o' = Some d' /\ data_ok F irq d' /\ length (zeroDelta d') = Softirqs.NumCounters curr /\
      (forall k x d, sl_data c !! k = Some x -> cpu_delta (cpus prev) (sl_data p) (cpus curr !!! k) x = Some d ->
         zeroDelta d' !! k = Some (d =? 0)%Z) /\
      (forall d, o = Some d -> cycleNum d' = ((cycleNum d + 1) mod Z.max 1 F)%Z)
  | _, _ => L = [] /\ o' = o
  end.

(** Suffixes and mapping match the columns of the current scan. *)
Definition layout_ok (curr prev : Softirqs.Softirqs) (sfx : list bytes) (cmap : option (gmap nat nat)) : Prop :=
  sfx = map cpu_suffix (cpus curr) /\ cols_ok cmap (cpus curr) (cpus prev).

Section step.
Context (F : Z) (promTs : bytes) (curr prev : Softirqs.Softirqs) (sfx : list bytes) (cmap : option (gmap nat nat)).
Hypothesis HF : (F <= MaxInt64)%Z.
Hypothesis Hcurr : scan_ok curr.
Hypothesis Hprev : scan_ok prev.
Hypothesis Hlay : layout_ok curr prev sfx cmap.

Let changed := Softirqs.CpuListChanged curr.
Let num := Softirqs.NumCounters curr.

(** The state of the loop. *)
Definition loop_ok (st : cache * Z) : Prop :=
  map_Forall (fun irq d => data_ok F irq d /\ (changed = false -> length (zeroDelta d) = num)) st.1 /\ (0 <= st.2)%Z.

Lemma softirq_gen_irq irq st :
  loop_ok st -> is_Some (Softirqs.Counters curr !! irq) ->
  exists st' L, gen_irq F promTs sfx cmap changed num (Softirqs.Counters curr) (Softirqs.Counters prev) irq st = Ret (st', L) /\
    loop_ok st' /\ irq_done F promTs curr prev irq (st.1 !! irq) (st'.1 !! irq) L /\
    (forall k, k <> irq -> st'.1 !! k = st.1 !! k).
Proof.
  destruct st as [m icm]. intros [Hm Hicm] [c Hc]. cbn [fst snd] in *. unfold gen_irq, irq_done. rewrite Hc. cbn [must].
  rewrite bind_ret. destruct (Softirqs.Counters prev !! irq) as [p|] eqn:Hp; [|by eexists (m, icm), []].
  assert (exists d0 icm0, match m !! irq with
      | Some d => (d, (cycleNum d =? 0)%Z, icm)
      | None => let '(d, icm) := updateIrqDataCache F num irq icm in (d, true, icm)
      end = (d0, is_full (m !! irq), icm0) /\ data_ok F irq d0 /\ (0 <= icm0)%Z /\
      (if changed then replicate num false else zeroDelta d0) = zeros changed num (m !! irq) /\
      length (zeros changed num (m !! irq)) = num /\
      (forall d, m !! irq = Some d -> cycleNum d0 = cycleNum d))
    as (d0 & icm0 & -> & [Hpre Hinf Hcy] & Hicm0 & Hzd & Hzl & Hcn).
  { destruct (m !! irq) as [d|] eqn:Em.
    - destruct (Hm irq d Em) as [Hd Hz]. exists d, icm. split_and!; [done|done|done|done| |naive_solver].
      unfold zeros. destruct changed; [apply length_replicate|by apply Hz].
    - unfold updateIrqDataCache. destruct (InitialCycleNum_Get F icm) as [cn icm'] eqn:Eg.
      apply InitialCycleNum_range in Eg as [Hr Hi]; [|done].
      eexists _, icm'. split; [reflexivity|]. split_and!; [by split|done|by destruct changed| |done].
      unfold zeros. destruct changed; apply length_replicate. }
  rewrite Hzd. destruct Hlay as [-> Hcols]. destruct Hcurr as [[Hcl Hcnd] Hcc]. destruct Hprev as [[Hpl Hpnd] Hpc].
  destruct (gen_counters_spec (is_full (m !! irq)) promTs (deltaMetricPrefix d0) cmap (cpus curr) (cpus prev) (sl_data p)
    Hpnd ltac:(rewrite (Hpc _ _ Hp); done) Hcols (sl_data c) 0 (zeros changed num (m !! irq))) as (zd' & Hg & Hl & _ & Hk).
  { rewrite (Hcc _ _ Hc). done. } { rewrite Hzl. done. }
  rewrite Hg, bind_ret. eexists (_, _), _. split; [reflexivity|]. cbn [fst snd]. split; [|split].
  - split; [|done]. cbn [fst]. apply map_Forall_insert_2; [|done]. split; [|intros _; simpl; by rewrite Hl].
    split; simpl; [done|done|]. rewrite next_cycle_mod by done. apply Z.mod_pos_bound. lia.
  - split; [unfold irq_lines; by rewrite Hpre, Hinf|]. rewrite lookup_insert_eq. eexists. split; [done|]. split_and!.
    + split; simpl; [done|done|]. rewrite next_cycle_mod by done. apply Z.mod_pos_bound. lia.
    + simpl. by rewrite Hl.
    + done.
    + intros d Hd. simpl. by rewrite next_cycle_mod, (Hcn d Hd) by done.
  - intros k Hne. by rewrite lookup_insert_ne.
Qed.
End step.

(** A generator that holds two scans, [ci] being the current one.  Without a
    change of the heading of the current parser the two scans have the same
    columns, and the cached suffixes are theirs. *)
Record gen_ok (g : ProcSoftirqsMetrics) (curr prev : Softirqs.Softirqs) (currTs prevTs : Time) : Prop := mkGenOk {
  go_F : (fullMetricsFactor g <= MaxInt64)%Z;
  go_curr : procSoftirqs g !! currIndex g = Some (Some curr) /\ procSoftirqsTs g !! currIndex g = Some currTs;
  go_prev : procSoftirqs g !! (1 - currIndex g) = Some (Some prev) /\ procSoftirqsTs g !! (1 - currIndex g) = Some prevTs;
  go_scans : scan_ok curr /\ scan_ok prev;
  go_same : Softirqs.CpuListChanged curr = false ->
    cpus curr = cpus prev /\
    (forall sfx, deltaMetricsSuffixCache g = Some sfx -> sfx = map cpu_suffix (cpus curr)) /\
    map_Forall (fun _ d => length (zeroDelta d) = Softirqs.NumCounters curr) (irqDataCache g);
  go_cache : map_Forall (data_ok (fullMetricsFactor g)) (irqDataCache g)
}.

Lemma softirq_layout g curr prev currTs prevTs :
  gen_ok g curr prev currTs prevTs ->
  exists sfx cmap, layout curr prev (deltaMetricsSuffixCache g) = (sfx, cmap) /\ layout_ok curr prev sfx cmap.
Proof.
  intros [_ _ _ [[Hc _] [Hp _]] Hs _]. unfold layout, layout_ok.
  set (pc := (Softirqs.CpuList prev, Softirqs.NumCounters prev)). set (cc := (Softirqs.CpuList curr, Softirqs.NumCounters curr)).
  pose proof (cols_ok_map cc pc (proj2 Hp)) as Hm.
  destruct (updateCpuList cc pc) as [sfx cmap] eqn:Eu. cbn [snd] in Hm.
  assert (sfx = map cpu_suffix (cpus curr)) as -> by (unfold updateCpuList in Eu; by injection Eu as <- _).
  destruct (Softirqs.CpuListChanged curr); [eexists _, _; split; [done|]; split; [done|exact Hm]|].
  destruct (Hs eq_refl) as (He & Hsf & _). rewrite <- He in *.
  destruct (deltaMetricsSuffixCache g) as [sfx'|]; (eexists _, _; split; [reflexivity|]; split; [|apply cols_ok_same, Hc]).
  - by apply Hsf.
  - done.
Qed.

Context (order : gmap bytes slice -> list bytes) (order2 : cache -> list bytes).
Hypothesis order_ok : forall m, NoDup (order m) /\ forall k, k ∈ order m <-> is_Some (m !! k).
Hypothesis order2_ok : forall m, NoDup (order2 m) /\ forall k, k ∈ order2 m <-> is_Some (m !! k).

(** a generation with two scans does not panic.  For every interrupt that
    both scans have it writes, for every CPU that both have (whatever its
    columns are), the exact delta of that CPU modulo 2^64, leaving out zeros
    after zeros unless the generation is full, and records which deltas were
    zero; the other lines report interrupts that are gone with 0, and the
    interval. *)
Theorem softirqs_metrics_deltas g icm curr prev currTs prevTs :
  gen_ok g curr prev currTs prevTs -> (0 <= icm)%Z ->
  exists g' icm' Ls gone,
    generateMetrics order order2 g icm =
      Ret (g', icm', concat Ls ++ gone ++
             [line (default updateIntervalMetricsCache (intervalMetric g)) (FormatFloat 6 (Seconds (Sub currTs prevTs)))
                (ts_suffix currTs)],
           (Z.of_nat (length (concat Ls ++ gone) + 1), totalMetricsCount curr)) /\
    Forall2 (fun irq L => irq_done (fullMetricsFactor g) (ts_suffix currTs) curr prev irq
                            (irqDataCache g !! irq) (irqDataCache g' !! irq) L)
      (order (Softirqs.Counters curr)) Ls /\
    Forall (fun l => exists irq, (irq ∉ order (Softirqs.Counters curr)) /\ l = line (info_metric irq) (bs "0") (ts_suffix currTs)) gone /\
    (forall irq, is_Some (irqDataCache g' !! irq) -> is_Some (Softirqs.Counters curr !! irq) \/
       size (irqDataCache g') = size (Softirqs.Counters curr)) /\
    currIndex g' = 1 - currIndex g /\ procSoftirqs g' = procSoftirqs g /\ (0 <= icm')%Z.
Proof.
  intros Hg Hicm. destruct (softirq_layout _ _ _ _ _ Hg) as (sfx & cmap & Hlay & Hlok).
  destruct Hg as [HF [Hc1 Hc2] [Hp1 Hp2] [Hsc Hsp] Hsame Hcache].
  unfold generateMetrics. rewrite Hc1, Hc2, Hp1, Hp2. cbn [must]. rewrite !bind_ret. cbn [must]. rewrite bind_ret, Hlay.
  set (F := fullMetricsFactor g) in *. set (promTs := ts_suffix currTs). set (cs := Softirqs.Counters curr).
  destruct (order_ok cs) as [Hnd Hin].
  destruct (for_keys_spec (gen_irq F promTs sfx cmap (Softirqs.CpuListChanged curr) (Softirqs.NumCounters curr) cs (Softirqs.Counters prev))
    fst (loop_ok F curr) (irq_done F promTs curr prev) (order cs) (irqDataCache g, icm)) as ([m icm'] & Ls & Hr & [Hm Hi] & HQ & Hrest).
  { intros st k Hst Hk. apply softirq_gen_irq; [done|done|done|done|done|by apply Hin]. }
  { done. }
  { split; [|done]. intros irq d Hd. split; [by apply (Hcache irq)|]. intros Ech. by apply (proj2 (proj2 (Hsame Ech)) irq). }
  rewrite Hr, bind_ret. cbn [fst snd] in *.
  set (x := if negb (size m =? size cs) then _ else (m, [])).
  assert (exists m' gone, x = (m', gone) /\ (forall irq, irq ∈ order cs -> m' !! irq = m !! irq) /\
    Forall (fun l => exists irq, (irq ∉ order cs) /\ l = line (info_metric irq) (bs "0") promTs) gone /\
    (forall irq, is_Some (m' !! irq) -> is_Some (cs !! irq) \/ size m' = size cs)) as (m' & gone & -> & Hm' & Hgone & Hleft).
  { subst x. destruct (size m =? size cs) eqn:Es; cbn [negb].
    - exists m, []. split_and!; [done|done|constructor|]. intros; right. by apply Nat.eqb_eq.
    - destruct (order2_ok m) as [Hnd2 Hin2].
      set (gl := fun (_ : bytes) d => [line (infoMetric d) (bs "0") promTs]). set (pr := fun irq => bool_decide (is_Some (cs !! irq))).
      destruct (remove_gone_spec gl pr (order2 m) m Hnd2) as [H1 H2]. destruct (remove_gone gl pr (order2 m) m) as [m' gone].
      cbn [fst snd] in *. exists m', gone. split_and!; [done| | |].
      + intros irq Hirq. rewrite H1. unfold pr. rewrite (bool_decide_eq_true_2 (is_Some (cs !! irq))) by by apply Hin.
        by rewrite andb_false_r.
      + rewrite H2. apply Forall_concat, Forall_map, Forall_forall. intros irq Hirq.
        destruct (m !! irq) as [d|] eqn:Ed; [|constructor]. destruct (pr irq) eqn:Ep; [constructor|].
        constructor; [|constructor]. exists irq. split; [|unfold gl; by rewrite (do_info _ _ _ (proj1 (Hm irq d Ed)))].
        intros Hirq'%Hin. unfold pr in Ep. by apply bool_decide_eq_false in Ep.
      + intros irq [d Hd]. left. rewrite H1 in Hd. destruct (pr irq) eqn:Ep; [by apply bool_decide_eq_true in Ep|].
        destruct (decide (irq ∈ order2 m)) as [Hi2|Hi2].
        * rewrite bool_decide_eq_true_2 in Hd by done. done.
        * exfalso. apply Hi2, Hin2. destruct (bool_decide _ && _) in Hd; [done|]. by exists d. }
  eexists _, icm', Ls, gone. split; [|split_and!].
  - rewrite !length_app. cbn [length]. rewrite <- Nat.add_assoc. reflexivity.
  - cbn [irqDataCache]. apply Forall2_same_length_lookup. split; [by eapply Forall2_length|]. intros n irq L Ho HL.
    pose proof (Forall2_lookup_lr _ _ _ _ _ _ HQ Ho HL) as Hq. cbn beta in Hq.
    rewrite (Hm' irq); [done|]. by eapply list_elem_of_lookup_2.
  - done.
  - done.
  - done.
  - done.
  - done.
Qed.
End generator.

Definition sample_order {A} (m : gmap bytes A) : list bytes := (map_to_list m).*1.

Lemma sample_order_keys {A} (m : gmap bytes A) :
  NoDup (sample_order m) /\ forall k, k ∈ sample_order m <-> is_Some (m !! k).
Proof.
  split; [apply NoDup_fst_map_to_list|]. intros k. unfold sample_order. rewrite list_elem_of_fmap. split.
  - intros ([k' v] & -> & Hk). apply elem_of_map_to_list in Hk. by exists v.
  - intros [v Hv]. exists (k, v). split; [done|]. by apply elem_of_map_to_list.
Qed.

(** CPUs 0 and 1 before, 1 and 2 now. *)
Definition sample_scan (cl : option (list Z)) (changed : bool) (vals : list Z) : Softirqs.Softirqs :=
  Softirqs.mkSoftirqs {[ bs "TIMER" := Slice vals 2 ]} cl changed 2 (bs "/proc/softirqs") [] {[ bs "TIMER" := 1%Z ]} 1.
Definition sample_gen : ProcSoftirqsMetrics :=
  mkMetrics 15 [Some (sample_scan (Some [1; 2]%Z) true [150; 7]%Z); Some (sample_scan None false [90; 100]%Z)]
    [mkTime 1000000000 None; zeroTime] 0 ∅ None None.

Lemma softirqs_metrics_deltas_witness :
  exists g' icm' lines counts,
    generateMetrics (bs "i") (bs "h") sample_order sample_order sample_gen 0 = Ret (g', icm', lines, counts) /\
    hd [] lines = bs "proc_softirqs_delta{instance=" ++ [QUOTE] ++ bs "i" ++ [QUOTE] ++ bs ",hostname=" ++ [QUOTE] ++ bs "h"
      ++ [QUOTE] ++ bs ",irq=" ++ [QUOTE] ++ bs "TIMER" ++ [QUOTE] ++ cpu_suffix 1 ++ bs "50" ++ ts_suffix (mkTime 1000000000 None).
Proof.
  destruct (softirqs_metrics_deltas (bs "i") (bs "h") sample_order sample_order sample_order_keys sample_order_keys
    sample_gen 0 (sample_scan (Some [1; 2]%Z) true [150; 7]%Z) (sample_scan None false [90; 100]%Z)
    (mkTime 1000000000 None) zeroTime) as (g' & icm' & Ls & gone & Hgen & HQ & _).
  - assert (forall cl ch a b, length (cpu_nums cl 2) = 2 /\ NoDup (cpu_nums cl 2) -> scan_ok (sample_scan cl ch [a; b])) as Hok.
    { intros cl ch a b Hcl. split; [exact Hcl|]. by apply map_Forall_singleton. }
    split; [vm_compute; discriminate|done|done| |done|apply map_Forall_empty].
    split; apply Hok; (split; [done|]); apply (bool_decide_unpack _); vm_compute; exact I.
  - lia.
  - eexists g', icm', _, _. split; [exact Hgen|].
    change (sample_order (Softirqs.Counters (sample_scan (Some [1; 2]%Z) true [150; 7]%Z))) with [bs "TIMER"] in HQ.
    inversion_clear HQ as [|? L ? Ls' Hq HQ']. inversion_clear HQ'.
    destruct Hq as [-> _]. vm_compute. reflexivity.
Defined.

(** The heading of one scan only is different: the parser of the next scan,
    which last saw the old heading, reports no change, and the columns of the
    two scans are compared without mapping, here beyond the end. *)
Definition sample_time : Time := mkTime 5 None.
Example softirqs_flip_panics :
  let exec f '(g, icm, mgs) :=
    '(g, icm, mgs, _, _) ← Execute (bs "i") (bs "h") (bs "/proc/softirqs") (ReadOk f) sample_time sample_order sample_order g icm mgs;
    Ret (g, icm, mgs) in
  let two v := Softirqs.softirqs_file ["CPU0"; "CPU1"] [v; v] in
  (st ← exec (two "1") (NewProcSoftirqsMetrics 15, 0%Z, ∅);
   st ← exec (two "2") st;
   st ← exec (Softirqs.softirqs_file ["CPU0"] ["3"]) st;
   exec (two "4") st) = Panic.
Proof. vm_compute. reflexivity. Qed.
End SoftirqsMetrics.
