(* ===== verification/InterruptsMetrics.v ===== *)
(** The metrics generator for /proc/interrupts
    (src/lsvmi/proc_interrupts_metrics.go): deltas per interrupt and CPU,
    information metrics that are zeroed when a description changes or an
    interrupt goes away, full cycles.  The two parser objects share the
    information about the interrupts, which is kept once.  The orders of the
    map iterations are arguments; the output is the list of the lines
    written. *)

From Stdlib Require Import ZArith Lia.
From Stdlib Require Import Floats.SpecFloat.
From stdpp Require Import base tactics numbers strings gmap list.
From S2P Require Import Prelude Scan GoLib GoTime GoFloat MetricsCommon CpuHeader Interrupts IrqMetrics.
Import MetricsCommon IrqMetrics.

Module InterruptsMetrics.

Definition PROC_INTERRUPTS_METRICS_ID : bytes := bs "proc_interrupts_metrics".
Definition PROC_INTERRUPTS_DELTA_METRIC : bytes := bs "proc_interrupts_delta".
Definition PROC_INTERRUPTS_IRQ_LABEL_NAME : bytes := bs "irq".
Definition PROC_INTERRUPTS_DEV_LABEL_NAME : bytes := bs "dev".
Definition PROC_INTERRUPTS_INFO_METRIC : bytes := bs "proc_interrupts_info".
Definition PROC_INTERRUPTS_INFO_CONTROLLER_LABEL_NAME : bytes := bs "controller".
Definition PROC_INTERRUPTS_INFO_HW_INTERRUPT_LABEL_NAME : bytes := bs "hw_interrupt".
Definition PROC_INTERRUPTS_INTERVAL_METRIC : bytes := bs "proc_interrupts_metrics_delta_sec".

Record ProcInterruptsMetricsIrqData := mkData {
  cycleNum : Z;
  deltaMetricPrefix : bytes;
  infoMetric : bytes;
  zeroDelta : list bool
}.

(** [sharedInfo] is the object that both parsers point to. *)
Record ProcInterruptsMetrics := mkMetrics {
  fullMetricsFactor : Z;
  procInterrupts : list (option Interrupts.Interrupts);
  sharedInfo : Interrupts.InterruptsInfo;
  procInterruptsTs : list Time;
  currIndex : nat;
  irqDataCache : gmap bytes ProcInterruptsMetricsIrqData;
  deltaMetricsSuffixCache : option (list bytes);
  intervalMetric : option bytes
}.

Definition NewProcInterruptsMetrics (fullMetricsFactor : Z) : ProcInterruptsMetrics :=
  mkMetrics fullMetricsFactor [None; None] Interrupts.NewInterruptsInfo [zeroTime; zeroTime] 0 ∅ None None.

Section generator.
Context (unicode_upper : bytes -> bytes) (instance hostname interruptsPath : bytes).

Definition delta_prefix (irq : bytes) (i : Interrupts.InterruptsIrqInfo) : bytes :=
  PROC_INTERRUPTS_DELTA_METRIC ++ bs "{" ++
  labels [(INSTANCE_LABEL_NAME, instance); (HOSTNAME_LABEL_NAME, hostname);
          (PROC_INTERRUPTS_IRQ_LABEL_NAME, irq); (PROC_INTERRUPTS_DEV_LABEL_NAME, Interrupts.Devices i)].
Definition info_metric (irq : bytes) (i : Interrupts.InterruptsIrqInfo) : bytes :=
  metric PROC_INTERRUPTS_INFO_METRIC instance hostname
    [(PROC_INTERRUPTS_IRQ_LABEL_NAME, irq);
     (PROC_INTERRUPTS_INFO_CONTROLLER_LABEL_NAME, Interrupts.Controller i);
     (PROC_INTERRUPTS_INFO_HW_INTERRUPT_LABEL_NAME, Interrupts.HWInterrupt i);
     (PROC_INTERRUPTS_DEV_LABEL_NAME, Interrupts.Devices i)].

Abbreviation cache := (gmap bytes ProcInterruptsMetricsIrqData).

(** [updateIrqDataCache]: the information of the interrupt must be there. *)
Definition updateIrqDataCache (F : Z) (num : nat) (infos : gmap bytes Interrupts.InterruptsIrqInfo) (irq : bytes)
    (o : option ProcInterruptsMetricsIrqData) (icm : Z) : outcome (ProcInterruptsMetricsIrqData * Z) :=
  i ← must (infos !! irq);
  Ret match o with
      | Some d => (mkData (cycleNum d) (delta_prefix irq i) (info_metric irq i) (zeroDelta d), icm)
      | None => let '(cn, icm) := InitialCycleNum_Get F icm in
                (mkData cn (delta_prefix irq i) (info_metric irq i) (replicate num false), icm)
      end.

Definition updateIntervalMetricsCache : bytes := metric PROC_INTERRUPTS_INTERVAL_METRIC instance hostname [].

(** The data of the interrupt for this generation, whether it is full, and the
    information metric before an update. *)
Definition irq_data (F : Z) (num : nat) (infos : gmap bytes Interrupts.InterruptsIrqInfo) (irq : bytes)
    (o : option ProcInterruptsMetricsIrqData) (icm : Z)
    : outcome (ProcInterruptsMetricsIrqData * bool * option bytes * Z) :=
  match o with
  | None =>
    '(d, icm) ← updateIrqDataCache F num infos irq None icm;
    Ret (d, true, None, icm)
  | Some d =>
    currIrqInfo ← must (infos !! irq);
    if Interrupts.Changed currIrqInfo then
      '(d', icm) ← updateIrqDataCache F num infos irq (Some d) icm;
      Ret (d', true, Some (infoMetric d), icm)
    else Ret (d, (cycleNum d =? 0)%Z, None, icm)
  end.

Definition info_lines (full : bool) (promTs : bytes) (prevInfo : option bytes) (currInfo : bytes) : list bytes :=
  if full then
    (match prevInfo with
     | Some p => if bool_decide (p = currInfo) then [] else [line p (bs "0") promTs]
     | None => []
     end) ++ [line currInfo (bs "1") promTs]
  else [].

(** One interrupt of the current scan. *)
Definition gen_irq (F : Z) (promTs : bytes) (suffixes : list bytes) (cmap : option (gmap nat nat))
    (info : Interrupts.InterruptsInfo) (num : nat) (curr prev : gmap bytes slice) (irq : bytes) (st : cache * Z)
    : outcome (cache * Z * list bytes) :=
  let '(m, icm) := st in
  currCounters ← must (curr !! irq);
  match prev !! irq with
  | None => Ret (st, [])
  | Some prevCounters =>
    '(irqData, fullMetrics, prevInfo, icm) ← irq_data F num (Interrupts.IrqInfo info) irq (m !! irq) icm;
    let zd := if Interrupts.CpuListChanged info then replicate num false else zeroDelta irqData in
    '(zd, lines) ← gen_counters fullMetrics promTs (deltaMetricPrefix irqData) suffixes cmap
                     (sl_data prevCounters) 0 (sl_data currCounters) zd;
    let infoLines := info_lines fullMetrics promTs prevInfo (infoMetric irqData) in
    let irqData := mkData (next_cycle F (cycleNum irqData)) (deltaMetricPrefix irqData) (infoMetric irqData) zd in
    Ret (<[irq := irqData]> m, icm, lines ++ infoLines)
  end.

Definition layout (info : Interrupts.InterruptsInfo) (curr prev : Interrupts.Interrupts) (suffixes : option (list bytes))
    : list bytes * option (gmap nat nat) :=
  let '(sfx, cmap) := updateCpuList (Interrupts.CpuList curr, Interrupts.NumCounters curr)
                                    (Interrupts.CpuList prev, Interrupts.NumCounters prev) in
  if Interrupts.CpuListChanged info then (sfx, Some cmap)
  else match suffixes with None => (sfx, None) | Some sfx' => (sfx', None) end.

Definition totalMetricsCount (curr : Interrupts.Interrupts) : Z :=
  (Z.of_nat (size (Interrupts.Counters curr)) * (Z.of_nat (Interrupts.NumCounters curr) + 1) + 1)%Z.

Definition generateMetrics (order : gmap bytes slice -> list bytes) (order2 : cache -> list bytes)
    (g : ProcInterruptsMetrics) (icm : Z) : outcome (ProcInterruptsMetrics * Z * list bytes * (Z * Z)) :=
  let ci := currIndex g in
  curr ← must (procInterrupts g !! ci); prev ← must (procInterrupts g !! (1 - ci));
  currTs ← must (procInterruptsTs g !! ci); prevTs ← must (procInterruptsTs g !! (1 - ci));
  curr ← must curr;
  let total := totalMetricsCount curr in
  match prev with
  | None =>
    Ret (mkMetrics (fullMetricsFactor g) (procInterrupts g) (sharedInfo g) (procInterruptsTs g) (1 - ci) (irqDataCache g)
           (deltaMetricsSuffixCache g) (intervalMetric g), icm, [], (0%Z, total))
  | Some prev =>
    let promTs := ts_suffix currTs in
    let deltaSec := Seconds (Sub currTs prevTs) in
    let currInfo := sharedInfo g in
    let '(sfx, cmap) := layout currInfo curr prev (deltaMetricsSuffixCache g) in
    let currCounters := Interrupts.Counters curr in
    '(m, icm, lines) ← for_keys
      (gen_irq (fullMetricsFactor g) promTs sfx cmap currInfo (Interrupts.NumCounters curr)
         currCounters (Interrupts.Counters prev)) (order currCounters) (irqDataCache g, icm);
    let '(m, gone) :=
      if negb (size m =? size (Interrupts.IrqInfo currInfo))
      then remove_gone (fun _ d => [line (infoMetric d) (bs "0") promTs])
             (fun irq => bool_decide (is_Some (currCounters !! irq))) (order2 m) m
      else (m, []) in
    let im := default updateIntervalMetricsCache (intervalMetric g) in
    let lines := lines ++ gone ++ [line im (FormatFloat 6 deltaSec) promTs] in
    Ret (mkMetrics (fullMetricsFactor g) (procInterrupts g) currInfo (procInterruptsTs g) (1 - ci) m (Some sfx) (Some im),
         icm, lines, (Z.of_nat (length lines), total))
  end.

Definition Execute (rd : read_result) (now : Time) (order : gmap bytes slice -> list bytes)
    (order2 : cache -> list bytes) (g : ProcInterruptsMetrics) (icm : Z) (mgs : MetricsGeneratorStats)
    : outcome (ProcInterruptsMetrics * Z * MetricsGeneratorStats * option bytes * bool) :=
  let ci := currIndex g in
  curr ← must (procInterrupts g !! ci);
  prev ← must (procInterrupts g !! (1 - ci));
  let curr := match curr with
              | Some s => s
              | None => match prev with
                        | Some p => Interrupts.Clone false p
                        | None => Interrupts.NewInterrupts interruptsPath
                        end
              end in
  '(info, curr, err) ← Interrupts.Parse unicode_upper rd (sharedInfo g) curr;
  objs ← store (procInterrupts g) ci (Some curr);
  let g := mkMetrics (fullMetricsFactor g) objs info (procInterruptsTs g) ci (irqDataCache g) (deltaMetricsSuffixCache g) (intervalMetric g) in
  match err with
  | Some _ => Ret (g, icm, mgs, None, false)
  | None =>
    ts ← store (procInterruptsTs g) ci now;
    let g := mkMetrics (fullMetricsFactor g) (procInterrupts g) (sharedInfo g) ts ci (irqDataCache g) (deltaMetricsSuffixCache g) (intervalMetric g) in
    '(g, icm, lines, (actual, total)) ← generateMetrics order order2 g icm;
    let buf := concat lines in
    mgs ← Update PROC_INTERRUPTS_METRICS_ID (u64 actual) (u64 total) (u64 (Z.of_nat (length buf))) mgs;
    Ret (g, icm, mgs, Some buf, true)
  end.

(** ** What a generation writes *)

Definition cpus (s : Interrupts.Interrupts) : list Z := cpu_nums (Interrupts.CpuList s) (Interrupts.NumCounters s).

(** A scan as the parser leaves it for a heading with distinct CPUs. *)
Record scan_ok (s : Interrupts.Interrupts) : Prop := mkScanOk {
  sc_cpus : length (cpus s) = Interrupts.NumCounters s /\ NoDup (cpus s);
  sc_counters : map_Forall (fun _ v => length (sl_data v) = Interrupts.NumCounters s) (Interrupts.Counters s)
}.

(** The cached data belongs to the information [i] unless that has changed in
    the current scan. *)
Record data_ok (F : Z) (irq : bytes) (i : Interrupts.InterruptsIrqInfo) (d : ProcInterruptsMetricsIrqData) : Prop := mkDataOk {
  do_metrics : Interrupts.Changed i = false -> deltaMetricPrefix d = delta_prefix irq i /\ infoMetric d = info_metric irq i;
  do_cycle : (0 <= cycleNum d < Z.max 1 F)%Z
}.

Definition is_full (i : Interrupts.InterruptsIrqInfo) (o : option ProcInterruptsMetricsIrqData) : bool :=
  match o with Some d => Interrupts.Changed i || (cycleNum d =? 0)%Z | None => true end.
Definition zeros (changed : bool) (num : nat) (o : option ProcInterruptsMetricsIrqData) : list bool :=
  if changed then replicate num false else match o with Some d => zeroDelta d | None => replicate num false end.
(** The old information metric, to be zeroed when the information changes. *)
Definition old_info (i : Interrupts.InterruptsIrqInfo) (o : option ProcInterruptsMetricsIrqData) : option bytes :=
  match o with Some d => if Interrupts.Changed i then Some (infoMetric d) else None | None => None end.

Definition irq_lines (promTs : bytes) (info : Interrupts.InterruptsInfo) (curr prev : Interrupts.Interrupts) (irq : bytes)
    (i : Interrupts.InterruptsIrqInfo) (o : option ProcInterruptsMetricsIrqData) (c p : slice) : list bytes :=
  concat (imap (fun k x => let cpu := cpus curr !!! k in
    col_lines (is_full i o) promTs (delta_prefix irq i)
      (zeros (Interrupts.CpuListChanged info) (Interrupts.NumCounters curr) o)
      k cpu (cpu_delta (cpus prev) (sl_data p) cpu x)) (sl_data c)) ++
  info_lines (is_full i o) promTs (old_info i o) (info_metric irq i).

(** What the generation did for an interrupt; [o] is the cached data before, [o']
    after. *)
Definition irq_done (F : Z) (promTs : bytes) (info : Interrupts.InterruptsInfo) (curr prev : Interrupts.Interrupts)
    (irq : bytes) (o o' : option ProcInterruptsMetricsIrqData) (L : list bytes) : Prop :=
  match Interrupts.Counters curr !! irq, Interrupts.Counters prev !! irq with
  | Some c, Some p =>
    exists i d', Interrupts.IrqInfo info !! irq = Some i /\
      L = irq_lines promTs info curr prev irq i o c p /\ o' = Some d' /\
      deltaMetricPrefix d' = delta_prefix irq i /\ infoMetric d' = info_metric irq i /\
      length (zeroDelta d') = Interrupts.NumCounters curr /\ (0 <= cycleNum d' < Z.max 1 F)%Z /\
      (forall d, o = Some d -> cycleNum d' = ((cycleNum d + 1) mod Z.max 1 F)%Z) /\
      (forall k x d, sl_data c !! k = Some x -> cpu_delta (cpus prev) (sl_data p) (cpus curr !!! k) x = Some d ->
         zeroDelta d' !! k = Some (d =? 0)%Z)
  | _, _ => L = [] /\ o' = o
  end.

Section step.
Context (F : Z) (promTs : bytes) (info : Interrupts.InterruptsInfo) (curr prev : Interrupts.Interrupts)
        (sfx : list bytes) (cmap : option (gmap nat nat)).
Hypothesis HF : (F <= MaxInt64)%Z.
Hypothesis Hcurr : scan_ok curr.
Hypothesis Hprev : scan_ok prev.
Hypothesis Hsfx : sfx = map cpu_suffix (cpus curr).
Hypothesis Hcols : cols_ok cmap (cpus curr) (cpus prev).
Hypothesis Hinfo : forall irq, is_Some (Interrupts.Counters curr !! irq) -> is_Some (Interrupts.Counters prev !! irq) ->
  is_Some (Interrupts.IrqInfo info !! irq).

Let changed := Interrupts.CpuListChanged info.
Let num := Interrupts.NumCounters curr.

Definition loop_ok (st : cache * Z) : Prop :=
  map_Forall (fun irq d => (forall i, Interrupts.IrqInfo info !! irq = Some i -> data_ok F irq i d) /\
                           (0 <= cycleNum d < Z.max 1 F)%Z /\
                           (changed = false -> length (zeroDelta d) = num)) st.1 /\ (0 <= st.2)%Z.

(** The data with which the lines of an interrupt are written. *)
Lemma interrupt_data irq m icm i :
  loop_ok (m, icm) -> Interrupts.IrqInfo info !! irq = Some i ->
  exists d0 icm0,
    irq_data F num (Interrupts.IrqInfo info) irq (m !! irq) icm =
      Ret (d0, is_full i (m !! irq), old_info i (m !! irq), icm0) /\
    deltaMetricPrefix d0 = delta_prefix irq i /\ infoMetric d0 = info_metric irq i /\
    (0 <= cycleNum d0 < Z.max 1 F)%Z /\ (0 <= icm0)%Z /\
    (if changed then replicate num false else zeroDelta d0) = zeros changed num (m !! irq) /\
    length (zeros changed num (m !! irq)) = num /\ (forall d, m !! irq = Some d -> cycleNum d0 = cycleNum d).
Proof.
  intros [Hm Hicm] Hi. cbn [fst snd] in *. unfold irq_data, updateIrqDataCache. rewrite Hi. cbn [must].
  destruct (m !! irq) as [d|] eqn:Em.
  - destruct (Hm irq d Em) as (Hd & Hcy & Hz). destruct (Hd i Hi) as [Hmet _]. unfold is_full, old_info.
    assert (length (zeros changed num (Some d)) = num) as Hzl.
    { unfold zeros. destruct changed; [apply length_replicate|by apply Hz]. }
    rewrite bind_ret. destruct (Interrupts.Changed i); simpl.
    + eexists _, _. split; [reflexivity|]. split_and!; simpl; try done; try lia. by intros d1 [= <-].
    + destruct (Hmet eq_refl). eexists _, _. split; [reflexivity|]. split_and!; try done; try lia. by intros d1 [= <-].
  - destruct (InitialCycleNum_Get F icm) as [cn icm'] eqn:Eg. apply InitialCycleNum_range in Eg as [Hr Hic]; [|done].
    rewrite !bind_ret. eexists _, icm'. split; [reflexivity|].
    split_and!; simpl; try done; try lia; unfold zeros; destruct changed; try done; apply length_replicate.
Qed.

Lemma interrupt_gen_irq irq st :
  loop_ok st -> is_Some (Interrupts.Counters curr !! irq) ->
  exists st' L, gen_irq F promTs sfx cmap info num (Interrupts.Counters curr) (Interrupts.Counters prev) irq st = Ret (st', L) /\
    loop_ok st' /\ irq_done F promTs info curr prev irq (st.1 !! irq) (st'.1 !! irq) L /\
    (forall k, k <> irq -> st'.1 !! k = st.1 !! k).
Proof.
  destruct st as [m icm]. intros Hst [c Hc]. cbn [fst] in *. unfold gen_irq, irq_done. rewrite Hc. cbn [must].
  rewrite bind_ret. destruct (Interrupts.Counters prev !! irq) as [p|] eqn:Hp; [|by eexists (m, icm), []].
  destruct (Hinfo irq ltac:(eauto) ltac:(eauto)) as [i Hi].
  destruct (interrupt_data irq m icm i Hst Hi) as (d0 & icm0 & -> & Hpre & Hinf & Hcy & Hicm0 & Hzd & Hzl & Hsame).
  rewrite bind_ret. fold changed. rewrite Hzd, Hsfx. destruct Hcurr as [[Hcl Hcnd] Hcc]. destruct Hprev as [[Hpl Hpnd] Hpc].
  destruct (gen_counters_spec (is_full i (m !! irq)) promTs (deltaMetricPrefix d0) cmap (cpus curr) (cpus prev) (sl_data p)
    Hpnd ltac:(rewrite (Hpc _ _ Hp); done) Hcols (sl_data c) 0 (zeros changed num (m !! irq))) as (zd' & Hg & Hl & _ & Hk).
  { rewrite (Hcc _ _ Hc). done. } { rewrite Hzl. done. }
  rewrite Hg, bind_ret. eexists (_, _), _. split; [reflexivity|]. cbn [fst snd]. split; [|split].
  - destruct Hst as [Hm _]. split; [|done]. cbn [fst]. apply map_Forall_insert_2; [|done].
    assert (0 <= next_cycle F (cycleNum d0) < Z.max 1 F)%Z by (rewrite next_cycle_mod by done; apply Z.mod_pos_bound; lia).
    split; [|split; [done|intros _; simpl; by rewrite Hl]].
    intros i' Hi'. rewrite Hi in Hi'. injection Hi' as <-. split; simpl; [by intros _|done].
  - rewrite lookup_insert_eq. eexists i, _. split; [done|]. split; [unfold irq_lines; by rewrite Hpre, Hinf|].
    assert (0 <= next_cycle F (cycleNum d0) < Z.max 1 F)%Z as [Hn1 Hn2] by (rewrite next_cycle_mod by done; apply Z.mod_pos_bound; lia).
    split; [done|]. simpl. split_and!; [done|done|by rewrite Hl|done|done| |done].
    intros d Hd. by rewrite next_cycle_mod, (Hsame d Hd) by done.
  - intros k Hne. by rewrite lookup_insert_ne.
Qed.
End step.

(** A generator that holds two scans.  Without a change of the heading the two
    scans have the same columns and the cached suffixes are theirs; the cached
    data are those of the information object. *)
Record gen_ok (g : ProcInterruptsMetrics) (curr prev : Interrupts.Interrupts) (currTs prevTs : Time) : Prop := mkGenOk {
  go_F : (fullMetricsFactor g <= MaxInt64)%Z;
  go_curr : procInterrupts g !! currIndex g = Some (Some curr) /\ procInterruptsTs g !! currIndex g = Some currTs;
  go_prev : procInterrupts g !! (1 - currIndex g) = Some (Some prev) /\ procInterruptsTs g !! (1 - currIndex g) = Some prevTs;
  go_scans : scan_ok curr /\ scan_ok prev;
  go_same : Interrupts.CpuListChanged (sharedInfo g) = false ->
    cpus curr = cpus prev /\
    (forall sfx, deltaMetricsSuffixCache g = Some sfx -> sfx = map cpu_suffix (cpus curr)) /\
    map_Forall (fun _ d => length (zeroDelta d) = Interrupts.NumCounters curr) (irqDataCache g);
  go_info : forall irq, is_Some (Interrupts.Counters curr !! irq) -> is_Some (Interrupts.Counters prev !! irq) ->
    is_Some (Interrupts.IrqInfo (sharedInfo g) !! irq);
  go_cache : map_Forall (fun irq d => (0 <= cycleNum d < Z.max 1 (fullMetricsFactor g))%Z /\
    forall i, Interrupts.IrqInfo (sharedInfo g) !! irq = Some i -> data_ok (fullMetricsFactor g) irq i d) (irqDataCache g)
}.

Lemma interrupt_layout g curr prev currTs prevTs :
  gen_ok g curr prev currTs prevTs ->
  exists sfx cmap, layout (sharedInfo g) curr prev (deltaMetricsSuffixCache g) = (sfx, cmap) /\
    sfx = map cpu_suffix (cpus curr) /\ cols_ok cmap (cpus curr) (cpus prev).
Proof.
  intros [_ _ _ [[Hc _] [Hp _]] Hs _ _]. unfold layout.
  set (pc := (Interrupts.CpuList prev, Interrupts.NumCounters prev)). set (cc := (Interrupts.CpuList curr, Interrupts.NumCounters curr)).
  pose proof (cols_ok_map cc pc (proj2 Hp)) as Hm.
  destruct (updateCpuList cc pc) as [sfx cmap] eqn:Eu. cbn [snd] in Hm.
  assert (sfx = map cpu_suffix (cpus curr)) as -> by (unfold updateCpuList in Eu; by injection Eu as <- _).
  destruct (Interrupts.CpuListChanged (sharedInfo g)); [eexists _, _; split; [done|]; split; [done|exact Hm]|].
  destruct (Hs eq_refl) as (He & Hsf & _). rewrite <- He in *.
  destruct (deltaMetricsSuffixCache g) as [sfx'|]; (eexists _, _; split; [reflexivity|]; split; [|apply cols_ok_same, Hc]).
  - by apply Hsf.
  - done.
Qed.

Context (order : gmap bytes slice -> list bytes) (order2 : cache -> list bytes).
Hypothesis order_ok : forall m, NoDup (order m) /\ forall k, k ∈ order m <-> is_Some (m !! k).
Hypothesis order2_ok : forall m, NoDup (order2 m) /\ forall k, k ∈ order2 m <-> is_Some (m !! k).

(** A generation with two scans does not panic.  For every interrupt that both
    have it writes, for every CPU that both have, the exact delta of that CPU
    modulo 2^64, by the rule of zeros and full cycles; a changed description makes
    the generation full, zeroes the old information metric and sets the new one.
    What is gone is reported and forgotten when the clean-up is due. *)
Lemma interrupts_generation g icm curr prev currTs prevTs :
  gen_ok g curr prev currTs prevTs -> (0 <= icm)%Z ->
  exists g' icm' Ls gone,
    generateMetrics order order2 g icm =
      Ret (g', icm', concat Ls ++ gone ++
             [line (default updateIntervalMetricsCache (intervalMetric g)) (FormatFloat 6 (Seconds (Sub currTs prevTs)))
                (ts_suffix currTs)],
           (Z.of_nat (length (concat Ls ++ gone) + 1), totalMetricsCount curr)) /\
    Forall2 (fun irq L => irq_done (fullMetricsFactor g) (ts_suffix currTs) (sharedInfo g) curr prev irq
                            (irqDataCache g !! irq) (irqDataCache g' !! irq) L)
      (order (Interrupts.Counters curr)) Ls /\
    gone_reported (fun _ d => line (infoMetric d) (bs "0") (ts_suffix currTs)) (Interrupts.Counters curr) (irqDataCache g) (irqDataCache g')
      (size (dom (irqDataCache g) ∪ (dom (Interrupts.Counters curr) ∩ dom (Interrupts.Counters prev)) : gset bytes) <>
       size (Interrupts.IrqInfo (sharedInfo g))) gone /\
    currIndex g' = 1 - currIndex g /\ sharedInfo g' = sharedInfo g /\ procInterrupts g' = procInterrupts g /\
    procInterruptsTs g' = procInterruptsTs g /\ fullMetricsFactor g' = fullMetricsFactor g /\
    deltaMetricsSuffixCache g' = Some (map cpu_suffix (cpus curr)) /\ (0 <= icm')%Z.
Proof.
  intros Hg Hicm. destruct (interrupt_layout _ _ _ _ _ Hg) as (sfx & cmap & Hlay & Hsfx & Hcols).
  destruct Hg as [HF [Hc1 Hc2] [Hp1 Hp2] [Hsc Hsp] Hsame Hinfo Hcache].
  unfold generateMetrics. rewrite Hc1, Hc2, Hp1, Hp2. cbn [must]. rewrite !bind_ret. cbn [must]. rewrite bind_ret, Hlay.
  set (F := fullMetricsFactor g) in *. set (promTs := ts_suffix currTs). set (cs := Interrupts.Counters curr).
  destruct (order_ok cs) as [Hnd Hin].
  destruct (for_keys_spec (gen_irq F promTs sfx cmap (sharedInfo g) (Interrupts.NumCounters curr) cs (Interrupts.Counters prev))
    fst (loop_ok F (sharedInfo g) curr) (irq_done F promTs (sharedInfo g) curr prev) (order cs) (irqDataCache g, icm))
    as ([m icm'] & Ls & Hr & [Hm Hi] & HQ & Hrest).
  { intros st k Hst Hk. apply interrupt_gen_irq; [done|done|done|done|done|done|done|by apply Hin]. }
  { done. }
  { split; [|done]. intros irq d Hd. destruct (Hcache irq d Hd) as [Hcy Hdo]. split; [done|]. split; [done|].
    intros Ech. by apply (proj2 (proj2 (Hsame Ech)) irq). }
  rewrite Hr, bind_ret. cbn [fst snd] in *.
  destruct (clean_up_spec (fun _ d => line (infoMetric d) (bs "0") promTs) cs order2 (irqDataCache g) m (size (Interrupts.IrqInfo (sharedInfo g))) order2_ok)
    as (m' & gone & -> & Hm' & Hgone).
  { intros k Hk. apply Hrest. rewrite Hin, Hk. by intros []. }
  rewrite (loop_size (irqDataCache g) m cs (Interrupts.Counters prev)) in Hgone.
  2:{ intros irq. destruct (decide (irq ∈ order cs)) as [Ho|Ho].
      - destruct (list_elem_of_lookup_1 _ _ Ho) as [n Hn]. destruct (Forall2_lookup_l _ _ _ _ _ HQ Hn) as (L & _ & Hq). cbn beta in Hq.
        unfold irq_done in Hq. fold cs in Hq. destruct (proj1 (Hin irq) Ho) as [c Hc]. rewrite Hc in *.
        destruct (Interrupts.Counters prev !! irq) as [p|]; [|destruct Hq as [_ ->]; naive_solver].
        destruct Hq as (i & d' & _ & _ & -> & _). naive_solver.
      - rewrite Hrest by done. rewrite Hin in Ho. naive_solver. }
  eexists _, icm', Ls, gone. split; [rewrite !length_app; cbn [length]; rewrite <- Nat.add_assoc; reflexivity|]. split; [|split; [exact Hgone|]].
  - cbn [irqDataCache]. apply Forall2_same_length_lookup. split; [by eapply Forall2_length|]. intros n irq L Ho HL.
    pose proof (Forall2_lookup_lr _ _ _ _ _ _ HQ Ho HL) as Hq. cbn beta in Hq.
    rewrite (Hm' irq); [done|]. apply Hin. by eapply list_elem_of_lookup_2.
  - split_and!; try done. cbn [deltaMetricsSuffixCache]. by rewrite Hsfx.
Qed.
(** ** Any sequence of scans with one heading *)

Section scans.
Context (F : Z) (ts : list wtoken) (trail : bytes).
Hypothesis HF : (F <= MaxInt64)%Z.
Hypothesis Hhdr : CpuHeader.hdr_ok ts trail.
Hypothesis Hcpus : NoDup (CpuHeader.cpus ts).

Abbreviation key := (Interrupts.key unicode_upper).
Definition keys (rows : list Interrupts.row) : list bytes := map key rows.
Definition file (rows : list Interrupts.row) : bytes := CpuHeader.hdr ts trail ++ [NL] ++ concat (map Interrupts.row_out rows).
Definition rows_ok (rows : list Interrupts.row) : Prop := Forall (Interrupts.row_ok unicode_upper (length ts)) rows /\ NoDup (keys rows).

(** The files read so far, the last one first. *)
Abbreviation history := (list (list Interrupts.row)).
Definition seen (h : history) (irq : bytes) : Prop := exists rows, rows ∈ h /\ irq ∈ keys rows.
(** No interrupt that was gone comes back. *)
Definition no_return (h : history) (rows : list Interrupts.row) : Prop :=
  match h with [] => True | rows0 :: _ => forall irq, irq ∈ keys rows -> seen h irq -> irq ∈ keys rows0 end.

(** The generator after executions on the files of a history, each with its own
    time, on behalf of any shared counters. *)
Inductive scanned : history -> ProcInterruptsMetrics -> Prop :=
| scanned_new : scanned [] (NewProcInterruptsMetrics F)
| scanned_file h g rows now icm mgs g' icm' mgs' buf :
    scanned h g -> rows_ok rows -> no_return h rows -> (0 <= icm)%Z -> gen_wf mgs ->
    Execute (ReadOk (file rows)) now order order2 g icm mgs = Ret (g', icm', mgs', buf, true) ->
    scanned (rows :: h) g'.

(** An object holds the rows of a file. *)
Definition scan_of (rows : list Interrupts.row) (o : Interrupts.Interrupts) : Prop :=
  forall r, r ∈ rows -> exists v, Interrupts.Counters o !! key r = Some v /\ length (sl_data v) = length ts /\
    take (length (Interrupts.row_vals r)) (sl_data v) = Interrupts.row_vals r.

Record object_ok (o : Interrupts.Interrupts) : Prop := mkObjectOk {
  ob_slices : Interrupts.slices_ok (Interrupts.Counters o);
  ob_lengths : map_Forall (fun _ v => length (sl_data v) = length ts) (Interrupts.Counters o);
  ob_hdr : CpuHeader.update_cpu_list (CpuHeader.hdr ts trail) = (length ts, inr (Interrupts.CpuList o)) /\ Interrupts.NumCounters o = length ts
}.
Record info_ok (info : Interrupts.InterruptsInfo) (rows : list Interrupts.row) : Prop := mkInfoOk {
  in_hdr : Interrupts.cpuHeaderLine info = CpuHeader.hdr ts trail;
  in_info : map_Forall (fun _ r => Interrupts.irq_scanNum r = Interrupts.scanNum info /\ Interrupts.info_coherent r) (Interrupts.IrqInfo info);
  in_range : (MinInt64 <= Interrupts.scanNum info <= MaxInt64)%Z;
  in_keys : forall irq, is_Some (Interrupts.IrqInfo info !! irq) <-> irq ∈ keys rows
}.

Lemma object_cpus o : object_ok o -> cpus o = CpuHeader.cpus ts /\ scan_ok o.
Proof.
  intros [_ Hl [Hu Hn]]. destruct (CpuHeader.update_cpu_list_hdr ts trail Hhdr) as (cl & Hcl & Hof).
  rewrite Hu in Hcl. injection Hcl as <-. assert (cpus o = CpuHeader.cpus ts) as Hc.
  { apply list_eq. intros k. rewrite <- Hof. unfold cpus, cpu_nums, CpuHeader.cpu_of. rewrite Hn.
    destruct (Interrupts.CpuList o) as [l|]; [done|]. cbn [default from_option]. rewrite list_lookup_fmap.
    case_decide; [by rewrite lookup_seq_lt by done|]. apply fmap_None, lookup_seq_ge. lia. }
  split; [done|]. split; rewrite ?Hc, ?Hn.
  - split; [|done]. unfold CpuHeader.cpus. by rewrite length_map.
  - exact Hl.
Qed.

Lemma object_wf info rows o : info_ok info rows -> object_ok o -> Interrupts.wf info o.
Proof.
  intros [H1 H2 H3 _] [Hs _ [Hu Hn]]. split; [done|done| |done]. rewrite H1, Hn. split; [by apply CpuHeader.hdr_no_nl|done].
Qed.

Lemma object_clone o : object_ok o -> object_ok (Interrupts.Clone false o) /\
  forall irq, is_Some (Interrupts.Counters (Interrupts.Clone false o) !! irq) <-> is_Some (Interrupts.Counters o !! irq).
Proof.
  intros [Hs Hl Hh]. unfold Interrupts.Clone. split; [|intros irq; cbn; by rewrite lookup_fmap, fmap_is_Some]. split; [| |done].
  - intros k v Hv. cbn in Hv. rewrite lookup_fmap in Hv. apply fmap_Some in Hv as (v0 & Hv0 & ->). apply sl_make_ok.
  - intros k v Hv. cbn in Hv. rewrite lookup_fmap in Hv. apply fmap_Some in Hv as (v0 & Hv0 & ->). rewrite <- (Hl k v0 Hv0).
    rewrite !sl_data_length; [done|by apply (Hs k)|apply sl_make_ok].
Qed.

(** A description that has not changed gives the same metrics. *)
Lemma row_info_same scan irq i r : Interrupts.Changed (Interrupts.row_info scan (Some i) r) = false ->
  delta_prefix irq (Interrupts.row_info scan (Some i) r) = delta_prefix irq i /\
  info_metric irq (Interrupts.row_info scan (Some i) r) = info_metric irq i.
Proof.
  unfold Interrupts.row_info. cbn [default from_option]. unfold id. destruct (Interrupts.numeric r); [|done]. unfold Interrupts.set_info.
  cbn [Interrupts.Changed]. case_bool_decide; cbn [negb]; [done|]. unfold Interrupts.update. by repeat destruct (span _ _).
Qed.
(** Between two executions: the object of the last scan and the one that the next
    scan parses, which is a clone when there is none yet. *)
Definition next_object (prev : Interrupts.Interrupts) (o : option Interrupts.Interrupts) : Interrupts.Interrupts :=
  default (Interrupts.Clone false prev) o.
Record objects_ok (h : history) (rows0 : list Interrupts.row) (g : ProcInterruptsMetrics) (prev : Interrupts.Interrupts)
    (o : option Interrupts.Interrupts) : Prop := mkObjectsOk {
  oo_prev : procInterrupts g !! (1 - currIndex g) = Some (Some prev) /\ object_ok prev /\ scan_of rows0 prev;
  oo_next : procInterrupts g !! currIndex g = Some o /\ object_ok (next_object prev o);
  oo_both : forall irq, is_Some (Interrupts.Counters (next_object prev o) !! irq) -> is_Some (Interrupts.Counters prev !! irq) -> irq ∈ keys rows0;
  oo_seen : forall irq, is_Some (Interrupts.Counters prev !! irq) \/ is_Some (Interrupts.Counters (next_object prev o) !! irq) -> seen h irq
}.
Record between (h : history) (g : ProcInterruptsMetrics) : Prop := mkBetween {
  bt_F : fullMetricsFactor g = F;
  bt_shape : currIndex g <= 1 /\ length (procInterrupts g) = 2 /\ length (procInterruptsTs g) = 2;
  bt_objects : match h with
    | [] => procInterrupts g = [None; None] /\ sharedInfo g = Interrupts.NewInterruptsInfo
    | rows0 :: _ => info_ok (sharedInfo g) rows0 /\ exists prev o, objects_ok h rows0 g prev o
    end;
  bt_cache : map_Forall (fun irq d => (0 <= cycleNum d < Z.max 1 F)%Z /\ length (zeroDelta d) = length ts /\ seen h irq /\
    forall i, Interrupts.IrqInfo (sharedInfo g) !! irq = Some i -> deltaMetricPrefix d = delta_prefix irq i /\ infoMetric d = info_metric irq i)
    (irqDataCache g);
  bt_suffixes : forall sfx, deltaMetricsSuffixCache g = Some sfx -> sfx = map cpu_suffix (CpuHeader.cpus ts)
}.

(** What a parse makes of an object, and of the information. *)
Lemma parse_object info (o : Interrupts.Interrupts) rows :
  Interrupts.wf info o -> map_Forall (fun _ v => length (sl_data v) = length ts) (Interrupts.Counters o) -> rows_ok rows ->
  exists info' o' scan, Interrupts.Parse unicode_upper (ReadOk (file rows)) info o = Ret (info', o', None) /\
    object_ok o' /\ info_ok info' rows /\ scan_of rows o' /\
    Interrupts.CpuListChanged info' = negb (bool_decide (Interrupts.cpuHeaderLine info = CpuHeader.hdr ts trail)) /\
    (forall irq, is_Some (Interrupts.Counters o' !! irq) <-> irq ∈ keys rows \/ is_Some (Interrupts.Counters o !! irq) /\ Interrupts.IrqInfo info !! irq = None) /\
    (forall irq x, Interrupts.IrqInfo info' !! irq = Some x ->
       exists r, r ∈ rows /\ irq = key r /\ x = Interrupts.row_info scan (Interrupts.IrqInfo info !! irq) r) /\
    (forall r, r ∈ rows -> exists x, Interrupts.IrqInfo info' !! key r = Some x /\
       (Interrupts.numeric r = true ->
        (Interrupts.Controller x, Interrupts.HWInterrupt x, Interrupts.Devices x) = Interrupts.describe (Interrupts.r_desc r))).
Proof.
  intros Hw Hlen [Hr Hnd].
  destruct (Interrupts.interrupts_parse_rows unicode_upper info o ts trail rows Hw Hhdr Hr Hnd) as
    (info' & o' & cl & scan & Hp & Hu & _ & Hcl & Hn & Hh & Hch & HC & HI & _ & Hw').
  exists info', o', scan. split; [exact Hp|]. pose proof Hw as [Hsl Hsc _ _]. pose proof Hw' as [Hsl' Hsc' _ Hrg'].
  assert (forall r, r ∈ rows -> length (sl_data (Interrupts.row_slice (length ts) (Interrupts.Counters o !! key r) r)) = length ts /\
    take (length (Interrupts.row_vals r)) (sl_data (Interrupts.row_slice (length ts) (Interrupts.Counters o !! key r) r)) = Interrupts.row_vals r) as Hv.
  { intros r Hin. eapply Interrupts.irq_slice_spec; [|intros; by eapply Hsl].
    eapply Interrupts.row_ok_length. by eapply (proj1 (Forall_forall _ _) Hr). }
  split; [|split; [|split; [|split; [exact Hch|split; [|split]]]]].
  - split; [done| |by rewrite Hcl]. intros k v [(r & Hin & -> & ->)|(_ & Hk & _)]%HC; [by apply Hv|by apply (Hlen k)].
  - split; [done|done|done|]. intros irq. split.
    + intros [x (r & Hin & -> & _)%HI]. by apply list_elem_of_fmap_2.
    + intros (r & -> & Hin)%list_elem_of_fmap. eexists. apply HI. by exists r.
  - intros r Hin. eexists. split; [apply HC; left; by exists r|]. by apply Hv.
  - intros irq. split.
    + intros [v [(r & Hin & -> & _)|(_ & Hk & Hi)]%HC]; [left; by apply list_elem_of_fmap_2|right; split; [by exists v|done]].
    + intros [(r & -> & Hin)%list_elem_of_fmap|[[v Hk] Hi]]; [eexists; apply HC; left; by exists r|].
      destruct (decide (irq ∈ map key rows)) as [(r & -> & Hin)%list_elem_of_fmap|Hni]; [eexists; apply HC; left; by exists r|].
      exists v. apply HC. by right.
  - intros irq x (r & Hin & -> & ->)%HI. by exists r.
  - intros r Hin. eexists. split; [apply HI; by exists r|]. apply Interrupts.row_info_coherent. intros x Hx. by apply (Hsc (key r)).
Qed.

(** The first execution writes nothing. *)
Lemma scan_first g rows now icm mgs :
  between [] g -> rows_ok rows -> (0 <= icm)%Z -> gen_wf mgs ->
  exists g' icm' mgs', Execute (ReadOk (file rows)) now order order2 g icm mgs = Ret (g', icm', mgs', Some [], true) /\
    between [rows] g' /\ procInterruptsTs g' !! (1 - currIndex g') = Some now /\ (0 <= icm')%Z /\ gen_wf mgs'.
Proof.
  intros [HFg [Hci [Hl1 Hl2]] [Hobj Hinf] Hcache Hsfx] Hrows Hicm Hmgs. unfold Execute. set (ci := currIndex g) in *.
  assert (procInterrupts g !! ci = Some None) as Hc by (rewrite Hobj; destruct ci as [|[|]]; (done || lia)).
  assert (procInterrupts g !! (1 - ci) = Some None) as Hp by (rewrite Hobj; destruct ci as [|[|]]; (done || lia)).
  rewrite Hc, Hp. cbn [must]. rewrite !bind_ret, Hinf.
  destruct (parse_object Interrupts.NewInterruptsInfo (Interrupts.NewInterrupts interruptsPath) rows) as
    (info' & o' & scan & -> & Ho & Hi & Hs & _ & HC & _ & _).
  { split; [apply map_Forall_empty|apply map_Forall_empty|apply CpuHeader.hdr_coherent_new|vm_compute; split; discriminate]. }
  { apply map_Forall_empty. } { done. }
  destruct (lookup_lt_is_Some_2 (procInterruptsTs g) (1 - ci)) as [t0 Ht0]; [lia|].
  assert (<[ci:=Some o']> (procInterrupts g) !! ci = Some (Some o') /\ <[ci:=Some o']> (procInterrupts g) !! (1 - ci) = Some None) as [E1 E2].
  { rewrite list_lookup_insert_eq, list_lookup_insert_ne by lia. done. }
  assert (<[ci:=now]> (procInterruptsTs g) !! ci = Some now /\ <[ci:=now]> (procInterruptsTs g) !! (1 - ci) = Some t0) as [E3 E4].
  { rewrite list_lookup_insert_eq, list_lookup_insert_ne by lia. done. }
  rewrite bind_ret, store_Ret, bind_ret by lia. cbn [procInterruptsTs]. rewrite store_Ret, bind_ret by lia.
  unfold generateMetrics. cbn [procInterrupts procInterruptsTs currIndex]. rewrite E1, E2, E3, E4. cbn [must]. rewrite !bind_ret. cbn [must]. rewrite !bind_ret.
  rewrite Update_spec, bind_ret by done.
  eexists _, icm, _. split; [reflexivity|]. cbn [procInterruptsTs currIndex].
  split; [|split; [by replace (1 - (1 - ci)) with ci by lia|split; [done|apply gen_wf_insert; [done|]; unfold add_list; rewrite length_zip_with, wf_default_length; done]]].
  split; cbn [fullMetricsFactor currIndex procInterrupts procInterruptsTs sharedInfo irqDataCache deltaMetricsSuffixCache].
  - done.
  - rewrite !length_insert. split; [lia|done].
  - split; [done|]. exists o', None. assert (forall irq, is_Some (Interrupts.Counters o' !! irq) -> irq ∈ keys rows) as Hk.
    { intros irq [?|[[? E] _]]%HC; [done|]. cbn in E. by rewrite lookup_empty in E. }
    split; cbn [procInterrupts currIndex].
    + replace (1 - (1 - ci)) with ci by lia. rewrite list_lookup_insert_eq by lia. done.
    + rewrite list_lookup_insert_ne by lia. split; [done|]. by apply object_clone.
    + intros irq _. apply Hk.
    + intros irq Hor. exists rows. split; [by left|]. destruct Hor as [H|H]; [by apply Hk|]. apply Hk. by apply (object_clone o').
  - intros irq d Hd. destruct (Hcache irq d Hd) as (_ & _ & (rows' & Hn & _) & _). by apply elem_of_nil in Hn.
  - done.
Qed.

(** The state in which the generation of a later execution starts. *)
Record parsed (h : history) (rows0 rows : list Interrupts.row) (g : ProcInterruptsMetrics) (curr prev : Interrupts.Interrupts)
    (currTs prevTs : Time) : Prop := mkParsed {
  pa_gen : gen_ok g curr prev currTs prevTs;
  pa_shape : currIndex g <= 1 /\ length (procInterrupts g) = 2 /\ length (procInterruptsTs g) = 2 /\ fullMetricsFactor g = F;
  pa_objects : object_ok curr /\ object_ok prev /\ scan_of rows curr /\ scan_of rows0 prev;
  pa_info : info_ok (sharedInfo g) rows /\ (forall irq, irq ∈ keys rows -> is_Some (Interrupts.Counters curr !! irq)) /\
    (forall r, r ∈ rows -> exists x, Interrupts.IrqInfo (sharedInfo g) !! key r = Some x /\
       (Interrupts.numeric r = true ->
        (Interrupts.Controller x, Interrupts.HWInterrupt x, Interrupts.Devices x) = Interrupts.describe (Interrupts.r_desc r)));
  pa_both : forall irq, is_Some (Interrupts.Counters curr !! irq) /\ is_Some (Interrupts.Counters prev !! irq) <-> irq ∈ keys rows /\ irq ∈ keys rows0;
  pa_seen : forall irq, is_Some (Interrupts.Counters prev !! irq) \/ is_Some (Interrupts.Counters curr !! irq) -> seen (rows :: h) irq;
  pa_cache : map_Forall (fun irq d => (0 <= cycleNum d < Z.max 1 F)%Z /\ length (zeroDelta d) = length ts /\ seen h irq) (irqDataCache g)
}.

Lemma scan_parse h rows0 g prev o rows now :
  between (rows0 :: h) g -> objects_ok (rows0 :: h) rows0 g prev o -> rows_ok rows -> no_return (rows0 :: h) rows ->
  exists info' curr prevTs, Interrupts.Parse unicode_upper (ReadOk (file rows)) (sharedInfo g) (next_object prev o) = Ret (info', curr, None) /\
    parsed (rows0 :: h) rows0 rows
      (mkMetrics (fullMetricsFactor g) (<[currIndex g := Some curr]> (procInterrupts g)) info' (<[currIndex g := now]> (procInterruptsTs g)) (currIndex g)
         (irqDataCache g) (deltaMetricsSuffixCache g) (intervalMetric g)) curr prev now prevTs.
Proof.
  intros [HFg [Hci [Hl1 Hl2]] [Hin _] Hcache Hsfx] [(Hp & Hop & Hsp) (Hn & Hon) Hboth Hseen] Hrows Hret.
  pose proof (object_wf _ _ _ Hin Hon) as Hw. set (c := next_object prev o) in *. pose proof Hon as [_ Hlen _].
  destruct (parse_object (sharedInfo g) c rows Hw Hlen Hrows) as (info' & curr & scan & Hpar & Ho & Hi & Hs & Hch & HC & HI & Hdesc).
  destruct (lookup_lt_is_Some_2 (procInterruptsTs g) (1 - currIndex g)) as [t0 Ht0]; [lia|]. exists info', curr, t0. split; [exact Hpar|].
  assert (forall irq, irq ∈ keys rows0 -> is_Some (Interrupts.Counters prev !! irq)) as Hprev.
  { intros irq (r & -> & Hr)%list_elem_of_fmap. destruct (Hsp r Hr) as (v & -> & _). by eexists. }
  assert (forall irq, is_Some (Interrupts.Counters curr !! irq) -> is_Some (Interrupts.Counters prev !! irq) -> irq ∈ keys rows /\ irq ∈ keys rows0) as Hb.
  { intros irq [Hk|[Hk Hi0]]%HC Hk2.
    - split; [done|]. apply (Hret irq Hk), Hseen. by left.
    - exfalso. pose proof (Hboth irq Hk Hk2) as Hk0. apply (in_keys _ _ Hin) in Hk0 as [? E]. congruence. }
  assert (forall irq, irq ∈ keys rows -> is_Some (Interrupts.Counters curr !! irq)) as Hcurr by (intros irq Hk; apply HC; by left).
  destruct (object_cpus curr Ho) as [Hc1 Hc2]. destruct (object_cpus prev Hop) as [Hp1 Hp2].
  split; cbn [fullMetricsFactor currIndex procInterrupts procInterruptsTs sharedInfo irqDataCache deltaMetricsSuffixCache].
  - split; cbn [fullMetricsFactor currIndex procInterrupts procInterruptsTs sharedInfo irqDataCache deltaMetricsSuffixCache].
    + by rewrite HFg.
    + rewrite !list_lookup_insert_eq by lia. done.
    + rewrite !list_lookup_insert_ne by lia. done.
    + done.
    + intros _. rewrite Hc1, Hp1. split; [done|]. split; [exact Hsfx|]. intros irq d Hd. rewrite (proj2 (ob_hdr _ Ho)). by apply (Hcache irq d).
    + intros irq H1 H2. apply (in_keys _ _ Hi). by apply (Hb irq).
    + intros irq d Hd. destruct (Hcache irq d Hd) as (Hcy & _ & Hse & Hmet). rewrite HFg. split; [done|]. intros x Hx. split; [|done].
      assert (irq ∈ keys rows) as Hk by (apply (in_keys _ _ Hi); by eexists).
      assert (irq ∈ keys rows0) as Hk0 by by apply Hret. apply (in_keys _ _ Hin) in Hk0 as [i0 Hi0].
      destruct (HI irq x Hx) as (r & _ & _ & ->). rewrite Hi0. intros Hch'. destruct (row_info_same scan irq i0 r Hch') as [-> ->]. by apply Hmet.
  - rewrite !length_insert. done.
  - done.
  - done.
  - intros irq. split; [intros [H1 H2]; by apply Hb|]. intros [H1 H2]. split; [by apply Hcurr|by apply Hprev].
  - intros irq Hor. assert (irq ∈ keys rows \/ seen (rows0 :: h) irq) as [Hk|(r & Hr & Hk)].
    { destruct Hor as [H1|[H1|[H1 _]]%HC]; [right; apply Hseen; by left|by left|right; apply Hseen; by right]. }
    + exists rows. split; [by left|done].
    + exists r. split; [by right|done].
  - intros irq d Hd. destruct (Hcache irq d Hd) as (? & ? & ? & _). done.
Qed.

(** What a generation leaves is fit for the next execution. *)
Lemma scan_next h rows0 rows g curr prev currTs prevTs g' gone Ls promTs due :
  parsed (rows0 :: h) rows0 rows g curr prev currTs prevTs -> no_return (rows0 :: h) rows ->
  Forall2 (fun irq L => irq_done F promTs (sharedInfo g) curr prev irq (irqDataCache g !! irq) (irqDataCache g' !! irq) L)
    (order (Interrupts.Counters curr)) Ls ->
  gone_reported (fun _ d => line (infoMetric d) (bs "0") promTs) (Interrupts.Counters curr) (irqDataCache g) (irqDataCache g') due gone ->
  currIndex g' = 1 - currIndex g -> sharedInfo g' = sharedInfo g -> procInterrupts g' = procInterrupts g ->
  procInterruptsTs g' = procInterruptsTs g -> fullMetricsFactor g' = fullMetricsFactor g ->
  deltaMetricsSuffixCache g' = Some (map cpu_suffix (cpus curr)) ->
  between (rows :: rows0 :: h) g'.
Proof.
  intros [Hgen [Hci [Hl1 [Hl2 HFg]]] (Hoc & Hop & Hsc & Hsp) (Hinf & Hcurr & _) Hboth Hseen Hcache] Hret HQ Hgone E1 E2 E3 E4 E5 E6.
  destruct Hgen as [_ [G1 _] [G2 _] _ _ _ _].
  assert (forall irq d, irqDataCache g !! irq = Some d -> irq ∉ keys rows -> (0 <= cycleNum d < Z.max 1 F)%Z /\ length (zeroDelta d) = length ts /\
    seen (rows :: rows0 :: h) irq /\ forall i, Interrupts.IrqInfo (sharedInfo g') !! irq = Some i -> deltaMetricPrefix d = delta_prefix irq i /\ infoMetric d = info_metric irq i) as Hold.
  { intros irq d Hd Hk. destruct (Hcache irq d Hd) as (H1 & H2 & (r & Hr & Hrk)). split; [done|]. split; [done|]. split; [exists r; split; [by right|done]|].
    intros i Hi. exfalso. apply Hk, (in_keys _ _ Hinf). rewrite <- E2. by eexists. }
  split.
  - by rewrite E5.
  - rewrite E1, E3, E4. split; [lia|done].
  - rewrite E2. split; [done|]. exists curr, (Some prev). split; rewrite ?E1, ?E3; cbn [next_object default from_option]; unfold id.
    + replace (1 - (1 - currIndex g)) with (currIndex g) by lia. done.
    + done.
    + intros irq H1 H2. by apply (Hboth irq).
    + intros irq Hor. apply Hseen. tauto.
  - intros irq d Hd. destruct Hgone as (ks & _ & _ & _ & Hafter). destruct (order_ok (Interrupts.Counters curr)) as [_ Hin].
    destruct (Interrupts.Counters curr !! irq) as [v|] eqn:Ec.
    + assert (irq ∈ order (Interrupts.Counters curr)) as Ho by (apply Hin; by exists v).
      destruct (list_elem_of_lookup_1 _ _ Ho) as [n Hn]. destruct (Forall2_lookup_l _ _ _ _ _ HQ Hn) as (L & _ & Hq). cbn beta in Hq.
      unfold irq_done in Hq. rewrite Ec in Hq. destruct (Interrupts.Counters prev !! irq) as [p|] eqn:Ep.
      * destruct Hq as (i & d' & Hi & _ & Ed & Q1 & Q2 & Q3 & Q4 & _). rewrite Ed in Hd. injection Hd as <-.
        split; [done|]. split; [by rewrite Q3, (proj2 (ob_hdr _ Hoc))|]. split; [apply Hseen; right; by exists v|].
        intros i' Hi'. rewrite E2, Hi in Hi'. by injection Hi' as <-.
      * destruct Hq as [_ Eo]. rewrite Eo in Hd. apply Hold; [done|]. intros Hk.
        destruct (Hcache irq d Hd) as (_ & _ & Hse). pose proof (Hret irq Hk Hse) as Hk0.
        destruct (proj2 (Hboth irq) (conj Hk Hk0)) as [_ [? E]]. congruence.
    + rewrite Hafter in Hd by done. destruct (bool_decide _); [done|]. apply Hold; [done|]. intros Hk. destruct (Hcurr irq Hk) as [? E]. congruence.
  - intros sfx. rewrite E6. intros [= <-]. by rewrite (proj1 (object_cpus curr Hoc)).
Qed.

(** What an execution on the rows of a file, after those of [rows0], has written;
    [due] is whether something that is gone is looked for. *)
Definition deltas_written (rows0 rows : list Interrupts.row) (now : Time) (g g' : ProcInterruptsMetrics) (out : bytes) : Prop :=
  exists curr prev prevTs Ls gone,
    procInterruptsTs g !! (1 - currIndex g) = Some prevTs /\
    out = concat (concat Ls ++ gone ++ [line (default updateIntervalMetricsCache (intervalMetric g)) (FormatFloat 6 (Seconds (Sub now prevTs)))
                                          (ts_suffix now)]) /\
    scan_of rows curr /\ scan_of rows0 prev /\ cpus curr = CpuHeader.cpus ts /\ cpus prev = CpuHeader.cpus ts /\
    (forall irq, is_Some (Interrupts.Counters curr !! irq) /\ is_Some (Interrupts.Counters prev !! irq) <-> irq ∈ keys rows /\ irq ∈ keys rows0) /\
    (forall r, r ∈ rows -> exists x, Interrupts.IrqInfo (sharedInfo g') !! key r = Some x /\
       (Interrupts.numeric r = true ->
        (Interrupts.Controller x, Interrupts.HWInterrupt x, Interrupts.Devices x) = Interrupts.describe (Interrupts.r_desc r))) /\
    Forall2 (fun irq L => irq_done F (ts_suffix now) (sharedInfo g') curr prev irq (irqDataCache g !! irq) (irqDataCache g' !! irq) L)
      (order (Interrupts.Counters curr)) Ls /\
    gone_reported (fun _ d => line (infoMetric d) (bs "0") (ts_suffix now)) (Interrupts.Counters curr) (irqDataCache g) (irqDataCache g')
      (size (dom (irqDataCache g) ∪ (dom (Interrupts.Counters curr) ∩ dom (Interrupts.Counters prev)) : gset bytes) <>
       size (Interrupts.IrqInfo (sharedInfo g'))) gone.

Lemma scan_step h g rows now icm mgs :
  between h g -> rows_ok rows -> no_return h rows -> (0 <= icm)%Z -> gen_wf mgs ->
  exists g' icm' mgs' out, Execute (ReadOk (file rows)) now order order2 g icm mgs = Ret (g', icm', mgs', Some out, true) /\
    between (rows :: h) g' /\ procInterruptsTs g' !! (1 - currIndex g') = Some now /\ (0 <= icm')%Z /\ gen_wf mgs' /\
    match h with [] => out = [] | rows0 :: _ => deltas_written rows0 rows now g g' out end.
Proof.
  intros Hb Hrows Hret Hicm Hmgs. destruct h as [|rows0 h].
  { destruct (scan_first g rows now icm mgs Hb Hrows Hicm Hmgs) as (g' & icm' & mgs' & H1 & H2 & H3 & H4 & H5). by exists g', icm', mgs', []. }
  destruct (id Hb) as [_ [Hci [Hl1 Hl2]] [Hin (prev & o & Hobj)] _ _]. pose proof Hobj as [(Hp & _) (Hn & _) _ _].
  destruct (scan_parse h rows0 g prev o rows now Hb Hobj Hrows Hret) as (info' & curr & prevTs & Hpar & Hpa).
  unfold Execute. rewrite Hn, Hp. cbn [must]. rewrite !bind_ret.
  replace (match o with Some s => s | None => Interrupts.Clone false prev end) with (next_object prev o) by by destruct o.
  rewrite Hpar, bind_ret, store_Ret, bind_ret by lia. cbn [procInterruptsTs]. rewrite store_Ret, bind_ret by lia.
  cbn [fullMetricsFactor currIndex procInterrupts sharedInfo irqDataCache deltaMetricsSuffixCache intervalMetric].
  set (g2 := mkMetrics _ _ _ _ _ _ _ _) in *.
  destruct (interrupts_generation g2 icm curr prev now prevTs (pa_gen _ _ _ _ _ _ _ _ Hpa) Hicm) as
    (g' & icm' & Ls & gone & -> & HQ & Hgone & E1 & E2 & E3 & E4 & E5 & E6 & Hicm').
  rewrite bind_ret, Update_spec, bind_ret by done.
  assert (fullMetricsFactor g2 = F) as HFg by apply (bt_F _ _ Hb). rewrite HFg in HQ. change (irqDataCache g2) with (irqDataCache g) in *.
  pose proof (scan_next h rows0 rows g2 curr prev now prevTs g' gone Ls _ _ Hpa Hret HQ Hgone E1 E2 E3 E4 E5 E6) as Hnext.
  destruct Hpa as [[_ [_ Gt] [_ Gp] _ _ _ _] _ (Hoc & Hop & Hsc & Hsp) (_ & _ & Hdesc) Hboth _ _].
  eexists g', icm', _, _. split; [reflexivity|]. split; [done|]. split; [|split; [done|split]].
  - rewrite E1, E4. change (currIndex g2) with (currIndex g). replace (1 - (1 - currIndex g)) with (currIndex g) by lia. exact Gt.
  - apply gen_wf_insert; [done|]. unfold add_list. rewrite length_zip_with, wf_default_length; done.
  - exists curr, prev, prevTs, Ls, gone. rewrite E2. split; [|split; [reflexivity|]].
    + change (procInterruptsTs g2) with (<[currIndex g := now]> (procInterruptsTs g)) in Gp. by rewrite list_lookup_insert_ne in Gp by (unfold g2; cbn; lia).
    + split; [done|]. split; [done|]. split; [by apply object_cpus|]. split; [by apply object_cpus|]. done.
Qed.

Lemma scanned_between h g : scanned h g -> between h g.
Proof.
  induction 1 as [|h g rows now icm mgs g' icm' mgs' buf _ IH Hrows Hret Hicm Hmgs He].
  - split; cbn; [done|split; [lia|done]|done|apply map_Forall_empty|done].
  - destruct (scan_step h g rows now icm mgs IH Hrows Hret Hicm Hmgs) as (g1 & icm1 & mgs1 & out & He' & Hb & _). rewrite He in He'. by injection He' as -> _ _ _.
Qed.

End scans.
End generator.

(** ** CPUs that come and go *)

Definition sample_order {A} (m : gmap bytes A) : list bytes := (map_to_list m).*1.
Definition sample_time : Time := mkTime 5 None.
Definition interrupts_file (cpus : list string) (rows : list Interrupts.row) : bytes :=
  CpuHeader.hdr (Interrupts.sample_hdr cpus) [] ++ [NL] ++ concat (map Interrupts.row_out rows).
(** One interrupt with description on the given CPUs. *)
Definition file_for (cpus : list string) (v : string) : bytes :=
  interrupts_file cpus [Interrupts.sample_row "9" (map (fun _ => v) cpus) "  " "IR-IO-APIC   9-fasteoi   acpi"].

Definition exec (f : bytes) (st : ProcInterruptsMetrics * Z * MetricsGeneratorStats)
    : outcome (ProcInterruptsMetrics * Z * MetricsGeneratorStats * option bytes * bool) :=
  let '(g, icm, mgs) := st in
  Execute (fun s => s) (bs "i") (bs "h") (bs "/proc/interrupts") (ReadOk f) sample_time sample_order sample_order g icm mgs.
Fixpoint execs (fs : list bytes) (st : ProcInterruptsMetrics * Z * MetricsGeneratorStats)
    : outcome (ProcInterruptsMetrics * Z * MetricsGeneratorStats * list (option bytes * bool)) :=
  match fs with
  | [] => Ret (st, [])
  | f :: fs => '(st, buf, ok) ← exec f st; '(st, l) ← execs fs st; Ret (st, (buf, ok) :: l)
  end.

(** The buffers queued, and what the executions returned. *)
Definition outputs (fs : list bytes) : option (list (option bytes * bool)) :=
  match execs fs (NewProcInterruptsMetrics 15, 0%Z, ∅) with Ret (_, l) => Some l | _ => None end.

(** the two parser objects share the cached heading, but each has its own
    number of columns and CPU list.  When a CPU comes online the first scan
    updates one object only; the next scan takes the new column for a part of
    the description, and the one after compares two columns with one and
    panics.  When a CPU goes offline the second scan after it fails, and the
    generator is disabled. *)
Theorem interrupts_cpu_hotplug :
  execs [file_for ["CPU0"] "1"; file_for ["CPU0"] "2"; file_for ["CPU0"; "CPU1"] "3"; file_for ["CPU0"; "CPU1"] "4";
         file_for ["CPU0"; "CPU1"] "5"] (NewProcInterruptsMetrics 15, 0%Z, ∅) = Panic /\
  map snd <$> outputs [file_for ["CPU0"; "CPU1"] "1"; file_for ["CPU0"; "CPU1"] "2"; file_for ["CPU0"] "3"; file_for ["CPU0"] "4"] =
    Some [true; true; true; false].
Proof. split; vm_compute; reflexivity. Qed.

(** An interrupt that goes away is deleted from the counters of one object
    only.  When it comes back with its counter restarted, its delta is taken
    against the counter that the other object still has: 3 - 20 modulo 2^64. *)
Example interrupts_stale_delta :
  (fun l => take 96 (default [] (default (None, true) (last l)).1)) <$>
    outputs [file_for ["CPU0"] "10"; file_for ["CPU0"] "20"; interrupts_file ["CPU0"] []; interrupts_file ["CPU0"] [];
             file_for ["CPU0"] "3"] =
  Some (delta_prefix (bs "i") (bs "h") (bs "9") (Interrupts.mkIrqInfo [] [] (bs "acpi") false [] 0) ++
        cpu_suffix 0 ++ FormatUint (2 ^ 64 - 17)).
Proof. vm_compute. reflexivity. Qed.

Lemma sample_order_irqs {A} (m : gmap bytes A) :
  NoDup (sample_order m) /\ forall k, k ∈ sample_order m <-> is_Some (m !! k).
Proof.
  split; [apply NoDup_fst_map_to_list|]. intros k. unfold sample_order. rewrite list_elem_of_fmap. split.
  - intros ([k' v] & -> & Hk). apply elem_of_map_to_list in Hk. by exists v.
  - intros [v Hv]. exists (k, v). split; [done|]. by apply elem_of_map_to_list.
Qed.

(** CPUs 0 and 1 before, 1 and 2 now, and another device. *)
Definition sample_scan (cl : option (list Z)) (vals : list Z) : Interrupts.Interrupts :=
  Interrupts.mkInterrupts cl {[ bs "9" := Slice vals 2 ]} 2 (bs "/proc/interrupts").
Definition sample_info : Interrupts.InterruptsInfo :=
  Interrupts.mkInfo {[ bs "9" := Interrupts.mkIrqInfo (bs "IO") (bs "9-edge") (bs "acpi") true (bs "IO 9-edge acpi") 2 ]}
    true true 2 [].
Definition sample_gen : ProcInterruptsMetrics :=
  mkMetrics 15 [Some (sample_scan (Some [1; 2]%Z) [150; 7]%Z); Some (sample_scan None [90; 100]%Z)] sample_info
    [mkTime 1000000000 None; zeroTime] 0 {[ bs "9" := mkData 3 (bs "old") (bs "oldinfo ") [true; true] ]} None None.


(** Two scans of an interrupt on two CPUs: from 10 to 13, from 20 to 20. *)
Definition sample_ts : list wtoken := Interrupts.sample_hdr ["CPU0"; "CPU1"].
Definition sample_rows (v : string) : list Interrupts.row :=
  [Interrupts.sample_row "9" [v; "20"%string] "  " "IR-IO-APIC   9-fasteoi   acpi"].

Lemma irq_gen_rows_ok v : v = "10"%string \/ v = "13"%string -> rows_ok (fun s => s) sample_ts (sample_rows v).
Proof.
  intros Hv. split; [|apply NoDup_singleton]. constructor; [|constructor]. split.
  - by apply Forall_forallb.
  - split; [by apply Forall_forallb|done].
  - destruct Hv as [-> | ->]; (split; [done|split; by repeat constructor]).
  - by left.
  - split; [by apply Forall_forallb|done].
  - split; [by apply Forall_forallb|done].
Qed.

End InterruptsMetrics.
