(* ===== verification/NetSnmp6Metrics.v ===== *)
(** The metrics generator for /proc/net/snmp6
    (src/lsvmi/proc_net_snmp6_metrics.go): deltas and rates of the values by
    index, with an explicit compensation for the rollover of the 32-bit values,
    the skip-zero-after-zero rule and 16 cycle counters shared by the indexes. *)

From Stdlib Require Import ZArith Lia.
From Stdlib Require Import Floats.SpecFloat.
From stdpp Require Import base tactics numbers strings gmap list.
From S2P Require Import Prelude Scan GoLib GoTime GoFloat MetricsCommon NetSnmp6.
Import MetricsCommon.

Module NetSnmp6Metrics.

Definition PROC_NET_SNMP6_METRICS_ID : bytes := bs "proc_net_snmp6_metrics".
Definition PROC_NET_SNMP6_INTERVAL_METRIC : bytes := bs "proc_net_snmp6_metrics_delta_sec".

(** The metric of every value, by index. *)
Definition procNetSnmp6IndexToMetricNameMap : list bytes := [
  bs "proc_net_snmp6_ip6_in_receives_delta";
  bs "proc_net_snmp6_ip6_in_hdr_errors_delta";
  bs "proc_net_snmp6_ip6_in_too_big_errors_delta";
  bs "proc_net_snmp6_ip6_in_no_routes_delta";
  bs "proc_net_snmp6_ip6_in_addr_errors_delta";
  bs "proc_net_snmp6_ip6_in_unknown_protos_delta";
  bs "proc_net_snmp6_ip6_in_truncated_pkts_delta";
  bs "proc_net_snmp6_ip6_in_discards_delta";
  bs "proc_net_snmp6_ip6_in_delivers_delta";
  bs "proc_net_snmp6_ip6_out_forw_datagrams_delta";
  bs "proc_net_snmp6_ip6_out_requests_delta";
  bs "proc_net_snmp6_ip6_out_discards_delta";
  bs "proc_net_snmp6_ip6_out_no_routes_delta";
  bs "proc_net_snmp6_ip6_reasm_timeout_delta";
  bs "proc_net_snmp6_ip6_reasm_reqds_delta";
  bs "proc_net_snmp6_ip6_reasm_oks_delta";
  bs "proc_net_snmp6_ip6_reasm_fails_delta";
  bs "proc_net_snmp6_ip6_frag_oks_delta";
  bs "proc_net_snmp6_ip6_frag_fails_delta";
  bs "proc_net_snmp6_ip6_frag_creates_delta";
  bs "proc_net_snmp6_ip6_in_mcast_pkts_delta";
  bs "proc_net_snmp6_ip6_out_mcast_pkts_delta";
  bs "proc_net_snmp6_ip6_in_kbps";
  bs "proc_net_snmp6_ip6_out_kbps";
  bs "proc_net_snmp6_ip6_in_mcast_kbps";
  bs "proc_net_snmp6_ip6_out_mcast_kbps";
  bs "proc_net_snmp6_ip6_in_bcast_kbps";
  bs "proc_net_snmp6_ip6_out_bcast_kbps";
  bs "proc_net_snmp6_ip6_in_no_ect_pkts_delta";
  bs "proc_net_snmp6_ip6_in_ect1_pkts_delta";
  bs "proc_net_snmp6_ip6_in_ect0_pkts_delta";
  bs "proc_net_snmp6_ip6_in_ce_pkts_delta";
  bs "proc_net_snmp6_icmp6_in_msgs_delta";
  bs "proc_net_snmp6_icmp6_in_errors_delta";
  bs "proc_net_snmp6_icmp6_out_msgs_delta";
  bs "proc_net_snmp6_icmp6_out_errors_delta";
  bs "proc_net_snmp6_icmp6_in_csum_errors_delta";
  bs "proc_net_snmp6_icmp6_in_dest_unreachs_delta";
  bs "proc_net_snmp6_icmp6_in_pkt_too_bigs_delta";
  bs "proc_net_snmp6_icmp6_in_time_excds_delta";
  bs "proc_net_snmp6_icmp6_in_parm_problems_delta";
  bs "proc_net_snmp6_icmp6_in_echos_delta";
  bs "proc_net_snmp6_icmp6_in_echo_replies_delta";
  bs "proc_net_snmp6_icmp6_in_group_memb_queries_delta";
  bs "proc_net_snmp6_icmp6_in_group_memb_responses_delta";
  bs "proc_net_snmp6_icmp6_in_group_memb_reductions_delta";
  bs "proc_net_snmp6_icmp6_in_router_solicits_delta";
  bs "proc_net_snmp6_icmp6_in_router_advertisements_delta";
  bs "proc_net_snmp6_icmp6_in_neighbor_solicits_delta";
  bs "proc_net_snmp6_icmp6_in_neighbor_advertisements_delta";
  bs "proc_net_snmp6_icmp6_in_redirects_delta";
  bs "proc_net_snmp6_icmp6_in_mld_v2_reports_delta";
  bs "proc_net_snmp6_icmp6_out_dest_unreachs_delta";
  bs "proc_net_snmp6_icmp6_out_pkt_too_bigs_delta";
  bs "proc_net_snmp6_icmp6_out_time_excds_delta";
  bs "proc_net_snmp6_icmp6_out_parm_problems_delta";
  bs "proc_net_snmp6_icmp6_out_echos_delta";
  bs "proc_net_snmp6_icmp6_out_echo_replies_delta";
  bs "proc_net_snmp6_icmp6_out_group_memb_queries_delta";
  bs "proc_net_snmp6_icmp6_out_group_memb_responses_delta";
  bs "proc_net_snmp6_icmp6_out_group_memb_reductions_delta";
  bs "proc_net_snmp6_icmp6_out_router_solicits_delta";
  bs "proc_net_snmp6_icmp6_out_router_advertisements_delta";
  bs "proc_net_snmp6_icmp6_out_neighbor_solicits_delta";
  bs "proc_net_snmp6_icmp6_out_neighbor_advertisements_delta";
  bs "proc_net_snmp6_icmp6_out_redirects_delta";
  bs "proc_net_snmp6_icmp6_out_mld_v2_reports_delta";
  bs "proc_net_snmp6_icmp6_out_type133_delta";
  bs "proc_net_snmp6_icmp6_out_type135_delta";
  bs "proc_net_snmp6_icmp6_out_type143_delta";
  bs "proc_net_snmp6_udp6_in_datagrams_delta";
  bs "proc_net_snmp6_udp6_no_ports_delta";
  bs "proc_net_snmp6_udp6_in_errors_delta";
  bs "proc_net_snmp6_udp6_out_datagrams_delta";
  bs "proc_net_snmp6_udp6_rcvbuf_errors_delta";
  bs "proc_net_snmp6_udp6_sndbuf_errors_delta";
  bs "proc_net_snmp6_udp6_in_csum_errors_delta";
  bs "proc_net_snmp6_udp6_ignored_multi_delta";
  bs "proc_net_snmp6_udp6_mem_errors_delta";
  bs "proc_net_snmp6_udplite6_in_datagrams_delta";
  bs "proc_net_snmp6_udplite6_no_ports_delta";
  bs "proc_net_snmp6_udplite6_in_errors_delta";
  bs "proc_net_snmp6_udplite6_out_datagrams_delta";
  bs "proc_net_snmp6_udplite6_rcvbuf_errors_delta";
  bs "proc_net_snmp6_udplite6_sndbuf_errors_delta";
  bs "proc_net_snmp6_udplite6_in_csum_errors_delta";
  bs "proc_net_snmp6_udplite6_mem_errors_delta"].

(** The rates: factor and precision; the six numbers of octets. *)
Definition procNetSnmp6IndexRate (index : nat) : option (spec_float * nat) :=
  if (22 <=? index) && (index <=? 27) then Some (f64_div (f64_of_int 8) (f64_of_int 1000), 1) else None.

Definition PROC_NET_SNMP6_CYCLE_COUNTER_NUM : nat := 16.
Definition PROC_NET_SNMP6_CYCLE_COUNTER_MASK : nat := 15.

Record ProcNetSnmp6Metrics := mkMetrics {
  fullMetricsFactor : Z;
  procNetSnmp6 : list (option NetSnmp6.NetSnmp6);
  procNetSnmp6Ts : list Time;
  currIndex : nat;
  cycleNum : list Z;
  metricsCache : option (list (option bytes));
  intervalMetric : option bytes;
  totalMetricsCount : Z;
  zeroDelta : list bool
}.

Definition NewProcNetSnmp6Metrics (fullMetricsFactor : Z) (icm : Z) : ProcNetSnmp6Metrics * Z :=
  let '(cycleNum, icm) := initial_cycles PROC_NET_SNMP6_CYCLE_COUNTER_NUM fullMetricsFactor icm in
  (mkMetrics fullMetricsFactor [None; None] [zeroTime; zeroTime] 0 cycleNum None None 0
     (replicate NetSnmp6.NET_SNMP6_NUM_VALUES false), icm).

Section generator.
Context (instance hostname netSnmp6Path : bytes).

(** [updateMetricsCache]: the cache and the number of metrics, which has the
    interval metric. *)
Definition updateMetricsCache : list (option bytes) * Z :=
  let cache := map (fun i => (fun name => metric name instance hostname []) <$> procNetSnmp6IndexToMetricNameMap !! i)
                   (seq 0 NetSnmp6.NET_SNMP6_NUM_VALUES) in
  (cache, 1 + Z.of_nat (length (omap id cache)))%Z.

Definition updateIntervalMetricsCache : bytes := metric PROC_NET_SNMP6_INTERVAL_METRIC instance hostname [].

Definition format_delta (deltaSec : spec_float) (index : nat) (delta : Z) : bytes :=
  match procNetSnmp6IndexRate index with
  | Some (factor, prec) => FormatFloat prec (f64_div (f64_mul (f64_of_int delta) factor) deltaSec)
  | None => FormatUint delta
  end.

(** One value of the current scan: its lines and its new zero flag. *)
Definition gen_value (deltaSec : spec_float) (promTs : bytes) (cache : list (option bytes)) (isUint32 : list bool)
    (prevValues cycleNum : list Z) (index : nat) (currValue : Z) (zeroDelta : list bool)
    : outcome (list bytes * option bool) :=
  metric ← must (cache !! index);
  match metric with
  | None => Ret ([], None)
  | Some metric =>
    prevValue ← must (prevValues !! index);
    is32 ← must (isUint32 !! index);
    let currValue := if is32 && (currValue <? prevValue)%Z then u64 (currValue + 2 ^ 32) else currValue in
    let delta := u64 (currValue - prevValue) in
    cn ← must (cycleNum !! Nat.land index PROC_NET_SNMP6_CYCLE_COUNTER_MASK);
    wasZero ← must (zeroDelta !! index);
    Ret (if negb (delta =? 0)%Z || (cn =? 0)%Z || negb wasZero
         then [line metric (format_delta deltaSec index delta) promTs] else [],
         Some (delta =? 0)%Z)
  end.

(** [generateMetrics]: the lines and the two counts. *)
Definition generateMetrics (g : ProcNetSnmp6Metrics) : outcome (ProcNetSnmp6Metrics * list bytes * (Z * Z)) :=
  let ci := currIndex g in
  curr ← must (procNetSnmp6 g !! ci); prev ← must (procNetSnmp6 g !! (1 - ci));
  currTs ← must (procNetSnmp6Ts g !! ci); prevTs ← must (procNetSnmp6Ts g !! (1 - ci));
  let cycles := map (next_cycle (fullMetricsFactor g)) (cycleNum g) in
  match prev with
  | None =>
    Ret (mkMetrics (fullMetricsFactor g) (procNetSnmp6 g) (procNetSnmp6Ts g) (1 - ci) cycles (metricsCache g)
           (intervalMetric g) (totalMetricsCount g) (zeroDelta g), [], (0%Z, totalMetricsCount g))
  | Some prev =>
    curr ← must curr;
    let promTs := ts_suffix currTs in
    let deltaSec := Seconds (Sub currTs prevTs) in
    let '(cache, total) := match metricsCache g with
                           | Some cache => (cache, totalMetricsCount g)
                           | None => updateMetricsCache
                           end in
    '(zd, lines) ← for_values
      (gen_value deltaSec promTs cache (NetSnmp6.IsUint32 curr) (NetSnmp6.Values prev) (cycleNum g))
      0 (NetSnmp6.Values curr) (zeroDelta g);
    let im := default updateIntervalMetricsCache (intervalMetric g) in
    let lines := lines ++ [line im (FormatFloat 6 deltaSec) promTs] in
    Ret (mkMetrics (fullMetricsFactor g) (procNetSnmp6 g) (procNetSnmp6Ts g) (1 - ci) cycles (Some cache) (Some im) total zd,
         lines, (Z.of_nat (length lines), total))
  end.

(** [Execute]: with the table of the 32-bit values, a global variable of the
    parser that its constructor writes to.  A clone writes to the flags of the
    parser that it is made from. *)
Definition Execute (rd : read_result) (now : Time) (g : ProcNetSnmp6Metrics) (netSnmp6IsUint32 : list bool)
    (mgs : MetricsGeneratorStats)
    : outcome (ProcNetSnmp6Metrics * list bool * MetricsGeneratorStats * option bytes * bool) :=
  let ci := currIndex g in
  curr ← must (procNetSnmp6 g !! ci);
  prev ← must (procNetSnmp6 g !! (1 - ci));
  let '(curr, prev, flags) :=
    match curr with
    | Some s => (s, prev, netSnmp6IsUint32)
    | None => match prev with
              | Some p => let '(c, p) := NetSnmp6.Clone false p in (c, Some p, netSnmp6IsUint32)
              | None => let '(s, flags) := NetSnmp6.NewNetSnmp6 netSnmp6Path netSnmp6IsUint32 in (s, None, flags)
              end
    end in
  '(curr, err) ← NetSnmp6.Parse rd curr;
  objs ← store (procNetSnmp6 g) (1 - ci) prev;
  objs ← store objs ci (Some curr);
  let g := mkMetrics (fullMetricsFactor g) objs (procNetSnmp6Ts g) ci (cycleNum g) (metricsCache g)
             (intervalMetric g) (totalMetricsCount g) (zeroDelta g) in
  match err with
  | Some _ => Ret (g, flags, mgs, None, false)
  | None =>
    ts ← store (procNetSnmp6Ts g) ci now;
    let g := mkMetrics (fullMetricsFactor g) (procNetSnmp6 g) ts ci (cycleNum g) (metricsCache g)
               (intervalMetric g) (totalMetricsCount g) (zeroDelta g) in
    '(g, lines, (actual, total)) ← generateMetrics g;
    let buf := concat lines in
    mgs ← Update PROC_NET_SNMP6_METRICS_ID (u64 actual) (u64 total) (u64 (Z.of_nat (length buf))) mgs;
    Ret (g, flags, mgs, Some buf, true)
  end.

(** ** What a generation writes *)

Definition NUM : nat := NetSnmp6.NET_SNMP6_NUM_VALUES.
Definition cycle_of (index : nat) : nat := Nat.land index PROC_NET_SNMP6_CYCLE_COUNTER_MASK.

(** A generator that holds two scans of which [curr] is the current one. *)
Record gen_ok (g : ProcNetSnmp6Metrics) (curr prev : NetSnmp6.NetSnmp6) (currTs prevTs : Time) : Prop := mkGenOk {
  go_F : (fullMetricsFactor g <= MaxInt64)%Z;
  go_curr : procNetSnmp6 g !! currIndex g = Some (Some curr) /\ procNetSnmp6Ts g !! currIndex g = Some currTs;
  go_prev : procNetSnmp6 g !! (1 - currIndex g) = Some (Some prev) /\ procNetSnmp6Ts g !! (1 - currIndex g) = Some prevTs;
  go_values : length (NetSnmp6.Values curr) = NUM /\ length (NetSnmp6.Values prev) = NUM /\ length (NetSnmp6.IsUint32 curr) = NUM;
  go_cycles : length (cycleNum g) = PROC_NET_SNMP6_CYCLE_COUNTER_NUM /\
              Forall (fun c => 0 <= c < Z.max 1 (fullMetricsFactor g))%Z (cycleNum g);
  go_zero : length (zeroDelta g) = NUM;
  go_cache : forall c, metricsCache g = Some c -> c = updateMetricsCache.1;
  go_interval : forall m, intervalMetric g = Some m -> m = updateIntervalMetricsCache
}.

(** The delta as the generator computes it. *)
Definition raw_delta (is32 : bool) (c p : Z) : Z :=
  u64 ((if is32 && (c <? p)%Z then u64 (c + 2 ^ 32) else c) - p).
Definition width (is32 : bool) : Z := if is32 then 32 else 64.

(** The delta is the increase of the counter whatever its width, also when the
    counter wraps around. *)
Lemma raw_delta_exact is32 x d :
  (0 <= d < 2 ^ width is32)%Z ->
  raw_delta is32 (wrapu (width is32) (x + d)) (wrapu (width is32) x) = d.
Proof.
  intros Hd. unfold raw_delta, wrapu. set (W := (2 ^ width is32)%Z) in *.
  assert (0 < W)%Z as HW by (unfold W; apply Z.pow_pos_nonneg; [lia|by destruct is32]).
  pose proof (Z.mod_pos_bound x W HW) as Hp. rewrite <- Z.add_mod_idemp_l by lia.
  set (p := (x mod W)%Z) in *.
  assert ((p + d) mod W = if p + d <? W then p + d else p + d - W)%Z as ->.
  { destruct (p + d <? W)%Z eqn:E; [apply Z.mod_small; lia|].
    replace (p + d)%Z with (p + d - W + 1 * W)%Z at 1 by lia. rewrite Z.mod_add by lia. apply Z.mod_small. lia. }
  destruct is32; cbn [andb]; [change W with (2 ^ 32)%Z in *|change W with (2 ^ 64)%Z in *]; unfold u64, wrapu.
  - destruct (p + d <? 2 ^ 32)%Z eqn:E.
    + rewrite (proj2 (Z.ltb_ge _ _)) by lia. rewrite Z.mod_small; lia.
    + rewrite (proj2 (Z.ltb_lt _ _)) by lia. rewrite (Z.mod_small (_ + _)) by lia. rewrite Z.mod_small; lia.
  - destruct (p + d <? 2 ^ 64)%Z eqn:E; [rewrite Z.mod_small; lia|].
    replace (p + d - 2 ^ 64 - p)%Z with (d + (-1) * 2 ^ 64)%Z by lia. rewrite Z.mod_add by lia. apply Z.mod_small. lia.
Qed.

Lemma snmp6_cache_lookup i : i < NUM ->
  updateMetricsCache.1 !! i = Some (Some (metric (procNetSnmp6IndexToMetricNameMap !!! i) instance hostname [])).
Proof.
  intros Hi. unfold updateMetricsCache. cbn [fst]. rewrite list_lookup_fmap, lookup_seq_lt by done. cbn.
  by rewrite (list_lookup_lookup_total_lt procNetSnmp6IndexToMetricNameMap i) by done.
Qed.

(** What is written for a value whose delta is [d]. *)
Definition value_line (g : ProcNetSnmp6Metrics) (deltaSec : spec_float) (promTs : bytes) (i : nat) (name : bytes) (d : Z) (wasZero : bool) : list bytes :=
  if negb (d =? 0)%Z || (cycleNum g !!! cycle_of i =? 0)%Z || negb wasZero
  then [line (metric name instance hostname []) (format_delta deltaSec i d) promTs] else [].

Lemma snmp6_gen_value g curr prev currTs prevTs deltaSec promTs i c zd :
  gen_ok g curr prev currTs prevTs -> i < NUM -> length zd = NUM ->
  let d := raw_delta (NetSnmp6.IsUint32 curr !!! i) c (NetSnmp6.Values prev !!! i) in
  gen_value deltaSec promTs updateMetricsCache.1 (NetSnmp6.IsUint32 curr) (NetSnmp6.Values prev) (cycleNum g) i c zd =
  Ret (value_line g deltaSec promTs i (procNetSnmp6IndexToMetricNameMap !!! i) d (zd !!! i), Some (d =? 0)%Z).
Proof.
  intros [_ _ _ (Hc & Hp & Hu) [Hcy _] _ _ _] Hi Hz d. unfold gen_value. rewrite snmp6_cache_lookup by done. cbn [must].
  rewrite bind_ret.
  rewrite (list_lookup_lookup_total_lt (NetSnmp6.Values prev) i), (list_lookup_lookup_total_lt (NetSnmp6.IsUint32 curr) i),
    (list_lookup_lookup_total_lt zd i) by lia.
  fold (cycle_of i). rewrite (list_lookup_lookup_total_lt (cycleNum g) (cycle_of i)) by (rewrite Hcy; apply cycle_counter_lt).
  cbn [must]. rewrite !bind_ret. done.
Qed.

Lemma snmp6_cache_of g curr prev currTs prevTs :
  gen_ok g curr prev currTs prevTs ->
  exists total, match metricsCache g with
                | Some cache => (cache, totalMetricsCount g)
                | None => updateMetricsCache
                end = (updateMetricsCache.1, total).
Proof.
  intros HG. destruct (metricsCache g) as [c|] eqn:E; [|by eexists].
  rewrite (go_cache _ _ _ _ _ HG c E). by eexists.
Qed.

(** with two scans of counters of 32 or 64 bits, as flagged, that went from
    [x] to [x + d] in unbounded numbers, each having increased by less than its
    range, a generation writes for every value whose increase is not zero, or
    was not zero the last time, or whose cycle is a full one, its metric with
    that increase, also when the counter wrapped around, then the interval;
    and it remembers which were zero, advances the cycles and toggles the
    scans. *)
Theorem snmp6_metrics_deltas g curr prev currTs prevTs (x d : list Z) :
  gen_ok g curr prev currTs prevTs -> length d = NUM ->
  (forall i, i < NUM -> let w := width (NetSnmp6.IsUint32 curr !!! i) in
     (0 <= d !!! i < 2 ^ w)%Z /\ NetSnmp6.Values prev !! i = Some (wrapu w (x !!! i)) /\
     NetSnmp6.Values curr !! i = Some (wrapu w (x !!! i + d !!! i))) ->
  let deltaSec := Seconds (Sub currTs prevTs) in
  let promTs := ts_suffix currTs in
  exists g' total lines, generateMetrics g = Ret (g', lines, (Z.of_nat (length lines), total)) /\
    lines = concat (imap (fun i name => value_line g deltaSec promTs i name (d !!! i) (zeroDelta g !!! i))
                         procNetSnmp6IndexToMetricNameMap) ++
            [line updateIntervalMetricsCache (FormatFloat 6 deltaSec) promTs] /\
    zeroDelta g' = map (fun v => v =? 0)%Z d /\
    cycleNum g' = map (fun c => ((c + 1) mod Z.max 1 (fullMetricsFactor g))%Z) (cycleNum g) /\
    currIndex g' = 1 - currIndex g /\ procNetSnmp6 g' = procNetSnmp6 g /\ procNetSnmp6Ts g' = procNetSnmp6Ts g.
Proof.
  intros HG Hd Hx deltaSec promTs. pose proof HG as [HF [Hc Hct] [Hp Hpt] (Hlc & Hlp & Hlu) [Hcl Hcr] Hz _ Him].
  unfold generateMetrics. rewrite Hc, Hp, Hct, Hpt. cbn [must]. rewrite !bind_ret. cbn [must]. rewrite bind_ret.
  destruct (snmp6_cache_of _ _ _ _ _ HG) as [total ->].
  assert (forall i c, NetSnmp6.Values curr !! i = Some c ->
    i < NUM /\ raw_delta (NetSnmp6.IsUint32 curr !!! i) c (NetSnmp6.Values prev !!! i) = d !!! i) as Hdelta.
  { intros i c Hic. assert (i < NUM) as Hi by (rewrite <- Hlc; by eapply lookup_lt_Some). split; [done|].
    destruct (Hx i Hi) as (Hr & Hpi & Hci). rewrite Hci in Hic. injection Hic as <-.
    rewrite (list_lookup_total_correct _ _ _ Hpi). by apply raw_delta_exact. }
  set (rd := fun i c => raw_delta (NetSnmp6.IsUint32 curr !!! i) c (NetSnmp6.Values prev !!! i)) in *.
  destruct (for_values_spec _ (fun i c z => value_line g deltaSec promTs i (procNetSnmp6IndexToMetricNameMap !!! i) (rd i c) z)
    (fun i c _ => Some (rd i c =? 0)%Z) NUM (NetSnmp6.Values curr) 0 (zeroDelta g)
    (fun i c zd Hi Hl => snmp6_gen_value g curr prev currTs prevTs deltaSec promTs i c zd HG Hi Hl))
    as (zd' & Hfor & Hzl & _ & Hzk); [by rewrite Hlc|done|].
  cbv beta iota zeta. fold deltaSec promTs.
  rewrite Hfor, bind_ret. eexists _, total, _. split; [reflexivity|]. cbn [zeroDelta cycleNum currIndex procNetSnmp6 procNetSnmp6Ts].
  split; [|split; [|split; [|done]]].
  - f_equal.
    + f_equal. apply imap_eq; [by rewrite Hlc|]. intros i c name Hi Hn. destruct (Hdelta i c Hi) as [_ Hdi]. cbn [Nat.add].
      unfold rd. rewrite Hdi. by rewrite (list_lookup_total_correct _ _ _ Hn).
    + f_equal. f_equal. destruct (intervalMetric g) as [m|] eqn:E; [by apply Him|done].
  - apply list_eq. intros i. rewrite list_lookup_fmap. destruct (decide (i < NUM)) as [Hi|Hi].
    + destruct (lookup_lt_is_Some_2 (NetSnmp6.Values curr) i) as [c Hic]; [by rewrite Hlc|].
      specialize (Hzk i c Hic). cbn [Nat.add] in Hzk. rewrite Hzk. unfold rd. destruct (Hdelta i c Hic) as [_ ->].
      by rewrite (list_lookup_lookup_total_lt d i) by lia.
    + rewrite !lookup_ge_None_2 by lia. done.
  - apply map_ext_in. intros c Hin%list_elem_of_In. apply next_cycle_mod; [|done]. by eapply Forall_forall in Hcr.
Qed.
End generator.

(** A generator after two scans. *)
Definition two_scans (flags : list bool) (prev curr : list Z) : ProcNetSnmp6Metrics :=
  let scan v := NetSnmp6.mkNetSnmp6 v flags (bs "/proc/net/snmp6") [] in
  mkMetrics 15 [Some (scan prev); Some (scan curr)] [zeroTime; mkTime Second None] 1 (replicate 16 3%Z) None None 0
    (replicate NUM true).

(** A 32-bit counter that wraps around: 4294967295, then 1. *)
Lemma snmp6_metrics_deltas_witness :
  let flags := NetSnmp6.netSnmp6IsUint32_init in
  let prev := <[34 := 4294967295%Z]> (replicate NUM 7%Z) in
  let curr := <[34 := 1%Z]> (replicate NUM 7%Z) in
  exists g' total lines, generateMetrics (bs "i") (bs "h") (two_scans flags prev curr) = Ret (g', lines, (Z.of_nat (length lines), total)) /\
    zeroDelta g' = map (fun v => v =? 0)%Z (<[34 := 2%Z]> (replicate NUM 0%Z)).
Proof.
  intros flags prev curr. set (d := <[34 := 2%Z]> (replicate NUM 0%Z)).
  destruct (snmp6_metrics_deltas (bs "i") (bs "h") (two_scans flags prev curr)
    (NetSnmp6.mkNetSnmp6 curr flags (bs "/proc/net/snmp6") []) (NetSnmp6.mkNetSnmp6 prev flags (bs "/proc/net/snmp6") [])
    (mkTime Second None) zeroTime prev d) as (g' & total & lines & Hg & _ & Hz & _).
  - split; try done. split; [done|]. repeat (constructor; [by vm_compute|]). constructor.
  - done.
  - assert (Forall (fun i =>
      (0 <= d !!! i < 2 ^ width (flags !!! i))%Z /\ prev !! i = Some (wrapu (width (flags !!! i)) (prev !!! i)) /\
      curr !! i = Some (wrapu (width (flags !!! i)) (prev !!! i + d !!! i))) (seq 0 NUM)) as HF.
    { apply (bool_decide_unpack _). vm_compute. exact I. }
    intros i Hi. exact (proj1 (Forall_lookup _ _) HF i i (lookup_seq_lt 0 NUM i Hi)).
  - exists g', total, lines. split; [exact Hg|exact Hz].
Defined.

(** The lines of the third of three scans, run from a new generator with the
    flags of the 32-bit values as they are initially. *)
Definition third_scan (v1 v2 v3 : string) : option bytes :=
  let file v := ReadOk (bs "Icmp6OutMsgs " ++ bs v ++ [NL]) in
  let exec v t '(g, flags, mgs) :=
    '(g, flags, mgs, buf, _) ← Execute (bs "i") (bs "h") (bs "/proc/net/snmp6") (file v) (mkTime (t * Second) None) g flags mgs;
    Ret (g, flags, mgs, buf) in
  match '(g, flags, mgs, _) ← exec v1 1%Z ((NewProcNetSnmp6Metrics 1000 1).1, NetSnmp6.netSnmp6IsUint32_init, ∅);
        '(g, flags, mgs, _) ← exec v2 2%Z (g, flags, mgs);
        '(_, _, _, buf) ← exec v3 3%Z (g, flags, mgs); Ret buf with
  | Ret buf => buf
  | _ => None
  end.

(** the compensation for the rollover of 32-bit counters never happens in a
    run of the program: the parsers that it makes have no flag set.  An ICMPv6
    counter that goes from 4294967295 to 0, an increase of one, is reported as
    an increase by 18446744069414584321. *)
Theorem snmp6_rollover :
  let m := metric (bs "proc_net_snmp6_icmp6_out_msgs_delta") (bs "i") (bs "h") [] in
  let ts := ts_suffix (mkTime (3 * Second) None) in
  let interval := line (updateIntervalMetricsCache (bs "i") (bs "h")) (bs "1.000000") ts in
  third_scan "4294967294" "4294967294" "4294967295" = Some (line m (bs "1") ts ++ interval) /\
  third_scan "4294967295" "4294967295" "0" = Some (line m (bs "18446744069414584321") ts ++ interval).
Proof. split; vm_compute; reflexivity. Qed.
End NetSnmp6Metrics.
