(* ===== verification/NetSnmpMetrics.v ===== *)
(** The metrics generator for /proc/net/snmp
    (src/lsvmi/proc_net_snmp_metrics.go): some values as they are, signed where
    the parser says so, the others as 32-bit deltas, with the
    skip-zero-after-zero rule and 16 cycle counters shared by the indexes. *)

From Stdlib Require Import ZArith Lia.
From Stdlib Require Import Floats.SpecFloat.
From stdpp Require Import base tactics numbers strings gmap list.
From S2P Require Import Prelude Scan GoLib GoTime GoFloat MetricsCommon NetSnmp.
Import MetricsCommon.

Module NetSnmpMetrics.

Definition PROC_NET_SNMP_METRICS_ID : bytes := bs "proc_net_snmp_metrics".
Definition PROC_NET_SNMP_INTERVAL_METRIC : bytes := bs "proc_net_snmp_metrics_delta_sec".

(** The metric of every value, by index. *)
Definition procNetSnmpIndexToMetricNameMap : list bytes := [
  bs "proc_net_snmp_ip_forwarding";
  bs "proc_net_snmp_ip_default_ttl";
  bs "proc_net_snmp_ip_in_receives_delta";
  bs "proc_net_snmp_ip_in_hdr_errors_delta";
  bs "proc_net_snmp_ip_in_addr_errors_delta";
  bs "proc_net_snmp_ip_forw_datagrams_delta";
  bs "proc_net_snmp_ip_in_unknown_protos_delta";
  bs "proc_net_snmp_ip_in_discards_delta";
  bs "proc_net_snmp_ip_in_delivers_delta";
  bs "proc_net_snmp_ip_out_requests_delta";
  bs "proc_net_snmp_ip_out_discards_delta";
  bs "proc_net_snmp_ip_out_no_routes_delta";
  bs "proc_net_snmp_ip_reasm_timeout";
  bs "proc_net_snmp_ip_reasm_reqds_delta";
  bs "proc_net_snmp_ip_reasm_oks_delta";
  bs "proc_net_snmp_ip_reasm_fails_delta";
  bs "proc_net_snmp_ip_frag_oks_delta";
  bs "proc_net_snmp_ip_frag_fails_delta";
  bs "proc_net_snmp_ip_frag_creates_delta";
  bs "proc_net_snmp_icmp_in_msgs_delta";
  bs "proc_net_snmp_icmp_in_errors_delta";
  bs "proc_net_snmp_icmp_in_csum_errors_delta";
  bs "proc_net_snmp_icmp_in_dest_unreachs_delta";
  bs "proc_net_snmp_icmp_in_time_excds_delta";
  bs "proc_net_snmp_icmp_in_parm_probs_delta";
  bs "proc_net_snmp_icmp_in_src_quenchs_delta";
  bs "proc_net_snmp_icmp_in_redirects_delta";
  bs "proc_net_snmp_icmp_in_echos_delta";
  bs "proc_net_snmp_icmp_in_echo_reps_delta";
  bs "proc_net_snmp_icmp_in_timestamps_delta";
  bs "proc_net_snmp_icmp_in_timestamp_reps_delta";
  bs "proc_net_snmp_icmp_in_addr_masks_delta";
  bs "proc_net_snmp_icmp_in_addr_mask_reps_delta";
  bs "proc_net_snmp_icmp_out_msgs_delta";
  bs "proc_net_snmp_icmp_out_errors_delta";
  bs "proc_net_snmp_icmp_out_dest_unreachs_delta";
  bs "proc_net_snmp_icmp_out_time_excds_delta";
  bs "proc_net_snmp_icmp_out_parm_probs_delta";
  bs "proc_net_snmp_icmp_out_src_quenchs_delta";
  bs "proc_net_snmp_icmp_out_redirects_delta";
  bs "proc_net_snmp_icmp_out_echos_delta";
  bs "proc_net_snmp_icmp_out_echo_reps_delta";
  bs "proc_net_snmp_icmp_out_timestamps_delta";
  bs "proc_net_snmp_icmp_out_timestamp_reps_delta";
  bs "proc_net_snmp_icmp_out_addr_masks_delta";
  bs "proc_net_snmp_icmp_out_addr_mask_reps_delta";
  bs "proc_net_snmp_icmpmsg_in_type3_delta";
  bs "proc_net_snmp_icmpmsg_out_type3_delta";
  bs "proc_net_snmp_tcp_rto_algorithm";
  bs "proc_net_snmp_tcp_rto_min";
  bs "proc_net_snmp_tcp_rto_max";
  bs "proc_net_snmp_tcp_max_conn";
  bs "proc_net_snmp_tcp_active_opens_delta";
  bs "proc_net_snmp_tcp_passive_opens_delta";
  bs "proc_net_snmp_tcp_attempt_fails_delta";
  bs "proc_net_snmp_tcp_estab_resets_delta";
  bs "proc_net_snmp_tcp_curr_estab";
  bs "proc_net_snmp_tcp_in_segs_delta";
  bs "proc_net_snmp_tcp_out_segs_delta";
  bs "proc_net_snmp_tcp_retrans_segs_delta";
  bs "proc_net_snmp_tcp_in_errs_delta";
  bs "proc_net_snmp_tcp_out_rsts_delta";
  bs "proc_net_snmp_tcp_in_csum_errors_delta";
  bs "proc_net_snmp_udp_in_datagrams_delta";
  bs "proc_net_snmp_udp_no_ports_delta";
  bs "proc_net_snmp_udp_in_errors_delta";
  bs "proc_net_snmp_udp_out_datagrams_delta";
  bs "proc_net_snmp_udp_rcvbuf_errors_delta";
  bs "proc_net_snmp_udp_sndbuf_errors_delta";
  bs "proc_net_snmp_udp_in_csum_errors_delta";
  bs "proc_net_snmp_udp_ignored_multi_delta";
  bs "proc_net_snmp_udp_mem_errors_delta";
  bs "proc_net_snmp_udplite_in_datagrams_delta";
  bs "proc_net_snmp_udplite_no_ports_delta";
  bs "proc_net_snmp_udplite_in_errors_delta";
  bs "proc_net_snmp_udplite_out_datagrams_delta";
  bs "proc_net_snmp_udplite_rcvbuf_errors_delta";
  bs "proc_net_snmp_udplite_sndbuf_errors_delta";
  bs "proc_net_snmp_udplite_in_csum_errors_delta";
  bs "proc_net_snmp_udplite_ignored_multi_delta";
  bs "proc_net_snmp_udplite_mem_errors_delta"].

(** The values that are reported as they are. *)
Definition procNetSnmpNonDeltaIndex (index : nat) : bool := bool_decide (index ∈ [0; 1; 12; 48; 49; 50; 51; 56]).

Definition PROC_NET_SNMP_CYCLE_COUNTER_NUM : nat := 16.
Definition PROC_NET_SNMP_CYCLE_COUNTER_MASK : nat := 15.

Record ProcNetSnmpMetrics := mkMetrics {
  fullMetricsFactor : Z;
  procNetSnmp : list (option NetSnmp.NetSnmp);
  procNetSnmpTs : list Time;
  currIndex : nat;
  cycleNum : list Z;
  metricsCache : option (list (option bytes));
  intervalMetric : option bytes;
  totalMetricsCount : Z;
  zeroDelta : list bool
}.

Definition NewProcNetSnmpMetrics (fullMetricsFactor : Z) (icm : Z) : ProcNetSnmpMetrics * Z :=
  let '(cycleNum, icm) := initial_cycles PROC_NET_SNMP_CYCLE_COUNTER_NUM fullMetricsFactor icm in
  (mkMetrics fullMetricsFactor [None; None] [zeroTime; zeroTime] 0 cycleNum None None 0
     (replicate NetSnmp.NET_SNMP_NUM_VALUES false), icm).

(** [int64(int32(value))]. *)
Definition i32 (z : Z) : Z := ((z + 2 ^ 31) mod 2 ^ 32 - 2 ^ 31)%Z.

Section generator.
Context (instance hostname netSnmpPath : bytes).

Definition updateMetricsCache : list (option bytes) * Z :=
  let cache := map (fun i => (fun name => metric name instance hostname []) <$> procNetSnmpIndexToMetricNameMap !! i)
                   (seq 0 NetSnmp.NET_SNMP_NUM_VALUES) in
  (cache, 1 + Z.of_nat (length (omap id cache)))%Z.

Definition updateIntervalMetricsCache : bytes := metric PROC_NET_SNMP_INTERVAL_METRIC instance hostname [].

Definition format_value (index : nat) (value : Z) : bytes :=
  if NetSnmp.NetSnmpValueMayBeNegative index then Itoa (i32 value) else FormatUint value.

(** One value of the current scan: its lines and its new zero flag. *)
Definition gen_value (promTs : bytes) (cache : list (option bytes)) (prevValues : option (list Z)) (cycleNum : list Z)
    (index : nat) (value : Z) (zeroDelta : list bool) : outcome (list bytes * option bool) :=
  metric ← must (cache !! index);
  match metric with
  | None => Ret ([], None)
  | Some metric =>
    cn ← must (cycleNum !! Nat.land index PROC_NET_SNMP_CYCLE_COUNTER_MASK);
    let fullCycle := (cn =? 0)%Z in
    if procNetSnmpNonDeltaIndex index then
      changed ← (if fullCycle : bool then Ret true
                 else match prevValues with
                      | None => Ret true
                      | Some pv => p ← must (pv !! index); Ret (negb (value =? p)%Z)
                      end);
      Ret (if changed : bool then [line metric (format_value index value) promTs] else [], None)
    else
      match prevValues with
      | None => Ret ([], None)
      | Some pv =>
        p ← must (pv !! index);
        let delta := u32 (value - p) in
        wasZero ← must (zeroDelta !! index);
        Ret (if negb (delta =? 0)%Z || fullCycle || negb wasZero
             then [line metric (FormatUint delta) promTs] else [],
             Some (delta =? 0)%Z)
      end
  end.

(** [generateMetrics]: the lines and the two counts. *)
Definition generateMetrics (g : ProcNetSnmpMetrics) : outcome (ProcNetSnmpMetrics * list bytes * (Z * Z)) :=
  let ci := currIndex g in
  curr ← must (procNetSnmp g !! ci); prev ← must (procNetSnmp g !! (1 - ci));
  currTs ← must (procNetSnmpTs g !! ci); prevTs ← must (procNetSnmpTs g !! (1 - ci));
  curr ← must curr;
  let prevValues := NetSnmp.Values <$> prev in
  let promTs := ts_suffix currTs in
  let '(cache, total) := match metricsCache g with
                         | Some cache => (cache, totalMetricsCount g)
                         | None => updateMetricsCache
                         end in
  '(zd, lines) ← for_values (gen_value promTs cache prevValues (cycleNum g)) 0 (NetSnmp.Values curr) (zeroDelta g);
  let '(im, last) :=
    match prev with
    | None => (intervalMetric g, [])
    | Some _ =>
      let deltaSec := Seconds (Sub currTs prevTs) in
      let im := default updateIntervalMetricsCache (intervalMetric g) in
      (Some im, [line im (FormatFloat 6 deltaSec) promTs])
    end in
  let lines := lines ++ last in
  let cycles := map (next_cycle (fullMetricsFactor g)) (cycleNum g) in
  Ret (mkMetrics (fullMetricsFactor g) (procNetSnmp g) (procNetSnmpTs g) (1 - ci) cycles (Some cache) im total zd,
       lines, (Z.of_nat (length lines), total)).

Definition Execute (rd : read_result) (now : Time) (g : ProcNetSnmpMetrics) (mgs : MetricsGeneratorStats)
    : outcome (ProcNetSnmpMetrics * MetricsGeneratorStats * option bytes * bool) :=
  let ci := currIndex g in
  curr ← must (procNetSnmp g !! ci);
  prev ← must (procNetSnmp g !! (1 - ci));
  let curr := match curr with
              | Some s => s
              | None => match prev with
                        | Some p => NetSnmp.Clone false p
                        | None => NetSnmp.NewNetSnmp netSnmpPath
                        end
              end in
  '(curr, err) ← NetSnmp.Parse rd curr;
  objs ← store (procNetSnmp g) ci (Some curr);
  match err with
  | Some _ =>
    Ret (mkMetrics (fullMetricsFactor g) objs (procNetSnmpTs g) ci (cycleNum g) (metricsCache g)
           (intervalMetric g) (totalMetricsCount g) (zeroDelta g), mgs, None, false)
  | None =>
    (* the lines of names changed: the previous scan gets the new ones *)
    objs ← (match NetSnmp.InfoChanged curr with
            | Some _ => store objs (1 - ci) (NetSnmp.UpdateInfo curr <$> prev)
            | None => Ret objs
            end);
    ts ← store (procNetSnmpTs g) ci now;
    let g := mkMetrics (fullMetricsFactor g) objs ts ci (cycleNum g) (metricsCache g)
               (intervalMetric g) (totalMetricsCount g) (zeroDelta g) in
    '(g, lines, (actual, total)) ← generateMetrics g;
    let buf := concat lines in
    mgs ← Update PROC_NET_SNMP_METRICS_ID (u64 actual) (u64 total) (u64 (Z.of_nat (length buf))) mgs;
    Ret (g, mgs, Some buf, true)
  end.

(** ** What a generation writes *)

Definition NUM : nat := NetSnmp.NET_SNMP_NUM_VALUES.
Definition cycle_of (index : nat) : nat := Nat.land index PROC_NET_SNMP_CYCLE_COUNTER_MASK.

(** A generator that holds two scans of which [curr] is the current one. *)
Record gen_ok (g : ProcNetSnmpMetrics) (curr prev : NetSnmp.NetSnmp) (currTs prevTs : Time) : Prop := mkGenOk {
  go_F : (fullMetricsFactor g <= MaxInt64)%Z;
  go_curr : procNetSnmp g !! currIndex g = Some (Some curr) /\ procNetSnmpTs g !! currIndex g = Some currTs;
  go_prev : procNetSnmp g !! (1 - currIndex g) = Some (Some prev) /\ procNetSnmpTs g !! (1 - currIndex g) = Some prevTs;
  go_values : length (NetSnmp.Values curr) = NUM /\ length (NetSnmp.Values prev) = NUM;
  go_cycles : length (cycleNum g) = PROC_NET_SNMP_CYCLE_COUNTER_NUM /\
              Forall (fun c => 0 <= c < Z.max 1 (fullMetricsFactor g))%Z (cycleNum g);
  go_zero : length (zeroDelta g) = NUM;
  go_cache : forall c, metricsCache g = Some c -> c = updateMetricsCache.1;
  go_interval : forall m, intervalMetric g = Some m -> m = updateIntervalMetricsCache
}.

Definition is_full (g : ProcNetSnmpMetrics) (i : nat) : bool := (cycleNum g !!! cycle_of i =? 0)%Z.

(** What is written for a value that went from [p] to [c]. *)
Definition value_line (g : ProcNetSnmpMetrics) (promTs : bytes) (i : nat) (name : bytes) (p c : Z) (wasZero : bool) : list bytes :=
  let m := metric name instance hostname [] in
  if procNetSnmpNonDeltaIndex i then
    if is_full g i || negb (c =? p)%Z then [line m (format_value i c) promTs] else []
  else
    let d := u32 (c - p) in
    if negb (d =? 0)%Z || is_full g i || negb wasZero then [line m (FormatUint d) promTs] else [].

Lemma snmp_cache_lookup i : i < NUM ->
  updateMetricsCache.1 !! i = Some (Some (metric (procNetSnmpIndexToMetricNameMap !!! i) instance hostname [])).
Proof.
  intros Hi. unfold updateMetricsCache. cbn [fst]. rewrite list_lookup_fmap, lookup_seq_lt by done. cbn.
  by rewrite (list_lookup_lookup_total_lt procNetSnmpIndexToMetricNameMap i) by done.
Qed.

(** The new zero flag: of the deltas only. *)
Definition value_zero (p : Z) (i : nat) (c : Z) : option bool :=
  if procNetSnmpNonDeltaIndex i then None else Some (u32 (c - p) =? 0)%Z.

Lemma snmp_gen_value g curr prev currTs prevTs promTs i c zd :
  gen_ok g curr prev currTs prevTs -> i < NUM -> length zd = NUM ->
  gen_value promTs updateMetricsCache.1 (Some (NetSnmp.Values prev)) (cycleNum g) i c zd =
  Ret (value_line g promTs i (procNetSnmpIndexToMetricNameMap !!! i) (NetSnmp.Values prev !!! i) c (zd !!! i),
       value_zero (NetSnmp.Values prev !!! i) i c).
Proof.
  intros [_ _ _ (Hc & Hp) [Hcy _] _ _ _] Hi Hz. unfold gen_value. rewrite snmp_cache_lookup by done. cbn [must].
  rewrite bind_ret.
  rewrite (list_lookup_lookup_total_lt (NetSnmp.Values prev) i), (list_lookup_lookup_total_lt zd i) by lia.
  fold (cycle_of i). rewrite (list_lookup_lookup_total_lt (cycleNum g) (cycle_of i)) by (rewrite Hcy; apply cycle_counter_lt).
  cbn [must]. rewrite !bind_ret. unfold value_line, value_zero, is_full.
  destruct (procNetSnmpNonDeltaIndex i); [|done]. by destruct (cycleNum g !!! cycle_of i =? 0)%Z.
Qed.

Lemma snmp_cache_of g curr prev currTs prevTs :
  gen_ok g curr prev currTs prevTs ->
  exists total, match metricsCache g with
                | Some cache => (cache, totalMetricsCount g)
                | None => updateMetricsCache
                end = (updateMetricsCache.1, total).
Proof.
  intros HG. destruct (metricsCache g) as [c|] eqn:E; [|by eexists].
  rewrite (go_cache _ _ _ _ _ HG c E). by eexists.
Qed.

(** A 32-bit counter that increased by [d]: the delta is [d]. *)
Lemma u32_delta x d : (0 <= d < 2 ^ 32)%Z -> u32 (u32 (x + d) - u32 x) = d.
Proof.
  intros Hd. unfold u32, wrapu. rewrite Zminus_mod_idemp_l, Zminus_mod_idemp_r.
  replace (x + d - x)%Z with d by lia. by apply Z.mod_small.
Qed.

(** C32: with two scans, a generation writes for every counter that went from [x]
    to [x + d], by less than 2^32, its delta [d], unless it is zero, was zero
    the last time and the cycle is not a full one; and the other values, such
    as the number of connections, as they are, signed where they may be
    negative, when they changed or the cycle is full; then the interval.  It
    remembers the zeros of the deltas, advances the cycles and toggles the
    scans. *)
Theorem snmp_metrics_deltas g curr prev currTs prevTs (x d : list Z) :
  gen_ok g curr prev currTs prevTs ->
  (forall i, i < NUM -> procNetSnmpNonDeltaIndex i = false ->
     (0 <= d !!! i < 2 ^ 32)%Z /\ NetSnmp.Values prev !! i = Some (u32 (x !!! i)) /\
     NetSnmp.Values curr !! i = Some (u32 (x !!! i + d !!! i))) ->
  let promTs := ts_suffix currTs in
  let c i := NetSnmp.Values curr !!! i in let p i := NetSnmp.Values prev !!! i in
  exists g' total lines, generateMetrics g = Ret (g', lines, (Z.of_nat (length lines), total)) /\
    lines = concat (imap (fun i name =>
        let m := metric name instance hostname [] in
        if procNetSnmpNonDeltaIndex i
        then if is_full g i || negb (c i =? p i)%Z then [line m (format_value i (c i)) promTs] else []
        else if negb (d !!! i =? 0)%Z || is_full g i || negb (zeroDelta g !!! i)
             then [line m (FormatUint (d !!! i)) promTs] else []) procNetSnmpIndexToMetricNameMap) ++
      [line updateIntervalMetricsCache (FormatFloat 6 (Seconds (Sub currTs prevTs))) promTs] /\
    length (zeroDelta g') = NUM /\
    (forall i, i < NUM -> zeroDelta g' !! i = if procNetSnmpNonDeltaIndex i then zeroDelta g !! i else Some (d !!! i =? 0)%Z) /\
    cycleNum g' = map (fun c => ((c + 1) mod Z.max 1 (fullMetricsFactor g))%Z) (cycleNum g) /\
    currIndex g' = 1 - currIndex g /\ procNetSnmp g' = procNetSnmp g /\ procNetSnmpTs g' = procNetSnmpTs g.
Proof.
  intros HG Hx promTs cv pv. pose proof HG as [HF [Hc Hct] [Hp Hpt] (Hlc & Hlp) [Hcl Hcr] Hz _ Him].
  unfold generateMetrics. rewrite Hc, Hp, Hct, Hpt. cbn [must]. rewrite !bind_ret. cbn [must]. rewrite bind_ret.
  destruct (snmp_cache_of _ _ _ _ _ HG) as [total ->].
  assert (forall i c, NetSnmp.Values curr !! i = Some c -> i < NUM /\ cv i = c /\
    (procNetSnmpNonDeltaIndex i = false -> u32 (c - pv i) = d !!! i)) as Hdelta.
  { intros i c Hic. assert (i < NUM) as Hi by (rewrite <- Hlc; by eapply lookup_lt_Some). split; [done|].
    split; [by apply list_lookup_total_correct|]. intros Hn.
    destruct (Hx i Hi Hn) as (Hr & Hpi & Hci). rewrite Hci in Hic. injection Hic as <-. unfold pv.
    rewrite (list_lookup_total_correct _ _ _ Hpi). by apply u32_delta. }
  destruct (for_values_spec _ (fun i c z => value_line g promTs i (procNetSnmpIndexToMetricNameMap !!! i) (pv i) c z)
    (fun i c _ => value_zero (pv i) i c) NUM (NetSnmp.Values curr) 0 (zeroDelta g)
    (fun i c zd Hi Hl => snmp_gen_value g curr prev currTs prevTs promTs i c zd HG Hi Hl))
    as (zd' & Hfor & Hzl & _ & Hzk); [by rewrite Hlc|done|].
  cbv beta iota zeta. fold promTs. cbn [fmap option_fmap option_map]. rewrite Hfor, bind_ret.
  eexists _, total, _. split; [reflexivity|]. cbn [zeroDelta cycleNum currIndex procNetSnmp procNetSnmpTs].
  split; [|split; [done|split; [|split; [|done]]]].
  - f_equal.
    + f_equal. apply imap_eq; [by rewrite Hlc|]. intros i c name Hi Hn. destruct (Hdelta i c Hi) as (_ & <- & Hdi). cbn [Nat.add].
      rewrite (list_lookup_total_correct _ _ _ Hn). unfold value_line.
      destruct (procNetSnmpNonDeltaIndex i); [done|]. by rewrite Hdi.
    + f_equal. f_equal. destruct (intervalMetric g) as [m|] eqn:E; [by apply Him|done].
  - intros i Hi. destruct (lookup_lt_is_Some_2 (NetSnmp.Values curr) i) as [c Hic]; [by rewrite Hlc|].
    specialize (Hzk i c Hic). cbn [Nat.add] in Hzk. rewrite Hzk. unfold value_zero.
    destruct (Hdelta i c Hic) as (_ & _ & Hdi). destruct (procNetSnmpNonDeltaIndex i); [done|]. by rewrite Hdi.
  - apply map_ext_in. intros c Hin%list_elem_of_In. apply next_cycle_mod; [|done]. by eapply Forall_forall in Hcr.
Qed.
End generator.

(** A generator after two scans. *)
Definition two_scans (prev curr : list Z) : ProcNetSnmpMetrics :=
  let scan v := NetSnmp.mkNetSnmp v None (bs "/proc/net/snmp") [] in
  mkMetrics 15 [Some (scan prev); Some (scan curr)] [zeroTime; mkTime Second None] 1 (replicate 16 3%Z) None None 0
    (replicate NUM true).

(** A counter that wraps around, 4294967295 to 1, and a change of a value that
    is reported as it is. *)
Lemma snmp_metrics_deltas_witness :
  let prev := <[2 := 4294967295%Z]> (<[51 := 7%Z]> (replicate NUM 7%Z)) in
  let curr := <[2 := 1%Z]> (<[51 := 4294967295%Z]> (replicate NUM 7%Z)) in
  exists g' total lines, generateMetrics (bs "i") (bs "h") (two_scans prev curr) = Ret (g', lines, (Z.of_nat (length lines), total)) /\
    zeroDelta g' !! 2 = Some false /\ zeroDelta g' !! 3 = Some true.
Proof.
  intros prev curr. set (d := <[2 := 2%Z]> (replicate NUM 0%Z)).
  destruct (snmp_metrics_deltas (bs "i") (bs "h") (two_scans prev curr)
    (NetSnmp.mkNetSnmp curr None (bs "/proc/net/snmp") []) (NetSnmp.mkNetSnmp prev None (bs "/proc/net/snmp") [])
    (mkTime Second None) zeroTime prev d) as (g' & total & lines & Hg & _ & _ & Hz & _).
  - split; try done. split; [done|]. repeat (constructor; [by vm_compute|]). constructor.
  - assert (Forall (fun i => procNetSnmpNonDeltaIndex i = true \/ ((0 <= d !!! i < 2 ^ 32)%Z /\ prev !! i = Some (u32 (prev !!! i)) /\
      curr !! i = Some (u32 (prev !!! i + d !!! i)))) (seq 0 NUM)) as HF.
    { apply (bool_decide_unpack _). vm_compute. exact I. }
    intros i Hi Hn. destruct (proj1 (Forall_lookup _ _) HF i i (lookup_seq_lt 0 NUM i Hi)) as [Hd|H]; [congruence|exact H].
  - exists g', total, lines. split; [exact Hg|]. split; (rewrite Hz; [vm_compute; reflexivity|vm_compute; lia]).
Defined.

(** What the second and third of three scans of a file write. *)
Definition three_scans (f1 f2 f3 : bytes) : list (option bytes) :=
  let exec f t '(g, mgs, out) :=
    '(g, mgs, buf, _) ← Execute (bs "i") (bs "h") (bs "/proc/net/snmp") (ReadOk f) (mkTime (t * Second) None) g mgs;
    Ret (g, mgs, out ++ [buf]) in
  match st ← exec f1 1%Z ((NewProcNetSnmpMetrics 1000 1).1, ∅, []); st ← exec f2 2%Z st; exec f3 3%Z st with
  | Ret (_, _, out) => out
  | _ => []
  end.

(** The first scan writes the values that are reported as they are, a negative
    one with its sign. *)
Example snmp_first_scan :
  let ts := ts_suffix (mkTime Second None) in
  let line name v := line (metric (bs name) (bs "i") (bs "h") []) (bs v) ts in
  let file := bs "Tcp: RtoMin MaxConn" ++ [NL] ++ bs "Tcp: 200 -1" ++ [NL] in
  three_scans file file file !! 0 ≫= id =
  Some (concat [line "proc_net_snmp_ip_forwarding" "0"; line "proc_net_snmp_ip_default_ttl" "0"; line "proc_net_snmp_ip_reasm_timeout" "0";
    line "proc_net_snmp_tcp_rto_algorithm" "0"; line "proc_net_snmp_tcp_rto_min" "200"; line "proc_net_snmp_tcp_rto_max" "0";
    line "proc_net_snmp_tcp_max_conn" "-1"; line "proc_net_snmp_tcp_curr_estab" "0"]).
Proof. vm_compute. reflexivity. Qed.
End NetSnmpMetrics.
