(* ===== verification/StatMetrics.v ===== *)
(** The metrics generator for /proc/stat (src/lsvmi/proc_stat_metrics.go): CPU
    percentages from tick deltas, of every CPU, of all and on average, presence
    of the CPUs, deltas and values of the other statistics, boot and up time.
    The orders of the map iterations and the duration of a tick are arguments;
    the output is the list of the lines written. *)

From Stdlib Require Import ZArith Lia.
From Stdlib Require Import Floats.SpecFloat.
From stdpp Require Import base tactics numbers strings gmap list.
From S2P Require Import Prelude Scan GoTime GoFloat MetricsCommon Stat.
Import MetricsCommon.

Module StatMetrics.

Definition PROC_STAT_METRICS_ID : bytes := bs "proc_stat_metrics".
Definition PROC_STAT_CPU_PCT_METRIC : bytes := bs "proc_stat_cpu_pct".
Definition PROC_STAT_CPU_PCT_MODE_LABEL_NAME : bytes := bs "mode".
Definition PROC_STAT_CPU_UP_METRIC : bytes := bs "proc_stat_cpu_up".
Definition PROC_STAT_CPU_LABEL_NAME : bytes := bs "cpu".
Definition PROC_STAT_CPU_ALL_LABEL_VALUE : bytes := bs "all".
Definition PROC_STAT_CPU_AVG_LABEL_VALUE : bytes := bs "avg".
Definition PROC_STAT_BTIME_METRIC : bytes := bs "proc_stat_btime_sec".
Definition PROC_STAT_UPTIME_METRIC : bytes := bs "proc_stat_uptime_sec".
Definition PROC_STAT_INTERVAL_METRIC : bytes := bs "proc_stat_metrics_delta_sec".

(** The label of a kind of ticks, by index. *)
Definition procStatCpuIndexTypeLabelValMap : list bytes := [
  bs "user"; bs "nice"; bs "system"; bs "idle"; bs "iowait"; bs "irq"; bs "softirq"; bs "steal"; bs "guest"; bs "guest_nice"].

(** The indexes of the scalar statistics. *)
Definition STAT_BTIME : nat := 5.
Definition procStatIndexDeltaMetricNameMap : list (nat * bytes) := [
  (0, bs "proc_stat_page_in_delta");
  (1, bs "proc_stat_page_out_delta");
  (2, bs "proc_stat_swap_in_delta");
  (3, bs "proc_stat_swap_out_delta");
  (4, bs "proc_stat_ctxt_delta");
  (6, bs "proc_stat_processes_delta")].
Definition procStatIndexMetricNameMap : list (nat * bytes) := [
  (7, bs "proc_stat_procs_running_count");
  (8, bs "proc_stat_procs_blocked_count")].

Record ProcStatMetricsCpuInfo := mkCpuInfo {
  pCpuMetrics : list bytes;
  upMetric : bytes;
  cycleNum : Z;
  zeroPcpu : list bool
}.

Record ProcStatMetrics := mkMetrics {
  fullMetricsFactor : Z;
  procStat : list (option Stat.Stat);
  procStatTs : list Time;
  currIndex : nat;
  cpuInfo : gmap Z ProcStatMetricsCpuInfo;
  avgPCpuMetrics : option (list bytes);
  avgCpuUpMetric : bytes;
  btimeMetric : bytes;
  uptimeMetric : bytes;
  btime : Time;
  otherMetrics : option (gmap nat bytes);
  otherZeroDelta : list bool;
  otherCycleNum : Z;
  intervalMetric : bytes;
  maxNumCpus : Z;
  totalMetricsCount : Z
}.

(** [updateMaxNumCpus]: the total for a number of CPUs. *)
Definition total_for (numCpus : Z) : Z :=
  ((numCpus + 1) * (Z.of_nat Stat.STAT_CPU_NUM_STATS + 1) + Z.of_nat (length procStatIndexDeltaMetricNameMap) +
   Z.of_nat (length procStatIndexMetricNameMap) + 2 + 1)%Z.

Definition NewProcStatMetrics (fullMetricsFactor : Z) (icm : Z) : ProcStatMetrics * Z :=
  let '(cn, icm) := InitialCycleNum_Get fullMetricsFactor icm in
  (mkMetrics fullMetricsFactor [None; None] [zeroTime; zeroTime] 0 ∅ None [] [] [] zeroTime None
     (replicate Stat.STAT_NUMERIC_NUM_STATS false) cn [] 1 (total_for 1), icm).

(** [time.Unix(sec, 0)]. *)
Definition Unix (sec : Z) : Time := mkTime ((sec + 62135596800) * Second) None.

Section generator.
Context (instance hostname statPath : bytes) (linuxClktckSec : spec_float).

Definition cpu_label (cpu : Z) : bytes :=
  if (cpu =? Stat.STAT_CPU_ALL)%Z then PROC_STAT_CPU_ALL_LABEL_VALUE else Itoa cpu.
Definition pcpu_metrics (label : bytes) : list bytes :=
  map (fun mode => metric PROC_STAT_CPU_PCT_METRIC instance hostname
                     [(PROC_STAT_CPU_PCT_MODE_LABEL_NAME, mode); (PROC_STAT_CPU_LABEL_NAME, label)])
      procStatCpuIndexTypeLabelValMap.
Definition up_metric (label : bytes) : bytes :=
  metric PROC_STAT_CPU_UP_METRIC instance hostname [(PROC_STAT_CPU_LABEL_NAME, label)].

(** The state that the loop over the CPUs changes. *)
Record cpu_state := mkCpus {
  cs_info : gmap Z ProcStatMetricsCpuInfo;
  cs_avg : option (list bytes);
  cs_avgUp : bytes;
  cs_icm : Z
}.

(** [updateCpuInfo]: with the metrics for the average when the CPU is "all". *)
Definition updateCpuInfo (F : Z) (cpu : Z) (st : cpu_state) : ProcStatMetricsCpuInfo * cpu_state :=
  let '(cn, icm) := InitialCycleNum_Get F (cs_icm st) in
  let info := mkCpuInfo (pcpu_metrics (cpu_label cpu)) (up_metric (cpu_label cpu)) cn (replicate Stat.STAT_CPU_NUM_STATS false) in
  (info,
   if (cpu =? Stat.STAT_CPU_ALL)%Z
   then mkCpus (<[cpu := info]> (cs_info st)) (Some (pcpu_metrics PROC_STAT_CPU_AVG_LABEL_VALUE)) (up_metric PROC_STAT_CPU_AVG_LABEL_VALUE) icm
   else mkCpus (<[cpu := info]> (cs_info st)) (cs_avg st) (cs_avgUp st) icm).

(** One kind of ticks. *)
Definition gen_pct (full : bool) (pCpuFactor : spec_float) (numCpus : Z) (promTs : bytes) (avg : option (list bytes))
    (curr prev : list Z) (index : nat) (metric : bytes) (zeroPcpu : list bool) : outcome (list bytes * option bool) :=
  c ← must (curr !! index); p ← must (prev !! index);
  let dCpuTicks := u64 (c - p) in
  emit ← (if negb (dCpuTicks =? 0)%Z || full then Ret true else z ← must (zeroPcpu !! index); Ret (negb z));
  if emit : bool then
    let pct := f64_mul (f64_of_int dCpuTicks) pCpuFactor in
    avgLines ← (match avg with
                | None => Ret []
                | Some ms => m ← must (ms !! index);
                             Ret [line m (FormatFloat 1 (f64_div pct (f64_of_int numCpus))) promTs]
                end);
    Ret (line metric (FormatFloat 1 pct) promTs :: avgLines, Some (dCpuTicks =? 0)%Z)
  else Ret ([], None).

(** One CPU of the current scan. *)
Definition gen_cpu (F : Z) (pCpuFactor : spec_float) (promTs : bytes) (numCpus : Z) (curr prev : gmap Z (list Z))
    (cpu : Z) (st : cpu_state) : outcome (cpu_state * list bytes) :=
  currCpuStats ← must (curr !! cpu);
  match prev !! cpu with
  | None => Ret (st, [])
  | Some prevCpuStats =>
    let '(info, fullMetrics, st) :=
      match cs_info st !! cpu with
      | Some i => (i, (cycleNum i =? 0)%Z, st)
      | None => let '(i, st) := updateCpuInfo F cpu st in (i, true, st)
      end in
    let avg := if (cpu =? Stat.STAT_CPU_ALL)%Z && (0 <? numCpus)%Z then cs_avg st else None in
    '(zd, lines) ← for_values (gen_pct fullMetrics pCpuFactor numCpus promTs avg currCpuStats prevCpuStats)
                     0 (pCpuMetrics info) (zeroPcpu info);
    let up := if fullMetrics : bool
              then line (upMetric info) (bs "1") promTs ::
                   match avg with Some _ => [line (cs_avgUp st) (bs "1") promTs] | None => [] end
              else [] in
    let info := mkCpuInfo (pCpuMetrics info) (upMetric info) (next_cycle F (cycleNum info)) zd in
    Ret (mkCpus (<[cpu := info]> (cs_info st)) (cs_avg st) (cs_avgUp st) (cs_icm st), lines ++ up)
  end.

(** A CPU that is gone. *)
Definition gone_cpu (avgUp promTs : bytes) (cpu : Z) (info : ProcStatMetricsCpuInfo) : list bytes :=
  line (upMetric info) (bs "0") promTs ::
  (if (cpu =? Stat.STAT_CPU_ALL)%Z then [line avgUp (bs "0") promTs] else []).

(** [updateOtherMetrics]. *)
Definition other_metric (name : bytes) : bytes := metric name instance hostname [].
Definition updateOtherMetrics (curr : Stat.Stat) (g : ProcStatMetrics) : outcome ProcStatMetrics :=
  bt ← must (Stat.NumericFields curr !! STAT_BTIME);
  let bt := i64 bt in
  Ret (mkMetrics (fullMetricsFactor g) (procStat g) (procStatTs g) (currIndex g) (cpuInfo g) (avgPCpuMetrics g) (avgCpuUpMetric g)
    (other_metric PROC_STAT_BTIME_METRIC ++ Itoa bt) (other_metric PROC_STAT_UPTIME_METRIC) (Unix bt)
    (Some (list_to_map (map (fun e => (e.1, other_metric e.2)) (procStatIndexDeltaMetricNameMap ++ procStatIndexMetricNameMap))))
    (otherZeroDelta g) (otherCycleNum g) (other_metric PROC_STAT_INTERVAL_METRIC) (maxNumCpus g) (totalMetricsCount g)).

(** A delta of the other statistics; a missing entry of the map would be nil. *)
Definition gen_delta (full : bool) (promTs : bytes) (metrics : gmap nat bytes) (curr prev : list Z)
    (index : nat) (zd : list bool) : outcome (list bool * list bytes) :=
  c ← must (curr !! index); p ← must (prev !! index);
  let delta := u64 (c - p) in
  emit ← (if full || negb (delta =? 0)%Z then Ret true else z ← must (zd !! index); Ret (negb z));
  zd ← store zd index (delta =? 0)%Z;
  Ret (zd, if emit : bool then [line (default [] (metrics !! index)) (FormatUint delta) promTs] else []).

(** A value of the other statistics. *)
Definition gen_val (full : bool) (promTs : bytes) (metrics : gmap nat bytes) (curr prev : list Z)
    (index : nat) (st : unit) : outcome (unit * list bytes) :=
  val ← must (curr !! index);
  emit ← (if full then Ret true else p ← must (prev !! index); Ret (negb (val =? p)%Z));
  Ret (st, if emit : bool then [line (default [] (metrics !! index)) (FormatUint val) promTs] else []).

(** [generateMetrics]: [order] and [order2] are the orders of the CPUs of the
    current scan and of the known ones, [orderD] and [orderN] those of the two
    tables of scalar statistics, [since] is the time at which the up time is
    taken. *)
Definition generateMetrics (order : gmap Z (list Z) -> list Z) (order2 : gmap Z ProcStatMetricsCpuInfo -> list Z)
    (orderD orderN : list nat) (since : Time) (g : ProcStatMetrics) (icm : Z)
    : outcome (ProcStatMetrics * Z * list bytes * (Z * Z)) :=
  let ci := currIndex g in
  curr ← must (procStat g !! ci); prev ← must (procStat g !! (1 - ci));
  currTs ← must (procStatTs g !! ci); prevTs ← must (procStatTs g !! (1 - ci));
  curr ← must curr;
  let numCpus := Stat.NumCpus curr in
  let '(maxCpus, total) := if (maxNumCpus g <? numCpus)%Z then (numCpus, total_for numCpus) else (maxNumCpus g, totalMetricsCount g) in
  match prev with
  | None =>
    Ret (mkMetrics (fullMetricsFactor g) (procStat g) (procStatTs g) (1 - ci) (cpuInfo g) (avgPCpuMetrics g) (avgCpuUpMetric g)
           (btimeMetric g) (uptimeMetric g) (btime g) (otherMetrics g) (otherZeroDelta g) (otherCycleNum g) (intervalMetric g) maxCpus total,
         icm, [], (0%Z, total))
  | Some prev =>
    let promTs := ts_suffix currTs in
    let deltaSec := Seconds (Sub currTs prevTs) in
    let pCpuFactor := f64_div (f64_mul linuxClktckSec (f64_of_int 100)) deltaSec in
    '(st, lines) ← for_keys (gen_cpu (fullMetricsFactor g) pCpuFactor promTs numCpus (Stat.Cpu curr) (Stat.Cpu prev)) (order (Stat.Cpu curr))
                     (mkCpus (cpuInfo g) (avgPCpuMetrics g) (avgCpuUpMetric g) icm);
    let '(m, gone) :=
      if size (Stat.Cpu curr) <? size (cs_info st)
      then remove_gone (gone_cpu (cs_avgUp st) promTs) (fun cpu => bool_decide (is_Some (Stat.Cpu curr !! cpu))) (order2 (cs_info st)) (cs_info st)
      else (cs_info st, []) in
    let otherFull := match otherMetrics g with None => true | Some _ => (otherCycleNum g =? 0)%Z end in
    g ← (match otherMetrics g with None => updateOtherMetrics curr g | Some _ => Ret g end);
    let metrics := default ∅ (otherMetrics g) in
    '(zd, deltas) ← for_keys (gen_delta otherFull promTs metrics (Stat.NumericFields curr) (Stat.NumericFields prev)) orderD (otherZeroDelta g);
    '(_, vals) ← for_keys (gen_val otherFull promTs metrics (Stat.NumericFields curr) (Stat.NumericFields prev)) orderN tt;
    let boot := if otherFull : bool
                then [line (btimeMetric g) [] promTs; line (uptimeMetric g) (FormatFloat 3 (Seconds (Sub since (btime g)))) promTs]
                else [] in
    let lines := lines ++ gone ++ deltas ++ vals ++ boot ++ [line (intervalMetric g) (FormatFloat 6 deltaSec) promTs] in
    Ret (mkMetrics (fullMetricsFactor g) (procStat g) (procStatTs g) (1 - ci) m (cs_avg st) (cs_avgUp st)
           (btimeMetric g) (uptimeMetric g) (btime g) (otherMetrics g) zd (next_cycle (fullMetricsFactor g) (otherCycleNum g)) (intervalMetric g) maxCpus total,
         cs_icm st, lines, (Z.of_nat (length lines), total))
  end.

Definition Execute (rd : read_result) (now since : Time) (order : gmap Z (list Z) -> list Z) (order2 : gmap Z ProcStatMetricsCpuInfo -> list Z)
    (orderD orderN : list nat) (g : ProcStatMetrics) (icm : Z) (mgs : MetricsGeneratorStats)
    : outcome (ProcStatMetrics * Z * MetricsGeneratorStats * option bytes * bool) :=
  let ci := currIndex g in
  let set objs ts := mkMetrics (fullMetricsFactor g) objs ts ci (cpuInfo g) (avgPCpuMetrics g) (avgCpuUpMetric g) (btimeMetric g) (uptimeMetric g)
                       (btime g) (otherMetrics g) (otherZeroDelta g) (otherCycleNum g) (intervalMetric g) (maxNumCpus g) (totalMetricsCount g) in
  curr ← must (procStat g !! ci);
  prev ← must (procStat g !! (1 - ci));
  curr ← (match curr with
          | Some s => Ret s
          | None => match prev with
                    | Some p => Stat.Clone false p
                    | None => Ret (Stat.NewStat statPath)
                    end
          end);
  '(curr, err) ← Stat.Parse rd curr;
  objs ← store (procStat g) ci (Some curr);
  match err with
  | Some _ => Ret (set objs (procStatTs g), icm, mgs, None, false)
  | None =>
    ts ← store (procStatTs g) ci now;
    '(g, icm, lines, (actual, total)) ← generateMetrics order order2 orderD orderN since (set objs ts) icm;
    let buf := concat lines in
    mgs ← Update PROC_STAT_METRICS_ID (u64 actual) (u64 total) (u64 (Z.of_nat (length buf))) mgs;
    Ret (g, icm, mgs, Some buf, true)
  end.
(** ** What a generation writes *)

Definition scan_ok (s : Stat.Stat) : Prop :=
  map_Forall (fun _ v => length v = Stat.STAT_CPU_STATS_SZ) (Stat.Cpu s) /\
  length (Stat.NumericFields s) = Stat.STAT_NUMERIC_NUM_STATS.

Record info_ok (F : Z) (cpu : Z) (i : ProcStatMetricsCpuInfo) : Prop := mkInfoOk {
  io_pct : pCpuMetrics i = pcpu_metrics (cpu_label cpu);
  io_up : upMetric i = up_metric (cpu_label cpu);
  io_cycle : (0 <= cycleNum i < Z.max 1 F)%Z;
  io_zero : length (zeroPcpu i) = Stat.STAT_CPU_NUM_STATS
}.

(** The state of the loop over the CPUs: the metrics for the average are there
    as soon as "all" is known. *)
Record cpus_ok (F : Z) (st : cpu_state) : Prop := mkCpusOk {
  co_info : map_Forall (info_ok F) (cs_info st);
  co_avg : is_Some (cs_info st !! Stat.STAT_CPU_ALL) ->
    cs_avg st = Some (pcpu_metrics PROC_STAT_CPU_AVG_LABEL_VALUE) /\ cs_avgUp st = up_metric PROC_STAT_CPU_AVG_LABEL_VALUE;
  co_icm : (0 <= cs_icm st)%Z
}.

Definition is_full (o : option ProcStatMetricsCpuInfo) : bool :=
  match o with Some d => (cycleNum d =? 0)%Z | None => true end.
Definition zeros (o : option ProcStatMetricsCpuInfo) : list bool :=
  match o with Some d => zeroPcpu d | None => replicate Stat.STAT_CPU_NUM_STATS false end.

(** The ticks of a kind between two scans. *)
Definition ticks (c p : list Z) (k : nat) : Z := u64 (c !!! k - p !!! k).

Definition with_avg (cpu numCpus : Z) : bool := (cpu =? Stat.STAT_CPU_ALL)%Z && (0 <? numCpus)%Z.

(** The lines for kind [k]: the percentage, and its share per CPU for "all". *)
Definition pct_lines (full : bool) (factor : spec_float) (numCpus : Z) (promTs : bytes) (cpu : Z) (k : nat) (metric : bytes)
    (delta : Z) (zero : bool) : list bytes :=
  let pct := f64_mul (f64_of_int delta) factor in
  if negb (delta =? 0)%Z || full || negb zero
  then line metric (FormatFloat 1 pct) promTs ::
       (if with_avg cpu numCpus
        then [line (pcpu_metrics PROC_STAT_CPU_AVG_LABEL_VALUE !!! k) (FormatFloat 1 (f64_div pct (f64_of_int numCpus))) promTs]
        else [])
  else [].

Definition cpu_lines (factor : spec_float) (numCpus : Z) (promTs : bytes) (cpu : Z) (o : option ProcStatMetricsCpuInfo)
    (c p : list Z) : list bytes :=
  concat (imap (fun k m => pct_lines (is_full o) factor numCpus promTs cpu k m (ticks c p k) (zeros o !!! k))
            (pcpu_metrics (cpu_label cpu))) ++
  (if is_full o
   then line (up_metric (cpu_label cpu)) (bs "1") promTs ::
        (if with_avg cpu numCpus then [line (up_metric PROC_STAT_CPU_AVG_LABEL_VALUE) (bs "1") promTs] else [])
   else []).

(** What the generation did for a CPU. *)
Definition cpu_done (F : Z) (factor : spec_float) (numCpus : Z) (promTs : bytes) (curr prev : gmap Z (list Z)) (cpu : Z)
    (o o' : option ProcStatMetricsCpuInfo) (L : list bytes) : Prop :=
  match curr !! cpu, prev !! cpu with
  | Some c, Some p =>
    L = cpu_lines factor numCpus promTs cpu o c p /\
    exists i', o' = Some i' /\ info_ok F cpu i' /\
      (forall k, k < Stat.STAT_CPU_NUM_STATS -> zeroPcpu i' !! k = Some (ticks c p k =? 0)%Z) /\
      (forall i, o = Some i -> cycleNum i' = ((cycleNum i + 1) mod Z.max 1 F)%Z)
  | _, _ => L = [] /\ o' = o
  end.

Lemma stat_gen_pct full factor numCpus promTs cpu c p i m zd :
  length c = Stat.STAT_CPU_STATS_SZ -> length p = Stat.STAT_CPU_STATS_SZ -> i < Stat.STAT_CPU_NUM_STATS ->
  length zd = Stat.STAT_CPU_NUM_STATS ->
  gen_pct full factor numCpus promTs (if with_avg cpu numCpus then Some (pcpu_metrics PROC_STAT_CPU_AVG_LABEL_VALUE) else None)
    c p i m zd =
  Ret (pct_lines full factor numCpus promTs cpu i m (ticks c p i) (zd !!! i),
       if negb (ticks c p i =? 0)%Z || full || negb (zd !!! i) then Some (ticks c p i =? 0)%Z else None).
Proof.
  intros Hc Hp Hi Hzd. unfold gen_pct, pct_lines, ticks. unfold Stat.STAT_CPU_STATS_SZ, Stat.STAT_CPU_SCAN_NUMBER in *.
  rewrite (list_lookup_lookup_total_lt c i), (list_lookup_lookup_total_lt p i), (list_lookup_lookup_total_lt zd i)
    by lia.
  cbn [must]. rewrite !bind_ret. set (d := u64 (c !!! i - p !!! i)). set (z := zd !!! i).
  assert (pcpu_metrics PROC_STAT_CPU_AVG_LABEL_VALUE !! i = Some (pcpu_metrics PROC_STAT_CPU_AVG_LABEL_VALUE !!! i)) as Hm
    by by apply list_lookup_lookup_total_lt.
  destruct (negb (d =? 0)%Z || full), z, (with_avg cpu numCpus); cbn [orb negb must]; rewrite ?bind_ret, ?Hm; done.
Qed.

Section cpu_step.
Context (F : Z) (factor : spec_float) (numCpus : Z) (promTs : bytes) (curr prev : Stat.Stat).
Hypothesis HF : (F <= MaxInt64)%Z.
Hypothesis Hcurr : scan_ok curr.
Hypothesis Hprev : scan_ok prev.

Lemma stat_cpu_values full cpu c p zd :
  length c = Stat.STAT_CPU_STATS_SZ -> length p = Stat.STAT_CPU_STATS_SZ -> length zd = Stat.STAT_CPU_NUM_STATS ->
  exists zd', for_values
      (gen_pct full factor numCpus promTs (if with_avg cpu numCpus then Some (pcpu_metrics PROC_STAT_CPU_AVG_LABEL_VALUE) else None) c p)
      0 (pcpu_metrics (cpu_label cpu)) zd =
    Ret (zd', concat (imap (fun k m => pct_lines full factor numCpus promTs cpu k m (ticks c p k) (zd !!! k)) (pcpu_metrics (cpu_label cpu)))) /\
    length zd' = Stat.STAT_CPU_NUM_STATS /\
    forall k, k < Stat.STAT_CPU_NUM_STATS -> zd' !! k = Some (ticks c p k =? 0)%Z.
Proof.
  intros Hc Hp Hzd.
  destruct (for_values_spec _ (fun k m z => pct_lines full factor numCpus promTs cpu k m (ticks c p k) z)
    (fun k m z => if negb (ticks c p k =? 0)%Z || full || negb z then Some (ticks c p k =? 0)%Z else None)
    Stat.STAT_CPU_NUM_STATS (pcpu_metrics (cpu_label cpu)) 0 zd
    (fun i m zd Hi Hl => stat_gen_pct full factor numCpus promTs cpu c p i m zd Hc Hp Hi Hl)) as (zd' & Hf & Hl & _ & Hk); [done|done|].
  exists zd'. split; [exact Hf|]. split; [done|]. intros k Hk'.
  destruct (lookup_lt_is_Some_2 (pcpu_metrics (cpu_label cpu)) k) as [m Hm]; [done|]. specialize (Hk k m Hm). cbn [Nat.add] in Hk.
  rewrite Hk. rewrite (list_lookup_lookup_total_lt zd k) by lia. destruct (ticks c p k =? 0)%Z; [|done].
  destruct full; [done|]. by destruct (zd !!! k).
Qed.

(** The cached information of a CPU, found or created. *)
Lemma stat_cpu_info cpu st :
  cpus_ok F st ->
  exists i st', match cs_info st !! cpu with
      | Some i => (i, (cycleNum i =? 0)%Z, st)
      | None => let '(i, st) := updateCpuInfo F cpu st in (i, true, st)
      end = (i, is_full (cs_info st !! cpu), st') /\
    info_ok F cpu i /\ zeroPcpu i = zeros (cs_info st !! cpu) /\ cpus_ok F st' /\ cs_info st' !! cpu = Some i /\
    (forall j, cs_info st !! cpu = Some j -> i = j) /\ (forall k, k <> cpu -> cs_info st' !! k = cs_info st !! k).
Proof.
  intros Hst. pose proof Hst as [Hi Ha Hc]. destruct (cs_info st !! cpu) as [i|] eqn:Ei.
  - exists i, st. split_and!; [done|by apply Hi|done|done|done|naive_solver|done].
  - unfold updateCpuInfo. destruct (InitialCycleNum_Get F (cs_icm st)) as [cn icm] eqn:Eg.
    apply InitialCycleNum_range in Eg as [Hr Hicm]; [|done].
    set (i := mkCpuInfo _ _ cn _). exists i. assert (info_ok F cpu i) as Hok by by split.
    assert (map_Forall (info_ok F) (<[cpu := i]> (cs_info st))) by by apply map_Forall_insert_2.
    destruct (cpu =? Stat.STAT_CPU_ALL)%Z eqn:Ec; eexists; (split; [reflexivity|]); cbn [cs_info];
      (split; [done|]); (split; [done|]); (split; [|split; [apply lookup_insert_eq|split; [done|]]]);
      try (intros k Hk; by apply lookup_insert_ne); split; cbn [cs_info cs_avg cs_avgUp cs_icm]; try done.
    intros HA. apply Ha. rewrite lookup_insert_ne in HA by (apply Z.eqb_neq in Ec; done). done.
Qed.

Lemma stat_gen_cpu cpu st :
  cpus_ok F st -> is_Some (Stat.Cpu curr !! cpu) ->
  exists st' L, gen_cpu F factor promTs numCpus (Stat.Cpu curr) (Stat.Cpu prev) cpu st = Ret (st', L) /\ cpus_ok F st' /\
    cpu_done F factor numCpus promTs (Stat.Cpu curr) (Stat.Cpu prev) cpu (cs_info st !! cpu) (cs_info st' !! cpu) L /\
    (forall k, k <> cpu -> cs_info st' !! k = cs_info st !! k).
Proof.
  intros Hst [c Hc]. unfold gen_cpu, cpu_done. rewrite Hc. cbn [must]. rewrite bind_ret.
  destruct (Stat.Cpu prev !! cpu) as [p|] eqn:Hp; [|by exists st, []].
  destruct (stat_cpu_info cpu st Hst) as (i & st1 & -> & [Hpct Hup Hcy Hzl] & Hz & [Hi1 Ha1 Hc1] & Hl1 & Hold & Hoth).
  fold (with_avg cpu numCpus).
  assert ((if with_avg cpu numCpus then cs_avg st1 else None) =
          if with_avg cpu numCpus then Some (pcpu_metrics PROC_STAT_CPU_AVG_LABEL_VALUE) else None) as ->.
  { unfold with_avg. destruct (cpu =? Stat.STAT_CPU_ALL)%Z eqn:E; [|done]. apply Z.eqb_eq in E as ->.
    destruct Ha1 as [-> _]; [by exists i|done]. }
  destruct (stat_cpu_values (is_full (cs_info st !! cpu)) cpu c p (zeroPcpu i)
    (proj1 Hcurr _ _ Hc) (proj1 Hprev _ _ Hp) Hzl) as (zd' & Hv & Hl & Hk).
  rewrite Hpct, Hv, bind_ret. eexists _, _. split; [reflexivity|]. cbn [cs_info].
  assert (info_ok F cpu (mkCpuInfo (pcpu_metrics (cpu_label cpu)) (upMetric i) (next_cycle F (cycleNum i)) zd')) as Hok.
  { split; simpl; [done|done| |done]. rewrite next_cycle_mod by done. apply Z.mod_pos_bound. lia. }
  split; [|split; [split|]].
  - split; cbn [cs_info cs_avg cs_avgUp cs_icm]; [by apply map_Forall_insert_2| |done].
    intros HA. apply Ha1. destruct (decide (cpu = Stat.STAT_CPU_ALL)) as [->|Hne]; [by exists i|]. by rewrite lookup_insert_ne in HA.
  - unfold cpu_lines. rewrite Hz, Hup. destruct (is_full _); [|done]. unfold with_avg.
    destruct (cpu =? Stat.STAT_CPU_ALL)%Z eqn:E; [|done]. apply Z.eqb_eq in E as ->.
    destruct Ha1 as [_ ->]; [by exists i|]. by destruct (0 <? numCpus)%Z.
  - rewrite lookup_insert_eq. eexists. split; [done|]. split; [done|]. split; [done|].
    intros j Hj. simpl. by rewrite next_cycle_mod, (Hold j Hj) by done.
  - intros k Hne. rewrite lookup_insert_ne by done. by apply Hoth.
Qed.
End cpu_step.
(** *** The other statistics *)

Definition other_map : gmap nat bytes :=
  list_to_map (map (fun e => (e.1, other_metric e.2)) (procStatIndexDeltaMetricNameMap ++ procStatIndexMetricNameMap)).

(** The cached metrics of the other statistics, [bt] being the boot time of the
    first generation. *)
Definition other_ok (bt : Z) (g : ProcStatMetrics) : Prop :=
  otherMetrics g = Some other_map /\ btimeMetric g = other_metric PROC_STAT_BTIME_METRIC ++ Itoa bt /\
  uptimeMetric g = other_metric PROC_STAT_UPTIME_METRIC /\ btime g = Unix bt /\
  intervalMetric g = other_metric PROC_STAT_INTERVAL_METRIC.

Definition delta_lines (full : bool) (promTs : bytes) (c p : list Z) (i : nat) (zero : bool) : list bytes :=
  if full || negb (ticks c p i =? 0)%Z || negb zero
  then [line (default [] (other_map !! i)) (FormatUint (ticks c p i)) promTs] else [].
Definition val_lines (full : bool) (promTs : bytes) (c p : list Z) (i : nat) : list bytes :=
  if full || negb (c !!! i =? p !!! i)%Z then [line (default [] (other_map !! i)) (FormatUint (c !!! i)) promTs] else [].
Definition boot_lines (full : bool) (bt : Z) (since : Time) (promTs : bytes) : list bytes :=
  if full then [line (other_metric PROC_STAT_BTIME_METRIC ++ Itoa bt) [] promTs;
                line (other_metric PROC_STAT_UPTIME_METRIC) (FormatFloat 3 (Seconds (Sub since (Unix bt)))) promTs]
  else [].

Definition other_full (g : ProcStatMetrics) : bool :=
  match otherMetrics g with None => true | Some _ => (otherCycleNum g =? 0)%Z end.

Section other_step.
Context (full : bool) (promTs : bytes) (c p : list Z).
Hypothesis Hc : length c = Stat.STAT_NUMERIC_NUM_STATS.
Hypothesis Hp : length p = Stat.STAT_NUMERIC_NUM_STATS.

Lemma stat_gen_delta i zd :
  i < Stat.STAT_NUMERIC_NUM_STATS -> length zd = Stat.STAT_NUMERIC_NUM_STATS ->
  gen_delta full promTs other_map c p i zd =
  Ret (<[i := (ticks c p i =? 0)%Z]> zd, delta_lines full promTs c p i (zd !!! i)).
Proof.
  intros Hi Hzd. unfold gen_delta, delta_lines, ticks.
  rewrite (list_lookup_lookup_total_lt c i), (list_lookup_lookup_total_lt p i), (list_lookup_lookup_total_lt zd i) by lia.
  cbn [must]. rewrite !bind_ret. rewrite store_Ret by lia. by destruct (full || _), (zd !!! i).
Qed.

Lemma stat_gen_val i : i < Stat.STAT_NUMERIC_NUM_STATS -> gen_val full promTs other_map c p i tt = Ret (tt, val_lines full promTs c p i).
Proof.
  intros Hi. unfold gen_val, val_lines. rewrite (list_lookup_lookup_total_lt c i), (list_lookup_lookup_total_lt p i) by lia.
  cbn [must]. rewrite !bind_ret. by destruct full.
Qed.

Lemma stat_vals order :
  Forall (fun i => i < Stat.STAT_NUMERIC_NUM_STATS) order ->
  for_keys (gen_val full promTs other_map c p) order tt = Ret (tt, concat (map (val_lines full promTs c p) order)).
Proof. intros Ho. apply for_keys_unit. intros i Hi. apply stat_gen_val. by eapply Forall_forall in Ho. Qed.
End other_step.

(** A generator that holds two scans. *)
Record gen_ok (g : ProcStatMetrics) (icm : Z) (curr prev : Stat.Stat) (currTs prevTs : Time) (bt : Z) : Prop := mkGenOk {
  go_F : (fullMetricsFactor g <= MaxInt64)%Z;
  go_curr : procStat g !! currIndex g = Some (Some curr) /\ procStatTs g !! currIndex g = Some currTs;
  go_prev : procStat g !! (1 - currIndex g) = Some (Some prev) /\ procStatTs g !! (1 - currIndex g) = Some prevTs;
  go_scans : scan_ok curr /\ scan_ok prev;
  go_cpus : cpus_ok (fullMetricsFactor g) (mkCpus (cpuInfo g) (avgPCpuMetrics g) (avgCpuUpMetric g) icm);
  go_other : match otherMetrics g with None => bt = i64 (Stat.NumericFields curr !!! STAT_BTIME) | Some _ => other_ok bt g end;
  go_zero : length (otherZeroDelta g) = Stat.STAT_NUMERIC_NUM_STATS
}.

Lemma stat_other_step g icm curr prev currTs prevTs bt :
  gen_ok g icm curr prev currTs prevTs bt ->
  exists g', (match otherMetrics g with None => updateOtherMetrics curr g | Some _ => Ret g end) = Ret g' /\ other_ok bt g' /\
    procStat g' = procStat g /\ procStatTs g' = procStatTs g /\ otherZeroDelta g' = otherZeroDelta g /\
    otherCycleNum g' = otherCycleNum g /\ fullMetricsFactor g' = fullMetricsFactor g.
Proof.
  intros [_ _ _ [[_ Hl] _] _ Ho _]. destruct (otherMetrics g) eqn:Eo; [by exists g|].
  unfold updateOtherMetrics. rewrite (list_lookup_lookup_total_lt _ STAT_BTIME) by (rewrite Hl; unfold STAT_BTIME, Stat.STAT_NUMERIC_NUM_STATS; lia).
  cbn [must]. rewrite bind_ret. eexists. split; [done|]. split_and!; try done. unfold other_ok. cbn. by rewrite Ho.
Qed.
(** A line that reports a CPU that the current scan does not have. *)
Definition gone_line (promTs : bytes) (curr : Stat.Stat) (l : bytes) : Prop :=
  exists cpu, Stat.Cpu curr !! cpu = None /\
    (l = line (up_metric (cpu_label cpu)) (bs "0") promTs \/
     cpu = Stat.STAT_CPU_ALL /\ l = line (up_metric PROC_STAT_CPU_AVG_LABEL_VALUE) (bs "0") promTs).

Lemma stat_remove_gone F st promTs curr order2 :
  cpus_ok F st -> is_order order2 ->
  exists m gone, (if size (Stat.Cpu curr) <? size (cs_info st)
      then remove_gone (gone_cpu (cs_avgUp st) promTs) (fun cpu => bool_decide (is_Some (Stat.Cpu curr !! cpu))) (order2 (cs_info st)) (cs_info st)
      else (cs_info st, [])) = (m, gone) /\
    Forall (gone_line promTs curr) gone /\ cpus_ok F (mkCpus m (cs_avg st) (cs_avgUp st) (cs_icm st)) /\
    (forall cpu, is_Some (Stat.Cpu curr !! cpu) -> m !! cpu = cs_info st !! cpu) /\
    (size (Stat.Cpu curr) < size (cs_info st) -> forall cpu, is_Some (m !! cpu) -> is_Some (Stat.Cpu curr !! cpu)).
Proof.
  intros [Hi Ha Hc] Ho. destruct (size (Stat.Cpu curr) <? size (cs_info st)) eqn:Es.
  - destruct (remove_gone_present (gone_cpu (cs_avgUp st) promTs) (Stat.Cpu curr) order2 (cs_info st) (gone_line promTs curr) Ho)
      as (m & gone & -> & Hm & Hg).
    { intros cpu i Hl Hn. unfold gone_cpu. rewrite (io_up _ _ _ (Hi cpu i Hl)). constructor; [exists cpu; by auto|].
      destruct (cpu =? Stat.STAT_CPU_ALL)%Z eqn:E; [|constructor]. apply Z.eqb_eq in E as ->.
      destruct Ha as [_ ->]; [by exists i|]. repeat constructor. exists Stat.STAT_CPU_ALL. by auto. }
    exists m, gone. split; [done|]. split; [done|]. split; [|split].
    + split; cbn [cs_info cs_avg cs_avgUp cs_icm]; [|intros [i Hl]; apply Ha; exists i|done].
      * intros cpu i Hl. rewrite Hm in Hl. destruct (bool_decide _); [by apply Hi|done].
      * rewrite Hm in Hl. by destruct (bool_decide _).
    + intros cpu Hcpu. rewrite Hm. by rewrite bool_decide_eq_true_2.
    + intros _ cpu [i Hl]. rewrite Hm in Hl. by destruct (bool_decide _) eqn:E; [apply bool_decide_eq_true in E|].
  - exists (cs_info st), []. apply Nat.ltb_ge in Es. split_and!; [done|constructor|by split|done|lia].
Qed.

Context (order : gmap Z (list Z) -> list Z) (order2 : gmap Z ProcStatMetricsCpuInfo -> list Z) (orderD orderN : list nat).
Hypothesis order_ok : is_order order.
Hypothesis order2_ok : is_order order2.
Hypothesis orderD_ok : orderD ≡ₚ map fst procStatIndexDeltaMetricNameMap.
Hypothesis orderN_ok : orderN ≡ₚ map fst procStatIndexMetricNameMap.

Lemma stat_orders :
  NoDup orderD /\ Forall (fun i => i < Stat.STAT_NUMERIC_NUM_STATS) orderD /\ Forall (fun i => i < Stat.STAT_NUMERIC_NUM_STATS) orderN.
Proof.
  rewrite orderD_ok, orderN_ok. split_and!.
  - apply (bool_decide_unpack _). vm_compute. exact I.
  - cbn. unfold Stat.STAT_NUMERIC_NUM_STATS. repeat constructor; lia.
  - cbn. unfold Stat.STAT_NUMERIC_NUM_STATS. repeat constructor; lia.
Qed.

(** C33: a generation with two scans does not panic.  For every CPU of both scans
    it writes the percentage of every kind of ticks, from the exact number of
    ticks modulo 2^64, with the share per CPU after every percentage of "all",
    leaving out zeros after zeros unless the generation is full for the CPU,
    and its presence when it is; then 0 for CPUs that are gone, the deltas and
    values of the other statistics, the boot and up time when the generation is
    full, and the interval.  It remembers the zeros, advances the cycles,
    toggles the scans and leaves its caches in order for the next one. *)
Theorem stat_metrics_percentages g icm curr prev currTs prevTs bt since :
  gen_ok g icm curr prev currTs prevTs bt ->
  let F := fullMetricsFactor g in let promTs := ts_suffix currTs in let full := other_full g in
  let deltaSec := Seconds (Sub currTs prevTs) in
  let factor := f64_div (f64_mul linuxClktckSec (f64_of_int 100)) deltaSec in
  let c := Stat.NumericFields curr in let p := Stat.NumericFields prev in
  exists g' icm' Ls gone lines,
    generateMetrics order order2 orderD orderN since g icm =
      Ret (g', icm', lines, (Z.of_nat (length lines), totalMetricsCount g')) /\
    lines = concat Ls ++ gone ++ concat (map (fun i => delta_lines full promTs c p i (otherZeroDelta g !!! i)) orderD) ++
      concat (map (val_lines full promTs c p) orderN) ++ boot_lines full bt since promTs ++
      [line (other_metric PROC_STAT_INTERVAL_METRIC) (FormatFloat 6 deltaSec) promTs] /\
    Forall2 (fun cpu L => cpu_done F factor (Stat.NumCpus curr) promTs (Stat.Cpu curr) (Stat.Cpu prev) cpu
                            (cpuInfo g !! cpu) (cpuInfo g' !! cpu) L) (order (Stat.Cpu curr)) Ls /\
    Forall (gone_line promTs curr) gone /\
    cpus_ok F (mkCpus (cpuInfo g') (avgPCpuMetrics g') (avgCpuUpMetric g') icm') /\ other_ok bt g' /\
    (length (otherZeroDelta g') = Stat.STAT_NUMERIC_NUM_STATS /\
     forall i, i ∈ orderD -> otherZeroDelta g' !! i = Some (ticks c p i =? 0)%Z) /\
    otherCycleNum g' = next_cycle F (otherCycleNum g) /\
    currIndex g' = 1 - currIndex g /\ procStat g' = procStat g /\ procStatTs g' = procStatTs g.
Proof.
  intros HG F promTs full deltaSec factor c p. pose proof HG as [HF [Hc1 Hc2] [Hp1 Hp2] [Hsc Hsp] Hcpus Hoth Hz].
  destruct stat_orders as (HndD & HltD & HltN). destruct (order_ok (Stat.Cpu curr)) as [Hnd Hin].
  unfold generateMetrics. rewrite Hc1, Hc2, Hp1, Hp2. cbn [must]. rewrite !bind_ret. cbn [must]. rewrite bind_ret.
  destruct (if (maxNumCpus g <? Stat.NumCpus curr)%Z then _ else _) as [maxCpus total].
  fold F promTs deltaSec factor full c p.
  destruct (for_keys_spec (gen_cpu F factor promTs (Stat.NumCpus curr) (Stat.Cpu curr) (Stat.Cpu prev)) cs_info (cpus_ok F)
    (cpu_done F factor (Stat.NumCpus curr) promTs (Stat.Cpu curr) (Stat.Cpu prev)) (order (Stat.Cpu curr))
    (mkCpus (cpuInfo g) (avgPCpuMetrics g) (avgCpuUpMetric g) icm)) as (st & Ls & Hr & Hst & HQ & _); [|done|done|].
  { intros st k Hst Hk. apply stat_gen_cpu; [done|done|done|done|by apply Hin]. }
  rewrite Hr, bind_ret. destruct (stat_remove_gone F st promTs curr order2 Hst order2_ok) as (m & gone & -> & Hgone & Hok & Hsame & _).
  destruct (stat_other_step _ _ _ _ _ _ _ HG) as (g1 & -> & Ho1 & Hs1 & Ht1 & Hz1 & Hcy1 & HF1). rewrite bind_ret.
  pose proof Ho1 as (Hom & Hbt & Hup & Hbtime & Hint). rewrite Hom. cbn [default from_option].
  change (match otherMetrics g with Some _ => (otherCycleNum g =? 0)%Z | None => true end) with full.
  destruct (for_indexes_spec (gen_delta full promTs other_map c p) (delta_lines full promTs c p) (fun i => (ticks c p i =? 0)%Z)
    Stat.STAT_NUMERIC_NUM_STATS orderD (otherZeroDelta g1)
    (fun i zd _ Hi Hl => stat_gen_delta full promTs c p (proj2 Hsc) (proj2 Hsp) i zd Hi Hl) HndD HltD) as (zd' & Hd & Hzl & Hzk).
  { by rewrite Hz1. }
  unfold id. fold c p. rewrite Hd, bind_ret, stat_vals, bind_ret by (done || apply Hsc || apply Hsp).
  match goal with |- context [Ret (?g', ?i, ?l, (_, total))] => exists g', i, Ls, gone, l end. split; [reflexivity|].
  cbn [cpuInfo avgPCpuMetrics avgCpuUpMetric otherZeroDelta otherCycleNum currIndex procStat procStatTs].
  split; [|split; [|split; [done|split; [done|split; [|split; [|split]]]]]].
  - rewrite Hz1, Hbt, Hup, Hbtime, Hint. done.
  - cbn [cs_info] in HQ. eapply Forall2_same_length_lookup. split; [by eapply Forall2_length|]. intros n cpu L Ho HL.
    pose proof (Forall2_lookup_lr _ _ _ _ _ _ HQ Ho HL) as Hq. cbn beta in Hq.
    rewrite (Hsame cpu); [done|]. apply Hin. by eapply list_elem_of_lookup_2.
  - done.
  - split; [done|]. intros i Hi. rewrite Hzk. by rewrite bool_decide_eq_true_2.
  - by rewrite HF1, Hcy1.
  - done.
Qed.
End generator.
(** ** Samples *)

Definition sample_order {A} (m : gmap Z A) : list Z := some_order m.
Definition sample_clktck : spec_float := f64_div (f64_of_int 1) (f64_of_int 100).
Definition sample_D : list nat := map fst procStatIndexDeltaMetricNameMap.
Definition sample_N : list nat := map fst procStatIndexMetricNameMap.
Definition sample_scan (user : Z) : Stat.Stat :=
  Stat.mkStat {[ (-1)%Z := [user; 0; 0; 0; 0; 0; 0; 0; 0; 0; 1]%Z ]} 2 [1; 2; 3; 4; 5; 1000; 7; 8; 9]%Z (bs "/proc/stat") 1.
Definition sample_gen : ProcStatMetrics :=
  mkMetrics 25 [Some (sample_scan 110); Some (sample_scan 10)] [mkTime (2 * Second) None; zeroTime] 0 ∅ None [] [] [] zeroTime None
    (replicate Stat.STAT_NUMERIC_NUM_STATS false) 3 [] 1 (total_for 1).

(** 100 ticks of 10 ms in 2 s: 50.0 for all, 25.0 on average over 2 CPUs. *)
Lemma stat_metrics_percentages_witness :
  exists g' icm' lines counts,
    generateMetrics (bs "i") (bs "h") sample_clktck sample_order sample_order sample_D sample_N (mkTime 0 None) sample_gen 0 =
      Ret (g', icm', lines, counts) /\
    take 2 lines = [line (pcpu_metrics (bs "i") (bs "h") (bs "all") !!! 0) (bs "50.0") (ts_suffix (mkTime (2 * Second) None));
                    line (pcpu_metrics (bs "i") (bs "h") (bs "avg") !!! 0) (bs "25.0") (ts_suffix (mkTime (2 * Second) None))].
Proof.
  destruct (stat_metrics_percentages (bs "i") (bs "h") sample_clktck sample_order sample_order sample_D sample_N
    some_order_ok some_order_ok (reflexivity _) (reflexivity _) sample_gen 0 (sample_scan 110) (sample_scan 10)
    (mkTime (2 * Second) None) zeroTime 1000 (mkTime 0 None)) as (g' & icm' & Ls & gone & lines & Hgen & Hl & HQ & _).
  - split; [vm_compute; discriminate|done|done| |split; [apply map_Forall_empty|by intros [? ?]|done]|done|done].
    split; (split; [by apply map_Forall_singleton|done]).
  - eexists g', icm', lines, _. split; [exact Hgen|]. rewrite Hl. clear Hl Hgen.
    change (sample_order (Stat.Cpu (sample_scan 110))) with [(-1)%Z] in HQ.
    inversion_clear HQ as [|? L ? Ls' Hq HQ']. inversion_clear HQ'. destruct Hq as [-> _]. vm_compute. reflexivity.
Defined.
(** The total leaves out the metrics for the average: two executions, the second
    with every metric, write 44 metrics of a reported total of 33 each. *)
Definition sample_file : bytes :=
  let cpu name := Stat.row_out (Stat.RCpu name (replicate 10 (bs " ", bs "12"))) in cpu [] ++ cpu (bs "0").
Example stat_total_too_small :
  let exec '(g, icm, mgs) :=
    '(g, icm, mgs, _, _) ← Execute (bs "i") (bs "h") (bs "/proc/stat") sample_clktck (ReadOk sample_file)
                             (mkTime (2 * Second) None) (mkTime 0 None) sample_order sample_order sample_D sample_N g icm mgs;
    Ret (g, icm, mgs) in
  let '(g, icm) := NewProcStatMetrics 1 0 in
  (st ← exec (g, icm, ∅); '(_, _, mgs) ← exec st; Ret (take 3 <$> mgs !! PROC_STAT_METRICS_ID)) = Ret (Some [2; 44; 66]%Z).
Proof. vm_compute. reflexivity. Qed.
End StatMetrics.
