(* ===== verification/DiskstatsMetrics.v ===== *)
(** The metrics generator for /proc/diskstats and /proc/PID/mountinfo
    (src/lsvmi/proc_diskstats_metrics.go): deltas, percentages and gauges per
    disk, information metrics that follow the names, mounts of the disks with
    those out of scope set to 0, and the clean-up, which deletes from the
    current scan.  The orders of the map iterations are arguments; the output is
    the list of the lines written. *)

From Stdlib Require Import ZArith Lia.
From Stdlib Require Import Floats.SpecFloat.
From stdpp Require Import base tactics numbers strings gmap list.
From S2P Require Import Prelude Scan GoTime GoFloat MetricsCommon Diskstats Mountinfo.
Import MetricsCommon.

Module DiskstatsMetrics.

Definition PROC_DISKSTATS_METRICS_ID : bytes := bs "proc_diskstats_metrics".
Definition PROC_DISKSTATS_INFO_METRIC : bytes := bs "proc_diskstats_info".
Definition PROC_DISKSTATS_MAJ_MIN_LABEL_NAME : bytes := bs "maj_min".
Definition PROC_DISKSTATS_NAME_LABEL_NAME : bytes := bs "name".
Definition PROC_MOUNTINFO_METRIC : bytes := bs "proc_mountinfo".
Definition PROC_MOUNTINFO_PID_LABEL_NAME : bytes := bs "pid".
Definition PROC_DISKSTATS_INTERVAL_METRIC : bytes := bs "proc_diskstats_metrics_delta_sec".

(** The metric of a value, by index; every index has one. *)
Definition procDiskstatsIndexToMetricNameMap : list bytes := [
  bs "proc_diskstats_num_reads_completed_delta";
  bs "proc_diskstats_num_reads_merged_delta";
  bs "proc_diskstats_num_read_sectors_delta";
  bs "proc_diskstats_read_pct";
  bs "proc_diskstats_num_writes_completed_delta";
  bs "proc_diskstats_num_writes_merged_delta";
  bs "proc_diskstats_num_write_sectors_delta";
  bs "proc_diskstats_write_pct";
  bs "proc_diskstats_num_io_in_progress";
  bs "proc_diskstats_io_pct";
  bs "proc_diskstats_io_weigthed_pct";
  bs "proc_diskstats_num_discards_completed_delta";
  bs "proc_diskstats_num_discards_merged_delta";
  bs "proc_diskstats_num_discard_sectors_delta";
  bs "proc_diskstats_discard_pct";
  bs "proc_diskstats_num_flush_requests_delta";
  bs "proc_diskstats_flush_pct"].

Definition DISKSTATS_NUM_IO_IN_PROGRESS : nat := 8.
Definition procDiskstatsIndexIsGauge (i : nat) : bool := i =? DISKSTATS_NUM_IO_IN_PROGRESS.
(** The factor and the precision of a percentage: 100. / 1000. and 2. *)
Definition procDiskstatsIndexPctMetric (i : nat) : option (spec_float * nat) :=
  if bool_decide (i ∈ [3; 7; 9; 10; 14; 16]) then Some (f64_div (f64_of_int 100) (f64_of_int 1000), 2) else None.

Definition MOUNTINFO_MAJOR_MINOR : nat := 2.
Definition procMountinfoIndexToMetricLabelList : list (nat * bytes) := [
  (2, bs "maj_min"); (3, bs "root"); (4, bs "mount_point"); (8, bs "fs_type"); (9, bs "source")].

Record ProcDiskstatsMetricsInfo := mkInfo {
  cycleNum : Z;
  zeroDelta : list bool;
  metricsCache : list bytes;
  infoMetric : bytes
}.

Record ProcDiskstatsMetrics := mkMetrics {
  procDiskstats : list (option Diskstats.Diskstats);
  procDiskstatsTs : list Time;
  currIndex : nat;
  diskstatsMetricsInfo : gmap bytes ProcDiskstatsMetricsInfo;
  mountinfoPid : Z;
  procMountinfo : option Mountinfo.Mountinfo;
  mountinfoCycleNum : Z;
  mountifoDisabled : bool;
  fullMetricsFactor : Z;
  mountinfoMetricsCache : option (list bytes);
  intervalMetric : option bytes
}.

Definition NewProcDiskstatsMetrics (fullMetricsFactor mountinfoPid : Z) (icm : Z) : ProcDiskstatsMetrics * Z :=
  let '(cn, icm) := InitialCycleNum_Get fullMetricsFactor icm in
  (mkMetrics [None; None] [zeroTime; zeroTime] 0 ∅ mountinfoPid None cn false fullMetricsFactor None None, icm).

Section generator.
Context (instance hostname diskstatsPath mountinfoPath : bytes) (linux5 : option Z).

Definition disk_labels (majMin diskName : bytes) : list (bytes * bytes) :=
  [(PROC_DISKSTATS_MAJ_MIN_LABEL_NAME, majMin); (PROC_DISKSTATS_NAME_LABEL_NAME, diskName)].
Definition disk_metrics (majMin diskName : bytes) : list bytes :=
  map (fun name => metric name instance hostname (disk_labels majMin diskName)) procDiskstatsIndexToMetricNameMap.
Definition info_metric (majMin diskName : bytes) : bytes :=
  metric PROC_DISKSTATS_INFO_METRIC instance hostname (disk_labels majMin diskName).

(** [updateDiskstatsMetricsCache]. *)
Definition updateDiskstatsMetricsCache (F : Z) (majMin diskName : bytes) (old : option ProcDiskstatsMetricsInfo) (icm : Z)
    : ProcDiskstatsMetricsInfo * Z :=
  let '(cn, icm) := match old with Some i => (cycleNum i, icm) | None => InitialCycleNum_Get F icm end in
  (mkInfo cn (replicate Diskstats.DISKSTATS_VALUE_FIELDS_NUM false) (disk_metrics majMin diskName) (info_metric majMin diskName), icm).

Definition updateIntervalMetricsCache : bytes := metric PROC_DISKSTATS_INTERVAL_METRIC instance hostname [].

(** *** Disks *)

(** One value of a disk. *)
Definition gen_value (full : bool) (deltaSec : spec_float) (promTs : bytes) (curr prev : list Z) (i : nat) (metric : bytes)
    (zd : list bool) : outcome (list bytes * option bool) :=
  crtVal ← must (curr !! i);
  if procDiskstatsIndexIsGauge i then
    emit ← (if full then Ret true else p ← must (prev !! i); Ret (negb (crtVal =? p)%Z));
    Ret (if emit : bool then [line metric (FormatUint crtVal) promTs] else [], None)
  else
    p ← must (prev !! i);
    let delta := u32 (crtVal - p) in
    emit ← (if full || negb (delta =? 0)%Z then Ret true else z ← must (zd !! i); Ret (negb z));
    let val := match procDiskstatsIndexPctMetric i with
               | Some (factor, prec) => FormatFloat prec (f64_div (f64_mul (f64_of_int delta) factor) deltaSec)
               | None => FormatUint delta
               end in
    Ret (if emit : bool then [line metric val promTs] else [], Some (delta =? 0)%Z).

(** The state of the loop over the disks: the cached data, the initial cycle
    numbers, the total. *)
Abbreviation disk_state := (gmap bytes ProcDiskstatsMetricsInfo * Z * Z)%type.

(** One disk of the current scan. *)
Definition gen_disk (F : Z) (deltaSec : spec_float) (promTs : bytes) (changed : bool) (curr prev : Diskstats.devmap)
    (majMin : bytes) (st : disk_state) : outcome (disk_state * list bytes) :=
  let '(m, icm, total) := st in
  currDevInfo ← must (curr !! majMin);
  match prev !! majMin with
  | None => Ret (st, [])
  | Some prevDevInfo =>
    let old := m !! majMin in
    let nameChanged := changed && negb (bool_decide (Diskstats.Name currDevInfo = Diskstats.Name prevDevInfo)) in
    let fullData := match old with None => true | Some i => (cycleNum i =? 0)%Z || nameChanged end in
    let annul := match old with Some i => if nameChanged then [line (infoMetric i) (bs "0") promTs] else [] | None => [] end in
    let '(info, icm) :=
      match old with
      | Some i => if nameChanged then updateDiskstatsMetricsCache F majMin (Diskstats.Name currDevInfo) old icm else (i, icm)
      | None => updateDiskstatsMetricsCache F majMin (Diskstats.Name currDevInfo) old icm
      end in
    '(zd, lines) ← for_values (gen_value fullData deltaSec promTs (Diskstats.Stats currDevInfo) (Diskstats.Stats prevDevInfo))
                     0 (metricsCache info) (zeroDelta info);
    let up := if fullData : bool then [line (infoMetric info) (bs "1") promTs] else [] in
    let info := mkInfo (next_cycle F (cycleNum info)) zd (metricsCache info) (infoMetric info) in
    Ret (<[majMin := info]> m, icm, (total + Z.of_nat (length (metricsCache info)) + 1)%Z, annul ++ lines ++ up)
  end.

(** *** Mounts *)

(** A field of a parsed line, nil being the empty string. *)
Definition field (parsedLine : Mountinfo.MountinfoParsedLine) (i : nat) : outcome bytes :=
  f ← must (parsedLine !! i); Ret (default [] f).

Fixpoint mount_labels (parsedLine : Mountinfo.MountinfoParsedLine) (l : list (nat * bytes)) : outcome bytes :=
  match l with
  | [] => Ret []
  | (i, label) :: l =>
    f ← field parsedLine i; rest ← mount_labels parsedLine l;
    Ret (bs "," ++ label ++ bs "=" ++ [QUOTE] ++ f ++ [QUOTE] ++ rest)
  end.

Definition mount_prefix (pid : Z) : bytes :=
  PROC_MOUNTINFO_METRIC ++ bs "{" ++
  labels [(INSTANCE_LABEL_NAME, instance); (HOSTNAME_LABEL_NAME, hostname); (PROC_MOUNTINFO_PID_LABEL_NAME, Itoa pid)].

(** The loop of [updateMountinfoMetricsCache] over the parsed lines. *)
Fixpoint mount_loop (pid : Z) (devs : Diskstats.devmap) (parsedLines : list Mountinfo.MountinfoParsedLine)
    (cache : list bytes) (outOfScope : gmap bytes bool) : outcome (list bytes * gmap bytes bool) :=
  match parsedLines with
  | [] => Ret (cache, outOfScope)
  | parsedLine :: parsedLines =>
    majMin ← field parsedLine MOUNTINFO_MAJOR_MINOR;
    if negb (bool_decide (is_Some (devs !! majMin))) then mount_loop pid devs parsedLines cache outOfScope
    else
      ls ← mount_labels parsedLine procMountinfoIndexToMetricLabelList;
      let metric := mount_prefix pid ++ ls ++ bs "} " in
      mount_loop pid devs parsedLines (cache ++ [metric]) (delete metric outOfScope)
  end.

(** [updateMountinfoMetricsCache]: the new cache and the metrics out of scope. *)
Definition updateMountinfoMetricsCache (pid : Z) (devs : Diskstats.devmap) (mi : Mountinfo.Mountinfo) (cache : option (list bytes))
    : outcome (list bytes * gmap bytes bool) :=
  mount_loop pid devs (Mountinfo.ParsedLines mi) [] (list_to_map (map (fun m => (m, true)) (default [] cache))).

(** What is left of the generator after the mounts, the lines and the total. *)
Record mount_result := mkMount { mr_cache : option (list bytes); mr_cycle : Z; mr_lines : list bytes; mr_total : Z }.

Definition gen_mounts (orderM : gmap bytes bool -> list bytes) (promTs : bytes) (devs : Diskstats.devmap) (g : ProcDiskstatsMetrics)
    : outcome mount_result :=
  let put v ms := map (fun m => line m v promTs) ms in
  let len {A} (l : list A) := Z.of_nat (length l) in
  if mountifoDisabled g then
    match mountinfoMetricsCache g with
    | Some cache => Ret (mkMount None (mountinfoCycleNum g) (put (bs "0") cache) (len cache))
    | None => Ret (mkMount None (mountinfoCycleNum g) [] 0)
    end
  else
    mi ← must (procMountinfo g);
    '(cache, lines0) ←
      match mountinfoMetricsCache g with
      | Some cache => if Mountinfo.Changed mi
                      then '(cache, out) ← updateMountinfoMetricsCache (mountinfoPid g) devs mi (Some cache);
                           Ret (cache, put (bs "0") (orderM out))
                      else Ret (cache, [])
      | None => '(cache, out) ← updateMountinfoMetricsCache (mountinfoPid g) devs mi None; Ret (cache, put (bs "0") (orderM out))
      end;
    let lines1 := if Mountinfo.Changed mi || (mountinfoCycleNum g =? 0)%Z then put (bs "1") cache else [] in
    Ret (mkMount (Some cache) (next_cycle (fullMetricsFactor g) (mountinfoCycleNum g)) (lines0 ++ lines1) (len lines0 + len cache)).

(** *** The generation *)

(** "Clean up info no longer in scope": the entries of the current scan that are
    known are deleted from it; the information stays. *)
Definition clean_up (info : gmap bytes ProcDiskstatsMetricsInfo) (devs : Diskstats.devmap) : Diskstats.devmap :=
  if size info =? size devs then devs else filter (fun kv => info !! kv.1 = None) devs.

Definition with_devs (d : Diskstats.Diskstats) (m : Diskstats.devmap) : Diskstats.Diskstats :=
  Diskstats.mkDiskstats m (Diskstats.Changed d) (Diskstats.scanNum d) (Diskstats.path d) (Diskstats.jiffiesToMillisec d) (Diskstats.fieldsInJiffies d).

Definition generateMetrics (order : Diskstats.devmap -> list bytes) (orderM : gmap bytes bool -> list bytes)
    (g : ProcDiskstatsMetrics) (icm : Z) : outcome (ProcDiskstatsMetrics * Z * list bytes * (Z * Z)) :=
  let ci := currIndex g in
  prev ← must (procDiskstats g !! (1 - ci));
  match prev with
  | None =>
    Ret (mkMetrics (procDiskstats g) (procDiskstatsTs g) (1 - ci) (diskstatsMetricsInfo g) (mountinfoPid g) (procMountinfo g)
           (mountinfoCycleNum g) (mountifoDisabled g) (fullMetricsFactor g) (mountinfoMetricsCache g) (intervalMetric g),
         icm, [], (0, 0)%Z)
  | Some prev =>
    curr ← must (procDiskstats g !! ci); curr ← must curr;
    currTs ← must (procDiskstatsTs g !! ci); prevTs ← must (procDiskstatsTs g !! (1 - ci));
    let promTs := ts_suffix currTs in
    let deltaSec := Seconds (Sub currTs prevTs) in
    let devs := Diskstats.DevInfoMap curr in
    '(m, icm, total, lines) ← for_keys (gen_disk (fullMetricsFactor g) deltaSec promTs (Diskstats.Changed curr) devs (Diskstats.DevInfoMap prev))
                                (order devs) (diskstatsMetricsInfo g, icm, 0%Z);
    mr ← gen_mounts orderM promTs devs g;
    objs ← store (procDiskstats g) ci (Some (with_devs curr (clean_up m devs)));
    let im := default updateIntervalMetricsCache (intervalMetric g) in
    let lines := lines ++ mr_lines mr ++ [line im (FormatFloat 6 deltaSec) promTs] in
    Ret (mkMetrics objs (procDiskstatsTs g) (1 - ci) m (mountinfoPid g) (procMountinfo g) (mr_cycle mr) (mountifoDisabled g)
           (fullMetricsFactor g) (mr_cache mr) (Some im),
         icm, lines, (Z.of_nat (length lines), total + mr_total mr)%Z)
  end.

(** The part of [Execute] for the mounts: the parser, the generator's flag. *)
Definition parse_mounts (mrd : read_result) (changed : bool) (g : ProcDiskstatsMetrics) : outcome (option Mountinfo.Mountinfo * bool) :=
  if mountifoDisabled g then Ret (procMountinfo g, true)
  else
    let parse mi := '(mi, err) ← Mountinfo.Parse mrd mi; Ret (Some mi, bool_decide (is_Some err)) in
    match procMountinfo g with
    | None => parse (Mountinfo.NewMountinfo mountinfoPath)
    | Some mi =>
      if (mountinfoCycleNum g =? 0)%Z || changed then parse mi
      else Ret (Some (Mountinfo.mkMountinfo (Mountinfo.ParsedLines mi) false (Mountinfo.ForceUpdate mi) (Mountinfo.content mi) (Mountinfo.path mi)), false)
    end.

Definition Execute (rd mrd : read_result) (now : Time) (order : Diskstats.devmap -> list bytes) (orderM : gmap bytes bool -> list bytes)
    (g : ProcDiskstatsMetrics) (icm : Z) (mgs : MetricsGeneratorStats)
    : outcome (ProcDiskstatsMetrics * Z * MetricsGeneratorStats * option bytes * bool) :=
  let ci := currIndex g in
  let set objs ts mi dis := mkMetrics objs ts ci (diskstatsMetricsInfo g) (mountinfoPid g) mi (mountinfoCycleNum g) dis
                              (fullMetricsFactor g) (mountinfoMetricsCache g) (intervalMetric g) in
  curr ← must (procDiskstats g !! ci);
  prev ← must (procDiskstats g !! (1 - ci));
  let curr := match curr with
              | Some d => d
              | None => match prev with
                        | Some p => Diskstats.Clone false p
                        | None => Diskstats.NewDiskstats diskstatsPath linux5
                        end
              end in
  '(curr, err) ← Diskstats.Parse rd curr;
  objs ← store (procDiskstats g) ci (Some curr);
  match err with
  | Some _ => Ret (set objs (procDiskstatsTs g) (procMountinfo g) (mountifoDisabled g), icm, mgs, None, false)
  | None =>
    '(mi, dis) ← parse_mounts mrd (Diskstats.Changed curr) g;
    ts ← store (procDiskstatsTs g) ci now;
    '(g, icm, lines, (actual, total)) ← generateMetrics order orderM (set objs ts mi dis) icm;
    let buf := concat lines in
    mgs ← Update PROC_DISKSTATS_METRICS_ID (u64 actual) (u64 total) (u64 (Z.of_nat (length buf))) mgs;
    Ret (g, icm, mgs, Some buf, true)
  end.
(** ** What a generation writes for the disks *)

Abbreviation NUM := Diskstats.DISKSTATS_VALUE_FIELDS_NUM.

(** The text of a value of a disk that went from [p] to [c], both 32-bit. *)
Definition value_text (deltaSec : spec_float) (i : nat) (c p : Z) : bytes :=
  if procDiskstatsIndexIsGauge i then FormatUint c
  else match procDiskstatsIndexPctMetric i with
       | Some (factor, prec) => FormatFloat prec (f64_div (f64_mul (f64_of_int (u32 (c - p))) factor) deltaSec)
       | None => FormatUint (u32 (c - p))
       end.
(** A gauge is written when it changed, a delta when it is not a zero after a
    zero; both in a full generation. *)
Definition value_lines (full : bool) (deltaSec : spec_float) (promTs : bytes) (i : nat) (metric : bytes) (c p : Z) (zero : bool)
    : list bytes :=
  if full || (if procDiskstatsIndexIsGauge i then negb (c =? p)%Z else negb (u32 (c - p) =? 0)%Z || negb zero)
  then [line metric (value_text deltaSec i c p) promTs] else [].

Lemma disk_gen_value full deltaSec promTs c p i m zd :
  length c = NUM -> length p = NUM -> i < NUM -> length zd = NUM ->
  gen_value full deltaSec promTs c p i m zd =
  Ret (value_lines full deltaSec promTs i m (c !!! i) (p !!! i) (zd !!! i),
       if procDiskstatsIndexIsGauge i then None else Some (u32 (c !!! i - p !!! i) =? 0)%Z).
Proof.
  intros Hc Hp Hi Hz. unfold gen_value, value_lines, value_text.
  rewrite (list_lookup_lookup_total_lt c i), (list_lookup_lookup_total_lt p i), (list_lookup_lookup_total_lt zd i) by lia.
  cbn [must]. rewrite !bind_ret. destruct (procDiskstatsIndexIsGauge i); [by destruct full|].
  set (d := u32 (c !!! i - p !!! i)). destruct full, (negb (d =? 0)%Z), (zd !!! i); cbn [orb negb]; rewrite ?bind_ret; done.
Qed.

(** The cached data of a disk of a name. *)
Record info_ok (F : Z) (majMin name : bytes) (i : ProcDiskstatsMetricsInfo) : Prop := mkInfoOk {
  io_cache : metricsCache i = disk_metrics majMin name;
  io_info : infoMetric i = info_metric majMin name;
  io_cycle : (0 <= cycleNum i < Z.max 1 F)%Z;
  io_zero : length (zeroDelta i) = NUM
}.

Section disk_step.
Context (F : Z) (deltaSec : spec_float) (promTs : bytes) (curr prev : Diskstats.Diskstats).
Hypothesis HF : (F <= MaxInt64)%Z.
Hypothesis Hcurr : map_Forall (fun _ => Diskstats.dev_ok) (Diskstats.DevInfoMap curr).
Hypothesis Hprev : map_Forall (fun _ => Diskstats.dev_ok) (Diskstats.DevInfoMap prev).

(** The disk is taken for renamed: the flag of the current scan is set, and its
    name is another one than in the previous scan. *)
Definition renamed (c p : Diskstats.DiskstatsDevInfo) : bool :=
  Diskstats.Changed curr && negb (bool_decide (Diskstats.Name c = Diskstats.Name p)).
(** The name under which a disk is written: that of its cached data, [name],
    until it is taken for renamed. *)
Definition used (name : bytes) (o : option ProcDiskstatsMetricsInfo) (c p : Diskstats.DiskstatsDevInfo) : bytes :=
  match o with Some _ => if renamed c p then Diskstats.Name c else name | None => Diskstats.Name c end.
Definition is_full (o : option ProcDiskstatsMetricsInfo) (c p : Diskstats.DiskstatsDevInfo) : bool :=
  match o with Some i => (cycleNum i =? 0)%Z || renamed c p | None => true end.
(** The deltas known to be zero; forgotten when the disk is renamed. *)
Definition zeros (o : option ProcDiskstatsMetricsInfo) (c p : Diskstats.DiskstatsDevInfo) : list bool :=
  match o with Some i => if renamed c p then replicate NUM false else zeroDelta i | None => replicate NUM false end.

Definition disk_lines (majMin name : bytes) (o : option ProcDiskstatsMetricsInfo) (c p : Diskstats.DiskstatsDevInfo) : list bytes :=
  (match o with Some i => if renamed c p then [line (infoMetric i) (bs "0") promTs] else [] | None => [] end) ++
  concat (imap (fun i m => value_lines (is_full o c p) deltaSec promTs i m (Diskstats.Stats c !!! i) (Diskstats.Stats p !!! i) (zeros o c p !!! i))
    (disk_metrics majMin (used name o c p))) ++
  (if is_full o c p then [line (info_metric majMin (used name o c p)) (bs "1") promTs] else []).

(** What the generation did for a disk whose cached data is that of [names]. *)
Context (names : bytes -> bytes).
Definition disk_done (majMin : bytes) (o o' : option ProcDiskstatsMetricsInfo) (L : list bytes) : Prop :=
  match Diskstats.DevInfoMap curr !! majMin, Diskstats.DevInfoMap prev !! majMin with
  | Some c, Some p =>
    (forall i, o = Some i -> info_ok F majMin (names majMin) i) ->
    L = disk_lines majMin (names majMin) o c p /\
    exists i', o' = Some i' /\ info_ok F majMin (used (names majMin) o c p) i' /\
      (forall k, k < NUM -> procDiskstatsIndexIsGauge k = false ->
         zeroDelta i' !! k = Some (u32 (Diskstats.Stats c !!! k - Diskstats.Stats p !!! k) =? 0)%Z) /\
      (forall i, o = Some i -> cycleNum i' = ((cycleNum i + 1) mod Z.max 1 F)%Z)
  | _, _ => L = [] /\ o' = o
  end.

Definition loop_ok (st : disk_state) : Prop :=
  map_Forall (fun k i => exists name, info_ok F k name i) st.1.1 /\ (0 <= st.1.2)%Z.

Lemma disk_values full c p ms zd :
  length c = NUM -> length p = NUM -> length zd = NUM -> length ms = NUM ->
  exists zd', for_values (gen_value full deltaSec promTs c p) 0 ms zd =
    Ret (zd', concat (imap (fun i m => value_lines full deltaSec promTs i m (c !!! i) (p !!! i) (zd !!! i)) ms)) /\
    length zd' = NUM /\
    forall k, k < NUM -> procDiskstatsIndexIsGauge k = false -> zd' !! k = Some (u32 (c !!! k - p !!! k) =? 0)%Z.
Proof.
  intros Hc Hp Hz Hm. destruct (for_values_spec _ (fun i m z => value_lines full deltaSec promTs i m (c !!! i) (p !!! i) z)
    (fun i m z => if procDiskstatsIndexIsGauge i then None else Some (u32 (c !!! i - p !!! i) =? 0)%Z) NUM ms 0 zd
    (fun i m zd Hi Hl => disk_gen_value full deltaSec promTs c p i m zd Hc Hp Hi Hl)) as (zd' & Hf & Hl & _ & Hk); [by rewrite Hm|done|].
  exists zd'. split; [exact Hf|]. split; [done|]. intros k Hk' Hg.
  destruct (lookup_lt_is_Some_2 ms k) as [m Hmk]; [by rewrite Hm|]. specialize (Hk k m Hmk). cbn [Nat.add] in Hk. by rewrite Hk, Hg.
Qed.

(** The cached data used for a disk: the old one, or new for the name. *)
Lemma disk_info majMin o c p icm :
  (0 <= icm)%Z -> (forall i, o = Some i -> exists name, info_ok F majMin name i) ->
  Diskstats.DevInfoMap curr !! majMin = Some c -> Diskstats.DevInfoMap prev !! majMin = Some p ->
  exists i icm', match o with
      | Some i => if renamed c p then updateDiskstatsMetricsCache F majMin (Diskstats.Name c) o icm else (i, icm)
      | None => updateDiskstatsMetricsCache F majMin (Diskstats.Name c) o icm
      end = (i, icm') /\ (0 <= icm')%Z /\ (exists name, info_ok F majMin name i) /\ zeroDelta i = zeros o c p /\
    (forall j, o = Some j -> cycleNum i = cycleNum j) /\
    ((forall j, o = Some j -> info_ok F majMin (names majMin) j) -> info_ok F majMin (used (names majMin) o c p) i).
Proof.
  intros Hicm Ho Hc Hp. destruct o as [i|].
  - destruct (Ho i eq_refl) as [name [H1 H2 H3 H4]]. unfold zeros, used. destruct (renamed c p); cycle 1.
    + exists i, icm. split; [done|]. split; [done|]. split; [by exists name|]. split; [done|].
      split; [naive_solver|]. intros Hj. by apply Hj.
    + cbn [updateDiskstatsMetricsCache]. eexists _, icm. split; [reflexivity|]. split; [done|].
      split; [exists (Diskstats.Name c); by split|]. split; [done|]. split; [intros j [= <-]; done|]. intros _. by split.
  - unfold updateDiskstatsMetricsCache. destruct (InitialCycleNum_Get F icm) as [cn icm'] eqn:Eg.
    apply InitialCycleNum_range in Eg as [Hr Hi]; [|done]. eexists _, icm'. split; [reflexivity|]. split; [done|].
    split; [exists (Diskstats.Name c); by split|]. split; [done|]. split; [done|]. intros _. by split.
Qed.

Lemma disk_gen_disk majMin st :
  loop_ok st -> is_Some (Diskstats.DevInfoMap curr !! majMin) ->
  exists st' L, gen_disk F deltaSec promTs (Diskstats.Changed curr) (Diskstats.DevInfoMap curr) (Diskstats.DevInfoMap prev) majMin st = Ret (st', L) /\
    loop_ok st' /\ disk_done majMin (st.1.1 !! majMin) (st'.1.1 !! majMin) L /\ (forall k, k <> majMin -> st'.1.1 !! k = st.1.1 !! k).
Proof.
  destruct st as [[m icm] total]. intros [Hm Hicm] [c Hc]. cbn [fst snd] in *. unfold gen_disk, disk_done. rewrite Hc. cbn [must].
  rewrite bind_ret. destruct (Diskstats.DevInfoMap prev !! majMin) as [p|] eqn:Hp; [|by eexists (m, icm, total), []].
  fold (renamed c p).
  destruct (disk_info majMin (m !! majMin) c p icm Hicm (fun i Hi => Hm majMin i Hi) Hc Hp) as
    (i & icm' & -> & Hicm' & [name [Hca Hin Hcy Hz]] & Hzd & Hcn & Hok).
  fold (is_full (m !! majMin) c p).
  destruct (disk_values (is_full (m !! majMin) c p) (Diskstats.Stats c) (Diskstats.Stats p) (metricsCache i) (zeroDelta i)) as (zd' & Hf & Hl & Hk).
  { by eapply Hcurr. } { by eapply Hprev. } { done. } { by rewrite Hca. }
  rewrite Hf, bind_ret. eexists (_, _, _), _. split; [reflexivity|]. cbn [fst snd metricsCache].
  assert (forall nm, info_ok F majMin nm i -> info_ok F majMin nm (mkInfo (next_cycle F (cycleNum i)) zd' (metricsCache i) (infoMetric i))) as Hnext.
  { intros nm [H1 H2 H3 H4]. split; simpl; [done|done| |done]. rewrite next_cycle_mod by done. apply Z.mod_pos_bound. lia. }
  split; [|split].
  - split; [|done]. cbn [fst]. apply map_Forall_insert_2; [|done]. exists name. apply Hnext. by split.
  - intros Hold. specialize (Hok Hold). pose proof Hok as [H1 H2 _ _]. split; [unfold disk_lines; by rewrite H1, H2, Hzd|].
    rewrite lookup_insert_eq. eexists. split; [done|]. split; [by apply Hnext|]. split; [done|].
    intros j Hj. simpl. by rewrite next_cycle_mod, (Hcn j Hj) by done.
  - intros k Hne. by rewrite lookup_insert_ne.
Qed.
End disk_step.
(** ** What a generation writes for the mounts *)

Definition line_field (l : Mountinfo.MountinfoParsedLine) (i : nat) : bytes := default [] (l !!! i).
Definition line_metric (pid : Z) (l : Mountinfo.MountinfoParsedLine) : bytes :=
  mount_prefix pid ++
  concat (map (fun e => bs "," ++ e.2 ++ bs "=" ++ [QUOTE] ++ line_field l e.1 ++ [QUOTE]) procMountinfoIndexToMetricLabelList) ++ bs "} ".
Definition line_ok (l : Mountinfo.MountinfoParsedLine) : Prop := length l = Mountinfo.MOUNTINFO_NUM_FIELDS.

(** The metrics of the mounts of the disks of a scan. *)
Definition disk_mounts (pid : Z) (devs : Diskstats.devmap) (ls : list Mountinfo.MountinfoParsedLine) : list bytes :=
  map (line_metric pid) (filter (fun l => is_Some (devs !! line_field l MOUNTINFO_MAJOR_MINOR)) ls).

Lemma line_field_ok l i : line_ok l -> i < Mountinfo.MOUNTINFO_NUM_FIELDS -> field l i = Ret (line_field l i).
Proof.
  intros Hl Hi. unfold field, line_field. rewrite (list_lookup_lookup_total_lt l i) by by rewrite Hl. done.
Qed.

Lemma mount_labels_ok l es :
  line_ok l -> Forall (fun e => e.1 < Mountinfo.MOUNTINFO_NUM_FIELDS) es ->
  mount_labels l es = Ret (concat (map (fun e => bs "," ++ e.2 ++ bs "=" ++ [QUOTE] ++ line_field l e.1 ++ [QUOTE]) es)).
Proof.
  intros Hl. induction 1 as [|[i label] es Hi _ IH]; [done|]. cbn [mount_labels map concat fst snd] in *.
  rewrite (line_field_ok l i Hl Hi), bind_ret, IH, bind_ret. by rewrite <- !app_assoc.
Qed.

Lemma mount_loop_spec pid devs ls : Forall line_ok ls -> forall cache out,
  exists out', mount_loop pid devs ls cache out = Ret (cache ++ disk_mounts pid devs ls, out') /\
    forall m, out' !! m = if bool_decide (m ∈ disk_mounts pid devs ls) then None else out !! m.
Proof.
  induction 1 as [|l ls Hl _ IH]; intros cache out; cbn [mount_loop].
  - exists out. rewrite app_nil_r. split; [done|]. intros m. rewrite bool_decide_eq_false_2; [done|]. apply not_elem_of_nil.
  - rewrite (line_field_ok l MOUNTINFO_MAJOR_MINOR Hl) by (unfold MOUNTINFO_MAJOR_MINOR, Mountinfo.MOUNTINFO_NUM_FIELDS; lia).
    rewrite bind_ret. unfold disk_mounts. rewrite filter_cons.
    destruct (decide (is_Some (devs !! line_field l MOUNTINFO_MAJOR_MINOR))) as [Hd|Hd].
    + rewrite bool_decide_eq_true_2 by done. cbn [negb]. rewrite mount_labels_ok by (done || (repeat constructor; vm_compute; lia)).
      rewrite bind_ret. fold (line_metric pid l). destruct (IH (cache ++ [line_metric pid l]) (delete (line_metric pid l) out)) as (out' & -> & Ho).
      exists out'. split; [by rewrite <- app_assoc|]. intros m. rewrite Ho. cbn [map]. fold (disk_mounts pid devs ls).
      destruct (decide (m = line_metric pid l)) as [->|Hne].
      * rewrite lookup_delete_eq. rewrite (bool_decide_eq_true_2 (_ ∈ _ :: _)) by set_solver. by destruct (bool_decide _).
      * rewrite lookup_delete_ne by done. erewrite bool_decide_ext; [done|]. rewrite elem_of_cons. naive_solver.
    + rewrite bool_decide_eq_false_2 by done. cbn [negb]. fold (disk_mounts pid devs ls). apply IH.
Qed.

(** The metrics after the mounts were looked at: new when they changed. *)
Definition cache_after (devs : Diskstats.devmap) (g : ProcDiskstatsMetrics) (mi : Mountinfo.Mountinfo) : list bytes :=
  match mountinfoMetricsCache g with
  | Some cache => if Mountinfo.Changed mi then disk_mounts (mountinfoPid g) devs (Mountinfo.ParsedLines mi) else cache
  | None => disk_mounts (mountinfoPid g) devs (Mountinfo.ParsedLines mi)
  end.

Lemma updateMountinfo_spec orderM pid devs mi cache :
  is_order orderM -> Forall line_ok (Mountinfo.ParsedLines mi) ->
  exists out, updateMountinfoMetricsCache pid devs mi cache = Ret (disk_mounts pid devs (Mountinfo.ParsedLines mi), out) /\
    NoDup (orderM out) /\
    forall m, m ∈ orderM out <-> m ∈ default [] cache /\ m ∉ disk_mounts pid devs (Mountinfo.ParsedLines mi).
Proof.
  intros Ho Hl. unfold updateMountinfoMetricsCache.
  destruct (mount_loop_spec pid devs (Mountinfo.ParsedLines mi) Hl [] (list_to_map (map (fun m => (m, true)) (default [] cache))))
    as (out & -> & Hout). exists out. split; [done|]. destruct (Ho out) as [Hnd Hin]. split; [done|]. intros m. rewrite Hin, Hout.
  assert (is_Some ((list_to_map (map (fun m => (m, true)) (default [] cache)) : gmap bytes bool) !! m) <-> m ∈ default [] cache) as Hm.
  { rewrite <- not_eq_None_Some, <- (not_elem_of_list_to_map (M := gmap bytes)). rewrite list_elem_of_fmap. split.
    - intros Hn. apply dec_stable. intros Hm. apply Hn. intros ([k b] & -> & Hk). apply Hm.
      apply list_elem_of_In, in_map_iff in Hk as (x & [= <- <-] & Hx). by apply list_elem_of_In.
    - intros Hm Hn. apply Hn. exists (m, true). split; [done|]. apply list_elem_of_In, in_map_iff. exists m. split; [done|]. by apply list_elem_of_In. }
  destruct (decide (m ∈ disk_mounts pid devs (Mountinfo.ParsedLines mi))) as [Hd|Hd].
  - rewrite bool_decide_eq_true_2 by done. split; [by intros [? ?]|tauto].
  - rewrite bool_decide_eq_false_2 by done. tauto.
Qed.
Definition put (promTs val : bytes) (ms : list bytes) : list bytes := map (fun m => line m val promTs) ms.

(** The lines for the mounts: 0 for the ones that are gone, once each, and 1
    for all when they changed or the cycle is a full one. *)
Definition mounts_done (promTs : bytes) (devs : Diskstats.devmap) (g : ProcDiskstatsMetrics) (cache' : option (list bytes)) (L : list bytes)
    : Prop :=
  if mountifoDisabled g then cache' = None /\ L = put promTs (bs "0") (default [] (mountinfoMetricsCache g))
  else exists mi gone, procMountinfo g = Some mi /\ cache' = Some (cache_after devs g mi) /\ NoDup gone /\
    (forall m, m ∈ gone <-> m ∈ default [] (mountinfoMetricsCache g) /\ m ∉ cache_after devs g mi) /\
    L = put promTs (bs "0") gone ++
        (if Mountinfo.Changed mi || (mountinfoCycleNum g =? 0)%Z then put promTs (bs "1") (cache_after devs g mi) else []).

Definition mounts_ok (g : ProcDiskstatsMetrics) : Prop :=
  mountifoDisabled g = false -> exists mi, procMountinfo g = Some mi /\ Forall line_ok (Mountinfo.ParsedLines mi).

Lemma gen_mounts_spec orderM promTs devs g :
  is_order orderM -> mounts_ok g ->
  exists mr, gen_mounts orderM promTs devs g = Ret mr /\ mounts_done promTs devs g (mr_cache mr) (mr_lines mr).
Proof.
  intros Ho Hm. unfold gen_mounts, mounts_done. destruct (mountifoDisabled g) eqn:Ed.
  - destruct (mountinfoMetricsCache g); by eexists.
  - destruct (Hm Ed) as (mi & -> & Hl). cbn [must]. rewrite bind_ret.
    destruct (updateMountinfo_spec orderM (mountinfoPid g) devs mi (mountinfoMetricsCache g) Ho Hl) as (out & Hu & Hnd & Hin).
    unfold cache_after in *. destruct (mountinfoMetricsCache g) as [cache|] eqn:Ec.
    + destruct (Mountinfo.Changed mi) eqn:Ech; cbn [orb].
      * rewrite Hu, !bind_ret. eexists. split; [reflexivity|]. exists mi, (orderM out). rewrite Ech. done.
      * rewrite bind_ret. eexists. split; [reflexivity|]. exists mi, []. rewrite Ech. cbn [default from_option orb].
        split; [done|]. split; [done|]. split; [constructor|]. split; [set_solver|done].
    + rewrite Hu, !bind_ret. eexists. split; [reflexivity|]. exists mi, (orderM out). done.
Qed.

(** A generator that holds two scans; the cached data of a disk is for the name
    that [names] gives it. *)
Record gen_ok (names : bytes -> bytes) (g : ProcDiskstatsMetrics) (curr prev : Diskstats.Diskstats) (currTs prevTs : Time) : Prop := mkGenOk {
  go_F : (fullMetricsFactor g <= MaxInt64)%Z;
  go_curr : procDiskstats g !! currIndex g = Some (Some curr) /\ procDiskstatsTs g !! currIndex g = Some currTs;
  go_prev : procDiskstats g !! (1 - currIndex g) = Some (Some prev) /\ procDiskstatsTs g !! (1 - currIndex g) = Some prevTs;
  go_devs : map_Forall (fun _ => Diskstats.dev_ok) (Diskstats.DevInfoMap curr) /\ map_Forall (fun _ => Diskstats.dev_ok) (Diskstats.DevInfoMap prev);
  go_info : map_Forall (fun k i => info_ok (fullMetricsFactor g) k (names k) i) (diskstatsMetricsInfo g);
  go_mounts : mounts_ok g
}.

Context (order : Diskstats.devmap -> list bytes) (orderM : gmap bytes bool -> list bytes).
Hypothesis order_ok : is_order order.
Hypothesis orderM_ok : is_order orderM.

(** The names of the cached data after a generation. *)
Definition next_names (names : bytes -> bytes) (m : gmap bytes ProcDiskstatsMetricsInfo) (curr prev : Diskstats.Diskstats) (k : bytes) : bytes :=
  match Diskstats.DevInfoMap curr !! k, Diskstats.DevInfoMap prev !! k with
  | Some c, Some p => used curr (names k) (m !! k) c p
  | _, _ => names k
  end.

(** C34: a generation with two scans does not panic.  For every disk of both
    scans it writes the exact 32-bit deltas, the percentages and the gauge, by the
    rules of zeros, changes and full cycles, under the name of its cached data; a
    disk without cached data, and one that is taken for renamed, since the flag of
    the current scan is set and its name is not that of the previous scan, is
    written in full under the current name, the latter after its old information
    metric with 0.  So the name is the current one when the cached data was for the
    name of the previous scan and the flag of the current scan tells of a name
    that differs from that one.  The mounts of the disks follow, those out of scope
    with 0, then the interval.  The zeros are remembered, the cycles advanced, and
    the cached data of every disk stays that of the name it was written under.  In
    the scan that the next generation compares with, the disks are left as they are
    only when the known disks are as many as those of the scan, otherwise only the
    unknown ones are kept. *)
Theorem disk_metrics_values names g icm curr prev currTs prevTs :
  gen_ok names g curr prev currTs prevTs -> (0 <= icm)%Z ->
  let F := fullMetricsFactor g in let promTs := ts_suffix currTs in let deltaSec := Seconds (Sub currTs prevTs) in
  let devs := Diskstats.DevInfoMap curr in
  exists g' icm' total Ls mounts lines,
    generateMetrics order orderM g icm = Ret (g', icm', lines, (Z.of_nat (length lines), total)) /\
    lines = concat Ls ++ mounts ++ [line (default updateIntervalMetricsCache (intervalMetric g)) (FormatFloat 6 deltaSec) promTs] /\
    Forall2 (fun k L => match devs !! k, Diskstats.DevInfoMap prev !! k with
      | Some c, Some p =>
        L = disk_lines deltaSec promTs curr k (names k) (diskstatsMetricsInfo g !! k) c p /\
        ((Diskstats.Changed curr = false -> Diskstats.Name c = Diskstats.Name p) -> names k = Diskstats.Name p ->
           used curr (names k) (diskstatsMetricsInfo g !! k) c p = Diskstats.Name c) /\
        exists i', diskstatsMetricsInfo g' !! k = Some i' /\
          (forall j, j < NUM -> procDiskstatsIndexIsGauge j = false ->
             zeroDelta i' !! j = Some (u32 (Diskstats.Stats c !!! j - Diskstats.Stats p !!! j) =? 0)%Z) /\
          (forall i, diskstatsMetricsInfo g !! k = Some i -> cycleNum i' = ((cycleNum i + 1) mod Z.max 1 F)%Z)
      | _, _ => L = [] /\ diskstatsMetricsInfo g' !! k = diskstatsMetricsInfo g !! k
      end) (order devs) Ls /\
    map_Forall (fun k i => info_ok F k (next_names names (diskstatsMetricsInfo g) curr prev k) i) (diskstatsMetricsInfo g') /\
    mounts_done promTs devs g (mountinfoMetricsCache g') mounts /\
    currIndex g' = 1 - currIndex g /\
    procDiskstats g' = <[currIndex g := Some (with_devs curr
      (if size (diskstatsMetricsInfo g') =? size devs then devs else filter (fun kv => diskstatsMetricsInfo g' !! kv.1 = None) devs))]>
      (procDiskstats g).
Proof.
  intros [HF [Hc1 Hc2] [Hp1 Hp2] [Hdc Hdp] Hinfo Hmo] Hicm F promTs deltaSec devs.
  unfold generateMetrics. rewrite Hp1, Hp2, Hc1, Hc2. cbn [must]. rewrite !bind_ret. cbn [must]. rewrite !bind_ret.
  fold F promTs deltaSec devs. destruct (order_ok devs) as [Hnd Hin].
  destruct (for_keys_spec (gen_disk F deltaSec promTs (Diskstats.Changed curr) devs (Diskstats.DevInfoMap prev)) (fun st => st.1.1) (loop_ok F)
    (disk_done F deltaSec promTs curr prev names) (order devs) (diskstatsMetricsInfo g, icm, 0%Z)) as ([[m icm'] total] & Ls & -> & _ & HQ & Hrest); [|done| |].
  { intros st k Hst Hk. apply disk_gen_disk; [done|done|done|done|by apply Hin]. }
  { split; [|done]. intros k i Hi. exists (names k). by apply Hinfo. }
  rewrite bind_ret. destruct (gen_mounts_spec orderM promTs devs g orderM_ok Hmo) as (mr & -> & Hmr). rewrite bind_ret.
  rewrite store_Ret by (eapply lookup_lt_Some; exact Hc1). rewrite bind_ret.
  eexists _, icm', _, Ls, (mr_lines mr), _. split; [reflexivity|]. split; [done|].
  cbn [diskstatsMetricsInfo mountinfoMetricsCache currIndex procDiskstats fst snd] in *.
  split; [|split; [|split; [done|split; [done|done]]]].
  - eapply Forall2_impl; [exact HQ|]. cbn beta. intros k L Hd. unfold disk_done in Hd. fold devs in Hd.
    destruct (devs !! k) as [c|]; [|done]. destruct (Diskstats.DevInfoMap prev !! k) as [p|] eqn:Ep; [|done].
    destruct (Hd (Hinfo k)) as (H1 & i' & H2 & _ & H3). split; [done|]. split; [|by exists i'].
    unfold used, renamed. destruct (diskstatsMetricsInfo g !! k); [|done]. intros Hfl Hn. rewrite Hn.
    destruct (Diskstats.Changed curr); cbn [andb]; [|by rewrite Hfl]. by case_bool_decide.
  - intros k i Hi. unfold next_names. fold devs. destruct (decide (k ∈ order devs)) as [Hk|Hk].
    + destruct (list_elem_of_lookup_1 _ _ Hk) as [n Hn]. destruct (Forall2_lookup_l _ _ _ _ _ HQ Hn) as (L & _ & Hd). cbn beta in Hd.
      unfold disk_done in Hd. fold devs in Hd. destruct (devs !! k) as [c|]; [|destruct Hd as [_ Hd]; rewrite Hd in Hi; by apply Hinfo].
      destruct (Diskstats.DevInfoMap prev !! k) as [p|]; [|destruct Hd as [_ Hd]; rewrite Hd in Hi; by apply Hinfo].
      destruct (Hd (Hinfo k)) as (_ & i' & E & Hok & _). rewrite Hi in E. by injection E as ->.
    + rewrite Hrest in Hi by done. destruct (devs !! k) as [c|] eqn:Ec; [|by apply Hinfo]. exfalso. apply Hk, Hin. by exists c.
Qed.
End generator.
(** ** Samples *)

Definition sample_dev (n : Z) : Diskstats.DiskstatsDevInfo := Diskstats.mkDev (bs "sda") (replicate Diskstats.DISKSTATS_VALUE_FIELDS_NUM n) 1.
Definition sample_scan (n : Z) : Diskstats.Diskstats :=
  Diskstats.mkDiskstats {[ bs "8:0" := sample_dev n ]} false 1 (bs "/proc/diskstats") 0 Diskstats.diskstatsFieldsInJiffies.
Definition sample_gen : ProcDiskstatsMetrics :=
  mkMetrics [Some (sample_scan 150); Some (sample_scan 50)] [mkTime (2 * Second) None; zeroTime] 0 ∅ 0 None 3 true 12 None None.

(** 100 more of everything in 2 s: a delta of 100, 5.00 % of 100 ms. *)
Lemma disk_metrics_values_witness :
  exists g' icm' lines counts,
    generateMetrics (bs "i") (bs "h") some_order some_order sample_gen 0 = Ret (g', icm', lines, counts) /\
    lines !! 0 = Some (line (disk_metrics (bs "i") (bs "h") (bs "8:0") (bs "sda") !!! 0) (bs "100") (ts_suffix (mkTime (2 * Second) None))) /\
    lines !! 3 = Some (line (disk_metrics (bs "i") (bs "h") (bs "8:0") (bs "sda") !!! 3) (bs "5.00") (ts_suffix (mkTime (2 * Second) None))).
Proof.
  destruct (disk_metrics_values (bs "i") (bs "h") some_order some_order some_order_ok some_order_ok
    (fun _ => []) sample_gen 0 (sample_scan 150) (sample_scan 50) (mkTime (2 * Second) None) zeroTime)
    as (g' & icm' & total & Ls & mounts & lines & Hgen & Hl & HQ & _).
  - split; [vm_compute; discriminate|done|done| |apply map_Forall_empty|done]. split; by apply map_Forall_singleton.
  - lia.
  - eexists g', icm', lines, _. split; [exact Hgen|]. rewrite Hl. clear Hl Hgen.
    change (some_order (Diskstats.DevInfoMap (sample_scan 150))) with [bs "8:0"] in HQ.
    inversion_clear HQ as [|? L ? Ls' Hq HQ']. inversion_clear HQ'. destruct Hq as [-> _]. split; vm_compute; reflexivity.
Defined.

(** The numbers of metrics of executions on scans with the given disks, whose
    counters go up by one each time; the mounts cannot be read. *)
Definition sample_file (n : nat) (disks : list string) : bytes :=
  concat (map (fun d => bs "8 " ++ bs d ++ bs " sd" ++ bs d ++ concat (replicate 17 (bs " " ++ FormatUint (Z.of_nat n))) ++ [NL]) disks).
Fixpoint executions (n : nat) (scans : list (list string)) (st : ProcDiskstatsMetrics * Z * MetricsGeneratorStats)
    : outcome (list Z) :=
  match scans with
  | [] => Ret []
  | disks :: scans =>
    let '(g, icm, mgs) := st in
    '(g, icm, mgs, _, _) ← Execute (bs "i") (bs "h") (bs "/proc/diskstats") (bs "/proc/self/mountinfo") None
        (ReadOk (sample_file n disks)) ReadErr (mkTime (Z.of_nat n * Second) None) some_order some_order g icm mgs;
    let actual := match mgs !! PROC_DISKSTATS_METRICS_ID with
                  | Some l => default 0%Z (l !! METRICS_GENERATOR_ACTUAL_METRICS_COUNT)
                  | None => 0%Z
                  end in
    rest ← executions (S n) scans (g, icm, ∅);
    Ret (actual :: rest)
  end.
(** a disk that goes away stops the metrics of all disks for good: the
    clean-up deletes the known disks from the current scan instead of deleting
    the data of the one that is gone, so that the next generation finds no
    previous values, and the data that is left makes it delete them again.  With
    two disks a full generation has 36 metrics of disks and the interval; after
    the second one is gone its information metric is never set to 0, and from
    the scan after on only the interval is written. *)
Theorem disk_gone_stops_metrics :
  let '(g, icm) := NewProcDiskstatsMetrics 1 0 0 in
  executions 1 [["a"; "b"]; ["a"; "b"]; ["a"; "b"]; ["a"]; ["a"]; ["a"]; ["a"]; ["a"]]%string (g, icm, ∅) =
    Ret [0; 37; 37; 19; 1; 1; 1; 1]%Z.
Proof. vm_compute. reflexivity. Qed.

(** The information metric of the disk 8:0 after scans in which it has the given
    names. *)
Fixpoint written_as (n : nat) (scans : list string) (st : ProcDiskstatsMetrics * Z) : outcome (option bytes) :=
  match scans with
  | [] => Ret (infoMetric <$> diskstatsMetricsInfo st.1 !! bs "8:0")
  | name :: scans =>
    '(g, icm, _, _, _) ← Execute (bs "i") (bs "h") (bs "/proc/diskstats") (bs "/proc/self/mountinfo") None
        (ReadOk (bs "8 0 " ++ bs name ++ concat (replicate 17 (bs " " ++ FormatUint (Z.of_nat n))) ++ [NL])) ReadErr
        (mkTime (Z.of_nat n * Second) None) some_order some_order st.1 st.2 ∅;
    written_as (S n) scans (g, icm)
  end.
(** the flag of a scan compares with the scan that the same object read before,
    two scans back.  A name that a disk has in one scan only is not seen to go:
    the disk is written under it until it is renamed again. *)
Theorem disk_rename_missed :
  let '(g, icm) := NewProcDiskstatsMetrics 1 0 0 in
  written_as 1 ["sda"; "sda"; "sdb"]%string (g, icm) = Ret (Some (info_metric (bs "i") (bs "h") (bs "8:0") (bs "sdb"))) /\
  written_as 1 ["sda"; "sda"; "sdb"; "sda"; "sda"; "sda"; "sda"]%string (g, icm) =
    Ret (Some (info_metric (bs "i") (bs "h") (bs "8:0") (bs "sdb"))).
Proof. vm_compute. split; reflexivity. Qed.

(** A disk that is new costs the others one generation. *)
Example disk_new_skips_metrics :
  let '(g, icm) := NewProcDiskstatsMetrics 1 0 0 in
  executions 1 [["a"]; ["a"]; ["a"; "b"]; ["a"; "b"]; ["a"; "b"]]%string (g, icm, ∅) = Ret [0; 19; 19; 19; 37]%Z.
Proof. vm_compute. reflexivity. Qed.
End DiskstatsMetrics.
