(* ===== verification/StatfsMetrics.v ===== *)
(** The file system metrics (src/lsvmi/statfs_metrics.go), as df reports them:
    the file systems are the first mounts of every source that the filters keep,
    the values come from the statfs system call, which is an argument (its
    result for every mount point), as are the orders of the map iterations; the
    output is the list of the lines written. *)

From Stdlib Require Import ZArith Lia.
From Stdlib Require Import Floats.SpecFloat.
From stdpp Require Import base tactics numbers strings gmap list.
From S2P Require Import Prelude Scan GoTime GoFloat MetricsCommon Mountinfo.
Import MetricsCommon.

Module StatfsMetrics.

Definition STATFS_METRICS_ID : bytes := bs "statfs_metrics".
Definition STATFS_BSIZE_METRIC : bytes := bs "statfs_bsize".
Definition STATFS_BLOCKS_METRIC : bytes := bs "statfs_blocks".
Definition STATFS_BFREE_METRIC : bytes := bs "statfs_bfree".
Definition STATFS_BAVAIL_METRIC : bytes := bs "statfs_bavail".
Definition STATFS_FILES_METRIC : bytes := bs "statfs_files".
Definition STATFS_FFREE_METRIC : bytes := bs "statfs_ffree".
Definition STATFS_TOTAL_SIZE_METRIC : bytes := bs "statfs_total_size_kb".
Definition STATFS_FREE_SIZE_METRIC : bytes := bs "statfs_free_size_kb".
Definition STATFS_AVAIL_SIZE_METRIC : bytes := bs "statfs_avail_size_kb".
Definition STATFS_FREE_PCT_METRIC : bytes := bs "statfs_free_pct".
Definition STATFS_AVAIL_PCT_METRIC : bytes := bs "statfs_avail_pct".
Definition STATFS_PRESENCE_METRIC : bytes := bs "statfs_present".
Definition STATFS_MOUNTINFO_FS_LABEL_NAME : bytes := bs "fs".
Definition STATFS_MOUNTINFO_FS_TYPE_LABEL_NAME : bytes := bs "fs_type".
Definition STATFS_MOUNTINFO_MOUNT_POINT_LABEL_NAME : bytes := bs "mount_point".
Definition STATFS_DEVICE_NUM_METRICS : Z := 12.
Definition STATFS_INTERVAL_METRIC : bytes := bs "statfs_metrics_delta_sec".
Definition STATFS_FREE_PCT_METRIC_PREC : nat := 1.
Definition STATFS_AVAIL_PCT_METRIC_PREC : nat := 1.

(** The fields of [unix.Statfs_t] that are used; [Bsize] is signed. *)
Record Statfs_t := mkStatfs { Bsize : Z; Blocks : Z; Bfree : Z; Bavail : Z; Files : Z; Ffree : Z }.

(** Source, type and mount point. *)
Abbreviation StatfsMountinfo := (bytes * bytes * bytes)%type.
Definition mountPoint (m : StatfsMountinfo) : bytes := m.2.

Record StatfsInfo := mkInfo {
  statfsBuf : list (option Statfs_t);
  infoLabels : option bytes;
  cycleNum : Z;
  infoScanNum : Z
}.

Record StatfsMetrics := mkMetrics {
  statfsInfo : gmap StatfsMountinfo StatfsInfo;
  statfsTs : list Time;
  currIndex : nat;
  firstTime : bool;
  procMountinfo : option Mountinfo.Mountinfo;
  mountinfoCycleNum : Z;
  includeFilesystemTypes : option (gset bytes);
  excludeFilesystemTypes : option (gset bytes);
  fullMetricsFactor : Z;
  intervalMetric : option bytes;
  scanNum : Z
}.

(** An empty list of types is no restriction. *)
Definition type_set (l : list bytes) : option (gset bytes) := match l with [] => None | _ => Some (list_to_set l) end.

Definition NewStatfsMetrics (fullMetricsFactor : Z) (include exclude : list bytes) (icm : Z) : StatfsMetrics * Z :=
  let '(cn, icm) := InitialCycleNum_Get fullMetricsFactor icm in
  (mkMetrics ∅ [zeroTime; zeroTime] 0 false None cn (type_set include) (type_set exclude) fullMetricsFactor None 0, icm).

Definition keepFsType (include exclude : option (gset bytes)) (fsType : bytes) : bool :=
  match exclude with None => true | Some e => negb (bool_decide (fsType ∈ e)) end &&
  match include with None => true | Some i => bool_decide (fsType ∈ i) end.

Section generator.
Context (instance hostname mountinfoPath : bytes).

Definition fs_labels (m : StatfsMountinfo) : bytes :=
  let '(fs, fsType, mp) := m in
  bs "{" ++ labels [(INSTANCE_LABEL_NAME, instance); (HOSTNAME_LABEL_NAME, hostname); (STATFS_MOUNTINFO_FS_LABEL_NAME, fs);
                    (STATFS_MOUNTINFO_FS_TYPE_LABEL_NAME, fsType); (STATFS_MOUNTINFO_MOUNT_POINT_LABEL_NAME, mp)] ++ bs "} ".

Definition KBYTE : Z := 1000.
Definition size_kb (blocks bsize : Z) : Z := (u64 (blocks * bsize) / KBYTE)%Z.
Definition pct (n blocks : Z) : spec_float := f64_mul (f64_div (f64_of_int n) (f64_of_int blocks)) (f64_of_int 100).

(** The lines of a file system: [prev] is the previous buffer, [allMetrics] does
    not look at it. *)
Definition fs_values (promTs labels : bytes) (allMetrics : bool) (curr : Statfs_t) (prev : option Statfs_t) : outcome (list bytes) :=
  let put name val := line (name ++ labels) val promTs in
  let bsize := u64 (Bsize curr) in
  let changed (f : Statfs_t -> Z) : outcome bool :=
    if allMetrics then Ret true else (p ← must prev; Ret (negb (f curr =? f p)%Z)) in
  dBlocks ← changed Blocks; dBfree ← changed Bfree; dBavail ← changed Bavail;
  dFiles ← changed Files; dFfree ← changed Ffree;
  Ret ((if allMetrics then [put STATFS_BSIZE_METRIC (FormatUint bsize)] else []) ++
       (if dBlocks : bool then [put STATFS_BLOCKS_METRIC (FormatUint (Blocks curr));
                         put STATFS_TOTAL_SIZE_METRIC (FormatUint (size_kb (Blocks curr) bsize))] else []) ++
       (if dBfree : bool then [put STATFS_BFREE_METRIC (FormatUint (Bfree curr));
                        put STATFS_FREE_SIZE_METRIC (FormatUint (size_kb (Bfree curr) bsize))] else []) ++
       (if dBavail : bool then [put STATFS_BAVAIL_METRIC (FormatUint (Bavail curr));
                         put STATFS_AVAIL_SIZE_METRIC (FormatUint (size_kb (Bavail curr) bsize))] else []) ++
       (if dBlocks || dBfree
        then [put STATFS_FREE_PCT_METRIC (FormatFloat STATFS_FREE_PCT_METRIC_PREC (pct (Bfree curr) (Blocks curr)))] else []) ++
       (if dBlocks || dBavail
        then [put STATFS_AVAIL_PCT_METRIC (FormatFloat STATFS_AVAIL_PCT_METRIC_PREC (pct (Bavail curr) (Blocks curr)))] else []) ++
       (if dFiles : bool then [put STATFS_FILES_METRIC (FormatUint (Files curr))] else []) ++
       (if dFfree : bool then [put STATFS_FFREE_METRIC (FormatUint (Ffree curr))] else []) ++
       (if allMetrics then [put STATFS_PRESENCE_METRIC (bs "1")] else [])).

(** One file system; one that the last scan did not find is deleted. *)
Definition gen_fs (F : Z) (promTs : bytes) (ci : nat) (scan : Z) (key : StatfsMountinfo) (m : gmap StatfsMountinfo StatfsInfo)
    : outcome (gmap StatfsMountinfo StatfsInfo * list bytes) :=
  info ← must (m !! key);
  let labels := default (fs_labels key) (infoLabels info) in
  if negb (infoScanNum info =? scan)%Z
  then Ret (delete key m, [line (STATFS_PRESENCE_METRIC ++ labels) (bs "0") promTs])
  else
    curr ← must (statfsBuf info !! ci); prev ← must (statfsBuf info !! (1 - ci));
    curr ← must curr;
    let allMetrics := match prev with
                      | None => true
                      | Some p => (cycleNum info =? 0)%Z || negb (u64 (Bsize curr) =? u64 (Bsize p))%Z
                      end in
    lines ← fs_values promTs labels allMetrics curr prev;
    Ret (<[key := mkInfo (statfsBuf info) (Some labels) (next_cycle F (cycleNum info)) (infoScanNum info)]> m, lines).

Definition interval_metric : bytes := metric STATFS_INTERVAL_METRIC instance hostname [].

Definition generateMetrics (order : gmap StatfsMountinfo StatfsInfo -> list StatfsMountinfo) (g : StatfsMetrics)
    : outcome (StatfsMetrics * list bytes * (Z * Z)) :=
  let ci := currIndex g in
  currTs ← must (statfsTs g !! ci); prevTs ← must (statfsTs g !! (1 - ci));
  let promTs := ts_suffix currTs in
  '(m, lines) ← for_keys (gen_fs (fullMetricsFactor g) promTs ci (scanNum g)) (order (statfsInfo g)) (statfsInfo g);
  let '(im, interval) :=
    if firstTime g then (intervalMetric g, [])
    else let im := default interval_metric (intervalMetric g) in
         (Some im, [line im (FormatFloat 6 (Seconds (Sub currTs prevTs))) promTs]) in
  let lines := lines ++ interval in
  Ret (mkMetrics m (statfsTs g) (1 - ci) (firstTime g) (procMountinfo g) (mountinfoCycleNum g) (includeFilesystemTypes g)
         (excludeFilesystemTypes g) (fullMetricsFactor g) im (scanNum g),
       lines, (Z.of_nat (length lines), Z.of_nat (size m) * STATFS_DEVICE_NUM_METRICS + 1)%Z).

(** *** The scan *)

Definition MOUNTINFO_MOUNT_POINT : nat := 4.
Definition MOUNTINFO_FS_TYPE : nat := 8.
Definition MOUNTINFO_MOUNT_SOURCE : nat := 9.

Definition field (parsedLine : Mountinfo.MountinfoParsedLine) (i : nat) : outcome bytes :=
  f ← must (parsedLine !! i); Ret (default [] f).

(** The loop over the mounts: [found] are the sources seen so far. *)
Fixpoint scan_mounts (g : StatfsMetrics) (scan : Z) (lines : list Mountinfo.MountinfoParsedLine) (found : gset bytes)
    (m : gmap StatfsMountinfo StatfsInfo) (icm : Z) : outcome (gmap StatfsMountinfo StatfsInfo * Z) :=
  match lines with
  | [] => Ret (m, icm)
  | l :: lines =>
    fsType ← field l MOUNTINFO_FS_TYPE;
    if negb (keepFsType (includeFilesystemTypes g) (excludeFilesystemTypes g) fsType) then scan_mounts g scan lines found m icm
    else
      fs ← field l MOUNTINFO_MOUNT_SOURCE;
      if bool_decide (fs ∈ found) then scan_mounts g scan lines found m icm
      else
        mp ← field l MOUNTINFO_MOUNT_POINT;
        let key := (fs, fsType, mp) in
        let '(info, icm) := match m !! key with
                            | Some i => (i, icm)
                            | None => let '(cn, icm) := InitialCycleNum_Get (fullMetricsFactor g) icm in
                                      (mkInfo [None; None] None cn 0, icm)
                            end in
        scan_mounts g scan lines ({[fs]} ∪ found)
          (<[key := mkInfo (statfsBuf info) (infoLabels info) (cycleNum info) scan]> m) icm
  end.

(** The system call for a file system: a failure marks it for deletion; what the
    call leaves in the buffer then is not used. *)
Definition stat_fs (statfs : bytes -> option Statfs_t) (changed : bool) (ci : nat) (scan : Z) (key : StatfsMountinfo) (info : StatfsInfo)
    : StatfsInfo :=
  if changed && negb (infoScanNum info =? scan)%Z then info
  else match statfs (mountPoint key) with
       | Some b => mkInfo (<[ci := Some b]> (statfsBuf info)) (infoLabels info) (cycleNum info) scan
       | None => mkInfo (statfsBuf info) (infoLabels info) (cycleNum info) (i64 (scan - 1))
       end.

Definition Execute (rd : read_result) (statfs : bytes -> option Statfs_t) (now : Time)
    (order : gmap StatfsMountinfo StatfsInfo -> list StatfsMountinfo) (g : StatfsMetrics) (icm : Z) (mgs : MetricsGeneratorStats)
    : outcome (StatfsMetrics * Z * MetricsGeneratorStats * option bytes * bool) :=
  let first := bool_decide (procMountinfo g = None) in
  let mi := default (Mountinfo.NewMountinfo mountinfoPath) (procMountinfo g) in
  '(mi, err) ← (if first || (mountinfoCycleNum g =? 0)%Z then Mountinfo.Parse rd mi else Ret (mi, None));
  match err with
  | Some _ =>
    Ret (mkMetrics (statfsInfo g) (statfsTs g) (currIndex g) (firstTime g) (Some mi) (mountinfoCycleNum g) (includeFilesystemTypes g)
           (excludeFilesystemTypes g) (fullMetricsFactor g) (intervalMetric g) (scanNum g), icm, mgs, None, false)
  | None =>
    let cyc := next_cycle (fullMetricsFactor g) (mountinfoCycleNum g) in
    let ci := currIndex g in
    let scan := i64 (scanNum g + 1) in
    let changed := first || Mountinfo.Changed mi in
    '(m, icm) ← (if changed then scan_mounts g scan (Mountinfo.ParsedLines mi) ∅ (statfsInfo g) icm else Ret (statfsInfo g, icm));
    let m := map_imap (fun key info => Some (stat_fs statfs changed ci scan key info)) m in
    ts ← store (statfsTs g) ci now;
    '(g, lines, (actual, total)) ← generateMetrics order
       (mkMetrics m ts ci first (Some mi) cyc (includeFilesystemTypes g) (excludeFilesystemTypes g) (fullMetricsFactor g) (intervalMetric g) scan);
    let buf := concat lines in
    mgs ← Update STATFS_METRICS_ID (u64 actual) (u64 total) (u64 (Z.of_nat (length buf))) mgs;
    Ret (g, icm, mgs, Some buf, true)
  end.
(** ** What an execution reports *)

Definition line_field (l : Mountinfo.MountinfoParsedLine) (i : nat) : bytes := default [] (l !!! i).
Definition line_ok (l : Mountinfo.MountinfoParsedLine) : Prop := length l = Mountinfo.MOUNTINFO_NUM_FIELDS.
Definition source (l : Mountinfo.MountinfoParsedLine) : bytes := line_field l MOUNTINFO_MOUNT_SOURCE.
Definition line_key (l : Mountinfo.MountinfoParsedLine) : StatfsMountinfo :=
  (source l, line_field l MOUNTINFO_FS_TYPE, line_field l MOUNTINFO_MOUNT_POINT).
Definition keeps (g : StatfsMetrics) (l : Mountinfo.MountinfoParsedLine) : bool :=
  keepFsType (includeFilesystemTypes g) (excludeFilesystemTypes g) (line_field l MOUNTINFO_FS_TYPE).

(** The first mount of a source that is not in [found], among those kept. *)
Definition first_mount (g : StatfsMetrics) (found : gset bytes) (lines : list Mountinfo.MountinfoParsedLine) (key : StatfsMountinfo) : Prop :=
  exists l1 l l2, lines = l1 ++ l :: l2 /\ keeps g l = true /\ line_key l = key /\ (source l ∉ found) /\
    Forall (fun x => keeps g x = true -> source x <> source l) l1.

Lemma first_mount_nil g found key : ~ first_mount g found [] key.
Proof. intros ([|? ?] & ? & ? & H & _); discriminate H. Qed.

Lemma first_mount_skip g found l lines key :
  keeps g l = false \/ source l ∈ found -> first_mount g found (l :: lines) key <-> first_mount g found lines key.
Proof.
  intros Hl. split.
  - intros ([|x l1] & y & l2 & H & Hk & Hkey & Hf & Ha); injection H as <- Hr; [destruct Hl; [congruence|done]|].
    apply Forall_cons in Ha as [_ Ha]. subst. by exists l1, y, l2.
  - intros (l1 & y & l2 & -> & Hk & Hkey & Hf & Ha). exists (l :: l1), y, l2. split_and!; try done.
    constructor; [|done]. destruct Hl as [Hl|Hl]; [congruence|]. intros _ E. by rewrite <- E in Hf.
Qed.

Lemma first_mount_new g found l lines key :
  keeps g l = true -> source l ∉ found ->
  first_mount g found (l :: lines) key <-> key = line_key l \/ first_mount g ({[source l]} ∪ found) lines key.
Proof.
  intros Hk Hs. split.
  - intros ([|x l1] & y & l2 & H & Hky & Hkey & Hf & Ha); injection H as <- Hr; [by left|]. right.
    apply Forall_cons in Ha as [Hx Ha]. exists l1, y, l2. split_and!; try done. specialize (Hx Hk). set_solver.
  - intros [->|(l1 & y & l2 & -> & Hky & Hkey & Hf & Ha)]; [by exists [], l, lines|].
    exists (l :: l1), y, l2. split_and!; try done; [set_solver|]. constructor; [|done]. intros _. set_solver.
Qed.

Lemma fs_field_ok l i : line_ok l -> i < Mountinfo.MOUNTINFO_NUM_FIELDS -> field l i = Ret (line_field l i).
Proof. intros Hl Hi. unfold field, line_field. by rewrite (list_lookup_lookup_total_lt l i) by by rewrite Hl. Qed.

(** The cached data of a file system. *)
Record info_ok (F : Z) (key : StatfsMountinfo) (i : StatfsInfo) : Prop := mkInfoOk {
  io_labels : forall l, infoLabels i = Some l -> l = fs_labels key;
  io_cycle : (0 <= cycleNum i < Z.max 1 F)%Z;
  io_buf : length (statfsBuf i) = 2
}.

(** The data after the mounts were scanned. *)
Definition seen (F scan : Z) (key : StatfsMountinfo) (o : option StatfsInfo) (i : StatfsInfo) : Prop :=
  infoScanNum i = scan /\
  match o with
  | Some i0 => i = mkInfo (statfsBuf i0) (infoLabels i0) (cycleNum i0) scan
  | None => statfsBuf i = [None; None] /\ info_ok F key i
  end.

Lemma scan_mounts_spec g scan lines : Forall line_ok lines -> forall found m icm,
  (0 <= icm)%Z ->
  exists m' icm', scan_mounts g scan lines found m icm = Ret (m', icm') /\ (0 <= icm')%Z /\
    forall key, (first_mount g found lines key -> exists i, m' !! key = Some i /\ seen (fullMetricsFactor g) scan key (m !! key) i) /\
                (~ first_mount g found lines key -> m' !! key = m !! key).
Proof.
  induction 1 as [|l lines Hl _ IH]; intros found m icm Hicm; cbn [scan_mounts].
  - exists m, icm. split; [done|]. split; [done|]. intros key. split; [|done]. intros Hf. by destruct (first_mount_nil _ _ _ Hf).
  - rewrite !(fs_field_ok l) by (done || unfold MOUNTINFO_FS_TYPE, MOUNTINFO_MOUNT_SOURCE, MOUNTINFO_MOUNT_POINT, Mountinfo.MOUNTINFO_NUM_FIELDS; lia).
    rewrite !bind_ret. fold (keeps g l) (source l). destruct (keeps g l) eqn:Ek; cbn [negb].
    2: { destruct (IH found m icm Hicm) as (m' & icm' & -> & Hi & Hk). exists m', icm'. split; [done|]. split; [done|].
         intros key. rewrite first_mount_skip by (by left). apply Hk. }
    destruct (decide (source l ∈ found)) as [Hin|Hin].
    { rewrite bool_decide_eq_true_2 by done. destruct (IH found m icm Hicm) as (m' & icm' & -> & Hi & Hk).
      exists m', icm'. split; [done|]. split; [done|]. intros key. rewrite first_mount_skip by (by right). apply Hk. }
    rewrite bool_decide_eq_false_2 by done. fold (line_key l).
    set (x := match m !! line_key l with Some i => (i, icm) | None => _ end).
    assert (exists i icm1, x = (i, icm1) /\ (0 <= icm1)%Z /\
      seen (fullMetricsFactor g) scan (line_key l) (m !! line_key l) (mkInfo (statfsBuf i) (infoLabels i) (cycleNum i) scan)) as (i & icm1 & -> & Hicm1 & Hseen).
    { subst x. destruct (m !! line_key l) as [i|]; [by exists i, icm|]. destruct (InitialCycleNum_Get _ icm) as [cn icm1] eqn:Eg.
      apply InitialCycleNum_range in Eg as [Hr Hi]; [|done]. eexists _, icm1. split; [done|]. split; [done|]. split; [done|]. by split. }
    destruct (IH ({[source l]} ∪ found) (<[line_key l := mkInfo (statfsBuf i) (infoLabels i) (cycleNum i) scan]> m) icm1 Hicm1) as (m' & icm' & -> & Hi & Hk).
    exists m', icm'. split; [done|]. split; [done|]. intros key. rewrite first_mount_new by done. destruct (Hk key) as [Hk1 Hk2].
    destruct (decide (key = line_key l)) as [->|Hne].
    + split; [intros _|tauto]. exists (mkInfo (statfsBuf i) (infoLabels i) (cycleNum i) scan). split; [|done].
      rewrite Hk2, lookup_insert_eq; [done|]. intros (l1 & y & l2 & _ & _ & Hkey & Hf & _). injection Hkey as Hs _ _. set_solver.
    + rewrite lookup_insert_ne in Hk1, Hk2 by done. split; [intros [?|?]; [done|by apply Hk1]|]. intros Hn. apply Hk2. tauto.
Qed.
(** The lines of a file system: a metric is written in a full generation, or
    when one of the values that it is made of changed. *)
Definition fs_lines (promTs labels : bytes) (full : bool) (c p : Statfs_t) : list bytes :=
  let d (f : Statfs_t -> Z) := full || negb (f c =? f p)%Z in
  let kb n := FormatUint (size_kb n (u64 (Bsize c))) in
  concat (map (fun '(b, name, val) => if b : bool then [line (name ++ labels) val promTs] else []) [
    (full, STATFS_BSIZE_METRIC, FormatUint (u64 (Bsize c)));
    (d Blocks, STATFS_BLOCKS_METRIC, FormatUint (Blocks c));
    (d Blocks, STATFS_TOTAL_SIZE_METRIC, kb (Blocks c));
    (d Bfree, STATFS_BFREE_METRIC, FormatUint (Bfree c));
    (d Bfree, STATFS_FREE_SIZE_METRIC, kb (Bfree c));
    (d Bavail, STATFS_BAVAIL_METRIC, FormatUint (Bavail c));
    (d Bavail, STATFS_AVAIL_SIZE_METRIC, kb (Bavail c));
    (d Blocks || d Bfree, STATFS_FREE_PCT_METRIC, FormatFloat 1 (pct (Bfree c) (Blocks c)));
    (d Blocks || d Bavail, STATFS_AVAIL_PCT_METRIC, FormatFloat 1 (pct (Bavail c) (Blocks c)));
    (d Files, STATFS_FILES_METRIC, FormatUint (Files c));
    (d Ffree, STATFS_FFREE_METRIC, FormatUint (Ffree c));
    (full, STATFS_PRESENCE_METRIC, bs "1")]).

Definition is_full (i : StatfsInfo) (c : Statfs_t) (prev : option Statfs_t) : bool :=
  match prev with
  | None => true
  | Some p => (cycleNum i =? 0)%Z || negb (u64 (Bsize c) =? u64 (Bsize p))%Z
  end.

Lemma fs_values_lines promTs labels i c prev :
  fs_values promTs labels (is_full i c prev) c prev = Ret (fs_lines promTs labels (is_full i c prev) c (default c prev)).
Proof.
  unfold fs_values, fs_lines. destruct (is_full i c prev) eqn:Ef; cbn [orb]; rewrite ?bind_ret; [done|].
  destruct prev as [p|]; [|done]. cbn [must default from_option]. rewrite ?bind_ret. unfold id.
  destruct (Blocks c =? Blocks p)%Z, (Bfree c =? Bfree p)%Z, (Bavail c =? Bavail p)%Z, (Files c =? Files p)%Z, (Ffree c =? Ffree p)%Z;
    cbn [negb]; rewrite ?bind_ret; reflexivity.
Qed.

(** What a generation does for a file system that it knows. *)
Definition fs_done (F : Z) (promTs : bytes) (ci : nat) (scan : Z) (key : StatfsMountinfo) (o o' : option StatfsInfo) (L : list bytes) : Prop :=
  exists i, o = Some i /\
  if (infoScanNum i =? scan)%Z
  then exists c, statfsBuf i !! ci = Some (Some c) /\
       L = fs_lines promTs (fs_labels key) (is_full i c (statfsBuf i !!! (1 - ci))) c (default c (statfsBuf i !!! (1 - ci))) /\
       o' = Some (mkInfo (statfsBuf i) (Some (fs_labels key)) (next_cycle F (cycleNum i)) scan)
  else L = [line (STATFS_PRESENCE_METRIC ++ fs_labels key) (bs "0") promTs] /\ o' = None.

(** A file system before a generation. *)
Definition ready (F : Z) (ci : nat) (scan : Z) (key : StatfsMountinfo) (i : StatfsInfo) : Prop :=
  info_ok F key i /\ (infoScanNum i = scan -> exists c, statfsBuf i !! ci = Some (Some c)).

Lemma gen_fs_spec F promTs ci scan key m i :
  ci < 2 -> m !! key = Some i -> ready F ci scan key i ->
  exists m' L, gen_fs F promTs ci scan key m = Ret (m', L) /\ fs_done F promTs ci scan key (m !! key) (m' !! key) L /\
    forall k, k <> key -> m' !! k = m !! k.
Proof.
  intros Hci Hi [[Hla Hcy Hb] Hc]. unfold gen_fs, fs_done. rewrite Hi. cbn [must]. rewrite bind_ret.
  assert (default (fs_labels key) (infoLabels i) = fs_labels key) as ->.
  { destruct (infoLabels i) as [l|] eqn:E; [by apply Hla|done]. }
  destruct (infoScanNum i =? scan)%Z eqn:Es; cbn [negb].
  - apply Z.eqb_eq in Es. destruct (Hc Es) as [c Hcc]. rewrite Hcc. cbn [must]. rewrite bind_ret.
    rewrite (list_lookup_lookup_total_lt _ (1 - ci)) by lia. cbn [must]. rewrite !bind_ret.
    fold (is_full i c (statfsBuf i !!! (1 - ci))). rewrite fs_values_lines, bind_ret. eexists _, _. split; [reflexivity|].
    rewrite lookup_insert_eq. split; [|intros k Hne; by apply lookup_insert_ne]. exists i. split; [done|].
    rewrite (proj2 (Z.eqb_eq _ _) Es). exists c. by rewrite Es.
  - eexists _, _. split; [reflexivity|]. rewrite lookup_delete_eq. split; [|intros k Hne; by apply lookup_delete_ne].
    exists i. split; [done|]. by rewrite Es.
Qed.

(** A generation over all file systems. *)
Lemma gen_all_spec F promTs ci scan order m :
  is_order order -> ci < 2 -> map_Forall (ready F ci scan) m ->
  exists m' Ls, for_keys (gen_fs F promTs ci scan) (order m) m = Ret (m', concat Ls) /\
    Forall2 (fun key L => fs_done F promTs ci scan key (m !! key) (m' !! key) L) (order m) Ls /\
    forall key, m !! key = None -> m' !! key = None.
Proof.
  intros Ho Hci Hm. destruct (Ho m) as [Hnd Hin].
  destruct (for_keys_spec_at (gen_fs F promTs ci scan) id (fun _ => True) (fs_done F promTs ci scan) (order m) m)
    as (m' & Ls & Hr & _ & HQ & Hrest); [|done|done|].
  - intros m1 key _ Hk He. apply Hin in Hk as [i Hi]. unfold id in *. rewrite Hi in He.
    destruct (gen_fs_spec F promTs ci scan key m1 i Hci He (Hm key i Hi)) as (m' & L & H1 & H2 & H3). by exists m', L.
  - exists m', Ls. split; [done|]. split; [done|]. intros key Hn. unfold id in Hrest. rewrite Hrest; [done|].
    intros Hk%Hin. rewrite Hn in Hk. by destruct Hk.
Qed.
(** *** The state between executions *)

Record gen_ok (g : StatfsMetrics) : Prop := mkGenOk {
  go_F : (fullMetricsFactor g <= MaxInt64)%Z;
  go_ts : length (statfsTs g) = 2;
  go_ci : currIndex g < 2;
  go_scan : (MinInt64 <= scanNum g <= MaxInt64)%Z;
  go_info : map_Forall (fun key i => info_ok (fullMetricsFactor g) key i /\ infoScanNum i = scanNum g) (statfsInfo g);
  go_interval : forall m, intervalMetric g = Some m -> m = interval_metric
}.

(** The file systems that an execution asks for: the first mounts when the
    mounts changed, else those it knows. *)
Definition selected (g : StatfsMetrics) (mi : Mountinfo.Mountinfo) (key : StatfsMountinfo) : Prop :=
  if bool_decide (procMountinfo g = None) || Mountinfo.Changed mi
  then first_mount g ∅ (Mountinfo.ParsedLines mi) key else is_Some (statfsInfo g !! key).

Definition old_buf (g : StatfsMetrics) (key : StatfsMountinfo) : list (option Statfs_t) :=
  match statfsInfo g !! key with Some i => statfsBuf i | None => [None; None] end.

(** The data after the scan and the system calls. *)
Record scanned (g : StatfsMetrics) (mi : Mountinfo.Mountinfo) (statfs : bytes -> option Statfs_t) (scan : Z)
    (m : gmap StatfsMountinfo StatfsInfo) : Prop := mkScanned {
  sd_ready : map_Forall (ready (fullMetricsFactor g) (currIndex g) scan) m;
  sd_dom : forall key, is_Some (m !! key) <-> selected g mi key \/ is_Some (statfsInfo g !! key);
  sd_now : forall key i, m !! key = Some i -> infoScanNum i = scan <-> selected g mi key /\ is_Some (statfs (mountPoint key));
  sd_buf : forall key i c, m !! key = Some i -> infoScanNum i = scan -> statfs (mountPoint key) = Some c ->
    statfsBuf i = <[currIndex g := Some c]> (old_buf g key) /\
    forall i0, statfsInfo g !! key = Some i0 -> cycleNum i = cycleNum i0
}.

Lemma i64_pred_ne n : (MinInt64 <= n <= MaxInt64)%Z -> i64 (n - 1) <> n.
Proof.
  intros Hn E. destruct (decide (n = MinInt64)) as [->|Hne]; [by vm_compute in E|].
  rewrite i64_small in E by lia. lia.
Qed.

Lemma statfs_stat_one g statfs changed scan key i0 o :
  gen_ok g -> (MinInt64 <= scan <= MaxInt64)%Z -> info_ok (fullMetricsFactor g) key i0 ->
  (if changed : bool then infoScanNum i0 = scan <-> o else o) ->
  let i := stat_fs statfs changed (currIndex g) scan key i0 in
  ready (fullMetricsFactor g) (currIndex g) scan key i /\ (infoScanNum i = scan <-> o /\ is_Some (statfs (mountPoint key))) /\
  (infoScanNum i = scan -> forall c, statfs (mountPoint key) = Some c ->
     statfsBuf i = <[currIndex g := Some c]> (statfsBuf i0) /\ cycleNum i = cycleNum i0).
Proof.
  intros [_ _ Hci _ _ _] Hscan [Hl Hc Hb] Ho i. subst i. unfold stat_fs.
  destruct (changed && negb (infoScanNum i0 =? scan)%Z) eqn:E.
  - apply andb_true_iff in E as [-> E%negb_true_iff%Z.eqb_neq]. split; [split; [by split|done]|]. split; [tauto|done].
  - assert o as Hyes.
    { destruct changed; [|done]. cbn [andb] in E. apply negb_false_iff, Z.eqb_eq in E. tauto. }
    destruct (statfs (mountPoint key)) as [c|]; cbn [infoScanNum statfsBuf cycleNum].
    + split; [split; [split; [done|done|by cbn [statfsBuf]; rewrite length_insert]|]|]; [|split; [split; [by eauto|done]|intros _ c' [= <-]; done]].
      intros _. exists c. cbn [statfsBuf]. apply list_lookup_insert_eq. lia.
    + pose proof (i64_pred_ne scan Hscan) as Hp. split; [split; [by split|done]|]. split; [|done]. split; [done|]. by intros [_ [? ?]].
Qed.
(** The data after the scan of the mounts, before the system calls. *)
Record listed (g : StatfsMetrics) (mi : Mountinfo.Mountinfo) (changed : bool) (scan : Z) (m : gmap StatfsMountinfo StatfsInfo) : Prop := mkListed {
  ls_dom : forall key, is_Some (m !! key) <-> selected g mi key \/ is_Some (statfsInfo g !! key);
  ls_info : forall key i, m !! key = Some i ->
    info_ok (fullMetricsFactor g) key i /\ (if changed then infoScanNum i = scan <-> selected g mi key else selected g mi key) /\
    statfsBuf i = old_buf g key /\ forall i0, statfsInfo g !! key = Some i0 -> cycleNum i = cycleNum i0
}.

Lemma statfs_listed g mi icm :
  gen_ok g -> (0 <= icm)%Z -> Forall line_ok (Mountinfo.ParsedLines mi) ->
  let scan := i64 (scanNum g + 1) in
  let changed := bool_decide (procMountinfo g = None) || Mountinfo.Changed mi in
  exists m icm', (if changed then scan_mounts g scan (Mountinfo.ParsedLines mi) ∅ (statfsInfo g) icm else Ret (statfsInfo g, icm)) = Ret (m, icm') /\
    (0 <= icm')%Z /\ listed g mi changed scan m.
Proof.
  intros [HF _ _ Hs Hi _] Hicm Hl scan changed. pose proof (i64_succ_ne _ Hs) as Hne. fold scan in Hne.
  destruct changed eqn:Ech.
  - destruct (scan_mounts_spec g scan (Mountinfo.ParsedLines mi) Hl ∅ (statfsInfo g) icm Hicm) as (m & icm' & Hm & Hicm' & Hk).
    exists m, icm'. split; [done|]. split; [done|].
    assert (forall key, first_mount g ∅ (Mountinfo.ParsedLines mi) key \/ ~ first_mount g ∅ (Mountinfo.ParsedLines mi) key) as Hdec.
    { clear Hm Hk Hl. intros key. generalize (∅ : gset bytes). induction (Mountinfo.ParsedLines mi) as [|l ls IH]; intros found.
      - right. apply first_mount_nil.
      - destruct (keeps g l) eqn:Ek; [|rewrite first_mount_skip by (by left); apply IH].
        destruct (decide (source l ∈ found)) as [Hin|Hin]; [rewrite first_mount_skip by (by right); apply IH|].
        rewrite first_mount_new by done. destruct (decide (key = line_key l)), (IH ({[source l]} ∪ found)); tauto. }
    split.
    + intros key. unfold selected. fold changed. rewrite Ech. destruct (Hk key) as [H1 H2].
      destruct (Hdec key) as [Hf|Hf]; [destruct (H1 Hf) as (i & -> & _); split; [by left|by eexists]|]. rewrite (H2 Hf). tauto.
    + intros key i Hki. unfold selected, old_buf. fold changed. rewrite Ech. destruct (Hk key) as [H1 H2].
      destruct (Hdec key) as [Hf|Hf].
      * destruct (H1 Hf) as (i' & Hi' & Hsn & Hseen). rewrite Hki in Hi'. injection Hi' as <-.
        destruct (statfsInfo g !! key) as [i0|] eqn:E0.
        -- destruct (Hi key i0 E0) as [[Ha Hb Hc] _]. subst i. split; [by split|]. split; [tauto|]. split; [done|]. intros ? [= <-]. done.
        -- destruct Hseen as [Hb Hok]. split; [done|]. split; [tauto|]. done.
      * rewrite (H2 Hf) in Hki. rewrite Hki. destruct (Hi key i Hki) as [Hok Hsn]. split; [done|]. split; [|split; [done|naive_solver]].
        split; [|done]. intros E. congruence.
  - exists (statfsInfo g), icm. split; [done|]. split; [done|]. split.
    + intros key. unfold selected. fold changed. rewrite Ech. tauto.
    + intros key i Hki. unfold selected, old_buf. fold changed. rewrite Ech, Hki. destruct (Hi key i Hki) as [Hok Hsn].
      split; [done|]. split; [by eexists|]. split; [done|naive_solver].
Qed.

Lemma statfs_scanned g mi statfs changed scan m :
  gen_ok g -> (MinInt64 <= scan <= MaxInt64)%Z -> listed g mi changed scan m ->
  scanned g mi statfs scan (map_imap (fun key info => Some (stat_fs statfs changed (currIndex g) scan key info)) m).
Proof.
  intros Hg Hscan [Hd Hi]. set (m' := map_imap _ m).
  assert (forall key, m' !! key = stat_fs statfs changed (currIndex g) scan key <$> m !! key) as Hm'.
  { intros key. subst m'. rewrite map_lookup_imap. by destruct (m !! key). }
  assert (forall key i, m' !! key = Some i -> exists i0, m !! key = Some i0 /\ i = stat_fs statfs changed (currIndex g) scan key i0) as Hinv.
  { intros key i. rewrite Hm'. by intros (i0 & H0 & ->)%fmap_Some; exists i0. }
  pose proof (fun key i0 (H0 : m !! key = Some i0) =>
    let '(conj Hok (conj Ho (conj Hb Hcy))) := Hi key i0 H0 in
    conj (statfs_stat_one g statfs changed scan key i0 (selected g mi key) Hg Hscan Hok Ho) (conj Hb Hcy)) as Hone.
  split.
  - intros key i (i0 & H0 & ->)%Hinv. by apply (Hone key i0 H0).
  - intros key. rewrite Hm', fmap_is_Some. apply Hd.
  - intros key i (i0 & H0 & ->)%Hinv. by apply (Hone key i0 H0).
  - intros key i c (i0 & H0 & ->)%Hinv Hs Hc. destruct (Hone key i0 H0) as ((_ & _ & Hbuf) & Hb & Hcy).
    destruct (Hbuf Hs c Hc) as [Hbb Hcc]. rewrite <- Hb. split; [done|]. intros i1 H1. rewrite Hcc. by apply Hcy.
Qed.
(** A line of one of the parts is in the whole, and a part is contiguous. *)
Lemma part_of_concat {A} (Ls : list (list A)) n L tl :
  Ls !! n = Some L -> exists pre post, concat Ls ++ tl = pre ++ L ++ post.
Proof.
  intros HL. rewrite <- (take_drop_middle Ls n L HL). exists (concat (take n Ls)), (concat (drop (S n) Ls) ++ tl).
  rewrite concat_app. cbn [concat]. by rewrite <- !app_assoc.
Qed.

(** What the generation leaves of the data. *)
Lemma statfs_kept (g : StatfsMetrics) (mi : Mountinfo.Mountinfo) (statfs : bytes -> option Statfs_t) (scan : Z)
    (m m' : gmap StatfsMountinfo StatfsInfo) (promTs : bytes)
    (order : gmap StatfsMountinfo StatfsInfo -> list StatfsMountinfo) (Ls : list (list bytes)) :
  gen_ok g -> is_order order -> scanned g mi statfs scan m ->
  Forall2 (fun key L => fs_done (fullMetricsFactor g) promTs (currIndex g) scan key (m !! key) (m' !! key) L) (order m) Ls ->
  (forall key, m !! key = None -> m' !! key = None) ->
  (forall key, is_Some (m' !! key) <-> selected g mi key /\ is_Some (statfs (mountPoint key))) /\
  map_Forall (fun key i => info_ok (fullMetricsFactor g) key i /\ infoScanNum i = scan) m'.
Proof.
  intros [HF _ _ _ _ _] Ho [Hr Hd Hn _] HQ Hnone. destruct (Ho m) as [_ Hin].
  assert (forall key i, m !! key = Some i -> exists L, fs_done (fullMetricsFactor g) promTs (currIndex g) scan key (m !! key) (m' !! key) L) as Hdone.
  { intros key i Hi. assert (key ∈ order m) as [n Hk]%list_elem_of_lookup by (apply Hin; by exists i).
    destruct (Forall2_lookup_l _ _ _ _ _ HQ Hk) as (L & _ & HL). by exists L. }
  split.
  - intros key. destruct (m !! key) as [i|] eqn:Ei.
    + destruct (Hdone key i Ei) as (L & i' & Hi' & Hd'). rewrite Ei in Hi'. injection Hi' as <-. rewrite <- (Hn key i Ei).
      destruct (infoScanNum i =? scan)%Z eqn:Es.
      * destruct Hd' as (c & _ & _ & ->). apply Z.eqb_eq in Es. split; [done|by eexists].
      * destruct Hd' as [_ ->]. apply Z.eqb_neq in Es. split; [by intros [? ?]|done].
    + rewrite (Hnone key Ei). split; [by intros [? ?]|]. intros [Hs _].
      assert (is_Some (m !! key)) as [i Hi] by (apply Hd; by left). congruence.
  - intros key i Hi. destruct (m !! key) as [i0|] eqn:Ei; [|rewrite (Hnone key Ei) in Hi; done].
    destruct (Hdone key i0 Ei) as (L & i' & Hi' & Hd'). rewrite Ei in Hi'. injection Hi' as <-.
    destruct (infoScanNum i0 =? scan)%Z eqn:Es; [|by destruct Hd' as [_ E]; rewrite E in Hi].
    destruct Hd' as (c & _ & _ & E). rewrite E in Hi. injection Hi as <-. destruct (Hr key i0 Ei) as [[Hl Hc Hb] _].
    split; [|done]. split; cbn [infoLabels cycleNum statfsBuf]; [by intros l [= <-]| |done].
    rewrite next_cycle_mod by done. apply Z.mod_pos_bound. lia.
Qed.

(** The previous values of a file system, and whether it is written in full. *)
Definition prev_of (g : StatfsMetrics) (key : StatfsMountinfo) : option Statfs_t := old_buf g key !!! (1 - currIndex g).
Definition full_of (g : StatfsMetrics) (key : StatfsMountinfo) (c : Statfs_t) : bool :=
  match statfsInfo g !! key with Some i => is_full i c (prev_of g key) | None => true end.

(** The lines written for a file system that is kept, and for one that is not. *)
Lemma statfs_written (g : StatfsMetrics) (mi : Mountinfo.Mountinfo) (statfs : bytes -> option Statfs_t) (scan : Z)
    (m m' : gmap StatfsMountinfo StatfsInfo) (promTs : bytes)
    (order : gmap StatfsMountinfo StatfsInfo -> list StatfsMountinfo) (Ls : list (list bytes)) (tl : list bytes) :
  gen_ok g -> is_order order -> scanned g mi statfs scan m ->
  Forall2 (fun key L => fs_done (fullMetricsFactor g) promTs (currIndex g) scan key (m !! key) (m' !! key) L) (order m) Ls ->
  (forall key c, selected g mi key -> statfs (mountPoint key) = Some c -> exists pre post,
     concat Ls ++ tl = pre ++ fs_lines promTs (fs_labels key) (full_of g key c) c (default c (prev_of g key)) ++ post) /\
  (forall key, selected g mi key \/ is_Some (statfsInfo g !! key) -> m' !! key = None ->
     line (STATFS_PRESENCE_METRIC ++ fs_labels key) (bs "0") promTs ∈ concat Ls ++ tl).
Proof.
  intros [_ _ Hci _ Hi _] Ho [_ Hdom Hnow Hbuf] HQ. destruct (Ho m) as [_ Hin].
  assert (forall key i, m !! key = Some i -> exists n L, Ls !! n = Some L /\
    fs_done (fullMetricsFactor g) promTs (currIndex g) scan key (Some i) (m' !! key) L) as Hdone.
  { intros key i Hki. assert (key ∈ order m) as [n Hn]%list_elem_of_lookup by (apply Hin; by exists i).
    destruct (Forall2_lookup_l _ _ _ _ _ HQ Hn) as (L & HL & Hd). rewrite Hki in Hd. by exists n, L. }
  split.
  - intros key c Hsel Hc. destruct (proj2 (Hdom key) (or_introl Hsel)) as [i Hki].
    destruct (Hdone key i Hki) as (n & L & HL & i' & [= <-] & Hd).
    pose proof (proj2 (Hnow key i Hki) (conj Hsel (ex_intro _ c Hc))) as Hsn. rewrite (proj2 (Z.eqb_eq _ _) Hsn) in Hd.
    destruct Hd as (c' & Hc' & -> & _). destruct (Hbuf key i c Hki Hsn Hc) as [Hb Hcy]. rewrite Hb in Hc', HL.
    rewrite list_lookup_insert_eq in Hc' by (unfold old_buf; destruct (statfsInfo g !! key) as [i0|] eqn:E0;
      [rewrite (io_buf _ _ _ (proj1 (Hi key i0 E0))); lia|cbn; lia]). injection Hc' as <-.
    rewrite list_lookup_total_insert_ne in HL by lia. fold (prev_of g key) in HL.
    destruct (part_of_concat Ls n _ tl HL) as (pre & post & Hpp). exists pre, post. rewrite Hpp. do 3 f_equal.
    unfold full_of, is_full, prev_of, old_buf. destruct (statfsInfo g !! key) as [i0|]; [by rewrite (Hcy i0 eq_refl)|].
    by destruct (currIndex g) as [|[|?]]; [| |lia].
  - intros key Hk Hn. apply Hdom in Hk as [i Hki]. destruct (Hdone key i Hki) as (n & L & HL & i' & [= <-] & Hd).
    destruct (infoScanNum i =? scan)%Z; [destruct Hd as (? & _ & _ & E); congruence|]. destruct Hd as [-> _].
    destruct (part_of_concat Ls n _ tl HL) as (pre & post & ->). set_solver.
Qed.

Context (order : gmap StatfsMountinfo StatfsInfo -> list StatfsMountinfo).
Hypothesis order_ok : is_order order.

(** C35: an execution in which the mounts are read does not panic.  The file
    systems it knows afterwards are exactly those it selected (the first mount
    of every source of a type that the filters keep when the mounts changed,
    else those it knew) for which the system call succeeded; for each of them
    its buffer has the values, or those that changed since the previous
    execution; every other file system that it knew or selected is reported
    absent; and the state is in order for the next execution. *)
Theorem statfs_tracks_mounts rd statfs now g icm mgs mi :
  gen_ok g -> (0 <= icm)%Z -> gen_wf mgs ->
  (let mi0 := default (Mountinfo.NewMountinfo mountinfoPath) (procMountinfo g) in
   if bool_decide (procMountinfo g = None) || (mountinfoCycleNum g =? 0)%Z then Mountinfo.Parse rd mi0 else Ret (mi0, None)) = Ret (mi, None) ->
  Forall line_ok (Mountinfo.ParsedLines mi) ->
  let promTs := ts_suffix now in
  exists g' icm' mgs' lines,
    Execute rd statfs now order g icm mgs = Ret (g', icm', mgs', Some (concat lines), true) /\
    gen_ok g' /\ currIndex g' = 1 - currIndex g /\ procMountinfo g' = Some mi /\
    (forall key, is_Some (statfsInfo g' !! key) <-> selected g mi key /\ is_Some (statfs (mountPoint key))) /\
    (forall key c, is_Some (statfsInfo g' !! key) -> statfs (mountPoint key) = Some c -> exists pre post,
       lines = pre ++ fs_lines promTs (fs_labels key) (full_of g key c) c (default c (prev_of g key)) ++ post) /\
    (forall key, selected g mi key \/ is_Some (statfsInfo g !! key) -> statfsInfo g' !! key = None ->
       line (STATFS_PRESENCE_METRIC ++ fs_labels key) (bs "0") promTs ∈ lines).
Proof.
  intros Hg Hicm Hw Hparse Hl promTs. pose proof Hg as [HF Hts Hci Hs Hi Him].
  destruct (statfs_listed g mi icm Hg Hicm Hl) as (m & icm' & Hscan & _ & Hlisted).
  set (scan := i64 (scanNum g + 1)) in *. assert (MinInt64 <= scan <= MaxInt64)%Z as Hsr by apply i64_range.
  apply (statfs_scanned g mi statfs _ scan m Hg Hsr) in Hlisted as Hsc.
  set (m1 := map_imap _ m) in Hsc. pose proof (sd_ready _ _ _ _ _ Hsc) as Hready.
  destruct (gen_all_spec (fullMetricsFactor g) promTs (currIndex g) scan order m1 order_ok Hci Hready) as (m2 & Ls & Hgen & HQ & Hnone).
  destruct (statfs_kept g mi statfs scan m1 m2 promTs order Ls Hg order_ok Hsc HQ Hnone) as [Hkept Hinfo].
  unfold Execute. cbv zeta in Hparse |- *. rewrite Hparse, bind_ret. fold scan. rewrite Hscan, bind_ret. fold m1.
  rewrite store_Ret by lia. rewrite bind_ret. unfold generateMetrics. cbn [currIndex statfsTs fullMetricsFactor scanNum statfsInfo firstTime].
  rewrite list_lookup_insert_eq, list_lookup_insert_ne by lia. destruct (lookup_lt_is_Some_2 (statfsTs g) (1 - currIndex g)) as [prevTs ->]; [lia|]. cbn [must].
  rewrite !bind_ret. fold promTs. rewrite Hgen, bind_ret.
  match goal with |- context [let '(im, interval) := ?x in _] => set (y := x); destruct y as [im interval] eqn:Ey end.
  assert (forall l, im = Some l -> l = interval_metric) as Him'.
  { subst y. destruct (bool_decide (procMountinfo g = None)); injection Ey as <- _; [done|]. cbn [intervalMetric].
    intros l [= <-]. destruct (intervalMetric g) eqn:E; [by apply Him|done]. }
  rewrite !bind_ret. rewrite Update_spec by done. rewrite bind_ret. eexists _, icm', _, (concat Ls ++ interval). split; [reflexivity|].
  cbn [statfsInfo currIndex procMountinfo]. split; [split; cbn [fullMetricsFactor statfsTs currIndex scanNum statfsInfo intervalMetric];
    [done|by rewrite length_insert|lia|done|done|done]|]. split; [done|]. split; [done|]. split; [done|]. clear Ey y.
  destruct (statfs_written g mi statfs scan m1 m2 promTs order Ls interval Hg order_ok Hsc HQ) as [Hval Hgone].
  split; [|done]. intros key c Hk Hc. apply Hval; [by apply Hkept|done].
Qed.
End generator.
(** ** Samples *)

(** Two mounts of one source, and one of a type that is excluded. *)
Definition sample_lines : bytes :=
  bs "1 0 8:1 / / rw - ext4 /dev/sda1 rw" ++ [NL] ++
  bs "2 1 8:1 /home /home rw - ext4 /dev/sda1 rw" ++ [NL] ++
  bs "3 1 0:5 / /proc rw - proc proc rw" ++ [NL].
Definition sample_gen : StatfsMetrics := (NewStatfsMetrics 12 [] [bs "proc"] 0).1.
Definition sample_mi : Mountinfo.Mountinfo :=
  match Mountinfo.Parse (ReadOk sample_lines) (Mountinfo.NewMountinfo (bs "/proc/self/mountinfo")) with
  | Ret (mi, _) => mi
  | _ => Mountinfo.NewMountinfo []
  end.
Definition sample_statfs (mp : bytes) : option Statfs_t := Some (mkStatfs 4096 1000 500 250 10 5).
Definition sample_key : StatfsMountinfo := (bs "/dev/sda1", bs "ext4", bs "/").

Lemma statfs_tracks_mounts_witness :
  exists g' icm' mgs' buf, Execute (bs "i") (bs "h") (bs "/proc/self/mountinfo") (ReadOk sample_lines) sample_statfs (mkTime 0 None) some_order
      sample_gen 0 ∅ = Ret (g', icm', mgs', Some buf, true) /\ is_Some (statfsInfo g' !! sample_key).
Proof.
  destruct (statfs_tracks_mounts (bs "i") (bs "h") (bs "/proc/self/mountinfo") some_order some_order_ok (ReadOk sample_lines) sample_statfs
    (mkTime 0 None) sample_gen 0 ∅ sample_mi) as (g' & icm' & mgs' & lines & He & _ & _ & _ & Hk & _).
  - split; [vm_compute; discriminate|done|vm_compute; lia|vm_compute; split; discriminate|apply map_Forall_empty|done].
  - lia.
  - apply gen_wf_empty.
  - vm_compute. reflexivity.
  - apply (bool_decide_unpack _). vm_compute. exact I.
  - exists g', icm', mgs', (concat lines). split; [exact He|]. apply Hk. split; [|by eexists].
    exists [], (nth 0 (Mountinfo.ParsedLines sample_mi) []), (tail (Mountinfo.ParsedLines sample_mi)).
    split; [vm_compute; reflexivity|]. split; [vm_compute; reflexivity|]. split; [vm_compute; reflexivity|]. split; [apply not_elem_of_empty|constructor].
Defined.
(** A file system without blocks, such as proc, has percentages that are not
    numbers. *)
Example statfs_no_blocks : FormatFloat STATFS_FREE_PCT_METRIC_PREC (pct 0 0) = bs "NaN".
Proof. vm_compute. reflexivity. Qed.

(** A mount point for which the system call fails is selected again and
    reported absent again by every execution until the mounts are read again
    without a change. *)
Definition exec_failing (g : StatfsMetrics) (icm : Z) : outcome (StatfsMetrics * Z * option bytes) :=
  '(g, icm, _, buf, _) ← Execute (bs "i") (bs "h") (bs "/proc/self/mountinfo") (ReadOk sample_lines) (fun _ => None) (mkTime 0 None)
                           some_order g icm ∅;
  Ret (g, icm, buf).
Example statfs_not_disabled :
  let absent := line (STATFS_PRESENCE_METRIC ++ fs_labels (bs "i") (bs "h") sample_key) (bs "0") (ts_suffix (mkTime 0 None)) in
  ('(g, icm, buf1) ← exec_failing sample_gen 0%Z;
   '(_, _, buf2) ← exec_failing g icm;
   Ret (buf1, option_map (take (length absent)) buf2)) = Ret (Some absent, Some absent).
Proof. vm_compute. reflexivity. Qed.
End StatfsMetrics.
