(* ===== verification/Qdisc.v ===== *)
(** The queueing discipline statistics (src/qdisc/qdisc_parser.go,
    qdisc_parser_linux.go): messages of the routing socket decoded into
    counters by interface and handle, the cache of interface names that the two
    objects of a generator share, pruning by scan number.

    The netlink package is third-party code: what it does in a parse is an
    argument (whether the connection is made, the messages received), as are its
    decoders.  Data of attributes has no capacity beyond its length, so that a
    slice out of range is a panic. *)

From Stdlib Require Import ZArith Lia.
From stdpp Require Import base tactics numbers strings gmap list.
From S2P Require Import Prelude Scan GoTime.

Module Qdisc.

Definition QDISC_PARENT : nat := 0.
Definition QDISC_HANDLE : nat := 1.
Definition QDISC_PACKETS : nat := 2.
Definition QDISC_DROPS : nat := 3.
Definition QDISC_REQUEUES : nat := 4.
Definition QDISC_OVERLIMITS : nat := 5.
Definition QDISC_QLEN : nat := 6.
Definition QDISC_BACKLOG : nat := 7.
Definition QDISK_UINT32_NUM_STATS : nat := 8.
Definition QDISC_BYTES : nat := 0.
Definition QDISC_GCFLOWS : nat := 1.
Definition QDISC_THROTTLED : nat := 2.
Definition QDISC_FLOWSPLIMIT : nat := 3.
Definition QDISK_UINT64_NUM_STATS : nat := 4.
Definition QDISC_IF_INDEX_TO_NAME_CACHE_REFRESH_INTERVAL : Z := 60 * Second.

(** Interface index and handle. *)
Abbreviation QdiscInfoKey := (Z * Z)%type.

Record QdiscInfo := mkInfo { IfName : bytes; Kind : bytes; Uint32 : list Z; Uint64 : list Z; info_scanNum : Z }.
Abbreviation infomap := (gmap QdiscInfoKey QdiscInfo).

(** What the objects of a generator share. *)
Record QdiscStatsShared := mkShared {
  scanNum : Z;
  ifIndexToNameCache : gmap Z bytes;
  ifIndexToNameCacheLastRefresh : Time;
  connected : bool
}.

Definition NewQdiscStats : infomap * QdiscStatsShared := (∅, mkShared 0 ∅ zeroTime false).

Definition zero32 : list Z := replicate QDISK_UINT32_NUM_STATS 0%Z.
Definition zero64 : list Z := replicate QDISK_UINT64_NUM_STATS 0%Z.
Definition Clone (info : infomap) : infomap := (fun qi => mkInfo (IfName qi) (Kind qi) zero32 zero64 (info_scanNum qi)) <$> info.

(** [fmt.Sprintf("%04x:%04x", major, minor)]. *)
Definition hex_digit (n : Z) : byte := nth (Z.to_nat (n mod 16)) (bs "0123456789abcdef") NL.
Definition hex4 (n : Z) : bytes := map (fun k => hex_digit (Z.shiftr n k)) [12; 8; 4; 0]%Z.
Definition QdiscMajMin (n : Z) : bytes := hex4 (Z.shiftr n 16) ++ bs ":" ++ hex4 (Z.land n 65535).

Definition TCA_KIND : Z := 1.
Definition TCA_STATS : Z := 3.
Definition TCA_STATS2 : Z := 7.
Definition TCA_STATS_BASIC : Z := 1.
Definition TCA_STATS_QUEUE : Z := 3.

Inductive error := ErrDial | ErrOption | ErrRequest | ErrInterfaces | ErrShort (len : nat) | ErrAttributes | ErrNested.

(** What the environment does during a parse. *)
Record env := mkEnv {
  e_dial : bool;
  e_option : bool;
  e_execute : option (list bytes);
  e_interfaces : option (list (Z * bytes));
  e_now : Time
}.

Section parser.
(** [nlenc.Uint32], [nlenc.Uint64], [nlenc.String], [netlink.UnmarshalAttributes]. *)
Context (nl_uint32 nl_uint64 : bytes -> Z) (nl_string : bytes -> bytes) (UnmarshalAttributes : bytes -> option (list (Z * bytes))).

(** [data[lo:hi]]. *)
Definition slice_of (data : bytes) (lo hi : nat) : outcome bytes :=
  if hi <=? length data then Ret (take (hi - lo) (drop lo data)) else Panic.
Definition put32 (data : bytes) (lo : nat) (i : nat) (qi : QdiscInfo) : outcome QdiscInfo :=
  d ← slice_of data lo (lo + 4); l ← store (Uint32 qi) i (nl_uint32 d); Ret (mkInfo (IfName qi) (Kind qi) l (Uint64 qi) (info_scanNum qi)).
Definition put64 (data : bytes) (lo : nat) (i : nat) (qi : QdiscInfo) : outcome QdiscInfo :=
  d ← slice_of data lo (lo + 8); l ← store (Uint64 qi) i (nl_uint64 d); Ret (mkInfo (IfName qi) (Kind qi) (Uint32 qi) l (info_scanNum qi)).

Definition parseTCAStats (data : bytes) (qi : QdiscInfo) : outcome QdiscInfo :=
  qi ← put64 data 0 QDISC_BYTES qi;
  qi ← put32 data 8 QDISC_PACKETS qi;
  qi ← put32 data 12 QDISC_DROPS qi;
  qi ← put32 data 16 QDISC_OVERLIMITS qi;
  qi ← put32 data 28 QDISC_QLEN qi;
  put32 data 32 QDISC_BACKLOG qi.

(** The loop over the nested attributes. *)
Fixpoint nested_loop (attrs : list (Z * bytes)) (qi : QdiscInfo) : outcome QdiscInfo :=
  match attrs with
  | [] => Ret qi
  | (ty, data) :: attrs =>
    qi ← (if (ty =? TCA_STATS_BASIC)%Z then
            qi ← put64 data 0 QDISC_BYTES qi;
            put32 data 8 QDISC_PACKETS qi
          else if (ty =? TCA_STATS_QUEUE)%Z then
            qi ← put32 data 0 QDISC_QLEN qi;
            qi ← put32 data 4 QDISC_BACKLOG qi;
            qi ← put32 data 8 QDISC_DROPS qi;
            qi ← put32 data 12 QDISC_REQUEUES qi;
            put32 data 16 QDISC_OVERLIMITS qi
          else Ret qi);
    nested_loop attrs qi
  end.

Definition parseTCAStats2 (data : bytes) (qi : QdiscInfo) : outcome (QdiscInfo * option error) :=
  match UnmarshalAttributes data with
  | None => Ret (qi, Some ErrNested)
  | Some nested => qi ← nested_loop nested qi; Ret (qi, None)
  end.

(** The loop over the attributes of a message. *)
Fixpoint attr_loop (attrs : list (Z * bytes)) (qi : QdiscInfo) : outcome (QdiscInfo * option error) :=
  match attrs with
  | [] => Ret (qi, None)
  | (ty, data) :: attrs =>
    '(qi, err) ← (if (ty =? TCA_KIND)%Z then Ret (mkInfo (IfName qi) (nl_string data) (Uint32 qi) (Uint64 qi) (info_scanNum qi), None)
                  else if (ty =? TCA_STATS2)%Z then parseTCAStats2 data qi
                  else if (ty =? TCA_STATS)%Z then qi ← parseTCAStats data qi; Ret (qi, None)
                  else Ret (qi, None));
    match err with Some e => Ret (qi, Some e) | None => attr_loop attrs qi end
  end.

(** [ifIndexToNameCacheRefresh]. *)
Definition cache_refresh (e : env) (sh : QdiscStatsShared) : option QdiscStatsShared :=
  ifas ← e_interfaces e;
  Some (mkShared (scanNum sh) (foldl (fun m ifa => <[u32 ifa.1 := ifa.2]> m) (ifIndexToNameCache sh) ifas) (e_now e) (connected sh)).

Definition cached_name (sh : QdiscStatsShared) (ifIndex : Z) : bytes := default [] (ifIndexToNameCache sh !! ifIndex).

(** The information of a message's discipline, found or created.  The name of a
    new one is looked up before the cache is refreshed, not after. *)
Definition find_info (e : env) (refreshed : bool) (key : QdiscInfoKey) (info : infomap) (sh : QdiscStatsShared)
    : QdiscStatsShared * (error + QdiscInfo) :=
  match info !! key with
  | None =>
    let ifName := cached_name sh key.1 in
    let new := mkInfo ifName [] zero32 zero64 0 in
    if bool_decide (ifName = []) && negb refreshed
    then match cache_refresh e sh with None => (sh, inl ErrInterfaces) | Some sh => (sh, inr new) end
    else (sh, inr new)
  | Some qi =>
    (sh, inr (if refreshed then mkInfo (cached_name sh key.1) (Kind qi) (Uint32 qi) (Uint64 qi) (info_scanNum qi) else qi))
  end.

Definition msg_key (data : bytes) : outcome QdiscInfoKey :=
  i ← slice_of data 4 8; h ← slice_of data 8 12; Ret (nl_uint32 i, nl_uint32 h).

(** One message. *)
Definition parse_msg (e : env) (refreshed : bool) (scan : Z) (data : bytes) (info : infomap) (sh : QdiscStatsShared)
    : outcome (infomap * QdiscStatsShared * option error) :=
  if length data <? 20 then Ret (info, sh, Some (ErrShort (length data)))
  else
    key ← msg_key data;
    match find_info e refreshed key info sh with
    | (sh, inl err) => Ret (info, sh, Some err)
    | (sh, inr qi) =>
      l ← store (Uint32 qi) QDISC_HANDLE key.2;
      p ← slice_of data 12 16;
      l ← store l QDISC_PARENT (nl_uint32 p);
      let qi := mkInfo (IfName qi) (Kind qi) l (Uint64 qi) (info_scanNum qi) in
      match UnmarshalAttributes (drop 20 data) with
      | None => Ret (<[key := qi]> info, sh, Some ErrAttributes)
      | Some attrs =>
        '(qi, err) ← attr_loop attrs qi;
        match err with
        | Some er => Ret (<[key := qi]> info, sh, Some er)
        | None => Ret (<[key := mkInfo (IfName qi) (Kind qi) (Uint32 qi) (Uint64 qi) scan]> info, sh, None)
        end
      end
    end.

Fixpoint msg_loop (e : env) (refreshed : bool) (scan : Z) (msgs : list bytes) (info : infomap) (sh : QdiscStatsShared)
    : outcome (infomap * QdiscStatsShared * option error) :=
  match msgs with
  | [] => Ret (info, sh, None)
  | data :: msgs =>
    '(info, sh, err) ← parse_msg e refreshed scan data info sh;
    match err with Some er => Ret (info, sh, Some er) | None => msg_loop e refreshed scan msgs info sh end
  end.

Definition set_connected (b : bool) (sh : QdiscStatsShared) : QdiscStatsShared :=
  mkShared (scanNum sh) (ifIndexToNameCache sh) (ifIndexToNameCacheLastRefresh sh) b.

Definition Parse (e : env) (info : infomap) (sh : QdiscStatsShared) : outcome (infomap * QdiscStatsShared * option error) :=
  if negb (connected sh) && negb (e_dial e) then Ret (info, sh, Some ErrDial)
  else if negb (connected sh) && negb (e_option e) then Ret (info, sh, Some ErrOption)
  else
    match e_execute e with
    | None => Ret (info, set_connected false sh, Some ErrRequest)
    | Some msgs =>
      let sh := set_connected true sh in
      let scan := i64 (scanNum sh + 1) in
      let refreshed := (QDISC_IF_INDEX_TO_NAME_CACHE_REFRESH_INTERVAL <=? Sub (e_now e) (ifIndexToNameCacheLastRefresh sh))%Z in
      match (if refreshed then cache_refresh e sh else Some sh) with
      | None => Ret (info, sh, Some ErrInterfaces)
      | Some sh =>
        '(info, sh, err) ← msg_loop e refreshed scan msgs info sh;
        match err with
        | Some er => Ret (info, sh, Some er)
        | None =>
          let info := if length msgs =? size info then info else filter (fun kv => info_scanNum kv.2 = scan) info in
          Ret (info, mkShared scan (ifIndexToNameCache sh) (ifIndexToNameCacheLastRefresh sh) (connected sh), None)
        end
      end
    end.
(** ** Messages of the kernel *)

(** A discipline as a message describes it. *)
Record disc := mkDisc {
  d_if : Z; d_handle : Z; d_parent : Z; d_kind : bytes; d_bytes : Z; d_packets : Z;
  d_drops : Z; d_requeues : Z; d_overlimits : Z; d_qlen : Z; d_backlog : Z
}.
Definition disc_key (d : disc) : QdiscInfoKey := (d_if d, d_handle d).
Definition disc_info (d : disc) (name : bytes) (scan : Z) : QdiscInfo :=
  mkInfo name (d_kind d) [d_parent d; d_handle d; d_packets d; d_drops d; d_requeues d; d_overlimits d; d_qlen d; d_backlog d]
    [d_bytes d; 0; 0; 0]%Z scan.

Definition sub (data : bytes) (lo n : nat) : bytes := take n (drop lo data).
(** Attributes that are decoded. *)
Definition known_attr (a : Z * bytes) : Prop := a.1 = TCA_KIND \/ a.1 = TCA_STATS2 \/ a.1 = TCA_STATS.
Definition known_stat (a : Z * bytes) : Prop := a.1 = TCA_STATS_BASIC \/ a.1 = TCA_STATS_QUEUE.
#[local] Instance known_attr_dec a : Decision (known_attr a).
Proof. unfold known_attr. apply _. Defined.
#[local] Instance known_stat_dec a : Decision (known_stat a).
Proof. unfold known_stat. apply _. Defined.

Definition basic_ok (d : disc) (b : bytes) : Prop :=
  12 <= length b /\ nl_uint64 (sub b 0 8) = d_bytes d /\ nl_uint32 (sub b 8 4) = d_packets d.
Definition queue_ok (d : disc) (q : bytes) : Prop :=
  20 <= length q /\ nl_uint32 (sub q 0 4) = d_qlen d /\ nl_uint32 (sub q 4 4) = d_backlog d /\ nl_uint32 (sub q 8 4) = d_drops d /\
  nl_uint32 (sub q 12 4) = d_requeues d /\ nl_uint32 (sub q 16 4) = d_overlimits d.
(** The old format, which has the same values and no requeues. *)
Definition legacy_ok (d : disc) (s : bytes) : Prop :=
  36 <= length s /\ nl_uint64 (sub s 0 8) = d_bytes d /\ nl_uint32 (sub s 8 4) = d_packets d /\ nl_uint32 (sub s 12 4) = d_drops d /\
  nl_uint32 (sub s 16 4) = d_overlimits d /\ nl_uint32 (sub s 28 4) = d_qlen d /\ nl_uint32 (sub s 32 4) = d_backlog d.

(** A message: the header, the kind, the statistics, possibly again in the old
    format; other attributes may come between them. *)
Definition encodes (d : disc) (data : bytes) : Prop :=
  20 <= length data /\ nl_uint32 (sub data 4 4) = d_if d /\ nl_uint32 (sub data 8 4) = d_handle d /\ nl_uint32 (sub data 12 4) = d_parent d /\
  exists attrs kd s2 legacy nested b q,
    UnmarshalAttributes (drop 20 data) = Some attrs /\
    filter known_attr attrs = [(TCA_KIND, kd); (TCA_STATS2, s2)] ++ map (pair TCA_STATS) legacy /\
    nl_string kd = d_kind d /\ UnmarshalAttributes s2 = Some nested /\
    filter known_stat nested = [(TCA_STATS_BASIC, b); (TCA_STATS_QUEUE, q)] /\
    basic_ok d b /\ queue_ok d q /\ Forall (legacy_ok d) legacy.

Lemma attr_loop_filter attrs qi : attr_loop (filter known_attr attrs) qi = attr_loop attrs qi.
Proof.
  revert qi. induction attrs as [|[ty data] attrs IH]; intros qi; [done|]. rewrite filter_cons.
  destruct (decide (known_attr (ty, data))) as [Hk|Hk].
  - cbn [attr_loop]. destruct (if (ty =? TCA_KIND)%Z then _ else _) as [[qi' [er|]]| |]; [done| |done|done]. rewrite !bind_ret. apply IH.
  - rewrite IH. cbn [attr_loop]. unfold known_attr in Hk. cbn [fst] in Hk.
    destruct (Z.eqb_spec ty TCA_KIND), (Z.eqb_spec ty TCA_STATS2), (Z.eqb_spec ty TCA_STATS); tauto.
Qed.

Lemma nested_loop_filter attrs qi : nested_loop (filter known_stat attrs) qi = nested_loop attrs qi.
Proof.
  revert qi. induction attrs as [|[ty data] attrs IH]; intros qi; [done|]. rewrite filter_cons.
  destruct (decide (known_stat (ty, data))) as [Hk|Hk].
  - cbn [nested_loop]. destruct (if (ty =? TCA_STATS_BASIC)%Z then _ else _) as [qi'| |]; [|done|done]. rewrite !bind_ret. apply IH.
  - rewrite IH. cbn [nested_loop]. unfold known_stat in Hk. cbn [fst] in Hk.
    destruct (Z.eqb_spec ty TCA_STATS_BASIC), (Z.eqb_spec ty TCA_STATS_QUEUE); tauto.
Qed.

Lemma slice_of_sub data lo n : lo + n <= length data -> slice_of data lo (lo + n) = Ret (sub data lo n).
Proof.
  intros Hl. unfold slice_of, sub. rewrite (proj2 (Nat.leb_le _ _) Hl). do 2 f_equal. lia.
Qed.

Lemma put32_ok data lo i name kind l32 l64 sn :
  lo + 4 <= length data -> i < length l32 ->
  put32 data lo i (mkInfo name kind l32 l64 sn) = Ret (mkInfo name kind (<[i := nl_uint32 (sub data lo 4)]> l32) l64 sn).
Proof. intros Hl Hi. unfold put32. rewrite slice_of_sub by done. rewrite bind_ret. cbn [Uint32]. by rewrite store_Ret, bind_ret by done. Qed.
Lemma put64_ok data lo i name kind l32 l64 sn :
  lo + 8 <= length data -> i < length l64 ->
  put64 data lo i (mkInfo name kind l32 l64 sn) = Ret (mkInfo name kind l32 (<[i := nl_uint64 (sub data lo 8)]> l64) sn).
Proof. intros Hl Hi. unfold put64. rewrite slice_of_sub by done. rewrite bind_ret. cbn [Uint64]. by rewrite store_Ret, bind_ret by done. Qed.

Ltac in_range :=
  unfold QDISC_BYTES, QDISC_PACKETS, QDISC_DROPS, QDISC_REQUEUES, QDISC_OVERLIMITS, QDISC_QLEN, QDISC_BACKLOG;
  rewrite ?length_insert; cbn [length]; lia.
Ltac puts := repeat first [rewrite put32_ok by in_range | rewrite put64_ok by in_range | rewrite bind_ret].

Lemma stats2_ok d nested b q name kind p h v2 v3 v4 v5 v6 v7 w0 w1 w2 w3 sn s2 :
  UnmarshalAttributes s2 = Some nested -> filter known_stat nested = [(TCA_STATS_BASIC, b); (TCA_STATS_QUEUE, q)] ->
  basic_ok d b -> queue_ok d q ->
  parseTCAStats2 s2 (mkInfo name kind [p; h; v2; v3; v4; v5; v6; v7] [w0; w1; w2; w3] sn) =
  Ret (mkInfo name kind [p; h; d_packets d; d_drops d; d_requeues d; d_overlimits d; d_qlen d; d_backlog d] [d_bytes d; w1; w2; w3] sn, None).
Proof.
  intros Hs Hf (Hb & <- & <-) (Hq & <- & <- & <- & <- & <-). unfold parseTCAStats2. rewrite Hs, <- nested_loop_filter, Hf.
  cbn [nested_loop Z.eqb Pos.eqb TCA_STATS_BASIC TCA_STATS_QUEUE]. puts. reflexivity.
Qed.

Lemma stats_ok d s name kind p h v4 w1 w2 w3 sn :
  legacy_ok d s ->
  parseTCAStats s (mkInfo name kind [p; h; d_packets d; d_drops d; v4; d_overlimits d; d_qlen d; d_backlog d] [d_bytes d; w1; w2; w3] sn) =
  Ret (mkInfo name kind [p; h; d_packets d; d_drops d; v4; d_overlimits d; d_qlen d; d_backlog d] [d_bytes d; w1; w2; w3] sn).
Proof.
  intros (Hl & H1 & H2 & H3 & H4 & H5 & H6). unfold parseTCAStats. puts. rewrite H1, H2, H3, H4, H5, H6. reflexivity.
Qed.
(** Information as a parse leaves it, by scan [sn] at the latest; the counters
    that are not decoded are zero. *)
Definition wf (sn : Z) (qi : QdiscInfo) : Prop :=
  length (Uint32 qi) = QDISK_UINT32_NUM_STATS /\ (exists w, Uint64 qi = [w; 0; 0; 0]%Z) /\ (0 <= info_scanNum qi <= sn)%Z.

Lemma attr_loop_ok d data attrs kd s2 legacy nested b q name kind p h v2 v3 v4 v5 v6 v7 w0 sn :
  UnmarshalAttributes (drop 20 data) = Some attrs ->
  filter known_attr attrs = [(TCA_KIND, kd); (TCA_STATS2, s2)] ++ map (pair TCA_STATS) legacy ->
  nl_string kd = d_kind d -> UnmarshalAttributes s2 = Some nested ->
  filter known_stat nested = [(TCA_STATS_BASIC, b); (TCA_STATS_QUEUE, q)] ->
  basic_ok d b -> queue_ok d q -> Forall (legacy_ok d) legacy ->
  attr_loop attrs (mkInfo name kind [p; h; v2; v3; v4; v5; v6; v7] [w0; 0; 0; 0]%Z sn) =
  Ret (mkInfo name (d_kind d) [p; h; d_packets d; d_drops d; d_requeues d; d_overlimits d; d_qlen d; d_backlog d] [d_bytes d; 0; 0; 0]%Z sn, None).
Proof.
  intros Ha Hf <- Hs Hn Hb Hq Hl. rewrite <- attr_loop_filter, Hf. clear Hf.
  cbn [app attr_loop Z.eqb Pos.eqb TCA_KIND TCA_STATS2 TCA_STATS IfName Kind Uint32 Uint64 info_scanNum]. rewrite bind_ret.
  rewrite (stats2_ok d nested b q) by done. rewrite bind_ret. clear -Hl. induction Hl as [|s legacy Hs _ IH]; [done|].
  cbn [map attr_loop Z.eqb Pos.eqb TCA_KIND TCA_STATS2 TCA_STATS]. rewrite (stats_ok d s) by done. rewrite !bind_ret. exact IH.
Qed.

(** *** The name that a parse gives to a discipline *)

Definition name_in (cache : gmap Z bytes) (ifIndex : Z) : bytes := default [] (cache !! ifIndex).
Definition refresh (ifas : list (Z * bytes)) (cache : gmap Z bytes) : gmap Z bytes := foldl (fun m ifa => <[u32 ifa.1 := ifa.2]> m) cache ifas.

(** The messages before the first one of a discipline. *)
Fixpoint before_key (key : QdiscInfoKey) (ds : list disc) : list disc :=
  match ds with
  | [] => []
  | d :: ds => if decide (disc_key d = key) then [] else d :: before_key key ds
  end.

Section names.
Context (refreshed : bool) (ifas : list (Z * bytes)) (info0 : infomap) (cache0 : gmap Z bytes).

(** A discipline that is new, and whose interface the cache does not have. *)
Definition unknown (d : disc) : bool := bool_decide (info0 !! disc_key d = None) && bool_decide (name_in cache0 (d_if d) = []).

(** The cache after some messages: refreshed at the start, or by the first
    discipline that is unknown. *)
Definition cache_after (ds : list disc) : gmap Z bytes :=
  if refreshed || existsb unknown ds then refresh ifas cache0 else cache0.

(** A known discipline keeps its name unless the cache was refreshed at the start;
    a new one has the name in the cache when its first message is looked at. *)
Definition name_given (ds : list disc) (key : QdiscInfoKey) : bytes :=
  match info0 !! key with
  | Some qi => if refreshed then name_in (cache_after ds) key.1 else IfName qi
  | None => name_in (cache_after (before_key key ds)) key.1
  end.

Lemma refresh_idem cache : refresh ifas (refresh ifas cache) = refresh ifas cache.
Proof.
  assert (forall k (c1 c2 : gmap Z bytes), k ∈ map (fun ifa => u32 ifa.1) ifas \/ c1 !! k = c2 !! k -> refresh ifas c1 !! k = refresh ifas c2 !! k) as H.
  { unfold refresh. induction ifas as [|ifa l IH]; intros k c1 c2 Hk; cbn [foldl map] in *.
    - destruct Hk as [Hk|?]; [by apply elem_of_nil in Hk|done].
    - apply IH. rewrite elem_of_cons in Hk. destruct (decide (k = u32 ifa.1)) as [->|Hne]; [right; by rewrite !lookup_insert_eq|].
      rewrite !lookup_insert_ne by done. naive_solver. }
  apply map_eq. intros k. destruct (decide (k ∈ map (fun ifa => u32 ifa.1) ifas)) as [Hk|Hk]; [apply H; by left|].
  unfold refresh at 1. clear H. revert Hk. generalize (refresh ifas cache). induction ifas as [|ifa l IH]; intros c Hk; [done|]. cbn [foldl map] in *.
  apply not_elem_of_cons in Hk as [Hne Hk]. rewrite IH by done. by rewrite lookup_insert_ne.
Qed.

Lemma before_key_snoc key ds d :
  before_key key (ds ++ [d]) = if decide (key ∈ map disc_key ds) then before_key key ds else if decide (disc_key d = key) then ds else ds ++ [d].
Proof.
  induction ds as [|x ds IH]; cbn [app before_key map].
  - rewrite (decide_False (P := key ∈ [])) by apply not_elem_of_nil. by destruct (decide _).
  - destruct (decide (disc_key x = key)) as [<-|Hne]; [by rewrite decide_True by set_solver|]. rewrite IH.
    destruct (decide (key ∈ map disc_key ds)) as [Hk|Hk]; [by rewrite decide_True by set_solver|].
    rewrite (decide_False (P := key ∈ disc_key x :: map disc_key ds)) by (intros [?|?]%elem_of_cons; congruence). by destruct (decide _).
Qed.
End names.

(** *** Where the loop over the messages is *)

Section loop.
Context (e : env) (refreshed : bool) (ifas : list (Z * bytes)) (info0 : infomap) (cache0 : gmap Z bytes) (scan : Z).
Hypothesis Hifs : e_interfaces e = Some ifas.

(** After the messages of [ds]: the values of a discipline are those of its last
    message. *)
Record loop_ok (ds : list disc) (info : infomap) (sh : QdiscStatsShared) : Prop := mkLoopOk {
  lo_cache : ifIndexToNameCache sh = cache_after refreshed ifas info0 cache0 ds;
  lo_info : forall key, info !! key =
    match last (filter (fun d => disc_key d = key) ds) with
    | Some d => Some (disc_info d (name_given refreshed ifas info0 cache0 ds key) scan)
    | None => info0 !! key
    end
}.

Lemma last_filter_snoc key ds d :
  last (filter (fun x => disc_key x = key) (ds ++ [d])) = if decide (disc_key d = key) then Some d else last (filter (fun x => disc_key x = key) ds).
Proof. rewrite filter_app, filter_cons, filter_nil. destruct (decide _); [apply last_snoc|by rewrite app_nil_r]. Qed.

Lemma last_filter_None key ds : last (filter (fun x => disc_key x = key) ds) = None <-> key ∉ map disc_key ds.
Proof.
  rewrite last_None. split.
  - intros Hf (d & -> & Hd)%list_elem_of_fmap. assert (d ∈ filter (fun x => disc_key x = disc_key d) ds) as H by (by apply list_elem_of_filter).
    rewrite Hf in H. by apply elem_of_nil in H.
  - intros Hk. destruct (filter _ ds) as [|d l] eqn:E; [done|]. exfalso. apply Hk.
    assert (d ∈ filter (fun x => disc_key x = key) ds) as [<- Hd]%list_elem_of_filter by (rewrite E; by left). by apply list_elem_of_fmap_2.
Qed.

(** The information that is found or made for the next message, and the cache. *)
Lemma find_info_ok ds d info sh :
  loop_ok ds info sh -> map_Forall (fun _ => wf scan) info -> (0 <= scan)%Z ->
  exists sh' qi, find_info e refreshed (disc_key d) info sh = (sh', inr qi) /\ wf scan qi /\
    IfName qi = name_given refreshed ifas info0 cache0 (ds ++ [d]) (disc_key d) /\
    ifIndexToNameCache sh' = cache_after refreshed ifas info0 cache0 (ds ++ [d]) /\ scanNum sh' = scanNum sh /\ connected sh' = connected sh.
Proof.
  intros [Hc Hi] Hw Hscan. pose proof (Hi (disc_key d)) as Hd. unfold find_info, cached_name, name_given.
  change (disc_key d).1 with (d_if d). set (K := disc_key d) in *.
  assert (cache_after refreshed ifas info0 cache0 (ds ++ [d]) =
    if refreshed || existsb (unknown info0 cache0) ds || unknown info0 cache0 d then refresh ifas cache0 else cache0) as Hca.
  { unfold cache_after. rewrite existsb_app, orb_assoc. cbn [existsb]. by rewrite orb_false_r. }
  rewrite before_key_snoc.
  destruct (info !! K) as [qi|] eqn:E.
  - eexists sh, _. split; [reflexivity|]. split; [destruct (Hw _ _ E) as (? & ? & ?); by destruct refreshed|].
    assert (existsb (unknown info0 cache0) ds || unknown info0 cache0 d = existsb (unknown info0 cache0) ds) as Hu.
    { destruct (existsb (unknown info0 cache0) ds) eqn:Ex; [done|]. cbn [orb]. unfold unknown. fold K.
      destruct (last (filter _ ds)) as [d'|] eqn:El; [|rewrite <- Hd; by rewrite bool_decide_eq_false_2].
      destruct (decide (K ∈ map disc_key ds)) as [(d1 & Hk & Hin)%list_elem_of_fmap|Hn]; [|apply last_filter_None in Hn; congruence].
      destruct (unknown info0 cache0 d1) eqn:E1; [exfalso; apply not_true_iff_false in Ex; apply Ex, existsb_exists; exists d1; by rewrite <- list_elem_of_In|].
      unfold unknown in E1. rewrite <- Hk in E1. assert (d_if d1 = d_if d) as Hif by (subst K; by injection Hk). by rewrite Hif in E1. }
    rewrite <- orb_assoc, Hu in Hca. rewrite Hca. unfold cache_after in Hc.
    split; [|done]. destruct (last (filter _ ds)) as [d'|] eqn:El.
    + injection Hd as ->. rewrite decide_True by (apply dec_stable; intros Hn; apply last_filter_None in Hn; congruence).
      unfold name_given. rewrite Hc. change K.1 with (d_if d). destruct (info0 !! K); destruct refreshed; cbn [IfName disc_info orb]; try done.
    + rewrite <- Hd. rewrite Hc. destruct refreshed; done.
  - destruct (last (filter _ ds)) eqn:El; [done|]. rewrite <- Hd. apply last_filter_None in El.
    rewrite decide_False by done. rewrite decide_True by done. rewrite <- Hc.
    assert (wf scan (mkInfo (default [] (ifIndexToNameCache sh !! d_if d)) [] zero32 zero64 0)) as Hw0.
    { split; [done|]. split; [by exists 0%Z|cbn; lia]. }
    assert (unknown info0 cache0 d = bool_decide (name_in cache0 (d_if d) = [])) as Hu.
    { unfold unknown. fold K. rewrite <- Hd. by rewrite bool_decide_eq_true_2. }
    rewrite Hca, Hu. clear Hu. unfold cache_after in Hc. rewrite Hc in *. unfold cache_refresh. rewrite Hifs. destruct refreshed; cbn [orb].
    { rewrite andb_false_r. by eexists sh, _. }
    rewrite andb_true_r. destruct (existsb (unknown info0 cache0) ds); cbn [orb].
    + case_bool_decide; [|eexists sh, _; split; [reflexivity|]; split; [exact Hw0|done]]. eexists _, _. split; [reflexivity|]. split; [exact Hw0|]. split; [done|]. split; [|done].
      cbn [ifIndexToNameCache]. rewrite Hc. apply refresh_idem.
    + unfold name_in. case_bool_decide; [|eexists sh, _; split; [reflexivity|]; split; [exact Hw0|done]]. eexists _, _. split; [reflexivity|]. split; [exact Hw0|]. split; [done|]. split; [|done].
      cbn [ifIndexToNameCache]. by rewrite Hc.
Qed.
Lemma disc_info_wf d name : (0 <= scan)%Z -> wf scan (disc_info d name scan).
Proof. intros Hs. split; [done|]. split; [by exists (d_bytes d)|cbn; lia]. Qed.

Lemma parse_msg_ok ds d data info sh :
  loop_ok ds info sh -> map_Forall (fun _ => wf scan) info -> (0 <= scan)%Z -> encodes d data ->
  exists info' sh', parse_msg e refreshed scan data info sh = Ret (info', sh', None) /\
    loop_ok (ds ++ [d]) info' sh' /\ map_Forall (fun _ => wf scan) info' /\ scanNum sh' = scanNum sh /\ connected sh' = connected sh.
Proof.
  intros Hok Hinfo Hsn (Hlen & Hi & Hh & Hp & attrs & kd & s2 & legacy & nested & b & q & Ha & Hf & Hk & Hs & Hn & Hb & Hq & Hl).
  unfold parse_msg, msg_key. rewrite (proj2 (Nat.ltb_ge _ _) Hlen).
  pose proof (slice_of_sub data 4 4 ltac:(lia)) as S1. pose proof (slice_of_sub data 8 4 ltac:(lia)) as S2.
  pose proof (slice_of_sub data 12 4 ltac:(lia)) as S3. cbn [Nat.add] in S1, S2, S3.
  rewrite S1, S2, !bind_ret, Hi, Hh. fold (disc_key d).
  destruct (find_info_ok ds d info sh Hok Hinfo Hsn) as (sh' & [name kind l32 l64 s0] & -> & (H32 & [w H64] & _) & Hname & Hs1 & Hs2 & Hs3).
  cbn [Uint32 Uint64 IfName Kind info_scanNum disc_key fst snd] in *. subst l64.
  do 8 (destruct l32 as [|? l32]; [discriminate|]). destruct l32 as [|? l32]; [|discriminate].
  rewrite store_Ret by (unfold QDISC_HANDLE; cbn; lia). rewrite bind_ret, S3, bind_ret, Hp.
  rewrite store_Ret by (unfold QDISC_PARENT; cbn; lia). rewrite bind_ret, Ha. unfold QDISC_HANDLE, QDISC_PARENT. cbn [insert list_insert].
  change (<[0:=d_parent d]> (<[1:=d_handle d]> [z; z0; z1; z2; z3; z4; z5; z6])) with [d_parent d; d_handle d; z1; z2; z3; z4; z5; z6].
  rewrite (attr_loop_ok d data attrs kd s2 legacy nested b q) by done. rewrite bind_ret. cbn [IfName Kind Uint32 Uint64].
  eexists _, sh'. split; [reflexivity|]. fold (disc_info d name scan). fold (disc_key d). split; [|split; [|done]].
  - split; [done|]. intros key. rewrite last_filter_snoc. destruct (decide (disc_key d = key)) as [<-|Hne].
    + by rewrite lookup_insert_eq, Hname.
    + rewrite lookup_insert_ne by done. rewrite (lo_info _ _ _ Hok). destruct (last (filter _ ds)) as [d'|] eqn:El; [|done].
      do 2 f_equal. unfold name_given. rewrite before_key_snoc.
      rewrite decide_True by (apply dec_stable; intros Hx; apply last_filter_None in Hx; congruence).
      destruct (info0 !! key) as [qi|]; [|done]. unfold cache_after. by destruct refreshed.
  - apply map_Forall_insert_2; [by apply disc_info_wf|done].
Qed.

Lemma msg_loop_ok ds msgs : Forall2 encodes ds msgs -> (0 <= scan)%Z -> forall pre info sh,
  loop_ok pre info sh -> map_Forall (fun _ => wf scan) info ->
  exists info' sh', msg_loop e refreshed scan msgs info sh = Ret (info', sh', None) /\
    loop_ok (pre ++ ds) info' sh' /\ map_Forall (fun _ => wf scan) info' /\ scanNum sh' = scanNum sh /\ connected sh' = connected sh.
Proof.
  intros H Hscan. induction H as [|d data ds msgs Hd _ IH]; intros pre info sh Hok Hw; cbn [msg_loop].
  - exists info, sh. by rewrite app_nil_r.
  - destruct (parse_msg_ok pre d data info sh Hok Hw Hscan Hd) as (info1 & sh1 & -> & Hok1 & Hw1 & Hs1 & Hs2). rewrite bind_ret.
    destruct (IH (pre ++ [d]) info1 sh1 Hok1 Hw1) as (info' & sh' & -> & Hok' & Hw' & Hs3 & Hs4).
    exists info', sh'. rewrite <- app_assoc in Hok'. split_and!; try done; congruence.
Qed.
End loop.

(** Pruning removes the disciplines without a message, unless the messages are as
    many as the disciplines found or known: a discipline with several messages can
    then keep another one. *)
Lemma prune_ok (info : infomap) (scan : Z) (n : nat) :
  forall key, (if n =? size info then info else filter (fun kv => info_scanNum kv.2 = scan) info) !! key =
              qi ← info !! key; if bool_decide (info_scanNum qi = scan) || (n =? size info) then Some qi else None.
Proof.
  intros key. destruct (n =? size info).
  - destruct (info !! key) as [qi|]; [|done]. cbn. by rewrite orb_true_r.
  - destruct (info !! key) as [qi|] eqn:E; cbn.
    + rewrite orb_false_r. case_bool_decide as Hs; [by apply map_lookup_filter_Some|]. apply map_lookup_filter_None. right. intros qi'. rewrite E. by intros [= <-].
    + apply map_lookup_filter_None. by left.
Qed.

(** C40: a parse of the kernel's messages succeeds.  Every discipline of the
    messages is left with the kind, the parent, the handle and the counters that
    its last message has, under a name that is pinned: when the interface names
    were read again at the start of the parse (60 s after the last time), that of
    its interface; otherwise a known discipline keeps its name, and a new one has
    the name that the cache has when its first message is looked at, before the
    names are read again on its behalf, so that it has no name when its interface
    is new.  The disciplines without a message are removed, unless the messages
    are as many as the disciplines known or found: this takes two messages for
    one pair of interface and handle.  Without such a repetition exactly the
    disciplines of the messages are left.  The scan number that both objects of a
    generator share is advanced by one. *)
Theorem qdisc_parse_messages e info sh ds msgs ifas :
  connected sh = true \/ e_dial e = true /\ e_option e = true -> e_execute e = Some msgs -> e_interfaces e = Some ifas ->
  Forall2 encodes ds msgs -> (0 <= scanNum sh < MaxInt64)%Z -> map_Forall (fun _ => wf (scanNum sh)) info ->
  let refreshed := (QDISC_IF_INDEX_TO_NAME_CACHE_REFRESH_INTERVAL <=? Sub (e_now e) (ifIndexToNameCacheLastRefresh sh))%Z in
  exists info' sh',
    Parse e info sh = Ret (info', sh', None) /\
    (forall l1 d l2, ds = l1 ++ d :: l2 -> disc_key d ∉ map disc_key l2 ->
       info' !! disc_key d =
         Some (disc_info d (name_given refreshed ifas info (ifIndexToNameCache sh) ds (disc_key d)) (scanNum sh + 1))) /\
    (forall key, key ∉ map disc_key ds ->
       info' !! key = if length ds =? size (dom info ∪ list_to_set (map disc_key ds) : gset QdiscInfoKey) then info !! key else None) /\
    (NoDup (map disc_key ds) -> forall key, is_Some (info' !! key) <-> key ∈ map disc_key ds) /\
    ifIndexToNameCache sh' = cache_after refreshed ifas info (ifIndexToNameCache sh) ds /\
    scanNum sh' = (scanNum sh + 1)%Z /\ connected sh' = true /\ map_Forall (fun _ => wf (scanNum sh')) info'.
Proof.
  intros Hc He Hifs Henc Hsn Hinfo refreshed. unfold Parse.
  assert (negb (connected sh) && negb (e_dial e) = false /\ negb (connected sh) && negb (e_option e) = false) as [-> ->].
  { destruct Hc as [->|[-> ->]]; [done|]. by rewrite andb_false_r. }
  rewrite He. cbn [set_connected scanNum ifIndexToNameCacheLastRefresh]. fold refreshed. rewrite i64_small by (unfold MinInt64, MaxInt64 in *; lia).
  set (scan := (scanNum sh + 1)%Z). set (cache0 := ifIndexToNameCache sh).
  assert (exists sh1, (if refreshed then cache_refresh e (set_connected true sh) else Some (set_connected true sh)) = Some sh1 /\
    scanNum sh1 = scanNum sh /\ connected sh1 = true /\ ifIndexToNameCache sh1 = cache_after refreshed ifas info cache0 []) as (sh1 & -> & Hs1 & Hs2 & Hcache).
  { unfold cache_refresh, cache_after. rewrite Hifs. destruct refreshed; by eexists. }
  destruct (msg_loop_ok e refreshed ifas info cache0 scan Hifs ds msgs Henc ltac:(unfold scan; lia) [] info sh1) as (info' & sh2 & -> & [Hca Hin] & Hw & Hs3 & Hs4).
  { by split. }
  { eapply map_Forall_impl; [exact Hinfo|]. intros key qi (H1 & H2 & H3). split; [done|]. split; [done|]. unfold scan. lia. }
  rewrite bind_ret. cbn [app] in *. rewrite <- (Forall2_length _ _ _ Henc).
  assert (dom info' = dom info ∪ list_to_set (map disc_key ds)) as Hdom.
  { apply set_eq. intros key. rewrite elem_of_union, elem_of_list_to_set, !elem_of_dom, Hin.
    destruct (last (filter _ ds)) as [d|] eqn:El.
    - split; [intros _|by eexists]. right. apply dec_stable. intros Hn. apply last_filter_None in Hn. congruence.
    - apply last_filter_None in El. tauto. }
  assert (size info' = size (dom info ∪ list_to_set (map disc_key ds) : gset QdiscInfoKey)) as Hsize by (by rewrite <- Hdom, size_dom).
  assert (forall key, key ∉ map disc_key ds -> (if length ds =? size info' then info' else filter (fun kv => info_scanNum kv.2 = scan) info') !! key =
    if length ds =? size info' then info !! key else None) as Hgone.
  { intros key Hk. rewrite prune_ok, Hin, (proj2 (last_filter_None _ _) Hk). destruct (info !! key) as [qi|] eqn:E; cbn.
    - destruct (Hinfo key qi E) as (_ & _ & Hq). rewrite bool_decide_eq_false_2 by (unfold scan; lia). done.
    - by destruct (_ =? _). }
  assert (forall l1 d l2, ds = l1 ++ d :: l2 -> disc_key d ∉ map disc_key l2 ->
    (if length ds =? size info' then info' else filter (fun kv => info_scanNum kv.2 = scan) info') !! disc_key d =
    Some (disc_info d (name_given refreshed ifas info cache0 ds (disc_key d)) scan)) as Hlast.
  { intros l1 d l2 Eds Hl2. rewrite prune_ok, Hin. assert (last (filter (fun x => disc_key x = disc_key d) ds) = Some d) as ->.
    { rewrite Eds, filter_app, filter_cons, decide_True by done.
      assert (filter (fun x => disc_key x = disc_key d) l2 = []) as -> by (by apply last_None, last_filter_None). apply last_snoc. }
    cbn. by rewrite bool_decide_eq_true_2. }
  eexists _, _. split; [reflexivity|]. cbn [scanNum connected ifIndexToNameCache].
  split; [exact Hlast|]. split; [by rewrite <- Hsize|]. split; [|split; [done|split; [done|split; [congruence|]]]].
  - intros Hnd key. split; [|intros (d & -> & Hd)%list_elem_of_fmap].
    + intros [qi Hq]. apply dec_stable. intros Hk. rewrite Hgone in Hq by done. destruct (Nat.eqb_spec (length ds) (size info')) as [El|]; [|done].
      assert (dom info' ≡ list_to_set (map disc_key ds)) as Hd.
      { symmetry. apply set_subseteq_size_equiv; [rewrite Hdom; set_solver|]. rewrite size_dom, size_list_to_set, length_map by done. lia. }
      apply Hk. rewrite <- (elem_of_list_to_set (C := gset QdiscInfoKey)), <- Hd, Hdom. apply elem_of_union_l, elem_of_dom. by exists qi.
    + apply list_elem_of_split in Hd as (l1 & l2 & Eds). rewrite (Hlast l1 d l2 Eds); [by eexists|].
      rewrite Eds, map_app in Hnd. apply NoDup_app in Hnd as (_ & _ & Hnd). by apply NoDup_cons in Hnd as [? _].
  - intros key qi Hl. rewrite prune_ok in Hl. destruct (info' !! key) as [qi'|] eqn:E; [|done]. cbn in Hl.
    destruct (_ || _); [|done]. injection Hl as <-. by apply (Hw key).
Qed.
End parser.
(** ** Samples: little-endian decoders and attributes of length, type and data,
    padded to four bytes *)

Definition sample_uint (l : bytes) : Z := foldr (fun b acc => byte_val b + 256 * acc)%Z 0%Z l.
Definition sample_string (l : bytes) : bytes := filter (fun b => byte_val b <> 0%Z) l.
Fixpoint sample_attrs (fuel : nat) (data : bytes) : option (list (Z * bytes)) :=
  match fuel, data with
  | _, [] => Some []
  | S fuel, l0 :: l1 :: t0 :: t1 :: rest =>
    let len := Z.to_nat (sample_uint [l0; l1]) - 4 in
    if length rest <? len then None
    else attrs ← sample_attrs fuel (drop ((len + 3) / 4 * 4) rest); Some ((sample_uint [t0; t1], take len rest) :: attrs)
  | _, _ => None
  end.
Definition sample_unmarshal (data : bytes) : option (list (Z * bytes)) := sample_attrs (length data) data.

Definition le (n : nat) (z : Z) : bytes :=
  map (fun k => default NL (Strings.Byte.of_N (Z.to_N (Z.shiftr z (8 * Z.of_nat k) mod 256)))) (seq 0 n).
Definition attr (ty : Z) (data : bytes) : bytes :=
  le 2 (Z.of_nat (4 + length data)) ++ le 2 ty ++ data ++ replicate ((length data + 3) / 4 * 4 - length data) (default NL (Strings.Byte.of_N 0)).
Definition sample_disc (ifIndex : Z) : disc := mkDisc ifIndex 65536 4294967295 (bs "fq_codel") 12345678901 77 1 2 3 4 5.
Definition sample_msg (d : disc) : bytes :=
  le 4 0 ++ le 4 (d_if d) ++ le 4 (d_handle d) ++ le 4 (d_parent d) ++ le 4 0 ++
  attr TCA_KIND (d_kind d) ++ attr 2 (bs "opt") ++
  attr TCA_STATS2 (attr TCA_STATS_BASIC (le 8 (d_bytes d) ++ le 4 (d_packets d)) ++
    attr TCA_STATS_QUEUE (le 4 (d_qlen d) ++ le 4 (d_backlog d) ++ le 4 (d_drops d) ++ le 4 (d_requeues d) ++ le 4 (d_overlimits d))) ++
  attr TCA_STATS (le 8 (d_bytes d) ++ le 4 (d_packets d) ++ le 4 (d_drops d) ++ le 4 (d_overlimits d) ++ le 8 0 ++ le 4 (d_qlen d) ++ le 4 (d_backlog d)).
Definition sample_env (now : Z) (ifs : list (Z * bytes)) (ds : list disc) : env :=
  mkEnv true true (Some (map sample_msg ds)) (Some ifs) (mkTime (now * Second) None).

Lemma sample_msg_ok ifIndex : ifIndex = 1%Z \/ ifIndex = 2%Z ->
  encodes sample_uint sample_uint sample_string sample_unmarshal (sample_disc ifIndex) (sample_msg (sample_disc ifIndex)).
Proof.
  set (d := sample_disc ifIndex).
  set (b := le 8 (d_bytes d) ++ le 4 (d_packets d)).
  set (q := le 4 (d_qlen d) ++ le 4 (d_backlog d) ++ le 4 (d_drops d) ++ le 4 (d_requeues d) ++ le 4 (d_overlimits d)).
  set (s := le 8 (d_bytes d) ++ le 4 (d_packets d) ++ le 4 (d_drops d) ++ le 4 (d_overlimits d) ++ le 8 0 ++ le 4 (d_qlen d) ++ le 4 (d_backlog d)).
  intros Hif. split; [destruct Hif as [-> | ->]; vm_compute; lia|].
  do 3 (split; [destruct Hif as [-> | ->]; vm_compute; reflexivity|]).
  exists [(TCA_KIND, d_kind d); (2%Z, bs "opt"); (TCA_STATS2, attr TCA_STATS_BASIC b ++ attr TCA_STATS_QUEUE q); (TCA_STATS, s)],
    (d_kind d), (attr TCA_STATS_BASIC b ++ attr TCA_STATS_QUEUE q), [s], [(TCA_STATS_BASIC, b); (TCA_STATS_QUEUE, q)], b, q.
  do 5 (split; [destruct Hif as [-> | ->]; vm_compute; reflexivity|]).
  split; [|split; [|constructor; [|constructor]]]; (split; [vm_compute; lia|]); split_and!; vm_compute; reflexivity.
Qed.

Lemma qdisc_parse_messages_witness :
  exists info' sh' name, Parse sample_uint sample_uint sample_string sample_unmarshal
      (sample_env 100 [(1%Z, bs "eth0"); (2%Z, bs "eth1")] [sample_disc 1; sample_disc 2]) ∅ NewQdiscStats.2 = Ret (info', sh', None) /\
    info' !! (2, 65536)%Z = Some (disc_info (sample_disc 2) name 1) /\ name = bs "eth1".
Proof.
  destruct (qdisc_parse_messages sample_uint sample_uint sample_string sample_unmarshal
    (sample_env 100 [(1%Z, bs "eth0"); (2%Z, bs "eth1")] [sample_disc 1; sample_disc 2]) ∅ NewQdiscStats.2 [sample_disc 1; sample_disc 2]
    (map sample_msg [sample_disc 1; sample_disc 2]) [(1%Z, bs "eth0"); (2%Z, bs "eth1")])
    as (info' & sh' & Hp & Hd & _).
  - by right.
  - reflexivity.
  - reflexivity.
  - constructor; [apply sample_msg_ok; by left|constructor; [apply sample_msg_ok; by right|constructor]].
  - vm_compute. split; congruence.
  - apply map_Forall_empty.
  - eexists info', sh', _. split; [exact Hp|]. split.
    + apply (Hd [sample_disc 1] (sample_disc 2) []); [reflexivity|]. apply not_elem_of_nil.
    + vm_compute. reflexivity.
Defined.

(** A discipline of an interface that came up since the cache was refreshed: the
    cache is refreshed, but the discipline is stored without a name, and keeps
    it in the following parses. *)
Definition parse_names (now : Z) (ifs : list (Z * bytes)) (st : infomap * QdiscStatsShared) : outcome (infomap * QdiscStatsShared) :=
  '(info, sh, _) ← Parse sample_uint sample_uint sample_string sample_unmarshal
                     (sample_env now ifs (map (fun ifa => sample_disc ifa.1) ifs)) st.1 st.2;
  Ret (info, sh).
Example qdisc_new_interface_unnamed :
  (st ← parse_names 100 [(1%Z, bs "eth0")] NewQdiscStats;
   st ← parse_names 101 [(1%Z, bs "eth0"); (2%Z, bs "eth1")] st;
   '(info, sh) ← parse_names 102 [(1%Z, bs "eth0"); (2%Z, bs "eth1")] st;
   Ret (option_map IfName (info !! (2, 65536)%Z), ifIndexToNameCache sh !! 2%Z)) = Ret (Some [], Some (bs "eth1")).
Proof. vm_compute. reflexivity. Qed.
(** The disciplines of the queues of one interface, such as those under mq, may
    have the handle 0 in common. *)
Definition queue_disc (parent bytes : Z) : disc := mkDisc 1 0 parent (bs "pfifo_fast") bytes 1 0 0 0 0 0.

(** two disciplines of an interface with one handle share one entry: the first
    one is lost, and the entry has parent and counters of the last message.  The
    messages are then more than the disciplines, so that another one that is gone
    can stay. *)
Theorem qdisc_same_handle :
  let parse now ds st := '(info, sh, _) ← Parse sample_uint sample_uint sample_string sample_unmarshal
                           (sample_env now [(1%Z, bs "eth0"); (2%Z, bs "eth1")] ds) st.1 st.2; Ret (info, sh) in
  (st ← parse 100%Z [queue_disc 65537 10; queue_disc 65538 20] NewQdiscStats; Ret (map_to_list st.1)) =
    Ret [((1, 0)%Z, disc_info (queue_disc 65538 20) (bs "eth0") 1)] /\
  (st ← parse 100%Z [queue_disc 65537 10; queue_disc 65538 20; sample_disc 2] NewQdiscStats;
   st ← parse 101%Z [queue_disc 65537 11; queue_disc 65538 21] st; Ret (bool_decide (is_Some (st.1 !! (2, 65536)%Z)))) = Ret true.
Proof. split; vm_compute; reflexivity. Qed.
End Qdisc.
