(* ===== verification/QdiscMetrics.v ===== *)
(** The metrics generator for queueing disciplines (src/lsvmi/qdisc_metrics.go):
    deltas and rates of 32 and 64-bit counters, gauges, presence of the
    disciplines, regeneration when one changes, full cycles.  The orders of the
    map iterations are arguments; the output is the list of the lines written. *)

From Stdlib Require Import ZArith Lia.
From Stdlib Require Import Floats.SpecFloat.
From stdpp Require Import base tactics numbers strings gmap list.
From S2P Require Import Prelude Scan GoTime GoFloat MetricsCommon Qdisc.
Import MetricsCommon.

Module QdiscMetrics.

Definition QDISC_METRICS_ID : bytes := bs "qdisc_metrics".
Definition QDISC_PRESENCE_METRIC : bytes := bs "qdisc_present".
Definition QDISC_KIND_LABEL_NAME : bytes := bs "kind".
Definition QDISC_HANDLE_LABEL_NAME : bytes := bs "handle".
Definition QDISC_PARENT_LABEL_NAME : bytes := bs "parent".
Definition QDISC_IF_LABEL_NAME : bytes := bs "if".
Definition QDISC_INTERVAL_METRIC : bytes := bs "qdisc_metrics_delta_sec".

(** Indexes and names of the metrics; there is no 64-bit gauge. *)
Definition qdiscUint32IndexToDeltaMetricNameMap : list (nat * bytes) := [
  (Qdisc.QDISC_PACKETS, bs "qdisc_packets_delta");
  (Qdisc.QDISC_DROPS, bs "qdisc_drops_delta");
  (Qdisc.QDISC_REQUEUES, bs "qdisc_requeues_delta");
  (Qdisc.QDISC_OVERLIMITS, bs "qdisc_overlimits_delta")].
Definition qdiscUint32IndexToMetricNameMap : list (nat * bytes) := [
  (Qdisc.QDISC_QLEN, bs "qdisc_qlen"); (Qdisc.QDISC_BACKLOG, bs "qdisc_backlog")].
Definition qdiscUint64IndexToDeltaMetricNameMap : list (nat * bytes) := [
  (Qdisc.QDISC_BYTES, bs "qdisc_rate_kbps");
  (Qdisc.QDISC_GCFLOWS, bs "qdisc_gcflows_delta");
  (Qdisc.QDISC_THROTTLED, bs "qdisc_throttled_delta");
  (Qdisc.QDISC_FLOWSPLIMIT, bs "qdisc_flowsplimit_delta")].
Definition qdiscMetricsCount : Z :=
  Z.of_nat (length qdiscUint32IndexToDeltaMetricNameMap + length qdiscUint32IndexToMetricNameMap + length qdiscUint64IndexToDeltaMetricNameMap).

(** Factor and precision of the rates: 8. / 1000. and 1, for the bytes. *)
Definition qdiscUint32IndexRate (i : nat) : option (spec_float * nat) := None.
Definition qdiscUint64IndexRate (i : nat) : option (spec_float * nat) :=
  if i =? Qdisc.QDISC_BYTES then Some (f64_div (f64_of_int 8) (f64_of_int 1000), 1) else None.

Record QdiscMetricsInfo := mkInfo {
  uint32DeltaMetrics : gmap nat bytes;
  uint32Metrics : gmap nat bytes;
  uint64DeltaMetrics : gmap nat bytes;
  presenceMetric : bytes;
  uint32ZeroDelta : list bool;
  uint64ZeroDelta : list bool;
  cycleNum : Z
}.

(** The two statistics share [shared], once the first one is made. *)
Record QdiscMetrics := mkMetrics {
  fullMetricsFactor : Z;
  qdiscStats : list (option Qdisc.infomap);
  shared : Qdisc.QdiscStatsShared;
  qdiscStatsTs : list Time;
  currIndex : nat;
  qdiscMetricsInfoMap : gmap Qdisc.QdiscInfoKey QdiscMetricsInfo;
  intervalMetric : option bytes;
  totalMetricsCount : Z
}.

Definition NewQdiscMetrics (fullMetricsFactor : Z) : QdiscMetrics :=
  mkMetrics fullMetricsFactor [None; None] Qdisc.NewQdiscStats.2 [zeroTime; zeroTime] 0 ∅ None 0.

(** The orders of the iterations over the metrics of a discipline. *)
Record orders := mkOrders { o_d32 : list nat; o_v32 : list nat; o_d64 : list nat }.

Section generator.
Context (instance hostname : bytes).

Definition commonLabels (qi : Qdisc.QdiscInfo) : outcome (list (bytes * bytes)) :=
  handle ← must (Qdisc.Uint32 qi !! Qdisc.QDISC_HANDLE);
  parent ← must (Qdisc.Uint32 qi !! Qdisc.QDISC_PARENT);
  Ret [(QDISC_KIND_LABEL_NAME, Qdisc.Kind qi); (QDISC_HANDLE_LABEL_NAME, Qdisc.QdiscMajMin handle);
       (QDISC_PARENT_LABEL_NAME, Qdisc.QdiscMajMin parent); (QDISC_IF_LABEL_NAME, Qdisc.IfName qi)].

Definition metrics_of (ls : list (bytes * bytes)) (names : list (nat * bytes)) : gmap nat bytes :=
  list_to_map (map (fun e => (e.1, metric e.2 instance hostname ls)) names).

(** [updateQdiscMetricsInfo]. *)
Definition updateQdiscMetricsInfo (F : Z) (qi : Qdisc.QdiscInfo) (icm : Z) : outcome (QdiscMetricsInfo * Z) :=
  ls ← commonLabels qi;
  let '(cn, icm) := InitialCycleNum_Get F icm in
  Ret (mkInfo (metrics_of ls qdiscUint32IndexToDeltaMetricNameMap) (metrics_of ls qdiscUint32IndexToMetricNameMap)
         (metrics_of ls qdiscUint64IndexToDeltaMetricNameMap) (metric QDISC_PRESENCE_METRIC instance hostname ls)
         (replicate Qdisc.QDISK_UINT32_NUM_STATS false) (replicate Qdisc.QDISK_UINT64_NUM_STATS false) cn, icm).

Definition updateIntervalMetric : bytes := metric QDISC_INTERVAL_METRIC instance hostname [].

(** A delta of [w] bits. *)
Definition gen_delta (w : Z) (rate : nat -> option (spec_float * nat)) (full : bool) (deltaSec : spec_float) (promTs : bytes)
    (metrics : gmap nat bytes) (curr prev : list Z) (index : nat) (zd : list bool) : outcome (list bool * list bytes) :=
  metric ← must (metrics !! index);
  c ← must (curr !! index); p ← must (prev !! index);
  let val := wrapu w (c - p) in
  emit ← (if full || (0 <? val)%Z then Ret true else z ← must (zd !! index); Ret (negb z));
  let text := match rate index with
              | Some (factor, prec) => FormatFloat prec (f64_mul (f64_div (f64_of_int val) deltaSec) factor)
              | None => FormatUint val
              end in
  zd ← store zd index (val =? 0)%Z;
  Ret (zd, if emit : bool then [line metric text promTs] else []).

(** A gauge. *)
Definition gen_gauge (full : bool) (promTs : bytes) (metrics : gmap nat bytes) (curr prev : list Z) (index : nat) (st : unit)
    : outcome (unit * list bytes) :=
  metric ← must (metrics !! index);
  val ← must (curr !! index);
  emit ← (if full then Ret true else p ← must (prev !! index); Ret (negb (val =? p)%Z));
  Ret (st, if emit : bool then [line metric (FormatUint val) promTs] else []).

Abbreviation cache := (gmap Qdisc.QdiscInfoKey QdiscMetricsInfo).

(** Whether the discipline of a key is another one than before. *)
Definition info_changed (curr prev : Qdisc.QdiscInfo) : outcome bool :=
  if negb (bool_decide (Qdisc.IfName curr = Qdisc.IfName prev)) || negb (bool_decide (Qdisc.Kind curr = Qdisc.Kind prev)) then Ret true
  else c ← must (Qdisc.Uint32 curr !! Qdisc.QDISC_PARENT); p ← must (Qdisc.Uint32 prev !! Qdisc.QDISC_PARENT); Ret (negb (c =? p)%Z).

(** One discipline of the current scan. *)
Definition gen_qdisc (F : Z) (deltaSec : spec_float) (promTs : bytes) (ords : Qdisc.QdiscInfoKey -> orders) (curr prev : Qdisc.infomap)
    (key : Qdisc.QdiscInfoKey) (st : cache * Z) : outcome (cache * Z * list bytes) :=
  let '(m, icm) := st in
  currQi ← must (curr !! key);
  match prev !! key with
  | None => Ret (st, [])
  | Some prevQi =>
    '(old, annul) ← (match m !! key with
                     | None => Ret (None, [])
                     | Some i => ch ← info_changed currQi prevQi;
                                 Ret (if ch : bool then (None, [line (presenceMetric i) (bs "0") promTs]) else (Some i, []))
                     end);
    let full := match old with None => true | Some i => (cycleNum i =? 0)%Z end in
    '(info, icm) ← (match old with Some i => Ret (i, icm) | None => updateQdiscMetricsInfo F currQi icm end);
    '(zd32, l1) ← for_keys (gen_delta 32 qdiscUint32IndexRate full deltaSec promTs (uint32DeltaMetrics info) (Qdisc.Uint32 currQi) (Qdisc.Uint32 prevQi))
                    (o_d32 (ords key)) (uint32ZeroDelta info);
    '(_, l2) ← for_keys (gen_gauge full promTs (uint32Metrics info) (Qdisc.Uint32 currQi) (Qdisc.Uint32 prevQi)) (o_v32 (ords key)) tt;
    '(zd64, l3) ← for_keys (gen_delta 64 qdiscUint64IndexRate full deltaSec promTs (uint64DeltaMetrics info) (Qdisc.Uint64 currQi) (Qdisc.Uint64 prevQi))
                    (o_d64 (ords key)) (uint64ZeroDelta info);
    let up := if full : bool then [line (presenceMetric info) (bs "1") promTs] else [] in
    let info := mkInfo (uint32DeltaMetrics info) (uint32Metrics info) (uint64DeltaMetrics info) (presenceMetric info) zd32 zd64
                  (next_cycle F (cycleNum info)) in
    Ret (<[key := info]> m, icm, annul ++ l1 ++ l2 ++ l3 ++ up)
  end.

Definition generateMetrics (order : Qdisc.infomap -> list Qdisc.QdiscInfoKey) (order2 : cache -> list Qdisc.QdiscInfoKey)
    (ords : Qdisc.QdiscInfoKey -> orders) (g : QdiscMetrics) (icm : Z) : outcome (QdiscMetrics * Z * list bytes * (Z * Z)) :=
  let ci := currIndex g in
  curr ← must (qdiscStats g !! ci); prev ← must (qdiscStats g !! (1 - ci));
  currTs ← must (qdiscStatsTs g !! ci); prevTs ← must (qdiscStatsTs g !! (1 - ci));
  match prev with
  | None =>
    Ret (mkMetrics (fullMetricsFactor g) (qdiscStats g) (shared g) (qdiscStatsTs g) (1 - ci) (qdiscMetricsInfoMap g) (intervalMetric g)
           (totalMetricsCount g), icm, [], (0, 0)%Z)
  | Some prev =>
    curr ← must curr;
    let promTs := ts_suffix currTs in
    let deltaSec := Seconds (Sub currTs prevTs) in
    '(m, icm, lines) ← for_keys (gen_qdisc (fullMetricsFactor g) deltaSec promTs ords curr prev) (order curr) (qdiscMetricsInfoMap g, icm);
    let '(m, gone) :=
      if negb (size m =? size curr)
      then remove_gone (fun _ i => [line (presenceMetric i) (bs "0") promTs]) (fun key => bool_decide (is_Some (curr !! key))) (order2 m) m
      else (m, []) in
    let im := default updateIntervalMetric (intervalMetric g) in
    let lines := lines ++ gone ++ [line im (FormatFloat 6 deltaSec) promTs] in
    let total := if (totalMetricsCount g =? 0)%Z then (Z.of_nat (size curr) * (qdiscMetricsCount + 1) + 1)%Z else totalMetricsCount g in
    Ret (mkMetrics (fullMetricsFactor g) (qdiscStats g) (shared g) (qdiscStatsTs g) (1 - ci) m (Some im) total,
         icm, lines, (Z.of_nat (length lines), total))
  end.

(** [parse] is the parser, whose arguments are those of the environment. *)
Definition Execute (parse : Qdisc.infomap -> Qdisc.QdiscStatsShared -> outcome (Qdisc.infomap * Qdisc.QdiscStatsShared * option Qdisc.error))
    (now : Time) (order : Qdisc.infomap -> list Qdisc.QdiscInfoKey) (order2 : cache -> list Qdisc.QdiscInfoKey)
    (ords : Qdisc.QdiscInfoKey -> orders) (g : QdiscMetrics) (icm : Z) (mgs : MetricsGeneratorStats)
    : outcome (QdiscMetrics * Z * MetricsGeneratorStats * option bytes * bool) :=
  let ci := currIndex g in
  let set objs sh ts := mkMetrics (fullMetricsFactor g) objs sh ts ci (qdiscMetricsInfoMap g) (intervalMetric g) (totalMetricsCount g) in
  curr ← must (qdiscStats g !! ci);
  prev ← must (qdiscStats g !! (1 - ci));
  let curr := match curr with
              | Some s => s
              | None => match prev with Some p => Qdisc.Clone p | None => Qdisc.NewQdiscStats.1 end
              end in
  '(curr, sh, err) ← parse curr (shared g);
  objs ← store (qdiscStats g) ci (Some curr);
  match err with
  | Some _ => Ret (set objs sh (qdiscStatsTs g), icm, mgs, None, false)
  | None =>
    ts ← store (qdiscStatsTs g) ci now;
    '(g, icm, lines, (actual, total)) ← generateMetrics order order2 ords (set objs sh ts) icm;
    if (0 <? total)%Z then
      let buf := concat lines in
      mgs ← Update QDISC_METRICS_ID (u64 actual) (u64 total) (u64 (Z.of_nat (length buf))) mgs;
      Ret (g, icm, mgs, Some buf, true)
    else Ret (g, icm, mgs, None, true)
  end.
(** ** What a generation writes *)

Abbreviation N32 := Qdisc.QDISK_UINT32_NUM_STATS.
Abbreviation N64 := Qdisc.QDISK_UINT64_NUM_STATS.

(** A discipline of a scan, with all its counters and the handle of its key. *)
Definition disc_ok (key : Qdisc.QdiscInfoKey) (qi : Qdisc.QdiscInfo) : Prop :=
  length (Qdisc.Uint32 qi) = N32 /\ length (Qdisc.Uint64 qi) = N64 /\ Qdisc.Uint32 qi !! Qdisc.QDISC_HANDLE = Some key.2.

Definition labels_of (key : Qdisc.QdiscInfoKey) (qi : Qdisc.QdiscInfo) : list (bytes * bytes) :=
  [(QDISC_KIND_LABEL_NAME, Qdisc.Kind qi); (QDISC_HANDLE_LABEL_NAME, Qdisc.QdiscMajMin key.2);
   (QDISC_PARENT_LABEL_NAME, Qdisc.QdiscMajMin (Qdisc.Uint32 qi !!! Qdisc.QDISC_PARENT)); (QDISC_IF_LABEL_NAME, Qdisc.IfName qi)].

(** The cached data for given labels. *)
Record info_ok (F : Z) (ls : list (bytes * bytes)) (i : QdiscMetricsInfo) : Prop := mkInfoOk {
  io_d32 : uint32DeltaMetrics i = metrics_of ls qdiscUint32IndexToDeltaMetricNameMap;
  io_v32 : uint32Metrics i = metrics_of ls qdiscUint32IndexToMetricNameMap;
  io_d64 : uint64DeltaMetrics i = metrics_of ls qdiscUint64IndexToDeltaMetricNameMap;
  io_presence : presenceMetric i = metric QDISC_PRESENCE_METRIC instance hostname ls;
  io_zero : length (uint32ZeroDelta i) = N32 /\ length (uint64ZeroDelta i) = N64;
  io_cycle : (0 <= cycleNum i < Z.max 1 F)%Z
}.

(** The delta of a counter of [w] bits and its text. *)
Definition delta (w : Z) (c p : list Z) (i : nat) : Z := wrapu w (c !!! i - p !!! i).
Definition delta_text (rate : nat -> option (spec_float * nat)) (deltaSec : spec_float) (i : nat) (d : Z) : bytes :=
  match rate i with
  | Some (factor, prec) => FormatFloat prec (f64_mul (f64_div (f64_of_int d) deltaSec) factor)
  | None => FormatUint d
  end.
Definition name_in (ls : list (bytes * bytes)) (names : list (nat * bytes)) (i : nat) : bytes := default [] (metrics_of ls names !! i).
Definition delta_lines (w : Z) (rate : nat -> option (spec_float * nat)) (full : bool) (deltaSec : spec_float) (promTs : bytes)
    (ls : list (bytes * bytes)) (names : list (nat * bytes)) (c p : list Z) (i : nat) (zero : bool) : list bytes :=
  if full || negb (delta w c p i =? 0)%Z || negb zero
  then [line (name_in ls names i) (delta_text rate deltaSec i (delta w c p i)) promTs] else [].
Definition gauge_lines (full : bool) (promTs : bytes) (ls : list (bytes * bytes)) (c p : list Z) (i : nat) : list bytes :=
  if full || negb (c !!! i =? p !!! i)%Z then [line (name_in ls qdiscUint32IndexToMetricNameMap i) (FormatUint (c !!! i)) promTs] else [].

Lemma metrics_of_lookup ls names i : i ∈ map fst names -> metrics_of ls names !! i = Some (name_in ls names i).
Proof.
  intros Hi. unfold name_in. destruct (metrics_of ls names !! i) as [m|] eqn:E; [done|]. exfalso.
  apply (not_elem_of_list_to_map (M := gmap nat)) in E. apply E. apply list_elem_of_In, in_map_iff in Hi as ([j name] & <- & Hi).
  apply list_elem_of_fmap. exists (j, metric name instance hostname ls). split; [done|].
  apply list_elem_of_In, in_map_iff. by exists (j, name).
Qed.

Lemma wrapu_pos w z : (0 <= w)%Z -> (0 <? wrapu w z)%Z = negb (wrapu w z =? 0)%Z.
Proof. intros Hw. pose proof (wrapu_range w z Hw). destruct (Z.eqb_spec (wrapu w z) 0); cbn; [|]; lia. Qed.

Section loops.
Context (full : bool) (deltaSec : spec_float) (promTs : bytes) (ls : list (bytes * bytes)).

(** A loop over deltas. *)
Lemma qdisc_deltas w rate names (c p : list Z) order zd N :
  (0 <= w)%Z -> order ≡ₚ map fst names -> NoDup (map fst names) -> Forall (fun i => i < N) (map fst names) ->
  length c = N -> length p = N -> length zd = N ->
  exists zd', for_keys (gen_delta w rate full deltaSec promTs (metrics_of ls names) c p) order zd =
      Ret (zd', concat (map (fun i => delta_lines w rate full deltaSec promTs ls names c p i (zd !!! i)) order)) /\
    length zd' = N /\ forall i, i ∈ map fst names -> zd' !! i = Some (delta w c p i =? 0)%Z.
Proof.
  intros Hw Ho Hnd Hlt Hc Hp Hz.
  destruct (for_indexes_spec (gen_delta w rate full deltaSec promTs (metrics_of ls names) c p)
    (delta_lines w rate full deltaSec promTs ls names c p) (fun i => (delta w c p i =? 0)%Z) N order zd) as (zd' & Hf & Hl & Hk).
  - intros i zd1 Hi Hin Hz1. rewrite Ho in Hi. unfold gen_delta, delta_lines, delta. rewrite (metrics_of_lookup ls names i Hi).
    rewrite (list_lookup_lookup_total_lt c i), (list_lookup_lookup_total_lt p i), (list_lookup_lookup_total_lt zd1 i) by lia.
    cbn [must]. rewrite !bind_ret. rewrite store_Ret by lia. rewrite wrapu_pos by done. fold (delta_text rate deltaSec i (wrapu w (c !!! i - p !!! i))).
    by destruct full, (wrapu w (c !!! i - p !!! i) =? 0)%Z, (zd1 !!! i).
  - by rewrite Ho.
  - by rewrite Ho.
  - done.
  - exists zd'. split; [done|]. split; [done|]. intros i Hi. rewrite Hk. rewrite bool_decide_eq_true_2; [done|]. by rewrite Ho.
Qed.

Lemma qdisc_gauges (c p : list Z) order :
  order ≡ₚ map fst qdiscUint32IndexToMetricNameMap -> length c = N32 -> length p = N32 ->
  for_keys (gen_gauge full promTs (metrics_of ls qdiscUint32IndexToMetricNameMap) c p) order tt =
  Ret (tt, concat (map (gauge_lines full promTs ls c p) order)).
Proof.
  intros Ho Hc Hp. apply for_keys_unit. intros i Hi. rewrite Ho in Hi. unfold gen_gauge, gauge_lines.
  rewrite (metrics_of_lookup ls _ i Hi). assert (i < N32) by (unfold Qdisc.QDISK_UINT32_NUM_STATS; cbn in Hi; set_unfold; vm_compute in Hi; lia).
  rewrite (list_lookup_lookup_total_lt c i), (list_lookup_lookup_total_lt p i) by lia. cbn [must]. rewrite !bind_ret. by destruct full.
Qed.
End loops.

(** The lines of a discipline written with the labels [ls]. *)
Definition counter_lines (full : bool) (deltaSec : spec_float) (promTs : bytes) (ls : list (bytes * bytes)) (os : orders)
    (c p : Qdisc.QdiscInfo) (z32 z64 : list bool) : list bytes :=
  concat (map (fun i => delta_lines 32 qdiscUint32IndexRate full deltaSec promTs ls qdiscUint32IndexToDeltaMetricNameMap
                          (Qdisc.Uint32 c) (Qdisc.Uint32 p) i (z32 !!! i)) (o_d32 os)) ++
  concat (map (gauge_lines full promTs ls (Qdisc.Uint32 c) (Qdisc.Uint32 p)) (o_v32 os)) ++
  concat (map (fun i => delta_lines 64 qdiscUint64IndexRate full deltaSec promTs ls qdiscUint64IndexToDeltaMetricNameMap
                          (Qdisc.Uint64 c) (Qdisc.Uint64 p) i (z64 !!! i)) (o_d64 os)) ++
  (if full then [line (metric QDISC_PRESENCE_METRIC instance hostname ls) (bs "1") promTs] else []).
Section qdisc_step.
Context (F : Z) (deltaSec : spec_float) (promTs : bytes) (ords : Qdisc.QdiscInfoKey -> orders) (curr prev : Qdisc.infomap).
Hypothesis HF : (F <= MaxInt64)%Z.
Hypothesis Hcurr : map_Forall disc_ok curr.
Hypothesis Hprev : map_Forall disc_ok prev.
Hypothesis Hords : forall key, o_d32 (ords key) ≡ₚ map fst qdiscUint32IndexToDeltaMetricNameMap /\
  o_v32 (ords key) ≡ₚ map fst qdiscUint32IndexToMetricNameMap /\ o_d64 (ords key) ≡ₚ map fst qdiscUint64IndexToDeltaMetricNameMap.

(** The name, the kind or the parent changed. *)
Definition changed (c p : Qdisc.QdiscInfo) : bool :=
  negb (bool_decide (Qdisc.IfName c = Qdisc.IfName p)) || negb (bool_decide (Qdisc.Kind c = Qdisc.Kind p)) ||
  negb (Qdisc.Uint32 c !!! Qdisc.QDISC_PARENT =? Qdisc.Uint32 p !!! Qdisc.QDISC_PARENT)%Z.
(** The data that is still good. *)
Definition kept (o : option QdiscMetricsInfo) (c p : Qdisc.QdiscInfo) : option QdiscMetricsInfo := if changed c p then None else o.
Definition is_full (o : option QdiscMetricsInfo) : bool := match o with Some i => (cycleNum i =? 0)%Z | None => true end.
Definition zeros32 (o : option QdiscMetricsInfo) : list bool := match o with Some i => uint32ZeroDelta i | None => replicate N32 false end.
Definition zeros64 (o : option QdiscMetricsInfo) : list bool := match o with Some i => uint64ZeroDelta i | None => replicate N64 false end.

Definition qdisc_lines (key : Qdisc.QdiscInfoKey) (o : option QdiscMetricsInfo) (c p : Qdisc.QdiscInfo) : list bytes :=
  (match o with Some i => if changed c p then [line (presenceMetric i) (bs "0") promTs] else [] | None => [] end) ++
  counter_lines (is_full (kept o c p)) deltaSec promTs (labels_of key c) (ords key) c p (zeros32 (kept o c p)) (zeros64 (kept o c p)).

(** What a generation did for a discipline. *)
Definition qdisc_done (key : Qdisc.QdiscInfoKey) (o o' : option QdiscMetricsInfo) (L : list bytes) : Prop :=
  match curr !! key, prev !! key with
  | Some c, Some p =>
    L = qdisc_lines key o c p /\
    exists i', o' = Some i' /\ info_ok F (labels_of key c) i' /\
      (forall j, j ∈ map fst qdiscUint32IndexToDeltaMetricNameMap ->
         uint32ZeroDelta i' !! j = Some (delta 32 (Qdisc.Uint32 c) (Qdisc.Uint32 p) j =? 0)%Z) /\
      (forall j, j ∈ map fst qdiscUint64IndexToDeltaMetricNameMap ->
         uint64ZeroDelta i' !! j = Some (delta 64 (Qdisc.Uint64 c) (Qdisc.Uint64 p) j =? 0)%Z) /\
      (forall i, kept o c p = Some i -> cycleNum i' = ((cycleNum i + 1) mod Z.max 1 F)%Z)
  | _, _ => L = [] /\ o' = o
  end.

Lemma info_changed_ok key c p : curr !! key = Some c -> prev !! key = Some p -> info_changed c p = Ret (changed c p).
Proof.
  intros Hc Hp. destruct (Hcurr _ _ Hc) as (H1 & _), (Hprev _ _ Hp) as (H2 & _). unfold info_changed, changed.
  destruct (negb _ || negb _); [done|].
  rewrite (list_lookup_lookup_total_lt (Qdisc.Uint32 c) Qdisc.QDISC_PARENT) by (rewrite H1; apply Nat.lt_0_succ).
  rewrite (list_lookup_lookup_total_lt (Qdisc.Uint32 p) Qdisc.QDISC_PARENT) by (rewrite H2; apply Nat.lt_0_succ). done.
Qed.

Lemma update_info_ok key c icm : curr !! key = Some c -> (0 <= icm)%Z ->
  exists i icm', updateQdiscMetricsInfo F c icm = Ret (i, icm') /\ (0 <= icm')%Z /\ info_ok F (labels_of key c) i /\
    uint32ZeroDelta i = replicate N32 false /\ uint64ZeroDelta i = replicate N64 false.
Proof.
  intros Hc Hicm. destruct (Hcurr _ _ Hc) as (H1 & _ & H3). unfold updateQdiscMetricsInfo, commonLabels. rewrite H3.
  rewrite (list_lookup_lookup_total_lt (Qdisc.Uint32 c) Qdisc.QDISC_PARENT) by (rewrite H1; apply Nat.lt_0_succ).
  cbn [must]. rewrite !bind_ret. fold (labels_of key c). destruct (InitialCycleNum_Get F icm) as [cn icm'] eqn:Eg.
  apply InitialCycleNum_range in Eg as [Hr Hi]; [|done]. eexists _, icm'. split; [reflexivity|]. split; [done|]. split; [by split|done].
Qed.

(** Without a change the labels are the same. *)
Lemma labels_same key c p : changed c p = false -> labels_of key c = labels_of key p.
Proof.
  unfold changed, labels_of. intros E. apply orb_false_iff in E as [E E3]. apply orb_false_iff in E as [E1 E2].
  apply negb_false_iff in E1, E2, E3. apply bool_decide_eq_true in E1, E2. apply Z.eqb_eq in E3. by rewrite E1, E2, E3.
Qed.
(** The data used for a discipline: the old one or new, for the current labels. *)
Lemma qdisc_info key c p o icm :
  curr !! key = Some c -> prev !! key = Some p -> (0 <= icm)%Z -> (forall i, o = Some i -> info_ok F (labels_of key p) i) ->
  exists i icm', (match kept o c p with Some i => Ret (i, icm) | None => updateQdiscMetricsInfo F c icm end) = Ret (i, icm') /\
    (0 <= icm')%Z /\ info_ok F (labels_of key c) i /\ uint32ZeroDelta i = zeros32 (kept o c p) /\ uint64ZeroDelta i = zeros64 (kept o c p) /\
    forall j, kept o c p = Some j -> i = j.
Proof.
  intros Hc Hp Hicm Ho. destruct (kept o c p) as [i|] eqn:Ek.
  - exists i, icm. split_and!; try done; [|naive_solver]. unfold kept in Ek. destruct (changed c p) eqn:Ech; [done|].
    rewrite (labels_same key c p Ech). by apply Ho.
  - destruct (update_info_ok key c icm Hc Hicm) as (i & icm' & Hu & Hi & Hok & H1 & H2). by exists i, icm'.
Qed.

Lemma gen_qdisc_ok key m icm :
  (0 <= icm)%Z -> is_Some (curr !! key) -> (forall p i, prev !! key = Some p -> m !! key = Some i -> info_ok F (labels_of key p) i) ->
  exists m' icm' L, gen_qdisc F deltaSec promTs ords curr prev key (m, icm) = Ret (m', icm', L) /\ (0 <= icm')%Z /\
    qdisc_done key (m !! key) (m' !! key) L /\ (forall k, k <> key -> m' !! k = m !! k).
Proof.
  intros Hicm [c Hc] Hm. unfold gen_qdisc, qdisc_done. rewrite Hc. cbn [must]. rewrite bind_ret.
  destruct (prev !! key) as [p|] eqn:Hp; [|by eexists m, icm, []].
  destruct (Hcurr _ _ Hc) as (Hc32 & Hc64 & _). destruct (Hprev _ _ Hp) as (Hp32 & Hp64 & _). destruct (Hords key) as (Ho1 & Ho2 & Ho3).
  set (annul := match m !! key with Some i => if changed c p then [line (presenceMetric i) (bs "0") promTs] else [] | None => [] end).
  assert (forall {B} (k : option QdiscMetricsInfo * list bytes -> outcome B), (x ← match m !! key with
      | None => Ret (None, [])
      | Some i => ch ← info_changed c p; Ret (if ch : bool then (None, [line (presenceMetric i) (bs "0") promTs]) else (Some i, []))
      end; k x) = k (kept (m !! key) c p, annul)) as Hold.
  { intros B k. unfold kept, annul. destruct (m !! key) as [i|]; [|by destruct (changed c p)].
    rewrite (info_changed_ok key) by done. by destruct (changed c p). }
  rewrite Hold. clear Hold. fold (is_full (kept (m !! key) c p)). set (o := kept (m !! key) c p).
  destruct (qdisc_info key c p (m !! key) icm Hc Hp Hicm (fun i Hi => Hm p i eq_refl Hi)) as
    (i & icm' & Hi & Hicm' & [H1 H2 H3 H4 [H5 H6] H7] & Hz32 & Hz64 & Hsame). fold o in Hi, Hz32, Hz64, Hsame. rewrite Hi, bind_ret, H1, H2, H3, H4.
  destruct (qdisc_deltas (is_full o) deltaSec promTs (labels_of key c) 32 qdiscUint32IndexRate qdiscUint32IndexToDeltaMetricNameMap
    (Qdisc.Uint32 c) (Qdisc.Uint32 p) (o_d32 (ords key)) (uint32ZeroDelta i) N32) as (zd32 & -> & Hl32 & Hk32); try done.
  { apply (bool_decide_unpack _). vm_compute. exact I. } { repeat constructor; vm_compute; lia. }
  rewrite bind_ret, qdisc_gauges, bind_ret by done.
  destruct (qdisc_deltas (is_full o) deltaSec promTs (labels_of key c) 64 qdiscUint64IndexRate qdiscUint64IndexToDeltaMetricNameMap
    (Qdisc.Uint64 c) (Qdisc.Uint64 p) (o_d64 (ords key)) (uint64ZeroDelta i) N64) as (zd64 & -> & Hl64 & Hk64); try done.
  { apply (bool_decide_unpack _). vm_compute. exact I. } { repeat constructor; vm_compute; lia. }
  rewrite bind_ret. eexists _, icm', _. split; [reflexivity|]. split; [done|]. split; [|intros k Hne; by rewrite lookup_insert_ne].
  split; [unfold qdisc_lines, counter_lines; fold o; by rewrite Hz32, Hz64|]. rewrite lookup_insert_eq. eexists. split; [done|].
  split; [split; simpl; try done; rewrite next_cycle_mod by done; apply Z.mod_pos_bound; lia|].
  split; [done|]. split; [done|]. intros j Hj. simpl. by rewrite next_cycle_mod, (Hsame j Hj) by done.
Qed.
End qdisc_step.
(** A generator that holds two scans; the cached data of a discipline is for the
    labels that it has in the previous one. *)
Record gen_ok (g : QdiscMetrics) (curr prev : Qdisc.infomap) (currTs prevTs : Time) : Prop := mkGenOk {
  go_F : (fullMetricsFactor g <= MaxInt64)%Z;
  go_curr : qdiscStats g !! currIndex g = Some (Some curr) /\ qdiscStatsTs g !! currIndex g = Some currTs;
  go_prev : qdiscStats g !! (1 - currIndex g) = Some (Some prev) /\ qdiscStatsTs g !! (1 - currIndex g) = Some prevTs;
  go_scans : map_Forall disc_ok curr /\ map_Forall disc_ok prev;
  go_info : forall key p i, prev !! key = Some p -> qdiscMetricsInfoMap g !! key = Some i -> info_ok (fullMetricsFactor g) (labels_of key p) i
}.

Context (order : Qdisc.infomap -> list Qdisc.QdiscInfoKey) (order2 : cache -> list Qdisc.QdiscInfoKey) (ords : Qdisc.QdiscInfoKey -> orders).
Hypothesis order_ok : is_order order.
Hypothesis order2_ok : is_order order2.
Hypothesis ords_ok : forall key, o_d32 (ords key) ≡ₚ map fst qdiscUint32IndexToDeltaMetricNameMap /\
  o_v32 (ords key) ≡ₚ map fst qdiscUint32IndexToMetricNameMap /\ o_d64 (ords key) ≡ₚ map fst qdiscUint64IndexToDeltaMetricNameMap.

(** Whether a generation removes what is gone: the disciplines with cached data
    are then not as many as those of the scan.  Those found for the first time
    have none yet, so where as many are new as are gone the removal is left to a
    later generation. *)
Definition clean_up_due (g : QdiscMetrics) (curr prev : Qdisc.infomap) : Prop :=
  size (dom (qdiscMetricsInfoMap g) ∪ (dom curr ∩ dom prev) : gset Qdisc.QdiscInfoKey) <> size curr.

(** C36: a generation with two scans does not panic.  For every discipline of
    both scans it writes the exact 32 and 64-bit deltas, the rate of the bytes
    and the gauges under the current labels, by the rules of zeros, changes and
    full cycles; one whose interface name, kind or parent changed is first
    reported absent under its old labels and then written in full.  When the
    number of disciplines with cached data is not that of the scan, each of those
    that the scan does not have is reported absent, by one line, and forgotten;
    otherwise nothing is reported absent and nothing forgotten (so a discipline
    that goes as another comes is reported in a later generation).  The zeros are
    remembered, the cycles advanced, and the total, once it is computed, stays. *)
Theorem qdisc_metrics_deltas g icm curr prev currTs prevTs :
  gen_ok g curr prev currTs prevTs -> (0 <= icm)%Z ->
  let F := fullMetricsFactor g in let promTs := ts_suffix currTs in let deltaSec := Seconds (Sub currTs prevTs) in
  exists g' icm' Ls gone lines,
    generateMetrics order order2 ords g icm = Ret (g', icm', lines, (Z.of_nat (length lines), totalMetricsCount g')) /\
    lines = concat Ls ++ gone ++ [line (default updateIntervalMetric (intervalMetric g)) (FormatFloat 6 deltaSec) promTs] /\
    Forall2 (fun key L => qdisc_done F deltaSec promTs ords curr prev key (qdiscMetricsInfoMap g !! key) (qdiscMetricsInfoMap g' !! key) L)
      (order curr) Ls /\
    gone_reported (fun _ i => line (presenceMetric i) (bs "0") promTs) curr (qdiscMetricsInfoMap g) (qdiscMetricsInfoMap g')
      (clean_up_due g curr prev) gone /\
    (totalMetricsCount g <> 0%Z -> totalMetricsCount g' = totalMetricsCount g) /\
    currIndex g' = 1 - currIndex g /\ qdiscStats g' = qdiscStats g /\ (0 <= icm')%Z.
Proof.
  intros [HF [Hc1 Hc2] [Hp1 Hp2] [Hsc Hsp] Hinfo] Hicm F promTs deltaSec. destruct (order_ok curr) as [Hnd Hin].
  unfold generateMetrics. rewrite Hc1, Hc2, Hp1, Hp2. cbn [must]. rewrite !bind_ret. cbn [must]. rewrite bind_ret.
  fold F promTs deltaSec.
  destruct (for_keys_spec_at (gen_qdisc F deltaSec promTs ords curr prev) fst (fun st => (0 <= st.2)%Z) (qdisc_done F deltaSec promTs ords curr prev)
    (order curr) (qdiscMetricsInfoMap g, icm)) as ([m icm'] & Ls & -> & Hicm' & HQ & Hrest); [|done|done|].
  { intros [m0 icm0] key Hst Hk He. cbn [fst snd] in *. destruct (gen_qdisc_ok F deltaSec promTs ords curr prev HF Hsc Hsp ords_ok key m0 icm0 Hst)
      as (m' & icm' & L & H1 & H2 & H3 & H4); [by apply Hin| |exists (m', icm'), L; done].
    intros p i Hp Hi. rewrite He in Hi. by apply (Hinfo key). }
  rewrite bind_ret. cbn [fst snd] in *.
  assert (forall key, curr !! key = None -> m !! key = qdiscMetricsInfoMap g !! key) as Hm.
  { intros key Hn. apply Hrest. rewrite Hin, Hn. by intros []. }
  destruct (clean_up_spec (fun _ i => line (presenceMetric i) (bs "0") promTs) curr order2 (qdiscMetricsInfoMap g) m (size curr) order2_ok Hm)
    as (m' & gone & -> & Hm' & Hgone).
  rewrite (loop_size (qdiscMetricsInfoMap g) m curr prev) in Hgone.
  2:{ intros key. destruct (decide (key ∈ order curr)) as [Ho|Ho].
      - destruct (list_elem_of_lookup_1 _ _ Ho) as [n Hn]. destruct (Forall2_lookup_l _ _ _ _ _ HQ Hn) as (L & _ & Hq). cbn beta in Hq.
        unfold qdisc_done in Hq. destruct (proj1 (Hin key) Ho) as [c Hc]. rewrite Hc in *. destruct (prev !! key) as [p|]; [|by destruct Hq as [_ ->]; naive_solver].
        destruct Hq as (_ & i' & -> & _). naive_solver.
      - rewrite Hrest by done. rewrite Hin in Ho. naive_solver. }
  match goal with |- context [Ret (?g', _, ?l, _)] => exists g', icm', Ls, gone, l end. split; [reflexivity|]. split; [done|].
  cbn [qdiscMetricsInfoMap totalMetricsCount currIndex qdiscStats]. split; [|split; [done|split; [|done]]].
  - apply Forall2_same_length_lookup. split; [by eapply Forall2_length|]. intros n key L Ho HL.
    pose proof (Forall2_lookup_lr _ _ _ _ _ _ HQ Ho HL) as Hq. cbn beta in Hq. rewrite (Hm' key); [done|]. apply Hin. by eapply list_elem_of_lookup_2.
  - intros Hne. destruct (Z.eqb_spec (totalMetricsCount g) 0); done.
Qed.
End generator.
(** ** Samples *)

Definition sample_orders (_ : Qdisc.QdiscInfoKey) : orders :=
  mkOrders (map fst qdiscUint32IndexToDeltaMetricNameMap) (map fst qdiscUint32IndexToMetricNameMap) (map fst qdiscUint64IndexToDeltaMetricNameMap).
Definition sample_qi (packets bytes : Z) : Qdisc.QdiscInfo :=
  Qdisc.mkInfo (bs "eth0") (bs "fq") [0; 65536; packets; 0; 0; 0; 3; 4]%Z [bytes; 0; 0; 0]%Z 1.
Definition sample_key : Qdisc.QdiscInfoKey := (2, 65536)%Z.
Definition sample_gen : QdiscMetrics :=
  mkMetrics 15 [Some {[ sample_key := sample_qi 1 5000 ]}; Some {[ sample_key := sample_qi 4294967295 3000 ]}] Qdisc.NewQdiscStats.2
    [mkTime (2 * Second) None; zeroTime] 0 ∅ None 0.

(** The packets wrap around: the delta is 2; 2000 bytes in 2 s are 8.0 kbps. *)
Lemma qdisc_metrics_deltas_witness :
  exists g' icm' lines counts,
    generateMetrics (bs "i") (bs "h") some_order some_order sample_orders sample_gen 0 = Ret (g', icm', lines, counts) /\
    lines !! 0 = Some (line (name_in (bs "i") (bs "h") (labels_of sample_key (sample_qi 1 5000)) qdiscUint32IndexToDeltaMetricNameMap 2) (bs "2")
                         (ts_suffix (mkTime (2 * Second) None))) /\
    lines !! 6 = Some (line (name_in (bs "i") (bs "h") (labels_of sample_key (sample_qi 1 5000)) qdiscUint64IndexToDeltaMetricNameMap 0) (bs "8.0")
                         (ts_suffix (mkTime (2 * Second) None))).
Proof.
  destruct (qdisc_metrics_deltas (bs "i") (bs "h") some_order some_order sample_orders some_order_ok some_order_ok
    (fun _ => conj (reflexivity _) (conj (reflexivity _) (reflexivity _))) sample_gen 0 {[ sample_key := sample_qi 1 5000 ]}
    {[ sample_key := sample_qi 4294967295 3000 ]} (mkTime (2 * Second) None) zeroTime) as (g' & icm' & Ls & gone & lines & Hgen & Hl & HQ & _).
  - split; [vm_compute; discriminate|done|done| |done]. split; by apply map_Forall_singleton.
  - lia.
  - eexists g', icm', lines, _. split; [exact Hgen|]. rewrite Hl. clear Hl Hgen.
    change (some_order {[ sample_key := sample_qi 1 5000 ]}) with [sample_key] in HQ.
    inversion_clear HQ as [|? L ? Ls' Hq HQ']. inversion_clear HQ'. destruct Hq as [-> _]. split; vm_compute; reflexivity.
Defined.
(** The numbers of metrics written by executions a second apart, on the given
    interfaces with constant counters. *)
Fixpoint executions (now : Z) (scans : list (list (Z * bytes))) (st : QdiscMetrics * Z) : outcome (list nat) :=
  match scans with
  | [] => Ret []
  | ifs :: scans =>
    let e := Qdisc.sample_env now ifs (map (fun ifa => Qdisc.sample_disc ifa.1) ifs) in
    '(g, icm, _, buf, _) ← Execute (bs "i") (bs "h")
        (Qdisc.Parse Qdisc.sample_uint Qdisc.sample_uint Qdisc.sample_string Qdisc.sample_unmarshal e)
        (Qdisc.e_now e) some_order some_order sample_orders st.1 st.2 ∅;
    rest ← executions (now + 1) scans (g, icm);
    Ret (length (filter (fun b => b = NL) (default [] buf)) :: rest)
  end.

(** an interface that comes up between two refreshes of the names makes the
    labels of its disciplines change in every generation: the object of the
    scan that finds it stores it without a name, the other one with its name,
    and each generation reports it absent under one and writes everything under
    the other.  With constant counters one known discipline costs only the
    interval line after its first generations; the new one adds 12 lines to
    every generation instead of none. *)
Theorem qdisc_labels_flap :
  let one := [(1%Z, bs "eth0")] in let two := [(1%Z, bs "eth0"); (2%Z, bs "eth1")] in
  executions 100 [one; one; one; one; two; two; two; two; two; two] (NewQdiscMetrics 1000, 5%Z) =
    Ret [0; 12; 1; 1; 1; 12; 13; 13; 13; 13].
Proof. vm_compute. reflexivity. Qed.
End QdiscMetrics.
