(* ===== verification/PidMetrics.v ===== *)
(** The metrics of a process or thread (src/lsvmi/proc_pid_metrics.go): the
    formats of the metrics, the cached data of a process, and what is written for
    it from its statistics, status and command line.

    A format is kept as its parts: the text up to the labels of the process and
    the names of the labels that follow; the verb of the value is applied where
    the metric is written.  This is the text that Printf makes of it when
    instance and hostname have no percent sign in them. *)

From Stdlib Require Import ZArith Lia.
From Stdlib Require Import Floats.SpecFloat.
From stdpp Require Import base tactics numbers strings gmap list.
From S2P Require Import Prelude Scan GoTime GoFloat MetricsCommon PidTidList PidStat PidStatus PidCmdline.
Import MetricsCommon.

Module PidMetrics.

Definition PROC_PID_METRICS_ID : bytes := bs "proc_pid_metrics".
Definition PROC_PID_PID_LABEL_NAME : bytes := bs "pid".
Definition PROC_PID_TID_LABEL_NAME : bytes := bs "tid".
Definition PROC_PID_STAT_STARTTIME_LABEL_NAME : bytes := bs "starttime_msec".
Definition PROC_PID_STARTTIME_FALLBACK_VALUE : Z := 0.
Definition PROC_PID_CMDLINE_METRIC : bytes := bs "proc_pid_cmdline".
Definition PROC_PID_CMDLINE_CMD_LABEL_NAME : bytes := bs "cmd".
Definition PROC_PID_STATUS_VM_UNIT_LABEL_NAME : bytes := bs "unit".
Definition PROC_PID_PART_LABEL_NAME : bytes := bs "part".
Definition PROC_PID_SPECIFIC_METRICS_COUNT : Z := 7.

(** ** Indexes of the parsed data *)

Definition PID_STAT_COMM : nat := 0.
Definition PID_STAT_STATE : nat := 1.
Definition PID_STAT_PPID : nat := 2.
Definition PID_STAT_PGRP : nat := 3.
Definition PID_STAT_SESSION : nat := 4.
Definition PID_STAT_TTY_NR : nat := 5.
Definition PID_STAT_TPGID : nat := 6.
Definition PID_STAT_FLAGS : nat := 7.
Definition PID_STAT_PRIORITY : nat := 8.
Definition PID_STAT_NICE : nat := 9.
Definition PID_STAT_NUM_THREADS : nat := 10.
Definition PID_STAT_STARTTIME : nat := 11.
Definition PID_STAT_VSIZE : nat := 12.
Definition PID_STAT_RSSLIM : nat := 13.
Definition PID_STAT_PROCESSOR : nat := 14.
Definition PID_STAT_RT_PRIORITY : nat := 15.
Definition PID_STAT_POLICY : nat := 16.

Definition PID_STAT_MINFLT : nat := 0.
Definition PID_STAT_MAJFLT : nat := 1.
Definition PID_STAT_UTIME : nat := 2.
Definition PID_STAT_STIME : nat := 3.
Definition PID_STAT_RSS : nat := 4.

Definition PID_STATUS_UID : nat := 0.
Definition PID_STATUS_GID : nat := 1.
Definition PID_STATUS_GROUPS : nat := 2.
Definition PID_STATUS_VM_PEAK : nat := 3.
Definition PID_STATUS_VM_STK : nat := 13.
Definition PID_STATUS_CPUS_ALLOWED_LIST : nat := 20.
Definition PID_STATUS_MEMS_ALLOWED_LIST : nat := 21.
Definition PID_STATUS_VOLUNTARY_CTXT_SWITCHES : nat := 0.
Definition PID_STATUS_NONVOLUNTARY_CTXT_SWITCHES : nat := 1.

(** The memory fields of the status that threads have metrics for. *)
Definition procPidStatusPidTidMetricMemoryIndex : list nat := [PID_STATUS_VM_STK].

(** ** Formats *)

Record Fmt := mkFmt { f_prefix : bytes; f_labels : list bytes }.
Abbreviation IndexFmt := (nat * Fmt)%type.

(** [fmt.Fprintf(buf, f, pidTidLabels, vals..., val, ts)].  The instance and the
    host name are part of the format; they are taken to have no [%]. *)
Definition Fprintf (f : Fmt) (pidTidLabels : bytes) (vals : list bytes) (val ts : bytes) : bytes :=
  f_prefix f ++ pidTidLabels ++
  concat (zip_with (fun name v => bs "," ++ name ++ bs "=" ++ [QUOTE] ++ v ++ [QUOTE]) (f_labels f) vals) ++
  bs "} " ++ val ++ bs " " ++ ts ++ [NL].

Section formats.
Context (instance hostname : bytes).

(** [%s{%s="%s",%s="%s",]. *)
Definition fmt_prefix (metricName : bytes) : bytes :=
  metricName ++ bs "{" ++ labels [(INSTANCE_LABEL_NAME, instance); (HOSTNAME_LABEL_NAME, hostname)] ++ bs ",".
Definition buildMetricFmt (metricName : bytes) (labelNames : list bytes) : Fmt := mkFmt (fmt_prefix metricName) labelNames.

(** [buildGeneratorSpecificMetricFmt], with the value and time stamp. *)
Definition generatorSpecificMetric (partNo : Z) (metricName val ts : bytes) : bytes :=
  fmt_prefix metricName ++ labels [(PROC_PID_PART_LABEL_NAME, Itoa partNo)] ++ bs "} " ++ val ++ bs " " ++ ts ++ [NL].

Record MetricFmts := mkFmts {
  pidStatStateMetricFmt : Fmt;
  pidStatCommMetricFmt : Fmt;
  pidStatInfoMetricFmt : Fmt;
  pidStatNumThreadsMetricsFmt : Fmt;
  pidStatPriorityMetricFmt : Fmt;
  pidStatCpuNumMetricFmt : Fmt;
  pidStatRssMetricFmt : Fmt;
  pidStatMemoryMetricFmt : list IndexFmt;
  pidStatTotalPcpuMetricFmt : Fmt;
  pidStatPcpuMetricFmt : list IndexFmt;
  pidStatFltMetricFmt : list IndexFmt;
  pidStatusInfoMetricFmt : Fmt;
  pidStatusPidOnlyMemoryMetricFmt : list IndexFmt;
  pidStatusPidTidMemoryMetricFmt : list IndexFmt;
  pidStatusCtxMetricFmt : list IndexFmt;
  pidCmdlineMetricFmt : Fmt;
  pidCmdlineCommPrefix : bytes;
  perPidTidMetricCount : Z;
  perPidOnlyMetricCount : Z
}.

(** The memory fields, from VmPeak on. *)
Definition pidStatusMemoryFmt : list IndexFmt :=
  imap (fun i name => (PID_STATUS_VM_PEAK + i, buildMetricFmt (bs name) [PROC_PID_STATUS_VM_UNIT_LABEL_NAME]))
    ["proc_pid_status_vm_peak"; "proc_pid_status_vm_size"; "proc_pid_status_vm_lck"; "proc_pid_status_vm_pin";
     "proc_pid_status_vm_hwm"; "proc_pid_status_vm_rss"; "proc_pid_status_rss_anon"; "proc_pid_status_rss_file";
     "proc_pid_status_rss_shmem"; "proc_pid_status_vm_data"; "proc_pid_status_vm_stk"; "proc_pid_status_vm_exe";
     "proc_pid_status_vm_lib"; "proc_pid_status_vm_pte"; "proc_pid_status_vm_pmd"; "proc_pid_status_vm_swap";
     "proc_pid_status_hugetlbpages"]%string.

(** The memory fields to use: all of them when the selection is empty. *)
Definition keeps_index (pidStatusMemKeepIndex : gset nat) (i : nat) : bool :=
  bool_decide (pidStatusMemKeepIndex = ∅) || bool_decide (i ∈ pidStatusMemKeepIndex).

(** [initMetricsCache]: the formats and the counts of metrics of a process.  The
    count of the PID only metrics leaves out the resident set size and counts the
    command line twice. *)
Definition initMetricsCache (usePidStatus : bool) (keep : gset nat) : MetricFmts :=
  let b name ls := buildMetricFmt (bs name) (map bs ls) in
  let ib i name := (i, b name []) in
  let mem := if usePidStatus then filter (fun x => keeps_index keep x.1 = true) pidStatusMemoryFmt else [] in
  let pidTidMem := filter (fun x : IndexFmt => x.1 ∈ procPidStatusPidTidMetricMemoryIndex) mem in
  let pidOnlyMem := filter (fun x : IndexFmt => x.1 ∉ procPidStatusPidTidMetricMemoryIndex) mem in
  let statMem := [ib PID_STAT_VSIZE "proc_pid_stat_vsize_bytes"; ib PID_STAT_RSSLIM "proc_pid_stat_rsslim_bytes"]%string in
  let flt := [ib PID_STAT_MINFLT "proc_pid_stat_minflt_delta"; ib PID_STAT_MAJFLT "proc_pid_stat_majflt_delta"]%string in
  let pcpu := [ib PID_STAT_STIME "proc_pid_stat_stime_pcpu"; ib PID_STAT_UTIME "proc_pid_stat_utime_pcpu"]%string in
  let ctx := if usePidStatus
             then [ib PID_STATUS_VOLUNTARY_CTXT_SWITCHES "proc_pid_status_vol_ctx_switch_delta";
                   ib PID_STATUS_NONVOLUNTARY_CTXT_SWITCHES "proc_pid_status_nonvol_ctx_switch_delta"]%string else [] in
  let n {A} (l : list A) := Z.of_nat (length l) in
  mkFmts
    (b "proc_pid_stat_state" ["state"])
    (b "proc_pid_stat_comm" ["starttime_msec"; "comm"])
    (b "proc_pid_stat_info" ["ppid"; "pgrp"; "session"; "tty"; "tpgid"; "flags"])
    (b "proc_pid_stat_num_threads" [])
    (b "proc_pid_stat_prio" ["prio"; "nice"; "rt_prio"; "policy"])
    (b "proc_pid_stat_cpu_num" [])
    (b "proc_pid_stat_rss_bytes" [])
    statMem
    (b "proc_pid_stat_pcpu" []) pcpu flt
    (b "proc_pid_status_info" ["uid"; "gid"; "groups"; "cpus_allowed"; "mems_allowed"])
    pidOnlyMem pidTidMem ctx
    (b "proc_pid_cmdline" ["cmd_path"; "args"; "cmd"])
    (fmt_prefix PROC_PID_CMDLINE_METRIC)
    (1 + 1 + 1 + 1 + n flt + (1 + n pcpu) + n pidTidMem + n ctx)%Z
    (1 + 1 + n statMem + (if usePidStatus then 1 else 0) + n pidOnlyMem + 2)%Z%string.

(** [pidCmdlineCommMetricFmt]: the command in brackets when there is no command
    line. *)
Definition Fprintf_comm (prefix pidTidLabels comm val ts : bytes) : bytes :=
  prefix ++ pidTidLabels ++ bs "," ++ PROC_PID_CMDLINE_CMD_LABEL_NAME ++ bs "=" ++ [QUOTE] ++ bs "[" ++ comm ++ bs "]" ++ [QUOTE] ++
  bs "} " ++ val ++ bs " " ++ ts ++ [NL].
End formats.

(** ** The data of a process *)

(** [ProcPidTidMetricsInfo], without the pointers of the list that it is in. *)
Record Info := mkInfo {
  i_pidStat : PidStat.PidStat;
  i_pidStatus : option PidStatus.PidStatus;
  prevTs : Time;
  pidTid : PidTidList.PidTid;
  pidTidPath : bytes;
  pidTidLabels : bytes;
  starttimeMsec : bytes;
  active : bool;
  pidStatFltZeroDelta : list bool;
  pidStatusCtxZeroDelta : list bool;
  cycleNum : Z;
  scanNum : Z
}.

(** [strconv.ParseFloat(s, 64)], exact on the decimal numbers that the kernel
    writes; [other] is its value elsewhere. *)
Definition ParseFloat (other : bytes -> option spec_float) (s : bytes) : option spec_float :=
  if negb (bool_decide (s = [])) && forallb is_digit s then
    match f64_of_int (dec s) with S754_infinity _ => None | f => Some f end
  else other s.

Definition pid_labels (pt : PidTidList.PidTid) : bytes :=
  PROC_PID_PID_LABEL_NAME ++ bs "=" ++ [QUOTE] ++ Itoa (PidTidList.Pid pt) ++ [QUOTE] ++
  (if (PidTidList.Tid pt =? PidTidList.PID_ONLY_TID)%Z then []
   else bs "," ++ PROC_PID_TID_LABEL_NAME ++ bs "=" ++ [QUOTE] ++ Itoa (PidTidList.Tid pt) ++ [QUOTE]).

Section generate.
Context (parse_other : bytes -> option spec_float) (linuxClktckSec : spec_float) (boottimeMsec pageSize : Z).

Definition starttime_label (starttime : bytes) : bytes :=
  let starttimeTck := default (f64_of_int PROC_PID_STARTTIME_FALLBACK_VALUE) (ParseFloat parse_other starttime) in
  Itoa (i64 (boottimeMsec + int_of_f64 (f64_mul (f64_mul starttimeTck linuxClktckSec) (f64_of_int 1000)))).

(** [initPidTidMetricsInfo]; [st] is the current parse of the statistics. *)
Definition initPidTidMetricsInfo (fullMetricsFactor : Z) (usePidStatus : bool) (st : PidStat.PidStat) (pt : PidTidList.PidTid)
    (path : bytes) (icm : Z) : outcome (Info * Z) :=
  starttime ← must ((PidStat.GetData st).1 !! PID_STAT_STARTTIME);
  let '(cn, icm) := InitialCycleNum_Get fullMetricsFactor icm in
  Ret (mkInfo PidStat.NewPidStat (if usePidStatus then Some PidStatus.NewPidStatus else None) zeroTime pt path (pid_labels pt)
         (starttime_label starttime) false (replicate 2 false) (replicate 2 false) cn 0, icm).

(** ** What is written for a process *)

(** [for _, index := range indexes { if changed = !bytes.Equal(...); changed { break } }]. *)
Fixpoint changed (prev curr : list bytes) (indexes : list nat) : outcome bool :=
  match indexes with
  | [] => Ret false
  | i :: indexes =>
    p ← must (prev !! i); c ← must (curr !! i);
    if bool_decide (p = c) then changed prev curr indexes else Ret true
  end.

(** A metric whose labels are values: after a change the old combination is
    cleared, and the current one is set. *)
Definition gen_labels (f : Fmt) (labels : bytes) (extra : list bytes) (indexes : list nat) (hasPrev full : bool) (prev curr : list bytes)
    (ts : bytes) : outcome (list bytes * bool) :=
  ch ← (if hasPrev then changed prev curr indexes else Ret false);
  clear ← (if ch : bool then vs ← mapM (fun i => must (prev !! i)) indexes; Ret [Fprintf f labels (extra ++ vs) (bs "0") ts] else Ret []);
  set ← (if full || negb hasPrev || ch then vs ← mapM (fun i => must (curr !! i)) indexes; Ret [Fprintf f labels (extra ++ vs) (bs "1") ts]
         else Ret []);
  Ret (clear ++ set, ch).

(** A value that is written as it is, when it changed. *)
Definition gen_value (f : Fmt) (labels : bytes) (all : bool) (prev curr : list bytes) (i : nat) (ts : bytes) : outcome (list bytes) :=
  c ← must (curr !! i);
  emit ← (if all then Ret true else p ← must (prev !! i); Ret (negb (bool_decide (p = c))));
  Ret (if emit : bool then [Fprintf f labels [] c ts] else []).

(** A memory field of the status, with its unit; missing ones are skipped. *)
Definition gen_status_mem (labels : bytes) (all : bool) (prev curr : list (option bytes)) (units : list bytes) (ts : bytes) (x : IndexFmt)
    : outcome (list bytes) :=
  c ← must (curr !! x.1);
  match c with
  | None => Ret []
  | Some v =>
    emit ← (if all then Ret true else p ← must (prev !! x.1); Ret (negb (bool_decide (default [] p = v))));
    u ← must (units !! x.1);
    Ret (if emit : bool then [Fprintf x.2 labels [u] v ts] else [])
  end.

(** [for i, indexFmt := range fmts]: deltas, with their zero flags. *)
Fixpoint gen_deltas (labels : bytes) (full : bool) (prev curr : list Z) (ts : bytes) (k : nat) (fmts : list IndexFmt) (zd : list bool)
    : outcome (list bool * list bytes) :=
  match fmts with
  | [] => Ret (zd, [])
  | (i, f) :: fmts =>
    c ← must (curr !! i); p ← must (prev !! i);
    let delta := u64 (c - p) in
    emit ← (if negb (delta =? 0)%Z || full then Ret true else z ← must (zd !! k); Ret (negb z));
    zd ← store zd k (delta =? 0)%Z;
    '(zd, lines) ← gen_deltas labels full prev curr ts (S k) fmts zd;
    Ret (zd, (if emit : bool then [Fprintf f labels [] (FormatUint delta) ts] else []) ++ lines)
  end.

(** The share of the processor: system, user and total. *)
Definition pcpu_text (pcpuFactor : spec_float) (delta : Z) : bytes := FormatFloat 1 (f64_mul (f64_of_int delta) pcpuFactor).
Fixpoint gen_pcpu (labels : bytes) (pcpuFactor : spec_float) (prev curr : list Z) (ts : bytes) (fmts : list IndexFmt) (total : Z)
    : outcome (list bytes * Z) :=
  match fmts with
  | [] => Ret ([], total)
  | (i, f) :: fmts =>
    c ← must (curr !! i); p ← must (prev !! i);
    let delta := u64 (c - p) in
    '(lines, total) ← gen_pcpu labels pcpuFactor prev curr ts fmts (u64 (total + delta));
    Ret (Fprintf f labels [] (pcpu_text pcpuFactor delta) ts :: lines, total)
  end.

(** A loop that writes lines. *)
Fixpoint for_lines {A} (f : A -> outcome (list bytes)) (l : list A) : outcome (list bytes) :=
  match l with
  | [] => Ret []
  | x :: l => a ← f x; b ← for_lines f l; Ret (a ++ b)
  end.

(** The deltas and shares, which need a previous scan. *)
Definition gen_delta_metrics (fm : MetricFmts) (info : Info) (full : bool) (currTs : Time) (ts : bytes)
    (prevNF currNF : list Z) (status : option (list Z * list Z)) : outcome (Info * list bytes) :=
  let L := pidTidLabels info in
  '(flt, l1) ← gen_deltas L full prevNF currNF ts 0 (pidStatFltMetricFmt fm) (pidStatFltZeroDelta info);
  let deltaSec := Seconds (Sub currTs (prevTs info)) in
  let pcpuFactor := f64_mul (f64_div linuxClktckSec deltaSec) (f64_of_int 100) in
  '(l2, total) ← gen_pcpu L pcpuFactor prevNF currNF ts (pidStatPcpuMetricFmt fm) 0;
  let l3 := [Fprintf (pidStatTotalPcpuMetricFmt fm) L [] (pcpu_text pcpuFactor total) ts] in
  '(ctx, l4) ← (match status with
                | Some (prevSt, currSt) => gen_deltas L full prevSt currSt ts 0 (pidStatusCtxMetricFmt fm) (pidStatusCtxZeroDelta info)
                | None => Ret (pidStatusCtxZeroDelta info, [])
                end);
  Ret (mkInfo (i_pidStat info) (i_pidStatus info) (prevTs info) (pidTid info) (pidTidPath info) L (starttimeMsec info)
         (active info) flt ctx (cycleNum info) (scanNum info), l1 ++ l2 ++ l3 ++ l4).

Definition prio_indexes : list nat := [PID_STAT_PRIORITY; PID_STAT_NICE; PID_STAT_RT_PRIORITY; PID_STAT_POLICY].
Definition info_indexes : list nat := [PID_STAT_PPID; PID_STAT_PGRP; PID_STAT_SESSION; PID_STAT_TTY_NR; PID_STAT_TPGID; PID_STAT_FLAGS].
Definition status_indexes : list nat :=
  [PID_STATUS_UID; PID_STATUS_GID; PID_STATUS_GROUPS; PID_STATUS_CPUS_ALLOWED_LIST; PID_STATUS_MEMS_ALLOWED_LIST].

(** The data of a status parser; all slices are nil without one. *)
Definition status_data (o : option PidStatus.PidStatus) : list (option bytes) * list bytes * list Z :=
  match o with Some p => PidStatus.GetData p | None => ([], [], []) end.

(** The command line, or the command when it has none. *)
Definition gen_cmdline (fm : MetricFmts) (labels : bytes) (cmdline : PidCmdline.PidCmdline) (commChanged : bool) (prev curr : list bytes)
    (ts : bytes) : outcome (list bytes) :=
  let '(cmdPath, args, cmd) := PidCmdline.GetData cmdline in
  if negb (bool_decide (default [] cmdPath = [])) then
    Ret [Fprintf (pidCmdlineMetricFmt fm) labels [default [] cmdPath; default [] args; default [] cmd] (bs "1") ts]
  else
    clear ← (if commChanged then p ← must (prev !! PID_STAT_COMM); Ret [Fprintf_comm (pidCmdlineCommPrefix fm) labels p (bs "0") ts]
             else Ret []);
    c ← must (curr !! PID_STAT_COMM);
    Ret (clear ++ [Fprintf_comm (pidCmdlineCommPrefix fm) labels c (bs "1") ts]).

(** The metrics of the status that only a process has. *)
Definition gen_pid_status (fm : MetricFmts) (hasPrev full : bool) (labels ts : bytes) (prevS currS : list (option bytes)) (units : list bytes)
    : outcome (list bytes) :=
  '(a, _) ← gen_labels (pidStatusInfoMetricFmt fm) labels [] status_indexes hasPrev full (map (default []) prevS) (map (default []) currS) ts;
  b ← for_lines (gen_status_mem labels (full || negb hasPrev) prevS currS units ts) (pidStatusPidOnlyMemoryMetricFmt fm);
  Ret (a ++ b).

(** The metrics that only a process has. *)
Definition gen_pid_only (fm : MetricFmts) (usePidStatus hasPrev full commChanged : bool) (labels ts : bytes)
    (prevBSF currBSF : list bytes) (prevNF currNF : list Z) (prevS currS : list (option bytes)) (units : list bytes)
    (cmdline : PidCmdline.PidCmdline) : outcome (list bytes) :=
  let all := full || negb hasPrev in
  '(l1, _) ← gen_labels (pidStatInfoMetricFmt fm) labels [] info_indexes hasPrev full prevBSF currBSF ts;
  l2 ← gen_value (pidStatNumThreadsMetricsFmt fm) labels all prevBSF currBSF PID_STAT_NUM_THREADS ts;
  rss ← must (currNF !! PID_STAT_RSS);
  emit ← (if all then Ret true else p ← must (prevNF !! PID_STAT_RSS); Ret (negb (rss =? p)%Z));
  let l3 := if emit : bool then [Fprintf (pidStatRssMetricFmt fm) labels [] (FormatUint (u64 (rss * pageSize))) ts] else [] in
  l4 ← for_lines (fun x => gen_value x.2 labels all prevBSF currBSF x.1 ts) (pidStatMemoryMetricFmt fm);
  l5 ← (if usePidStatus then gen_pid_status fm hasPrev full labels ts prevS currS units else Ret []);
  l6 ← (if all then gen_cmdline fm labels cmdline commChanged prevBSF currBSF ts else Ret []);
  Ret (l1 ++ l2 ++ l3 ++ l4 ++ l5 ++ l6).

(** [generateMetrics]: the lines, each of which is counted.  [st] and [status]
    are the current parses. *)
Definition generateMetrics (fm : MetricFmts) (usePidStatus : bool) (st : PidStat.PidStat) (status : option PidStatus.PidStatus)
    (cmdline : PidCmdline.PidCmdline) (info : Info) (hasPrev isPid full : bool) (currTs : Time) : outcome (Info * list bytes) :=
  let '(currBSF, currNF) := PidStat.GetData st in
  let '(prevBSF, prevNF) := if hasPrev then PidStat.GetData (i_pidStat info) else ([], []) in
  let '(currS, units, currSN) := if usePidStatus then status_data status else ([], [], []) in
  let '(prevS, _, prevSN) := if usePidStatus && hasPrev then status_data (i_pidStatus info) else ([], [], []) in
  let ts := Itoa (UnixMilli currTs) in
  let L := pidTidLabels info in
  '(l1, _) ← gen_labels (pidStatStateMetricFmt fm) L [] [PID_STAT_STATE] hasPrev full prevBSF currBSF ts;
  '(l2, commChanged) ← gen_labels (pidStatCommMetricFmt fm) L [starttimeMsec info] [PID_STAT_COMM] hasPrev full prevBSF currBSF ts;
  '(l3, _) ← gen_labels (pidStatPriorityMetricFmt fm) L [] prio_indexes hasPrev full prevBSF currBSF ts;
  cpu ← must (currBSF !! PID_STAT_PROCESSOR);
  let l4 := [Fprintf (pidStatCpuNumMetricFmt fm) L [] cpu ts] in
  l5 ← (if usePidStatus then for_lines (gen_status_mem L (full || negb hasPrev) prevS currS units ts) (pidStatusPidTidMemoryMetricFmt fm)
        else Ret []);
  '(info, l6) ← (if hasPrev then gen_delta_metrics fm info full currTs ts prevNF currNF
                                   (if usePidStatus then Some (prevSN, currSN) else None)
                 else Ret (info, []));
  l7 ← (if isPid then gen_pid_only fm usePidStatus hasPrev full commChanged L ts prevBSF currBSF prevNF currNF prevS currS units cmdline
        else Ret []);
  Ret (info, l1 ++ l2 ++ l3 ++ l4 ++ l5 ++ l6 ++ l7).
End generate.
(** ** What is written, as one list *)

(** The parsed data of a scan: the fields of the statistics and of the status. *)
Record View := mkView { v_bsf : list bytes; v_nf : list Z; v_s : list (option bytes); v_units : list bytes; v_sn : list Z }.

Definition view_of (usePidStatus : bool) (st : PidStat.PidStat) (status : option PidStatus.PidStatus) : View :=
  let '(s, u, n) := if usePidStatus then status_data status else ([], [], []) in
  mkView (PidStat.GetData st).1 (PidStat.GetData st).2 s u n.

Record view_ok (usePidStatus : bool) (v : View) : Prop := mkViewOk {
  vo_bsf : length (v_bsf v) = PidStat.PID_STAT_BYTE_SLICE_NUM_FIELDS;
  vo_nf : length (v_nf v) = PidStat.PID_STAT_ULONG_NUM_FIELDS;
  vo_status : usePidStatus = true -> length (v_s v) = PidStatus.PID_STATUS_BYTE_SLICE_NUM_FIELDS /\
    length (v_units v) = PidStatus.PID_STATUS_BYTE_SLICE_NUM_FIELDS /\ length (v_sn v) = PidStatus.PID_STATUS_ULONG_NUM_FIELDS
}.

Definition when (b : bool) (l : bytes) : list bytes := if b then [l] else [].
Definition is_new {A} (prev : option A) : bool := match prev with None => true | Some _ => false end.

Section lines.
Context (linuxClktckSec : spec_float) (pageSize : Z).
Context (fm : MetricFmts) (labels ts : bytes) (full : bool).

(** Whether the values under some indexes are not those of before. *)
Definition differs (indexes : list nat) (prev : option (list bytes)) (curr : list bytes) : bool :=
  match prev with
  | None => false
  | Some p => negb (bool_decide (map (fun i => p !!! i) indexes = map (fun i => curr !!! i) indexes))
  end.

(** Labels that changed: the old ones are cleared, the new ones set; the current
    ones are also set in a full cycle and for a new process. *)
Definition label_lines (f : Fmt) (extra : list bytes) (indexes : list nat) (prev : option (list bytes)) (curr : list bytes) : list bytes :=
  let vals l := extra ++ map (fun i => l !!! i) indexes in
  let ch := differs indexes prev curr in
  when ch (Fprintf f labels (vals (default [] prev)) (bs "0") ts) ++
  when (full || is_new prev || ch) (Fprintf f labels (vals curr) (bs "1") ts).

Definition value_lines (f : Fmt) (i : nat) (prev : option (list bytes)) (curr : list bytes) : list bytes :=
  when (full || is_new prev || differs [i] prev curr) (Fprintf f labels [] (curr !!! i) ts).

Definition mem_lines (prev : option (list (option bytes))) (curr : list (option bytes)) (units : list bytes) (x : IndexFmt) : list bytes :=
  match curr !!! x.1 with
  | None => []
  | Some v => when (full || is_new prev || negb (bool_decide (default [] (default [] prev !!! x.1) = v)))
                (Fprintf x.2 labels [units !!! x.1] v ts)
  end.

Definition delta_of (prev curr : list Z) (i : nat) : Z := u64 (curr !!! i - prev !!! i).
Definition delta_lines (prev curr : list Z) (x : IndexFmt) (zero : bool) : list bytes :=
  when (negb (delta_of prev curr x.1 =? 0)%Z || full || negb zero) (Fprintf x.2 labels [] (FormatUint (delta_of prev curr x.1)) ts).
Definition total_delta (prev curr : list Z) (fmts : list IndexFmt) (t : Z) : Z :=
  foldl (fun t (x : IndexFmt) => u64 (t + delta_of prev curr x.1)) t fmts.

(** The lines that compare two scans, the shares over the time between them. *)
Definition prev_lines (usePidStatus : bool) (deltaSec : spec_float) (flt ctx : list bool) (p c : View) : list bytes :=
  let factor := f64_mul (f64_div linuxClktckSec deltaSec) (f64_of_int 100) in
  concat (zip_with (delta_lines (v_nf p) (v_nf c)) (pidStatFltMetricFmt fm) flt) ++
  map (fun x => Fprintf x.2 labels [] (pcpu_text factor (delta_of (v_nf p) (v_nf c) x.1)) ts) (pidStatPcpuMetricFmt fm) ++
  [Fprintf (pidStatTotalPcpuMetricFmt fm) labels [] (pcpu_text factor (total_delta (v_nf p) (v_nf c) (pidStatPcpuMetricFmt fm) 0)) ts] ++
  (if usePidStatus then concat (zip_with (delta_lines (v_sn p) (v_sn c)) (pidStatusCtxMetricFmt fm) ctx) else []).

Definition cmdline_lines (cmdline : PidCmdline.PidCmdline) (prev : option (list bytes)) (curr : list bytes) : list bytes :=
  let '(cmdPath, args, cmd) := PidCmdline.GetData cmdline in
  if bool_decide (default [] cmdPath = []) then
    when (differs [PID_STAT_COMM] prev curr) (Fprintf_comm (pidCmdlineCommPrefix fm) labels (default [] prev !!! PID_STAT_COMM) (bs "0") ts) ++
    [Fprintf_comm (pidCmdlineCommPrefix fm) labels (curr !!! PID_STAT_COMM) (bs "1") ts]
  else [Fprintf (pidCmdlineMetricFmt fm) labels [default [] cmdPath; default [] args; default [] cmd] (bs "1") ts].

Definition status_lines (prev : option View) (c : View) : list bytes :=
  label_lines (pidStatusInfoMetricFmt fm) [] status_indexes (map (default []) ∘ v_s <$> prev) (map (default []) (v_s c)) ++
  concat (map (mem_lines (v_s <$> prev) (v_s c) (v_units c)) (pidStatusPidOnlyMemoryMetricFmt fm)).

(** The lines of a process only. *)
Definition pid_lines (usePidStatus : bool) (prev : option View) (c : View) (cmdline : PidCmdline.PidCmdline) : list bytes :=
  let bsf := v_bsf <$> prev in
  label_lines (pidStatInfoMetricFmt fm) [] info_indexes bsf (v_bsf c) ++
  value_lines (pidStatNumThreadsMetricsFmt fm) PID_STAT_NUM_THREADS bsf (v_bsf c) ++
  when (full || is_new prev || negb (v_nf c !!! PID_STAT_RSS =? default [] (v_nf <$> prev) !!! PID_STAT_RSS)%Z)
    (Fprintf (pidStatRssMetricFmt fm) labels [] (FormatUint (u64 (v_nf c !!! PID_STAT_RSS * pageSize))) ts) ++
  concat (map (fun x => value_lines x.2 x.1 bsf (v_bsf c)) (pidStatMemoryMetricFmt fm)) ++
  (if usePidStatus then status_lines prev c else []) ++
  (if full || is_new prev then cmdline_lines cmdline bsf (v_bsf c) else []).

(** All the lines of a process or thread. *)
Definition metric_lines (usePidStatus isPid : bool) (starttime : bytes) (deltaSec : spec_float) (flt ctx : list bool)
    (prev : option View) (c : View) (cmdline : PidCmdline.PidCmdline) : list bytes :=
  let bsf := v_bsf <$> prev in
  label_lines (pidStatStateMetricFmt fm) [] [PID_STAT_STATE] bsf (v_bsf c) ++
  label_lines (pidStatCommMetricFmt fm) [starttime] [PID_STAT_COMM] bsf (v_bsf c) ++
  label_lines (pidStatPriorityMetricFmt fm) [] prio_indexes bsf (v_bsf c) ++
  [Fprintf (pidStatCpuNumMetricFmt fm) labels [] (v_bsf c !!! PID_STAT_PROCESSOR) ts] ++
  (if usePidStatus then concat (map (mem_lines (v_s <$> prev) (v_s c) (v_units c)) (pidStatusPidTidMemoryMetricFmt fm)) else []) ++
  (match prev with Some p => prev_lines usePidStatus deltaSec flt ctx p c | None => [] end) ++
  (if isPid then pid_lines usePidStatus prev c cmdline else []).
End lines.
(** ** The code writes these lines *)

Lemma at_ok {A} `{Inhabited A} (l : list A) N i : length l = N -> i < N -> must (l !! i) = Ret (l !!! i).
Proof. intros Hl Hi. by rewrite (list_lookup_lookup_total_lt l i) by by rewrite Hl. Qed.

Lemma mapM_at (l : list bytes) N indexes :
  length l = N -> Forall (fun i => i < N) indexes -> mapM (fun i => must (l !! i)) indexes = Ret (map (fun i => l !!! i) indexes).
Proof.
  intros Hl. induction 1 as [|i indexes Hi _ IH]; [done|]. change (mapM (fun j => must (l !! j)) (i :: indexes))
    with (y ← must (l !! i); k ← mapM (fun j => must (l !! j)) indexes; mret (y :: k)). by rewrite (at_ok l N), bind_ret, IH.
Qed.

Lemma changed_spec (prev curr : list bytes) N indexes :
  length prev = N -> length curr = N -> Forall (fun i => i < N) indexes ->
  changed prev curr indexes = Ret (differs indexes (Some prev) curr).
Proof.
  intros Hp Hc. induction 1 as [|i indexes Hi _ IH]; [done|]. cbn [changed]. rewrite (at_ok prev N), (at_ok curr N), !bind_ret by done.
  unfold differs. cbn [map]. destruct (decide (prev !!! i = curr !!! i)) as [E|E].
  - rewrite bool_decide_eq_true_2, IH by done. unfold differs. do 2 f_equal. apply bool_decide_ext. rewrite E. split; [by intros ->|by intros [= ?]].
  - rewrite bool_decide_eq_false_2, bool_decide_eq_false_2; [done| |done]. by intros [= ?].
Qed.

Section code.
Context (fm : MetricFmts) (labels ts : bytes) (full : bool).

Lemma gen_labels_spec f extra indexes (prev : option (list bytes)) (curr : list bytes) N :
  (forall p, prev = Some p -> length p = N) -> length curr = N -> Forall (fun i => i < N) indexes ->
  gen_labels f labels extra indexes (negb (is_new prev)) full (default [] prev) curr ts =
  Ret (label_lines labels ts full f extra indexes prev curr, differs indexes prev curr).
Proof.
  intros Hp Hc Hi. unfold gen_labels, label_lines. destruct prev as [p|]; cbn [is_new negb default from_option]; unfold id.
  - specialize (Hp p eq_refl). rewrite (changed_spec p curr N), bind_ret by done. rewrite orb_false_r, (mapM_at p N), (mapM_at curr N), !bind_ret by done.
    destruct (differs indexes (Some p) curr); cbn [when]; rewrite ?bind_ret; [by rewrite orb_true_r|].
    rewrite orb_false_r. by destruct full.
  - rewrite bind_ret. cbn [differs when]. rewrite bind_ret, orb_true_r. cbn [orb]. by rewrite (mapM_at curr N), !bind_ret.
Qed.

Lemma gen_value_spec f i (prev : option (list bytes)) (curr : list bytes) N :
  (forall p, prev = Some p -> length p = N) -> length curr = N -> i < N ->
  gen_value f labels (full || is_new prev) (default [] prev) curr i ts = Ret (value_lines labels ts full f i prev curr).
Proof.
  intros Hp Hc Hi. unfold gen_value, value_lines. rewrite (at_ok curr N), bind_ret by done.
  destruct (full || is_new prev) eqn:E; cbn [orb]; [by rewrite bind_ret|]. destruct prev as [p|]; [|by rewrite orb_true_r in E].
  cbn [default from_option]. unfold id. rewrite (at_ok p N), !bind_ret by (done || by apply Hp). unfold differs, when. cbn [map].
  replace (bool_decide ([p !!! i] = [curr !!! i])) with (bool_decide (p !!! i = curr !!! i)); [done|].
  apply bool_decide_ext. split; [by intros ->|by intros [= ?]].
Qed.

Lemma gen_status_mem_spec (prev : option (list (option bytes))) (curr : list (option bytes)) (units : list bytes) N (x : IndexFmt) :
  (forall p, prev = Some p -> length p = N) -> length curr = N -> length units = N -> x.1 < N ->
  gen_status_mem labels (full || is_new prev) (default [] prev) curr units ts x = Ret (mem_lines labels ts full prev curr units x).
Proof.
  intros Hp Hc Hu Hi. unfold gen_status_mem, mem_lines. rewrite (at_ok curr N), bind_ret by done. destruct (curr !!! x.1) as [v|]; [|done].
  destruct (full || is_new prev) eqn:E; cbn [orb]; [by rewrite bind_ret, (at_ok units N), bind_ret by done|].
  destruct prev as [p|]; [|by rewrite orb_true_r in E]. cbn [default from_option]. unfold id.
  by rewrite (at_ok p N), !bind_ret, (at_ok units N), bind_ret by (done || by apply Hp).
Qed.

Lemma for_lines_spec {A} (f : A -> outcome (list bytes)) (g : A -> list bytes) l :
  Forall (fun x => f x = Ret (g x)) l -> for_lines f l = Ret (concat (map g l)).
Proof. induction 1 as [|x l Hx _ IH]; [done|]. cbn [for_lines map concat]. by rewrite Hx, bind_ret, IH, bind_ret. Qed.

Lemma pid_deltas_spec (prev curr : list Z) N (fmts : list IndexFmt) : forall k zd,
  length prev = N -> length curr = N -> Forall (fun x => x.1 < N) fmts -> k + length fmts = length zd ->
  gen_deltas labels full prev curr ts k fmts zd =
  Ret (take k zd ++ map (fun x => delta_of prev curr x.1 =? 0)%Z fmts,
       concat (zip_with (delta_lines labels ts full prev curr) fmts (drop k zd))).
Proof.
  induction fmts as [|[i f] fmts IH]; intros k zd Hp Hc Hi Hk; cbn [gen_deltas map length] in *.
  - rewrite app_nil_r. rewrite take_ge by lia. done.
  - apply Forall_cons in Hi as [Hi His]. cbn [fst] in Hi. rewrite (at_ok curr N), (at_ok prev N), !bind_ret by done. fold (delta_of prev curr i).
    assert (k < length zd) as Hlt by lia. destruct (lookup_lt_is_Some_2 zd k Hlt) as [z Hz]. rewrite Hz.
    rewrite (drop_S _ _ _ Hz). cbn [zip_with concat fst snd]. unfold delta_lines at 1. cbn [fst snd].
    assert ((if negb (delta_of prev curr i =? 0)%Z || full then Ret true else z0 ← must (Some z); Ret (negb z0)) =
      Ret (negb (delta_of prev curr i =? 0)%Z || full || negb z)) as ->.
    { destruct (negb _ || full); [done|]. done. }
    rewrite bind_ret, store_Ret, bind_ret by done. rewrite IH by (done || rewrite length_insert; lia). rewrite bind_ret.
    rewrite drop_insert_lt by lia. f_equal. f_equal.
    rewrite (take_S_r _ _ (delta_of prev curr i =? 0)%Z) by (by apply list_lookup_insert_eq). rewrite take_insert_ge by lia. by rewrite <- app_assoc.
Qed.

Lemma gen_pcpu_spec factor (prev curr : list Z) N (fmts : list IndexFmt) : forall total,
  length prev = N -> length curr = N -> Forall (fun x => x.1 < N) fmts ->
  gen_pcpu labels factor prev curr ts fmts total =
  Ret (map (fun x => Fprintf x.2 labels [] (pcpu_text factor (delta_of prev curr x.1)) ts) fmts, total_delta prev curr fmts total).
Proof.
  induction fmts as [|[i f] fmts IH]; intros total Hp Hc Hi; cbn [gen_pcpu map]; [done|].
  apply Forall_cons in Hi as [Hi His]. cbn [fst] in Hi. rewrite (at_ok curr N), (at_ok prev N), !bind_ret by done.
  by rewrite IH, bind_ret by done.
Qed.
End code.

(** The indexes of the formats are those of the data. *)
Record fmts_ok (usePidStatus : bool) (fm : MetricFmts) : Prop := mkFmtsOk {
  fo_mem : Forall (fun x => x.1 < PidStat.PID_STAT_BYTE_SLICE_NUM_FIELDS) (pidStatMemoryMetricFmt fm);
  fo_flt : Forall (fun x => x.1 < PidStat.PID_STAT_ULONG_NUM_FIELDS) (pidStatFltMetricFmt fm) /\ length (pidStatFltMetricFmt fm) = 2;
  fo_pcpu : Forall (fun x => x.1 < PidStat.PID_STAT_ULONG_NUM_FIELDS) (pidStatPcpuMetricFmt fm);
  fo_status : Forall (fun x => x.1 < PidStatus.PID_STATUS_BYTE_SLICE_NUM_FIELDS) (pidStatusPidOnlyMemoryMetricFmt fm ++ pidStatusPidTidMemoryMetricFmt fm);
  fo_ctx : Forall (fun x => x.1 < PidStatus.PID_STATUS_ULONG_NUM_FIELDS) (pidStatusCtxMetricFmt fm);
  fo_ctx_len : usePidStatus = true -> length (pidStatusCtxMetricFmt fm) = 2
}.

Lemma init_fmts_ok instance hostname use keep : fmts_ok use (initMetricsCache instance hostname use keep).
Proof.
  assert (Forall (fun x : IndexFmt => x.1 < PidStatus.PID_STATUS_BYTE_SLICE_NUM_FIELDS) (pidStatusMemoryFmt instance hostname)) as Hm.
  { repeat constructor; vm_compute; lia. }
  split.
  - repeat constructor; vm_compute; lia.
  - split; [|done]. repeat constructor; vm_compute; lia.
  - repeat constructor; vm_compute; lia.
  - cbn [initMetricsCache pidStatusPidOnlyMemoryMetricFmt pidStatusPidTidMemoryMetricFmt]. destruct use; [|constructor].
    apply Forall_app_2; apply Forall_forall; intros x Hx; rewrite !list_elem_of_filter in Hx; apply (proj1 (Forall_forall _ _) Hm); tauto.
  - cbn [initMetricsCache pidStatusCtxMetricFmt]. destruct use; repeat constructor; vm_compute; lia.
  - by intros ->.
Qed.
(** The data after the generation: the flags of the deltas that were zero. *)
Definition generated (usePidStatus : bool) (fm : MetricFmts) (prev : option View) (c : View) (info : Info) : Info :=
  match prev with
  | None => info
  | Some p =>
    mkInfo (i_pidStat info) (i_pidStatus info) (prevTs info) (pidTid info) (pidTidPath info) (pidTidLabels info) (starttimeMsec info)
      (active info) (map (fun x => delta_of (v_nf p) (v_nf c) x.1 =? 0)%Z (pidStatFltMetricFmt fm))
      (if usePidStatus then map (fun x => delta_of (v_sn p) (v_sn c) x.1 =? 0)%Z (pidStatusCtxMetricFmt fm) else pidStatusCtxZeroDelta info)
      (cycleNum info) (scanNum info)
  end.

Definition flags_ok (info : Info) : Prop := length (pidStatFltZeroDelta info) = 2 /\ length (pidStatusCtxZeroDelta info) = 2.

Section generation.
Context (linuxClktckSec : spec_float) (pageSize : Z) (fm : MetricFmts) (use : bool).
Hypothesis Hfm : fmts_ok use fm.

Lemma gen_delta_metrics_spec info full currTs ts (p c : View) :
  flags_ok info -> view_ok use p -> view_ok use c ->
  gen_delta_metrics linuxClktckSec fm info full currTs ts (v_nf p) (v_nf c) (if use then Some (v_sn p, v_sn c) else None) =
  Ret (generated use fm (Some p) c info,
       prev_lines linuxClktckSec fm (pidTidLabels info) ts full use (Seconds (Sub currTs (prevTs info)))
         (pidStatFltZeroDelta info) (pidStatusCtxZeroDelta info) p c).
Proof.
  intros [Hz1 Hz2] [_ Hp2 Hp3] [_ Hc2 Hc3]. unfold gen_delta_metrics, generated, prev_lines. destruct (fo_flt _ _ Hfm) as [Hf Hl].
  rewrite (pid_deltas_spec _ _ _ _ _ _ (pidStatFltMetricFmt fm) 0 (pidStatFltZeroDelta info) Hp2 Hc2 Hf) by (rewrite Hl, Hz1; done).
  rewrite bind_ret, (gen_pcpu_spec _ _ _ _ _ _ _ 0 Hp2 Hc2 (fo_pcpu _ _ Hfm)), bind_ret. destruct use; [|by rewrite bind_ret].
  destruct (Hp3 eq_refl) as (_ & _ & Hp4), (Hc3 eq_refl) as (_ & _ & Hc4).
  rewrite (pid_deltas_spec _ _ _ _ _ _ (pidStatusCtxMetricFmt fm) 0 (pidStatusCtxZeroDelta info) Hp4 Hc4 (fo_ctx _ _ Hfm))
    by (rewrite (fo_ctx_len _ _ Hfm eq_refl), Hz2; done).
  by rewrite bind_ret.
Qed.

Lemma gen_cmdline_spec labels ts cmdline (prev : option (list bytes)) (curr : list bytes) N :
  (forall p, prev = Some p -> length p = N) -> length curr = N -> PID_STAT_COMM < N ->
  gen_cmdline fm labels cmdline (differs [PID_STAT_COMM] prev curr) (default [] prev) curr ts =
  Ret (cmdline_lines fm labels ts cmdline prev curr).
Proof.
  intros Hp Hc Hi. unfold gen_cmdline, cmdline_lines. destruct (PidCmdline.GetData cmdline) as [[cmdPath args] cmd].
  destruct (bool_decide (default [] cmdPath = [])); cbn [negb]; [|done]. destruct prev as [p|]; cbn [default from_option]; unfold id.
  - rewrite (at_ok p N), (at_ok curr N) by (done || by apply Hp). by destruct (differs _ _ _).
  - cbn [differs when app]. by rewrite bind_ret, (at_ok curr N).
Qed.

Lemma idx_lt N l : forallb (fun i => i <? N) l = true -> Forall (fun i => i < N) l.
Proof. intros H%Forall_forallb. eapply Forall_impl; [exact H|]. intros i Hi. by apply Nat.ltb_lt in Hi. Qed.

Lemma gen_pid_status_spec labels ts full (prev : option View) (c : View) N :
  (forall p, prev = Some p -> length (v_s p) = N) -> length (v_s c) = N -> length (v_units c) = N ->
  N = PidStatus.PID_STATUS_BYTE_SLICE_NUM_FIELDS ->
  gen_pid_status fm (negb (is_new prev)) full labels ts (default [] (v_s <$> prev)) (v_s c) (v_units c) =
  Ret (status_lines fm labels ts full prev c).
Proof.
  intros Hp Hc1 Hc2 HN. unfold gen_pid_status, status_lines.
  assert (is_new prev = is_new (map (default []) ∘ v_s <$> prev) /\ is_new prev = is_new (v_s <$> prev)) as [Hn Hn2] by by destruct prev.
  assert (map (default []) (default [] (v_s <$> prev)) = default [] (map (default []) ∘ v_s <$> prev)) as -> by by destruct prev.
  rewrite Hn at 1. rewrite (gen_labels_spec labels ts full _ _ _ _ _ N), bind_ret; first last.
  - rewrite HN. by apply idx_lt.
  - by rewrite length_map.
  - destruct prev as [v|]; [|done]. intros p [= <-]. cbn. rewrite length_map. by apply Hp.
  - rewrite negb_involutive, Hn2. rewrite (for_lines_spec _ (mem_lines labels ts full (v_s <$> prev) (v_s c) (v_units c))); [done|].
    pose proof (fo_status _ _ Hfm) as Hm. apply Forall_app in Hm as [Hm _]. eapply Forall_impl; [exact Hm|].
    intros x Hx. apply (gen_status_mem_spec labels ts full _ _ _ N); [|done|done|by rewrite HN].
    destruct prev as [v|]; [|done]. intros p [= <-]. by apply Hp.
Qed.

Lemma gen_pid_only_spec labels ts full (prev : option View) (c : View) cmdline :
  (forall p, prev = Some p -> view_ok use p) -> view_ok use c ->
  gen_pid_only pageSize fm use (negb (is_new prev)) full (differs [PID_STAT_COMM] (v_bsf <$> prev) (v_bsf c)) labels ts
    (default [] (v_bsf <$> prev)) (v_bsf c) (default [] (v_nf <$> prev)) (v_nf c) (default [] (v_s <$> prev)) (v_s c) (v_units c) cmdline =
  Ret (pid_lines pageSize fm labels ts full use prev c cmdline).
Proof.
  intros Hp [Hc1 Hc2 Hc3]. unfold gen_pid_only, pid_lines.
  assert (forall p, v_bsf <$> prev = Some p -> length p = PidStat.PID_STAT_BYTE_SLICE_NUM_FIELDS) as Hp1.
  { destruct prev as [v|]; [|done]. intros p [= <-]. by apply Hp. }
  assert (is_new prev = is_new (v_bsf <$> prev)) as Hn by by destruct prev. rewrite Hn, negb_involutive.
  rewrite (gen_labels_spec labels ts full _ _ _ _ _ _ Hp1 Hc1) by by apply idx_lt. rewrite bind_ret.
  rewrite (gen_value_spec labels ts full _ _ _ _ _ Hp1 Hc1) by (vm_compute; lia). rewrite bind_ret.
  rewrite (at_ok (v_nf c) _ _ Hc2), bind_ret by (vm_compute; lia).
  assert ((if full || is_new (v_bsf <$> prev) then Ret true
    else p ← must (default [] (v_nf <$> prev) !! PID_STAT_RSS); Ret (negb (v_nf c !!! PID_STAT_RSS =? p)%Z)) =
    Ret (full || is_new (v_bsf <$> prev) || negb (v_nf c !!! PID_STAT_RSS =? default [] (v_nf <$> prev) !!! PID_STAT_RSS)%Z)) as ->.
  { destruct (full || _) eqn:E; [done|]. destruct prev as [p|]; [|by rewrite orb_true_r in E]. cbn [fmap option_fmap option_map default from_option].
    unfold id. by rewrite (at_ok (v_nf p) _ _ (vo_nf _ _ (Hp p eq_refl))), bind_ret by (vm_compute; lia). }
  rewrite bind_ret. rewrite (for_lines_spec _ (fun x => value_lines labels ts full x.2 x.1 (v_bsf <$> prev) (v_bsf c))).
  2: { eapply Forall_impl; [exact (fo_mem _ _ Hfm)|]. intros x Hx. by apply (gen_value_spec labels ts full _ _ _ _ _ Hp1 Hc1). }
  rewrite bind_ret.
  assert ((if use then gen_pid_status fm (negb (is_new (v_bsf <$> prev))) full labels ts (default [] (v_s <$> prev)) (v_s c) (v_units c) else Ret []) =
    Ret (if use then status_lines fm labels ts full prev c else [])) as ->.
  { pose proof (gen_pid_status_spec labels ts full prev c) as Hs. rewrite <- Hn. destruct use; [|done].
    apply (Hs PidStatus.PID_STATUS_BYTE_SLICE_NUM_FIELDS); [|by apply Hc3|by apply Hc3|done]. intros p Ep. by apply (vo_status _ _ (Hp p Ep)). }
  rewrite bind_ret, <- Hn.
  destruct (full || is_new prev); [|by rewrite bind_ret].
  by rewrite (gen_cmdline_spec labels ts cmdline _ _ _ Hp1 Hc1), bind_ret by (vm_compute; lia).
Qed.
(** [generateMetrics] on views. *)
Definition gen_view (cmdline : PidCmdline.PidCmdline) (info : Info) (prev : option View) (c : View) (isPid full : bool) (currTs : Time)
    : outcome (Info * list bytes) :=
  let ts := Itoa (UnixMilli currTs) in
  let L := pidTidLabels info in
  let bsf := v_bsf <$> prev in
  let lab f extra ix := gen_labels f L extra ix (negb (is_new bsf)) full (default [] bsf) (v_bsf c) ts in
  '(l1, _) ← lab (pidStatStateMetricFmt fm) [] [PID_STAT_STATE];
  '(l2, cc) ← lab (pidStatCommMetricFmt fm) [starttimeMsec info] [PID_STAT_COMM];
  '(l3, _) ← lab (pidStatPriorityMetricFmt fm) [] prio_indexes;
  cpu ← must (v_bsf c !! PID_STAT_PROCESSOR);
  l5 ← (if use then for_lines (gen_status_mem L (full || is_new (v_s <$> prev)) (default [] (v_s <$> prev)) (v_s c) (v_units c) ts)
                      (pidStatusPidTidMemoryMetricFmt fm) else Ret []);
  '(info', l6) ← (match prev with
     | Some p => gen_delta_metrics linuxClktckSec fm info full currTs ts (v_nf p) (v_nf c) (if use then Some (v_sn p, v_sn c) else None)
     | None => Ret (info, []) end);
  l7 ← (if isPid then gen_pid_only pageSize fm use (negb (is_new prev)) full cc L ts (default [] bsf) (v_bsf c) (default [] (v_nf <$> prev)) (v_nf c)
          (default [] (v_s <$> prev)) (v_s c) (v_units c) cmdline else Ret []);
  Ret (info', l1 ++ l2 ++ l3 ++ [Fprintf (pidStatCpuNumMetricFmt fm) L [] cpu ts] ++ l5 ++ l6 ++ l7).

Lemma generateMetrics_view st status cmdline info (hasPrev isPid full : bool) currTs :
  generateMetrics linuxClktckSec pageSize fm use st status cmdline info hasPrev isPid full currTs =
  gen_view cmdline info (if hasPrev then Some (view_of use (i_pidStat info) (i_pidStatus info)) else None) (view_of use st status) isPid full currTs.
Proof.
  clear Hfm. unfold generateMetrics, gen_view, view_of.
  destruct hasPrev, use; cbn [andb negb]; try destruct (status_data status) as [[? ?] ?]; try destruct (status_data (i_pidStatus info)) as [[? ?] ?];
    rewrite ?orb_false_r, ?orb_true_r; reflexivity.
Qed.

Lemma gen_tid_mem_spec L ts full (prev : option View) (c : View) :
  (forall p, prev = Some p -> view_ok use p) -> view_ok use c ->
  (if use then for_lines (gen_status_mem L (full || is_new (v_s <$> prev)) (default [] (v_s <$> prev)) (v_s c) (v_units c) ts)
     (pidStatusPidTidMemoryMetricFmt fm) else Ret []) =
  Ret (if use then concat (map (mem_lines L ts full (v_s <$> prev) (v_s c) (v_units c)) (pidStatusPidTidMemoryMetricFmt fm)) else []).
Proof.
  intros Hp [_ _ Hc3]. pose proof (fo_status _ _ Hfm) as Hm. apply Forall_app in Hm as [_ Hm]. destruct use; [|done].
  apply for_lines_spec. eapply Forall_impl; [exact Hm|]. intros x Hx.
  apply (gen_status_mem_spec L ts full _ _ _ PidStatus.PID_STATUS_BYTE_SLICE_NUM_FIELDS); [|by apply Hc3|by apply Hc3|done].
  destruct prev as [v|]; [|done]. intros p [= <-]. by apply (vo_status _ _ (Hp v eq_refl)).
Qed.

Lemma gen_view_spec cmdline info (prev : option View) (c : View) isPid full currTs :
  flags_ok info -> view_ok use c -> (forall p, prev = Some p -> view_ok use p) ->
  gen_view cmdline info prev c isPid full currTs =
  Ret (generated use fm prev c info,
       metric_lines linuxClktckSec pageSize fm (pidTidLabels info) (Itoa (UnixMilli currTs)) full use isPid (starttimeMsec info)
         (Seconds (Sub currTs (prevTs info))) (pidStatFltZeroDelta info) (pidStatusCtxZeroDelta info) prev c cmdline).
Proof.
  intros Hz Hc Hp. unfold gen_view. set (ts := Itoa (UnixMilli currTs)). set (L := pidTidLabels info).
  assert (forall p, v_bsf <$> prev = Some p -> length p = PidStat.PID_STAT_BYTE_SLICE_NUM_FIELDS) as Hp1.
  { destruct prev as [v|]; [|done]. intros p [= <-]. by apply (vo_bsf _ _ (Hp v eq_refl)). }
  pose proof (vo_bsf _ _ Hc) as Hc1.
  rewrite !(gen_labels_spec L ts full _ _ _ _ _ _ Hp1 Hc1) by by apply idx_lt.
  repeat (rewrite bind_ret; cbv beta iota).
  rewrite (at_ok (v_bsf c) _ _ Hc1), bind_ret by (vm_compute; lia).
  rewrite gen_tid_mem_spec, bind_ret by done. unfold metric_lines.
  assert ((if isPid then gen_pid_only pageSize fm use (negb (is_new prev)) full (differs [PID_STAT_COMM] (v_bsf <$> prev) (v_bsf c)) L ts
      (default [] (v_bsf <$> prev)) (v_bsf c) (default [] (v_nf <$> prev)) (v_nf c) (default [] (v_s <$> prev)) (v_s c) (v_units c) cmdline else Ret []) =
    Ret (if isPid then pid_lines pageSize fm L ts full use prev c cmdline else [])) as Hpid.
  { destruct isPid; [|done]. by apply gen_pid_only_spec. }
  destruct prev as [p|].
  - rewrite gen_delta_metrics_spec, bind_ret by (done || by apply Hp). cbv beta iota. by rewrite Hpid, bind_ret.
  - rewrite bind_ret. cbv beta iota. by rewrite Hpid, bind_ret.
Qed.
End generation.
(** ** How many lines there are *)

Lemma when_length b l : length (when b l) = if b then 1 else 0.
Proof. by destruct b. Qed.

Lemma concat_le {A} (f : A -> list bytes) (l : list A) : Forall (fun x => length (f x) <= 1) l -> length (concat (map f l)) <= length l.
Proof. induction 1; cbn [map concat length]; [lia|]. rewrite length_app. lia. Qed.

Lemma concat_eq {A} (f : A -> list bytes) (l : list A) : Forall (fun x => length (f x) = 1) l -> length (concat (map f l)) = length l.
Proof. induction 1; cbn [map concat length]; [lia|]. rewrite length_app. lia. Qed.

Lemma zip_deltas L ts full (p c : list Z) (fmts : list IndexFmt) : forall zd : list bool,
  length zd = length fmts ->
  let n := length (concat (zip_with (delta_lines L ts full p c) fmts zd)) in n <= length fmts /\ (full = true -> n = length fmts).
Proof.
  induction fmts as [|x fmts IH]; intros [|z zd] Hl; try done. cbn [zip_with concat length]. rewrite length_app.
  destruct (IH zd ltac:(simpl in Hl; lia)) as [H1 H2].
  assert (length (delta_lines L ts full p c x z) <= 1 /\ (full = true -> length (delta_lines L ts full p c x z) = 1)) as [H3 H4].
  { unfold delta_lines. rewrite when_length. split; [destruct (_ || _); lia|]. intros ->. by rewrite orb_true_r. }
  split; [lia|]. intros E. rewrite (H2 E), (H4 E). done.
Qed.

Section counts.
Context (linuxClktckSec : spec_float) (pageSize : Z) (fm : MetricFmts) (L ts : bytes) (full use : bool).
Hypothesis Hfm : fmts_ok use fm.
Implicit Types (prev : option View) (c : View).

Lemma label_lines_length f extra ix (prev : option (list bytes)) (curr : list bytes) :
  length (label_lines L ts full f extra ix prev curr) <= 2 /\
  (full = true -> differs ix prev curr = false -> length (label_lines L ts full f extra ix prev curr) = 1).
Proof.
  unfold label_lines. rewrite length_app, !when_length. split; [destruct (differs _ _ _), (_ || _); lia|].
  intros -> ->. cbn [orb]. done.
Qed.

Lemma mem_lines_length prev c (fmts : list IndexFmt) :
  let n := length (concat (map (mem_lines L ts full (v_s <$> prev) (v_s c) (v_units c)) fmts)) in
  n <= length fmts /\ (full = true -> Forall (fun x : IndexFmt => is_Some (v_s c !!! x.1)) fmts -> n = length fmts).
Proof.
  split; [apply concat_le|intros Hf Hs; apply concat_eq].
  - apply Forall_forall. intros x _. unfold mem_lines. destruct (v_s c !!! x.1); [|simpl; lia]. rewrite when_length. destruct (_ || _); lia.
  - eapply Forall_impl; [exact Hs|]. intros x [v Hv]. unfold mem_lines. by rewrite Hv, when_length, Hf.
Qed.

Lemma prev_lines_length ds (flt ctx : list bool) p c :
  length flt = 2 -> length ctx = 2 ->
  let n := length (prev_lines linuxClktckSec fm L ts full use ds flt ctx p c) in
  let all := length (pidStatFltMetricFmt fm) + length (pidStatPcpuMetricFmt fm) + 1 + (if use then length (pidStatusCtxMetricFmt fm) else 0) in
  n <= all /\ (full = true -> n = all).
Proof.
  intros H1 H2. unfold prev_lines. rewrite !length_app, length_map. cbn [length]. destruct (fo_flt _ _ Hfm) as [_ Hf].
  destruct (zip_deltas L ts full (v_nf p) (v_nf c) (pidStatFltMetricFmt fm) flt ltac:(congruence)) as [Ha Hb].
  assert (let n := length (if use then concat (zip_with (delta_lines L ts full (v_sn p) (v_sn c)) (pidStatusCtxMetricFmt fm) ctx) else []) in
    let a := if use then length (pidStatusCtxMetricFmt fm) else 0 in n <= a /\ (full = true -> n = a)) as [Hc Hd].
  { pose proof (fo_ctx_len _ _ Hfm) as Hx. destruct use; [|done]. apply zip_deltas. rewrite Hx; congruence. }
  split; [lia|]. intros E. rewrite (Hb E), (Hd E). lia.
Qed.

(** The lines of a process only. *)
Lemma pid_lines_length prev c cmdline :
  let n := length (pid_lines pageSize fm L ts full use prev c cmdline) in
  let all := 5 + length (pidStatMemoryMetricFmt fm) + (if use then length (pidStatusPidOnlyMemoryMetricFmt fm) else 0) - (if use then 0 else 1) in
  n <= all + 3 /\
  (full = true -> prev <> None -> (forall p, prev = Some p -> v_bsf p = v_bsf c /\ v_s p = v_s c) ->
   (use = true -> Forall (fun x : IndexFmt => is_Some (v_s c !!! x.1)) (pidStatusPidOnlyMemoryMetricFmt fm)) -> n = all).
Proof.
  unfold pid_lines, status_lines. rewrite !length_app, when_length. set (bsf := v_bsf <$> prev).
  destruct (label_lines_length (pidStatInfoMetricFmt fm) [] info_indexes bsf (v_bsf c)) as [A1 A2].
  destruct (label_lines_length (pidStatusInfoMetricFmt fm) [] status_indexes (map (default []) ∘ v_s <$> prev) (map (default []) (v_s c))) as [B1 B2].
  destruct (mem_lines_length prev c (pidStatusPidOnlyMemoryMetricFmt fm)) as [C1 C2].
  pose proof (concat_le (fun x => value_lines L ts full x.2 x.1 bsf (v_bsf c)) (pidStatMemoryMetricFmt fm)) as D1.
  pose proof (concat_eq (fun x => value_lines L ts full x.2 x.1 bsf (v_bsf c)) (pidStatMemoryMetricFmt fm)) as D2.
  assert (length (value_lines L ts full (pidStatNumThreadsMetricsFmt fm) PID_STAT_NUM_THREADS bsf (v_bsf c)) <= 1) as E1
    by (unfold value_lines; rewrite when_length; destruct (_ || _); lia).
  split.
  - specialize (D1 ltac:(apply Forall_forall; intros x _; unfold value_lines; rewrite when_length; destruct (_ || _); lia)).
    assert (length (if full || is_new prev then cmdline_lines fm L ts cmdline bsf (v_bsf c) else []) <= 2) as F1.
    { destruct (full || _); [|simpl; lia]. unfold cmdline_lines. destruct (PidCmdline.GetData cmdline) as [[cp a] cd].
      destruct (bool_decide _); [|simpl; lia]. rewrite length_app, when_length. case (differs [PID_STAT_COMM] bsf (v_bsf c)); cbn [length]; clear; lia. }
    destruct use; rewrite ?length_app; destruct (full || is_new prev || _); cbn [length]; lia.
  - intros Ef Hp Heq Hm. destruct prev as [p|]; [|done]. destruct (Heq p eq_refl) as [Eb Es]. clear Heq.
    assert (forall ix, differs ix bsf (v_bsf c) = false) as Hd by (intros ix; subst bsf; cbn; by rewrite Eb, bool_decide_eq_true_2).
    rewrite A2, D2 by (done || (apply Forall_forall; intros x _; unfold value_lines; by rewrite when_length, Ef)).
    unfold value_lines. rewrite when_length, Ef. cbn [orb].
    assert (length (cmdline_lines fm L ts cmdline bsf (v_bsf c)) = 1) as ->.
    { unfold cmdline_lines. destruct (PidCmdline.GetData cmdline) as [[cp a] cd]. rewrite Hd. by destruct (bool_decide _). }
    destruct use; [|cbn [length]; lia]. rewrite length_app, <- Ef, B2, C2 by (done || (by apply Hm) || (cbn; rewrite Es; by rewrite bool_decide_eq_true_2)). lia.
Qed.

Lemma metric_lines_length isPid start ds (flt ctx : list bool) prev c cmdline :
  length flt = 2 -> length ctx = 2 ->
  let n := length (metric_lines linuxClktckSec pageSize fm L ts full use isPid start ds flt ctx prev c cmdline) in
  let st (k : nat) := if use then k else 0 in
  let all := 4 + length (pidStatFltMetricFmt fm) + length (pidStatPcpuMetricFmt fm) + 1 + st (length (pidStatusPidTidMemoryMetricFmt fm)) +
             st (length (pidStatusCtxMetricFmt fm)) +
             (if isPid then 4 + length (pidStatMemoryMetricFmt fm) + st 1 + st (length (pidStatusPidOnlyMemoryMetricFmt fm)) else 0) in
  n <= all + (if isPid then 6 else 3) /\
  (full = true -> prev <> None -> (forall p, prev = Some p -> v_bsf p = v_bsf c /\ v_s p = v_s c) ->
   (use = true -> Forall (fun x : IndexFmt => is_Some (v_s c !!! x.1)) (pidStatusPidTidMemoryMetricFmt fm ++ pidStatusPidOnlyMemoryMetricFmt fm)) ->
   n = all).
Proof.
  intros Hz1 Hz2. unfold metric_lines. rewrite !length_app. cbn [length]. set (bsf := v_bsf <$> prev).
  destruct (label_lines_length (pidStatStateMetricFmt fm) [] [PID_STAT_STATE] bsf (v_bsf c)) as [A1 A2].
  destruct (label_lines_length (pidStatCommMetricFmt fm) [start] [PID_STAT_COMM] bsf (v_bsf c)) as [B1 B2].
  destruct (label_lines_length (pidStatPriorityMetricFmt fm) [] prio_indexes bsf (v_bsf c)) as [C1 C2].
  destruct (mem_lines_length prev c (pidStatusPidTidMemoryMetricFmt fm)) as [D1 D2].
  destruct (pid_lines_length prev c cmdline) as [E1 E2].
  pose proof (fun q => prev_lines_length ds flt ctx q c Hz1 Hz2) as F. split.
  - destruct prev as [q|]; [destruct (F q) as [F1 _]|cbn [length]]; destruct use, isPid; cbn [length]; lia.
  - intros Ef Hp Heq Hm. destruct prev as [q|]; [|done]. destruct (Heq q eq_refl) as [Eb Es]. destruct (F q) as [_ F2].
    assert (forall ix, differs ix bsf (v_bsf c) = false) as Hd by (intros ix; subst bsf; cbn; by rewrite Eb, bool_decide_eq_true_2).
    rewrite A2, B2, C2, F2 by done. clear A1 B1 C1 D1 E1 F F2.
    assert (use = true -> Forall (fun x : IndexFmt => is_Some (v_s c !!! x.1)) (pidStatusPidTidMemoryMetricFmt fm) /\
      Forall (fun x : IndexFmt => is_Some (v_s c !!! x.1)) (pidStatusPidOnlyMemoryMetricFmt fm)) as Hm' by (intros E; by apply Forall_app, Hm).
    specialize (E2 Ef Hp Heq (fun E => proj2 (Hm' E))).
    destruct use; [rewrite D2 by (done || by apply Hm')|cbn [length]]; destruct isPid; cbn [length]; rewrite ?E2; lia.
Qed.
End counts.
(** ** The metrics by their names

    What is written, with the name of every metric and of every label next to the
    value that it has; nothing of [initMetricsCache] is used here. *)

Section documented.
Context (linuxClktckSec : spec_float) (pageSize : Z).
Context (instance hostname labels ts : bytes) (full : bool).

Definition text (name : string) (ls : list (string * bytes)) (val : bytes) : bytes :=
  bs name ++ bs "{instance=" ++ [QUOTE] ++ instance ++ [QUOTE] ++ bs ",hostname=" ++ [QUOTE] ++ hostname ++ [QUOTE] ++ bs "," ++ labels ++
  concat (map (fun x => bs "," ++ bs x.1 ++ bs "=" ++ [QUOTE] ++ x.2 ++ [QUOTE]) ls) ++ bs "} " ++ val ++ bs " " ++ ts ++ [NL].

(** A metric whose labels are fields: old labels that changed are cleared. *)
Definition categorical (name : string) (extra : list (string * bytes)) (fields : list (string * nat)) (prev : option (list bytes)) (curr : list bytes)
    : list bytes :=
  let vals l := extra ++ map (fun x => (x.1, l !!! x.2)) fields in
  let ch := differs (map snd fields) prev curr in
  when ch (text name (vals (default [] prev)) (bs "0")) ++ when (full || is_new prev || ch) (text name (vals curr) (bs "1")).
Definition plain (name : string) (i : nat) (prev : option (list bytes)) (curr : list bytes) : list bytes :=
  when (full || is_new prev || differs [i] prev curr) (text name [] (curr !!! i)).
Definition delta (name : string) (prev curr : list Z) (i : nat) (zero : bool) : list bytes :=
  when (negb (delta_of prev curr i =? 0)%Z || full || negb zero) (text name [] (FormatUint (delta_of prev curr i))).

(** The memory fields as the status file names them. *)
Definition memory_fields : list (string * string) :=
  [("VmPeak", "proc_pid_status_vm_peak"); ("VmSize", "proc_pid_status_vm_size"); ("VmLck", "proc_pid_status_vm_lck");
   ("VmPin", "proc_pid_status_vm_pin"); ("VmHWM", "proc_pid_status_vm_hwm"); ("VmRSS", "proc_pid_status_vm_rss");
   ("RssAnon", "proc_pid_status_rss_anon"); ("RssFile", "proc_pid_status_rss_file"); ("RssShmem", "proc_pid_status_rss_shmem");
   ("VmData", "proc_pid_status_vm_data"); ("VmStk", "proc_pid_status_vm_stk"); ("VmExe", "proc_pid_status_vm_exe");
   ("VmLib", "proc_pid_status_vm_lib"); ("VmPTE", "proc_pid_status_vm_pte"); ("VmPMD", "proc_pid_status_vm_pmd");
   ("VmSwap", "proc_pid_status_vm_swap"); ("HugetlbPages", "proc_pid_status_hugetlbpages")]%string.
Definition field_index (field : string) : nat := Z.to_nat (PidStatus.PidStatusNameToIndex (bs field)).

(** Threads have the size of the stack only. *)
Definition memory (keep : gset nat) (thread : bool) (prev : option (list (option bytes))) (curr : list (option bytes)) (units : list bytes)
    (x : string * string) : list bytes :=
  let i := field_index x.1 in
  if keeps_index keep i && eqb (String.eqb x.1 "VmStk") thread then
    match curr !!! i with
    | None => []
    | Some v => when (full || is_new prev || negb (bool_decide (default [] (default [] prev !!! i) = v))) (text x.2 [("unit"%string, units !!! i)] v)
    end
  else [].

(** The deltas and shares over the time between two scans. *)
Definition documented_deltas (usePidStatus : bool) (deltaSec : spec_float) (flt ctx : list bool) (p c : View) : list bytes :=
  let factor := f64_mul (f64_div linuxClktckSec deltaSec) (f64_of_int 100) in
  let d i := delta_of (v_nf p) (v_nf c) i in
  delta "proc_pid_stat_minflt_delta" (v_nf p) (v_nf c) PID_STAT_MINFLT (flt !!! 0) ++
  delta "proc_pid_stat_majflt_delta" (v_nf p) (v_nf c) PID_STAT_MAJFLT (flt !!! 1) ++
  [text "proc_pid_stat_stime_pcpu" [] (pcpu_text factor (d PID_STAT_STIME));
   text "proc_pid_stat_utime_pcpu" [] (pcpu_text factor (d PID_STAT_UTIME));
   text "proc_pid_stat_pcpu" [] (pcpu_text factor (u64 (d PID_STAT_STIME + d PID_STAT_UTIME)))] ++
  (if usePidStatus then
     delta "proc_pid_status_vol_ctx_switch_delta" (v_sn p) (v_sn c) PID_STATUS_VOLUNTARY_CTXT_SWITCHES (ctx !!! 0) ++
     delta "proc_pid_status_nonvol_ctx_switch_delta" (v_sn p) (v_sn c) PID_STATUS_NONVOLUNTARY_CTXT_SWITCHES (ctx !!! 1)
   else []).

Definition documented_cmdline (cmdline : PidCmdline.PidCmdline) (prev : option (list bytes)) (curr : list bytes) : list bytes :=
  let '(cmdPath, args, cmd) := PidCmdline.GetData cmdline in
  let comm l := [("cmd"%string, bs "[" ++ l !!! PID_STAT_COMM ++ bs "]")] in
  if bool_decide (default [] cmdPath = []) then
    when (differs [PID_STAT_COMM] prev curr) (text "proc_pid_cmdline" (comm (default [] prev)) (bs "0")) ++
    [text "proc_pid_cmdline" (comm curr) (bs "1")]
  else [text "proc_pid_cmdline" [("cmd_path", default [] cmdPath); ("args", default [] args); ("cmd", default [] cmd)]%string (bs "1")].

Definition documented_status (keep : gset nat) (prev : option View) (c : View) : list bytes :=
  categorical "proc_pid_status_info" []
    [("uid", PID_STATUS_UID); ("gid", PID_STATUS_GID); ("groups", PID_STATUS_GROUPS); ("cpus_allowed", PID_STATUS_CPUS_ALLOWED_LIST);
     ("mems_allowed", PID_STATUS_MEMS_ALLOWED_LIST)]%string (map (default []) ∘ v_s <$> prev) (map (default []) (v_s c)) ++
  concat (map (memory keep false (v_s <$> prev) (v_s c) (v_units c)) memory_fields).

(** The metrics of a process only. *)
Definition documented_pid (usePidStatus : bool) (keep : gset nat) (prev : option View) (c : View) (cmdline : PidCmdline.PidCmdline) : list bytes :=
  let bsf := v_bsf <$> prev in
  categorical "proc_pid_stat_info" []
    [("ppid", PID_STAT_PPID); ("pgrp", PID_STAT_PGRP); ("session", PID_STAT_SESSION); ("tty", PID_STAT_TTY_NR); ("tpgid", PID_STAT_TPGID);
     ("flags", PID_STAT_FLAGS)]%string bsf (v_bsf c) ++
  plain "proc_pid_stat_num_threads" PID_STAT_NUM_THREADS bsf (v_bsf c) ++
  when (full || is_new prev || negb (v_nf c !!! PID_STAT_RSS =? default [] (v_nf <$> prev) !!! PID_STAT_RSS)%Z)
    (text "proc_pid_stat_rss_bytes" [] (FormatUint (u64 (v_nf c !!! PID_STAT_RSS * pageSize)))) ++
  plain "proc_pid_stat_vsize_bytes" PID_STAT_VSIZE bsf (v_bsf c) ++ plain "proc_pid_stat_rsslim_bytes" PID_STAT_RSSLIM bsf (v_bsf c) ++
  (if usePidStatus then documented_status keep prev c else []) ++
  (if full || is_new prev then documented_cmdline cmdline bsf (v_bsf c) else []).

Definition documented_lines (usePidStatus isPid : bool) (keep : gset nat) (starttime : bytes) (deltaSec : spec_float) (flt ctx : list bool)
    (prev : option View) (c : View) (cmdline : PidCmdline.PidCmdline) : list bytes :=
  let bsf := v_bsf <$> prev in
  categorical "proc_pid_stat_state" [] [("state"%string, PID_STAT_STATE)] bsf (v_bsf c) ++
  categorical "proc_pid_stat_comm" [("starttime_msec"%string, starttime)] [("comm"%string, PID_STAT_COMM)] bsf (v_bsf c) ++
  categorical "proc_pid_stat_prio" []
    [("prio", PID_STAT_PRIORITY); ("nice", PID_STAT_NICE); ("rt_prio", PID_STAT_RT_PRIORITY); ("policy", PID_STAT_POLICY)]%string bsf (v_bsf c) ++
  [text "proc_pid_stat_cpu_num" [] (v_bsf c !!! PID_STAT_PROCESSOR)] ++
  (if usePidStatus then concat (map (memory keep true (v_s <$> prev) (v_s c) (v_units c)) memory_fields) else []) ++
  (match prev with Some p => documented_deltas usePidStatus deltaSec flt ctx p c | None => [] end) ++
  (if isPid then documented_pid usePidStatus keep prev c cmdline else []).

(** *** The formats of the cache write the same *)

Context (keep : gset nat) (use : bool).
Abbreviation fm := (initMetricsCache instance hostname use keep).

Lemma Fprintf_text name ls (vals : list bytes) val :
  Fprintf (buildMetricFmt instance hostname (bs name) (map bs ls)) labels vals val ts = text name (zip ls vals) val.
Proof.
  unfold Fprintf, text, buildMetricFmt, fmt_prefix. cbn [f_prefix f_labels].
  replace (zip_with (fun n v => bs "," ++ n ++ bs "=" ++ [QUOTE] ++ v ++ [QUOTE]) (map bs ls) vals)
    with (map (fun x : string * bytes => bs "," ++ bs x.1 ++ bs "=" ++ [QUOTE] ++ x.2 ++ [QUOTE]) (zip ls vals)).
  - change (bs "{instance=") with (bs "{" ++ INSTANCE_LABEL_NAME ++ bs "="). change (bs ",hostname=") with (bs "," ++ HOSTNAME_LABEL_NAME ++ bs "=").
    cbn [MetricsCommon.labels]. rewrite <- !app_assoc. cbn [app]. reflexivity.
  - revert vals. induction ls as [|l ls IH]; intros [|v vals]; cbn [zip zip_with map fst snd]; f_equal. apply IH.
Qed.

Lemma zip_fields {A} (g : A -> bytes) (extra : list (string * bytes)) names (fields : list A) : length names = length fields ->
  zip (map fst extra ++ names) (map snd extra ++ map g fields) = extra ++ map (fun x => (x.1, g x.2)) (zip names fields).
Proof.
  intros Hl. induction extra as [|[k v] extra IH]; cbn [map app zip zip_with fst snd]; [|by f_equal].
  revert fields Hl. induction names as [|n names IH]; intros [|i fields] [=]; [done|]. cbn [map zip zip_with fst snd]. f_equal. by apply IH.
Qed.

Lemma label_lines_text name extra names indexes (prev : option (list bytes)) (curr : list bytes) : length names = length indexes ->
  label_lines labels ts full (buildMetricFmt instance hostname (bs name) (map bs (map fst extra ++ names))) (map snd extra) indexes prev curr =
  categorical name extra (zip names indexes) prev curr.
Proof.
  intros Hl. unfold label_lines, categorical. rewrite !Fprintf_text, !zip_fields by done.
  by replace (map snd (zip names indexes)) with indexes by (symmetry; apply snd_zip; lia).
Qed.

Lemma value_lines_text name i (prev : option (list bytes)) (curr : list bytes) :
  value_lines labels ts full (buildMetricFmt instance hostname (bs name) []) i prev curr = plain name i prev curr.
Proof. unfold value_lines, plain. by rewrite (Fprintf_text name [] []). Qed.

Lemma delta_lines_text name i (prev curr : list Z) zero :
  delta_lines labels ts full prev curr (i, buildMetricFmt instance hostname (bs name) []) zero = delta name prev curr i zero.
Proof. unfold delta_lines, delta. cbn [fst snd]. by rewrite (Fprintf_text name [] []). Qed.

Lemma concat_filter {A} (P : A -> Prop) `{!forall x, Decision (P x)} (f : A -> list bytes) (l : list A) :
  concat (map f (filter P l)) = concat (map (fun x => if decide (P x) then f x else []) l).
Proof. induction l as [|x l IH]; [done|]. rewrite filter_cons. cbn [map concat]. destruct (decide (P x)); cbn [map concat app]; by rewrite IH. Qed.

Lemma concat_same {A B} (f : A -> list bytes) (g : B -> list bytes) l l' : Forall2 (fun x y => f x = g y) l l' -> concat (map f l) = concat (map g l').
Proof. induction 1 as [|x y l l' E _ IH]; [done|]. cbn [map concat]. by rewrite E, IH. Qed.

Lemma mem_lines_text (thread : bool) (prev : option (list (option bytes))) (curr : list (option bytes)) (units : list bytes) (x : IndexFmt)
    (y : string * string) :
  field_index y.1 = x.1 -> x.2 = buildMetricFmt instance hostname (bs y.2) [PROC_PID_STATUS_VM_UNIT_LABEL_NAME] ->
  (if keeps_index keep x.1 && eqb (String.eqb y.1 "VmStk") thread then mem_lines labels ts full prev curr units x else []) =
  memory keep thread prev curr units y.
Proof.
  intros Ei Ef. unfold memory, mem_lines. rewrite Ei, Ef. destruct (_ && _); [|done]. destruct (curr !!! x.1) as [v|]; [|done].
  do 2 f_equal. exact (Fprintf_text y.2 ["unit"%string] [_] v).
Qed.

Lemma memory_lines_text (thread : bool) (prev : option (list (option bytes))) (curr : list (option bytes)) (units : list bytes) :
  concat (map (mem_lines labels ts full prev curr units)
    (filter (fun x => bool_decide (x.1 ∈ procPidStatusPidTidMetricMemoryIndex) = thread)
      (filter (fun x => keeps_index keep x.1 = true) (pidStatusMemoryFmt instance hostname)))) =
  concat (map (memory keep thread prev curr units) memory_fields).
Proof.
  rewrite !concat_filter. apply concat_same.
  assert (Forall2 (fun (x : IndexFmt) y => field_index y.1 = x.1 /\ x.2 = buildMetricFmt instance hostname (bs y.2) [PROC_PID_STATUS_VM_UNIT_LABEL_NAME] /\
    String.eqb y.1 "VmStk" = bool_decide (x.1 ∈ procPidStatusPidTidMetricMemoryIndex)) (pidStatusMemoryFmt instance hostname) memory_fields) as H
    by (repeat (constructor; [by repeat split|]); constructor).
  eapply Forall2_impl; [exact H|]. intros x y (Ei & Ef & Et). rewrite <- (mem_lines_text thread _ _ _ _ _ Ei Ef), Et.
  destruct (keeps_index keep x.1), (bool_decide (x.1 ∈ _)), thread; reflexivity.
Qed.

Lemma memory_used_text (thread : bool) (prev : option (list (option bytes))) (curr : list (option bytes)) (units : list bytes) :
  use = true ->
  concat (map (mem_lines labels ts full prev curr units) ((if thread then pidStatusPidTidMemoryMetricFmt else pidStatusPidOnlyMemoryMetricFmt) fm)) =
  concat (map (memory keep thread prev curr units) memory_fields).
Proof.
  intros Eu. rewrite <- memory_lines_text. do 2 f_equal.
  destruct thread; cbn [initMetricsCache pidStatusPidTidMemoryMetricFmt pidStatusPidOnlyMemoryMetricFmt]; rewrite Eu; apply list_filter_iff; intros x.
  - by rewrite bool_decide_eq_true.
  - by rewrite bool_decide_eq_false.
Qed.

Lemma documented_deltas_text deltaSec (f0 f1 c0 c1 : bool) (p c : View) :
  prev_lines linuxClktckSec fm labels ts full use deltaSec [f0; f1] [c0; c1] p c = documented_deltas use deltaSec [f0; f1] [c0; c1] p c.
Proof.
  unfold prev_lines, documented_deltas. cbn [initMetricsCache pidStatFltMetricFmt pidStatPcpuMetricFmt pidStatTotalPcpuMetricFmt pidStatusCtxMetricFmt].
  cbn [zip_with map concat fst snd]. rewrite !delta_lines_text, !app_nil_r, <- !app_assoc.
  change ([f0; f1] !!! 0) with f0. change ([f0; f1] !!! 1) with f1. do 2 f_equal. cbn [app].
  do 2 (f_equal; [exact (Fprintf_text _ [] [] _)|]).
  assert (forall fs, total_delta (v_nf p) (v_nf c) [(PID_STAT_STIME, fs); (PID_STAT_UTIME, fs)] 0 =
    u64 (delta_of (v_nf p) (v_nf c) PID_STAT_STIME + delta_of (v_nf p) (v_nf c) PID_STAT_UTIME)) as Ht.
  { intros fs. unfold total_delta. cbn [foldl fst]. unfold u64, wrapu. by rewrite Z.add_0_l, Zplus_mod_idemp_l. }
  rewrite <- (Ht (mkFmt [] [])). f_equal; [exact (Fprintf_text _ [] [] _)|]. destruct use; [|done].
  cbn [zip_with concat]. by rewrite !delta_lines_text, app_nil_r.
Qed.

Lemma documented_cmdline_text cmdline (prev : option (list bytes)) (curr : list bytes) :
  cmdline_lines fm labels ts cmdline prev curr = documented_cmdline cmdline prev curr.
Proof.
  unfold cmdline_lines, documented_cmdline. destruct (PidCmdline.GetData cmdline) as [[cp a] cd].
  assert (forall comm val, Fprintf_comm (pidCmdlineCommPrefix fm) labels comm val ts =
    text "proc_pid_cmdline" [("cmd"%string, bs "[" ++ comm ++ bs "]")] val) as H.
  { intros comm val. refine (eq_trans _ (Fprintf_text "proc_pid_cmdline" ["cmd"%string] [bs "[" ++ comm ++ bs "]"] val)). unfold Fprintf_comm, Fprintf.
    cbn [f_prefix f_labels buildMetricFmt map zip_with concat]. rewrite app_nil_r, <- !app_assoc. reflexivity. }
  rewrite !H. destruct (bool_decide _); [done|]. f_equal.
  exact (Fprintf_text "proc_pid_cmdline" ["cmd_path"; "args"; "cmd"]%string [_; _; _] _).
Qed.

Lemma documented_status_text (prev : option View) (c : View) :
  use = true -> status_lines fm labels ts full prev c = documented_status keep prev c.
Proof.
  intros Eu. unfold status_lines, documented_status. f_equal; [|by apply (memory_used_text false)].
  exact (label_lines_text "proc_pid_status_info" [] ["uid"; "gid"; "groups"; "cpus_allowed"; "mems_allowed"]%string status_indexes _ _ eq_refl).
Qed.

Lemma documented_pid_text (prev : option View) (c : View) cmdline :
  pid_lines pageSize fm labels ts full use prev c cmdline = documented_pid use keep prev c cmdline.
Proof.
  unfold pid_lines, documented_pid. cbn [initMetricsCache pidStatInfoMetricFmt pidStatNumThreadsMetricsFmt pidStatRssMetricFmt pidStatMemoryMetricFmt].
  cbn [map concat fst snd]. rewrite !value_lines_text, app_nil_r, <- !app_assoc, documented_cmdline_text.
  f_equal; [exact (label_lines_text "proc_pid_stat_info" [] ["ppid"; "pgrp"; "session"; "tty"; "tpgid"; "flags"]%string info_indexes _ _ eq_refl)|].
  f_equal. f_equal; [f_equal; exact (Fprintf_text _ [] [] _)|]. do 2 f_equal. f_equal.
  destruct use eqn:Eu; [|done]. rewrite <- Eu. by apply documented_status_text.
Qed.

Lemma documented_lines_text isPid starttime deltaSec (flt ctx : list bool) (prev : option View) (c : View) cmdline :
  length flt = 2 -> length ctx = 2 ->
  metric_lines linuxClktckSec pageSize fm labels ts full use isPid starttime deltaSec flt ctx prev c cmdline =
  documented_lines use isPid keep starttime deltaSec flt ctx prev c cmdline.
Proof.
  intros H1 H2. destruct flt as [|f0 [|f1 [|]]]; try done. destruct ctx as [|c0 [|c1 [|]]]; try done.
  unfold metric_lines, documented_lines. rewrite documented_pid_text.
  f_equal; [exact (label_lines_text "proc_pid_stat_state" [] ["state"%string] [PID_STAT_STATE] _ _ eq_refl)|].
  f_equal; [exact (label_lines_text "proc_pid_stat_comm" [("starttime_msec"%string, starttime)] ["comm"%string] [PID_STAT_COMM] _ _ eq_refl)|].
  f_equal; [exact (label_lines_text "proc_pid_stat_prio" [] ["prio"; "nice"; "rt_prio"; "policy"]%string prio_indexes _ _ eq_refl)|].
  f_equal; [f_equal; exact (Fprintf_text _ [] [] _)|]. f_equal.
  { generalize (memory_used_text true (v_s <$> prev) (v_s c) (v_units c)). destruct use; [auto|done]. }
  f_equal.
  destruct prev as [p|]; [apply documented_deltas_text|done].
Qed.
End documented.

(** ** Properties *)

(** The count of the metrics of a process or thread. *)
Definition metric_count (fm : MetricFmts) (isPid : bool) : Z :=
  (perPidTidMetricCount fm + (if isPid then perPidOnlyMetricCount fm else 0))%Z.

Lemma init_counts instance hostname use keep :
  let fm := initMetricsCache instance hostname use keep in
  let n {A} (l : list A) := Z.of_nat (length l) in
  perPidTidMetricCount fm = (4 + n (pidStatFltMetricFmt fm) + n (pidStatPcpuMetricFmt fm) + 1 + n (pidStatusPidTidMemoryMetricFmt fm) + n (pidStatusCtxMetricFmt fm))%Z /\
  perPidOnlyMetricCount fm = (4 + n (pidStatMemoryMetricFmt fm) + (if use then 1 else 0) + n (pidStatusPidOnlyMemoryMetricFmt fm))%Z /\
  (use = false -> n (pidStatusPidTidMemoryMetricFmt fm) = 0 /\ n (pidStatusPidOnlyMemoryMetricFmt fm) = 0 /\ n (pidStatusCtxMetricFmt fm) = 0)%Z.
Proof.
  destruct use; cbn [initMetricsCache perPidTidMetricCount perPidOnlyMetricCount pidStatFltMetricFmt pidStatPcpuMetricFmt pidStatusPidTidMemoryMetricFmt
    pidStatusCtxMetricFmt pidStatMemoryMetricFmt pidStatusPidOnlyMemoryMetricFmt length]; (split; [lia|split; [lia|]]); done.
Qed.

(** C24: what is written for a process or thread.  With the formats of any
    configuration, from any parsed data of the lengths that the parsers keep, a
    generation does not panic and writes exactly the lines of [documented_lines],
    which name every metric, its labels and the field behind each, without the
    format cache of the code: for each of state, command, priorities, process data
    and status data, the old labels with 0 and the current ones with 1 when they
    changed, and the current ones in a full cycle and for a new process; the values
    that changed, or all of them in such a cycle; the selected memory fields of the
    status; the deltas of faults and context switches modulo 2^64 that are not
    repeated zeros; always the processor number and, after a first scan, the shares
    of the processor, from the exact deltas; the command line in a full cycle and for
    a new process.  The flags left say which deltas were zero.  The priorities are
    written for threads too, as the comments of the code say. *)
Theorem pid_metrics_lines instance hostname linuxClktckSec pageSize use keep st status cmdline info (hasPrev isPid full : bool) currTs :
  flags_ok info -> view_ok use (view_of use st status) ->
  (hasPrev = true -> view_ok use (view_of use (i_pidStat info) (i_pidStatus info))) ->
  let fm := initMetricsCache instance hostname use keep in
  let prev := if hasPrev then Some (view_of use (i_pidStat info) (i_pidStatus info)) else None in
  let c := view_of use st status in
  generateMetrics linuxClktckSec pageSize fm use st status cmdline info hasPrev isPid full currTs =
  Ret (generated use fm prev c info,
       documented_lines linuxClktckSec pageSize instance hostname (pidTidLabels info) (Itoa (UnixMilli currTs)) full use isPid keep (starttimeMsec info)
         (Seconds (Sub currTs (prevTs info))) (pidStatFltZeroDelta info) (pidStatusCtxZeroDelta info) prev c cmdline).
Proof.
  intros Hz Hc Hp fm prev c. destruct (id Hz) as [Hz1 Hz2].
  rewrite generateMetrics_view, <- documented_lines_text by done. apply (gen_view_spec _ _ _ _ (init_fmts_ok _ _ _ _)); [done|done|].
  subst prev. destruct hasPrev; [intros p [= <-]; by apply Hp|done].
Qed.

(** C26: the number of lines of a process or thread is bounded by the count that the
    generator reports for it, but for at most three lines (six for a process) that
    clear old labels; in a full cycle, when no text changed and the status has all
    the memory fields selected, it is exactly that count. *)
Theorem pid_metrics_count instance hostname linuxClktckSec pageSize use keep st status cmdline info (hasPrev isPid full : bool) currTs :
  flags_ok info -> view_ok use (view_of use st status) ->
  (hasPrev = true -> view_ok use (view_of use (i_pidStat info) (i_pidStatus info))) ->
  let fm := initMetricsCache instance hostname use keep in
  let p := view_of use (i_pidStat info) (i_pidStatus info) in
  let c := view_of use st status in
  exists info' lines,
    generateMetrics linuxClktckSec pageSize fm use st status cmdline info hasPrev isPid full currTs = Ret (info', lines) /\
    (Z.of_nat (length lines) <= metric_count fm isPid + (if isPid then 6 else 3))%Z /\
    (full = true -> hasPrev = true -> v_bsf p = v_bsf c -> v_s p = v_s c ->
     (use = true -> Forall (fun x : IndexFmt => is_Some (v_s c !!! x.1)) (pidStatusPidTidMemoryMetricFmt fm ++ pidStatusPidOnlyMemoryMetricFmt fm)) ->
     Z.of_nat (length lines) = metric_count fm isPid).
Proof.
  intros Hz Hc Hp fm p c. rewrite generateMetrics_view. set (prev := if hasPrev then _ else _). fold c.
  pose proof (init_fmts_ok instance hostname use keep) as Hfm. fold fm in Hfm.
  rewrite (gen_view_spec _ _ _ _ Hfm); [|done|done|subst prev; destruct hasPrev; [intros ? [= <-]; by apply Hp|done]].
  eexists _, _. split; [done|]. destruct Hz as [Hz1 Hz2]. unfold metric_count.
  destruct (metric_lines_length linuxClktckSec pageSize fm (pidTidLabels info) (Itoa (UnixMilli currTs)) full use Hfm isPid (starttimeMsec info)
    (Seconds (Sub currTs (prevTs info))) _ _ prev c cmdline Hz1 Hz2) as [H1 H2].
  destruct (init_counts instance hostname use keep) as (Hn1 & Hn2 & Hn). fold fm in Hn, Hn1, Hn2. rewrite Hn1, Hn2. split.
  - destruct use, isPid; try destruct (Hn eq_refl) as (? & ? & ?); lia.
  - intros Ef Eh Eb Es Hm. rewrite H2; [destruct use, isPid; try destruct (Hn eq_refl) as (? & ? & ?); lia|done|..].
    + subst prev. by rewrite Eh.
    + subst prev. rewrite Eh. by intros ? [= <-].
    + done.
Qed.

(** ** Witnesses and examples *)

Definition sample_stat (comm state : string) (utime : Z) : PidStat.PidStat :=
  PidStat.mkPidStat (map bs [comm; state; "1"; "7"; "7"; "0"; "-1"; "0"; "20"; "0"; "4"; "898"; "4096"; "999"; "1"; "0"; "0"]%string) [5; 0; utime; 2; 3]%Z.
Definition sample_status (stk : string) : PidStatus.PidStatus :=
  let f s := Some (PidStatus.BSlice (bs s) (String.length s)) in
  PidStatus.mkPidStatus (map f ["104"; "111"; ""; "9"; "9"; "0"; "0"; "8"; "8"; "4"; "4"; "0"; "6"; stk; "1"; "2"; "1"; "0"; "0"; "0"; "0-3"; "0"]%string)
    (replicate 22 (bs "kB")) [12; 3]%Z.
Definition sample_clk : spec_float := f64_div (f64_of_int 1) (f64_of_int 100).
Definition sample_info (comm : string) : Info :=
  mkInfo (sample_stat comm "S" 10) (Some (sample_status "132")) (mkTime 0 (Some 0%Z)) (PidTidList.mkPidTid 7 0) (bs "/proc/7")
    (pid_labels (PidTidList.mkPidTid 7 0)) (bs "9980") true [true; true] [false; false] 0 3.

Lemma sample_view_ok comm state utime stk : view_ok true (view_of true (sample_stat comm state utime) (Some (sample_status stk))).
Proof. by repeat split. Qed.

Lemma pid_metrics_lines_witness :
  exists info' lines, generateMetrics sample_clk 4096 (initMetricsCache (bs "i") (bs "h") true {[PID_STATUS_VM_STK]}) true
    (sample_stat "cat" "R" 15) (Some (sample_status "140")) PidCmdline.NewPidCmdline (sample_info "cat") true false false (mkTime Second (Some Second)) =
    Ret (info', lines) /\ length lines = 9 /\
  lines !! 0 = Some (bs "proc_pid_stat_state{instance=" ++ [QUOTE] ++ bs "i" ++ [QUOTE] ++ bs ",hostname=" ++ [QUOTE] ++ bs "h" ++ [QUOTE] ++
    bs ",pid=" ++ [QUOTE] ++ bs "7" ++ [QUOTE] ++ bs ",state=" ++ [QUOTE] ++ bs "S" ++ [QUOTE] ++ bs "} 0 -62135596799000" ++ [NL]).
Proof.
  eexists _, _. split.
  - apply (pid_metrics_lines (bs "i") (bs "h") sample_clk 4096 true {[PID_STATUS_VM_STK]} (sample_stat "cat" "R" 15) (Some (sample_status "140"))
      PidCmdline.NewPidCmdline (sample_info "cat") true false false (mkTime Second (Some Second)));
      [by split|apply sample_view_ok|intros _; apply sample_view_ok].
  - vm_compute. split; reflexivity.
Defined.

Lemma pid_metrics_count_witness :
  exists info' lines, generateMetrics sample_clk 4096 (initMetricsCache (bs "i") (bs "h") true ∅) true
    (sample_stat "cat" "S" 15) (Some (sample_status "132")) PidCmdline.NewPidCmdline (sample_info "cat") true true true (mkTime Second (Some Second)) =
    Ret (info', lines) /\ Z.of_nat (length lines) = 35%Z.
Proof.
  destruct (pid_metrics_count (bs "i") (bs "h") sample_clk 4096 true ∅ (sample_stat "cat" "S" 15) (Some (sample_status "132"))
    PidCmdline.NewPidCmdline (sample_info "cat") true true true (mkTime Second (Some Second))) as (info' & lines & H & _ & Hl);
    [by split|apply sample_view_ok|intros _; apply sample_view_ok|].
  exists info', lines. split; [exact H|].
  rewrite Hl; [vm_compute; reflexivity|reflexivity..|]. intros _. apply (bool_decide_unpack _). vm_compute. reflexivity.
Defined.

(** The command of a process is a label value as it is, without the escapes of the
    command line: one that has a quote in it is read as another label. *)
Theorem pid_comm_forges_label f labels starttime (a b name ts : bytes) :
  f_labels f = [PROC_PID_STAT_STARTTIME_LABEL_NAME; bs "comm"] ->
  let comm := a ++ [QUOTE] ++ bs "," ++ name ++ bs "=" ++ [QUOTE] ++ b in
  label_lines labels ts true f [starttime] [PID_STAT_COMM] None [comm] =
  [Fprintf (mkFmt (f_prefix f) (f_labels f ++ [name])) labels [starttime; a; b] (bs "1") ts].
Proof.
  intros Hf comm. unfold label_lines. cbn [differs when app orb is_new map]. unfold Fprintf. rewrite Hf. cbn [f_prefix f_labels app zip_with concat].
  change ([comm] !!! PID_STAT_COMM) with comm. subst comm. rewrite !app_nil_r. f_equal. repeat (rewrite <- !app_assoc || rewrite <- !app_comm_cons).
  reflexivity.
Qed.

Lemma pid_comm_forges_label_witness :
  label_lines [] (bs "5") true (buildMetricFmt (bs "i") (bs "h") (bs "proc_pid_stat_comm") [bs "starttime_msec"; bs "comm"]) [bs "1"] [PID_STAT_COMM] None
    [bs "a" ++ [QUOTE] ++ bs ",uid=" ++ [QUOTE] ++ bs "0"] =
  [Fprintf (buildMetricFmt (bs "i") (bs "h") (bs "proc_pid_stat_comm") [bs "starttime_msec"; bs "comm"; bs "uid"]) [] [bs "1"; bs "a"; bs "0"] (bs "1") (bs "5")].
Proof.
  exact (pid_comm_forges_label (buildMetricFmt (bs "i") (bs "h") (bs "proc_pid_stat_comm") [bs "starttime_msec"; bs "comm"])
    [] (bs "1") (bs "a") (bs "0") (bs "uid") (bs "5") eq_refl).
Defined.
End PidMetrics.
