(* ===== verification/PidScan.v ===== *)
(** The scan of the processes and threads of a partition
    (src/lsvmi/proc_pid_metrics.go): the cache of their data, which is a map and a
    list in the order of their last scan, linked through pointers; the unbound
    parsers that are swapped with those of a process; removal of what the scan did
    not find; the metrics about the scan.

    The data of processes are objects in a memory.  What a scan reads is an
    argument: for every position of the list of processes, the content of the
    files by path and the time.  The buffers that were queued, each a list of
    lines, are the output. *)

From Stdlib Require Import ZArith Lia.
From Stdlib Require Import Floats.SpecFloat.
From stdpp Require Import base tactics numbers strings gmap list.
From S2P Require Import Prelude Scan GoTime GoFloat MetricsCommon Links ProcPaths PidTidList PidStat PidStatus PidCmdline PidMetrics.
Import MetricsCommon PidMetrics.

Module PidScan.

Definition PROC_PID_TOTAL_COUNT_METRIC : bytes := bs "proc_pid_total_count".
Definition PROC_PID_PARSE_OK_COUNT_METRIC : bytes := bs "proc_pid_parse_ok_count".
Definition PROC_PID_PARSE_ERR_COUNT_METRIC : bytes := bs "proc_pid_parse_err_count".
Definition PROC_PID_ACTIVE_COUNT_METRIC : bytes := bs "proc_pid_active_count".
Definition PROC_PID_NEW_COUNT_METRIC : bytes := bs "proc_pid_new_count".
Definition PROC_PID_DEL_COUNT_METRIC : bytes := bs "proc_pid_del_count".
Definition PROC_PID_INTERVAL_METRIC : bytes := bs "proc_pid_metrics_delta_sec".

#[export] Instance PidTid_eq_dec : EqDecision PidTidList.PidTid.
Proof. solve_decision. Defined.
#[export] Instance PidTid_countable : Countable PidTidList.PidTid.
Proof.
  refine (inj_countable' (fun x => (PidTidList.Pid x, PidTidList.Tid x)) (fun p => PidTidList.mkPidTid p.1 p.2) _).
  by intros [].
Defined.

(** An object: the pointers and the data of a process. *)
Record Node := mkNode { next : option nat; prev : option nat; info : Info }.
Definition set_next (q : option nat) (n : Node) : Node := mkNode q (prev n) (info n).
Definition set_prev (q : option nat) (n : Node) : Node := mkNode (next n) q (info n).

(** The unbound parsers; there is one for the status when it is used. *)
Record Parsers := mkParsers { p_pidStat : PidStat.PidStat; p_pidStatus : option PidStatus.PidStatus; p_pidCmdline : PidCmdline.PidCmdline }.

(** The cache: the map, the ends of the list and the objects. *)
Record Cache := mkCache {
  pidTidMetricsInfo : gmap PidTidList.PidTid nat;
  infoHead : option nat;
  infoTail : option nat;
  mem : gmap nat Node
}.

(** [m_fmts] is [None] until the first execution. *)
Record ProcPidMetrics := mkMetrics {
  m_fmts : option MetricFmts;
  m_cache : Cache;
  m_parsers : Parsers;
  m_scanNum : Z;
  m_prevTs : Time
}.

(** What does not change: [partNo], the configuration. *)
Record Config := mkConfig {
  partNo : Z;
  fullMetricsFactor : Z;
  usePidStatus : bool;
  pidStatusMemKeepIndex : gset nat
}.

(** What the scan of one process reads. *)
Record Env := mkEnv { files : bytes -> read_result; now : Time }.

Definition update (p : nat) (f : Node -> Node) (m : gmap nat Node) : outcome (gmap nat Node) :=
  n ← must (m !! p); Ret (<[p := f n]> m).

(** Take an object out of the list. *)
Definition lru_remove (p : nat) (c : Cache) : outcome Cache :=
  n ← must (mem c !! p);
  '(tl, m) ← (match next n with
              | Some q => m ← update q (set_prev (prev n)) (mem c); Ret (infoTail c, m)
              | None => Ret (prev n, mem c)
              end);
  n ← must (m !! p);
  '(hd, m) ← (match prev n with
              | Some q => m ← update q (set_next (next n)) m; Ret (infoHead c, m)
              | None => Ret (next n, m)
              end);
  m ← update p (set_next None) m;
  m ← update p (set_prev None) m;
  Ret (mkCache (pidTidMetricsInfo c) hd tl m).

(** Add an object to the tail of the list. *)
Definition lru_add (p : nat) (c : Cache) : outcome Cache :=
  '(hd, m) ← (match infoTail c with
              | Some t => m ← update t (set_next (Some p)) (mem c); m ← update p (set_prev (Some t)) m; Ret (infoHead c, m)
              | None => Ret (Some p, mem c)
              end);
  Ret (mkCache (pidTidMetricsInfo c) hd (Some p) m).

Definition put_info (p : nat) (i : Info) (c : Cache) : outcome Cache :=
  n ← must (mem c !! p);
  Ret (mkCache (pidTidMetricsInfo c) (infoHead c) (infoTail c) (<[p := mkNode (next n) (prev n) i]> (mem c))).

(** A new object, and its entry in the map. *)
Definition new_info (k : PidTidList.PidTid) (i : Info) (c : Cache) : nat * Cache :=
  let p := fresh (dom (mem c)) in
  (p, mkCache (<[k := p]> (pidTidMetricsInfo c)) (infoHead c) (infoTail c) (<[p := mkNode None None i]> (mem c))).

Definition delete_key (k : PidTidList.PidTid) (c : Cache) : Cache :=
  mkCache (delete k (pidTidMetricsInfo c)) (infoHead c) (infoTail c) (mem c).

(** ** One process *)

(** What the scan finds out about a process: that it cannot be parsed, which
    deletes its data ([Failed true]) when it had any; that the identifier belongs
    to another process than before, which cannot be parsed ([Stale]); its new
    data, without metrics for one that is inactive, or with the lines written. *)
Inductive verdict :=
| Failed (del : bool)
| Stale
| Skipped (i : Info)
| Generated (i : Info) (lines : list bytes) (isNew reused active : bool).

Section scan.
Context (instance hostname procfsRoot : bytes).
Context (parse_other : bytes -> option spec_float) (linuxClktckSec : spec_float) (boottimeMsec pageSize : Z).

Definition initialize (cfg : Config) : MetricFmts * Parsers :=
  (initMetricsCache instance hostname (usePidStatus cfg) (pidStatusMemKeepIndex cfg),
   mkParsers PidStat.NewPidStat (if usePidStatus cfg then Some PidStatus.NewPidStatus else None) PidCmdline.NewPidCmdline).

(** The data after the process was scanned. *)
Definition scanned (F scan : Z) (ts : Time) (i : Info) : Info :=
  mkInfo (i_pidStat i) (i_pidStatus i) ts (pidTid i) (pidTidPath i) (pidTidLabels i) (starttimeMsec i) (active i)
    (pidStatFltZeroDelta i) (pidStatusCtxZeroDelta i) (next_cycle F (cycleNum i)) scan.
Definition set_active (b : bool) (i : Info) : Info :=
  mkInfo (i_pidStat i) (i_pidStatus i) (prevTs i) (pidTid i) (pidTidPath i) (pidTidLabels i) (starttimeMsec i) b
    (pidStatFltZeroDelta i) (pidStatusCtxZeroDelta i) (cycleNum i) (scanNum i).
Definition set_parsers (st : PidStat.PidStat) (ps : option PidStatus.PidStatus) (i : Info) : Info :=
  mkInfo st ps (prevTs i) (pidTid i) (pidTidPath i) (pidTidLabels i) (starttimeMsec i) (active i)
    (pidStatFltZeroDelta i) (pidStatusCtxZeroDelta i) (cycleNum i) (scanNum i).

(** The verdict on a parse that failed. *)
Definition failure (hasPrev reused : bool) : verdict := if hasPrev then Failed true else if reused then Stale else Failed false.

(** The status and the command line are parsed, as far as they are needed. *)
Definition parse_rest (cfg : Config) (env : Env) (path : bytes) (needCmdline : bool) (ps : Parsers) : outcome (Parsers * bool) :=
  '(status, err) ← (if usePidStatus cfg then
                      p ← must (p_pidStatus ps);
                      '(p, e) ← PidStatus.Parse (files env (ProcPaths.pidStatusPath path)) p;
                      Ret (Some p, bool_decide (is_Some e))
                    else Ret (p_pidStatus ps, false));
  let ps := mkParsers (p_pidStat ps) status (p_pidCmdline ps) in
  if err : bool then Ret (ps, true)
  else if needCmdline then
    '(c, e) ← PidCmdline.Parse (files env (ProcPaths.pidCmdlinePath path)) (p_pidCmdline ps);
    Ret (mkParsers (p_pidStat ps) status c, match e with Some _ => true | None => false end)
  else Ret (ps, false).

(** A process that has metrics: parse, generate, swap the parsers. *)
Definition scan_generate (cfg : Config) (fm : MetricFmts) (scan : Z) (env : Env) (isPid hasPrev reused full act : bool) (i : Info) (ps : Parsers)
    : outcome (verdict * Parsers) :=
  let i := set_active act i in
  '(ps, err) ← parse_rest cfg env (pidTidPath i) (isPid && (full || negb hasPrev)) ps;
  if err : bool then Ret (failure hasPrev reused, ps)
  else
    '(i, lines) ← generateMetrics linuxClktckSec pageSize fm (usePidStatus cfg) (p_pidStat ps) (p_pidStatus ps) (p_pidCmdline ps) i
                    hasPrev isPid full (now env);
    let j := set_parsers (p_pidStat ps) (if usePidStatus cfg then p_pidStatus ps else i_pidStatus i) i in
    let ps := mkParsers (i_pidStat i) (if usePidStatus cfg then i_pidStatus i else p_pidStatus ps) (p_pidCmdline ps) in
    Ret (Generated (scanned (fullMetricsFactor cfg) scan (now env) j) lines (negb hasPrev) reused act, ps).

(** One process, whose cached data are [old].  After a failed parse of the
    statistics the fields of the parser are not specified; all of them are set by
    the next one that succeeds. *)
Definition scan_one (cfg : Config) (fm : MetricFmts) (scan : Z) (env : Env) (k : PidTidList.PidTid) (old : option Info) (ps : Parsers) (icm : Z)
    : outcome (verdict * Parsers * Z) :=
  let isPid := (PidTidList.Tid k =? PidTidList.PID_ONLY_TID)%Z in
  let path := match old with Some i => pidTidPath i | None => ProcPaths.BuildPidTidPath procfsRoot (PidTidList.Pid k) (PidTidList.Tid k) end in
  r ← PidStat.Parse (files env (ProcPaths.pidStatPath path)) (p_pidStat ps);
  match r with
  | inl _ => Ret (Failed (bool_decide (is_Some old)), ps, icm)
  | inr st =>
    let ps := mkParsers st (p_pidStatus ps) (p_pidCmdline ps) in
    let '(currBSF, currNF) := PidStat.GetData st in
    reused ← (match old with
              | None => Ret false
              | Some i => c ← must (currBSF !! PID_STAT_STARTTIME); p ← must ((PidStat.GetData (i_pidStat i)).1 !! PID_STAT_STARTTIME);
                          Ret (negb (bool_decide (c = p)))
              end);
    match (if reused : bool then None else old) with
    | None =>
      '(i, icm) ← initPidTidMetricsInfo parse_other linuxClktckSec boottimeMsec (fullMetricsFactor cfg) (usePidStatus cfg) st k path icm;
      '(v, ps) ← scan_generate cfg fm scan env isPid false reused false true i ps;
      Ret (v, ps, icm)
    | Some i =>
      let full := (cycleNum i =? 0)%Z in
      let prevNF := (PidStat.GetData (i_pidStat i)).2 in
      cu ← must (currNF !! PID_STAT_UTIME); pu ← must (prevNF !! PID_STAT_UTIME);
      cs ← must (currNF !! PID_STAT_STIME); s ← must (prevNF !! PID_STAT_STIME);
      let act := negb (cu =? pu)%Z || negb (cs =? s)%Z in
      if negb act && negb full && negb (active i)
      then Ret (Skipped (scanned (fullMetricsFactor cfg) scan (now env) i), ps, icm)
      else
        '(v, ps) ← scan_generate cfg fm scan env isPid true false full act i ps;
        Ret (v, ps, icm)
    end
  end.

(** ** The loop *)

(** The counts, the buffer that is being filled, the buffers queued. *)
Record Acc := mkAcc {
  a_buf : option (list bytes);
  a_queued : list (list bytes);
  actualMetricsCount : Z;
  pidTidCount : Z;
  pidOnlyCount : Z;
  activePidTidCount : Z;
  addPidCount : Z;
  delPidCount : Z;
  byteCount : Z
}.
Definition acc0 : Acc := mkAcc None [] 0 0 0 0 0 0 0.

Definition buf_len (buf : list bytes) : Z := Z.of_nat (length (concat buf)).

(** Deletions counted: those of failures, and the process that had a reused
    identifier. *)
Definition count_del (v : verdict) : Z :=
  match v with Failed true | Stale | Generated _ _ _ true _ => 1 | _ => 0 end.

Definition account (bufTargetSize : Z) (isPid : bool) (v : verdict) (a : Acc) : Acc :=
  let del := (delPidCount a + count_del v)%Z in
  let pid := (pidOnlyCount a + (if isPid then 1 else 0))%Z in
  match v with
  | Failed _ | Stale =>
    mkAcc (a_buf a) (a_queued a) (actualMetricsCount a) (pidTidCount a) (pidOnlyCount a) (activePidTidCount a) (addPidCount a) del (byteCount a)
  | Skipped _ =>
    mkAcc (a_buf a) (a_queued a) (actualMetricsCount a) (pidTidCount a + 1) pid (activePidTidCount a) (addPidCount a) del (byteCount a)
  | Generated _ lines isNew _ act =>
    let buf := default [] (a_buf a) ++ lines in
    let over := (bufTargetSize <? buf_len buf)%Z in
    mkAcc (if over then None else Some buf) (if over then a_queued a ++ [buf] else a_queued a)
      (actualMetricsCount a + Z.of_nat (length lines)) (pidTidCount a + 1) pid
      (activePidTidCount a + (if act then 1 else 0)) (addPidCount a + (if isNew then 1 else 0)) del
      (byteCount a + (if over then buf_len buf else 0))
  end.

(** The state of the loop: the cache, the parsers, the initial cycle numbers. *)
Abbreviation lstate := (Cache * Parsers * Z)%type.

(** The effect of a verdict on the cache; [p] is the object that was taken out of
    the list. *)
Definition settle (k : PidTidList.PidTid) (p : option nat) (v : verdict) (c : Cache) : outcome Cache :=
  match v with
  | Failed del => Ret (if del then delete_key k c else c)
  | Stale => Ret c
  | Skipped i => p ← must p; c ← put_info p i c; lru_add p c
  | Generated i _ true _ _ => let '(p, c) := new_info k i c in lru_add p c
  | Generated i _ false _ _ => p ← must p; c ← put_info p i c; lru_add p c
  end.

(** One iteration. *)
Definition scan_step (cfg : Config) (fm : MetricFmts) (scan : Z) (k : PidTidList.PidTid) (env : Env) (st : lstate) : outcome (lstate * verdict) :=
  let '(c, ps, icm) := st in
  let p := pidTidMetricsInfo c !! k in
  '(old, c) ← (match p with
               | None => Ret (None, c)
               | Some p => n ← must (mem c !! p); c ← lru_remove p c; Ret (Some (info n), c)
               end);
  '(v, ps, icm) ← scan_one cfg fm scan env k old ps icm;
  c ← settle k p v c;
  Ret (c, ps, icm, v).

Fixpoint scan_loop (cfg : Config) (fm : MetricFmts) (scan bufTargetSize : Z) (l : list (PidTidList.PidTid * Env)) (st : lstate) (a : Acc)
    : outcome (lstate * Acc) :=
  match l with
  | [] => Ret (st, a)
  | (k, env) :: l =>
    '(st, v) ← scan_step cfg fm scan k env st;
    scan_loop cfg fm scan bufTargetSize l st (account bufTargetSize (PidTidList.Tid k =? PidTidList.PID_ONLY_TID)%Z v a)
  end.

(** The removal of the objects that the scan did not find, from the head of the
    list; [cur] is the object to look at.  The pointer of the next object is
    followed without a check for nil. *)
Definition remove_body (scan : Z) (st : option nat * Cache * Z) : outcome ((option nat * Cache * Z) + (Cache * Z)) :=
  let '(cur, c, del) := st in
  match cur with
  | None => Ret (inr (c, del))
  | Some p =>
    n ← must (mem c !! p);
    if (scanNum (info n) =? scan)%Z then Ret (inr (c, del))
    else
      let q := next n in
      match q with
      | None => Panic
      | Some q' =>
        m ← update q' (set_prev None) (mem c);
        Ret (inl (q, mkCache (delete (pidTid (info n)) (pidTidMetricsInfo c)) q (infoTail c) m, (del + 1)%Z))
      end
  end.
Definition remove_outdated (scan : Z) (c : Cache) (del : Z) : outcome (Cache * Z) :=
  while (S (size (mem c))) (remove_body scan) (infoHead c, c, del).

(** The metrics about the scan. *)
Definition specific_lines (cfg : Config) (ts : bytes) (total : Z) (a : Acc) (del : Z) (interval : option spec_float) : list bytes :=
  let m name val := generatorSpecificMetric instance hostname (partNo cfg) name val ts in
  [m PROC_PID_TOTAL_COUNT_METRIC (Itoa total);
   m PROC_PID_PARSE_OK_COUNT_METRIC (Itoa (pidTidCount a));
   m PROC_PID_PARSE_ERR_COUNT_METRIC (Itoa (total - pidTidCount a));
   m PROC_PID_ACTIVE_COUNT_METRIC (Itoa (activePidTidCount a));
   m PROC_PID_NEW_COUNT_METRIC (Itoa (addPidCount a));
   m PROC_PID_DEL_COUNT_METRIC (Itoa del)] ++
  match interval with Some s => [m PROC_PID_INTERVAL_METRIC (FormatFloat 6 s)] | None => [] end.

Definition generator_id (cfg : Config) : bytes := PROC_PID_METRICS_ID ++ bs "#" ++ Itoa (partNo cfg).

(** [scanNum + 1], never 0. *)
Definition next_scan (scanNum : Z) : Z := let s := i64 (scanNum + 1) in if (s =? 0)%Z then 1%Z else s.

(** [pidTidList] is the list of the partition, [None] when it cannot be read;
    [env] what is read for its elements, [endTs] the time at the end. *)
Definition Execute (cfg : Config) (pidTidList : option (list PidTidList.PidTid)) (env : nat -> Env) (endTs : Time) (bufTargetSize : Z)
    (pm : ProcPidMetrics) (icm : Z) (mgs : MetricsGeneratorStats)
    : outcome (ProcPidMetrics * Z * MetricsGeneratorStats * list (list bytes) * bool) :=
  let hasPrev := bool_decide (is_Some (m_fmts pm)) in
  let '(fm, ps) := match m_fmts pm with Some fm => (fm, m_parsers pm) | None => initialize cfg end in
  match pidTidList with
  | None => Ret (mkMetrics (Some fm) (m_cache pm) ps (m_scanNum pm) (m_prevTs pm), icm, mgs, [], false)
  | Some l =>
    let scan := next_scan (m_scanNum pm) in
    '(c, ps, icm, a) ← scan_loop cfg fm scan bufTargetSize (imap (fun i k => (k, env i)) l) (m_cache pm, ps, icm) acc0;
    '(c, del) ← remove_outdated scan c (delPidCount a);
    let interval := if hasPrev then Some (Seconds (Sub endTs (m_prevTs pm))) else None in
    let sp := specific_lines cfg (Itoa (UnixMilli endTs)) (Z.of_nat (length l)) a del interval in
    let buf := default [] (a_buf a) ++ sp in
    let actual := (actualMetricsCount a + Z.of_nat (length sp))%Z in
    let total := (perPidTidMetricCount fm * pidTidCount a + perPidOnlyMetricCount fm * pidOnlyCount a + PROC_PID_SPECIFIC_METRICS_COUNT)%Z in
    mgs ← Update (generator_id cfg) (u64 actual) (u64 total) (u64 (byteCount a + buf_len buf)) mgs;
    Ret (mkMetrics (Some fm) c ps scan endTs, icm, mgs, a_queued a ++ [buf], true)
  end.
End scan.
(** ** The list of the cache *)

(** The cache lists the objects [xs]. *)
Definition repr (c : Cache) (xs : list nat) : Prop :=
  NoDup xs /\ links prev next (mem c) None xs None /\ infoHead c = first_or xs None /\ infoTail c = last_or xs None.

(** What the operations on the list leave alone. *)
Definition same_data (c c' : Cache) : Prop :=
  pidTidMetricsInfo c' = pidTidMetricsInfo c /\ info <$> mem c' = info <$> mem c.

Lemma update_node_Ret p f (m : gmap nat Node) n : m !! p = Some n -> update p f m = Ret (<[p := f n]> m).
Proof. intros H. unfold update. by rewrite H. Qed.

Lemma info_insert (m : gmap nat Node) p n n' : m !! p = Some n -> info n' = info n -> info <$> <[p := n']> m = info <$> m.
Proof. intros Hp Hi. rewrite fmap_insert, Hi. apply insert_id. by rewrite lookup_fmap, Hp. Qed.

(** The pointer back to an object that goes. *)
Lemma unlink_node_next (m : gmap nat Node) tl xs ys p n :
  NoDup (xs ++ ys) -> (p ∉ ys) -> m !! p = Some n -> prev n = last_or xs None -> next n = first_or ys None ->
  links prev next m None xs (Some p) -> links prev next m (Some p) ys None -> tl = last_or ys (Some p) ->
  exists tl' m', (match next n with
    | Some q => m ← update q (set_prev (prev n)) m; Ret (tl, m)
    | None => Ret (prev n, m)
    end) = Ret (tl', m') /\
    links prev next m' None xs (Some p) /\ links prev next m' (last_or xs None) ys None /\ m' !! p = Some n /\
    tl' = last_or (xs ++ ys) None /\ info <$> m' = info <$> m.
Proof.
  intros Hnd Hpy Hn Hpr Hnx Hlx Hly Ht. rewrite Hnx. destruct ys as [|y ys].
  { cbn [first_or]. eexists _, _. split; [reflexivity|]. rewrite app_nil_r. by split_and!. }
  cbn [first_or]. destruct Hly as [(yn & Hyn & Hyp & Hyx) Hly]. rewrite (update_node_Ret y _ m yn Hyn), bind_ret.
  apply NoDup_app in Hnd as (_ & Hd & Hnd). apply NoDup_cons in Hnd as [Hy _].
  eexists _, _. split; [reflexivity|]. split_and!.
  - apply links_frame; [|done]. intros Hx. apply (Hd y Hx). set_solver.
  - rewrite <- Hpr. eapply (links_set_prev _ (Some p)); [done|exact Hyn|done|done|]. split; [by exists yn|done].
  - rewrite lookup_insert_ne; [done|]. intros ->. set_solver.
  - by rewrite Ht, last_or_app, !last_or_cons.
  - by eapply info_insert.
Qed.

(** The pointer forth to it. *)
Lemma unlink_node_prev (m : gmap nat Node) hd xs ys p n :
  NoDup (xs ++ ys) -> (p ∉ xs) -> m !! p = Some n -> prev n = last_or xs None -> next n = first_or ys None ->
  links prev next m None xs (Some p) -> links prev next m (last_or xs None) ys None -> hd = first_or xs (Some p) ->
  exists hd' m', (match prev n with
    | Some q => m ← update q (set_next (next n)) m; Ret (hd, m)
    | None => Ret (next n, m)
    end) = Ret (hd', m') /\
    links prev next m' None xs (first_or ys None) /\ links prev next m' (last_or xs None) ys None /\ m' !! p = Some n /\
    hd' = first_or (xs ++ ys) None /\ info <$> m' = info <$> m.
Proof.
  intros Hnd Hpx Hn Hpr Hnx Hlx Hly Hh. rewrite Hpr. destruct xs as [|x xs _] using rev_ind.
  { eexists _, _. split; [reflexivity|]. by split_and!. }
  rewrite last_or_snoc in *. assert (x ∈ xs ++ [x]) as Hin by set_solver.
  destruct (links_lookup _ _ _ _ x Hlx Hin) as [xn Hxn]. rewrite (update_node_Ret x _ m xn Hxn), bind_ret.
  apply NoDup_app in Hnd as (Hnx' & Hd & _). assert (x ∉ xs) as Hx by (apply NoDup_app in Hnx' as (_ & Hd' & _); intros H; apply (Hd' x H); set_solver).
  eexists _, _. split; [reflexivity|]. split_and!.
  - rewrite <- Hnx. by eapply links_set_next.
  - apply links_frame; [by apply Hd|done].
  - rewrite lookup_insert_ne; [done|]. intros ->. set_solver.
  - rewrite Hh, !first_or_app. by destruct xs.
  - by eapply info_insert.
Qed.

Lemma lru_remove_correct c xs ys p :
  repr c (xs ++ p :: ys) ->
  exists c' n, lru_remove p c = Ret c' /\ repr c' (xs ++ ys) /\ same_data c c' /\
    mem c' !! p = Some n /\ next n = None /\ prev n = None.
Proof.
  intros (Hnd & Hl & Hh & Ht). apply links_app in Hl as [Hlx [(n & Hn & Hpr & Hnx) Hly]].
  rewrite <- Permutation_middle in Hnd. apply NoDup_cons in Hnd as [Hni Hnd]. rewrite elem_of_app in Hni.
  assert (next n = first_or ys None) as Hnx' by (rewrite Hnx; by destruct ys).
  rewrite first_or_app in Hh. rewrite last_or_app, last_or_cons in Ht. unfold lru_remove. rewrite Hn. cbn [must]. rewrite bind_ret.
  destruct (unlink_node_next (mem c) (infoTail c) xs ys p n) as (tl & m1 & -> & Hlx1 & Hly1 & Hn1 & Ht1 & Hi1); try done; [tauto|].
  rewrite bind_ret, Hn1. cbn [must]. rewrite bind_ret.
  destruct (unlink_node_prev m1 (infoHead c) xs ys p n) as (hd & m2 & -> & Hlx2 & Hly2 & Hn2 & Hh2 & Hi2); try done; [tauto|].
  rewrite bind_ret. erewrite update_node_Ret by exact Hn2. rewrite bind_ret. erewrite update_node_Ret by apply lookup_insert_eq.
  rewrite bind_ret, insert_insert_eq. eexists _, _. split; [reflexivity|]. split; [split_and!|].
  - done.
  - cbn [mem]. apply links_frame; [rewrite elem_of_app; tauto|]. apply links_app. by split.
  - done.
  - done.
  - split; [|cbn [mem]; by rewrite lookup_insert_eq]. split; [done|]. cbn [mem]. rewrite (info_insert _ _ n) by done. congruence.
Qed.

Lemma lru_add_correct c xs p n :
  repr c xs -> p ∉ xs -> mem c !! p = Some n -> next n = None -> prev n = None ->
  exists c', lru_add p c = Ret c' /\ repr c' (xs ++ [p]) /\ same_data c c'.
Proof.
  intros (Hnd & Hl & Hh & Ht) Hp Hn Hnx Hpr. unfold lru_add. rewrite Ht.
  assert (NoDup (xs ++ [p])) as Hnd' by (rewrite <- Permutation_cons_append; by apply NoDup_cons).
  destruct xs as [|x xs _] using rev_ind.
  - change (last_or [] None) with (@None nat). cbv beta iota. rewrite bind_ret. eexists. split; [reflexivity|]. split; [|done].
    split_and!; [done| |done|done]. split; [|done]. by exists n.
  - rewrite last_or_snoc. assert (x ∈ xs ++ [x]) as Hin by set_solver. destruct (links_lookup _ _ _ _ x Hl Hin) as [xn Hxn].
    assert (x <> p) as Hxp by set_solver. assert (x ∉ xs) as Hx by (apply NoDup_app in Hnd as (_ & Hd & _); intros H; apply (Hd x H); set_solver).
    rewrite (update_node_Ret x _ _ xn Hxn), bind_ret. erewrite update_node_Ret by (by rewrite lookup_insert_ne). rewrite !bind_ret.
    eexists. split; [reflexivity|]. split; [split_and!|].
    + done.
    + cbn [mem]. apply links_app. split.
      * apply links_frame; [done|]. by eapply links_set_next.
      * rewrite last_or_snoc. split; [|done]. eexists. by rewrite lookup_insert_eq.
    + cbn [infoHead]. rewrite Hh, !first_or_app. by destruct xs.
    + cbn [infoTail]. by rewrite last_or_snoc.
    + split; [done|]. cbn [mem]. rewrite (info_insert _ _ n); [|by rewrite lookup_insert_ne|done]. by rewrite (info_insert _ _ xn).
Qed.
(** ** The cache as a sequence *)

Definition key (i : Info) : PidTidList.PidTid := pidTid i.
Definition holds (c : Cache) (p : nat) (i : Info) : Prop := info <$> mem c !! p = Some i.

(** The cache has the data [L], of distinct processes, in the order of the list,
    but for the process [k], which may be in the map only. *)
Record rep_but (k : PidTidList.PidTid) (c : Cache) (xs : list nat) (L : list Info) : Prop := mkRepBut {
  rb_list : repr c xs;
  rb_data : Forall2 (holds c) xs L;
  rb_keys : NoDup (key <$> L);
  rb_new : k ∉ key <$> L;
  rb_map : delete k (pidTidMetricsInfo c) = list_to_map (zip (key <$> L) xs)
}.

(** The cache has the data [L]. *)
Record represents (c : Cache) (xs : list nat) (L : list Info) : Prop := mkRep {
  rp_list : repr c xs;
  rp_data : Forall2 (holds c) xs L;
  rp_keys : NoDup (key <$> L);
  rp_map : pidTidMetricsInfo c = list_to_map (zip (key <$> L) xs)
}.

Lemma same_holds c c' p i : info <$> mem c' = info <$> mem c -> holds c p i -> holds c' p i.
Proof. unfold holds. intros H <-. apply (f_equal (.!! p)) in H. by rewrite !lookup_fmap in H. Qed.

Lemma same_holds_all c c' xs L : info <$> mem c' = info <$> mem c -> Forall2 (holds c) xs L -> Forall2 (holds c') xs L.
Proof. intros H HF. eapply Forall2_impl; [exact HF|]. intros. by eapply same_holds. Qed.

Lemma holds_length c xs L : Forall2 (holds c) xs L -> length (key <$> L) = length xs.
Proof. intros H%Forall2_length. by rewrite length_fmap. Qed.

Lemma zip_snoc {A B} (l : list A) (k : list B) x y : length l = length k -> zip (l ++ [x]) (k ++ [y]) = zip l k ++ [(x, y)].
Proof. intros. by rewrite zip_with_app. Qed.

Lemma fst_zip_keys (l : list PidTidList.PidTid) (xs : list nat) : length l = length xs -> (zip l xs).*1 = l.
Proof. intros. apply fst_zip. lia. Qed.

(** Looking up a process: the data found, and where it is in the list. *)
Lemma represents_lookup c xs L k :
  represents c xs L ->
  match pidTidMetricsInfo c !! k with
  | Some p => exists xs1 xs2 L1 i L2, xs = xs1 ++ p :: xs2 /\ L = L1 ++ i :: L2 /\ length xs1 = length L1 /\ key i = k /\ holds c p i
  | None => k ∉ key <$> L
  end.
Proof.
  intros [Hr Hd Hk Hm]. pose proof (holds_length _ _ _ Hd) as Hlen. rewrite Hm. destruct (list_to_map _ !! k) as [p|] eqn:E.
  - apply elem_of_list_to_map_2, list_elem_of_lookup in E as [j Hj]. rewrite lookup_zip_with in Hj.
    apply bind_Some in Hj as (k' & Hk' & Hj). apply bind_Some in Hj as (p' & Hp' & [= -> ->]).
    rewrite list_lookup_fmap in Hk'. apply fmap_Some in Hk' as (i & Hi & ->).
    exists (take j xs), (drop (S j) xs), (take j L), i, (drop (S j) L).
    rewrite (take_drop_middle _ _ _ Hp'), (take_drop_middle _ _ _ Hi). split_and!; try done.
    + rewrite !length_take. rewrite length_fmap in Hlen. lia.
    + by eapply (Forall2_lookup_lr _ _ _ _ _ _ Hd).
  - apply not_elem_of_list_to_map in E. by rewrite fst_zip_keys in E.
Qed.

Lemma remove_rep_but c xs L k p :
  represents c xs L -> pidTidMetricsInfo c !! k = Some p ->
  exists c' xs1 xs2 L1 i L2 n, L = L1 ++ i :: L2 /\ key i = k /\ holds c p i /\ lru_remove p c = Ret c' /\
    rep_but k c' (xs1 ++ xs2) (L1 ++ L2) /\ pidTidMetricsInfo c' !! k = Some p /\ (p ∉ xs1 ++ xs2) /\
    mem c' !! p = Some n /\ next n = None /\ prev n = None.
Proof.
  intros Hrep Hk. pose proof (represents_lookup _ _ _ k Hrep) as Hl. rewrite Hk in Hl.
  destruct Hl as (xs1 & xs2 & L1 & i & L2 & -> & -> & Hlen & Hi & Hh). destruct Hrep as [Hr Hd Hks Hm].
  assert (p ∉ xs1 ++ xs2) as Hp by (destruct Hr as (Hnd & _); rewrite <- Permutation_middle in Hnd; by apply NoDup_cons in Hnd as [? _]).
  destruct (lru_remove_correct c xs1 xs2 p Hr) as (c' & n & Hrm & Hr' & [Hs1 Hs2] & Hn & Hn1 & Hn2).
  exists c', xs1, xs2, L1, i, L2, n. split_and!; try done; [|by rewrite Hs1].
  apply Forall2_app_inv in Hd as [Hd1 Hd2]; [|done]. inversion_clear Hd2 as [|? ? ? ? _ Hd3].
  rewrite fmap_app, fmap_cons, Hi in Hks, Hm.
  pose proof Hks as Hks'. rewrite <- Permutation_middle in Hks'. apply NoDup_cons in Hks' as [Hnew Hnd].
  split; [done| | | |].
  - apply (same_holds_all c); [done|]. by apply Forall2_app.
  - by rewrite fmap_app.
  - by rewrite fmap_app.
  - rewrite Hs1, Hm, fmap_app. rewrite !zip_with_app by (by rewrite length_fmap). cbn [zip_with].
    assert (list_to_map (zip (key <$> L1) xs1 ++ (k, p) :: zip (key <$> L2) xs2) =
      <[k := p]> (list_to_map (zip (key <$> L1) xs1 ++ zip (key <$> L2) xs2) : gmap PidTidList.PidTid nat)) as ->.
    { change (list_to_map ?l) with (list_to_map (M := gmap PidTidList.PidTid nat) l).
      rewrite <- list_to_map_cons. apply list_to_map_proper; [|symmetry; apply Permutation_middle].
      rewrite fmap_app, fmap_cons. rewrite !fst_zip_keys; [done|rewrite length_fmap; by apply Forall2_length in Hd3|by rewrite length_fmap]. }
    apply delete_insert_id. apply not_elem_of_list_to_map_1. rewrite fmap_app, !fst_zip_keys; [done|rewrite length_fmap; by apply Forall2_length in Hd3|by rewrite length_fmap].
Qed.

(** Deleting from the map, or nothing to delete. *)
Lemma rep_but_drop k c xs L : rep_but k c xs L -> represents (delete_key k c) xs L.
Proof. intros [Hr Hd Hks Hnew Hm]. by split. Qed.

Lemma rep_but_none k c xs L : represents c xs L -> pidTidMetricsInfo c !! k = None -> rep_but k c xs L.
Proof.
  intros Hrep Hk. pose proof (represents_lookup _ _ _ k Hrep) as Hl. rewrite Hk in Hl. destruct Hrep. split; try done.
  by rewrite delete_id.
Qed.

Lemma rep_none k c xs L : rep_but k c xs L -> pidTidMetricsInfo c !! k = None -> represents c xs L.
Proof. intros [Hr Hd Hks Hnew Hm] Hk. split; try done. by rewrite delete_id in Hm. Qed.

(** Adding the data of the process to the tail. *)
Lemma add_represents k c xs L p i n :
  rep_but k c xs L -> pidTidMetricsInfo c !! k = Some p -> p ∉ xs -> mem c !! p = Some n -> next n = None -> prev n = None ->
  info n = i -> key i = k ->
  exists c', lru_add p c = Ret c' /\ represents c' (xs ++ [p]) (L ++ [i]).
Proof.
  intros [Hr Hd Hks Hnew Hm] Hk Hp Hn Hn1 Hn2 Hi Hkey.
  destruct (lru_add_correct c xs p n Hr Hp Hn Hn1 Hn2) as (c' & Ha & Hr' & [Hs1 Hs2]).
  exists c'. split; [done|]. pose proof (holds_length _ _ _ Hd) as Hlen. split.
  - done.
  - apply (same_holds_all c); [done|]. apply Forall2_app; [done|]. constructor; [|done]. unfold holds. rewrite Hn. simpl. by rewrite Hi.
  - rewrite fmap_app. cbn [fmap list_fmap]. rewrite Hkey. rewrite <- Permutation_cons_append. by apply NoDup_cons.
  - rewrite fmap_app. cbn [fmap list_fmap]. rewrite Hkey, zip_snoc by done. rewrite list_to_map_snoc, <- Hm, Hs1.
    + rewrite insert_delete_eq. by rewrite insert_id.
    + by rewrite fst_zip_keys.
Qed.

(** ** The scan on sequences *)

(** The data that a verdict leaves, and the lines that it has. *)
Definition verdict_info (v : verdict) : option Info :=
  match v with Skipped i | Generated i _ _ _ _ => Some i | _ => None end.
Definition verdict_lines (v : verdict) : list bytes := match v with Generated _ l _ _ _ => l | _ => [] end.

(** A verdict on the process [k] with the cached data [old]. *)
Definition fits (k : PidTidList.PidTid) (old : option Info) (v : verdict) : Prop :=
  (forall i, verdict_info v = Some i -> key i = k) /\
  match v with
  | Failed del => del = bool_decide (is_Some old)
  | Stale => is_Some old
  | Skipped _ => is_Some old
  | Generated _ _ true reused _ => reused = bool_decide (is_Some old)
  | Generated _ _ false reused _ => is_Some old /\ reused = false
  end.

(** The data of a process, and the others. *)
Definition cached (k : PidTidList.PidTid) (L : list Info) : option Info := head (filter (fun i => key i = k) L).
Definition others (k : PidTidList.PidTid) (L : list Info) : list Info := filter (fun i => key i <> k) L.
Definition settled (k : PidTidList.PidTid) (v : verdict) (L : list Info) : list Info := others k L ++ option_list (verdict_info v).

Lemma filter_none {A} (P : A -> Prop) `{forall x, Decision (P x)} (l : list A) : Forall (fun x => ~ P x) l -> filter P l = [].
Proof. induction 1 as [|x l Hx _ IH]; [done|]. by rewrite filter_cons_False. Qed.
Lemma filter_all {A} (P : A -> Prop) `{forall x, Decision (P x)} (l : list A) : Forall P l -> filter P l = l.
Proof. induction 1 as [|x l Hx _ IH]; [done|]. by rewrite filter_cons_True, IH. Qed.

Lemma notin_keys k (L : list Info) : (k ∉ key <$> L) -> Forall (fun i => key i <> k) L.
Proof. intros H. apply Forall_forall. intros i Hi <-. apply H. by apply list_elem_of_fmap_2. Qed.

Lemma cached_split k (L1 L2 : list Info) i : key i = k -> (k ∉ key <$> L1 ++ L2) -> cached k (L1 ++ i :: L2) = Some i /\ others k (L1 ++ i :: L2) = L1 ++ L2.
Proof.
  intros Hi Hk. apply notin_keys, Forall_app in Hk as [H1 H2]. unfold cached, others. rewrite !filter_app, filter_cons_True, filter_cons_False by (done || tauto).
  rewrite (filter_none _ L1 H1). split; [done|]. by rewrite !filter_all.
Qed.

Lemma cached_none k (L : list Info) : (k ∉ key <$> L) -> cached k L = None /\ others k L = L.
Proof. intros Hk%notin_keys. unfold cached, others. by rewrite filter_none, filter_all. Qed.

(** Adding new data. *)
Lemma new_represents k c xs L i :
  rep_but k c xs L -> key i = k ->
  exists c' xs', (let '(p, c) := new_info k i c in lru_add p c) = Ret c' /\ represents c' xs' (L ++ [i]).
Proof.
  intros [Hr Hd Hks Hnew Hm] Hkey. unfold new_info. set (p := fresh (dom (mem c))).
  assert (mem c !! p = None) as Hp by (apply not_elem_of_dom, is_fresh).
  assert (p ∉ xs) as Hpx.
  { intros Hin. destruct Hr as (_ & Hl & _). destruct (links_lookup _ _ _ _ p Hl Hin) as [n Hn]. congruence. }
  edestruct (add_represents k (mkCache (<[k := p]> (pidTidMetricsInfo c)) (infoHead c) (infoTail c) (<[p := mkNode None None i]> (mem c))) xs L p i)
    as (c' & Ha & Hrep); [|apply lookup_insert_eq|done|apply lookup_insert_eq|done|done|done|done|by exists c', (xs ++ [p])].
  destruct Hr as (H1 & H2 & H3 & H4). split; [split_and!; try done| |done|done|].
  - cbn [mem]. by apply links_frame.
  - apply Forall2_same_length_lookup. split; [by apply Forall2_length in Hd|]. intros j q i' Hq Hi'.
    pose proof (Forall2_lookup_lr _ _ _ _ _ _ Hd Hq Hi') as Hh. unfold holds in *. cbn [mem].
    rewrite lookup_insert_ne; [done|]. intros ->. apply Hpx. by eapply list_elem_of_lookup_2.
  - cbn [pidTidMetricsInfo]. by rewrite delete_insert_eq.
Qed.

(** Putting back data that were there. *)
Lemma put_represents k c xs L p i n :
  rep_but k c xs L -> pidTidMetricsInfo c !! k = Some p -> p ∉ xs -> mem c !! p = Some n -> next n = None -> prev n = None -> key i = k ->
  exists c' xs', (c ← put_info p i c; lru_add p c) = Ret c' /\ represents c' xs' (L ++ [i]).
Proof.
  intros [Hr Hd Hks Hnew Hm] Hk Hp Hn Hn1 Hn2 Hkey. unfold put_info. rewrite Hn. cbn [must]. rewrite !bind_ret.
  edestruct (add_represents k (mkCache (pidTidMetricsInfo c) (infoHead c) (infoTail c) (<[p := mkNode (next n) (prev n) i]> (mem c))) xs L p i)
    as (c' & Ha & Hrep); [|done|done|apply lookup_insert_eq|done|done|done|done|by exists c', (xs ++ [p])].
  destruct Hr as (H1 & H2 & H3 & H4). split; [split_and!; try done| |done|done|done].
  - cbn [mem]. by apply links_frame.
  - apply Forall2_same_length_lookup. split; [by apply Forall2_length in Hd|]. intros j q i' Hq Hi'.
    pose proof (Forall2_lookup_lr _ _ _ _ _ _ Hd Hq Hi') as Hh. unfold holds in *. cbn [mem].
    rewrite lookup_insert_ne; [done|]. intros ->. apply Hp. by eapply list_elem_of_lookup_2.
Qed.

(** The effect of a verdict. *)
Lemma settle_known k c xs L p n i0 v :
  rep_but k c xs L -> pidTidMetricsInfo c !! k = Some p -> p ∉ xs -> mem c !! p = Some n -> next n = None -> prev n = None ->
  fits k (Some i0) v -> v <> Stale ->
  exists c' xs', settle k (Some p) v c = Ret c' /\ represents c' xs' (L ++ option_list (verdict_info v)).
Proof.
  intros Hrep Hk Hp Hn Hn1 Hn2 [Hkey Hf] Hs. destruct v as [del| |i|i lines isNew reused act]; cbn [settle verdict_info option_list] in *.
  - subst del. cbn. rewrite app_nil_r. eexists _, xs. split; [done|]. by apply rep_but_drop.
  - done.
  - cbn [must]. rewrite bind_ret. by eapply put_represents; eauto.
  - destruct isNew; [|cbn [must]; rewrite bind_ret; by eapply put_represents; eauto]. by eapply new_represents; eauto.
Qed.

Lemma settle_unknown k c xs L v :
  rep_but k c xs L -> pidTidMetricsInfo c !! k = None -> fits k None v ->
  exists c' xs', settle k None v c = Ret c' /\ represents c' xs' (L ++ option_list (verdict_info v)).
Proof.
  intros Hrep Hk [Hkey Hf]. destruct v as [del| |i|i lines isNew reused act]; cbn [settle verdict_info option_list] in *.
  - subst del. cbn. rewrite app_nil_r. eexists _, xs. split; [done|]. by eapply rep_none.
  - by destruct Hf.
  - by destruct Hf.
  - destruct isNew; [|by destruct Hf as [[]]]. by eapply new_represents; eauto.
Qed.

(** ** One process, for all contents of its files *)

(** What the cached data of a process are like. *)
Record info_ok (cfg : Config) (root : bytes) (i : Info) : Prop := mkInfoOk {
  io_view : view_ok (usePidStatus cfg) (view_of (usePidStatus cfg) (i_pidStat i) (i_pidStatus i));
  io_flags : flags_ok i;
  io_path : pidTidPath i = ProcPaths.BuildPidTidPath root (PidTidList.Pid (pidTid i)) (PidTidList.Tid (pidTid i));
  io_labels : pidTidLabels i = pid_labels (pidTid i);
  io_cycle : (0 <= cycleNum i < Z.max 1 (fullMetricsFactor cfg))%Z;
  io_sized : PidStat.sized (i_pidStat i) /\ (usePidStatus cfg = true -> exists ps, i_pidStatus i = Some ps /\ PidStatus.sized ps)
}.

Definition parsers_ok (cfg : Config) (ps : Parsers) : Prop :=
  PidStat.sized (p_pidStat ps) /\ (usePidStatus cfg = true -> exists p, p_pidStatus ps = Some p /\ PidStatus.sized p).

(** A file that was cut off has the size of the read buffer. *)
Definition env_ok (env : Env) : Prop := forall path buf, files env path = ReadTrunc buf -> 3 <= length buf.

(** So it is with the buffer pools of the parsers. *)
Lemma read_env_ok fs mem kind t :
  env_ok (mkEnv (fun path => ProcPaths.read_file mem (kind path) (fs path)) t).
Proof. intros path buf H. apply ProcPaths.read_file_cut in H as (_ & _ & _ & H). lia. Qed.

Lemma sized_view use st o : PidStat.sized st -> (use = true -> exists ps, o = Some ps /\ PidStatus.sized ps) -> view_ok use (view_of use st o).
Proof.
  intros [H1 H2] Hs. destruct use; [|by split]. destruct (Hs eq_refl) as (ps & -> & S1 & S2 & S3). split; [done|done|]. intros _. cbn.
  by rewrite length_map.
Qed.

Section one.
Context (instance hostname procfsRoot : bytes).
Context (parse_other : bytes -> option spec_float) (linuxClktckSec : spec_float) (boottimeMsec pageSize : Z).
Context (cfg : Config) (fm : MetricFmts) (scan : Z).
Hypothesis Hfm : fmts_ok (usePidStatus cfg) fm.
Hypothesis Hfactor : (fullMetricsFactor cfg <= MaxInt64)%Z.

Lemma parse_rest_total env path need ps :
  env_ok env -> parsers_ok cfg ps ->
  returns (parse_rest cfg env path need ps) (fun r => parsers_ok cfg r.1 /\ p_pidStat r.1 = p_pidStat ps).
Proof.
  intros He [H1 H2]. unfold parse_rest.
  assert (returns (if usePidStatus cfg then p ← must (p_pidStatus ps); '(p, e) ← PidStatus.Parse (files env (ProcPaths.pidStatusPath path)) p;
      Ret (Some p, bool_decide (is_Some e)) else Ret (p_pidStatus ps, false))
    (fun r => usePidStatus cfg = true -> exists p, r.1 = Some p /\ PidStatus.sized p)) as Hs.
  { destruct (usePidStatus cfg); [|by eexists]. destruct (H2 eq_refl) as (p & -> & Hp). cbn [must]. rewrite bind_ret.
    eapply returns_bind; [by apply PidStatus.Parse_sized|]. intros [p' e] Hp'. eexists. split; [done|]. intros _. by exists p'. }
  eapply returns_bind; [exact Hs|]. intros [status err] Hst. cbn [fst] in Hst. destruct err; [by eexists|]. destruct need; [|by eexists].
  eapply returns_bind; [apply PidCmdline.Parse_returns; intros buf Hb; by eapply He|]. intros [c e] _. by eexists.
Qed.

(** What the verdict on a process is, with the data that it leaves: those of the
    current parse. *)
Definition verdict_ok (st : PidStat.PidStat) (v : verdict) : Prop :=
  (forall i, verdict_info v = Some i -> info_ok cfg procfsRoot i /\ scanNum i = scan) /\
  (forall i l n r a, v = Generated i l n r a -> i_pidStat i = st).

Lemma generated_same use fm0 p c i :
  let j := generated use fm0 p c i in
  pidTid j = pidTid i /\ pidTidPath j = pidTidPath i /\ pidTidLabels j = pidTidLabels i /\ cycleNum j = cycleNum i /\
  i_pidStat j = i_pidStat i /\ i_pidStatus j = i_pidStatus i.
Proof. by destruct p. Qed.

Lemma generated_flags p c i : flags_ok i -> flags_ok (generated (usePidStatus cfg) fm p c i).
Proof.
  intros [H1 H2]. destruct p as [p|]; [|done]. split; cbn; rewrite ?length_map; [by apply (fo_flt _ _ Hfm)|].
  pose proof (fo_ctx_len _ _ Hfm) as Hc. destruct (usePidStatus cfg); [|done]. rewrite length_map. by apply Hc.
Qed.

Lemma next_cycle_range c : (0 <= c < Z.max 1 (fullMetricsFactor cfg))%Z -> (0 <= next_cycle (fullMetricsFactor cfg) c < Z.max 1 (fullMetricsFactor cfg))%Z.
Proof. intros Hc. rewrite next_cycle_mod by done. apply Z.mod_pos_bound. lia. Qed.

Lemma scan_generate_total env isPid hasPrev reused full act i ps k :
  env_ok env -> parsers_ok cfg ps -> flags_ok i -> pidTid i = k ->
  pidTidPath i = ProcPaths.BuildPidTidPath procfsRoot (PidTidList.Pid k) (PidTidList.Tid k) -> pidTidLabels i = pid_labels k ->
  (0 <= cycleNum i < Z.max 1 (fullMetricsFactor cfg))%Z ->
  (PidStat.sized (i_pidStat i) /\ (usePidStatus cfg = true -> exists ps, i_pidStatus i = Some ps /\ PidStatus.sized ps)) ->
  (reused = true -> hasPrev = false) ->
  returns (scan_generate linuxClktckSec pageSize cfg fm scan env isPid hasPrev reused full act i ps) (fun r =>
    parsers_ok cfg r.2 /\ verdict_ok (p_pidStat ps) r.1 /\ (forall j, verdict_info r.1 = Some j -> key j = k) /\
    (r.1 = failure hasPrev reused \/ exists j l, r.1 = Generated j l (negb hasPrev) reused act)).
Proof.
  intros He Hps Hz Hk Hpath Hlab Hcy [Hs1 Hs2] Hre. unfold scan_generate.
  eapply returns_bind; [by apply parse_rest_total|]. intros [ps1 err] [[P1 P2] Hst]. cbn [fst] in *. destruct err.
  { eexists. split; [done|]. cbn [fst snd]. split; [done|]. split; [|split; [|by left]]; unfold failure; destruct hasPrev, reused; (split || idtac); done. }
  set (u := usePidStatus cfg) in *.
  rewrite generateMetrics_view, (gen_view_spec linuxClktckSec pageSize fm u Hfm); [|done|by apply sized_view|].
  2: { destruct hasPrev; [|done]. intros p [= <-]. by apply sized_view. }
  rewrite bind_ret. eexists. split; [done|]. cbn [fst snd].
  set (prev := if hasPrev then _ else _). set (c := view_of u (p_pidStat ps1) _).
  pose proof (generated_same u fm prev c (set_active act i)) as (G1 & G2 & G3 & G4 & G5 & G6).
  pose proof (generated_flags prev c (set_active act i)) as Gz. fold u in Gz. set (j := generated u fm prev c (set_active act i)) in *.
  assert (exists o : option PidStatus.PidStatus, (if u then p_pidStatus ps1 else i_pidStatus j) = o /\ (u = true -> exists q, o = Some q /\ PidStatus.sized q)) as (o & Ho & Hos).
  { eexists. split; [done|]. intros E. destruct (P2 E) as (q & Hq & Hqs). rewrite E. by exists q. }
  rewrite Ho. split; [|split; [|split; [|right; eauto]]].
  - split; cbn [p_pidStat p_pidStatus]; [by rewrite G5|]. intros E. fold u in E. rewrite E, G6. by apply Hs2.
  - split; [|by intros ? ? ? ? ? [= <- _ _ _ _]; cbn; rewrite Hst]. intros x [= <-]. split; [|done]. split; cbn.
    + apply sized_view; [done|exact Hos].
    + by apply Gz.
    + rewrite G1, G2. cbn. by rewrite Hk.
    + rewrite G1, G3. cbn. by rewrite Hk.
    + rewrite G4. by apply next_cycle_range.
    + split; [done|exact Hos].
  - intros x [= <-]. unfold key. cbn. by rewrite G1.
Qed.

(** The parts of a known or new process. *)
Lemma fits_failure k old (hasPrev reused : bool) :
  (hasPrev = true -> is_Some old) -> (hasPrev = false -> reused = bool_decide (is_Some old)) -> fits k old (failure hasPrev reused).
Proof.
  intros H1 H2. unfold failure. destruct hasPrev; [split; [done|]; by rewrite bool_decide_eq_true_2 by auto|].
  rewrite (H2 eq_refl). destruct old; split; cbn; done || by eexists.
Qed.

Lemma fits_generated k old j l (hasPrev reused act : bool) :
  key j = k -> (hasPrev = true -> is_Some old /\ reused = false) -> (hasPrev = false -> reused = bool_decide (is_Some old)) ->
  fits k old (Generated j l (negb hasPrev) reused act).
Proof. intros Hk H1 H2. split; [by intros i [= <-]|]. destruct hasPrev; cbn; auto. Qed.

(** For any content of the files the scan of a process returns; its verdict fits
    the cached data, and the data that it leaves are well formed and marked. *)
Lemma scan_one_total env k old ps icm :
  env_ok env -> parsers_ok cfg ps -> (0 <= icm)%Z -> (forall i, old = Some i -> info_ok cfg procfsRoot i /\ key i = k) ->
  returns (scan_one procfsRoot parse_other linuxClktckSec boottimeMsec pageSize cfg fm scan env k old ps icm) (fun r =>
    let '(v, ps', icm') := r in
    fits k old v /\ parsers_ok cfg ps' /\ (0 <= icm')%Z /\ forall i, verdict_info v = Some i -> info_ok cfg procfsRoot i /\ scanNum i = scan).
Proof.
  intros He Hps Hicm Hold. unfold scan_one.
  set (path := match old with Some i => pidTidPath i | None => _ end).
  assert (path = ProcPaths.BuildPidTidPath procfsRoot (PidTidList.Pid k) (PidTidList.Tid k)) as Hpath.
  { subst path. destruct old as [i|]; [|done]. destruct (Hold i eq_refl) as [[] <-]. done. }
  destruct (PidStat.pid_stat_parse_total (files env (ProcPaths.pidStatPath path)) (p_pidStat ps)) as (r & -> & Hr); [apply Hps|]. rewrite bind_ret.
  destruct r as [e|st]; [eexists; split; [done|]; split_and!; done|].
  assert (parsers_ok cfg (mkParsers st (p_pidStatus ps) (p_pidCmdline ps))) as Hps1 by (split; [done|apply Hps]).
  destruct Hr as [Hb Hn]. cbn [PidStat.GetData].
  assert (exists reused : bool, (match old with
      | None => Ret false
      | Some i => c ← must (PidStat.byteSliceFields st !! PID_STAT_STARTTIME); p ← must ((PidStat.GetData (i_pidStat i)).1 !! PID_STAT_STARTTIME);
                  Ret (negb (bool_decide (c = p)))
      end) = Ret reused /\ (reused = true -> is_Some old)) as (reused & -> & Hre).
  { destruct old as [i|]; [|by exists false]. rewrite (at_ok _ _ _ Hb), bind_ret by (vm_compute; lia).
    destruct (Hold i eq_refl) as [[_ _ _ _ _ [[Hib _] _]] _]. cbn [PidStat.GetData fst]. rewrite (at_ok _ _ _ Hib), bind_ret by (vm_compute; lia). by eexists. }
  rewrite bind_ret. destruct (if reused then None else old) as [i|] eqn:Eo.
  - assert (reused = false /\ old = Some i) as [-> ->] by (destruct reused; done). destruct (Hold i eq_refl) as [Hi Hk].
    destruct Hi as [Hv Hz Hp Hl Hc [[Hib Hin] Hist]]. unfold key in Hk. rewrite Hk in Hp, Hl. cbn [PidStat.GetData snd].
    rewrite (at_ok _ _ PID_STAT_UTIME Hn), (at_ok _ _ PID_STAT_UTIME Hin), (at_ok _ _ PID_STAT_STIME Hn), (at_ok _ _ PID_STAT_STIME Hin), !bind_ret by (vm_compute; lia).
    destruct (_ && _ && _).
    + eexists. split; [done|]. split_and!; [split; [by intros ? [= <-]|by eexists]|done|done|]. intros ? [= <-]. split; [|done].
      split; cbn; rewrite ?Hk; try done; by apply next_cycle_range.
    + eapply returns_bind; [by eapply (scan_generate_total env _ true false _ _ i _ k)|]. intros [v ps'] (H1 & [H2 _] & H3 & H4). cbn [fst snd] in *.
      eexists. split; [done|]. split_and!; [|done|done|done]. destruct H4 as [->|(j & l & ->)]; [by apply fits_failure|].
      apply fits_generated; [by apply H3|done|done].
  - assert (reused = bool_decide (is_Some old)) as Hr' by (destruct reused; [symmetry; apply bool_decide_eq_true_2; auto|by subst]).
    unfold initPidTidMetricsInfo. cbn [PidStat.GetData fst]. rewrite (at_ok _ _ _ Hb), bind_ret by (vm_compute; lia).
    destruct (InitialCycleNum_Get (fullMetricsFactor cfg) icm) as [cn icm'] eqn:Ec. apply InitialCycleNum_range in Ec as [Hcn Hic]; [|done]. rewrite bind_ret.
    eapply returns_bind; [apply (scan_generate_total env _ false reused _ _ _ _ k); try done; cbn|].
    + split; [done|]. intros ->. by eexists.
    + intros [v ps'] (H1 & [H2 _] & H3 & H4). cbn [fst snd] in *. eexists. split; [done|]. split_and!; [|done|done|done].
      destruct H4 as [->|(j & l & ->)]; [by apply fits_failure|]. apply (fits_generated k old j l false); [by apply H3|done|done].
Qed.

(** ** The loop, on sequences *)

(** The scan with the cache as the sequence [L] of its data: a process is taken
    out, and its new data are put at the end. *)
Fixpoint abs_loop (l : list (PidTidList.PidTid * Env)) (L : list Info) (ps : Parsers) (icm : Z)
    : outcome (list Info * Parsers * Z * list verdict) :=
  match l with
  | [] => Ret (L, ps, icm, [])
  | (k, env) :: l =>
    '(v, ps, icm) ← scan_one procfsRoot parse_other linuxClktckSec boottimeMsec pageSize cfg fm scan env k (cached k L) ps icm;
    '(L, ps, icm, vs) ← abs_loop l (settled k v L) ps icm;
    Ret (L, ps, icm, v :: vs)
  end.

Definition infos_ok (L : list Info) : Prop := Forall (info_ok cfg procfsRoot) L.

Lemma cached_ok k L i : infos_ok L -> cached k L = Some i -> info_ok cfg procfsRoot i /\ key i = k.
Proof.
  intros HL. unfold cached. intros Hc. assert (i ∈ filter (fun i => key i = k) L) as Hi.
  { destruct (filter _ L); [done|]. injection Hc as ->. by left. }
  apply list_elem_of_filter in Hi as [Hk Hi]. split; [|done]. by eapply Forall_forall in HL.
Qed.

Lemma must_Ret_inv {A} (o : option A) a : must o = Ret a -> o = Some a.
Proof. by destruct o; intros [= ->]. Qed.

Lemma cached_in k L i : cached k L = Some i -> i ∈ L.
Proof.
  unfold cached. intros Hc. assert (i ∈ filter (fun i => key i = k) L) as Hi by (destruct (filter _ L); [done|]; injection Hc as ->; by left).
  by apply list_elem_of_filter in Hi as [_ Hi].
Qed.

Lemma settled_ok k v L : infos_ok L -> (forall i, verdict_info v = Some i -> info_ok cfg procfsRoot i) -> infos_ok (settled k v L).
Proof.
  intros HL Hv. unfold settled. apply Forall_app. split.
  - apply Forall_forall. intros i Hi. apply list_elem_of_filter in Hi as [_ Hi]. by eapply Forall_forall in HL.
  - destruct (verdict_info v) as [i|]; cbn; [|constructor]. constructor; [by apply Hv|constructor].
Qed.

(** One iteration does to the cache what the sequence says. *)
Lemma scan_step_refines c xs L k env ps icm v ps' icm' :
  represents c xs L ->
  scan_one procfsRoot parse_other linuxClktckSec boottimeMsec pageSize cfg fm scan env k (cached k L) ps icm = Ret (v, ps', icm') ->
  fits k (cached k L) v -> v <> Stale ->
  exists c' xs', scan_step procfsRoot parse_other linuxClktckSec boottimeMsec pageSize cfg fm scan k env (c, ps, icm) = Ret (c', ps', icm', v) /\
    represents c' xs' (settled k v L).
Proof.
  intros Hrep Hone Hfit Hs. unfold scan_step. destruct (pidTidMetricsInfo c !! k) as [p|] eqn:Ek.
  - destruct (remove_rep_but c xs L k p Hrep Ek) as (c1 & xs1 & xs2 & L1 & i & L2 & n & -> & Hki & Hh & Hrm & Hrb & Hk1 & Hp1 & Hn & Hn1 & Hn2).
    destruct (cached_split k L1 L2 i Hki (rb_new _ _ _ _ Hrb)) as [Hc Ho]. unfold settled. rewrite Hc in Hone, Hfit. rewrite Ho.
    unfold holds in Hh. destruct (mem c !! p) as [n0|]; [|done]. injection Hh as Hh. cbn [must]. rewrite bind_ret, Hrm, !bind_ret. cbv beta iota.
    rewrite Hh, Hone, bind_ret. cbv beta iota.
    destruct (settle_known k c1 (xs1 ++ xs2) (L1 ++ L2) p n i v) as (c' & xs' & -> & Hr); try done. rewrite bind_ret. by exists c', xs'.
  - pose proof (represents_lookup _ _ _ k Hrep) as Hl. rewrite Ek in Hl. destruct (cached_none k L Hl) as [Hc Ho]. unfold settled. rewrite Hc in Hone, Hfit. rewrite Ho.
    rewrite bind_ret. cbv beta iota. rewrite Hone, bind_ret. cbv beta iota.
    destruct (settle_unknown k c xs L v (rep_but_none _ _ _ _ Hrep Ek) Ek Hfit) as (c' & xs' & -> & Hr). rewrite bind_ret. by exists c', xs'.
Qed.

(** The counts after the verdicts [vs] on the processes [ks]. *)
Definition accounts (target : Z) (ks : list PidTidList.PidTid) (vs : list verdict) (a : Acc) : Acc :=
  foldl (fun a '(k, v) => account target (PidTidList.Tid k =? PidTidList.PID_ONLY_TID)%Z v a) a (zip ks vs).

Definition kept (vs : list verdict) : list Info := omap verdict_info vs.
Definition unlisted (ks : list PidTidList.PidTid) (L : list Info) : list Info := filter (fun i => key i ∉ ks) L.

Lemma unlisted_settled k ks v L : (k ∉ ks) -> (forall i, verdict_info v = Some i -> key i = k) ->
  unlisted ks (settled k v L) = unlisted (k :: ks) L ++ option_list (verdict_info v).
Proof.
  intros Hk Hv. unfold unlisted, settled, others. rewrite filter_app, list_filter_filter. f_equal.
  - apply list_filter_iff. intros i. set_solver.
  - destruct (verdict_info v) as [i|]; [|done]. apply filter_all. constructor; [by rewrite (Hv i eq_refl)|constructor].
Qed.

(** The balance of a verdict: data before and new processes, data after and
    deletions. *)
Definition count_new (v : verdict) : Z := match v with Generated _ _ true _ _ => 1 | _ => 0 end.

Lemma cached_others k L : NoDup (key <$> L) -> length L = length (others k L) + (if bool_decide (is_Some (cached k L)) then 1 else 0).
Proof.
  intros Hnd. destruct (decide (k ∈ key <$> L)) as [Hin|Hni].
  - apply list_elem_of_fmap in Hin as (i & -> & Hi). apply list_elem_of_split in Hi as (L1 & L2 & ->).
    rewrite fmap_app, fmap_cons, <- Permutation_middle in Hnd. apply NoDup_cons in Hnd as [Hni _]. rewrite <- fmap_app in Hni.
    destruct (cached_split (key i) L1 L2 i eq_refl Hni) as [-> ->]. rewrite bool_decide_eq_true_2 by (by eexists). rewrite !length_app. simpl. lia.
  - destruct (cached_none k L Hni) as [-> ->]. cbn. lia.
Qed.

Lemma settled_count k v L : NoDup (key <$> L) -> fits k (cached k L) v -> v <> Stale ->
  (Z.of_nat (length L) + count_new v = Z.of_nat (length (settled k v L)) + count_del v)%Z.
Proof.
  intros Hnd [_ Hf] Hs. rewrite (cached_others k L Hnd). unfold settled. rewrite length_app.
  destruct v as [del| |i|i l [|] reused act]; unfold option_list; cbn [verdict_info option_rect length count_new count_del] in *.
  - subst del. destruct (bool_decide _); cbn; lia.
  - done.
  - rewrite bool_decide_eq_true_2 by done. lia.
  - subst reused. destruct (bool_decide _); cbn; lia.
  - destruct Hf as [Hf ->]. rewrite bool_decide_eq_true_2 by done. lia.
Qed.

Lemma settled_keys k v L : NoDup (key <$> L) -> (forall i, verdict_info v = Some i -> key i = k) -> NoDup (key <$> settled k v L).
Proof.
  intros Hnd Hv. unfold settled. rewrite fmap_app. apply NoDup_app. split; [|split].
  - unfold others. clear Hv. induction L as [|i L IH]; [done|]. cbn [fmap list_fmap] in Hnd. apply NoDup_cons in Hnd as [Hi Hnd]. rewrite filter_cons.
    case_decide; [|by apply IH]. cbn [fmap list_fmap]. apply NoDup_cons. split; [|by apply IH].
    intros (j & Hij & Hj)%list_elem_of_fmap. apply list_elem_of_filter in Hj as [_ Hj]. apply Hi. rewrite Hij. by apply list_elem_of_fmap_2.
  - intros x (j & -> & Hj)%list_elem_of_fmap. apply list_elem_of_filter in Hj as [Hj _]. destruct (verdict_info v) as [i|]; [|apply not_elem_of_nil].
    intros Hx%list_elem_of_singleton. apply Hj. rewrite <- (Hv i eq_refl). exact Hx.
  - destruct (verdict_info v); cbn; [apply NoDup_singleton|constructor].
Qed.

(** The identifier of [x] belonged to another process in [L]: the statistics of
    the process give another start time than the cached ones. *)
Definition reused_by (L : list Info) (x : PidTidList.PidTid * Env) : Prop :=
  exists i s st t, i ∈ L /\ key i = x.1 /\
    PidStat.Parse (files x.2 (ProcPaths.pidStatPath (ProcPaths.BuildPidTidPath procfsRoot (PidTidList.Pid x.1) (PidTidList.Tid x.1)))) s = Ret (inr st) /\
    (PidStat.GetData st).1 !! PID_STAT_STARTTIME = Some t /\ (PidStat.GetData (i_pidStat i)).1 !! PID_STAT_STARTTIME <> Some t.

Lemma scan_generate_stale env isPid hasPrev reused full act i ps ps' :
  scan_generate linuxClktckSec pageSize cfg fm scan env isPid hasPrev reused full act i ps = Ret (Stale, ps') -> hasPrev = false /\ reused = true.
Proof.
  unfold scan_generate. intros ([ps1 err] & _ & H)%bind_Ret_inv. destruct err.
  - unfold failure in H. destruct hasPrev, reused; done.
  - by apply bind_Ret_inv in H as ([j l] & _ & H).
Qed.

(** Only an identifier that was reused can be left with a stale object. *)
Lemma scan_one_stale L env k ps icm ps' icm' : infos_ok L ->
  scan_one procfsRoot parse_other linuxClktckSec boottimeMsec pageSize cfg fm scan env k (cached k L) ps icm = Ret (Stale, ps', icm') ->
  reused_by L (k, env).
Proof.
  intros HL. unfold scan_one. destruct (cached k L) as [i|] eqn:Ec.
  2:{ intros (r & _ & H)%bind_Ret_inv. destruct r as [e|st]; [done|]. destruct (PidStat.GetData st) as [b n]. rewrite bind_ret in H.
      apply bind_Ret_inv in H as ([j icm1] & _ & H). apply bind_Ret_inv in H as ([v ps1] & H & [= -> _ _]). by apply scan_generate_stale in H as []. }
  destruct (cached_ok k L i HL Ec) as [Hi Hk]. pose proof (io_path _ _ _ Hi) as Hp. unfold key in Hk. rewrite Hk in Hp. rewrite Hp.
  intros (r & Hr & H)%bind_Ret_inv. destruct r as [e|st]; [done|]. destruct (PidStat.GetData st) as [b n] eqn:Eg.
  apply bind_Ret_inv in H as (reused & Hre & H). apply bind_Ret_inv in Hre as (c & Hc & Hre). apply bind_Ret_inv in Hre as (q & Hq & [= Hre]).
  destruct reused.
  - exists i, (p_pidStat ps), st, c. cbn [fst snd]. rewrite Eg. split; [by eapply cached_in|]. split; [done|]. split; [done|]. split.
    + by apply must_Ret_inv in Hc.
    + apply must_Ret_inv in Hq. rewrite Hq. apply negb_true_iff, bool_decide_eq_false in Hre. congruence.
  - exfalso. repeat (apply bind_Ret_inv in H as (? & _ & H)). destruct (_ && _ && _); [done|].
    apply bind_Ret_inv in H as ([v ps1] & H & [= -> _ _]). by apply scan_generate_stale in H as [].
Qed.

Lemma cached_settled k k' v L : k <> k' -> (forall i, verdict_info v = Some i -> key i = k') -> cached k (settled k' v L) = cached k L.
Proof.
  intros Hk Hv. unfold cached, settled, others. rewrite filter_app, list_filter_filter.
  assert (filter (fun i => key i = k) (option_list (verdict_info v)) = []) as ->.
  { apply filter_none. destruct (verdict_info v) as [i|]; [|constructor]. constructor; [rewrite (Hv i eq_refl); congruence|constructor]. }
  rewrite app_nil_r. f_equal. apply list_filter_iff. intros i. split; [tauto|]. intros <-. done.
Qed.

Lemma reused_settled L k' v x : x.1 <> k' -> (forall i, verdict_info v = Some i -> key i = k') -> reused_by (settled k' v L) x -> reused_by L x.
Proof.
  intros Hx Hv (i & s & st & t & Hi & Hk & Hr). exists i, s, st, t. split; [|done]. unfold settled, others in Hi.
  apply elem_of_app in Hi as [Hi|Hi]; [by apply list_elem_of_filter in Hi as [_ Hi]|]. exfalso. destruct (verdict_info v) as [j|] eqn:E; [|by apply elem_of_nil in Hi].
  apply list_elem_of_singleton in Hi as ->. apply Hx. rewrite <- Hk. by apply Hv.
Qed.

Lemma loop_stale l : forall L ps icm L' ps' icm' vs,
  NoDup l.*1 -> Forall (fun x => env_ok x.2) l -> parsers_ok cfg ps -> (0 <= icm)%Z -> infos_ok L ->
  abs_loop l L ps icm = Ret (L', ps', icm', vs) -> Stale ∈ vs -> Exists (reused_by L) l.
Proof.
  induction l as [|[k env] l IH]; intros L ps icm L' ps' icm' vs Hnd He Hps Hicm HL; cbn [abs_loop].
  { intros [= <- <- <- <-] H. by apply elem_of_nil in H. }
  apply Forall_cons in He as [He Hes]. cbn [fmap list_fmap fst snd] in *. apply NoDup_cons in Hnd as [Hk Hnd].
  destruct (scan_one_total env k (cached k L) ps icm He Hps Hicm) as ([[v ps1] icm1] & Hone & Hfit & Hps1 & Hicm1 & Hv); [intros i Hi; by eapply cached_ok|].
  rewrite Hone, bind_ret. cbv beta iota. intros ([[[L1 ps2] icm2] vs1] & Ha & [= <- <- <- <-])%bind_Ret_inv [Hs|Hs]%elem_of_cons.
  - left. subst v. by eapply scan_one_stale.
  - right. assert (infos_ok (settled k v L)) as HL1 by (apply settled_ok; [done|]; intros i Hi; by apply Hv).
    specialize (IH _ _ _ _ _ _ _ Hnd Hes Hps1 Hicm1 HL1 Ha Hs). apply Exists_exists in IH as (x & Hx & Hr). apply Exists_exists. exists x. split; [done|].
    apply (reused_settled L k v); [|apply Hfit|done]. intros <-. apply Hk. by apply list_elem_of_fmap_2.
Qed.

(** The whole loop: it returns; the processes that are not listed stay in front, in
    their order, and those scanned follow; and it does the same on the cache,
    unless an identifier went to a process that cannot be parsed. *)
Lemma loop_refines target l : forall L ps icm,
  NoDup l.*1 -> Forall (fun x => env_ok x.2) l -> parsers_ok cfg ps -> (0 <= icm)%Z -> infos_ok L ->
  exists L' ps' icm' vs, abs_loop l L ps icm = Ret (L', ps', icm', vs) /\ infos_ok L' /\ parsers_ok cfg ps' /\ (0 <= icm')%Z /\ length vs = length l /\
    L' = unlisted l.*1 L ++ kept vs /\ Forall (fun i => scanNum i = scan) (kept vs) /\
    ((Stale ∉ vs) -> NoDup (key <$> L) -> (Z.of_nat (length L) + sumZ (map count_new vs) = Z.of_nat (length L') + sumZ (map count_del vs))%Z) /\
    ((Stale ∉ vs) -> forall c xs a, represents c xs L -> exists c' xs',
      scan_loop procfsRoot parse_other linuxClktckSec boottimeMsec pageSize cfg fm scan target l (c, ps, icm) a =
      Ret (c', ps', icm', accounts target l.*1 vs a) /\ represents c' xs' L').
Proof.
  induction l as [|[k env] l IH]; intros L ps icm Hnd He Hps Hicm HL.
  { exists L, ps, icm, []. split_and!; try done; [unfold unlisted; rewrite filter_all; [by rewrite app_nil_r|apply Forall_forall; intros i _; apply not_elem_of_nil]|].
    intros _ c xs a Hr. by exists c, xs. }
  apply Forall_cons in He as [He Hes]. cbn [fmap list_fmap fst snd] in *. apply NoDup_cons in Hnd as [Hk Hnd].
  destruct (scan_one_total env k (cached k L) ps icm He Hps Hicm) as ([[v ps1] icm1] & Hone & Hfit & Hps1 & Hicm1 & Hv).
  { intros i Hi. by eapply cached_ok. }
  destruct (IH (settled k v L) ps1 icm1 Hnd Hes Hps1 Hicm1) as (L' & ps' & icm' & vs & Ha & H1 & H2 & H3 & H4 & H5 & H6 & HC & H7).
  { apply settled_ok; [done|]. intros i Hi. by apply Hv. }
  exists L', ps', icm', (v :: vs). cbn [abs_loop]. rewrite Hone, bind_ret, Ha. split_and!; try done; [by cbn; rewrite H4| | | |].
  - rewrite H5, unlisted_settled by (done || apply Hfit). rewrite <- app_assoc. f_equal. unfold kept. cbn. by destruct (verdict_info v).
  - unfold kept. cbn. destruct (verdict_info v) as [i|]; [|done]. constructor; [by apply Hv|done].
  - intros [Hst Hsts]%not_elem_of_cons Hkeys. cbn [map]. change (sumZ (?x :: ?y)) with (x + sumZ y)%Z.
    pose proof (settled_count k v L Hkeys Hfit ltac:(congruence)). specialize (HC Hsts (settled_keys k v L Hkeys (proj1 Hfit))). lia.
  - intros [Hst Hsts]%not_elem_of_cons c xs a Hr.
    destruct (scan_step_refines c xs L k env ps icm v ps1 icm1 Hr Hone Hfit) as (c1 & xs1 & Hstep & Hr1); [congruence|].
    destruct (H7 Hsts c1 xs1 (account target (PidTidList.Tid k =? PidTidList.PID_ONLY_TID)%Z v a) Hr1) as (c' & xs' & Hl & Hr').
    exists c', xs'. cbn [scan_loop]. rewrite Hstep, bind_ret. cbv beta iota. split; [exact Hl|done].
Qed.
End one.

(** ** The removal of what was not found *)

Lemma remove_first (scan : Z) c p xs g L del :
  represents c (p :: xs) (g :: L) -> scanNum g <> scan -> xs <> [] ->
  exists c', remove_body scan (Some p, c, del) = Ret (inl (infoHead c', c', (del + 1)%Z)) /\ represents c' xs L.
Proof.
  intros [(Hnd & Hl & Hh & Ht) Hd Hks Hm] Hs Hxs. apply NoDup_cons in Hnd as [Hp Hnd]. apply Forall2_cons in Hd as [Hg Hd].
  destruct Hl as [(n & Hn & Hpr & Hnx) Hl]. unfold holds in Hg. rewrite Hn in Hg. injection Hg as Hg.
  unfold remove_body. rewrite Hn. cbn [must]. rewrite bind_ret, Hg, (proj2 (Z.eqb_neq _ _)) by done. rewrite Hnx.
  destruct xs as [|q xs]; [done|]. destruct Hl as [(qn & Hqn & Hqp & Hqx) Hl]. rewrite (update_node_Ret q _ _ qn Hqn), bind_ret.
  exists (mkCache (delete (pidTid g) (pidTidMetricsInfo c)) (Some q) (infoTail c) (<[q := set_prev None qn]> (mem c))). split; [reflexivity|]. apply NoDup_cons in Hnd as [Hq Hnd]. rewrite fmap_cons in Hks, Hm. apply NoDup_cons in Hks as [Hk Hks].
  split; [split_and!| |done|].
  - by apply NoDup_cons.
  - cbn [mem]. eapply (links_set_prev _ (Some p)); [done|exact Hqn|done|done|]. split; [by exists qn|done].
  - done.
  - cbn [infoTail]. by rewrite Ht, !last_or_cons.
  - apply (same_holds_all c); [|done]. cbn [mem]. by apply (info_insert _ _ qn).
  - cbn [pidTidMetricsInfo]. rewrite Hm. cbn [zip_with list_to_map foldr]. apply delete_insert_id.
    apply not_elem_of_list_to_map_1. rewrite fst_zip_keys; [done|]. by apply holds_length in Hd.
Qed.

Lemma remove_outdated_spec (scan : Z) c xs G K del :
  represents c xs (G ++ K) -> Forall (fun i => scanNum i <> scan) G -> Forall (fun i => scanNum i = scan) K ->
  if bool_decide (K = []) && negb (bool_decide (G = [])) then remove_outdated scan c del = Panic
  else exists c' xs', remove_outdated scan c del = Ret (c', (del + Z.of_nat (length G))%Z) /\ represents c' xs' K.
Proof.
  intros Hrep HG HK. unfold remove_outdated.
  assert (length G < S (size (mem c))) as Hf.
  { destruct Hrep as [(Hnd & Hl & _) Hd _ _]. apply Forall2_length in Hd. rewrite length_app in Hd.
    assert (list_to_set xs ⊆ dom (mem c)) as Hsub.
    { intros p Hp%elem_of_list_to_set. apply elem_of_dom. by eapply links_lookup. }
    apply subseteq_size in Hsub. rewrite size_list_to_set, size_dom in Hsub by done. lia. }
  revert Hf. generalize (S (size (mem c))) as fuel. intros fuel. revert fuel c xs del Hrep. induction HG as [|g G Hg HG IH]; intros fuel c xs del Hrep Hf.
  - rewrite (bool_decide_eq_true_2 ([] = [])) by done. cbn [negb]. rewrite andb_false_r. destruct fuel as [|fuel]; [simpl in Hf; lia|]. exists c, xs. split; [|done].
    erewrite while_inr; [by rewrite Z.add_0_r|]. destruct Hrep as [(_ & Hl & Hh & _) Hd _ _]. rewrite Hh. destruct HK as [|i K Hi HK].
    + by apply Forall2_nil_inv_r in Hd as ->.
    + apply Forall2_cons_inv_r in Hd as (p & xs' & Hp & Hd & ->). cbn [first_or]. unfold remove_body. unfold holds in Hp.
      destruct (mem c !! p) as [n|]; [|done]. injection Hp as Hp. cbn [must]. by rewrite bind_ret, Hp, (proj2 (Z.eqb_eq _ _)).
  - rewrite (bool_decide_eq_false_2 (g :: G = [])) by done. cbn [negb]. rewrite andb_true_r. destruct fuel as [|fuel]; [lia|]. cbn [app] in Hrep.
    pose proof (rp_data _ _ _ Hrep) as Hd. apply Forall2_cons_inv_r in Hd as (p & xs' & Hp & Hd & ->).
    destruct (rp_list _ _ _ Hrep) as (_ & [(n & Hn & _ & Hnx) _] & Hh & _). rewrite Hh. cbn [first_or].
    destruct (decide (G ++ K = [])) as [[-> ->]%app_nil|Hne].
    + rewrite bool_decide_eq_true_2 by done. apply Forall2_nil_inv_r in Hd as ->. cbn [while]. unfold remove_body. rewrite Hn. cbn [must]. rewrite bind_ret.
      unfold holds in Hp. rewrite Hn in Hp. injection Hp as ->. rewrite (proj2 (Z.eqb_neq _ _)) by done. by rewrite Hnx.
    + assert (xs' <> []) as Hxs by (intros ->; by apply Forall2_nil_inv_l in Hd).
      destruct (remove_first scan c p xs' g (G ++ K) del Hrep Hg Hxs) as (c1 & Hb & Hrep1). rewrite (while_inl _ _ _ _ Hb).
      specialize (IH fuel c1 xs' (del + 1)%Z Hrep1 ltac:(simpl in Hf; lia)). destruct (bool_decide (K = [])) eqn:EK; cbn [andb] in *.
      * apply bool_decide_eq_true in EK as ->. rewrite app_nil_r in Hne. rewrite bool_decide_eq_false_2 in IH by done. exact IH.
      * destruct IH as (c' & xs2 & Hr & Hrep2). exists c', xs2. split; [|done]. rewrite Hr. do 2 f_equal. cbn [length]. lia.
Qed.

(** ** The counts and the buffers *)

(** The lines so far, in their order. *)
Definition written (a : Acc) : list bytes := concat (a_queued a) ++ default [] (a_buf a).

(** No buffer is queued before it is over the target size, and none is filled
    after that. *)
Definition buffers_ok (target : Z) (a : Acc) : Prop :=
  Forall (fun b => target < buf_len b)%Z (a_queued a) /\ (forall b, a_buf a = Some b -> buf_len b <= target)%Z /\
  byteCount a = sumZ (map buf_len (a_queued a)).

Lemma sumZ_app l1 l2 : sumZ (l1 ++ l2) = (sumZ l1 + sumZ l2)%Z.
Proof. induction l1 as [|x l1 IH]; [done|]. cbn [app]. change (sumZ (?x :: ?y)) with (x + sumZ y)%Z. lia. Qed.

Lemma account_spec target isPid v a :
  let a' := account target isPid v a in
  written a' = written a ++ verdict_lines v /\
  actualMetricsCount a' = (actualMetricsCount a + Z.of_nat (length (verdict_lines v)))%Z /\
  pidTidCount a' = (pidTidCount a + Z.of_nat (length (option_list (verdict_info v))))%Z /\
  addPidCount a' = (addPidCount a + count_new v)%Z /\ delPidCount a' = (delPidCount a + count_del v)%Z /\
  (buffers_ok target a -> buffers_ok target a').
Proof.
  unfold written. destruct v as [del| |i|i l n r act]; cbn [account verdict_lines verdict_info count_new option_list option_rect length]; rewrite ?app_nil_r;
    cbn [a_queued a_buf actualMetricsCount pidTidCount addPidCount delPidCount]; try (split_and!; (done || lia)).
  set (buf := default [] (a_buf a) ++ l). split_and!; try (done || lia); [|].
  - destruct (target <? buf_len buf)%Z; cbn [default from_option]; [|by rewrite <- app_assoc].
    rewrite concat_app. cbn [concat]. by rewrite !app_nil_r, <- app_assoc.
  - intros (H1 & H2 & H3). unfold buffers_ok. cbn [a_queued a_buf byteCount]. destruct (target <? buf_len buf)%Z eqn:E; split_and!; try done.
    + apply Forall_app. split; [done|]. constructor; [lia|constructor].
    + rewrite map_app, sumZ_app. cbn. lia.
    + intros b [= <-]. lia.
    + lia.
Qed.

Lemma accounts_spec target ks : forall vs a, length vs = length ks ->
  let a' := accounts target ks vs a in
  written a' = written a ++ concat (map verdict_lines vs) /\
  actualMetricsCount a' = (actualMetricsCount a + Z.of_nat (length (concat (map verdict_lines vs))))%Z /\
  pidTidCount a' = (pidTidCount a + Z.of_nat (length (kept vs)))%Z /\
  addPidCount a' = (addPidCount a + sumZ (map count_new vs))%Z /\ delPidCount a' = (delPidCount a + sumZ (map count_del vs))%Z /\
  (buffers_ok target a -> buffers_ok target a').
Proof.
  induction ks as [|k ks IH]; intros [|v vs] a Hl; try done.
  { cbn. rewrite app_nil_r. split_and!; (done || lia). }
  change (accounts target (k :: ks) (v :: vs) a) with (accounts target ks vs (account target (PidTidList.Tid k =? PidTidList.PID_ONLY_TID)%Z v a)).
  destruct (account_spec target (PidTidList.Tid k =? PidTidList.PID_ONLY_TID)%Z v a) as (A1 & A2 & A3 & A4 & A5 & A6).
  destruct (IH vs (account target (PidTidList.Tid k =? PidTidList.PID_ONLY_TID)%Z v a) ltac:(simpl in Hl; lia)) as (B1 & B2 & B3 & B4 & B5 & B6).
  cbn [map concat]. change (sumZ (?x :: ?y)) with (x + sumZ y)%Z. rewrite length_app.
  assert (length (kept (v :: vs)) = length (option_list (verdict_info v)) + length (kept vs)) as -> by (unfold kept; cbn; by destruct (verdict_info v)).
  split_and!; [by rewrite B1, A1, <- app_assoc|rewrite B2, A2; lia|rewrite B3, A3; lia|rewrite B4, A4; lia|rewrite B5, A5; lia|auto].
Qed.

(** ** Executions *)

Section execute.
Context (instance hostname procfsRoot : bytes).
Context (parse_other : bytes -> option spec_float) (linuxClktckSec : spec_float) (boottimeMsec pageSize : Z).
Context (cfg : Config).
Hypothesis Hfactor : (fullMetricsFactor cfg <= MaxInt64)%Z.

Definition the_fmts : MetricFmts := initMetricsCache instance hostname (usePidStatus cfg) (pidStatusMemKeepIndex cfg).

(** A generator whose cache has the data [L]. *)
Record pm_ok (pm : ProcPidMetrics) (L : list Info) : Prop := mkPmOk {
  po_fmts : forall fm, m_fmts pm = Some fm -> fm = the_fmts /\ parsers_ok cfg (m_parsers pm);
  po_cache : exists xs, represents (m_cache pm) xs L;
  po_infos : infos_ok procfsRoot cfg L;
  po_scan : Forall (fun i => scanNum i = m_scanNum pm) L /\ (MinInt64 <= m_scanNum pm <= MaxInt64)%Z
}.

(** The parsers that a scan starts with. *)
Definition start_parsers (pm : ProcPidMetrics) : Parsers :=
  match m_fmts pm with Some _ => m_parsers pm | None => (initialize instance hostname cfg).2 end.

Lemma start_ok pm L : pm_ok pm L -> parsers_ok cfg (start_parsers pm).
Proof.
  intros [Hf _ _ _]. unfold start_parsers. destruct (m_fmts pm) as [fm|]; [by apply (Hf fm)|]. split; [done|]. cbn. intros ->. by eexists.
Qed.

Lemma next_scan_ok n : (MinInt64 <= n <= MaxInt64)%Z -> next_scan n <> n /\ next_scan n <> 0%Z /\ (MinInt64 <= next_scan n <= MaxInt64)%Z.
Proof.
  intros Hn. unfold next_scan. pose proof (i64_succ_ne n Hn) as Hne. pose proof (i64_range (n + 1)) as Hr. destruct (Z.eqb_spec (i64 (n + 1)) 0) as [E|E].
  - split_and!; try (unfold MinInt64, MaxInt64; lia). intros <-. by vm_compute in E.
  - split_and!; lia.
Qed.

Definition pairs (l : list PidTidList.PidTid) (env : nat -> Env) : list (PidTidList.PidTid * Env) := imap (fun i k => (k, env i)) l.

Lemma pairs_fst l env : (pairs l env).*1 = l.
Proof. unfold pairs. revert env. induction l as [|k l IH]; intros env; [done|]. cbn. f_equal. apply (IH (env ∘ S)). Qed.

Lemma pairs_ok l env : (forall i, env_ok (env i)) -> Forall (fun x => env_ok x.2) (pairs l env).
Proof. intros He. apply Forall_lookup. intros j x Hx. unfold pairs in Hx. rewrite list_lookup_imap in Hx. apply fmap_Some in Hx as (k & _ & ->). apply He. Qed.

(** The loop of an execution. *)
Lemma execute_loop target pm L l env icm :
  pm_ok pm L -> NoDup l -> (forall i, env_ok (env i)) -> (0 <= icm)%Z ->
  let scan := next_scan (m_scanNum pm) in
  exists ps' icm' vs,
    abs_loop procfsRoot parse_other linuxClktckSec boottimeMsec pageSize cfg the_fmts scan (pairs l env) L (start_parsers pm) icm =
      Ret (unlisted l L ++ kept vs, ps', icm', vs) /\ parsers_ok cfg ps' /\ (0 <= icm')%Z /\ length vs = length l /\
    infos_ok procfsRoot cfg (kept vs) /\ Forall (fun i => scanNum i = scan) (kept vs) /\ Forall (fun i => scanNum i <> scan) (unlisted l L) /\
    ((Stale ∈ vs) -> Exists (reused_by procfsRoot L) (pairs l env)) /\
    ((Stale ∉ vs) -> (Z.of_nat (length L) + sumZ (map count_new vs) = Z.of_nat (length (unlisted l L)) + Z.of_nat (length (kept vs)) + sumZ (map count_del vs))%Z) /\
    ((Stale ∉ vs) -> exists c' xs',
      scan_loop procfsRoot parse_other linuxClktckSec boottimeMsec pageSize cfg the_fmts scan target (pairs l env) (m_cache pm, start_parsers pm, icm) acc0 =
      Ret (c', ps', icm', accounts target l vs acc0) /\ represents c' xs' (unlisted l L ++ kept vs)).
Proof.
  intros Hpm Hnd He Hicm scan. pose proof (start_ok pm L Hpm) as Hps. destruct Hpm as [Hf (xs & Hrep) Hi [Hs Hsn]].
  destruct (loop_refines procfsRoot parse_other linuxClktckSec boottimeMsec pageSize cfg the_fmts scan (init_fmts_ok _ _ _ _) Hfactor target (pairs l env) L (start_parsers pm) icm)
    as (L' & ps' & icm' & vs & Ha & H1 & H2 & H3 & H4 & H5 & H6 & H7 & H8); try done; [by rewrite pairs_fst|by apply pairs_ok|].
  rewrite pairs_fst in H5, H8. subst L'. exists ps', icm', vs. unfold pairs in H4. rewrite length_imap in H4. apply Forall_app in H1 as [_ H1].
  split_and!; try done.
  - apply Forall_forall. intros i Hin. apply list_elem_of_filter in Hin as [_ Hin]. eapply Forall_forall in Hs; [|exact Hin]. rewrite Hs.
    intros E. by apply (proj1 (next_scan_ok _ Hsn)).
  - intros Hst. eapply loop_stale with (l := pairs l env) (ps := start_parsers pm) (icm := icm) (vs := vs); [..|exact Ha|exact Hst]; try done; [apply init_fmts_ok|by rewrite pairs_fst|by apply pairs_ok].
  - intros Hst. rewrite (H7 Hst (rp_keys _ _ _ Hrep)), length_app. lia.
  - intros Hst. destruct (H8 Hst (m_cache pm) xs acc0 Hrep) as (c' & xs' & Hl & Hr). by exists c', xs'.
Qed.

(** The lines about the scan, after the verdicts [vs] on the processes [l]. *)
Definition scan_report (target : Z) (pm : ProcPidMetrics) (L : list Info) (l : list PidTidList.PidTid) (vs : list verdict) (endTs : Time) : list bytes :=
  let a := accounts target l vs acc0 in
  specific_lines instance hostname cfg (Itoa (UnixMilli endTs)) (Z.of_nat (length l)) a (delPidCount a + Z.of_nat (length (unlisted l L)))
    (match m_fmts pm with Some _ => Some (Seconds (Sub endTs (m_prevTs pm))) | None => None end).

Abbreviation execute := (Execute instance hostname procfsRoot parse_other linuxClktckSec boottimeMsec pageSize cfg).
Abbreviation scan_seq scan := (abs_loop procfsRoot parse_other linuxClktckSec boottimeMsec pageSize cfg the_fmts scan).

Lemma execute_spec target pm L l env endTs icm mgs :
  pm_ok pm L -> gen_wf mgs -> NoDup l -> (forall i, env_ok (env i)) -> (0 <= icm)%Z ->
  exists ps' icm' vs,
    scan_seq (next_scan (m_scanNum pm)) (pairs l env) L (start_parsers pm) icm = Ret (unlisted l L ++ kept vs, ps', icm', vs) /\ length vs = length l /\
    ((Stale ∈ vs) -> Exists (reused_by procfsRoot L) (pairs l env)) /\
    ((Stale ∉ vs) ->
      (Z.of_nat (length L) + sumZ (map count_new vs) = Z.of_nat (length (unlisted l L)) + Z.of_nat (length (kept vs)) + sumZ (map count_del vs))%Z /\
      if bool_decide (kept vs = []) && negb (bool_decide (unlisted l L = [])) then execute (Some l) env endTs target pm icm mgs = Panic
      else exists pm' mgs', let a := accounts target l vs acc0 in
        execute (Some l) env endTs target pm icm mgs =
          Ret (pm', icm', mgs', a_queued a ++ [default [] (a_buf a) ++ scan_report target pm L l vs endTs], true) /\ pm_ok pm' (kept vs)).
Proof.
  intros Hpm Hw Hnd He Hicm. destruct (execute_loop target pm L l env icm Hpm Hnd He Hicm) as (ps' & icm' & vs & Ha & H1 & H2 & H3 & H4 & H5 & H6 & Hre & H7 & H8).
  exists ps', icm', vs. split_and!; try done. intros Hst. split; [by apply H7|]. destruct (H8 Hst) as (c' & xs' & Hl & Hr).
  pose proof (remove_outdated_spec _ c' xs' _ _ (delPidCount (accounts target l vs acc0)) Hr H6 H5) as Hrm.
  assert (match m_fmts pm with Some fm => (fm, m_parsers pm) | None => initialize instance hostname cfg end = (the_fmts, start_parsers pm)) as Hstart.
  { unfold start_parsers. destruct (m_fmts pm) as [fm|] eqn:E; [|done]. by destruct (po_fmts _ _ Hpm fm E) as [-> _]. }
  assert ((if bool_decide (is_Some (m_fmts pm)) then Some (Seconds (Sub endTs (m_prevTs pm))) else None) =
    match m_fmts pm with Some _ => Some (Seconds (Sub endTs (m_prevTs pm))) | None => None end) as Hint by by destruct (m_fmts pm).
  unfold Execute. rewrite Hstart. fold (pairs l env). rewrite Hl, bind_ret. cbv beta iota.
  destruct (bool_decide (kept vs = []) && negb (bool_decide (unlisted l L = []))).
  - by rewrite Hrm.
  - destruct Hrm as (c2 & xs2 & -> & Hr2). rewrite bind_ret. cbv beta iota. rewrite Update_spec, bind_ret by done. eexists _, _. split.
    + unfold scan_report. by rewrite Hint.
    + destruct (next_scan_ok _ (proj2 (po_scan _ _ Hpm))) as (_ & _ & Hs). split; cbn; [by intros fm [= <-]|by exists xs2|done|done].
Qed.

(** C23: the cache refines a sequence.  For any list of distinct processes and any
    contents of their files, the scan of the cache (a map and a list linked by
    pointers) does what a scan of the sequence of its data does: every process
    listed is taken out and, when it can be parsed, put at the end with its new
    data; afterwards the cache has exactly the processes that were parsed, in the
    order of the scan, unless none was and some process is gone, when the
    execution panics.  This holds of every scan that does not come upon an
    identifier which now belongs to another process whose status or command line
    cannot be read ([Stale]), and only a process with another start time than the
    cached one can be of that kind. *)
Theorem pid_scan_refines target pm L l env endTs icm mgs :
  pm_ok pm L -> gen_wf mgs -> NoDup l -> (forall i, env_ok (env i)) -> (0 <= icm)%Z ->
  exists ps' icm' vs,
    scan_seq (next_scan (m_scanNum pm)) (pairs l env) L (start_parsers pm) icm = Ret (unlisted l L ++ kept vs, ps', icm', vs) /\
    ((Stale ∈ vs) -> Exists (reused_by procfsRoot L) (pairs l env)) /\
    ((Stale ∉ vs) ->
      if bool_decide (kept vs = []) && negb (bool_decide (unlisted l L = [])) then execute (Some l) env endTs target pm icm mgs = Panic
      else exists pm' mgs' out, execute (Some l) env endTs target pm icm mgs = Ret (pm', icm', mgs', out, true) /\ pm_ok pm' (kept vs)).
Proof.
  intros Hpm Hw Hnd He Hicm. destruct (execute_spec target pm L l env endTs icm mgs Hpm Hw Hnd He Hicm) as (ps' & icm' & vs & Ha & _ & Hre & H).
  exists ps', icm', vs. split; [done|]. split; [done|]. intros Hst. destruct (H Hst) as [_ H2]. destruct (_ && _); [done|].
  destruct H2 as (pm' & mgs' & H3 & H4). by eexists _, _, _.
Qed.

(** C25: what a scan reports.  When a scan does not come upon a reused identifier
    whose process cannot be read, and it parses a process or none is gone (the
    execution panics otherwise): the buffers queued have, in order, the lines of
    the processes and then the lines about the scan, no line lost or split, and
    all but the last are over the target size; the processes parsed are those in
    the cache afterwards, the errors the others of the list, and new and deleted
    processes balance: what was in the cache plus the new ones is what is in the
    cache plus the deleted ones.  With no identifier reused the first condition
    holds. *)
Theorem pid_scan_report target pm L l env endTs icm mgs :
  pm_ok pm L -> gen_wf mgs -> NoDup l -> (forall i, env_ok (env i)) -> (0 <= icm)%Z ->
  exists ps' icm' vs,
    scan_seq (next_scan (m_scanNum pm)) (pairs l env) L (start_parsers pm) icm = Ret (unlisted l L ++ kept vs, ps', icm', vs) /\
    ((Stale ∈ vs) -> Exists (reused_by procfsRoot L) (pairs l env)) /\
    ((Stale ∉ vs) -> kept vs <> [] \/ unlisted l L = [] ->
     exists pm' mgs' out a del, execute (Some l) env endTs target pm icm mgs = Ret (pm', icm', mgs', out, true) /\
       concat out = concat (map verdict_lines vs) ++
         specific_lines instance hostname cfg (Itoa (UnixMilli endTs)) (Z.of_nat (length l)) a del
           (match m_fmts pm with Some _ => Some (Seconds (Sub endTs (m_prevTs pm))) | None => None end) /\
       Forall (fun b => target < buf_len b)%Z (removelast out) /\
       pidTidCount a = Z.of_nat (length (kept vs)) /\ (Z.of_nat (length L) + addPidCount a = Z.of_nat (length (kept vs)) + del)%Z).
Proof.
  intros Hpm Hw Hnd He Hicm. destruct (execute_spec target pm L l env endTs icm mgs Hpm Hw Hnd He Hicm) as (ps' & icm' & vs & Ha & Hlen & Hre & H).
  exists ps', icm', vs. split; [done|]. split; [done|]. intros Hst Hk. destruct (H Hst) as [Hbal H2].
  assert (bool_decide (kept vs = []) && negb (bool_decide (unlisted l L = [])) = false) as E.
  { destruct Hk as [Hk| ->]; [by rewrite bool_decide_eq_false_2|]. by rewrite (bool_decide_eq_true_2 ([] = [])), andb_false_r. }
  rewrite E in H2. destruct H2 as (pm' & mgs' & H3 & _). destruct (accounts_spec target l vs acc0 Hlen) as (A1 & _ & A3 & A4 & A5 & A6).
  set (a := accounts target l vs acc0) in *. eexists pm', mgs', _, a, (delPidCount a + Z.of_nat (length (unlisted l L)))%Z. split; [exact H3|]. split_and!.
  - rewrite concat_app. cbn [concat]. rewrite app_nil_r, app_assoc. fold (written a). rewrite A1. reflexivity.
  - rewrite removelast_last. apply A6. by split_and!.
  - rewrite A3. done.
  - rewrite A4, A5. cbn [acc0 addPidCount delPidCount]. lia.
Qed.

(** the last process of a partition.  When the cache has processes and the list
    of the partition is empty, the execution panics: the loop that removes what
    was not found follows the pointer of the last object. *)
Theorem pid_last_gone_panics target pm L env endTs icm mgs :
  pm_ok pm L -> L <> [] -> execute (Some []) env endTs target pm icm mgs = Panic.
Proof.
  intros [Hf (xs & Hrep) Hi [Hs Hsn]] HL. unfold Execute.
  destruct (match m_fmts pm with Some fm => (fm, m_parsers pm) | None => _ end) as [fm ps]. cbn [imap scan_loop]. rewrite bind_ret. cbv beta iota.
  pose proof (remove_outdated_spec (next_scan (m_scanNum pm)) (m_cache pm) xs L [] (delPidCount acc0)) as Hrm.
  rewrite bool_decide_eq_true_2, bool_decide_eq_false_2 in Hrm by done. rewrite app_nil_r in Hrm. rewrite Hrm; [done|done| |constructor].
  eapply Forall_impl; [exact Hs|]. intros i -> E. by apply (proj1 (next_scan_ok _ Hsn)).
Qed.
End execute.
(** ** Witnesses and examples *)

Definition sample_key : PidTidList.PidTid := PidTidList.mkPidTid 7 0.
Definition sample_stat_text (utime start : Z) : bytes :=
  bs "7 (cat) R 1 7 7 0 -1 0 5 0 0 0 " ++ Itoa utime ++ bs " 2 0 0 20 0 4 0 " ++ Itoa start ++ bs " 4096 3 999 1 2 3 0 0 0 0 0 0 0 0 0 -1 1 0 0 0 0".

(** The files of process 7, whose command line is empty or cannot be read. *)
Definition sample_env (utime start : Z) (cmdline : read_result) : Env :=
  mkEnv (fun path => if bool_decide (path = bs "/proc/7/cmdline") then cmdline else ReadOk (sample_stat_text utime start)) (mkTime Second (Some Second)).
Definition sample_cfg : Config := mkConfig 0 15 false ∅.

(** A generator that has process 7 in its cache. *)
Definition sample_pm : ProcPidMetrics :=
  mkMetrics None (mkCache {[sample_key := 0]} (Some 0) (Some 0) {[0 := mkNode None None (sample_info "cat")]})
    (mkParsers PidStat.NewPidStat None PidCmdline.NewPidCmdline) 3 zeroTime.

Lemma sample_pm_ok : pm_ok (bs "i") (bs "h") (bs "/proc") sample_cfg sample_pm [sample_info "cat"].
Proof.
  split.
  - done.
  - exists [0]. split.
    + split_and!; [apply NoDup_singleton|split; [|done]; by eexists|done|done].
    + by repeat constructor.
    + apply NoDup_singleton.
    + done.
  - repeat constructor; done.
  - split; [by repeat constructor|done].
Qed.

Lemma sample_env_ok utime start cmdline i : cmdline = ReadOk [] \/ cmdline = ReadErr -> env_ok ((fun _ : nat => sample_env utime start cmdline) i).
Proof. intros Hc path buf. cbn. case_bool_decide; [|done]. by destruct Hc as [-> | ->]. Qed.
Lemma sample_factor : (fullMetricsFactor sample_cfg <= MaxInt64)%Z.
Proof. done. Qed.

Abbreviation sample_seq := (abs_loop (bs "/proc") (fun _ => None) sample_clk 1000 4096 sample_cfg (the_fmts (bs "i") (bs "h") sample_cfg) 4
  [(sample_key, sample_env 15 898 (ReadOk []))] [sample_info "cat"] (start_parsers (bs "i") (bs "h") sample_cfg sample_pm) 0).

(** The process of the sample is parsed. *)
Definition all_kept (o : outcome (list Info * Parsers * Z * list verdict)) : bool :=
  match o with Ret (_, _, _, vs) => forallb (fun v => bool_decide (is_Some (verdict_info v))) vs && (0 <? length vs) | _ => false end.

Lemma sample_kept L ps icm vs : sample_seq = Ret (L, ps, icm, vs) -> (Stale ∉ vs) /\ kept vs <> [].
Proof.
  intros H. assert (all_kept sample_seq = true) as Hk by (vm_compute; reflexivity). rewrite H in Hk. simpl in Hk. apply andb_true_iff in Hk as [Hk Hl].
  rewrite forallb_forall in Hk. split.
  - intros Hs. specialize (Hk Stale (proj1 (list_elem_of_In _ _) Hs)). by apply bool_decide_eq_true in Hk as [].
  - destruct vs as [|v vs]; [done|]. specialize (Hk v (or_introl eq_refl)). apply bool_decide_eq_true in Hk as [i Hi]. unfold kept. cbn. by rewrite Hi.
Qed.

Lemma pid_scan_refines_witness :
  exists ps icm vs, sample_seq = Ret ([] ++ kept vs, ps, icm, vs) /\ exists pm mgs out,
    Execute (bs "i") (bs "h") (bs "/proc") (fun _ => None) sample_clk 1000 4096 sample_cfg (Some [sample_key]) (fun _ => sample_env 15 898 (ReadOk []))
      zeroTime 100 sample_pm 0 ∅ = Ret (pm, icm, mgs, out, true).
Proof.
  destruct (pid_scan_refines (bs "i") (bs "h") (bs "/proc") (fun _ => None) sample_clk 1000 4096 sample_cfg sample_factor 100 sample_pm [sample_info "cat"]
    [sample_key] (fun _ => sample_env 15 898 (ReadOk [])) zeroTime 0 ∅) as (ps & icm & vs & H1 & _ & H2);
    [apply sample_pm_ok|done|apply NoDup_singleton|intros i; apply (sample_env_ok 15 898 (ReadOk []) i); by left|done|].
  exists ps, icm, vs. split; [exact H1|]. destruct (sample_kept _ _ _ _ H1) as [Hst Hk]. specialize (H2 Hst). rewrite bool_decide_eq_false_2 in H2 by exact Hk.
  destruct H2 as (pm & mgs & out & H & _). exists pm, mgs, out. exact H.
Defined.

Lemma pid_scan_report_witness :
  exists ps icm vs, sample_seq = Ret ([] ++ kept vs, ps, icm, vs) /\ exists pm mgs out a del,
    Execute (bs "i") (bs "h") (bs "/proc") (fun _ => None) sample_clk 1000 4096 sample_cfg (Some [sample_key]) (fun _ => sample_env 15 898 (ReadOk []))
      zeroTime 100 sample_pm 0 ∅ = Ret (pm, icm, mgs, out, true) /\ pidTidCount a = Z.of_nat (length (kept vs)) /\
    (1 + addPidCount a = Z.of_nat (length (kept vs)) + del)%Z.
Proof.
  destruct (pid_scan_report (bs "i") (bs "h") (bs "/proc") (fun _ => None) sample_clk 1000 4096 sample_cfg sample_factor 100 sample_pm [sample_info "cat"]
    [sample_key] (fun _ => sample_env 15 898 (ReadOk [])) zeroTime 0 ∅) as (ps & icm & vs & H1 & _ & H2);
    [apply sample_pm_ok|done|apply NoDup_singleton|intros i; apply (sample_env_ok 15 898 (ReadOk []) i); by left|done|].
  exists ps, icm, vs. split; [exact H1|]. destruct (sample_kept _ _ _ _ H1) as [Hst Hk].
  destruct (H2 Hst (or_introl Hk)) as (pm & mgs & out & a & del & H & _ & _ & H3 & H4).
  exists pm, mgs, out, a, del. exact (conj H (conj H3 H4)).
Defined.

Lemma pid_last_gone_panics_witness :
  Execute (bs "i") (bs "h") (bs "/proc") (fun _ => None) sample_clk 1000 4096 sample_cfg (Some []) (fun _ => sample_env 15 898 (ReadOk []))
    zeroTime 100 sample_pm 0 ∅ = Panic.
Proof.
  apply (pid_last_gone_panics (bs "i") (bs "h") (bs "/proc") (fun _ => None) sample_clk 1000 4096 sample_cfg 100 sample_pm [sample_info "cat"]);
    [apply sample_pm_ok|done].
Defined.

(** Two scans of one process: a full cycle with activity, then a partial one with
    none, which only has the zero values that follow it. *)
Example sample_two_scans :
  (r ← Execute (bs "i") (bs "h") (bs "/proc") (fun _ => None) sample_clk 1000 4096 sample_cfg (Some [sample_key]) (fun _ => sample_env 15 898 (ReadOk []))
         zeroTime 100 sample_pm 0 ∅;
   let '(pm, icm, mgs, out, _) := r in
   r ← Execute (bs "i") (bs "h") (bs "/proc") (fun _ => None) sample_clk 1000 4096 sample_cfg (Some [sample_key]) (fun _ => sample_env 15 898 (ReadOk []))
         zeroTime 100 pm icm mgs;
   let '(_, _, _, out', _) := r in Ret (map (@length _) out, map (@length _) out')) = Ret ([16; 6], [4; 7]).
Proof. vm_compute. reflexivity. Qed.

(** Executions one after another, each with its list, the start time that all its
    processes have and the result of reading the command line of process 7. *)
Fixpoint sample_scans (scans : list (list PidTidList.PidTid * Z * read_result)) (pm : ProcPidMetrics) (icm : Z) (mgs : MetricsGeneratorStats)
    : outcome ProcPidMetrics :=
  match scans with
  | [] => Ret pm
  | (l, start, cmdline) :: scans =>
    r ← Execute (bs "i") (bs "h") (bs "/proc") (fun _ => None) sample_clk 1000 4096 sample_cfg (Some l) (fun _ => sample_env 15 start cmdline)
          zeroTime 100 pm icm mgs;
    let '(pm, icm, mgs, _, _) := r in sample_scans scans pm icm mgs
  end.

(** Process 7 is replaced by another one, whose command line cannot be read: its
    old object stays in the map but is out of the list.  The next scan takes that
    object out of the list again, which empties the list: process 8, found just
    before, is no longer in it.  When it is gone, it stays in the cache. *)
Theorem pid_reuse_leaks :
  let key8 := PidTidList.mkPidTid 8 0 in
  exists pm, sample_scans [([sample_key; key8], 899, ReadErr); ([key8; sample_key], 899, ReadOk []); ([sample_key], 899, ReadOk [])]%Z sample_pm 0 ∅ = Ret pm /\
    is_Some (pidTidMetricsInfo (m_cache pm) !! key8) /\ infoHead (m_cache pm) = pidTidMetricsInfo (m_cache pm) !! sample_key /\
    infoTail (m_cache pm) = infoHead (m_cache pm).
Proof.
  cbv zeta. destruct (sample_scans _ _ _ _) as [pm| |] eqn:E; vm_compute in E; [|done|done].
  injection E as <-. eexists. split; [reflexivity|]. vm_compute. by eauto.
Qed.
End PidScan.
