(* ===== verification/GoDuration.v ===== *)
(** [time.ParseDuration] of the Go library, the format of all intervals of the
    configuration: a sign and a sequence of decimal numbers with units.  The
    numbers are 64 bit unsigned, the fractions go through [float64]. *)

From Stdlib Require Import ZArith Lia.
From Stdlib Require Import Floats.SpecFloat.
From stdpp Require Import base tactics numbers strings gmap list.
From S2P Require Import Prelude Scan GoLib GoTime GoFloat.
Local Open Scope Z_scope.

Module GoDuration.
Definition Microsecond : Z := 1000.
Definition Minute : Z := 60 * Second.
Definition Hour : Z := 60 * Minute.
Definition DOT : byte := Init.Byte.x2e.
Definition MINUS : byte := Init.Byte.x2d.
Definition PLUS : byte := Init.Byte.x2b.

Inductive error := ErrInvalid | ErrMissingUnit | ErrUnknownUnit (u : bytes).
#[export] Instance error_eq_dec : EqDecision error.
Proof. solve_decision. Defined.

(** The micro sign and the Greek letter are both accepted. *)
Definition unitMap : list (bytes * Z) :=
  [(bs "ns", Nanosecond); (bs "us", Microsecond); ([Init.Byte.xc2; Init.Byte.xb5] ++ bs "s", Microsecond);
   ([Init.Byte.xce; Init.Byte.xbc] ++ bs "s", Microsecond); (bs "ms", Millisecond); (bs "s", Second); (bs "m", Minute); (bs "h", Hour)].
Definition unit_of (u : bytes) : option Z := snd <$> find (fun x => bool_decide (x.1 = u)) unitMap.

Definition MaxInt : Z := 2 ^ 63.

(** [leadingInt]: [None] on an overflow. *)
Fixpoint leadingInt (x : Z) (s : bytes) : option (Z * bytes) :=
  match s with
  | c :: s' =>
    if is_digit c then
      if MaxInt / 10 <? x then None
      else let x := u64 (x * 10 + digit_of c) in if MaxInt <? x then None else leadingInt x s'
    else Some (x, s)
  | [] => Some (x, [])
  end.

(** [leadingFraction]: digits after an overflow are dropped. *)
Fixpoint leadingFraction (x : Z) (scale : spec_float) (overflow : bool) (s : bytes) : Z * spec_float * bytes :=
  match s with
  | c :: s' =>
    if is_digit c then
      if overflow then leadingFraction x scale true s'
      else if MaxInt64 / 10 <? x then leadingFraction x scale true s'
      else
        let y := u64 (x * 10 + digit_of c) in
        if MaxInt <? y then leadingFraction x scale true s'
        else leadingFraction y (f64_mul scale (f64_of_int 10)) false s'
    else (x, scale, s)
  | [] => (x, scale, [])
  end.

(** [uint64(f)], which differs from [int64(f)] from 2^63 on. *)
Definition uint_of_f64 (f : spec_float) : Z :=
  match f with
  | S754_zero _ => 0
  | S754_finite s m e =>
    let a := if 0 <=? e then Z.shiftl (Z.pos m) e else Z.shiftr (Z.pos m) (- e) in
    u64 (if s then - a else a)
  | _ => MaxInt
  end.

Definition num_char (c : byte) : bool := beq c DOT || is_digit c.

(** [v*unit + f/scale*unit], checked. *)
Definition amount (v f : Z) (scale : spec_float) (unit : Z) : option Z :=
  if MaxInt / unit <? v then None
  else
    let v := u64 (v * unit) in
    if 0 <? f then
      let v := u64 (v + uint_of_f64 (f64_mul (f64_of_int f) (f64_div (f64_of_int unit) scale))) in
      if MaxInt <? v then None else Some v
    else Some v.

(** One number with its unit. *)
Definition dur_body (st : Z * bytes) : outcome ((Z * bytes) + (error + Z)) :=
  let '(d, s) := st in
  match s with
  | [] => Ret (inr (inr d))
  | c :: _ =>
    if negb (num_char c) then Ret (inr (inl ErrInvalid))
    else
      match leadingInt 0 s with
      | None => Ret (inr (inl ErrInvalid))
      | Some (v, s1) =>
        let pre := negb (length s =? length s1)%nat in
        let '(f, scale, post, s2) :=
          match s1 with
          | c :: s' => if beq c DOT then let '(f, scale, s2) := leadingFraction 0 (f64_of_int 1) false s' in
                                         (f, scale, negb (length s' =? length s2)%nat, s2)
                       else (0, f64_of_int 1, false, s1)
          | [] => (0, f64_of_int 1, false, s1)
          end in
        if negb pre && negb post then Ret (inr (inl ErrInvalid))
        else
          let '(u, s3) := span (fun c => negb (num_char c)) s2 in
          match u with
          | [] => Ret (inr (inl ErrMissingUnit))
          | _ =>
            match unit_of u with
            | None => Ret (inr (inl (ErrUnknownUnit u)))
            | Some unit =>
              match amount v f scale unit with
              | None => Ret (inr (inl ErrInvalid))
              | Some v => let d := u64 (d + v) in if MaxInt <? d then Ret (inr (inl ErrInvalid)) else Ret (inl (d, s3))
              end
            end
          end
      end
  end.

Definition sign_of (s : bytes) : bool * bytes :=
  match s with
  | c :: s' => if beq c MINUS then (true, s') else if beq c PLUS then (false, s') else (false, s)
  | [] => (false, [])
  end.

Definition finish (neg : bool) (d : Z) : error + Z :=
  if neg then inr (i64 (- i64 d)) else if MaxInt64 <? d then inl ErrInvalid else inr d.

Definition ParseDuration (s : bytes) : outcome (error + Z) :=
  let '(neg, s) := sign_of s in
  if bool_decide (s = bs "0") then Ret (inr 0)
  else if bool_decide (s = []) then Ret (inl ErrInvalid)
  else
    r ← while (S (length s)) dur_body (0, s);
    Ret (match r with inl e => inl e | inr d => finish neg d end).

Example dur_ex1 : ParseDuration (bs "1h15m30.918s") = Ret (inr 4530918000000).
Proof. vm_compute. reflexivity. Qed.
Example dur_ex2 : map ParseDuration [bs "-1.5h"; bs "200ms"; bs "5"; bs ".s"; bs "3x"; bs ""] =
  map Ret [inr (-5400000000000); inr 200000000; inl ErrMissingUnit; inl ErrInvalid; inl (ErrUnknownUnit (bs "x")); inl ErrInvalid].
Proof. vm_compute. reflexivity. Qed.

(** ** Termination and range *)

Lemma leadingInt_ok x s v s' :
  0 <= x <= MaxInt -> leadingInt x s = Some (v, s') -> (length s' <= length s)%nat /\ 0 <= v <= MaxInt.
Proof.
  revert x. induction s as [|c s IH]; intros x Hx; cbn [leadingInt]; [by intros [= <- <-]|].
  destruct (is_digit c); [|by intros [= <- <-]]. destruct (_ <? x); [done|]. destruct (Z.ltb_spec MaxInt (u64 (x * 10 + digit_of c))); [done|].
  intros Hs. pose proof (wrapu_range 64 (x * 10 + digit_of c) ltac:(lia)) as Hr. unfold u64 in *.
  destruct (IH (wrapu 64 (x * 10 + digit_of c)) ltac:(lia) Hs) as [? ?]. cbn. lia.
Qed.

Lemma leadingFraction_length x scale o s : (length (leadingFraction x scale o s).2 <= length s)%nat.
Proof.
  revert x scale o. induction s as [|c s IH]; intros x scale o; cbn [leadingFraction]; [done|].
  destruct (is_digit c); [|done]. cbn [length].
  destruct o; [|destruct (_ <? x); [|destruct (MaxInt <? _)]]; (etrans; [apply IH|lia]).
Qed.

(** What is left after a number with its unit is shorter. *)
Lemma dur_body_ok d s :
  0 <= d <= MaxInt -> exists c, dur_body (d, s) = Ret c /\
  match c with inl (d', s') => (0 <= d' <= MaxInt) /\ (length s' < length s)%nat | inr (inr d') => 0 <= d' <= MaxInt | inr (inl _) => True end.
Proof.
  intros Hd. unfold dur_body. destruct s as [|c s]; [by eexists|]. destruct (num_char c); [|by eexists]. cbn [negb].
  destruct (leadingInt 0 (c :: s)) as [[v s1]|] eqn:E1; [|by eexists]. apply leadingInt_ok in E1 as [Hl1 Hv]; [|unfold MaxInt; lia].
  set (q := match s1 with [] => _ | c :: s' => _ end). assert (length q.2 <= length s1)%nat as Hq.
  { subst q. destruct s1 as [|c1 s1]; [done|]. destruct (beq c1 DOT); [|done].
    pose proof (leadingFraction_length 0 (f64_of_int 1) false s1). destruct (leadingFraction _ _ _ _) as [[f sc] s2]. cbn in *. lia. }
  destruct q as [[[f scale] post] s2]. cbn [snd] in Hq. destruct (_ && _); [by eexists|].
  pose proof (span_append (fun c => negb (num_char c)) s2) as Hs. destruct (span _ s2) as [u s3]. cbn [fst snd] in Hs.
  destruct u as [|c1 u]; [by eexists|]. destruct (unit_of _) as [unit|]; [|by eexists]. destruct (amount _ _ _ _) as [a|]; [|by eexists].
  destruct (Z.ltb_spec MaxInt (u64 (d + a))); [by eexists|]. eexists. split; [reflexivity|]. split.
  - pose proof (wrapu_range 64 (d + a) ltac:(lia)). unfold u64 in *. lia.
  - subst s2. rewrite length_app in Hq. cbn [length] in *. lia.
Qed.

(** Every text is parsed or rejected, and what is parsed is a duration. *)
Lemma ParseDuration_total s :
  exists r, ParseDuration s = Ret r /\ match r with inr d => MinInt64 <= d <= MaxInt64 | inl _ => True end.
Proof.
  unfold ParseDuration. destruct (sign_of s) as [neg t]. case_bool_decide; [by eexists|]. case_bool_decide; [by eexists|].
  destruct (while_total dur_body (fun st : Z * bytes => length st.2) (fun st => 0 <= st.1 <= MaxInt)
    (fun r => match r with inr d => 0 <= d <= MaxInt | inl _ => True end) (S (length t)) (0, t)) as (r & -> & Hr).
  - intros [d s'] Hd. destruct (dur_body_ok d s' Hd) as (c & -> & Hc). eexists. split; [done|]. by destruct c as [[? ?]|[]].
  - cbn. unfold MaxInt. lia.
  - cbn. lia.
  - rewrite bind_ret. eexists. split; [done|]. destruct r as [e|d]; [done|]. unfold finish. destruct neg; [apply i64_range|].
    destruct (Z.ltb_spec MaxInt64 d); [done|]. unfold MinInt64, MaxInt in *. lia.
Qed.

(** ** Whole numbers with units *)

Definition part := (bytes * bytes)%type.
Definition part_ok (p : part) : Prop := is_num p.1 /\ is_Some (unit_of p.2).
Definition part_val (p : part) : Z := dec p.1 * default 0 (unit_of p.2).
Definition parts_val (ps : list part) : Z := foldr (fun p n => part_val p + n) 0 ps.
Definition show (ps : list part) : bytes := concat (map (fun p => p.1 ++ p.2) ps).

Lemma unit_of_spec u n : unit_of u = Some n -> 1 <= n /\ u <> [] /\ Forall (fun c => negb (num_char c) = true) u.
Proof.
  unfold unit_of. intros H. apply fmap_Some in H as ([u' n'] & H & ->). apply find_some in H as [Hin He]. case_bool_decide; [|done]. subst u. cbn [fst snd].
  cbn in Hin. repeat destruct Hin as [[= <- <-]|Hin]; [..|done]; split; [|split| |split| |split| |split| |split| |split| |split| |split];
    first [by vm_compute | by repeat constructor].
Qed.

Lemma leadingInt_dec ds s x :
  Forall (fun c => is_digit c = true) ds -> stops is_digit s -> 0 <= x -> dec_from x ds <= MaxInt ->
  leadingInt x (ds ++ s) = Some (dec_from x ds, s).
Proof.
  intros H. revert x. induction H as [|c ds Hc Hds IH]; intros x Hs Hx Hd; cbn [app].
  - destruct s as [|c s]; [done|]. cbn in *. by rewrite Hs.
  - cbn [leadingInt]. rewrite Hc. unfold dec_from in *. cbn [foldl] in *. pose proof (digit_of_range c) as Hr.
    pose proof (dec_from_nonneg ds (10 * x + digit_of c) Hds ltac:(lia)) as Hle. unfold dec_from in Hle.
    rewrite (proj2 (Z.ltb_ge _ _)) by (apply Z.div_le_lower_bound; lia).
    unfold u64. rewrite wrapu_small by (unfold MaxInt in *; lia). rewrite (Z.mul_comm x 10). rewrite (proj2 (Z.ltb_ge _ _)) by lia. by apply IH; [|lia|].
Qed.

Lemma digit_num_char c : is_digit c = true -> num_char c = true.
Proof. unfold num_char. intros ->. by rewrite orb_true_r. Qed.

Lemma parts_val_nonneg ps : Forall part_ok ps -> 0 <= parts_val ps.
Proof.
  induction 1 as [|[ds u] ps [[_ Hn] [n Hu]] _ IH]; [done|]. cbn [parts_val foldr]. fold (parts_val ps). unfold part_val. cbn [fst snd] in *. rewrite Hu.
  destruct (unit_of_spec u n Hu) as [? _]. pose proof (dec_from_nonneg ds 0 Hn ltac:(lia)). unfold dec. cbn [default from_option id]. nia.
Qed.

(** A part starts with a digit, so the unit before it ends there. *)
Lemma show_stops ps : Forall part_ok ps -> stops (fun c => negb (num_char c)) (show ps).
Proof.
  intros H. destruct H as [|[ds u] ps [[Hne Hn] _] _]; [done|]. destruct ds as [|c ds]; [done|]. cbn in *.
  apply Forall_cons in Hn as [Hc _]. by rewrite (digit_num_char c Hc).
Qed.

Lemma dur_body_part d ds u ps n :
  is_num ds -> unit_of u = Some n -> Forall part_ok ps -> 0 <= d -> d + dec ds * n <= MaxInt ->
  dur_body (d, (ds ++ u) ++ show ps) = Ret (inl (d + dec ds * n, show ps)).
Proof.
  intros [Hne Hn] Hu Hps Hd Hle. destruct (unit_of_spec u n Hu) as (Hn1 & Hune & Hunum).
  pose proof (dec_from_nonneg ds 0 Hn ltac:(lia)) as Hdec. fold (dec ds) in Hdec.
  destruct u as [|c0 u]; [done|]. pose proof (Forall_inv Hunum) as Hc0. cbn in Hc0. unfold num_char in Hc0. apply negb_true_iff, orb_false_iff in Hc0 as [Hdot Hdig].
  rewrite <- app_assoc. destruct ds as [|c ds]; [done|]. unfold dur_body. cbn [app].
  rewrite (digit_num_char c) by by inversion Hn. cbn [negb].
  change (c :: ds ++ c0 :: u ++ show ps) with ((c :: ds) ++ ((c0 :: u) ++ show ps)).
  rewrite leadingInt_dec; [|done|by cbn|lia|unfold dec in *; nia]. fold (dec (c :: ds)). cbn [app].
  rewrite Hdot. rewrite (proj2 (Nat.eqb_neq _ _)) by (cbn [length]; rewrite length_app; cbn [length]; lia). cbn [negb andb].
  change (c0 :: u ++ show ps) with ((c0 :: u) ++ show ps). rewrite (span_app _ (c0 :: u) (show ps)); [|done|by apply show_stops].
  rewrite Hu. unfold amount. rewrite (proj2 (Z.ltb_ge _ _)) by (apply Z.div_le_lower_bound; lia).
  rewrite (proj2 (Z.ltb_ge 0 0)) by lia. unfold u64. rewrite (wrapu_small 64 (dec (c :: ds) * n)) by (unfold MaxInt in *; nia).
  rewrite wrapu_small by (unfold MaxInt in *; nia). rewrite (proj2 (Z.ltb_ge _ _)) by lia. done.
Qed.

Lemma dur_parts ps d fuel :
  Forall part_ok ps -> 0 <= d -> d + parts_val ps <= MaxInt -> (length ps < fuel)%nat ->
  while fuel dur_body (d, show ps) = Ret (inr (d + parts_val ps)).
Proof.
  intros H. revert d fuel. induction H as [|[ds u] ps [Hn [n Hu]] Hps IH]; intros d fuel Hd Hle Hf; (destruct fuel as [|fuel]; [lia|]).
  - cbn. by rewrite Z.add_0_r.
  - cbn [fst snd] in *. assert (part_val (ds, u) = dec ds * n) as Hv by (unfold part_val; cbn [fst snd]; by rewrite Hu).
    assert (0 <= dec ds * n) as Hpos by (destruct (unit_of_spec u n Hu) as [? _]; pose proof (dec_from_nonneg ds 0 (proj2 Hn) ltac:(lia)); unfold dec; nia).
    pose proof (parts_val_nonneg ps Hps). unfold parts_val in Hle. cbn [foldr] in Hle. fold (parts_val ps) in Hle. rewrite Hv in Hle.
    erewrite while_inl by (apply (dur_body_part d ds u ps n); [done|done|done|done|lia]).
    rewrite IH; [|lia|lia|cbn in Hf; lia]. unfold parts_val. cbn [foldr]. fold (parts_val ps). rewrite Hv. do 2 f_equal. lia.
Qed.

(** A sequence of whole numbers with units is parsed to its sum, when that is a
    duration. *)
Lemma ParseDuration_parts ps :
  ps <> [] -> Forall part_ok ps -> parts_val ps <= MaxInt64 -> ParseDuration (show ps) = Ret (inr (parts_val ps)).
Proof.
  intros Hne H Hle. unfold ParseDuration. assert (sign_of (show ps) = (false, show ps)) as ->.
  { destruct H as [|[ds u] ps [[Hn Hd] _] _]; [done|]. destruct ds as [|c ds]; [done|]. cbn in *. apply Forall_cons in Hd as [Hc _].
    destruct (beq c MINUS) eqn:E; [apply beq_true in E; by subst c|]. destruct (beq c PLUS) eqn:E'; [apply beq_true in E'; by subst c|]. done. }
  assert (2 <= length (show ps))%nat as Hl.
  { destruct H as [|[ds u] ps [[Hn _] [n Hu]] _]; [done|]. destruct (unit_of_spec u n Hu) as (_ & Hu' & _).
    destruct ds, u; try done. cbn. repeat (rewrite !length_app; cbn [length]). lia. }
  rewrite bool_decide_eq_false_2 by (intros E; rewrite E in Hl; cbn in Hl; lia).
  rewrite bool_decide_eq_false_2 by (intros E; rewrite E in Hl; cbn in Hl; lia).
  rewrite dur_parts; [|done|lia|unfold MaxInt64, MaxInt in *; lia|].
  - rewrite bind_ret. unfold finish. rewrite Z.add_0_l, (proj2 (Z.ltb_ge _ _)) by lia. done.
  - clear -H. induction H as [|[ds u] ps [[Hn _] [n Hu]] _ IH]; [cbn; lia|]. unfold show in *. cbn [map concat length fst snd].
    rewrite !length_app. destruct ds; [done|]. cbn [length fst snd] in *. lia.
Qed.
End GoDuration.
