(* ===== verification/Config.v ===== *)
(** The configuration (lsvmi/config.go, the configuration structures of the other
    files of lsvmi, lsvmi/cmdline_utils.go and InitCommonMetrics of
    lsvmi/metrics_common.go): the sections with their default values, the
    overrides of the command line, the names that all metrics have, and the
    layout of the help texts.

    Every section of [LsvmiConfig] is a pointer, [None] for nil; a dereference of
    nil is a panic.  The YAML decoder is an argument: from the contents of a file
    and the structure with the default values it makes the structure that was
    loaded. *)

From Stdlib Require Import ZArith Lia.
From stdpp Require Import base tactics numbers strings gmap list.
From S2P Require Import Prelude Scan GoLib Scheduler EndpointPool.

Module Config.

(** ** Sections *)

Definition GLOBAL_CONFIG_INSTANCE_DEFAULT : bytes := bs "lsvmi".
Definition GLOBAL_CONFIG_USE_SHORT_HOSTNAME_DEFAULT : bool := true.
Definition GLOBAL_CONFIG_PROCFS_ROOT_DEFAULT : bytes := bs "/proc".

Record GlobalConfig := mkGlobal { Instance : bytes; UseShortHostname : bool; ProcfsRoot : bytes }.
Definition DefaultGlobalConfig : GlobalConfig :=
  mkGlobal GLOBAL_CONFIG_INSTANCE_DEFAULT GLOBAL_CONFIG_USE_SHORT_HOSTNAME_DEFAULT GLOBAL_CONFIG_PROCFS_ROOT_DEFAULT.

(** The fields that the configurations of all generators have; those of seven
    generators have no others. *)
Record GeneratorConfig := mkGen { Interval : bytes; FullMetricsFactor : Z }.
Definition DefaultProcStatMetricsConfig : GeneratorConfig := mkGen (bs "200ms") 25.
Definition DefaultProcNetDevMetricsConfig : GeneratorConfig := mkGen (bs "1s") 15.
Definition DefaultProcInterruptsMetricsConfig : GeneratorConfig := mkGen (bs "1s") 15.
Definition DefaultProcSoftirqsMetricsConfig : GeneratorConfig := mkGen (bs "1s") 15.
Definition DefaultProcNetSnmpMetricsConfig : GeneratorConfig := mkGen (bs "1s") 15.
Definition DefaultProcNetSnmp6MetricsConfig : GeneratorConfig := mkGen (bs "1s") 15.
Definition DefaultQdiscMetricsConfig : GeneratorConfig := mkGen (bs "1s") 15.

Record ProcDiskstatsMetricsConfig := mkDisk { disk_gen : GeneratorConfig; disk_MountinfoPid : Z }.
Definition DefaultProcDiskstatsMetricsConfig : ProcDiskstatsMetricsConfig := mkDisk (mkGen (bs "5s") 12) 0.

Record StatfsMetricsConfig := mkStatfs {
  statfs_gen : GeneratorConfig;
  statfs_MountinfoPid : Z;
  IncludeFilesystemTypes : list bytes;
  ExcludeFilesystemTypes : list bytes
}.
Definition DefaultStatfsMetricsConfig : StatfsMetricsConfig := mkStatfs (mkGen (bs "5s") 12) 0 [] [].

Record ProcPidMetricsConfig := mkPid {
  pid_gen : GeneratorConfig;
  PidTidListCacheValidInterval : bytes;
  NumPartitions : Z;
  ThreadMetrics : bool;
  UsePidStatus : bool;
  PidStatusMemoryFields : list bytes
}.
Definition DefaultProcPidMetricsConfig : ProcPidMetricsConfig := mkPid (mkGen (bs "1s") 15) (bs "900ms") (-1) true true [].

Record InternalMetricsConfig := mkInternal { int_Interval : bytes; OsMetricsFactor : Z }.
Definition DefaultInternalMetricsConfig : InternalMetricsConfig := mkInternal (bs "5s") 12.

Record CompressorPoolConfig := mkCompressor {
  NumCompressors : Z;
  BufferPoolMaxSize : Z;
  MetricsQueueSize : Z;
  CompressionLevel : Z;
  BatchTargetSize : bytes;
  FlushInterval : bytes
}.
(** [gzip.DefaultCompression] is -1. *)
Definition DefaultCompressorPoolConfig : CompressorPoolConfig := mkCompressor (-1) 64 64 (-1) (bs "64k") (bs "5s").

Record HttpEndpointConfig := mkEndpointCfg { URL : bytes; ep_MarkUnhealthyThreshold : Z }.
Definition DefaultHttpEndpointConfig : HttpEndpointConfig := mkEndpointCfg EndpointPool.HTTP_ENDPOINT_URL_DEFAULT 0.

Record HttpEndpointPoolConfig := mkEndpointPool {
  Endpoints : list (option HttpEndpointConfig);
  MarkUnhealthyThreshold : Z;
  Shuffle : bool;
  HealthyRotateInterval : bytes;
  ErrorResetInterval : bytes;
  HealthCheckInterval : bytes;
  HealthyMaxWait : bytes;
  SendBufferTimeout : bytes;
  RateLimitMbps : bytes;
  TcpConnTimeout : bytes;
  TcpKeepAlive : bytes;
  MaxIdleConns : Z;
  MaxIdleConnsPerHost : Z;
  MaxConnsPerHost : Z;
  IdleConnTimeout : bytes;
  ResponseTimeout : bytes
}.
Definition DefaultHttpEndpointPoolConfig : HttpEndpointPoolConfig :=
  mkEndpointPool [] 0 false (bs "5m") (bs "1m") (bs "5s") (bs "10s") (bs "20s") [] (bs "2s") (bs "15s") 0 1 0 (bs "1m") (bs "5s").

Record LoggerConfig := mkLogger {
  UseJson : bool;
  Level : bytes;
  DisableSrcFile : bool;
  LogFile : bytes;
  LogFileMaxSizeMB : Z;
  LogFileMaxBackupNum : Z
}.
Definition DefaultLoggerConfig : LoggerConfig := mkLogger true (bs "info") false [] 10 1.

Record LsvmiConfig := mkLsvmi {
  c_global : option GlobalConfig;
  c_procStat : option GeneratorConfig;
  c_procNetDev : option GeneratorConfig;
  c_procInterrupts : option GeneratorConfig;
  c_procSoftirqs : option GeneratorConfig;
  c_procNetSnmp : option GeneratorConfig;
  c_procNetSnmp6 : option GeneratorConfig;
  c_procDiskstats : option ProcDiskstatsMetricsConfig;
  c_procPid : option ProcPidMetricsConfig;
  c_statfs : option StatfsMetricsConfig;
  c_qdisc : option GeneratorConfig;
  c_internal : option InternalMetricsConfig;
  c_scheduler : option Z;
  c_compressorPool : option CompressorPoolConfig;
  c_httpEndpointPool : option HttpEndpointPoolConfig;
  c_logger : option LoggerConfig
}.

(** There is no default for the logger. *)
Definition DefaultLsvmiConfig : LsvmiConfig :=
  mkLsvmi (Some DefaultGlobalConfig) (Some DefaultProcStatMetricsConfig) (Some DefaultProcNetDevMetricsConfig)
    (Some DefaultProcInterruptsMetricsConfig) (Some DefaultProcSoftirqsMetricsConfig) (Some DefaultProcNetSnmpMetricsConfig)
    (Some DefaultProcNetSnmp6MetricsConfig) (Some DefaultProcDiskstatsMetricsConfig) (Some DefaultProcPidMetricsConfig)
    (Some DefaultStatfsMetricsConfig) (Some DefaultQdiscMetricsConfig) (Some DefaultInternalMetricsConfig)
    (Some Scheduler.DefaultSchedulerConfig) (Some DefaultCompressorPoolConfig) (Some DefaultHttpEndpointPoolConfig) None.

(** The [any] argument of the constructors: the whole configuration, the section
    itself, nil or a value of another type. *)
Inductive any_config (A : Type) := AnyLsvmi (cfg : LsvmiConfig) | AnyOwn (c : A) | AnyNil | AnyOther.
Arguments AnyLsvmi {A} cfg.
Arguments AnyOwn {A} c.
Arguments AnyNil {A}.
Arguments AnyOther {A}.

(** The section that a constructor uses: an error for another type, a pointer
    otherwise. *)
Definition section {A} (own : LsvmiConfig -> option A) (dflt : A) (cfg : any_config A) : option (option A) :=
  match cfg with
  | AnyLsvmi cfg => Some (own cfg)
  | AnyOwn c => Some (Some c)
  | AnyNil => Some (Some dflt)
  | AnyOther => None
  end.

(** ** Loading *)

(** [strings.Split(s, sep)] with a separator of one byte. *)
Fixpoint split_from (sep : byte) (cur : bytes) (s : bytes) : list bytes :=
  match s with
  | [] => [rev cur]
  | c :: s => if beq c sep then rev cur :: split_from sep [] s else split_from sep (c :: cur) s
  end.
Definition Split (sep : byte) (s : bytes) : list bytes := split_from sep [] s.

Definition COMMA : byte := Init.Byte.x2c.

Definition OverrideEndpoints (urlList : bytes) (p : HttpEndpointPoolConfig) : HttpEndpointPoolConfig :=
  mkEndpointPool (map (fun url => Some (mkEndpointCfg url 0)) (Split COMMA urlList)) (MarkUnhealthyThreshold p) (Shuffle p)
    (HealthyRotateInterval p) (ErrorResetInterval p) (HealthCheckInterval p) (HealthyMaxWait p) (SendBufferTimeout p) (RateLimitMbps p)
    (TcpConnTimeout p) (TcpKeepAlive p) (MaxIdleConns p) (MaxIdleConnsPerHost p) (MaxConnsPerHost p) (IdleConnTimeout p) (ResponseTimeout p).

(** The values of the command line flags. *)
Record Args := mkArgs {
  configArg : bytes;
  hostnameArg : bytes;
  instanceArg : bytes;
  procfsRootArg : bytes;
  loggerLevelArg : bytes;
  loggerFileArg : bytes;
  httpPoolEndpointsArg : bytes
}.
Definition CONFIG_FILE_DEFAULT : bytes := bs "lsvmi-config.yaml".
Definition DefaultArgs : Args := mkArgs CONFIG_FILE_DEFAULT [] [] [] [] [] [].

Inductive load_error := ErrConfigFileArgNotProvided | ErrOpen | ErrDecode.

(** [if arg != "" { p.field = arg }]: the pointer is followed only then. *)
Definition override {A} (arg : bytes) (f : bytes -> A -> A) (p : option A) : outcome (option A) :=
  match arg with [] => Ret p | _ => a ← must p; Ret (Some (f arg a)) end.

Definition set_instance (s : bytes) (g : GlobalConfig) : GlobalConfig := mkGlobal s (UseShortHostname g) (ProcfsRoot g).
Definition set_procfsRoot (s : bytes) (g : GlobalConfig) : GlobalConfig := mkGlobal (Instance g) (UseShortHostname g) s.
Definition set_level (s : bytes) (l : LoggerConfig) : LoggerConfig :=
  mkLogger (UseJson l) s (DisableSrcFile l) (LogFile l) (LogFileMaxSizeMB l) (LogFileMaxBackupNum l).
Definition set_logFile (s : bytes) (l : LoggerConfig) : LoggerConfig :=
  mkLogger (UseJson l) (Level l) (DisableSrcFile l) s (LogFileMaxSizeMB l) (LogFileMaxBackupNum l).

Section load.
Context (open : bytes -> option bytes) (decode : bytes -> LsvmiConfig -> option LsvmiConfig).

Definition LoadLsvmiConfig (cfgFile : bytes) : load_error + LsvmiConfig :=
  match open cfgFile with
  | None => inl ErrOpen
  | Some text => match decode text DefaultLsvmiConfig with None => inl ErrDecode | Some cfg => inr cfg end
  end.

Definition apply_overrides (a : Args) (cfg : LsvmiConfig) : outcome LsvmiConfig :=
  g ← override (instanceArg a) set_instance (c_global cfg);
  g ← override (procfsRootArg a) set_procfsRoot g;
  l ← override (loggerLevelArg a) set_level (c_logger cfg);
  l ← override (loggerFileArg a) set_logFile l;
  h ← override (httpPoolEndpointsArg a) OverrideEndpoints (c_httpEndpointPool cfg);
  Ret (mkLsvmi g (c_procStat cfg) (c_procNetDev cfg) (c_procInterrupts cfg) (c_procSoftirqs cfg) (c_procNetSnmp cfg) (c_procNetSnmp6 cfg)
         (c_procDiskstats cfg) (c_procPid cfg) (c_statfs cfg) (c_qdisc cfg) (c_internal cfg) (c_scheduler cfg) (c_compressorPool cfg) h l).

Definition LoadLsvmiConfigFromArgs (a : Args) : outcome (load_error + LsvmiConfig) :=
  if bool_decide (configArg a = []) then Ret (inl ErrConfigFileArgNotProvided)
  else match LoadLsvmiConfig (configArg a) with
       | inl e => Ret (inl e)
       | inr cfg => cfg ← apply_overrides a cfg; Ret (inr cfg)
       end.
End load.

(** ** The names of the metrics *)

Record Globals := mkGlobals { GlobalInstance : bytes; GlobalHostname : bytes; GlobalProcfsRoot : bytes }.
Inductive init_error := ErrConfigType | ErrHostname | ErrEmptyHostname.

Definition DOT : byte := Init.Byte.x2e.

(** [InitCommonMetrics]; [hostname] is the result of [os.Hostname]. *)
Definition InitCommonMetrics (a : Args) (hostname : option bytes) (cfg : any_config GlobalConfig) : outcome (init_error + Globals) :=
  match section c_global DefaultGlobalConfig cfg with
  | None => Ret (inl ErrConfigType)
  | Some g =>
    match hostnameArg a with
    | [] =>
      match hostname with
      | None => Ret (inl ErrHostname)
      | Some h =>
        g ← must g;
        let h := if UseShortHostname g then (span (fun c => negb (beq c DOT)) h).1 else h in
        Ret (if bool_decide (h = []) then inl ErrEmptyHostname else inr (mkGlobals (Instance g) h (ProcfsRoot g)))
      end
    | h => g ← must g; Ret (inr (mkGlobals (Instance g) h (ProcfsRoot g)))
    end
  end.

(** ** Help texts *)

Definition DEFAULT_FLAG_USAGE_WIDTH : Z := 58.

(** The words one after another; [i] is whether a word was written. *)
Fixpoint usage_words (width lineLen : Z) (first : bool) (words : list bytes) : bytes :=
  match words with
  | [] => []
  | word :: words =>
    let n := Z.of_nat (length word) in
    if first then word ++ usage_words width (lineLen + n) false words
    else if (width <? lineLen + n + 1)%Z then [NL] ++ word ++ usage_words width n false words
    else [SP] ++ word ++ usage_words width (lineLen + 1 + n) false words
  end.
Definition FormatFlagUsageWidth (usage : bytes) (width : Z) : bytes := usage_words width 0 true (Fields_of (TrimSpace usage)).
Definition FormatFlagUsage (usage : bytes) : bytes := FormatFlagUsageWidth usage DEFAULT_FLAG_USAGE_WIDTH.

(** ** Properties of the help texts *)

Fixpoint join (sep : byte) (l : list bytes) : bytes :=
  match l with
  | [] => []
  | [w] => w
  | w :: l => w ++ [sep] ++ join sep l
  end.

Lemma join_cons sep w l : l <> [] -> join sep (w :: l) = w ++ [sep] ++ join sep l.
Proof. by destruct l. Qed.

Lemma join_snoc sep l w : l <> [] -> join sep (l ++ [w]) = join sep l ++ [sep] ++ w.
Proof.
  induction l as [|a l IH]; [done|]. intros _. destruct l as [|b l]; [done|].
  cbn [app]. rewrite (join_cons sep a (b :: l ++ [w])), (join_cons sep a (b :: l)) by done. change (b :: l ++ [w]) with ((b :: l) ++ [w]).
  rewrite IH by done. by rewrite <- !app_assoc.
Qed.

(** A line of words that fits, or that has one word only. *)
Definition line_ok (width : Z) (l : list bytes) : Prop := l <> [] /\ (Z.of_nat (length (join SP l)) <= width \/ exists w, l = [w])%Z.

(** The words [words] after the words [cur] of the current line. *)
Lemma usage_words_lines width words : forall cur : list bytes,
  line_ok width cur ->
  exists ls : list (list bytes), Forall (line_ok width) ls /\ concat ls = cur ++ words /\
    join SP cur ++ usage_words width (Z.of_nat (length (join SP cur))) false words = join NL (map (join SP) ls).
Proof.
  induction words as [|w words IH]; intros cur Hcur; cbn [usage_words].
  - exists [cur]. split; [by constructor|]. cbn. by rewrite !app_nil_r.
  - destruct (Z.ltb_spec width (Z.of_nat (length (join SP cur)) + Z.of_nat (length w) + 1)) as [Hlt|Hle].
    + destruct (IH [w]) as (ls & Hls & Hc & Hj); [split; [done|right; by eexists]|]. cbn [join] in Hj. exists (cur :: ls). split_and!.
      * by constructor.
      * cbn [concat]. by rewrite Hc.
      * cbn [map]. rewrite join_cons, <- Hj; [done|]. destruct ls; [by destruct cur|done].
    + assert (join SP (cur ++ [w]) = join SP cur ++ [SP] ++ w) as Hw by (apply join_snoc; apply Hcur).
      destruct (IH (cur ++ [w])) as (ls & Hls & Hc & Hj).
      { split; [by destruct cur|left]. rewrite Hw, !length_app. cbn [length]. lia. }
      exists ls. split; [done|]. split; [by rewrite Hc, <- app_assoc|]. rewrite <- Hj, Hw, !length_app, <- !app_assoc. cbn [length app].
      do 3 f_equal. f_equal. lia.
Qed.

(** the help texts.  The words of the usage are laid out in lines, none lost
    or split: every line has at most the width unless it is a single word. *)
Theorem usage_format_lines usage width :
  let words := Fields_of (TrimSpace usage) in
  exists ls : list (list bytes), concat ls = words /\ Forall (line_ok width) ls /\
    FormatFlagUsageWidth usage width = join NL (map (join SP) ls).
Proof.
  cbv zeta. unfold FormatFlagUsageWidth. destruct (Fields_of (TrimSpace usage)) as [|w words]; [by exists []|].
  destruct (usage_words_lines width words [w]) as (ls & Hls & Hc & Hj); [split; [done|right; by eexists]|].
  exists ls. split; [done|]. split; [done|]. exact Hj.
Qed.

(** ** Properties of the overrides *)

Lemma split_from_app sep a s cur : Forall (fun c => beq c sep = false) a -> split_from sep cur (a ++ s) = split_from sep (rev a ++ cur) s.
Proof.
  intros H. revert cur. induction H as [|c a Hc _ IH]; intros cur; [done|]. cbn [app split_from]. rewrite Hc, IH. cbn. by rewrite <- app_assoc.
Qed.

Lemma Split_join sep l : l <> [] -> Forall (Forall (fun c => beq c sep = false)) l -> Split sep (join sep l) = l.
Proof.
  intros Hne H. unfold Split. induction H as [|a l Ha Hl IH]; [done|]. destruct l as [|b l].
  - cbn [join]. rewrite <- (app_nil_r a) at 1. rewrite split_from_app by done. cbn. by rewrite app_nil_r, rev_involutive.
  - rewrite join_cons, split_from_app by done. cbn [app split_from]. rewrite beq_refl, app_nil_r, rev_involutive. f_equal. by apply IH.
Qed.

Lemma split_from_nonempty sep s cur : split_from sep cur s <> [].
Proof. revert cur. induction s as [|c s IH]; intros cur; [done|]. cbn. by destruct (beq c sep). Qed.

Lemma join_Split sep s : forall cur, join sep (split_from sep cur s) = rev cur ++ s.
Proof.
  induction s as [|c s IH]; intros cur; cbn [split_from]; [by rewrite app_nil_r|]. destruct (beq c sep) eqn:E.
  - apply beq_true in E. subst c. rewrite join_cons by apply split_from_nonempty.
    by rewrite IH.
  - rewrite IH. cbn. by rewrite <- app_assoc.
Qed.

Definition chosen (arg value : bytes) : bytes := match arg with [] => value | _ => arg end.

(** The configuration after the overrides; [l] is its logger section. *)
Definition overridden (a : Args) (g : GlobalConfig) (h : HttpEndpointPoolConfig) (l : option LoggerConfig) (cfg : LsvmiConfig) : LsvmiConfig :=
  mkLsvmi (Some (mkGlobal (chosen (instanceArg a) (Instance g)) (UseShortHostname g) (chosen (procfsRootArg a) (ProcfsRoot g))))
    (c_procStat cfg) (c_procNetDev cfg) (c_procInterrupts cfg) (c_procSoftirqs cfg) (c_procNetSnmp cfg) (c_procNetSnmp6 cfg)
    (c_procDiskstats cfg) (c_procPid cfg) (c_statfs cfg) (c_qdisc cfg) (c_internal cfg) (c_scheduler cfg) (c_compressorPool cfg)
    (Some (match httpPoolEndpointsArg a with [] => h | urls => OverrideEndpoints urls h end)) l.

Lemma override_some {A} arg f (p : A) : override arg f (Some p) = Ret (Some (match arg with [] => p | _ => f arg p end)).
Proof. by destruct arg. Qed.

Lemma override_none {A} arg (f : bytes -> A -> A) : override arg f None = if bool_decide (arg = []) then Ret None else Panic.
Proof. by destruct arg. Qed.

(** precedence.  What is loaded is the file over the default values, with the
    command line over both: the instance, the root of the process files, the
    endpoints, the level and file of the log, and nothing else.  A flag of the
    log without a section for it in the file panics. *)
Theorem config_overrides open decode a text cfg g h :
  configArg a <> [] -> open (configArg a) = Some text -> decode text DefaultLsvmiConfig = Some cfg ->
  c_global cfg = Some g -> c_httpEndpointPool cfg = Some h ->
  LoadLsvmiConfigFromArgs open decode a =
  match c_logger cfg with
  | Some l => Ret (inr (overridden a g h
      (Some (mkLogger (UseJson l) (chosen (loggerLevelArg a) (Level l)) (DisableSrcFile l) (chosen (loggerFileArg a) (LogFile l))
        (LogFileMaxSizeMB l) (LogFileMaxBackupNum l))) cfg))
  | None => if bool_decide (loggerLevelArg a = []) && bool_decide (loggerFileArg a = []) then Ret (inr (overridden a g h None cfg)) else Panic
  end.
Proof.
  intros Hc Ho Hd Hg Hh. unfold LoadLsvmiConfigFromArgs, LoadLsvmiConfig. rewrite bool_decide_eq_false_2, Ho, Hd by done.
  unfold apply_overrides. rewrite Hg, Hh. destruct (c_logger cfg) as [l|]; repeat (rewrite override_some || rewrite bind_ret).
  - unfold overridden. destruct (httpPoolEndpointsArg a), (instanceArg a), (procfsRootArg a), (loggerLevelArg a), (loggerFileArg a), g, l; reflexivity.
  - rewrite override_none. destruct (loggerLevelArg a); [|done]. rewrite bool_decide_eq_true_2, bind_ret by done.
    rewrite override_none. destruct (loggerFileArg a); [|done]. rewrite bool_decide_eq_true_2, bind_ret by done.
    unfold overridden. destruct (httpPoolEndpointsArg a), (instanceArg a), (procfsRootArg a), g; reflexivity.
Qed.

Lemma config_overrides_witness :
  let a := mkArgs CONFIG_FILE_DEFAULT [] (bs "test") [] (bs "debug") [] (bs "http://a,http://b") in
  LoadLsvmiConfigFromArgs (fun _ => Some []) (fun _ c => Some c) a = Panic.
Proof.
  intros a. exact (config_overrides (fun _ => Some []) (fun _ c => Some c) a [] DefaultLsvmiConfig DefaultGlobalConfig DefaultHttpEndpointPoolConfig
    ltac:(done) eq_refl eq_refl eq_refl eq_refl).
Defined.

(** the list of endpoints of the command line.  Addresses without comma, put
    together with commas, are the addresses of the pool, in that order, with the
    threshold of the pool. *)
Theorem override_endpoints_roundtrip urls p :
  urls <> [] -> Forall (Forall (fun c => c <> COMMA)) urls ->
  Endpoints (OverrideEndpoints (join COMMA urls) p) = map (fun url => Some (mkEndpointCfg url 0)) urls.
Proof.
  intros Hne H. cbn [OverrideEndpoints Endpoints]. rewrite Split_join; [done|done|]. eapply Forall_impl; [exact H|]. intros l Hl.
  eapply Forall_impl; [exact Hl|]. intros c Hc. by apply beq_false.
Qed.

Lemma override_endpoints_roundtrip_witness :
  Endpoints (OverrideEndpoints (bs "http://a,http://b") DefaultHttpEndpointPoolConfig) = [Some (mkEndpointCfg (bs "http://a") 0); Some (mkEndpointCfg (bs "http://b") 0)].
Proof.
  apply (override_endpoints_roundtrip [bs "http://a"; bs "http://b"] DefaultHttpEndpointPoolConfig); [done|]. repeat constructor; done.
Defined.
End Config.
