(* ===== verification/Logger.v ===== *)
(** The logger (lsvmi/logger.go): its settings from the configuration, the source
    file and line of a message with their cache, the order of the fields of a
    message.

    The logging package (logrus), its level names and field names and the log
    file with rotation (lumberjack) are arguments, and so are the results of the
    operations on files. *)

From Stdlib Require Import ZArith Lia.
From stdpp Require Import base tactics numbers strings gmap list sorting.
From S2P Require Import Prelude Scan GoFloat Config.

Module Logger.
Import Config.

(** ** Settings *)

Inductive formatter := LogTextFormatter | LogJsonFormatter.
Inductive output := Stderr | RotatedFile (Filename : bytes) (MaxSize MaxBackups : Z).

Section settings.
Context {Level : Type} (ParseLevel : bytes -> option Level) (IsLevelEnabled_debug : Level -> bool) (path_Dir : bytes -> bytes).

(** [CollectableLogursLog]: the fields that the program sets. *)
Record Log := mkLog {
  log_level : Level;
  IsEnabledForDebug : bool;
  log_formatter : formatter;
  ReportCaller : bool;
  Out : output
}.

Definition SetLevel (level : Level) (log : Log) : Log :=
  mkLog level (IsLevelEnabled_debug level) (log_formatter log) (ReportCaller log) (Out log).

Inductive set_error := ErrType | ErrLevel | ErrMkdir | ErrRotate.

(** The file system: which paths exist, whether a directory can be made and a
    file be rotated. *)
Record os := mkOs { os_Stat : bytes -> bool; os_MkdirAll : bytes -> bool; Rotate : bytes -> bool }.

Definition set_output (fs : os) (logCfg : LoggerConfig) (log : Log) : set_error + Log :=
  if negb (bool_decide (LogFile logCfg = [])) && negb (bool_decide (LogFile logCfg = bs "stderr")) then
    let logDir := path_Dir (LogFile logCfg) in
    if negb (os_Stat fs logDir) && negb (os_MkdirAll fs logDir) then inl ErrMkdir
    else if os_Stat fs (LogFile logCfg) && negb (Rotate fs (LogFile logCfg)) then inl ErrRotate
    else inr (mkLog (log_level log) (IsEnabledForDebug log) (log_formatter log) (ReportCaller log)
                (RotatedFile (LogFile logCfg) (LogFileMaxSizeMB logCfg) (LogFileMaxBackupNum logCfg)))
  else inr log.

Definition SetLogger (fs : os) (cfg : any_config LoggerConfig) (log : Log) : outcome (set_error + Log) :=
  match section c_logger DefaultLoggerConfig cfg with
  | None => Ret (inl ErrType)
  | Some logCfg =>
    logCfg ← must logCfg;
    let log := match Config.Level logCfg with
               | [] => inr log
               | name => match ParseLevel name with None => inl ErrLevel | Some level => inr (SetLevel level log) end
               end in
    match log with
    | inl e => Ret (inl e)
    | inr log =>
      let log := mkLog (log_level log) (IsEnabledForDebug log) (if UseJson logCfg then LogJsonFormatter else LogTextFormatter)
                   (negb (DisableSrcFile logCfg)) (Out log) in
      Ret (set_output fs logCfg log)
    end
  end.

(** the settings of the log.  With a section for it they are those of the
    configuration, and the flag that guards the debug messages is that of the
    level; with the configuration of a file that has no such section, the
    program panics, since there is no default for it. *)
Theorem set_logger_settings fs cfg log :
  match c_logger cfg with
  | None => SetLogger fs (AnyLsvmi cfg) log = Panic
  | Some l =>
    exists r, SetLogger fs (AnyLsvmi cfg) log = Ret r /\
    forall log', r = inr log' ->
      (Config.Level l = [] /\ log_level log' = log_level log /\ IsEnabledForDebug log' = IsEnabledForDebug log \/
       Some (log_level log') = ParseLevel (Config.Level l) /\ IsEnabledForDebug log' = IsLevelEnabled_debug (log_level log')) /\
      log_formatter log' = (if UseJson l then LogJsonFormatter else LogTextFormatter) /\ ReportCaller log' = negb (DisableSrcFile l) /\
      Out log' = if bool_decide (LogFile l = []) || bool_decide (LogFile l = bs "stderr") then Out log
                 else RotatedFile (LogFile l) (LogFileMaxSizeMB l) (LogFileMaxBackupNum l)
  end.
Proof.
  unfold SetLogger, section. destruct (c_logger cfg) as [l|]; [|done]. cbn [must]. rewrite bind_ret.
  assert (forall lg r, set_output fs l lg = inr r ->
    log_level r = log_level lg /\ IsEnabledForDebug r = IsEnabledForDebug lg /\ log_formatter r = log_formatter lg /\ ReportCaller r = ReportCaller lg /\
    Out r = if bool_decide (LogFile l = []) || bool_decide (LogFile l = bs "stderr") then Out lg
            else RotatedFile (LogFile l) (LogFileMaxSizeMB l) (LogFileMaxBackupNum l)) as Hout.
  { intros lg r. unfold set_output. rewrite <- negb_orb. destruct (_ || _); cbn [negb]; [by intros [= <-]|].
    destruct (negb _ && _); [done|]. destruct (_ && negb _); [done|]. by intros [= <-]. }
  destruct (Config.Level l) as [|c name] eqn:El; [|destruct (ParseLevel (c :: name)) as [lv|] eqn:Ep]; (eexists; split; [reflexivity|]; try done).
  - intros r Hr. apply Hout in Hr as (-> & -> & -> & -> & ->). cbn. split_and!; [by left|done..].
  - intros r Hr. apply Hout in Hr as (-> & -> & -> & -> & ->). cbn. split_and!; [by right|done..].
Qed.
End settings.

(** ** The source of a message *)

Definition SLASH : byte := Init.Byte.x2f.

(** A frame of the runtime: program counter, file, line. *)
Record Frame := mkFrame { PC : Z; File : bytes; Line : Z }.

(** The second result of [path.Split]: what is after the last slash. *)
Definition base_name (file : bytes) : bytes := rev (span (fun c => negb (beq c SLASH)) (rev file)).1.

Definition has_prefix (prefix s : bytes) : bool := bool_decide (take (length prefix) s = prefix).

(** [file:line] of a frame, the file relative to the root of the sources. *)
Definition pretty (logSourceRoot : bytes) (f : Frame) : bytes :=
  let filename := if negb (bool_decide (logSourceRoot = [])) && has_prefix logSourceRoot (File f)
                  then drop (length logSourceRoot) (File f) else base_name (File f) in
  filename ++ bs ":" ++ Itoa (Line f).

(** [LogCallerPrettyfier] with its cache by program counter; the function is
    always empty. *)
Definition LogCallerPrettyfier (logSourceRoot : bytes) (f : Frame) (cache : gmap Z (bytes * bytes)) : bytes * bytes * gmap Z (bytes * bytes) :=
  match cache !! PC f with
  | Some p => (p, cache)
  | None => let p := ([], pretty logSourceRoot f) in (p, <[PC f := p]> cache)
  end.

(** The root with a slash at its end. *)
Definition source_root (root : bytes) : bytes := if bool_decide (root = [SLASH]) then root else root ++ [SLASH].

Fixpoint callers (logSourceRoot : bytes) (fs : list Frame) (cache : gmap Z (bytes * bytes)) : list bytes * gmap Z (bytes * bytes) :=
  match fs with
  | [] => ([], cache)
  | f :: fs =>
    let '(_, file, cache) := LogCallerPrettyfier logSourceRoot f cache in
    let '(files, cache) := callers logSourceRoot fs cache in (file :: files, cache)
  end.

(** the cache of the sources is transparent: as long as a program counter
    stands for one place of the sources, every message has the file and line of
    its own frame. *)
Theorem log_caller_cached root (place : Z -> bytes * Z) fs :
  Forall (fun f => (File f, Line f) = place (PC f)) fs ->
  (callers root fs ∅).1 = map (pretty root) fs.
Proof.
  intros H. set (good := fun cache : gmap Z (bytes * bytes) => forall pc p, cache !! pc = Some p ->
    p = ([], pretty root (mkFrame pc (place pc).1 (place pc).2))).
  assert (forall cache, good cache -> (callers root fs cache).1 = map (pretty root) fs) as Hg; [|apply Hg; by intros ? ? ?].
  induction H as [|f fs Hf Hfs IH]; intros cache Hc; [done|]. cbn [callers map]. unfold LogCallerPrettyfier.
  assert (pretty root (mkFrame (PC f) (place (PC f)).1 (place (PC f)).2) = pretty root f) as Hp by (rewrite <- Hf; by destruct f).
  destruct (cache !! PC f) as [p|] eqn:E.
  - specialize (IH cache Hc). rewrite (Hc _ _ E), Hp. cbn. destruct (callers root fs cache) as [l c] eqn:El. cbn in *. by f_equal.
  - specialize (IH (<[PC f := ([], pretty root f)]> cache)). cbn.
    destruct (callers root fs _) as [l c] eqn:El. cbn in *. f_equal. apply IH. intros pc p. rewrite lookup_insert. case_decide as Hpc.
    + intros [= <-]. subst pc. by rewrite Hp.
    + apply Hc.
Qed.

Lemma log_caller_cached_witness :
  (callers (bs "/src/") [mkFrame 1 (bs "/src/main.go") 7; mkFrame 2 (bs "/go/x.go") 3; mkFrame 1 (bs "/src/main.go") 7] ∅).1 =
  [bs "main.go:7"; bs "x.go:3"; bs "main.go:7"].
Proof.
  rewrite (log_caller_cached (bs "/src/") (fun pc => if (pc =? 1)%Z then (bs "/src/main.go", 7%Z) else (bs "/go/x.go", 3%Z))); [|by repeat constructor].
  reflexivity.
Defined.

(** ** The order of the fields *)

(** [strings.Compare(a, b) == -1]. *)
Fixpoint bytes_lt (a b : bytes) : bool :=
  match a, b with
  | _, [] => false
  | [], _ :: _ => true
  | x :: a, y :: b => (byte_val x <? byte_val y)%Z || (byte_val x =? byte_val y)%Z && bytes_lt a b
  end.

Lemma bytes_lt_irrefl a : bytes_lt a a = false.
Proof. induction a as [|x a IH]; [done|]. cbn. by rewrite Z.ltb_irrefl, IH, andb_false_r. Qed.

Lemma bytes_lt_trans a b c : bytes_lt a b = true -> bytes_lt b c = true -> bytes_lt a c = true.
Proof.
  revert b c. induction a as [|x a IH]; intros [|y b] [|z c]; cbn; try done.
  rewrite !orb_true_iff, !andb_true_iff, !Z.ltb_lt, !Z.eqb_eq. intros [H1|[H1 H1']] [H2|[H2 H2']]; [left; lia..|]. right. split; [lia|]. by eapply IH.
Qed.

Lemma bytes_lt_total a b : bytes_lt a b = false -> bytes_lt b a = false -> a = b.
Proof.
  revert b. induction a as [|x a IH]; intros [|y b]; cbn; try done.
  rewrite !orb_false_iff, !andb_false_iff, !Z.ltb_ge, !Z.eqb_neq. intros [H1 H1'] [H2 H2'].
  assert (x = y) as -> by (apply byte_val_inj; lia). f_equal. destruct H1', H2'; try lia. by apply IH.
Qed.

Definition LOGGER_COMPONENT_FIELD_NAME : bytes := bs "comp".

Section fields.
(** The names of the fields of the logging package. *)
Context (FieldKeyTime FieldKeyLevel FieldKeyFile FieldKeyFunc FieldKeyMsg : bytes).

Definition LogFieldKeySortOrder (key : bytes) : Z :=
  default 0%Z (snd <$> find (fun x => bool_decide (x.1 = key))
    [(FieldKeyTime, -5); (FieldKeyLevel, -4); (LOGGER_COMPONENT_FIELD_NAME, -3); (FieldKeyFile, -2); (FieldKeyFunc, -1); (FieldKeyMsg, 1)]%Z).

Definition Less (key_i key_j : bytes) : bool :=
  let order_i := LogFieldKeySortOrder key_i in
  let order_j := LogFieldKeySortOrder key_j in
  if negb (order_i =? 0)%Z || negb (order_j =? 0)%Z then (order_i <? order_j)%Z else bytes_lt key_i key_j.

(** What [sort.Sort] leaves: no key is less than the one before it. *)
Definition not_after (a b : bytes) : Prop := Less b a = false.
#[global] Instance not_after_dec a b : Decision (not_after a b).
Proof. unfold not_after. apply _. Defined.

Definition LogSortFieldKeys (keys : list bytes) : list bytes := merge_sort not_after keys.

Lemma order_inj a b : LogFieldKeySortOrder a = LogFieldKeySortOrder b -> LogFieldKeySortOrder a <> 0%Z -> a = b.
Proof.
  unfold LogFieldKeySortOrder. set (table := [_; _; _; _; _; _]).
  assert (forall k : bytes, match find (fun x : bytes * Z => bool_decide (x.1 = k)) table with Some x => In x table /\ x.1 = k | None => True end) as Hf.
  { intros k. destruct (find _ table) as [x|] eqn:E; [|done]. apply find_some in E as [H1 H2]. by apply bool_decide_eq_true in H2. }
  assert (forall x y : bytes * Z, In x table -> In y table -> x.2 = y.2 -> x.1 = y.1) as Hd.
  { intros x y Hx Hy. cbn in Hx, Hy. repeat (destruct Hx as [<-|Hx]; [repeat (destruct Hy as [<-|Hy]; [by cbn|]); done|]). done. }
  pose proof (Hf a) as Ha. pose proof (Hf b) as Hb. destruct (find _ table) as [x|] in Ha |- *; destruct (find _ table) as [y|] in Hb |- *; cbn; try done.
  destruct Ha as [Ha <-], Hb as [Hb <-]. intros H _. by apply Hd.
Qed.

Lemma Less_spec a b :
  Less a b = true <-> (LogFieldKeySortOrder a < LogFieldKeySortOrder b)%Z \/
    LogFieldKeySortOrder a = 0%Z /\ LogFieldKeySortOrder b = 0%Z /\ bytes_lt a b = true.
Proof.
  unfold Less. destruct (Z.eqb_spec (LogFieldKeySortOrder a) 0), (Z.eqb_spec (LogFieldKeySortOrder b) 0); cbn [negb orb];
    rewrite ?Z.ltb_lt; split; intros; try lia; [by right|]. destruct H as [?|(_ & _ & ?)]; [lia|done].
Qed.

Lemma not_after_spec a b :
  not_after a b <-> (LogFieldKeySortOrder a < LogFieldKeySortOrder b)%Z \/ a = b \/
    LogFieldKeySortOrder a = 0%Z /\ LogFieldKeySortOrder b = 0%Z /\ bytes_lt a b = true.
Proof.
  unfold not_after. rewrite <- not_true_iff_false, Less_spec. split.
  - intros H. destruct (Z.lt_trichotomy (LogFieldKeySortOrder a) (LogFieldKeySortOrder b)) as [?|[He|?]]; [by left| |by destruct H; left]. right.
    destruct (decide (LogFieldKeySortOrder a = 0%Z)) as [H0|H0]; [|left; by apply order_inj].
    destruct (bytes_lt a b) eqn:E; [right; split_and!; [done|lia|done]|left]. apply bytes_lt_total; [done|].
    apply not_true_iff_false. intros E'. apply H. right. split_and!; [lia|done|done].
  - intros [H|[->|(H1 & H2 & H3)]] [H'|(H4 & H5 & H6)]; try lia.
    + by rewrite bytes_lt_irrefl in H6.
    + by pose proof (bytes_lt_trans a b a H3 H6) as Hc; rewrite bytes_lt_irrefl in Hc.
Qed.

#[local] Instance not_after_trans : Transitive not_after.
Proof.
  intros a b c. rewrite !not_after_spec. intros [?|[->|(? & ? & ?)]] [?|[<-|(? & ? & ?)]]; try (left; lia); try tauto.
  right. right. split_and!; [done|done|by eapply bytes_lt_trans].
Qed.

#[local] Instance not_after_total : Total not_after.
Proof.
  intros a b. destruct (Less b a) eqn:E; [right|by left]. apply Less_spec in E. apply not_after_spec. tauto.
Qed.

#[local] Instance not_after_antisymm : AntiSymm (=) not_after.
Proof.
  intros a b. rewrite !not_after_spec. intros [?|[->|(? & ? & H1)]] [?|[?|(? & ? & H2)]]; try done; try lia.
  pose proof (bytes_lt_trans a b a H1 H2) as Hc. by rewrite bytes_lt_irrefl in Hc.
Qed.

(** the order of the fields of a message.  Any way of sorting by the
    comparison gives the same sequence of the keys: first those with a negative
    position (time, level, component, file, function), then the others by
    alphabet, then the message. *)
Theorem log_fields_sorted keys :
  LogSortFieldKeys keys ≡ₚ keys /\
  StronglySorted (fun a b => (LogFieldKeySortOrder a < LogFieldKeySortOrder b)%Z \/ a = b \/
    LogFieldKeySortOrder a = 0%Z /\ LogFieldKeySortOrder b = 0%Z /\ bytes_lt a b = true) (LogSortFieldKeys keys) /\
  forall l, l ≡ₚ keys -> Sorted not_after l -> l = LogSortFieldKeys keys.
Proof.
  assert (Sorted not_after (LogSortFieldKeys keys)) as Hs by (apply Sorted_merge_sort; apply _).
  assert (LogSortFieldKeys keys ≡ₚ keys) as Hp by apply merge_sort_Permutation. split_and!; [done| |].
  - apply Sorted_StronglySorted in Hs; [|apply _]. clear Hp. induction Hs as [|a l Hl IH Ha]; constructor; [done|].
    eapply Forall_impl; [exact Ha|]. intros b. apply not_after_spec.
  - intros l Hl Hsl. apply (Sorted_unique not_after); [done|done|by rewrite Hl, Hp].
Qed.
End fields.

Example log_fields_ex :
  LogSortFieldKeys (bs "time") (bs "level") (bs "file") (bs "func") (bs "msg") (map bs ["msg"; "b"; "file"; "a"; "comp"; "time"]%string) =
  map bs ["time"; "comp"; "file"; "a"; "b"; "msg"]%string.
Proof. vm_compute. reflexivity. Qed.
End Logger.
