(* ===== verification/OsUtils.v ===== *)
(** What the program finds out about the system (internal/utils): the processors
    it may use (available_cpus_linux.go), the name and version of the kernel
    (os_utils.go) and the release file of the distribution (os_utils_linux.go).

    The results of the system calls and the contents of the files are arguments.
    Release names of kernels have no white space. *)

From Stdlib Require Import ZArith Lia.
From stdpp Require Import base tactics numbers strings gmap list.
From S2P Require Import Prelude Scan GoLib Config.

Module OsUtils.
Import Config.

(** ** Processors *)

(** [for cpuMask != 0 { count++; cpuMask &= cpuMask - 1 }] with 64 bits. *)
Definition mask_body (st : Z * Z) : outcome ((Z * Z) + Z) :=
  let '(cpuMask, count) := st in
  if (cpuMask =? 0)%Z then Ret (inr count) else Ret (inl (Z.land cpuMask (u64 (cpuMask - 1)), (count + 1)%Z)).
Definition count_mask (cpuMask count : Z) : outcome Z := while 65 mask_body (cpuMask, count).
Fixpoint count_masks (cpuSet : list Z) (count : Z) : outcome Z :=
  match cpuSet with
  | [] => Ret count
  | m :: cpuSet => count ← count_mask m count; count_masks cpuSet count
  end.

(** [affinity] is the set of the affinity call, [None] when it fails. *)
Definition CountAvailableCPUs (affinity : option (list Z)) (NumCPU : Z) : outcome Z :=
  match affinity with
  | None => Ret NumCPU
  | Some cpuSet => count ← count_masks cpuSet 0; Ret (if (NumCPU <? count)%Z then NumCPU else count)
  end.

(** ** Kernel *)

Definition NUL : byte := Init.Byte.x00.
Definition zeroSuffixBufToString (buf : bytes) : bytes := (span (fun c => negb (beq c NUL)) buf).1.

Definition PLUS : byte := Init.Byte.x2b.
Definition MINUS : byte := Init.Byte.x2d.
Definition sign (s : bytes) : bool * bytes :=
  match s with c :: t => if beq c MINUS then (true, t) else if beq c PLUS then (false, t) else (false, s) | [] => (false, []) end.

(** The value of digits with a sign, [None] out of range. *)
Definition signed (neg : bool) (ds : bytes) : option Z :=
  let n := dec ds in
  if neg then if (n <=? 2 ^ 63)%Z then Some (- n)%Z else None
  else if (n <=? MaxInt64)%Z then Some n else None.

(** [strconv.Atoi]: the value, which is there even with an error, and whether
    there is none. *)
Definition Atoi (s : bytes) : Z * bool :=
  let '(neg, ds) := sign s in
  if negb (bool_decide (ds = [])) && forallb is_digit ds then
    match signed neg ds with Some n => (n, true) | None => (if neg then MinInt64 else MaxInt64, false) end
  else (0%Z, false).

(** [fmt.Sscanf(s, "%d", &n)]: the digits at the start. *)
Definition Sscanf_d (s : bytes) : option Z :=
  let '(neg, t) := sign s in
  let ds := (span is_digit t).1 in
  match ds with [] => None | _ => signed neg ds end.

(** The package variables that [setUnameOSInfo] sets. *)
Record OSInfo := mkOSInfo {
  OSName : bytes;
  OSNameNorm : bytes;
  OSRelease : bytes;
  OSReleaseVer : list Z;
  OSMachine : bytes
}.
Definition OSInfo0 : OSInfo := mkOSInfo [] [] [] [] [].

Inductive uname_error := ErrUname | ErrParse.

(** The components of the version, [n] in all, and the ones before a failure. *)
Fixpoint ver_loop (n : nat) (i : nat) (parts : list bytes) (ver : list Z) : outcome (list Z * bool) :=
  match parts with
  | [] => Ret (ver, true)
  | v :: parts =>
    let '(x, ok) := Atoi v in
    ver ← store ver i x;
    if ok then ver_loop n (S i) parts ver
    else if i <? n - 1 then Ret (ver, false)
    else
      match Sscanf_d v with
      | None => ver ← store ver i (-1)%Z; Ret (ver, false)
      | Some x => ver ← store ver i x; if (x <? 0)%Z then Ret (ver, false) else ver_loop n (S i) parts ver
      end
  end.

Section uname.
(** [strings.ToLower]. *)
Context (ToLower : bytes -> bytes).

(** [uname] has the fields of the system call, [None] when it fails. *)
Definition setUnameOSInfo (uname : option (bytes * bytes * bytes)) (info : OSInfo) : outcome (OSInfo * option uname_error) :=
  match uname with
  | None => Ret (info, Some ErrUname)
  | Some (sysname, release, machine) =>
    let name := zeroSuffixBufToString sysname in
    let rel := zeroSuffixBufToString release in
    let semVerStr := Split DOT rel in
    '(ver, ok) ← ver_loop (length semVerStr) 0 semVerStr (replicate (length semVerStr) 0%Z);
    Ret (if ok : bool then (mkOSInfo name (ToLower name) rel ver (zeroSuffixBufToString machine), None)
         else (mkOSInfo name (ToLower name) rel ver (OSMachine info), Some ErrParse))
  end.
End uname.

(** ** Release file *)

Definition CR : byte := Init.Byte.x0d.
Definition EQUALS : byte := Init.Byte.x3d.
Definition DQUOTE : byte := Init.Byte.x22.
Definition MaxScanTokenSize : Z := 64 * 1024.

(** The lines of [bufio.Scanner]: a carriage return at the end is dropped, and so
    is an empty last line; a line that does not fit the buffer is an error. *)
Definition drop_cr (line : bytes) : bytes := match last line with Some c => if beq c CR then removelast line else line | None => line end.
Definition scan_text (text : bytes) : list bytes :=
  let ls := Split NL text in if bool_decide (last ls = Some []) then removelast ls else ls.
Definition too_long (text : bytes) : bool := existsb (fun l => MaxScanTokenSize <=? Z.of_nat (length l))%Z (scan_text text).

Definition strip_quotes (val : bytes) : bytes :=
  let val := match val with c :: t => if beq c DQUOTE then t else val | [] => [] end in
  match last val with Some c => if beq c DQUOTE then removelast val else val | None => val end.

(** A line [key=value]; lines with a key of less than two bytes are skipped. *)
Definition release_line (line : bytes) (m : gmap bytes bytes) : gmap bytes bytes :=
  let '(k, r) := span (fun c => negb (beq c EQUALS)) line in
  match r with
  | [] => m
  | _ :: v =>
    if (length k <=? 1) || bool_decide (v = []) then m
    else
      let key := TrimSpace k in
      let val := strip_quotes (TrimSpace v) in
      if bool_decide (key = []) || bool_decide (val = []) then m else <[key := val]> m
  end.

Definition parseLinuxOsReleaseFile (content : option bytes) : option (gmap bytes bytes) :=
  match content with
  | None => None
  | Some text =>
    let m := foldl (fun m l => release_line (drop_cr l) m) ∅ (scan_text text) in
    if too_long text then None else Some m
  end.

(** The first of the two files that can be parsed. *)
Definition getLinuxOsRelease (file : bytes -> option bytes) : option (gmap bytes bytes) :=
  match parseLinuxOsReleaseFile (file (bs "/etc/os-release")) with
  | Some m => Some m
  | None => parseLinuxOsReleaseFile (file (bs "/usr/lib/os-release"))
  end.

Definition DEFAULT_LINUX_CLKTCK : Z := 100.
Definition LinuxClktck (sysconf : option Z) : Z := default DEFAULT_LINUX_CLKTCK sysconf.

Example uname_ex1 : setUnameOSInfo (fun s => s) (Some (bs "Linux", bs "5.15.0-91-generic", bs "x86_64")) OSInfo0 =
  Ret (mkOSInfo (bs "Linux") (bs "Linux") (bs "5.15.0-91-generic") [5; 15; 0]%Z (bs "x86_64"), None).
Proof. vm_compute. reflexivity. Qed.
Example release_ex :
  (release_line (drop_cr (bs "ID= " ++ [DQUOTE] ++ bs "u b" ++ [DQUOTE; CR])) ∅ !! bs "ID", release_line (bs "X=1") ∅ !! bs "X") = (Some (bs "u b"), None).
Proof. vm_compute. reflexivity. Qed.

(** ** Properties of the count of the processors *)

(** The number of ones among the low [n] bits. *)
Fixpoint ones (n : nat) (m : Z) : Z :=
  match n with O => 0%Z | S n => (Z.b2z (Z.odd m) + ones n (Z.div2 m))%Z end.

Lemma ones_range n m : (0 <= ones n m <= Z.of_nat n)%Z.
Proof. revert m. induction n as [|n IH]; intros m; cbn [ones]; [lia|]. specialize (IH (Z.div2 m)). destruct (Z.odd m); cbn [Z.b2z]; lia. Qed.

Lemma ones_0 n : ones n 0 = 0%Z.
Proof. induction n as [|n IH]; [done|]. cbn [ones]. change (Z.div2 0) with 0%Z. by rewrite Z.odd_0, IH. Qed.

Lemma land_pred_odd a : Z.land (2 * a + 1) (2 * a) = (2 * a)%Z.
Proof.
  apply Z.bits_inj'. intros i Hi. rewrite Z.land_spec. destruct (Z.eq_dec i 0%Z) as [->|Hn].
  - by rewrite Z.testbit_even_0, andb_false_r.
  - replace i with (Z.succ (i - 1)) by lia. rewrite Z.testbit_odd_succ, Z.testbit_even_succ by lia. by rewrite andb_diag.
Qed.

Lemma land_pred_even a : Z.land (2 * a) (2 * a - 1) = (2 * Z.land a (a - 1))%Z.
Proof.
  apply Z.bits_inj'. intros i Hi. rewrite Z.land_spec. replace (2 * a - 1)%Z with (2 * (a - 1) + 1)%Z by lia.
  destruct (Z.eq_dec i 0%Z) as [->|Hn].
  - by rewrite !Z.testbit_even_0.
  - replace i with (Z.succ (i - 1)) by lia. by rewrite Z.testbit_odd_succ, !Z.testbit_even_succ, Z.land_spec by lia.
Qed.

Lemma div2_twice a : Z.div2 (2 * a) = a.
Proof. rewrite Z.div2_div, Z.mul_comm. by apply Z.div_mul. Qed.

(** [m & (m - 1)] clears the lowest one. *)
Lemma ones_clear n m : (0 < m < 2 ^ Z.of_nat n)%Z -> ones n (Z.land m (m - 1)) = (ones n m - 1)%Z /\ (0 <= Z.land m (m - 1) < m)%Z.
Proof.
  revert m. induction n as [|n IH]; intros m Hm; [cbn in Hm; lia|]. rewrite Nat2Z.inj_succ, Z.pow_succ_r in Hm by lia.
  pose proof (Z.div2_odd m) as Hd. set (a := Z.div2 m) in *. cbn [ones]. fold a. destruct (Z.odd m); cbn [Z.b2z] in *.
  - rewrite Hd. replace (2 * a + 1 - 1)%Z with (2 * a)%Z by lia. rewrite land_pred_odd. split; [|lia].
    rewrite Z.odd_mul, andb_false_l, div2_twice. cbn [Z.b2z]. replace (Z.div2 (2 * a + 1)) with a; [lia|]. by rewrite <- Hd.
  - replace m with (2 * a)%Z by lia. rewrite land_pred_even. destruct (IH a) as [H1 H2]; [lia|]. split; [|lia].
    rewrite Z.odd_mul, andb_false_l, div2_twice, H1. cbn [Z.b2z]. replace (Z.div2 (2 * a)) with a; [lia|]. by rewrite div2_twice.
Qed.

Lemma count_mask_ones m count : (0 <= m < 2 ^ 64)%Z -> count_mask m count = Ret (count + ones 64 m)%Z.
Proof.
  intros Hm. unfold count_mask. assert (ones 64 m < 65)%Z as Hf by (pose proof (ones_range 64 m); lia). change 65%Z with (Z.of_nat 65) in Hf.
  revert Hf. generalize 65. intros fuel. revert m count Hm. induction fuel as [|fuel IH]; intros m count Hm Hf; [pose proof (ones_range 64 m); lia|].
  cbn [while mask_body]. destruct (Z.eqb_spec m 0) as [->|Hne].
  - rewrite bind_ret, ones_0. f_equal. lia.
  - rewrite bind_ret. unfold u64. rewrite wrapu_small by lia. destruct (ones_clear 64 m) as [H1 H2]; [lia|]. rewrite IH; [|lia|rewrite H1; lia].
    rewrite H1. f_equal. lia.
Qed.

(** the processors.  The count is the number of ones in the masks of the
    affinity set, but not more than the runtime's number. *)
Theorem count_cpus_ones cpuSet NumCPU :
  Forall (fun m => 0 <= m < 2 ^ 64)%Z cpuSet ->
  CountAvailableCPUs (Some cpuSet) NumCPU = Ret (Z.min NumCPU (foldr Z.add 0%Z (map (ones 64) cpuSet))).
Proof.
  intros H. unfold CountAvailableCPUs. assert (forall c, count_masks cpuSet c = Ret (c + foldr Z.add 0%Z (map (ones 64) cpuSet))%Z) as Hc.
  { induction H as [|m ms Hm _ IH]; intros c; cbn [count_masks map foldr]; [f_equal; lia|]. rewrite count_mask_ones, bind_ret, IH by done. f_equal. lia. }
  rewrite Hc, bind_ret. f_equal. destruct (Z.ltb_spec NumCPU (0 + foldr Z.add 0%Z (map (ones 64) cpuSet))); lia.
Qed.

Lemma count_cpus_ones_witness : CountAvailableCPUs (Some [0x15; 0; 2 ^ 63]%Z) 8 = Ret 4%Z.
Proof. rewrite (count_cpus_ones [0x15; 0; 2 ^ 63]%Z 8); [vm_compute; reflexivity|]. repeat constructor; vm_compute; done. Defined.

(** ** Properties of the version of the kernel *)

(** A component of a version. *)
Definition ver_num (v : bytes) : Prop := is_num v /\ (dec v <= MaxInt64)%Z.

Lemma sign_digit v t : is_num v -> sign (v ++ t) = (false, v ++ t).
Proof.
  intros [Hne Hv]. destruct v as [|c v]; [done|]. apply Forall_cons in Hv as [Hc _]. unfold sign. cbn [app].
  destruct (beq c MINUS) eqn:E; [apply beq_true in E; by subst c|]. destruct (beq c PLUS) eqn:E'; [apply beq_true in E'; by subst c|]. done.
Qed.

Lemma signed_num v : (dec v <= MaxInt64)%Z -> signed false v = Some (dec v).
Proof. intros H. unfold signed. by rewrite (proj2 (Z.leb_le _ _)). Qed.

Lemma Atoi_num v : ver_num v -> Atoi v = (dec v, true).
Proof.
  intros [Hv Hle]. unfold Atoi. pose proof (sign_digit v [] Hv) as Hs. rewrite app_nil_r in Hs. rewrite Hs. destruct Hv as [Hne Hv]. rewrite bool_decide_eq_false_2 by done. cbn [negb andb].
  rewrite (proj2 (forallb_forall is_digit v)) by (intros c Hc; eapply Forall_forall in Hv; [exact Hv|by apply list_elem_of_In]).
  by rewrite signed_num.
Qed.

(** A number with something after it that is not a digit. *)
Lemma Atoi_suffix v c t : is_num v -> is_digit c = false -> (Atoi (v ++ c :: t)).2 = false.
Proof.
  intros Hv Hc. unfold Atoi. rewrite sign_digit by done.
  rewrite forallb_app. cbn [forallb]. by rewrite Hc, !andb_false_r.
Qed.

Lemma Atoi_value v c t : is_num v -> is_digit c = false -> (Atoi (v ++ c :: t)).1 = 0%Z.
Proof.
  intros Hv Hc. unfold Atoi. rewrite sign_digit by done. rewrite forallb_app. cbn [forallb]. by rewrite Hc, !andb_false_r.
Qed.

Lemma Sscanf_num v s : ver_num v -> stops is_digit s -> Sscanf_d (v ++ s) = Some (dec v).
Proof.
  intros [Hv Hle] Hs. unfold Sscanf_d. rewrite sign_digit by done.
  destruct Hv as [Hne Hv]. rewrite span_app by done. cbn [fst]. rewrite signed_num by done. by destruct v.
Qed.

Lemma store_middle (a : list Z) x y z : store (a ++ x :: z) (length a) y = Ret (a ++ y :: z).
Proof. rewrite store_Ret by (rewrite length_app; cbn; lia). by rewrite insert_app_r_alt, Nat.sub_diag by done. Qed.

Lemma ver_loop_nums n nums rest z : forall a : list Z,
  Forall ver_num nums ->
  ver_loop n (length a) (nums ++ rest) (a ++ replicate (length nums) 0%Z ++ z) =
  ver_loop n (length a + length nums) rest (a ++ map dec nums ++ z).
Proof.
  induction nums as [|v nums IH]; intros a H; cbn [length replicate map app].
  - by rewrite Nat.add_0_r.
  - apply Forall_cons in H as [Hv Hn]. cbn [ver_loop]. rewrite Atoi_num, store_middle, bind_ret by done.
    specialize (IH (a ++ [dec v]) Hn). rewrite length_app, <- !app_assoc in IH. cbn [length app] in IH.
    replace (length a + 1) with (S (length a)) in IH by lia. rewrite IH. f_equal. lia.
Qed.

(** The release has the components [nums], the last number [d] and a suffix. *)
Definition release_of (nums : list bytes) (d suffix : bytes) : bytes := join DOT (nums ++ [d ++ suffix]).
Definition suffix_ok (suffix : bytes) : Prop := stops is_digit suffix /\ Forall (fun c => c <> DOT) suffix.

Lemma num_no_dot v : is_num v -> Forall (fun c => beq c DOT = false) v.
Proof. intros [_ H]. eapply Forall_impl; [exact H|]. intros c Hc. destruct (beq c DOT) eqn:E; [|done]. apply beq_true in E. by subst c. Qed.

Lemma no_dot_split l : Forall (fun c => c <> DOT) l -> Forall (fun c => beq c DOT = false) l.
Proof. intros H. eapply Forall_impl; [exact H|]. intros c Hc. by apply beq_false. Qed.

Lemma zero_suffix s t : Forall (fun c => c <> NUL) s -> zeroSuffixBufToString (s ++ NUL :: t) = s.
Proof.
  intros H. unfold zeroSuffixBufToString. rewrite span_app; [done| |done]. eapply Forall_impl; [exact H|]. intros c Hc. by rewrite (proj2 (beq_false _ _)).
Qed.

Lemma digit_not_nul c : is_digit c = true -> c <> NUL.
Proof. by intros H ->. Qed.

Lemma join_Forall (P : byte -> Prop) sep l : P sep -> Forall (Forall P) l -> Forall P (join sep l).
Proof.
  intros Hs H. induction H as [|a l Ha Hl IH]; [constructor|]. destruct l as [|b l]; [done|]. rewrite join_cons by done.
  apply Forall_app. split; [done|]. by constructor.
Qed.

Lemma release_no_nul nums d suffix :
  Forall ver_num nums -> ver_num d -> Forall (fun c => c <> NUL) suffix -> Forall (fun c => c <> NUL) (release_of nums d suffix).
Proof.
  intros Hn Hd Hs. assert (forall v, ver_num v -> Forall (fun c => c <> NUL) v) as Hv.
  { intros v [[_ Hv] _]. eapply Forall_impl; [exact Hv|]. apply digit_not_nul. }
  apply join_Forall; [done|]. apply Forall_app. split; [eapply Forall_impl; [exact Hn|exact Hv]|]. constructor; [|done]. apply Forall_app. auto.
Qed.

Lemma Split_no_sep sep s : Forall (Forall (fun c => beq c sep = false)) (Split sep s).
Proof.
  unfold Split. assert (forall cur, Forall (fun c => beq c sep = false) cur -> Forall (Forall (fun c => beq c sep = false)) (split_from sep cur s)) as H; [|by apply H].
  induction s as [|c s IH]; intros cur Hc; cbn [split_from]; [constructor; [by apply Forall_rev|done]|].
  destruct (beq c sep) eqn:E; [|apply IH; by constructor]. constructor; [by apply Forall_rev|]. by apply IH.
Qed.

Lemma ver_loop_last nums d suffix :
  Forall ver_num nums -> ver_num d -> stops is_digit suffix ->
  ver_loop (S (length nums)) 0 (nums ++ [d ++ suffix]) (replicate (S (length nums)) 0%Z) = Ret (map dec (nums ++ [d]), true).
Proof.
  intros Hn Hd Hs. pose proof (ver_loop_nums (S (length nums)) nums [d ++ suffix] [0%Z] [] Hn) as H. cbn [length app] in H.
  rewrite replicate_S_end. cbn [Nat.add] in H. rewrite H. cbn [ver_loop].
  rewrite map_app. cbn [map]. pose proof (store_middle (map dec nums) 0%Z) as Hst. rewrite length_map in Hst.
  destruct suffix as [|c t].
  - rewrite app_nil_r, Atoi_num by done. by rewrite Hst, bind_ret.
  - pose proof (Atoi_suffix d c t (proj1 Hd) Hs) as Ha. destruct (Atoi (d ++ c :: t)) as [x ok]. cbn [snd] in Ha. subst ok.
    rewrite Hst, bind_ret. rewrite (proj2 (Nat.ltb_ge _ _)) by lia. rewrite (Sscanf_num d (c :: t)) by done.
    pose proof (store_middle (map dec nums) x (dec d) []) as Hst'. rewrite length_map in Hst'. rewrite Hst', bind_ret.
    rewrite (proj2 (Z.ltb_ge _ _)); [done|]. apply dec_from_nonneg; [apply Hd|done].
Qed.

(** the version of the kernel.  A release of numbers separated by dots, with
    any suffix without dots after the last number, gives exactly the numbers. *)
Theorem uname_release_parsed ToLower sysname machine pad nums d suffix info :
  Forall ver_num nums -> ver_num d -> suffix_ok suffix -> Forall (fun c => c <> NUL) suffix ->
  let rel := release_of nums d suffix in
  setUnameOSInfo ToLower (Some (sysname, rel ++ NUL :: pad, machine)) info =
  Ret (mkOSInfo (zeroSuffixBufToString sysname) (ToLower (zeroSuffixBufToString sysname)) rel (map dec (nums ++ [d])) (zeroSuffixBufToString machine), None).
Proof.
  intros Hn Hd [Hs Hdot] Hnul rel. unfold setUnameOSInfo. rewrite zero_suffix by by apply release_no_nul.
  subst rel. unfold release_of. rewrite Split_join; [|by destruct nums|].
  - rewrite length_app. cbn [length]. rewrite Nat.add_1_r, ver_loop_last by done. by rewrite bind_ret.
  - apply Forall_app. split; [eapply Forall_impl; [exact Hn|]; intros v [Hv _]; by apply num_no_dot|]. constructor; [|done].
    apply Forall_app. split; [apply num_no_dot, Hd|by apply no_dot_split].
Qed.

Lemma uname_release_parsed_witness :
  setUnameOSInfo (fun s => s) (Some (bs "Linux", bs "5.15.0-91-generic" ++ [NUL; NUL], bs "x86_64")) OSInfo0 =
  Ret (mkOSInfo (bs "Linux") (bs "Linux") (bs "5.15.0-91-generic") [5; 15; 0]%Z (bs "x86_64"), None).
Proof.
  apply (uname_release_parsed (fun s => s) (bs "Linux") (bs "x86_64") [NUL] [bs "5"; bs "15"] (bs "0") (bs "-91-generic") OSInfo0);
    repeat constructor; done.
Defined.

(** a release with a dot after the suffix, as the kernels of several
    distributions have it.  The version is rejected, the name of the machine is
    not set, and the number before the suffix counts as 0. *)
Theorem uname_release_dotted ToLower sysname machine pad nums d c t rest info :
  Forall ver_num nums -> ver_num d -> is_digit c = false -> Forall (fun x => x <> DOT) (c :: t) ->
  Forall (fun x => x <> NUL) (c :: t) -> Forall (fun x => x <> NUL) rest ->
  exists info', setUnameOSInfo ToLower (Some (sysname, (release_of nums d (c :: t) ++ DOT :: rest) ++ NUL :: pad, machine)) info =
  Ret (info', Some ErrParse) /\ OSMachine info' = OSMachine info /\ OSReleaseVer info' !! length nums = Some 0%Z.
Proof.
  intros Hn Hd Hc Hdot Hnul Hrest. unfold setUnameOSInfo. rewrite zero_suffix.
  2:{ apply Forall_app. split; [by apply release_no_nul|by constructor]. }
  assert (exists parts, Split DOT (release_of nums d (c :: t) ++ DOT :: rest) = nums ++ (d ++ c :: t) :: parts /\ parts <> []) as (parts & -> & Hp).
  { exists (Split DOT rest). split; [|apply split_from_nonempty]. unfold release_of.
    rewrite <- (join_Split DOT rest []) at 1. cbn [rev app]. fold (Split DOT rest).
    assert (Split DOT rest <> []) as Hne by apply split_from_nonempty.
    assert (forall l m : list bytes, l <> [] -> m <> [] -> join DOT l ++ DOT :: join DOT m = join DOT (l ++ m)) as Hj.
    { intros l m Hl Hm. induction l as [|a l IH]; [done|]. destruct l as [|b l]; [cbn [app]; by rewrite (join_cons DOT a m)|].
      cbn [app]. rewrite (join_cons DOT a (b :: l)), (join_cons DOT a (b :: l ++ m)) by done. rewrite <- !app_assoc. do 2 f_equal. by apply IH. }
    rewrite Hj by (done || by destruct nums). rewrite <- app_assoc. cbn [app]. rewrite Split_join; [done|intros E; by apply app_eq_nil in E as [_ E]|].
    apply Forall_app. split; [eapply Forall_impl; [exact Hn|]; intros v [Hv _]; by apply num_no_dot|]. constructor.
    - apply Forall_app. split; [apply num_no_dot, Hd|by apply no_dot_split].
    - apply Split_no_sep. }
  rewrite length_app. cbn [length]. set (n := length nums + S (length parts)).
  pose proof (ver_loop_nums n nums ((d ++ c :: t) :: parts) (0%Z :: replicate (length parts) 0%Z) [] Hn) as H. cbn [length app] in H.
  subst n. rewrite replicate_add. cbn [replicate]. rewrite H. cbn [ver_loop Nat.add].
  pose proof (Atoi_suffix d c t (proj1 Hd) Hc) as Ha. pose proof (Atoi_value d c t (proj1 Hd) Hc) as Hv.
  destruct (Atoi (d ++ c :: t)) as [x ok]. cbn [fst snd] in Ha, Hv. subst ok x.
  pose proof (store_middle (map dec nums) 0%Z 0%Z (replicate (length parts) 0%Z)) as Hst. rewrite length_map in Hst. rewrite Hst, bind_ret.
  rewrite (proj2 (Nat.ltb_lt _ _)) by (destruct parts; [done|cbn; lia]). rewrite bind_ret. eexists. split; [reflexivity|]. split; [done|].
  cbn [OSReleaseVer]. rewrite lookup_app_r; rewrite length_map; [|done]. by rewrite Nat.sub_diag.
Qed.

Lemma uname_release_dotted_witness :
  exists info', setUnameOSInfo (fun s => s) (Some (bs "Linux", bs "5.14.0-427.el9.x86_64" ++ [NUL], bs "x86_64")) OSInfo0 = Ret (info', Some ErrParse) /\
    OSMachine info' = [] /\ OSReleaseVer info' !! 2 = Some 0%Z.
Proof.
  apply (uname_release_dotted (fun s => s) (bs "Linux") (bs "x86_64") [] [bs "5"; bs "14"] (bs "0") Init.Byte.x2d (bs "427") (bs "el9.x86_64") OSInfo0);
    repeat constructor; done.
Defined.

(** ** Properties of the release file *)

(** A line [key="value"]. *)
Definition row_text (r : bytes * bytes) : bytes := r.1 ++ EQUALS :: DQUOTE :: r.2 ++ [DQUOTE].
Definition row_ok (r : bytes * bytes) : Prop :=
  fword r.1 /\ 2 <= length r.1 /\ Forall (fun c => c <> EQUALS) r.1 /\ r.2 <> [] /\ Forall (fun c => c <> NL) r.2 /\ (Z.of_nat (length (row_text r)) < MaxScanTokenSize)%Z.

Lemma release_line_row r m : row_ok r -> release_line (drop_cr (row_text r)) m = <[r.1 := r.2]> m.
Proof.
  destruct r as [k v]. intros (Hk & Hl & He & Hv & _ & _). cbn [fst snd] in *. unfold row_text. cbn [fst snd].
  assert (k ++ EQUALS :: DQUOTE :: v ++ [DQUOTE] = (k ++ EQUALS :: DQUOTE :: v) ++ [DQUOTE]) as E by (rewrite <- app_assoc; done).
  assert (drop_cr (k ++ EQUALS :: DQUOTE :: v ++ [DQUOTE]) = k ++ EQUALS :: DQUOTE :: v ++ [DQUOTE]) as -> by (unfold drop_cr; by rewrite E, last_snoc).
  unfold release_line. rewrite span_app; [|eapply Forall_impl; [exact He|]; intros c Hc; by rewrite (proj2 (beq_false _ _))|done].
  rewrite (proj2 (Nat.leb_gt _ _)) by lia. rewrite bool_decide_eq_false_2 by done. cbn [orb].
  rewrite TrimSpace_word by done. rewrite (TrimSpace_ends DQUOTE v DQUOTE) by done. unfold strip_quotes. rewrite beq_refl, last_snoc, beq_refl, removelast_last.
  rewrite !bool_decide_eq_false_2; [done|done|by destruct Hk].
Qed.

Lemma Split_lines rows : Forall row_ok rows -> Split NL (concat (map (fun r => row_text r ++ [NL]) rows)) = map row_text rows ++ [[]].
Proof.
  intros H. unfold Split. induction H as [|r rows Hr _ IH]; [done|]. cbn [map concat]. rewrite <- app_assoc. rewrite split_from_app.
  - cbn [app split_from]. rewrite beq_refl, app_nil_r, rev_involutive. f_equal. exact IH.
  - destruct r as [k v]. destruct Hr as ([_ Hk] & _ & _ & _ & Hv & _). unfold row_text. cbn [fst snd] in *. apply Forall_app. split.
    + eapply Forall_impl; [exact Hk|]. intros c Hc. destruct (beq c NL) eqn:E; [|done]. apply beq_true in E. by subst c.
    + repeat constructor. apply Forall_app. split; [|by repeat constructor]. eapply Forall_impl; [exact Hv|]. intros c Hc. by apply beq_false.
Qed.

(** the release file.  A file of lines [key="value"] is parsed to exactly the
    values of its keys, the last one of a key that is there more than once. *)
Theorem os_release_parsed rows :
  Forall row_ok rows ->
  parseLinuxOsReleaseFile (Some (concat (map (fun r => row_text r ++ [NL]) rows))) = Some (foldl (fun m r => <[r.1 := r.2]> m) ∅ rows).
Proof.
  intros H. unfold parseLinuxOsReleaseFile. assert (scan_text (concat (map (fun r => row_text r ++ [NL]) rows)) = map row_text rows) as Hs.
  { unfold scan_text. rewrite Split_lines by done. rewrite last_snoc, bool_decide_eq_true_2 by done. apply removelast_last. }
  unfold too_long. rewrite Hs. assert (existsb (fun l => MaxScanTokenSize <=? Z.of_nat (length l))%Z (map row_text rows) = false) as ->.
  { clear Hs. induction H as [|r rows Hr _ IH]; [done|]. cbn [map existsb]. rewrite IH, orb_false_r. apply Z.leb_gt, Hr. }
  f_equal. clear Hs. generalize (∅ : gmap bytes bytes). induction H as [|r rows Hr _ IH]; intros m; [done|]. cbn [map foldl].
  by rewrite release_line_row, IH.
Qed.

Lemma os_release_parsed_witness :
  (parseLinuxOsReleaseFile (Some (concat (map (fun r => row_text r ++ [NL]) [(bs "ID", bs "a b"); (bs "NAME", bs "c")]))) ≫= lookup (bs "ID")) = Some (bs "a b").
Proof.
  rewrite (os_release_parsed [(bs "ID", bs "a b"); (bs "NAME", bs "c")]); [reflexivity|].
  repeat apply Forall_cons_2; try apply Forall_nil_2; (split; [split; [done|by repeat constructor]|]); (split; [cbn; lia|]);
    (split; [by repeat constructor|]); (split; [done|]); (split; [by repeat constructor|]); apply Z.ltb_lt; reflexivity.
Defined.
End OsUtils.
