(* ===== verification/OwnMetrics.v ===== *)
(** The metrics about the program itself (lsvmi/go_internal_metrics.go and
    lsvmi/internal_metrics_process.go): the memory of the Go runtime, and the
    size and share of the processor of the own process.

    The statistics of the runtime and the contents of the own statistics file
    are arguments of each snapshot. *)

From Stdlib Require Import ZArith Lia.
From Stdlib Require Import Floats.SpecFloat.
From stdpp Require Import base tactics numbers strings gmap list.
From S2P Require Import Prelude Scan GoTime GoFloat MetricsCommon PidTidList PidStat PidMetrics.

Module OwnMetrics.
Import MetricsCommon.

Section own.
Context (instance hostname : bytes).

(** ** The Go runtime *)

(** The fields of [runtime.MemStats] that are used. *)
Record MemStats := mkMem { Sys : Z; HeapAlloc : Z; HeapSys : Z; Mallocs : Z; Frees : Z; NumGC : Z }.
Definition MemStats0 : MemStats := mkMem 0 0 0 0 0 0.

Definition GO_NUM_GOROUTINE_METRIC_INDEX : nat := 0.
Definition GO_MEM_SYS_BYTES_METRIC_INDEX : nat := 1.
Definition GO_MEM_HEAP_BYTES_METRIC_INDEX : nat := 2.
Definition GO_MEM_HEAP_SYS_BYTES_METRIC_INDEX : nat := 3.
Definition GO_MEM_MALLOCS_DELTA_METRIC_INDEX : nat := 4.
Definition GO_MEM_FREE_DELTA_METRIC_INDEX : nat := 5.
Definition GO_MEM_IN_USE_OBJECT_COUNT_METRIC_INDEX : nat := 6.
Definition GO_MEM_NUM_GC_DELTA_METRIC_INDEX : nat := 7.
Definition goInternalMetricsNameMap : list bytes :=
  map bs ["lsvmi_go_num_goroutine"; "lsvmi_go_mem_sys_bytes"; "lsvmi_go_mem_heap_bytes"; "lsvmi_go_mem_heap_sys_bytes";
          "lsvmi_go_mem_malloc_delta"; "lsvmi_go_mem_free_delta"; "lsvmi_go_mem_in_use_object_count"; "lsvmi_go_mem_gc_delta"]%string.

Record GoInternalMetrics := mkGo {
  numGoRoutine : Z;
  memStats : list MemStats;
  go_currIndex : nat;
  go_metricsCache : option (list bytes)
}.
Definition NewGoInternalMetrics : GoInternalMetrics := mkGo 0 [MemStats0; MemStats0] 0 None.

Definition go_SnapStats (ms : MemStats) (goroutines : Z) (gim : GoInternalMetrics) : outcome GoInternalMetrics :=
  stats ← store (memStats gim) (go_currIndex gim) ms;
  Ret (mkGo goroutines stats (go_currIndex gim) (go_metricsCache gim)).

Definition go_updateMetricsCache : list bytes := map (fun name => metric name instance hostname []) goInternalMetricsNameMap.

Definition go_generateMetrics (tsSuffix : bytes) (gim : GoInternalMetrics) : outcome (GoInternalMetrics * list bytes) :=
  let cache := default go_updateMetricsCache (go_metricsCache gim) in
  curr ← must (memStats gim !! go_currIndex gim);
  prev ← must (memStats gim !! (1 - go_currIndex gim));
  let put index val := line (default [] (cache !! index)) val tsSuffix in
  let lines :=
    [put GO_NUM_GOROUTINE_METRIC_INDEX (Itoa (numGoRoutine gim));
     put GO_MEM_SYS_BYTES_METRIC_INDEX (FormatUint (Sys curr));
     put GO_MEM_HEAP_BYTES_METRIC_INDEX (FormatUint (HeapAlloc curr));
     put GO_MEM_HEAP_SYS_BYTES_METRIC_INDEX (FormatUint (HeapSys curr));
     put GO_MEM_IN_USE_OBJECT_COUNT_METRIC_INDEX (FormatUint (u64 (Mallocs curr - Frees curr)));
     put GO_MEM_MALLOCS_DELTA_METRIC_INDEX (FormatUint (u64 (Mallocs curr - Mallocs prev)));
     put GO_MEM_FREE_DELTA_METRIC_INDEX (FormatUint (u64 (Frees curr - Frees prev)));
     put GO_MEM_NUM_GC_DELTA_METRIC_INDEX (FormatUint (u32 (NumGC curr - NumGC prev)))] in
  Ret (mkGo (numGoRoutine gim) (memStats gim) (1 - go_currIndex gim) (Some cache), lines).

(** ** The own process *)

Record ProcessInternalMetrics := mkProcess {
  p_pidStat : list (option PidStat.PidStat);
  p_statsTs : list Time;
  p_currIndex : nat;
  p_metrics : option (list bytes)
}.

(** [None] on systems other than Linux. *)
Definition NewProcessInternalMetrics (OSNameNorm : bytes) : option ProcessInternalMetrics :=
  if bool_decide (OSNameNorm = bs "linux") then Some (mkProcess [None; None] [zeroTime; zeroTime] 0 None) else None.

(** [content] is what is read from the statistics file of the process, [ts] the
    time after it. *)
Definition p_SnapStats (content : read_result) (ts : Time) (pim : ProcessInternalMetrics) : outcome ProcessInternalMetrics :=
  o ← must (p_pidStat pim !! p_currIndex pim);
  r ← PidStat.Parse content (default PidStat.NewPidStat o);
  pidStat ← store (p_pidStat pim) (p_currIndex pim) (match r with inl _ => None | inr st => Some st end);
  statsTs ← store (p_statsTs pim) (p_currIndex pim) ts;
  Ret (mkProcess pidStat statsTs (p_currIndex pim) (p_metrics pim)).

(** Size, resident set, share of the processor, threads. *)
Definition p_updateMetricsCache : list bytes :=
  map (fun name => metric (bs name) instance hostname []) ["lsvmi_proc_vsize"; "lsvmi_proc_rss"; "lsvmi_proc_pcpu"; "lsvmi_proc_num_threads"]%string.

Context (LinuxClktckSec : spec_float) (pagesize : Z).

Definition own_pcpu (currNF prevNF : list Z) (dTime : spec_float) : outcome bytes :=
  cu ← must (currNF !! PidMetrics.PID_STAT_UTIME); cs ← must (currNF !! PidMetrics.PID_STAT_STIME);
  pu ← must (prevNF !! PidMetrics.PID_STAT_UTIME); ps ← must (prevNF !! PidMetrics.PID_STAT_STIME);
  let dTimeCpu := f64_mul (f64_of_int (u64 (cu + cs - pu - ps))) LinuxClktckSec in
  Ret (FormatFloat 1 (f64_mul (f64_div dTimeCpu dTime) (f64_of_int 100))).

Definition p_generateMetrics (tsSuffix : bytes) (pim : ProcessInternalMetrics) : outcome (ProcessInternalMetrics * list bytes) :=
  curr ← must (p_pidStat pim !! p_currIndex pim);
  prev ← must (p_pidStat pim !! (1 - p_currIndex pim));
  match curr with
  | None => Ret (pim, [])
  | Some curr =>
    let cache := default p_updateMetricsCache (p_metrics pim) in
    let put index val := line (default [] (cache !! index)) val tsSuffix in
    let '(currBSF, currNF) := PidStat.GetData curr in
    vsize ← must (currBSF !! PidMetrics.PID_STAT_VSIZE);
    rss ← must (currNF !! PidMetrics.PID_STAT_RSS);
    threads ← must (currBSF !! PidMetrics.PID_STAT_NUM_THREADS);
    pcpu ← (match prev with
            | None => Ret []
            | Some prev =>
              t ← must (p_statsTs pim !! p_currIndex pim);
              t' ← must (p_statsTs pim !! (1 - p_currIndex pim));
              v ← own_pcpu currNF (PidStat.GetData prev).2 (Seconds (Sub t t'));
              Ret [put 2 v]
            end);
    Ret (mkProcess (p_pidStat pim) (p_statsTs pim) (1 - p_currIndex pim) (Some cache),
         [put 0 vsize; put 1 (FormatUint (u64 (rss * pagesize))); put 3 threads] ++ pcpu)
  end.

(** ** The generations as a whole *)

Fixpoint go_run (snaps : list (MemStats * Z * bytes)) (gim : GoInternalMetrics) : outcome (list (list bytes)) :=
  match snaps with
  | [] => Ret []
  | (ms, n, tsSuffix) :: snaps =>
    gim ← go_SnapStats ms n gim;
    '(gim, lines) ← go_generateMetrics tsSuffix gim;
    rest ← go_run snaps gim;
    Ret (lines :: rest)
  end.

(** The lines of a snapshot after the snapshot [prev]. *)
Definition go_lines (prev curr : MemStats) (goroutines : Z) (tsSuffix : bytes) : list bytes :=
  zip_with (fun name val => line (metric (bs name) instance hostname []) val tsSuffix)
    ["lsvmi_go_num_goroutine"; "lsvmi_go_mem_sys_bytes"; "lsvmi_go_mem_heap_bytes"; "lsvmi_go_mem_heap_sys_bytes";
     "lsvmi_go_mem_in_use_object_count"; "lsvmi_go_mem_malloc_delta"; "lsvmi_go_mem_free_delta"; "lsvmi_go_mem_gc_delta"]%string
    [Itoa goroutines; FormatUint (Sys curr); FormatUint (HeapAlloc curr); FormatUint (HeapSys curr); FormatUint (u64 (Mallocs curr - Frees curr));
     FormatUint (u64 (Mallocs curr - Mallocs prev)); FormatUint (u64 (Frees curr - Frees prev)); FormatUint (u32 (NumGC curr - NumGC prev))].
Fixpoint go_reference (prev : MemStats) (snaps : list (MemStats * Z * bytes)) : list (list bytes) :=
  match snaps with
  | [] => []
  | (ms, n, tsSuffix) :: snaps => go_lines prev ms n tsSuffix :: go_reference ms snaps
  end.

(** the metrics of the runtime.  Every generation has the values of its
    snapshot and the differences to the one before, which is zero for the first,
    whichever of the two buffers they are in. *)
Theorem go_metrics_deltas snaps : go_run snaps NewGoInternalMetrics = Ret (go_reference MemStats0 snaps).
Proof.
  assert (forall prev gim, length (memStats gim) = 2 -> go_currIndex gim < 2 -> memStats gim !! (1 - go_currIndex gim) = Some prev ->
    default go_updateMetricsCache (go_metricsCache gim) = go_updateMetricsCache -> go_run snaps gim = Ret (go_reference prev snaps)) as H; [|apply H; cbn; auto; lia].
  induction snaps as [|[[ms n] tsSuffix] snaps IH]; intros prev gim Hl Hi Hp Hc; [done|]. cbn [go_run go_reference]. unfold go_SnapStats.
  rewrite store_Ret, !bind_ret by lia. unfold go_generateMetrics. cbn [memStats go_currIndex go_metricsCache numGoRoutine]. rewrite Hc.
  rewrite list_lookup_insert_eq by lia. rewrite list_lookup_insert_ne, Hp by lia. cbn [must]. rewrite !bind_ret. cbv beta iota.
  rewrite (IH ms); [by rewrite bind_ret|cbn; by rewrite length_insert|cbn; lia| |done]. cbn [memStats go_currIndex].
  replace (1 - (1 - go_currIndex gim)) with (go_currIndex gim) by lia. by rewrite list_lookup_insert_eq by lia.
Qed.

Fixpoint p_run (snaps : list (read_result * Time * bytes)) (pim : ProcessInternalMetrics) : outcome (list (list bytes)) :=
  match snaps with
  | [] => Ret []
  | (content, ts, tsSuffix) :: snaps =>
    pim ← p_SnapStats content ts pim;
    '(pim, lines) ← p_generateMetrics tsSuffix pim;
    rest ← p_run snaps pim;
    Ret (lines :: rest)
  end.

(** The lines of the statistics [curr] of the time [t] after [prev]. *)
Definition p_lines (prev : option (PidStat.PidStat * Time)) (curr : PidStat.PidStat) (t : Time) (tsSuffix : bytes) : list bytes :=
  let put name val := line (metric (bs name) instance hostname []) val tsSuffix in
  let '(bsf, nf) := PidStat.GetData curr in
  [put "lsvmi_proc_vsize" (bsf !!! PidMetrics.PID_STAT_VSIZE);
   put "lsvmi_proc_rss" (FormatUint (u64 (nf !!! PidMetrics.PID_STAT_RSS * pagesize)));
   put "lsvmi_proc_num_threads" (bsf !!! PidMetrics.PID_STAT_NUM_THREADS)]%string ++
  match prev with
  | None => []
  | Some (p, t') =>
    let pf := (PidStat.GetData p).2 in
    let ticks := u64 (nf !!! PidMetrics.PID_STAT_UTIME + nf !!! PidMetrics.PID_STAT_STIME - pf !!! PidMetrics.PID_STAT_UTIME - pf !!! PidMetrics.PID_STAT_STIME) in
    [put "lsvmi_proc_pcpu"%string (FormatFloat 1 (f64_mul (f64_div (f64_mul (f64_of_int ticks) LinuxClktckSec) (Seconds (Sub t t'))) (f64_of_int 100)))]
  end.

(** The same with the last statistics that could be read, and the parser [free]
    that is not in use. *)
Fixpoint p_reference (free : option PidStat.PidStat) (prev : option (PidStat.PidStat * Time)) (snaps : list (read_result * Time * bytes))
    : outcome (list (list bytes)) :=
  match snaps with
  | [] => Ret []
  | (content, ts, tsSuffix) :: snaps =>
    r ← PidStat.Parse content (default PidStat.NewPidStat free);
    '(lines, free, prev) ← Ret (match r with
      | inl _ => ([], None, prev)
      | inr st => (p_lines prev st ts tsSuffix, fst <$> prev, Some (st, ts))
      end);
    rest ← p_reference free prev snaps;
    Ret (lines :: rest)
  end.

Lemma own_pcpu_spec (curr prev : list Z) dTime :
  length curr = PidStat.PID_STAT_ULONG_NUM_FIELDS -> length prev = PidStat.PID_STAT_ULONG_NUM_FIELDS ->
  own_pcpu curr prev dTime = Ret (FormatFloat 1 (f64_mul (f64_div (f64_mul (f64_of_int (u64 (curr !!! PidMetrics.PID_STAT_UTIME + curr !!! PidMetrics.PID_STAT_STIME -
    prev !!! PidMetrics.PID_STAT_UTIME - prev !!! PidMetrics.PID_STAT_STIME))) LinuxClktckSec) dTime) (f64_of_int 100))).
Proof.
  intros Hc Hp. unfold own_pcpu. rewrite !(PidMetrics.at_ok _ _ _ Hc), !(PidMetrics.at_ok _ _ _ Hp) by (vm_compute; lia). by rewrite !bind_ret.
Qed.

(** The state of the two buffers: the parser in the current one, the statistics
    and their time in the other. *)
Record p_repr (pim : ProcessInternalMetrics) (free : option PidStat.PidStat) (prev : option (PidStat.PidStat * Time)) : Prop := mkRepr {
  pr_len : length (p_pidStat pim) = 2 /\ length (p_statsTs pim) = 2 /\ p_currIndex pim < 2;
  pr_free : p_pidStat pim !! p_currIndex pim = Some free;
  pr_prev : p_pidStat pim !! (1 - p_currIndex pim) = Some (fst <$> prev);
  pr_ts : forall p t, prev = Some (p, t) -> p_statsTs pim !! (1 - p_currIndex pim) = Some t;
  pr_cache : default p_updateMetricsCache (p_metrics pim) = p_updateMetricsCache;
  pr_sized : (forall p, free = Some p -> PidStat.sized p) /\ (forall p t, prev = Some (p, t) -> PidStat.sized p)
}.

(** One generation after a snapshot that could be parsed. *)
Lemma p_generate_spec tsSuffix ts st prev (pim : ProcessInternalMetrics) :
  p_repr pim (Some st) prev -> p_statsTs pim !! p_currIndex pim = Some ts ->
  exists pim', p_generateMetrics tsSuffix pim = Ret (pim', p_lines prev st ts tsSuffix) /\ p_repr pim' (fst <$> prev) (Some (st, ts)).
Proof.
  intros [(L1 & L2 & L3) Hf Hp Ht Hc [Hs1 Hs2]] Hts. pose proof (Hs1 st eq_refl) as [B N]. unfold p_generateMetrics. rewrite Hf, Hp, Hc. cbn [must].
  rewrite !bind_ret. unfold p_lines. cbn [PidStat.GetData].
  rewrite !(PidMetrics.at_ok _ _ _ B), !(PidMetrics.at_ok _ _ _ N) by (vm_compute; lia). rewrite !bind_ret.
  assert (forall c, p_repr (mkProcess (p_pidStat pim) (p_statsTs pim) (1 - p_currIndex pim) (Some c)) (fst <$> prev) (Some (st, ts)) <-> c = p_updateMetricsCache) as Hr.
  { intros c. split; [by intros []|]. intros ->. split; cbn; try done; [split_and!; [done|done|lia]|replace (1 - (1 - p_currIndex pim)) with (p_currIndex pim) by lia; done| |].
    - intros p t [= <- <-]. by replace (1 - (1 - p_currIndex pim)) with (p_currIndex pim) by lia.
    - split; [intros p Hq; apply fmap_Some in Hq as ([p' t'] & -> & ->); by eapply Hs2|by intros p t [= <- <-]]. }
  destruct prev as [[p t']|]; cbn [fmap option_fmap option_map fst].
  - rewrite Hts, (Ht p t' eq_refl). cbn [must]. rewrite !bind_ret. rewrite own_pcpu_spec; [|done|by apply (Hs2 p t')]. rewrite !bind_ret.
    eexists. split; [reflexivity|]. by apply Hr.
  - rewrite bind_ret. eexists. split; [reflexivity|]. by apply Hr.
Qed.

(** the metrics of the own process.  The two buffers with the index that is
    only turned over after a successful snapshot do what one record of the last
    statistics does: a snapshot that cannot be parsed has no lines, and the share
    of the processor after it is measured from the last one that could be; no
    sequence of file contents makes it panic. *)
Theorem process_metrics_last snaps :
  exists pim out, NewProcessInternalMetrics (bs "linux") = Some pim /\ p_run snaps pim = Ret out /\ p_reference None None snaps = Ret out.
Proof.
  enough (forall free prev pim, p_repr pim free prev -> exists out, p_run snaps pim = Ret out /\ p_reference free prev snaps = Ret out) as H.
  { eexists. destruct (H None None (mkProcess [None; None] [zeroTime; zeroTime] 0 None)) as (out & H1 & H2).
    - split; cbn; try done; split; done || lia.
    - exists out. by split_and!. }
  induction snaps as [|[[content ts] tsSuffix] snaps IH]; intros free prev pim Hr; [by eexists|]. cbn [p_run p_reference]. unfold p_SnapStats.
  pose proof Hr as [(L1 & L2 & L3) Hf Hp Ht Hc [Hs1 Hs2]]. rewrite Hf. cbn [must]. rewrite bind_ret.
  assert (PidStat.sized (default PidStat.NewPidStat free)) as Hsz by (destruct free; [by apply Hs1|done]).
  destruct (PidStat.pid_stat_parse_total content _ Hsz) as (r & -> & Hrs). rewrite !bind_ret, !store_Ret, !bind_ret by lia.
  set (pim1 := mkProcess _ _ _ _).
  assert (p_repr pim1 (match r with inl _ => None | inr st => Some st end) prev) as Hr1.
  { split; cbn; rewrite ?length_insert; try done; [by rewrite list_lookup_insert_eq by lia|by rewrite list_lookup_insert_ne by lia| |].
    - intros q t E. rewrite list_lookup_insert_ne by lia. by apply (Ht q).
    - split; [|done]. destruct r; [done|]. by intros q [= <-]. }
  destruct r as [e|st].
  - assert (p_generateMetrics tsSuffix pim1 = Ret (pim1, [])) as ->.
    { unfold p_generateMetrics. rewrite (pr_free _ _ _ Hr1), (pr_prev _ _ _ Hr1). done. }
    rewrite !bind_ret. destruct (IH _ _ _ Hr1) as (out & -> & ->). rewrite !bind_ret. by eexists.
  - destruct (p_generate_spec tsSuffix ts st prev pim1 Hr1) as (pim2 & -> & Hr2); [cbn; by rewrite list_lookup_insert_eq by lia|].
    rewrite !bind_ret. destruct (IH _ _ _ Hr2) as (out & -> & ->). rewrite !bind_ret. by eexists.
Qed.
End own.
End OwnMetrics.
