(* ===== verification/PoolConfig.v ===== *)
(** Building the sending side from the configuration: ParseCreditRateSpec and
    NewCreditFromSpec (lsvmi/rate_controller.go), NewHttpEndpointPool
    (lsvmi/http_endpoint_pool.go) and NewCompressorPool
    (lsvmi/compressor_pool.go).

    A constructor gives an error value, as the code does, or a pool; a nil
    section or a nil endpoint is dereferenced and panics.  [url.Parse],
    [units.RAMInBytes] and the permutation of [rand.Shuffle] are arguments. *)

From Stdlib Require Import ZArith Lia.
From Stdlib Require Import Floats.SpecFloat.
From stdpp Require Import base tactics numbers strings gmap list.
From S2P Require Import Prelude Scan BufPool GoLib GoTime GoFloat RateController EndpointList EndpointPool Compressor GoDuration Config.

Module PoolConfig.
Import Config.

(** ** Errors *)

(** A computation that may return an error. *)
Definition try {E A B} (c : outcome (E + A)) (f : A -> outcome (E + B)) : outcome (E + B) :=
  r ← c; match r with inl e => Ret (inl e) | inr a => f a end.
Notation "'let?' x ':=' c 'in' k" := (try c (fun x => k)) (at level 10, x strict pattern, k at level 200).

Lemma try_inr {E A B} (a : A) (f : A -> outcome (E + B)) : try (Ret (inr a)) f = f a.
Proof. done. Qed.

(** A constructor that ends, with an error or with a value of which [Q] holds. *)
Definition ends {E A} (c : outcome (E + A)) (Q : A -> Prop) : Prop :=
  exists r, c = Ret r /\ match r with inl _ => True | inr a => Q a end.

Lemma ends_try {E A B} (c : outcome (E + A)) (f : A -> outcome (E + B)) (P : A -> Prop) (Q : B -> Prop) :
  ends c P -> (forall a, P a -> ends (f a) Q) -> ends (try c f) Q.
Proof. intros (r & -> & Hr) Hf. unfold try. rewrite bind_ret. destruct r as [e|a]; [by exists (inl e)|by apply Hf]. Qed.

Lemma ends_ret {E A} (a : A) (Q : A -> Prop) : Q a -> ends (Ret (inr a : E + A)) Q.
Proof. intros H. by exists (inr a). Qed.

Lemma ends_error {E A} (e : E) (Q : A -> Prop) : ends (Ret (inl e : E + A)) Q.
Proof. by exists (inl e). Qed.

(** ** Numbers *)

(** The number [m * 10^k], rounded to the nearest [float64]: the quotient has at
    least 64 bits and a sticky bit. *)
Definition decimal_f64 (m k : Z) : spec_float :=
  if (0 <=? k)%Z then f64_of_int (m * 10 ^ k)
  else
    let d := (10 ^ (- k))%Z in
    let s := Z.max 0 (64 + Z.log2 d - Z.log2 m) in
    let n := Z.shiftl m s in
    let sticky := if (n mod d =? 0)%Z then 0%Z else 1%Z in
    binary_normalize 53 1024 (2 * (n / d) + sticky) (- (s + 1)) false.

Definition opp_f64 (neg : bool) (f : spec_float) : spec_float := if neg then SFopp f else f.

(** [strconv.ParseFloat(s, 64)] of a decimal number with an optional sign and an
    optional fraction; [other] is its value elsewhere (exponents, hexadecimal
    numbers, infinities). *)
Definition ParseFloat (other : bytes -> option spec_float) (s : bytes) : option spec_float :=
  let '(neg, t) := GoDuration.sign_of s in
  let '(ip, t) := span is_digit t in
  let fp := match t with c :: t => if beq c DOT then span is_digit t else ([], c :: t) | [] => ([], []) end in
  if bool_decide (fp.2 = []) && negb (bool_decide (ip ++ fp.1 = [])) then
    match decimal_f64 (dec (ip ++ fp.1)) (- Z.of_nat (length fp.1)) with
    | S754_infinity _ => None
    | f => Some (opp_f64 neg f)
    end
  else other s.

Definition COLON : byte := Init.Byte.x3a.

Inductive rate_error := ErrRateFloat | ErrRateInterval (e : GoDuration.error).

Section rate.
Context (other : bytes -> option spec_float).

(** [strings.Index(spec, ":")]: the parts before and after the first colon. *)
Definition rate_parts (spec : bytes) : bytes * bytes :=
  let '(mbps, rest) := span (fun c => negb (beq c COLON)) spec in
  match rest with [] => (spec, bs "1s") | _ :: interval => (mbps, interval) end.

(** The bytes per interval: [int(mbpsf * 1_000_000 / 8 * float64(replenishInt) / float64(1*time.Second))]. *)
Definition rate_value (mbpsf : spec_float) (replenishInt : Z) : Z :=
  int_of_f64 (f64_div (f64_mul (f64_div (f64_mul mbpsf (f64_of_int 1000000)) (f64_of_int 8)) (f64_of_int replenishInt)) (f64_of_int Second)).

Definition ParseCreditRateSpec (spec : bytes) : outcome (rate_error + Z * Z) :=
  let '(mbps, interval) := rate_parts spec in
  match ParseFloat other mbps with
  | None => Ret (inl ErrRateFloat)
  | Some mbpsf =>
    r ← GoDuration.ParseDuration interval;
    Ret (match r with
         | inl e => inl (ErrRateInterval e)
         | inr replenishInt => inr (rate_value mbpsf replenishInt, replenishInt)
         end)
  end.

Definition NewCreditFromSpec (spec : bytes) : outcome (rate_error + RateController.Credit) :=
  let? (replenishValue, replenishInt) := ParseCreditRateSpec spec in
  Ret (inr (RateController.NewCredit replenishValue 0 replenishInt)).
End rate.

Example rate_ex : map (ParseCreditRateSpec (fun _ => None)) [bs "10:100ms"; bs "0.1"; bs "1.5:1m"; bs "x"; bs "1:2"] =
  map Ret [inr (125000, 100000000)%Z; inr (12500, 1000000000)%Z; inr (11250000, 60000000000)%Z; inl ErrRateFloat; inl (ErrRateInterval GoDuration.ErrMissingUnit)].
Proof. vm_compute. reflexivity. Qed.

(** ** The pool of endpoints *)

Definition HTTP_ENDPOINT_POOL_HEALTHY_CHECK_MIN_INTERVAL : Z := Second.
Definition HTTP_ENDPOINT_POOL_HEALTHY_POLL_INTERVAL : Z := 500 * Millisecond.
Definition HTTP_ENDPOINT_POOL_HEALTH_CHECK_ERR_LOG_INTERVAL : Z := 10 * Second.

(** The parameters of [net.Dialer], [http.Transport] and [http.Client]. *)
Record HttpClient := mkClient {
  dialTimeout : Z;
  dialKeepAlive : Z;
  tr_MaxIdleConns : Z;
  tr_MaxIdleConnsPerHost : Z;
  tr_MaxConnsPerHost : Z;
  tr_IdleConnTimeout : Z;
  clientTimeout : Z
}.

Record HttpPool := mkHttpPool {
  endpoints : EndpointPool.HttpEndpointPool;
  healthCheckInterval : Z;
  healthyMaxWait : Z;
  healthyPollInterval : Z;
  healthCheckErrLogInterval : Z;
  sendBufferTimeout : Z;
  credit : option RateController.Credit;
  client : HttpClient
}.

Inductive pool_error := ErrPoolType | ErrField (field : bytes) (e : GoDuration.error) | ErrRate (e : rate_error) | ErrURL.

Definition duration (field : bytes) (text : bytes) : outcome (pool_error + Z) :=
  r ← GoDuration.ParseDuration text; Ret (match r with inl e => inl (ErrField field e) | inr d => inr d end).

(** The address and the threshold of an endpoint. *)
Definition ep_cfg (c : HttpEndpointConfig) : bytes * Z := (URL c, ep_MarkUnhealthyThreshold c).

Section endpoints.
Context (other : bytes -> option spec_float) (parse : bytes -> bool) (shuffle : list (option HttpEndpointConfig) -> list (option HttpEndpointConfig)).

Definition pool_endpoints (c : HttpEndpointPoolConfig) : list (option HttpEndpointConfig) :=
  let eps := match Endpoints c with [] => [Some DefaultHttpEndpointConfig] | eps => eps end in
  if Shuffle c && (1 <? length eps) then shuffle eps else eps.

(** The endpoints before the first nil one are added; a nil one is dereferenced. *)
Definition add_all (thr : Z) (eps : list (option HttpEndpointConfig)) (s : EndpointPool.HttpEndpointPool) : outcome (pool_error + EndpointPool.HttpEndpointPool) :=
  let '(pre, rest) := span (fun o : option HttpEndpointConfig => bool_decide (is_Some o)) eps in
  r ← EndpointPool.add_endpoints parse thr 0 (map ep_cfg (omap id pre)) s;
  match r with
  | None => Ret (inl ErrURL)
  | Some s => match rest with [] => Ret (inr s) | _ => Panic end
  end.

Definition NewHttpEndpointPool (cfg : any_config HttpEndpointPoolConfig) : outcome (pool_error + HttpPool) :=
  match section c_httpEndpointPool DefaultHttpEndpointPoolConfig cfg with
  | None => Ret (inl ErrPoolType)
  | Some c =>
    c ← must c;
    let? dialT := duration (bs "tcp_conn_timeout") (TcpConnTimeout c) in
    let? keep := duration (bs "tcp_keep_alive") (TcpKeepAlive c) in
    let? idle := duration (bs "idle_conn_timeout") (IdleConnTimeout c) in
    let? resp := duration (bs "response_timeout") (ResponseTimeout c) in
    let? rot := duration (bs "healthy_rotate_interval") (HealthyRotateInterval c) in
    let? reset := duration (bs "error_reset_interval") (ErrorResetInterval c) in
    let? rot := duration (bs "healthy_rotate_interval") (HealthyRotateInterval c) in
    let? check := duration (bs "healthy_check_interval") (HealthCheckInterval c) in
    let? sendT := duration (bs "send_buffer_timeout") (SendBufferTimeout c) in
    let? wait := duration (bs "healthy_max_wait") (HealthyMaxWait c) in
    let check := if (check <? HTTP_ENDPOINT_POOL_HEALTHY_CHECK_MIN_INTERVAL)%Z then HTTP_ENDPOINT_POOL_HEALTHY_CHECK_MIN_INTERVAL else check in
    let? wait := duration (bs "healthy_max_wait") (HealthyMaxWait c) in
    let? sendT := duration (bs "send_buffer_timeout") (SendBufferTimeout c) in
    let? cr := (if bool_decide (RateLimitMbps c = []) then Ret (inr None)
           else r ← NewCreditFromSpec other (RateLimitMbps c); Ret (match r with inl e => inl (ErrRate e) | inr cr => inr (Some cr) end)) in
    let? s := add_all (MarkUnhealthyThreshold c) (pool_endpoints c) (EndpointPool.empty_pool rot reset) in
    Ret (inr (mkHttpPool s check wait HTTP_ENDPOINT_POOL_HEALTHY_POLL_INTERVAL HTTP_ENDPOINT_POOL_HEALTH_CHECK_ERR_LOG_INTERVAL sendT cr
      (mkClient dialT keep (MaxIdleConns c) (MaxIdleConnsPerHost c) (MaxConnsPerHost c) idle resp)))
  end.
End endpoints.

(** ** The pool of compressors *)

(** The levels that [gzip.NewWriterLevel] accepts, from [HuffmanOnly] to
    [BestCompression]. *)
Definition level_ok (level : Z) : bool := ((-2 <=? level) && (level <=? 9))%Z.

Record FullPool := mkFullPool {
  core : Compressor.CompressorPool;
  bufPool : BufPool.ReadFileBufPool;
  compressionLevel : Z;
  batchTargetSize : Z;
  flushInterval : Z;
  poolStats : gmap bytes Compressor.CompressorStats
}.

Inductive comp_error := ErrCompType | ErrLevel | ErrTargetSize | ErrFlushInterval (e : GoDuration.error).

Definition NewCompressorPoolStats (numCompressors : Z) : gmap bytes Compressor.CompressorStats :=
  list_to_map (map (fun i => (Itoa (Z.of_nat i), Compressor.NewCompressorStats)) (seq 0 (Z.to_nat numCompressors))).

(** [make(chan T, n)] with a negative [n] panics. *)
Definition make_chan (n : Z) : outcome nat := if (n <? 0)%Z then Panic else Ret (Z.to_nat n).

Section compressors.
Context (RAMInBytes : bytes -> option Z) (availableCpus : Z).

Definition NewCompressorPool (cfg : any_config CompressorPoolConfig) : outcome (comp_error + FullPool) :=
  match section c_compressorPool DefaultCompressorPoolConfig cfg with
  | None => Ret (inl ErrCompType)
  | Some c =>
    c ← must c;
    if negb (level_ok (CompressionLevel c)) then Ret (inl ErrLevel)
    else
      match RAMInBytes (BatchTargetSize c) with
      | None => Ret (inl ErrTargetSize)
      | Some batchTargetSize =>
        r ← GoDuration.ParseDuration (FlushInterval c);
        match r with
        | inl e => Ret (inl (ErrFlushInterval e))
        | inr flushInterval =>
          let numCompressors := Compressor.clamp_compressors availableCpus (NumCompressors c) in
          n ← make_chan (MetricsQueueSize c);
          Ret (inr (mkFullPool (Compressor.mkPool numCompressors [] n false Compressor.CompressorPoolStateCreated)
            (BufPool.NewBufPool (BufferPoolMaxSize c) ∅) (CompressionLevel c) (i64 batchTargetSize) flushInterval
            (NewCompressorPoolStats numCompressors)))
        end
      end
  end.
End compressors.

(** ** The rate *)

Lemma rate_parts_colon mbps interval : Forall (fun c => c <> COLON) mbps -> rate_parts (mbps ++ [COLON] ++ interval) = (mbps, interval).
Proof.
  intros H. unfold rate_parts. rewrite span_app; [done| |done]. eapply Forall_impl; [exact H|]. intros c Hc. cbv beta. by rewrite (proj2 (beq_false c COLON) Hc).
Qed.

Lemma rate_parts_plain mbps : Forall (fun c => c <> COLON) mbps -> rate_parts mbps = (mbps, bs "1s").
Proof.
  intros H. unfold rate_parts. rewrite <- (app_nil_r mbps) at 1. rewrite span_app; [done| |done].
  eapply Forall_impl; [exact H|]. intros c Hc. cbv beta. by rewrite (proj2 (beq_false c COLON) Hc).
Qed.

(** "FLOAT is equivalent w/ FLOAT:1s". *)
Lemma rate_spec_default other mbps :
  Forall (fun c => c <> COLON) mbps -> ParseCreditRateSpec other mbps = ParseCreditRateSpec other (mbps ++ bs ":1s").
Proof. intros H. unfold ParseCreditRateSpec. rewrite rate_parts_plain by done. change (bs ":1s") with ([COLON] ++ bs "1s"). by rewrite (rate_parts_colon mbps (bs "1s") H). Qed.

Lemma digit_not (c d : byte) : is_digit c = true -> is_digit d = false -> c <> d.
Proof. congruence. Qed.

Lemma ParseFloat_digits other ds : is_num ds -> ParseFloat other ds =
  match f64_of_int (dec ds) with S754_infinity _ => None | f => Some f end.
Proof.
  intros [Hne Hd]. unfold ParseFloat. assert (GoDuration.sign_of ds = (false, ds)) as ->.
  { destruct ds as [|c ds]; [done|]. apply Forall_cons in Hd as [Hc _]. unfold GoDuration.sign_of.
    rewrite (proj2 (beq_false c GoDuration.MINUS)), (proj2 (beq_false c GoDuration.PLUS)); [done|by apply digit_not|by apply digit_not]. }
  rewrite <- (app_nil_r ds) at 1. rewrite span_app by done. cbn [fst snd]. rewrite app_nil_r.
  rewrite bool_decide_eq_true_2, bool_decide_eq_false_2 by done. cbn [negb andb length]. change (- Z.of_nat 0)%Z with 0%Z.
  change (decimal_f64 (dec ds) 0) with (f64_of_int (dec ds * 1)). rewrite Z.mul_1_r. unfold opp_f64. by destruct (f64_of_int (dec ds)).
Qed.

Definition MAX_WHOLE : nat := 1000.
Definition rate_is_exact (i : nat) : bool :=
  match f64_of_int (Z.of_nat i) with S754_infinity _ => false | f => (rate_value f Second =? 125000 * Z.of_nat i)%Z end.
Lemma rates_ok : forallb rate_is_exact (seq 0 (S MAX_WHOLE)) = true.
Proof. vm_compute. reflexivity. Qed.

Lemma rate_exact n : (0 <= n <= 1000)%Z ->
  match f64_of_int n with S754_infinity _ => False | f => rate_value f Second = (125000 * n)%Z end.
Proof.
  intros Hn. pose proof (proj1 (forallb_forall rate_is_exact (seq 0 (S MAX_WHOLE))) rates_ok (Z.to_nat n)) as H.
  specialize (H ltac:(apply in_seq; unfold MAX_WHOLE; lia)). unfold rate_is_exact in H. rewrite Z2Nat.id in H by lia. destruct (f64_of_int n); [|done|..]; by apply Z.eqb_eq in H.
Qed.

(** the rate limit.  A whole number of Mbps up to 1 Gbps, with or without the
    interval of one second, gives exactly its bytes per second. *)
Theorem rate_spec_whole other n :
  (0 <= n <= 1000)%Z ->
  ParseCreditRateSpec other (FormatUint n) = Ret (inr (125000 * n, Second))%Z /\
  ParseCreditRateSpec other (FormatUint n ++ bs ":1s") = Ret (inr (125000 * n, Second))%Z.
Proof.
  intros Hn. destruct (FormatUint_spec n ltac:(lia)) as (Hnum & Hdec & _).
  assert (Forall (fun c => c <> COLON) (FormatUint n)) as Hc.
  { eapply Forall_impl; [exact (proj2 Hnum)|]. intros c Hc. by apply digit_not. }
  rewrite <- (rate_spec_default other _ Hc). split; [|]; unfold ParseCreditRateSpec; rewrite (rate_parts_plain _ Hc), (ParseFloat_digits _ _ Hnum), Hdec;
    (pose proof (rate_exact n Hn) as H; destruct (f64_of_int n); try done; rewrite <- H; reflexivity).
Qed.

Lemma rate_spec_whole_witness :
  ParseCreditRateSpec (fun _ => None) (bs "10") = Ret (inr (1250000, Second))%Z.
Proof. exact (proj1 (rate_spec_whole (fun _ => None) 10 ltac:(lia))). Defined.

(** ** The pool of endpoints *)

(** The intervals in the order in which they are parsed. *)
Definition durations (c : HttpEndpointPoolConfig) : list (bytes * bytes) :=
  [(bs "tcp_conn_timeout", TcpConnTimeout c); (bs "tcp_keep_alive", TcpKeepAlive c); (bs "idle_conn_timeout", IdleConnTimeout c);
   (bs "response_timeout", ResponseTimeout c); (bs "healthy_rotate_interval", HealthyRotateInterval c);
   (bs "error_reset_interval", ErrorResetInterval c); (bs "healthy_check_interval", HealthCheckInterval c);
   (bs "send_buffer_timeout", SendBufferTimeout c); (bs "healthy_max_wait", HealthyMaxWait c)].

Fixpoint first_error (fs : list (bytes * bytes)) : option (bytes * GoDuration.error) :=
  match fs with
  | [] => None
  | (f, t) :: fs => match GoDuration.ParseDuration t with Ret (inl e) => Some (f, e) | _ => first_error fs end
  end.

(** The value of an interval that can be parsed. *)
Definition dur (t : bytes) : Z := match GoDuration.ParseDuration t with Ret (inr d) => d | _ => 0%Z end.

Lemma duration_spec f t : duration f t = match first_error [(f, t)] with Some (f, e) => Ret (inl (ErrField f e)) | None => Ret (inr (dur t)) end.
Proof.
  unfold duration, dur, first_error. destruct (GoDuration.ParseDuration_total t) as (r & -> & _). by destruct r.
Qed.

Lemma first_error_cons f t x fs :
  first_error ((f, t) :: x :: fs) = match first_error [(f, t)] with Some x => Some x | None => first_error (x :: fs) end.
Proof. unfold first_error. destruct (GoDuration.ParseDuration t) as [[]| |]; done. Qed.

Definition clamp_check (d : Z) : Z :=
  if (d <? HTTP_ENDPOINT_POOL_HEALTHY_CHECK_MIN_INTERVAL)%Z then HTTP_ENDPOINT_POOL_HEALTHY_CHECK_MIN_INTERVAL else d.

(** What the constructor does after the intervals. *)
Definition with_endpoints (other : bytes -> option spec_float) (parse : bytes -> bool) (shuffle : list (option HttpEndpointConfig) -> list (option HttpEndpointConfig))
    (c : HttpEndpointPoolConfig) : outcome (pool_error + HttpPool) :=
  let? cr := (if bool_decide (RateLimitMbps c = []) then Ret (inr None)
              else r ← NewCreditFromSpec other (RateLimitMbps c); Ret (match r with inl e => inl (ErrRate e) | inr cr => inr (Some cr) end)) in
  let? s := add_all parse (MarkUnhealthyThreshold c) (pool_endpoints shuffle c) (EndpointPool.empty_pool (dur (HealthyRotateInterval c)) (dur (ErrorResetInterval c))) in
  Ret (inr (mkHttpPool s (clamp_check (dur (HealthCheckInterval c))) (dur (HealthyMaxWait c)) HTTP_ENDPOINT_POOL_HEALTHY_POLL_INTERVAL
    HTTP_ENDPOINT_POOL_HEALTH_CHECK_ERR_LOG_INTERVAL (dur (SendBufferTimeout c)) cr
    (mkClient (dur (TcpConnTimeout c)) (dur (TcpKeepAlive c)) (MaxIdleConns c) (MaxIdleConnsPerHost c) (MaxConnsPerHost c)
      (dur (IdleConnTimeout c)) (dur (ResponseTimeout c))))).

Lemma NewHttpEndpointPool_eq other parse shuffle cfg c :
  section c_httpEndpointPool DefaultHttpEndpointPoolConfig cfg = Some (Some c) ->
  NewHttpEndpointPool other parse shuffle cfg =
  match first_error (durations c) with Some (f, e) => Ret (inl (ErrField f e)) | None => with_endpoints other parse shuffle c end.
Proof.
  intros Hs. unfold NewHttpEndpointPool. rewrite Hs. cbn [must]. rewrite bind_ret. rewrite !duration_spec. unfold durations.
  rewrite !first_error_cons.
  repeat match goal with |- context [first_error [(?f, ?t)]] => destruct (first_error [(f, t)]) as [[? ?]|]; [done|]; rewrite ?try_inr end.
  done.
Qed.

(** invalid intervals.  The first interval that cannot be parsed, in the order
    of the constructor, is the one that is reported, and no pool is made. *)
Theorem http_pool_first_error other parse shuffle cfg c f e :
  section c_httpEndpointPool DefaultHttpEndpointPoolConfig cfg = Some (Some c) -> first_error (durations c) = Some (f, e) ->
  NewHttpEndpointPool other parse shuffle cfg = Ret (inl (ErrField f e)).
Proof. intros Hs He. by rewrite (NewHttpEndpointPool_eq _ _ _ _ c Hs), He. Qed.

Definition set_rotate (t : bytes) (p : HttpEndpointPoolConfig) : HttpEndpointPoolConfig :=
  mkEndpointPool (Endpoints p) (MarkUnhealthyThreshold p) (Shuffle p) t (ErrorResetInterval p) (HealthCheckInterval p) (HealthyMaxWait p)
    (SendBufferTimeout p) (RateLimitMbps p) (TcpConnTimeout p) (TcpKeepAlive p) (MaxIdleConns p) (MaxIdleConnsPerHost p) (MaxConnsPerHost p)
    (IdleConnTimeout p) (ResponseTimeout p).

(** A rotation interval of -1 has no unit. *)
Lemma http_pool_first_error_witness :
  NewHttpEndpointPool (fun _ => None) (fun _ => true) (fun l => l) (AnyOwn (set_rotate (bs "-1") DefaultHttpEndpointPoolConfig)) =
  Ret (inl (ErrField (bs "healthy_rotate_interval") GoDuration.ErrMissingUnit)).
Proof. eapply (http_pool_first_error _ _ _ _ (set_rotate (bs "-1") DefaultHttpEndpointPoolConfig)); vm_compute; reflexivity. Defined.

Lemma add_all_some parse thr eps s :
  add_all parse thr (map Some eps) s =
  (r ← EndpointPool.add_endpoints parse thr 0 (map ep_cfg eps) s; Ret (match r with None => inl ErrURL | Some s => inr s end)).
Proof.
  unfold add_all. rewrite <- (app_nil_r (map Some eps)). rewrite span_app; [|by apply Forall_map, Forall_true|done].
  assert (omap id (map Some eps) = eps) as -> by (induction eps as [|x eps IH]; [done|]; cbn; by rewrite IH).
  destruct (EndpointPool.add_endpoints _ _ _ _ _) as [[r|]| |]; done.
Qed.

Lemma endpoint_cfg_ok thr c : (c.2 <= MaxInt64)%Z -> (thr <= MaxInt64)%Z -> EndpointPool.cfg_ok (EndpointPool.endpoint_cfg thr c).
Proof.
  intros Hc Ht. unfold EndpointPool.cfg_ok, EndpointPool.endpoint_cfg. cbn [snd].
  destruct (Z.leb_spec c.2 0); [destruct (Z.leb_spec thr 0); [vm_compute; by split|lia]|].
  by rewrite (proj2 (Z.leb_gt _ _)) by lia.
Qed.

(** The credit of a pool: none without a limit. *)
Definition credit_of (other : bytes -> option spec_float) (limit : bytes) (cr : option RateController.Credit) : Prop :=
  match cr with
  | None => limit = []
  | Some k => limit <> [] /\ NewCreditFromSpec other limit = Ret (inr k)
  end.

Definition configured (c : HttpEndpointPoolConfig) (eps : list HttpEndpointConfig) : list HttpEndpointConfig :=
  match eps with [] => [DefaultHttpEndpointConfig] | _ => eps end.

Lemma pool_endpoints_some shuffle c eps :
  (forall l, shuffle l ≡ₚ l) -> Endpoints c = map Some eps ->
  exists eps', pool_endpoints shuffle c = map Some eps' /\ eps' ≡ₚ configured c eps.
Proof.
  intros Hsh He. unfold pool_endpoints. rewrite He.
  assert (match map Some eps with [] => [Some DefaultHttpEndpointConfig] | l => l end = map Some (configured c eps)) as Hm by by destruct eps.
  set (l := match map Some eps with [] => _ | _ => _ end) in *. clearbody l. subst l. destruct (_ && _); [|by exists (configured c eps)].
  destruct (Permutation_map_inv Some _ (Hsh (map Some (configured c eps)))) as (l' & Hl & Hp). by exists l'.
Qed.

(** C21: a valid configuration.  With intervals and a rate that can be parsed and
    endpoints with distinct addresses the pool is made: all endpoints, shuffled
    or not, are healthy, no health check is more frequent than once a second, and
    whatever happens then the pool stays consistent. *)
Theorem http_pool_built other parse shuffle cfg c eps cr es :
  section c_httpEndpointPool DefaultHttpEndpointPoolConfig cfg = Some (Some c) -> first_error (durations c) = None ->
  credit_of other (RateLimitMbps c) cr -> (forall l, shuffle l ≡ₚ l) -> Endpoints c = map Some eps -> (MarkUnhealthyThreshold c <= MaxInt64)%Z ->
  Forall (fun e => (ep_MarkUnhealthyThreshold e <= MaxInt64)%Z /\
    parse (EndpointPool.endpoint_cfg (MarkUnhealthyThreshold c) (ep_cfg e)).1 = true) (configured c eps) ->
  NoDup (EndpointPool.cfg_urls (MarkUnhealthyThreshold c) (map ep_cfg (configured c eps))) ->
  exists p s', NewHttpEndpointPool other parse shuffle cfg = Ret (inr p) /\
    EndpointPool.view (endpoints p) (seq 0 (length (configured c eps))) /\
    (healthCheckInterval p = Z.max Second (dur (HealthCheckInterval c)))%Z /\ credit p = cr /\
    sendBufferTimeout p = dur (SendBufferTimeout c) /\ healthyMaxWait p = dur (HealthyMaxWait c) /\
    EndpointPool.exec_all es (endpoints p) = Ret s' /\ EndpointPool.inv s'.
Proof.
  intros Hs Hd Hcr Hsh He Ht Hok Hnd. destruct (pool_endpoints_some shuffle c eps Hsh He) as (eps' & Heps & Hp).
  assert (match map ep_cfg eps' with [] => [(EndpointPool.HTTP_ENDPOINT_URL_DEFAULT, 0%Z)] | _ => map ep_cfg eps' end = map ep_cfg eps') as Hm
    by (destruct eps'; [apply Permutation_nil_l in Hp; by destruct eps|done]).
  destruct (EndpointPool.NewHttpEndpointPool_correct parse (dur (HealthyRotateInterval c)) (dur (ErrorResetInterval c)) (MarkUnhealthyThreshold c)
    (map ep_cfg eps')) as (s & Hnew & Hv & Hi).
  { rewrite Hm. apply Forall_map. rewrite <- Hp in Hok.
    eapply Forall_impl; [exact Hok|]. intros x [Hx Hpx]. split; [by apply endpoint_cfg_ok|done]. }
  { rewrite Hm. unfold EndpointPool.cfg_urls in *. by rewrite (Permutation_map _ (Permutation_map ep_cfg Hp)). }
  destruct (EndpointPool.exec_all_inv es s Hi) as (s' & Hes & Hinv & _).
  assert (length eps' = length (configured c eps)) as Hl by by rewrite Hp.
  unfold EndpointPool.NewHttpEndpointPool in Hnew. rewrite Hm in Hnew, Hv. rewrite length_map, Hl in Hv.
  rewrite (NewHttpEndpointPool_eq _ _ _ _ c Hs), Hd. unfold with_endpoints. rewrite Heps, add_all_some, Hnew, bind_ret.
  assert ((if bool_decide (RateLimitMbps c = []) then Ret (inr None)
    else r ← NewCreditFromSpec other (RateLimitMbps c); Ret (match r with inl e => inl (ErrRate e) | inr cr => inr (Some cr) end)) = Ret (inr cr)) as ->.
  { destruct cr as [k|]; [destruct Hcr as [Hne ->]; by rewrite bool_decide_eq_false_2|by rewrite bool_decide_eq_true_2]. }
  rewrite !try_inr. do 2 eexists. split; [reflexivity|]. cbn [endpoints healthCheckInterval credit sendBufferTimeout healthyMaxWait].
  split; [exact Hv|]. split; [|by repeat split].
  unfold clamp_check, HTTP_ENDPOINT_POOL_HEALTHY_CHECK_MIN_INTERVAL. destruct (Z.ltb_spec (dur (HealthCheckInterval c)) Second); lia.
Qed.

(** Endpoints with distinct addresses and thresholds of the width of the machine. *)
Definition endpoints_ok (c : HttpEndpointPoolConfig) : Prop :=
  exists eps, Endpoints c = map Some eps /\ (MarkUnhealthyThreshold c <= MaxInt64)%Z /\
    Forall (fun e => (ep_MarkUnhealthyThreshold e <= MaxInt64)%Z) (configured c eps) /\
    NoDup (EndpointPool.cfg_urls (MarkUnhealthyThreshold c) (map ep_cfg (configured c eps))).

(** A pool that was made is consistent. *)
Lemma http_pool_made other parse shuffle cfg c p :
  section c_httpEndpointPool DefaultHttpEndpointPoolConfig cfg = Some (Some c) -> (forall l, shuffle l ≡ₚ l) -> endpoints_ok c ->
  NewHttpEndpointPool other parse shuffle cfg = Ret (inr p) ->
  EndpointPool.inv (endpoints p) /\ EndpointPool.shutdown (endpoints p) = false.
Proof.
  intros Hs Hsh (eps & He & Ht & Hth & Hnd) H. rewrite (NewHttpEndpointPool_eq _ _ _ _ c Hs) in H. destruct (first_error _) as [[f e]|]; [done|].
  unfold with_endpoints in H. destruct (pool_endpoints_some shuffle c eps Hsh He) as (eps' & Heps & Hp). rewrite Heps in H.
  unfold try in H. apply bind_Ret_inv in H as ([e|cr] & _ & H); [done|]. apply bind_Ret_inv in H as ([e|s] & Ha & H); [done|]. injection H as <-.
  rewrite add_all_some in Ha. apply bind_Ret_inv in Ha as ([s'|] & Ha & [= <-]). cbn [endpoints].
  destruct (EndpointPool.add_endpoints_made _ _ _ _ _ _ Ha) as [Hparse Hflag]. split; [|done].
  assert (match map ep_cfg eps' with [] => [(EndpointPool.HTTP_ENDPOINT_URL_DEFAULT, 0%Z)] | _ => map ep_cfg eps' end = map ep_cfg eps') as Hm
    by (destruct eps'; [apply Permutation_nil_l in Hp; by destruct eps|done]).
  destruct (EndpointPool.NewHttpEndpointPool_correct parse (dur (HealthyRotateInterval c)) (dur (ErrorResetInterval c)) (MarkUnhealthyThreshold c)
    (map ep_cfg eps')) as (s2 & Hnew & _ & Hi).
  - rewrite Hm. rewrite <- Hp in Hth. rewrite Forall_map in Hparse |- *. apply Forall_and. split; [|exact Hparse].
    eapply Forall_impl; [exact Hth|]. intros x Hx. by apply endpoint_cfg_ok.
  - rewrite Hm. unfold EndpointPool.cfg_urls in *. by rewrite (Permutation_map _ (Permutation_map ep_cfg Hp)).
  - unfold EndpointPool.NewHttpEndpointPool in Hnew. rewrite Hm, Ha in Hnew. by injection Hnew as ->.
Qed.

Lemma http_pool_built_witness :
  exists p s', NewHttpEndpointPool (fun _ => None) (fun _ => true) (fun l => l) AnyNil = Ret (inr p) /\
    EndpointPool.view (endpoints p) [0] /\ (healthCheckInterval p = 5 * Second)%Z /\ credit p = None /\
    sendBufferTimeout p = (20 * Second)%Z /\ healthyMaxWait p = (10 * Second)%Z /\
    EndpointPool.exec_all [EndpointPool.EReport zeroTime 0] (endpoints p) = Ret s' /\ EndpointPool.inv s'.
Proof.
  apply (http_pool_built (fun _ => None) (fun _ => true) (fun l => l) AnyNil DefaultHttpEndpointPoolConfig [] None
    [EndpointPool.EReport zeroTime 0]); [done|vm_compute; done|done|done|done|vm_compute; done| |].
  - by repeat constructor.
  - apply NoDup_singleton.
Defined.

(** ** The pool of compressors *)

Lemma pool_stats_dom n k : is_Some (NewCompressorPoolStats n !! k) <-> exists i, (i < Z.to_nat n)%nat /\ k = Itoa (Z.of_nat i).
Proof.
  unfold NewCompressorPoolStats. rewrite <- elem_of_dom, dom_list_to_map_L, elem_of_list_to_set.
  change (fst <$> ?l) with (map fst l). rewrite map_map, list_elem_of_In, in_map_iff. cbn [fst].
  split; intros (i & H1 & H2); exists i; [apply in_seq in H2|split; [done|apply in_seq]]; split_and?; try lia; done.
Qed.

Lemma clamp_range cpus n : (1 <= cpus)%Z -> (1 <= Compressor.clamp_compressors cpus n <= 4)%Z.
Proof.
  intros H. unfold Compressor.clamp_compressors, Compressor.COMPRESSOR_POOL_MAX_NUM_COMPRESSORS. destruct (Z.leb_spec n 0);
    match goal with |- context [(4 <? ?x)%Z] => destruct (Z.ltb_spec 4 x) end; lia.
Qed.

Lemma compressors_made RAMInBytes cpus cfg p : NewCompressorPool RAMInBytes cpus cfg = Ret (inr p) -> (1 <= cpus)%Z ->
  Compressor.metricsQueue (core p) = [] /\ Compressor.queueClosed (core p) = false /\
  Compressor.state (core p) = Compressor.CompressorPoolStateCreated /\ (1 <= Compressor.numCompressors (core p) <= 4)%Z.
Proof.
  unfold NewCompressorPool. intros H Hc. destruct (section _ _ _) as [o|]; [|done]. apply bind_Ret_inv in H as (c & _ & H).
  destruct (negb _); [done|]. destruct (RAMInBytes _); [|done]. apply bind_Ret_inv in H as ([e|d] & _ & H); [done|].
  apply bind_Ret_inv in H as (n & _ & [= <-]). cbn. split_and!; try done; by apply clamp_range.
Qed.

(** the compressors.  Unless the level, the size or the flush interval is
    invalid, from 1 to 4 compressors are made, each with its statistics, with a
    level that gzip accepts; they are started once. *)
Theorem compressor_pool_config RAMInBytes cpus cfg c :
  section c_compressorPool DefaultCompressorPoolConfig cfg = Some (Some c) -> (1 <= cpus)%Z -> (0 <= MetricsQueueSize c)%Z ->
  exists r, NewCompressorPool RAMInBytes cpus cfg = Ret r /\
  match r with
  | inl _ => level_ok (CompressionLevel c) = false \/ RAMInBytes (BatchTargetSize c) = None \/ first_error [(bs "flush_interval", FlushInterval c)] <> None
  | inr p => exists n, (1 <= n <= 4)%Z /\ level_ok (compressionLevel p) = true /\ flushInterval p = dur (FlushInterval c) /\
      (forall k, is_Some (poolStats p !! k) <-> exists i, (i < Z.to_nat n)%nat /\ k = Itoa (Z.of_nat i)) /\
      (Compressor.Start (core p)).2 = n /\ (Compressor.Start (Compressor.Start (core p)).1).2 = 0%Z /\
      Compressor.metricsQueue (core p) = [] /\ Z.of_nat (Compressor.queueSize (core p)) = MetricsQueueSize c
  end.
Proof.
  intros Hs Hc Hq. unfold NewCompressorPool. rewrite Hs. cbn [must]. rewrite bind_ret.
  destruct (level_ok (CompressionLevel c)) eqn:Hl; cbn [negb]; [|by eexists; split; [done|left]].
  destruct (RAMInBytes (BatchTargetSize c)) as [sz|]; [|by eexists; split; [done|right; left]].
  unfold first_error, dur. destruct (GoDuration.ParseDuration_total (FlushInterval c)) as (r & -> & Hr). rewrite bind_ret.
  destruct r as [e|d]; [by eexists; split; [done|right; right]|]. unfold make_chan. rewrite (proj2 (Z.ltb_ge _ _)), bind_ret by lia.
  eexists. split; [reflexivity|]. exists (Compressor.clamp_compressors cpus (NumCompressors c)).
  split; [by apply clamp_range|]. split; [done|]. split; [done|]. split; [apply pool_stats_dom|]. cbn. repeat split; try done. lia.
Qed.

Lemma compressor_pool_config_witness :
  exists p n, NewCompressorPool (fun _ => Some 65536%Z) 8 AnyNil = Ret (inr p) /\ (1 <= n <= 4)%Z /\ (Compressor.Start (core p)).2 = n.
Proof.
  destruct (compressor_pool_config (fun _ => Some 65536%Z) 8 AnyNil DefaultCompressorPoolConfig eq_refl ltac:(lia) ltac:(vm_compute; discriminate)) as (r & Hr & H).
  destruct r as [e|p].
  - exfalso. destruct H as [H|[H|H]]; [by vm_compute in H|done|by vm_compute in H].
  - destruct H as (n & Hn & _ & _ & _ & Hst & _). by exists p, n.
Defined.

End PoolConfig.
