(* ===== verification/StdoutQueue.v ===== *)
(** The metrics queue that writes to the standard output
    (lsvmi/stdout_metrics_queue.go): buffers of a pool, a channel and the
    goroutine that prints.

    The state holds the pool with the contents of its buffers, the numbers of
    the queued buffers, the one that the goroutine has received, and what was
    written.  A step of a client or of the goroutine is an [event]; it gives
    [None] while it has to wait. *)

From Stdlib Require Import ZArith Lia.
From stdpp Require Import base tactics numbers strings gmap list fin_maps fin_sets relations.
From S2P Require Import Prelude Scan BufPool GoLib Config PoolConfig MetricsQueue.

Module StdoutQueue.
Import Config PoolConfig.

Record StdoutMetricsQueue := mkQueue {
  bufs : BufPool.ReadFileBufPool;
  metricsQueue : list nat;
  queueSize : nat;
  isClosed : bool;
  batchTargetSize : Z;
  (** The goroutine: the buffer that it has received, whether it has ended. *)
  received : option nat;
  ended : bool;
  stdout : bytes
}.

Inductive queue_error := ErrQueueType | ErrQueueTargetSize.

Definition NewStdoutMetricsQueue (RAMInBytes : bytes -> option Z) (cfg : any_config CompressorPoolConfig)
    : outcome (queue_error + StdoutMetricsQueue) :=
  match section c_compressorPool DefaultCompressorPoolConfig cfg with
  | None => Ret (inl ErrQueueType)
  | Some c =>
    c ← must c;
    match RAMInBytes (BatchTargetSize c) with
    | None => Ret (inl ErrQueueTargetSize)
    | Some size =>
      n ← make_chan (MetricsQueueSize c);
      Ret (inr (mkQueue (BufPool.NewBufPool (BufferPoolMaxSize c) ∅) [] n false (i64 size) None false []))
    end
  end.

Definition set_bufs (p : BufPool.ReadFileBufPool) (q : StdoutMetricsQueue) : StdoutMetricsQueue :=
  mkQueue p (metricsQueue q) (queueSize q) (isClosed q) (batchTargetSize q) (received q) (ended q) (stdout q).
Definition set_queue (l : list nat) (r : option nat) (q : StdoutMetricsQueue) : StdoutMetricsQueue :=
  mkQueue (bufs q) l (queueSize q) (isClosed q) (batchTargetSize q) r (ended q) (stdout q).

Definition GetBuf (q : StdoutMetricsQueue) : outcome (StdoutMetricsQueue * nat) :=
  '(p, b) ← BufPool.GetBuf (bufs q); Ret (set_bufs p q, b).
Definition ReturnBuf (b : nat) (q : StdoutMetricsQueue) : outcome StdoutMetricsQueue :=
  p ← BufPool.ReturnBuf (Some b) (bufs q); Ret (set_bufs p q).
Definition GetTargetSize (q : StdoutMetricsQueue) : Z := batchTargetSize q.

(** [mq.metricsQueue <- buf]: a send on a closed channel panics; without room it
    waits, unless the channel has no buffer and the goroutine is receiving. *)
Definition QueueBuf (b : nat) (q : StdoutMetricsQueue) : option (outcome StdoutMetricsQueue) :=
  if isClosed q then Some Panic
  else if length (metricsQueue q) <? queueSize q then Some (Ret (set_queue (metricsQueue q ++ [b]) (received q) q))
  else if (queueSize q =? 0) && bool_decide (received q = None) && negb (ended q) then Some (Ret (set_queue [] (Some b) q))
  else None.

(** The goroutine receives: the next buffer, or the end of the channel. *)
Definition loop_receive (q : StdoutMetricsQueue) : option StdoutMetricsQueue :=
  if ended q then None
  else
    match received q, metricsQueue q with
    | Some _, _ => None
    | None, b :: l => Some (set_queue l (Some b) q)
    | None, [] =>
      if isClosed q then Some (mkQueue (bufs q) [] (queueSize q) true (batchTargetSize q) None true (stdout q)) else None
    end.

(** The goroutine prints the buffer and returns it. *)
Definition loop_print (q : StdoutMetricsQueue) : option (outcome StdoutMetricsQueue) :=
  match received q with
  | None => None
  | Some b => Some (
    data ← must (BufPool.mem (bufs q) !! b);
    p ← BufPool.ReturnBuf (Some b) (bufs q);
    Ret (mkQueue p (metricsQueue q) (queueSize q) (isClosed q) (batchTargetSize q) None (ended q) (stdout q ++ data ++ [NL])))
  end.

(** [Shutdown]: [close] of a closed channel panics; the wait for the goroutine is
    over when it has ended. *)
Definition Shutdown (q : StdoutMetricsQueue) : outcome StdoutMetricsQueue :=
  if isClosed q then Panic
  else Ret (mkQueue (bufs q) (metricsQueue q) (queueSize q) true (batchTargetSize q) (received q) (ended q) (stdout q)).

(** ** The system *)

(** The queue, the buffers that the clients hold and, for the statements, the
    contents that were queued. *)
Record system := mkSystem { queue : StdoutMetricsQueue; held : gset nat; queued : list bytes }.

Inductive event := Get | Write (b : nat) (data : bytes) | Return (b : nat) | Queue (b : nat) | LoopReceive | LoopPrint | Stop.

Definition contents (q : StdoutMetricsQueue) (b : nat) : bytes := default [] (BufPool.mem (bufs q) !! b).

(** A client writes to a buffer that it holds. *)
Definition write (b : nat) (data : bytes) (q : StdoutMetricsQueue) : StdoutMetricsQueue :=
  let p := bufs q in
  set_bufs (BufPool.mkBufPool (BufPool.pool p) (BufPool.maxPoolSize p) (BufPool.poolSize p) (BufPool.maxReadSize p)
    (<[b := contents q b ++ data]> (BufPool.mem p))) q.

Definition allowed (e : event) (s : system) : Prop :=
  match e with
  | Write b _ | Return b => b ∈ held s
  | Queue b => b ∈ held s /\ isClosed (queue s) = false
  | Stop => isClosed (queue s) = false
  | _ => True
  end.

Definition exec (e : event) (s : system) : option (outcome system) :=
  let q := queue s in
  match e with
  | Get => Some ('(q, b) ← GetBuf q; Ret (mkSystem q ({[b]} ∪ held s) (queued s)))
  | Write b data => Some (Ret (mkSystem (write b data q) (held s) (queued s)))
  | Return b => Some (q ← ReturnBuf b q; Ret (mkSystem q (held s ∖ {[b]}) (queued s)))
  | Queue b => (fun o => q ← o; Ret (mkSystem q (held s ∖ {[b]}) (queued s ++ [contents (queue s) b]))) <$> QueueBuf b q
  | LoopReceive => (fun q => Ret (mkSystem q (held s) (queued s))) <$> loop_receive q
  | LoopPrint => (fun o => q ← o; Ret (mkSystem q (held s) (queued s))) <$> loop_print q
  | Stop => Some (q ← Shutdown q; Ret (mkSystem q (held s) (queued s)))
  end.

Inductive reachable (q0 : StdoutMetricsQueue) : system -> Prop :=
| reach_init : reachable q0 (mkSystem q0 ∅ [])
| reach_step s e s' : reachable q0 s -> allowed e s -> exec e s = Some (Ret s') -> reachable q0 s'.

(** ** The order of the output *)

(** The buffers on their way: the received one, then the queue. *)
Definition in_flight (q : StdoutMetricsQueue) : list nat := option_list (received q) ++ metricsQueue q.

Definition line (data : bytes) : bytes := data ++ [NL].
Definition lines (l : list bytes) : bytes := concat (map line l).

Record ok (s : system) : Prop := mkOk {
  ok_pool : BufPool.inv (held s ∪ list_to_set (in_flight (queue s))) (bufs (queue s));
  ok_nodup : NoDup (in_flight (queue s));
  ok_disj : forall b, b ∈ in_flight (queue s) -> b ∉ held s;
  ok_room : length (metricsQueue (queue s)) <= queueSize (queue s);
  ok_ended : ended (queue s) = true -> isClosed (queue s) = true /\ in_flight (queue s) = [];
  ok_out : stdout (queue s) ++ lines (map (contents (queue s)) (in_flight (queue s))) = lines (queued s)
}.

Lemma lines_app l1 l2 : lines (l1 ++ l2) = lines l1 ++ lines l2.
Proof. unfold lines. by rewrite map_app, concat_app. Qed.

Lemma GetBuf_mem p p' b : BufPool.GetBuf p = Ret (p', b) -> BufPool.mem p' = <[b := []]> (BufPool.mem p).
Proof.
  unfold BufPool.GetBuf. destruct (0 <? BufPool.poolSize p); [|by intros [= <- <-]].
  intros (b' & _ & [= <- <-])%bind_Ret_inv. done.
Qed.

(** The contents of the buffers on their way stay when another buffer changes. *)
Lemma map_contents q q' b l :
  b ∉ l -> (forall b', b' <> b -> BufPool.mem (bufs q') !! b' = BufPool.mem (bufs q) !! b') -> map (contents q') l = map (contents q) l.
Proof.
  intros Hb H. apply map_ext_in. intros x Hx. unfold contents. rewrite H; [done|]. intros ->. by apply Hb, list_elem_of_In.
Qed.

(** A step that leaves the channel and the output as they are. *)
Lemma ok_bufs s p h b :
  ok s -> (b ∉ in_flight (queue s)) -> (forall b', b' <> b -> BufPool.mem p !! b' = BufPool.mem (bufs (queue s)) !! b') ->
  BufPool.inv (h ∪ list_to_set (in_flight (queue s))) p -> (forall b', b' ∈ in_flight (queue s) -> b' ∉ h) ->
  ok (mkSystem (set_bufs p (queue s)) h (queued s)).
Proof.
  intros [Hp Hn Hd Hr He Ho] Hb Hm Hi Hh. split; try done. cbn [queue queued]. change (in_flight (set_bufs p (queue s))) with (in_flight (queue s)).
  rewrite (map_contents (queue s) (set_bufs p (queue s)) b) by done. done.
Qed.

Lemma get_ok s : ok s -> exists s', exec Get s = Some (Ret s') /\ ok s'.
Proof.
  intros H. destruct (BufPool.GetBuf_inv _ _ (ok_pool _ H)) as (p & b & Hg & Hb & _ & Hi & _). cbn [exec]. unfold GetBuf. rewrite Hg, !bind_ret.
  eexists. split; [done|]. apply (ok_bufs s p _ b); [done|set_solver| | |].
  - intros b' Hne. rewrite (GetBuf_mem _ _ _ Hg). by rewrite lookup_insert_ne.
  - by rewrite <- (assoc_L (∪)).
  - intros b' Hb'. pose proof (ok_disj s H b' Hb'). set_solver.
Qed.

Lemma write_ok s b data : ok s -> b ∈ held s -> ok (mkSystem (write b data (queue s)) (held s) (queued s)).
Proof.
  intros H Hb. apply (ok_bufs s _ _ b); [done| | | |].
  - intros Hf. by apply (ok_disj s H b Hf).
  - intros b' Hne. cbn. by rewrite lookup_insert_ne.
  - apply BufPool.inv_update, H.
  - apply (ok_disj s H).
Qed.

Lemma return_ok s b : ok s -> b ∈ held s -> exists s', exec (Return b) s = Some (Ret s') /\ ok s'.
Proof.
  intros H Hb. assert (b ∉ in_flight (queue s)) as Hf by (intros Hf; by apply (ok_disj s H b Hf)).
  destruct (BufPool.ReturnBuf_inv _ _ b (ok_pool _ H)) as (p & Hr & Hi & Hm & _); [set_solver|]. cbn [exec]. unfold ReturnBuf. rewrite Hr, !bind_ret.
  eexists. split; [done|]. apply (ok_bufs s p _ b); [done|done|by rewrite Hm| |].
  - replace (held s ∖ {[b]} ∪ list_to_set (in_flight (queue s))) with ((held s ∪ list_to_set (in_flight (queue s))) ∖ {[b]} : gset nat) by set_solver. done.
  - intros b' Hb'. pose proof (ok_disj s H b' Hb'). set_solver.
Qed.

(** A queued buffer goes to the end of those on their way. *)
Lemma queue_flight s b q' :
  ok s -> isClosed (queue s) = false -> QueueBuf b (queue s) = Some (Ret q') ->
  in_flight q' = in_flight (queue s) ++ [b] /\ bufs q' = bufs (queue s) /\ stdout q' = stdout (queue s) /\
  isClosed q' = false /\ ended q' = false /\ length (metricsQueue q') <= queueSize q'.
Proof.
  intros H Hc. unfold QueueBuf. rewrite Hc. pose proof (ok_room s H) as Hr.
  assert (ended (queue s) = false) as He by (destruct (ended (queue s)) eqn:E; [destruct (ok_ended s H E); congruence|done]).
  destruct (Nat.ltb_spec (length (metricsQueue (queue s))) (queueSize (queue s))) as [Hlt|Hge].
  - intros [= <-]. cbn. split; [unfold in_flight; cbn; by rewrite app_assoc|]. split_and!; try done. rewrite length_app. cbn. lia.
  - destruct (queueSize (queue s) =? 0) eqn:Hz; [|done]. apply Nat.eqb_eq in Hz. case_bool_decide as Hn; [|done]. rewrite He. cbn [andb negb]. intros [= <-].
    unfold in_flight. cbn. rewrite Hn. destruct (metricsQueue (queue s)) as [|x l]; [by split_and!; try lia|cbn in Hr; lia].
Qed.

Lemma queue_ok s b q' :
  ok s -> b ∈ held s -> isClosed (queue s) = false -> QueueBuf b (queue s) = Some (Ret q') ->
  ok (mkSystem q' (held s ∖ {[b]}) (queued s ++ [contents (queue s) b])).
Proof.
  intros H Hb Hc Hq. destruct (queue_flight s b q' H Hc Hq) as (Hf & Hbufs & Hout & Hcl & He & Hr). destruct H as [Hp Hn Hd _ _ Ho].
  assert (b ∉ in_flight (queue s)) as Hbf by (intros Hbf; by apply (Hd b Hbf)).
  assert (map (contents q') = map (contents (queue s))) as Hcont by (unfold contents; by rewrite Hbufs).
  split; cbn [queue held queued]; rewrite ?Hf, ?Hbufs, ?Hout.
  - rewrite list_to_set_app_L. cbn [list_to_set]. replace (held s ∖ {[b]} ∪ _) with (held s ∪ list_to_set (in_flight (queue s)) : gset nat); [done|].
    apply set_eq. intros x. destruct (decide (x = b)); set_solver.
  - apply NoDup_app. split; [done|]. split; [set_solver|apply NoDup_singleton].
  - intros x. rewrite elem_of_app, list_elem_of_singleton. intros [Hx| ->]; [pose proof (Hd x Hx)|]; set_solver.
  - done.
  - congruence.
  - rewrite Hcont, map_app, !lines_app, app_assoc, Ho. done.
Qed.

Lemma receive_ok s q' : ok s -> loop_receive (queue s) = Some q' -> ok (mkSystem q' (held s) (queued s)).
Proof.
  intros H. unfold loop_receive. destruct (ended (queue s)) eqn:He; [done|].
  destruct (received (queue s)) as [b|] eqn:Hr; [done|]. destruct (metricsQueue (queue s)) as [|b l] eqn:Hq.
  - destruct (isClosed (queue s)) eqn:Hc; [|done]. intros [= <-]. destruct H as [Hp Hn Hd Hrm _ Ho].
    assert (in_flight (queue s) = []) as Hf by (unfold in_flight; by rewrite Hr, Hq). rewrite Hf in *. split; try done. cbn. lia.
  - intros [= <-]. assert (in_flight (set_queue l (Some b) (queue s)) = in_flight (queue s)) as Hf by (unfold in_flight; cbn; by rewrite Hr, Hq).
    destruct H as [Hp Hn Hd Hrm Hen Ho]. split; cbn [queue held queued]; rewrite ?Hf; try done.
    rewrite Hq in Hrm. cbn in *. lia.
Qed.

Lemma print_ok s : ok s ->
  match loop_print (queue s) with
  | None => True
  | Some o => exists q', o = Ret q' /\ ok (mkSystem q' (held s) (queued s))
  end.
Proof.
  intros H. unfold loop_print. destruct (received (queue s)) as [b|] eqn:Hr; [|done].
  assert (in_flight (queue s) = b :: metricsQueue (queue s)) as Hf by (unfold in_flight; by rewrite Hr).
  destruct H as [Hp Hn Hd Hrm He Ho]. rewrite Hf in *. apply NoDup_cons in Hn as [Hbq Hn].
  destruct (BufPool.inv_mem _ _ Hp b ltac:(right; set_solver)) as [data Hdata].
  destruct (BufPool.ReturnBuf_inv _ _ b Hp ltac:(set_solver)) as (p & -> & Hi & Hm & _). rewrite Hdata. cbn [must]. rewrite !bind_ret.
  eexists. split; [done|]. split; cbn [queue held queued bufs metricsQueue queueSize]; try done.
  - change (in_flight _) with (metricsQueue (queue s)).
    replace (held s ∪ list_to_set (metricsQueue (queue s))) with ((held s ∪ list_to_set (b :: metricsQueue (queue s))) ∖ {[b]} : gset nat); [done|].
    pose proof (Hd b ltac:(set_solver)). set_solver.
  - intros x Hx. apply Hd. set_solver.
  - intros E. by destruct (He E).
  - change (in_flight _) with (metricsQueue (queue s)). cbn [stdout]. rewrite (map_contents (queue s) _ b); [|done|by cbn; rewrite Hm].
    rewrite <- Ho. assert (contents (queue s) b = data) as Hcb by (unfold contents; by rewrite Hdata).
    change (lines (map ?f (b :: ?l))) with (line (f b) ++ lines (map f l)). rewrite Hcb. unfold line.
    by rewrite <- !app_assoc.
Qed.

(** No allowed step panics, and every step keeps the invariant. *)
Lemma exec_ok e s : ok s -> allowed e s ->
  match exec e s with None => True | Some o => exists s', o = Ret s' /\ ok s' end.
Proof.
  intros H Ha. destruct e as [|b data|b|b| | |]; cbn in Ha.
  - destruct (get_ok s H) as (s' & -> & ?). by eexists.
  - eexists. split; [done|]. by apply write_ok.
  - destruct (return_ok s b H Ha) as (s' & -> & ?). by eexists.
  - destruct Ha as [Hb Hc]. cbn [exec]. destruct (QueueBuf b (queue s)) as [o|] eqn:E; [|done]. cbn.
    assert (exists q', o = Ret q') as (q' & ->).
    { unfold QueueBuf in E. rewrite Hc in E. repeat case_match; simplify_eq; by eexists. }
    eexists. split; [done|]. by apply queue_ok.
  - cbn [exec]. destruct (loop_receive (queue s)) as [q'|] eqn:E; [|done]. cbn. eexists. split; [done|]. by apply (receive_ok s).
  - cbn [exec]. pose proof (print_ok s H) as Hp. destruct (loop_print (queue s)) as [o|]; [|done]. destruct Hp as (q' & -> & Hq). cbn. by eexists.
  - cbn [exec]. unfold Shutdown. rewrite Ha, bind_ret. eexists. split; [done|]. destruct H as [Hp Hn Hd Hrm He Ho]. split; try done.
    intros E. by destruct (He E).
Qed.

Lemma new_ok RAMInBytes cfg q0 : NewStdoutMetricsQueue RAMInBytes cfg = Ret (inr q0) -> ok (mkSystem q0 ∅ []) /\ isClosed q0 = false.
Proof.
  intros Hn. unfold NewStdoutMetricsQueue in Hn. destruct (section _ _ _) as [[c|]|]; [|done|done]. cbn [must] in Hn. rewrite bind_ret in Hn.
  destruct (RAMInBytes _); [|done]. apply bind_Ret_inv in Hn as (n & _ & [= <-]). split; [|done].
  split; try done; [apply BufPool.inv_new|constructor|]. cbn. lia.
Qed.

(** ** The interface of the queues *)

(** What the goroutine and the clients do between two calls of the interface. *)
Definition act (e : event) (s : system) : option (outcome system) :=
  match e with Queue _ | Stop => None | _ => exec e s end.
Definition shutdown (s : system) : outcome system := q ← Shutdown (queue s); Ret (mkSystem q (held s) (queued s)).

#[export] Instance stdout_queue : MetricsQueue.MetricsQueue system nat event := {|
  MetricsQueue.QueueBuf b := exec (Queue b);
  MetricsQueue.contents b s := contents (queue s) b;
  MetricsQueue.act := act;
  MetricsQueue.Shutdown := shutdown;
  MetricsQueue.is_open s := negb (isClosed (queue s));
  MetricsQueue.returned s := ended (queue s)
|}.

(** The steps between the calls keep the channel open or closed, and the history. *)
Lemma act_keeps e s s' : act e s = Some (Ret s') -> isClosed (queue s') = isClosed (queue s) /\ queued s' = queued s.
Proof.
  destruct e as [|b data|b|b| | |]; cbn [act exec]; try done.
  - intros [= H]. apply bind_Ret_inv in H as ([q b] & Hg & [= <-]). unfold GetBuf in Hg. by apply bind_Ret_inv in Hg as ([p b'] & _ & [= <- <-]).
  - by intros [= <-].
  - intros [= H]. apply bind_Ret_inv in H as (q & Hg & [= <-]). unfold ReturnBuf in Hg. by apply bind_Ret_inv in Hg as (p & _ & [= <-]).
  - unfold loop_receive. destruct (ended (queue s)); [done|]. destruct (received (queue s)); [done|].
    destruct (metricsQueue (queue s)); [destruct (isClosed (queue s)) eqn:Hc; [|done]|]; by intros [= <-].
  - unfold loop_print. destruct (received (queue s)) as [b|]; [|done]. intros [= H]. apply bind_Ret_inv in H as (q & Hq & [= <-]).
    apply bind_Ret_inv in Hq as (data & _ & Hq). by apply bind_Ret_inv in Hq as (p & _ & [= <-]).
Qed.

(** How much the goroutine has to do before it ends. *)
Definition left_steps (q : StdoutMetricsQueue) : nat :=
  2 * length (metricsQueue q) + length (option_list (received q)) + (if ended q then 0 else 1).

Lemma goroutine_progress s : ok s -> isClosed (queue s) = true -> ended (queue s) = false ->
  exists e s', allowed e s /\ act e s = Some (Ret s') /\ left_steps (queue s') < left_steps (queue s).
Proof.
  intros H Hc He. destruct (received (queue s)) as [b|] eqn:Hr.
  - pose proof (print_ok s H) as Hp. destruct (loop_print (queue s)) as [o|] eqn:E; [|unfold loop_print in E; by rewrite Hr in E].
    destruct Hp as (q' & -> & _). exists LoopPrint, (mkSystem q' (held s) (queued s)). split; [done|]. cbn [act exec]. rewrite E. split; [done|].
    unfold loop_print in E. rewrite Hr in E. injection E as E. apply bind_Ret_inv in E as (data & _ & E). apply bind_Ret_inv in E as (p & _ & [= <-]).
    unfold left_steps. cbn. rewrite Hr, He. cbn. lia.
  - destruct (loop_receive (queue s)) as [q'|] eqn:E; unfold loop_receive in E; rewrite He, Hr in E.
    2:{ rewrite Hc in E. by destruct (metricsQueue (queue s)). }
    exists LoopReceive, (mkSystem q' (held s) (queued s)). split; [done|]. cbn [act exec]. unfold loop_receive. rewrite He, Hr.
    split; [by rewrite E|]. unfold left_steps. rewrite Hr, He. destruct (metricsQueue (queue s)) as [|b l].
    + rewrite Hc in E. injection E as <-. cbn. lia.
    + injection E as <-. cbn. rewrite He. cbn. lia.
Qed.

Lemma goroutine_ends s : ok s -> isClosed (queue s) = true ->
  exists s', rtc (fun s s' => exists e, allowed e s /\ act e s = Some (Ret s')) s s' /\ ended (queue s') = true.
Proof.
  remember (left_steps (queue s)) as k eqn:Ek. revert s Ek. induction (lt_wf k) as [k _ IH]. intros s -> H Hc.
  destruct (ended (queue s)) eqn:He; [by exists s; split; [apply rtc_refl|]|].
  destruct (goroutine_progress s H Hc He) as (e & s1 & Ha & Hs & Hlt). destruct (act_keeps e s s1 Hs) as [Hc1 _].
  assert (ok s1) as H1.
  { assert (exec e s = Some (Ret s1)) as Hx by (destruct e; done). pose proof (exec_ok e s H Ha) as Ho. rewrite Hx in Ho. by destruct Ho as (? & [= <-] & ?). }
  destruct (IH _ Hlt s1 eq_refl H1) as (s' & Hs' & He'); [by rewrite Hc1|]. exists s'. split; [|done]. eapply rtc_l; [by exists e|done].
Qed.

(** As long as the queue is open it can take a buffer: the goroutine makes room. *)
Lemma makes_room s : ok s -> isClosed (queue s) = false ->
  exists s', rtc (fun s s' => exists e, allowed e s /\ act e s = Some (Ret s')) s s' /\ ok s' /\ isClosed (queue s') = false /\
    forall b, is_Some (QueueBuf b (queue s')).
Proof.
  remember (left_steps (queue s)) as k eqn:Ek. revert s Ek. induction (lt_wf k) as [k _ IH]. intros s -> H Hc.
  assert (ended (queue s) = false) as He by (destruct (ended (queue s)) eqn:E; [destruct (ok_ended s H E); congruence|done]).
  assert (forall e s1, allowed e s -> act e s = Some (Ret s1) -> ok s1 -> left_steps (queue s1) < left_steps (queue s) ->
    exists s', rtc (fun s s' => exists e, allowed e s /\ act e s = Some (Ret s')) s s' /\ ok s' /\ isClosed (queue s') = false /\
      forall b, is_Some (QueueBuf b (queue s'))) as Hgo.
  { intros e s1 Ha Hs Hok1 Hlt. destruct (act_keeps e s s1 Hs) as [Hc1 _]. destruct (IH _ Hlt s1 eq_refl Hok1 ltac:(congruence)) as (s' & Hs' & Hrest).
    exists s'. split; [|done]. eapply rtc_l; [by exists e|done]. }
  destruct (received (queue s)) as [b|] eqn:Hr.
  - pose proof (print_ok s H) as Hp. destruct (loop_print (queue s)) as [o|] eqn:E; [|unfold loop_print in E; by rewrite Hr in E].
    destruct Hp as (q' & -> & Hok'). apply (Hgo LoopPrint (mkSystem q' (held s) (queued s))); [done|cbn [act exec]; by rewrite E|done|].
    unfold loop_print in E. rewrite Hr in E. injection E as E. apply bind_Ret_inv in E as (data & _ & E). apply bind_Ret_inv in E as (p & _ & [= <-]).
    unfold left_steps. cbn. rewrite Hr, He. cbn. lia.
  - destruct (length (metricsQueue (queue s)) <? queueSize (queue s)) eqn:Hl.
    { exists s. split; [apply rtc_refl|]. split; [done|]. split; [done|]. intros b. unfold QueueBuf. rewrite Hc, Hl. by eexists. }
    destruct (metricsQueue (queue s)) as [|b l] eqn:Hq.
    { exists s. split; [apply rtc_refl|]. split; [done|]. split; [done|]. intros b. unfold QueueBuf. rewrite Hc, Hq, Hl, He, Hr.
      apply Nat.ltb_ge in Hl. simpl in Hl. rewrite (proj2 (Nat.eqb_eq _ _)) by lia. by eexists. }
    assert (loop_receive (queue s) = Some (set_queue l (Some b) (queue s))) as E by (unfold loop_receive; by rewrite He, Hr, Hq).
    apply (Hgo LoopReceive (mkSystem (set_queue l (Some b) (queue s)) (held s) (queued s))); [done|cbn [act exec]; by rewrite E|by apply receive_ok|].
    unfold left_steps. cbn. rewrite Hr, He, Hq. cbn. lia.
Qed.

(** Queueing does not look at the buffers. *)
Lemma QueueBuf_bufs b p q : QueueBuf b (set_bufs p q) = (fun o => q ← o; Ret (set_bufs p q)) <$> QueueBuf b q.
Proof.
  unfold QueueBuf. cbn [set_bufs isClosed metricsQueue queueSize received ended]. destruct (isClosed q); [done|].
  destruct (_ <? _); [done|]. by destruct (_ && _).
Qed.

Lemma can_take s data : ok s -> isClosed (queue s) = false ->
  exists s1 b s2, rtc (fun s s' => exists e, allowed e s /\ act e s = Some (Ret s')) s s1 /\
    b ∈ held s1 /\ contents (queue s1) b = data /\ exec (Queue b) s1 = Some (Ret s2).
Proof.
  intros H Hc. destruct (makes_room s H Hc) as (s0 & Hs & H0 & Hc0 & Hroom).
  destruct (get_ok s0 H0) as (s1 & Hg & H1). pose proof Hg as Hg'. cbn [exec] in Hg'. injection Hg' as Hg'.
  apply bind_Ret_inv in Hg' as ([q b] & Hgb & [= <-]). unfold GetBuf in Hgb. apply bind_Ret_inv in Hgb as ([p b'] & Hgb & [= <- <-]).
  set (q1 := set_bufs p (queue s0)) in *. assert (b' ∈ {[b']} ∪ held s0) as Hb by set_solver.
  destruct (Hroom b') as [o Ho]. assert (exists q', o = Ret q') as [q' ->].
  { unfold QueueBuf in Ho. rewrite Hc0 in Ho. repeat case_match; simplify_eq; by eexists. }
  pose proof (QueueBuf_bufs b' (bufs (write b' data q1)) (queue s0)) as Hq.
  change (set_bufs (bufs (write b' data q1)) (queue s0)) with (write b' data q1) in Hq. rewrite Ho in Hq.
  eexists (mkSystem (write b' data q1) ({[b']} ∪ held s0) (queued s0)), b', _. split; [|split; [exact Hb|split]].
  - eapply rtc_r; [eapply rtc_r; [exact Hs|by exists Get]|]. exists (Write b' data). by split.
  - unfold q1, write, contents. cbn. by rewrite lookup_insert_eq, (GetBuf_mem _ _ _ Hgb), lookup_insert_eq.
  - cbn [exec queue]. rewrite Hq. reflexivity.
Qed.

#[export] Instance stdout_laws : MetricsQueue.QueueLaws system nat event.
Proof.
  refine {|
    MetricsQueue.inv l s := ok s /\ queued s = l;
    MetricsQueue.data_ok _ := True;
    MetricsQueue.buf_ok b s := b ∈ held s;
    MetricsQueue.act_ok := allowed;
    MetricsQueue.kept l s := stdout (queue s) = lines l
  |}; cbn [MetricsQueue.QueueBuf MetricsQueue.contents MetricsQueue.act MetricsQueue.Shutdown MetricsQueue.is_open MetricsQueue.returned stdout_queue].
  - intros l b s r [H <-] Hc%negb_true_iff Hb _ Hq. pose proof (exec_ok (Queue b) s H (conj Hb Hc)) as Ho. rewrite Hq in Ho.
    destruct Ho as (s' & -> & Hok). exists s'. split; [done|]. cbn [exec] in Hq. destruct (QueueBuf b (queue s)) as [o|] eqn:E; [|done].
    injection Hq as Hq. apply bind_Ret_inv in Hq as (q' & -> & [= <-]). split; [by split|]. cbn.
    by destruct (queue_flight s b q' H Hc E) as (_ & _ & _ & -> & _).
  - intros l e s r [H <-] Ha He. assert (exec e s = Some r) as Hx by (by destruct e). pose proof (exec_ok e s H Ha) as Ho. rewrite Hx in Ho.
    destruct Ho as (s' & -> & Hok). exists s'. split; [done|]. destruct (act_keeps e s s' He) as [-> ->]. by split.
  - intros l s [H <-] Hc%negb_true_iff. pose proof (exec_ok Stop s H Hc) as Ho. cbn [exec] in Ho. destruct Ho as (s' & Hs & Hok).
    exists s'. unfold shutdown. rewrite Hs. split; [done|]. unfold Shutdown in Hs. rewrite Hc, bind_ret in Hs. injection Hs as <-. by split.
  - intros l s [H <-] He. destruct (ok_ended s H He) as [_ Hf]. pose proof (ok_out s H) as Ho. rewrite Hf in Ho. by rewrite app_nil_r in Ho.
  - intros l s b [H <-] Hc%negb_true_iff _. destruct (can_take s b H Hc) as (s1 & x & s2 & Hs & Hx). exists s1, x, s2. split; [exact Hs|done].
  - intros l s [H <-] Hc%negb_false_iff. by apply goroutine_ends.
Defined.

(** the output.  Whatever the clients and the goroutine do, in whatever order,
    as long as a client writes, queues and returns only buffers that it holds and
    nothing is queued after the shutdown: no step panics, and what was printed
    followed by the buffers on their way is, line by line, what was queued, in
    that order; once the goroutine has ended after a shutdown all of it was
    printed. *)
Theorem stdout_queue_order RAMInBytes cfg q0 s :
  NewStdoutMetricsQueue RAMInBytes cfg = Ret (inr q0) -> reachable q0 s ->
  stdout (queue s) ++ lines (map (contents (queue s)) (in_flight (queue s))) = lines (queued s) /\
  (ended (queue s) = true -> stdout (queue s) = lines (queued s)) /\
  (forall e, allowed e s -> match exec e s with None => True | Some o => exists s', o = Ret s' end).
Proof.
  intros Hn Hr. assert (ok s) as H.
  { induction Hr as [|s e s' _ IH Ha He]; [by eapply (proj1 (new_ok _ _ _ Hn))|].
    pose proof (exec_ok e s IH Ha) as Hok. rewrite He in Hok. destruct Hok as (s2 & [= <-] & ?). done. }
  split; [apply H|]. split.
  - intros He. destruct (ok_ended s H He) as [_ Hf]. pose proof (ok_out s H) as Ho. rewrite Hf in Ho. by rewrite app_nil_r in Ho.
  - intros e Ha. pose proof (exec_ok e s H Ha) as Ho. destruct (exec e s) as [o|]; [|done]. destruct Ho as (s' & -> & _). by eexists.
Qed.

(** Two buffers through a queue of one. *)
Definition sample_queue (size : Z) : StdoutMetricsQueue :=
  match NewStdoutMetricsQueue (fun _ => Some 65536%Z) (AnyOwn (mkCompressor 1 1 size 6 [] [])) with
  | Ret (inr q) => q
  | _ => mkQueue (BufPool.NewBufPool 0 ∅) [] 0 false 0 None false []
  end.
Fixpoint run (es : list event) (s : system) : option system :=
  match es with
  | [] => Some s
  | e :: es => match exec e s with Some (Ret s') => run es s' | _ => None end
  end.
Definition sample_events : list event :=
  [Get; Write 0 (bs "a 1"); Queue 0; Get; Write 1 (bs "b 2"); LoopReceive; Queue 1; LoopPrint; LoopReceive; LoopPrint].
Definition sample_end (size : Z) : system := default (mkSystem (sample_queue size) ∅ []) (run sample_events (mkSystem (sample_queue size) ∅ [])).

Lemma run_reachable q0 es s s' :
  reachable q0 s -> run es s = Some s' ->
  (fix all es s := match es with [] => True | e :: es => allowed e s /\ match exec e s with Some (Ret s') => all es s' | _ => True end end) es s ->
  reachable q0 s'.
Proof.
  revert s. induction es as [|e es IH]; intros s Hr; cbn [run]; [by intros [= <-]|].
  destruct (exec e s) as [[s1| |]|] eqn:He; try done. intros Hrun [Ha Hall]. apply (IH s1); [by eapply reach_step|done|done].
Qed.

Lemma stdout_queue_order_witness :
  reachable (sample_queue 1) (sample_end 1) /\ queued (sample_end 1) = [bs "a 1"; bs "b 2"] /\
  stdout (queue (sample_end 1)) ++ lines (map (contents (queue (sample_end 1))) (in_flight (queue (sample_end 1)))) = lines (queued (sample_end 1)).
Proof.
  assert (reachable (sample_queue 1) (sample_end 1)) as Hr.
  { apply (run_reachable _ sample_events (mkSystem (sample_queue 1) ∅ [])); [constructor|vm_compute; reflexivity|].
    vm_compute. repeat split. }
  split; [exact Hr|]. split; [vm_compute; reflexivity|].
  exact (proj1 (stdout_queue_order (fun _ => Some 65536%Z) (AnyOwn (mkCompressor 1 1 1 6 [] [])) (sample_queue 1) (sample_end 1) eq_refl Hr)).
Defined.

End StdoutQueue.
