(* ===== verification/SendBody.v ===== *)
(** The request bodies of HttpEndpointPool.SendBuffer
    (lsvmi/http_endpoint_pool.go): the interface ReadSeekRewindCloser with its
    two implementations, BytesReadSeekCloser and CreditReader
    (lsvmi/rate_controller.go), and the retries over them.

    The interface is a class of operations with a class of laws; what SendBuffer
    relies on is proved from the laws, and both implementations have them. *)

From Stdlib Require Import ZArith Lia.
From stdpp Require Import base tactics numbers strings gmap list.
From S2P Require Import Prelude Scan RateController.
Local Open Scope Z_scope.

Module SendBody.
Import RateController.

(** ** The interface *)

Class ReadSeekRewindCloser (B : Type) := {
  body_Read : Z -> B -> outcome (B * bytes * option io_error);
  body_Seek : Z -> Z -> B -> B * (io_error + Z);
  body_Close : B -> B;
  body_Rewind : B -> B
}.

(** What an implementation promises: [payload] is all that it holds, [rest] what
    it has left when it is open, [good] its invariant. *)
Class BodyLaws (B : Type) `{ReadSeekRewindCloser B} (good : B -> Prop) (payload rest : B -> bytes) (open : B -> Prop) := {
  law_read : forall lenp x, 0 < lenp -> good x ->
    exists x' data err, body_Read lenp x = Ret (x', data, err) /\ good x' /\ payload x' = payload x /\
      (open x -> open x' /\ data ++ rest x' = rest x /\
        (err = None /\ data <> [] \/ err = Some EOF /\ rest x = []));
  law_seek : forall offset whence x, MinInt64 <= offset <= MaxInt64 -> good x ->
    good (body_Seek offset whence x).1 /\ payload (body_Seek offset whence x).1 = payload x;
  law_close : forall x, good x -> good (body_Close x) /\ payload (body_Close x) = payload x;
  law_rewind : forall x, good x ->
    good (body_Rewind x) /\ open (body_Rewind x) /\ payload (body_Rewind x) = payload x /\ rest (body_Rewind x) = payload x
}.

(** A reader that reads with buffers of [lenp] bytes until the end of file. *)
Definition read_body {B} `{ReadSeekRewindCloser B} (lenp : Z) (st : B * bytes) : outcome ((B * bytes) + (B * bytes)) :=
  let '(x, acc) := st in
  '(x, data, err) ← body_Read lenp x;
  Ret (match err with Some _ => inr (x, acc ++ data) | None => inl (x, acc ++ data) end).
Definition read_to_end {B} `{ReadSeekRewindCloser B} (lenp : Z) (fuel : nat) (x : B) : outcome (B * bytes) :=
  while fuel (read_body lenp) (x, []).

(** ** The bytes *)

(** [bytes.Reader]. *)
Record Reader := mkReader { rd_s : bytes; rd_i : Z }.

Definition rd_Read (lenp : Z) (x : Reader) : Reader * bytes * option io_error :=
  if Z.of_nat (length (rd_s x)) <=? rd_i x then (x, [], Some EOF)
  else
    let data := take (Z.to_nat lenp) (drop (Z.to_nat (rd_i x)) (rd_s x)) in
    (mkReader (rd_s x) (rd_i x + Z.of_nat (length data)), data, None).

Definition rd_Seek (offset whence : Z) (x : Reader) : Reader * (io_error + Z) :=
  let abs :=
    if whence =? SeekStart then Some offset
    else if whence =? SeekCurrent then Some (i64 (rd_i x + offset))
    else if whence =? SeekEnd then Some (i64 (Z.of_nat (length (rd_s x)) + offset))
    else None in
  match abs with
  | None => (x, inl ErrWhence)
  | Some abs => if abs <? 0 then (x, inl ErrOffset) else (mkReader (rd_s x) abs, inr abs)
  end.

Record BytesReadSeekCloser := mkBRSC { rs : Reader; br_closed : bool; closedPos : Z }.

Definition br_Read (lenp : Z) (x : BytesReadSeekCloser) : outcome (BytesReadSeekCloser * bytes * option io_error) :=
  if br_closed x then Ret (x, [], None)
  else let '(r, data, err) := rd_Read lenp (rs x) in Ret (mkBRSC r (br_closed x) (closedPos x), data, err).

Definition br_Seek (offset whence : Z) (x : BytesReadSeekCloser) : BytesReadSeekCloser * (io_error + Z) :=
  if br_closed x then (x, inr (closedPos x))
  else let '(r, res) := rd_Seek offset whence (rs x) in (mkBRSC r (br_closed x) (closedPos x), res).

Definition br_Close (x : BytesReadSeekCloser) : BytesReadSeekCloser := mkBRSC (rs x) true (closedPos x).

Definition br_Rewind (x : BytesReadSeekCloser) : BytesReadSeekCloser :=
  (br_Seek 0 SeekStart (mkBRSC (rs x) false (closedPos x))).1.

Definition NewBytesReadSeekCloser (b : bytes) : BytesReadSeekCloser :=
  mkBRSC (mkReader b 0) (bool_decide (b = [])) (Z.of_nat (length b)).

#[export] Instance bytes_body : ReadSeekRewindCloser BytesReadSeekCloser := {
  body_Read := br_Read; body_Seek := br_Seek; body_Close := br_Close; body_Rewind := br_Rewind }.

#[export] Instance credit_body {C} `{CreditController C} : ReadSeekRewindCloser (CreditReader C) := {
  body_Read := Read; body_Seek := Seek; body_Close := Close; body_Rewind := Rewind }.

(** ** The body of a request *)

(** [var body ReadSeekRewindCloser]: one implementation or the other. *)
#[export] Instance sum_body {A B} `{ReadSeekRewindCloser A, ReadSeekRewindCloser B} : ReadSeekRewindCloser (A + B) := {
  body_Read lenp x := match x with
    | inl a => '(a, data, err) ← body_Read lenp a; Ret (inl a, data, err)
    | inr b => '(b, data, err) ← body_Read lenp b; Ret (inr b, data, err)
    end;
  body_Seek offset whence x := match x with
    | inl a => let '(a, res) := body_Seek offset whence a in (inl a, res)
    | inr b => let '(b, res) := body_Seek offset whence b in (inr b, res)
    end;
  body_Close x := match x with inl a => inl (body_Close a) | inr b => inr (body_Close b) end;
  body_Rewind x := match x with inl a => inl (body_Rewind a) | inr b => inr (body_Rewind b) end }.

Definition new_body {C} `{CreditController C} (credit : option C) (b : bytes) : CreditReader C + BytesReadSeekCloser :=
  match credit with Some c => inl (NewCreditReader c 128 b) | None => inr (NewBytesReadSeekCloser b) end.

(** What the HTTP client does with the body during an attempt. *)
Inductive use := UseRead (lenp : Z) | UseSeek (offset whence : Z) | UseClose.

Definition use_ok (u : use) : Prop :=
  match u with UseRead lenp => 0 < lenp | UseSeek offset _ => MinInt64 <= offset <= MaxInt64 | UseClose => True end.

Definition do_use {B} `{ReadSeekRewindCloser B} (u : use) (x : B) : outcome B :=
  match u with
  | UseRead lenp => '(x, _, _) ← body_Read lenp x; Ret x
  | UseSeek offset whence => Ret (body_Seek offset whence x).1
  | UseClose => Ret (body_Close x)
  end.

Fixpoint do_uses {B} `{ReadSeekRewindCloser B} (us : list use) (x : B) : outcome B :=
  match us with [] => Ret x | u :: us => x ← do_use u x; do_uses us x end.

(** [if attempt > 1 { body.Rewind() }]. *)
Definition start {B} `{ReadSeekRewindCloser B} (attempt : nat) (x : B) : B :=
  if (1 <? attempt)%nat then body_Rewind x else x.

(** The attempts from number [n] on, each with what the client does. *)
Fixpoint attempts {B} `{ReadSeekRewindCloser B} (n : nat) (uss : list (list use)) (x : B) : outcome B :=
  match uss with
  | [] => Ret (start n x)
  | us :: uss => x ← do_uses us (start n x); attempts (S n) uss x
  end.

(** ** The laws of the implementations *)

Definition br_good (x : BytesReadSeekCloser) : Prop := 0 <= rd_i (rs x).
Definition br_payload (x : BytesReadSeekCloser) : bytes := rd_s (rs x).
Definition br_rest (x : BytesReadSeekCloser) : bytes := drop (Z.to_nat (rd_i (rs x))) (rd_s (rs x)).
Definition br_open (x : BytesReadSeekCloser) : Prop := br_closed x = false.

Lemma rd_Read_spec lenp x :
  0 < lenp -> 0 <= rd_i x ->
  exists x' data err, rd_Read lenp x = (x', data, err) /\ 0 <= rd_i x' /\ rd_s x' = rd_s x /\
    data ++ drop (Z.to_nat (rd_i x')) (rd_s x) = drop (Z.to_nat (rd_i x)) (rd_s x) /\
    (err = None /\ data <> [] \/ err = Some EOF /\ drop (Z.to_nat (rd_i x)) (rd_s x) = []).
Proof.
  intros Hl Hi. unfold rd_Read. destruct (Z.leb_spec (Z.of_nat (length (rd_s x))) (rd_i x)).
  - eexists _, _, _. split; [done|]. split; [done|]. split; [done|]. split; [done|]. right. split; [done|]. apply drop_ge. lia.
  - eexists _, _, _. split; [done|]. cbn [rd_i rd_s]. split; [lia|]. split; [done|]. split.
    + rewrite Z2Nat.inj_add, Nat2Z.id, <- drop_drop by lia. set (l := drop (Z.to_nat (rd_i x)) (rd_s x)).
      rewrite length_take. destruct (decide (Z.to_nat lenp <= length l)%nat).
      * rewrite Nat.min_l by done. apply take_drop.
      * rewrite Nat.min_r by lia. rewrite take_ge, drop_all by lia. apply app_nil_r.
    + left. split; [done|]. intros E. apply (f_equal length) in E. rewrite length_take, length_drop in E. cbn in E. lia.
Qed.

#[export] Instance bytes_laws : BodyLaws BytesReadSeekCloser br_good br_payload br_rest br_open.
Proof.
  split.
  - intros lenp x Hl Hg. cbn. unfold br_Read. destruct (br_closed x) eqn:Hc.
    { eexists _, _, _. split; [done|]. split; [done|]. split; [done|]. unfold br_open. congruence. }
    destruct (rd_Read_spec lenp (rs x) Hl Hg) as (r & data & err & -> & Hi & Hs & Hd & He).
    eexists _, _, _. split; [done|]. split; [done|]. split; [done|]. intros _. split; [done|]. split; [|done].
    unfold br_rest. cbn. by rewrite Hs.
  - intros offset whence x Ho Hg. cbn. unfold br_Seek. destruct (br_closed x); [done|]. unfold rd_Seek.
    destruct (if whence =? SeekStart then _ else _) as [abs|]; [|done]. destruct (Z.ltb_spec abs 0); [done|]. by split.
  - done.
  - intros x Hg. by repeat split.
Qed.

Section credit.
Context {C : Type} `{CreditLaws C ready}.

(** The credit is enough for the whole payload. *)
Definition cr_good (x : CreditReader C) : Prop := reader_wf x /\ exists m, ready m (cc x) /\ n x <= m /\ n x <= MaxInt64.
Definition cr_rest (x : CreditReader C) : bytes := drop (Z.to_nat (r x)) (b x).
Definition cr_open (x : CreditReader C) : Prop := closed x = false.

Lemma Read_end lenp (x : CreditReader C) : closed x = false -> n x <= r x -> Read lenp x = Ret (x, [], Some EOF).
Proof. intros Hc Hr. unfold Read. rewrite Hc. by rewrite (proj2 (Z.leb_le _ _)) by lia. Qed.

#[export] Instance credit_laws : BodyLaws (CreditReader C) cr_good b cr_rest cr_open.
Proof.
  split.
  - intros lenp x Hl [Hwf (m & Hm & Hn & Hmax)]. cbn [body_Read credit_body]. destruct (closed x) eqn:Hc.
    { exists x, [], None. unfold Read. rewrite Hc. split; [done|]. split; [by split; [|exists m]|]. split; [done|]. unfold cr_open. congruence. }
    pose proof Hwf as (Hnb & Hr & Hmin). destruct (decide (r x < n x)) as [Hlt|Hge].
    + destruct (Read_progress m lenp x Hwf Hc Hm Hl ltac:(lia) Hlt) as (x' & k & -> & Hk & Hr' & Hrn & _ & Hb & Hn' & Hmc & Hc' & Hm').
      eexists _, _, _. split; [done|]. split.
      { split; [|exists m; rewrite Hn'; by split_and!]. unfold reader_wf. rewrite Hb, Hn', Hmc. lia. }
      split; [done|]. intros _. split; [done|]. split.
      * unfold cr_rest. rewrite Hb, Hr', Z2Nat.inj_add, Nat2Z.id, <- drop_drop by lia. apply take_drop.
      * left. split; [done|]. intros E. apply (f_equal length) in E. rewrite length_take, length_drop in E. cbn in E. lia.
    + rewrite (Read_end lenp x Hc) by lia. exists x, [], (Some EOF). split; [done|]. split; [by split; [|exists m]|]. split; [done|]. intros _.
      split; [done|]. split; [done|]. right. split; [done|]. unfold cr_rest. apply drop_ge. lia.
  - intros offset whence x Ho [Hwf Hm]. cbn [body_Seek credit_body]. unfold Seek.
    destruct (if whence =? SeekCurrent then _ else _) as [newR|]; [|done]. destruct (_ || _) eqn:E; [done|]. destruct (closed x); [done|].
    split; [|done]. split; [|done]. unfold reader_wf in *. cbn. lia.
  - intros x Hg. done.
  - intros x [Hwf Hm]. split; [|done]. split; [|done]. unfold reader_wf in *. cbn. lia.
Qed.
End credit.

Section sum.
Context {A B : Type} `{BodyLaws A goodA payA restA openA} `{BodyLaws B goodB payB restB openB}.
Definition either {T} (f : A -> T) (g : B -> T) (x : A + B) : T := match x with inl a => f a | inr b => g b end.

#[export] Instance sum_laws : BodyLaws (A + B) (either goodA goodB) (either payA payB) (either restA restB) (either openA openB).
Proof.
  split.
  - intros lenp [a|b] Hl Hg; cbn [body_Read sum_body either] in *;
      [destruct (law_read lenp a Hl Hg) as (x' & data & err & -> & Hr)|destruct (law_read lenp b Hl Hg) as (x' & data & err & -> & Hr)];
      rewrite bind_ret; by eexists _, _, _.
  - intros offset whence [a|b] Ho Hg; cbn [body_Seek sum_body either] in *;
      [pose proof (law_seek offset whence a Ho Hg) as Hr|pose proof (law_seek offset whence b Ho Hg) as Hr]; by destruct (body_Seek _ _ _).
  - intros [a|b] Hg; [exact (law_close a Hg)|exact (law_close b Hg)].
  - intros [a|b] Hg; [exact (law_rewind a Hg)|exact (law_rewind b Hg)].
Qed.
End sum.

(** ** Retries *)

Section retries.
Context {B : Type} `{BodyLaws B good payload rest open}.

Lemma read_to_end_from lenp x acc fuel :
  0 < lenp -> good x -> open x -> (length (rest x) < fuel)%nat ->
  exists x', while fuel (read_body lenp) (x, acc) = Ret (x', acc ++ rest x).
Proof.
  intros Hl. revert x acc. induction fuel as [|fuel IH]; intros x acc Hg Ho Hf; [lia|]. cbn [while]. unfold read_body at 2.
  destruct (law_read lenp x Hl Hg) as (x' & data & err & -> & Hg' & _ & Hopen). destruct (Hopen Ho) as (Ho' & Hd & He). rewrite !bind_ret.
  destruct He as [[-> Hne]|[-> Hnil]].
  - destruct (IH x' (acc ++ data) Hg' Ho') as (x2 & ->).
    { rewrite <- Hd, length_app in Hf. destruct data; [done|]. cbn in Hf. lia. }
    exists x2. by rewrite <- app_assoc, Hd.
  - exists x'. rewrite Hnil in Hd. apply app_eq_nil in Hd as [-> _]. by rewrite Hnil.
Qed.

Lemma do_uses_good us x :
  Forall use_ok us -> good x -> exists x', do_uses us x = Ret x' /\ good x' /\ payload x' = payload x.
Proof.
  intros Hu. revert x. induction Hu as [|u us Hu _ IH]; intros x Hg; [by exists x|]. cbn [do_uses].
  assert (exists x1, do_use u x = Ret x1 /\ good x1 /\ payload x1 = payload x) as (x1 & -> & Hg1 & Hp1).
  { destruct u as [lenp|offset whence|]; cbn [do_use use_ok] in *.
    - destruct (law_read lenp x Hu Hg) as (x' & data & err & -> & Hg' & Hp & _). rewrite bind_ret. by exists x'.
    - eexists. split; [done|]. exact (law_seek offset whence x Hu Hg).
    - eexists. split; [done|]. exact (law_close x Hg). }
  rewrite bind_ret. destruct (IH x1 Hg1) as (x' & -> & ? & Hp). exists x'. by rewrite Hp, Hp1.
Qed.

Lemma attempts_rewound n uss x :
  (1 < n)%nat -> Forall (Forall use_ok) uss -> good x ->
  exists x', attempts n uss x = Ret x' /\ good x' /\ open x' /\ rest x' = payload x.
Proof.
  intros Hn Hu. revert n x Hn. induction Hu as [|us uss Hus _ IH]; intros n x Hn Hg; cbn [attempts]; unfold start;
    rewrite (proj2 (Nat.ltb_lt _ _) Hn); destruct (law_rewind x Hg) as (Hg' & Ho & Hp & Hr); [by eexists|].
  destruct (do_uses_good us (body_Rewind x) Hus Hg') as (x1 & -> & Hg1 & Hp1). rewrite bind_ret.
  destruct (IH (S n) x1 ltac:(lia) Hg1) as (x' & -> & ? & ? & Hr'). exists x'. by rewrite Hr', Hp1, Hp.
Qed.
End retries.

(** What [SendBuffer] relies on at the first attempt. *)
Lemma attempts_new {B} `{BodyLaws B good payload rest open} uss (x : B) :
  Forall (Forall use_ok) uss -> good x -> open x -> rest x = payload x ->
  exists x', attempts 1 uss x = Ret x' /\ good x' /\ open x' /\ rest x' = payload x.
Proof.
  intros Hu Hg Ho Hr. destruct Hu as [|us uss Hus Huss]; cbn [attempts]; [by exists x|].
  destruct (do_uses_good us (start 1 x) Hus Hg) as (x1 & -> & Hg1 & Hp1). rewrite bind_ret.
  destruct (attempts_rewound 2 uss x1 ltac:(lia) Huss Hg1) as (x' & -> & ? & ? & Hr'). exists x'. by rewrite Hr', Hp1.
Qed.

(** C20: the body of a retry.  Whatever the HTTP client did with the body in the
    failed attempts before (reads of any sizes, seeks, closing it), and with or
    without a rate limit, an attempt that reads the body to its end reads
    exactly the buffer, and its reads end. *)
Theorem send_body_retries {C} `{CreditLaws C ready} (credit : option C) m buf uss lenp :
  buf <> [] -> Z.of_nat (length buf) <= m <= MaxInt64 -> (forall c, credit = Some c -> ready m c) ->
  Forall (Forall use_ok) uss -> 0 < lenp ->
  exists x x', attempts 1 uss (new_body credit buf) = Ret x /\ read_to_end lenp (S (length buf)) x = Ret (x', buf).
Proof.
  intros Hne Hm Hc Hu Hl.
  destruct (attempts_new (good := either cr_good br_good) (payload := either b br_payload) (rest := either cr_rest br_rest)
    (open := either cr_open br_open) uss (new_body credit buf)) as (x & Hx & Hg & Ho & Hr); [done|..].
  - destruct credit as [c|]; cbn [new_body either]; [|done]. split; [unfold reader_wf; cbn; lia|]. exists m. cbn. split; [by apply Hc|lia].
  - destruct credit as [c|]; cbn [new_body either]; [done|]. unfold br_open. cbn. by rewrite bool_decide_eq_false_2.
  - by destruct credit as [c|].
  - exists x. assert (either b br_payload (new_body credit buf) = buf) as Hp by by destruct credit.
    destruct (read_to_end_from lenp x [] (S (length buf)) Hl Hg Ho) as (x' & Hx'); [rewrite Hr, Hp; lia|].
    exists x'. split; [exact Hx|]. unfold read_to_end. rewrite Hx', Hr, Hp. done.
Qed.

(** Two failed attempts: the first stops in the middle and closes, the second
    reads all. *)
Lemma send_body_retries_witness :
  exists x x', attempts 1 [[UseRead 3; UseClose]; [UseRead 100; UseRead 100]] (new_body (Some sample_credit) (bs "hello"))
    = Ret x /\ read_to_end 2 6 x = Ret (x', bs "hello").
Proof.
  apply (send_body_retries (Some sample_credit) 8 (bs "hello") [[UseRead 3; UseClose]; [UseRead 100; UseRead 100]] 2).
  - done.
  - vm_compute. by split.
  - intros c [= <-]. exact sample_ready.
  - repeat constructor; lia.
  - lia.
Defined.

End SendBody.
