(* ===== verification/Startup.v ===== *)
(** From the configuration to the running program: the constructors of the
    generators that take a configuration (New...Metrics of lsvmi), their task
    builders, the list of builders (lsvmi/metrics_common.go) and main (main.go).

    The constructors thread the initial cycle number as the global variable of
    the code does.  The tasks are added by main while the goroutines of the
    scheduler already run: [launch] interleaves them. *)

From Stdlib Require Import ZArith Lia.
From Stdlib Require Import Floats.SpecFloat.
From stdpp Require Import base tactics numbers strings gmap list fin_sets.
From S2P Require Import Prelude Scan GoLib GoTime GoFloat Scheduler MetricsCommon PidTidList.
From S2P Require Import PidStat PidStatus PidCmdline PidMetrics PidScan NetDevMetrics InternalMetrics SoftirqsMetrics.
From S2P Require Import InterruptsMetrics NetSnmp6Metrics NetSnmpMetrics StatMetrics DiskstatsMetrics StatfsMetrics QdiscMetrics OwnMetrics.
From S2P Require Import GoDuration Config Logger PoolConfig StdoutQueue Compressor EndpointPool.

Module Startup.
Import Config PoolConfig.

(** ** Generators *)

Inductive build_error :=
| ErrConfigType
| ErrInterval (e : GoDuration.error)
| ErrCacheInterval (e : GoDuration.error)
| ErrMemoryField (name : bytes).

(** What all constructors do: the section, its interval, the generator. *)
Definition construct {A G} (sec : option (option A)) (interval : A -> bytes) (make : A -> Z -> G * Z) (icm : Z)
    : outcome (build_error + (Z * G * Z)) :=
  match sec with
  | None => Ret (inl ErrConfigType)
  | Some c =>
    c ← must c;
    r ← GoDuration.ParseDuration (interval c);
    match r with
    | inl e => Ret (inl (ErrInterval e))
    | inr d => let '(g, icm) := make c icm in Ret (inr (d, g, icm))
    end
  end.

Definition NewProcStatMetrics (cfg : any_config GeneratorConfig) : Z -> outcome (build_error + (Z * StatMetrics.ProcStatMetrics * Z)) :=
  construct (section c_procStat DefaultProcStatMetricsConfig cfg) Interval (fun c => StatMetrics.NewProcStatMetrics (FullMetricsFactor c)).

Definition NewProcNetDevMetrics (cfg : any_config GeneratorConfig) : Z -> outcome (build_error + (Z * NetDevMetrics.ProcNetDevMetrics * Z)) :=
  construct (section c_procNetDev DefaultProcNetDevMetricsConfig cfg) Interval (fun c icm => (NetDevMetrics.NewProcNetDevMetrics (FullMetricsFactor c), icm)).

Definition NewProcInterruptsMetrics (cfg : any_config GeneratorConfig) : Z -> outcome (build_error + (Z * InterruptsMetrics.ProcInterruptsMetrics * Z)) :=
  construct (section c_procInterrupts DefaultProcInterruptsMetricsConfig cfg) Interval (fun c icm => (InterruptsMetrics.NewProcInterruptsMetrics (FullMetricsFactor c), icm)).

Definition NewProcSoftirqsMetrics (cfg : any_config GeneratorConfig) : Z -> outcome (build_error + (Z * SoftirqsMetrics.ProcSoftirqsMetrics * Z)) :=
  construct (section c_procSoftirqs DefaultProcSoftirqsMetricsConfig cfg) Interval (fun c icm => (SoftirqsMetrics.NewProcSoftirqsMetrics (FullMetricsFactor c), icm)).

Definition NewProcNetSnmpMetrics (cfg : any_config GeneratorConfig) : Z -> outcome (build_error + (Z * NetSnmpMetrics.ProcNetSnmpMetrics * Z)) :=
  construct (section c_procNetSnmp DefaultProcNetSnmpMetricsConfig cfg) Interval (fun c => NetSnmpMetrics.NewProcNetSnmpMetrics (FullMetricsFactor c)).

Definition NewProcNetSnmp6Metrics (cfg : any_config GeneratorConfig) : Z -> outcome (build_error + (Z * NetSnmp6Metrics.ProcNetSnmp6Metrics * Z)) :=
  construct (section c_procNetSnmp6 DefaultProcNetSnmp6MetricsConfig cfg) Interval (fun c => NetSnmp6Metrics.NewProcNetSnmp6Metrics (FullMetricsFactor c)).

Definition NewQdiscMetrics (cfg : any_config GeneratorConfig) : Z -> outcome (build_error + (Z * QdiscMetrics.QdiscMetrics * Z)) :=
  construct (section c_qdisc DefaultQdiscMetricsConfig cfg) Interval (fun c icm => (QdiscMetrics.NewQdiscMetrics (FullMetricsFactor c), icm)).

Definition NewProcDiskstatsMetrics (cfg : any_config ProcDiskstatsMetricsConfig) : Z -> outcome (build_error + (Z * DiskstatsMetrics.ProcDiskstatsMetrics * Z)) :=
  construct (section c_procDiskstats DefaultProcDiskstatsMetricsConfig cfg) (fun c => Interval (disk_gen c))
    (fun c => DiskstatsMetrics.NewProcDiskstatsMetrics (FullMetricsFactor (disk_gen c)) (disk_MountinfoPid c)).

(** The process of the mount information is used for the path of the file. *)
Definition NewStatfsMetrics (cfg : any_config StatfsMetricsConfig) : Z -> outcome (build_error + (Z * (StatfsMetrics.StatfsMetrics * Z) * Z)) :=
  construct (section c_statfs DefaultStatfsMetricsConfig cfg) (fun c => Interval (statfs_gen c))
    (fun c icm => let '(g, icm) := StatfsMetrics.NewStatfsMetrics (FullMetricsFactor (statfs_gen c)) (IncludeFilesystemTypes c) (ExcludeFilesystemTypes c) icm in
                  (g, statfs_MountinfoPid c, icm)).

(** The internal metrics with those of the Go runtime and of the process. *)
Record Internal := mkInternal {
  i_metrics : InternalMetrics.InternalMetrics;
  i_go : OwnMetrics.GoInternalMetrics;
  i_process : option OwnMetrics.ProcessInternalMetrics
}.
Definition NewInternalMetrics (OSNameNorm : bytes) (now now2 : Time) (cfg : any_config InternalMetricsConfig) : Z -> outcome (build_error + (Z * Internal * Z)) :=
  construct (section c_internal DefaultInternalMetricsConfig cfg) int_Interval
    (fun c icm => (mkInternal (InternalMetrics.NewInternalMetrics (OsMetricsFactor c) now now2) OwnMetrics.NewGoInternalMetrics
                     (OwnMetrics.NewProcessInternalMetrics OSNameNorm), icm)).

(** [pidStatusMemKeepIndex]: the selected fields, an error for an unknown name. *)
Fixpoint keep_indexes (names : list bytes) (keep : gset nat) : build_error + gset nat :=
  match names with
  | [] => inr keep
  | name :: names =>
    let index := PidStatus.PidStatusNameToIndex name in
    if (index <? 0)%Z then inl (ErrMemoryField name) else keep_indexes names ({[Z.to_nat index]} ∪ keep)
  end.

Record PidGen := mkPidGen { pg_cfg : PidScan.Config; pg_state : PidScan.ProcPidMetrics; pg_cache : PidTidList.PidTidListCache }.

(** A generator before its first execution has no formats and no parsers. *)
Definition NewProcProcPidMetrics (cfg : any_config ProcPidMetricsConfig) (partNo : Z) (cache : PidTidList.PidTidListCache)
    : outcome (build_error + (Z * PidGen)) :=
  match section c_procPid DefaultProcPidMetricsConfig cfg with
  | None => Ret (inl ErrConfigType)
  | Some c =>
    c ← must c;
    r ← GoDuration.ParseDuration (Interval (pid_gen c));
    match r with
    | inl e => Ret (inl (ErrInterval e))
    | inr d =>
      Ret (match (if UsePidStatus c then keep_indexes (PidStatusMemoryFields c) ∅ else inr ∅) with
           | inl e => inl e
           | inr keep =>
             inr (d, mkPidGen (PidScan.mkConfig partNo (FullMetricsFactor (pid_gen c)) (UsePidStatus c) keep)
               (PidScan.mkMetrics None (PidScan.mkCache ∅ None None ∅)
                  (PidScan.mkParsers PidStat.NewPidStat (if UsePidStatus c then Some PidStatus.NewPidStatus else None) PidCmdline.NewPidCmdline) 0 zeroTime)
               cache)
           end)
    end
  end.

(** ** Task builders *)

Inductive generator :=
| GInternal (g : Internal)
| GDiskstats (g : DiskstatsMetrics.ProcDiskstatsMetrics)
| GInterrupts (g : InterruptsMetrics.ProcInterruptsMetrics)
| GNetDev (g : NetDevMetrics.ProcNetDevMetrics)
| GNetSnmp6 (g : NetSnmp6Metrics.ProcNetSnmp6Metrics)
| GNetSnmp (g : NetSnmpMetrics.ProcNetSnmpMetrics)
| GPid (g : PidGen)
| GSoftirqs (g : SoftirqsMetrics.ProcSoftirqsMetrics)
| GStat (g : StatMetrics.ProcStatMetrics)
| GQdisc (g : QdiscMetrics.QdiscMetrics)
| GStatfs (g : StatfsMetrics.StatfsMetrics * Z).

(** A task with its action. *)
Abbreviation task := (Scheduler.Task * generator)%type.

(** What all task builders but one do: no task for an interval that is not
    positive. *)
Definition build {G} (id : bytes) (wrap : G -> generator) (new : outcome (build_error + (Z * G * Z))) : outcome (build_error + (list task * Z)) :=
  let? (d, g, icm) := new in
  Ret (inr (if (d <=? 0)%Z then [] else [(Scheduler.NewTask id d true, wrap g)], icm)).

Section builders.
Context (OSNameNorm : bytes) (now now2 : Time).

Definition InternalMetricsTaskBuilder (cfg : LsvmiConfig) (icm : Z) :=
  build InternalMetrics.INTERNAL_METRICS_ID GInternal (NewInternalMetrics OSNameNorm now now2 (AnyLsvmi cfg) icm).
Definition ProcDiskstatsMetricsTaskBuilder (cfg : LsvmiConfig) (icm : Z) :=
  build DiskstatsMetrics.PROC_DISKSTATS_METRICS_ID GDiskstats (NewProcDiskstatsMetrics (AnyLsvmi cfg) icm).
Definition ProcInterruptsMetricsTaskBuilder (cfg : LsvmiConfig) (icm : Z) :=
  build InterruptsMetrics.PROC_INTERRUPTS_METRICS_ID GInterrupts (NewProcInterruptsMetrics (AnyLsvmi cfg) icm).
Definition ProcNetDevMetricsTaskBuilder (cfg : LsvmiConfig) (icm : Z) :=
  build NetDevMetrics.PROC_NET_DEV_METRICS_ID GNetDev (NewProcNetDevMetrics (AnyLsvmi cfg) icm).
Definition ProcNetSnmp6MetricsTaskBuilder (cfg : LsvmiConfig) (icm : Z) :=
  build NetSnmp6Metrics.PROC_NET_SNMP6_METRICS_ID GNetSnmp6 (NewProcNetSnmp6Metrics (AnyLsvmi cfg) icm).
Definition ProcNetSnmpMetricsTaskBuilder (cfg : LsvmiConfig) (icm : Z) :=
  build NetSnmpMetrics.PROC_NET_SNMP_METRICS_ID GNetSnmp (NewProcNetSnmpMetrics (AnyLsvmi cfg) icm).
Definition ProcSoftirqsMetricsTaskBuilder (cfg : LsvmiConfig) (icm : Z) :=
  build SoftirqsMetrics.PROC_SOFTIRQS_METRICS_ID GSoftirqs (NewProcSoftirqsMetrics (AnyLsvmi cfg) icm).
Definition ProcStatMetricsTaskBuilder (cfg : LsvmiConfig) (icm : Z) :=
  build StatMetrics.PROC_STAT_METRICS_ID GStat (NewProcStatMetrics (AnyLsvmi cfg) icm).
Definition QdiscMetricsTaskBuilder (cfg : LsvmiConfig) (icm : Z) :=
  build QdiscMetrics.QDISC_METRICS_ID GQdisc (NewQdiscMetrics (AnyLsvmi cfg) icm).
Definition StatfsMetricsTaskBuilder (cfg : LsvmiConfig) (icm : Z) :=
  build StatfsMetrics.STATFS_METRICS_ID GStatfs (NewStatfsMetrics (AnyLsvmi cfg) icm).

(** One task per partition. *)
Fixpoint pid_tasks (c : ProcPidMetricsConfig) (cache : PidTidList.PidTidListCache) (partNo : Z) (n : nat) : outcome (build_error + list task) :=
  match n with
  | O => Ret (inr [])
  | S n =>
    let? (d, pm) := NewProcProcPidMetrics (AnyOwn c) partNo cache in
    let? ts := pid_tasks c cache (partNo + 1) n in
    Ret (inr ((Scheduler.NewTask (PidScan.generator_id (pg_cfg pm)) d true, GPid pm) :: ts))
  end.

(** [PID_LIST_CACHE_PID_ENABLED] and [PID_LIST_CACHE_TID_ENABLED]. *)
Definition cache_flags (threads : bool) : Z :=
  if threads then Z.lor PidTidList.PID_LIST_CACHE_PID_ENABLED PidTidList.PID_LIST_CACHE_TID_ENABLED else PidTidList.PID_LIST_CACHE_PID_ENABLED.

Definition parse_as (err : GoDuration.error -> build_error) (t : bytes) : outcome (build_error + Z) :=
  r ← GoDuration.ParseDuration t; Ret (match r with inl e => inl (err e) | inr d => inr d end).

Definition ProcPidMetricsTaskBuilder (numWorkers : Z) (cfg : LsvmiConfig) (icm : Z) : outcome (build_error + (list task * Z)) :=
  c ← must (c_procPid cfg);
  let? interval := parse_as ErrInterval (Interval (pid_gen c)) in
  if (interval <=? 0)%Z then Ret (inr ([], icm))
  else
    let numPart := if (NumPartitions c <=? 0)%Z then numWorkers else NumPartitions c in
    let? validFor := parse_as ErrCacheInterval (PidTidListCacheValidInterval c) in
    let cache := PidTidList.NewPidTidListCache numPart validFor (cache_flags (ThreadMetrics c)) in
    let? ts := pid_tasks c cache 0 (Z.to_nat numPart) in
    Ret (inr (ts, icm)).

(** [TaskBuilders.List()]: the builders in the order in which the files of the
    package register them, that of the file names. *)
Definition TaskBuilders (qdiscAvailable : bool) (numWorkers : Z) : list (LsvmiConfig -> Z -> outcome (build_error + (list task * Z))) :=
  [InternalMetricsTaskBuilder; ProcDiskstatsMetricsTaskBuilder; ProcInterruptsMetricsTaskBuilder; ProcNetDevMetricsTaskBuilder;
   ProcNetSnmp6MetricsTaskBuilder; ProcNetSnmpMetricsTaskBuilder; ProcPidMetricsTaskBuilder numWorkers; ProcSoftirqsMetricsTaskBuilder;
   ProcStatMetricsTaskBuilder] ++ (if qdiscAvailable then [QdiscMetricsTaskBuilder] else []) ++ [StatfsMetricsTaskBuilder].

(** [for _, tb := range TaskBuilders.List()]. *)
Fixpoint build_all (bs : list (LsvmiConfig -> Z -> outcome (build_error + (list task * Z)))) (cfg : LsvmiConfig) (icm : Z) (taskList : list task)
    : outcome (build_error + list task) :=
  match bs with
  | [] => Ret (inr taskList)
  | tb :: bs =>
    let? (tasks, icm) := tb cfg icm in
    build_all bs cfg icm (taskList ++ tasks)
  end.
End builders.

(** ** main *)

Inductive main_error :=
| EConfig (e : load_error)
| ELogger (e : Logger.set_error)
| EPool (e : pool_error)
| ECompressor (e : comp_error)
| EQueue (e : StdoutQueue.queue_error)
| EScheduler
| ECommon (e : init_error)
| EBuild (e : build_error).

(** The outside of the program: the command line, the file system, the decoder of
    the configuration, the logging package, the machine and its clock. *)
Record Environment (Level : Type) := mkEnvironment {
  args : Args;
  printVer : bool;
  useStdoutMetricsQueue : bool;
  e_open : bytes -> option bytes;
  e_decode : bytes -> LsvmiConfig -> option LsvmiConfig;
  e_ParseLevel : bytes -> option Level;
  e_debug : Level -> bool;
  e_pathDir : bytes -> bytes;
  e_os : Logger.os;
  e_ParseFloat : bytes -> option spec_float;
  e_urlParse : bytes -> bool;
  e_shuffle : list (option HttpEndpointConfig) -> list (option HttpEndpointConfig);
  e_RAMInBytes : bytes -> option Z;
  e_availableCpus : Z;
  e_hostname : option bytes;
  e_osName : bytes;
  e_qdisc : bool;
  e_now : Time;
  e_now2 : Time
}.
Arguments args {Level}. Arguments printVer {Level}. Arguments useStdoutMetricsQueue {Level}. Arguments e_open {Level}. Arguments e_decode {Level}.
Arguments e_ParseLevel {Level}. Arguments e_debug {Level}. Arguments e_pathDir {Level}. Arguments e_os {Level}. Arguments e_ParseFloat {Level}.
Arguments e_urlParse {Level}. Arguments e_shuffle {Level}. Arguments e_RAMInBytes {Level}. Arguments e_availableCpus {Level}.
Arguments e_hostname {Level}. Arguments e_osName {Level}. Arguments e_qdisc {Level}. Arguments e_now {Level}. Arguments e_now2 {Level}.

(** [GlobalMetricsQueue]: the compressors with the pool of endpoints, or the
    standard output. *)
Inductive metrics_queue := QPools (hp : HttpPool) (cp : FullPool) | QStdout (q : StdoutQueue.StdoutMetricsQueue).

Record Running (Level : Type) := mkRunning {
  r_config : LsvmiConfig;
  r_log : @Logger.Log Level;
  r_queue : metrics_queue;
  r_globals : Globals;
  r_scheduler : Scheduler.Scheduler;
  r_tasks : list task
}.
Arguments mkRunning {Level}. Arguments r_config {Level}. Arguments r_log {Level}. Arguments r_queue {Level}. Arguments r_globals {Level}.
Arguments r_scheduler {Level}. Arguments r_tasks {Level}.

Definition lift {E E' A} (f : E -> E') (c : outcome (E + A)) : outcome (E' + A) :=
  r ← c; Ret (match r with inl e => inl (f e) | inr a => inr a end).

(** [GlobalCompressorPool.Start]. *)
Definition start_compressors (p : FullPool) : FullPool :=
  mkFullPool (Compressor.Start (core p)).1 (bufPool p) (compressionLevel p) (batchTargetSize p) (flushInterval p) (poolStats p).

(** The first buffer of the standard output; the queue has room for it. *)
Definition announce (q : StdoutQueue.StdoutMetricsQueue) : outcome StdoutQueue.StdoutMetricsQueue :=
  '(q, b) ← StdoutQueue.GetBuf q;
  o ← must (StdoutQueue.QueueBuf b (StdoutQueue.write b (bs "# Metrics will be displayed at stdout" ++ [NL]) q));
  o.

Section main.
Context {Level : Type} (env : Environment Level).

Definition start_queue (cfg : LsvmiConfig) : outcome (main_error + metrics_queue) :=
  if useStdoutMetricsQueue env then
    let? q := lift EQueue (StdoutQueue.NewStdoutMetricsQueue (e_RAMInBytes env) (AnyLsvmi cfg)) in
    q ← announce q;
    Ret (inr (QStdout q))
  else
    let? hp := lift EPool (NewHttpEndpointPool (e_ParseFloat env) (e_urlParse env) (e_shuffle env) (AnyLsvmi cfg)) in
    let? cp := lift ECompressor (NewCompressorPool (e_RAMInBytes env) (e_availableCpus env) (AnyLsvmi cfg)) in
    Ret (inr (QPools hp (start_compressors cp))).

(** [main] up to the addition of the tasks; [None] when it prints the version. *)
Definition main (log : @Logger.Log Level) : outcome (main_error + option (Running Level)) :=
  if printVer env then Ret (inr None)
  else
    let? cfg := lift EConfig (LoadLsvmiConfigFromArgs (e_open env) (e_decode env) (args env)) in
    let? log := lift ELogger (Logger.SetLogger (e_ParseLevel env) (e_debug env) (e_pathDir env) (e_os env) (AnyLsvmi cfg) log) in
    let? q := start_queue cfg in
    s ← Scheduler.NewScheduler (e_availableCpus env) (Scheduler.CfgLsvmi (Some (c_scheduler cfg)));
    match s with
    | None => Ret (inl EScheduler)
    | Some s =>
      s ← Scheduler.Start s;
      let? g := lift ECommon (InitCommonMetrics (args env) (e_hostname env) (AnyLsvmi cfg)) in
      let? ts := lift EBuild (build_all (TaskBuilders (e_osName env) (e_now env) (e_now2 env) (e_qdisc env) (Z.of_nat (Scheduler.numWorkers s))) cfg 0 []) in
      Ret (inr (Some (mkRunning cfg log q g s ts)))
    end.
End main.

(** [for _, task := range taskList { GlobalScheduler.AddNewTask(task) }] while the
    goroutines of the scheduler run: the tasks that are left, the number of the
    next one, the state. *)
Inductive launch (off : Z) (s0 : Scheduler.Scheduler) (ts : list Scheduler.Task) : list Scheduler.Task -> nat -> Scheduler.Scheduler -> Prop :=
| launch_start : launch off s0 ts ts 0 s0
| launch_add t rest n s s' :
    launch off s0 ts (t :: rest) n s -> Scheduler.exec (Scheduler.EAddNewTask n t) s = Some (Ret s') -> launch off s0 ts rest (S n) s'
| launch_other e rest n s s' :
    launch off s0 ts rest n s -> Scheduler.internal e -> Scheduler.event_ok off e s -> Scheduler.exec e s = Some (Ret s') -> launch off s0 ts rest n s'.

(** ** The tasks of a configuration *)

Definition interval_of (o : option bytes) : option Z :=
  t ← o; match GoDuration.ParseDuration t with Ret (inr d) => Some d | _ => None end.

(** A task for a positive interval. *)
Definition one (id : bytes) (o : option bytes) : list (bytes * Z) :=
  match interval_of o with Some d => if (d <=? 0)%Z then [] else [(id, d)] | None => [] end.

Definition before_pid (cfg : LsvmiConfig) : list (bytes * option bytes) :=
  [(InternalMetrics.INTERNAL_METRICS_ID, int_Interval <$> c_internal cfg);
   (DiskstatsMetrics.PROC_DISKSTATS_METRICS_ID, Interval ∘ disk_gen <$> c_procDiskstats cfg);
   (InterruptsMetrics.PROC_INTERRUPTS_METRICS_ID, Interval <$> c_procInterrupts cfg);
   (NetDevMetrics.PROC_NET_DEV_METRICS_ID, Interval <$> c_procNetDev cfg);
   (NetSnmp6Metrics.PROC_NET_SNMP6_METRICS_ID, Interval <$> c_procNetSnmp6 cfg);
   (NetSnmpMetrics.PROC_NET_SNMP_METRICS_ID, Interval <$> c_procNetSnmp cfg)].
Definition after_pid (qdisc : bool) (cfg : LsvmiConfig) : list (bytes * option bytes) :=
  [(SoftirqsMetrics.PROC_SOFTIRQS_METRICS_ID, Interval <$> c_procSoftirqs cfg); (StatMetrics.PROC_STAT_METRICS_ID, Interval <$> c_procStat cfg)] ++
  (if qdisc then [(QdiscMetrics.QDISC_METRICS_ID, Interval <$> c_qdisc cfg)] else []) ++
  [(StatfsMetrics.STATFS_METRICS_ID, Interval ∘ statfs_gen <$> c_statfs cfg)].

Definition pid_id (k : Z) : bytes := PidMetrics.PROC_PID_METRICS_ID ++ bs "#" ++ Itoa k.
Definition partitions (numWorkers : Z) (c : ProcPidMetricsConfig) : Z := if (NumPartitions c <=? 0)%Z then numWorkers else NumPartitions c.
Definition pid_part (numWorkers : Z) (cfg : LsvmiConfig) : list (bytes * Z) :=
  match c_procPid cfg with
  | None => []
  | Some c => concat (map (fun k => one (pid_id (Z.of_nat k)) (Some (Interval (pid_gen c)))) (seq 0 (Z.to_nat (partitions numWorkers c))))
  end.

Definition ones (l : list (bytes * option bytes)) : list (bytes * Z) := concat (map (fun x => one x.1 x.2) l).

(** The names and intervals of the tasks, in order. *)
Definition expected (qdisc : bool) (numWorkers : Z) (cfg : LsvmiConfig) : list (bytes * Z) :=
  ones (before_pid cfg) ++ pid_part numWorkers cfg ++ ones (after_pid qdisc cfg).

Definition new_of (x : bytes * Z) : Scheduler.Task := Scheduler.NewTask x.1 x.2 true.

(** What a builder makes when it succeeds. *)
Definition makes (tb : LsvmiConfig -> Z -> outcome (build_error + (list task * Z))) (cfg : LsvmiConfig) (spec : list (bytes * Z)) : Prop :=
  forall icm ts icm', tb cfg icm = Ret (inr (ts, icm')) -> map fst ts = map new_of spec.

Lemma try_Ret_inr {E A B} (c : outcome (E + A)) (f : A -> outcome (E + B)) b :
  try c f = Ret (inr b) -> exists a, c = Ret (inr a) /\ f a = Ret (inr b).
Proof. unfold try. intros (r & -> & H)%bind_Ret_inv. destruct r as [e|a]; [done|]. by exists a. Qed.

Lemma build_makes {A G} id (wrap : G -> generator) (own : LsvmiConfig -> option A) dflt interval make cfg :
  makes (fun cfg icm => build id wrap (construct (section own dflt (AnyLsvmi cfg)) interval make icm)) cfg (one id (interval <$> own cfg)).
Proof.
  intros icm ts icm' H. unfold build in H. apply try_Ret_inr in H as ([[d g] icm2] & Hc & [= <- _]). unfold construct, section in Hc.
  destruct (own cfg) as [c|]; [|done]. cbn [must] in Hc. rewrite bind_ret in Hc. apply bind_Ret_inv in Hc as (r & Hp & Hr). unfold one, interval_of. cbn.
  rewrite Hp. destruct r as [e|d']; [done|]. destruct (make c icm) as [g' icm3]. injection Hr as -> _ _. by destruct (d <=? 0)%Z.
Qed.

Lemma pid_tasks_make c cache d : forall n partNo ts,
  GoDuration.ParseDuration (Interval (pid_gen c)) = Ret (inr d) -> pid_tasks c cache partNo n = Ret (inr ts) ->
  map fst ts = map (fun k => Scheduler.NewTask (pid_id (partNo + Z.of_nat k)) d true) (seq 0 n).
Proof.
  induction n as [|n IH]; intros partNo ts Hd H; cbn [pid_tasks] in H; [by injection H as <-|].
  apply try_Ret_inr in H as ([d' pm] & Hpm & H). apply try_Ret_inr in H as (ts' & Hts & [= <-]).
  unfold NewProcProcPidMetrics, section in Hpm. cbn [must] in Hpm. rewrite bind_ret, Hd, bind_ret in Hpm.
  destruct (if UsePidStatus c then _ else _) as [e|keep]; [done|]. injection Hpm as <- <-.
  cbn [map fst seq]. rewrite Z.add_0_r. f_equal. rewrite (IH _ _ Hd Hts), <- seq_shift, map_map. apply map_ext. intros k. do 2 f_equal. lia.
Qed.

Lemma pid_makes numWorkers cfg : makes (ProcPidMetricsTaskBuilder numWorkers) cfg (pid_part numWorkers cfg).
Proof.
  intros icm ts icm' H. unfold ProcPidMetricsTaskBuilder in H. apply bind_Ret_inv in H as (c & Hc & H).
  assert (c_procPid cfg = Some c) as Hcfg by by destruct (c_procPid cfg); [injection Hc as ->|]. clear Hc.
  apply try_Ret_inr in H as (d & Hp & H). unfold parse_as in Hp. apply bind_Ret_inv in Hp as (r & Hd & Hr). destruct r as [e|d']; [done|]. injection Hr as ->.
  unfold pid_part. rewrite Hcfg. unfold one, interval_of. cbn [mbind option_bind]. rewrite Hd. destruct (Z.leb_spec d 0).
  - injection H as <- _. cbn. clear. induction (seq _ _) as [|k l IH]; [done|]. done.
  - apply try_Ret_inr in H as (v & _ & H). apply try_Ret_inr in H as (ts' & Hts & [= <- _]). rewrite (pid_tasks_make _ _ d _ _ _ Hd Hts).
    unfold partitions. generalize (seq 0 (Z.to_nat (if (NumPartitions c <=? 0)%Z then numWorkers else NumPartitions c))). intros l.
    induction l as [|k l IH]; [done|]. cbn [map concat app]. f_equal. exact IH.
Qed.

Lemma build_all_makes bs cfg : forall specs icm acc ts,
  Forall2 (fun tb spec => makes tb cfg spec) bs specs -> build_all bs cfg icm acc = Ret (inr ts) ->
  map fst ts = map fst acc ++ map new_of (concat specs).
Proof.
  induction bs as [|tb bs IH]; intros specs icm acc ts Hf H; inversion Hf as [|? spec ? specs' Hm Hf']; subst; cbn [build_all] in H.
  - injection H as <-. by rewrite app_nil_r.
  - apply try_Ret_inr in H as ([ts1 icm1] & H1 & H2). rewrite (IH _ _ _ _ Hf' H2). cbn [concat]. rewrite !map_app, <- app_assoc. do 2 f_equal. exact (Hm _ _ _ H1).
Qed.

Lemma builders_make os now now2 qdisc numWorkers cfg ts :
  build_all (TaskBuilders os now now2 qdisc numWorkers) cfg 0 [] = Ret (inr ts) -> map fst ts = map new_of (expected qdisc numWorkers cfg).
Proof.
  intros H. set (specs := map (fun x => one x.1 x.2) (before_pid cfg) ++ [pid_part numWorkers cfg] ++ map (fun x => one x.1 x.2) (after_pid qdisc cfg)).
  rewrite (build_all_makes (TaskBuilders os now now2 qdisc numWorkers) cfg specs 0 [] ts); [| |exact H]; subst specs.
  - unfold expected, ones. rewrite !concat_app. cbn [concat]. by rewrite app_nil_r.
  - unfold TaskBuilders, before_pid, after_pid. destruct qdisc; cbn [map app fst snd]; repeat (apply Forall2_cons; split); try apply Forall2_nil_2;
      first [exact (pid_makes numWorkers cfg) | exact (build_makes _ _ _ _ _ _ cfg) | idtac].
Qed.

(** ** Names and intervals *)

Lemma one_cases id o : one id o = [] \/ exists d, one id o = [(id, d)] /\ (0 < d <= MaxInt64)%Z.
Proof.
  unfold one, interval_of. destruct o as [t|]; [|by left]. cbn. destruct (GoDuration.ParseDuration_total t) as (r & -> & Hr).
  destruct r as [e|d]; [by left|]. destruct (Z.leb_spec d 0); [by left|]. right. exists d. split; [done|lia].
Qed.

Lemma ones_sub l : sublist (map fst (ones l)) (map fst l) /\ Forall (fun x => (0 < x.2 <= MaxInt64)%Z) (ones l).
Proof.
  unfold ones. induction l as [|[id o] l [IH1 IH2]]; [by split|]. cbn [map concat fst snd]. destruct (one_cases id o) as [->|(d & -> & Hd)]; cbn [app map fst].
  - split; [by apply sublist_cons|done].
  - split; [by apply sublist_skip|by constructor].
Qed.

(** The tasks of the processes as those of a list of sections. *)
Definition pid_list (numWorkers : Z) (cfg : LsvmiConfig) : list (bytes * option bytes) :=
  match c_procPid cfg with
  | None => []
  | Some c => map (fun k => (pid_id (Z.of_nat k), Some (Interval (pid_gen c)))) (seq 0 (Z.to_nat (partitions numWorkers c)))
  end.
Definition all_list (qdisc : bool) (numWorkers : Z) (cfg : LsvmiConfig) : list (bytes * option bytes) :=
  before_pid cfg ++ pid_list numWorkers cfg ++ after_pid qdisc cfg.

Lemma expected_all qdisc numWorkers cfg : expected qdisc numWorkers cfg = ones (all_list qdisc numWorkers cfg).
Proof.
  unfold expected, all_list, ones. rewrite !map_app, !concat_app. do 2 f_equal. unfold pid_part, pid_list. destruct (c_procPid cfg); [|done].
  by rewrite map_map.
Qed.

Lemma pid_id_inj a b : (0 <= a)%Z -> (0 <= b)%Z -> pid_id a = pid_id b -> a = b.
Proof.
  intros Ha Hb H. apply app_inv_head, app_inv_head in H. unfold Itoa in H. rewrite !(proj2 (Z.ltb_ge _ _)) in H by lia. by apply FormatUint_inj.
Qed.

Lemma all_nodup qdisc numWorkers cfg : NoDup (map fst (all_list qdisc numWorkers cfg)).
Proof.
  assert (forall k, pid_id k ∉ map fst (before_pid cfg ++ after_pid qdisc cfg)) as Hpid.
  { intros k Hin. apply list_elem_of_In in Hin. destruct qdisc; cbn in Hin; intuition congruence. }
  assert (NoDup (map fst (before_pid cfg ++ after_pid qdisc cfg))) as Hnd.
  { destruct qdisc; apply (bool_decide_eq_true_1 _); vm_compute; reflexivity. }
  unfold all_list. rewrite (Permutation_app_comm (pid_list numWorkers cfg)), app_assoc, map_app. apply NoDup_app. split; [done|].
  unfold pid_list. destruct (c_procPid cfg) as [c|]; [|split; [intros ? ?; apply not_elem_of_nil|constructor]]. rewrite map_map. cbn [fst]. split.
  - intros x Hx Hin. apply list_elem_of_In, in_map_iff in Hin as (k & <- & _). by apply (Hpid (Z.of_nat k)).
  - apply NoDup_fmap_2_strong; [|apply NoDup_seq]. intros x y _ _ H. apply pid_id_inj in H; lia.
Qed.

Lemma all_length qdisc numWorkers cfg c :
  c_procPid cfg = Some c -> length (all_list qdisc numWorkers cfg) <= 10 + Z.to_nat (partitions numWorkers c).
Proof.
  intros Hc. unfold all_list, pid_list. rewrite Hc, !length_app, length_map, length_seq. destruct qdisc; cbn; lia.
Qed.

Lemma expected_spec qdisc numWorkers cfg :
  NoDup (map fst (expected qdisc numWorkers cfg)) /\ Forall (fun x => (0 < x.2 <= MaxInt64)%Z) (expected qdisc numWorkers cfg) /\
  length (expected qdisc numWorkers cfg) <= length (all_list qdisc numWorkers cfg).
Proof.
  rewrite expected_all. destruct (ones_sub (all_list qdisc numWorkers cfg)) as [Hs Hf]. split; [|split; [done|]].
  - eapply sublist_NoDup; [apply all_nodup|exact Hs].
  - apply sublist_length in Hs. by rewrite !length_map in Hs.
Qed.

(** ** Launch *)

(** Adding the tasks one after another is a run of the scheduler. *)
Lemma launch_run off cpus scfg s0 sn ts rest n s :
  Scheduler.NewScheduler cpus scfg = Ret (Some sn) -> Scheduler.Start sn = Ret s0 ->
  Forall (fun t => Scheduler.deadline t = zeroTime /\ Scheduler.lastExecuted t = zeroTime /\
                   (MinInt64 <= Scheduler.interval t <= MaxInt64)%Z) ts ->
  launch off s0 ts rest n s ->
  n + length rest = length ts /\ Forall (fun t => t ∈ ts) rest /\ exists d, Scheduler.run off cpus scfg s (rev (seq 0 n)) d.
Proof.
  intros Hn Hs Hts. induction 1 as [|t rest n s s' _ (Hl & Hin & d & IH) He|e rest n s s' _ (Hl & Hin & d & IH) Hi Hok He].
  - split; [done|]. split; [by apply Forall_forall|]. exists []. apply (Scheduler.run_step _ _ _ Scheduler.EStart sn s0 [] []); [by constructor|done|].
    cbn. by rewrite Hs.
  - apply Forall_cons in Hin as [Ht Hin]. cbn in Hl. split; [lia|]. split; [done|]. destruct (Scheduler.run_inv _ _ _ _ _ _ IH) as [_ Hp].
    rewrite Forall_forall in Hts. destruct (Hts t Ht) as (Hd & Hle & Hint). eexists.
    rewrite seq_S, rev_app_distr. change (rev [0 + n] ++ rev (seq 0 n)) with (n :: rev (seq 0 n)).
    apply (Scheduler.run_step _ _ _ (Scheduler.EAddNewTask n t) s s' _ d IH); [|done]. cbn [Scheduler.event_ok]. split.
    + intros Hpl. assert (n ∈ rev (seq 0 n)) as Hin2 by (rewrite Hp; apply elem_of_app; by left).
      apply list_elem_of_In, in_rev, in_seq in Hin2. lia.
    + rewrite Hd, Hle. split; [apply zeroTime_consistent|]. split; [apply zeroTime_consistent|done].
  - split; [done|]. split; [done|]. pose proof (Scheduler.run_step _ _ _ e s s' _ d IH Hok He) as Hr. destruct e; try done; eexists; exact Hr.
Qed.

Lemma new_of_ok l : Forall (fun x => (0 < x.2 <= MaxInt64)%Z) l ->
  Forall (fun t => Scheduler.deadline t = zeroTime /\ Scheduler.lastExecuted t = zeroTime /\
                   (MinInt64 <= Scheduler.interval t <= MaxInt64)%Z) (map new_of l).
Proof. intros H. apply Forall_map. eapply Forall_impl; [exact H|]. intros x Hx. cbn. split; [done|]. split; [done|]. unfold MinInt64, MaxInt64 in *. lia. Qed.

(** What [main] has when it has built the tasks. *)
Lemma main_built {Level} (env : Environment Level) log r :
  main env log = Ret (inr (Some r)) ->
  exists n sn c, c_scheduler (r_config r) = Some n /\ Scheduler.NewScheduler (e_availableCpus env) (Scheduler.CfgLsvmi (Some (Some n))) = Ret (Some sn) /\
    Scheduler.Start sn = Ret (r_scheduler r) /\ c_procPid (r_config r) = Some c /\
    build_all (TaskBuilders (e_osName env) (e_now env) (e_now2 env) (e_qdisc env) (Z.of_nat (Scheduler.numWorkers (r_scheduler r)))) (r_config r) 0 []
      = Ret (inr (r_tasks r)).
Proof.
  unfold main. destruct (printVer env); [done|]. intros H. apply try_Ret_inr in H as (cfg & _ & H). apply try_Ret_inr in H as (lg & _ & H).
  apply try_Ret_inr in H as (q & _ & H). apply bind_Ret_inv in H as (o & Hs & H).
  destruct o as [sn|]; [|done]. assert (exists n, c_scheduler cfg = Some n) as [n Hn] by (destruct (c_scheduler cfg) as [n|]; [by exists n|done]). apply bind_Ret_inv in H as (s & Hst & H).
  apply try_Ret_inr in H as (g & _ & H). apply try_Ret_inr in H as (ts & Hb & [= <-]). cbn.
  unfold lift in Hb. apply bind_Ret_inv in Hb as (rb & Hb & Hr). destruct rb as [e|ts']; [done|]. injection Hr as ->.
  exists n, sn. assert (exists c, c_procPid cfg = Some c) as (c & Hc).
  { destruct (c_procPid cfg) as [c|] eqn:Hc; [by exists c|exfalso]. clear - Hb Hc. unfold TaskBuilders in Hb. cbn [build_all app] in Hb.
    do 6 (apply try_Ret_inr in Hb as ([? ?] & _ & Hb)). apply try_Ret_inr in Hb as ([? ?] & Hb & _). unfold ProcPidMetricsTaskBuilder in Hb.
    by rewrite Hc in Hb. }
  exists c. cbn. rewrite Hn in *. by split_and!.
Qed.

Lemma started_workers cpus n sn s :
  Scheduler.NewScheduler cpus (Scheduler.CfgLsvmi n) = Ret (Some sn) -> Scheduler.Start sn = Ret s -> Scheduler.numWorkers s <= 8.
Proof.
  intros (k & Hk & ->)%Scheduler.NewScheduler_Ret. cbn. by intros [= <-].
Qed.

(** The tasks that main adds are new, and with at most 54 partitions they fit into
    the queue of the scheduler. *)
Lemma tasks_new {Level} (env : Environment Level) log r : main env log = Ret (inr (Some r)) ->
  Forall (fun t => Scheduler.deadline t = zeroTime /\ Scheduler.lastExecuted t = zeroTime /\
                   (MinInt64 <= Scheduler.interval t <= MaxInt64)%Z) (map fst (r_tasks r)) /\
  ((forall c, c_procPid (r_config r) = Some c -> (NumPartitions c <= 54)%Z) -> length (map fst (r_tasks r)) <= Scheduler.SCHEDULER_TASK_Q_LEN).
Proof.
  intros H. destruct (main_built env log r H) as (n & sn & c & Hn & Hs & Hst & Hc & Hb). pose proof (builders_make _ _ _ _ _ _ _ Hb) as Hts.
  set (nw := Z.of_nat (Scheduler.numWorkers (r_scheduler r))) in *. destruct (expected_spec (e_qdisc env) nw (r_config r)) as (_ & Hf & Hlen).
  split; [rewrite Hts; by apply new_of_ok|]. intros Hpart. specialize (Hpart c Hc).
  pose proof (all_length (e_qdisc env) nw _ c Hc) as Hal. pose proof (started_workers _ _ _ _ Hs Hst) as Hw.
  assert (Z.to_nat (partitions nw c) <= 54) as Hp by (unfold partitions; destruct (NumPartitions c <=? 0)%Z; lia).
  rewrite Hts, length_map. unfold Scheduler.SCHEDULER_TASK_Q_LEN. lia.
Qed.

(** C27: the tasks of the program.  They are those of the generators with a
    positive interval, one per partition for the processes, in a fixed order;
    their names are distinct, so that no two share statistics, and their
    intervals are positive. *)
Theorem startup_tasks {Level} (env : Environment Level) log r :
  main env log = Ret (inr (Some r)) ->
  let l := expected (e_qdisc env) (Z.of_nat (Scheduler.numWorkers (r_scheduler r))) (r_config r) in
  map fst (r_tasks r) = map new_of l /\ NoDup (map fst l) /\ Forall (fun x => (0 < x.2 <= MaxInt64)%Z) l.
Proof.
  intros H. destruct (main_built env log r H) as (n & sn & c & _ & _ & _ & _ & Hb). cbv zeta. split; [by eapply builders_make|].
  destruct (expected_spec (e_qdisc env) (Z.of_nat (Scheduler.numWorkers (r_scheduler r))) (r_config r)) as (Hn & Hf & _). by split.
Qed.

(** the start.  With at most 54 partitions of the processes, main can add
    every task without waiting, whatever the dispatcher and the workers do in
    between; the scheduler is then in a state that it can reach by itself, with
    all the tasks added so far, so its invariant holds. *)
Theorem startup_launch {Level} (env : Environment Level) log r off rest k s :
  main env log = Ret (inr (Some r)) ->
  (forall c, c_procPid (r_config r) = Some c -> (NumPartitions c <= 54)%Z) ->
  launch off (r_scheduler r) (map fst (r_tasks r)) rest k s ->
  Scheduler.inv off s /\ length (Scheduler.places s) <= Scheduler.SCHEDULER_TASK_Q_LEN /\
  (exists n d, c_scheduler (r_config r) = Some n /\ Scheduler.run off (e_availableCpus env) (Scheduler.CfgLsvmi (Some (Some n))) s (rev (seq 0 k)) d) /\
  (forall t rest', rest = t :: rest' -> exists s', Scheduler.exec (Scheduler.EAddNewTask k t) s = Some (Ret s')).
Proof.
  intros H Hpart Hl. destruct (main_built env log r H) as (n & sn & c & Hn & Hs & Hst & _). destruct (tasks_new env log r H) as [Hnew Hfit].
  specialize (Hfit Hpart). unfold Scheduler.SCHEDULER_TASK_Q_LEN in Hfit.
  destruct (launch_run off _ _ _ _ (map fst (r_tasks r)) rest k s Hs Hst Hnew Hl) as (Hk & _ & d & Hrun).
  destruct (Scheduler.run_inv _ _ _ _ _ _ Hrun) as [Hinv Hperm]. apply Permutation_length in Hperm. rewrite length_rev, length_seq, length_app in Hperm.
  split; [done|]. split; [unfold Scheduler.SCHEDULER_TASK_Q_LEN; lia|]. split; [by exists n, d|].
  intros t rest' ->. cbn in Hk. cbn [Scheduler.exec]. unfold Scheduler.AddNewTask. rewrite (proj2 (Nat.ltb_lt _ _)); [by eexists|].
  unfold Scheduler.SCHEDULER_TASK_Q_LEN. unfold Scheduler.places in Hperm. rewrite !length_app in Hperm. lia.
Qed.

(** The default configuration with a section for the log. *)
Definition sample_config : LsvmiConfig :=
  let c := DefaultLsvmiConfig in
  mkLsvmi (c_global c) (c_procStat c) (c_procNetDev c) (c_procInterrupts c) (c_procSoftirqs c) (c_procNetSnmp c) (c_procNetSnmp6 c) (c_procDiskstats c)
    (c_procPid c) (c_statfs c) (c_qdisc c) (c_internal c) (c_scheduler c) (c_compressorPool c) (c_httpEndpointPool c) (Some DefaultLoggerConfig).
Definition sample_env (stdout : bool) : Environment bool :=
  mkEnvironment bool DefaultArgs false stdout (fun _ => Some []) (fun _ _ => Some sample_config) (fun _ => Some true) (fun b => b) (fun p => p)
    (Logger.mkOs (fun _ => true) (fun _ => true) (fun _ => true)) (fun _ => None) (fun _ => true) (fun l => l) (fun _ => Some 65536%Z) 4
    (Some (bs "host.example.com")) (bs "linux") true zeroTime zeroTime.
Definition sample_log : @Logger.Log bool := Logger.mkLog false false Logger.LogTextFormatter true Logger.Stderr.

(** What is checked of the sample: the workers, the partitions, the host name and
    the names of the tasks. *)
Definition sample_view (stdout : bool) : option (nat * option Z * bytes * list bytes) :=
  match main (sample_env stdout) sample_log with
  | Ret (inr (Some r)) =>
    Some (Scheduler.numWorkers (r_scheduler r), NumPartitions <$> c_procPid (r_config r), GlobalHostname (r_globals r), map (fun t => Scheduler.id t.1) (r_tasks r))
  | _ => None
  end.

Lemma sample_main stdout : sample_view stdout = Some (4, Some (-1)%Z, bs "host",
  [bs "internal_metrics"; bs "proc_diskstats_metrics"; bs "proc_interrupts_metrics"; bs "proc_net_dev_metrics"; bs "proc_net_snmp6_metrics";
   bs "proc_net_snmp_metrics"; bs "proc_pid_metrics#0"; bs "proc_pid_metrics#1"; bs "proc_pid_metrics#2"; bs "proc_pid_metrics#3";
   bs "proc_softirqs_metrics"; bs "proc_stat_metrics"; bs "qdisc_metrics"; bs "statfs_metrics"]).
Proof. destruct stdout; vm_compute; reflexivity. Qed.

Lemma sample_running stdout : exists r, main (sample_env stdout) sample_log = Ret (inr (Some r)) /\
  (forall c, c_procPid (r_config r) = Some c -> (NumPartitions c <= 54)%Z).
Proof.
  pose proof (sample_main stdout) as H. unfold sample_view in H. destruct (main _ _) as [[e|[r|]]| |]; try done. exists r. split; [done|].
  intros c Hc. rewrite Hc in H. injection H as _ H _ _. rewrite H. lia.
Qed.

Lemma startup_tasks_witness :
  exists r, main (sample_env false) sample_log = Ret (inr (Some r)) /\ NoDup (map (fun t => Scheduler.id t.1) (r_tasks r)).
Proof.
  destruct (sample_running false) as (r & Hr & _). exists r. split; [exact Hr|]. destruct (startup_tasks (sample_env false) sample_log r Hr) as (He & Hn & _).
  assert (map (fun t => Scheduler.id t.1) (r_tasks r) = map Scheduler.id (map fst (r_tasks r))) as -> by by rewrite map_map.
  rewrite He, map_map. exact Hn.
Defined.

Lemma startup_launch_witness :
  exists r, main (sample_env true) sample_log = Ret (inr (Some r)) /\ Scheduler.inv 0 (r_scheduler r) /\
    (forall t rest, map fst (r_tasks r) = t :: rest -> exists s', Scheduler.exec (Scheduler.EAddNewTask 0 t) (r_scheduler r) = Some (Ret s')).
Proof.
  destruct (sample_running true) as (r & Hr & Hp). exists r. split; [exact Hr|].
  destruct (startup_launch (sample_env true) sample_log r 0 (map fst (r_tasks r)) 0 (r_scheduler r) Hr Hp (launch_start _ _ _)) as (Hi & _ & _ & Ha).
  split; [exact Hi|exact Ha].
Defined.

(** ** A configuration without a section for the log *)

(** there is no default for the section of the log, so that the program
    panics before it starts anything when the file has none. *)
Theorem startup_without_log_section {Level} (env : Environment Level) log cfg :
  printVer env = false -> LoadLsvmiConfigFromArgs (e_open env) (e_decode env) (args env) = Ret (inr cfg) -> c_logger cfg = None ->
  main env log = Panic.
Proof.
  intros Hv Hl Hc. unfold main. rewrite Hv, Hl. unfold lift at 1. rewrite bind_ret, try_inr. unfold Logger.SetLogger, section. by rewrite Hc.
Qed.

(** The defaults, as a file that sets nothing gives them. *)
Definition default_env : Environment bool :=
  mkEnvironment bool DefaultArgs false false (fun _ => Some []) (fun _ c => Some c) (fun _ => Some true) (fun b => b) (fun p => p)
    (Logger.mkOs (fun _ => true) (fun _ => true) (fun _ => true)) (fun _ => None) (fun _ => true) (fun l => l) (fun _ => Some 65536%Z) 4
    (Some (bs "host.example.com")) (bs "linux") true zeroTime zeroTime.

Lemma startup_without_log_section_witness : main default_env sample_log = Panic.
Proof. apply (startup_without_log_section default_env sample_log DefaultLsvmiConfig); reflexivity. Defined.

(** ** Too many partitions *)

Inductive lstep := LAdd | LEvent (e : Scheduler.event).

Definition internalb (e : Scheduler.event) : bool :=
  match e with Scheduler.EAddNewTask _ _ | Scheduler.EStart | Scheduler.EShutdown => false | _ => true end.

Fixpoint launch_exec (off : Z) (steps : list lstep) (rest : list Scheduler.Task) (n : nat) (s : Scheduler.Scheduler)
    : option (list Scheduler.Task * nat * Scheduler.Scheduler) :=
  match steps with
  | [] => Some (rest, n, s)
  | LAdd :: steps =>
    match rest with
    | t :: rest => match Scheduler.exec (Scheduler.EAddNewTask n t) s with Some (Ret s') => launch_exec off steps rest (S n) s' | _ => None end
    | [] => None
    end
  | LEvent e :: steps =>
    if internalb e && Scheduler.event_okb off e s
    then match Scheduler.exec e s with Some (Ret s') => launch_exec off steps rest n s' | _ => None end
    else None
  end.

Lemma launch_exec_ok off s0 ts steps : forall rest n s rest' n' s',
  launch off s0 ts rest n s -> launch_exec off steps rest n s = Some (rest', n', s') -> launch off s0 ts rest' n' s'.
Proof.
  induction steps as [|[|e] steps IH]; intros rest n s rest' n' s' Hl; cbn [launch_exec].
  - by intros [= <- <- <-].
  - destruct rest as [|t rest]; [done|]. destruct (Scheduler.exec _ s) as [[s1| |]|] eqn:He; try done. apply IH. by eapply launch_add.
  - destruct (internalb e) eqn:Hi; [|done]. destruct (Scheduler.event_okb off e s) eqn:Hok; [|done]. cbn [andb].
    destruct (Scheduler.exec e s) as [[s1| |]|] eqn:He; try done. apply IH. eapply launch_other; [exact Hl| |by apply Scheduler.event_okb_ok|exact He].
    by destruct e.
Qed.

(** All goroutines are in a send to a full queue. *)
Definition stuck (s : Scheduler.Scheduler) : bool :=
  match Scheduler.disp s with Scheduler.DSend _ => true | _ => false end &&
  (length (Scheduler.todoQ s) =? Scheduler.SCHEDULER_TODO_Q_LEN) && (length (Scheduler.taskQ s) =? Scheduler.SCHEDULER_TASK_Q_LEN) &&
  forallb (fun w => match w with Scheduler.WSend _ => true | _ => false end) (Scheduler.workers s).

Lemma stuck_blocks s e : stuck s = true -> Scheduler.internal e -> Scheduler.exec e s = None.
Proof.
  unfold stuck. rewrite !andb_true_iff. intros [[[Hd Ht] Hq] Hw] Hi. apply Nat.eqb_eq in Ht, Hq.
  assert (forall w x, Scheduler.workers s !! w = Some x -> exists p, x = Scheduler.WSend p) as Hws.
  { intros w x Hx. apply list_elem_of_lookup_2, list_elem_of_In in Hx. pose proof (proj1 (forallb_forall _ _) Hw x Hx) as H. destruct x; try done. by eexists. }
  destruct (Scheduler.disp s) as [| |p|] eqn:Ed; try done.
  destruct e as [? ?| | |now| | | |w now|w now x|w|w]; try done; cbn [Scheduler.exec]; rewrite ?Ed; try done.
  - rewrite Ht. done.
  - destruct (Scheduler.workers s !! w) as [x|] eqn:E; [|done]. by destruct (Hws w x E) as (p' & ->).
  - destruct (Scheduler.workers s !! w) as [y|] eqn:E; [|done]. by destruct (Hws w y E) as (p' & ->).
  - destruct (Scheduler.workers s !! w) as [x|] eqn:E; [|done]. destruct (Hws w x E) as (p' & ->). by rewrite Hq.
  - destruct (Scheduler.workers s !! w) as [x|] eqn:E; [|done]. by destruct (Hws w x E) as (p' & ->).
Qed.

Definition set_partitions (n : Z) (cfg : LsvmiConfig) : LsvmiConfig :=
  let c := cfg in
  mkLsvmi (c_global c) (c_procStat c) (c_procNetDev c) (c_procInterrupts c) (c_procSoftirqs c) (c_procNetSnmp c) (c_procNetSnmp6 c) (c_procDiskstats c)
    ((fun p => mkPid (pid_gen p) (PidTidListCacheValidInterval p) n (ThreadMetrics p) (UsePidStatus p) (PidStatusMemoryFields p)) <$> c_procPid c)
    (c_statfs c) (c_qdisc c) (c_internal c) (c_scheduler c) (c_compressorPool c) (c_httpEndpointPool c) (c_logger c).
Definition partitions_env (n : Z) : Environment bool :=
  mkEnvironment bool DefaultArgs false true (fun _ => Some []) (fun _ _ => Some (set_partitions n sample_config)) (fun _ => Some true) (fun b => b)
    (fun p => p) (Logger.mkOs (fun _ => true) (fun _ => true) (fun _ => true)) (fun _ => None) (fun _ => true) (fun l => l) (fun _ => Some 65536%Z) 8
    (Some (bs "host")) (bs "linux") true zeroTime zeroTime.

(** The first tasks go to the workers, the next to the queue of the workers, one
    stays with the dispatcher, the others fill its queue; then the workers are
    done. *)
Definition dispatch : list lstep := [LAdd; LEvent (Scheduler.EDispTask zeroTime); LEvent Scheduler.EDispSend].
Definition stuck_steps : list lstep :=
  concat (map (fun w => dispatch ++ [LEvent (Scheduler.EWorkRecv w zeroTime)]) (seq 0 8)) ++
  concat (replicate 64 dispatch) ++ [LAdd; LEvent (Scheduler.EDispTask zeroTime)] ++ replicate 64 LAdd ++
  map (fun w => LEvent (Scheduler.EWorkExec w zeroTime true)) (seq 0 8).

Definition stuck_check (o : outcome (main_error + option (Running bool))) : bool :=
  match o with
  | Ret (inr (Some r)) =>
    match launch_exec 0 stuck_steps (map fst (r_tasks r)) 0 (r_scheduler r) with
    | Some ([], _, s) => stuck s
    | _ => false
    end
  | _ => false
  end.

Lemma stuck_check_ok o : stuck_check o = true ->
  exists r n s, o = Ret (inr (Some r)) /\ launch 0 (r_scheduler r) (map fst (r_tasks r)) [] n s /\
    forall e, Scheduler.internal e -> Scheduler.exec e s = None.
Proof.
  unfold stuck_check. intros H. destruct o as [[e|[r|]]| |]; try done.
  destruct (launch_exec _ _ _ _ _) as [[[[|t rest] n] s]|] eqn:E; try done. exists r, n, s. split; [done|]. split.
  - eapply launch_exec_ok; [apply launch_start|exact E].
  - intros e Hi. by apply stuck_blocks.
Qed.

Lemma stuck_checked : stuck_check (main (partitions_env 127) sample_log) = true.
Proof. vm_compute. reflexivity. Qed.

(** C28: the number of partitions is not limited.  With 127 of them there are so
    many tasks that the queues between the dispatcher and the workers can both
    be full, with every goroutine of the scheduler waiting for room: no task is
    executed ever after. *)
Theorem startup_can_hang :
  exists r n s, main (partitions_env 127) sample_log = Ret (inr (Some r)) /\ launch 0 (r_scheduler r) (map fst (r_tasks r)) [] n s /\
    forall e, Scheduler.internal e -> Scheduler.exec e s = None.
Proof. exact (stuck_check_ok _ stuck_checked). Qed.

End Startup.
