(* ===== verification/Program.v ===== *)
(** The whole program as main (main.go) puts it together: the scheduler, the
    tasks with their actions, the metrics queue to which the workers send what the
    generators write, the signal, the deferred shutdowns in their order and the
    watchdog.

    The queue is any implementation of the interface of MetricsQueue.v, the
    actions are those of any implementation of [TaskAction] (scheduler.go);
    Generators.v has the one of the importer.  An execution may panic, and then
    so does the program. *)

From Stdlib Require Import ZArith Lia.
From stdpp Require Import base tactics numbers strings gmap list relations.
From S2P Require Import Prelude GoTime MetricsQueue Scheduler SchedulerStop.

Module Program.
Import MetricsQueue.
Abbreviation Scheduler := Scheduler.Scheduler.
Abbreviation Task := Scheduler.Task.

(** [TaskAction]: what [Execute] does on the state of the action, the variables
    that the actions share and what it reads from its environment: the new
    states, the buffers that it queues, and its result; [None] where the input
    is not one of this action. *)
Class TaskAction (G Sh In : Type) := Execute : In -> Sh -> G -> option (outcome (G * Sh * list bytes * bool)).

(** Where main is: adding the tasks ([next] is the number of the next one),
    waiting for a signal, waiting in [GlobalScheduler.Shutdown], waiting in the
    shutdown of the queue, returned.  The process may also be killed by a signal
    that comes before [signal.Notify], or by the watchdog. *)
Inductive main_pc := Launching (rest : list Task) (next : nat) | Signal | StopScheduler | StopQueue | Done | Killed.

Section program.
Context {Q Buf Act G Sh In : Type} `{HQ : !MetricsQueue Q Buf Act} `{HA : !TaskAction G Sh In}.

(** [queued] is the history of the contents of the buffers that were queued,
    [actions] the action of each task, in the order in which main adds them,
    [shared] their common variables, [outbox] what the workers that execute a
    task have yet to queue, with the result of the execution. *)
Record Program := mkProgram {
  pc : main_pc;
  scheduler : Scheduler;
  queue : Q;
  watchdog : bool;
  queued : list bytes;
  actions : list G;
  shared : Sh;
  outbox : gmap nat (list bytes * bool)
}.

Definition set_pc x p := mkProgram x (scheduler p) (queue p) (watchdog p) (queued p) (actions p) (shared p) (outbox p).
Definition set_scheduler s p := mkProgram (pc p) s (queue p) (watchdog p) (queued p) (actions p) (shared p) (outbox p).
Definition set_queue q p := mkProgram (pc p) (scheduler p) q (watchdog p) (queued p) (actions p) (shared p) (outbox p).
Definition set_outbox o p := mkProgram (pc p) (scheduler p) (queue p) (watchdog p) (queued p) (actions p) (shared p) o.

Inductive event :=
| AddTask
| Launched
| SignalReceived
| SchedulerStopped
| QueueStopped
| WatchdogFired
| SchedulerEvent (e : Scheduler.event)
| WorkerExecutes (w : nat) (i : In)
| WorkerQueues (w : nat) (b : Buf)
| QueueEvent (a : Act).

(** The process is there. *)
Definition alive (p : Program) : bool := match pc p with Done | Killed => false | _ => true end.

(** The signal wakes main, which starts the watchdog and returns; the first deferred
    call is the shutdown of the scheduler. *)
Definition on_signal (p : Program) : Program :=
  match pc p with
  | Launching _ _ => set_pc Killed p
  | Signal => mkProgram StopScheduler (Scheduler.Shutdown (scheduler p)) (queue p) true (queued p) (actions p) (shared p) (outbox p)
  | _ => p
  end.

(** The goroutines of the scheduler have returned: the shutdown of the queue. *)
Definition on_scheduler_stopped (p : Program) : option (outcome Program) :=
  match pc p with
  | StopScheduler =>
    if SchedulerStop.all_exited (scheduler p)
    then Some (q ← Shutdown (queue p); Ret (set_pc StopQueue (set_queue q p)))
    else None
  | _ => None
  end.

(** A worker that has received a task executes its action: the number of the
    task and what the execution does. *)
Definition executes (w : nat) (i : In) (p : Program) : option (nat * outcome (G * Sh * list bytes * bool)) :=
  match Scheduler.workers (scheduler p) !! w, outbox p !! w with
  | Some (Scheduler.WRun x _), None => g ← actions p !! x; r ← Execute i (shared p) g; Some (x, r)
  | _, _ => None
  end.
Definition on_execute (w : nat) (i : In) (p : Program) : option (outcome Program) :=
  '(x, r) ← executes w i p;
  Some ('(g, sh, out, res) ← r;
        Ret (mkProgram (pc p) (scheduler p) (queue p) (watchdog p) (queued p) (<[x := g]> (actions p)) sh (<[w := (out, res)]> (outbox p)))).

(** It queues the buffers of the execution one after the other. *)
Definition on_queue (w : nat) (b : Buf) (p : Program) : option (outcome Program) :=
  match Scheduler.workers (scheduler p) !! w, outbox p !! w with
  | Some (Scheduler.WRun _ _), Some (data :: out, res) =>
    if bool_decide (contents b (queue p) = data) then
      r ← QueueBuf b (queue p);
      Some (q ← r; Ret (mkProgram (pc p) (scheduler p) q (watchdog p) (queued p ++ [data]) (actions p) (shared p) (<[w := (out, res)]> (outbox p))))
    else None
  | _, _ => None
  end.

(** It is back from [Execute], with its result, when it has queued them all. *)
Definition may_step (e : Scheduler.event) (p : Program) : bool :=
  match e with Scheduler.EWorkExec w _ res => bool_decide (outbox p !! w = Some ([], res)) | _ => true end.
Definition after_step (e : Scheduler.event) (o : gmap nat (list bytes * bool)) : gmap nat (list bytes * bool) :=
  match e with Scheduler.EWorkExec w _ _ => delete w o | _ => o end.

Definition exec (e : event) (p : Program) : option (outcome Program) :=
  if alive p then
    match e with
    | AddTask =>
      match pc p with
      | Launching (t :: rest) n =>
        r ← Scheduler.exec (Scheduler.EAddNewTask n t) (scheduler p);
        Some (s ← r; Ret (set_pc (Launching rest (S n)) (set_scheduler s p)))
      | _ => None
      end
    | Launched => match pc p with Launching [] _ => Some (Ret (set_pc Signal p)) | _ => None end
    | SignalReceived => Some (Ret (on_signal p))
    | SchedulerStopped => on_scheduler_stopped p
    | QueueStopped =>
      match pc p with StopQueue => if returned (queue p) then Some (Ret (set_pc Done p)) else None | _ => None end
    | WatchdogFired => if watchdog p then Some (Ret (set_pc Killed p)) else None
    | SchedulerEvent e =>
      if may_step e p then
        r ← Scheduler.exec e (scheduler p);
        Some (s ← r; Ret (set_outbox (after_step e (outbox p)) (set_scheduler s p)))
      else None
    | WorkerExecutes w i => on_execute w i p
    | WorkerQueues w b => on_queue w b p
    | QueueEvent a => r ← act a (queue p); Some (q ← r; Ret (set_queue q p))
    end
  else None.

(** main when it has built the tasks. *)
Definition launching (s : Scheduler) (q : Q) (l : list bytes) (ts : list (Task * G)) (sh : Sh) : Program :=
  mkProgram (Launching (map fst ts) 0) s q false l (map snd ts) sh ∅.

Section laws.
Context `{HL : !QueueLaws Q Buf Act}.
Variable off : Z.

(** What the environment keeps to: the clock readings are of one clock, only the
    goroutines of the scheduler do steps of the scheduler, an execution writes
    what the queue can take, and the clients of the queue keep to its rules. *)
Definition event_ok (e : event) (p : Program) : Prop :=
  match e with
  | SchedulerEvent e => Scheduler.internal e /\ Scheduler.event_ok off e (scheduler p)
  | WorkerExecutes w i => forall x g sh out res, executes w i p = Some (x, Ret (g, sh, out, res)) -> Forall data_ok out
  | WorkerQueues _ b => buf_ok b (queue p)
  | QueueEvent a => act_ok a (queue p)
  | _ => True
  end.

Definition task_ok (t : Task) : Prop :=
  Scheduler.deadline t = zeroTime /\ Scheduler.lastExecuted t = zeroTime /\ (MinInt64 <= Scheduler.interval t <= MaxInt64)%Z.

(** The order of the shutdowns: the queue is open as long as a worker may run. *)
Definition stage_ok (p : Program) : Prop :=
  let s := scheduler p in
  match pc p with
  | Launching rest n =>
    is_open (queue p) = true /\ Scheduler.state s = Scheduler.SchedulerStateRunning /\ watchdog p = false /\
    Forall task_ok rest /\ (forall x, x ∈ Scheduler.places s -> x < n) /\ n + length rest = length (actions p)
  | Signal => is_open (queue p) = true /\ Scheduler.state s = Scheduler.SchedulerStateRunning /\ watchdog p = false
  | StopScheduler => is_open (queue p) = true /\ Scheduler.cancelled s = true /\ Scheduler.disp s <> Scheduler.DOff
  | StopQueue => is_open (queue p) = false /\ SchedulerStop.exited s
  | Done => SchedulerStop.exited s /\ returned (queue p) = true
  | Killed => True
  end.

Record ok (p : Program) : Prop := mkOk {
  ok_scheduler : Scheduler.inv off (scheduler p);
  ok_queue : inv (queued p) (queue p);
  ok_stage : stage_ok p;
  ok_actions : forall x, x ∈ Scheduler.places (scheduler p) -> x < length (actions p);
  ok_outbox : forall w out res, outbox p !! w = Some (out, res) -> Forall data_ok out
}.

(** The tasks that the scheduler has and those that main has yet to add are no more
    than its queue holds. *)
Definition fits (p : Program) : Prop :=
  length (Scheduler.places (scheduler p)) + match pc p with Launching rest _ => length rest | _ => 0 end <= Scheduler.SCHEDULER_TASK_Q_LEN.

(** ** Every step keeps the invariant *)

Definition good (p : Program) (r : outcome Program) : Prop :=
  exists p', r = Ret p' /\ ok p' /\ (fits p -> fits p').

Lemma add_ok p r : ok p -> exec AddTask p = Some r -> good p r.
Proof.
  intros [Hs Hq Hst Hact Hout] He. unfold exec, alive in He. destruct (pc p) as [[|t rest] n| | | | |] eqn:Hpc; try done. cbn iota in He.
  unfold stage_ok in Hst. rewrite Hpc in Hst. destruct Hst as (Ho & Hrun & Hw & Hts & Hpl & Hlen). apply Forall_cons in Hts as [(Hd & Hle & Hint) Hts].
  apply bind_Some in He as (r' & Ha & [= <-]).
  assert (Scheduler.event_ok off (Scheduler.EAddNewTask n t) (scheduler p)) as Hok.
  { cbn. split; [intros Hin; specialize (Hpl n Hin); lia|]. rewrite Hd, Hle. split; [apply zeroTime_consistent|]. by split; [apply zeroTime_consistent|]. }
  destruct (Scheduler.exec_correct off _ _ _ Hs Hok Ha) as (s' & -> & Hs' & Heff). cbn in Heff. rewrite bind_ret.
  assert (forall x, x ∈ Scheduler.places s' -> x < S n) as Hpl'.
  { intros x Hx. rewrite Heff in Hx. apply elem_of_cons in Hx as [->|Hx]; [lia|]. specialize (Hpl x Hx). lia. }
  eexists. split; [done|]. split; [split; simpl; try done|].
  - unfold stage_ok. simpl. split; [done|]. cbn in Ha. unfold Scheduler.AddNewTask in Ha. destruct (_ <? _); [|done]. injection Ha as <-.
    split; [done|]. split; [done|]. split; [done|]. split; [done|]. simpl in Hlen. lia.
  - intros x Hx. specialize (Hpl' x Hx). simpl in Hlen. lia.
  - unfold fits. rewrite Hpc. simpl. apply Permutation_length in Heff. simpl in Heff. lia.
Qed.

Lemma signal_ok p : ok p -> good p (Ret (on_signal p)).
Proof.
  intros [Hs Hq Hst Hact Hout]. eexists. split; [reflexivity|]. unfold on_signal. destruct (pc p) as [rest n| | | | |] eqn:Hpc; try done.
  - split; [by split|]. unfold fits. rewrite Hpc. simpl. lia.
  - destruct (Scheduler.exec_correct off Scheduler.EShutdown _ _ Hs I eq_refl) as (s' & [= <-] & Hs' & Heff). cbn in Heff.
    unfold stage_ok in Hst. rewrite Hpc in Hst. destruct Hst as (Ho & Hrun & Hw).
    pose proof (Scheduler.inv_life _ _ Hs) as Hl. unfold Scheduler.life in Hl. rewrite Hrun in Hl. split; [split; simpl; try done|].
    + unfold stage_ok. simpl. split; [done|]. unfold Scheduler.Shutdown. rewrite Hrun. simpl. tauto.
    + intros x. rewrite Heff. apply Hact.
    + unfold fits. rewrite Hpc. simpl. apply Permutation_length in Heff. lia.
Qed.

Lemma scheduler_event_ok e p r : ok p -> event_ok (SchedulerEvent e) p -> exec (SchedulerEvent e) p = Some r -> good p r.
Proof.
  intros [Hs Hq Hst Hact Hout] [Hi Hok] He. unfold exec in He. destruct (alive p) eqn:Hal; [|done]. destruct (may_step e p); [|done].
  apply bind_Some in He as (r' & Ha & [= <-]).
  destruct (Scheduler.exec_correct off e _ _ Hs Hok Ha) as (s' & -> & Hs' & _). rewrite bind_ret.
  destruct (SchedulerStop.places_sub off e _ s' Hs Hi Hok Ha) as [_ Hpl]. destruct (SchedulerStop.internal_keeps e _ s' Hi Ha) as (H1 & H2 & H3 & H4).
  eexists. split; [reflexivity|]. split; [split; simpl; try done|].
  - unfold stage_ok, alive in *. simpl. rewrite H1, H2. destruct (pc p) as [rest n| | | | |]; try done.
    + destruct Hst as (? & ? & ? & ? & Hlt & ?). split_and!; try done. intros x Hx. apply Hlt. by eapply elem_of_submseteq.
    + tauto.
    + destruct Hst as [_ Hex]. by rewrite (SchedulerStop.exited_quiet e _ Hi Hex) in Ha.
  - intros x Hx. apply Hact. by eapply elem_of_submseteq.
  - intros w out res Hw. apply (Hout w out res). destruct e; simpl in Hw; try done. by apply lookup_delete_Some in Hw as [_ Hw].
  - unfold fits. simpl. apply submseteq_length in Hpl. lia.
Qed.

Lemma queue_event_ok a p r : ok p -> event_ok (QueueEvent a) p -> exec (QueueEvent a) p = Some r -> good p r.
Proof.
  intros [Hs Hq Hst Hact Hout] Hok He. unfold exec in He. destruct (alive p) eqn:Hal; [|done]. apply bind_Some in He as (r' & Ha & [= <-]).
  destruct (act_inv _ _ _ _ Hq Hok Ha) as (q' & -> & Hq' & Ho). rewrite bind_ret. eexists. split; [reflexivity|]. split; [|done]. split; simpl; try done.
  unfold stage_ok, alive in *. simpl. rewrite Ho. by destruct (pc p).
Qed.

(** A worker that runs: main has not closed the queue. *)
Lemma running_open p w x ts : ok p -> alive p = true -> Scheduler.workers (scheduler p) !! w = Some (Scheduler.WRun x ts) -> is_open (queue p) = true.
Proof.
  intros [_ _ Hst _ _] Hal Hw. unfold stage_ok, alive in *. destruct (pc p); try tauto; try done.
  destruct Hst as [_ [_ Hex]]. rewrite Forall_lookup in Hex. by specialize (Hex _ _ Hw).
Qed.

(** Its execution may panic; if it does not, its buffers wait to be queued. *)
Lemma worker_executes_ok w i p r : ok p -> event_ok (WorkerExecutes w i) p -> exec (WorkerExecutes w i) p = Some r ->
  good p r \/ exists x o, executes w i p = Some (x, o) /\ forall y, o <> Ret y.
Proof.
  intros [Hs Hq Hst Hact Hout] Hok He. unfold exec in He. destruct (alive p) eqn:Hal; [|done]. unfold on_execute in He.
  cbn [event_ok] in Hok. destruct (executes w i p) as [[x o]|] eqn:Hx; [|done]. injection He as <-.
  destruct o as [[[[g sh] out] res]| |]; [left|right; by eexists _, _..].
  specialize (Hok _ _ _ _ _ eq_refl). rewrite bind_ret. eexists. split; [reflexivity|]. split; [|done]. split; simpl; try done.
  - unfold stage_ok in *. simpl. rewrite length_insert. done.
  - by rewrite length_insert.
  - intros w' out' res' [[<- [= <- <-]]|[_ Hl]]%lookup_insert_Some; [done|by eapply Hout].
Qed.

Lemma worker_queues_ok w b p r : ok p -> event_ok (WorkerQueues w b) p -> exec (WorkerQueues w b) p = Some r -> good p r.
Proof.
  intros Hokp Hok He. pose proof Hokp as [Hs Hq Hst Hact Hout]. unfold exec in He. destruct (alive p) eqn:Hal; [|done]. unfold on_queue in He.
  destruct (Scheduler.workers (scheduler p) !! w) as [[|x ts| |]|] eqn:Hw; try done. pose proof (running_open p w x ts Hokp Hal Hw) as Ho.
  destruct (outbox p !! w) as [[[|data out] res]|] eqn:Hbox; try done. case_bool_decide as Hdata; [|done]. apply bind_Some in He as (r' & Ha & [= <-]).
  pose proof (Hout _ _ _ Hbox) as [Hd Hall]%Forall_cons.
  destruct (queue_inv _ _ _ _ Hq Ho Hok ltac:(by rewrite Hdata) Ha) as (q' & -> & Hq' & Ho'). rewrite bind_ret. rewrite Hdata in Hq'.
  eexists. split; [reflexivity|]. split; [|done]. split; simpl; try done.
  - unfold stage_ok, alive in *. simpl. rewrite Ho'. destruct (pc p); try done; try tauto. destruct Hst as [Hc _]. congruence.
  - intros w' out' res' [[<- [= <- <-]]|[_ Hl]]%lookup_insert_Some; [done|by eapply Hout].
Qed.

(** Only an execution that does not return makes a step that does not. *)
Lemma program_exec e p r : ok p -> event_ok e p -> exec e p = Some r ->
  good p r \/ exists w i x o, e = WorkerExecutes w i /\ executes w i p = Some (x, o) /\ forall y, o <> Ret y.
Proof.
  intros Hok He Hex. destruct e as [| | | | | |e|w i|w b|a]; [left..| |left|left].
  - by apply add_ok.
  - unfold exec in Hex. destruct (alive p); [|done]. destruct (pc p) as [[] n| | | | |] eqn:Hpc; try done. injection Hex as <-.
    destruct Hok as [Hs Hq Hst Hact Hout]. eexists. split; [reflexivity|]. unfold stage_ok in Hst. rewrite Hpc in Hst. split; [split; simpl; try done; unfold stage_ok; simpl; tauto|].
    unfold fits. rewrite Hpc. simpl. lia.
  - unfold exec in Hex. destruct (alive p); [|done]. injection Hex as <-. by apply signal_ok.
  - unfold exec, on_scheduler_stopped in Hex. destruct (alive p); [|done]. destruct (pc p) eqn:Hpc; try done.
    destruct (SchedulerStop.all_exited (scheduler p)) eqn:Hall; [|done]. injection Hex as <-. apply SchedulerStop.all_exited_spec in Hall.
    destruct Hok as [Hs Hq Hst Hact Hout]. unfold stage_ok in Hst. rewrite Hpc in Hst. destruct Hst as (Ho & _).
    destruct (shutdown_inv _ _ Hq Ho) as (q' & -> & Hq' & Ho'). rewrite bind_ret. eexists. split; [reflexivity|].
    split; [by split|]. unfold fits. by rewrite Hpc.
  - unfold exec in Hex. destruct (alive p); [|done]. destruct (pc p) eqn:Hpc; try done. destruct (returned (queue p)) eqn:Hr; [|done]. injection Hex as <-.
    destruct Hok as [Hs Hq Hst Hact Hout]. unfold stage_ok in Hst. rewrite Hpc in Hst. eexists. split; [reflexivity|]. split; [split; simpl; try done|].
    + unfold stage_ok. simpl. tauto.
    + unfold fits. by rewrite Hpc.
  - unfold exec in Hex. destruct (alive p); [|done]. destruct (watchdog p); [|done]. injection Hex as <-.
    destruct Hok as [Hs Hq Hst Hact Hout]. eexists. split; [reflexivity|]. split; [by split|]. unfold fits. simpl. lia.
  - by eapply scheduler_event_ok.
  - destruct (worker_executes_ok w i p r Hok He Hex) as [?|(x & o & ? & ?)]; [by left|right]. by exists w, i, x, o.
  - by eapply worker_queues_ok.
  - by eapply queue_event_ok.
Qed.

(** ** The program can always end *)

Definition step (p p' : Program) : Prop := exists e, event_ok e p /\ exec e p = Some (Ret p').

Lemma step_ok p p' : step p p' -> ok p -> ok p' /\ (fits p -> fits p').
Proof.
  intros (e & Hok & He) H. destruct (program_exec e p _ H Hok He) as [(p1 & [= <-] & ?)|(w & i & x & o & -> & Hx & Hn)]; [done|].
  unfold exec in He. destruct (alive p); [|done]. unfold on_execute in He. rewrite Hx in He. injection He as He.
  destruct o as [y| |]; [by destruct (Hn y)|done..].
Qed.

Lemma steps_ok p p' : rtc step p p' -> ok p -> ok p' /\ (fits p -> fits p').
Proof.
  induction 1 as [p|p p1 p' Hs _ IH]; [done|]. intros H. destruct (step_ok p p1 Hs H) as [H1 Hf]. destruct (IH H1) as [H2 Hf']. auto.
Qed.

(** The executions that are under way can return: something ([keeps]) holds of the
    common variables under which each of them does on some input, leaving it so. *)
Definition can_execute (keeps : Sh -> Prop) (g : G) : Prop :=
  forall sh, keeps sh -> exists i g' sh' out res,
    Execute i sh g = Some (Ret (g', sh', out, res)) /\ keeps sh' /\ Forall data_ok out.
Definition pending (keeps : Sh -> Prop) (p : Program) : Prop :=
  keeps (shared p) /\
  forall w x ts g, Scheduler.workers (scheduler p) !! w = Some (Scheduler.WRun x ts) -> outbox p !! w = None -> actions p !! x = Some g -> can_execute keeps g.
Definition can_finish (p : Program) : Prop := exists keeps, pending keeps p.

(** The steps of the queue are steps of the program. *)
Lemma lift_queue p q' : alive p = true -> rtc (fun q q' => exists a, act_ok a q /\ act a q = Some (Ret q')) (queue p) q' -> rtc step p (set_queue q' p).
Proof.
  intros Hal H. remember (queue p) as q eqn:Eq. revert p Hal Eq. induction H as [q|q q1 q' (a & Hok & Ha) _ IH]; intros p Hal ->.
  - destruct p. apply rtc_refl.
  - eapply rtc_l; [|exact (IH (set_queue q1 p) Hal eq_refl)]. exists (QueueEvent a). split; [done|]. unfold exec. by rewrite Hal, Ha.
Qed.

(** What the work of one worker leaves alone. *)
Definition others (w : nat) (p p' : Program) : Prop :=
  scheduler p' = scheduler p /\ pc p' = pc p /\ forall w', w' <> w -> outbox p' !! w' = outbox p !! w'.

Lemma queue_all w x ts out : forall p res, ok p -> alive p = true -> Scheduler.workers (scheduler p) !! w = Some (Scheduler.WRun x ts) ->
  outbox p !! w = Some (out, res) ->
  exists p', rtc step p p' /\ others w p p' /\ (actions p' = actions p /\ shared p' = shared p) /\ outbox p' !! w = Some ([], res).
Proof.
  induction out as [|data out IH]; intros p res Hok Hal Hw Hbox; [exists p; by split; [apply rtc_refl|]|].
  pose proof (running_open p w x ts Hok Hal Hw) as Ho. pose proof (ok_outbox p Hok _ _ _ Hbox) as [Hd _]%Forall_cons.
  destruct (can_queue _ _ data (ok_queue _ Hok) Ho Hd) as (q1 & b & q2 & Hq1 & Hb & Hdata & Hq2).
  pose proof (lift_queue p q1 Hal Hq1) as Hs1. set (p1 := set_queue q1 p) in *.
  set (p2 := mkProgram (pc p) (scheduler p) q2 (watchdog p) (queued p ++ [data]) (actions p) (shared p) (<[w := (out, res)]> (outbox p))).
  assert (step p1 p2) as Hs2.
  { exists (WorkerQueues w b). split; [done|]. unfold exec. change (alive p1) with (alive p). rewrite Hal. unfold on_queue. cbn [scheduler outbox queue p1 set_queue].
    rewrite Hw, Hbox. rewrite bool_decide_eq_true_2 by done. by rewrite Hq2. }
  destruct (IH p2 res) as (p' & Hs & (Hsch & Hpc & Hoth) & Hact & Hbox').
  - eapply step_ok; [exact Hs2|]. by eapply steps_ok.
  - done.
  - done.
  - apply lookup_insert_eq.
  - exists p'. split; [etransitivity; [exact Hs1|]; by eapply rtc_l|]. split; [|done]. split; [done|]. split; [done|].
    intros w' Hne. rewrite Hoth by done. unfold p2. cbn [outbox]. by rewrite lookup_insert_ne.
Qed.

(** A worker that has a task comes to the end of its execution. *)
Lemma run_task keeps w x ts p : ok p -> alive p = true -> pending keeps p -> Scheduler.workers (scheduler p) !! w = Some (Scheduler.WRun x ts) ->
  exists p' res, rtc step p p' /\ others w p p' /\ outbox p' !! w = Some ([], res) /\ keeps (shared p') /\
    forall x', x' <> x -> actions p' !! x' = actions p !! x'.
Proof.
  intros Hok Hal [Hkeep Hcan] Hw. destruct (outbox p !! w) as [[out res]|] eqn:Hbox.
  { destruct (queue_all w x ts out p res Hok Hal Hw Hbox) as (p' & Hs & Hoth & [Hact Hsh] & Hb). exists p', res.
    split_and!; try done; [by rewrite Hsh|by rewrite Hact]. }
  assert (x < length (actions p)) as Hx.
  { apply (ok_actions p Hok). unfold Scheduler.places, Scheduler.busy. rewrite !elem_of_app. do 4 right. by eapply SchedulerStop.runs_known. }
  destruct (lookup_lt_is_Some_2 _ _ Hx) as [g Hg]. destruct (Hcan _ _ _ _ Hw Hbox Hg (shared p) Hkeep) as (i & g' & sh' & out & res & He & Hkeep' & Hout).
  assert (executes w i p = Some (x, Ret (g', sh', out, res))) as Hex by (unfold executes; rewrite Hw, Hbox, Hg; simpl; by rewrite He).
  set (p1 := mkProgram (pc p) (scheduler p) (queue p) (watchdog p) (queued p) (<[x := g']> (actions p)) sh' (<[w := (out, res)]> (outbox p))).
  assert (step p p1) as Hs1.
  { exists (WorkerExecutes w i). split; [intros ? ? ? ? ?; rewrite Hex; by intros [= <- <- <- <- <-]|]. unfold exec, on_execute. by rewrite Hal, Hex. }
  destruct (queue_all w x ts out p1 res) as (p' & Hs & (Hsch & Hpc & Hoth) & [Hact Hsh] & Hb).
  - by eapply step_ok.
  - done.
  - done.
  - apply lookup_insert_eq.
  - exists p', res. split; [by eapply rtc_l|]. split; [split; [done|split; [done|]]|split; [done|split; [by rewrite Hsh|]]].
    + intros w' Hne. rewrite Hoth by done. unfold p1. cbn [outbox]. by rewrite lookup_insert_ne.
    + intros x' Hne. rewrite Hact. unfold p1. cbn [actions]. by rewrite list_lookup_insert_ne.
Qed.

(** A step of the scheduler towards the end. *)
Lemma lift_step p e s' : alive p = true -> SchedulerStop.towards_end off (scheduler p) e s' -> may_step e p = true ->
  step p (set_outbox (after_step e (outbox p)) (set_scheduler s' p)).
Proof.
  intros Hal (Hi & Hok & He & _) Hm. exists (SchedulerEvent e). split; [done|]. unfold exec. by rewrite Hal, Hm, He.
Qed.

Lemma pending_step keeps p e s' : ok p -> pending keeps p -> SchedulerStop.towards_end off (scheduler p) e s' ->
  pending keeps (set_outbox (after_step e (outbox p)) (set_scheduler s' p)).
Proof.
  intros Hok [Hkeep Hcan] (Hi & _ & He & _ & Hsame). split; [done|]. intros w x ts g Hw Hbox Hg. cbn [scheduler outbox actions set_outbox set_scheduler] in *.
  destruct e; simpl in Hbox; try by apply (Hcan w x ts g); auto.
  destruct (decide (w0 = w)) as [->|Hne]; [|rewrite lookup_delete_ne in Hbox by done; by apply (Hcan w x ts g); auto].
  exfalso. pose proof (Hsame _ _ _ Hw) as Hold. simpl in He. rewrite Hold in He. injection He as He. unfold Scheduler.finish_task in He.
  apply bind_Ret_inv in He as (t & _ & He). apply bind_Ret_inv in He as (st & _ & He). apply bind_Ret_inv in He as (ws & Hs & [= <-]).
  unfold store in Hs. case_decide; [|done]. injection Hs as <-. cbn in Hw. rewrite list_lookup_insert_eq in Hw by done.
  by destruct (Scheduler.hasAction t), executed.
Qed.

(** The goroutines of the scheduler return. *)
Lemma workers_stop keeps p : ok p -> fits p -> pc p = StopScheduler -> pending keeps p ->
  exists p', rtc step p p' /\ pc p' = StopScheduler /\ SchedulerStop.exited (scheduler p').
Proof.
  remember (SchedulerStop.left_steps (scheduler p)) as k eqn:Ek. revert p Ek. induction (lt_wf k) as [k _ IH]. intros p -> Hok Hf Hpc Hcan.
  assert (alive p = true) as Hal by (unfold alive; by rewrite Hpc). pose proof (ok_stage p Hok) as Hst. unfold stage_ok in Hst. rewrite Hpc in Hst.
  destruct Hst as (Ho & Hc & Hd). pose proof Hf as Hfits. unfold fits in Hfits. rewrite Hpc in Hfits.
  assert (forall p1 e s', rtc step p p1 -> scheduler p1 = scheduler p -> pc p1 = pc p -> pending keeps p1 ->
    SchedulerStop.towards_end off (scheduler p) e s' -> may_step e p1 = true ->
    exists p', rtc step p p' /\ pc p' = StopScheduler /\ SchedulerStop.exited (scheduler p')) as Hgo.
  { intros p1 e s' Hs Hsch Hpc1 Hcan1 Htow Hm. destruct (steps_ok _ _ Hs Hok) as [Hok1 Hf1]. rewrite <- Hsch in Htow.
    pose proof (lift_step p1 e s' ltac:(unfold alive; by rewrite Hpc1, Hpc) Htow Hm) as Hstep. destruct (step_ok _ _ Hstep Hok1) as [Hok2 Hf2].
    pose proof (pending_step keeps p1 e s' Hok1 Hcan1 Htow) as Hcan2. destruct Htow as (_ & _ & _ & Hlt & _). rewrite Hsch in Hlt.
    destruct (IH _ Hlt (set_outbox (after_step e (outbox p1)) (set_scheduler s' p1)) eq_refl Hok2 (Hf2 (Hf1 Hf)) ltac:(cbn; congruence) Hcan2) as (p' & Hs' & Hrest). exists p'. split; [|done].
    etransitivity; [exact Hs|]. by eapply rtc_l. }
  destruct (SchedulerStop.exited_or_not (scheduler p)) as [Hex|[Hde|(w & x & Hw & Hx)]].
  - exists p. split; [apply rtc_refl|done].
  - destruct (SchedulerStop.disp_progress off (scheduler p) (ok_scheduler _ Hok) ltac:(lia) Hc Hd Hde) as (e & s' & Htow & Hne).
    apply (Hgo p e s'); try done. by destruct e; try done; destruct (Hne w endTs executed).
  - assert ((exists y ts, x = Scheduler.WRun y ts) \/ ~ exists y ts, x = Scheduler.WRun y ts) as [(y & ts & ->)|Hnr]
      by (destruct x; [right; by intros (? & ? & ?)|left; eauto|right; by intros (? & ? & ?)..]).
    + destruct (run_task keeps w y ts p Hok Hal Hcan Hw) as (p1 & res & Hs & (Hsch & Hpc1 & Hoth) & Hbox & Hkeep & Hact).
      destruct (SchedulerStop.worker_progress off (scheduler p) w _ res (ok_scheduler _ Hok) ltac:(lia) Hc Hw Hx) as (e & s' & Htow & He).
      apply (Hgo p1 e s'); try done.
      * split; [done|]. intros w' x' ts' g Hw' Hb' Hg'. rewrite Hsch in Hw'. destruct (decide (w' = w)) as [->|Hne]; [congruence|].
        apply (proj2 Hcan w' x' ts' g); [done|by rewrite <- Hoth|]. rewrite <- Hact; [done|]. intros ->.
        by destruct Hne; eapply SchedulerStop.runs_once; [apply (ok_scheduler _ Hok)|..].
      * destruct e; try done. destruct He as [-> ->]. simpl. by rewrite bool_decide_eq_true_2.
    + destruct (SchedulerStop.worker_progress off (scheduler p) w x true (ok_scheduler _ Hok) ltac:(lia) Hc Hw Hx) as (e & s' & Htow & He).
      apply (Hgo p e s'); try done. destruct e; try done. destruct He as [-> _]. destruct Htow as (_ & _ & Hex & _).
      simpl in Hex. rewrite Hw in Hex. destruct x; try done. destruct Hnr. eauto.
Qed.

Lemma queue_can_end p : ok p -> pc p = StopQueue -> exists p', rtc step p p' /\ pc p' = Done.
Proof.
  intros Hok Hpc. destruct Hok as [Hs Hq Hst _ _]. unfold stage_ok in Hst. rewrite Hpc in Hst. destruct Hst as [Ho _].
  destruct (can_return _ _ Hq Ho) as (q' & Hr & Hret). exists (set_pc Done (set_queue q' p)). split; [|done].
  assert (alive p = true) as Hal by (unfold alive; by rewrite Hpc).
  eapply rtc_r; [exact (lift_queue p q' Hal Hr)|]. exists QueueStopped. split; [done|]. unfold exec, alive. simpl. by rewrite Hpc, Hret.
Qed.

Lemma scheduler_can_end p : ok p -> fits p -> can_finish p -> pc p = StopScheduler -> exists p', rtc step p p' /\ pc p' = Done.
Proof.
  intros Hok Hf [keeps Hcan] Hpc. destruct (workers_stop keeps p Hok Hf Hpc Hcan) as (p1 & Hsteps & Hpc1 & Hex).
  destruct (steps_ok _ _ Hsteps Hok) as [Hok1 _]. pose proof Hok1 as [Hs Hq Hst _ _]. unfold stage_ok in Hst. rewrite Hpc1 in Hst. destruct Hst as (Ho & _ & _).
  destruct (shutdown_inv _ _ Hq Ho) as (q' & Hsh & _).
  assert (step p1 (set_pc StopQueue (set_queue q' p1))) as Hstep.
  { exists SchedulerStopped. split; [done|]. unfold exec, alive, on_scheduler_stopped. rewrite Hpc1. apply SchedulerStop.all_exited_spec in Hex. by rewrite Hex, Hsh. }
  destruct (queue_can_end (set_pc StopQueue (set_queue q' p1))) as (p' & Hr' & Hdone); [|done|].
  - by eapply step_ok.
  - exists p'. split; [|done]. etransitivity; [exact Hsteps|]. by eapply rtc_l.
Qed.

Lemma signal_can_end p : ok p -> fits p -> can_finish p -> pc p = Signal -> exists p', rtc step p p' /\ pc p' = Done.
Proof.
  intros Hok Hf [keeps [Hkeep Hcan]] Hpc. assert (step p (on_signal p)) as Hs by (exists SignalReceived; split; [done|]; unfold exec, alive; by rewrite Hpc).
  destruct (step_ok _ _ Hs Hok) as [Hok' Hf']. destruct (scheduler_can_end (on_signal p) Hok' (Hf' Hf)) as (p' & Hr & Hd).
  - unfold on_signal. rewrite Hpc. exists keeps. split; [done|]. intros w x ts g Hw. apply (Hcan w x ts g). cbn in Hw. unfold Scheduler.Shutdown in Hw. by destruct (Scheduler.state (scheduler p)).
  - unfold on_signal. by rewrite Hpc.
  - exists p'. split; [by eapply rtc_l|done].
Qed.

Lemma launch_can_end rest : forall p n, ok p -> fits p -> can_finish p -> pc p = Launching rest n -> exists p', rtc step p p' /\ pc p' = Done.
Proof.
  induction rest as [|t rest IH]; intros p n Hok Hf Hcan Hpc; (assert (alive p = true) as Hal by (unfold alive; by rewrite Hpc)).
  - assert (step p (set_pc Signal p)) as Hs by (exists Launched; split; [done|]; unfold exec; by rewrite Hal, Hpc).
    destruct (step_ok _ _ Hs Hok) as [Hok' Hf']. destruct (signal_can_end _ Hok' (Hf' Hf) Hcan eq_refl) as (p' & Hr & Hd). exists p'. split; [by eapply rtc_l|done].
  - assert (exists s', Scheduler.exec (Scheduler.EAddNewTask n t) (scheduler p) = Some (Ret s') /\ Scheduler.workers s' = Scheduler.workers (scheduler p)) as (s' & Ha & Hws).
    { cbn. unfold Scheduler.AddNewTask. rewrite (proj2 (Nat.ltb_lt _ _)); [by eexists|]. unfold fits in Hf. rewrite Hpc in Hf.
      unfold Scheduler.places in Hf. rewrite !length_app in Hf. simpl in Hf. lia. }
    assert (step p (set_pc (Launching rest (S n)) (set_scheduler s' p))) as Hs by (exists AddTask; split; [done|]; unfold exec; by rewrite Hal, Hpc, Ha).
    destruct (step_ok _ _ Hs Hok) as [Hok' Hf']. destruct (IH _ (S n) Hok' (Hf' Hf)) as (p' & Hr & Hd); [|done|].
    + destruct Hcan as [keeps [Hkeep Hcan]]. exists keeps. split; [done|]. intros w x ts g Hw. apply (Hcan w x ts g). cbn in Hw. by rewrite <- Hws.
    + exists p'. split; [by eapply rtc_l|done].
Qed.

(** ** A run of the program *)

Section run.
Context (cpus : Z) (cfg : Scheduler.config) (sn s0 : Scheduler) (q0 : Q) (l0 : list bytes) (ts : list (Task * G)) (sh0 : Sh).
Hypothesis Hnew : Scheduler.NewScheduler cpus cfg = Ret (Some sn).
Hypothesis Hstart : Scheduler.Start sn = Ret s0.
Hypothesis Hq0 : inv l0 q0.
Hypothesis Hopen : is_open q0 = true.
Hypothesis Hts : Forall task_ok (map fst ts).

Definition reachable (p : Program) : Prop := rtc step (launching s0 q0 l0 ts sh0) p.

Lemma start_scheduler : Scheduler.inv off s0 /\ Scheduler.places s0 = [] /\ Scheduler.state s0 = Scheduler.SchedulerStateRunning.
Proof.
  assert (exists d, Scheduler.run off cpus cfg s0 [] d) as (d & Hrun).
  { eexists. apply (Scheduler.run_step _ _ _ Scheduler.EStart sn s0 [] []); [by constructor|done|]. cbn. by rewrite Hstart. }
  apply Scheduler.run_inv in Hrun as [Hinv Hp]. split; [done|]. apply Permutation_nil_l in Hp. symmetry in Hp. apply app_nil in Hp as [Hp _]. split; [done|].
  clear - Hnew Hstart. apply Scheduler.NewScheduler_Ret in Hnew as (n & _ & ->). cbn in Hstart. by injection Hstart as <-.
Qed.

Lemma launching_ok : ok (launching s0 q0 l0 ts sh0) /\ (length ts <= Scheduler.SCHEDULER_TASK_Q_LEN -> fits (launching s0 q0 l0 ts sh0)).
Proof.
  destruct start_scheduler as (Hinv & Hp & Hst). split.
  - split; simpl; try done.
    + unfold stage_ok. simpl. split_and!; try done; [intros x; rewrite Hp; by intros ?%elem_of_nil|by rewrite !length_map].
    + intros x. rewrite Hp. by intros ?%elem_of_nil.
  - unfold fits. simpl. by rewrite Hp, length_map.
Qed.

Lemma run_ok p : reachable p -> ok p /\ (length ts <= Scheduler.SCHEDULER_TASK_Q_LEN -> fits p).
Proof. intros Hr. destruct launching_ok as [H0 Hf0]. destruct (steps_ok _ _ Hr H0). auto. Qed.
End run.

(** The steps that do not panic: all but those of executions that do not return. *)
Definition safe_step (e : event) (p : Program) (r : outcome Program) : Prop :=
  (exists p', r = Ret p') \/
  exists w i x g o, e = WorkerExecutes w i /\ actions p !! x = Some g /\ Execute i (shared p) g = Some o /\ forall y, o <> Ret y.

(** What the invariant says. *)
Lemma ok_steps p e r : ok p -> event_ok e p -> exec e p = Some r -> safe_step e p r.
Proof.
  intros Hok He Hx. destruct (program_exec e p r Hok He Hx) as [(p' & -> & _)|(w & i & x & o & -> & Hex & Hn)]; [left; by exists p'|right].
  unfold executes in Hex. destruct (Scheduler.workers (scheduler p) !! w) as [[]|]; try done. destruct (outbox p !! w); [done|].
  apply bind_Some in Hex as (g & Hg & Hex). apply bind_Some in Hex as (o' & Ho & [= -> ->]). by exists w, i, x, g, o.
Qed.

Lemma ok_safe p : ok p ->
  (forall e r, event_ok e p -> exec e p = Some r -> safe_step e p r) /\
  (pc p <> Killed -> is_open (queue p) = false \/ pc p = Done ->
    SchedulerStop.exited (scheduler p) /\ forall w, (forall i, exec (WorkerExecutes w i) p = None) /\ (forall b, exec (WorkerQueues w b) p = None)).
Proof.
  intros Hok. split; [intros e r; by apply ok_steps|]. intros Hk Hc. assert (SchedulerStop.exited (scheduler p)) as Hex.
  { destruct Hok as [_ _ Hst _ _]. unfold stage_ok in Hst. destruct (pc p); try tauto; destruct Hc as [Hc|Hc]; try done; destruct Hst as [Ho _]; congruence. }
  split; [done|]. intros w. destruct Hex as [_ Hw]. unfold exec, on_queue, on_execute, executes. destruct (alive p); [|done].
  destruct (Scheduler.workers (scheduler p) !! w) as [x|] eqn:E; [|done]. rewrite Forall_lookup in Hw. by rewrite (Hw _ _ E).
Qed.

Lemma ok_delivers p : ok p -> pc p = Done -> SchedulerStop.exited (scheduler p) /\ kept (queued p) (queue p).
Proof.
  intros [_ Hq Hst _ _] Hd. unfold stage_ok in Hst. rewrite Hd in Hst. destruct Hst as [Hex Hret]. split; [done|]. by apply kept_inv.
Qed.

Lemma ok_can_end p : ok p -> fits p -> can_finish p -> pc p <> Killed -> exists p', rtc step p p' /\ pc p' = Done.
Proof.
  intros Hok Hf Hcan Hk. destruct (pc p) as [rest n| | | | |] eqn:Hpc;
    [by eapply launch_can_end|by apply signal_can_end|by apply scheduler_can_end|by apply queue_can_end|by exists p; split; [apply rtc_refl|]|done].
Qed.

Section theorems.
Context (cpus : Z) (cfg : Scheduler.config) (sn s0 : Scheduler) (q0 : Q) (l0 : list bytes) (ts : list (Task * G)) (sh0 : Sh).
Hypothesis Hnew : Scheduler.NewScheduler cpus cfg = Ret (Some sn).
Hypothesis Hstart : Scheduler.Start sn = Ret s0.
Hypothesis Hq0 : inv l0 q0.
Hypothesis Hopen : is_open q0 = true.
Hypothesis Hts : Forall task_ok (map fst ts).

(** C3: only the actions can fail.  Whatever the order in which main adds the tasks,
    the dispatcher, the workers, the goroutines of the queue, the signal and the
    shutdowns take their steps, no step panics unless it is the execution of an
    action that itself panics on the state and the input that it finds; in
    particular no worker executes an action or sends to the queue once main has
    closed it, since by then all workers have returned. *)
Theorem program_safe p :
  reachable s0 q0 l0 ts sh0 p ->
  (forall e r, event_ok e p -> exec e p = Some r -> safe_step e p r) /\
  (pc p <> Killed -> is_open (queue p) = false \/ pc p = Done ->
    SchedulerStop.exited (scheduler p) /\ forall w, (forall i, exec (WorkerExecutes w i) p = None) /\ (forall b, exec (WorkerQueues w b) p = None)).
Proof. intros Hr. apply ok_safe. by eapply run_ok. Qed.

(** a program that ends has kept its promises.  When main has returned, every
    goroutine of the scheduler has ended and what the queue promises holds of all
    that was queued during the run. *)
Theorem program_delivers p :
  reachable s0 q0 l0 ts sh0 p -> pc p = Done -> SchedulerStop.exited (scheduler p) /\ kept (queued p) (queue p).
Proof. intros Hr. apply ok_delivers. by eapply run_ok. Qed.

(** C4: the program can end.  With at most as many tasks as the queue of the scheduler
    holds, however things stand, if the executions under way can return, there are
    steps that lead through the launch, a signal, the queueing of what was written
    and the shutdowns to the end of main: no goroutine is ever stuck. *)
Theorem program_can_end p :
  length ts <= Scheduler.SCHEDULER_TASK_Q_LEN -> reachable s0 q0 l0 ts sh0 p -> can_finish p -> pc p <> Killed ->
  exists p', rtc step p p' /\ pc p' = Done.
Proof. intros Hlen Hr. destruct (run_ok cpus cfg sn s0 q0 l0 ts sh0 Hnew Hstart Hq0 Hopen Hts p Hr) as [Hok Hf]. apply ok_can_end; auto. Qed.
End theorems.
End laws.
End program.
End Program.
