(* ===== verification/Generators.v ===== *)
(** The metrics generators as the actions of the tasks: [Execute] of each of
    them (lsvmi), on the state that Startup.v gives it, what is read for it and
    the variables that the generators share.

    An execution is one step of the program: what it reads is its input, the
    buffers that it queues are its output.  The shared variables, each behind a
    lock in the code or of one generator only, are read and written in this step. *)

From Stdlib Require Import ZArith Lia.
From Stdlib Require Import Floats.SpecFloat.
From stdpp Require Import base tactics numbers strings gmap list.
From S2P Require Import Prelude Scan GoLib GoTime GoFloat Scheduler ProcPaths MetricsCommon PidTidList.
From S2P Require Import PidStat PidStatus PidCmdline PidMetrics PidScan NetDev NetDevMetrics InternalMetrics SoftirqsMetrics.
From S2P Require Import InterruptsMetrics NetSnmp6Metrics NetSnmpMetrics StatMetrics Diskstats DiskstatsMetrics StatfsMetrics Qdisc QdiscMetrics OwnMetrics.
From S2P Require Import EndpointPool Compressor Config PoolConfig Startup Program.

Module Generators.
Import Config Startup MetricsCommon.

(** What does not change while the program runs: the C library, the kernel, the
    netlink package and the build. *)
Record Platform := mkPlatform {
  unicode_upper : bytes -> bytes;
  parse_other : bytes -> option spec_float;
  linuxClktckSec : spec_float;
  boottimeMsec : Z;
  pageSize : Z;
  linux5 : option Z;
  nl_uint32 : bytes -> Z;
  nl_uint64 : bytes -> Z;
  nl_string : bytes -> bytes;
  UnmarshalAttributes : bytes -> option (list (Z * bytes));
  os_environment : InternalMetrics.environment
}.

(** [initialCycleNum], [GlobalMetricsGeneratorStatsContainer], [netSnmp6IsUint32]
    and the list of processes and threads. *)
Record Shared := mkShared {
  sh_icm : Z;
  sh_stats : MetricsGeneratorStats;
  sh_isUint32 : list bool;
  sh_pidList : PidTidList.PidTidListCache
}.

(** What an execution of each generator reads: files, clocks, the statistics of
    the other parts of the program, and the orders of iteration over its maps. *)
Inductive input :=
| InInternal (o : InternalMetrics.orders) (scheduler : option (gmap bytes Scheduler.TaskStats))
    (compressors : option (nat * option (gmap bytes Compressor.CompressorStats))) (endpoints : option (option EndpointPool.HttpEndpointPoolStats))
    (mem : OwnMetrics.MemStats) (goroutines : Z) (self : read_result) (selfTs ts : Time) (osUptime : Z)
| InDiskstats (rd mrd : read_result) (now : Time) (order : Diskstats.devmap -> list bytes) (orderM : gmap bytes bool -> list bytes)
| InInterrupts (rd : read_result) (now : Time) (order : gmap bytes slice -> list bytes) (order2 : gmap bytes InterruptsMetrics.ProcInterruptsMetricsIrqData -> list bytes)
| InNetDev (rd : read_result) (now : Time) (order : gmap bytes (list Z) -> list bytes) (order2 : gmap bytes NetDevMetrics.ProcNetDevInfo -> list bytes)
| InNetSnmp6 (rd : read_result) (now : Time)
| InNetSnmp (rd : read_result) (now : Time)
| InPid (since now : Z) (root : option (list bytes)) (tasks : bytes -> option (list bytes)) (env : nat -> PidScan.Env) (endTs : Time)
| InSoftirqs (rd : read_result) (now : Time) (order : gmap bytes slice -> list bytes) (order2 : gmap bytes SoftirqsMetrics.ProcSoftirqsMetricsIrqData -> list bytes)
| InStat (rd : read_result) (now since : Time) (order : gmap Z (list Z) -> list Z) (order2 : gmap Z StatMetrics.ProcStatMetricsCpuInfo -> list Z)
    (orderD orderN : list nat)
| InQdisc (e : Qdisc.env) (now : Time) (order : Qdisc.infomap -> list Qdisc.QdiscInfoKey) (order2 : gmap Qdisc.QdiscInfoKey QdiscMetrics.QdiscMetricsInfo -> list Qdisc.QdiscInfoKey)
    (ords : Qdisc.QdiscInfoKey -> QdiscMetrics.orders)
| InStatfs (rd : read_result) (statfs : bytes -> option StatfsMetrics.Statfs_t) (now : Time)
    (order : gmap StatfsMetrics.StatfsMountinfo StatfsMetrics.StatfsInfo -> list StatfsMetrics.StatfsMountinfo).

Section execute.
Context (pf : Platform) (gl : Globals) (bufTargetSize : Z).
Abbreviation instance := (GlobalInstance gl).
Abbreviation hostname := (GlobalHostname gl).
Abbreviation root := (GlobalProcfsRoot gl).

Definition result : Type := outcome (generator * Shared * list bytes * bool).

(** The internal metrics: the snapshots and the lines of the Go runtime and of
    the process, then the rest. *)
Definition execute_internal (o : InternalMetrics.orders) (scheduler : option (gmap bytes Scheduler.TaskStats))
    (compressors : option (nat * option (gmap bytes Compressor.CompressorStats))) (endpoints : option (option EndpointPool.HttpEndpointPoolStats))
    (mem : OwnMetrics.MemStats) (goroutines : Z) (self : read_result) (selfTs ts : Time) (osUptime : Z) (g : Internal) (sh : Shared) : result :=
  go ← OwnMetrics.go_SnapStats mem goroutines (i_go g);
  pim ← match i_process g with
        | None => Ret None
        | Some pim => pim ← OwnMetrics.p_SnapStats self selfTs pim; Ret (Some pim)
        end;
  '(go, goLines) ← OwnMetrics.go_generateMetrics instance hostname (ts_suffix ts) go;
  '(pim, processLines) ← match pim with
        | None => Ret (None, [])
        | Some pim =>
          '(pim, lines) ← OwnMetrics.p_generateMetrics instance hostname (linuxClktckSec pf) (pageSize pf) (ts_suffix ts) pim;
          Ret (Some pim, lines)
        end;
  '(im, icm, stats, buf) ← InternalMetrics.Execute instance hostname (os_environment pf) o
    (InternalMetrics.mkSources scheduler compressors endpoints goLines processLines ts osUptime) (i_metrics g) (sh_icm sh) (sh_stats sh);
  Ret (GInternal (mkInternal im go pim), mkShared icm stats (sh_isUint32 sh) (sh_pidList sh), [buf], true).

(** The list of the partition, then the scan. *)
Definition execute_pid (since now : Z) (names : option (list bytes)) (tasks : bytes -> option (list bytes)) (env : nat -> PidScan.Env) (endTs : Time)
    (g : PidGen) (sh : Shared) : result :=
  '(cache, pidTidList, err) ← PidTidList.GetPidTidList since now names tasks (PidScan.partNo (pg_cfg g)) (sh_pidList sh);
  '(pm, icm, stats, bufs, res) ← PidScan.Execute instance hostname root (parse_other pf) (linuxClktckSec pf) (boottimeMsec pf) (pageSize pf)
    (pg_cfg g) (if err : bool then None else Some (default [] pidTidList)) env endTs bufTargetSize (pg_state g) (sh_icm sh) (sh_stats sh);
  Ret (GPid (mkPidGen (pg_cfg g) pm (pg_cache g)), mkShared icm stats (sh_isUint32 sh) cache, map (@concat byte) bufs, res).

(** The other generators queue one buffer or none. *)
Definition finish {G} (wrap : G -> generator) (sh : Shared) (r : outcome (G * Z * MetricsGeneratorStats * option bytes * bool)) : result :=
  '(g, icm, stats, buf, res) ← r;
  Ret (wrap g, mkShared icm stats (sh_isUint32 sh) (sh_pidList sh), option_list buf, res).

Definition execute (i : input) (sh : Shared) (g : generator) : option result :=
  match g, i with
  | GInternal g, InInternal o scheduler compressors endpoints mem goroutines self selfTs ts osUptime =>
    Some (execute_internal o scheduler compressors endpoints mem goroutines self selfTs ts osUptime g sh)
  | GDiskstats g, InDiskstats rd mrd now order orderM =>
    Some (finish GDiskstats sh (DiskstatsMetrics.Execute instance hostname (ProcPaths.DiskstatsPath root)
      (ProcPaths.MountinfoPath root (DiskstatsMetrics.mountinfoPid g)) (linux5 pf) rd mrd now order orderM g (sh_icm sh) (sh_stats sh)))
  | GInterrupts g, InInterrupts rd now order order2 =>
    Some (finish GInterrupts sh (InterruptsMetrics.Execute (unicode_upper pf) instance hostname (ProcPaths.InterruptsPath root)
      rd now order order2 g (sh_icm sh) (sh_stats sh)))
  | GNetDev g, InNetDev rd now order order2 =>
    Some (finish GNetDev sh ('(g, icm, stats, buf, res) ← NetDevMetrics.Execute instance hostname (ProcPaths.NetDevPath root)
      rd now order order2 g (sh_icm sh) (sh_stats sh);
      Ret (g, icm, stats, match buf with Some (NetDevMetrics.Queued buf) => Some buf | _ => None end, res)))
  | GNetSnmp6 g, InNetSnmp6 rd now =>
    Some ('(g, isUint32, stats, buf, res) ← NetSnmp6Metrics.Execute instance hostname (ProcPaths.NetSnmp6Path root)
      rd now g (sh_isUint32 sh) (sh_stats sh);
      Ret (GNetSnmp6 g, mkShared (sh_icm sh) stats isUint32 (sh_pidList sh), option_list buf, res))
  | GNetSnmp g, InNetSnmp rd now =>
    Some (finish GNetSnmp sh ('(g, stats, buf, res) ← NetSnmpMetrics.Execute instance hostname (ProcPaths.NetSnmpPath root) rd now g (sh_stats sh);
      Ret (g, sh_icm sh, stats, buf, res)))
  | GPid g, InPid since now names tasks env endTs => Some (execute_pid since now names tasks env endTs g sh)
  | GSoftirqs g, InSoftirqs rd now order order2 =>
    Some (finish GSoftirqs sh (SoftirqsMetrics.Execute instance hostname (ProcPaths.SoftirqsPath root) rd now order order2 g (sh_icm sh) (sh_stats sh)))
  | GStat g, InStat rd now since order order2 orderD orderN =>
    Some (finish GStat sh (StatMetrics.Execute instance hostname (ProcPaths.StatPath root) (linuxClktckSec pf)
      rd now since order order2 orderD orderN g (sh_icm sh) (sh_stats sh)))
  | GQdisc g, InQdisc e now order order2 ords =>
    Some (finish GQdisc sh (QdiscMetrics.Execute instance hostname (Qdisc.Parse (nl_uint32 pf) (nl_uint64 pf) (nl_string pf) (UnmarshalAttributes pf) e)
      now order order2 ords g (sh_icm sh) (sh_stats sh)))
  | GStatfs (g, pid), InStatfs rd statfs now order =>
    Some (finish (fun g => GStatfs (g, pid)) sh (StatfsMetrics.Execute instance hostname (ProcPaths.MountinfoPath root pid)
      rd statfs now order g (sh_icm sh) (sh_stats sh)))
  | _, _ => None
  end.

Definition generators : Program.TaskAction generator Shared input := execute.
End execute.
End Generators.
