(* ===== verification/Lsvmi.v ===== *)
(** The importer from its command line to its end: main (main.go) gives the
    scheduler, the tasks and the metrics queue of Startup.v, Program.v runs them,
    with the standard output or with the compressors and the endpoints of
    Sending.v as the queue. *)

From Stdlib Require Import ZArith Lia.
From stdpp Require Import base tactics numbers strings gmap list relations.
From S2P Require Import Prelude Scan GoLib GoTime EndpointPool Compressor MetricsQueue Sending.
From S2P Require Import PidTidList PidMetrics Qdisc InternalMetrics.
From S2P Require Import Scheduler SchedulerStop Config Logger PoolConfig StdoutQueue Startup Program Generators.

Module Lsvmi.
Import Config PoolConfig Startup.
#[local] Existing Instances StdoutQueue.stdout_queue StdoutQueue.stdout_laws Sending.pools_queue Sending.pools_laws.
Abbreviation max_partitions_ok r := (forall c, c_procPid (r_config r) = Some c -> (NumPartitions c <= 54)%Z).

(** ** The standard output *)

Definition banner : bytes := bs "# Metrics will be displayed at stdout" ++ [NL].

(** The queue with the first buffer in it. *)
Definition stdout_start (q : StdoutQueue.StdoutMetricsQueue) : StdoutQueue.system := StdoutQueue.mkSystem q ∅ [banner].

Lemma announced RAMInBytes cfg q0 q :
  StdoutQueue.NewStdoutMetricsQueue RAMInBytes cfg = Ret (inr q0) -> announce q0 = Ret q ->
  StdoutQueue.ok (stdout_start q) /\ StdoutQueue.isClosed q = false.
Proof.
  intros Hn Ha. destruct (StdoutQueue.new_ok _ _ _ Hn) as [Hok Hc]. unfold announce in Ha. apply bind_Ret_inv in Ha as ([q1 b] & Hg & Ha).
  set (s0 := StdoutQueue.mkSystem q0 ∅ []) in *.
  assert (StdoutQueue.exec StdoutQueue.Get s0 = Some (Ret (StdoutQueue.mkSystem q1 ({[b]} ∪ ∅) []))) as H1 by (cbn; by rewrite Hg).
  pose proof (StdoutQueue.exec_ok StdoutQueue.Get s0 Hok I) as Hok1. rewrite H1 in Hok1. destruct Hok1 as (s1 & [= <-] & Hok1).
  destruct (StdoutQueue.act_keeps StdoutQueue.Get s0 _ H1) as [Hc1 _]. cbn in Hc1.
  pose proof (StdoutQueue.write_ok _ b banner Hok1 ltac:(set_solver)) as Hok2.
  cbn [StdoutQueue.queue StdoutQueue.held StdoutQueue.queued] in Hok2.
  set (q2 := StdoutQueue.write b banner q1) in *. change (bs "# Metrics will be displayed at stdout" ++ [NL]) with banner in Ha. fold q2 in Ha.
  apply bind_Ret_inv in Ha as (o & Hqb & ->). unfold must in Hqb. destruct (StdoutQueue.QueueBuf b q2) as [o|] eqn:E; [|done]. injection Hqb as ->.
  assert (StdoutQueue.isClosed q2 = false) as Hc2 by (cbn; by rewrite Hc1).
  pose proof (StdoutQueue.queue_ok _ b q Hok2 ltac:(set_solver) Hc2 E) as Hok3.
  destruct (StdoutQueue.queue_flight _ b q Hok2 Hc2 E) as (_ & _ & _ & Hcl & _). split; [|done].
  cbn [StdoutQueue.queue StdoutQueue.held StdoutQueue.queued app] in Hok3. unfold stdout_start.
  replace (({[b]} ∪ ∅) ∖ {[b]} : gset nat) with (∅ : gset nat) in Hok3 by set_solver.
  replace (StdoutQueue.contents q2 b) with banner in Hok3; [done|].
  unfold q2, StdoutQueue.write, StdoutQueue.contents. cbn. rewrite lookup_insert_eq. cbn.
  unfold StdoutQueue.GetBuf in Hg. apply bind_Ret_inv in Hg as ([p b'] & Hg & [= <- <-]). cbn. by rewrite (StdoutQueue.GetBuf_mem _ _ _ Hg), lookup_insert_eq.
Qed.

(** What main has built. *)
Lemma main_queue {Level} (env : Environment Level) log r : main env log = Ret (inr (Some r)) -> start_queue env (r_config r) = Ret (inr (r_queue r)).
Proof.
  unfold main. destruct (printVer env); [done|]. intros H. apply try_Ret_inr in H as (cfg & _ & H). apply try_Ret_inr in H as (lg & _ & H).
  apply try_Ret_inr in H as (q & Hq & H). apply bind_Ret_inv in H as (o & Hs & H).
  destruct o as [sn|]; [|done]. apply bind_Ret_inv in H as (s & Hst & H).
  apply try_Ret_inr in H as (g & _ & H). apply try_Ret_inr in H as (ts & Hb & [= <-]). done.
Qed.

Lemma lift_inr {E E' A} (f : E -> E') (c : outcome (E + A)) a : lift f c = Ret (inr a) -> c = Ret (inr a).
Proof. unfold lift. intros (x & -> & H)%bind_Ret_inv. destruct x; congruence. Qed.

Section main.
Context {Level : Type} (env : Environment Level) (log : @Logger.Log Level) (r : Running Level) (off : Z).
Hypothesis Hmain : main env log = Ret (inr (Some r)).

(** The generators of the importer are the actions of its tasks, on the platform
    [pf]; [size] is the [GetTargetSize] of the queue. *)
Context (pf : Generators.Platform) (size : Z) (sh0 : Generators.Shared).
#[local] Instance actions : Program.TaskAction generator Generators.Shared Generators.input := Generators.generators pf (r_globals r) size.

(** The program that main starts, with a queue whose promise holds. *)
Lemma main_run {Q Buf Act} `{HQ : !MetricsQueue.MetricsQueue Q Buf Act} `{HL : !MetricsQueue.QueueLaws Q Buf Act} (q0 : Q) l0 p :
  MetricsQueue.inv l0 q0 -> MetricsQueue.is_open q0 = true ->
  Program.reachable off (r_scheduler r) q0 l0 (r_tasks r) sh0 p ->
  Program.ok off p /\ (max_partitions_ok r -> Program.fits p).
Proof.
  intros Hq Ho Hr. destruct (main_built env log r Hmain) as (n & sn & c & Hn & Hs & Hst & _). destruct (tasks_new env log r Hmain) as [Hnew Hfit].
  destruct (Program.run_ok off _ _ _ _ _ _ _ _ Hs Hst Hq Ho Hnew p Hr) as [Hok Hf]. split; [done|].
  intros Hp. apply Hf. specialize (Hfit Hp). by rewrite length_map in Hfit.
Qed.

(** At its start no execution is under way. *)
Lemma starts_idle {Q Buf Act} `{HQ : !MetricsQueue.MetricsQueue Q Buf Act} `{HL : !MetricsQueue.QueueLaws Q Buf Act} (q0 : Q) l0 :
  Program.can_finish (Program.launching (r_scheduler r) q0 l0 (r_tasks r) sh0).
Proof.
  exists (fun _ => True). split; [done|]. intros w x ts g Hw. exfalso. destruct (main_built env log r Hmain) as (n & sn & c & _ & Hs & Hst & _).
  apply Scheduler.NewScheduler_Ret in Hs as (k & _ & ->). cbn in Hst. injection Hst as Hst. cbn [Program.scheduler Program.launching] in Hw.
  rewrite <- Hst in Hw. cbn in Hw. by apply lookup_replicate in Hw as [[=] _].
Qed.

(** C2: the importer with the standard output.  Whatever the configuration that main
    accepts: no step of a run panics unless it is the [Execute] of a generator that
    itself panics; when main has returned, all goroutines of the scheduler have
    ended and the standard output is the banner and every buffer that the
    generators queued, in that order; and with at most 54 partitions the end can be
    reached whenever the executions under way can return. *)
Theorem lsvmi_prints q p :
  r_queue r = QStdout q ->
  Program.reachable off (r_scheduler r) (stdout_start q) [banner] (r_tasks r) sh0 p ->
  (forall e o, Program.event_ok off e p -> Program.exec e p = Some o -> Program.safe_step e p o) /\
  (Program.pc p = Program.Done -> SchedulerStop.exited (Program.scheduler p) /\
    StdoutQueue.stdout (StdoutQueue.queue (Program.queue p)) = StdoutQueue.lines (Program.queued p)) /\
  (max_partitions_ok r -> Program.can_finish p -> Program.pc p <> Program.Killed ->
    exists p', rtc (Program.step off) p p' /\ Program.pc p' = Program.Done).
Proof.
  intros Hq Hr. pose proof (main_queue env log r Hmain) as Hsq. unfold start_queue in Hsq. rewrite Hq in Hsq.
  destruct (useStdoutMetricsQueue env).
  2:{ apply try_Ret_inr in Hsq as (hp & _ & Hsq). by apply try_Ret_inr in Hsq as (cp & _ & Hsq). }
  apply try_Ret_inr in Hsq as (q0 & Hn%lift_inr & Hsq). apply bind_Ret_inv in Hsq as (q' & Ha & [= <-]).
  destruct (announced _ _ _ _ Hn Ha) as [Hok Hc].
  destruct (main_run (stdout_start q') [banner] p) as [Hp Hf]; [by split|simpl; by rewrite Hc|done|].
  split; [intros e o; by apply Program.ok_steps|]. split; [intros Hd; exact (Program.ok_delivers off p Hp Hd)|]. intros Hpart. apply Program.ok_can_end; auto.
Qed.

(** ** The compressors and the endpoints *)

Section sends.
Context {W : Type} (NewWriterLevel : Z -> option W) (Reset : W -> W) (Write : bytes -> W -> W * bytes * bool) (CloseW : W -> W * bytes)
  (gunzip : bytes -> option bytes) (hp : HttpPool) (cp : FullPool).
Context `{Hgz : !Compressor.GzipLaws NewWriterLevel Reset Write CloseW (compressionLevel cp) gunzip}.
Hypothesis Htarget : Compressor.target_ok (batchTargetSize cp).

#[local] Instance send_ops : MetricsQueue.MetricsQueue Sending.Pools (bytes * nat) Sending.action :=
  Sending.pools_queue NewWriterLevel Reset Write CloseW (compressionLevel cp) (batchTargetSize cp) (flushInterval cp).
#[local] Instance send_laws : MetricsQueue.QueueLaws Sending.Pools (bytes * nat) Sending.action :=
  Sending.pools_laws NewWriterLevel Reset Write CloseW (compressionLevel cp) (batchTargetSize cp) (flushInterval cp) gunzip Htarget (Some Compressor.NewCompressorStats).

(** The pools, each loop with its counters. *)
Definition send_start : Sending.Pools (W := W) :=
  Sending.start (compressionLevel cp) (batchTargetSize cp) (core cp) (Some Compressor.NewCompressorStats) (endpoints hp).

Lemma send_start_ok c : start_queue env (r_config r) = Ret (inr (QPools hp cp)) ->
  c_httpEndpointPool (r_config r) = Some c -> endpoints_ok c -> (forall l, e_shuffle env l ≡ₚ l) -> (1 <= e_availableCpus env)%Z ->
  MetricsQueue.inv [] send_start /\ MetricsQueue.is_open send_start = true.
Proof.
  intros Hsq Hc Hep Hsh Hcpu. unfold start_queue in Hsq. destruct (useStdoutMetricsQueue env).
  { apply try_Ret_inr in Hsq as (q0 & _ & Hsq). by apply bind_Ret_inv in Hsq as (q & _ & Hsq). }
  apply try_Ret_inr in Hsq as (hp' & Hhp%lift_inr & Hsq). apply try_Ret_inr in Hsq as (cp' & Hcp%lift_inr & [= -> Hcp']).
  destruct (http_pool_made _ _ _ (AnyLsvmi (r_config r)) c _ ltac:(cbn; by rewrite Hc) Hsh Hep Hhp) as [Hi Hfl].
  destruct (compressors_made _ _ _ _ Hcp Hcpu) as (Hm & Hcl & Hst & Hn). split; [|done]. cbn [MetricsQueue.inv send_laws Sending.pools_laws].
  assert (core cp = (Compressor.Start (core cp')).1) as Hcore by (by rewrite <- Hcp'). unfold send_start. rewrite Hcore.
  apply (Sending.pools_start NewWriterLevel Reset Write CloseW (compressionLevel cp) (batchTargetSize cp) (flushInterval cp)); try done; [by right|lia].
Qed.

(** C1: the importer with endpoints.  For any configuration that main accepts, with a
    batch target size from 16 bytes to 2^48 ([Compressor.target_ok]), distinct
    addresses, at least one CPU and buffers of at most 2^59 bytes
    ([Compressor.small]): no step of a run panics unless it is the [Execute] of a
    generator that itself panics; when main has returned, every goroutine has ended, every buffer that the
    generators queued is in exactly one batch that was handed to the endpoints and
    that decompresses to its buffers, the batches that endpoints accepted are those
    that were sent without an error, and every endpoint is back in the healthy
    list; and with at most 54 partitions the end can be reached whenever the
    executions under way can return. *)
Theorem lsvmi_sends c p :
  r_queue r = QPools hp cp -> c_httpEndpointPool (r_config r) = Some c -> endpoints_ok c ->
  (forall l, e_shuffle env l ≡ₚ l) -> (1 <= e_availableCpus env)%Z ->
  Program.reachable off (r_scheduler r) send_start [] (r_tasks r) sh0 p ->
  (forall e o, Program.event_ok off e p -> Program.exec e p = Some o -> Program.safe_step e p o) /\
  (Program.pc p = Program.Done -> SchedulerStop.exited (Program.scheduler p) /\ Sending.all_sent gunzip (Program.queued p) (Program.queue p)) /\
  (max_partitions_ok r -> Program.can_finish p -> Program.pc p <> Program.Killed ->
    exists p', rtc (Program.step off) p p' /\ Program.pc p' = Program.Done).
Proof.
  intros Hq Hc Hep Hsh Hcpu Hr. pose proof (main_queue env log r Hmain) as Hsq. rewrite Hq in Hsq.
  destruct (send_start_ok c Hsq Hc Hep Hsh Hcpu) as [Hi Ho]. destruct (main_run send_start [] p Hi Ho Hr) as [Hp Hf].
  split; [intros e o; by apply Program.ok_steps|]. split; [intros Hd; exact (Program.ok_delivers off p Hp Hd)|]. intros Hpart. apply Program.ok_can_end; auto.
Qed.
End sends.
End main.

(** ** Examples *)

(** One task, one worker, the standard output: the program from its start to the
    end of main, with two buffers. *)
Definition sample_scheduler : Scheduler.Scheduler :=
  match Scheduler.NewScheduler 1 (Scheduler.CfgScheduler (Some 1%Z)) with
  | Ret (Some s) => match Scheduler.Start s with Ret s => s | _ => s end
  | _ => Scheduler.sample_init
  end.
(** An action that writes what it is told. *)
#[local] Instance sample_action : Program.TaskAction unit unit (list bytes * bool) := fun i _ _ => Some (Ret (tt, tt, i.1, i.2)).
Definition sample_tasks : list (Scheduler.Task * unit) := [(Scheduler.sample_task "stat" 100, tt)].
Abbreviation sample_program := (Program.Program (Q := StdoutQueue.system) (G := unit) (Sh := unit)).
Definition sample_start : sample_program := Program.launching sample_scheduler
  (StdoutQueue.mkSystem (StdoutQueue.sample_queue 1) ∅ []) [] sample_tasks tt.

Abbreviation event := (Program.event (Buf := nat) (Act := StdoutQueue.event) (In := list bytes * bool)).
Definition launch_events : list event :=
  [Program.AddTask; Program.Launched; Program.SchedulerEvent (Scheduler.EDispTask (Scheduler.at_ms 1010));
   Program.SchedulerEvent Scheduler.EDispSend; Program.SchedulerEvent (Scheduler.EWorkRecv 0 (Scheduler.at_ms 1011));
   Program.WorkerExecutes 0 ([bs "a 1"; bs "b 2"], true);
   Program.QueueEvent StdoutQueue.Get; Program.QueueEvent (StdoutQueue.Write 0 (bs "a 1")); Program.WorkerQueues 0 0;
   Program.QueueEvent StdoutQueue.Get; Program.QueueEvent (StdoutQueue.Write 1 (bs "b 2"))].
Definition stop_events : list event :=
  [Program.SignalReceived; Program.SchedulerEvent Scheduler.EDispDone; Program.QueueEvent StdoutQueue.LoopReceive; Program.WorkerQueues 0 1;
   Program.SchedulerEvent (Scheduler.EWorkExec 0 (Scheduler.at_ms 1013) true); Program.SchedulerEvent (Scheduler.EWorkSend 0);
   Program.SchedulerEvent (Scheduler.EWorkDone 0); Program.SchedulerStopped].
Definition drain_events : list event :=
  [Program.QueueEvent StdoutQueue.LoopPrint; Program.QueueEvent StdoutQueue.LoopReceive; Program.QueueEvent StdoutQueue.LoopPrint;
   Program.QueueEvent StdoutQueue.LoopReceive; Program.QueueStopped].

Fixpoint run (es : list event) (p : sample_program) : option sample_program :=
  match es with
  | [] => Some p
  | e :: es => match Program.exec e p with Some (Ret p) => run es p | _ => None end
  end.
Fixpoint run_allowed (es : list event) (p : sample_program) : Prop :=
  match es with
  | [] => True
  | e :: es => Program.event_ok Scheduler.sample_off e p /\ match Program.exec e p with Some (Ret p) => run_allowed es p | _ => True end
  end.

Lemma run_steps es : forall p p', run es p = Some p' -> run_allowed es p -> rtc (Program.step Scheduler.sample_off) p p'.
Proof.
  induction es as [|e es IH]; intros p p' Hrun Hall; simpl in *; [injection Hrun as <-; apply rtc_refl|].
  destruct Hall as [He Hall]. destruct (Program.exec e p) as [[p1| |]|] eqn:E; try done. eapply rtc_l; [by exists e|by apply IH].
Qed.

Definition sample (es : list event) : sample_program := default sample_start (run es sample_start).
Definition sample_mid : sample_program := sample launch_events.
Definition sample_stopping : sample_program := sample (launch_events ++ stop_events).
Definition sample_end : sample_program := sample (launch_events ++ stop_events ++ drain_events).
Abbreviation sample_reachable := (Program.reachable Scheduler.sample_off sample_scheduler
  (StdoutQueue.mkSystem (StdoutQueue.sample_queue 1) ∅ []) [] sample_tasks tt).

Lemma sample_reach es : is_Some (run es sample_start) -> run_allowed es sample_start -> sample_reachable (sample es).
Proof. intros [p Hp] Hall. unfold sample. rewrite Hp. by apply (run_steps es). Qed.

(** The whole run. *)
Example sample_output : Program.pc sample_end = Program.Done /\
  StdoutQueue.stdout (StdoutQueue.queue (Program.queue sample_end)) = bs "a 1" ++ [NL] ++ bs "b 2" ++ [NL] /\
  Program.queued sample_end = [bs "a 1"; bs "b 2"].
Proof. vm_compute. done. Qed.

Ltac allowed := vm_compute; repeat split; intros; by apply list.Forall_true.
Lemma sample_allowed : run_allowed (launch_events ++ stop_events ++ drain_events) sample_start.
Proof. allowed. Qed.
Lemma sample_mid_allowed : run_allowed launch_events sample_start.
Proof. allowed. Qed.
Lemma sample_stopping_allowed : run_allowed (launch_events ++ stop_events) sample_start.
Proof. allowed. Qed.

Definition sample_new : Scheduler.Scheduler := 
  match Scheduler.NewScheduler 1 (Scheduler.CfgScheduler (Some 1%Z)) with Ret (Some s) => s | _ => Scheduler.sample_init end.

Lemma sample_started :
  Scheduler.NewScheduler 1 (Scheduler.CfgScheduler (Some 1%Z)) = Ret (Some sample_new) /\ Scheduler.Start sample_new = Ret sample_scheduler /\
  MetricsQueue.inv [] (StdoutQueue.mkSystem (StdoutQueue.sample_queue 1) ∅ []) /\ Forall Program.task_ok (map fst sample_tasks).
Proof.
  split; [vm_compute; reflexivity|]. split; [vm_compute; reflexivity|]. split.
  - split; [|done]. by apply (StdoutQueue.new_ok (fun _ => Some 65536%Z) (AnyOwn (mkCompressor 1 1 1 6 [] []))).
  - constructor; [|constructor]. split; [done|]. split; [done|]. vm_compute. split; discriminate.
Qed.

Lemma program_safe_witness :
  SchedulerStop.exited (Program.scheduler sample_stopping) /\
  forall w, (forall i, Program.exec (Program.WorkerExecutes w i) sample_stopping = None) /\ (forall b, Program.exec (Program.WorkerQueues w b) sample_stopping = None).
Proof.
  destruct sample_started as (H1 & H2 & H3 & H4).
  refine (proj2 (Program.program_safe Scheduler.sample_off 1 (Scheduler.CfgScheduler (Some 1%Z)) sample_new sample_scheduler
    (StdoutQueue.mkSystem (StdoutQueue.sample_queue 1) ∅ []) [] sample_tasks tt H1 H2 H3 eq_refl H4 sample_stopping _) _ _).
  - apply sample_reach; [vm_compute; by eexists|exact sample_stopping_allowed].
  - vm_compute. discriminate.
  - left. vm_compute. reflexivity.
Defined.

Lemma program_delivers_witness :
  SchedulerStop.exited (Program.scheduler sample_end) /\
  StdoutQueue.stdout (StdoutQueue.queue (Program.queue sample_end)) = StdoutQueue.lines (Program.queued sample_end).
Proof.
  destruct sample_started as (H1 & H2 & H3 & H4).
  refine (Program.program_delivers Scheduler.sample_off 1 (Scheduler.CfgScheduler (Some 1%Z)) sample_new sample_scheduler
    (StdoutQueue.mkSystem (StdoutQueue.sample_queue 1) ∅ []) [] sample_tasks tt H1 H2 H3 eq_refl H4 sample_end _ _).
  - apply sample_reach; [vm_compute; by eexists|exact sample_allowed].
  - vm_compute. reflexivity.
Defined.

Lemma program_can_end_witness : exists p', rtc (Program.step Scheduler.sample_off) sample_mid p' /\ Program.pc p' = Program.Done.
Proof.
  destruct sample_started as (H1 & H2 & H3 & H4).
  refine (Program.program_can_end Scheduler.sample_off 1 (Scheduler.CfgScheduler (Some 1%Z)) sample_new sample_scheduler
    (StdoutQueue.mkSystem (StdoutQueue.sample_queue 1) ∅ []) [] sample_tasks tt H1 H2 H3 eq_refl H4 sample_mid _ _ _ _).
  - vm_compute. lia.
  - apply sample_reach; [vm_compute; by eexists|exact sample_mid_allowed].
  - exists (fun _ => True). split; [done|]. intros w x ts g _ _ _ sh _. by exists ([], true), tt, tt, [], true.
  - vm_compute. discriminate.
Defined.

(** The configuration of the examples of Startup.v, with both kinds of queues. *)
Definition sample_platform : Generators.Platform :=
  Generators.mkPlatform id (fun _ => None) PidMetrics.sample_clk 1000 4096 None Qdisc.sample_uint Qdisc.sample_uint Qdisc.sample_string Qdisc.sample_unmarshal
    InternalMetrics.sample_env.
Definition sample_shared : Generators.Shared := Generators.mkShared 0 ∅ [] (PidTidList.NewPidTidListCache 1 0 PidTidList.PID_LIST_CACHE_PID_ENABLED).
Abbreviation sample_actions r := (actions r sample_platform 65536).

Lemma lsvmi_prints_witness : exists r q p', main (sample_env true) sample_log = Ret (inr (Some r)) /\ r_queue r = QStdout q /\
  rtc (Program.step (HA := sample_actions r) 0) (Program.launching (r_scheduler r) (stdout_start q) [banner] (r_tasks r) sample_shared) p' /\
  Program.pc p' = Program.Done.
Proof.
  destruct (sample_running true) as (r & Hr & Hp). pose proof (main_queue _ _ _ Hr) as Hsq. unfold start_queue in Hsq. simpl in Hsq.
  apply try_Ret_inr in Hsq as (q0 & _ & Hsq). apply bind_Ret_inv in Hsq as (q & _ & [= Hq]). symmetry in Hq.
  destruct (lsvmi_prints (sample_env true) sample_log r 0 Hr sample_platform 65536 sample_shared q _ Hq (rtc_refl _ _)) as (_ & _ & He).
  destruct (He Hp) as (p' & Hs & Hd); [by eapply starts_idle|discriminate|]. exists r, q, p'. exact (conj Hr (conj Hq (conj Hs Hd))).
Defined.

Definition send_view (o : outcome (main_error + option (Running bool))) : option (Z * Z * option HttpEndpointPoolConfig) :=
  match o with
  | Ret (inr (Some r)) =>
    match r_queue r with QPools _ cp => Some (compressionLevel cp, batchTargetSize cp, c_httpEndpointPool (r_config r)) | _ => None end
  | _ => None
  end.
Lemma sample_sends : send_view (main (sample_env false) sample_log) =
  Some (CompressionLevel DefaultCompressorPoolConfig, 65536%Z, Some DefaultHttpEndpointPoolConfig).
Proof. vm_compute. reflexivity. Qed.

Abbreviation hdr_ops cp := (send_ops Compressor.hdr_new Compressor.hdr_reset Compressor.hdr_write Compressor.hdr_close cp).
Abbreviation hdr_send_laws cp Hgz Ht := (send_laws Compressor.hdr_new Compressor.hdr_reset Compressor.hdr_write Compressor.hdr_close
  Compressor.hdr_gunzip cp (Hgz := Hgz) Ht).

Lemma lsvmi_sends_witness : exists r hp cp
  (Hgz : Compressor.GzipLaws Compressor.hdr_new Compressor.hdr_reset Compressor.hdr_write Compressor.hdr_close (compressionLevel cp) Compressor.hdr_gunzip)
  (Ht : Compressor.target_ok (batchTargetSize cp)) p',
  main (sample_env false) sample_log = Ret (inr (Some r)) /\ r_queue r = QPools hp cp /\
  rtc (Program.step (HQ := hdr_ops cp) (HL := hdr_send_laws cp Hgz Ht) (HA := sample_actions r) 0)
    (Program.launching (r_scheduler r) (send_start hp cp) [] (r_tasks r) sample_shared) p' /\ Program.pc p' = Program.Done.
Proof.
  destruct (sample_running false) as (r & Hr & Hp). pose proof sample_sends as Hv. rewrite Hr in Hv. simpl in Hv.
  destruct (r_queue r) as [hp cp|] eqn:Hq; [|done]. injection Hv as Hl Ht Hc.
  assert (Compressor.GzipLaws Compressor.hdr_new Compressor.hdr_reset Compressor.hdr_write Compressor.hdr_close (compressionLevel cp) Compressor.hdr_gunzip) as Hgz
    by (apply Compressor.hdr_laws_at; by rewrite Hl).
  assert (Compressor.target_ok (batchTargetSize cp)) as Htarget by (rewrite Ht; unfold Compressor.target_ok; lia).
  assert (endpoints_ok DefaultHttpEndpointPoolConfig) as Hep.
  { exists []. split; [done|]. split; [vm_compute; discriminate|]. split; [repeat constructor; vm_compute; discriminate|]. apply NoDup_singleton. }
  destruct (lsvmi_sends (sample_env false) sample_log r 0 Hr sample_platform 65536 sample_shared _ _ _ _ Compressor.hdr_gunzip hp cp Htarget _ _ Hq Hc Hep
    (fun _ => reflexivity _) ltac:(simpl; lia) (rtc_refl _ _)) as (_ & _ & He).
  destruct (He Hp) as (p' & Hs & Hd); [by eapply starts_idle|discriminate|]. exists r, hp, cp, Hgz, Htarget, p'. exact (conj Hr (conj Hq (conj Hs Hd))).
Defined.
End Lsvmi.
